(* ===== verification/_CoqProject ===== *)
-Q . S2P
Prelude.v
StableSort.v
Abi.v
Registry.v
Machine.v
Ir.v
Format.v
World.v
FormatRun.v
Api.v
ApiFrame.v
ApiSafe.v
ApiCalls.v
ApiTypes.v
ApiRun.v
Plugin.v
Cli.v
InitCount.v
ComputeOffsets.v
OutputBuilder.v
SymbolsTable.v
SectionHandler.v
Relocation.v
IrBuilder.v
Endian.v
Bits.v
Reloc.v
Hash.v
Utils.v
Leb128.v
HashTable.v
HashTableSpec.v
HashGrowth.v
Strtab.v
ElfStrtab.v
ElfStrtabFinal.v
Cache.v
CacheRing.v
CacheFiles.v
CacheOps.v
CacheCalls.v
CacheMain.v
CacheMemory.v
StateRes.v
BfdSection.v
SectionList.v
SectionMake.v
Linker.v
LinkerFiles.v
LinkerState.v
LinkerRound.v
LinkerLoop.v
LinkerCall.v
LinkerMain.v
LinkerResolve.v
LinkerObjects.v
LinkerOrder.v
VersionScript.v
LinkOnce.v
Decimal.v
Archive.v
ArchiveWrite.v
ArchiveLayout.v
ArchiveMembers.v
ArchiveArmap.v
ArchiveImage.v
ArchiveRead.v
ArchiveRound.v
ArchiveLimits.v
Hex.v
Ihex.v
IhexScan.v
IhexWrite.v
Srec.v
SrecScan.v
SrecRead.v
SrecSymbols.v
SrecRound.v
SrecSafe.v
SrecLimits.v
