(* ===== verification/Prelude.v ===== *)
(** * OcarinaLNK: a verification library

    OcarinaLNK is a linker with a C ABI. Its own code is the C++ core under
    src/src/olnk/, the headers of the ABI under src/include/olnk/ and the plugins
    under src/plugins/; src/tooling/bfd-scrape/bfd/ holds the GNU BFD library it
    draws on, of which the parts every back end calls are modelled here.

    ** How the parts interact

    The command line (cli.cpp) turns arguments into calls of the public API
    (api.cpp): it creates a context and a config, sets the options, runs a
    session and destroys everything. A session looks a format up in the format
    registry (format.cpp) and a machine in the machine registry (machine.cpp),
    both of which can be extended from Lua profiles, and lets the format
    serializer drive the callbacks of the format, which write the output file
    through the host services of the session. The internal passes (offsets,
    image, symbols, sections, relocations, IR builder) and the small modules
    (hashes, cache, files, Lua helpers) are written and tested on their own; the
    pipeline that will call them (linker.cpp) is a scaffold.

    ** The files

    - Prelude: notations, tactics, hints, machine integers, the [outcome] of
      code that can fail. StableSort: std::stable_sort and what it guarantees.
    - Abi: the enumerations of olnk-api.h with their numbers. Registry: the
      name keys, table scans and storage pools the format and machine registries
      share.
    - Machine, Format: machine.cpp and format.cpp: descriptors, tables, lookup,
      instances; loading from Lua profiles.
    - Ir: ir.cpp, the read-only image view with its iterators and visitors.
    - World: the state of the library: a heap of typed objects, the exceptions
      its allocations will throw, the file system and the events the outside
      sees; the monad over it and its weakest preconditions.
    - FormatRun: the callbacks of the built-in formats and format_serializer.cpp.
    - Api: every function of api.cpp, and the pipeline of linker.cpp.
      ApiFrame: the objects olnk_link does not touch.
      ApiSafe, ApiCalls, ApiTypes, ApiRun: the theorems. InitCount: the atomic
      counter of olnk_initialize and olnk_shutdown under any interleaving of
      threads with relaxed reads.
    - Plugin: plugin.cpp and the plugins of the distribution.
    - Cli: cli.cpp, run_cli from its arguments to its exit code.
    - ComputeOffsets, OutputBuilder, SymbolsTable, SectionHandler, Relocation,
      IrBuilder: the files of those names.
    - Hash: hash.cpp. Utils: threading.cpp, diagnostics.cpp, handle_header.cpp,
      incremental.cpp, file_io.cpp, memory_map.cpp and the Lua helpers, one
      Module each.
    - Endian, Leb128 (libbfd.c), Bits and Reloc (reloc.c), HashTable,
      HashTableSpec, Strtab (hash.c), ElfStrtab and ElfStrtabFinal (elf-strtab.c),
      Hex, Ihex, IhexScan, IhexWrite (ihex.c): the BFD core.
    - Cache: cache.c and the reading and writing operations of bfdio.c, over a
      model of C's files: names, inodes, and streams, which are buffered - they
      hold back bytes that were written and fetch bytes ahead, as much as
      [os_buffering] says - and must be moved between reading and writing; answers
      for the calls that may fail; the heap of BFDs with the links of the
      least-recently-used ring. CacheRing: running a program, the ring as a
      list, taking a file to close. CacheFiles, CacheOps, CacheCalls: the
      specification without a cache or buffers, where every file is open; the
      relation to it, and each operation. CacheMain: the theorems. CacheMemory: files in
      memory.
    - HashGrowth: how large a hash table gets. StateRes: the state monad of the
      code below, with timeouts and undefined behaviour as results, and its
      rules. BfdSection: section.c over sections on heaps with their links;
      SectionList, SectionMake: the list and the making of sections.
    - Linker, LinkerFiles: linker.c's table of symbols, its state table and the
      loop over it, and the reading of objects and archives. LinkerState,
      LinkerRound: the heap of symbols, the invariant [linked], and each action.
      LinkerLoop, LinkerCall, LinkerMain: the loop for a row, one call, its
      theorem, and the symbol for which it does not end. LinkerResolve,
      LinkerObjects, LinkerOrder: the precedence of symbols, files of symbols
      against it, and their order.
    - VersionScript: linker.c's search for the version of a symbol. LinkOnce:
      its table of the sections that are linked once, and what
      becomes of duplicates.
    - Decimal: the numbers printf prints and strtol, atoi and sscanf read.
      Archive, ArchiveWrite: reading and writing archives (archive.c, with the
      64-bit symbol table of archive64.c): magic, symbol tables, table of long
      names, headers, contents. ArchiveLayout: where the parts of an archive go.
      ArchiveMembers, ArchiveArmap, ArchiveImage: the members, the symbol table
      and the whole file as they are written. ArchiveRead, ArchiveRound: reading
      that file back. ArchiveLimits: archives that are not read back as written.
    - Srec: S-records (srec.c). SrecScan: one record. SrecRead: reading sections.
      SrecSymbols: the symbols of symbolsrec files. SrecRound: what is written is
      read back. SrecSafe: any file at all. SrecLimits: files that are not read
      back, and data that are written for ever.

    ** What the theorems show

    - The passes: the layout is the unbounded one whenever it fits, and refused
      otherwise; images are well formed and do not depend on the order of the
      input; symbol and section tables are sorted, complete and found by name.
    - The library: [ApiRun.link_refines_plan] relates olnk_link to a plan made
      from the config alone, and [Cli.run_cli_refines] does so for a whole
      command line; [ApiSafe], [ApiCalls] and [ApiTypes] hold for any sequence of
      API calls and any failures of allocation: no undefined behaviour, handles
      keep their types, nothing leaks but what [ApiSafe.session_create_leaks]
      exhibits.
    - The counter: balanced and lock free under every schedule.
    - Hash builders refine a specification without pointers, hash tables refine
      finite maps, string tables hold what was added. ELF string tables keep
      their invariant under additions, reference counting, save and restore;
      once finalized, every offset leads to its string in the written section
      and no written string ends another.
    - Relocation: overflow is reported exactly when the value does not fit as
      the howto reads it, only the field changes, nothing outside the section is
      touched, and the two relocation routines agree.
    - The file cache: closing and reopening files behind the caller's back, and
      the buffers of the streams, are not seen by any sequence of calls within the
      contract, from a state that [CacheMain.ready] accepts: every file closed,
      and no file that can be written open to another BFD
      ([CacheMain.cache_transparent]).  The exception is the size of a file while
      written bytes may be held back, which is between the size it had when it was
      last flushed and the one it will have
      ([CacheMain.stat_sees_what_is_flushed]).  The streams in use are counted and
      bounded; a file in memory is an array of bytes.
    - Sections are listed, numbered and found by name through every call that
      makes one. Adding a symbol of any kind to the linker's table ends and keeps
      its invariant ([LinkerMain.add_one_symbol_correct], with the exception it
      names: [LinkerMain.self_indirect_hangs]); files of plain symbols resolve
      to the winners of a precedence ([LinkerOrder.link_resolves_winners]),
      in any order ([LinkerOrder.link_order_irrelevant]). The version of a symbol
      is that of the strongest match of the script
      ([VersionScript.find_version_correct]); the first section of a name is kept
      and the later ones are discarded for it ([LinkOnce.link_once_correct]).
    - Archives of files with proper names are written in full, and reading what
      was written gives the names, the contents and, through the symbol table,
      the member of each global symbol ([ArchiveRound.archive_roundtrip], for the
      COFF and 64-bit styles).
    - The encodings: byte orders, LEB128, Intel Hex and S-records (with their
      symbols, from any sequence of calls that set contents) are read back as
      written, and the readers stay within their buffers on any input.

    ** Conventions, bounds and fuel

    A w-bit unsigned integer is a [Z] with its wrap-around written out ([wrap]);
    signed overflow, accesses outside an object, and use after free are an
    undefined outcome that the theorems exclude. Loops over data are structural;
    where fuel is passed, a theorem gives the amount that is enough (the length
    of the input for the scanners, the size of the table for the probes) and the
    result is stated for it: the loop that copies a member into an archive takes a
    turn for each byte at most. The round trip of archives is for those whose
    parts add up to less than 2^31 bytes ([ArchiveImage.size_bound]), where the
    int that indexes the names and the four bytes of an offset are enough.
    What <aout/ar.h> and libiberty give to archives is stated by the classes
    [Archive.ArchiveFormat] and [ArchiveWrite.FileNames], with the instances
    [ar_format] and [unix_names]. Parameters of the definitions stand for code not
    in the repository's own files: the Klyspec parsers, XXH3, the dynamic loader,
    the Lua interpreter, the file system.

    ** Not modelled

    - lua_bindings.cpp builds Lua tables through sol2: what it does is what those
      vendored libraries do. The Lua profiles are data.
    - The registration of argument specs with Klyspec and main, around run_cli.
    - Exhaustion of memory where the code itself does not handle it (the passes
      and the plugin loader let the exception pass).
    - Of cache.c and bfdio.c: mapping files to memory (cache_bmmap, bfd_mmap), the
      wrappers of fopen and modification times, the size limits taken from
      archives and sections (bfd_get_file_size), and errno but for its ENOSPC.
    - Of section.c: the contents of sections and groups. Of linker.c: the final
      link (writing symbols and contents). The
      structures of linker.c's table are declared in a header the repository
      lacks; their fields are those linker.c uses. The linker's callbacks, the
      symbols of a file and the elements of an archive are parameters, and the
      theorems on the table are for links in which memory lasts.
    - Of archive.c: thin archives and archives in archives, with the relative
      paths they need, bfd_generic_stat_arch_elt, and the closing of archives.
    - The processor and object-format back ends of BFD and the rest of its core
      (ELF and COFF linking, debug information): several hundred thousand lines
      with little shared logic. Of its generic parts, the final link of linker.c,
      the other record formats (tekhex.c, verilog.c) and the probing of formats
      (format.c, opncls.c) come next for an extension.
*)

From Stdlib Require Export ZArith Lia.
From stdpp Require Export base numbers strings gmap sorting option.
From stdpp Require Export list.

#[global] Open Scope Z_scope.

(** ** Scope and notations of the development *)

Declare Scope olnk_scope.
Delimit Scope olnk_scope with olnk.
#[global] Open Scope olnk_scope.

(** C's bit operations, as the sources write them. *)
Notation "x .& y" := (Z.land x y) (at level 40, left associativity) : olnk_scope.
Notation "x .| y" := (Z.lor x y) (at level 50, left associativity) : olnk_scope.
Notation "x .^ y" := (Z.lxor x y) (at level 50, left associativity) : olnk_scope.
Notation "x .<< y" := (Z.shiftl x y) (at level 40, left associativity) : olnk_scope.
Notation "x .>> y" := (Z.shiftr x y) (at level 40, left associativity) : olnk_scope.

(** ** Tactics *)

(** Case analysis on every [if] and [match] of the goal (or of a hypothesis),
    closing the branches that are contradictory. *)
Ltac split_ifs :=
  repeat (case_match; simplify_eq/=; try done).

(** Boolean comparisons turned into propositions, everywhere. *)
Ltac bool_prop :=
  repeat match goal with
  | H : (_ && _) = true |- _ => apply andb_true_iff in H as [? ?]
  | H : (_ && _) = false |- _ => apply andb_false_iff in H
  | H : (_ || _) = false |- _ => apply orb_false_iff in H as [? ?]
  | H : (_ || _) = true |- _ => apply orb_true_iff in H
  | H : negb _ = true |- _ => apply negb_true_iff in H
  | H : negb _ = false |- _ => apply negb_false_iff in H
  | H : (_ <? _)%Z = true |- _ => apply Z.ltb_lt in H
  | H : (_ <? _)%Z = false |- _ => apply Z.ltb_ge in H
  | H : (_ <=? _)%Z = true |- _ => apply Z.leb_le in H
  | H : (_ <=? _)%Z = false |- _ => apply Z.leb_gt in H
  | H : (_ =? _)%Z = true |- _ => apply Z.eqb_eq in H
  | H : (_ =? _)%Z = false |- _ => apply Z.eqb_neq in H
  | H : bool_decide _ = true |- _ => apply bool_decide_eq_true in H
  | H : bool_decide _ = false |- _ => apply bool_decide_eq_false in H
  | H : (_ =? _)%string = true |- _ => apply String.eqb_eq in H
  | H : (_ =? _)%string = false |- _ => apply String.eqb_neq in H
  end.

(** Linear arithmetic with [/] and [mod] by constants. *)
Ltac divmod_lia := Z.to_euclidean_division_equations; lia.

(** ** Hint databases *)

Create HintDb olnk.
Create HintDb olnk_rw.

(** ** Machine integers

    A [w]-bit unsigned integer is a [Z] in [0, 2^w); [wrap w] is the
    conversion C applies to a result that does not fit. *)

Definition wrap (w z : Z) : Z := z mod 2 ^ w.
Definition fits (w z : Z) : Prop := 0 <= z < 2 ^ w.

Abbreviation u8 := (wrap 8).
Abbreviation u16 := (wrap 16).
Abbreviation u32 := (wrap 32).
Abbreviation u64 := (wrap 64).

(** Two's complement reading of a [w]-bit pattern. *)
Definition sext (w z : Z) : Z :=
  let u := wrap w z in if u <? 2 ^ (w - 1) then u else u - 2 ^ w.

Definition UINT64_MAX : Z := 2 ^ 64 - 1.
Definition INT64_MIN : Z := - 2 ^ 63.

#[global] Instance fits_dec w z : Decision (fits w z).
Proof. unfold fits. apply _. Defined.

Lemma pow2_pos w : 0 <= w -> 0 < 2 ^ w.
Proof. intros. apply Z.pow_pos_nonneg; lia. Qed.

Lemma wrap_fits w z : 0 <= w -> fits w (wrap w z).
Proof. intros. apply Z.mod_pos_bound, pow2_pos; done. Qed.

Lemma wrap_small w z : fits w z -> wrap w z = z.
Proof. intros H. by apply Z.mod_small. Qed.

Lemma wrap_idemp w z : 0 <= w -> wrap w (wrap w z) = wrap w z.
Proof. intros. apply wrap_small, wrap_fits; done. Qed.

Lemma wrap_add_l w a b : 0 <= w -> wrap w (wrap w a + b) = wrap w (a + b).
Proof. intros. apply Zplus_mod_idemp_l. Qed.

Lemma wrap_add_r w a b : 0 <= w -> wrap w (a + wrap w b) = wrap w (a + b).
Proof. intros. apply Zplus_mod_idemp_r. Qed.

(** The sum of two [w]-bit numbers overflowed exactly when it compares below
    an operand: the test the linker uses everywhere. *)
Lemma wrap_add_lt w a b :
  0 <= w -> fits w a -> fits w b ->
  (wrap w (a + b) <? a) = (2 ^ w <=? a + b).
Proof.
  intros Hw [Ha1 Ha2] [Hb1 Hb2]. unfold wrap.
  destruct (Z.leb_spec (2 ^ w) (a + b)) as [Hge|Hlt].
  - replace ((a + b) mod 2 ^ w) with (a + b - 2 ^ w).
    { apply Z.ltb_lt. lia. }
    apply (Z.mod_unique _ _ 1); lia.
  - rewrite Z.mod_small by lia. apply Z.ltb_ge. lia.
Qed.

Lemma wrap_add_nowrap w a b : fits w (a + b) -> wrap w (a + b) = a + b.
Proof. apply wrap_small. Qed.

Lemma sext_range w z : 0 < w -> - 2 ^ (w - 1) <= sext w z < 2 ^ (w - 1).
Proof.
  intros Hw. unfold sext. pose proof (wrap_fits w z ltac:(lia)) as [H1 H2].
  assert (2 ^ w = 2 * 2 ^ (w - 1)) as Heq.
  { rewrite <- Z.pow_succ_r by lia. f_equal. lia. }
  destruct (Z.ltb_spec (wrap w z) (2 ^ (w - 1))); lia.
Qed.

Lemma sext_wrap w z : 0 <= w -> wrap w (sext w z) = wrap w z.
Proof.
  intros. unfold sext. destruct (_ <? _); [by apply wrap_idemp|].
  unfold wrap. rewrite <- Zminus_mod_idemp_r, Z_mod_same_full, Z.sub_0_r.
  by apply wrap_idemp.
Qed.

Lemma sext_small w z : 0 < w -> - 2 ^ (w - 1) <= z < 2 ^ (w - 1) -> sext w z = z.
Proof.
  intros Hw Hz. assert (2 ^ w = 2 * 2 ^ (w - 1)) as Heq.
  { rewrite <- Z.pow_succ_r by lia. f_equal. lia. }
  unfold sext, wrap. destruct (Z.lt_ge_cases z 0).
  - replace (z mod 2 ^ w) with (z + 2 ^ w); [|apply (Z.mod_unique _ _ (-1)); lia].
    replace (z + 2 ^ w <? 2 ^ (w - 1)) with false by lia. lia.
  - rewrite Z.mod_small by lia. by replace (z <? 2 ^ (w - 1)) with true by lia.
Qed.

#[export] Hint Resolve wrap_fits pow2_pos wrap_small : olnk.

(** ** Bytes *)

Abbreviation is_byte := (fits 8).
Abbreviation bytes_ok := (Forall (fits 8)).

Lemma land_255 z : z .& 255 = u8 z.
Proof. apply (Z.land_ones z 8). lia. Qed.

(** [lor] of two numbers with disjoint bits is their sum. *)
Lemma lor_shift_add a b w :
  0 <= w -> fits w b -> (a .<< w) .| b = a * 2 ^ w + b.
Proof.
  intros Hw [Hb1 Hb2]. rewrite Z.shiftl_mul_pow2 by done.
  rewrite <- Z.add_lor_land.
  replace ((a * 2 ^ w) .& b) with 0; [lia|].
  symmetry. apply Z.bits_inj'. intros i Hi. rewrite Z.land_spec, Z.bits_0.
  destruct (Z.lt_ge_cases i w).
  - rewrite Z.mul_pow2_bits_low by lia. done.
  - replace b with (b mod 2 ^ w) by (apply Z.mod_small; lia).
    rewrite (Z.mod_pow2_bits_high b w i) by lia. apply andb_false_r.
Qed.

(** A file that takes everything that is written. *)
Definition append_write (bs : list Z) (f : list Z) : Z * list Z := (Z.of_nat (length bs), f ++ bs).

(** ** Option and list lemmas *)

(** Null-terminated scan over a list of candidates: the registries all look
    an entry up by walking an array. *)
Fixpoint find_first {A} (f : A -> bool) (l : list A) : option A :=
  match l with
  | [] => None
  | x :: l => if f x then Some x else find_first f l
  end.

Lemma find_first_Some {A} (f : A -> bool) l x :
  find_first f l = Some x ->
  exists i, l !! i = Some x /\ f x = true /\
    forall j y, (j < i)%nat -> l !! j = Some y -> f y = false.
Proof.
  induction l as [|a l IH]; simpl; [done|].
  destruct (f a) eqn:Hf; intros H.
  - simplify_eq. exists 0%nat. split_and!; [done..|]. intros; lia.
  - destruct (IH H) as (i & Hi & Hx & Hlt). exists (S i). split_and!; [done..|].
    intros [|j] y Hj Hy; simplify_eq/=; [done|]. eapply Hlt; [|done]. lia.
Qed.

Lemma find_first_None {A} (f : A -> bool) l :
  find_first f l = None <-> Forall (fun x => f x = false) l.
Proof.
  induction l as [|a l IH]; simpl; [split; auto|].
  rewrite Forall_cons. destruct (f a); [naive_solver|]. rewrite IH. naive_solver.
Qed.

(** The converse of [find_first_Some]. *)
Lemma find_first_intro {A} (f : A -> bool) l i x :
  l !! i = Some x -> f x = true ->
  (forall j y, (j < i)%nat -> l !! j = Some y -> f y = false) ->
  find_first f l = Some x.
Proof.
  revert i. induction l as [|a l IH]; intros [|i] Hi Hx Hlt; simplify_eq/=.
  - by rewrite Hx.
  - rewrite (Hlt 0%nat a ltac:(lia) eq_refl).
    apply (IH i); [done..|]. intros j y Hj Hy. apply (Hlt (S j)); [lia|done].
Qed.

Lemma mapM_ext_on {A B} (f g : A -> option B) l :
  (forall x, x ∈ l -> f x = g x) -> mapM f l = mapM g l.
Proof.
  induction l as [|a l IH]; intros Hfg; [done|]. cbn. rewrite Hfg by left.
  rewrite IH; [done|]. intros x Hx. apply Hfg. by right.
Qed.

(** ** Outcomes of code that can fail

    [Ret] is a normal return, [Fail] an error path the code takes, [Undef]
    behaviour the language does not define (an access outside an object, a
    division by zero) or an internal abort. *)

Inductive outcome (E A : Type) : Type :=
  | Ret (a : A)
  | Fail (e : E)
  | Undef.
Arguments Ret {E A} a.
Arguments Fail {E A} e.
Arguments Undef {E A}.

#[export] Instance outcome_bind {E} : MBind (outcome E) := fun A B f m =>
  match m with Ret a => f a | Fail e => Fail e | Undef => Undef end.

#[export] Instance outcome_ret {E} : MRet (outcome E) := fun A a => Ret a.

(** An access that is undefined when out of bounds. *)
Definition of_opt {E A} (o : option A) : outcome E A :=
  match o with Some a => Ret a | None => Undef end.

(** A test whose failure is an error path. *)
Definition ensure {E} (b : bool) (e : E) : outcome E unit := if b then Ret tt else Fail e.

Lemma outcome_bind_Ret {E A B} (m : outcome E A) (f : A -> outcome E B) b :
  m ≫= f = Ret b <-> exists a, m = Ret a /\ f a = Ret b.
Proof. destruct m; cbn; naive_solver. Qed.

Lemma ensure_Ret {E} b (e : E) u : ensure b e = Ret u <-> b = true.
Proof. destruct b, u; cbn; naive_solver. Qed.
