(* ===== verification/StableSort.v ===== *)
(** * StableSort: the meaning of [std::stable_sort] and of its comparators

    Every table of the linker (symbols, sections, relocations, the IR graph,
    the output image) is put in order by [std::stable_sort] with a comparator
    written as a cascade [if (l.k != r.k) return l.k < r.k; ...].  This file
    models the algorithm by an executable insertion sort, proves the three
    clauses of the C++ contract (permutation, sorted, stable), proves that the
    contract determines the result, and gives the instances that show each
    cascade is a strict weak order. *)

From S2P Require Import Prelude.

(** ** Comparators *)

(** The requirement C++ puts on the comparator of a sort. *)
Class StrictWeakOrder {A} (lt : A -> A -> bool) : Prop := {
  swo_irrefl x : lt x x = false;
  swo_trans x y z : lt x y = true -> lt y z = true -> lt x z = true;
  swo_incomp x y z : lt x y = false -> lt y z = false -> lt x z = false;
}.

(** Neither element is below the other: a tie. *)
Definition tie {A} (lt : A -> A -> bool) (x y : A) : bool := negb (lt x y) && negb (lt y x).

(** [a] may stand before [b] in a sorted sequence. *)
Definition le_of {A} (lt : A -> A -> bool) (a b : A) : Prop := lt b a = false.

(** One level of a comparator cascade over an integer key ... *)
Definition then_by_Z {A} (key : A -> Z) (rest : A -> A -> bool) (l r : A) : bool :=
  if negb (key l =? key r) then key l <? key r else rest l r.

(** ... and over a [std::string] key, compared byte by byte. *)
Definition then_by_string {A} (key : A -> string) (rest : A -> A -> bool) (l r : A) : bool :=
  if negb (key l =? key r)%string then String.ltb (key l) (key r) else rest l r.

(** ** The algorithm *)

Section sort.
Context {A : Type} (lt : A -> A -> bool).

Fixpoint insert_stable (x : A) (l : list A) : list A :=
  match l with
  | [] => [x]
  | y :: l => if lt y x then y :: insert_stable x l else x :: y :: l
  end.

Fixpoint stable_sort (l : list A) : list A :=
  match l with
  | [] => []
  | x :: l => insert_stable x (stable_sort l)
  end.

(** The C++ contract of [std::stable_sort]. *)
Record stable_sorted_of (l l' : list A) : Prop := {
  sso_perm : l' ≡ₚ l;
  sso_sorted : StronglySorted (le_of lt) l';
  sso_stable : forall x, filter (fun y => tie lt x y = true) l' = filter (fun y => tie lt x y = true) l;
}.

Lemma insert_stable_perm x l : insert_stable x l ≡ₚ x :: l.
Proof.
  induction l as [|y l IH]; simpl; [done|].
  destruct (lt y x); [|done]. rewrite IH. apply Permutation_swap.
Qed.

Lemma stable_sort_perm l : stable_sort l ≡ₚ l.
Proof. induction l as [|x l IH]; simpl; [done|]. by rewrite insert_stable_perm, IH. Qed.

Lemma stable_sort_length l : length (stable_sort l) = length l.
Proof. by rewrite stable_sort_perm. Qed.

Lemma stable_sort_elem_of l x : x ∈ stable_sort l <-> x ∈ l.
Proof. by rewrite stable_sort_perm. Qed.

Lemma stable_sort_Forall (P : A -> Prop) l : Forall P (stable_sort l) <-> Forall P l.
Proof. by rewrite stable_sort_perm. Qed.

Context `{Hswo : !StrictWeakOrder lt}.

Lemma le_of_trans a b c : le_of lt a b -> le_of lt b c -> le_of lt a c.
Proof. unfold le_of. intros. by apply (swo_incomp c b a). Qed.

Lemma lt_asym x y : lt x y = true -> lt y x = false.
Proof.
  intros H. destruct (lt y x) eqn:E; [|done].
  pose proof (swo_trans _ _ _ H E). by rewrite swo_irrefl in *.
Qed.

Lemma insert_stable_sorted x l :
  StronglySorted (le_of lt) l -> StronglySorted (le_of lt) (insert_stable x l).
Proof.
  induction 1 as [|y l Hs IH Hy]; simpl; [repeat constructor|].
  destruct (lt y x) eqn:Hlt.
  - constructor; [done|]. rewrite insert_stable_perm. constructor; [|done].
    by apply lt_asym.
  - constructor; [by constructor|]. constructor; [done|].
    eapply Forall_impl; [exact Hy|]. intros z Hz. by apply (le_of_trans _ y).
Qed.

Lemma stable_sort_sorted l : StronglySorted (le_of lt) (stable_sort l).
Proof. induction l; simpl; [constructor|by apply insert_stable_sorted]. Qed.

Lemma tie_lt z x y : tie lt z x = true -> lt y x = true -> tie lt z y = false.
Proof.
  unfold tie. intros H Hyx. bool_prop. destruct (lt y z) eqn:Hyz; [apply andb_false_r|].
  pose proof (swo_incomp y z x Hyz ltac:(done)). congruence.
Qed.

Lemma insert_stable_filter z x l :
  filter (fun y => tie lt z y = true) (insert_stable x l) =
  filter (fun y => tie lt z y = true) (x :: l).
Proof.
  induction l as [|y l IH]; [done|]. simpl insert_stable.
  destruct (lt y x) eqn:Hyx; [|done].
  rewrite filter_cons, IH, !filter_cons.
  destruct (decide (tie lt z x = true)) as [Hx|Hx]; [|done].
  pose proof (tie_lt _ _ _ Hx Hyx) as Hy. 
  rewrite !decide_False by congruence.
  done.
Qed.

Lemma stable_sort_stable z l :
  filter (fun y => tie lt z y = true) (stable_sort l) =
  filter (fun y => tie lt z y = true) l.
Proof.
  induction l as [|x l IH]; [done|]. simpl.
  rewrite insert_stable_filter, !filter_cons, IH. done.
Qed.

(** The executable model meets the contract of the standard. *)
Lemma stable_sort_contract l : stable_sorted_of l (stable_sort l).
Proof.
  split; [apply stable_sort_perm|apply stable_sort_sorted|].
  intros. apply stable_sort_stable.
Qed.

Lemma tie_refl x : tie lt x x = true.
Proof. unfold tie. by rewrite (swo_irrefl (lt:=lt)). Qed.

(** The heads of two sorted permutations of the same multiset tie. *)
Lemma sorted_head_tie x l y l' :
  StronglySorted (le_of lt) (x :: l) -> StronglySorted (le_of lt) (y :: l') ->
  x :: l ≡ₚ y :: l' -> tie lt x y = true.
Proof.
  intros [_ Hx]%StronglySorted_inv [_ Hy]%StronglySorted_inv Hp.
  assert (forall a b k k', Forall (le_of lt a) k -> b :: k' ≡ₚ a :: k -> lt b a = false) as Hle.
  { intros a b k k' Hk Hp'.
    assert (b ∈ a :: k) as [->|Hb]%elem_of_cons by (rewrite <- Hp'; left).
    - apply swo_irrefl.
    - rewrite Forall_forall in Hk. by apply Hk. }
  unfold tie. by rewrite (Hle y x _ _ Hy Hp), (Hle x y _ _ Hx (symmetry Hp)).
Qed.

(** The contract determines the result: sorting is a function of the
    sequence, whatever algorithm the standard library uses. *)
Lemma stable_sorted_unique l l1 l2 :
  stable_sorted_of l l1 -> stable_sorted_of l l2 -> l1 = l2.
Proof.
  intros [Hp1 Hs1 Ht1] [Hp2 Hs2 Ht2].
  assert (forall x, filter (fun y => tie lt x y = true) l1 =
                    filter (fun y => tie lt x y = true) l2) as Ht.
  { intros x. by rewrite Ht1, Ht2. }
  assert (l1 ≡ₚ l2) as Hp by (by rewrite Hp1, Hp2).
  clear Hp1 Hp2 Ht1 Ht2 l. revert l2 Hs2 Ht Hp.
  induction l1 as [|x l1 IH]; intros [|y l2] Hs2 Ht Hp.
  - done.
  - by apply Permutation_nil_cons in Hp.
  - by apply symmetry, Permutation_nil_cons in Hp.
  - assert (x = y) as <-.
    { pose proof (sorted_head_tie _ _ _ _ Hs1 Hs2 Hp) as Hxy.
      specialize (Ht x). rewrite !filter_cons, Hxy, tie_refl in Ht. by simplify_eq/=. }
    f_equal. apply StronglySorted_inv in Hs1 as [Hs1 _].
    apply StronglySorted_inv in Hs2 as [Hs2 _]. apply IH; [done|done| |].
    + intros z. specialize (Ht z). rewrite !filter_cons in Ht.
      destruct (decide (tie lt z x = true)); [by simplify_eq|done].
    + by apply Permutation_cons_inv in Hp.
Qed.

(** When no two elements tie, the order of insertion does not matter: this
    is what the sources call deterministic order. *)
Lemma stable_sort_order_independent l l' :
  l ≡ₚ l' ->
  (forall x y, x ∈ l -> y ∈ l -> tie lt x y = true -> x = y) ->
  stable_sort l = stable_sort l'.
Proof.
  intros Hp Htie.
  eapply (StronglySorted_unique_strong (le_of lt)).
  - intros x y Hx Hy Hxy Hyx. rewrite stable_sort_elem_of in Hx, Hy.
    rewrite <- Hp in Hy. apply Htie; [done..|]. unfold tie, le_of in *. by rewrite Hxy, Hyx.
  - apply stable_sort_sorted.
  - apply stable_sort_sorted.
  - by rewrite !stable_sort_perm.
Qed.

Lemma insert_stable_id x l :
  StronglySorted (le_of lt) (x :: l) -> insert_stable x l = x :: l.
Proof.
  intros [_ Hx]%StronglySorted_inv. destruct l as [|y l]; [done|]. simpl.
  apply Forall_cons in Hx as [Hx _]. unfold le_of in Hx. by rewrite Hx.
Qed.

(** Sorting a sorted sequence changes nothing. *)
Lemma stable_sort_sorted_id l :
  StronglySorted (le_of lt) l -> stable_sort l = l.
Proof.
  induction 1 as [|x l Hs IH Hx]; simpl; [done|].
  rewrite IH. apply insert_stable_id. by constructor.
Qed.

Lemma stable_sort_idemp l : stable_sort (stable_sort l) = stable_sort l.
Proof. apply stable_sort_sorted_id, stable_sort_sorted. Qed.
End sort.

(** ** Instances for the cascades *)

#[export] Instance swo_none {A} : StrictWeakOrder (fun _ _ : A => false).
Proof. by split. Qed.

#[export] Instance swo_then_by_Z {A} (key : A -> Z) rest :
  StrictWeakOrder rest -> StrictWeakOrder (then_by_Z key rest).
Proof.
  intros Hr. unfold then_by_Z. split.
  - intros x. rewrite Z.eqb_refl. apply swo_irrefl.
  - intros x y z.
    destruct (Z.eqb_spec (key x) (key y)), (Z.eqb_spec (key y) (key z)),
      (Z.eqb_spec (key x) (key z)); simpl; intros H1 H2; bool_prop; try lia.
    by eapply swo_trans.
  - intros x y z.
    destruct (Z.eqb_spec (key x) (key y)), (Z.eqb_spec (key y) (key z)),
      (Z.eqb_spec (key x) (key z)); simpl; intros H1 H2; bool_prop; try lia.
    by eapply swo_incomp.
Qed.

Lemma string_ltb_compare s t : String.ltb s t = true <-> String.compare s t = Lt.
Proof. unfold String.ltb. by destruct (String.compare s t). Qed.

Lemma string_compare_trans s t u c :
  String.compare s t = c -> String.compare t u = c -> String.compare s u = c.
Proof.
  revert t u. induction s as [|a s IH]; intros [|b t] [|d u]; simpl; try congruence.
  unfold Ascii.compare.
  destruct (N.compare_spec (Ascii.N_of_ascii a) (Ascii.N_of_ascii b)) as [E1|E1|E1],
    (N.compare_spec (Ascii.N_of_ascii b) (Ascii.N_of_ascii d)) as [E2|E2|E2],
    (N.compare_spec (Ascii.N_of_ascii a) (Ascii.N_of_ascii d)) as [E3|E3|E3];
    intros; subst; try congruence; try lia; eauto.
Qed.

Lemma string_ltb_irrefl s : String.ltb s s = false.
Proof.
  unfold String.ltb. pose proof (String.compare_antisym s s) as H.
  by destruct (String.compare s s).
Qed.

Lemma string_ltb_trans s t u :
  String.ltb s t = true -> String.ltb t u = true -> String.ltb s u = true.
Proof. rewrite !string_ltb_compare. apply string_compare_trans. Qed.

Lemma string_ltb_ge s t : String.ltb s t = false -> s = t \/ String.ltb t s = true.
Proof.
  unfold String.ltb. rewrite (String.compare_antisym t s).
  destruct (String.compare s t) eqn:E; try done; simpl; [|by right].
  left. by apply String.compare_eq_iff.
Qed.

Lemma string_ltb_asym s t : String.ltb s t = true -> String.ltb t s = false.
Proof.
  intros H. destruct (String.ltb t s) eqn:E; [|done].
  pose proof (string_ltb_trans _ _ _ H E). by rewrite string_ltb_irrefl in *.
Qed.

#[export] Instance swo_then_by_string {A} (key : A -> string) rest :
  StrictWeakOrder rest -> StrictWeakOrder (then_by_string key rest).
Proof.
  intros Hr. unfold then_by_string. split.
  - intros x. rewrite String.eqb_refl. apply swo_irrefl.
  - intros x y z.
    destruct (String.eqb_spec (key x) (key y)) as [E1|E1],
      (String.eqb_spec (key y) (key z)) as [E2|E2],
      (String.eqb_spec (key x) (key z)) as [E3|E3]; simpl; intros H1 H2; try congruence.
    + by eapply swo_trans.
    + rewrite E3 in H1. apply string_ltb_asym in H1. congruence.
    + by eapply string_ltb_trans.
  - intros x y z.
    destruct (String.eqb_spec (key x) (key y)) as [E1|E1],
      (String.eqb_spec (key y) (key z)) as [E2|E2],
      (String.eqb_spec (key x) (key z)) as [E3|E3]; simpl; intros H1 H2; try congruence.
    + by eapply swo_incomp.
    + apply string_ltb_ge in H1 as [?|H1]; [done|]. rewrite E3 in H1.
      apply string_ltb_ge in H2 as [?|H2]; [done|].
      apply string_ltb_asym in H1. congruence.
    + apply string_ltb_ge in H1 as [?|H1]; [done|]. apply string_ltb_ge in H2 as [?|H2]; [done|].
      apply string_ltb_asym. by eapply string_ltb_trans.
Qed.

(** A cascade holds at the first level where the keys differ. *)
Lemma then_by_Z_true {A} (key : A -> Z) rest x y :
  then_by_Z key rest x y = true <-> key x < key y \/ key x = key y /\ rest x y = true.
Proof.
  unfold then_by_Z. destruct (Z.eqb_spec (key x) (key y)) as [E|E]; simpl; rewrite ?Z.ltb_lt; intuition lia.
Qed.

Lemma then_by_string_true {A} (key : A -> string) rest x y :
  then_by_string key rest x y = true <->
  String.compare (key x) (key y) = Lt \/ key x = key y /\ rest x y = true.
Proof.
  unfold then_by_string. destruct (String.eqb_spec (key x) (key y)) as [E|E]; simpl.
  - rewrite E. split; [tauto|]. intros [H|[]]; [|done]. apply string_ltb_compare in H. by rewrite string_ltb_irrefl in H.
  - rewrite string_ltb_compare. tauto.
Qed.

(** A tie of a cascade is a tie at every level. *)
Lemma tie_then_by_Z {A} (key : A -> Z) rest x y :
  tie (then_by_Z key rest) x y = true -> key x = key y /\ tie rest x y = true.
Proof.
  unfold tie, then_by_Z. rewrite (Z.eqb_sym (key y)).
  destruct (Z.eqb_spec (key x) (key y)); simpl; intros H; [done|]. bool_prop. lia.
Qed.

Lemma tie_then_by_string {A} (key : A -> string) rest x y :
  tie (then_by_string key rest) x y = true -> key x = key y /\ tie rest x y = true.
Proof.
  unfold tie, then_by_string. rewrite (String.eqb_sym (key y)).
  destruct (String.eqb_spec (key x) (key y)); simpl; intros H; [done|].
  bool_prop. destruct (string_ltb_ge (key x) (key y)); [done..|congruence].
Qed.

(** Order of two entries of a sorted sequence. *)
Lemma sorted_lookup {A} (R : A -> A -> Prop) l i j x y :
  StronglySorted R l -> (i < j)%nat -> l !! i = Some x -> l !! j = Some y -> R x y.
Proof.
  intros Hs. revert i j. induction Hs as [|a l Hs IH Ha]; intros [|i] [|j] Hij Hi Hj;
    simplify_eq/=; try lia.
  - rewrite Forall_forall in Ha. eapply Ha, list_elem_of_lookup_2, Hj.
  - eapply IH; [|done..]. lia.
Qed.

Lemma StronglySorted_impl {A} (R S : A -> A -> Prop) l :
  (forall x y, R x y -> S x y) -> StronglySorted R l -> StronglySorted S l.
Proof.
  intros HRS. induction 1 as [|x l Hs IH Hx]; constructor; [done|].
  eapply Forall_impl; [exact Hx|]. auto.
Qed.

(** Keys that are pairwise distinct identify the element. *)
Lemma NoDup_fmap_inj_on {A B} (f : A -> B) l x y :
  NoDup (f <$> l) -> x ∈ l -> y ∈ l -> f x = f y -> x = y.
Proof.
  intros Hnd [i Hi]%list_elem_of_lookup [j Hj]%list_elem_of_lookup Hf.
  assert (i = j) as ->; [|congruence].
  eapply (NoDup_lookup _ _ _ (f x) Hnd); rewrite list_lookup_fmap, ?Hi, ?Hj; simpl; congruence.
Qed.

Lemma fmap_id_on {A} (f : A -> A) (l : list A) : (forall x, x ∈ l -> f x = x) -> f <$> l = l.
Proof.
  intros H. rewrite <- (list_fmap_id l) at 2. apply list_fmap_ext.
  intros i x Hx. by eapply H, list_elem_of_lookup_2.
Qed.

(** Sorting looks at the comparator on the elements only. *)
Lemma stable_sort_ext_on {A} (lt lt' : A -> A -> bool) l :
  (forall x y, x ∈ l -> y ∈ l -> lt x y = lt' x y) -> stable_sort lt l = stable_sort lt' l.
Proof.
  assert (forall x k, (forall y, y ∈ k -> lt y x = lt' y x) -> insert_stable lt x k = insert_stable lt' x k)
    as Hins.
  { intros x k. induction k as [|y k IH]; intros Hk; [done|]. cbn. rewrite (Hk y) by left.
    destruct (lt' y x); [|done]. f_equal. apply IH. intros z Hz. apply Hk. by right. }
  induction l as [|x l IH]; intros Hl; [done|]. cbn. rewrite IH.
  - apply Hins. intros y Hy. rewrite stable_sort_perm in Hy. apply Hl; [by right|by left].
  - intros y z Hy Hz. apply Hl; by right.
Qed.
