(* ===== verification/Abi.v ===== *)
(** * The C ABI shared by the linker's public headers (include/olnk/*.h)

    The status, severity and log-level enumerations of olnk-api.h, the byte
    size of a C struct under the LP64 rules the library is built for, the
    pointer type of the registries, and the ASCII case-insensitive string
    comparison that machine.cpp and format.cpp each declare. *)

From Stdlib Require Import Ascii.
From S2P Require Import Prelude.

Inductive olnk_status : Set :=
  | OLNK_STATUS_OK | OLNK_STATUS_UNKNOWN | OLNK_STATUS_INVALID_ARGUMENT
  | OLNK_STATUS_OUT_OF_MEMORY | OLNK_STATUS_IO_ERROR | OLNK_STATUS_PARSE_ERROR
  | OLNK_STATUS_FORMAT_ERROR | OLNK_STATUS_MACHINE_ERROR | OLNK_STATUS_SCRIPT_ERROR
  | OLNK_STATUS_PLUGIN_ERROR | OLNK_STATUS_SYMBOL_ERROR | OLNK_STATUS_RELOCATION_ERROR
  | OLNK_STATUS_LINK_ERROR | OLNK_STATUS_INTERNAL_ERROR | OLNK_STATUS_NOT_IMPLEMENTED.

Inductive olnk_log_level : Set :=
  | OLNK_LOG_TRACE | OLNK_LOG_DEBUG | OLNK_LOG_INFO | OLNK_LOG_WARN
  | OLNK_LOG_ERROR | OLNK_LOG_FATAL | OLNK_LOG_OFF.

Inductive olnk_diagnostic_severity : Set :=
  | OLNK_DIAGNOSTIC_NOTE | OLNK_DIAGNOSTIC_WARNING
  | OLNK_DIAGNOSTIC_ERROR | OLNK_DIAGNOSTIC_FATAL.

Inductive olnk_output_kind : Set :=
  | OLNK_OUTPUT_EXECUTABLE | OLNK_OUTPUT_SHARED_LIBRARY | OLNK_OUTPUT_STATIC_IMAGE
  | OLNK_OUTPUT_RELOCATABLE | OLNK_OUTPUT_BINARY.

Definition olnk_log_level_Z (l : olnk_log_level) : Z :=
  match l with
  | OLNK_LOG_TRACE => 0 | OLNK_LOG_DEBUG => 1 | OLNK_LOG_INFO => 2 | OLNK_LOG_WARN => 3
  | OLNK_LOG_ERROR => 4 | OLNK_LOG_FATAL => 5 | OLNK_LOG_OFF => 6
  end.

Definition olnk_status_Z (s : olnk_status) : Z :=
  match s with
  | OLNK_STATUS_OK => 0 | OLNK_STATUS_UNKNOWN => 1 | OLNK_STATUS_INVALID_ARGUMENT => 2
  | OLNK_STATUS_OUT_OF_MEMORY => 3 | OLNK_STATUS_IO_ERROR => 4
  | OLNK_STATUS_PARSE_ERROR => 5 | OLNK_STATUS_FORMAT_ERROR => 6
  | OLNK_STATUS_MACHINE_ERROR => 7 | OLNK_STATUS_SCRIPT_ERROR => 8
  | OLNK_STATUS_PLUGIN_ERROR => 9 | OLNK_STATUS_SYMBOL_ERROR => 10
  | OLNK_STATUS_RELOCATION_ERROR => 11 | OLNK_STATUS_LINK_ERROR => 12
  | OLNK_STATUS_INTERNAL_ERROR => 13 | OLNK_STATUS_NOT_IMPLEMENTED => 14
  end.

#[export] Instance olnk_status_eq_dec : EqDecision olnk_status.
Proof. solve_decision. Defined.
#[export] Instance olnk_log_level_eq_dec : EqDecision olnk_log_level.
Proof. solve_decision. Defined.
#[export] Instance olnk_diagnostic_severity_eq_dec : EqDecision olnk_diagnostic_severity.
Proof. solve_decision. Defined.
#[export] Instance olnk_output_kind_eq_dec : EqDecision olnk_output_kind.
Proof. solve_decision. Defined.

(** ** sizeof of a struct

    Every member of these structs is a scalar, aligned to its own size; the
    size is rounded up to the widest member. *)
Definition round_up (a n : Z) : Z := (n + a - 1) / a * a.

Definition struct_sizeof (members : list Z) : Z :=
  round_up (foldr Z.max 1 members)
    (foldl (fun off sz => round_up sz off + sz) 0 members).

(** ** Pointers handed to a registry

    A caller passes a null pointer, the address of a member of the host's own
    static table (by its index), or the address of an object of its own. *)
Inductive ptr (A : Type) : Type :=
  | Null
  | Host (i : nat)
  | Foreign (a : A).
Arguments Null {A}.
Arguments Host {A} i.
Arguments Foreign {A} a.

(** ** C strings

    [None] is the null pointer; a [string] holds the characters before the
    terminating NUL. *)
Abbreviation cstr := (option string).

Definition cstr_null (s : cstr) : bool := match s with None => true | Some _ => false end.

Definition cstr_equals (a b : cstr) : bool :=
  match a, b with
  | Some a, Some b => (a =? b)%string
  | _, _ => false
  end.

(** [c - 'A' + 'a'] for an upper-case letter. *)
Definition ascii_fold (c : ascii) : ascii :=
  let z := Z.of_N (N_of_ascii c) in
  if (65 <=? z) && (z <=? 90) then ascii_of_N (Z.to_N (z - 65 + 97)) else c.

(** The loop over both strings. *)
Fixpoint iequals_loop (a b : string) : bool :=
  match a, b with
  | String ca a, String cb b =>
      if Ascii.eqb (ascii_fold ca) (ascii_fold cb) then iequals_loop a b else false
  | EmptyString, EmptyString => true
  | _, _ => false
  end.

Definition cstr_iequals_ascii (a b : cstr) : bool :=
  match a, b with
  | Some a, Some b => iequals_loop a b
  | _, _ => false
  end.

Definition fallback_empty (s : cstr) : string := default EmptyString s.

(** ** The comparison is equality of the folded strings *)

Fixpoint fold_string (s : string) : string :=
  match s with
  | EmptyString => EmptyString
  | String c s => String (ascii_fold c) (fold_string s)
  end.

Lemma iequals_loop_spec a b : iequals_loop a b = true <-> fold_string a = fold_string b.
Proof.
  revert b. induction a as [|ca a IH]; intros [|cb b]; simpl; [done..|].
  destruct (Ascii.eqb_spec (ascii_fold ca) (ascii_fold cb)) as [->|Hne].
  - rewrite IH. split; [by intros ->|by intros [=]].
  - split; [done|]. intros [= He _]. done.
Qed.

Lemma cstr_iequals_spec a b :
  cstr_iequals_ascii a b = true <->
  exists s t, a = Some s /\ b = Some t /\ fold_string s = fold_string t.
Proof.
  destruct a as [s|], b as [t|]; simpl; rewrite ?iequals_loop_spec; naive_solver.
Qed.
