(* ===== verification/Registry.v ===== *)
(** * Name registries

    What the machine and the format registry share: the keys under which an
    entry of a static table answers, the disjointness of those keys, the scan
    of a table for its first matching entry, and the scan of the specs the Lua
    profiles registered. *)

From S2P Require Import Prelude Abi.

(** ** Keys

    An entry has a list of names, some of them null; a name matches the entry
    when its folded form is one of the entry's folded names. *)
Definition name_keys (names : list cstr) : list string := fold_string <$> omap id names.

Lemma any_name_spec names n :
  existsb (fun a => cstr_iequals_ascii a (Some n)) names = true <->
  fold_string n ∈ name_keys names.
Proof.
  rewrite existsb_exists. unfold name_keys. rewrite list_elem_of_fmap. split.
  - intros (a & Ha & (s & t & -> & [= <-] & Hf)%cstr_iequals_spec).
    exists s. split; [done|]. apply list_elem_of_omap. exists (Some s).
    split; [by apply list_elem_of_In|done].
  - intros (s & Hf & (a & Ha & Hid)%list_elem_of_omap). cbv [id] in Hid. subst a.
    exists (Some s). split; [by apply list_elem_of_In|].
    apply cstr_iequals_spec. eauto.
Qed.

Definition keys_disjoint (a b : list string) : bool :=
  forallb (fun x => negb (existsb (String.eqb x) b)) a.

Fixpoint pairwise_disjoint (l : list (list string)) : bool :=
  match l with
  | [] => true
  | a :: l => forallb (keys_disjoint a) l && pairwise_disjoint l
  end.

Lemma keys_disjoint_spec a b x : keys_disjoint a b = true -> x ∈ a -> x ∈ b -> False.
Proof.
  unfold keys_disjoint. rewrite forallb_forall. intros Hc Ha Hb.
  specialize (Hc x (proj1 (list_elem_of_In _ _) Ha)).
  apply negb_true_iff in Hc. enough (existsb (String.eqb x) b = true) by congruence.
  apply existsb_exists. exists x. split; [by apply list_elem_of_In|apply String.eqb_refl].
Qed.

Lemma pairwise_disjoint_lookup l i j a b x :
  pairwise_disjoint l = true -> (i < j)%nat ->
  l !! i = Some a -> l !! j = Some b -> x ∈ a -> x ∈ b -> False.
Proof.
  revert i j. induction l as [|c l IH]; intros [|i] [|j] Hp Hij Hi Hj Ha Hb;
    simplify_eq/=; try lia; apply andb_true_iff in Hp as [Hc Hp].
  - rewrite forallb_forall in Hc.
    specialize (Hc b (proj1 (list_elem_of_In _ _) (list_elem_of_lookup_2 _ _ _ Hj))).
    by eapply keys_disjoint_spec.
  - apply (IH i j); try done. lia.
Qed.

Lemma pairwise_disjoint_inj l i j a b x :
  pairwise_disjoint l = true ->
  l !! i = Some a -> l !! j = Some b -> x ∈ a -> x ∈ b -> i = j.
Proof.
  intros Hp Hi Hj Ha Hb.
  destruct (Nat.lt_trichotomy i j) as [Hlt|[->|Hlt]]; [exfalso|done|exfalso].
  - by apply (pairwise_disjoint_lookup l i j a b x).
  - by apply (pairwise_disjoint_lookup l j i b a x).
Qed.

(** ** Scanning a table for the first entry that satisfies a test *)

Lemma find_imap_Some {A} (f : A -> bool) (l : list A) i x :
  find_first (fun p => f (snd p)) (imap pair l) = Some (i, x) <->
  l !! i = Some x /\ f x = true /\
  forall j y, (j < i)%nat -> l !! j = Some y -> f y = false.
Proof.
  split.
  - intros (k & Hk & Hx & Hlt)%find_first_Some. rewrite list_lookup_imap in Hk.
    destruct (l !! k) eqn:Hl; simplify_eq/=. split_and!; [done..|].
    intros j y Hj Hy. apply (Hlt j (j, y)); [done|].
    by rewrite list_lookup_imap, Hy.
  - intros (Hi & Hx & Hlt).
    apply (find_first_intro _ _ i); [by rewrite list_lookup_imap, Hi|done|].
    intros j [k y] Hj Hy. rewrite list_lookup_imap in Hy.
    destruct (l !! j) eqn:Hl; simplify_eq/=. by eapply Hlt.
Qed.

Lemma find_imap_None {A} (f : A -> bool) (l : list A) :
  find_first (fun p => f (snd p)) (imap pair l) = None <-> Forall (fun x => f x = false) l.
Proof.
  rewrite find_first_None, !Forall_forall. split; intros H.
  - intros x [i Hi]%list_elem_of_lookup. apply (H (i, x)).
    apply list_elem_of_lookup. exists i. by rewrite list_lookup_imap, Hi.
  - intros [i x] [j Hj]%list_elem_of_lookup. rewrite list_lookup_imap in Hj.
    destruct (l !! j) eqn:Hl; simplify_eq/=. apply H. by eapply list_elem_of_lookup_2.
Qed.

(** ** Scanning the Lua specs

    The first spec that answers decides, even when it maps to nothing. An
    entry that is not a table is [None] and is skipped. *)

Section LuaScan.
Context {S K : Type}.
Variable spec_matches : S -> cstr -> bool.
Variable spec_result : S -> option K.

Fixpoint lua_scan (specs : list (option S)) (name : cstr) : option K :=
  match specs with
  | [] => None
  | None :: rest => lua_scan rest name
  | Some spec :: rest =>
      if spec_matches spec name then spec_result spec else lua_scan rest name
  end.

(** The first spec that answers to [n] maps to [k]. *)
Definition lua_answers (lua : option (list (option S))) (n : string) (k : K) : Prop :=
  exists pre spec post, lua = Some (pre ++ Some spec :: post) /\
    Forall (fun o => forall s, o = Some s -> spec_matches s (Some n) = false) pre /\
    spec_matches spec (Some n) = true /\ spec_result spec = Some k.

Lemma lua_scan_Some specs n k :
  lua_scan specs (Some n) = Some k -> lua_answers (Some specs) n k.
Proof.
  induction specs as [|[s|] specs IH]; cbn; [done| |].
  - destruct (spec_matches s (Some n)) eqn:Hs; intros H.
    + by exists [], s, specs.
    + destruct (IH H) as (pre & spec & post & [= ->] & Hpre & Hm & Hk).
      exists (Some s :: pre), spec, post. split_and!; try done.
      constructor; [by intros ? [= <-]|done].
  - intros H. destruct (IH H) as (pre & spec & post & [= ->] & Hpre & Hm & Hk).
    exists (None :: pre), spec, post. split_and!; try done.
    constructor; [by intros ?|done].
Qed.

Lemma lua_answers_spec lua n k :
  match lua with None => None | Some specs => lua_scan specs (Some n) end = Some k <->
  lua_answers lua n k.
Proof.
  split.
  - destruct lua; [apply lua_scan_Some|done].
  - intros (pre & spec & post & -> & Hpre & Hm & Hk).
    induction Hpre as [|[s|] pre Hs _ IH]; cbn; [by rewrite Hm| |done].
    by rewrite (Hs s eq_refl).
Qed.

End LuaScan.
