(* ===== verification/Machine.v ===== *)
(** * The machine registry (src/olnk/machine.cpp, include/olnk/olnk-machine.h)

    The twenty built-in machines, the lookup of a machine by name, alias,
    target triple or kind, and the callbacks of the built-in vtable. The table
    is static: a definition, a descriptor, an instance of it is named by its
    index ([Host i]); the back pointers the code patches in on first use are
    the state, [registry]. The Lua profiles, which the code consults after the
    table, are the parameter [lua_machines]. *)

From S2P Require Import Prelude Abi Registry.

(** ** Enumerations of olnk-machine.h *)

Inductive olnk_machine_kind : Set :=
  | OLNK_MACHINE_KIND_UNKNOWN
  | OLNK_MACHINE_KIND_I386 | OLNK_MACHINE_KIND_X86_64
  | OLNK_MACHINE_KIND_ARM | OLNK_MACHINE_KIND_AARCH64 | OLNK_MACHINE_KIND_THUMB
  | OLNK_MACHINE_KIND_RISCV32 | OLNK_MACHINE_KIND_RISCV64
  | OLNK_MACHINE_KIND_PPC32 | OLNK_MACHINE_KIND_PPC64
  | OLNK_MACHINE_KIND_MIPS32 | OLNK_MACHINE_KIND_MIPS64
  | OLNK_MACHINE_KIND_SPARC32 | OLNK_MACHINE_KIND_SPARC64
  | OLNK_MACHINE_KIND_SYSTEMZ | OLNK_MACHINE_KIND_LOONGARCH32 | OLNK_MACHINE_KIND_LOONGARCH64
  | OLNK_MACHINE_KIND_WASM32 | OLNK_MACHINE_KIND_WASM64
  | OLNK_MACHINE_KIND_BPFEL | OLNK_MACHINE_KIND_BPFEB
  | OLNK_MACHINE_KIND_CUSTOM.

Definition machine_kinds : list (Z * olnk_machine_kind) :=
  [(0, OLNK_MACHINE_KIND_UNKNOWN);
   (1, OLNK_MACHINE_KIND_I386); (2, OLNK_MACHINE_KIND_X86_64);
   (10, OLNK_MACHINE_KIND_ARM); (11, OLNK_MACHINE_KIND_AARCH64); (12, OLNK_MACHINE_KIND_THUMB);
   (20, OLNK_MACHINE_KIND_RISCV32); (21, OLNK_MACHINE_KIND_RISCV64);
   (30, OLNK_MACHINE_KIND_PPC32); (31, OLNK_MACHINE_KIND_PPC64);
   (40, OLNK_MACHINE_KIND_MIPS32); (41, OLNK_MACHINE_KIND_MIPS64);
   (50, OLNK_MACHINE_KIND_SPARC32); (51, OLNK_MACHINE_KIND_SPARC64);
   (60, OLNK_MACHINE_KIND_SYSTEMZ); (61, OLNK_MACHINE_KIND_LOONGARCH32);
   (62, OLNK_MACHINE_KIND_LOONGARCH64);
   (100, OLNK_MACHINE_KIND_WASM32); (101, OLNK_MACHINE_KIND_WASM64);
   (102, OLNK_MACHINE_KIND_BPFEL); (103, OLNK_MACHINE_KIND_BPFEB);
   (255, OLNK_MACHINE_KIND_CUSTOM)].

#[export] Instance olnk_machine_kind_eq_dec : EqDecision olnk_machine_kind.
Proof. solve_decision. Defined.

(** The number of a kind, and the kind of a number: a value of the C
    enumeration that is none of its enumerators has none. *)
Definition machine_kind_Z (k : olnk_machine_kind) : Z :=
  default 0 (fst <$> find_first (fun p => bool_decide (snd p = k)) machine_kinds).
Definition machine_kind_of_Z (z : Z) : option olnk_machine_kind :=
  snd <$> find_first (fun p => fst p =? z) machine_kinds.

Inductive olnk_machine_endianness : Set :=
  | OLNK_MACHINE_ENDIANNESS_UNKNOWN
  | OLNK_MACHINE_ENDIANNESS_LITTLE
  | OLNK_MACHINE_ENDIANNESS_BIG.

Inductive olnk_machine_address_class : Set :=
  | OLNK_MACHINE_ADDRESS_CLASS_UNKNOWN
  | OLNK_MACHINE_ADDRESS_CLASS_16
  | OLNK_MACHINE_ADDRESS_CLASS_32
  | OLNK_MACHINE_ADDRESS_CLASS_64
  | OLNK_MACHINE_ADDRESS_CLASS_128.

Definition address_class_Z (c : olnk_machine_address_class) : Z :=
  match c with
  | OLNK_MACHINE_ADDRESS_CLASS_UNKNOWN => 0
  | OLNK_MACHINE_ADDRESS_CLASS_16 => 16
  | OLNK_MACHINE_ADDRESS_CLASS_32 => 32
  | OLNK_MACHINE_ADDRESS_CLASS_64 => 64
  | OLNK_MACHINE_ADDRESS_CLASS_128 => 128
  end.

Inductive olnk_machine_code_model : Set :=
  | OLNK_MACHINE_CODE_MODEL_UNKNOWN
  | OLNK_MACHINE_CODE_MODEL_TINY
  | OLNK_MACHINE_CODE_MODEL_SMALL
  | OLNK_MACHINE_CODE_MODEL_MEDIUM
  | OLNK_MACHINE_CODE_MODEL_LARGE.

#[export] Instance olnk_machine_endianness_eq_dec : EqDecision olnk_machine_endianness.
Proof. solve_decision. Defined.
#[export] Instance olnk_machine_address_class_eq_dec : EqDecision olnk_machine_address_class.
Proof. solve_decision. Defined.
#[export] Instance olnk_machine_code_model_eq_dec : EqDecision olnk_machine_code_model.
Proof. solve_decision. Defined.

(** The capability bits. *)
Inductive olnk_machine_capability : Set :=
  | OLNK_MACHINE_CAPABILITY_EXECUTABLE | OLNK_MACHINE_CAPABILITY_SHARED_LIBRARY
  | OLNK_MACHINE_CAPABILITY_RELOCATABLE_OUTPUT | OLNK_MACHINE_CAPABILITY_TLS
  | OLNK_MACHINE_CAPABILITY_PIC | OLNK_MACHINE_CAPABILITY_RELAXATION
  | OLNK_MACHINE_CAPABILITY_BRANCH_VENEERS | OLNK_MACHINE_CAPABILITY_GOT
  | OLNK_MACHINE_CAPABILITY_PLT | OLNK_MACHINE_CAPABILITY_ATOMICS
  | OLNK_MACHINE_CAPABILITY_SIMD | OLNK_MACHINE_CAPABILITY_UNALIGNED_ACCESS
  | OLNK_MACHINE_CAPABILITY_VIRTUAL_ISA.

Definition capability_Z (c : olnk_machine_capability) : Z :=
  1 .<< match c with
        | OLNK_MACHINE_CAPABILITY_EXECUTABLE => 0
        | OLNK_MACHINE_CAPABILITY_SHARED_LIBRARY => 1
        | OLNK_MACHINE_CAPABILITY_RELOCATABLE_OUTPUT => 2
        | OLNK_MACHINE_CAPABILITY_TLS => 3
        | OLNK_MACHINE_CAPABILITY_PIC => 4
        | OLNK_MACHINE_CAPABILITY_RELAXATION => 5
        | OLNK_MACHINE_CAPABILITY_BRANCH_VENEERS => 6
        | OLNK_MACHINE_CAPABILITY_GOT => 7
        | OLNK_MACHINE_CAPABILITY_PLT => 8
        | OLNK_MACHINE_CAPABILITY_ATOMICS => 9
        | OLNK_MACHINE_CAPABILITY_SIMD => 10
        | OLNK_MACHINE_CAPABILITY_UNALIGNED_ACCESS => 11
        | OLNK_MACHINE_CAPABILITY_VIRTUAL_ISA => 12
        end.
#[local] Coercion capability_Z : olnk_machine_capability >-> Z.

(** ** Structs *)

Definition OLNK_MACHINE_ABI_VERSION : Z := 1.

Record olnk_machine_properties := {
  mp_abi_version : Z; mp_struct_size : Z;
  mp_kind : olnk_machine_kind; mp_capabilities : Z;
  mp_endianness : olnk_machine_endianness;
  mp_address_class : olnk_machine_address_class;
  mp_pointer_size : Z; mp_address_size : Z;
  mp_instruction_alignment : Z; mp_stack_alignment : Z; mp_function_alignment : Z;
  mp_default_image_base : Z; mp_default_page_size : Z; mp_max_branch_range : Z;
  mp_default_code_model : olnk_machine_code_model;
  mp_canonical_name : cstr; mp_canonical_triple : cstr }.

(** sizeof(olnk_machine_properties_t): eleven 32-bit members, three 64-bit
    ones, the code model, and four pointers. *)
Definition sizeof_machine_properties : Z :=
  struct_sizeof (replicate 11 4 ++ replicate 3 8 ++ [4] ++ replicate 4 8).

Record olnk_machine_descriptor := {
  md_abi_version : Z; md_struct_size : Z;
  md_name : cstr; md_description : cstr; md_vendor : cstr; md_license : cstr;
  md_version_major : Z; md_version_minor : Z; md_version_patch : Z;
  md_kind : olnk_machine_kind; md_capabilities : Z;
  md_min_host_api_version : Z; md_max_host_api_version : Z;
  md_primary_alias : cstr; md_secondary_alias : cstr; md_canonical_triple : cstr }.

Definition sizeof_machine_descriptor : Z :=
  struct_sizeof ([4; 4] ++ replicate 4 8 ++ replicate 7 4 ++ replicate 5 8).

Definition sizeof_machine_definition : Z := struct_sizeof ([4; 4] ++ replicate 5 8).

(** The host services a context carries: whether the [log] and [diagnostic]
    callbacks are set. *)
Record olnk_machine_host := {
  mh_abi_version : Z; mh_struct_size : Z; mh_log : bool; mh_diagnostic : bool }.

Definition sizeof_machine_host : Z := struct_sizeof ([4; 4] ++ replicate 8 8).

(** The pointers of a definition object and of an instance: indices of the
    table, null before the registry is initialised. *)
Record olnk_machine_definition := {
  mdef_abi_version : Z; mdef_struct_size : Z;
  mdef_descriptor : option nat; mdef_vtable : bool; mdef_module_data : option nat }.

Record olnk_machine_instance := { mi_definition : option nat }.

Record BuiltinMachineRecord := {
  br_descriptor : olnk_machine_descriptor;
  br_properties : olnk_machine_properties;
  br_instance : olnk_machine_instance;
  br_definition : olnk_machine_definition }.

(** ** Inline helpers of the header *)

Definition olnk_machine_make_version (major minor patch : Z) : Z :=
  u32 ((major .& 0x3FF) .<< 22) .| u32 ((minor .& 0x3FF) .<< 12) .| ((patch .& 0xFFF) .<< 0).

Definition olnk_machine_capability_test (capabilities capability : Z) : bool :=
  (capabilities .& capability) =? capability.

Definition olnk_machine_is_virtual_kind (k : olnk_machine_kind) : bool :=
  match k with
  | OLNK_MACHINE_KIND_WASM32 | OLNK_MACHINE_KIND_WASM64
  | OLNK_MACHINE_KIND_BPFEL | OLNK_MACHINE_KIND_BPFEB => true
  | _ => false
  end.

(** ** The built-in table *)

(** OLNK_MACHINE_COMMON_DESCRIPTOR_FIELDS *)
Definition COMMON_DESCRIPTOR_FIELDS kind caps name desc alias1 alias2 triple :=
  {| md_abi_version := OLNK_MACHINE_ABI_VERSION;
     md_struct_size := sizeof_machine_descriptor;
     md_name := name; md_description := desc;
     md_vendor := Some "olnk"%string; md_license := Some "MIT"%string;
     md_version_major := 0; md_version_minor := 1; md_version_patch := 0;
     md_kind := kind; md_capabilities := caps;
     md_min_host_api_version := 0; md_max_host_api_version := 0xFFFFFFFF;
     md_primary_alias := alias1; md_secondary_alias := alias2;
     md_canonical_triple := triple |}.

(** OLNK_MACHINE_COMMON_PROPERTIES_FIELDS *)
Definition COMMON_PROPERTIES_FIELDS kind caps endian cls psize asize
    ialign salign falign base page branch model cname triple :=
  {| mp_abi_version := OLNK_MACHINE_ABI_VERSION;
     mp_struct_size := sizeof_machine_properties;
     mp_kind := kind; mp_capabilities := caps;
     mp_endianness := endian; mp_address_class := cls;
     mp_pointer_size := psize; mp_address_size := asize;
     mp_instruction_alignment := ialign; mp_stack_alignment := salign;
     mp_function_alignment := falign;
     mp_default_image_base := base; mp_default_page_size := page;
     mp_max_branch_range := branch; mp_default_code_model := model;
     mp_canonical_name := cname; mp_canonical_triple := triple |}.

Definition k_caps_native_common : Z :=
  OLNK_MACHINE_CAPABILITY_EXECUTABLE .| OLNK_MACHINE_CAPABILITY_SHARED_LIBRARY .|
  OLNK_MACHINE_CAPABILITY_RELOCATABLE_OUTPUT .| OLNK_MACHINE_CAPABILITY_TLS .|
  OLNK_MACHINE_CAPABILITY_PIC .| OLNK_MACHINE_CAPABILITY_GOT .|
  OLNK_MACHINE_CAPABILITY_PLT.
Definition k_caps_native_relax : Z :=
  k_caps_native_common .| OLNK_MACHINE_CAPABILITY_RELAXATION.
Definition k_caps_native_branch : Z :=
  k_caps_native_relax .| OLNK_MACHINE_CAPABILITY_BRANCH_VENEERS.
Definition k_caps_x86_64 : Z :=
  k_caps_native_common .| OLNK_MACHINE_CAPABILITY_ATOMICS .|
  OLNK_MACHINE_CAPABILITY_SIMD .| OLNK_MACHINE_CAPABILITY_UNALIGNED_ACCESS.
Definition k_caps_i386 : Z :=
  k_caps_native_common .| OLNK_MACHINE_CAPABILITY_ATOMICS .|
  OLNK_MACHINE_CAPABILITY_SIMD .| OLNK_MACHINE_CAPABILITY_UNALIGNED_ACCESS.
Definition k_caps_aarch64 : Z :=
  k_caps_native_branch .| OLNK_MACHINE_CAPABILITY_ATOMICS .| OLNK_MACHINE_CAPABILITY_SIMD.
Definition k_caps_arm : Z := k_caps_native_branch .| OLNK_MACHINE_CAPABILITY_ATOMICS.
Definition k_caps_riscv : Z := k_caps_native_relax .| OLNK_MACHINE_CAPABILITY_ATOMICS.
Definition k_caps_ppc : Z := k_caps_native_common .| OLNK_MACHINE_CAPABILITY_ATOMICS.
Definition k_caps_mips : Z := k_caps_native_common.
Definition k_caps_sparc : Z := k_caps_native_common.
Definition k_caps_systemz : Z := k_caps_native_common .| OLNK_MACHINE_CAPABILITY_ATOMICS.
Definition k_caps_loongarch : Z := k_caps_native_relax .| OLNK_MACHINE_CAPABILITY_ATOMICS.
Definition k_caps_wasm : Z :=
  OLNK_MACHINE_CAPABILITY_RELOCATABLE_OUTPUT .| OLNK_MACHINE_CAPABILITY_TLS .|
  OLNK_MACHINE_CAPABILITY_PIC .| OLNK_MACHINE_CAPABILITY_VIRTUAL_ISA.
Definition k_caps_bpf : Z :=
  OLNK_MACHINE_CAPABILITY_RELOCATABLE_OUTPUT .| OLNK_MACHINE_CAPABILITY_VIRTUAL_ISA.

(** One row of the table: the back pointers start out null. *)
Definition builtin_machine (d : olnk_machine_descriptor) (p : olnk_machine_properties)
    : BuiltinMachineRecord :=
  {| br_descriptor := d; br_properties := p;
     br_instance := {| mi_definition := None |};
     br_definition := {| mdef_abi_version := OLNK_MACHINE_ABI_VERSION;
                         mdef_struct_size := sizeof_machine_definition;
                         mdef_descriptor := None; mdef_vtable := false;
                         mdef_module_data := None |} |}.

Definition machine_i386 : BuiltinMachineRecord :=
  builtin_machine
    (COMMON_DESCRIPTOR_FIELDS OLNK_MACHINE_KIND_I386 k_caps_i386
      (Some "i386"%string) (Some "Intel 32-bit x86"%string)
      (Some "x86"%string) (Some "ia32"%string) (Some "i386-unknown-none"%string))
    (COMMON_PROPERTIES_FIELDS OLNK_MACHINE_KIND_I386 k_caps_i386
      OLNK_MACHINE_ENDIANNESS_LITTLE OLNK_MACHINE_ADDRESS_CLASS_32
      4 4 1 16 16 0x08048000 4096 0
      OLNK_MACHINE_CODE_MODEL_SMALL (Some "i386"%string) (Some "i386-unknown-none"%string)).

Definition machine_x86_64 : BuiltinMachineRecord :=
  builtin_machine
    (COMMON_DESCRIPTOR_FIELDS OLNK_MACHINE_KIND_X86_64 k_caps_x86_64
      (Some "x86_64"%string) (Some "AMD64 / x86-64"%string)
      (Some "amd64"%string) (Some "x64"%string) (Some "x86_64-unknown-none"%string))
    (COMMON_PROPERTIES_FIELDS OLNK_MACHINE_KIND_X86_64 k_caps_x86_64
      OLNK_MACHINE_ENDIANNESS_LITTLE OLNK_MACHINE_ADDRESS_CLASS_64
      8 8 1 16 16 0x400000 4096 0
      OLNK_MACHINE_CODE_MODEL_SMALL (Some "x86_64"%string) (Some "x86_64-unknown-none"%string)).

Definition machine_arm : BuiltinMachineRecord :=
  builtin_machine
    (COMMON_DESCRIPTOR_FIELDS OLNK_MACHINE_KIND_ARM k_caps_arm
      (Some "arm"%string) (Some "ARM 32-bit"%string)
      (Some "arm32"%string) None (Some "arm-unknown-none"%string))
    (COMMON_PROPERTIES_FIELDS OLNK_MACHINE_KIND_ARM k_caps_arm
      OLNK_MACHINE_ENDIANNESS_LITTLE OLNK_MACHINE_ADDRESS_CLASS_32
      4 4 4 8 4 0x00010000 4096 33554432
      OLNK_MACHINE_CODE_MODEL_SMALL (Some "arm"%string) (Some "arm-unknown-none"%string)).

Definition machine_aarch64 : BuiltinMachineRecord :=
  builtin_machine
    (COMMON_DESCRIPTOR_FIELDS OLNK_MACHINE_KIND_AARCH64 k_caps_aarch64
      (Some "aarch64"%string) (Some "ARM 64-bit"%string)
      (Some "arm64"%string) None (Some "aarch64-unknown-none"%string))
    (COMMON_PROPERTIES_FIELDS OLNK_MACHINE_KIND_AARCH64 k_caps_aarch64
      OLNK_MACHINE_ENDIANNESS_LITTLE OLNK_MACHINE_ADDRESS_CLASS_64
      8 8 4 16 4 0x400000 4096 134217728
      OLNK_MACHINE_CODE_MODEL_SMALL (Some "aarch64"%string) (Some "aarch64-unknown-none"%string)).

Definition machine_thumb : BuiltinMachineRecord :=
  builtin_machine
    (COMMON_DESCRIPTOR_FIELDS OLNK_MACHINE_KIND_THUMB k_caps_arm
      (Some "thumb"%string) (Some "ARM Thumb instruction set state"%string)
      (Some "thumb2"%string) None (Some "thumb-unknown-none"%string))
    (COMMON_PROPERTIES_FIELDS OLNK_MACHINE_KIND_THUMB k_caps_arm
      OLNK_MACHINE_ENDIANNESS_LITTLE OLNK_MACHINE_ADDRESS_CLASS_32
      4 4 2 8 2 0x00010000 4096 16777216
      OLNK_MACHINE_CODE_MODEL_SMALL (Some "thumb"%string) (Some "thumb-unknown-none"%string)).

Definition machine_riscv32 : BuiltinMachineRecord :=
  builtin_machine
    (COMMON_DESCRIPTOR_FIELDS OLNK_MACHINE_KIND_RISCV32 k_caps_riscv
      (Some "riscv32"%string) (Some "RISC-V 32-bit"%string)
      (Some "rv32"%string) None (Some "riscv32-unknown-none"%string))
    (COMMON_PROPERTIES_FIELDS OLNK_MACHINE_KIND_RISCV32 k_caps_riscv
      OLNK_MACHINE_ENDIANNESS_LITTLE OLNK_MACHINE_ADDRESS_CLASS_32
      4 4 2 16 4 0x00010000 4096 1048576
      OLNK_MACHINE_CODE_MODEL_SMALL (Some "riscv32"%string) (Some "riscv32-unknown-none"%string)).

Definition machine_riscv64 : BuiltinMachineRecord :=
  builtin_machine
    (COMMON_DESCRIPTOR_FIELDS OLNK_MACHINE_KIND_RISCV64 k_caps_riscv
      (Some "riscv64"%string) (Some "RISC-V 64-bit"%string)
      (Some "rv64"%string) None (Some "riscv64-unknown-none"%string))
    (COMMON_PROPERTIES_FIELDS OLNK_MACHINE_KIND_RISCV64 k_caps_riscv
      OLNK_MACHINE_ENDIANNESS_LITTLE OLNK_MACHINE_ADDRESS_CLASS_64
      8 8 2 16 4 0x400000 4096 1048576
      OLNK_MACHINE_CODE_MODEL_SMALL (Some "riscv64"%string) (Some "riscv64-unknown-none"%string)).

Definition machine_ppc32 : BuiltinMachineRecord :=
  builtin_machine
    (COMMON_DESCRIPTOR_FIELDS OLNK_MACHINE_KIND_PPC32 k_caps_ppc
      (Some "ppc32"%string) (Some "PowerPC 32-bit"%string)
      (Some "powerpc"%string) (Some "ppc"%string) (Some "powerpc-unknown-none"%string))
    (COMMON_PROPERTIES_FIELDS OLNK_MACHINE_KIND_PPC32 k_caps_ppc
      OLNK_MACHINE_ENDIANNESS_BIG OLNK_MACHINE_ADDRESS_CLASS_32
      4 4 4 16 4 0x00010000 4096 0
      OLNK_MACHINE_CODE_MODEL_SMALL (Some "powerpc"%string) (Some "powerpc-unknown-none"%string)).

Definition machine_ppc64 : BuiltinMachineRecord :=
  builtin_machine
    (COMMON_DESCRIPTOR_FIELDS OLNK_MACHINE_KIND_PPC64 k_caps_ppc
      (Some "ppc64"%string) (Some "PowerPC 64-bit"%string)
      (Some "powerpc64"%string) None (Some "powerpc64-unknown-none"%string))
    (COMMON_PROPERTIES_FIELDS OLNK_MACHINE_KIND_PPC64 k_caps_ppc
      OLNK_MACHINE_ENDIANNESS_BIG OLNK_MACHINE_ADDRESS_CLASS_64
      8 8 4 16 4 0x10000000 65536 0
      OLNK_MACHINE_CODE_MODEL_MEDIUM (Some "powerpc64"%string) (Some "powerpc64-unknown-none"%string)).

Definition machine_mips32 : BuiltinMachineRecord :=
  builtin_machine
    (COMMON_DESCRIPTOR_FIELDS OLNK_MACHINE_KIND_MIPS32 k_caps_mips
      (Some "mips32"%string) (Some "MIPS 32-bit"%string)
      (Some "mips"%string) None (Some "mips-unknown-none"%string))
    (COMMON_PROPERTIES_FIELDS OLNK_MACHINE_KIND_MIPS32 k_caps_mips
      OLNK_MACHINE_ENDIANNESS_BIG OLNK_MACHINE_ADDRESS_CLASS_32
      4 4 4 8 4 0x00400000 4096 0
      OLNK_MACHINE_CODE_MODEL_SMALL (Some "mips32"%string) (Some "mips-unknown-none"%string)).

Definition machine_mips64 : BuiltinMachineRecord :=
  builtin_machine
    (COMMON_DESCRIPTOR_FIELDS OLNK_MACHINE_KIND_MIPS64 k_caps_mips
      (Some "mips64"%string) (Some "MIPS 64-bit"%string)
      None None (Some "mips64-unknown-none"%string))
    (COMMON_PROPERTIES_FIELDS OLNK_MACHINE_KIND_MIPS64 k_caps_mips
      OLNK_MACHINE_ENDIANNESS_BIG OLNK_MACHINE_ADDRESS_CLASS_64
      8 8 4 16 4 0x120000000 16384 0
      OLNK_MACHINE_CODE_MODEL_MEDIUM (Some "mips64"%string) (Some "mips64-unknown-none"%string)).

Definition machine_sparc32 : BuiltinMachineRecord :=
  builtin_machine
    (COMMON_DESCRIPTOR_FIELDS OLNK_MACHINE_KIND_SPARC32 k_caps_sparc
      (Some "sparc32"%string) (Some "SPARC 32-bit"%string)
      (Some "sparc"%string) None (Some "sparc-unknown-none"%string))
    (COMMON_PROPERTIES_FIELDS OLNK_MACHINE_KIND_SPARC32 k_caps_sparc
      OLNK_MACHINE_ENDIANNESS_BIG OLNK_MACHINE_ADDRESS_CLASS_32
      4 4 4 8 4 0x00010000 8192 0
      OLNK_MACHINE_CODE_MODEL_SMALL (Some "sparc"%string) (Some "sparc-unknown-none"%string)).

Definition machine_sparc64 : BuiltinMachineRecord :=
  builtin_machine
    (COMMON_DESCRIPTOR_FIELDS OLNK_MACHINE_KIND_SPARC64 k_caps_sparc
      (Some "sparc64"%string) (Some "SPARC 64-bit"%string)
      None None (Some "sparc64-unknown-none"%string))
    (COMMON_PROPERTIES_FIELDS OLNK_MACHINE_KIND_SPARC64 k_caps_sparc
      OLNK_MACHINE_ENDIANNESS_BIG OLNK_MACHINE_ADDRESS_CLASS_64
      8 8 4 16 4 0x100000 8192 0
      OLNK_MACHINE_CODE_MODEL_MEDIUM (Some "sparc64"%string) (Some "sparc64-unknown-none"%string)).

Definition machine_systemz : BuiltinMachineRecord :=
  builtin_machine
    (COMMON_DESCRIPTOR_FIELDS OLNK_MACHINE_KIND_SYSTEMZ k_caps_systemz
      (Some "systemz"%string) (Some "IBM z/Architecture"%string)
      (Some "s390x"%string) None (Some "s390x-unknown-none"%string))
    (COMMON_PROPERTIES_FIELDS OLNK_MACHINE_KIND_SYSTEMZ k_caps_systemz
      OLNK_MACHINE_ENDIANNESS_BIG OLNK_MACHINE_ADDRESS_CLASS_64
      8 8 2 8 2 0x100000 4096 0
      OLNK_MACHINE_CODE_MODEL_MEDIUM (Some "systemz"%string) (Some "s390x-unknown-none"%string)).

Definition machine_loongarch32 : BuiltinMachineRecord :=
  builtin_machine
    (COMMON_DESCRIPTOR_FIELDS OLNK_MACHINE_KIND_LOONGARCH32 k_caps_loongarch
      (Some "loongarch32"%string) (Some "LoongArch 32-bit"%string)
      (Some "la32"%string) None (Some "loongarch32-unknown-none"%string))
    (COMMON_PROPERTIES_FIELDS OLNK_MACHINE_KIND_LOONGARCH32 k_caps_loongarch
      OLNK_MACHINE_ENDIANNESS_LITTLE OLNK_MACHINE_ADDRESS_CLASS_32
      4 4 4 16 4 0x00010000 16384 0
      OLNK_MACHINE_CODE_MODEL_SMALL (Some "loongarch32"%string) (Some "loongarch32-unknown-none"%string)).

Definition machine_loongarch64 : BuiltinMachineRecord :=
  builtin_machine
    (COMMON_DESCRIPTOR_FIELDS OLNK_MACHINE_KIND_LOONGARCH64 k_caps_loongarch
      (Some "loongarch64"%string) (Some "LoongArch 64-bit"%string)
      (Some "la64"%string) None (Some "loongarch64-unknown-none"%string))
    (COMMON_PROPERTIES_FIELDS OLNK_MACHINE_KIND_LOONGARCH64 k_caps_loongarch
      OLNK_MACHINE_ENDIANNESS_LITTLE OLNK_MACHINE_ADDRESS_CLASS_64
      8 8 4 16 4 0x400000 16384 0
      OLNK_MACHINE_CODE_MODEL_SMALL (Some "loongarch64"%string) (Some "loongarch64-unknown-none"%string)).

Definition machine_wasm32 : BuiltinMachineRecord :=
  builtin_machine
    (COMMON_DESCRIPTOR_FIELDS OLNK_MACHINE_KIND_WASM32 k_caps_wasm
      (Some "wasm32"%string) (Some "WebAssembly 32-bit"%string)
      (Some "wasm"%string) None (Some "wasm32-unknown-unknown"%string))
    (COMMON_PROPERTIES_FIELDS OLNK_MACHINE_KIND_WASM32 k_caps_wasm
      OLNK_MACHINE_ENDIANNESS_LITTLE OLNK_MACHINE_ADDRESS_CLASS_32
      4 4 1 16 1 0 65536 0
      OLNK_MACHINE_CODE_MODEL_SMALL (Some "wasm32"%string) (Some "wasm32-unknown-unknown"%string)).

Definition machine_wasm64 : BuiltinMachineRecord :=
  builtin_machine
    (COMMON_DESCRIPTOR_FIELDS OLNK_MACHINE_KIND_WASM64 k_caps_wasm
      (Some "wasm64"%string) (Some "WebAssembly 64-bit"%string)
      None None (Some "wasm64-unknown-unknown"%string))
    (COMMON_PROPERTIES_FIELDS OLNK_MACHINE_KIND_WASM64 k_caps_wasm
      OLNK_MACHINE_ENDIANNESS_LITTLE OLNK_MACHINE_ADDRESS_CLASS_64
      8 8 1 16 1 0 65536 0
      OLNK_MACHINE_CODE_MODEL_SMALL (Some "wasm64"%string) (Some "wasm64-unknown-unknown"%string)).

Definition machine_bpfel : BuiltinMachineRecord :=
  builtin_machine
    (COMMON_DESCRIPTOR_FIELDS OLNK_MACHINE_KIND_BPFEL k_caps_bpf
      (Some "bpfel"%string) (Some "eBPF little-endian"%string)
      (Some "bpf"%string) (Some "ebpf"%string) (Some "bpfel-unknown-none"%string))
    (COMMON_PROPERTIES_FIELDS OLNK_MACHINE_KIND_BPFEL k_caps_bpf
      OLNK_MACHINE_ENDIANNESS_LITTLE OLNK_MACHINE_ADDRESS_CLASS_64
      8 8 8 8 8 0 4096 0
      OLNK_MACHINE_CODE_MODEL_SMALL (Some "bpfel"%string) (Some "bpfel-unknown-none"%string)).

Definition machine_bpfeb : BuiltinMachineRecord :=
  builtin_machine
    (COMMON_DESCRIPTOR_FIELDS OLNK_MACHINE_KIND_BPFEB k_caps_bpf
      (Some "bpfeb"%string) (Some "eBPF big-endian"%string)
      None None (Some "bpfeb-unknown-none"%string))
    (COMMON_PROPERTIES_FIELDS OLNK_MACHINE_KIND_BPFEB k_caps_bpf
      OLNK_MACHINE_ENDIANNESS_BIG OLNK_MACHINE_ADDRESS_CLASS_64
      8 8 8 8 8 0 4096 0
      OLNK_MACHINE_CODE_MODEL_SMALL (Some "bpfeb"%string) (Some "bpfeb-unknown-none"%string)).

Definition g_builtin_machines : list BuiltinMachineRecord :=
  [machine_i386;
   machine_x86_64;
   machine_arm;
   machine_aarch64;
   machine_thumb;
   machine_riscv32;
   machine_riscv64;
   machine_ppc32;
   machine_ppc64;
   machine_mips32;
   machine_mips64;
   machine_sparc32;
   machine_sparc64;
   machine_systemz;
   machine_loongarch32;
   machine_loongarch64;
   machine_wasm32;
   machine_wasm64;
   machine_bpfel;
   machine_bpfeb].

(** ** Initialisation: the back pointers are patched in place *)

Definition registry : Type := list BuiltinMachineRecord.

Definition patch_record (i : nat) (r : BuiltinMachineRecord) : BuiltinMachineRecord :=
  {| br_descriptor := br_descriptor r;
     br_properties := br_properties r;
     br_instance := {| mi_definition := Some i |};
     br_definition := {| mdef_abi_version := mdef_abi_version (br_definition r);
                         mdef_struct_size := mdef_struct_size (br_definition r);
                         mdef_descriptor := Some i; mdef_vtable := true;
                         mdef_module_data := Some i |} |}.

Definition initialize_builtin_registry (g : registry) : registry := imap patch_record g.

Definition builtin_machine_count (g : registry) : nat := length g.

Definition struct_header_is_compatible (abi size expected_abi sizeof : Z) : bool :=
  (abi =? expected_abi) && (sizeof <=? size).

(** ** Records behind pointers *)

(** A definition pointer: only the table's own definitions have a record. *)
Definition record_from_definition (g : registry) (d : ptr olnk_machine_definition)
    : option BuiltinMachineRecord :=
  match d with Host i => g !! i | _ => None end.

(** An instance pointer: the record of the definition it points to. *)
Definition record_from_instance (g : registry) (p : ptr olnk_machine_instance)
    : option BuiltinMachineRecord :=
  match p with
  | Null => None
  | Host i => r ← g !! i; j ← mi_definition (br_instance r); record_from_definition g (Host j)
  | Foreign inst => j ← mi_definition inst; record_from_definition g (Host j)
  end.

Definition matches_machine_name (rec : BuiltinMachineRecord) (name : cstr) : bool :=
  cstr_iequals_ascii (md_name (br_descriptor rec)) name
  || cstr_iequals_ascii (md_primary_alias (br_descriptor rec)) name
  || cstr_iequals_ascii (md_secondary_alias (br_descriptor rec)) name
  || cstr_iequals_ascii (md_canonical_triple (br_descriptor rec)) name
  || cstr_iequals_ascii (mp_canonical_name (br_properties rec)) name
  || cstr_iequals_ascii (mp_canonical_triple (br_properties rec)) name.

(** ** The callbacks of the built-in vtable *)

(** create: the status, and the instance stored through [out_instance] when
    the guards let the call reach the store. *)
Definition builtin_machine_create (g : registry) (descriptor : ptr olnk_machine_descriptor)
    (out_instance : bool) : olnk_status * option (ptr olnk_machine_instance) * registry :=
  if negb out_instance then (OLNK_STATUS_INVALID_ARGUMENT, None, g)
  else match descriptor with
  | Null => (OLNK_STATUS_INVALID_ARGUMENT, None, g)
  | Foreign d =>
      if negb (struct_header_is_compatible (md_abi_version d) (md_struct_size d)
                 OLNK_MACHINE_ABI_VERSION sizeof_machine_descriptor)
      then (OLNK_STATUS_INVALID_ARGUMENT, Some Null, g)
      else (OLNK_STATUS_MACHINE_ERROR, Some Null, initialize_builtin_registry g)
  | Host i =>
      match g !! i with
      | None => (OLNK_STATUS_MACHINE_ERROR, Some Null, initialize_builtin_registry g)
      | Some r =>
          if negb (struct_header_is_compatible (md_abi_version (br_descriptor r))
                     (md_struct_size (br_descriptor r))
                     OLNK_MACHINE_ABI_VERSION sizeof_machine_descriptor)
          then (OLNK_STATUS_INVALID_ARGUMENT, Some Null, g)
          else (OLNK_STATUS_OK, Some (Host i), initialize_builtin_registry g)
      end
  end.

Definition builtin_machine_destroy (g : registry) (instance : ptr olnk_machine_instance)
    : registry := g.

Definition is_null {A} (p : ptr A) : bool := match p with Null => true | _ => false end.

Definition builtin_machine_set_option (instance : ptr olnk_machine_instance)
    (key value : cstr) : olnk_status :=
  if is_null instance || cstr_null key || cstr_null value
  then OLNK_STATUS_INVALID_ARGUMENT
  else if cstr_iequals_ascii key (Some "cpu"%string)
       || cstr_iequals_ascii key (Some "features"%string)
       || cstr_iequals_ascii key (Some "abi"%string)
       || cstr_iequals_ascii key (Some "code-model"%string)
  then OLNK_STATUS_OK
  else OLNK_STATUS_INVALID_ARGUMENT.

(** get_properties: [out] is the caller's struct, null or with its
    [struct_size]; the struct after the call is returned. *)
Definition builtin_machine_get_properties (g : registry) (instance : ptr olnk_machine_instance)
    (out : option olnk_machine_properties) : olnk_status * option olnk_machine_properties :=
  match instance, out with
  | Null, _ | _, None => (OLNK_STATUS_INVALID_ARGUMENT, out)
  | _, Some o =>
      if mp_struct_size o <? sizeof_machine_properties then (OLNK_STATUS_INVALID_ARGUMENT, out)
      else match record_from_instance g instance with
           | None => (OLNK_STATUS_MACHINE_ERROR, out)
           | Some rec => (OLNK_STATUS_OK, Some (br_properties rec))
           end
  end.

(** The messages a callback sends to the host. *)
Inductive machine_event : Set :=
  | MLog (level : olnk_log_level) (message : string)
  | MDiag (severity : olnk_diagnostic_severity) (message : string).

Definition machine_ctx_log (context : option (option olnk_machine_host))
    (level : olnk_log_level) (message : string) : list machine_event :=
  match context with
  | Some (Some host) =>
      if mh_log host && (sizeof_machine_host <=? mh_struct_size host)
         && (mh_abi_version host =? OLNK_MACHINE_ABI_VERSION)
      then [MLog level message] else []
  | _ => []
  end.

Definition machine_ctx_diag (context : option (option olnk_machine_host))
    (severity : olnk_diagnostic_severity) (message : string) : list machine_event :=
  match context with
  | Some (Some host) =>
      if mh_diagnostic host && (sizeof_machine_host <=? mh_struct_size host)
         && (mh_abi_version host =? OLNK_MACHINE_ABI_VERSION)
      then [MDiag severity message] else []
  | _ => []
  end.

Definition builtin_machine_validate_config (g : registry)
    (instance : ptr olnk_machine_instance) (context : option (option olnk_machine_host))
    : olnk_status * list machine_event :=
  if is_null instance then (OLNK_STATUS_INVALID_ARGUMENT, [])
  else match record_from_instance g instance with
  | None => (OLNK_STATUS_MACHINE_ERROR, [])
  | Some rec =>
      (OLNK_STATUS_OK,
       machine_ctx_log context OLNK_LOG_DEBUG (fallback_empty (md_description (br_descriptor rec)))
       ++ (if olnk_machine_is_virtual_kind (md_kind (br_descriptor rec))
           then machine_ctx_log context OLNK_LOG_DEBUG "validated virtual machine target"%string
           else machine_ctx_log context OLNK_LOG_DEBUG "validated native machine target"%string)
       ++ (if bool_decide (mp_address_class (br_properties rec)
                           = OLNK_MACHINE_ADDRESS_CLASS_UNKNOWN)
           then machine_ctx_diag context OLNK_DIAGNOSTIC_WARNING
                  "machine has unknown address class"%string else [])
       ++ (if bool_decide (mp_endianness (br_properties rec) = OLNK_MACHINE_ENDIANNESS_UNKNOWN)
           then machine_ctx_diag context OLNK_DIAGNOSTIC_WARNING
                  "machine has unknown endianness"%string else []))
  end.

Definition builtin_machine_canonical_name (g : registry) (p : ptr olnk_machine_instance) : cstr :=
  rec ← record_from_instance g p; mp_canonical_name (br_properties rec).
Definition builtin_machine_canonical_triple (g : registry) (p : ptr olnk_machine_instance) : cstr :=
  rec ← record_from_instance g p; mp_canonical_triple (br_properties rec).
Definition builtin_machine_describe (g : registry) (p : ptr olnk_machine_instance) : cstr :=
  rec ← record_from_instance g p; md_description (br_descriptor rec).

(** ** The public lookups: the definition returned and the registry after *)

Definition olnk_machine_count (g : registry) : nat * registry :=
  let g := initialize_builtin_registry g in (builtin_machine_count g, g).

Definition olnk_machine_at (g : registry) (index : Z) : option nat * registry :=
  let g := initialize_builtin_registry g in
  (if Z.of_nat (builtin_machine_count g) <=? index then None else Some (Z.to_nat index), g).

Definition olnk_find_machine_by_kind (g : registry) (kind : Z) : option nat * registry :=
  let g := initialize_builtin_registry g in
  (fst <$> find_first (fun p => machine_kind_Z (md_kind (br_descriptor (snd p))) =? kind)
             (imap pair g), g).

(** A machine spec of the Lua registry: its name, architecture and aliases.
    An absent or mistyped field is [None]. *)
Record lua_machine_spec := {
  lms_name : option string; lms_arch : option string;
  lms_aliases : option (list (option string)) }.

Definition lua_spec_matches (spec : lua_machine_spec) (name : cstr) : bool :=
  cstr_iequals_ascii (lms_name spec) name
  || cstr_iequals_ascii (lms_arch spec) name
  || match lms_aliases spec with
     | None => false
     | Some aliases => existsb (fun alias => cstr_iequals_ascii alias name) aliases
     end.

Definition lua_arch_kind (arch : option string) : option olnk_machine_kind :=
  if cstr_iequals_ascii arch (Some "wasm32"%string) then Some OLNK_MACHINE_KIND_WASM32
  else if cstr_iequals_ascii arch (Some "x86_64"%string) then Some OLNK_MACHINE_KIND_X86_64
  else if cstr_iequals_ascii arch (Some "aarch64"%string) then Some OLNK_MACHINE_KIND_AARCH64
  else None.

Section Lookup.

(** The machine specs the Lua profiles registered, in iteration order; [None]
    when there is no registry or loading it threw. An entry that is not a
    table is [None]. *)
Variable lua_machines : option (list (option lua_machine_spec)).

Definition lua_specs_scan : list (option lua_machine_spec) -> cstr -> option olnk_machine_kind :=
  lua_scan lua_spec_matches (fun spec => lua_arch_kind (lms_arch spec)).

(** The kind the code stores in [*out_kind] before it returns true. *)
Definition lua_machine_spec_matches_name (name : cstr) : option olnk_machine_kind :=
  match lua_machines with None => None | Some specs => lua_specs_scan specs name end.

Definition olnk_find_machine (g : registry) (name : cstr) : option nat * registry :=
  match name with
  | None | Some EmptyString => (None, g)
  | Some _ =>
      let g := initialize_builtin_registry g in
      match find_first (fun p => matches_machine_name (snd p) name) (imap pair g) with
      | Some (i, _) => (Some i, g)
      | None =>
          match lua_machine_spec_matches_name name with
          | Some kind => olnk_find_machine_by_kind g (machine_kind_Z kind)
          | None => (None, g)
          end
      end
  end.

End Lookup.

Definition olnk_machine_kind_name (kind : Z) : string :=
  match machine_kind_of_Z kind with
  | None => "unrecognized-machine-kind"
  | Some k =>
    match k with
    | OLNK_MACHINE_KIND_UNKNOWN => "unknown"
    | OLNK_MACHINE_KIND_I386 => "i386"
    | OLNK_MACHINE_KIND_X86_64 => "x86_64"
    | OLNK_MACHINE_KIND_ARM => "arm"
    | OLNK_MACHINE_KIND_AARCH64 => "aarch64"
    | OLNK_MACHINE_KIND_THUMB => "thumb"
    | OLNK_MACHINE_KIND_RISCV32 => "riscv32"
    | OLNK_MACHINE_KIND_RISCV64 => "riscv64"
    | OLNK_MACHINE_KIND_PPC32 => "ppc32"
    | OLNK_MACHINE_KIND_PPC64 => "ppc64"
    | OLNK_MACHINE_KIND_MIPS32 => "mips32"
    | OLNK_MACHINE_KIND_MIPS64 => "mips64"
    | OLNK_MACHINE_KIND_SPARC32 => "sparc32"
    | OLNK_MACHINE_KIND_SPARC64 => "sparc64"
    | OLNK_MACHINE_KIND_SYSTEMZ => "systemz"
    | OLNK_MACHINE_KIND_LOONGARCH32 => "loongarch32"
    | OLNK_MACHINE_KIND_LOONGARCH64 => "loongarch64"
    | OLNK_MACHINE_KIND_WASM32 => "wasm32"
    | OLNK_MACHINE_KIND_WASM64 => "wasm64"
    | OLNK_MACHINE_KIND_BPFEL => "bpfel"
    | OLNK_MACHINE_KIND_BPFEB => "bpfeb"
    | OLNK_MACHINE_KIND_CUSTOM => "custom"
    end
  end%string.

(** ** Keys of a record

    A name matches a record when its folded form is one of the record's
    folded names. *)
Definition record_names (r : BuiltinMachineRecord) : list cstr :=
  [md_name (br_descriptor r); md_primary_alias (br_descriptor r);
   md_secondary_alias (br_descriptor r); md_canonical_triple (br_descriptor r);
   mp_canonical_name (br_properties r); mp_canonical_triple (br_properties r)].

Definition record_keys (r : BuiltinMachineRecord) : list string := name_keys (record_names r).

Lemma matches_spec r n :
  matches_machine_name r (Some n) = true <-> fold_string n ∈ record_keys r.
Proof.
  unfold record_keys. rewrite <- any_name_spec. unfold matches_machine_name. cbn.
  by rewrite orb_false_r, !orb_assoc.
Qed.

Lemma patch_record_keys i r : record_keys (patch_record i r) = record_keys r.
Proof. done. Qed.

(** No two records of the table share a key, whatever the letter case. *)
Lemma builtin_keys_disjoint : pairwise_disjoint (record_keys <$> g_builtin_machines) = true.
Proof. vm_compute. reflexivity. Qed.

(** ** The registry along any sequence of calls *)

Inductive machine_call : Type :=
  | CallCount
  | CallAt (index : Z)
  | CallFind (name : cstr)
  | CallFindByKind (kind : Z)
  | CallCreate (descriptor : ptr olnk_machine_descriptor) (out_instance : bool)
  | CallDestroy (instance : ptr olnk_machine_instance).

Section Calls.
Variable lua_machines : option (list (option lua_machine_spec)).

Definition machine_step (g : registry) (c : machine_call) : registry :=
  match c with
  | CallCount => snd (olnk_machine_count g)
  | CallAt index => snd (olnk_machine_at g index)
  | CallFind name => snd (olnk_find_machine lua_machines g name)
  | CallFindByKind kind => snd (olnk_find_machine_by_kind g kind)
  | CallCreate d o => snd (builtin_machine_create g d o)
  | CallDestroy p => builtin_machine_destroy g p
  end.

Definition machine_reachable (g : registry) : Prop :=
  exists calls, g = foldl machine_step g_builtin_machines calls.

Definition registry_ready : registry := initialize_builtin_registry g_builtin_machines.

Lemma initialize_idemp : initialize_builtin_registry registry_ready = registry_ready.
Proof.
  unfold registry_ready, initialize_builtin_registry.
  apply list_eq. intros i. rewrite !list_lookup_imap.
  destruct (g_builtin_machines !! i); done.
Qed.

(** The table is either as it was compiled or fully patched. *)
Definition registry_inv (g : registry) : Prop :=
  g = g_builtin_machines \/ g = registry_ready.

Lemma initialize_inv g : registry_inv g -> initialize_builtin_registry g = registry_ready.
Proof. intros [->| ->]; [done|apply initialize_idemp]. Qed.

Lemma machine_step_inv g c : registry_inv g -> registry_inv (machine_step g c).
Proof.
  intros Hg. pose proof (initialize_inv g Hg) as Hi.
  destruct c as [| |name| |d o|]; cbn; rewrite ?Hi; try (by right); try done.
  - unfold olnk_find_machine. destruct name as [[|ch n]|]; [done| |done].
    rewrite Hi. case_match; [destruct p; by right|].
    case_match; [|by right].
    unfold olnk_find_machine_by_kind. rewrite initialize_idemp. by right.
  - unfold builtin_machine_create. rewrite Hi.
    repeat case_match; cbn; try done; by right.
Qed.

Lemma machine_reachable_inv g : machine_reachable g -> registry_inv g.
Proof.
  intros (calls & ->).
  assert (registry_inv g_builtin_machines) as H0 by by left.
  revert H0. generalize g_builtin_machines.
  induction calls as [|c calls IH]; intros g Hg; [done|]. cbn.
  apply IH. by apply machine_step_inv.
Qed.

End Calls.

(** ** Lookups in the patched table *)

Lemma ready_lookup i :
  registry_ready !! i = patch_record i <$> (g_builtin_machines !! i).
Proof. apply list_lookup_imap. Qed.

Lemma ready_keys_unique i j r s x :
  registry_ready !! i = Some r -> registry_ready !! j = Some s ->
  x ∈ record_keys r -> x ∈ record_keys s -> i = j.
Proof.
  rewrite !ready_lookup. intros (r' & Hi & ->)%fmap_Some (s' & Hj & ->)%fmap_Some.
  rewrite !patch_record_keys. intros Hr Hs.
  apply (pairwise_disjoint_inj (record_keys <$> g_builtin_machines) i j
    (record_keys r') (record_keys s') x builtin_keys_disjoint); try done;
    by rewrite list_lookup_fmap, ?Hi, ?Hj.
Qed.

Definition machine_kind_at (i : nat) : option olnk_machine_kind :=
  (fun r => md_kind (br_descriptor r)) <$> (g_builtin_machines !! i).

Lemma builtin_kinds_NoDup :
  NoDup ((fun r => machine_kind_Z (md_kind (br_descriptor r))) <$> g_builtin_machines).
Proof. apply (bool_decide_unpack _). vm_compute. exact I. Qed.

Lemma find_by_kind_spec g z i :
  registry_inv g ->
  fst (olnk_find_machine_by_kind g z) = Some i <->
  exists k, machine_kind_at i = Some k /\ machine_kind_Z k = z.
Proof.
  intros Hg. unfold olnk_find_machine_by_kind. rewrite initialize_inv by done. cbn [fst].
  set (f := fun r => machine_kind_Z (md_kind (br_descriptor r)) =? z).
  change (fst <$> find_first (fun p => f (snd p)) (imap pair registry_ready) = Some i <->
    exists k, machine_kind_at i = Some k /\ machine_kind_Z k = z).
  rewrite fmap_Some. split.
  - intros ([j r] & (Hj & Hr & _)%find_imap_Some & ->).
    rewrite ready_lookup in Hj. apply fmap_Some in Hj as (r' & Hj & ->).
    exists (md_kind (br_descriptor r')). unfold machine_kind_at. cbn. rewrite Hj.
    split; [done|]. by apply Z.eqb_eq in Hr.
  - intros (k & (r & Hr & ->)%fmap_Some & Hz). exists (i, patch_record i r).
    split; [|done]. apply find_imap_Some. split_and!.
    + by rewrite ready_lookup, Hr.
    + by apply Z.eqb_eq.
    + intros j y Hji. rewrite ready_lookup. intros (s & Hs & ->)%fmap_Some.
      apply Z.eqb_neq. intros Hs'. enough (i = j) by lia.
      eapply (NoDup_lookup _ _ _ z); [apply builtin_kinds_NoDup|..];
        rewrite list_lookup_fmap, ?Hr, ?Hs; cbn; f_equal; done.
Qed.

(** ** Lookup by name *)

(** A built-in machine answers to [n]: one of its names is [n] up to ASCII
    letter case. *)
Definition builtin_answers (i : nat) (n : string) : Prop :=
  exists r, g_builtin_machines !! i = Some r /\ fold_string n ∈ record_keys r.

(** The first Lua machine spec that answers to [n] has architecture [k]. *)
Definition lua_machine_answers : option (list (option lua_machine_spec)) -> string ->
    olnk_machine_kind -> Prop :=
  lua_answers lua_spec_matches (fun spec => lua_arch_kind (lms_arch spec)).

Lemma lua_name_spec lua n k :
  lua_machine_spec_matches_name lua (Some n) = Some k <-> lua_machine_answers lua n k.
Proof. apply lua_answers_spec. Qed.

Lemma ready_answers i r n :
  registry_ready !! i = Some r ->
  matches_machine_name r (Some n) = true <-> builtin_answers i n.
Proof.
  rewrite ready_lookup. intros (r' & Hr & ->)%fmap_Some.
  rewrite matches_spec, patch_record_keys. unfold builtin_answers. rewrite Hr.
  split; [intros H; by exists r'|by intros (? & [= <-] & ?)].
Qed.

Lemma find_ready_spec n i :
  fst <$> find_first (fun p => matches_machine_name (snd p) (Some n))
            (imap pair registry_ready) = Some i
  <-> builtin_answers i n.
Proof.
  rewrite fmap_Some. split.
  - intros ([j r] & Hf & ->).
    apply (find_imap_Some (fun r => matches_machine_name r (Some n))) in Hf as (Hj & Hm & _).
    by apply (ready_answers j r n).
  - intros H. pose proof H as (r & Hr & Hx). exists (i, patch_record i r).
    assert (registry_ready !! i = Some (patch_record i r)) as Hi
      by (by rewrite ready_lookup, Hr).
    split; [|done]. apply (find_imap_Some (fun r => matches_machine_name r (Some n))).
    split_and!; [done|by apply (ready_answers i)|].
    intros j y Hji Hy. destruct (matches_machine_name y (Some n)) eqn:Hm; [|done].
    apply matches_spec in Hm. enough (i = j) by lia.
    by apply (ready_keys_unique i j (patch_record i r) y (fold_string n)).
Qed.

(** In every state the registry can reach, olnk_find_machine returns
    the i-th built-in definition for a non-empty name exactly when that machine
    has the name, an alias or the triple up to ASCII letter case - no name
    belongs to two machines, so the order of the table does not matter - or
    when no built-in machine answers and the first Lua machine spec that
    answers declares an architecture whose kind is the machine's. *)
Theorem find_machine_correct lua g n i :
  machine_reachable lua g -> n <> EmptyString ->
  fst (olnk_find_machine lua g (Some n)) = Some i <->
  builtin_answers i n \/
  ((forall j, ~ builtin_answers j n) /\
   exists k, lua_machine_answers lua n k /\ machine_kind_at i = Some k).
Proof.
  intros Hg%machine_reachable_inv Hn. unfold olnk_find_machine.
  destruct n as [|ch n]; [done|]. rewrite initialize_inv by done.
  pose proof (find_ready_spec (String ch n)) as Hspec.
  destruct (find_first _ _) as [[j r]|] eqn:Hf; cbn [fst].
  - specialize (proj1 (Hspec j) eq_refl) as Hj.
    rewrite <- Hspec. cbn. split; [by left|].
    intros [H|[H _]]; [done|]. by destruct (H j).
  - assert (forall j, ~ builtin_answers j (String ch n)) as Hno.
    { intros j Hj. by apply Hspec in Hj. }
    split.
    + destruct (lua_machine_spec_matches_name _ _) as [k|] eqn:Hl; [|done].
      intros (k' & Hk & Heq)%find_by_kind_spec; [|by right]. right. split; [done|].
      exists k. apply lua_name_spec in Hl. split; [done|].
      rewrite Hk. f_equal. destruct k, k'; vm_compute in Heq; done.
    + intros [H|[_ (k & Hl%lua_name_spec & Hk)]]; [by destruct (Hno i)|].
      rewrite Hl. apply find_by_kind_spec; [by right|]. by exists k.
Qed.

Lemma find_machine_correct_witness :
  fst (olnk_find_machine None (machine_step None g_builtin_machines CallCount)
         (Some "AMD64"%string)) = Some 1%nat.
Proof.
  apply (find_machine_correct None _ "AMD64" 1%nat);
    [by exists [CallCount]|done|].
  left. eexists. split; [reflexivity|].
  apply list_elem_of_In. vm_compute. tauto.
Defined.

(** ** The table *)

Definition record_coherent (r : BuiltinMachineRecord) : Prop :=
  let d := br_descriptor r in let p := br_properties r in
  mp_kind p = md_kind d /\ mp_capabilities p = md_capabilities d /\
  mp_canonical_triple p = md_canonical_triple d /\
  address_class_Z (mp_address_class p) = 8 * mp_address_size p /\
  mp_pointer_size p = mp_address_size p /\
  mp_endianness p <> OLNK_MACHINE_ENDIANNESS_UNKNOWN /\
  olnk_machine_is_virtual_kind (md_kind d)
    = olnk_machine_capability_test (md_capabilities d) OLNK_MACHINE_CAPABILITY_VIRTUAL_ISA /\
  md_name d = Some (olnk_machine_kind_name (machine_kind_Z (md_kind d))).

#[local] Instance record_coherent_dec r : Decision (record_coherent r).
Proof. unfold record_coherent. cbn zeta. apply _. Defined.

Lemma builtin_coherent : Forall record_coherent g_builtin_machines.
Proof. apply (bool_decide_unpack _). vm_compute. exact I. Qed.

(** Every built-in machine has a coherent record - the same kind,
    capabilities and triple in descriptor and properties, an address class of
    eight times the address size, the virtual-ISA capability exactly for the
    virtual kinds, and the name olnk_machine_kind_name gives its kind - and in
    every reachable state olnk_machine_at returns it for its index,
    olnk_find_machine_by_kind for its kind, and nothing else for either. *)
Theorem machine_table_correct lua g :
  machine_reachable lua g ->
  fst (olnk_machine_count g) = 20%nat /\
  (forall z, fst (olnk_machine_at g z) = None <-> 20 <= z) /\
  (forall i r, g_builtin_machines !! i = Some r ->
     record_coherent r /\
     fst (olnk_machine_at g (Z.of_nat i)) = Some i /\
     forall j, fst (olnk_find_machine_by_kind g (machine_kind_Z (md_kind (br_descriptor r))))
               = Some j <-> j = i).
Proof.
  intros Hg%machine_reachable_inv.
  assert (builtin_machine_count (initialize_builtin_registry g) = 20%nat) as Hcount
    by (by rewrite initialize_inv by done).
  split_and!; [done| |].
  - intros z. cbn. rewrite Hcount. destruct (Z.leb_spec (Z.of_nat 20) z); naive_solver lia.
  - intros i r Hi. split_and!.
    + by eapply Forall_lookup_1; [apply builtin_coherent|].
    + cbn. rewrite Hcount. apply lookup_lt_Some in Hi. change (length _) with 20%nat in Hi.
      destruct (Z.leb_spec (Z.of_nat 20) (Z.of_nat i)); [lia|]. by rewrite Nat2Z.id.
    + intros j. rewrite find_by_kind_spec by done. unfold machine_kind_at. split.
      * intros (k & (s & Hs & ->)%fmap_Some & Hk).
        apply (NoDup_lookup _ _ _ (machine_kind_Z (md_kind (br_descriptor r)))
                 builtin_kinds_NoDup);
          rewrite list_lookup_fmap, ?Hs, ?Hi; [exact (f_equal Some Hk)|reflexivity].
      * intros ->. exists (md_kind (br_descriptor r)). by rewrite Hi.
Qed.

Lemma machine_table_correct_witness :
  fst (olnk_machine_count (machine_step None g_builtin_machines (CallAt 3))) = 20%nat.
Proof.
  destruct (machine_table_correct None (machine_step None g_builtin_machines (CallAt 3)))
    as [H _]; [|exact H].
  exists [CallAt 3]. cbn [foldl]. exact eq_refl.
Defined.

(** ** Instances *)

Lemma find_machine_ready lua name :
  snd (olnk_find_machine lua registry_ready name) = registry_ready.
Proof.
  unfold olnk_find_machine. rewrite initialize_idemp.
  destruct name as [[|ch n]|]; [reflexivity| |reflexivity].
  destruct (find_first _ _) as [[j r]|]; [reflexivity|].
  destruct (lua_machine_spec_matches_name _ _); [|reflexivity].
  exact initialize_idemp.
Qed.

Lemma create_ready d o : snd (builtin_machine_create registry_ready d o) = registry_ready.
Proof.
  unfold builtin_machine_create. rewrite initialize_idemp.
  destruct o, d as [|i|d]; cbn [negb]; try reflexivity.
  - destruct (registry_ready !! i); [|reflexivity]. by destruct (negb _).
  - by destruct (negb _).
Qed.

Lemma machine_step_ready lua c : machine_step lua registry_ready c = registry_ready.
Proof.
  destruct c as [| |name| |d o|]; cbn [machine_step].
  - exact initialize_idemp.
  - exact initialize_idemp.
  - apply find_machine_ready.
  - exact initialize_idemp.
  - apply create_ready.
  - reflexivity.
Qed.

Lemma machine_steps_ready lua calls :
  foldl (machine_step lua) registry_ready calls = registry_ready.
Proof. induction calls; [done|]. cbn [foldl]. by rewrite machine_step_ready. Qed.

Lemma create_builtin g i r :
  registry_inv g -> g_builtin_machines !! i = Some r ->
  builtin_machine_create g (Host i) true = (OLNK_STATUS_OK, Some (Host i), registry_ready).
Proof.
  intros Hg Hi. unfold builtin_machine_create. rewrite initialize_inv by done. cbn [negb].
  assert (exists r', g !! i = Some r' /\ br_descriptor r' = br_descriptor r) as (r' & -> & ->).
  { destruct Hg as [->| ->]; [by exists r|]. rewrite ready_lookup, Hi. by eexists. }
  assert (Forall (fun r => struct_header_is_compatible (md_abi_version (br_descriptor r))
    (md_struct_size (br_descriptor r)) OLNK_MACHINE_ABI_VERSION sizeof_machine_descriptor = true)
    g_builtin_machines) as Hall by (apply (bool_decide_unpack _); vm_compute; exact I).
  by rewrite (Forall_lookup_1 _ _ _ _ Hall Hi).
Qed.

Lemma ready_instance i r :
  g_builtin_machines !! i = Some r ->
  record_from_instance registry_ready (Host i) = Some (patch_record i r).
Proof.
  intros Hi. unfold record_from_instance, record_from_definition.
  rewrite ready_lookup, Hi. cbn. by rewrite ready_lookup, Hi.
Qed.

(** A host whose header is compatible and whose two callbacks are set. *)
Definition host_complete (h : olnk_machine_host) : Prop :=
  mh_abi_version h = OLNK_MACHINE_ABI_VERSION /\ sizeof_machine_host <= mh_struct_size h /\
  mh_log h = true /\ mh_diagnostic h = true.

(** The two debug messages a successful validation logs. *)
Definition validation_log (r : BuiltinMachineRecord) : list machine_event :=
  [MLog OLNK_LOG_DEBUG (fallback_empty (md_description (br_descriptor r)));
   MLog OLNK_LOG_DEBUG
     (if olnk_machine_is_virtual_kind (md_kind (br_descriptor r))
      then "validated virtual machine target" else "validated native machine target")%string].

Lemma validate_ready i r h :
  g_builtin_machines !! i = Some r -> host_complete h ->
  builtin_machine_validate_config registry_ready (Host i) (Some (Some h))
  = (OLNK_STATUS_OK, validation_log r).
Proof.
  intros Hi (Ha & Hs & Hl & Hd). unfold builtin_machine_validate_config.
  rewrite (ready_instance i r Hi). cbn -[sizeof_machine_host].
  unfold machine_ctx_log. rewrite Hl, Ha, Z.eqb_refl, (proj2 (Z.leb_le _ _) Hs). cbn [andb].
  pose proof (Forall_lookup_1 _ _ _ _ builtin_coherent Hi) as (_ & _ & _ & Hc & _ & He & _ & _).
  rewrite (bool_decide_eq_false_2 _ He), bool_decide_eq_false_2.
  - unfold validation_log. by destruct (olnk_machine_is_virtual_kind _).
  - intros Hu. rewrite Hu in Hc. cbn in Hc.
    assert (Forall (fun r => 0 < mp_address_size (br_properties r)) g_builtin_machines) as Hpos
      by (apply (bool_decide_unpack _); vm_compute; exact I).
    pose proof (Forall_lookup_1 _ _ _ _ Hpos Hi) as Hp. cbv beta in Hp. lia.
Qed.

(** From every reachable state, create on the descriptor of a built-in
    machine succeeds and yields the machine's instance, and after any further
    registry calls that instance stands for its record: get_properties rejects
    a caller's struct that is too small and otherwise copies the machine's
    properties into it, the name, triple and description callbacks return its
    strings, and validate_config succeeds with exactly two debug messages. *)
Theorem machine_instance_correct lua g i r :
  machine_reachable lua g -> g_builtin_machines !! i = Some r ->
  exists inst g', builtin_machine_create g (Host i) true = (OLNK_STATUS_OK, Some inst, g') /\
  forall calls, let g'' := foldl (machine_step lua) g' calls in
    (forall out, builtin_machine_get_properties g'' inst (Some out) =
       if mp_struct_size out <? sizeof_machine_properties
       then (OLNK_STATUS_INVALID_ARGUMENT, Some out)
       else (OLNK_STATUS_OK, Some (br_properties r))) /\
    builtin_machine_canonical_name g'' inst = mp_canonical_name (br_properties r) /\
    builtin_machine_canonical_triple g'' inst = md_canonical_triple (br_descriptor r) /\
    builtin_machine_describe g'' inst = md_description (br_descriptor r) /\
    (forall h, host_complete h -> builtin_machine_validate_config g'' inst (Some (Some h))
       = (OLNK_STATUS_OK, validation_log r)).
Proof.
  intros Hg%machine_reachable_inv Hi. exists (Host i), registry_ready.
  split; [by apply (create_builtin g i r)|].
  intros calls g''. subst g''. rewrite machine_steps_ready. split_and!.
  - intros out. unfold builtin_machine_get_properties. by rewrite (ready_instance i r Hi).
  - unfold builtin_machine_canonical_name. by rewrite (ready_instance i r Hi).
  - unfold builtin_machine_canonical_triple. rewrite (ready_instance i r Hi). cbn.
    apply (Forall_lookup_1 _ _ _ _ builtin_coherent Hi).
  - unfold builtin_machine_describe. by rewrite (ready_instance i r Hi).
  - intros h Hh. by apply validate_ready.
Qed.

Lemma machine_instance_correct_witness :
  exists inst g', builtin_machine_create g_builtin_machines (Host 16) true
                  = (OLNK_STATUS_OK, Some inst, g') /\
    builtin_machine_describe g' inst = Some "WebAssembly 32-bit"%string.
Proof.
  destruct (machine_instance_correct None g_builtin_machines 16 machine_wasm32)
    as (inst & g' & Hc & H); [by exists []|reflexivity|].
  exists inst, g'. split; [exact Hc|]. apply (H []).
Defined.
