(* ===== verification/Ir.v ===== *)
(** * The public IR view (src/olnk/ir.cpp, include/olnk/olnk-ir.h)

    An image carries only its summary, so an indexed query answers with a
    deterministically initialised record when the index is in range. The six
    queries and the six iterator steps have the same text over their own info
    struct; the class [IrEntity] is what they have in common, and the theorems
    are proved against it. Iterators live in a heap: a step on a null or freed
    iterator is undefined behaviour. *)

From S2P Require Import Prelude Abi.

Definition OLNK_IR_ABI_VERSION : Z := 1.

(** ** Enumerations *)

Inductive olnk_ir_file_kind : Set :=
  | OLNK_IR_FILE_KIND_UNKNOWN | OLNK_IR_FILE_KIND_OBJECT
  | OLNK_IR_FILE_KIND_SHARED_LIBRARY | OLNK_IR_FILE_KIND_ARCHIVE
  | OLNK_IR_FILE_KIND_WHOLE_ARCHIVE | OLNK_IR_FILE_KIND_SCRIPT
  | OLNK_IR_FILE_KIND_BITCODE | OLNK_IR_FILE_KIND_PSEUDO.

Inductive olnk_ir_section_kind : Set :=
  | OLNK_IR_SECTION_KIND_UNKNOWN | OLNK_IR_SECTION_KIND_CODE | OLNK_IR_SECTION_KIND_DATA
  | OLNK_IR_SECTION_KIND_BSS | OLNK_IR_SECTION_KIND_RODATA | OLNK_IR_SECTION_KIND_TLS
  | OLNK_IR_SECTION_KIND_DEBUG | OLNK_IR_SECTION_KIND_NOTE
  | OLNK_IR_SECTION_KIND_METADATA | OLNK_IR_SECTION_KIND_IMPORT_TABLE
  | OLNK_IR_SECTION_KIND_EXPORT_TABLE | OLNK_IR_SECTION_KIND_RELOCATION
  | OLNK_IR_SECTION_KIND_CUSTOM.

Inductive olnk_ir_symbol_binding : Set :=
  | OLNK_IR_SYMBOL_BINDING_UNKNOWN | OLNK_IR_SYMBOL_BINDING_LOCAL
  | OLNK_IR_SYMBOL_BINDING_GLOBAL | OLNK_IR_SYMBOL_BINDING_WEAK
  | OLNK_IR_SYMBOL_BINDING_EXTERN | OLNK_IR_SYMBOL_BINDING_PRIVATE.

Inductive olnk_ir_symbol_visibility : Set :=
  | OLNK_IR_SYMBOL_VISIBILITY_DEFAULT | OLNK_IR_SYMBOL_VISIBILITY_HIDDEN
  | OLNK_IR_SYMBOL_VISIBILITY_PROTECTED | OLNK_IR_SYMBOL_VISIBILITY_INTERNAL.

Inductive olnk_ir_symbol_kind : Set :=
  | OLNK_IR_SYMBOL_KIND_UNKNOWN | OLNK_IR_SYMBOL_KIND_FUNCTION
  | OLNK_IR_SYMBOL_KIND_OBJECT | OLNK_IR_SYMBOL_KIND_TLS | OLNK_IR_SYMBOL_KIND_SECTION
  | OLNK_IR_SYMBOL_KIND_FILE | OLNK_IR_SYMBOL_KIND_ABSOLUTE | OLNK_IR_SYMBOL_KIND_COMMON
  | OLNK_IR_SYMBOL_KIND_IFUNC | OLNK_IR_SYMBOL_KIND_ALIAS.

Inductive olnk_ir_relocation_kind : Set :=
  | OLNK_IR_RELOCATION_KIND_UNKNOWN | OLNK_IR_RELOCATION_KIND_ABSOLUTE
  | OLNK_IR_RELOCATION_KIND_RELATIVE | OLNK_IR_RELOCATION_KIND_PLT
  | OLNK_IR_RELOCATION_KIND_GOT | OLNK_IR_RELOCATION_KIND_TLS
  | OLNK_IR_RELOCATION_KIND_COPY | OLNK_IR_RELOCATION_KIND_JUMP_SLOT
  | OLNK_IR_RELOCATION_KIND_IFUNC | OLNK_IR_RELOCATION_KIND_CUSTOM.

Inductive olnk_ir_comdat_kind : Set :=
  | OLNK_IR_COMDAT_KIND_UNKNOWN | OLNK_IR_COMDAT_KIND_ANY
  | OLNK_IR_COMDAT_KIND_EXACT_MATCH | OLNK_IR_COMDAT_KIND_LARGEST
  | OLNK_IR_COMDAT_KIND_NO_DUPLICATES | OLNK_IR_COMDAT_KIND_SAME_SIZE.

Inductive olnk_ir_iterator_kind : Set :=
  | OLNK_IR_ITERATOR_KIND_UNKNOWN | OLNK_IR_ITERATOR_KIND_FILES
  | OLNK_IR_ITERATOR_KIND_SECTIONS | OLNK_IR_ITERATOR_KIND_SYMBOLS
  | OLNK_IR_ITERATOR_KIND_RELOCATIONS | OLNK_IR_ITERATOR_KIND_COMDATS
  | OLNK_IR_ITERATOR_KIND_ATOMS.

#[export] Instance olnk_ir_iterator_kind_eq_dec : EqDecision olnk_ir_iterator_kind.
Proof. solve_decision. Defined.

Definition olnk_ir_symbol_has_flag (flags flag : Z) : bool := (flags .& flag) =? flag.

(** ** Info structs *)

Record olnk_ir_range := { rg_offset : Z; rg_size : Z }.

Record olnk_ir_image_info := {
  ii_abi_version : Z; ii_struct_size : Z; ii_name : cstr; ii_output_path : cstr;
  ii_file_count : Z; ii_section_count : Z; ii_symbol_count : Z; ii_relocation_count : Z;
  ii_comdat_count : Z; ii_atom_count : Z; ii_machine_kind : Z; ii_format_kind : Z;
  ii_image_base : Z; ii_entry_address : Z; ii_has_incremental_state : Z;
  ii_has_debug_info : Z; ii_reserved_bits : Z; ii_reserved_0 : option Z;
  ii_reserved_1 : option Z }.

Definition sizeof_ir_image_info : Z :=
  struct_sizeof [4; 4; 8; 8; 4; 4; 4; 4; 4; 4; 4; 4; 8; 8; 4; 8; 8].

Record olnk_ir_file_info := {
  fi_abi_version : Z; fi_struct_size : Z; fi_path : cstr; fi_name : cstr;
  fi_kind : olnk_ir_file_kind; fi_index : Z; fi_is_system : Z; fi_is_lazy : Z;
  fi_is_gc_root : Z; fi_reserved_flags : Z; fi_machine_kind : Z; fi_format_kind : Z;
  fi_user_data : option Z; fi_reserved_0 : option Z; fi_reserved_1 : option Z }.

Definition sizeof_ir_file_info : Z :=
  struct_sizeof [4; 4; 8; 8; 4; 4; 4; 4; 4; 8; 8; 8].

Record olnk_ir_section_info := {
  si_abi_version : Z; si_struct_size : Z; si_name : cstr; si_comdat_key : cstr;
  si_kind : olnk_ir_section_kind; si_flags : Z; si_index : Z; si_file_index : Z;
  si_file_range : olnk_ir_range; si_virt_range : olnk_ir_range; si_alignment : Z;
  si_is_alloc : Z; si_is_load : Z; si_is_debug : Z; si_reserved_bits : Z;
  si_reserved_0 : option Z; si_reserved_1 : option Z }.

Definition sizeof_ir_section_info : Z :=
  struct_sizeof [4; 4; 8; 8; 4; 4; 4; 4; 8; 8; 8; 8; 8; 4; 8; 8].

Record olnk_ir_symbol_info := {
  yi_abi_version : Z; yi_struct_size : Z; yi_name : cstr; yi_version : cstr;
  yi_kind : olnk_ir_symbol_kind; yi_binding : olnk_ir_symbol_binding;
  yi_visibility : olnk_ir_symbol_visibility; yi_flags : Z; yi_file_index : Z;
  yi_section_index : Z; yi_value : Z; yi_size : Z; yi_is_defined : Z; yi_is_tls : Z;
  yi_is_import : Z; yi_is_export : Z; yi_reserved_bits : Z; yi_reserved_0 : option Z;
  yi_reserved_1 : option Z }.

Definition sizeof_ir_symbol_info : Z :=
  struct_sizeof [4; 4; 8; 8; 4; 4; 4; 4; 4; 4; 8; 8; 4; 8; 8].

Record olnk_ir_relocation_info := {
  ri_abi_version : Z; ri_struct_size : Z; ri_file_index : Z; ri_section_index : Z;
  ri_offset : Z; ri_addend : Z; ri_symbol_index : Z; ri_type : Z;
  ri_kind : olnk_ir_relocation_kind; ri_is_pc_relative : Z; ri_is_tls : Z;
  ri_is_plt : Z; ri_reserved_bits : Z; ri_reserved_0 : option Z;
  ri_reserved_1 : option Z }.

Definition sizeof_ir_relocation_info : Z :=
  struct_sizeof [4; 4; 4; 4; 8; 8; 4; 4; 4; 4; 8; 8].

Record olnk_ir_comdat_info := {
  ci_abi_version : Z; ci_struct_size : Z; ci_key : cstr; ci_kind : olnk_ir_comdat_kind;
  ci_file_index : Z; ci_section_count : Z; ci_reserved_0 : option Z;
  ci_reserved_1 : option Z }.

Definition sizeof_ir_comdat_info : Z :=
  struct_sizeof [4; 4; 8; 4; 4; 4; 8; 8].

Record olnk_ir_atom_info := {
  ai_abi_version : Z; ai_struct_size : Z; ai_name : cstr; ai_file_index : Z;
  ai_section_index : Z; ai_offset : Z; ai_size : Z; ai_alignment : Z; ai_is_dead : Z;
  ai_is_gc_root : Z; ai_is_hot : Z; ai_is_cold : Z; ai_reserved_bits : Z;
  ai_reserved_0 : option Z; ai_reserved_1 : option Z }.

Definition sizeof_ir_atom_info : Z :=
  struct_sizeof [4; 4; 8; 4; 4; 8; 8; 8; 4; 8; 8].

(** ** Initialised records *)

Definition init_empty_image_info : olnk_ir_image_info :=
  {| ii_abi_version := OLNK_IR_ABI_VERSION; ii_struct_size := sizeof_ir_image_info;
     ii_name := None; ii_output_path := None; ii_file_count := 0; ii_section_count := 0;
     ii_symbol_count := 0; ii_relocation_count := 0; ii_comdat_count := 0;
     ii_atom_count := 0; ii_machine_kind := 0; ii_format_kind := 0; ii_image_base := 0;
     ii_entry_address := 0; ii_has_incremental_state := 0; ii_has_debug_info := 0;
     ii_reserved_bits := 0; ii_reserved_0 := None; ii_reserved_1 := None |}.

Definition init_empty_file_info (index : Z) : olnk_ir_file_info :=
  {| fi_abi_version := OLNK_IR_ABI_VERSION; fi_struct_size := sizeof_ir_file_info;
     fi_path := None; fi_name := None; fi_kind := OLNK_IR_FILE_KIND_UNKNOWN;
     fi_index := index; fi_is_system := 0; fi_is_lazy := 0; fi_is_gc_root := 0;
     fi_reserved_flags := 0; fi_machine_kind := 0; fi_format_kind := 0;
     fi_user_data := None; fi_reserved_0 := None; fi_reserved_1 := None |}.

Definition init_empty_section_info (index : Z) : olnk_ir_section_info :=
  {| si_abi_version := OLNK_IR_ABI_VERSION; si_struct_size := sizeof_ir_section_info;
     si_name := None; si_comdat_key := None; si_kind := OLNK_IR_SECTION_KIND_UNKNOWN;
     si_flags := 0; si_index := index; si_file_index := 0;
     si_file_range := {| rg_offset := 0; rg_size := 0 |};
     si_virt_range := {| rg_offset := 0; rg_size := 0 |}; si_alignment := 0;
     si_is_alloc := 0; si_is_load := 0; si_is_debug := 0; si_reserved_bits := 0;
     si_reserved_0 := None; si_reserved_1 := None |}.

Definition init_empty_symbol_info : olnk_ir_symbol_info :=
  {| yi_abi_version := OLNK_IR_ABI_VERSION; yi_struct_size := sizeof_ir_symbol_info;
     yi_name := None; yi_version := None; yi_kind := OLNK_IR_SYMBOL_KIND_UNKNOWN;
     yi_binding := OLNK_IR_SYMBOL_BINDING_UNKNOWN;
     yi_visibility := OLNK_IR_SYMBOL_VISIBILITY_DEFAULT; yi_flags := 0;
     yi_file_index := 0; yi_section_index := 0; yi_value := 0; yi_size := 0;
     yi_is_defined := 0; yi_is_tls := 0; yi_is_import := 0; yi_is_export := 0;
     yi_reserved_bits := 0; yi_reserved_0 := None; yi_reserved_1 := None |}.

Definition init_empty_relocation_info : olnk_ir_relocation_info :=
  {| ri_abi_version := OLNK_IR_ABI_VERSION; ri_struct_size := sizeof_ir_relocation_info;
     ri_file_index := 0; ri_section_index := 0; ri_offset := 0; ri_addend := 0;
     ri_symbol_index := 0; ri_type := 0; ri_kind := OLNK_IR_RELOCATION_KIND_UNKNOWN;
     ri_is_pc_relative := 0; ri_is_tls := 0; ri_is_plt := 0; ri_reserved_bits := 0;
     ri_reserved_0 := None; ri_reserved_1 := None |}.

Definition init_empty_comdat_info : olnk_ir_comdat_info :=
  {| ci_abi_version := OLNK_IR_ABI_VERSION; ci_struct_size := sizeof_ir_comdat_info;
     ci_key := None; ci_kind := OLNK_IR_COMDAT_KIND_UNKNOWN; ci_file_index := 0;
     ci_section_count := 0; ci_reserved_0 := None; ci_reserved_1 := None |}.

Definition init_empty_atom_info : olnk_ir_atom_info :=
  {| ai_abi_version := OLNK_IR_ABI_VERSION; ai_struct_size := sizeof_ir_atom_info;
     ai_name := None; ai_file_index := 0; ai_section_index := 0; ai_offset := 0;
     ai_size := 0; ai_alignment := 0; ai_is_dead := 0; ai_is_gc_root := 0;
     ai_is_hot := 0; ai_is_cold := 0; ai_reserved_bits := 0; ai_reserved_0 := None;
     ai_reserved_1 := None |}.

(** ** Images *)

Record olnk_ir_image := { im_info : olnk_ir_image_info }.

(** The public ABI gives no way to build an image from a session. *)
Definition olnk_ir_get_image {S : Type} (session : S) : option olnk_ir_image := None.

Definition olnk_ir_image_count_for_kind (image : option olnk_ir_image)
    (kind : olnk_ir_iterator_kind) : Z :=
  match image with
  | None => 0
  | Some image =>
      match kind with
      | OLNK_IR_ITERATOR_KIND_FILES => ii_file_count (im_info image)
      | OLNK_IR_ITERATOR_KIND_SECTIONS => ii_section_count (im_info image)
      | OLNK_IR_ITERATOR_KIND_SYMBOLS => ii_symbol_count (im_info image)
      | OLNK_IR_ITERATOR_KIND_RELOCATIONS => ii_relocation_count (im_info image)
      | OLNK_IR_ITERATOR_KIND_COMDATS => ii_comdat_count (im_info image)
      | OLNK_IR_ITERATOR_KIND_ATOMS => ii_atom_count (im_info image)
      | OLNK_IR_ITERATOR_KIND_UNKNOWN => 0
      end
  end.

(** ** Queries

    A query takes the caller's struct ([None] for a null pointer) and returns
    the status and the struct after the call. *)

(** The copy of the image's info with the header set by the query. *)
Definition image_info_out (i : olnk_ir_image_info) : olnk_ir_image_info :=
  {| ii_abi_version := OLNK_IR_ABI_VERSION; ii_struct_size := sizeof_ir_image_info;
     ii_name := ii_name i; ii_output_path := ii_output_path i;
     ii_file_count := ii_file_count i; ii_section_count := ii_section_count i;
     ii_symbol_count := ii_symbol_count i; ii_relocation_count := ii_relocation_count i;
     ii_comdat_count := ii_comdat_count i; ii_atom_count := ii_atom_count i;
     ii_machine_kind := ii_machine_kind i; ii_format_kind := ii_format_kind i;
     ii_image_base := ii_image_base i; ii_entry_address := ii_entry_address i;
     ii_has_incremental_state := ii_has_incremental_state i;
     ii_has_debug_info := ii_has_debug_info i; ii_reserved_bits := ii_reserved_bits i;
     ii_reserved_0 := ii_reserved_0 i; ii_reserved_1 := ii_reserved_1 i |}.

Definition olnk_ir_get_image_info (image : option olnk_ir_image)
    (out_info : option olnk_ir_image_info) : olnk_status * option olnk_ir_image_info :=
  match out_info with
  | None => (OLNK_STATUS_INVALID_ARGUMENT, None)
  | Some _ =>
      match image with
      | None => (OLNK_STATUS_INVALID_ARGUMENT, Some init_empty_image_info)
      | Some image => (OLNK_STATUS_OK, Some (image_info_out (im_info image)))
      end
  end.

Definition olnk_ir_get_file_info (image : option olnk_ir_image) (index : Z)
    (out_info : option olnk_ir_file_info) : olnk_status * option olnk_ir_file_info :=
  match out_info with
  | None => (OLNK_STATUS_INVALID_ARGUMENT, None)
  | Some _ =>
      let out_info := Some (init_empty_file_info index) in
      match image with
      | None => (OLNK_STATUS_INVALID_ARGUMENT, out_info)
      | Some image =>
          if ii_file_count (im_info image) <=? index
          then (OLNK_STATUS_INVALID_ARGUMENT, out_info)
          else (OLNK_STATUS_OK, out_info)
      end
  end.

Definition olnk_ir_get_section_info (image : option olnk_ir_image) (index : Z)
    (out_info : option olnk_ir_section_info) : olnk_status * option olnk_ir_section_info :=
  match out_info with
  | None => (OLNK_STATUS_INVALID_ARGUMENT, None)
  | Some _ =>
      let out_info := Some (init_empty_section_info index) in
      match image with
      | None => (OLNK_STATUS_INVALID_ARGUMENT, out_info)
      | Some image =>
          if ii_section_count (im_info image) <=? index
          then (OLNK_STATUS_INVALID_ARGUMENT, out_info)
          else (OLNK_STATUS_OK, out_info)
      end
  end.

Definition olnk_ir_get_symbol_info (image : option olnk_ir_image) (index : Z)
    (out_info : option olnk_ir_symbol_info) : olnk_status * option olnk_ir_symbol_info :=
  match out_info with
  | None => (OLNK_STATUS_INVALID_ARGUMENT, None)
  | Some _ =>
      let out_info := Some init_empty_symbol_info in
      match image with
      | None => (OLNK_STATUS_INVALID_ARGUMENT, out_info)
      | Some image =>
          if ii_symbol_count (im_info image) <=? index
          then (OLNK_STATUS_INVALID_ARGUMENT, out_info)
          else (OLNK_STATUS_OK, out_info)
      end
  end.

Definition olnk_ir_get_relocation_info (image : option olnk_ir_image) (index : Z)
    (out_info : option olnk_ir_relocation_info) : olnk_status * option olnk_ir_relocation_info :=
  match out_info with
  | None => (OLNK_STATUS_INVALID_ARGUMENT, None)
  | Some _ =>
      let out_info := Some init_empty_relocation_info in
      match image with
      | None => (OLNK_STATUS_INVALID_ARGUMENT, out_info)
      | Some image =>
          if ii_relocation_count (im_info image) <=? index
          then (OLNK_STATUS_INVALID_ARGUMENT, out_info)
          else (OLNK_STATUS_OK, out_info)
      end
  end.

Definition olnk_ir_get_comdat_info (image : option olnk_ir_image) (index : Z)
    (out_info : option olnk_ir_comdat_info) : olnk_status * option olnk_ir_comdat_info :=
  match out_info with
  | None => (OLNK_STATUS_INVALID_ARGUMENT, None)
  | Some _ =>
      let out_info := Some init_empty_comdat_info in
      match image with
      | None => (OLNK_STATUS_INVALID_ARGUMENT, out_info)
      | Some image =>
          if ii_comdat_count (im_info image) <=? index
          then (OLNK_STATUS_INVALID_ARGUMENT, out_info)
          else (OLNK_STATUS_OK, out_info)
      end
  end.

Definition olnk_ir_get_atom_info (image : option olnk_ir_image) (index : Z)
    (out_info : option olnk_ir_atom_info) : olnk_status * option olnk_ir_atom_info :=
  match out_info with
  | None => (OLNK_STATUS_INVALID_ARGUMENT, None)
  | Some _ =>
      let out_info := Some init_empty_atom_info in
      match image with
      | None => (OLNK_STATUS_INVALID_ARGUMENT, out_info)
      | Some image =>
          if ii_atom_count (im_info image) <=? index
          then (OLNK_STATUS_INVALID_ARGUMENT, out_info)
          else (OLNK_STATUS_OK, out_info)
      end
  end.

(** ** Iterators *)

Record olnk_ir_iterator := {
  it_image : option olnk_ir_image;
  it_kind : olnk_ir_iterator_kind;
  it_index : Z;
  it_count : Z }.

(** The live iterators, by address. *)
Abbreviation iterators := (gmap positive olnk_ir_iterator).

(** create: [out_it] tells whether the caller passed a place for the result,
    [fresh] is what [new (std::nothrow)] returned. The value stored through
    [out_it] is the second component, when the call stores one. *)
Definition olnk_ir_iterator_create (st : iterators) (image : option olnk_ir_image)
    (kind : olnk_ir_iterator_kind) (out_it : bool) (fresh : option positive)
    : olnk_status * option (option positive) * iterators :=
  if negb out_it then (OLNK_STATUS_INVALID_ARGUMENT, None, st)
  else match kind with
  | OLNK_IR_ITERATOR_KIND_UNKNOWN => (OLNK_STATUS_INVALID_ARGUMENT, Some None, st)
  | _ =>
      match fresh with
      | None => (OLNK_STATUS_OUT_OF_MEMORY, Some None, st)
      | Some a =>
          (OLNK_STATUS_OK, Some (Some a),
           <[a := {| it_image := image; it_kind := kind; it_index := 0;
                     it_count := olnk_ir_image_count_for_kind image kind |}]> st)
      end
  end.

(** [delete]: of a null pointer a no-op, of a freed one undefined. *)
Definition olnk_ir_iterator_destroy (st : iterators) (it : option positive)
    : outcome Empty_set iterators :=
  match it with
  | None => Ret st
  | Some a => match st !! a with Some _ => Ret (delete a st) | None => Undef end
  end.

Definition olnk_ir_iterator_kind_matches (st : iterators) (it : option positive)
    (expected_kind : olnk_ir_iterator_kind) : outcome Empty_set Z :=
  match it with
  | None => Ret (olnk_status_Z OLNK_STATUS_INVALID_ARGUMENT)
  | Some a =>
      it ← of_opt (st !! a);
      Ret (if bool_decide (it_kind it = expected_kind) then 1
           else olnk_status_Z OLNK_STATUS_INVALID_ARGUMENT)
  end.

Definition it_advance (it : olnk_ir_iterator) : olnk_ir_iterator :=
  {| it_image := it_image it; it_kind := it_kind it;
     it_index := u32 (it_index it + 1); it_count := it_count it |}.

Section Next.
Context {I : Type}.
Variable expected_kind : olnk_ir_iterator_kind.
Variable get_info : option olnk_ir_image -> Z -> option I -> olnk_status * option I.

(** The text the six iterator steps share: the returned int, the caller's
    struct and the iterators after the call. *)
Definition iterator_next (st : iterators) (it : option positive) (out_info : option I)
    : outcome Empty_set (Z * option I * iterators) :=
  mtch ← olnk_ir_iterator_kind_matches st it expected_kind;
  if mtch <? 0 then Ret (mtch, out_info, st)
  else match out_info with
  | None => Ret (olnk_status_Z OLNK_STATUS_INVALID_ARGUMENT, None, st)
  | Some _ =>
      a ← of_opt it;
      i ← of_opt (st !! a);
      if it_count i <=? it_index i then Ret (0, out_info, st)
      else
        let '(s, out_info) := get_info (it_image i) (it_index i) out_info in
        if bool_decide (s = OLNK_STATUS_OK)
        then Ret (1, out_info, <[a := it_advance i]> st)
        else Ret (olnk_status_Z s, out_info, st)
  end.

End Next.

Definition olnk_ir_iterator_next_file :=
  iterator_next OLNK_IR_ITERATOR_KIND_FILES olnk_ir_get_file_info.
Definition olnk_ir_iterator_next_section :=
  iterator_next OLNK_IR_ITERATOR_KIND_SECTIONS olnk_ir_get_section_info.
Definition olnk_ir_iterator_next_symbol :=
  iterator_next OLNK_IR_ITERATOR_KIND_SYMBOLS olnk_ir_get_symbol_info.
Definition olnk_ir_iterator_next_relocation :=
  iterator_next OLNK_IR_ITERATOR_KIND_RELOCATIONS olnk_ir_get_relocation_info.
Definition olnk_ir_iterator_next_comdat :=
  iterator_next OLNK_IR_ITERATOR_KIND_COMDATS olnk_ir_get_comdat_info.
Definition olnk_ir_iterator_next_atom :=
  iterator_next OLNK_IR_ITERATOR_KIND_ATOMS olnk_ir_get_atom_info.

(** ** The interface of an entity kind *)

(** What the query for a kind of entity promises: which records it stores, for
    which indices it succeeds, and that it looks at nothing else. *)
Class IrEntity (I : Type) := {
  ent_kind : olnk_ir_iterator_kind;
  ent_get : option olnk_ir_image -> Z -> option I -> olnk_status * option I;
  ent_record : Z -> I;
  ent_kind_known : ent_kind <> OLNK_IR_ITERATOR_KIND_UNKNOWN;
  ent_get_null : forall image index,
    ent_get image index None = (OLNK_STATUS_INVALID_ARGUMENT, None);
  ent_get_some : forall image index out,
    0 <= index ->
    ent_get image index (Some out) =
      (if bool_decide (index < olnk_ir_image_count_for_kind image ent_kind)
       then OLNK_STATUS_OK else OLNK_STATUS_INVALID_ARGUMENT, Some (ent_record index)) }.

Ltac solve_entity :=
  let index := fresh in
  intros [image|] index ? ?; cbn [olnk_ir_image_count_for_kind];
  [|by rewrite bool_decide_eq_false_2 by lia];
  case_bool_decide; case_match; bool_prop; try done; lia.

#[export] Program Instance file_entity : IrEntity olnk_ir_file_info :=
  {| ent_kind := OLNK_IR_ITERATOR_KIND_FILES; ent_get := olnk_ir_get_file_info;
     ent_record := init_empty_file_info |}.
Next Obligation. done. Qed.
Next Obligation. done. Qed.
Next Obligation. unfold olnk_ir_get_file_info. solve_entity. Qed.

#[export] Program Instance section_entity : IrEntity olnk_ir_section_info :=
  {| ent_kind := OLNK_IR_ITERATOR_KIND_SECTIONS; ent_get := olnk_ir_get_section_info;
     ent_record := init_empty_section_info |}.
Next Obligation. done. Qed.
Next Obligation. done. Qed.
Next Obligation. unfold olnk_ir_get_section_info. solve_entity. Qed.

#[export] Program Instance symbol_entity : IrEntity olnk_ir_symbol_info :=
  {| ent_kind := OLNK_IR_ITERATOR_KIND_SYMBOLS; ent_get := olnk_ir_get_symbol_info;
     ent_record := (fun _ => init_empty_symbol_info) |}.
Next Obligation. done. Qed.
Next Obligation. done. Qed.
Next Obligation. unfold olnk_ir_get_symbol_info. solve_entity. Qed.

#[export] Program Instance relocation_entity : IrEntity olnk_ir_relocation_info :=
  {| ent_kind := OLNK_IR_ITERATOR_KIND_RELOCATIONS; ent_get := olnk_ir_get_relocation_info;
     ent_record := (fun _ => init_empty_relocation_info) |}.
Next Obligation. done. Qed.
Next Obligation. done. Qed.
Next Obligation. unfold olnk_ir_get_relocation_info. solve_entity. Qed.

#[export] Program Instance comdat_entity : IrEntity olnk_ir_comdat_info :=
  {| ent_kind := OLNK_IR_ITERATOR_KIND_COMDATS; ent_get := olnk_ir_get_comdat_info;
     ent_record := (fun _ => init_empty_comdat_info) |}.
Next Obligation. done. Qed.
Next Obligation. done. Qed.
Next Obligation. unfold olnk_ir_get_comdat_info. solve_entity. Qed.

#[export] Program Instance atom_entity : IrEntity olnk_ir_atom_info :=
  {| ent_kind := OLNK_IR_ITERATOR_KIND_ATOMS; ent_get := olnk_ir_get_atom_info;
     ent_record := (fun _ => init_empty_atom_info) |}.
Next Obligation. done. Qed.
Next Obligation. done. Qed.
Next Obligation. unfold olnk_ir_get_atom_info. solve_entity. Qed.

(** ** Draining an iterator *)

Section Drain.
Context {E : Type} `{IrEntity E}.

Definition ir_next : iterators -> option positive -> option E ->
    outcome Empty_set (Z * option E * iterators) := iterator_next ent_kind ent_get.

(** [n] calls, each with the caller's struct [out]: the results in order. *)
Fixpoint ir_calls (n : nat) (st : iterators) (it : option positive) (out : E)
    : outcome Empty_set (list (Z * option E) * iterators) :=
  match n with
  | O => Ret ([], st)
  | S n =>
      '(z, res, st) ← ir_next st it (Some out);
      '(rest, st) ← ir_calls n st it out;
      Ret ((z, res) :: rest, st)
  end.

Lemma next_live st a it out :
  st !! a = Some it -> 0 <= it_index it ->
  ir_next st (Some a) (Some out) =
    if it_count it <=? it_index it then Ret (0, Some out, st)
    else if bool_decide (it_index it < olnk_ir_image_count_for_kind (it_image it) ent_kind)
    then Ret (1, Some (ent_record (it_index it)), <[a := it_advance it]> st)
    else Ret (2, Some (ent_record (it_index it)), st).
Proof.
  intros Hit Hpos. unfold ir_next, iterator_next. cbn. rewrite Hit. cbn.
  destruct (bool_decide (it_kind it = ent_kind)); cbn;
    (destruct (_ <=? _); [done|]);
    rewrite ent_get_some by done; repeat case_bool_decide; done.
Qed.

(** The iterator of an image at position [k]. *)
Definition iterator_at (image : option olnk_ir_image) (k : Z) : olnk_ir_iterator :=
  {| it_image := image; it_kind := ent_kind; it_index := k;
     it_count := olnk_ir_image_count_for_kind image ent_kind |}.

Lemma ir_calls_at n st a image k out :
  let count := olnk_ir_image_count_for_kind image ent_kind in
  fits 32 count -> 0 <= k <= count ->
  ir_calls n (<[a := iterator_at image k]> st) (Some a) out
  = Ret (((fun i => (1, Some (ent_record i))) <$> seqZ k (Z.min (Z.of_nat n) (count - k)))
           ++ replicate (Z.to_nat (Z.of_nat n - (count - k))) (0, Some out),
         <[a := iterator_at image (k + Z.min (Z.of_nat n) (count - k))]> st).
Proof.
  intros count Hc. subst count. set (count := olnk_ir_image_count_for_kind image ent_kind) in *.
  revert k. induction n as [|n IH]; intros k Hk.
  - cbn -[seqZ]. rewrite Z.min_l by lia. rewrite seqZ_nil by lia. cbn.
    replace (Z.to_nat _) with 0%nat by lia. by rewrite Z.add_0_r.
  - cbn [ir_calls]. rewrite (next_live _ a (iterator_at image k)) by
      (first [by rewrite lookup_insert_eq | cbn; lia]).
    cbn [it_count it_index it_image iterator_at]. fold count.
    destruct (Z.leb_spec count k) as [Hend|Hlt].
    + cbn [mbind outcome_bind]. rewrite IH by lia. cbn [mbind outcome_bind].
      rewrite !Z.min_r by lia. rewrite !seqZ_nil by lia. cbn [fmap list_fmap app].
      replace (Z.to_nat (Z.of_nat (S n) - (count - k)))
        with (S (Z.to_nat (Z.of_nat n - (count - k)))) by lia. done.
    + rewrite bool_decide_eq_true_2 by done. cbn [mbind outcome_bind].
      rewrite insert_insert_eq.
      assert (it_advance (iterator_at image k) = iterator_at image (k + 1)) as ->.
      { unfold it_advance, iterator_at. cbn. f_equal. apply wrap_small. unfold fits in *. lia. }
      rewrite IH by lia. cbn [mbind outcome_bind].
      rewrite (seqZ_cons k) by lia. cbn [fmap list_fmap app]. do 3 f_equal.
      * f_equal; [do 2 f_equal; lia|]. f_equal. lia.
      * f_equal. lia.
Qed.

(** C39: An iterator created on an image for one kind of entity enumerates
    it exactly: of any number of calls of the matching next function, the
    first "count" return 1 with the records of the indices 0, 1, 2, ... in
    order, all later calls return 0 and leave the caller's struct alone, and
    destroying the iterator leaves the heap as it was before the creation. *)
Theorem ir_iterator_enumerates st image a n out :
  let count := olnk_ir_image_count_for_kind image ent_kind in
  fits 32 count -> st !! a = None ->
  exists st1 st2,
    olnk_ir_iterator_create st image ent_kind true (Some a)
      = (OLNK_STATUS_OK, Some (Some a), st1) /\
    ir_calls n st1 (Some a) out
      = Ret (((fun i => (1, Some (ent_record i))) <$> seqZ 0 (Z.min (Z.of_nat n) count))
               ++ replicate (Z.to_nat (Z.of_nat n - count)) (0, Some out), st2) /\
    olnk_ir_iterator_destroy st2 (Some a) = Ret st.
Proof.
  intros count Hc Ha. subst count.
  eexists (<[a := iterator_at image 0]> st), _. split_and!.
  - unfold olnk_ir_iterator_create. cbn [negb]. unfold iterator_at.
    pose proof ent_kind_known. by destruct ent_kind.
  - rewrite ir_calls_at by (try done; unfold fits in *; lia). by rewrite Z.sub_0_r.
  - unfold olnk_ir_iterator_destroy. rewrite lookup_insert_eq.
    by rewrite delete_insert_id.
Qed.

(** A next function never rejects an iterator of another kind: an
    iterator over any kind of entity, at an index that exists for both kinds,
    yields a record of the wrong kind with return value 1 and advances; and
    no call returns a negative value. The kind check returns the positive
    OLNK_STATUS_INVALID_ARGUMENT while its callers test for a negative one,
    so a null iterator is dereferenced as well. *)
Theorem ir_next_kind_unchecked st a it out :
  st !! a = Some it -> it_kind it <> ent_kind ->
  0 <= it_index it < it_count it ->
  it_index it < olnk_ir_image_count_for_kind (it_image it) ent_kind ->
  ir_next st (Some a) (Some out)
    = Ret (1, Some (ent_record (it_index it)), <[a := it_advance it]> st) /\
  ir_next st None (Some out) = Undef /\
  (forall p o z o' st', ir_next st p o = Ret (z, o', st') -> 0 <= z).
Proof.
  intros Hit _ Hi Hcount. split_and!.
  - rewrite (next_live _ _ it) by (done || lia).
    destruct (Z.leb_spec (it_count it) (it_index it)); [lia|].
    by rewrite bool_decide_eq_true_2.
  - done.
  - intros p o z o' st'. unfold ir_next, iterator_next.
    destruct p as [b|]; cbn; [destruct (st !! b) as [jt|]; cbn; [|done]|].
    + destruct (bool_decide (it_kind jt = ent_kind)); cbn;
        (destruct o; [|by intros [= <- _ _]]);
        (destruct (_ <=? _); [by intros [= <- _ _]|]);
        destruct (ent_get _ _ _) as [s r]; case_bool_decide; intros [= <- _ _];
        by (done || destruct s).
    + destruct o; [done|]. by intros [= <- _ _].
Qed.

End Drain.

Definition ex_image : olnk_ir_image :=
  {| im_info :=
       {| ii_abi_version := 1; ii_struct_size := sizeof_ir_image_info;
          ii_name := None; ii_output_path := None; ii_file_count := 1;
          ii_section_count := 3; ii_symbol_count := 2; ii_relocation_count := 0;
          ii_comdat_count := 0; ii_atom_count := 0; ii_machine_kind := 0;
          ii_format_kind := 0; ii_image_base := 0; ii_entry_address := 0;
          ii_has_incremental_state := 0; ii_has_debug_info := 0;
          ii_reserved_bits := 0; ii_reserved_0 := None; ii_reserved_1 := None |} |}.

Lemma ir_iterator_enumerates_witness :
  exists st2, ir_calls 4 (<[1%positive := iterator_at (E := olnk_ir_section_info)
                                            (Some ex_image) 0]> ∅)
                (Some 1%positive) (init_empty_section_info 9)
    = Ret ([(1, Some (init_empty_section_info 0)); (1, Some (init_empty_section_info 1));
            (1, Some (init_empty_section_info 2)); (0, Some (init_empty_section_info 9))],
           st2).
Proof.
  destruct (ir_iterator_enumerates (E := olnk_ir_section_info) ∅ (Some ex_image) 1%positive 4
              (init_empty_section_info 9)) as (st1 & st2 & Hc & Hn & Hd);
    [vm_compute; split; congruence|reflexivity|].
  exists st2. injection Hc as <-. exact Hn.
Defined.

Definition ex_iterator : olnk_ir_iterator :=
  {| it_image := Some ex_image; it_kind := OLNK_IR_ITERATOR_KIND_SECTIONS;
     it_index := 1; it_count := 3 |}.

Lemma ir_next_kind_unchecked_witness :
  exists st', olnk_ir_iterator_next_symbol (<[1%positive := ex_iterator]> ∅)
    (Some 1%positive) (Some init_empty_symbol_info) = Ret (1, Some init_empty_symbol_info, st').
Proof.
  destruct (ir_next_kind_unchecked (E := olnk_ir_symbol_info) (<[1%positive := ex_iterator]> ∅)
    1%positive ex_iterator init_empty_symbol_info) as [H _];
    [reflexivity|cbn; congruence|cbn; lia|cbn; lia|].
  eexists. exact H.
Defined.
