(* ===== verification/Format.v ===== *)
(** * The format registry (src/olnk/format.cpp, include/olnk/olnk-format.h)

    The four built-in formats and the lookup of a format by index, name or
    alias; the format specs the Lua profiles register are the parameter
    [lua_formats]. A definition is named by its index in the static registry.
    The vtable callbacks, which allocate instances and call the host, are in
    FormatRun.v. *)

From Stdlib Require Import Ascii.
From S2P Require Import Prelude Abi Registry.

Definition OLNK_FORMAT_ABI_VERSION : Z := 1.

Inductive olnk_format_kind : Set :=
  | OLNK_FORMAT_KIND_UNKNOWN | OLNK_FORMAT_KIND_ELF | OLNK_FORMAT_KIND_PE
  | OLNK_FORMAT_KIND_MACH_O | OLNK_FORMAT_KIND_WASM | OLNK_FORMAT_KIND_RAW_BINARY
  | OLNK_FORMAT_KIND_CUSTOM.

Inductive olnk_format_capability : Set :=
  | OLNK_FORMAT_CAPABILITY_EXECUTABLE | OLNK_FORMAT_CAPABILITY_SHARED_LIBRARY
  | OLNK_FORMAT_CAPABILITY_RELOCATABLE_OUTPUT | OLNK_FORMAT_CAPABILITY_STATIC_IMAGE
  | OLNK_FORMAT_CAPABILITY_DEBUG_INFO | OLNK_FORMAT_CAPABILITY_TLS
  | OLNK_FORMAT_CAPABILITY_DYNAMIC_LINKING | OLNK_FORMAT_CAPABILITY_IMPORT_EXPORT_TABLES
  | OLNK_FORMAT_CAPABILITY_CUSTOM_SECTIONS | OLNK_FORMAT_CAPABILITY_POSITION_INDEPENDENT
  | OLNK_FORMAT_CAPABILITY_INCREMENTAL_LINK.

Definition format_capability_Z (c : olnk_format_capability) : Z :=
  1 .<< match c with
        | OLNK_FORMAT_CAPABILITY_EXECUTABLE => 0
        | OLNK_FORMAT_CAPABILITY_SHARED_LIBRARY => 1
        | OLNK_FORMAT_CAPABILITY_RELOCATABLE_OUTPUT => 2
        | OLNK_FORMAT_CAPABILITY_STATIC_IMAGE => 3
        | OLNK_FORMAT_CAPABILITY_DEBUG_INFO => 4
        | OLNK_FORMAT_CAPABILITY_TLS => 5
        | OLNK_FORMAT_CAPABILITY_DYNAMIC_LINKING => 6
        | OLNK_FORMAT_CAPABILITY_IMPORT_EXPORT_TABLES => 7
        | OLNK_FORMAT_CAPABILITY_CUSTOM_SECTIONS => 8
        | OLNK_FORMAT_CAPABILITY_POSITION_INDEPENDENT => 9
        | OLNK_FORMAT_CAPABILITY_INCREMENTAL_LINK => 10
        end.
#[local] Coercion format_capability_Z : olnk_format_capability >-> Z.

Inductive olnk_format_image_class : Set :=
  | OLNK_FORMAT_IMAGE_CLASS_UNKNOWN | OLNK_FORMAT_IMAGE_CLASS_32 | OLNK_FORMAT_IMAGE_CLASS_64.

Inductive olnk_format_endianness : Set :=
  | OLNK_FORMAT_ENDIANNESS_UNKNOWN | OLNK_FORMAT_ENDIANNESS_LITTLE
  | OLNK_FORMAT_ENDIANNESS_BIG.

#[export] Instance olnk_format_kind_eq_dec : EqDecision olnk_format_kind.
Proof. solve_decision. Defined.

Record olnk_format_properties := {
  fp_abi_version : Z; fp_struct_size : Z;
  fp_kind : olnk_format_kind; fp_capabilities : Z;
  fp_image_class : olnk_format_image_class; fp_endianness : olnk_format_endianness;
  fp_default_file_alignment : Z; fp_default_section_alignment : Z;
  fp_default_page_alignment : Z;
  fp_default_text_section_name : cstr; fp_default_data_section_name : cstr;
  fp_default_bss_section_name : cstr; fp_default_rodata_section_name : cstr }.

Definition sizeof_format_properties : Z :=
  struct_sizeof (replicate 6 4 ++ replicate 3 8 ++ replicate 6 8).

Record olnk_format_output_info := {
  fo_abi_version : Z; fo_struct_size : Z; fo_output_path : cstr; fo_file_size : Z;
  fo_image_base : Z; fo_entry_address : Z; fo_section_count : Z; fo_segment_count : Z;
  fo_output_kind : olnk_output_kind; fo_format_kind : olnk_format_kind }.

Definition sizeof_format_output_info : Z :=
  struct_sizeof ([4; 4] ++ replicate 4 8 ++ replicate 4 4 ++ replicate 2 8).

Record olnk_format_descriptor := {
  fd_abi_version : Z; fd_struct_size : Z;
  fd_name : cstr; fd_description : cstr; fd_vendor : cstr; fd_license : cstr;
  fd_version_major : Z; fd_version_minor : Z; fd_version_patch : Z;
  fd_kind : olnk_format_kind; fd_capabilities : Z;
  fd_min_host_api_version : Z; fd_max_host_api_version : Z;
  fd_primary_alias : cstr; fd_secondary_alias : cstr }.

Definition sizeof_format_descriptor : Z :=
  struct_sizeof ([4; 4] ++ replicate 4 8 ++ replicate 7 4 ++ replicate 4 8).

(** A definition: its descriptor and vtable pointers, either of them null. *)
Record olnk_format_definition := {
  fdef_abi_version : Z; fdef_struct_size : Z;
  fdef_descriptor : option olnk_format_descriptor; fdef_vtable : bool }.

Definition sizeof_format_definition : Z := struct_sizeof ([4; 4] ++ replicate 5 8).

(** The fields the four descriptors have in common. *)
Definition builtin_format_descriptor name desc kind caps alias1 alias2 : olnk_format_descriptor :=
  {| fd_abi_version := OLNK_FORMAT_ABI_VERSION; fd_struct_size := sizeof_format_descriptor;
     fd_name := Some name; fd_description := Some desc;
     fd_vendor := Some "olnk"%string; fd_license := Some "internal"%string;
     fd_version_major := 1; fd_version_minor := 0; fd_version_patch := 0;
     fd_kind := kind; fd_capabilities := caps;
     fd_min_host_api_version := 0; fd_max_host_api_version := 0;
     fd_primary_alias := Some alias1; fd_secondary_alias := Some alias2 |}.

Definition g_elf_desc : olnk_format_descriptor :=
  builtin_format_descriptor "ELF" "Builtin ELF format" OLNK_FORMAT_KIND_ELF
    (OLNK_FORMAT_CAPABILITY_EXECUTABLE .| OLNK_FORMAT_CAPABILITY_RELOCATABLE_OUTPUT)
    "elf" "native".
Definition g_pe_desc : olnk_format_descriptor :=
  builtin_format_descriptor "PE" "Builtin PE format" OLNK_FORMAT_KIND_PE
    (OLNK_FORMAT_CAPABILITY_EXECUTABLE .| OLNK_FORMAT_CAPABILITY_SHARED_LIBRARY)
    "pe" "coff".
Definition g_macho_desc : olnk_format_descriptor :=
  builtin_format_descriptor "Mach-O" "Builtin Mach-O format" OLNK_FORMAT_KIND_MACH_O
    OLNK_FORMAT_CAPABILITY_EXECUTABLE "mach-o" "macho".
Definition g_wasm_desc : olnk_format_descriptor :=
  builtin_format_descriptor "WASM" "Builtin WASM format" OLNK_FORMAT_KIND_WASM
    OLNK_FORMAT_CAPABILITY_RELOCATABLE_OUTPUT "wasm" "wasm32".

Definition builtin_format_definition (d : olnk_format_descriptor) : olnk_format_definition :=
  {| fdef_abi_version := OLNK_FORMAT_ABI_VERSION;
     fdef_struct_size := sizeof_format_definition;
     fdef_descriptor := Some d; fdef_vtable := true |}.

Definition g_elf_def := builtin_format_definition g_elf_desc.
Definition g_pe_def := builtin_format_definition g_pe_desc.
Definition g_macho_def := builtin_format_definition g_macho_desc.
Definition g_wasm_def := builtin_format_definition g_wasm_desc.

(** olnk_get_static_format_registry *)
Definition kStaticFormats : list olnk_format_definition :=
  [g_elf_def; g_pe_def; g_macho_def; g_wasm_def].

(** ** Names *)

Definition olnk_ascii_tolower (ch : Z) : Z :=
  if (65 <=? ch) && (ch <=? 90) then ch - 65 + 97 else ch.

Fixpoint olnk_ascii_loop (a b : string) : bool :=
  match a, b with
  | String x a, String y b =>
      let ca := olnk_ascii_tolower (Z.of_N (N_of_ascii x)) in
      let cb := olnk_ascii_tolower (Z.of_N (N_of_ascii y)) in
      if negb (ca =? cb) then false else olnk_ascii_loop a b
  | EmptyString, EmptyString => true
  | _, _ => false
  end.

Definition olnk_ascii_case_equal (a b : cstr) : bool :=
  match a, b with Some a, Some b => olnk_ascii_loop a b | _, _ => false end.

Definition olnk_format_definition_is_usable (def : olnk_format_definition) : bool :=
  match fdef_descriptor def with Some _ => true | None => false end.

Definition olnk_format_matches_name (def : olnk_format_definition) (name : cstr) : bool :=
  match fdef_descriptor def with
  | None => false
  | Some desc =>
      if cstr_null name then false
      else if negb (cstr_null (fd_name desc)) && olnk_ascii_case_equal (fd_name desc) name
      then true
      else if negb (cstr_null (fd_primary_alias desc))
              && olnk_ascii_case_equal (fd_primary_alias desc) name
      then true
      else if negb (cstr_null (fd_secondary_alias desc))
              && olnk_ascii_case_equal (fd_secondary_alias desc) name
      then true
      else false
  end.

(** ** Lua specs *)

Record lua_format_spec := {
  lfs_name : option string; lfs_kind : option string;
  lfs_aliases : option (list (option string)) }.

Definition lua_format_matches (spec : lua_format_spec) (needle : cstr) : bool :=
  olnk_ascii_case_equal (lfs_name spec) needle
  || match lfs_aliases spec with
     | None => false
     | Some aliases => existsb (fun alias => olnk_ascii_case_equal alias needle) aliases
     end.

Definition lua_format_result (spec : lua_format_spec) : option nat :=
  if cstr_null (lfs_kind spec) then None
  else if olnk_ascii_case_equal (lfs_kind spec) (Some "elf"%string) then Some 0%nat
  else if olnk_ascii_case_equal (lfs_kind spec) (Some "pe"%string) then Some 1%nat
  else if olnk_ascii_case_equal (lfs_kind spec) (Some "mach-o"%string) then Some 2%nat
  else if olnk_ascii_case_equal (lfs_kind spec) (Some "wasm"%string) then Some 3%nat
  else None.

(** ** The public lookups *)

Definition olnk_format_count : nat := length kStaticFormats.

Definition olnk_format_at (index : Z) : option nat :=
  if Z.of_nat (length kStaticFormats) <=? index then None
  else def ← kStaticFormats !! Z.to_nat index;
       if negb (olnk_format_definition_is_usable def) then None else Some (Z.to_nat index).

Section Lookup.

(** The format specs of the Lua registry, in iteration order; [None] when
    there is no registry or loading it threw. *)
Variable lua_formats : option (list (option lua_format_spec)).

Definition lookup_lua_format_definition (needle : cstr) : option nat :=
  match lua_formats with
  | None => None
  | Some specs => lua_scan lua_format_matches lua_format_result specs needle
  end.

Definition olnk_find_format (name : cstr) : option nat :=
  match name with
  | None | Some EmptyString => None
  | Some _ =>
      match find_first (fun p => olnk_format_matches_name (snd p) name)
              (imap pair kStaticFormats) with
      | Some (i, _) => Some i
      | None => lookup_lua_format_definition name
      end
  end.

End Lookup.

Definition olnk_format_capability_test (capabilities capability : Z) : bool :=
  (capabilities .& capability) =? capability.

(** ** The two comparisons of the library agree *)

Lemma tolower_ascii_fold c d :
  (olnk_ascii_tolower (Z.of_N (N_of_ascii c)) =? olnk_ascii_tolower (Z.of_N (N_of_ascii d)))
  = Ascii.eqb (ascii_fold c) (ascii_fold d).
Proof.
  assert (forall e, Z.of_N (N_of_ascii (ascii_fold e))
                    = olnk_ascii_tolower (Z.of_N (N_of_ascii e))) as Hf.
  { intros e. unfold ascii_fold, olnk_ascii_tolower.
    destruct (_ && _) eqn:Hr; [|done]. bool_prop.
    rewrite N_ascii_embedding; lia. }
  rewrite <- !Hf. destruct (Ascii.eqb_spec (ascii_fold c) (ascii_fold d)) as [->|Hne].
  - apply Z.eqb_refl.
  - apply Z.eqb_neq. intros H%(inj Z.of_N). apply Hne.
    by rewrite <- (ascii_N_embedding (ascii_fold c)), H, ascii_N_embedding.
Qed.

Lemma olnk_ascii_loop_eq a b : olnk_ascii_loop a b = iequals_loop a b.
Proof.
  revert b. induction a as [|x a IH]; intros [|y b]; [done..|].
  cbn [olnk_ascii_loop iequals_loop]. cbv zeta. rewrite tolower_ascii_fold, IH.
  by destruct (Ascii.eqb _ _).
Qed.

Lemma olnk_ascii_case_equal_eq a b : olnk_ascii_case_equal a b = cstr_iequals_ascii a b.
Proof. destruct a, b; [|done..]. apply olnk_ascii_loop_eq. Qed.

(** ** Lookup by name *)

Definition format_names (d : olnk_format_descriptor) : list cstr :=
  [fd_name d; fd_primary_alias d; fd_secondary_alias d].

Definition format_keys (def : olnk_format_definition) : list string :=
  match fdef_descriptor def with Some d => name_keys (format_names d) | None => [] end.

Lemma format_matches_spec def n :
  olnk_format_matches_name def (Some n) = true <-> fold_string n ∈ format_keys def.
Proof.
  unfold format_keys, olnk_format_matches_name.
  destruct (fdef_descriptor def) as [d|]; [|split; [done|by intros ?%elem_of_nil]].
  rewrite <- any_name_spec. cbn [cstr_null existsb format_names].
  rewrite !olnk_ascii_case_equal_eq, orb_false_r.
  assert (forall a, negb (cstr_null a) && cstr_iequals_ascii a (Some n)
                    = cstr_iequals_ascii a (Some n)) as -> by by intros [].
  assert (forall a, negb (cstr_null a) && cstr_iequals_ascii a (Some n)
                    = cstr_iequals_ascii a (Some n)) as Hn by by intros [].
  rewrite !Hn. by repeat destruct (cstr_iequals_ascii _ _).
Qed.

Lemma format_keys_disjoint : pairwise_disjoint (format_keys <$> kStaticFormats) = true.
Proof. vm_compute. reflexivity. Qed.

(** A built-in format answers to [n]: [n] is its name or one of its aliases up
    to ASCII letter case. *)
Definition format_answers (i : nat) (n : string) : Prop :=
  exists def, kStaticFormats !! i = Some def /\ fold_string n ∈ format_keys def.

Lemma find_static_spec n i :
  fst <$> find_first (fun p => olnk_format_matches_name (snd p) (Some n))
            (imap pair kStaticFormats) = Some i <-> format_answers i n.
Proof.
  rewrite fmap_Some. split.
  - intros ([j r] & Hf & ->).
    apply (find_imap_Some (fun r => olnk_format_matches_name r (Some n))) in Hf as (Hj & Hm & _).
    exists r. split; [done|]. by apply format_matches_spec.
  - intros (def & Hi & Hx). exists (i, def). split; [|done].
    apply (find_imap_Some (fun r => olnk_format_matches_name r (Some n))).
    split_and!; [done|by apply format_matches_spec|].
    intros j y Hji Hy. destruct (olnk_format_matches_name y (Some n)) eqn:Hm; [|done].
    apply format_matches_spec in Hm. enough (i = j) by lia.
    apply (pairwise_disjoint_inj (format_keys <$> kStaticFormats) i j
      (format_keys def) (format_keys y) (fold_string n) format_keys_disjoint); try done;
      by rewrite list_lookup_fmap, ?Hi, ?Hy.
Qed.

Definition lua_format_answers : option (list (option lua_format_spec)) -> string -> nat -> Prop :=
  lua_answers lua_format_matches lua_format_result.

(** What the lookup returns is a format of the registry. *)
Lemma find_format_valid lua name i :
  olnk_find_format lua name = Some i -> exists def, kStaticFormats !! i = Some def.
Proof.
  unfold olnk_find_format. destruct name as [[|ch n]|]; [done| |done].
  destruct (find_first _ _) as [[j def]|] eqn:Hf.
  - intros [= <-].
    apply (find_imap_Some (fun d => olnk_format_matches_name d (Some (String ch n)))) in Hf
      as (Hj & _). eauto.
  - intros H. apply (lua_answers_spec lua_format_matches lua_format_result lua) in H
      as (pre & spec & post & _ & _ & _ & Hk).
    revert Hk. unfold lua_format_result. repeat case_match; intros; simplify_eq; eauto.
Qed.

(** Olnk_find_format returns the i-th built-in format for a non-empty
    name exactly when the format's name or an alias is that name up to ASCII
    letter case, or when no built-in format answers and the first Lua format
    spec that does declares the format's kind; what it returns is always an
    index olnk_format_at accepts. *)
Theorem find_format_correct lua n i :
  n <> EmptyString ->
  (olnk_find_format lua (Some n) = Some i <->
   format_answers i n \/ ((forall j, ~ format_answers j n) /\ lua_format_answers lua n i)) /\
  (olnk_find_format lua (Some n) = Some i -> olnk_format_at (Z.of_nat i) = Some i).
Proof.
  intros Hn. unfold olnk_find_format. destruct n as [|ch n]; [done|].
  pose proof (find_static_spec (String ch n)) as Hspec.
  assert (forall j, (j < 4)%nat -> olnk_format_at (Z.of_nat j) = Some j) as Hat.
  { intros j Hj. by do 4 (destruct j as [|j]; [done|]); lia. }
  destruct (find_first _ _) as [[j r]|] eqn:Hf; cbn [fst].
  - specialize (proj1 (Hspec j) eq_refl) as Hj. split.
    + rewrite <- Hspec. cbn. split; [by left|].
      intros [H|[H _]]; [done|]. by destruct (H j).
    + intros [= <-]. apply Hat. destruct Hj as (def & Hj & _).
      by apply lookup_lt_Some in Hj.
  - assert (forall j, ~ format_answers j (String ch n)) as Hno.
    { intros j Hj. by apply Hspec in Hj. }
    pose proof (lua_answers_spec lua_format_matches lua_format_result lua (String ch n) i) as Hl.
    change (lookup_lua_format_definition lua (Some (String ch n)) = Some i
            <-> lua_format_answers lua (String ch n) i) in Hl.
    split.
    + rewrite Hl. split; [by right|]. intros [H|[_ H]]; [by destruct (Hno i)|done].
    + rewrite Hl. intros (pre & spec & post & _ & _ & _ & Hk). apply Hat.
      revert Hk. unfold lua_format_result. repeat case_match; intros; simplify_eq; lia.
Qed.

Lemma find_format_correct_witness :
  olnk_find_format (Some [None; Some {| lfs_name := Some "flat"%string;
    lfs_kind := Some "Mach-O"%string; lfs_aliases := Some [Some "raw"%string] |}])
    (Some "RAW"%string) = Some 2%nat.
Proof.
  refine (proj2 (proj1 (find_format_correct _ "RAW" 2%nat _)) (or_intror (conj _ _)));
    [discriminate| |].
  - intros j (def & Hj & Hx). do 4 (destruct j as [|j];
      [injection Hj as <-; apply list_elem_of_In in Hx; vm_compute in Hx;
       repeat (destruct Hx as [Hx|Hx]; [discriminate|]); exact Hx|]). discriminate.
  - exists [None], {| lfs_name := Some "flat"%string; lfs_kind := Some "Mach-O"%string;
                      lfs_aliases := Some [Some "raw"%string] |}, [].
    split_and!; [reflexivity| |reflexivity|reflexivity].
    constructor; [discriminate|constructor].
Defined.
