(* ===== verification/World.v ===== *)
(** * The state of the linker library

    The objects the public API hands out as opaque handles, the heap that holds
    them, the output files, the callbacks invoked, and the monad the modelled
    functions run in. A function of the monad returns a value and the new
    state, or stops: [Fail Terminated] is std::terminate - an exception left a
    noexcept function - and [Undef] an access through a dangling pointer.

    Memory exhaustion is an input: [w_throws] lists the exceptions that the
    coming allocating statements throw. An address is never reused, so a freed
    object can not be confused with a later one. *)

From S2P Require Import Prelude Abi Format Machine.

(** ** Objects (the opaque structs of api.cpp) *)

Record DiagnosticStorage := {
  ds_severity : Z; ds_message : string; ds_file : string; ds_line : Z; ds_column : Z }.

Record ResultStorage := {
  rs_status : olnk_status; rs_output_path : string; rs_output_size : Z;
  rs_elapsed_ns : Z; rs_input_count : Z; rs_warning_count : Z; rs_error_count : Z }.

Definition result_default : ResultStorage :=
  {| rs_status := OLNK_STATUS_UNKNOWN; rs_output_path := EmptyString; rs_output_size := 0;
     rs_elapsed_ns := 0; rs_input_count := 0; rs_warning_count := 0; rs_error_count := 0 |}.

(** A callback is named by the address of the function; null is [None]. *)
Record olnk_context := {
  cx_log_level : Z;
  cx_log_callback : option Z; cx_log_user_data : Z;
  cx_diag_callback : option Z; cx_diag_user_data : Z;
  cx_options : list (string * string) }.

Definition context_default : olnk_context :=
  {| cx_log_level := olnk_log_level_Z OLNK_LOG_INFO;
     cx_log_callback := None; cx_log_user_data := 0;
     cx_diag_callback := None; cx_diag_user_data := 0; cx_options := [] |}.

Record olnk_config := {
  cf_output_path : string;
  cf_map_path : string;
  cf_entry_symbol : string;
  cf_output_kind : olnk_output_kind;
  cf_format_name : string;
  cf_machine_name : string;
  cf_script_path : string;
  cf_thread_count : Z;
  cf_incremental : Z;
  cf_debug_info : Z;
  cf_defines : list (string * string);
  cf_input_files : list string;
  cf_library_paths : list string;
  cf_libraries : list string;
  cf_plugins : list string }.

Definition config_default : olnk_config :=
  {| cf_output_path := EmptyString;
     cf_map_path := EmptyString;
     cf_entry_symbol := EmptyString;
     cf_output_kind := OLNK_OUTPUT_EXECUTABLE;
     cf_format_name := EmptyString;
     cf_machine_name := EmptyString;
     cf_script_path := EmptyString;
     cf_thread_count := 0;
     cf_incremental := 0;
     cf_debug_info := 0;
     cf_defines := [];
     cf_input_files := [];
     cf_library_paths := [];
     cf_libraries := [];
     cf_plugins := [] |}.

(** Assignment to one member. *)
Definition set_output_path (v : string) (c : olnk_config) : olnk_config :=
  {| cf_output_path := v; cf_map_path := cf_map_path c;
     cf_entry_symbol := cf_entry_symbol c; cf_output_kind := cf_output_kind c;
     cf_format_name := cf_format_name c; cf_machine_name := cf_machine_name c;
     cf_script_path := cf_script_path c; cf_thread_count := cf_thread_count c;
     cf_incremental := cf_incremental c; cf_debug_info := cf_debug_info c;
     cf_defines := cf_defines c; cf_input_files := cf_input_files c;
     cf_library_paths := cf_library_paths c; cf_libraries := cf_libraries c;
     cf_plugins := cf_plugins c |}.
Definition set_map_path (v : string) (c : olnk_config) : olnk_config :=
  {| cf_output_path := cf_output_path c; cf_map_path := v;
     cf_entry_symbol := cf_entry_symbol c; cf_output_kind := cf_output_kind c;
     cf_format_name := cf_format_name c; cf_machine_name := cf_machine_name c;
     cf_script_path := cf_script_path c; cf_thread_count := cf_thread_count c;
     cf_incremental := cf_incremental c; cf_debug_info := cf_debug_info c;
     cf_defines := cf_defines c; cf_input_files := cf_input_files c;
     cf_library_paths := cf_library_paths c; cf_libraries := cf_libraries c;
     cf_plugins := cf_plugins c |}.
Definition set_entry_symbol (v : string) (c : olnk_config) : olnk_config :=
  {| cf_output_path := cf_output_path c; cf_map_path := cf_map_path c;
     cf_entry_symbol := v; cf_output_kind := cf_output_kind c;
     cf_format_name := cf_format_name c; cf_machine_name := cf_machine_name c;
     cf_script_path := cf_script_path c; cf_thread_count := cf_thread_count c;
     cf_incremental := cf_incremental c; cf_debug_info := cf_debug_info c;
     cf_defines := cf_defines c; cf_input_files := cf_input_files c;
     cf_library_paths := cf_library_paths c; cf_libraries := cf_libraries c;
     cf_plugins := cf_plugins c |}.
Definition set_output_kind (v : olnk_output_kind) (c : olnk_config) : olnk_config :=
  {| cf_output_path := cf_output_path c; cf_map_path := cf_map_path c;
     cf_entry_symbol := cf_entry_symbol c; cf_output_kind := v;
     cf_format_name := cf_format_name c; cf_machine_name := cf_machine_name c;
     cf_script_path := cf_script_path c; cf_thread_count := cf_thread_count c;
     cf_incremental := cf_incremental c; cf_debug_info := cf_debug_info c;
     cf_defines := cf_defines c; cf_input_files := cf_input_files c;
     cf_library_paths := cf_library_paths c; cf_libraries := cf_libraries c;
     cf_plugins := cf_plugins c |}.
Definition set_format_name (v : string) (c : olnk_config) : olnk_config :=
  {| cf_output_path := cf_output_path c; cf_map_path := cf_map_path c;
     cf_entry_symbol := cf_entry_symbol c; cf_output_kind := cf_output_kind c;
     cf_format_name := v; cf_machine_name := cf_machine_name c;
     cf_script_path := cf_script_path c; cf_thread_count := cf_thread_count c;
     cf_incremental := cf_incremental c; cf_debug_info := cf_debug_info c;
     cf_defines := cf_defines c; cf_input_files := cf_input_files c;
     cf_library_paths := cf_library_paths c; cf_libraries := cf_libraries c;
     cf_plugins := cf_plugins c |}.
Definition set_machine_name (v : string) (c : olnk_config) : olnk_config :=
  {| cf_output_path := cf_output_path c; cf_map_path := cf_map_path c;
     cf_entry_symbol := cf_entry_symbol c; cf_output_kind := cf_output_kind c;
     cf_format_name := cf_format_name c; cf_machine_name := v;
     cf_script_path := cf_script_path c; cf_thread_count := cf_thread_count c;
     cf_incremental := cf_incremental c; cf_debug_info := cf_debug_info c;
     cf_defines := cf_defines c; cf_input_files := cf_input_files c;
     cf_library_paths := cf_library_paths c; cf_libraries := cf_libraries c;
     cf_plugins := cf_plugins c |}.
Definition set_script_path (v : string) (c : olnk_config) : olnk_config :=
  {| cf_output_path := cf_output_path c; cf_map_path := cf_map_path c;
     cf_entry_symbol := cf_entry_symbol c; cf_output_kind := cf_output_kind c;
     cf_format_name := cf_format_name c; cf_machine_name := cf_machine_name c;
     cf_script_path := v; cf_thread_count := cf_thread_count c;
     cf_incremental := cf_incremental c; cf_debug_info := cf_debug_info c;
     cf_defines := cf_defines c; cf_input_files := cf_input_files c;
     cf_library_paths := cf_library_paths c; cf_libraries := cf_libraries c;
     cf_plugins := cf_plugins c |}.
Definition set_thread_count (v : Z) (c : olnk_config) : olnk_config :=
  {| cf_output_path := cf_output_path c; cf_map_path := cf_map_path c;
     cf_entry_symbol := cf_entry_symbol c; cf_output_kind := cf_output_kind c;
     cf_format_name := cf_format_name c; cf_machine_name := cf_machine_name c;
     cf_script_path := cf_script_path c; cf_thread_count := v;
     cf_incremental := cf_incremental c; cf_debug_info := cf_debug_info c;
     cf_defines := cf_defines c; cf_input_files := cf_input_files c;
     cf_library_paths := cf_library_paths c; cf_libraries := cf_libraries c;
     cf_plugins := cf_plugins c |}.
Definition set_incremental (v : Z) (c : olnk_config) : olnk_config :=
  {| cf_output_path := cf_output_path c; cf_map_path := cf_map_path c;
     cf_entry_symbol := cf_entry_symbol c; cf_output_kind := cf_output_kind c;
     cf_format_name := cf_format_name c; cf_machine_name := cf_machine_name c;
     cf_script_path := cf_script_path c; cf_thread_count := cf_thread_count c;
     cf_incremental := v; cf_debug_info := cf_debug_info c; cf_defines := cf_defines c;
     cf_input_files := cf_input_files c; cf_library_paths := cf_library_paths c;
     cf_libraries := cf_libraries c; cf_plugins := cf_plugins c |}.
Definition set_debug_info (v : Z) (c : olnk_config) : olnk_config :=
  {| cf_output_path := cf_output_path c; cf_map_path := cf_map_path c;
     cf_entry_symbol := cf_entry_symbol c; cf_output_kind := cf_output_kind c;
     cf_format_name := cf_format_name c; cf_machine_name := cf_machine_name c;
     cf_script_path := cf_script_path c; cf_thread_count := cf_thread_count c;
     cf_incremental := cf_incremental c; cf_debug_info := v; cf_defines := cf_defines c;
     cf_input_files := cf_input_files c; cf_library_paths := cf_library_paths c;
     cf_libraries := cf_libraries c; cf_plugins := cf_plugins c |}.
Definition set_defines (v : list (string * string)) (c : olnk_config) : olnk_config :=
  {| cf_output_path := cf_output_path c; cf_map_path := cf_map_path c;
     cf_entry_symbol := cf_entry_symbol c; cf_output_kind := cf_output_kind c;
     cf_format_name := cf_format_name c; cf_machine_name := cf_machine_name c;
     cf_script_path := cf_script_path c; cf_thread_count := cf_thread_count c;
     cf_incremental := cf_incremental c; cf_debug_info := cf_debug_info c;
     cf_defines := v; cf_input_files := cf_input_files c;
     cf_library_paths := cf_library_paths c; cf_libraries := cf_libraries c;
     cf_plugins := cf_plugins c |}.
Definition set_input_files (v : list string) (c : olnk_config) : olnk_config :=
  {| cf_output_path := cf_output_path c; cf_map_path := cf_map_path c;
     cf_entry_symbol := cf_entry_symbol c; cf_output_kind := cf_output_kind c;
     cf_format_name := cf_format_name c; cf_machine_name := cf_machine_name c;
     cf_script_path := cf_script_path c; cf_thread_count := cf_thread_count c;
     cf_incremental := cf_incremental c; cf_debug_info := cf_debug_info c;
     cf_defines := cf_defines c; cf_input_files := v;
     cf_library_paths := cf_library_paths c; cf_libraries := cf_libraries c;
     cf_plugins := cf_plugins c |}.
Definition set_library_paths (v : list string) (c : olnk_config) : olnk_config :=
  {| cf_output_path := cf_output_path c; cf_map_path := cf_map_path c;
     cf_entry_symbol := cf_entry_symbol c; cf_output_kind := cf_output_kind c;
     cf_format_name := cf_format_name c; cf_machine_name := cf_machine_name c;
     cf_script_path := cf_script_path c; cf_thread_count := cf_thread_count c;
     cf_incremental := cf_incremental c; cf_debug_info := cf_debug_info c;
     cf_defines := cf_defines c; cf_input_files := cf_input_files c;
     cf_library_paths := v; cf_libraries := cf_libraries c;
     cf_plugins := cf_plugins c |}.
Definition set_libraries (v : list string) (c : olnk_config) : olnk_config :=
  {| cf_output_path := cf_output_path c; cf_map_path := cf_map_path c;
     cf_entry_symbol := cf_entry_symbol c; cf_output_kind := cf_output_kind c;
     cf_format_name := cf_format_name c; cf_machine_name := cf_machine_name c;
     cf_script_path := cf_script_path c; cf_thread_count := cf_thread_count c;
     cf_incremental := cf_incremental c; cf_debug_info := cf_debug_info c;
     cf_defines := cf_defines c; cf_input_files := cf_input_files c;
     cf_library_paths := cf_library_paths c; cf_libraries := v;
     cf_plugins := cf_plugins c |}.
Definition set_plugins (v : list string) (c : olnk_config) : olnk_config :=
  {| cf_output_path := cf_output_path c; cf_map_path := cf_map_path c;
     cf_entry_symbol := cf_entry_symbol c; cf_output_kind := cf_output_kind c;
     cf_format_name := cf_format_name c; cf_machine_name := cf_machine_name c;
     cf_script_path := cf_script_path c; cf_thread_count := cf_thread_count c;
     cf_incremental := cf_incremental c; cf_debug_info := cf_debug_info c;
     cf_defines := cf_defines c; cf_input_files := cf_input_files c;
     cf_library_paths := cf_library_paths c; cf_libraries := cf_libraries c;
     cf_plugins := v |}.

Record olnk_session := {
  se_context : option positive;
  se_snapshot_config : olnk_config;
  se_diagnostics : list positive;
  se_options : list (string * string) }.

(** format.cpp's BuiltinFormatInstance holds the descriptor it was made of. *)
Record BuiltinFormatInstance := { bf_descriptor : olnk_format_descriptor }.

(** The instance of the append-stub plugin, and that of the other plugins
    (the struct StubInstance of each file under plugins/). *)
Record StubInstance := { si_logical_name : string; si_marker : string; si_body : string }.
Record ReportInstance := { ri_logical_name : string; ri_content : string }.

Inductive obj : Type :=
  | OContext (c : olnk_context)
  | OConfig (c : olnk_config)
  | OSession (s : olnk_session)
  | ODiagnostic (d : DiagnosticStorage)
  | OResult (r : ResultStorage)
  | OFormatInstance (i : BuiltinFormatInstance)
  | OStub (i : StubInstance)
  | OReport (i : ReportInstance).

(** The types that live in the heap. *)
Class HeapObj (A : Type) := {
  to_obj : A -> obj;
  of_obj : obj -> option A;
  of_to_obj : forall a, of_obj (to_obj a) = Some a;
  to_of_obj : forall o a, of_obj o = Some a -> o = to_obj a }.

Ltac heap_obj := done || (intros [] ?; by intros [= <-]).

#[export] Instance context_obj : HeapObj olnk_context.
Proof.
  refine {| to_obj := OContext;
            of_obj o := match o with OContext c => Some c | _ => None end |}; heap_obj.
Defined.
#[export] Instance config_obj : HeapObj olnk_config.
Proof.
  refine {| to_obj := OConfig;
            of_obj o := match o with OConfig c => Some c | _ => None end |}; heap_obj.
Defined.
#[export] Instance session_obj : HeapObj olnk_session.
Proof.
  refine {| to_obj := OSession;
            of_obj o := match o with OSession s => Some s | _ => None end |}; heap_obj.
Defined.
#[export] Instance diagnostic_obj : HeapObj DiagnosticStorage.
Proof.
  refine {| to_obj := ODiagnostic;
            of_obj o := match o with ODiagnostic d => Some d | _ => None end |}; heap_obj.
Defined.
#[export] Instance result_obj : HeapObj ResultStorage.
Proof.
  refine {| to_obj := OResult;
            of_obj o := match o with OResult r => Some r | _ => None end |}; heap_obj.
Defined.
#[export] Instance format_instance_obj : HeapObj BuiltinFormatInstance.
Proof.
  refine {| to_obj := OFormatInstance;
            of_obj o := match o with OFormatInstance i => Some i | _ => None end |}; heap_obj.
Defined.

#[export] Instance stub_obj : HeapObj StubInstance.
Proof.
  refine {| to_obj := OStub;
            of_obj o := match o with OStub i => Some i | _ => None end |}; heap_obj.
Defined.
#[export] Instance report_obj : HeapObj ReportInstance.
Proof.
  refine {| to_obj := OReport;
            of_obj o := match o with OReport i => Some i | _ => None end |}; heap_obj.
Defined.

(** ** The world *)

(** What an allocating statement throws. *)
Inductive thrown : Set := ThrowBadAlloc | ThrowOther.

(** What the file system does with an output file that is opened for writing:
    the open fails, the write fails after some bytes, the write is buffered and
    the flush when the stream is closed fails after some bytes, or all is
    written. *)
Inductive disk_outcome : Set :=
  | OpenFails | WriteFails (written : nat) | CloseFails (written : nat) | WriteOk.

(** What the outside sees: callbacks, and text on standard output and error. *)
Inductive event : Set :=
  | ELog (callback user_data : Z) (level : Z) (message : string)
  | EDiag (callback user_data : Z) (severity : Z) (message : string)
  | EOut (text : string)
  | EErr (text : string).

Record world := mkWorld {
  w_heap : gmap positive obj;
  w_next : positive;
  w_throws : list (option thrown);
  w_files : gmap string string;
  w_disk : string -> disk_outcome;
  w_events : list event;
  w_machines : registry }.

Definition with_heap (h : gmap positive obj) (w : world) : world :=
  mkWorld h (w_next w) (w_throws w) (w_files w) (w_disk w) (w_events w) (w_machines w).
Definition with_throws (t : list (option thrown)) (w : world) : world :=
  mkWorld (w_heap w) (w_next w) t (w_files w) (w_disk w) (w_events w) (w_machines w).
Definition with_files (f : gmap string string) (w : world) : world :=
  mkWorld (w_heap w) (w_next w) (w_throws w) f (w_disk w) (w_events w) (w_machines w).
Definition with_event (e : event) (w : world) : world :=
  mkWorld (w_heap w) (w_next w) (w_throws w) (w_files w) (w_disk w) (w_events w ++ [e])
    (w_machines w).
Definition with_machines (g : registry) (w : world) : world :=
  mkWorld (w_heap w) (w_next w) (w_throws w) (w_files w) (w_disk w) (w_events w) g.

(** Every live object lies below the next address. *)
Definition world_wf (w : world) : Prop :=
  forall a o, w_heap w !! a = Some o -> (a < w_next w)%positive.

(** ** The monad *)

Inductive terminated : Set := Terminated.

Definition M (A : Type) : Type := world -> outcome terminated (A * world).

#[export] Instance M_ret : MRet M := fun A a w => Ret (a, w).
#[export] Instance M_bind : MBind M := fun A B f m w =>
  match m w with Ret (a, w) => f a w | Fail e => Fail e | Undef => Undef end.

Definition undefined {A} : M A := fun _ => Undef.
Definition terminate {A} : M A := fun _ => Fail Terminated.
Definition get : M world := fun w => Ret (w, w).
Definition modify (f : world -> world) : M unit := fun w => Ret (tt, f w).

(** The next allocating statement: what it throws. *)
Definition may_throw : M (option thrown) := fun w =>
  match w_throws w with
  | [] => Ret (None, w)
  | t :: ts => Ret (t, with_throws ts w)
  end.

(** An allocating statement outside any try block of a noexcept function. *)
Definition noexcept_alloc : M unit :=
  t ← may_throw; match t with None => mret tt | Some _ => terminate end.

(** [new]: the object gets the next address. *)
Definition alloc {A} `{HeapObj A} (a : A) : M positive := fun w =>
  Ret (w_next w, mkWorld (<[w_next w := to_obj a]> (w_heap w)) (Pos.succ (w_next w))
                   (w_throws w) (w_files w) (w_disk w) (w_events w) (w_machines w)).

Definition load {A} `{HeapObj A} (p : positive) : M A := fun w =>
  match w_heap w !! p ≫= of_obj with Some a => Ret (a, w) | None => Undef end.

(** A store through a pointer to a live object of the type. *)
Definition store {A} `{HeapObj A} (p : positive) (a : A) : M unit :=
  _ ← load (A := A) p;
  modify (fun w => with_heap (<[p := to_obj a]> (w_heap w)) w).

(** [delete p] for a pointer to an object of type [A], null allowed. *)
Definition free {A} `{HeapObj A} (p : option positive) : M unit :=
  match p with
  | None => mret tt
  | Some p => _ ← load (A := A) p; modify (fun w => with_heap (delete p (w_heap w)) w)
  end.

Definition emit (e : event) : M unit := modify (with_event e).

(** ** Weakest preconditions

    [wp tot m w Q]: [m] run in [w] has no undefined behaviour, and when it
    returns, value and state satisfy [Q]; with [tot] it does return. *)
Definition wp (tot : bool) {A} (m : M A) (w : world) (Q : A -> world -> Prop) : Prop :=
  match m w with Ret (a, w') => Q a w' | Fail _ => tot = false | Undef => False end.

Section Wp.
Context (tot : bool).

Lemma wp_mono {A} (m : M A) w (P Q : A -> world -> Prop) :
  wp tot m w P -> (forall a w', P a w' -> Q a w') -> wp tot m w Q.
Proof. unfold wp. destruct (m w) as [[a w']| |]; auto. Qed.

Lemma wp_ret {A} (a : A) w (Q : A -> world -> Prop) : Q a w -> wp tot (mret a) w Q.
Proof. done. Qed.

Lemma wp_bind {A B} (m : M A) (f : A -> M B) w Q :
  wp tot m w (fun a w' => wp tot (f a) w' Q) -> wp tot (m ≫= f) w Q.
Proof. unfold wp, mbind, M_bind. destruct (m w) as [[a w']| |]; auto. Qed.

Lemma wp_get w (Q : world -> world -> Prop) : Q w w -> wp tot get w Q.
Proof. done. Qed.

Lemma wp_modify f w (Q : unit -> world -> Prop) : Q tt (f w) -> wp tot (modify f) w Q.
Proof. done. Qed.

Lemma wp_emit e w (Q : unit -> world -> Prop) : Q tt (with_event e w) -> wp tot (emit e) w Q.
Proof. done. Qed.

(** Whatever the allocating statement throws. *)
Lemma wp_may_throw w (Q : option thrown -> world -> Prop) :
  (forall t ts, Q t (with_throws ts w)) -> wp tot may_throw w Q.
Proof.
  intros HQ. unfold wp, may_throw. destruct (w_throws w) as [|t ts] eqn:Ht; [|done].
  specialize (HQ None []). destruct w; cbn in *. by subst.
Qed.

(** The same with the list of exceptions in view. *)
Lemma wp_may_throw_eq w (Q : option thrown -> world -> Prop) :
  (forall t ts, w_throws w = t :: ts \/ (w_throws w = [] /\ t = None /\ ts = []) ->
     Q t (with_throws ts w)) -> wp tot may_throw w Q.
Proof.
  intros HQ. unfold wp, may_throw. destruct (w_throws w) as [|t ts] eqn:Ht.
  - specialize (HQ None [] ltac:(by right)). destruct w; cbn in *. by subst.
  - apply HQ. by left.
Qed.

(** A known outcome of the next allocating statement. *)
Lemma wp_may_throw_cons w t ts (Q : option thrown -> world -> Prop) :
  w_throws w = t :: ts -> Q t (with_throws ts w) -> wp tot may_throw w Q.
Proof. intros Ht HQ. unfold wp, may_throw. by rewrite Ht. Qed.

Lemma wp_may_throw_calm w (Q : option thrown -> world -> Prop) :
  w_throws w = [] -> Q None w -> wp tot may_throw w Q.
Proof. intros Ht HQ. unfold wp, may_throw. by rewrite Ht. Qed.

Lemma wp_alloc {A} `{HeapObj A} (a : A) w (Q : positive -> world -> Prop) :
  Q (w_next w) (mkWorld (<[w_next w := to_obj a]> (w_heap w)) (Pos.succ (w_next w))
                  (w_throws w) (w_files w) (w_disk w) (w_events w) (w_machines w)) ->
  wp tot (alloc a) w Q.
Proof. done. Qed.

Lemma wp_load {A} `{HeapObj A} p a w (Q : A -> world -> Prop) :
  w_heap w !! p = Some (to_obj a) -> Q a w -> wp tot (load p) w Q.
Proof. intros Hp HQ. unfold wp, load. rewrite Hp. cbn. by rewrite of_to_obj. Qed.

Lemma wp_store {A} `{HeapObj A} p a0 a w (Q : unit -> world -> Prop) :
  w_heap w !! p = Some (to_obj a0) ->
  Q tt (with_heap (<[p := to_obj a]> (w_heap w)) w) -> wp tot (store p a) w Q.
Proof. intros Hp HQ. apply wp_bind. by eapply wp_load. Qed.

Lemma wp_free {A} `{HeapObj A} p a0 w (Q : unit -> world -> Prop) :
  w_heap w !! p = Some (to_obj a0) ->
  Q tt (with_heap (delete p (w_heap w)) w) -> wp tot (free (A := A) (Some p)) w Q.
Proof. intros Hp HQ. apply wp_bind. by eapply wp_load. Qed.

End Wp.

(** In partial mode a terminating exception is no obligation. *)
Lemma wp_noexcept_alloc w (Q : unit -> world -> Prop) :
  (forall ts, Q tt (with_throws ts w)) -> wp false noexcept_alloc w Q.
Proof.
  intros HQ. apply wp_bind, wp_may_throw. intros [t|] ts; [done|]. apply HQ.
Qed.

Lemma wp_noexcept_alloc_calm tot w (Q : unit -> world -> Prop) :
  w_throws w = [] -> Q tt w -> wp tot noexcept_alloc w Q.
Proof. intros Ht HQ. by apply wp_bind, wp_may_throw_calm. Qed.
