(* ===== verification/FormatRun.v ===== *)
(** * Running a format (src/olnk/format.cpp, format_serializer.cpp)

    The callbacks of the built-in format vtable, and run_format_serializer,
    which drives any vtable through create, apply_defaults, validate_config,
    serialize and destroy. A vtable is a record of optional callbacks in the
    monad; the host services a context carries are such a record too, applied
    to the data part of the context. *)

From Stdlib Require Import Ascii.
From S2P Require Import Prelude Abi Machine Format World.

#[local] Open Scope string_scope.
#[local] Open Scope Z_scope.

(** ** Contexts, hosts and vtables *)

(** The members of olnk_format_context other than [host]. *)
Record format_context_data := {
  fc_linker_context : option positive; fc_session : option positive; fc_config : bool }.

Record olnk_format_host := {
  fh_log : option (format_context_data -> Z -> cstr -> M unit);
  fh_diagnostic : option (format_context_data -> Z -> cstr -> M unit);
  fh_get_option : option (format_context_data -> cstr -> M cstr);
  fh_set_option : option (format_context_data -> cstr -> cstr -> M olnk_status);
  fh_emit_output : option (format_context_data -> option string -> M olnk_status);
  fh_emit_aux_file : option (format_context_data -> cstr -> option string -> M olnk_status) }.

Record olnk_format_context := {
  fc_host : option olnk_format_host; fc_data : format_context_data }.

Record olnk_format_vtable := {
  fv_create : option (option olnk_format_descriptor -> M (olnk_status * option positive));
  fv_destroy : option (option positive -> M unit);
  fv_get_properties : option (option positive -> option olnk_format_properties ->
                              M (olnk_status * option olnk_format_properties));
  fv_validate_config : option (option positive -> option olnk_format_context -> M olnk_status);
  fv_apply_defaults : option (option positive -> option olnk_format_context -> M olnk_status);
  fv_serialize : option (option positive -> option olnk_format_context -> bool ->
                         option olnk_format_output_info ->
                         M (olnk_status * option olnk_format_output_info)) }.

(** ** The built-in vtable *)

Definition builtin_create (descriptor : option olnk_format_descriptor) (out_instance : bool)
    : M (olnk_status * option positive) :=
  match descriptor with
  | Some d =>
      if negb out_instance then mret (OLNK_STATUS_INVALID_ARGUMENT, None)
      else
        t ← may_throw;
        match t with
        | None =>
            p ← alloc {| bf_descriptor := d |};
            mret (OLNK_STATUS_OK, Some p)
        | Some ThrowBadAlloc => mret (OLNK_STATUS_OUT_OF_MEMORY, None)
        | Some ThrowOther => mret (OLNK_STATUS_INTERNAL_ERROR, None)
        end
  | None => mret (OLNK_STATUS_INVALID_ARGUMENT, None)
  end.

Definition builtin_destroy (instance : option positive) : M unit :=
  free (A := BuiltinFormatInstance) instance.

(** The properties of a format of descriptor [d]; all other members are zero. *)
Definition builtin_properties (d : olnk_format_descriptor) : olnk_format_properties :=
  {| fp_abi_version := OLNK_FORMAT_ABI_VERSION; fp_struct_size := sizeof_format_properties;
     fp_kind := fd_kind d; fp_capabilities := fd_capabilities d;
     fp_image_class := OLNK_FORMAT_IMAGE_CLASS_64;
     fp_endianness := OLNK_FORMAT_ENDIANNESS_LITTLE;
     fp_default_file_alignment := 0; fp_default_section_alignment := 0;
     fp_default_page_alignment := 0;
     fp_default_text_section_name := None; fp_default_data_section_name := None;
     fp_default_bss_section_name := None; fp_default_rodata_section_name := None |}.

Definition builtin_get_properties (instance : option positive)
    (out_properties : option olnk_format_properties)
    : M (olnk_status * option olnk_format_properties) :=
  match instance, out_properties with
  | Some p, Some _ =>
      inst ← load (A := BuiltinFormatInstance) p;
      mret (OLNK_STATUS_OK, Some (builtin_properties (bf_descriptor inst)))
  | _, _ => mret (OLNK_STATUS_INVALID_ARGUMENT, out_properties)
  end.

Definition builtin_validate_config (instance : option positive)
    (context : option olnk_format_context) : M olnk_status :=
  match instance, context with
  | Some _, Some c =>
      mret (if fc_config (fc_data c) then OLNK_STATUS_OK else OLNK_STATUS_INVALID_ARGUMENT)
  | _, _ => mret OLNK_STATUS_INVALID_ARGUMENT
  end.

Definition newline : string := String "010"%char EmptyString.

(** std::string("OLNK\nformat=") + name + "\n" *)
Definition format_payload (d : olnk_format_descriptor) : string :=
  ("OLNK" ++ newline ++ "format=" ++ default "unknown" (fd_name d) ++ newline)%string.

Definition zero_output_info : olnk_format_output_info :=
  {| fo_abi_version := OLNK_FORMAT_ABI_VERSION; fo_struct_size := sizeof_format_output_info;
     fo_output_path := None; fo_file_size := 0; fo_image_base := 0; fo_entry_address := 0;
     fo_section_count := 0; fo_segment_count := 0;
     fo_output_kind := OLNK_OUTPUT_EXECUTABLE; fo_format_kind := OLNK_FORMAT_KIND_UNKNOWN |}.

Definition serialized_output_info (d : olnk_format_descriptor) : olnk_format_output_info :=
  {| fo_abi_version := OLNK_FORMAT_ABI_VERSION; fo_struct_size := sizeof_format_output_info;
     fo_output_path := None; fo_file_size := Z.of_nat (String.length (format_payload d));
     fo_image_base := 0; fo_entry_address := 0;
     fo_section_count := 0; fo_segment_count := 0;
     fo_output_kind := OLNK_OUTPUT_EXECUTABLE; fo_format_kind := fd_kind d |}.

(** context->host->emit_output, when none of the three pointers is null. *)
Definition context_emit_output (context : option olnk_format_context)
    : option (format_context_data -> option string -> M olnk_status) :=
  match context with
  | None => None
  | Some c => match fc_host c with None => None | Some host => fh_emit_output host end
  end.

Definition builtin_serialize (instance : option positive)
    (context : option olnk_format_context) (image_view : bool)
    (out_info : option olnk_format_output_info)
    : M (olnk_status * option olnk_format_output_info) :=
  match instance, context_emit_output context, context, out_info with
  | Some p, Some emit_output, Some c, Some _ =>
      if negb image_view then mret (OLNK_STATUS_INVALID_ARGUMENT, out_info)
      else
        inst ← load (A := BuiltinFormatInstance) p;
        _ ← noexcept_alloc;
        emit_status ← emit_output (fc_data c) (Some (format_payload (bf_descriptor inst)));
        if negb (bool_decide (emit_status = OLNK_STATUS_OK)) then mret (emit_status, out_info)
        else
          inst ← load (A := BuiltinFormatInstance) p;
          mret (OLNK_STATUS_OK, Some (serialized_output_info (bf_descriptor inst)))
  | _, _, _, _ => mret (OLNK_STATUS_INVALID_ARGUMENT, out_info)
  end.

Definition g_builtin_format_vtable : olnk_format_vtable :=
  {| fv_create := Some (fun d => builtin_create d true);
     fv_destroy := Some builtin_destroy;
     fv_get_properties := Some builtin_get_properties;
     fv_validate_config := Some builtin_validate_config;
     fv_apply_defaults := None;
     fv_serialize := Some builtin_serialize |}.

(** ** run_format_serializer *)

(** A definition as the serializer sees it: descriptor and vtable pointers. *)
Record format_def := {
  fmd_descriptor : option olnk_format_descriptor; fmd_vtable : option olnk_format_vtable }.

Definition builtin_format_def (def : olnk_format_definition) : format_def :=
  {| fmd_descriptor := fdef_descriptor def;
     fmd_vtable := if fdef_vtable def then Some g_builtin_format_vtable else None |}.

Definition has_minimum_definition (definition : option format_def) : bool :=
  match definition with
  | None => false
  | Some def =>
      match fmd_vtable def with
      | None => false
      | Some vtable => match fv_serialize vtable with Some _ => true | None => false end
      end
  end.

Definition initialize_output_info (out_info : option olnk_format_output_info)
    : option olnk_format_output_info :=
  match out_info with None => None | Some _ => Some zero_output_info end.

(** A call through the [destroy] slot: a null function pointer is undefined. *)
Definition call_destroy (vtable : olnk_format_vtable) (instance : option positive) : M unit :=
  match fv_destroy vtable with Some f => f instance | None => undefined end.

(** The part after an instance was made. *)
Definition run_with_instance (vtable : olnk_format_vtable) (instance : option positive)
    (context : option olnk_format_context) (image_view : bool)
    (out_info : option olnk_format_output_info)
    : M (olnk_status * option olnk_format_output_info) :=
  defaults_status ← match fv_apply_defaults vtable with
                    | Some f => f instance context
                    | None => mret OLNK_STATUS_OK
                    end;
  if negb (bool_decide (defaults_status = OLNK_STATUS_OK))
     && negb (bool_decide (defaults_status = OLNK_STATUS_NOT_IMPLEMENTED))
  then _ ← call_destroy vtable instance; mret (defaults_status, out_info)
  else
    validate_status ← match fv_validate_config vtable with
                      | Some f => f instance context
                      | None => mret OLNK_STATUS_OK
                      end;
    if negb (bool_decide (validate_status = OLNK_STATUS_OK))
    then _ ← call_destroy vtable instance; mret (validate_status, out_info)
    else
      match fv_serialize vtable with
      | None => undefined
      | Some f =>
          r ← f instance context image_view out_info;
          _ ← call_destroy vtable instance;
          mret r
      end.

Definition run_format_serializer (definition : option format_def)
    (context : option olnk_format_context) (image_view : bool)
    (out_info : option olnk_format_output_info)
    : M (olnk_status * option olnk_format_output_info) :=
  let out_info := initialize_output_info out_info in
  match definition, context, out_info with
  | Some def, Some _, Some _ =>
      if negb image_view then mret (OLNK_STATUS_INVALID_ARGUMENT, out_info)
      else if negb (has_minimum_definition definition)
      then mret (OLNK_STATUS_INVALID_ARGUMENT, out_info)
      else
        match fmd_vtable def with
        | None => undefined
        | Some vtable =>
            '(create_status, instance) ←
              match fv_create vtable with
              | Some f => f (fmd_descriptor def)
              | None => mret (OLNK_STATUS_OK, None)
              end;
            if negb (bool_decide (create_status = OLNK_STATUS_OK))
            then mret (create_status, out_info)
            else
              match instance with
              | None => mret (OLNK_STATUS_FORMAT_ERROR, out_info)
              | Some _ => run_with_instance vtable instance context image_view out_info
              end
        end
  | _, _, _ => mret (OLNK_STATUS_INVALID_ARGUMENT, out_info)
  end.
