(* ===== verification/Api.v ===== *)
(** * The public API (src/olnk/api.cpp, linker.cpp, include/olnk/olnk-api.h)

    Contexts, configs, sessions, diagnostics and results, the link run, and
    the one-shot call. Handles are heap addresses, [None] the null pointer.
    Enumeration arguments that cross the ABI are numbers, as a C caller can
    pass any. Callbacks are recorded as events and do not re-enter the API. *)

From S2P Require Import Prelude Abi Machine Format World FormatRun.

(** ** Internal utilities *)

Definition valid_log_level (level : Z) : bool := (0 <=? level) && (level <=? 6).
Definition valid_diag_severity (severity : Z) : bool := (0 <=? severity) && (severity <=? 3).

Definition diag_severity_Z (s : olnk_diagnostic_severity) : Z :=
  match s with
  | OLNK_DIAGNOSTIC_NOTE => 0 | OLNK_DIAGNOSTIC_WARNING => 1
  | OLNK_DIAGNOSTIC_ERROR => 2 | OLNK_DIAGNOSTIC_FATAL => 3
  end.

(** The output kind of a number; [None] when [valid_output_kind] is false. *)
Definition output_kind_of_Z (kind : Z) : option olnk_output_kind :=
  if kind =? 0 then Some OLNK_OUTPUT_EXECUTABLE
  else if kind =? 1 then Some OLNK_OUTPUT_SHARED_LIBRARY
  else if kind =? 2 then Some OLNK_OUTPUT_STATIC_IMAGE
  else if kind =? 3 then Some OLNK_OUTPUT_RELOCATABLE
  else if kind =? 4 then Some OLNK_OUTPUT_BINARY
  else None.

(** The status a catch clause turns an exception into. *)
Definition status_of_thrown (t : thrown) : olnk_status :=
  match t with
  | ThrowBadAlloc => OLNK_STATUS_OUT_OF_MEMORY
  | ThrowOther => OLNK_STATUS_INTERNAL_ERROR
  end.

Definition safe_emit_log (context : option positive) (level : Z) (message : cstr) : M unit :=
  match context, message with
  | Some c, Some msg =>
      if negb (valid_log_level level) then mret tt
      else
        cx ← load (A := olnk_context) c;
        if cx_log_level cx =? olnk_log_level_Z OLNK_LOG_OFF then mret tt
        else if level <? cx_log_level cx then mret tt
        else match cx_log_callback cx with
             | Some f => emit (ELog f (cx_log_user_data cx) level msg)
             | None => mret tt
             end
  | _, _ => mret tt
  end.

Definition session_with_diagnostics (s : olnk_session) (ds : list positive) : olnk_session :=
  {| se_context := se_context s; se_snapshot_config := se_snapshot_config s;
     se_diagnostics := ds; se_options := se_options s |}.

Definition session_with_options (s : olnk_session) (os : list (string * string))
    : olnk_session :=
  {| se_context := se_context s; se_snapshot_config := se_snapshot_config s;
     se_diagnostics := se_diagnostics s; se_options := os |}.

(** The callback of the session's context, when both exist. *)
Definition diag_callback_event (context : option positive) (severity : Z) (msg : string)
    : M unit :=
  match context with
  | None => mret tt
  | Some c =>
      cx ← load (A := olnk_context) c;
      match cx_diag_callback cx with
      | Some f => emit (EDiag f (cx_diag_user_data cx) severity msg)
      | None => mret tt
      end
  end.

Definition add_diagnostic (session : option positive) (severity : Z) (message file : cstr)
    (line column : Z) : M olnk_status :=
  match session, message with
  | Some p, Some msg =>
      if negb (valid_diag_severity severity) then mret OLNK_STATUS_INVALID_ARGUMENT
      else
        t ← may_throw;
        match t with
        | Some t => mret (status_of_thrown t)
        | None =>
            d ← alloc {| ds_severity := severity; ds_message := msg;
                         ds_file := fallback_empty file; ds_line := line; ds_column := column |};
            s ← load (A := olnk_session) p;
            _ ← store p (session_with_diagnostics s (se_diagnostics s ++ [d]));
            _ ← diag_callback_event (se_context s) severity msg;
            mret OLNK_STATUS_OK
        end
  | _, _ => mret OLNK_STATUS_INVALID_ARGUMENT
  end.

(** [delete d] for each element. *)
Fixpoint free_diagnostics (ds : list positive) : M unit :=
  match ds with
  | [] => mret tt
  | d :: ds => _ ← free (A := DiagnosticStorage) (Some d); free_diagnostics ds
  end.

Definition clear_diagnostics (session : option positive) : M unit :=
  match session with
  | None => mret tt
  | Some p =>
      s ← load (A := olnk_session) p;
      _ ← free_diagnostics (se_diagnostics s);
      store p (session_with_diagnostics s [])
  end.

Fixpoint count_severity (ds : list positive) (severity : Z) (count : Z) : M Z :=
  match ds with
  | [] => mret count
  | d :: ds =>
      x ← load (A := DiagnosticStorage) d;
      count_severity ds severity (if ds_severity x =? severity then u32 (count + 1) else count)
  end.

Definition count_diagnostics_with_severity (session : option positive) (severity : Z) : M Z :=
  match session with
  | None => mret 0
  | Some p => s ← load (A := olnk_session) p; count_severity (se_diagnostics s) severity 0
  end.

(** The new value of the string, when it was assigned. *)
Definition set_string (value : cstr) : M (olnk_status * option string) :=
  match value with
  | None => mret (OLNK_STATUS_INVALID_ARGUMENT, None)
  | Some v =>
      t ← may_throw;
      match t with
      | None => mret (OLNK_STATUS_OK, Some v)
      | Some t => mret (status_of_thrown t, None)
      end
  end.

(** The vector after the call. *)
Definition push_back_string (vec : list string) (value : cstr) : M (olnk_status * list string) :=
  match value with
  | None => mret (OLNK_STATUS_INVALID_ARGUMENT, vec)
  | Some v =>
      t ← may_throw;
      match t with
      | None => mret (OLNK_STATUS_OK, vec ++ [v])
      | Some t => mret (status_of_thrown t, vec)
      end
  end.

Definition define_kv (vec : list (string * string)) (key value : cstr)
    : M (olnk_status * list (string * string)) :=
  match key, value with
  | Some k, Some v =>
      t ← may_throw;
      match t with
      | None => mret (OLNK_STATUS_OK, vec ++ [(k, v)])
      | Some t => mret (status_of_thrown t, vec)
      end
  | _, _ => mret (OLNK_STATUS_INVALID_ARGUMENT, vec)
  end.

Definition make_result : M (option positive) :=
  t ← may_throw;
  match t with
  | None => p ← alloc result_default; mret (Some p)
  | Some _ => mret None
  end.

Definition populate_result_from_session (result session : option positive)
    (status : olnk_status) (elapsed_ns : Z) : M unit :=
  match result with
  | None => mret tt
  | Some r =>
      x ← load (A := ResultStorage) r;
      match session with
      | None =>
          store r {| rs_status := status; rs_output_path := rs_output_path x;
                     rs_output_size := rs_output_size x; rs_elapsed_ns := elapsed_ns;
                     rs_input_count := rs_input_count x;
                     rs_warning_count := rs_warning_count x;
                     rs_error_count := rs_error_count x |}
      | Some p =>
          s ← load (A := olnk_session) p;
          warnings ← count_diagnostics_with_severity session
                       (diag_severity_Z OLNK_DIAGNOSTIC_WARNING);
          errors ← count_diagnostics_with_severity session
                     (diag_severity_Z OLNK_DIAGNOSTIC_ERROR);
          fatals ← count_diagnostics_with_severity session
                     (diag_severity_Z OLNK_DIAGNOSTIC_FATAL);
          _ ← noexcept_alloc;
          store r {| rs_status := status;
                     rs_output_path := cf_output_path (se_snapshot_config s);
                     rs_output_size := rs_output_size x; rs_elapsed_ns := elapsed_ns;
                     rs_input_count := u32 (Z.of_nat (length (cf_input_files
                                                              (se_snapshot_config s))));
                     rs_warning_count := warnings;
                     rs_error_count := u32 (errors + fatals) |}
      end
  end.

(** ** Output files *)

Definition file_size_or_zero (path : string) : M Z :=
  w ← get;
  mret match w_files w !! path with
       | Some content => Z.of_nat (String.length content)
       | None => 0
       end.

Definition write_output_file (path : string) (bytes : option string) : M olnk_status :=
  match bytes with
  | None => mret OLNK_STATUS_INVALID_ARGUMENT
  | Some data =>
      if (path =? "")%string || (data =? "")%string then mret OLNK_STATUS_INVALID_ARGUMENT
      else
        w ← get;
        match w_disk w path with
        | OpenFails => mret OLNK_STATUS_IO_ERROR
        | WriteFails n =>
            _ ← modify (with_files (<[path := String.substring 0 n data]> (w_files w)));
            mret OLNK_STATUS_IO_ERROR
        | CloseFails n =>
            _ ← modify (with_files (<[path := String.substring 0 n data]> (w_files w)));
            mret OLNK_STATUS_OK
        | WriteOk =>
            _ ← modify (with_files (<[path := data]> (w_files w)));
            mret OLNK_STATUS_OK
        end
  end.

(** ** The host services given to a format *)

Definition api_format_emit_output (ctx : format_context_data) (bytes : option string)
    : M olnk_status :=
  match fc_session ctx with
  | None => mret OLNK_STATUS_INVALID_ARGUMENT
  | Some p =>
      s ← load (A := olnk_session) p;
      write_output_file (cf_output_path (se_snapshot_config s)) bytes
  end.

Definition api_format_emit_aux_file (ctx : format_context_data) (name : cstr)
    (bytes : option string) : M olnk_status := mret OLNK_STATUS_NOT_IMPLEMENTED.

Definition api_format_log (ctx : format_context_data) (level : Z) (message : cstr) : M unit :=
  safe_emit_log (fc_linker_context ctx) level message.

Definition api_format_diagnostic (ctx : format_context_data) (severity : Z) (message : cstr)
    : M unit :=
  match fc_session ctx with
  | None => mret tt
  | Some _ =>
      _ ← add_diagnostic (fc_session ctx) severity (Some (fallback_empty message)) None 0 0;
      mret tt
  end.

Definition api_format_get_option (ctx : format_context_data) (key : cstr) : M cstr := mret None.

Definition api_format_set_option (ctx : format_context_data) (key value : cstr)
    : M olnk_status := mret OLNK_STATUS_NOT_IMPLEMENTED.

(** The host table olnk_session_run builds. *)
Definition api_format_host : olnk_format_host :=
  {| fh_log := Some api_format_log; fh_diagnostic := Some api_format_diagnostic;
     fh_get_option := Some api_format_get_option;
     fh_set_option := Some api_format_set_option;
     fh_emit_output := Some api_format_emit_output;
     fh_emit_aux_file := Some api_format_emit_aux_file |}.

(** ** Version and metadata *)

Definition status_strings : list string :=
  ["ok"; "unknown"; "invalid-argument"; "out-of-memory"; "io-error"; "parse-error";
   "format-error"; "machine-error"; "script-error"; "plugin-error"; "symbol-error";
   "relocation-error"; "link-error"; "internal-error"; "not-implemented"]%string.

Definition olnk_status_to_string (status : Z) : string :=
  if status <? 0 then "unrecognized-status"
  else default "unrecognized-status"%string (status_strings !! Z.to_nat status).

(** olnk-version.h defines no OLNK_VERSION_ENCODED: the fallback is compiled. *)
Definition olnk_api_version : Z := 0.
Definition olnk_version_major : Z := 0.
Definition olnk_version_minor : Z := 1.
Definition olnk_version_patch : Z := 0.
Definition olnk_version_string : string := "0.1.0".

(** ** Contexts *)

Definition olnk_context_create : M (option positive) :=
  t ← may_throw;
  match t with
  | None => p ← alloc context_default; mret (Some p)
  | Some _ => mret None
  end.

Definition olnk_context_destroy (context : option positive) : M unit :=
  free (A := olnk_context) context.

Definition olnk_context_set_log_level (context : option positive) (level : Z) : M unit :=
  match context with
  | None => mret tt
  | Some p =>
      if negb (valid_log_level level) then mret tt
      else
        c ← load (A := olnk_context) p;
        store p {| cx_log_level := level; cx_log_callback := cx_log_callback c;
                   cx_log_user_data := cx_log_user_data c;
                   cx_diag_callback := cx_diag_callback c;
                   cx_diag_user_data := cx_diag_user_data c; cx_options := cx_options c |}
  end.

Definition olnk_context_set_log_callback (context : option positive) (callback : option Z)
    (user_data : Z) : M unit :=
  match context with
  | None => mret tt
  | Some p =>
      c ← load (A := olnk_context) p;
      store p {| cx_log_level := cx_log_level c; cx_log_callback := callback;
                 cx_log_user_data := user_data; cx_diag_callback := cx_diag_callback c;
                 cx_diag_user_data := cx_diag_user_data c; cx_options := cx_options c |}
  end.

Definition olnk_context_set_diagnostic_callback (context : option positive)
    (callback : option Z) (user_data : Z) : M unit :=
  match context with
  | None => mret tt
  | Some p =>
      c ← load (A := olnk_context) p;
      store p {| cx_log_level := cx_log_level c; cx_log_callback := cx_log_callback c;
                 cx_log_user_data := cx_log_user_data c; cx_diag_callback := callback;
                 cx_diag_user_data := user_data; cx_options := cx_options c |}
  end.

Definition olnk_context_set_option (context : option positive) (key value : cstr)
    : M olnk_status :=
  match context with
  | None => mret OLNK_STATUS_INVALID_ARGUMENT
  | Some p =>
      c ← load (A := olnk_context) p;
      '(status, options) ← define_kv (cx_options c) key value;
      _ ← store p {| cx_log_level := cx_log_level c; cx_log_callback := cx_log_callback c;
                     cx_log_user_data := cx_log_user_data c;
                     cx_diag_callback := cx_diag_callback c;
                     cx_diag_user_data := cx_diag_user_data c; cx_options := options |};
      mret status
  end.

(** ** Configs *)

Definition olnk_config_create : M (option positive) :=
  t ← may_throw;
  match t with
  | None => p ← alloc config_default; mret (Some p)
  | Some _ => mret None
  end.

Definition olnk_config_destroy (config : option positive) : M unit :=
  free (A := olnk_config) config.

(** The body the seven string setters share. *)
Definition config_set_string (upd : string -> olnk_config -> olnk_config)
    (config : option positive) (value : cstr) : M olnk_status :=
  match config with
  | None => mret OLNK_STATUS_INVALID_ARGUMENT
  | Some p =>
      c ← load (A := olnk_config) p;
      '(status, v) ← set_string value;
      _ ← match v with Some v => store p (upd v c) | None => mret tt end;
      mret status
  end.

Definition olnk_config_set_output_path := config_set_string set_output_path.
Definition olnk_config_set_map_path := config_set_string set_map_path.
Definition olnk_config_set_entry_symbol := config_set_string set_entry_symbol.
Definition olnk_config_set_format := config_set_string set_format_name.
Definition olnk_config_set_machine := config_set_string set_machine_name.
Definition olnk_config_set_script_path := config_set_string set_script_path.

(** The body of the setters that only assign. *)
Definition config_assign (upd : olnk_config -> olnk_config) (config : option positive)
    : M olnk_status :=
  match config with
  | None => mret OLNK_STATUS_INVALID_ARGUMENT
  | Some p =>
      c ← load (A := olnk_config) p;
      _ ← store p (upd c);
      mret OLNK_STATUS_OK
  end.

Definition olnk_config_set_output_kind (config : option positive) (kind : Z) : M olnk_status :=
  match config, output_kind_of_Z kind with
  | Some _, Some k => config_assign (set_output_kind k) config
  | _, _ => mret OLNK_STATUS_INVALID_ARGUMENT
  end.
Definition olnk_config_set_thread_count (config : option positive) (n : Z) : M olnk_status :=
  config_assign (set_thread_count n) config.
Definition olnk_config_set_incremental (config : option positive) (enabled : Z)
    : M olnk_status :=
  config_assign (set_incremental (if enabled =? 0 then 0 else 1)) config.
Definition olnk_config_set_debug_info (config : option positive) (enabled : Z)
    : M olnk_status :=
  config_assign (set_debug_info (if enabled =? 0 then 0 else 1)) config.

(** The body the four string lists share. *)
Definition config_push (field : olnk_config -> list string)
    (upd : list string -> olnk_config -> olnk_config)
    (config : option positive) (value : cstr) : M olnk_status :=
  match config with
  | None => mret OLNK_STATUS_INVALID_ARGUMENT
  | Some p =>
      c ← load (A := olnk_config) p;
      '(status, vec) ← push_back_string (field c) value;
      _ ← store p (upd vec c);
      mret status
  end.

Definition olnk_config_add_input_file := config_push cf_input_files set_input_files.
Definition olnk_config_add_library_path := config_push cf_library_paths set_library_paths.
Definition olnk_config_add_library := config_push cf_libraries set_libraries.
Definition olnk_config_add_plugin := config_push cf_plugins set_plugins.

Definition olnk_config_define (config : option positive) (key value : cstr) : M olnk_status :=
  match config with
  | None => mret OLNK_STATUS_INVALID_ARGUMENT
  | Some p =>
      c ← load (A := olnk_config) p;
      '(status, vec) ← define_kv (cf_defines c) key value;
      _ ← store p (set_defines vec c);
      mret status
  end.

(** ** The link pipeline (linker.cpp) *)

Inductive LinkPipelineStatus : Set := kOk | kNotReady | kInternalError.

Record LinkPipelineResult := { lp_status : LinkPipelineStatus; lp_phase : string }.

Definition run_ingest_phase : bool := true.
Definition run_symbols_phase : bool := true.
Definition run_layout_phase : bool := true.
Definition run_relocation_phase : bool := true.
Definition run_serialize_phase : bool := true.

Definition pipeline_run : LinkPipelineResult :=
  let stop phase := {| lp_status := kNotReady; lp_phase := phase |} in
  if negb run_ingest_phase then stop "ingest"%string
  else if negb run_symbols_phase then stop "symbols"%string
  else if negb run_layout_phase then stop "layout"%string
  else if negb run_relocation_phase then stop "relocation"%string
  else if negb run_serialize_phase then stop "serialize"%string
  else {| lp_status := kOk; lp_phase := "complete" |}.

Definition run_link_pipeline : olnk_status :=
  match lp_status pipeline_run with
  | kOk => OLNK_STATUS_OK
  | kNotReady => OLNK_STATUS_NOT_IMPLEMENTED
  | kInternalError => OLNK_STATUS_INTERNAL_ERROR
  end.

(** ** Sessions *)

Definition session_fresh : olnk_session :=
  {| se_context := None; se_snapshot_config := config_default;
     se_diagnostics := []; se_options := [] |}.

(** The session is allocated, then the config is copied into it; when the copy
    throws, the catch clause returns null and the session stays allocated. *)
Definition olnk_session_create (context config : option positive) : M (option positive) :=
  match context, config with
  | Some c, Some g =>
      t ← may_throw;
      match t with
      | Some _ => mret None
      | None =>
          s ← alloc session_fresh;
          cfg ← load (A := olnk_config) g;
          t ← may_throw;
          match t with
          | Some _ =>
              _ ← store s {| se_context := context; se_snapshot_config := config_default;
                             se_diagnostics := []; se_options := [] |};
              mret None
          | None =>
              _ ← store s {| se_context := context; se_snapshot_config := cfg;
                             se_diagnostics := []; se_options := [] |};
              _ ← safe_emit_log context (olnk_log_level_Z OLNK_LOG_DEBUG)
                    (Some "created olnk session"%string);
              mret (Some s)
          end
      end
  | _, _ => mret None
  end.

Definition olnk_session_destroy (session : option positive) : M unit :=
  match session with
  | None => mret tt
  | Some _ =>
      _ ← clear_diagnostics session;
      free (A := olnk_session) session
  end.

Section Run.

(** The specs the Lua profiles register with the two registries. *)
Variable lua_formats : option (list (option lua_format_spec)).
Variable lua_machines : option (list (option lua_machine_spec)).

Definition find_machine (name : string) : M (option nat) :=
  w ← get;
  let '(m, g) := olnk_find_machine lua_machines (w_machines w) (Some name) in
  _ ← modify (with_machines g);
  mret m.

(** The body of the try block from the call of the serializer on: the final
    status; a successful run stores the size of the output in the result. *)
Definition run_serializer (session result : positive) (context : option positive)
    (def : olnk_format_definition) : M olnk_status :=
  let format_ctx :=
    {| fc_host := Some api_format_host;
       fc_data := {| fc_linker_context := context; fc_session := Some session;
                     fc_config := true |} |} in
  '(status, out_info) ← run_format_serializer (Some (builtin_format_def def))
                          (Some format_ctx) true (Some zero_output_info);
  if bool_decide (status = OLNK_STATUS_OK)
  then
    r ← load (A := ResultStorage) result;
    _ ← store result
          {| rs_status := rs_status r; rs_output_path := rs_output_path r;
             rs_output_size := match out_info with Some o => fo_file_size o | None => 0 end;
             rs_elapsed_ns := rs_elapsed_ns r; rs_input_count := rs_input_count r;
             rs_warning_count := rs_warning_count r; rs_error_count := rs_error_count r |};
    mret status
  else mret status.

(** An error diagnostic of the run; when it can not be added the run stops
    with the status of the failure ([inl]), otherwise it goes on with [k]. *)
Definition run_diagnostic (session : positive) (msg : string) (k : M (olnk_status + olnk_status))
    : M (olnk_status + olnk_status) :=
  diag_status ← add_diagnostic (Some session) (diag_severity_Z OLNK_DIAGNOSTIC_ERROR)
                  (Some msg) None 0 0;
  if bool_decide (diag_status = OLNK_STATUS_OK) then k else mret (inl diag_status).

(** The same with a message built from two strings, which may throw; the catch
    clauses then stop the run. *)
Definition run_diagnostic_concat (session : positive) (prefix name : string)
    (k : M (olnk_status + olnk_status)) : M (olnk_status + olnk_status) :=
  t ← may_throw;
  match t with
  | Some t => mret (inl (status_of_thrown t))
  | None => run_diagnostic session (prefix ++ name)%string k
  end.

Definition name_or (dflt name : string) : string := if (name =? "")%string then dflt else name.

(** The machine lookup and the serializer, after the format lookup. *)
Definition run_machine (session result : positive) (context : option positive)
    (cfg : olnk_config) (def : option olnk_format_definition) (final_status : olnk_status)
    : M (olnk_status + olnk_status) :=
  let machine_name := name_or "x86_64" (cf_machine_name cfg) in
  machine ← find_machine machine_name;
  match machine with
  | None =>
      if bool_decide (final_status = OLNK_STATUS_OK)
      then run_diagnostic_concat session "unknown machine: " machine_name
             (mret (inr OLNK_STATUS_INVALID_ARGUMENT))
      else mret (inr final_status)
  | Some _ =>
      match def with
      | Some def =>
          if bool_decide (final_status = OLNK_STATUS_OK)
          then s ← run_serializer session result context def; mret (inr s)
          else mret (inr final_status)
      | None => mret (inr final_status)
      end
  end.

(** The try block: the pipeline, then the format and machine lookups. *)
Definition run_try (session result : positive) (context : option positive) (cfg : olnk_config)
    : M (olnk_status + olnk_status) :=
  r ←
    (if bool_decide (run_link_pipeline = OLNK_STATUS_OK)
     then
       let format_name := name_or "ELF" (cf_format_name cfg) in
       match olnk_find_format lua_formats (Some format_name) with
       | None =>
           run_diagnostic_concat session "unknown format: " format_name
             (run_machine session result context cfg None OLNK_STATUS_INVALID_ARGUMENT)
       | Some i =>
           run_machine session result context cfg (kStaticFormats !! i) OLNK_STATUS_OK
       end
     else mret (inr run_link_pipeline));
  match r with
  | inr OLNK_STATUS_NOT_IMPLEMENTED =>
      run_diagnostic session "internal linker feature is not fully wired yet"
        (mret (inr OLNK_STATUS_NOT_IMPLEMENTED))
  | _ => mret r
  end.

(** From the checks of the configuration to the final status. *)
Definition run_body (session result : positive) : M (olnk_status + olnk_status) :=
  s ← load (A := olnk_session) session;
  let cfg := se_snapshot_config s in
  match cf_input_files cfg with
  | [] => run_diagnostic session "no input files configured"
            (mret (inr OLNK_STATUS_INVALID_ARGUMENT))
  | _ =>
      if (cf_output_path cfg =? "")%string
      then run_diagnostic session "no output path configured"
             (mret (inr OLNK_STATUS_INVALID_ARGUMENT))
      else run_try session result (se_context s) cfg
  end.

(** The output size of a result whose status is final. *)
Definition finish_output_size (session result : positive) (final_status : olnk_status) : M unit :=
  r ← load (A := ResultStorage) result;
  let set_size n :=
    store result {| rs_status := rs_status r; rs_output_path := rs_output_path r;
                    rs_output_size := n; rs_elapsed_ns := rs_elapsed_ns r;
                    rs_input_count := rs_input_count r; rs_warning_count := rs_warning_count r;
                    rs_error_count := rs_error_count r |} in
  if negb (bool_decide (final_status = OLNK_STATUS_OK)) then set_size 0
  else if rs_output_size r =? 0
  then
    s ← load (A := olnk_session) session;
    n ← file_size_or_zero (cf_output_path (se_snapshot_config s));
    set_size n
  else mret tt.

(** olnk_session_run: the status, and what was stored through [out_result]
    ([None] when the call returned before storing anything). *)
Definition olnk_session_run (session : option positive) (out_result : bool)
    : M (olnk_status * option (option positive)) :=
  match session with
  | None => mret (OLNK_STATUS_INVALID_ARGUMENT, None)
  | Some p =>
      if negb out_result then mret (OLNK_STATUS_INVALID_ARGUMENT, None)
      else
        _ ← clear_diagnostics session;
        s ← load (A := olnk_session) p;
        _ ← safe_emit_log (se_context s) (olnk_log_level_Z OLNK_LOG_INFO)
              (Some "starting olnk session"%string);
        result ← make_result;
        match result with
        | None => mret (OLNK_STATUS_OUT_OF_MEMORY, Some None)
        | Some r =>
            outcome ← run_body p r;
            match outcome with
            | inl status =>
                _ ← free (A := ResultStorage) result;
                mret (status, Some None)
            | inr final_status =>
                _ ← populate_result_from_session result session final_status 0;
                _ ← finish_output_size p r final_status;
                _ ← (if bool_decide (final_status = OLNK_STATUS_OK)
                     then safe_emit_log (se_context s) (olnk_log_level_Z OLNK_LOG_INFO)
                            (Some "olnk session completed"%string)
                     else safe_emit_log (se_context s) (olnk_log_level_Z OLNK_LOG_ERROR)
                            (Some "olnk session failed: invalid configuration"%string));
                mret (final_status, Some result)
            end
        end
  end.

Definition olnk_session_reset (session : option positive) : M olnk_status :=
  match session with
  | None => mret OLNK_STATUS_INVALID_ARGUMENT
  | Some p =>
      _ ← clear_diagnostics session;
      s ← load (A := olnk_session) p;
      _ ← store p (session_with_options s []);
      _ ← safe_emit_log (se_context s) (olnk_log_level_Z OLNK_LOG_DEBUG)
            (Some "reset olnk session"%string);
      mret OLNK_STATUS_OK
  end.

Definition olnk_session_set_option (session : option positive) (key value : cstr)
    : M olnk_status :=
  match session with
  | None => mret OLNK_STATUS_INVALID_ARGUMENT
  | Some p =>
      s ← load (A := olnk_session) p;
      '(status, options) ← define_kv (se_options s) key value;
      _ ← store p (session_with_options s options);
      mret status
  end.

(** olnk_link: the status and what [*out_result] holds after the call. *)
Definition olnk_link (context config : option positive) (out_result : bool)
    : M (olnk_status * option (option positive)) :=
  match context, config with
  | Some _, Some _ =>
      if negb out_result then mret (OLNK_STATUS_INVALID_ARGUMENT, None)
      else
        session ← olnk_session_create context config;
        match session with
        | None => mret (OLNK_STATUS_OUT_OF_MEMORY, Some None)
        | Some _ =>
            '(status, res) ← olnk_session_run session true;
            _ ← olnk_session_destroy session;
            mret (status, match res with Some r => Some r | None => Some None end)
        end
  | _, _ => mret (OLNK_STATUS_INVALID_ARGUMENT, None)
  end.

End Run.

(** ** Inspection of diagnostics and results *)

Definition olnk_session_diagnostic_count (session : option positive) : M Z :=
  match session with
  | None => mret 0
  | Some p => s ← load (A := olnk_session) p; mret (Z.of_nat (length (se_diagnostics s)))
  end.

Definition olnk_session_diagnostic_at (session : option positive) (index : Z)
    : M (option positive) :=
  match session with
  | None => mret None
  | Some p =>
      s ← load (A := olnk_session) p;
      mret (if Z.of_nat (length (se_diagnostics s)) <=? index then None
            else se_diagnostics s !! Z.to_nat index)
  end.

(** The accessors of a diagnostic: a default for null, else the member. *)
Definition diagnostic_get {A} (dflt : A) (f : DiagnosticStorage -> A) (d : option positive)
    : M A :=
  match d with
  | None => mret dflt
  | Some p => x ← load (A := DiagnosticStorage) p; mret (f x)
  end.

(** A string accessor that returns null for an empty string. *)
Definition nonempty (s : string) : cstr := if (s =? "")%string then None else Some s.

Definition olnk_diagnostic_severity := diagnostic_get 3 ds_severity.
Definition olnk_diagnostic_message := diagnostic_get None (fun d => Some (ds_message d)).
Definition olnk_diagnostic_file := diagnostic_get None (fun d => nonempty (ds_file d)).
Definition olnk_diagnostic_line := diagnostic_get 0 ds_line.
Definition olnk_diagnostic_column := diagnostic_get 0 ds_column.

Definition result_get {A} (dflt : A) (f : ResultStorage -> A) (r : option positive) : M A :=
  match r with
  | None => mret dflt
  | Some p => x ← load (A := ResultStorage) p; mret (f x)
  end.

Definition olnk_result_destroy (r : option positive) : M unit := free (A := ResultStorage) r.
Definition olnk_result_status := result_get OLNK_STATUS_INVALID_ARGUMENT rs_status.
Definition olnk_result_output_path := result_get None (fun r => nonempty (rs_output_path r)).
Definition olnk_result_output_size := result_get 0 rs_output_size.
Definition olnk_result_elapsed_ns := result_get 0 rs_elapsed_ns.
Definition olnk_result_input_count := result_get 0 rs_input_count.
Definition olnk_result_warning_count := result_get 0 rs_warning_count.
Definition olnk_result_error_count := result_get 0 rs_error_count.
