(* ===== verification/ApiFrame.v ===== *)
(** * What a link call leaves alone

    olnk_link works on objects of its own: the session and the result it makes,
    and the diagnostics of that session. Whatever was in the heap before stays as
    it is, contents included. *)

From S2P Require Import Prelude Abi Machine Format World FormatRun Api.

(** ** Guarded objects *)

Section Frame.
Context (G : gmap positive obj).

(** An address that is not guarded. *)
Definition outside (a : positive) : Prop := G !! a = None.

(** The objects of [G] are in the heap, below the next address, and the sessions
    that are not of [G] hold no diagnostic of it. *)
Record guarded (w : world) : Prop := {
  gd_kept : forall a o, G !! a = Some o -> w_heap w !! a = Some o;
  gd_below : forall a o, G !! a = Some o -> (a < w_next w)%positive;
  gd_sessions : forall s se, outside s -> w_heap w !! s = Some (OSession se) ->
    Forall outside (se_diagnostics se) }.

(** A step that keeps the guarded objects and returns a value of [P]. *)
Definition frames {A} (P : A -> Prop) (m : M A) : Prop :=
  forall w a w', guarded w -> m w = Ret (a, w') -> guarded w' /\ P a.

Definition any {A} (_ : A) : Prop := True.

Lemma frames_ret {A} (P : A -> Prop) a : P a -> frames P (mret a).
Proof. intros HP w b w' Hw [= <- <-]. done. Qed.

Lemma frames_bind {A B} (P : A -> Prop) (Q : B -> Prop) (m : M A) (f : A -> M B) :
  frames P m -> (forall a, P a -> frames Q (f a)) -> frames Q (m ≫= f).
Proof.
  intros Hm Hf w b w' Hw. unfold mbind, M_bind. destruct (m w) as [[a w1]| |] eqn:E; [|done..].
  destruct (Hm w a w1 Hw E) as [Hw1 HP]. by apply Hf.
Qed.

Lemma frames_any {A} (P : A -> Prop) (m : M A) : frames P m -> frames any m.
Proof. intros Hm w a w' Hw E. destruct (Hm w a w' Hw E). done. Qed.

(** Steps that leave heap and allocator alone. *)
Lemma frames_heap_eq {A} (m : M A) :
  (forall w a w', m w = Ret (a, w') -> w_heap w' = w_heap w /\ w_next w' = w_next w) -> frames any m.
Proof.
  intros Hm w a w' [K B S] E. destruct (Hm w a w' E) as [Hh Hn].
  by split; [split; rewrite ?Hh, ?Hn|].
Qed.

Lemma frames_modify f :
  (forall w, w_heap (f w) = w_heap w /\ w_next (f w) = w_next w) -> frames any (modify f).
Proof. intros Hf. apply frames_heap_eq. by intros w a w' [= _ <-]. Qed.

Lemma frames_get : frames any get.
Proof. apply frames_heap_eq. by intros w a w' [= _ <-]. Qed.

Lemma frames_undefined {A} (P : A -> Prop) : frames P undefined.
Proof. by intros w a w' _. Qed.

Lemma frames_may_throw : frames any may_throw.
Proof. apply frames_heap_eq. intros w a w'. unfold may_throw. destruct (w_throws w); by intros [= _ <-]. Qed.

Lemma frames_noexcept_alloc : frames any noexcept_alloc.
Proof.
  apply (frames_bind any); [apply frames_may_throw|]. intros [t|] _; [by intros ???|by apply frames_ret].
Qed.

Lemma load_inv {A} `{HeapObj A} p a w w' :
  load (A := A) p w = Ret (a, w') -> w' = w /\ w_heap w !! p = Some (to_obj a).
Proof.
  unfold load. destruct (w_heap w !! p) as [o|]; [|done]. simpl.
  destruct (of_obj o) as [b|] eqn:Hb; [|done]. intros [= -> ->]. split; [done|]. f_equal. by apply to_of_obj.
Qed.

Lemma frames_load {A} `{HeapObj A} p : frames any (load (A := A) p).
Proof. apply frames_heap_eq. by intros w a w' [-> _]%load_inv. Qed.

(** A session that is not guarded holds diagnostics that are not. *)
Lemma frames_load_session p :
  outside p -> frames (fun se => Forall outside (se_diagnostics se)) (load (A := olnk_session) p).
Proof. intros Hp w se w' Hw [-> Hl]%load_inv. split; [done|]. by eapply gd_sessions. Qed.

(** The diagnostics of an object. *)
Definition held (o : obj) : list positive :=
  match o with OSession se => se_diagnostics se | _ => [] end.

Lemma guarded_insert w w' a o :
  guarded w -> outside a -> Forall outside (held o) ->
  w_heap w' = <[a := o]> (w_heap w) -> (w_next w <= w_next w')%positive -> guarded w'.
Proof.
  intros [K B S] Ha Ho Hh Hn. unfold outside in *. split.
  - intros b ob Hb. rewrite Hh, lookup_insert_ne by congruence. by apply K.
  - intros b ob Hb. specialize (B b ob Hb). lia.
  - intros s se Hs. rewrite Hh. intros [[-> ->]|[_ Hl]]%lookup_insert_Some; [done|by eapply S].
Qed.

Lemma frames_alloc {A} `{HeapObj A} (a : A) :
  held (to_obj a) = [] -> frames outside (alloc a).
Proof.
  intros Ha w p w' Hw [= <- <-].
  assert (outside (w_next w)) as Hn.
  { unfold outside. destruct (G !! w_next w) eqn:E; [|done]. apply (gd_below _ Hw) in E. lia. }
  split; [|done]. eapply (guarded_insert w); [done..| |reflexivity|cbn; lia]. rewrite Ha. constructor.
Qed.

Lemma frames_store {A} `{HeapObj A} p (a : A) :
  outside p -> Forall outside (held (to_obj a)) -> frames any (store p a).
Proof.
  intros Hp Ha. apply (frames_bind any); [apply frames_load|]. intros _ _ w u w' Hw [= _ <-].
  split; [|done]. eapply (guarded_insert w); [done..|reflexivity|cbn; lia].
Qed.

Lemma frames_free {A} `{HeapObj A} p : outside p -> frames any (free (A := A) (Some p)).
Proof.
  intros Hp. apply (frames_bind any); [apply frames_load|]. intros _ _ w u w' [K B S] [= _ <-].
  unfold outside in *. split; [split|done]; cbn.
  - intros b ob Hb. rewrite lookup_delete_ne by congruence. by apply K.
  - done.
  - intros s se Hs [_ Hl]%lookup_delete_Some. by eapply S.
Qed.

(** ** The operations of a run *)

Hint Resolve frames_get frames_may_throw frames_noexcept_alloc frames_load : frames.
Hint Extern 1 (frames _ (modify _)) => apply frames_modify; done : frames.
Hint Extern 1 (frames _ (mret _)) => apply frames_ret; done : frames.
Hint Extern 1 (frames _ undefined) => apply frames_undefined : frames.

Ltac frame :=
  repeat first
    [ progress eauto with frames
    | match goal with
      | |- frames _ (_ ≫= _) => apply (frames_bind any); [|intros ? _]
      | |- frames _ (match ?x with _ => _ end) => destruct x
      | |- frames _ (let '_ := ?x in _) => destruct x
      | |- frames _ (store _ _) => apply frames_store; [|constructor]
      end ].

Lemma frames_emit e : frames any (emit e).
Proof. unfold emit. frame. Qed.
Hint Resolve frames_emit : frames.

Lemma frames_log c level msg : frames any (safe_emit_log c level msg).
Proof. unfold safe_emit_log. frame. Qed.
Hint Resolve frames_log : frames.

Lemma frames_diag_event c sev msg : frames any (diag_callback_event c sev msg).
Proof. unfold diag_callback_event. frame. Qed.
Hint Resolve frames_diag_event : frames.

Lemma frames_count_severity ds sev n : frames any (count_severity ds sev n).
Proof. revert n. induction ds as [|d ds IH]; intros n; cbn; frame. Qed.
Hint Resolve frames_count_severity : frames.

Lemma frames_count s sev : frames any (count_diagnostics_with_severity s sev).
Proof. unfold count_diagnostics_with_severity. frame. Qed.
Hint Resolve frames_count : frames.

Lemma frames_write_file path bytes : frames any (write_output_file path bytes).
Proof. unfold write_output_file. frame. Qed.
Hint Resolve frames_write_file : frames.

Lemma frames_emit_output ctx bytes : frames any (api_format_emit_output ctx bytes).
Proof. unfold api_format_emit_output. frame. Qed.
Hint Resolve frames_emit_output : frames.

Lemma frames_add_diagnostic p sev msg file line col :
  outside p -> frames any (add_diagnostic (Some p) sev msg file line col).
Proof.
  intros Hp. unfold add_diagnostic. destruct msg; [|frame]. destruct (negb _); [frame|].
  apply (frames_bind any); [frame|]. intros [t|] _; [frame|].
  apply (frames_bind outside); [by apply frames_alloc|]. intros d Hd.
  eapply frames_bind; [by apply frames_load_session|]. intros se Hse.
  apply (frames_bind any); [|intros; frame]. apply frames_store; [done|]. cbn.
  apply Forall_app. by split; [|constructor].
Qed.

Lemma frames_free_diagnostics ds : Forall outside ds -> frames any (free_diagnostics ds).
Proof.
  induction 1 as [|d ds Hd _ IH]; [by apply frames_ret|].
  apply (frames_bind any); [by apply frames_free|by intros ? _].
Qed.

Lemma frames_clear p : outside p -> frames any (clear_diagnostics (Some p)).
Proof.
  intros Hp. eapply frames_bind; [by apply frames_load_session|]. intros se Hse.
  apply (frames_bind any); [by apply frames_free_diagnostics|]. intros ? _.
  by apply frames_store; [|constructor].
Qed.

Lemma frames_destroy p : outside p -> frames any (olnk_session_destroy (Some p)).
Proof.
  intros Hp. apply (frames_bind any); [by apply frames_clear|]. intros ? _. by apply frames_free.
Qed.

(** ** The serializer *)

Lemma frames_builtin_serialize i ctx iv out :
  fc_host ctx = Some api_format_host -> frames any (builtin_serialize (Some i) (Some ctx) iv out).
Proof.
  intros Hh. unfold builtin_serialize, context_emit_output. rewrite Hh.
  cbn [fh_emit_output api_format_host]. frame.
Qed.

Lemma frames_with_instance i ctx iv out :
  fc_host ctx = Some api_format_host -> outside i ->
  frames any (run_with_instance g_builtin_format_vtable (Some i) (Some ctx) iv out).
Proof.
  intros Hh Hi.
  assert (forall r : olnk_status * option olnk_format_output_info,
    frames any (_ ← call_destroy g_builtin_format_vtable (Some i); mret r)) as Hd.
  { intros r. apply (frames_bind any); [|intros; frame].
    exact (frames_free (A := BuiltinFormatInstance) i Hi). }
  unfold run_with_instance. cbn [fv_apply_defaults fv_validate_config fv_serialize g_builtin_format_vtable].
  apply (frames_bind any); [frame|]. intros ds _. destruct (_ && _); [apply Hd|].
  apply (frames_bind any); [by apply frames_ret|]. intros vs _. destruct (negb _); [apply Hd|].
  apply (frames_bind any); [by apply frames_builtin_serialize|]. intros r _. apply Hd.
Qed.

Lemma frames_format_serializer def ctx iv out :
  fc_host ctx = Some api_format_host ->
  frames any (run_format_serializer (Some (builtin_format_def def)) (Some ctx) iv out).
Proof.
  intros Hh. unfold run_format_serializer. destruct (initialize_output_info out); [|frame].
  destruct (negb iv); [frame|]. destruct (negb _); [frame|].
  unfold builtin_format_def. cbn [fmd_vtable fmd_descriptor]. destruct (fdef_vtable def); [|frame].
  cbn [fv_create g_builtin_format_vtable].
  apply (frames_bind (fun r => forall i, snd r = Some i -> outside i)).
  - unfold builtin_create. destruct (fdef_descriptor def); [|by apply frames_ret]. cbn [negb].
    apply (frames_bind any); [frame|]. intros [[]|] _; [by apply frames_ret..|].
    apply (frames_bind outside); [by apply frames_alloc|]. intros p Hp.
    apply frames_ret. by intros i [= <-].
  - intros [st [i|]] Hi; (destruct (negb _); [frame|]); [|frame].
    apply frames_with_instance; [done|]. by apply Hi.
Qed.

(** ** The session run *)

Section Run.
Variable lua_formats : option (list (option lua_format_spec)).
Variable lua_machines : option (list (option lua_machine_spec)).
Context (p r : positive) (Hp : outside p) (Hr : outside r).

Lemma frames_find_machine name : frames any (find_machine lua_machines name).
Proof. unfold find_machine. frame. Qed.
Hint Resolve frames_find_machine : frames.

Lemma frames_run_serializer ctx def : frames any (run_serializer p r ctx def).
Proof using Hr.
  unfold run_serializer. apply (frames_bind any); [by apply frames_format_serializer|].
  intros [st out] _. frame.
Qed.
Hint Resolve frames_run_serializer : frames.

Lemma frames_run_diagnostic msg k : frames any k -> frames any (run_diagnostic p msg k).
Proof using Hp.
  intros Hk. apply (frames_bind any); [by apply frames_add_diagnostic|]. intros st _. frame.
Qed.
Hint Resolve frames_run_diagnostic : frames.

Lemma frames_run_diagnostic_concat pre name k :
  frames any k -> frames any (run_diagnostic_concat p pre name k).
Proof using Hp. intros Hk. unfold run_diagnostic_concat. frame. Qed.
Hint Resolve frames_run_diagnostic_concat : frames.

Lemma frames_run_machine ctx cfg def st :
  frames any (run_machine lua_machines p r ctx cfg def st).
Proof using Hp Hr. unfold run_machine. frame. Qed.
Hint Resolve frames_run_machine : frames.

Lemma frames_run_try ctx cfg : frames any (run_try lua_formats lua_machines p r ctx cfg).
Proof using Hp Hr. unfold run_try. frame. Qed.
Hint Resolve frames_run_try : frames.

Lemma frames_run_body : frames any (run_body lua_formats lua_machines p r).
Proof using Hp Hr. unfold run_body. frame. Qed.

Lemma frames_populate st ns :
  frames any (populate_result_from_session (Some r) (Some p) st ns).
Proof using Hr. unfold populate_result_from_session. frame. Qed.

Lemma frames_finish st : frames any (finish_output_size p r st).
Proof using Hr. unfold finish_output_size, file_size_or_zero. frame. Qed.
End Run.

Section Link.
Variable lua_formats : option (list (option lua_format_spec)).
Variable lua_machines : option (list (option lua_machine_spec)).

Lemma frames_session_run p out :
  outside p -> frames any (olnk_session_run lua_formats lua_machines (Some p) out).
Proof.
  intros Hp. unfold olnk_session_run. destruct (negb out); [frame|].
  apply (frames_bind any); [by apply frames_clear|]. intros ? _.
  apply (frames_bind any); [frame|]. intros se _. apply (frames_bind any); [frame|]. intros ? _.
  apply (frames_bind (fun res => forall r, res = Some r -> outside r)).
  { apply (frames_bind any); [frame|]. intros [t|] _; [by apply frames_ret|].
    apply (frames_bind outside); [by apply frames_alloc|]. intros r Hr.
    apply frames_ret. by intros ? [= <-]. }
  intros [r|] Hr; [|frame]. specialize (Hr r eq_refl).
  apply (frames_bind any); [by apply frames_run_body|]. intros [st|st] _.
  - apply (frames_bind any); [by apply frames_free|intros; frame].
  - apply (frames_bind any); [by apply frames_populate|]. intros ? _.
    apply (frames_bind any); [by apply frames_finish|]. intros ? _. frame.
Qed.

Lemma frames_session_create c g :
  frames (fun res => forall s, res = Some s -> outside s) (olnk_session_create c g).
Proof.
  unfold olnk_session_create. destruct c as [c|]; [|by apply frames_ret].
  destruct g as [g|]; [|by apply frames_ret].
  apply (frames_bind any); [frame|]. intros [t|] _; [by apply frames_ret|].
  apply (frames_bind outside); [by apply frames_alloc|]. intros s Hs.
  apply (frames_bind any); [frame|]. intros cfg _. apply (frames_bind any); [frame|]. intros [t|] _;
    (apply (frames_bind any); [by apply frames_store; [|constructor]|]; intros ? _).
  - by apply frames_ret.
  - apply (frames_bind any); [frame|]. intros ? _. apply frames_ret. by intros ? [= <-].
Qed.

Lemma frames_link c g out : frames any (olnk_link lua_formats lua_machines c g out).
Proof.
  unfold olnk_link. destruct c as [c|]; [|frame]. destruct g as [g|]; [|frame].
  destruct (negb out); [frame|]. eapply frames_bind; [apply frames_session_create|].
  intros [s|] Hs; [|frame]. specialize (Hs s eq_refl).
  apply (frames_bind any); [by apply frames_session_run|]. intros [st res] _.
  apply (frames_bind any); [by apply frames_destroy|intros; frame].
Qed.
End Link.
End Frame.

(** Everything that was in the heap is left as it was. *)
Lemma link_untouched lua_formats lua_machines c g out w res w' :
  (forall a o, w_heap w !! a = Some o -> (a < w_next w)%positive) ->
  olnk_link lua_formats lua_machines c g out w = Ret (res, w') -> w_heap w ⊆ w_heap w'.
Proof.
  intros Hw E. apply map_subseteq_spec.
  apply (gd_kept (w_heap w)), (frames_link (w_heap w) lua_formats lua_machines c g out w res w'); [|done].
  split; [done|done|]. intros s se Hs Hl. unfold outside in Hs. congruence.
Qed.
