(* ===== verification/ApiSafe.v ===== *)
(** * Memory safety of the public API

    The invariant of the object heap - every session owns its diagnostics
    exclusively and its context is alive - and the proof that every API call
    on live handles is defined and preserves it, whatever exceptions the
    allocations throw. *)

From S2P Require Import Prelude Abi Machine Format World FormatRun Api ApiFrame.

(** ** The heap invariant *)

(** Addresses, ownership of diagnostics, and contexts. *)

Record heap_core (h : gmap positive obj) (n : positive) : Prop := {
  hi_fresh : forall a o, h !! a = Some o -> (a < n)%positive;
  hi_diags : forall s se, h !! s = Some (OSession se) ->
    NoDup (se_diagnostics se) /\
    forall d, d ∈ se_diagnostics se -> exists x, h !! d = Some (ODiagnostic x);
  hi_ctx : forall s se c, h !! s = Some (OSession se) -> se_context se = Some c ->
    exists cx, h !! c = Some (OContext cx);
  hi_disj : forall s1 s2 se1 se2 d,
    h !! s1 = Some (OSession se1) -> h !! s2 = Some (OSession se2) ->
    d ∈ se_diagnostics se1 -> d ∈ se_diagnostics se2 -> s1 = s2 }.

Definition owned (h : gmap positive obj) : Prop :=
  forall d x, h !! d = Some (ODiagnostic x) ->
    exists s se, h !! s = Some (OSession se) /\ d ∈ se_diagnostics se.

(** Besides, every diagnostic belongs to a session: none is leaked. *)
Record heap_inv (h : gmap positive obj) (n : positive) : Prop := {
  hi_core : heap_core h n;
  hi_owned : owned h }.

Abbreviation world_inv w := (heap_inv (w_heap w) (w_next w)).

(** The part of an object other handles rely on. *)
Definition same_obj (o o' : obj) : Prop :=
  match o, o' with
  | OContext _, OContext _ | OConfig _, OConfig _ | OResult _, OResult _
  | OFormatInstance _, OFormatInstance _ | ODiagnostic _, ODiagnostic _
  | OStub _, OStub _ | OReport _, OReport _ => True
  | OSession s, OSession s' =>
      se_context s' = se_context s /\ se_snapshot_config s' = se_snapshot_config s
  | _, _ => False
  end.

Definition is_diag (o : obj) : bool := match o with ODiagnostic _ => true | _ => false end.
Definition is_session (o : obj) : bool := match o with OSession _ => true | _ => false end.

(** Objects that are not diagnostics survive with their type. *)
Definition keeps (h h' : gmap positive obj) : Prop :=
  forall a o, h !! a = Some o -> is_diag o = false ->
    exists o', h' !! a = Some o' /\ same_obj o o'.

Lemma same_obj_refl o : same_obj o o.
Proof. by destruct o. Qed.

Lemma same_obj_trans o1 o2 o3 : same_obj o1 o2 -> same_obj o2 o3 -> same_obj o1 o3.
Proof.
  destruct o1, o2, o3; cbn; try tauto. intros [H1 H2] [H3 H4]. split; congruence.
Qed.

#[export] Instance keeps_preorder : PreOrder keeps.
Proof.
  split.
  - intros h a o Ho _. exists o. split; [done|apply same_obj_refl].
  - intros h1 h2 h3 H12 H23 a o Ho Hd.
    destruct (H12 a o Ho Hd) as (o2 & Ho2 & Hs2).
    destruct (H23 a o2 Ho2) as (o3 & Ho3 & Hs3); [by destruct o, o2|].
    exists o3. split; [done|by eapply same_obj_trans].
Qed.

Lemma keeps_session h h' p se :
  keeps h h' -> h !! p = Some (OSession se) ->
  exists se', h' !! p = Some (OSession se') /\ se_context se' = se_context se /\
    se_snapshot_config se' = se_snapshot_config se.
Proof. intros Hk Hp. destruct (Hk p _ Hp eq_refl) as ([] & Ho & Hs); naive_solver. Qed.

Lemma keeps_result h h' p x :
  keeps h h' -> h !! p = Some (OResult x) -> exists x', h' !! p = Some (OResult x').
Proof. intros Hk Hp. destruct (Hk p _ Hp eq_refl) as ([] & Ho & Hs); naive_solver. Qed.

Lemma keeps_instance h h' p x :
  keeps h h' -> h !! p = Some (OFormatInstance x) ->
  exists x', h' !! p = Some (OFormatInstance x').
Proof. intros Hk Hp. destruct (Hk p _ Hp eq_refl) as ([] & Ho & Hs); naive_solver. Qed.

Lemma keeps_insert h a o o' :
  h !! a = Some o -> same_obj o o' -> keeps h (<[a := o']> h).
Proof.
  intros Ha Hs b ob Hb _. destruct (decide (b = a)) as [->|].
  - exists o'. rewrite lookup_insert_eq. split; [done|]. congruence.
  - exists ob. rewrite lookup_insert_ne by done. split; [done|apply same_obj_refl].
Qed.

Lemma keeps_alloc h a o : h !! a = None -> keeps h (<[a := o]> h).
Proof.
  intros Ha b ob Hb _. exists ob. rewrite lookup_insert_ne by congruence.
  split; [done|apply same_obj_refl].
Qed.

(** ** Heap updates that preserve the invariant *)

Lemma core_fresh_none h n : heap_core h n -> h !! n = None.
Proof.
  intros Hi. destruct (h !! n) eqn:Hn; [|done]. apply (hi_fresh _ _ Hi) in Hn. lia.
Qed.

(** An insertion of anything but a session, which does not hide a diagnostic
    or a context behind an object of another type. *)
Lemma core_insert h n n' a o :
  heap_core h n -> (n <= n')%positive -> (a < n')%positive -> is_session o = false ->
  match h !! a with Some o0 => same_obj o0 o | None => True end ->
  heap_core (<[a := o]> h) n'.
Proof.
  intros Hi Hn Ha Ho Hsame.
  assert (forall s se, <[a := o]> h !! s = Some (OSession se) -> h !! s = Some (OSession se))
    as Hback.
  { intros s se. rewrite lookup_insert_Some. intros [[-> ->]|[_ H]]; done. }
  assert (forall b x, h !! b = Some x -> exists x', <[a := o]> h !! b = Some x' /\ same_obj x x')
    as Hfwd.
  { intros b x Hb. destruct (decide (a = b)) as [<-|].
    - exists o. rewrite lookup_insert_eq. rewrite Hb in Hsame. done.
    - exists x. rewrite lookup_insert_ne by done. split; [done|apply same_obj_refl]. }
  split.
  - intros b ob. rewrite lookup_insert_Some. intros [[<- _]|[_ H]]; [done|].
    apply (hi_fresh _ _ Hi) in H. lia.
  - intros s se Hs%Hback. destruct (hi_diags _ _ Hi s se Hs) as [Hnd Hd]. split; [done|].
    intros d Hin. destruct (Hd d Hin) as [x Hx].
    destruct (Hfwd d _ Hx) as ([] & Hd' & Hsm); try done. eauto.
  - intros s se c Hs%Hback Hc. destruct (hi_ctx _ _ Hi s se c Hs Hc) as [x Hx].
    destruct (Hfwd c _ Hx) as ([] & Hd' & Hsm); try done. eauto.
  - intros s1 s2 se1 se2 d H1%Hback H2%Hback. by apply (hi_disj _ _ Hi).
Qed.

Lemma core_alloc h n o :
  heap_core h n -> is_session o = false -> heap_core (<[n := o]> h) (Pos.succ n).
Proof.
  intros Hi Ho. apply (core_insert h n); [done|lia|lia|done|]. by rewrite (core_fresh_none h n).
Qed.

Lemma core_update h n a o o' :
  heap_core h n -> h !! a = Some o -> same_obj o o' -> is_session o = false ->
  heap_core (<[a := o']> h) n.
Proof.
  intros Hi Ha Hs Ho. apply (core_insert h n); [done|lia| | |by rewrite Ha].
  - by apply (hi_fresh _ _ Hi a o).
  - by destruct o, o'.
Qed.

(** A deletion of an object no session depends on. *)
Lemma core_delete h n a :
  heap_core h n ->
  (forall s se, h !! s = Some (OSession se) -> s <> a ->
     a ∉ se_diagnostics se /\ se_context se <> Some a) ->
  heap_core (delete a h) n.
Proof.
  intros Hi Hfree.
  assert (forall s se, delete a h !! s = Some (OSession se) ->
    h !! s = Some (OSession se) /\ a ∉ se_diagnostics se /\ se_context se <> Some a) as Hback.
  { intros s se [Hne Hs]%lookup_delete_Some. split; [done|]. apply (Hfree s); [done|congruence]. }
  split.
  - intros b ob [_ H]%lookup_delete_Some. by apply (hi_fresh _ _ Hi b ob).
  - intros s se (Hs & Hna & _)%Hback. destruct (hi_diags _ _ Hi s se Hs) as [Hnd Hd].
    split; [done|]. intros d Hin. destruct (Hd d Hin) as [x Hx]. exists x.
    rewrite lookup_delete_ne; [done|]. intros ->. done.
  - intros s se c (Hs & _ & Hnc)%Hback Hc. destruct (hi_ctx _ _ Hi s se c Hs Hc) as [x Hx].
    exists x. rewrite lookup_delete_ne; [done|]. congruence.
  - intros s1 s2 se1 se2 d (H1 & _)%Hback (H2 & _)%Hback. by apply (hi_disj _ _ Hi).
Qed.

(** Objects of these types are never owned by a session. *)
Definition standalone (o : obj) : bool :=
  match o with
  | OConfig _ | OResult _ | OFormatInstance _ | OStub _ | OReport _ => true
  | _ => false
  end.

Lemma core_delete_standalone h n a o :
  heap_core h n -> h !! a = Some o -> standalone o = true -> heap_core (delete a h) n.
Proof.
  intros Hi Ha Ho. apply core_delete; [done|]. intros s se Hs _. split.
  - intros Hin. destruct (hi_diags _ _ Hi s se Hs) as [_ Hd].
    destruct (Hd a Hin) as [x Hx]. rewrite Ha in Hx. by simplify_eq.
  - intros Hc. destruct (hi_ctx _ _ Hi s se a Hs Hc) as [x Hx]. rewrite Ha in Hx.
    by simplify_eq.
Qed.

(** A session that keeps its context and gets a list of live diagnostics no
    other session owns. *)
Lemma core_session_update h n p se se' :
  heap_core h n -> h !! p = Some (OSession se) -> se_context se' = se_context se ->
  NoDup (se_diagnostics se') ->
  (forall d, d ∈ se_diagnostics se' -> exists x, h !! d = Some (ODiagnostic x)) ->
  (forall d s s', d ∈ se_diagnostics se' -> h !! s = Some (OSession s') -> s <> p ->
     d ∉ se_diagnostics s') ->
  heap_core (<[p := OSession se']> h) n.
Proof.
  intros Hi Hp Hctx Hnd Hlive Hothers.
  assert (forall b, (forall se, h !! b <> Some (OSession se)) ->
    <[p := OSession se']> h !! b = h !! b) as Hne.
  { intros b Hb. apply lookup_insert_ne. intros ->. by apply (Hb se). }
  split.
  - intros b ob. rewrite lookup_insert_Some. intros [[<- _]|[_ H]];
      by eapply (hi_fresh _ _ Hi).
  - intros s s'. rewrite lookup_insert_Some. intros [[<- [= <-]]|[_ Hs]].
    + split; [done|]. intros d Hd. destruct (Hlive d Hd) as [x Hx]. exists x.
      rewrite Hne; [done|congruence].
    + destruct (hi_diags _ _ Hi s s' Hs) as [H1 H2]. split; [done|].
      intros d Hd. destruct (H2 d Hd) as [x Hx]. exists x. rewrite Hne; [done|congruence].
  - intros s s' c. rewrite lookup_insert_Some. intros Hs Hc.
    assert (exists cx, h !! c = Some (OContext cx)) as [cx Hcx].
    { destruct Hs as [[<- [= <-]]|[_ Hs]]; [|by apply (hi_ctx _ _ Hi s s')].
      apply (hi_ctx _ _ Hi p se); [done|congruence]. }
    exists cx. rewrite Hne; [done|congruence].
  - intros s1 s2 se1 se2 d. rewrite !lookup_insert_Some.
    intros [[<- [= <-]]|[Hn1 H1]] [[<- [= <-]]|[Hn2 H2]] Hd1 Hd2; [done|exfalso|exfalso|].
    + by apply (Hothers d s2 se2).
    + by apply (Hothers d s1 se1).
    + by apply (hi_disj _ _ Hi s1 s2 se1 se2 d).
Qed.

Fixpoint delete_all (ds : list positive) (h : gmap positive obj) : gmap positive obj :=
  match ds with [] => h | d :: ds => delete_all ds (delete d h) end.

Lemma lookup_delete_all ds h a :
  delete_all ds h !! a = if bool_decide (a ∈ ds) then None else h !! a.
Proof.
  revert h. induction ds as [|d ds IH]; intros h; [done|]. cbn. rewrite IH.
  destruct (decide (a = d)) as [->|Hne].
  - rewrite lookup_delete_eq. rewrite (bool_decide_eq_true_2 (d ∈ d :: ds)) by left.
    by destruct (bool_decide _).
  - rewrite lookup_delete_ne by done. erewrite bool_decide_ext; [reflexivity|].
    rewrite elem_of_cons. naive_solver.
Qed.

Lemma delete_all_insert ds h p o :
  p ∉ ds -> delete_all ds (<[p := o]> h) = <[p := o]> (delete_all ds h).
Proof.
  intros Hp. apply map_eq. intros a. rewrite lookup_delete_all.
  destruct (decide (a = p)) as [->|].
  - by rewrite bool_decide_eq_false_2, !lookup_insert_eq.
  - by rewrite !lookup_insert_ne, lookup_delete_all.
Qed.

Lemma core_delete_all ds h n :
  heap_core h n ->
  (forall d s se, d ∈ ds -> h !! s = Some (OSession se) -> s <> d ->
     d ∉ se_diagnostics se /\ se_context se <> Some d) ->
  heap_core (delete_all ds h) n.
Proof.
  revert h. induction ds as [|d ds IH]; intros h Hi Hds; [done|]. cbn. apply IH.
  - apply core_delete; [done|]. intros s se Hs Hne. apply (Hds d s); [left|done..].
  - intros e s se He [_ Hs]%lookup_delete_Some Hne. apply (Hds e s); [by right|done..].
Qed.

Lemma free_diagnostics_run ds w :
  NoDup ds -> (forall d, d ∈ ds -> exists x, w_heap w !! d = Some (ODiagnostic x)) ->
  free_diagnostics ds w = Ret (tt, with_heap (delete_all ds (w_heap w)) w).
Proof.
  revert w. induction ds as [|d ds IH]; intros w Hnd Hlive; [by destruct w|].
  apply NoDup_cons in Hnd as [Hd Hnd].
  destruct (Hlive d ltac:(left)) as [x Hx].
  change (free_diagnostics (d :: ds)) with
    (_ ← free (A := DiagnosticStorage) (Some d); free_diagnostics ds).
  assert (free (A := DiagnosticStorage) (Some d) w
          = Ret (tt, with_heap (delete d (w_heap w)) w)) as Hf.
  { unfold free, mbind, M_bind, load. rewrite Hx. reflexivity. }
  unfold mbind, M_bind. rewrite Hf. rewrite IH; [done|done|].
  intros e He. destruct (Hlive e) as [y Hy]; [by right|]. exists y. cbn.
  rewrite lookup_delete_ne; [done|]. by intros ->.
Qed.

Lemma core_clear h n p se :
  heap_core h n -> h !! p = Some (OSession se) ->
  heap_core (<[p := OSession (session_with_diagnostics se [])]>
              (delete_all (se_diagnostics se) h)) n.
Proof.
  intros Hi Hp. destruct (hi_diags _ _ Hi p se Hp) as [Hnd Hlive].
  rewrite <- delete_all_insert.
  2: { intros Hin. destruct (Hlive p Hin) as [x Hx]. congruence. }
  apply core_delete_all.
  - apply (core_session_update h n p se); try done; [constructor|by intros ? ?%elem_of_nil|].
    by intros ? ? ? ?%elem_of_nil.
  - intros d s s' Hd. destruct (Hlive d Hd) as [x Hx].
    rewrite lookup_insert_Some. intros [[<- [= <-]]|[Hne Hs]] _; cbn; split.
    + apply not_elem_of_nil.
    + intros Hc. destruct (hi_ctx _ _ Hi p se d Hp Hc). congruence.
    + intros Hin. apply Hne. by apply (hi_disj _ _ Hi p s se s' d).
    + intros Hc. destruct (hi_ctx _ _ Hi s s' d Hs Hc). congruence.
Qed.

Lemma core_add_diagnostic h n p se x :
  heap_core h n -> h !! p = Some (OSession se) ->
  heap_core (<[p := OSession (session_with_diagnostics se (se_diagnostics se ++ [n]))]>
              (<[n := ODiagnostic x]> h)) (Pos.succ n).
Proof.
  intros Hi Hp. pose proof (core_fresh_none h n Hi) as Hn.
  destruct (hi_diags _ _ Hi p se Hp) as [Hnd Hlive].
  assert (n ∉ se_diagnostics se) as Hnotin.
  { intros Hin. destruct (Hlive n Hin). congruence. }
  apply (core_session_update _ _ p se); [by apply core_alloc| |done| | |]; cbn.
  - rewrite lookup_insert_ne; [done|congruence].
  - apply NoDup_app. split_and!; [done|by intros d Hd ->%list_elem_of_singleton|].
    apply NoDup_singleton.
  - intros d [Hd| ->%list_elem_of_singleton]%elem_of_app.
    + destruct (Hlive d Hd) as [y Hy]. exists y. rewrite lookup_insert_ne; [done|congruence].
    + exists x. apply lookup_insert_eq.
  - intros d s s' Hd. rewrite lookup_insert_Some. intros [[_ ?]|[_ Hs]] Hne Hin; [done|].
    apply elem_of_app in Hd as [Hd| ->%list_elem_of_singleton].
    + apply Hne. by apply (hi_disj _ _ Hi s p s' se d).
    + destruct (hi_diags _ _ Hi s s' Hs) as [_ Hl]. destruct (Hl n Hin). congruence.
Qed.

(** ** The whole invariant *)

Lemma fresh_none h n : heap_inv h n -> h !! n = None.
Proof. intros [Hi _]. by apply core_fresh_none. Qed.

(** Ownership survives when diagnostics are not made and their owners stay. *)
Lemma owned_keep h h' :
  owned h ->
  (forall d x, h' !! d = Some (ODiagnostic x) -> exists x', h !! d = Some (ODiagnostic x')) ->
  (forall s se d, h !! s = Some (OSession se) -> d ∈ se_diagnostics se ->
     (exists x, h' !! d = Some (ODiagnostic x)) ->
     exists se', h' !! s = Some (OSession se') /\ d ∈ se_diagnostics se') ->
  owned h'.
Proof.
  intros Ho Hback Hfwd d x Hd. destruct (Hback d x Hd) as [x' Hx'].
  destruct (Ho d x' Hx') as (s & se & Hs & Hin).
  destruct (Hfwd s se d Hs Hin) as (se' & Hs' & Hin'); [by exists x|]. by exists s, se'.
Qed.

(** Insertion of an object that is neither session nor diagnostic. *)
Lemma owned_insert h a o :
  owned h -> is_session o = false -> is_diag o = false ->
  match h !! a with Some o0 => same_obj o0 o | None => True end ->
  owned (<[a := o]> h).
Proof.
  intros Ho Hs Hd Hsame. apply (owned_keep h); [done|..].
  - intros d x. rewrite lookup_insert_Some. intros [[-> ->]|[_ H]]; [done|eauto].
  - intros s se d Hse Hin _. exists se. rewrite lookup_insert_ne; [done|].
    intros ->. rewrite Hse in Hsame. by destruct o.
Qed.

Lemma inv_alloc h n o :
  heap_inv h n -> is_session o = false -> is_diag o = false ->
  heap_inv (<[n := o]> h) (Pos.succ n).
Proof.
  intros Hi Hs Hd. pose proof (fresh_none h n Hi) as Hn. destruct Hi as [Hc Ho]. split.
  - by apply core_alloc.
  - apply owned_insert; [done..|]. by rewrite Hn.
Qed.

Lemma inv_update h n a o o' :
  heap_inv h n -> h !! a = Some o -> same_obj o o' -> is_session o = false ->
  is_diag o = false -> heap_inv (<[a := o']> h) n.
Proof.
  intros [Hc Ho] Ha Hs Hno Hd. split; [by eapply core_update|].
  apply owned_insert; [done|by destruct o, o'|by destruct o, o'|by rewrite Ha].
Qed.

(** Deletion of an object that owns nothing and is owned by nobody. *)
Lemma owned_delete h a :
  owned h -> (forall se, h !! a = Some (OSession se) -> se_diagnostics se = []) ->
  owned (delete a h).
Proof.
  intros Ho Ha. apply (owned_keep h); [done|..].
  - intros d x [_ H]%lookup_delete_Some. eauto.
  - intros s se d Hs Hin _. exists se. split; [|done]. apply lookup_delete_Some.
    split; [|done]. intros ->. rewrite (Ha se Hs) in Hin. by apply elem_of_nil in Hin.
Qed.

Lemma inv_delete_standalone h n a o :
  heap_inv h n -> h !! a = Some o -> standalone o = true -> heap_inv (delete a h) n.
Proof.
  intros [Hc Ho] Ha Hs. split; [by eapply core_delete_standalone|].
  apply owned_delete; [done|]. intros se Hse. rewrite Ha in Hse. by simplify_eq.
Qed.

(** A context can go when no session refers to it. *)
Lemma inv_delete_context h n a cx :
  heap_inv h n -> h !! a = Some (OContext cx) ->
  (forall s se, h !! s = Some (OSession se) -> se_context se <> Some a) ->
  heap_inv (delete a h) n.
Proof.
  intros [Hc Ho] Ha Href. split.
  - apply core_delete; [done|]. intros s se Hs _. split; [|by eapply Href].
    intros Hin. destruct (hi_diags _ _ Hc s se Hs) as [_ Hl]. destruct (Hl a Hin). congruence.
  - apply owned_delete; [done|]. congruence.
Qed.

(** A session can go when it owns nothing any more. *)
Lemma inv_delete_session h n p se :
  heap_inv h n -> h !! p = Some (OSession se) -> se_diagnostics se = [] ->
  heap_inv (delete p h) n.
Proof.
  intros [Hc Ho] Hp Hnil. split.
  - apply core_delete; [done|]. intros s s' Hs Hne. split.
    + intros Hin. destruct (hi_diags _ _ Hc s s' Hs) as [_ Hl]. destruct (Hl p Hin). congruence.
    + intros Hctx. destruct (hi_ctx _ _ Hc s s' p Hs Hctx). congruence.
  - apply owned_delete; [done|]. congruence.
Qed.

Lemma inv_clear h n p se :
  heap_inv h n -> h !! p = Some (OSession se) ->
  heap_inv (<[p := OSession (session_with_diagnostics se [])]>
              (delete_all (se_diagnostics se) h)) n.
Proof.
  intros [Hc Ho] Hp. split; [by apply core_clear|].
  apply (owned_keep h); [done|..].
  - intros d x. rewrite lookup_insert_Some, lookup_delete_all.
    intros [[_ ?]|[_ H]]; [done|]. case_bool_decide; [done|eauto].
  - intros s s' d Hs Hin (x & Hx). apply lookup_insert_Some in Hx as [[_ ?]|[Hpd Hx]]; [done|].
    rewrite lookup_delete_all in Hx. case_bool_decide as Hd; [done|].
    exists s'. split; [|done]. apply lookup_insert_Some. right.
    assert (p <> s) as Hps by (intros ->; congruence). split; [done|].
    rewrite lookup_delete_all, bool_decide_eq_false_2; [done|].
    intros Hins. destruct (hi_diags _ _ Hc p se Hp) as [_ Hl]. destruct (Hl s Hins). congruence.
Qed.

Lemma inv_add_diagnostic h n p se x :
  heap_inv h n -> h !! p = Some (OSession se) ->
  heap_inv (<[p := OSession (session_with_diagnostics se (se_diagnostics se ++ [n]))]>
              (<[n := ODiagnostic x]> h)) (Pos.succ n).
Proof.
  intros Hi Hp. pose proof (fresh_none h n Hi) as Hn. destruct Hi as [Hc Ho].
  split; [by apply core_add_diagnostic|].
  intros d y. rewrite !lookup_insert_Some. intros [[_ ?]|[Hpd [[<- _]|[Hnd Hd]]]]; [done| |].
  - eexists p, _. rewrite lookup_insert_eq. split; [done|]. cbn. apply elem_of_app. right. left.
  - destruct (Ho d y Hd) as (s & s' & Hs & Hin). destruct (decide (s = p)) as [->|Hsp].
    + eexists p, _. rewrite lookup_insert_eq. split; [done|]. cbn. apply elem_of_app. left.
      congruence.
    + exists s, s'. rewrite lookup_insert_ne by done. rewrite lookup_insert_ne by congruence. done.
Qed.

(** A fresh session on a live context. *)
Lemma inv_alloc_session h n se :
  heap_inv h n -> se_diagnostics se = [] ->
  (forall c, se_context se = Some c -> exists cx, h !! c = Some (OContext cx)) ->
  heap_inv (<[n := OSession se]> h) (Pos.succ n).
Proof.
  intros Hi Hnil Hctx. pose proof (fresh_none h n Hi) as Hn. destruct Hi as [Hc Ho].
  assert (forall b o, h !! b = Some o -> <[n := OSession se]> h !! b = Some o) as Hfwd.
  { intros b o Hb. rewrite lookup_insert_ne; [done|congruence]. }
  split; [split|].
  - intros b o. rewrite lookup_insert_Some. intros [[<- _]|[_ H]]; [lia|].
    apply (hi_fresh _ _ Hc) in H. lia.
  - intros s s'. rewrite lookup_insert_Some. intros [[<- [= <-]]|[_ Hs]].
    + rewrite Hnil. split; [constructor|by intros ? ?%elem_of_nil].
    + destruct (hi_diags _ _ Hc s s' Hs) as [H1 H2]. split; [done|].
      intros d Hd. destruct (H2 d Hd) as [x Hx]. eauto.
  - intros s s' c. rewrite lookup_insert_Some. intros [[<- [= <-]]|[_ Hs]] Hcc.
    + destruct (Hctx c Hcc). eauto.
    + destruct (hi_ctx _ _ Hc s s' c Hs Hcc). eauto.
  - intros s1 s2 se1 se2 d. rewrite !lookup_insert_Some.
    intros [[<- [= <-]]|[_ H1]] [[<- [= <-]]|[_ H2]]; rewrite ?Hnil; try (by intros ?%elem_of_nil).
    + by intros _ ?%elem_of_nil.
    + by apply (hi_disj _ _ Hc).
  - apply (owned_keep h); [done|..].
    + intros d x. rewrite lookup_insert_Some. intros [[_ ?]|[_ H]]; [done|eauto].
    + intros s s' d Hs Hin _. exists s'. eauto.
Qed.

(** A session that changes neither context nor diagnostics. *)
Lemma inv_session_same h n p se se' :
  heap_inv h n -> h !! p = Some (OSession se) -> se_context se' = se_context se ->
  se_diagnostics se' = se_diagnostics se -> heap_inv (<[p := OSession se']> h) n.
Proof.
  intros [Hc Ho] Hp Hctx Hds. destruct (hi_diags _ _ Hc p se Hp) as [Hnd Hl]. split.
  - apply (core_session_update h n p se); rewrite ?Hds; try done.
    intros d s s' Hd Hs Hne Hin. apply Hne. by apply (hi_disj _ _ Hc s p s' se d).
  - apply (owned_keep h); [done|..].
    + intros d x. rewrite lookup_insert_Some. intros [[_ ?]|[_ H]]; [done|eauto].
    + intros s s' d Hs Hin _. destruct (decide (s = p)) as [->|].
      * exists se'. rewrite lookup_insert_eq. split; [done|]. congruence.
      * exists s'. by rewrite lookup_insert_ne.
Qed.

(** Nothing but diagnostics is made. *)
Definition no_new (h h' : gmap positive obj) : Prop :=
  forall a o', h' !! a = Some o' -> is_diag o' = false ->
    exists o, h !! a = Some o /\ is_diag o = false.

#[export] Instance no_new_preorder : PreOrder no_new.
Proof.
  split; [by intros h a o; eauto|]. intros h1 h2 h3 H12 H23 a o Ho Hd.
  destruct (H23 a o Ho Hd) as (o2 & Ho2 & Hd2). by apply (H12 a o2).
Qed.

Lemma no_new_insert h a o o' :
  h !! a = Some o -> is_diag o = false -> no_new h (<[a := o']> h).
Proof.
  intros Ha Hd b ob. rewrite lookup_insert_Some. intros [[<- _]|[_ H]]; eauto.
Qed.

(** ** Safe calls

    From a state with the invariant the call is defined, keeps the invariant
    and every object that is not a diagnostic. *)
Definition safe {A} (m : M A) (w : world) (Q : A -> world -> Prop) : Prop :=
  world_inv w -> wp false m w (fun a w' => world_inv w' /\ keeps (w_heap w) (w_heap w') /\
    no_new (w_heap w) (w_heap w') /\ Q a w').

Lemma safe_ret {A} (a : A) w (Q : A -> world -> Prop) : Q a w -> safe (mret a) w Q.
Proof. intros HQ Hi. apply wp_ret. split_and!; [done|reflexivity..|done]. Qed.

Lemma safe_mono {A} (m : M A) w (P Q : A -> world -> Prop) :
  safe m w P -> (forall a w', P a w' -> Q a w') -> safe m w Q.
Proof. intros Hm HPQ Hi. eapply wp_mono; [by apply Hm|]. naive_solver. Qed.

Lemma safe_bind {A B} (m : M A) (f : A -> M B) w P Q :
  safe m w P ->
  (forall a w', keeps (w_heap w) (w_heap w') -> P a w' -> safe (f a) w' Q) ->
  safe (m ≫= f) w Q.
Proof.
  intros Hm Hf Hi. apply wp_bind. eapply wp_mono; [by apply Hm|].
  intros a w' (Hi' & Hk & Hn & HP). eapply wp_mono; [by apply Hf|].
  intros b w'' (Hi'' & Hk' & Hn' & HQ). split_and!; [done|by etransitivity..|done].
Qed.

(** Steps that leave heap and allocator alone. *)
Lemma safe_heap_eq {A} (m : M A) w (Q : A -> world -> Prop) :
  wp false m w (fun a w' => w_heap w' = w_heap w /\ w_next w' = w_next w /\ Q a w') ->
  safe m w Q.
Proof.
  intros Hm Hi. eapply wp_mono; [done|]. intros a w' (-> & -> & HQ).
  split_and!; [done|reflexivity..|done].
Qed.

Lemma safe_load {A} `{HeapObj A} p a w (Q : A -> world -> Prop) :
  w_heap w !! p = Some (to_obj a) -> Q a w -> safe (load p) w Q.
Proof. intros Hp HQ. apply safe_heap_eq. by eapply wp_load. Qed.

Definition heap_kept (w : world) {A} (_ : A) (w' : world) : Prop := w_heap w' = w_heap w.

Lemma safe_may_throw w : safe may_throw w (heap_kept w).
Proof. apply safe_heap_eq, wp_may_throw. intros t ts. split_and!; reflexivity. Qed.

Lemma safe_store {A} `{HeapObj A} p a0 a w :
  w_heap w !! p = Some (to_obj a0) -> same_obj (to_obj a0) (to_obj a) ->
  is_session (to_obj a0) = false -> is_diag (to_obj a0) = false ->
  safe (store p a) w (fun _ w' => w_heap w' = <[p := to_obj a]> (w_heap w)).
Proof.
  intros Hp Hs Ha Hd Hi. eapply wp_store; [done|]. cbn.
  split_and!; [by eapply inv_update|by eapply keeps_insert|by eapply no_new_insert|done].
Qed.

Definition ctx_live (w : world) (c : option positive) : Prop :=
  match c with None => True | Some c => exists cx, w_heap w !! c = Some (OContext cx) end.

Lemma ctx_live_keeps w w' c : keeps (w_heap w) (w_heap w') -> ctx_live w c -> ctx_live w' c.
Proof.
  destruct c as [c|]; [|done]. intros Hk [cx Hc]. cbn.
  destruct (Hk c _ Hc eq_refl) as ([] & Ho & Hs); try done. eauto.
Qed.

Lemma session_ctx_live w p se :
  world_inv w -> w_heap w !! p = Some (OSession se) -> ctx_live w (se_context se).
Proof.
  intros Hi Hp. destruct (se_context se) eqn:Hc; [|done]. by eapply (hi_ctx _ _ (hi_core _ _ Hi)).
Qed.

Lemma safe_log w c level msg :
  ctx_live w c -> safe (safe_emit_log c level msg) w (heap_kept w).
Proof.
  intros Hc. unfold safe_emit_log. destruct c as [c|], msg as [msg|]; try by apply safe_ret.
  destruct Hc as [cx Hc]. destruct (negb _); [by apply safe_ret|].
  apply safe_heap_eq, wp_bind. eapply wp_load; [done|].
  destruct (_ =? _); [done|]. destruct (_ <? _); [done|].
  by destruct (cx_log_callback cx).
Qed.

Lemma safe_diag_event w c sev msg :
  ctx_live w c -> safe (diag_callback_event c sev msg) w (heap_kept w).
Proof.
  intros Hc. destruct c as [c|]; [|by apply safe_ret]. destruct Hc as [cx Hc].
  apply safe_heap_eq, wp_bind. eapply wp_load; [done|].
  by destruct (cx_diag_callback cx).
Qed.

Lemma safe_clear w p se :
  w_heap w !! p = Some (OSession se) ->
  safe (clear_diagnostics (Some p)) w (fun _ w' =>
    w_heap w' = <[p := OSession (session_with_diagnostics se [])]>
                  (delete_all (se_diagnostics se) (w_heap w))).
Proof.
  intros Hp Hi. destruct (hi_diags _ _ (hi_core _ _ Hi) p se Hp) as [Hnd Hlive].
  apply wp_bind. eapply wp_load; [done|]. apply wp_bind. unfold wp at 1.
  rewrite free_diagnostics_run by done.
  assert (delete_all (se_diagnostics se) (w_heap w) !! p = Some (OSession se)) as Hp'.
  { rewrite lookup_delete_all, bool_decide_eq_false_2; [done|].
    intros Hin. destruct (Hlive p Hin). congruence. }
  eapply wp_store; [done|]. cbn. split_and!; [by apply inv_clear| | |done].
  2: { intros a o. rewrite lookup_insert_Some, lookup_delete_all.
       intros [[<- _]|[_ Ho]]; [by eauto|]. case_bool_decide; [done|eauto]. }
  intros a o Ha Hd. destruct (decide (a = p)) as [->|Hne].
  - eexists. rewrite lookup_insert_eq. split; [done|].
    rewrite Hp in Ha. by injection Ha as <-.
  - exists o. rewrite lookup_insert_ne, lookup_delete_all, bool_decide_eq_false_2; try done.
    + split; [done|apply same_obj_refl].
    + intros Hin. destruct (Hlive a Hin) as [x Hx]. rewrite Ha in Hx. by injection Hx as ->.
Qed.

Lemma safe_add_diagnostic w p se sev msg file line col :
  w_heap w !! p = Some (OSession se) ->
  safe (add_diagnostic (Some p) sev msg file line col) w (fun _ _ => True).
Proof.
  intros Hp. unfold add_diagnostic. destruct msg as [msg|]; [|by apply safe_ret].
  destruct (negb _); [by apply safe_ret|].
  eapply safe_bind; [apply safe_may_throw|].
  intros [t|] w1 _ Hw1; [by apply safe_ret|].
  intros Hi1. rewrite <- Hw1 in Hp. pose proof (fresh_none _ _ Hi1) as Hn.
  apply wp_bind, wp_alloc.
  apply wp_bind. eapply wp_load; [cbn; rewrite lookup_insert_ne by congruence; done|].
  apply wp_bind. eapply wp_store; [cbn; rewrite lookup_insert_ne by congruence; done|].
  cbn [w_next w_heap w_throws w_files w_disk w_events w_machines with_heap].
  set (w2 := with_heap _ _).
  assert (world_inv w2) as Hi2 by by apply inv_add_diagnostic.
  assert (keeps (w_heap w1) (w_heap w2)) as Hk2.
  { etransitivity; [by apply (keeps_alloc _ (w_next w1))|].
    eapply keeps_insert; [rewrite lookup_insert_ne by congruence; exact Hp|done]. }
  assert (no_new (w_heap w1) (w_heap w2)) as Hnn2.
  { intros a o. cbn. rewrite !lookup_insert_Some.
    intros [[<- _]|[_ [[_ <-]|[_ Ho]]]]; [by eauto|done|eauto]. }
  apply wp_bind. eapply wp_mono; [apply safe_diag_event; [|done]|].
  - eapply ctx_live_keeps; [done|]. by eapply session_ctx_live.
  - intros [] w3 (Hi3 & Hk3 & Hn3 & _). apply wp_ret. split_and!; [done|by etransitivity..|done].
Qed.

(** ** The pieces of a session run *)

Lemma safe_count_severity w ds sev n :
  (forall d, d ∈ ds -> exists x, w_heap w !! d = Some (ODiagnostic x)) ->
  wp false (count_severity ds sev n) w (fun _ w' => w' = w).
Proof.
  revert n. induction ds as [|d ds IH]; intros n Hds; [done|].
  destruct (Hds d ltac:(left)) as [x Hx].
  apply wp_bind. eapply wp_load; [done|]. apply IH. intros e He. apply Hds. by right.
Qed.

Lemma wp_count w p se sev :
  world_inv w -> w_heap w !! p = Some (OSession se) ->
  wp false (count_diagnostics_with_severity (Some p) sev) w (fun _ w' => w' = w).
Proof.
  intros Hi Hp. apply wp_bind. eapply wp_load; [done|].
  apply safe_count_severity. by apply (hi_diags _ _ (hi_core _ _ Hi) p se).
Qed.

Lemma safe_populate w p r se x st ns :
  w_heap w !! p = Some (OSession se) -> w_heap w !! r = Some (OResult x) ->
  safe (populate_result_from_session (Some r) (Some p) st ns) w (fun _ _ => True).
Proof.
  intros Hp Hr Hi. apply wp_bind. eapply wp_load; [done|].
  apply wp_bind. eapply wp_load; [done|].
  do 3 (apply wp_bind; eapply wp_mono; [by eapply wp_count|]; intros ? ? ->).
  apply wp_bind, wp_noexcept_alloc. intros ts. eapply wp_store; [done|].
  split_and!; [by eapply inv_update|by eapply keeps_insert|by eapply no_new_insert|done].
Qed.

Lemma safe_finish w p r se x st :
  w_heap w !! p = Some (OSession se) -> w_heap w !! r = Some (OResult x) ->
  safe (finish_output_size p r st) w (fun _ _ => True).
Proof.
  intros Hp Hr. eapply safe_bind; [by apply (safe_load r x w (fun a w' => a = x /\ w' = w))|].
  intros ? ? _ [-> ->]. destruct (negb _).
  - eapply safe_mono; [by eapply safe_store|done].
  - destruct (_ =? _); [|by apply safe_ret].
    eapply safe_bind; [by apply (safe_load p se w (fun a w' => a = se /\ w' = w))|].
    intros ? ? _ [-> ->].
    eapply safe_bind; [apply (safe_heap_eq (file_size_or_zero _) w (fun _ w' => w' = w)); done|].
    intros n ? _ ->. eapply safe_mono; [by eapply safe_store|done].
Qed.

Lemma safe_write_output_file w path bytes :
  safe (write_output_file path bytes) w (heap_kept w).
Proof.
  unfold write_output_file. destruct bytes as [data|]; [|by apply safe_ret].
  destruct (_ || _); [by apply safe_ret|].
  apply safe_heap_eq, wp_bind, wp_get. by destruct (w_disk w path).
Qed.

(** ** The built-in serializer under the API's host *)

Lemma safe_api_emit w p se ctx bytes :
  fc_session ctx = Some p -> w_heap w !! p = Some (OSession se) ->
  safe (api_format_emit_output ctx bytes) w (heap_kept w).
Proof.
  intros Hc Hp. unfold api_format_emit_output. rewrite Hc.
  eapply safe_bind; [by apply (safe_load p se w (fun a w' => w' = w))|].
  intros ? ? _ ->. apply safe_write_output_file.
Qed.

Lemma safe_builtin_serialize w p se i inst ctx iv out :
  fc_host ctx = Some api_format_host -> fc_session (fc_data ctx) = Some p ->
  w_heap w !! p = Some (OSession se) -> w_heap w !! i = Some (OFormatInstance inst) ->
  safe (builtin_serialize (Some i) (Some ctx) iv out) w (heap_kept w).
Proof.
  intros Hh Hc Hp Hinst. unfold builtin_serialize, context_emit_output. rewrite Hh. cbn [fh_emit_output api_format_host].
  destruct out as [o|]; [|by apply safe_ret]. destruct (negb iv); [by apply safe_ret|].
  eapply safe_bind; [by apply (safe_load i inst w (fun a w' => w' = w))|].
  intros ? ? _ ->.
  eapply safe_bind; [apply (safe_heap_eq noexcept_alloc w (heap_kept w));
    apply wp_noexcept_alloc; intros ts; split_and!; reflexivity|].
  intros ? w1 _ Hw1.
  eapply safe_bind; [apply (safe_api_emit w1 p se); [done|by rewrite Hw1]|].
  intros st w2 _ Hw2. destruct (negb _); [apply safe_ret; unfold heap_kept in *; congruence|].
  assert (w_heap w2 = w_heap w) as Hw by (unfold heap_kept in *; congruence).
  eapply safe_bind; [apply (safe_load i inst w2 (fun a w' => w' = w2)); [by rewrite Hw|done]|].
  intros ? ? _ ->. by apply safe_ret.
Qed.

(** With an instance that was just allocated: the instance is freed again. *)
Lemma run_with_instance_frees w p se i inst ctx :
  world_inv w -> fc_host ctx = Some api_format_host -> fc_session (fc_data ctx) = Some p ->
  w_heap w !! p = Some (OSession se) -> w_heap w !! i = Some (OFormatInstance inst) ->
  wp false (run_with_instance g_builtin_format_vtable (Some i) (Some ctx) true
              (Some zero_output_info)) w
    (fun _ w' => w_heap w' = delete i (w_heap w) /\ world_inv w').
Proof.
  intros Hi Hh Hc Hp Hinst.
  assert (forall w1 (r : olnk_status * option olnk_format_output_info),
    world_inv w1 -> w_heap w1 = w_heap w ->
    wp false (_ ← call_destroy g_builtin_format_vtable (Some i); mret r) w1
      (fun _ w' => w_heap w' = delete i (w_heap w) /\ world_inv w')) as Hdestroy.
  { intros w1 r Hi1 Hw1. apply wp_bind. cbn [call_destroy fv_destroy g_builtin_format_vtable].
    eapply (wp_free false (A := BuiltinFormatInstance) i inst); [by rewrite Hw1|].
    apply wp_ret. cbn. rewrite Hw1. split; [done|].
    rewrite <- Hw1. eapply inv_delete_standalone; [done|by rewrite Hw1|done]. }
  unfold run_with_instance. cbn [fv_apply_defaults fv_validate_config fv_serialize g_builtin_format_vtable].
  apply wp_bind, wp_ret. rewrite bool_decide_eq_true_2 by done. cbn [negb andb].
  apply wp_bind. cbn [builtin_validate_config]. apply wp_ret.
  destruct (fc_config (fc_data ctx)); rewrite ?bool_decide_eq_true_2 by done; cbn [negb].
  - apply wp_bind. eapply wp_mono; [by eapply safe_builtin_serialize|].
    intros r w1 (Hi1 & _ & _ & Hw1). by apply Hdestroy.
  - by apply Hdestroy.
Qed.

Lemma safe_run_format_serializer w p se def ctx :
  fc_host ctx = Some api_format_host -> fc_session (fc_data ctx) = Some p ->
  w_heap w !! p = Some (OSession se) -> def ∈ kStaticFormats ->
  safe (run_format_serializer (Some (builtin_format_def def)) (Some ctx) true
          (Some zero_output_info)) w (heap_kept w).
Proof.
  intros Hh Hc Hp Hdef Hi.
  assert (exists d, fdef_descriptor def = Some d /\ fdef_vtable def = true) as (d & Hd & Hv).
  { apply list_elem_of_In in Hdef. cbn in Hdef.
    repeat (destruct Hdef as [<-|Hdef]; [by eexists|]). done. }
  unfold run_format_serializer, builtin_format_def.
  cbn [initialize_output_info negb fmd_vtable fmd_descriptor has_minimum_definition].
  rewrite Hd, Hv. cbn [fv_serialize g_builtin_format_vtable negb fv_create builtin_create].
  apply wp_bind, wp_bind, wp_may_throw. intros [[]|] ts;
    [by apply wp_ret; split_and!; [|reflexivity..|]..|].
  apply wp_bind, wp_alloc. cbn [w_heap w_next with_throws].
  set (i := w_next w). pose proof (fresh_none _ _ Hi) as Hn. fold i in Hn.
  apply wp_ret. rewrite bool_decide_eq_true_2 by done. cbn [negb].
  eapply wp_mono; [eapply run_with_instance_frees; try done|].
  - by apply inv_alloc.
  - cbn. rewrite lookup_insert_ne by congruence. done.
  - cbn. apply lookup_insert_eq.
  - intros ? w' [Hw' Hi']. cbn in Hw'. rewrite delete_insert_id in Hw' by done.
    unfold heap_kept. rewrite Hw' in Hi' |- *. split_and!; [done|reflexivity..|done].
Qed.

(** ** The session run *)

Section Run.
Variable lua_formats : option (list (option lua_format_spec)).
Variable lua_machines : option (list (option lua_machine_spec)).

Lemma safe_true {A} (m : M A) w (Q : A -> world -> Prop) :
  safe m w Q -> safe m w (fun _ _ => True).
Proof. intros H. by eapply safe_mono. Qed.

Lemma safe_find_machine w name : safe (find_machine lua_machines name) w (heap_kept w).
Proof.
  apply safe_heap_eq. apply wp_bind, wp_get.
  destruct (olnk_find_machine _ _ _) as [m g]. apply wp_bind, wp_modify. done.
Qed.

Lemma safe_run_serializer w p r se x ctx def :
  w_heap w !! p = Some (OSession se) -> w_heap w !! r = Some (OResult x) ->
  def ∈ kStaticFormats ->
  safe (run_serializer p r ctx def) w (fun _ _ => True).
Proof.
  intros Hp Hr Hdef. eapply safe_bind; [by eapply safe_run_format_serializer|].
  intros [st out] w1 _ Hw1. unfold heap_kept in Hw1.
  destruct (bool_decide _); [|by apply safe_ret].
  rewrite <- Hw1 in Hr.
  eapply safe_bind; [by apply (safe_load r x w1 (fun _ w' => w' = w1))|].
  intros ? ? _ ->. eapply safe_bind; [by eapply safe_store|].
  intros ? ? _ _. by apply safe_ret.
Qed.

Lemma status_of_thrown_ne t : status_of_thrown t <> OLNK_STATUS_OK.
Proof. by destruct t. Qed.

(** A run that stops early reports a failure. *)
Definition stop_fails (o : olnk_status + olnk_status) (_ : world) : Prop :=
  match o with inl s => s <> OLNK_STATUS_OK | inr _ => True end.

Lemma safe_run_diagnostic w p se msg k :
  w_heap w !! p = Some (OSession se) ->
  (forall w', keeps (w_heap w) (w_heap w') -> safe k w' stop_fails) ->
  safe (run_diagnostic p msg k) w stop_fails.
Proof.
  intros Hp Hk. eapply safe_bind; [by eapply safe_add_diagnostic|].
  intros st w1 Hk1 _. case_bool_decide; [by apply Hk|by apply safe_ret].
Qed.

Lemma safe_run_diagnostic_concat w p se pre name k :
  w_heap w !! p = Some (OSession se) ->
  (forall w', keeps (w_heap w) (w_heap w') -> safe k w' stop_fails) ->
  safe (run_diagnostic_concat p pre name k) w stop_fails.
Proof.
  intros Hp Hk. eapply safe_bind; [apply safe_may_throw|].
  intros [t|] w1 Hk1 Hw1; [apply safe_ret; apply status_of_thrown_ne|].
  eapply safe_run_diagnostic; [by rewrite Hw1|].
  intros w' Hk'. apply Hk. by etransitivity.
Qed.

Lemma safe_run_machine w p r se x ctx cfg def st :
  w_heap w !! p = Some (OSession se) -> w_heap w !! r = Some (OResult x) ->
  (forall d, def = Some d -> d ∈ kStaticFormats) ->
  safe (run_machine lua_machines p r ctx cfg def st) w stop_fails.
Proof.
  intros Hp Hr Hdef. eapply safe_bind; [apply safe_find_machine|].
  intros m w1 _ Hw1. unfold heap_kept in Hw1. rewrite <- Hw1 in Hp, Hr.
  destruct m as [m|].
  - destruct def as [def|]; [|by apply safe_ret]. destruct (bool_decide _); [|by apply safe_ret].
    eapply safe_bind; [eapply safe_run_serializer; try done; by apply Hdef|].
    intros ? ? _ _. by apply safe_ret.
  - destruct (bool_decide _); [|by apply safe_ret].
    eapply safe_run_diagnostic_concat; [done|]. intros ? _. by apply safe_ret.
Qed.

Lemma safe_run_try w p r se x ctx cfg :
  w_heap w !! p = Some (OSession se) -> w_heap w !! r = Some (OResult x) ->
  safe (run_try lua_formats lua_machines p r ctx cfg) w stop_fails.
Proof.
  intros Hp Hr. eapply safe_bind.
  - rewrite bool_decide_eq_true_2 by done. cbv zeta.
    destruct (olnk_find_format lua_formats _) as [i|].
    + eapply safe_run_machine; [done..|]. intros d. apply list_elem_of_lookup_2.
    + eapply safe_run_diagnostic_concat; [done|]. intros w' Hk.
      destruct (keeps_session _ _ _ _ Hk Hp) as (se' & Hp' & _).
      destruct (keeps_result _ _ _ _ Hk Hr) as (x' & Hr').
      by eapply safe_run_machine.
  - intros o w1 Hk Ho. destruct o as [|[]]; try by apply safe_ret.
    destruct (keeps_session _ _ _ _ Hk Hp) as (se' & Hp' & _).
    eapply safe_run_diagnostic; [done|]. intros ? _. by apply safe_ret.
Qed.

Lemma safe_run_body w p r se x :
  w_heap w !! p = Some (OSession se) -> w_heap w !! r = Some (OResult x) ->
  safe (run_body lua_formats lua_machines p r) w stop_fails.
Proof.
  intros Hp Hr.
  eapply safe_bind; [by apply (safe_load p se w (fun a w' => a = se /\ w' = w))|].
  intros ? ? _ [-> ->]. cbv zeta. destruct (cf_input_files _).
  - eapply safe_run_diagnostic; [done|]. intros ? _. by apply safe_ret.
  - destruct (_ =? _)%string; [|by eapply safe_run_try].
    eapply safe_run_diagnostic; [done|]. intros ? _. by apply safe_ret.
Qed.

(** ** The public calls *)

(** What a run returns: a live result, or none and a failure. *)
Definition run_returns (res : olnk_status * option (option positive)) (w' : world) : Prop :=
  match snd res with
  | Some (Some r) => exists x, w_heap w' !! r = Some (OResult x)
  | _ => fst res <> OLNK_STATUS_OK
  end.

(** The object a run hands to its caller. *)
Definition result_of (res : olnk_status * option (option positive)) : option positive :=
  match snd res with Some (Some r) => Some r | _ => None end.

(** What every call guarantees: the invariant, the survival of every object
    that is not a diagnostic, and that besides diagnostics at most the object
    [made] is new. *)
Definition call_post (w : world) (made : option positive) (w' : world) : Prop :=
  world_inv w' /\ keeps (w_heap w) (w_heap w') /\
  forall a o, w_heap w' !! a = Some o -> is_diag o = false -> made <> Some a ->
    exists o0, w_heap w !! a = Some o0 /\ is_diag o0 = false.

Lemma call_post_trans w w1 made w' :
  keeps (w_heap w) (w_heap w1) -> no_new (w_heap w) (w_heap w1) ->
  call_post w1 made w' -> call_post w made w'.
Proof.
  intros Hk Hn (Hi & Hk' & Hm). split_and!; [done|by etransitivity|].
  intros a o Ha Hd Hne. destruct (Hm a o Ha Hd Hne) as (o1 & Ho1 & Hd1). by apply (Hn a o1).
Qed.

Lemma call_post_refl w : world_inv w -> call_post w None w.
Proof. intros Hi. split_and!; [done|reflexivity|]. intros a o Ha Hd _. eauto. Qed.

Lemma safe_call_post {A} (m : M A) w Q :
  safe m w Q -> world_inv w -> wp false m w (fun a w' => call_post w None w' /\ Q a w').
Proof.
  intros Hm Hi. eapply wp_mono; [by apply Hm|]. intros a w' (Hi' & Hk & Hn & HQ).
  split; [|done]. split_and!; [done..|]. intros b o Hb Hd _. by apply (Hn b o).
Qed.

(** Allocating an object and going on with code that keeps it. *)
Lemma made_insert w r o w' :
  is_session o = false -> is_diag o = false ->
  no_new (<[r := o]> (w_heap w)) (w_heap w') -> keeps (<[r := o]> (w_heap w)) (w_heap w') ->
  w_heap w !! r = None -> world_inv w' -> call_post w (Some r) w'.
Proof.
  intros Hs Hd Hn Hk Hr Hi. split_and!; [done| |].
  - etransitivity; [by apply keeps_alloc|done].
  - intros a x Ha Hx Hne. destruct (Hn a x Ha Hx) as (o0 & Ho0 & Hd0).
    rewrite lookup_insert_ne in Ho0 by congruence. eauto.
Qed.

(** Freeing the object made. *)
Lemma free_made {A} `{HeapObj A} w w1 r (a : A) :
  call_post w (Some r) w1 -> w_heap w !! r = None ->
  w_heap w1 !! r = Some (to_obj a) -> standalone (to_obj a) = true ->
  wp false (free (A := A) (Some r)) w1 (fun _ w2 => call_post w None w2).
Proof.
  intros (Hi & Hk & Hm) Hr Hr1 Ha. eapply wp_free; [done|]. cbn. split_and!.
  - by eapply inv_delete_standalone.
  - intros b o Hb Hd. destruct (Hk b o Hb Hd) as (o' & Ho & Hs). exists o'. cbn.
    rewrite lookup_delete_ne by congruence. done.
  - intros b o. cbn. intros [Hne Hb]%lookup_delete_Some Hd _.
    apply (Hm b o); [done..|congruence].
Qed.

(** The part of the run that follows the allocation of the result. *)
Definition run_after_result (p r : positive) (c : option positive)
    : M (olnk_status * option (option positive)) :=
  o ← run_body lua_formats lua_machines p r;
  match o with
  | inl status => _ ← free (A := ResultStorage) (Some r); mret (status, Some None)
  | inr st =>
      _ ← populate_result_from_session (Some r) (Some p) st 0;
      _ ← finish_output_size p r st;
      _ ← (if bool_decide (st = OLNK_STATUS_OK)
           then safe_emit_log c (olnk_log_level_Z OLNK_LOG_INFO)
                  (Some "olnk session completed"%string)
           else safe_emit_log c (olnk_log_level_Z OLNK_LOG_ERROR)
                  (Some "olnk session failed: invalid configuration"%string));
      mret (st, Some (Some r))
  end.

(** Its normal end. *)
Lemma safe_run_end w p r se x c st :
  w_heap w !! p = Some (OSession se) -> w_heap w !! r = Some (OResult x) -> ctx_live w c ->
  safe (_ ← populate_result_from_session (Some r) (Some p) st 0;
        _ ← finish_output_size p r st;
        _ ← (if bool_decide (st = OLNK_STATUS_OK)
             then safe_emit_log c (olnk_log_level_Z OLNK_LOG_INFO)
                    (Some "olnk session completed"%string)
             else safe_emit_log c (olnk_log_level_Z OLNK_LOG_ERROR)
                    (Some "olnk session failed: invalid configuration"%string));
        mret (st, Some (Some r))) w
    (fun res w' => res = (st, Some (Some r)) /\ run_returns res w').
Proof.
  intros Hp Hr Hc. eapply safe_bind; [by eapply safe_populate|]. intros ? w3 Hk3 _.
  destruct (keeps_session _ _ _ _ Hk3 Hp) as (se3 & Hp3 & _).
  destruct (keeps_result _ _ _ _ Hk3 Hr) as (x3 & Hr3).
  eapply safe_bind; [by eapply safe_finish|]. intros ? w4 Hk4 _.
  destruct (keeps_result _ _ _ _ Hk4 Hr3) as (x4 & Hr4).
  eapply (safe_bind _ _ _ (heap_kept w4)).
  - assert (ctx_live w4 c) as Hc4 by (by do 2 (eapply ctx_live_keeps; [done|])).
    destruct (bool_decide _); by apply safe_log.
  - intros ? w5 _ Hw5. apply safe_ret. split; [done|]. exists x4. by rewrite Hw5.
Qed.

Lemma run_after_result_post w w1 p se c r x :
  w_heap w !! p = Some (OSession se) -> ctx_live w c -> w_heap w !! r = None ->
  world_inv w1 -> w_heap w1 = <[r := OResult x]> (w_heap w) ->
  wp false (run_after_result p r c) w1
    (fun res w' => call_post w (result_of res) w' /\ run_returns res w').
Proof.
  intros Hp Hc Hr Hi1 Hw1.
  assert (w_heap w1 !! r = Some (OResult x)) as Hr1 by (rewrite Hw1; apply lookup_insert_eq).
  assert (w_heap w1 !! p = Some (OSession se)) as Hp1
    by (rewrite Hw1; rewrite lookup_insert_ne; congruence).
  assert (ctx_live w1 c) as Hc1.
  { eapply ctx_live_keeps; [|done]. rewrite Hw1. by apply keeps_alloc. }
  apply wp_bind. eapply wp_mono; [by eapply safe_run_body|].
  intros o w2 (Hi2 & Hk2 & Hn2 & Hstop).
  destruct (keeps_session _ _ _ _ Hk2 Hp1) as (se2 & Hp2 & _).
  destruct (keeps_result _ _ _ _ Hk2 Hr1) as (x2 & Hr2).
  destruct o as [st|st].
  - apply wp_bind. eapply wp_mono.
    + eapply (free_made (A := ResultStorage) w); [|done..].
      rewrite Hw1 in Hn2, Hk2. by apply (made_insert w r (OResult x)).
    + intros ? w3 H3. by apply wp_ret.
  - eapply wp_mono; [eapply safe_run_end; [done..|exact (ctx_live_keeps _ _ _ Hk2 Hc1)|done]|].
    intros res w3 (Hi3 & Hk3 & Hn3 & -> & Hres). split; [|done].
    assert (no_new (w_heap w1) (w_heap w3)) as Hn13 by by etransitivity.
    assert (keeps (w_heap w1) (w_heap w3)) as Hk13 by by etransitivity.
    rewrite Hw1 in Hn13, Hk13. by apply (made_insert w r (OResult x)).
Qed.

Lemma session_run_post w p se out :
  world_inv w -> w_heap w !! p = Some (OSession se) ->
  wp false (olnk_session_run lua_formats lua_machines (Some p) out) w
    (fun res w' => call_post w (result_of res) w' /\ run_returns res w').
Proof.
  intros Hi Hp. unfold olnk_session_run.
  destruct (negb out); [apply wp_ret; split; [by apply call_post_refl|done]|].
  apply wp_bind. eapply wp_mono; [by eapply safe_clear|].
  intros ? w1 (Hi1 & Hk1 & Hn1 & _).
  destruct (keeps_session _ _ _ _ Hk1 Hp) as (se1 & Hp1 & _).
  pose proof (session_ctx_live _ _ _ Hi1 Hp1) as Hc1.
  apply wp_bind. eapply wp_load; [done|].
  apply wp_bind. eapply wp_mono; [by apply safe_log|].
  intros ? w2 (Hi2 & Hk2 & Hn2 & Hw2). unfold heap_kept in Hw2. rewrite <- Hw2 in Hp1.
  apply (ctx_live_keeps w1 w2) in Hc1; [|done].
  apply (wp_mono false _ _ (fun res w' => call_post w2 (result_of res) w' /\ run_returns res w')).
  - unfold make_result. apply wp_bind, wp_bind, wp_may_throw. intros [t|] ts.
    + do 2 apply wp_ret. split; [|done].
      by apply (call_post_refl (with_throws ts w2)).
    + apply wp_bind, wp_alloc, wp_ret. eapply (run_after_result_post w2); try done.
      * by apply (fresh_none _ _ Hi2).
      * by apply inv_alloc.
  - intros res w' [Hpost Hres]. split; [|done].
    apply (call_post_trans w w2); [by etransitivity..|done].
Qed.

End Run.

(** ** Sessions: creation, destruction, the one-shot call *)

Lemma session_destroy_post w p se :
  world_inv w -> w_heap w !! p = Some (OSession se) ->
  wp false (olnk_session_destroy (Some p)) w (fun _ w' => world_inv w' /\
    exists h1, keeps (w_heap w) h1 /\ no_new (w_heap w) h1 /\ w_heap w' = delete p h1).
Proof.
  intros Hi Hp. apply wp_bind. eapply wp_mono; [by eapply safe_clear|].
  intros ? w1 (Hi1 & Hk1 & Hn1 & Hw1).
  assert (w_heap w1 !! p = Some (OSession (session_with_diagnostics se []))) as Hp1
    by (rewrite Hw1; apply lookup_insert_eq).
  eapply (wp_free false (A := olnk_session)); [exact Hp1|]. split.
  - by eapply inv_delete_session.
  - by exists (w_heap w1).
Qed.

(** What session_create returns, and what it leaves behind when the copy of
    the config throws. *)
Definition session_created (w : world) (c : positive) (cfg : olnk_config)
    (res : option positive) (w' : world) : Prop :=
  match res with
  | Some s =>
      call_post w (Some s) w' /\ w_heap w !! s = None /\
      w_heap w' !! s = Some (OSession {| se_context := Some c; se_snapshot_config := cfg;
                                         se_diagnostics := []; se_options := [] |})
  | None =>
      call_post w None w' \/
      exists s t ts, w_throws w = None :: Some t :: ts /\ call_post w (Some s) w'
  end.

(** Initialising the session that was just allocated. *)
Lemma session_store_post w w1 c cx se :
  world_inv w -> w_heap w !! c = Some (OContext cx) ->
  se_context se = Some c -> se_diagnostics se = [] ->
  w_heap w1 = <[w_next w := OSession session_fresh]> (w_heap w) ->
  w_next w1 = Pos.succ (w_next w) ->
  wp false (store (w_next w) se) w1 (fun _ w' =>
    call_post w (Some (w_next w)) w' /\ w_heap w' !! w_next w = Some (OSession se)).
Proof.
  intros Hi Hc Hctx Hnil Hw1 Hn1. pose proof (fresh_none _ _ Hi) as Hn.
  eapply (wp_store false (A := olnk_session) _ session_fresh);
    [by rewrite Hw1, lookup_insert_eq|].
  unfold call_post. cbn. rewrite Hw1, Hn1, insert_insert_eq. split; [|apply lookup_insert_eq].
  split_and!.
  - apply inv_alloc_session; [done..|].
    intros c' Hc'. rewrite Hctx in Hc'. injection Hc' as <-. eauto.
  - by apply keeps_alloc.
  - intros a o Ha Hd Hne. rewrite lookup_insert_ne in Ha by congruence. eauto.
Qed.

Lemma session_create_post w c g cx cfg :
  world_inv w -> w_heap w !! c = Some (OContext cx) -> w_heap w !! g = Some (OConfig cfg) ->
  wp false (olnk_session_create (Some c) (Some g)) w (session_created w c cfg).
Proof.
  intros Hi Hc Hg. pose proof (fresh_none _ _ Hi) as Hn.
  apply wp_bind, wp_may_throw_eq. intros [t|] ts Ht.
  { left. by apply (call_post_refl (with_throws ts w)). }
  apply wp_bind, wp_alloc. cbn [w_heap w_next with_throws].
  apply wp_bind. eapply wp_load; [cbn; rewrite lookup_insert_ne by congruence; done|].
  apply wp_bind, wp_may_throw_eq. cbn [w_throws with_throws]. intros [t|] ts' Ht'.
  - apply wp_bind. eapply wp_mono; [by eapply session_store_post|].
    intros ? w' [Hpost _]. apply wp_ret. right. exists (w_next w), t, ts'.
    split; [|done].
    destruct Ht' as [->|(_ & ? & _)]; [|done]. by destruct Ht as [Ht|(_ & _ & ?)].
  - apply wp_bind. eapply wp_mono; [by eapply session_store_post|].
    intros ? w1 [(Hi1 & Hk1 & Hm1) Hs]. apply wp_bind.
    eapply wp_mono; [apply safe_log; [|done]|].
    { apply (ctx_live_keeps w); [done|]. by exists cx. }
    intros ? w2 (Hi2 & Hk2 & Hn2 & Hw2). unfold heap_kept in Hw2. apply wp_ret.
    unfold session_created, call_post. rewrite Hw2. split_and!; try done.
    by rewrite <- Hw2.
Qed.

(** Destroying the session of a run: the session is the only object that goes,
    apart from diagnostics. *)
Lemma destroy_made w w1 w2 s se made :
  w_heap w !! s = None -> w_heap w1 !! s = Some (OSession se) ->
  call_post w (Some s) w1 -> call_post w1 made w2 ->
  wp false (olnk_session_destroy (Some s)) w2 (fun _ w3 => call_post w made w3 /\
    forall r x, w_heap w2 !! r = Some (OResult x) -> exists x', w_heap w3 !! r = Some (OResult x')).
Proof.
  intros Hs Hs1 (_ & Hk1 & Hm1) (Hi2 & Hk2 & Hm2).
  destruct (keeps_session _ _ _ _ Hk2 Hs1) as (se2 & Hs2 & _).
  eapply wp_mono; [by eapply session_destroy_post|].
  intros [] w3 (Hi3 & h1 & Hkh & Hnh & Hw3). split; [split_and!; [done| |]|].
  - intros a o Ha Hd. assert (keeps (w_heap w) h1) as Hk by by do 2 (etransitivity; [done|]).
    destruct (Hk a o Ha Hd) as (o' & Ho & Hso). exists o'.
    rewrite Hw3, lookup_delete_ne by congruence. done.
  - intros a o. rewrite Hw3, lookup_delete_Some. intros [Hne Ha] Hd Hmade.
    destruct (Hnh a o Ha Hd) as (o2 & Ho2 & Hd2).
    destruct (Hm2 a o2 Ho2 Hd2 Hmade) as (o1 & Ho1 & Hd1).
    apply (Hm1 a o1 Ho1 Hd1). congruence.
  - intros r x Hr. destruct (keeps_result _ _ _ _ Hkh Hr) as (x' & Hr'). exists x'.
    rewrite Hw3, lookup_delete_ne; [done|]. intros ->. congruence.
Qed.

Section Link.
Variable lua_formats : option (list (option lua_format_spec)).
Variable lua_machines : option (list (option lua_machine_spec)).

(** The run and the destruction of a session made for the call. *)
Lemma link_session_post w w1 s se :
  w_heap w !! s = None -> w_heap w1 !! s = Some (OSession se) -> call_post w (Some s) w1 ->
  wp false ('(status, res) ← olnk_session_run lua_formats lua_machines (Some s) true;
            _ ← olnk_session_destroy (Some s);
            mret (status, match res with Some r => Some r | None => Some None end)) w1
    (fun res w' => call_post w (result_of res) w' /\ run_returns res w').
Proof.
  intros Hs Hs1 Hpost. pose proof Hpost as (Hi1 & _ & _).
  apply wp_bind. eapply wp_mono; [by eapply session_run_post|].
  intros [st res] w2 [Hrun Hret]. apply wp_bind.
  eapply wp_mono; [by eapply destroy_made|].
  intros ? w3 [Hp3 Hr3]. apply wp_ret.
  destruct res as [[r|]|]; split; try done.
  destruct Hret as [x Hx]. by apply (Hr3 r x).
Qed.

(** What the calls of olnk_link guarantee together, whatever
    its allocations throw. *)
Lemma link_new_objects w c g cx cfg :
  world_inv w -> w_heap w !! c = Some (OContext cx) -> w_heap w !! g = Some (OConfig cfg) ->
  wp false (olnk_link lua_formats lua_machines (Some c) (Some g) true) w (fun res w' =>
    world_inv w' /\ keeps (w_heap w) (w_heap w') /\ run_returns res w' /\
    forall a o, w_heap w' !! a = Some o -> is_diag o = false -> w_heap w !! a = None ->
      snd res = Some (Some a) \/ exists t ts, w_throws w = None :: Some t :: ts).
Proof.
  intros Hi Hc Hg. unfold olnk_link. cbn [negb]. apply wp_bind.
  eapply wp_mono; [by eapply session_create_post|].
  assert (forall w' (made : option positive) (P : Prop) a o,
    call_post w made w' -> (made = Some a -> P) ->
    w_heap w' !! a = Some o -> is_diag o = false -> w_heap w !! a = None -> P) as Hnew.
  { intros w' made P a o (_ & _ & Hm) HP Ha Hd Hw.
    destruct (decide (made = Some a)) as [He|Hne]; [by apply HP|].
    destruct (Hm a o Ha Hd Hne) as (o0 & Ho0 & _). congruence. }
  intros [s|] w1 Hcreate.
  - destruct Hcreate as (Hpost & Hs & Hs1).
    eapply wp_mono; [by eapply link_session_post|].
    intros [st res] w' [Hpost' Hret]. pose proof Hpost' as (Hi' & Hk' & _).
    split_and!; [done..|]. intros a o. eapply (Hnew w' _ _ a o Hpost'). intros Hr. left.
    unfold result_of in Hr. destruct res as [[r|]|]; cbn in *; congruence.
  - apply wp_ret. destruct Hcreate as [Hpost|(s & t & ts & Ht & Hpost)];
      pose proof Hpost as (Hi' & Hk' & _); (split_and!; [done..|]); intros a o;
      apply (Hnew w1 _ _ a o Hpost); [done|]. intros _. right. eauto.
Qed.

(** Under the invariant an object that is new is no diagnostic, or its session is
    new as well. *)
Lemma new_object w w' a o :
  world_inv w -> world_inv w' -> w_heap w ⊆ w_heap w' ->
  w_heap w' !! a = Some o -> w_heap w !! a = None ->
  is_diag o = false \/ exists s se, w_heap w' !! s = Some (OSession se) /\ w_heap w !! s = None.
Proof.
  intros Hi Hi' Hsub Ha Hn. destruct o as [| | |x| | | |]; try by left.
  right. destruct (hi_owned _ _ Hi' a x Ha) as (s & se & Hs & Hin). exists s, se. split; [done|].
  destruct (w_heap w !! s) as [o|] eqn:E; [|done]. exfalso.
  pose proof (lookup_weaken _ _ _ _ E Hsub) as Hs'. rewrite Hs in Hs'. apply (inj Some) in Hs' as <-.
  destruct (hi_diags _ _ (hi_core _ _ Hi) s se E) as [_ Hl]. destruct (Hl a Hin). congruence.
Qed.

(** C9: olnk_link leaks nothing and has no undefined behaviour, whatever
    its allocations throw: from any heap in which every session owns its
    diagnostics and has a live context, a call on a live context and config
    leaves such a heap, every object that existed - context, config, sessions,
    diagnostics, results - is still there with the same contents, the only new
    object is the result returned, and a call that reports success did return
    one. The only exception is an exception thrown while the config is copied
    into the new session, which leaks that session. *)
Theorem link_leaves_only_result w c g cx cfg :
  world_inv w -> w_heap w !! c = Some (OContext cx) -> w_heap w !! g = Some (OConfig cfg) ->
  wp false (olnk_link lua_formats lua_machines (Some c) (Some g) true) w (fun res w' =>
    world_inv w' /\ w_heap w ⊆ w_heap w' /\ run_returns res w' /\
    forall a o, w_heap w' !! a = Some o -> w_heap w !! a = None ->
      snd res = Some (Some a) \/ exists t ts, w_throws w = None :: Some t :: ts).
Proof.
  intros Hi Hc Hg.
  pose proof (link_new_objects w c g cx cfg Hi Hc Hg) as Hrun.
  pose proof (link_untouched lua_formats lua_machines (Some c) (Some g) true w) as Hsub.
  unfold wp in *. destruct (olnk_link _ _ _ _ _ w) as [[res w']| |]; [|done..].
  destruct Hrun as (Hi' & _ & Hr & Hnew).
  assert (w_heap w ⊆ w_heap w') as Hs by (eapply Hsub; [apply (hi_fresh _ _ (hi_core _ _ Hi))|done]).
  split_and!; [done..|]. intros a o Ha Hn.
  destruct (new_object w w' a o Hi Hi' Hs Ha Hn) as [Hd|(s & se & Hse & Hsn)]; [by eapply Hnew|].
  destruct (Hnew s _ Hse eq_refl Hsn) as [E|?]; [|by right].
  unfold run_returns in Hr. rewrite E in Hr. destruct Hr as [x Hx]. congruence.
Qed.

End Link.

Definition ex_context : olnk_context := context_default.
Definition ex_config : olnk_config :=
  set_output_path "a.out" (set_input_files ["main.o"%string] config_default).
Definition ex_world : world :=
  mkWorld (<[1%positive := OContext ex_context]> (<[2%positive := OConfig ex_config]> ∅))
    3%positive [] ∅ (fun _ => WriteOk) [] g_builtin_machines.

Lemma ex_world_inv : world_inv ex_world.
Proof.
  assert (forall a o, w_heap ex_world !! a = Some o ->
    (a = 1%positive /\ o = OContext ex_context) \/ (a = 2%positive /\ o = OConfig ex_config)) as H.
  { intros a o. cbn. rewrite !lookup_insert_Some. intros [[<- <-]|[_ [[<- <-]|[_ Ha]]]];
      [by left|by right|]. by rewrite lookup_empty in Ha. }
  split; [split|].
  - intros a o [[-> _]|[-> _]]%H; cbn; lia.
  - intros s se [[_ ?]|[_ ?]]%H; done.
  - intros s se c [[_ ?]|[_ ?]]%H; done.
  - intros s1 s2 se1 se2 d [[_ ?]|[_ ?]]%H; done.
  - intros d x [[_ ?]|[_ ?]]%H; done.
Qed.

Lemma link_leaves_only_result_witness :
  wp false (olnk_link None None (Some 1%positive) (Some 2%positive) true) ex_world
    (fun res w' => world_inv w' /\ run_returns res w' /\
       w_heap w' !! 2%positive = Some (OConfig ex_config)).
Proof.
  eapply wp_mono; [eapply (link_leaves_only_result None None ex_world 1%positive 2%positive
    ex_context ex_config); [apply ex_world_inv|reflexivity|reflexivity]|].
  intros res w' (Hi & Hk & Hr & _). split_and!; [exact Hi|exact Hr|].
  eapply lookup_weaken; [|exact Hk]. reflexivity.
Defined.

(** C40: When copying the config throws, olnk_session_create returns null
    and leaves the session it allocated in the heap: a session that was not
    there before, and that no handle leads to. *)
Theorem session_create_leaks w c g cx cfg t ts :
  world_inv w -> w_heap w !! c = Some (OContext cx) -> w_heap w !! g = Some (OConfig cfg) ->
  w_throws w = None :: Some t :: ts ->
  wp true (olnk_session_create (Some c) (Some g)) w (fun res w' =>
    res = None /\ exists s se, w_heap w !! s = None /\ w_heap w' !! s = Some (OSession se)).
Proof.
  intros Hi Hc Hg Ht. pose proof (fresh_none _ _ Hi) as Hn.
  apply wp_bind. eapply wp_may_throw_cons; [exact Ht|].
  apply wp_bind, wp_alloc. apply wp_bind.
  eapply wp_load; [cbn; rewrite lookup_insert_ne by congruence; done|].
  apply wp_bind. eapply wp_may_throw_cons; [reflexivity|]. apply wp_bind.
  eapply (wp_store true (A := olnk_session)); [cbn; apply lookup_insert_eq|].
  apply wp_ret. split; [done|]. eexists (w_next w), _. split; [done|].
  cbn. apply lookup_insert_eq.
Qed.

Definition leaky_world : world := with_throws [None; Some ThrowBadAlloc] ex_world.

Lemma session_create_leaks_witness :
  wp true (olnk_session_create (Some 1%positive) (Some 2%positive)) leaky_world
    (fun res w' => res = None /\
       exists s se, w_heap leaky_world !! s = None /\ w_heap w' !! s = Some (OSession se)).
Proof.
  apply (session_create_leaks leaky_world 1%positive 2%positive ex_context ex_config
           ThrowBadAlloc []); [exact ex_world_inv|reflexivity|reflexivity|reflexivity].
Defined.
