(* ===== verification/ApiCalls.v ===== *)
(** * The API as a state machine

    A program that uses the library is a sequence of calls on handles that are
    alive or null; a context is destroyed only after the sessions made from it.
    Every such program runs without undefined behaviour and keeps the heap
    invariant. *)

From S2P Require Import Prelude Abi Machine Format World FormatRun Api ApiSafe.

Inductive string_field : Set :=
  | FOutputPath | FMapPath | FEntrySymbol | FFormat | FMachine | FScriptPath.

Inductive list_field : Set := FInputFile | FLibraryPath | FLibrary | FPlugin.

Inductive api_call : Type :=
  | CContextCreate
  | CContextDestroy (c : option positive)
  | CSetLogLevel (c : option positive) (level : Z)
  | CSetLogCallback (c : option positive) (f : option Z) (user : Z)
  | CSetDiagCallback (c : option positive) (f : option Z) (user : Z)
  | CContextSetOption (c : option positive) (key value : cstr)
  | CConfigCreate
  | CConfigDestroy (g : option positive)
  | CConfigSet (f : string_field) (g : option positive) (value : cstr)
  | CConfigAdd (f : list_field) (g : option positive) (value : cstr)
  | CSetOutputKind (g : option positive) (kind : Z)
  | CSetThreadCount (g : option positive) (n : Z)
  | CSetIncremental (g : option positive) (enabled : Z)
  | CSetDebugInfo (g : option positive) (enabled : Z)
  | CConfigDefine (g : option positive) (key value : cstr)
  | CSessionCreate (c g : option positive)
  | CSessionDestroy (s : option positive)
  | CSessionRun (s : option positive) (out_result : bool)
  | CSessionReset (s : option positive)
  | CSessionSetOption (s : option positive) (key value : cstr)
  | CLink (c g : option positive) (out_result : bool)
  | CResultDestroy (r : option positive).

Section Calls.
Variable lua_formats : option (list (option lua_format_spec)).
Variable lua_machines : option (list (option lua_machine_spec)).

Definition discard {A} (m : M A) : M unit := _ ← m; mret tt.

Definition config_setter (f : string_field) : option positive -> cstr -> M olnk_status :=
  match f with
  | FOutputPath => olnk_config_set_output_path
  | FMapPath => olnk_config_set_map_path
  | FEntrySymbol => olnk_config_set_entry_symbol
  | FFormat => olnk_config_set_format
  | FMachine => olnk_config_set_machine
  | FScriptPath => olnk_config_set_script_path
  end.

Definition config_adder (f : list_field) : option positive -> cstr -> M olnk_status :=
  match f with
  | FInputFile => olnk_config_add_input_file
  | FLibraryPath => olnk_config_add_library_path
  | FLibrary => olnk_config_add_library
  | FPlugin => olnk_config_add_plugin
  end.

Definition api_run (call : api_call) : M unit :=
  match call with
  | CContextCreate => discard olnk_context_create
  | CContextDestroy c => olnk_context_destroy c
  | CSetLogLevel c l => olnk_context_set_log_level c l
  | CSetLogCallback c f u => olnk_context_set_log_callback c f u
  | CSetDiagCallback c f u => olnk_context_set_diagnostic_callback c f u
  | CContextSetOption c k v => discard (olnk_context_set_option c k v)
  | CConfigCreate => discard olnk_config_create
  | CConfigDestroy g => olnk_config_destroy g
  | CConfigSet f g v => discard (config_setter f g v)
  | CConfigAdd f g v => discard (config_adder f g v)
  | CSetOutputKind g k => discard (olnk_config_set_output_kind g k)
  | CSetThreadCount g n => discard (olnk_config_set_thread_count g n)
  | CSetIncremental g e => discard (olnk_config_set_incremental g e)
  | CSetDebugInfo g e => discard (olnk_config_set_debug_info g e)
  | CConfigDefine g k v => discard (olnk_config_define g k v)
  | CSessionCreate c g => discard (olnk_session_create c g)
  | CSessionDestroy s => olnk_session_destroy s
  | CSessionRun s o => discard (olnk_session_run lua_formats lua_machines s o)
  | CSessionReset s => discard (olnk_session_reset s)
  | CSessionSetOption s k v => discard (olnk_session_set_option s k v)
  | CLink c g o => discard (olnk_link lua_formats lua_machines c g o)
  | CResultDestroy r => olnk_result_destroy r
  end.

(** A handle that is null or alive with the right type. *)
Definition handle {A} `{HeapObj A} (w : world) (p : option positive) : Prop :=
  match p with None => True | Some p => exists a : A, w_heap w !! p = Some (to_obj a) end.

Abbreviation is_context := (handle (A := olnk_context)).
Abbreviation is_config := (handle (A := olnk_config)).
Abbreviation is_session_of := (handle (A := olnk_session)).
Abbreviation is_result := (handle (A := ResultStorage)).

Definition call_ok (w : world) (call : api_call) : Prop :=
  match call with
  | CContextCreate | CConfigCreate => True
  | CContextDestroy c =>
      is_context w c /\
      forall s se, w_heap w !! s = Some (OSession se) -> se_context se <> c \/ c = None
  | CSetLogLevel c _ | CSetLogCallback c _ _ | CSetDiagCallback c _ _
  | CContextSetOption c _ _ => is_context w c
  | CConfigDestroy g | CConfigSet _ g _ | CConfigAdd _ g _ | CSetOutputKind g _
  | CSetThreadCount g _ | CSetIncremental g _ | CSetDebugInfo g _ | CConfigDefine g _ _ =>
      is_config w g
  | CSessionCreate c g | CLink c g _ => is_context w c /\ is_config w g
  | CSessionDestroy s | CSessionRun s _ | CSessionReset s | CSessionSetOption s _ _ =>
      is_session_of w s
  | CResultDestroy r => is_result w r
  end.

(** The states a program can bring the library to. *)
Inductive api_reachable : world -> Prop :=
  | reach_init throws files disk g :
      api_reachable (mkWorld ∅ 1%positive throws files disk [] g)
  | reach_call w call w' :
      api_reachable w -> call_ok w call -> api_run call w = Ret (tt, w') -> api_reachable w'.

(** ** Each call *)

Abbreviation preserves m w := (wp false m w (fun _ w' => world_inv w')).

Lemma preserves_discard {A} (m : M A) w : preserves m w -> preserves (discard m) w.
Proof. intros H. apply wp_bind. eapply wp_mono; [done|]. intros a w' Hi. by apply wp_ret. Qed.

(** Making an object of a type that is neither session nor diagnostic. *)
Lemma preserves_create {A} `{HeapObj A} (a : A) w :
  world_inv w -> is_session (to_obj a) = false -> is_diag (to_obj a) = false ->
  preserves (t ← may_throw;
             match t with
             | None => p ← alloc a; mret (Some p)
             | Some _ => mret None
             end) w.
Proof.
  intros Hi Hs Hd. apply wp_bind, wp_may_throw. intros [t|] ts; [by apply wp_ret|].
  apply wp_bind, wp_alloc, wp_ret. by apply inv_alloc.
Qed.

Lemma preserves_free {A} `{HeapObj A} w (p : option positive) :
  world_inv w -> (forall a : A, standalone (to_obj a) = true) -> handle (A := A) w p ->
  preserves (free (A := A) p) w.
Proof.
  intros Hi Hst Hp. destruct p as [p|]; [|by apply wp_ret]. destruct Hp as [a Hp].
  eapply wp_free; [done|]. by eapply inv_delete_standalone.
Qed.

(** A store of the type that is already there, after any steps that leave
    the heap alone. *)
Lemma preserves_store {A} `{HeapObj A} w w1 p (a0 a : A) :
  world_inv w -> w_heap w !! p = Some (to_obj a0) -> w_heap w1 = w_heap w ->
  w_next w1 = w_next w -> same_obj (to_obj a0) (to_obj a) ->
  is_session (to_obj a0) = false -> is_diag (to_obj a0) = false ->
  preserves (store p a) w1.
Proof.
  intros Hi Hp Hw Hn Hs Hno Hd. eapply wp_store; [by rewrite Hw|]. cbn.
  rewrite Hw, Hn. by eapply inv_update.
Qed.

(** The string and list helpers touch neither heap nor allocator. *)
Definition quiet {A} (m : M A) (w : world) : Prop :=
  wp false m w (fun _ w' => w_heap w' = w_heap w /\ w_next w' = w_next w).

Lemma quiet_throw {A} (f : option thrown -> A) w : quiet (t ← may_throw; mret (f t)) w.
Proof. apply wp_bind, wp_may_throw. intros t ts. by apply wp_ret. Qed.

Lemma quiet_set_string v w : quiet (set_string v) w.
Proof.
  destruct v as [v|]; [|by apply wp_ret].
  apply wp_bind, wp_may_throw. intros [t|] ts; by apply wp_ret.
Qed.

Lemma quiet_push_back l v w : quiet (push_back_string l v) w.
Proof.
  destruct v as [v|]; [|by apply wp_ret].
  apply wp_bind, wp_may_throw. intros [t|] ts; by apply wp_ret.
Qed.

Lemma quiet_define_kv l k v w : quiet (define_kv l k v) w.
Proof.
  destruct k, v; try by apply wp_ret.
  apply wp_bind, wp_may_throw. intros [t|] ts; by apply wp_ret.
Qed.

Lemma preserves_context_set c w (f : olnk_context -> olnk_context) :
  world_inv w -> is_context w (Some c) ->
  preserves (x ← load (A := olnk_context) c; store c (f x)) w.
Proof.
  intros Hi [x Hc]. apply wp_bind. eapply wp_load; [done|]. by eapply preserves_store.
Qed.

Lemma preserves_config_assign g w upd :
  world_inv w -> is_config w g -> preserves (config_assign upd g) w.
Proof.
  intros Hi Hg. destruct g as [g|]; [|by apply wp_ret]. destruct Hg as [x Hg].
  apply wp_bind. eapply wp_load; [done|]. apply wp_bind.
  eapply wp_mono; [by eapply preserves_store|]. intros ? w' Hi'. by apply wp_ret.
Qed.

Lemma preserves_config_set_string g w upd v :
  world_inv w -> is_config w g -> preserves (config_set_string upd g v) w.
Proof.
  intros Hi Hg. destruct g as [g|]; [|by apply wp_ret]. destruct Hg as [x Hg].
  apply wp_bind. eapply wp_load; [done|]. apply wp_bind.
  eapply wp_mono; [apply quiet_set_string|]. intros [st [s|]] w1 [Hw Hn]; apply wp_bind.
  - eapply wp_mono; [by eapply preserves_store|]. intros ? w' Hi'. by apply wp_ret.
  - do 2 apply wp_ret. by rewrite Hw, Hn.
Qed.

Lemma preserves_config_push g w field upd v :
  world_inv w -> is_config w g -> preserves (config_push field upd g v) w.
Proof.
  intros Hi Hg. destruct g as [g|]; [|by apply wp_ret]. destruct Hg as [x Hg].
  apply wp_bind. eapply wp_load; [done|]. apply wp_bind.
  eapply wp_mono; [apply quiet_push_back|]. intros [st l] w1 [Hw Hn]. apply wp_bind.
  eapply wp_mono; [by eapply preserves_store|]. intros ? w' Hi'. by apply wp_ret.
Qed.

Lemma preserves_config_define g w k v :
  world_inv w -> is_config w g -> preserves (olnk_config_define g k v) w.
Proof.
  intros Hi Hg. destruct g as [g|]; [|by apply wp_ret]. destruct Hg as [x Hg].
  apply wp_bind. eapply wp_load; [done|]. apply wp_bind.
  eapply wp_mono; [apply quiet_define_kv|]. intros [st l] w1 [Hw Hn]. apply wp_bind.
  eapply wp_mono; [by eapply preserves_store|]. intros ? w' Hi'. by apply wp_ret.
Qed.

Lemma preserves_context_set_option c w k v :
  world_inv w -> is_context w c -> preserves (olnk_context_set_option c k v) w.
Proof.
  intros Hi Hc. destruct c as [c|]; [|by apply wp_ret]. destruct Hc as [x Hc].
  apply wp_bind. eapply wp_load; [done|]. apply wp_bind.
  eapply wp_mono; [apply quiet_define_kv|]. intros [st l] w1 [Hw Hn]. apply wp_bind.
  eapply wp_mono; [by eapply preserves_store|]. intros ? w' Hi'. by apply wp_ret.
Qed.

Lemma preserves_session_set_option s w k v :
  world_inv w -> is_session_of w s -> preserves (olnk_session_set_option s k v) w.
Proof.
  intros Hi Hs. destruct s as [s|]; [|by apply wp_ret]. destruct Hs as [x Hs].
  apply wp_bind. eapply wp_load; [done|]. apply wp_bind.
  eapply wp_mono; [apply quiet_define_kv|]. intros [st l] w1 [Hw Hn]. apply wp_bind.
  eapply (wp_store false (A := olnk_session) _ x); [by rewrite Hw|]. apply wp_ret. cbn.
  rewrite Hw, Hn. by eapply inv_session_same.
Qed.

Lemma preserves_session_reset s w :
  world_inv w -> is_session_of w s -> preserves (olnk_session_reset s) w.
Proof.
  intros Hi Hs. destruct s as [s|]; [|by apply wp_ret]. destruct Hs as [x Hs].
  apply wp_bind. eapply wp_mono; [by eapply safe_clear|].
  intros ? w1 (Hi1 & Hk1 & _ & _). destruct (keeps_session _ _ _ _ Hk1 Hs) as (x1 & Hs1 & _).
  apply wp_bind. eapply wp_load; [done|]. apply wp_bind.
  eapply (wp_store false (A := olnk_session) _ x1); [done|]. apply wp_bind.
  match goal with |- wp _ _ ?w2 _ => assert (world_inv w2) as Hi2 end.
  { cbn. by eapply inv_session_same. }
  eapply wp_mono; [apply safe_log; [|done]|].
  - eapply (session_ctx_live _ s (session_with_options x1 [])); [done|].
    cbn. apply lookup_insert_eq.
  - intros ? w3 (Hi3 & _). by apply wp_ret.
Qed.

Lemma preserves_session_create c g w :
  world_inv w -> is_context w c -> is_config w g -> preserves (olnk_session_create c g) w.
Proof.
  intros Hi Hc Hg. destruct c as [c|], g as [g|]; try by apply wp_ret.
  destruct Hc as [cx Hc], Hg as [cfg Hg]. eapply wp_mono; [by eapply session_create_post|].
  intros [s|] w'; [by intros [(? & _) _]|]. by intros [(? & _)|(s & t & ts & _ & ? & _)].
Qed.

Lemma preserves_link c g o w :
  world_inv w -> is_context w c -> is_config w g ->
  preserves (olnk_link lua_formats lua_machines c g o) w.
Proof.
  intros Hi Hc Hg. destruct c as [c|], g as [g|]; try by apply wp_ret.
  destruct Hc as [cx Hc], Hg as [cfg Hg]. unfold olnk_link.
  destruct o; [|by apply wp_ret]. cbn [negb]. apply wp_bind.
  eapply wp_mono; [by eapply session_create_post|]. intros [s|] w'.
  - intros (Hpost & Hs & Hs1). eapply wp_mono; [by eapply link_session_post|].
    by intros res w3 [(? & _) _].
  - intros H. apply wp_ret. by destruct H as [(? & _)|(s & t & ts & _ & ? & _)].
Qed.

Lemma preserves_context_destroy c w :
  world_inv w -> call_ok w (CContextDestroy c) -> preserves (olnk_context_destroy c) w.
Proof.
  intros Hi [Hc Href]. destruct c as [c|]; [|by apply wp_ret]. destruct Hc as [cx Hc].
  eapply (wp_free false (A := olnk_context)); [done|].
  eapply inv_delete_context; [done..|]. intros s se Hs. by destruct (Href s se Hs).
Qed.

Lemma api_call_preserves w call :
  world_inv w -> call_ok w call -> preserves (api_run call) w.
Proof.
  intros Hi Hok. destruct call; cbn [api_run call_ok] in *;
    try apply preserves_discard.
  - by apply preserves_create.
  - by apply preserves_context_destroy.
  - destruct c as [c|]; [|by apply wp_ret]. cbn. destruct (negb _); [by apply wp_ret|].
    by apply (preserves_context_set c w (fun c => _)).
  - destruct c as [c|]; [|by apply wp_ret]. by apply (preserves_context_set c w (fun c => _)).
  - destruct c as [c|]; [|by apply wp_ret]. by apply (preserves_context_set c w (fun c => _)).
  - by apply preserves_context_set_option.
  - by apply preserves_create.
  - by apply preserves_free.
  - destruct f; by apply preserves_config_set_string.
  - destruct f; by apply preserves_config_push.
  - unfold olnk_config_set_output_kind. destruct g as [g|]; [|by apply wp_ret].
    destruct (output_kind_of_Z kind); [by apply preserves_config_assign|by apply wp_ret].
  - by apply preserves_config_assign.
  - by apply preserves_config_assign.
  - by apply preserves_config_assign.
  - by apply preserves_config_define.
  - destruct Hok. by apply preserves_session_create.
  - destruct s as [s|]; [|by apply wp_ret]. destruct Hok as [se Hs].
    eapply wp_mono; [by eapply session_destroy_post|]. by intros ? w' [? _].
  - destruct s as [s|]; [|by apply wp_ret]. destruct Hok as [se Hs].
    eapply wp_mono; [by eapply session_run_post|]. by intros ? w' [(? & _) _].
  - by apply preserves_session_reset.
  - by apply preserves_session_set_option.
  - destruct Hok. by apply preserves_link.
  - by apply preserves_free.
Qed.

(** C12: In every state a program can reach through API calls on null or
    live handles, every session owns its diagnostics exclusively, every
    diagnostic has an owner and every session's context is alive; and the next
    such call has no undefined behaviour, whatever its allocations throw. *)
Theorem api_reachable_safe w call :
  api_reachable w ->
  world_inv w /\ (call_ok w call -> api_run call w <> Undef).
Proof.
  intros Hr. assert (world_inv w) as Hi.
  { induction Hr as [throws files disk g|w c w' Hr IH Hok Hrun].
    - cbn. split; [split|intros d x]; intros *; by rewrite lookup_empty.
    - pose proof (api_call_preserves w c IH Hok) as Hp. unfold wp in Hp.
      by rewrite Hrun in Hp. }
  split; [done|]. intros Hok Hun. pose proof (api_call_preserves w call Hi Hok) as Hp.
  unfold wp in Hp. by rewrite Hun in Hp.
Qed.

End Calls.

Lemma api_reachable_safe_witness :
  world_inv (mkWorld ∅ 1%positive [Some ThrowBadAlloc] ∅ (fun _ => WriteOk) [] []) /\
  (call_ok (mkWorld ∅ 1%positive [Some ThrowBadAlloc] ∅ (fun _ => WriteOk) [] []) CContextCreate ->
   api_run None None CContextCreate
     (mkWorld ∅ 1%positive [Some ThrowBadAlloc] ∅ (fun _ => WriteOk) [] []) <> Undef).
Proof.
  apply (api_reachable_safe None None _ CContextCreate). apply reach_init.
Defined.
