(* ===== verification/ApiTypes.v ===== *)
(** * Well-typed objects

    The ranges the fields of the library's objects keep: log levels and
    severities are values of their enumerations, the flags of a config are 0 or
    1, counts and coordinates fit their C types, and an instance of a built-in
    format refers to one of the four descriptors. Proved with a Hoare triple in
    which an undefined or terminated run satisfies everything, so that no
    assumption on the handles is needed. *)

From S2P Require Import Prelude Abi Machine Format World FormatRun Api ApiCalls.

(** ** Typing *)

Definition config_typed (c : olnk_config) : Prop :=
  fits 32 (cf_thread_count c) /\
  (cf_incremental c = 0 \/ cf_incremental c = 1) /\ (cf_debug_info c = 0 \/ cf_debug_info c = 1).

Definition descriptor_typed (d : olnk_format_descriptor) : Prop :=
  exists i def, kStaticFormats !! i = Some def /\ fdef_descriptor def = Some d.

Definition obj_typed (o : obj) : Prop :=
  match o with
  | OContext c => 0 <= cx_log_level c <= 6
  | OConfig c => config_typed c
  | OSession s => config_typed (se_snapshot_config s)
  | ODiagnostic d => 0 <= ds_severity d <= 3 /\ fits 32 (ds_line d) /\ fits 32 (ds_column d)
  | OResult r =>
      fits 32 (rs_input_count r) /\ fits 32 (rs_warning_count r) /\ fits 32 (rs_error_count r) /\
      rs_elapsed_ns r = 0 /\ 0 <= rs_output_size r
  | OFormatInstance i => descriptor_typed (bf_descriptor i)
  | OStub _ | OReport _ => True
  end.

Definition heap_typed (h : gmap positive obj) : Prop := map_Forall (fun _ => obj_typed) h.

(** [m] keeps the heap well typed and returns a value that satisfies [P]. *)
Definition typed {A} (m : M A) (P : A -> Prop) : Prop :=
  forall w, heap_typed (w_heap w) ->
    match m w with Ret (a, w') => heap_typed (w_heap w') /\ P a | _ => True end.

Abbreviation anything := (fun _ => True).

Lemma typed_ret {A} (a : A) (P : A -> Prop) : P a -> typed (mret a) P.
Proof. by intros HP w Hw. Qed.

Lemma typed_bind {A B} (m : M A) (f : A -> M B) P Q :
  typed m P -> (forall a, P a -> typed (f a) Q) -> typed (m ≫= f) Q.
Proof.
  intros Hm Hf w Hw. unfold mbind, M_bind. specialize (Hm w Hw).
  destruct (m w) as [[a w']| |]; [|done..]. destruct Hm as [Hw' HP]. by apply Hf.
Qed.

Lemma typed_mono {A} (m : M A) (P Q : A -> Prop) :
  typed m P -> (forall a, P a -> Q a) -> typed m Q.
Proof.
  intros Hm HPQ w Hw. specialize (Hm w Hw). destruct (m w) as [[a w']| |]; naive_solver.
Qed.

Lemma typed_load {A} `{HeapObj A} p : typed (load (A := A) p) (fun a => obj_typed (to_obj a)).
Proof.
  intros w Hw. unfold load. destruct (w_heap w !! p) as [o|] eqn:Ho; [|done]. cbn.
  destruct (of_obj o) as [a|] eqn:Ha; [|done]. split; [done|].
  rewrite <- (to_of_obj _ _ Ha). by apply (map_Forall_lookup_1 _ _ _ _ Hw Ho).
Qed.

Lemma typed_modify (f : world -> world) :
  (forall w, w_heap (f w) = w_heap w) -> typed (modify f) anything.
Proof. intros Hf w Hw. cbn. by rewrite Hf. Qed.

Lemma typed_store {A} `{HeapObj A} p (a : A) :
  obj_typed (to_obj a) -> typed (store p a) anything.
Proof.
  intros Ha. eapply typed_bind; [apply typed_load|]. intros _ _ w Hw. split; [|done].
  by apply map_Forall_insert_2.
Qed.

Lemma typed_alloc {A} `{HeapObj A} (a : A) : obj_typed (to_obj a) -> typed (alloc a) anything.
Proof. intros Ha w Hw. split; [|done]. by apply map_Forall_insert_2. Qed.

Lemma typed_free {A} `{HeapObj A} p : typed (free (A := A) p) anything.
Proof.
  destruct p as [p|]; [|by apply typed_ret].
  eapply typed_bind; [apply typed_load|]. intros _ _ w Hw. split; [|done].
  by apply map_Forall_delete.
Qed.

Lemma typed_may_throw : typed may_throw anything.
Proof. intros w Hw. unfold may_throw. by destruct (w_throws w). Qed.

Lemma typed_get : typed get anything.
Proof. by intros w Hw. Qed.

Lemma typed_undefined {A} (P : A -> Prop) : typed undefined P.
Proof. by intros w Hw. Qed.

Lemma typed_noexcept : typed noexcept_alloc anything.
Proof.
  eapply typed_bind; [apply typed_may_throw|].
  intros [t|] _; [by intros w Hw|by apply typed_ret].
Qed.

Create HintDb typed.
#[export] Hint Resolve typed_ret typed_load typed_free typed_may_throw typed_get
  typed_noexcept typed_undefined : typed.

(** One step through a function body: a bind, a match, or a leaf. *)
Ltac typed_step :=
  match goal with
  | |- typed (mbind _ _) _ => eapply typed_bind; [solve [eauto with typed]|intros ? ?]
  | |- typed (mbind _ _) _ => apply (typed_bind _ _ anything); [|intros ? _]
  | |- typed (match ?x with _ => _ end) _ => let E := fresh "E" in destruct x eqn:E
  | |- typed (mret _) _ => apply typed_ret; try done
  | |- typed (store _ _) _ => apply typed_store
  | |- typed (alloc _) _ => apply typed_alloc
  | |- typed (modify _) _ => by apply typed_modify
  | |- typed (emit _) _ => by apply typed_modify
  | |- typed _ _ => by (eauto with typed)
  end.

Ltac typed_run := cbv zeta; repeat (typed_step; cbv beta iota zeta).

(** ** The helpers *)

Lemma typed_log c level msg : typed (safe_emit_log c level msg) anything.
Proof. unfold safe_emit_log. typed_run. Qed.

Lemma typed_diag_event c sev msg : typed (diag_callback_event c sev msg) anything.
Proof. unfold diag_callback_event. typed_run. Qed.

Lemma typed_file_size path : typed (file_size_or_zero path) (fun n => 0 <= n).
Proof. unfold file_size_or_zero. typed_run. case_match; lia. Qed.

Lemma typed_write_output path bytes : typed (write_output_file path bytes) anything.
Proof. unfold write_output_file. typed_run. Qed.

#[export] Hint Resolve typed_log typed_diag_event typed_write_output : typed.

Lemma typed_add_diagnostic s sev msg file line col :
  fits 32 line -> fits 32 col -> typed (add_diagnostic s sev msg file line col) anything.
Proof.
  intros Hl Hc. unfold add_diagnostic. typed_run; [|done].
  unfold valid_diag_severity in *. bool_prop. by split_and!.
Qed.

Lemma typed_free_diagnostics ds : typed (free_diagnostics ds) anything.
Proof. induction ds as [|d ds IH]; cbn [free_diagnostics]; typed_run. Qed.

#[export] Hint Resolve typed_free_diagnostics : typed.

Lemma typed_clear s : typed (clear_diagnostics s) anything.
Proof. unfold clear_diagnostics. typed_run. done. Qed.

#[export] Hint Resolve typed_clear : typed.

Lemma typed_count_severity ds sev n : fits 32 n -> typed (count_severity ds sev n) (fits 32).
Proof.
  revert n. induction ds as [|d ds IH]; intros n Hn; cbn [count_severity]; [by apply typed_ret|].
  typed_run. apply IH. destruct (_ =? _); [apply wrap_fits; lia|done].
Qed.

Lemma typed_count s sev : typed (count_diagnostics_with_severity s sev) (fits 32).
Proof.
  unfold count_diagnostics_with_severity. typed_run. by apply typed_count_severity.
Qed.

#[export] Hint Resolve typed_count typed_file_size : typed.

Lemma typed_populate r s st : typed (populate_result_from_session r s st 0) anything.
Proof.
  unfold populate_result_from_session. typed_run; cbn in *; try naive_solver.
  split_and!; try naive_solver; apply wrap_fits; lia.
Qed.

Lemma typed_finish s r st : typed (finish_output_size s r st) anything.
Proof. unfold finish_output_size. typed_run; cbn in *; naive_solver lia. Qed.

#[export] Hint Resolve typed_populate typed_finish : typed.

(** ** Contexts, configs and their setters *)

Lemma typed_set_string v : typed (set_string v) anything.
Proof. unfold set_string. typed_run. Qed.

Lemma typed_push_back l v : typed (push_back_string l v) anything.
Proof. unfold push_back_string. typed_run. Qed.

Lemma typed_define_kv l k v : typed (define_kv l k v) anything.
Proof. unfold define_kv. typed_run. Qed.

#[export] Hint Resolve typed_set_string typed_push_back typed_define_kv : typed.

Lemma typed_config_set_string upd g v :
  (forall s c, config_typed c -> config_typed (upd s c)) ->
  typed (config_set_string upd g v) anything.
Proof. intros Hupd. unfold config_set_string. typed_run. by apply Hupd. Qed.

Lemma typed_config_push field upd g v :
  (forall l c, config_typed c -> config_typed (upd l c)) ->
  typed (config_push field upd g v) anything.
Proof. intros Hupd. unfold config_push. typed_run. by apply Hupd. Qed.

Lemma typed_config_assign upd g :
  (forall c, config_typed c -> config_typed (upd c)) -> typed (config_assign upd g) anything.
Proof. intros Hupd. unfold config_assign. typed_run. by apply Hupd. Qed.

Lemma typed_config_default : config_typed config_default.
Proof. unfold config_typed, fits. cbn. lia. Qed.

(** ** The formats and the session run *)

Lemma typed_builtin_create d out :
  (forall x, d = Some x -> descriptor_typed x) -> typed (builtin_create d out) anything.
Proof. intros Hd. unfold builtin_create. typed_run. by apply Hd. Qed.

Lemma typed_builtin_destroy i : typed (builtin_destroy i) anything.
Proof. unfold builtin_destroy. typed_run. Qed.

Lemma typed_builtin_validate i c : typed (builtin_validate_config i c) anything.
Proof. unfold builtin_validate_config. typed_run. Qed.

(** An output info that a serializer may hand to the session. *)
Definition info_ok (r : olnk_status * option olnk_format_output_info) : Prop :=
  forall o, snd r = Some o -> 0 <= fo_file_size o.

Lemma typed_emit_output ctx bytes : typed (api_format_emit_output ctx bytes) anything.
Proof. unfold api_format_emit_output. typed_run. Qed.

Lemma typed_builtin_serialize i data iv out :
  info_ok (OLNK_STATUS_OK, out) ->
  typed (builtin_serialize i (Some {| fc_host := Some api_format_host; fc_data := data |}) iv out)
    info_ok.
Proof.
  intros Hout. unfold builtin_serialize. cbn [context_emit_output fc_host fh_emit_output api_format_host].
  typed_run; try apply typed_emit_output.
  intros ? [= <-]. cbn. lia.
Qed.

Lemma typed_call_destroy i : typed (call_destroy g_builtin_format_vtable i) anything.
Proof. apply typed_builtin_destroy. Qed.

#[export] Hint Resolve typed_builtin_destroy typed_builtin_validate typed_emit_output
  typed_call_destroy : typed.

Lemma typed_run_with_instance i data iv out :
  info_ok (OLNK_STATUS_OK, out) ->
  typed (run_with_instance g_builtin_format_vtable i
           (Some {| fc_host := Some api_format_host; fc_data := data |}) iv out) info_ok.
Proof.
  intros Hout. pose proof (typed_builtin_serialize i data iv out Hout).
  unfold run_with_instance.
  cbn [fv_apply_defaults fv_validate_config fv_serialize g_builtin_format_vtable].
  typed_run.
Qed.

Lemma info_ok_init st out : info_ok (st, initialize_output_info out).
Proof. destruct out; [|done]. intros ? [= <-]. cbn. lia. Qed.

#[export] Hint Resolve info_ok_init : typed.

Lemma typed_run_format i def data iv out :
  kStaticFormats !! i = Some def ->
  typed (run_format_serializer (Some (builtin_format_def def))
           (Some {| fc_host := Some api_format_host; fc_data := data |}) iv out) info_ok.
Proof.
  intros Hdef. unfold run_format_serializer, builtin_format_def. cbn [fmd_vtable fmd_descriptor].
  cbv zeta. pose proof (info_ok_init OLNK_STATUS_OK out) as Hinit.
  destruct (initialize_output_info out) as [o|]; [|by apply typed_ret].
  destruct (negb iv); [by apply typed_ret|]. destruct (negb _); [by apply typed_ret|].
  destruct (fdef_vtable def); [|apply typed_undefined].
  cbn [fv_create g_builtin_format_vtable]. eapply typed_bind.
  - apply typed_builtin_create. intros d Hd. by exists i, def.
  - intros [st [p|]] _; (destruct (negb _); [by apply typed_ret|]); [|by apply typed_ret].
    by apply typed_run_with_instance.
Qed.

Section Run.
Variable lua_formats : option (list (option lua_format_spec)).
Variable lua_machines : option (list (option lua_machine_spec)).

Lemma typed_find_machine name : typed (find_machine lua_machines name) anything.
Proof.
  unfold find_machine. eapply typed_bind; [apply typed_get|]. intros w _.
  destruct (olnk_find_machine _ _ _). typed_run.
Qed.

Lemma typed_run_serializer s r c i def :
  kStaticFormats !! i = Some def -> typed (run_serializer s r c def) anything.
Proof.
  intros Hdef. unfold run_serializer. eapply typed_bind; [by eapply typed_run_format|].
  intros [st out] Hout. typed_run; cbn in *.
  - destruct out as [o|]; [specialize (Hout o eq_refl)|]; cbn in *; naive_solver lia.
Qed.

Lemma typed_run_diagnostic s msg k :
  typed k anything -> typed (run_diagnostic s msg k) anything.
Proof.
  intros Hk. unfold run_diagnostic. typed_run.
  by apply typed_add_diagnostic; unfold fits.
Qed.

Lemma typed_run_diagnostic_concat s pre name k :
  typed k anything -> typed (run_diagnostic_concat s pre name k) anything.
Proof. intros Hk. unfold run_diagnostic_concat. typed_run. by apply typed_run_diagnostic. Qed.

Lemma typed_run_machine s r c cfg i st :
  typed (run_machine lua_machines s r c cfg (i ≫= fun i => kStaticFormats !! i) st) anything.
Proof.
  unfold run_machine. eapply typed_bind; [apply typed_find_machine|]. intros m _.
  destruct (i ≫= _) as [def|] eqn:Hi.
  - destruct i as [i|]; [|done]. cbn in Hi. typed_run.
    + by eapply typed_run_serializer.
    + by apply typed_run_diagnostic_concat, typed_ret.
  - typed_run. by apply typed_run_diagnostic_concat, typed_ret.
Qed.

Lemma typed_run_body s r : typed (run_body lua_formats lua_machines s r) anything.
Proof.
  unfold run_body. eapply typed_bind; [apply typed_load|]. intros se _. cbv zeta.
  destruct (cf_input_files _); [by apply typed_run_diagnostic, typed_ret|].
  destruct (_ =? _)%string; [by apply typed_run_diagnostic, typed_ret|].
  unfold run_try. eapply (typed_bind _ _ anything).
  - destruct (bool_decide _); [|by apply typed_ret]. cbv zeta.
    destruct (olnk_find_format _ _) as [i|].
    + apply (typed_run_machine _ _ _ _ (Some i)).
    + apply typed_run_diagnostic_concat, (typed_run_machine _ _ _ _ None).
  - intros [st|[]] _; try by apply typed_ret. by apply typed_run_diagnostic, typed_ret.
Qed.

Lemma typed_result_default : obj_typed (OResult result_default).
Proof. cbn. unfold fits. lia. Qed.

Lemma typed_session_run s out : typed (olnk_session_run lua_formats lua_machines s out) anything.
Proof.
  pose proof typed_run_body. pose proof typed_result_default.
  unfold olnk_session_run, make_result. typed_run; done.
Qed.

Lemma typed_session_create c g : typed (olnk_session_create c g) anything.
Proof.
  pose proof typed_config_default. unfold olnk_session_create. typed_run; done.
Qed.

Lemma typed_session_destroy s : typed (olnk_session_destroy s) anything.
Proof. unfold olnk_session_destroy. typed_run. Qed.

Lemma typed_link c g out : typed (olnk_link lua_formats lua_machines c g out) anything.
Proof.
  pose proof typed_session_create. pose proof typed_session_run.
  pose proof typed_session_destroy. unfold olnk_link. typed_run.
Qed.

(** ** Calls *)

(** The arguments have the ranges of their C types. *)
Definition call_typed (call : api_call) : Prop :=
  match call with CSetThreadCount _ n => fits 32 n | _ => True end.

Lemma typed_discard {A} (m : M A) : typed m anything -> typed (discard m) anything.
Proof. intros Hm. unfold discard. typed_run. Qed.

Lemma typed_call call :
  call_typed call -> typed (api_run lua_formats lua_machines call) anything.
Proof.
  intros Hcall. destruct call; cbn [api_run call_typed] in *; try apply typed_discard.
  - unfold olnk_context_create. typed_run. cbn. lia.
  - unfold olnk_context_destroy. typed_run.
  - unfold olnk_context_set_log_level. typed_run. unfold valid_log_level in *. bool_prop. cbn. lia.
  - unfold olnk_context_set_log_callback. typed_run. done.
  - unfold olnk_context_set_diagnostic_callback. typed_run. done.
  - unfold olnk_context_set_option. typed_run. done.
  - unfold olnk_config_create. typed_run. apply typed_config_default.
  - unfold olnk_config_destroy. typed_run.
  - destruct f; apply typed_config_set_string; done.
  - destruct f; apply typed_config_push; done.
  - unfold olnk_config_set_output_kind. typed_run. by apply typed_config_assign.
  - apply typed_config_assign. intros c' (_ & Hc). by split.
  - apply typed_config_assign. intros c' (Hn & _ & Hd). split_and!; [done| |done].
    cbn. destruct (_ =? _); lia.
  - apply typed_config_assign. intros c' (Hn & Hi & _). split_and!; [done..|].
    cbn. destruct (_ =? _); lia.
  - unfold olnk_config_define. typed_run. done.
  - apply typed_session_create.
  - apply typed_session_destroy.
  - apply typed_session_run.
  - unfold olnk_session_reset. typed_run. done.
  - unfold olnk_session_set_option. typed_run. done.
  - apply typed_link.
  - unfold olnk_result_destroy. typed_run.
Qed.

Fixpoint api_calls (calls : list api_call) : M unit :=
  match calls with
  | [] => mret tt
  | call :: calls => _ ← api_run lua_formats lua_machines call; api_calls calls
  end.

Lemma typed_calls calls : Forall call_typed calls -> typed (api_calls calls) anything.
Proof.
  induction 1 as [|call calls Hc _ IH]; cbn [api_calls]; [by apply typed_ret|].
  eapply typed_bind; [by apply typed_call|done].
Qed.

(** C35: Any sequence of API calls whose arguments have their C types - on
    any handles, with any allocation failures - that is defined takes
    well-typed objects to well-typed objects: log levels and severities are
    values of their enumerations, the flags of a config, also of the snapshot a
    session holds, are 0 or 1 and its thread count fits 32 bits, the counts of a
    result fit 32 bits, its elapsed time is 0 and its size is not negative, and
    format instances refer to descriptors of the registry. *)
Theorem api_calls_typed calls w w' :
  Forall call_typed calls -> heap_typed (w_heap w) -> api_calls calls w = Ret (tt, w') ->
  heap_typed (w_heap w').
Proof.
  intros Hcalls Hw Hrun. pose proof (typed_calls calls Hcalls w Hw) as H.
  rewrite Hrun in H. apply H.
Qed.

End Run.

Definition ex_calls : list api_call :=
  [CContextCreate; CConfigCreate; CSetLogLevel (Some 1%positive) 4;
   CSetThreadCount (Some 2%positive) 8; CSetIncremental (Some 2%positive) 7;
   CConfigSet FOutputPath (Some 2%positive) (Some "a.out"%string);
   CConfigAdd FInputFile (Some 2%positive) (Some "main.o"%string);
   CLink (Some 1%positive) (Some 2%positive) true].

Definition empty_world : world :=
  mkWorld ∅ 1%positive [] ∅ (fun _ => WriteOk) [] g_builtin_machines.

Lemma api_calls_typed_witness :
  exists w, api_calls None None ex_calls empty_world = Ret (tt, w) /\
    heap_typed (w_heap w) /\ size (w_heap w) = 3%nat.
Proof.
  destruct (api_calls None None ex_calls empty_world) as [[[] w]| |] eqn:Hw;
    [|vm_compute in Hw; discriminate..].
  exists w. split; [reflexivity|]. split.
  - apply (api_calls_typed None None ex_calls empty_world w);
      [repeat constructor; done|apply map_Forall_empty|exact Hw].
  - vm_compute in Hw. injection Hw as <-. vm_compute. reflexivity.
Defined.
