(* ===== verification/ApiRun.v ===== *)
(** * What a link call does

    An abstract account of olnk_link - which configuration error it reports or
    which bytes it writes, and the result object that describes it - and the
    proof that the call, when no allocation fails, does exactly that and
    nothing else. *)

From S2P Require Import Prelude Abi Machine Format World FormatRun Api ApiSafe.

(** ** The abstract link *)

(** A configuration is either wrong, with the diagnostic for it, or calls for
    an output file with the given content. *)
Inductive link_plan : Type :=
  | PlanError (message : string)
  | PlanWrite (payload : string).

Section Spec.
Variable lua_formats : option (list (option lua_format_spec)).
Variable lua_machines : option (list (option lua_machine_spec)).

(** The descriptor of the format a name stands for. *)
Definition find_descriptor (name : string) : option olnk_format_descriptor :=
  match olnk_find_format lua_formats (Some name) with
  | None => None
  | Some i => def ← kStaticFormats !! i; fdef_descriptor def
  end.

Definition plan_link (g : registry) (cfg : olnk_config) : link_plan :=
  let format_name := name_or "ELF" (cf_format_name cfg) in
  let machine_name := name_or "x86_64" (cf_machine_name cfg) in
  if bool_decide (cf_input_files cfg = []) then PlanError "no input files configured"
  else if bool_decide (cf_output_path cfg = EmptyString)
  then PlanError "no output path configured"
  else match find_descriptor format_name with
       | None => PlanError ("unknown format: " ++ format_name)
       | Some d =>
           match fst (olnk_find_machine lua_machines g (Some machine_name)) with
           | None => PlanError ("unknown machine: " ++ machine_name)
           | Some _ => PlanWrite (format_payload d)
           end
       end.

(** The stream is good after the write. A failure to flush it when it is closed
    goes unnoticed. *)
Definition disk_accepts (disk : disk_outcome) : bool :=
  match disk with OpenFails | WriteFails _ => false | CloseFails _ | WriteOk => true end.

Definition plan_status (plan : link_plan) (disk : disk_outcome) : olnk_status :=
  match plan with
  | PlanError _ => OLNK_STATUS_INVALID_ARGUMENT
  | PlanWrite _ => if disk_accepts disk then OLNK_STATUS_OK else OLNK_STATUS_IO_ERROR
  end.

Definition plan_files (plan : link_plan) (disk : disk_outcome) (path : string)
    (files : gmap string string) : gmap string string :=
  match plan, disk with
  | PlanWrite payload, WriteOk => <[path := payload]> files
  | PlanWrite payload, (WriteFails n | CloseFails n) => <[path := String.substring 0 n payload]> files
  | _, _ => files
  end.

Definition plan_result (plan : link_plan) (disk : disk_outcome) (cfg : olnk_config)
    : ResultStorage :=
  {| rs_status := plan_status plan disk;
     rs_output_path := cf_output_path cfg;
     rs_output_size := match plan with
                       | PlanWrite payload =>
                           if disk_accepts disk then Z.of_nat (String.length payload) else 0
                       | PlanError _ => 0
                       end;
     rs_elapsed_ns := 0;
     rs_input_count := u32 (Z.of_nat (length (cf_input_files cfg)));
     rs_warning_count := 0;
     rs_error_count := match plan with PlanError _ => 1 | PlanWrite _ => 0 end |}.

End Spec.

(** ** Events *)

Definition add_events (es : list event) (w : world) : world :=
  mkWorld (w_heap w) (w_next w) (w_throws w) (w_files w) (w_disk w) (w_events w ++ es)
    (w_machines w).

(** The log callback of a context, by its level. *)
Definition log_events (cx : olnk_context) (level : olnk_log_level) (msg : string) : list event :=
  let l := olnk_log_level_Z level in
  if (cx_log_level cx =? olnk_log_level_Z OLNK_LOG_OFF) || (l <? cx_log_level cx) then []
  else match cx_log_callback cx with
       | Some f => [ELog f (cx_log_user_data cx) l msg]
       | None => []
       end.

Definition diag_events (cx : olnk_context) (severity : Z) (msg : string) : list event :=
  match cx_diag_callback cx with
  | Some f => [EDiag f (cx_diag_user_data cx) severity msg]
  | None => []
  end.

Lemma add_events_nil w : add_events [] w = w.
Proof. destruct w. unfold add_events. cbn. by rewrite app_nil_r. Qed.

Lemma log_run tot w c cx level msg (Q : unit -> world -> Prop) :
  w_heap w !! c = Some (OContext cx) -> Q tt (add_events (log_events cx level msg) w) ->
  wp tot (safe_emit_log (Some c) (olnk_log_level_Z level) (Some msg)) w Q.
Proof.
  intros Hc HQ. unfold safe_emit_log.
  assert (negb (valid_log_level (olnk_log_level_Z level)) = false) as -> by by destruct level.
  apply wp_bind. eapply wp_load; [done|]. unfold log_events in HQ.
  destruct (_ =? _); [by rewrite add_events_nil in HQ|].
  destruct (_ <? _); [by rewrite add_events_nil in HQ|].
  destruct (cx_log_callback cx); [done|by rewrite add_events_nil in HQ].
Qed.

Lemma diag_event_run tot w c cx sev msg (Q : unit -> world -> Prop) :
  w_heap w !! c = Some (OContext cx) -> Q tt (add_events (diag_events cx sev msg) w) ->
  wp tot (diag_callback_event (Some c) sev msg) w Q.
Proof.
  intros Hc HQ. apply wp_bind. eapply wp_load; [done|]. unfold diag_events in HQ.
  destruct (cx_diag_callback cx); [done|by rewrite add_events_nil in HQ].
Qed.

(** ** The pieces of a calm run

    [calm w]: no allocation fails from here on. *)
Definition calm (w : world) : Prop := w_throws w = [].

(** The state with another heap and, for the allocator, another next address. *)
Definition moved (h : gmap positive obj) (n : positive) (w : world) : world :=
  mkWorld h n (w_throws w) (w_files w) (w_disk w) (w_events w) (w_machines w).

Definition error_diagnostic (msg : string) : DiagnosticStorage :=
  {| ds_severity := 2; ds_message := msg; ds_file := EmptyString; ds_line := 0; ds_column := 0 |}.

Section Calm.
Variable lua_formats : option (list (option lua_format_spec)).
Variable lua_machines : option (list (option lua_machine_spec)).
Variables (p r c : positive) (cx : olnk_context) (cfg : olnk_config).

(** The session of the run, before and after the error diagnostic [d]. *)
Definition run_session (ds : list positive) : olnk_session :=
  {| se_context := Some c; se_snapshot_config := cfg; se_diagnostics := ds; se_options := [] |}.

Lemma run_diagnostic_calm w msg k (Q : olnk_status + olnk_status -> world -> Prop) :
  calm w -> w_heap w !! p = Some (OSession (run_session [])) ->
  w_heap w !! c = Some (OContext cx) -> w_heap w !! w_next w = None ->
  wp true k
    (add_events (diag_events cx 2 msg)
      (moved (<[p := OSession (run_session [w_next w])]>
                (<[w_next w := ODiagnostic (error_diagnostic msg)]> (w_heap w)))
             (Pos.succ (w_next w)) w)) Q ->
  wp true (run_diagnostic p msg k) w Q.
Proof.
  intros Hcalm Hp Hc Hn HQ. apply wp_bind. unfold add_diagnostic.
  cbn [negb valid_diag_severity]. apply wp_bind, wp_may_throw_calm; [done|].
  apply wp_bind, wp_alloc. apply wp_bind.
  eapply wp_load; [cbn; rewrite lookup_insert_ne by congruence; done|].
  apply wp_bind. eapply wp_store; [cbn; rewrite lookup_insert_ne by congruence; done|].
  apply wp_bind. eapply diag_event_run.
  { cbn. rewrite lookup_insert_ne by congruence. rewrite lookup_insert_ne by congruence. done. }
  apply wp_ret. rewrite bool_decide_eq_true_2 by done. exact HQ.
Qed.

Lemma run_diagnostic_concat_calm w pre name k (Q : olnk_status + olnk_status -> world -> Prop) :
  calm w -> w_heap w !! p = Some (OSession (run_session [])) ->
  w_heap w !! c = Some (OContext cx) -> w_heap w !! w_next w = None ->
  wp true k
    (add_events (diag_events cx 2 (pre ++ name))
      (moved (<[p := OSession (run_session [w_next w])]>
                (<[w_next w := ODiagnostic (error_diagnostic (pre ++ name))]> (w_heap w)))
             (Pos.succ (w_next w)) w)) Q ->
  wp true (run_diagnostic_concat p pre name k) w Q.
Proof.
  intros Hcalm Hp Hc Hn HQ. apply wp_bind, wp_may_throw_calm; [done|].
  by apply run_diagnostic_calm.
Qed.

(** The serializer of a built-in format: the payload goes to the output file
    and the instance made for the call is gone. *)
Lemma run_serializer_calm w x d def (Q : olnk_status -> world -> Prop) :
  calm w -> w_heap w !! p = Some (OSession (run_session [])) ->
  w_heap w !! r = Some (OResult x) -> w_heap w !! w_next w = None ->
  cf_output_path cfg <> EmptyString ->
  fdef_descriptor def = Some d -> fdef_vtable def = true ->
  let plan := PlanWrite (format_payload d) in
  let disk := w_disk w (cf_output_path cfg) in
  Q (plan_status plan disk)
    (with_files (plan_files plan disk (cf_output_path cfg) (w_files w))
      (moved (if disk_accepts disk then <[r := OResult {| rs_status := rs_status x;
                   rs_output_path := rs_output_path x;
                   rs_output_size := Z.of_nat (String.length (format_payload d));
                   rs_elapsed_ns := rs_elapsed_ns x; rs_input_count := rs_input_count x;
                   rs_warning_count := rs_warning_count x;
                   rs_error_count := rs_error_count x |}]> (w_heap w)
              else w_heap w) (Pos.succ (w_next w)) w)) ->
  wp true (run_serializer p r (Some c) def) w Q.
Proof.
  intros Hcalm Hp Hr Hn Hpath Hd Hv plan disk HQ.
  assert ((format_payload d =? "")%string = false) as Hpay by by destruct d as [? ? [?|]].
  assert ((cf_output_path cfg =? "")%string = false) as Hpath'
    by (by apply String.eqb_neq).
  unfold run_serializer. apply wp_bind. unfold run_format_serializer, builtin_format_def.
  cbn [initialize_output_info negb fmd_vtable fmd_descriptor has_minimum_definition].
  rewrite Hd, Hv. cbn [fv_serialize g_builtin_format_vtable negb fv_create builtin_create].
  apply wp_bind, wp_bind, wp_may_throw_calm; [done|]. apply wp_bind, wp_alloc, wp_ret.
  rewrite bool_decide_eq_true_2 by done. cbn [negb].
  unfold run_with_instance.
  cbn [fv_apply_defaults fv_validate_config fv_serialize g_builtin_format_vtable].
  apply wp_bind, wp_ret. rewrite bool_decide_eq_true_2 by done. cbn [negb andb].
  apply wp_bind. cbn [builtin_validate_config fc_data fc_config]. apply wp_ret.
  rewrite bool_decide_eq_true_2 by done. cbn [negb]. apply wp_bind.
  unfold builtin_serialize. cbn [context_emit_output fc_host fh_emit_output api_format_host negb].
  apply wp_bind. eapply (wp_load true (A := BuiltinFormatInstance));
    [cbn; by rewrite lookup_insert_eq|].
  apply wp_bind, wp_noexcept_alloc_calm; [done|].
  apply wp_bind. cbn [api_format_emit_output fc_session fc_data bf_descriptor].
  apply wp_bind. eapply wp_load; [cbn; rewrite lookup_insert_ne by congruence; done|].
  cbn [se_snapshot_config run_session]. unfold write_output_file. rewrite Hpay, Hpath'.
  cbn [orb]. apply wp_bind, wp_get. cbn [w_disk]. fold disk. subst plan.
  assert (forall h : gmap positive obj, h !! w_next w = None ->
    delete (w_next w) (<[w_next w := OFormatInstance {| bf_descriptor := d |}]> h) = h) as Hdel.
  { intros h Hh. by apply delete_insert_id. }
  destruct disk eqn:Hdisk;
    (try (apply wp_bind, wp_modify)); apply wp_ret;
    [rewrite bool_decide_eq_false_2 by done|rewrite bool_decide_eq_false_2 by done
    |rewrite bool_decide_eq_true_2 by done|rewrite bool_decide_eq_true_2 by done];
    cbn [negb];
    try (apply wp_bind; eapply (wp_load true (A := BuiltinFormatInstance));
         [cbn; by rewrite lookup_insert_eq|]); apply wp_ret; apply wp_bind;
    (eapply (wp_free true (A := BuiltinFormatInstance)); [cbn; by rewrite lookup_insert_eq|]);
    apply wp_ret; cbn [with_heap with_files w_heap w_next w_throws w_files w_disk w_events w_machines];
    [rewrite bool_decide_eq_false_2 by done|rewrite bool_decide_eq_false_2 by done
    |rewrite bool_decide_eq_true_2 by done|rewrite bool_decide_eq_true_2 by done];
    rewrite Hdel by done; [exact HQ|exact HQ|..];
  apply wp_bind; (eapply wp_load; [exact Hr|]); apply wp_bind; (eapply wp_store; [exact Hr|]);
  apply wp_ret; exact HQ.
Qed.

(** The diagnostics of the run when it ends: none, or the one error. *)
Definition run_diags (h : gmap positive obj) (ds : list positive) (errs : Z) : Prop :=
  (ds = [] /\ errs = 0) \/
  exists d msg, ds = [d] /\ h !! d = Some (ODiagnostic (error_diagnostic msg)) /\ errs = 1.

Lemma count_calm w ds errs sev (Q : Z -> world -> Prop) :
  w_heap w !! p = Some (OSession (run_session ds)) -> run_diags (w_heap w) ds errs ->
  Q (if sev =? 2 then errs else 0) w ->
  wp true (count_diagnostics_with_severity (Some p) sev) w Q.
Proof.
  intros Hp Hds HQ. apply wp_bind. eapply wp_load; [done|]. cbn [se_diagnostics run_session].
  destruct Hds as [[-> ->]|(d & msg & -> & Hd & ->)].
  - apply wp_ret. by destruct (sev =? 2).
  - apply wp_bind. eapply wp_load; [done|]. apply wp_ret. cbn [ds_severity error_diagnostic].
    rewrite Z.eqb_sym. by destruct (sev =? 2).
Qed.

(** The result of a run of status [st] with [errs] errors and output size [n]. *)
Definition final_result (st : olnk_status) (errs n : Z) : ResultStorage :=
  {| rs_status := st; rs_output_path := cf_output_path cfg; rs_output_size := n;
     rs_elapsed_ns := 0;
     rs_input_count := u32 (Z.of_nat (length (cf_input_files cfg)));
     rs_warning_count := 0; rs_error_count := errs |}.

Lemma populate_calm w x ds errs st (Q : unit -> world -> Prop) :
  calm w -> w_heap w !! p = Some (OSession (run_session ds)) ->
  w_heap w !! r = Some (OResult x) -> run_diags (w_heap w) ds errs ->
  Q tt (with_heap (<[r := OResult (final_result st errs (rs_output_size x))]> (w_heap w)) w) ->
  wp true (populate_result_from_session (Some r) (Some p) st 0) w Q.
Proof.
  intros Hcalm Hp Hr Hds HQ. apply wp_bind. eapply wp_load; [done|].
  apply wp_bind. eapply wp_load; [done|].
  do 3 (apply wp_bind; eapply count_calm; [done..|]).
  apply wp_bind, wp_noexcept_alloc_calm; [done|]. eapply wp_store; [done|].
  cbn [Z.eqb diag_severity_Z Pos.eqb se_snapshot_config run_session].
  replace (u32 (errs + 0)) with errs; [done|].
  destruct Hds as [[_ ->]|(? & ? & _ & _ & ->)]; reflexivity.
Qed.

(** The output size that finish_output_size leaves for a status. *)
Definition final_size (st : olnk_status) (n : Z) : Z :=
  if bool_decide (st = OLNK_STATUS_OK) then n else 0.

Lemma finish_calm w st errs n (Q : unit -> world -> Prop) :
  w_heap w !! r = Some (OResult (final_result st errs n)) ->
  (st = OLNK_STATUS_OK -> n <> 0) ->
  Q tt (with_heap (<[r := OResult (final_result st errs (final_size st n))]> (w_heap w)) w) ->
  wp true (finish_output_size p r st) w Q.
Proof.
  intros Hr Hn HQ. apply wp_bind. eapply wp_load; [done|]. unfold final_size in HQ.
  cbn [rs_output_size final_result]. case_bool_decide as Hst; cbn [negb].
  - rewrite (proj2 (Z.eqb_neq n 0)) by by apply Hn. apply wp_ret.
    rewrite insert_id in HQ by done. by destruct w.
  - eapply wp_store; [done|exact HQ].
Qed.

(** The last log message of a run. *)
Definition end_events (st : olnk_status) : list event :=
  if bool_decide (st = OLNK_STATUS_OK)
  then log_events cx OLNK_LOG_INFO "olnk session completed"
  else log_events cx OLNK_LOG_ERROR "olnk session failed: invalid configuration".

Lemma run_end_calm w x ds errs st (Q : olnk_status * option (option positive) -> world -> Prop) :
  calm w -> w_heap w !! p = Some (OSession (run_session ds)) ->
  w_heap w !! r = Some (OResult x) -> w_heap w !! c = Some (OContext cx) ->
  run_diags (w_heap w) ds errs -> (st = OLNK_STATUS_OK -> rs_output_size x <> 0) ->
  Q (st, Some (Some r))
    (add_events (end_events st)
      (with_heap (<[r := OResult (final_result st errs (final_size st (rs_output_size x)))]>
                    (w_heap w)) w)) ->
  wp true (_ ← populate_result_from_session (Some r) (Some p) st 0;
           _ ← finish_output_size p r st;
           _ ← (if bool_decide (st = OLNK_STATUS_OK)
                then safe_emit_log (Some c) (olnk_log_level_Z OLNK_LOG_INFO)
                       (Some "olnk session completed"%string)
                else safe_emit_log (Some c) (olnk_log_level_Z OLNK_LOG_ERROR)
                       (Some "olnk session failed: invalid configuration"%string));
           mret (st, Some (Some r))) w Q.
Proof.
  intros Hcalm Hp Hr Hc Hds Hn HQ. apply wp_bind. eapply populate_calm; [done..|].
  apply wp_bind. eapply finish_calm; [cbn; apply lookup_insert_eq|done|].
  cbn [w_heap with_heap]. rewrite insert_insert_eq. apply wp_bind. unfold end_events in HQ.
  assert (r <> c) as Hrc by congruence.
  destruct (bool_decide _); (eapply log_run; [cbn; by rewrite lookup_insert_ne|]);
    apply wp_ret; exact HQ.
Qed.

(** Destroying the session of the run. *)
Lemma destroy_calm w ds errs (Q : unit -> world -> Prop) :
  w_heap w !! p = Some (OSession (run_session ds)) -> run_diags (w_heap w) ds errs ->
  Q tt (with_heap (delete p (delete_all ds (w_heap w))) w) ->
  wp true (olnk_session_destroy (Some p)) w Q.
Proof.
  intros Hp Hds HQ. apply wp_bind, wp_bind. eapply wp_load; [done|]. apply wp_bind.
  cbn [se_diagnostics run_session]. unfold wp at 1.
  assert (p ∉ ds) as Hpds.
  { destruct Hds as [[-> _]|(d & msg & -> & Hd & _)]; [apply not_elem_of_nil|].
    intros ->%list_elem_of_singleton. congruence. }
  rewrite free_diagnostics_run.
  - eapply (wp_store true (A := olnk_session));
      [cbn; rewrite lookup_delete_all, bool_decide_eq_false_2 by done; exact Hp|].
    eapply (wp_free true (A := olnk_session)); [cbn; apply lookup_insert_eq|].
    cbn [w_heap with_heap]. rewrite delete_insert_eq. exact HQ.
  - destruct Hds as [[-> _]|(d & msg & -> & _)]; [constructor|apply NoDup_singleton].
  - intros e. destruct Hds as [[-> _]|(d & msg & -> & Hd & _)]; [by intros ?%elem_of_nil|].
    intros ->%list_elem_of_singleton. eauto.
Qed.

(** The body of the run. Which built-in pointers the lookups patch does not
    matter: any registry [g] may be the one after the call. *)
Lemma find_machine_run tot w name (Q : option nat -> world -> Prop) :
  (forall g, Q (fst (olnk_find_machine lua_machines (w_machines w) (Some name)))
               (with_machines g w)) ->
  wp tot (find_machine lua_machines name) w Q.
Proof.
  intros HQ. apply wp_bind, wp_get.
  destruct (olnk_find_machine lua_machines (w_machines w) (Some name)) as [m g].
  apply wp_bind, wp_modify, wp_ret. exact (HQ g).
Qed.

(** The state after the error diagnostic of a run. *)
Definition diagnosed (w : world) (msg : string) (g : registry) : world :=
  with_machines g (add_events (diag_events cx 2 msg)
    (moved (<[p := OSession (run_session [w_next w])]>
              (<[w_next w := ODiagnostic (error_diagnostic msg)]> (w_heap w)))
       (Pos.succ (w_next w)) w)).

(** The state after the built-in serializer. *)
Definition serialized (w : world) (x : ResultStorage) (payload : string) (g : registry) : world :=
  let plan := PlanWrite payload in
  let disk := w_disk w (cf_output_path cfg) in
  with_machines g
    (with_files (plan_files plan disk (cf_output_path cfg) (w_files w))
      (moved (if disk_accepts disk then <[r := OResult {| rs_status := rs_status x;
                   rs_output_path := rs_output_path x;
                   rs_output_size := Z.of_nat (String.length payload);
                   rs_elapsed_ns := rs_elapsed_ns x; rs_input_count := rs_input_count x;
                   rs_warning_count := rs_warning_count x;
                   rs_error_count := rs_error_count x |}]> (w_heap w)
              else w_heap w) (Pos.succ (w_next w)) w)).

Definition body_done (w : world) (x : ResultStorage)
    (Q : olnk_status + olnk_status -> world -> Prop) : Prop :=
  match plan_link lua_formats lua_machines (w_machines w) cfg with
  | PlanError msg => forall g, Q (inr OLNK_STATUS_INVALID_ARGUMENT) (diagnosed w msg g)
  | PlanWrite payload =>
      forall g, Q (inr (plan_status (PlanWrite payload) (w_disk w (cf_output_path cfg))))
                  (serialized w x payload g)
  end.

Lemma static_format i def :
  kStaticFormats !! i = Some def ->
  exists d, fdef_descriptor def = Some d /\ fdef_vtable def = true.
Proof.
  intros Hi%list_elem_of_lookup_2%list_elem_of_In. cbn in Hi.
  repeat (destruct Hi as [<-|Hi]; [by eexists|]). done.
Qed.

(** What run_machine does for a format that was found. *)
Lemma run_machine_calm w x def d (Q : olnk_status + olnk_status -> world -> Prop) :
  calm w -> w_heap w !! p = Some (OSession (run_session [])) ->
  w_heap w !! r = Some (OResult x) -> w_heap w !! c = Some (OContext cx) ->
  w_heap w !! w_next w = None -> cf_output_path cfg <> EmptyString ->
  fdef_descriptor def = Some d -> fdef_vtable def = true ->
  match fst (olnk_find_machine lua_machines (w_machines w)
               (Some (name_or "x86_64" (cf_machine_name cfg)))) with
  | None => forall g, Q (inr OLNK_STATUS_INVALID_ARGUMENT)
      (diagnosed w ("unknown machine: " ++ name_or "x86_64" (cf_machine_name cfg)) g)
  | Some _ => forall g,
      Q (inr (plan_status (PlanWrite (format_payload d)) (w_disk w (cf_output_path cfg))))
        (serialized w x (format_payload d) g)
  end ->
  wp true (run_machine lua_machines p r (Some c) cfg (Some def) OLNK_STATUS_OK) w Q.
Proof.
  intros Hcalm Hp Hr Hc Hn Hpath Hd Hv HQ. apply wp_bind, find_machine_run. intros g.
  destruct (fst _) as [m|]; rewrite bool_decide_eq_true_2 by done.
  - apply wp_bind. eapply run_serializer_calm; [done..|]. apply wp_ret. exact (HQ g).
  - apply run_diagnostic_concat_calm; [done..|]. apply wp_ret. exact (HQ g).
Qed.

(** What is left of the run when the format is unknown. *)
Lemma run_machine_unknown w (Q : olnk_status + olnk_status -> world -> Prop) :
  (forall g, Q (inr OLNK_STATUS_INVALID_ARGUMENT) (with_machines g w)) ->
  wp true (run_machine lua_machines p r (Some c) cfg None OLNK_STATUS_INVALID_ARGUMENT) w Q.
Proof.
  intros HQ. apply wp_bind, find_machine_run. intros g.
  destruct (fst _); [|rewrite bool_decide_eq_false_2 by done]; apply wp_ret; exact (HQ g).
Qed.

Lemma run_body_calm w x (Q : olnk_status + olnk_status -> world -> Prop) :
  calm w -> w_heap w !! p = Some (OSession (run_session [])) ->
  w_heap w !! r = Some (OResult x) -> w_heap w !! c = Some (OContext cx) ->
  w_heap w !! w_next w = None -> body_done w x Q ->
  wp true (run_body lua_formats lua_machines p r) w Q.
Proof.
  intros Hcalm Hp Hr Hc Hn HQ. apply wp_bind. eapply wp_load; [exact Hp|].
  cbn [se_snapshot_config se_context run_session]. cbv zeta.
  unfold body_done, plan_link in HQ. destruct (cf_input_files cfg) as [|i0 files] eqn:Hin.
  { rewrite bool_decide_eq_true_2 in HQ by done.
    apply run_diagnostic_calm; [done..|]. apply wp_ret. exact (HQ (w_machines w)). }
  rewrite bool_decide_eq_false_2 in HQ by done.
  destruct (String.eqb_spec (cf_output_path cfg) EmptyString) as [Hpath|Hpath].
  { rewrite bool_decide_eq_true_2 in HQ by done.
    apply run_diagnostic_calm; [done..|]. apply wp_ret. exact (HQ (w_machines w)). }
  rewrite bool_decide_eq_false_2 in HQ by done. unfold find_descriptor in HQ.
  apply wp_bind. cbn [run_link_pipeline pipeline_run lp_status].
  rewrite bool_decide_eq_true_2 by done. cbv zeta.
  destruct (olnk_find_format lua_formats _) as [i|] eqn:Hfmt.
  - destruct (find_format_valid _ _ _ Hfmt) as [def Hdef].
    destruct (static_format i def Hdef) as (d & Hd & Hv).
    rewrite Hdef in HQ |- *. cbn [mbind option_bind] in HQ. rewrite Hd in HQ.
    eapply run_machine_calm; [done..|].
    destruct (fst (olnk_find_machine _ _ _)) as [m|]; intros g; [|apply wp_ret; exact (HQ g)].
    specialize (HQ g). cbn [plan_status] in HQ |- *.
    destruct (disk_accepts _); apply wp_ret; exact HQ.
  - apply run_diagnostic_concat_calm; [done..|]. apply run_machine_unknown. intros g.
    apply wp_ret. exact (HQ g).
Qed.

End Calm.

(** ** The whole call *)

Section Link.
Variable lua_formats : option (list (option lua_format_spec)).
Variable lua_machines : option (list (option lua_machine_spec)).

(** The callbacks of a link call, in order. *)
Definition plan_events (cx : olnk_context) (plan : link_plan) (disk : disk_outcome) : list event :=
  log_events cx OLNK_LOG_DEBUG "created olnk session" ++
  log_events cx OLNK_LOG_INFO "starting olnk session" ++
  match plan with PlanError msg => diag_events cx 2 msg | PlanWrite _ => [] end ++
  end_events cx (plan_status plan disk).

Lemma session_create_calm w c g cx cfg (Q : option positive -> world -> Prop) :
  calm w -> w_heap w !! w_next w = None ->
  w_heap w !! c = Some (OContext cx) -> w_heap w !! g = Some (OConfig cfg) ->
  Q (Some (w_next w))
    (add_events (log_events cx OLNK_LOG_DEBUG "created olnk session")
      (moved (<[w_next w := OSession (run_session c cfg [])]> (w_heap w))
         (Pos.succ (w_next w)) w)) ->
  wp true (olnk_session_create (Some c) (Some g)) w Q.
Proof.
  intros Hcalm Hn Hc Hg HQ. apply wp_bind, wp_may_throw_calm; [done|].
  apply wp_bind, wp_alloc. apply wp_bind.
  eapply wp_load; [cbn; rewrite lookup_insert_ne by congruence; done|].
  apply wp_bind, wp_may_throw_calm; [done|]. apply wp_bind.
  eapply (wp_store true (A := olnk_session)); [cbn; apply lookup_insert_eq|].
  apply wp_bind. eapply log_run; [cbn; rewrite !lookup_insert_ne by congruence; done|].
  apply wp_ret. cbn [w_heap w_next with_heap]. rewrite insert_insert_eq. exact HQ.
Qed.

(** The run of a session without diagnostics up to the body. *)
Lemma session_start_calm w c cx cfg (Q : olnk_status * option (option positive) -> world -> Prop) p :
  calm w -> w_heap w !! p = Some (OSession (run_session c cfg [])) ->
  w_heap w !! w_next w = None -> w_heap w !! c = Some (OContext cx) ->
  wp true (run_after_result lua_formats lua_machines p (w_next w) (Some c))
    (add_events (log_events cx OLNK_LOG_INFO "starting olnk session")
      (moved (<[w_next w := OResult result_default]> (w_heap w)) (Pos.succ (w_next w)) w)) Q ->
  wp true (olnk_session_run lua_formats lua_machines (Some p) true) w Q.
Proof.
  intros Hcalm Hp Hn Hc HQ. unfold olnk_session_run. cbn [negb].
  apply wp_bind, wp_bind. eapply wp_load; [exact Hp|].
  apply wp_bind. cbn [se_diagnostics run_session free_diagnostics]. apply wp_ret.
  eapply (wp_store true (A := olnk_session)); [exact Hp|].
  rewrite insert_id by exact Hp.
  replace (with_heap (w_heap w) w) with w by by destruct w.
  apply wp_bind. eapply wp_load; [exact Hp|]. cbn [se_context run_session].
  apply wp_bind. eapply log_run; [done|].
  apply wp_bind, wp_bind, wp_may_throw_calm; [done|]. apply wp_bind, wp_alloc, wp_ret.
  exact HQ.
Qed.

(** Body and end of the run, by the plan: [errs] diagnostics [ds] remain with
    the session. *)
Definition run_over (w : world) (p r c : positive) (cx : olnk_context) (cfg : olnk_config)
    (res : olnk_status * option (option positive)) (w' : world) : Prop :=
  let plan := plan_link lua_formats lua_machines (w_machines w) cfg in
  let disk := w_disk w (cf_output_path cfg) in
  exists ds errs, run_diags (w_heap w') ds errs /\
    match plan with
    | PlanError msg => exists d, ds = [d] /\ w_heap w' !! d = Some (ODiagnostic (error_diagnostic msg))
    | PlanWrite _ => ds = []
    end /\
    res = (plan_status plan disk, Some (Some r)) /\
    w_heap w' !! p = Some (OSession (run_session c cfg ds)) /\
    delete_all ds (w_heap w')
      = <[p := OSession (run_session c cfg ds)]>
          (<[r := OResult (plan_result plan disk cfg)]> (w_heap w)) /\
    w_files w' = plan_files plan disk (cf_output_path cfg) (w_files w) /\
    w_events w' = w_events w ++
      match plan with PlanError msg => diag_events cx 2 msg | PlanWrite _ => [] end ++
      end_events cx (plan_status plan disk).

Lemma plan_payload_nonempty w cfg payload :
  plan_link lua_formats lua_machines (w_machines w) cfg = PlanWrite payload ->
  Z.of_nat (String.length payload) <> 0.
Proof.
  unfold plan_link. do 2 (case_bool_decide; [done|]).
  destruct (find_descriptor _ _) as [d|]; [|done].
  destruct (fst (olnk_find_machine _ _ _)); [|done]. intros [= <-].
  assert (exists ch s, format_payload d = String ch s) as (ch & s & ->) by by do 2 eexists.
  cbn [String.length]. lia.
Qed.

Lemma run_after_result_calm w p r c cx cfg :
  calm w -> w_heap w !! p = Some (OSession (run_session c cfg [])) ->
  w_heap w !! r = Some (OResult result_default) -> w_heap w !! c = Some (OContext cx) ->
  w_heap w !! w_next w = None ->
  wp true (run_after_result lua_formats lua_machines p r (Some c)) w
    (run_over w p r c cx cfg).
Proof.
  intros Hcalm Hp Hr Hc Hn. apply wp_bind. eapply run_body_calm; [done..|].
  assert (p <> r) as Hpr by congruence. assert (p <> w_next w) as Hpn by congruence.
  assert (r <> w_next w) as Hrn by congruence. assert (c <> p) as Hcp by congruence.
  assert (c <> r) as Hcr by congruence. assert (c <> w_next w) as Hcn by congruence.
  unfold body_done, run_over.
  destruct (plan_link lua_formats lua_machines (w_machines w) cfg) as [msg|payload] eqn:Hplan;
    intros g.
  - eapply (run_end_calm p r c cx cfg _ result_default [w_next w] 1).
    + done.
    + cbn. apply lookup_insert_eq.
    + cbn. by rewrite !lookup_insert_ne by done.
    + cbn. by rewrite !lookup_insert_ne by done.
    + right. exists (w_next w), msg. cbn. rewrite lookup_insert_ne, lookup_insert_eq by done. done.
    + done.
    + exists [w_next w], 1. cbn. split_and!; [| |done| | |done|by rewrite <- app_assoc].
      * right. exists (w_next w), msg. split_and!; [done| |done].
        rewrite !lookup_insert_ne, lookup_insert_eq by done. done.
      * exists (w_next w). split; [done|].
        rewrite !lookup_insert_ne, lookup_insert_eq by done. done.
      * by rewrite lookup_insert_ne, lookup_insert_eq by done.
      * rewrite !delete_insert_ne, delete_insert_id by done.
        by rewrite insert_insert_ne by done.
  - pose proof (plan_payload_nonempty w cfg payload Hplan) as Hlen.
    set (st := plan_status (PlanWrite payload) (w_disk w (cf_output_path cfg))).
    pose (n := if disk_accepts (w_disk w (cf_output_path cfg))
               then Z.of_nat (String.length payload) else 0).
    assert (exists x, rs_output_size x = n /\
      w_heap (serialized r cfg w result_default payload g) = <[r := OResult x]> (w_heap w))
      as (x & Hx & Hheap).
    { unfold serialized, n. cbn. destruct (disk_accepts _);
        [|exists result_default; by rewrite insert_id].
      eexists. split; [|reflexivity]. reflexivity. }
    assert (final_size st n = n) as Hsize.
    { unfold final_size, st, n, plan_status.
      destruct (disk_accepts _); by case_bool_decide. }
    eapply (run_end_calm p r c cx cfg _ x [] 0).
    + done.
    + by rewrite Hheap, lookup_insert_ne by done.
    + by rewrite Hheap, lookup_insert_eq.
    + by rewrite Hheap, lookup_insert_ne by done.
    + by left.
    + rewrite Hx. unfold n, st, plan_status. by destruct (disk_accepts _).
    + rewrite Hx, Hsize. exists [], 0. cbn [add_events with_heap w_heap w_files w_events].
      rewrite Hheap, insert_insert_eq. split_and!; [by left|done|done| | |done|done].
      * by rewrite lookup_insert_ne.
      * cbn [delete_all]. rewrite (insert_insert_ne _ p r), (insert_id _ p) by done.
        done.
Qed.

(** C2: When no allocation fails, olnk_link on a live context and config
    always returns, and does exactly what its plan says: a configuration error
    (no inputs, no output path, unknown format, unknown machine, checked in
    this order) gives INVALID_ARGUMENT and one error diagnostic, anything else
    writes the format's payload to the output path and gives OK, or IO_ERROR
    when the file can not be opened or the write is seen to fail; the result object describes
    the outcome and is the only change to the heap, the output file the only
    change to the files, and the callbacks are invoked in the order created,
    starting, diagnostic, end. *)
Theorem link_refines_plan w c g cx cfg :
  world_inv w -> calm w ->
  w_heap w !! c = Some (OContext cx) -> w_heap w !! g = Some (OConfig cfg) ->
  let plan := plan_link lua_formats lua_machines (w_machines w) cfg in
  let disk := w_disk w (cf_output_path cfg) in
  wp true (olnk_link lua_formats lua_machines (Some c) (Some g) true) w (fun res w' =>
    exists r, res = (plan_status plan disk, Some (Some r)) /\ w_heap w !! r = None /\
      w_heap w' = <[r := OResult (plan_result plan disk cfg)]> (w_heap w) /\
      w_files w' = plan_files plan disk (cf_output_path cfg) (w_files w) /\
      w_events w' = w_events w ++ plan_events cx plan disk).
Proof.
  intros Hi Hcalm Hc Hg plan disk.
  assert (forall a, (w_next w <= a)%positive -> w_heap w !! a = None) as Hfree.
  { intros a Ha. destruct (w_heap w !! a) eqn:Hl; [|done].
    apply (hi_fresh _ _ (hi_core _ _ Hi)) in Hl. lia. }
  pose proof (Hfree (w_next w) ltac:(lia)) as Hn.
  pose proof (Hfree (Pos.succ (w_next w)) ltac:(lia)) as Hn1.
  pose proof (Hfree (Pos.succ (Pos.succ (w_next w))) ltac:(lia)) as Hn2.
  set (s := w_next w) in *. set (r := Pos.succ s) in *.
  assert (s <> c) as Hsc by congruence. assert (r <> c) as Hrc by congruence.
  unfold olnk_link. cbn [negb]. apply wp_bind. eapply session_create_calm; [done..|].
  apply wp_bind. eapply session_start_calm.
  - done.
  - cbn. apply lookup_insert_eq.
  - cbn. rewrite lookup_insert_ne; [done|unfold r; lia].
  - cbn. rewrite lookup_insert_ne; [done|done].
  - cbn [w_next moved add_events]. fold s r. eapply wp_mono.
    + apply (run_after_result_calm _ s r c cx cfg).
      * done.
      * cbn. rewrite lookup_insert_ne, lookup_insert_eq; [done|unfold r; lia].
      * cbn. apply lookup_insert_eq.
      * cbn. rewrite (lookup_insert_ne _ r), (lookup_insert_ne _ s) by done. done.
      * cbn. rewrite !lookup_insert_ne by (unfold r; lia). done.
    + intros res w2 (ds & errs & Hds & _ & -> & Hs2 & Hdel & Hf & He).
      apply wp_bind. eapply destroy_calm; [done..|]. apply wp_ret. exists r.
      split_and!; [done|done| |exact Hf|].
      * cbn [w_heap with_heap]. rewrite Hdel. cbn [w_heap moved add_events].
        rewrite delete_insert_eq, insert_insert_eq, delete_insert_ne by (unfold r; lia).
        by rewrite delete_insert_id.
      * cbn [w_events with_heap]. rewrite He. unfold plan_events.
        cbn [w_events moved add_events]. by rewrite <- !app_assoc.
Qed.

End Link.

Lemma link_refines_plan_witness :
  wp true (olnk_link None None (Some 1%positive) (Some 2%positive) true) ex_world
    (fun res w' => exists r, res = (OLNK_STATUS_OK, Some (Some r)) /\
       w_files w' = <["a.out"%string := format_payload g_elf_desc]> ∅).
Proof.
  eapply wp_mono; [apply (link_refines_plan None None ex_world 1%positive 2%positive
    ex_context ex_config ex_world_inv eq_refl eq_refl eq_refl)|].
  intros res w' (r & Hres & _ & _ & Hf & _). exists r. split; [exact Hres|exact Hf].
Defined.
