(* ===== verification/Plugin.v ===== *)
(** * Plugins (src/olnk/plugin.cpp, include/olnk/olnk-plugin.h, plugins/)

    The validation of a plugin's query result, the guarded calls of its
    callbacks, the loader of the plugin modules, and the six plugins that come
    with the linker. A status is a number here, because the wrappers also return
    -1, which is no status of the enumeration. *)

From Stdlib Require Import Ascii.
From S2P Require Import Prelude Abi Format World.

#[local] Open Scope string_scope.
#[local] Open Scope Z_scope.

Definition OLNK_PLUGIN_ABI_VERSION : Z := 1.

Inductive olnk_plugin_kind : Set :=
  | OLNK_PLUGIN_KIND_UNKNOWN | OLNK_PLUGIN_KIND_ANALYSIS | OLNK_PLUGIN_KIND_TRANSFORM
  | OLNK_PLUGIN_KIND_OUTPUT | OLNK_PLUGIN_KIND_DIAGNOSTIC | OLNK_PLUGIN_KIND_SCRIPTING.

Definition plugin_kind_Z (k : olnk_plugin_kind) : Z :=
  match k with
  | OLNK_PLUGIN_KIND_UNKNOWN => 0 | OLNK_PLUGIN_KIND_ANALYSIS => 1
  | OLNK_PLUGIN_KIND_TRANSFORM => 2 | OLNK_PLUGIN_KIND_OUTPUT => 3
  | OLNK_PLUGIN_KIND_DIAGNOSTIC => 4 | OLNK_PLUGIN_KIND_SCRIPTING => 5
  end.

Inductive olnk_plugin_event : Set :=
  | OLNK_PLUGIN_EVENT_NONE | OLNK_PLUGIN_EVENT_INITIALIZE | OLNK_PLUGIN_EVENT_BEFORE_LINK
  | OLNK_PLUGIN_EVENT_AFTER_LINK | OLNK_PLUGIN_EVENT_FINALIZE.

Definition plugin_event_of_Z (e : Z) : option olnk_plugin_event :=
  if e =? 0 then Some OLNK_PLUGIN_EVENT_NONE
  else if e =? 1 then Some OLNK_PLUGIN_EVENT_INITIALIZE
  else if e =? 2 then Some OLNK_PLUGIN_EVENT_BEFORE_LINK
  else if e =? 3 then Some OLNK_PLUGIN_EVENT_AFTER_LINK
  else if e =? 4 then Some OLNK_PLUGIN_EVENT_FINALIZE
  else None.

Definition OLNK_PLUGIN_CAPABILITY_READ_IR : Z := 16.
Definition OLNK_PLUGIN_CAPABILITY_WRITE_OUTPUT_AUX : Z := 128.

(** ** The ABI structs *)

(** The members of olnk_plugin_context other than [host]. *)
Record plugin_context_data := {
  pc_linker_context : option positive; pc_session : option positive;
  pc_config : option positive }.

Record olnk_plugin_host := {
  ph_abi_version : Z; ph_struct_size : Z;
  ph_log : option (plugin_context_data -> Z -> cstr -> M unit);
  ph_diagnostic : option (plugin_context_data -> Z -> cstr -> M unit);
  ph_get_option : option (plugin_context_data -> cstr -> M cstr);
  ph_set_option : option (plugin_context_data -> cstr -> cstr -> M Z);
  ph_emit_file : option (plugin_context_data -> string -> string -> M Z) }.

Definition sizeof_plugin_host : Z := struct_sizeof ([4; 4] ++ replicate 9 8).

Record olnk_plugin_context := {
  pc_host : option olnk_plugin_host; pc_data : plugin_context_data }.

Record olnk_plugin_descriptor := {
  pd_abi_version : Z; pd_struct_size : Z;
  pd_name : cstr; pd_description : cstr; pd_author : cstr; pd_license : cstr;
  pd_version_major : Z; pd_version_minor : Z; pd_version_patch : Z;
  pd_kind : Z; pd_capabilities : Z;
  pd_min_host_api_version : Z; pd_max_host_api_version : Z;
  pd_homepage : cstr; pd_repository : cstr }.

Definition sizeof_plugin_descriptor : Z :=
  struct_sizeof ([4; 4] ++ replicate 4 8 ++ replicate 7 4 ++ replicate 4 8).

Record olnk_plugin_vtable := {
  pv_abi_version : Z; pv_struct_size : Z;
  pv_create : option (option olnk_plugin_descriptor -> bool -> M (Z * option positive));
  pv_destroy : option (option positive -> M unit);
  pv_set_option : option (option positive -> cstr -> cstr -> M Z);
  pv_initialize : option (option positive -> option olnk_plugin_context -> M Z);
  pv_before_link : option (option positive -> option olnk_plugin_context -> M Z);
  pv_after_link : option (option positive -> option olnk_plugin_context ->
                          option positive -> M Z);
  pv_finalize : option (option positive -> option olnk_plugin_context -> M Z);
  pv_on_event : option (option positive -> option olnk_plugin_context ->
                        olnk_plugin_event -> option string -> M Z) }.

Definition sizeof_plugin_vtable : Z := struct_sizeof ([4; 4] ++ replicate 12 8).

Record olnk_plugin_query_result := {
  pq_abi_version : Z; pq_struct_size : Z;
  pq_descriptor : option olnk_plugin_descriptor; pq_vtable : option olnk_plugin_vtable }.

Definition sizeof_plugin_query_result : Z := struct_sizeof ([4; 4] ++ replicate 5 8).

Definition olnk_plugin_make_version (major minor patch : Z) : Z :=
  u32 (((major .& 0x3FF) .<< 22) .| ((minor .& 0x3FF) .<< 12) .| (patch .& 0xFFF)).

Definition olnk_plugin_host_supports (host : option olnk_plugin_host) (required : Z) : bool :=
  match host with None => false | Some h => required <=? ph_abi_version h end.

(** ** Validation *)

Definition has_min_struct_size (actual required : Z) : bool := required <=? actual.
Definition is_same_abi (abi_version : Z) : bool := abi_version =? OLNK_PLUGIN_ABI_VERSION.
Definition valid_cstr (s : cstr) : bool := negb (cstr_null s).

Definition validate_host (host : option olnk_plugin_host) : bool :=
  match host with
  | None => false
  | Some h =>
      if negb (is_same_abi (ph_abi_version h)) then false
      else if negb (has_min_struct_size (ph_struct_size h) sizeof_plugin_host) then false
      else true
  end.

Definition validate_descriptor (descriptor : option olnk_plugin_descriptor) : bool :=
  match descriptor with
  | None => false
  | Some d =>
      if negb (is_same_abi (pd_abi_version d)) then false
      else if negb (has_min_struct_size (pd_struct_size d) sizeof_plugin_descriptor) then false
      else if negb (valid_cstr (pd_name d)) then false
      else (0 <=? pd_kind d) && (pd_kind d <=? 5)
  end.

Definition validate_vtable (vtable : option olnk_plugin_vtable) : bool :=
  match vtable with
  | None => false
  | Some v =>
      if negb (is_same_abi (pv_abi_version v)) then false
      else if negb (has_min_struct_size (pv_struct_size v) sizeof_plugin_vtable) then false
      else match pv_create v, pv_destroy v with
           | None, _ => false
           | _, None => false
           | _, _ => true
           end
  end.

Definition validate_query_result (query : option olnk_plugin_query_result) : bool :=
  match query with
  | None => false
  | Some q =>
      if negb (is_same_abi (pq_abi_version q)) then false
      else if negb (has_min_struct_size (pq_struct_size q) sizeof_plugin_query_result) then false
      else if negb (validate_descriptor (pq_descriptor q)) then false
      else if negb (validate_vtable (pq_vtable q)) then false
      else true
  end.

(** ** Guarded calls *)

Definition ok_status : Z := 0.
Definition bad_status : Z := -1.

(** The vtable of a query; it is read through an unchecked pointer. *)
Definition query_vtable (query : option olnk_plugin_query_result) : option olnk_plugin_vtable :=
  query ≫= pq_vtable.

Definition call_set_option (vtable : option olnk_plugin_vtable) (instance : option positive)
    (key value : cstr) : M Z :=
  match vtable ≫= pv_set_option with
  | None => mret ok_status
  | Some f => f instance key value
  end.

Definition call_initialize (vtable : option olnk_plugin_vtable) (instance : option positive)
    (context : option olnk_plugin_context) : M Z :=
  match vtable ≫= pv_initialize with
  | None => mret ok_status
  | Some f => f instance context
  end.

Definition call_before_link (vtable : option olnk_plugin_vtable) (instance : option positive)
    (context : option olnk_plugin_context) : M Z :=
  match vtable ≫= pv_before_link with
  | None => mret ok_status
  | Some f => f instance context
  end.

Definition call_after_link (vtable : option olnk_plugin_vtable) (instance : option positive)
    (context : option olnk_plugin_context) (result : option positive) : M Z :=
  match vtable ≫= pv_after_link with
  | None => mret ok_status
  | Some f => f instance context result
  end.

Definition call_finalize (vtable : option olnk_plugin_vtable) (instance : option positive)
    (context : option olnk_plugin_context) : M Z :=
  match vtable ≫= pv_finalize with
  | None => mret ok_status
  | Some f => f instance context
  end.

Definition call_on_event (vtable : option olnk_plugin_vtable) (instance : option positive)
    (context : option olnk_plugin_context) (event : olnk_plugin_event)
    (event_data : option string) : M Z :=
  match vtable ≫= pv_on_event with
  | None => mret ok_status
  | Some f => f instance context event event_data
  end.

Definition call_destroy (vtable : option olnk_plugin_vtable) (instance : option positive)
    : M unit :=
  match vtable ≫= pv_destroy with None => mret tt | Some f => f instance end.

(** The status and what [*out_instance] holds after the call ([None] when
    nothing was stored). *)
Definition create_instance (query : option olnk_plugin_query_result) (out_instance : bool)
    : M (Z * option (option positive)) :=
  if negb out_instance then mret (bad_status, None)
  else if negb (validate_query_result query) then mret (bad_status, Some None)
  else
    match query_vtable query ≫= pv_create with
    | None => undefined
    | Some f =>
        '(status, instance) ← f (query ≫= pq_descriptor) true;
        mret (status, Some instance)
    end.

Definition destroy_instance (query : option olnk_plugin_query_result)
    (instance : option positive) : M unit :=
  match query_vtable query with
  | None => mret tt
  | Some _ => call_destroy (query_vtable query) instance
  end.

Definition set_option (query : option olnk_plugin_query_result) (instance : option positive)
    (key value : cstr) : M Z :=
  if negb (validate_query_result query) then mret bad_status
  else if cstr_null key then mret bad_status
  else call_set_option (query_vtable query) instance key value.

Definition initialize (query : option olnk_plugin_query_result) (instance : option positive)
    (context : option olnk_plugin_context) : M Z :=
  if negb (validate_query_result query) then mret bad_status
  else call_initialize (query_vtable query) instance context.

Definition before_link (query : option olnk_plugin_query_result) (instance : option positive)
    (context : option olnk_plugin_context) : M Z :=
  if negb (validate_query_result query) then mret bad_status
  else call_before_link (query_vtable query) instance context.

Definition after_link (query : option olnk_plugin_query_result) (instance : option positive)
    (context : option olnk_plugin_context) (result : option positive) : M Z :=
  if negb (validate_query_result query) then mret bad_status
  else call_after_link (query_vtable query) instance context result.

Definition finalize (query : option olnk_plugin_query_result) (instance : option positive)
    (context : option olnk_plugin_context) : M Z :=
  if negb (validate_query_result query) then mret bad_status
  else call_finalize (query_vtable query) instance context.

Definition on_event (query : option olnk_plugin_query_result) (instance : option positive)
    (context : option olnk_plugin_context) (event : Z) (event_data : option string) : M Z :=
  if negb (validate_query_result query) then mret bad_status
  else match plugin_event_of_Z event with
       | None => mret bad_status
       | Some e => call_on_event (query_vtable query) instance context e event_data
       end.

(** ** The plugins that come with the linker (plugins/) *)

Definition plugin_invalid : Z := olnk_status_Z OLNK_STATUS_INVALID_ARGUMENT.

(** create of append-stub: the storage comes from a nothrow new; an exception
    of a member initialiser leaves the callback. *)
Definition stub_create (descriptor : option olnk_plugin_descriptor) (out : bool)
    : M (Z * option positive) :=
  if negb out then mret (plugin_invalid, None)
  else
    t ← may_throw;
    match t with
    | Some _ => mret (olnk_status_Z OLNK_STATUS_OUT_OF_MEMORY, None)
    | None =>
        _ ← noexcept_alloc;
        p ← alloc {| si_logical_name := "append-stub.txt";
                     si_marker := "/* OLNK STUB */" ++ String "010"%char EmptyString;
                     si_body := EmptyString |};
        mret (ok_status, Some p)
    end.

Definition stub_destroy (instance : option positive) : M unit :=
  free (A := StubInstance) instance.

Definition stub_assign (k v : string) (s : StubInstance) : option StubInstance :=
  if (k =? "logical_name")%string
  then Some {| si_logical_name := v; si_marker := si_marker s; si_body := si_body s |}
  else if (k =? "marker")%string
  then Some {| si_logical_name := si_logical_name s; si_marker := v; si_body := si_body s |}
  else if (k =? "body")%string
  then Some {| si_logical_name := si_logical_name s; si_marker := si_marker s; si_body := v |}
  else None.

(** set_option of a plugin whose instance is an [S] and which knows the options
    that [assign] accepts: copying the key and assigning the value may throw. *)
Definition plugin_set_option {S} `{HeapObj S} (assign : string -> string -> S -> option S)
    (instance : option positive) (key value : cstr) : M Z :=
  match instance, key, value with
  | Some p, Some k, Some v =>
      _ ← noexcept_alloc;
      s ← load (A := S) p;
      match assign k v s with
      | Some s' => _ ← noexcept_alloc; _ ← store p s'; mret ok_status
      | None => mret (olnk_status_Z OLNK_STATUS_NOT_IMPLEMENTED)
      end
  | _, _, _ => mret plugin_invalid
  end.

Definition stub_set_option := plugin_set_option stub_assign.

Definition plugin_hook (instance : option positive) (context : option olnk_plugin_context)
    : M Z := mret ok_status.

(** ctx->host->emit_file, when no pointer on the way is null. *)
Definition context_emit_file (context : option olnk_plugin_context)
    : option (string -> string -> M Z) :=
  ctx ← context; host ← pc_host ctx; emit ← ph_emit_file host; Some (emit (pc_data ctx)).

Definition stub_after (instance : option positive) (context : option olnk_plugin_context)
    (result : option positive) : M Z :=
  match instance, context_emit_file context with
  | Some p, Some emit_file =>
      s ← load (A := StubInstance) p;
      _ ← noexcept_alloc;
      emit_file (si_logical_name s) (si_marker s ++ si_body s)
  | _, _ => mret plugin_invalid
  end.

Definition plugin_on_event (instance : option positive) (context : option olnk_plugin_context)
    (event : olnk_plugin_event) (event_data : option string) : M Z := mret ok_status.

(** The other five plugins differ in their names, kinds and default texts. *)
Record report_plugin := {
  rp_name : string; rp_description : string; rp_kind : olnk_plugin_kind;
  rp_capabilities : Z; rp_logical_name : string; rp_content : string }.

Definition report_create (r : report_plugin) (descriptor : option olnk_plugin_descriptor)
    (out : bool) : M (Z * option positive) :=
  if negb out then mret (plugin_invalid, None)
  else
    t ← may_throw;
    match t with
    | Some _ => mret (olnk_status_Z OLNK_STATUS_OUT_OF_MEMORY, None)
    | None =>
        p ← alloc {| ri_logical_name := EmptyString; ri_content := EmptyString |};
        _ ← noexcept_alloc;
        _ ← store p {| ri_logical_name := rp_logical_name r; ri_content := EmptyString |};
        _ ← noexcept_alloc;
        _ ← store p {| ri_logical_name := rp_logical_name r; ri_content := rp_content r |};
        mret (ok_status, Some p)
    end.

Definition report_destroy (instance : option positive) : M unit :=
  free (A := ReportInstance) instance.

Definition report_assign (k v : string) (s : ReportInstance) : option ReportInstance :=
  if (k =? "logical_name")%string
  then Some {| ri_logical_name := v; ri_content := ri_content s |}
  else if (k =? "content")%string
  then Some {| ri_logical_name := ri_logical_name s; ri_content := v |}
  else None.

Definition report_set_option := plugin_set_option report_assign.

Definition report_after (instance : option positive) (context : option olnk_plugin_context)
    (result : option positive) : M Z :=
  match instance, context_emit_file context with
  | Some p, Some emit_file =>
      s ← load (A := ReportInstance) p;
      if (ri_logical_name s =? "")%string then mret plugin_invalid
      else emit_file (ri_logical_name s) (ri_content s)
  | _, _ => mret plugin_invalid
  end.

(** The static tables of a plugin: kDesc, kVtable and kQuery. *)
Definition plugin_desc (name description : string) (kind : olnk_plugin_kind) (caps : Z)
    : olnk_plugin_descriptor :=
  {| pd_abi_version := OLNK_PLUGIN_ABI_VERSION; pd_struct_size := sizeof_plugin_descriptor;
     pd_name := Some name; pd_description := Some description;
     pd_author := Some "olnk"; pd_license := Some "MIT";
     pd_version_major := 0; pd_version_minor := 1; pd_version_patch := 0;
     pd_kind := plugin_kind_Z kind; pd_capabilities := caps;
     pd_min_host_api_version := 0; pd_max_host_api_version := 0xFFFFFFFF;
     pd_homepage := None; pd_repository := None |}.

Definition stub_vtable : olnk_plugin_vtable :=
  {| pv_abi_version := OLNK_PLUGIN_ABI_VERSION; pv_struct_size := sizeof_plugin_vtable;
     pv_create := Some stub_create; pv_destroy := Some stub_destroy;
     pv_set_option := Some stub_set_option; pv_initialize := Some plugin_hook;
     pv_before_link := Some plugin_hook; pv_after_link := Some stub_after;
     pv_finalize := Some plugin_hook; pv_on_event := Some plugin_on_event |}.

Definition report_vtable (r : report_plugin) : olnk_plugin_vtable :=
  {| pv_abi_version := OLNK_PLUGIN_ABI_VERSION; pv_struct_size := sizeof_plugin_vtable;
     pv_create := Some (report_create r); pv_destroy := Some report_destroy;
     pv_set_option := Some report_set_option; pv_initialize := Some plugin_hook;
     pv_before_link := Some plugin_hook; pv_after_link := Some report_after;
     pv_finalize := Some plugin_hook; pv_on_event := Some plugin_on_event |}.

Definition plugin_query (d : olnk_plugin_descriptor) (v : olnk_plugin_vtable)
    : olnk_plugin_query_result :=
  {| pq_abi_version := OLNK_PLUGIN_ABI_VERSION; pq_struct_size := sizeof_plugin_query_result;
     pq_descriptor := Some d; pq_vtable := Some v |}.

Definition stub_query : olnk_plugin_query_result :=
  plugin_query
    (plugin_desc "append-stub" "Emit conservative marker payload (marker prepended)"
       OLNK_PLUGIN_KIND_OUTPUT OLNK_PLUGIN_CAPABILITY_WRITE_OUTPUT_AUX) stub_vtable.

Definition report_query (r : report_plugin) : olnk_plugin_query_result :=
  plugin_query (plugin_desc (rp_name r) (rp_description r) (rp_kind r) (rp_capabilities r))
    (report_vtable r).

Definition line (s : string) : string := s ++ String "010"%char EmptyString.

Definition dump_symtbl : report_plugin :=
  {| rp_name := "dump-symtbl"; rp_description := "Dump symbol table report";
     rp_kind := OLNK_PLUGIN_KIND_DIAGNOSTIC;
     rp_capabilities := OLNK_PLUGIN_CAPABILITY_WRITE_OUTPUT_AUX;
     rp_logical_name := "symbols.map.txt"; rp_content := line "# dump-symtbl" |}.

Definition dwarf_embeddings : report_plugin :=
  {| rp_name := "dwarf-embeddings"; rp_description := "Emit DWARF sidecar scaffold";
     rp_kind := OLNK_PLUGIN_KIND_OUTPUT;
     rp_capabilities := OLNK_PLUGIN_CAPABILITY_WRITE_OUTPUT_AUX;
     rp_logical_name := "dwarf.sidecar.txt"; rp_content := line "# dwarf-embeddings" |}.

Definition identical_code_folding : report_plugin :=
  {| rp_name := "identical-code-folding"; rp_description := "ICF analysis scaffold";
     rp_kind := OLNK_PLUGIN_KIND_TRANSFORM;
     rp_capabilities := OLNK_PLUGIN_CAPABILITY_READ_IR;
     rp_logical_name := "icf-report.txt"; rp_content := line "# identical-code-folding" |}.

Definition linker_map_generation : report_plugin :=
  {| rp_name := "linker-map-generation"; rp_description := "Generate linker map scaffold";
     rp_kind := OLNK_PLUGIN_KIND_OUTPUT;
     rp_capabilities := OLNK_PLUGIN_CAPABILITY_WRITE_OUTPUT_AUX;
     rp_logical_name := "linker.map"; rp_content := line "# linker-map-generation" |}.

Definition quote : string := String "034"%char EmptyString.

Definition visualization : report_plugin :=
  {| rp_name := "visualization"; rp_description := "Emit visualization scaffold";
     rp_kind := OLNK_PLUGIN_KIND_DIAGNOSTIC;
     rp_capabilities := OLNK_PLUGIN_CAPABILITY_WRITE_OUTPUT_AUX;
     rp_logical_name := "visualization.json";
     rp_content := line "{" ++ line ("  " ++ quote ++ "plugin" ++ quote ++ ": "
                                     ++ quote ++ "visualization" ++ quote) ++ line "}" |}.

(** ** Loading modules *)

(** What the dynamic loader finds under a path: nothing, a module without the
    entry point, or a module whose entry point returns a query result. *)
Inductive module_file : Type :=
  | NoModule
  | NoEntry
  | Entry (q : option olnk_plugin_query_result).

Definition kNames : list string :=
  ["append-stub.so"; "dump-symtbl.so"; "dwarf-embeddings.so";
   "identical-code-folding.so"; "linker-map-generation.so"; "visualization.so"].

Record loaded_plugin_module := { lm_handle : string; lm_query : olnk_plugin_query_result }.

#[local] Open Scope list_scope.

Section Loader.
Variable dl : string -> module_file.

(** How often each module is open; dlopen and dlclose count up and down. *)
Abbreviation dl_state := (string -> Z).

Definition dlopen (path : string) (s : dl_state) : bool * dl_state :=
  match dl path with
  | NoModule => (false, s)
  | _ => (true, fun p => if (p =? path)%string then s p + 1 else s p)
  end.

Definition dlclose (path : string) (s : dl_state) : dl_state :=
  fun p => if (p =? path)%string then s p - 1 else s p.

(** One turn of the loop of load_builtin_modules_from_env. *)
Definition load_module (root name : string) (s : dl_state) (loaded : list loaded_plugin_module)
    : dl_state * list loaded_plugin_module :=
  let path := (root ++ "/" ++ name)%string in
  let '(h, s) := dlopen path s in
  if negb h then (s, loaded)
  else match dl path with
       | Entry q =>
           match q with
           | Some qr =>
               if negb (validate_query_result q) then (dlclose path s, loaded)
               else (s, loaded ++ [{| lm_handle := path; lm_query := qr |}])
           | None => (dlclose path s, loaded)
           end
       | _ => (dlclose path s, loaded)
       end.

Fixpoint load_modules (root : string) (names : list string) (s : dl_state)
    (loaded : list loaded_plugin_module) : dl_state * list loaded_plugin_module :=
  match names with
  | [] => (s, loaded)
  | name :: names =>
      let '(s, loaded) := load_module root name s loaded in load_modules root names s loaded
  end.

(** The argument is the value of OLNK_PLUGIN_DIR. *)
Definition load_builtin_modules_from_env (env : cstr) (s : dl_state)
    : dl_state * list loaded_plugin_module :=
  let root := match env with None | Some EmptyString => "." | Some r => r end in
  load_modules root kNames s [].

Fixpoint unload_loop (loaded : list loaded_plugin_module) (s : dl_state) : dl_state :=
  match loaded with
  | [] => s
  | m :: loaded => unload_loop loaded (dlclose (lm_handle m) s)
  end.

Definition unload_modules (loaded : list loaded_plugin_module) (s : dl_state)
    : dl_state * list loaded_plugin_module := (unload_loop loaded s, []).

End Loader.

(** ** The loader keeps the module counts balanced *)

Section LoaderProofs.
Variable dl : string -> module_file.

(** The module under a path, when its query result is accepted. *)
Definition accepted_module (root name : string) : option loaded_plugin_module :=
  let path := (root ++ "/" ++ name)%string in
  match dl path with
  | Entry (Some q) =>
      if validate_query_result (Some q) then Some {| lm_handle := path; lm_query := q |} else None
  | _ => None
  end.

Definition opens (p : string) (loaded : list loaded_plugin_module) : Z :=
  Z.of_nat (length (filter (fun m => lm_handle m = p) loaded)).

Lemma opens_app p l1 l2 : opens p (l1 ++ l2) = opens p l1 + opens p l2.
Proof. unfold opens. rewrite filter_app, length_app. lia. Qed.

Lemma opens_cons p m l :
  opens p (m :: l) = (if (p =? lm_handle m)%string then 1 else 0) + opens p l.
Proof.
  unfold opens. rewrite filter_cons.
  destruct (String.eqb_spec p (lm_handle m)) as [->|Hne]; [rewrite decide_True by done; cbn [length]; lia|].
  rewrite decide_False by congruence. lia.
Qed.

Lemma load_module_spec root name s loaded :
  let '(s', loaded') := load_module dl root name s loaded in
  loaded' = loaded ++ from_option (fun m => [m]) [] (accepted_module root name) /\
  forall p, s' p - opens p loaded' = s p - opens p loaded.
Proof.
  unfold load_module, accepted_module, dlopen. cbv zeta. set (path := (root ++ "/" ++ name)%string).
  destruct (dl path) as [| |[q|]]; cbn [negb from_option].
  - by rewrite app_nil_r.
  - rewrite app_nil_r. split; [done|]. intros p. unfold dlclose. destruct (_ =? _)%string; lia.
  - destruct (validate_query_result (Some q)); cbn [negb].
    + split; [done|]. intros p. rewrite opens_app, opens_cons. cbn [lm_handle].
      unfold opens at 2. cbn. destruct (_ =? _)%string; lia.
    + rewrite app_nil_r. split; [done|]. intros p. unfold dlclose. destruct (_ =? _)%string; lia.
  - rewrite app_nil_r. split; [done|]. intros p. unfold dlclose. destruct (_ =? _)%string; lia.
Qed.

Lemma load_modules_spec root names s loaded :
  let '(s', loaded') := load_modules dl root names s loaded in
  loaded' = loaded ++ omap (accepted_module root) names /\
  forall p, s' p - opens p loaded' = s p - opens p loaded.
Proof.
  revert s loaded. induction names as [|name names IH]; intros s loaded; cbn [load_modules].
  { by rewrite app_nil_r. }
  pose proof (load_module_spec root name s loaded) as H.
  destruct (load_module _ _ _ _ _) as [s1 l1]. destruct H as [-> Hs1].
  specialize (IH s1 (loaded ++ from_option (fun m => [m]) [] (accepted_module root name))).
  destruct (load_modules _ _ _ _ _) as [s2 l2]. destruct IH as [-> Hs2]. split.
  - rewrite <- app_assoc. f_equal. cbn. by destruct (accepted_module root name).
  - intros p. rewrite Hs2. apply Hs1.
Qed.

Lemma unload_loop_spec loaded s p : unload_loop loaded s p = s p - opens p loaded.
Proof.
  revert s. induction loaded as [|m loaded IH]; intros s; cbn [unload_loop].
  - unfold opens. cbn. lia.
  - rewrite IH, opens_cons. unfold dlclose. destruct (_ =? _)%string; lia.
Qed.

(** C38: Loading the plugin modules yields, in the order of their names,
    exactly the modules whose entry point returns a query result that passes
    the validation; every other module that was opened is closed again, a
    module in the list stays open once for each time it is listed, and
    unloading the list restores the open count of every module and empties it. *)
Theorem modules_load_unload env s :
  let root := match env with None | Some EmptyString => "." | Some r => r end in
  let '(s1, loaded) := load_builtin_modules_from_env dl env s in
  loaded = omap (accepted_module root) kNames /\
  Forall (fun m => validate_query_result (Some (lm_query m)) = true) loaded /\
  (forall p, s1 p = s p + opens p loaded) /\
  (forall p, fst (unload_modules loaded s1) p = s p) /\ snd (unload_modules loaded s1) = [].
Proof.
  cbv zeta. unfold load_builtin_modules_from_env. cbv zeta.
  set (root := match env with None | Some EmptyString => "." | Some r => r end).
  pose proof (load_modules_spec root kNames s []) as H.
  destruct (load_modules _ _ _ _ _) as [s1 loaded]. cbn [app] in H. destruct H as [-> Hs].
  assert (forall p, s1 p = s p + opens p (omap (accepted_module root) kNames)) as Hopen.
  { intros p. specialize (Hs p). change (opens p []) with 0 in Hs. lia. }
  split_and!; [done| |done| |done].
  - apply Forall_forall. intros m (name & _ & Hm)%list_elem_of_omap.
    unfold accepted_module in Hm. destruct (dl _) as [| |[q|]]; try done.
    destruct (validate_query_result _) eqn:Hv; [|done]. by injection Hm as <-.
  - intros p. cbn [unload_modules fst]. rewrite unload_loop_spec, Hopen. lia.
Qed.

End LoaderProofs.

(** ** What a shipped plugin emits *)

(** A use of a plugin: create, options, after_link, destroy. *)
Fixpoint configure (q : olnk_plugin_query_result) (i : option positive)
    (opts : list (cstr * cstr)) : M unit :=
  match opts with
  | [] => mret tt
  | (k, v) :: opts => _ ← set_option (Some q) i k v; configure q i opts
  end.

Definition plugin_session (q : olnk_plugin_query_result) (opts : list (cstr * cstr))
    (ctx : olnk_plugin_context) : M Z :=
  '(status, instance) ← create_instance (Some q) true;
  match instance with
  | Some (Some p) =>
      _ ← configure q (Some p) opts;
      status ← after_link (Some q) (Some p) (Some ctx) None;
      _ ← destroy_instance (Some q) (Some p);
      mret status
  | _ => mret status
  end.

Inductive shipped : Type := AppendStub | Report (r : report_plugin).

Definition shipped_plugins : list shipped :=
  AppendStub :: (Report <$> [dump_symtbl; dwarf_embeddings; identical_code_folding;
                             linker_map_generation; visualization]).

Definition shipped_query (s : shipped) : olnk_plugin_query_result :=
  match s with AppendStub => stub_query | Report r => report_query r end.

(** The options that a plugin knows, applied in order; the last one counts. *)
Definition apply_options {S} (assign : string -> string -> S -> option S)
    (opts : list (cstr * cstr)) (s : S) : S :=
  foldl (fun s kv => match kv with
                     | (Some k, Some v) => default s (assign k v s)
                     | _ => s
                     end) s opts.

Definition stub_default : StubInstance :=
  {| si_logical_name := "append-stub.txt"; si_marker := line "/* OLNK STUB */";
     si_body := EmptyString |}.

Definition report_default (r : report_plugin) : ReportInstance :=
  {| ri_logical_name := rp_logical_name r; ri_content := rp_content r |}.

(** The file a configured plugin emits. *)
Definition shipped_output (s : shipped) (opts : list (cstr * cstr)) : option (string * string) :=
  match s with
  | AppendStub =>
      let i := apply_options stub_assign opts stub_default in
      Some (si_logical_name i, (si_marker i ++ si_body i)%string)
  | Report r =>
      let i := apply_options report_assign opts (report_default r) in
      if (ri_logical_name i =? "")%string then None else Some (ri_logical_name i, ri_content i)
  end.

Section Configure.
Context {S : Type} `{HeapObj S} (assign : string -> string -> S -> option S).

Lemma set_option_run p k v i w (Q : Z -> world -> Prop) :
  w_throws w = [] -> w_heap w !! p = Some (to_obj i) ->
  (forall st, Q st (with_heap (<[p := to_obj (default i (assign k v i))]> (w_heap w)) w)) ->
  wp true (plugin_set_option assign (Some p) (Some k) (Some v)) w Q.
Proof.
  intros Ht Hp HQ. apply wp_bind, wp_noexcept_alloc_calm; [done|].
  apply wp_bind. eapply wp_load; [done|]. destruct (assign k v i) as [i'|].
  - apply wp_bind, wp_noexcept_alloc_calm; [done|]. apply wp_bind.
    eapply wp_store; [done|]. apply wp_ret, HQ.
  - apply wp_ret. specialize (HQ (olnk_status_Z OLNK_STATUS_NOT_IMPLEMENTED)). cbn [default] in HQ.
    rewrite insert_id in HQ by done. by destruct w.
Qed.

(** Configuring a plugin applies the options to its instance. *)
Lemma configure_run q p opts i w (Q : unit -> world -> Prop) :
  validate_query_result (Some q) = true ->
  query_vtable (Some q) ≫= pv_set_option = Some (plugin_set_option assign) ->
  w_throws w = [] -> w_heap w !! p = Some (to_obj i) ->
  Q tt (with_heap (<[p := to_obj (apply_options assign opts i)]> (w_heap w)) w) ->
  wp true (configure q (Some p) opts) w Q.
Proof.
  intros Hq Hf. revert i w. induction opts as [|[k v] opts IH]; intros i w Ht Hp HQ.
  { apply wp_ret. rewrite insert_id in HQ by done. by destruct w. }
  cbn [configure]. apply wp_bind. unfold set_option. rewrite Hq. cbn [negb].
  destruct k as [k|]; cbn [cstr_null]; [|apply wp_ret; by eapply IH].
  unfold call_set_option. rewrite Hf. destruct v as [v|].
  - apply (set_option_run p k v i); [done..|]. intros st.
    apply (IH (default i (assign k v i))); [done|apply lookup_insert_eq|].
    cbn [w_heap with_heap]. rewrite insert_insert_eq. exact HQ.
  - apply wp_ret. by apply (IH i).
Qed.
End Configure.

(** The instance of a plugin after the given options. *)
Definition shipped_obj (s : shipped) (opts : list (cstr * cstr)) : obj :=
  match s with
  | AppendStub => OStub (apply_options stub_assign opts stub_default)
  | Report r => OReport (apply_options report_assign opts (report_default r))
  end.

Lemma shipped_valid s : validate_query_result (Some (shipped_query s)) = true.
Proof. destruct s as [|r]; [done|]. cbn. by destruct (rp_kind r). Qed.

(** The state after [new] of an object. *)
Definition allocated (o : obj) (w : world) : world :=
  mkWorld (<[w_next w := o]> (w_heap w)) (Pos.succ (w_next w)) (w_throws w) (w_files w)
    (w_disk w) (w_events w) (w_machines w).

Lemma shipped_create s w (Q : Z * option (option positive) -> world -> Prop) :
  w_throws w = [] -> Q (ok_status, Some (Some (w_next w))) (allocated (shipped_obj s []) w) ->
  wp true (create_instance (Some (shipped_query s)) true) w Q.
Proof.
  intros Ht HQ. unfold create_instance. cbn [negb]. rewrite shipped_valid. cbn [negb].
  destruct s as [|r]; cbn -[stub_create report_create]; apply wp_bind;
    (apply wp_bind, wp_may_throw_calm; [done|]).
  - apply wp_bind, wp_noexcept_alloc_calm; [done|]. apply wp_bind, wp_alloc, wp_ret, wp_ret.
    exact HQ.
  - apply wp_bind, wp_alloc. apply wp_bind, wp_noexcept_alloc_calm; [done|].
    apply wp_bind. eapply (wp_store true (A := ReportInstance)); [apply lookup_insert_eq|].
    apply wp_bind, wp_noexcept_alloc_calm; [done|].
    apply wp_bind. eapply (wp_store true (A := ReportInstance)); [apply lookup_insert_eq|].
    apply wp_ret, wp_ret. cbn. rewrite !insert_insert_eq. exact HQ.
Qed.

Lemma shipped_configure s opts p w (Q : unit -> world -> Prop) :
  w_throws w = [] -> w_heap w !! p = Some (shipped_obj s []) ->
  Q tt (with_heap (<[p := shipped_obj s opts]> (w_heap w)) w) ->
  wp true (configure (shipped_query s) (Some p) opts) w Q.
Proof.
  intros Ht Hp HQ. destruct s as [|r].
  - by apply (configure_run stub_assign _ _ _ stub_default); [apply shipped_valid|..].
  - by apply (configure_run report_assign _ _ _ (report_default r));
      [apply (shipped_valid (Report r))|..].
Qed.

Lemma shipped_after s opts ctx emit_file p w (Q : Z -> world -> Prop) :
  w_throws w = [] -> w_heap w !! p = Some (shipped_obj s opts) ->
  context_emit_file (Some ctx) = Some emit_file ->
  match shipped_output s opts with
  | None => Q plugin_invalid w
  | Some (name, content) => wp true (emit_file name content) w Q
  end ->
  wp true (after_link (Some (shipped_query s)) (Some p) (Some ctx) None) w Q.
Proof.
  intros Ht Hp Hctx HQ. unfold after_link. rewrite shipped_valid. cbn [negb].
  unfold call_after_link. destruct s as [|r]; cbn -[context_emit_file]; unfold stub_after, report_after;
    rewrite Hctx; apply wp_bind; (eapply wp_load; [exact Hp|]).
  - apply wp_bind, wp_noexcept_alloc_calm; [done|]. exact HQ.
  - cbn in HQ. by destruct (_ =? _)%string.
Qed.

Lemma shipped_destroy s opts p w (Q : unit -> world -> Prop) :
  w_heap w !! p = Some (shipped_obj s opts) -> Q tt (with_heap (delete p (w_heap w)) w) ->
  wp true (destroy_instance (Some (shipped_query s)) (Some p)) w Q.
Proof.
  intros Hp HQ. destruct s as [|r].
  - by eapply (wp_free true (A := StubInstance)).
  - by eapply (wp_free true (A := ReportInstance)).
Qed.

(** A use of a plugin of the distribution - create, any options, the
    after_link hook, destroy, through the wrappers and without an allocation
    failure - emits exactly one file through the host, named and filled by the
    last options given, or by the plugin's defaults (append-stub: the marker
    followed by the body), returns the status of the host and leaves the heap
    as it was; only a report plugin whose logical name was set to the empty
    string emits nothing and returns INVALID_ARGUMENT. Options with a null or
    unknown key and null values change nothing. *)
Theorem shipped_plugin_emits s opts ctx emit_file w :
  w_throws w = [] -> w_heap w !! w_next w = None ->
  context_emit_file (Some ctx) = Some emit_file ->
  (forall name content w, exists st w', emit_file name content w = Ret (st, w') /\
     w_heap w' = w_heap w) ->
  wp true (plugin_session (shipped_query s) opts ctx) w (fun st w' =>
    w_heap w' = w_heap w /\
    let w1 := allocated (shipped_obj s opts) w in
    match shipped_output s opts with
    | None => st = plugin_invalid /\ w' = with_heap (w_heap w) w1
    | Some (name, content) =>
        exists w2, emit_file name content w1 = Ret (st, w2) /\ w' = with_heap (w_heap w) w2
    end).
Proof.
  intros Ht Hn Hctx Hemit. apply wp_bind, shipped_create; [done|].
  apply wp_bind, shipped_configure; [done|apply lookup_insert_eq|].
  cbn [w_heap allocated]. rewrite insert_insert_eq.
  change (with_heap (<[w_next w := shipped_obj s opts]> (w_heap w))
    (allocated (shipped_obj s []) w)) with (allocated (shipped_obj s opts) w).
  set (w1 := allocated (shipped_obj s opts) w).
  assert (forall w2, w_heap w2 = w_heap w1 -> w_heap w2 !! w_next w = Some (shipped_obj s opts) /\
    delete (w_next w) (w_heap w2) = w_heap w) as Hback.
  { intros w2 ->. cbn. by rewrite lookup_insert_eq, delete_insert_id. }
  apply wp_bind. eapply shipped_after; [done|apply (Hback w1 eq_refl)|exact Hctx|].
  destruct (shipped_output s opts) as [[name content]|].
  - destruct (Hemit name content w1) as (st & w2 & Hw2 & Hh2).
    destruct (Hback w2 Hh2) as [Hp Hdel].
    unfold wp at 1. rewrite Hw2. apply wp_bind. eapply shipped_destroy; [done|].
    apply wp_ret. cbn [w_heap with_heap]. rewrite Hdel. split; [done|]. by exists w2.
  - destruct (Hback w1 eq_refl) as [Hp Hdel].
    apply wp_bind. eapply shipped_destroy; [done|].
    apply wp_ret. cbn [w_heap with_heap]. by rewrite Hdel.
Qed.

(** A host that writes the emitted files. *)
Definition writing_emit (data : plugin_context_data) (name content : string) : M Z :=
  _ ← modify (fun w => with_files (<[name := content]> (w_files w)) w); mret 0.

Definition writing_host : olnk_plugin_host :=
  {| ph_abi_version := OLNK_PLUGIN_ABI_VERSION; ph_struct_size := sizeof_plugin_host;
     ph_log := None; ph_diagnostic := None; ph_get_option := None; ph_set_option := None;
     ph_emit_file := Some writing_emit |}.

Definition ex_plugin_context : olnk_plugin_context :=
  {| pc_host := Some writing_host;
     pc_data := {| pc_linker_context := None; pc_session := None; pc_config := None |} |}.

Definition ex_plugin_world : world :=
  mkWorld ∅ 1%positive [] ∅ (fun _ => WriteOk) [] [].

Lemma shipped_plugin_emits_witness :
  wp true (plugin_session stub_query
             [(Some "body", Some "x"); (Some "colour", Some "red"); (Some "body", Some "y")]%string
             ex_plugin_context) ex_plugin_world
    (fun st w' => st = 0 /\ w_heap w' = ∅ /\
       w_files w' = {["append-stub.txt"%string := (line "/* OLNK STUB */" ++ "y")%string]}).
Proof.
  eapply wp_mono.
  - apply (shipped_plugin_emits AppendStub _ ex_plugin_context
      (writing_emit (pc_data ex_plugin_context)) ex_plugin_world);
      [reflexivity|reflexivity|reflexivity|].
    intros name content w. eexists _, _. split; reflexivity.
  - intros st w' (Hh & w2 & Hw2 & ->). injection Hw2 as <- <-.
    split; [reflexivity|]. split; [exact Hh|]. reflexivity.
Defined.
