(* ===== verification/Cli.v ===== *)
(** * The command line (src/olnk/cli.cpp)

    From the parsed arguments to the exit code: the profile, the options of the
    config, the session, and the destruction of what was created. The argument
    parser, the profile parser and the IPC service of the vendored Klyspec
    library are parameters; the linker is the public API of [Api]. The proof
    relates a whole run to a plan made from the arguments alone. *)

From Stdlib Require Import Ascii.
From stdpp Require Import pretty.
From S2P Require Import Prelude Abi Machine Format World FormatRun Api ApiSafe ApiRun.

#[local] Open Scope string_scope.
#[local] Open Scope Z_scope.

(** ** Texts *)

Definition line (s : string) : string := s ++ String "010"%char EmptyString.

Definition print_out (s : string) : M unit := emit (EOut s).
Definition print_err (s : string) : M unit := emit (EErr s).

Definition status_string (status : olnk_status) : string :=
  olnk_status_to_string (olnk_status_Z status).

(** ** Parsed arguments (Klyspec's ParseResult) *)

Record ParseResult := {
  pr_ok : bool;
  pr_values : gmap string (list string);
  pr_positionals : list string;
  pr_diagnostics : list string }.

Definition has_value (parsed : ParseResult) (key : string) : bool :=
  bool_decide (is_Some (pr_values parsed !! key)).

Definition first_value (parsed : ParseResult) (key : string) : option string :=
  match pr_values parsed !! key with Some (v :: _) => Some v | _ => None end.

Definition values_for (parsed : ParseResult) (key : string) : option (list string) :=
  pr_values parsed !! key.

Inductive profile_format : Set := PJson | PXml | PYaml | PSexpr.

Definition parse_profile_format (value : string) : option profile_format :=
  if (value =? "json")%string then Some PJson
  else if (value =? "xml")%string then Some PXml
  else if (value =? "yaml")%string then Some PYaml
  else if (value =? "sexpr")%string then Some PSexpr
  else None.

(** ** Numbers (strtol, base 10) *)

Definition is_space (c : ascii) : bool :=
  let n := Z.of_N (N_of_ascii c) in ((9 <=? n) && (n <=? 13)) || (n =? 32).

Definition digit_of (c : ascii) : option Z :=
  let n := Z.of_N (N_of_ascii c) in
  if (48 <=? n) && (n <=? 57) then Some (n - 48) else None.

Fixpoint skip_spaces (s : string) : string :=
  match s with
  | EmptyString => EmptyString
  | String c rest => if is_space c then skip_spaces rest else s
  end.

(** The value of the leading digits, and the rest. *)
Fixpoint digits (acc : Z) (s : string) : Z * string :=
  match s with
  | EmptyString => (acc, EmptyString)
  | String c rest =>
      match digit_of c with Some d => digits (acc * 10 + d) rest | None => (acc, s) end
  end.

(** The value, saturated to the range of long, and the first character that is
    not part of it; a text without digits is not consumed at all. *)
Definition strtol (s : string) : Z * string :=
  let t := skip_spaces s in
  let '(neg, t) := match t with
                   | String "-" t => (true, t)
                   | String "+" t => (false, t)
                   | _ => (false, t)
                   end in
  match t with
  | String c _ =>
      match digit_of c with
      | None => (0, s)
      | Some _ =>
          let '(n, rest) := digits 0 t in
          (Z.min (2 ^ 63 - 1) (Z.max (- 2 ^ 63) (if neg then - n else n)), rest)
      end
  | EmptyString => (0, s)
  end.

(** The text before and after the first '='. *)
Fixpoint split_eq (s : string) : option (string * string) :=
  match s with
  | EmptyString => None
  | String c rest =>
      if Ascii.eqb c "=" then Some (EmptyString, rest)
      else '(key, value) ← split_eq rest; Some (String c key, value)
  end.

(** ** The config *)

(** [if (!m) return false;] *)
Definition and_then (m : M bool) (k : M bool) : M bool :=
  b ← m; if (b : bool) then k else mret false.
#[local] Infix ">&" := and_then (at level 60, right associativity).

(** A call whose failure prints a message, or nothing when there is none. *)
Definition checked (m : M olnk_status) (message : option (olnk_status -> string)) : M bool :=
  s ← m;
  if bool_decide (s = OLNK_STATUS_OK) then mret true
  else
    _ ← match message with Some f => print_err (f s) | None => mret tt end;
    mret false.

Definition apply_string_setter (parsed : ParseResult) (config : option positive) (key : string)
    (setter : option positive -> cstr -> M olnk_status) (label : string) : M bool :=
  match first_value parsed key with
  | None => mret true
  | Some value =>
      checked (setter config (Some value))
        (Some (fun s => line ("error: failed to set " ++ label ++ ": " ++ status_string s)))
  end.

Definition output_kind_name (kind : string) : option Z :=
  if (kind =? "executable")%string then Some 0
  else if (kind =? "shared")%string then Some 1
  else if (kind =? "static")%string then Some 2
  else if (kind =? "relocatable")%string then Some 3
  else if (kind =? "binary")%string then Some 4
  else None.

Definition apply_output_kind (parsed : ParseResult) (config : option positive) : M bool :=
  match first_value parsed "output_kind" with
  | None => mret true
  | Some kind =>
      match output_kind_name kind with
      | None => _ ← print_err (line ("error: invalid --output-kind: " ++ kind)); mret false
      | Some mapped =>
          checked (olnk_config_set_output_kind config mapped)
            (Some (fun _ => line "error: failed to set output kind"))
      end
  end.

Definition threads_error : string := line "error: --threads expects non-negative integer".

Definition apply_threads (parsed : ParseResult) (config : option positive) : M bool :=
  match first_value parsed "threads" with
  | None => mret true
  | Some threads =>
      let '(count, rest) := strtol threads in
      if negb (rest =? "")%string || (count <? 0)
      then _ ← print_err threads_error; mret false
      else checked (olnk_config_set_thread_count config (u32 count))
             (Some (fun _ => line "error: failed to set threads"))
  end.

Definition define_error (kv : string) : string := line ("error: invalid define: " ++ kv).

Fixpoint apply_defines (config : option positive) (defs : list string) : M bool :=
  match defs with
  | [] => mret true
  | kv :: defs =>
      match split_eq kv with
      | Some (String _ _ as key, String _ _ as value) =>
          checked (olnk_config_define config (Some key) (Some value))
            (Some (fun _ => line ("error: failed define: " ++ key)))
          >& apply_defines config defs
      | _ => _ ← print_err (define_error kv); mret false
      end
  end.

(** [for (v : values) if (add(config, v) != OK) return false;] *)
Fixpoint apply_list (add : option positive -> cstr -> M olnk_status) (config : option positive)
    (values : list string) : M bool :=
  match values with
  | [] => mret true
  | v :: values => checked (add config (Some v)) None >& apply_list add config values
  end.

Fixpoint apply_profile_entries (config : option positive) (entries : list (string * string))
    : M bool :=
  match entries with
  | [] => mret true
  | (key, value) :: entries =>
      (if (key =? "output")%string then checked (olnk_config_set_output_path config (Some value)) None
       else if (key =? "format")%string then checked (olnk_config_set_format config (Some value)) None
       else if (key =? "machine")%string then checked (olnk_config_set_machine config (Some value)) None
       else if (key =? "script")%string then checked (olnk_config_set_script_path config (Some value)) None
       else if String.prefix "define." key
       then
         let define_key := String.substring 7 (String.length key) key in
         if (define_key =? "")%string then mret true
         else _ ← olnk_config_define config (Some define_key) (Some value); mret true
       else mret true)
      >& apply_profile_entries config entries
  end.

Section Cli.

(** KlyProfileLoader::load: the entries of a profile in the iteration order of
    its map, when the text parses. *)
Variable load_profile : profile_format -> string -> option (list (string * string)).
(** KlyCLIService::parse of the command link. *)
Variable parse_link : list string -> ParseResult.
(** What emit_ipc_snapshot prints, and whether the embedded DSL probe parses. *)
Variable ipc_snapshot : ParseResult -> list string.
Variable klytmk_ok : bool.
(** The specs of the Lua profiles. *)
Variable lua_formats : option (list (option lua_format_spec)).
Variable lua_machines : option (list (option lua_machine_spec)).

Definition profile_format_of (parsed : ParseResult) : string :=
  default "json" (first_value parsed "profile_format").

Definition apply_profile (parsed : ParseResult) (config : option positive) : M bool :=
  match first_value parsed "profile" with
  | None => mret true
  | Some path =>
      w ← get;
      match w_files w !! path with
      | None => _ ← print_err (line ("error: cannot open profile file: " ++ path)); mret false
      | Some text =>
          match parse_profile_format (profile_format_of parsed) with
          | None =>
              _ ← print_err (line ("error: invalid profile format: " ++ profile_format_of parsed));
              mret false
          | Some format =>
              match load_profile format text with
              | None => _ ← print_err (line "error: failed to parse profile file"); mret false
              | Some loaded => apply_profile_entries config loaded
              end
          end
      end
  end.

Definition apply_config (config : option positive) (parsed : ParseResult) : M bool :=
  apply_profile parsed config
  >& apply_string_setter parsed config "output" olnk_config_set_output_path "output"
  >& apply_string_setter parsed config "map" olnk_config_set_map_path "map"
  >& apply_string_setter parsed config "entry" olnk_config_set_entry_symbol "entry"
  >& apply_string_setter parsed config "format" olnk_config_set_format "format"
  >& apply_string_setter parsed config "machine" olnk_config_set_machine "machine"
  >& apply_string_setter parsed config "script" olnk_config_set_script_path "script"
  >& apply_output_kind parsed config
  >& apply_threads parsed config
  >& checked (olnk_config_set_incremental config (if has_value parsed "incremental" then 1 else 0))
       (Some (fun _ => line "error: failed to set incremental mode"))
  >& checked (olnk_config_set_debug_info config (if has_value parsed "debug_info" then 1 else 0))
       (Some (fun _ => line "error: failed to set debug-info mode"))
  >& apply_defines config (default [] (values_for parsed "define"))
  >& apply_list olnk_config_add_library config (default [] (values_for parsed "library"))
  >& apply_list olnk_config_add_library_path config
       (default [] (values_for parsed "library_path"))
  >& apply_list olnk_config_add_plugin config (default [] (values_for parsed "plugin"))
  >& apply_list olnk_config_add_input_file config (pr_positionals parsed).

(** ** The run *)

Definition diagnostic_line (i : nat) (message : string) : string :=
  line ("diagnostic[" ++ pretty (Z.of_nat i) ++ "]: " ++ message).

(** print_diagnostics from the diagnostic number [i] on, [n] of them left. *)
Fixpoint print_diagnostics_from (session : option positive) (i n : nat) : M unit :=
  match n with
  | O => mret tt
  | S n =>
      d ← olnk_session_diagnostic_at session (Z.of_nat i);
      _ ← match d with
          | None => mret tt
          | Some _ =>
              message ← olnk_diagnostic_message d;
              print_err (diagnostic_line i (default "<no-message>" message))
          end;
      print_diagnostics_from session (S i) n
  end.

Definition print_diagnostics (session : option positive) : M Z :=
  n ← olnk_session_diagnostic_count session;
  _ ← print_diagnostics_from session 0 (Z.to_nat n);
  mret (if n =? 0 then 0 else 1).

(** The destructor of ProcessState. *)
Definition destroy_state (context config session : option positive) : M unit :=
  _ ← match session with Some _ => olnk_session_destroy session | None => mret tt end;
  _ ← match config with Some _ => olnk_config_destroy config | None => mret tt end;
  match context with Some _ => olnk_context_destroy context | None => mret tt end.

(** The plugin hooks of CliBehaviorPlugin. *)
Definition before_parse (argv : list string) : list string :=
  (fun token => if (token =? "-vv")%string then "--trace" else token) <$> argv.

Definition after_parse (result : ParseResult) : ParseResult :=
  if has_value result "verbose" && has_value result "trace"
  then {| pr_ok := pr_ok result; pr_values := pr_values result;
          pr_positionals := pr_positionals result;
          pr_diagnostics := (pr_diagnostics result
            ++ ["--verbose and --trace both set; using trace level"])%list |}
  else result.

Definition dry_run_text : string :=
  line "dry-run: parse/config validation complete; skipping linker session run".

Definition intercept_dispatch (result : ParseResult) : M (option Z) :=
  if has_value result "dry_run" then _ ← print_out dry_run_text; mret (Some 0) else mret None.

Definition after_dispatch (code : Z) : M unit :=
  if negb (code =? 0)
  then print_err (line ("cli-plugin: dispatch finished with non-zero exit code " ++ pretty code))
  else mret tt.

Fixpoint print_lines (print : string -> M unit) (lines : list string) : M unit :=
  match lines with [] => mret tt | l :: lines => _ ← print l; print_lines print lines end.

Definition emit_ipc_snapshot (parsed : ParseResult) : M unit :=
  if negb (has_value parsed "ipc_signal") && negb (has_value parsed "ipc_socket") then mret tt
  else print_lines print_out (ipc_snapshot parsed).

(** The session of the state, from its creation to the exit code. *)
Definition run_session_step (context config : option positive) : M (Z * option positive) :=
  session ← olnk_session_create context config;
  match session with
  | None => _ ← print_err (line "fatal: failed to create session"); mret (1, None)
  | Some _ =>
      '(status, result) ← olnk_session_run lua_formats lua_machines session true;
      exit_code ←
        (if negb (bool_decide (status = OLNK_STATUS_OK))
         then _ ← print_err (line ("error: link failed: " ++ status_string status));
              _ ← print_diagnostics session;
              mret 1
         else _ ← print_diagnostics session; mret 0);
      _ ← olnk_result_destroy (match result with Some r => r | None => None end);
      _ ← after_dispatch exit_code;
      mret (exit_code, session)
  end.

(** The config and what follows: exit code and session. *)
Definition run_config_step (parsed : ParseResult) (context config : option positive)
    : M (Z * option positive) :=
  ok ← apply_config config parsed;
  if negb ok then mret (2, None)
  else
    intercepted ← intercept_dispatch parsed;
    match intercepted with
    | Some code => _ ← after_dispatch code; mret (code, None)
    | None => run_session_step context config
    end.

(** run_cli after the arguments were parsed without errors: the state is made,
    used and destroyed. *)
Definition run_link (parsed : ParseResult) : M Z :=
  _ ← emit_ipc_snapshot parsed;
  context ← olnk_context_create;
  match context with
  | None => _ ← print_err (line "fatal: failed to create context"); mret 1
  | Some _ =>
      _ ← (if has_value parsed "trace"
           then olnk_context_set_log_level context (olnk_log_level_Z OLNK_LOG_TRACE)
           else if has_value parsed "verbose"
           then olnk_context_set_log_level context (olnk_log_level_Z OLNK_LOG_DEBUG)
           else mret tt);
      config ← olnk_config_create;
      match config with
      | None =>
          _ ← print_err (line "fatal: failed to create config");
          _ ← destroy_state context None None;
          mret 1
      | Some _ =>
          '(code, session) ← run_config_step parsed context config;
          _ ← destroy_state context config session;
          mret code
      end
  end.

Definition help_text : string :=
  line "OcarinaLNK (olnk)" ++ line "Usage:" ++ line "  olnk [options] <input...>"
  ++ line "  olnk inspect <args...>" ++ line "  olnk profiles" ++ line ""
  ++ line "Link object files and libraries through OcarinaLNK C ABI." ++ line ""
  ++ line "Important options:" ++ line "  -o, --output <path>" ++ line "      --format <name>"
  ++ line "      --machine <name>" ++ line "      --output-kind <kind>"
  ++ line "      --profile <path>" ++ line "      --profile-format <json|xml|yaml|sexpr>"
  ++ line "      --ipc-signal / --ipc-socket" ++ line "      --dry-run".

Definition print_help : M unit := print_out help_text.
Definition print_version : M unit := print_out (line olnk_version_string).

(** The scan for --version and --help before anything is parsed. *)
Fixpoint fast_path (args : list string) : option (M Z) :=
  match args with
  | [] => None
  | token :: args =>
      if (token =? "--version")%string then Some (_ ← print_version; mret 0)
      else if (token =? "--help")%string || (token =? "-h")%string
      then Some (_ ← print_help; mret 0)
      else fast_path args
  end.

(** The two native subcommands, by name or id. *)
Definition inspect_text (args : list string) : string :=
  line ("inspect subcommand (native):" ++ foldr (fun a s => " " ++ a ++ s) "" args).

Definition subcommand (args : list string) : option (M Z) :=
  match args with
  | [] => None
  | first :: rest =>
      if (first =? "inspect")%string || (first =? "olnk.native.inspect")%string
      then Some (_ ← print_out (inspect_text rest); mret 0)
      else if (first =? "profiles")%string || (first =? "olnk.native.profiles")%string
      then Some (_ ← print_out (line "supported profile formats: json, xml, yaml, sexpr"); mret 0)
      else None
  end.

Definition run_cli (args : list string) : M Z :=
  _ ← (if klytmk_ok then mret tt
       else print_err (line "warning: embedded klytmk DSL probe failed"));
  match fast_path args with
  | Some m => m
  | None =>
      match subcommand args with
      | Some m => m
      | None =>
          let parsed := after_parse (parse_link (before_parse args)) in
          if negb (pr_ok parsed)
          then _ ← print_lines print_err ((fun d => line ("error: " ++ d)) <$> pr_diagnostics parsed);
               mret 2
          else if has_value parsed "help" then _ ← print_help; mret 0
          else if has_value parsed "version" then _ ← print_version; mret 0
          else run_link parsed
      end
  end.

End Cli.

(** ** The plan of a command

    The config the arguments call for, or the message they are refused with. *)

Definition update_string (parsed : ParseResult) (key : string)
    (upd : string -> olnk_config -> olnk_config) (cfg : olnk_config)
    : outcome string olnk_config :=
  Ret (match first_value parsed key with Some v => upd v cfg | None => cfg end).

Definition update_kind (parsed : ParseResult) (cfg : olnk_config) : outcome string olnk_config :=
  match first_value parsed "output_kind" with
  | None => Ret cfg
  | Some kind =>
      match output_kind_name kind ≫= output_kind_of_Z with
      | Some k => Ret (set_output_kind k cfg)
      | None => Fail (line ("error: invalid --output-kind: " ++ kind))
      end
  end.

Definition update_threads (parsed : ParseResult) (cfg : olnk_config)
    : outcome string olnk_config :=
  match first_value parsed "threads" with
  | None => Ret cfg
  | Some threads =>
      let '(count, rest) := strtol threads in
      if negb (rest =? "")%string || (count <? 0) then Fail threads_error
      else Ret (set_thread_count (u32 count) cfg)
  end.

Fixpoint update_defines (defs : list string) (cfg : olnk_config) : outcome string olnk_config :=
  match defs with
  | [] => Ret cfg
  | kv :: defs =>
      match split_eq kv with
      | Some (String _ _ as key, String _ _ as value) =>
          update_defines defs (set_defines (cf_defines cfg ++ [(key, value)])%list cfg)
      | _ => Fail (define_error kv)
      end
  end.

Definition update_list (field : olnk_config -> list string)
    (upd : list string -> olnk_config -> olnk_config) (values : list string) (cfg : olnk_config)
    : outcome string olnk_config :=
  Ret (foldl (fun cfg v => upd (field cfg ++ [v])%list cfg) cfg values).

Definition update_entry (cfg : olnk_config) (entry : string * string) : olnk_config :=
  let '(key, value) := entry in
  if (key =? "output")%string then set_output_path value cfg
  else if (key =? "format")%string then set_format_name value cfg
  else if (key =? "machine")%string then set_machine_name value cfg
  else if (key =? "script")%string then set_script_path value cfg
  else if String.prefix "define." key
  then
    let define_key := String.substring 7 (String.length key) key in
    if (define_key =? "")%string then cfg
    else set_defines (cf_defines cfg ++ [(define_key, value)])%list cfg
  else cfg.

Section Plan.
Variable load_profile : profile_format -> string -> option (list (string * string)).

Definition update_profile (files : gmap string string) (parsed : ParseResult)
    (cfg : olnk_config) : outcome string olnk_config :=
  match first_value parsed "profile" with
  | None => Ret cfg
  | Some path =>
      match files !! path with
      | None => Fail (line ("error: cannot open profile file: " ++ path))
      | Some text =>
          match parse_profile_format (profile_format_of parsed) with
          | None => Fail (line ("error: invalid profile format: " ++ profile_format_of parsed))
          | Some format =>
              match load_profile format text with
              | None => Fail (line "error: failed to parse profile file")
              | Some loaded => Ret (foldl update_entry cfg loaded)
              end
          end
      end
  end.

Definition cli_config (files : gmap string string) (parsed : ParseResult) (cfg : olnk_config)
    : outcome string olnk_config :=
  cfg ← update_profile files parsed cfg;
  cfg ← update_string parsed "output" set_output_path cfg;
  cfg ← update_string parsed "map" set_map_path cfg;
  cfg ← update_string parsed "entry" set_entry_symbol cfg;
  cfg ← update_string parsed "format" set_format_name cfg;
  cfg ← update_string parsed "machine" set_machine_name cfg;
  cfg ← update_string parsed "script" set_script_path cfg;
  cfg ← update_kind parsed cfg;
  cfg ← update_threads parsed cfg;
  cfg ← Ret (set_incremental (if has_value parsed "incremental" then 1 else 0) cfg);
  cfg ← Ret (set_debug_info (if has_value parsed "debug_info" then 1 else 0) cfg);
  cfg ← update_defines (default [] (values_for parsed "define")) cfg;
  cfg ← update_list cf_libraries set_libraries (default [] (values_for parsed "library")) cfg;
  cfg ← update_list cf_library_paths set_library_paths
          (default [] (values_for parsed "library_path")) cfg;
  cfg ← update_list cf_plugins set_plugins (default [] (values_for parsed "plugin")) cfg;
  update_list cf_input_files set_input_files (pr_positionals parsed) cfg.
End Plan.

Lemma plan_bind_defined {A B} (m : outcome string A) (k : A -> outcome string B) :
  m <> Undef -> (forall a, k a <> Undef) -> m ≫= k <> Undef.
Proof. destruct m; cbn; auto. Qed.

Lemma update_defines_defined defs cfg : update_defines defs cfg <> Undef.
Proof.
  revert cfg. induction defs as [|kv defs IH]; intros cfg; cbn; [done|].
  by destruct (split_eq kv) as [[[] []]|].
Qed.

(** The plan is made for any arguments. *)
Lemma cli_config_defined load_profile files parsed cfg :
  cli_config load_profile files parsed cfg <> Undef.
Proof.
  unfold cli_config. repeat (apply plan_bind_defined; [|intros ?]); try done;
    try apply update_defines_defined.
  - unfold update_profile. by repeat case_match.
  - unfold update_kind. by repeat case_match.
  - unfold update_threads. by repeat case_match.
Qed.

(** ** Steps that apply an option

    [m] does to the config at its address what [f] does to a config, or prints
    the message of [f] and stops. *)

Definition cfg_world (g : positive) (cfg : olnk_config) (w : world) : world :=
  with_heap (<[g := OConfig cfg]> (w_heap w)) w.

Definition applies (files : gmap string string) (m : option positive -> M bool)
    (f : olnk_config -> outcome string olnk_config) : Prop :=
  forall w g cfg (Q : bool -> world -> Prop),
    calm w -> w_files w = files -> w_heap w !! g = Some (OConfig cfg) ->
    match f cfg with
    | Ret cfg' => Q true (cfg_world g cfg' w)
    | Fail msg => forall cfg', Q false (add_events [EErr msg] (cfg_world g cfg' w))
    | Undef => False
    end -> wp true (m (Some g)) w Q.

Lemma cfg_world_id g cfg w : w_heap w !! g = Some (OConfig cfg) -> cfg_world g cfg w = w.
Proof. intros Hg. unfold cfg_world. rewrite insert_id by done. by destruct w. Qed.

Lemma cfg_world_twice g cfg cfg' w : cfg_world g cfg' (cfg_world g cfg w) = cfg_world g cfg' w.
Proof. unfold cfg_world. cbn. by rewrite insert_insert_eq. Qed.

Section Applies.
Context (files : gmap string string).

Lemma applies_then m f k h :
  applies files m f -> applies files k h ->
  applies files (fun g => m g >& k g) (fun cfg => f cfg ≫= h).
Proof.
  intros Hm Hk w g cfg Q Hcalm Hf Hg HQ. apply wp_bind. eapply Hm; [done..|].
  destruct (f cfg) as [cfg1|msg|]; cbn [mbind outcome_bind] in HQ; [|done|done].
  eapply (Hk (cfg_world g cfg1 w)); [done|done|apply lookup_insert_eq|].
  destruct (h cfg1); [|intros cfg'|done]; rewrite cfg_world_twice; auto.
Qed.

Lemma applies_ext m f f' :
  applies files m f -> (forall cfg, f cfg = f' cfg) -> applies files m f'.
Proof. intros Hm Hf w g cfg Q Hc Hfi Hg HQ. eapply Hm; [done..|]. by rewrite Hf. Qed.

Lemma applies_skip : applies files (fun _ => mret true) Ret.
Proof. intros w g cfg Q _ _ Hg HQ. apply wp_ret. by rewrite cfg_world_id in HQ. Qed.

Lemma applies_fail msg : applies files (fun _ => _ ← print_err msg; mret false) (fun _ => Fail msg).
Proof.
  intros w g cfg Q _ _ Hg HQ. apply wp_bind, wp_emit, wp_ret.
  specialize (HQ cfg). by rewrite cfg_world_id in HQ.
Qed.

(** A setter that succeeds when memory lasts. *)
Definition sets (c : option positive -> M olnk_status) (upd : olnk_config -> olnk_config) : Prop :=
  forall w g cfg (Q : olnk_status -> world -> Prop), calm w ->
    w_heap w !! g = Some (OConfig cfg) -> Q OLNK_STATUS_OK (cfg_world g (upd cfg) w) ->
    wp true (c (Some g)) w Q.

Lemma applies_checked c upd msg :
  sets c upd -> applies files (fun g => checked (c g) msg) (fun cfg => Ret (upd cfg)).
Proof.
  intros Hc w g cfg Q Hcalm _ Hg HQ. apply wp_bind. eapply Hc; [done..|].
  by rewrite bool_decide_eq_true_2.
Qed.

Lemma sets_string upd v : sets (fun g => config_set_string upd g (Some v)) (upd v).
Proof.
  intros w g cfg Q Hcalm Hg HQ. apply wp_bind. eapply wp_load; [done|].
  apply wp_bind, wp_bind, wp_may_throw_calm; [done|]. apply wp_ret, wp_bind.
  eapply wp_store; [done|]. by apply wp_ret.
Qed.

Lemma sets_assign upd : sets (config_assign upd) upd.
Proof.
  intros w g cfg Q Hcalm Hg HQ. apply wp_bind. eapply wp_load; [done|].
  apply wp_bind. eapply wp_store; [done|]. by apply wp_ret.
Qed.

Lemma sets_push field upd v :
  sets (fun g => config_push field upd g (Some v)) (fun cfg => upd (field cfg ++ [v])%list cfg).
Proof.
  intros w g cfg Q Hcalm Hg HQ. apply wp_bind. eapply wp_load; [done|].
  apply wp_bind, wp_bind, wp_may_throw_calm; [done|]. apply wp_ret, wp_bind.
  eapply wp_store; [done|]. by apply wp_ret.
Qed.

Lemma sets_define k v :
  sets (fun g => olnk_config_define g (Some k) (Some v))
    (fun cfg => set_defines (cf_defines cfg ++ [(k, v)])%list cfg).
Proof.
  intros w g cfg Q Hcalm Hg HQ. apply wp_bind. eapply wp_load; [done|].
  apply wp_bind, wp_bind, wp_may_throw_calm; [done|]. apply wp_ret, wp_bind.
  eapply wp_store; [done|]. by apply wp_ret.
Qed.

Lemma applies_string parsed key upd label :
  applies files (fun g => apply_string_setter parsed g key (config_set_string upd) label)
    (update_string parsed key upd).
Proof.
  unfold apply_string_setter, update_string.
  destruct (first_value parsed key); [|apply applies_skip].
  apply applies_checked, sets_string.
Qed.

Lemma applies_kind parsed : applies files (apply_output_kind parsed) (update_kind parsed).
Proof.
  unfold apply_output_kind, update_kind.
  destruct (first_value _ _) as [kind|]; [|apply applies_skip].
  destruct (output_kind_name kind) as [z|] eqn:Hz; cbn [mbind option_bind]; [|apply applies_fail].
  assert (exists k, output_kind_of_Z z = Some k) as [k Hk].
  { unfold output_kind_name in Hz. repeat (case_match; [simplify_eq; by eexists|]). done. }
  rewrite Hk. apply applies_checked. unfold olnk_config_set_output_kind. rewrite Hk.
  apply (sets_assign (set_output_kind k)).
Qed.

Lemma applies_threads parsed : applies files (apply_threads parsed) (update_threads parsed).
Proof.
  unfold apply_threads, update_threads.
  destruct (first_value _ _) as [s|]; [|apply applies_skip].
  destruct (strtol s) as [n rest]. destruct (_ || _); [apply applies_fail|].
  apply (applies_checked (fun g => olnk_config_set_thread_count g (u32 n))), sets_assign.
Qed.

Lemma applies_defines defs : applies files (fun g => apply_defines g defs) (update_defines defs).
Proof.
  induction defs as [|kv defs IH]; cbn [apply_defines update_defines]; [apply applies_skip|].
  destruct (split_eq kv) as [[[|c k] [|d v]]|]; try apply applies_fail.
  eapply applies_ext; [apply applies_then; [apply applies_checked, sets_define|exact IH]|done].
Qed.

Lemma applies_list field upd values :
  applies files (fun g => apply_list (config_push field upd) g values)
    (update_list field upd values).
Proof.
  induction values as [|v values IH]; cbn [apply_list]; [apply applies_skip|].
  eapply applies_ext; [apply applies_then; [apply applies_checked, sets_push|exact IH]|done].
Qed.

Lemma applies_entries entries :
  applies files (fun g => apply_profile_entries g entries)
    (fun cfg => Ret (foldl update_entry cfg entries)).
Proof.
  induction entries as [|[key value] entries IH]; cbn [apply_profile_entries];
    [apply applies_skip|].
  apply (applies_ext _ (fun cfg => Ret (update_entry cfg (key, value)) ≫=
    (fun cfg => Ret (foldl update_entry cfg entries)))); [|done].
  apply applies_then; [|exact IH]. cbn [update_entry].
  do 4 (destruct (_ =? _)%string; [apply applies_checked, sets_string|]).
  destruct (String.prefix _ _); [|apply applies_skip]. cbv zeta.
  destruct (_ =? _)%string; [apply applies_skip|].
  intros w g cfg Q Hcalm _ Hg HQ. apply wp_bind. eapply sets_define; [done..|].
  by apply wp_ret.
Qed.

Lemma applies_profile load_profile parsed :
  applies files (apply_profile load_profile parsed) (update_profile load_profile files parsed).
Proof.
  unfold apply_profile, update_profile.
  destruct (first_value parsed "profile") as [path|]; [|apply applies_skip].
  intros w g cfg Q Hcalm Hfiles Hg HQ. apply wp_bind, wp_get. rewrite Hfiles.
  destruct (files !! path) as [text|]; [|by eapply applies_fail].
  destruct (parse_profile_format _) as [format|]; [|by eapply applies_fail].
  destruct (load_profile format text) as [loaded|]; [|by eapply applies_fail].
  by eapply applies_entries.
Qed.

End Applies.

Lemma sets_flag (set_flag : Z -> olnk_config -> olnk_config) (b : bool) :
  sets (config_assign (set_flag (if (if b then 1 else 0) =? 0 then 0 else 1)))
    (set_flag (if b then 1 else 0)).
Proof. destruct b; apply sets_assign. Qed.

(** The whole config. *)
Lemma applies_config load_profile files parsed :
  applies files (fun g => apply_config load_profile g parsed)
    (cli_config load_profile files parsed).
Proof.
  unfold apply_config, cli_config.
  apply applies_then; [apply applies_profile|].
  do 6 (apply applies_then; [apply applies_string|]).
  apply applies_then; [apply applies_kind|].
  apply applies_then; [apply applies_threads|].
  apply applies_then; [apply applies_checked, (sets_flag set_incremental)|].
  apply applies_then; [apply applies_checked, (sets_flag set_debug_info)|].
  apply applies_then; [apply applies_defines|].
  do 3 (apply applies_then; [apply applies_list|]).
  apply applies_list.
Qed.

(** ** The session step *)

Definition exit_code (st : olnk_status) : Z :=
  if bool_decide (st = OLNK_STATUS_OK) then 0 else 1.

(** What a run of a plan prints before its result is destroyed, and in all. *)
Definition report_texts (plan : link_plan) (st : olnk_status) : list event :=
  if bool_decide (st = OLNK_STATUS_OK) then []
  else EErr (line ("error: link failed: " ++ status_string st))
       :: match plan with
          | PlanError msg => [EErr (diagnostic_line 0 msg)]
          | PlanWrite _ => []
          end.

Definition run_texts (plan : link_plan) (st : olnk_status) : list event :=
  (report_texts plan st
   ++ if bool_decide (st = OLNK_STATUS_OK) then []
      else [EErr (line ("cli-plugin: dispatch finished with non-zero exit code " ++ pretty 1))])%list.

(** A context without callbacks. *)
Definition silent (cx : olnk_context) : Prop :=
  cx_log_callback cx = None /\ cx_diag_callback cx = None.

Lemma silent_log cx level msg : silent cx -> log_events cx level msg = [].
Proof. intros [H _]. unfold log_events. rewrite H. by destruct (_ || _). Qed.

Lemma silent_diag cx sev msg : silent cx -> diag_events cx sev msg = [].
Proof. intros [_ H]. unfold diag_events. by rewrite H. Qed.

Lemma silent_end cx st : silent cx -> end_events cx st = [].
Proof. intros H. unfold end_events. destruct (bool_decide _); by apply silent_log. Qed.

Lemma delete_all_delete ds r (h : gmap positive obj) :
  delete_all ds (delete r h) = delete r (delete_all ds h).
Proof.
  revert h. induction ds as [|d ds IH]; intros h; [done|]. cbn. by rewrite delete_delete, IH.
Qed.

Section Diagnostics.
Variables (p c : positive) (cfg : olnk_config).

Lemma print_none w (Q : Z -> world -> Prop) :
  w_heap w !! p = Some (OSession (run_session c cfg [])) -> Q 0 w ->
  wp true (print_diagnostics (Some p)) w Q.
Proof.
  intros Hp HQ. apply wp_bind, wp_bind. eapply wp_load; [exact Hp|]. apply wp_ret.
  apply wp_bind, wp_ret. by apply wp_ret.
Qed.

Lemma print_one w d msg (Q : Z -> world -> Prop) :
  w_heap w !! p = Some (OSession (run_session c cfg [d])) ->
  w_heap w !! d = Some (ODiagnostic (error_diagnostic msg)) ->
  Q 1 (add_events [EErr (diagnostic_line 0 msg)] w) ->
  wp true (print_diagnostics (Some p)) w Q.
Proof.
  intros Hp Hd HQ. apply wp_bind, wp_bind. eapply wp_load; [exact Hp|]. apply wp_ret.
  apply wp_bind. cbn [se_diagnostics run_session length Z.of_nat Pos.of_succ_nat Z.to_nat
    Pos.to_nat Pos.iter_op print_diagnostics_from].
  apply wp_bind, wp_bind. eapply wp_load; [exact Hp|]. apply wp_ret.
  cbn [se_diagnostics run_session length Z.of_nat Pos.of_succ_nat Z.leb Z.compare Z.to_nat
    lookup list_lookup].
  apply wp_bind, wp_bind, wp_bind. eapply wp_load; [exact Hd|]. apply wp_ret.
  apply wp_emit, wp_ret, wp_ret. exact HQ.
Qed.
End Diagnostics.

#[local] Open Scope list_scope.

Section Session.
Variable lua_formats : option (list (option lua_format_spec)).
Variable lua_machines : option (list (option lua_machine_spec)).

Definition fresh_from (n : positive) (h : gmap positive obj) : Prop :=
  forall a, (n <= a)%positive -> h !! a = None.

(** The state after a run of plan [plan] that left the session [p] with its
    diagnostics; without them and their session, the heap is [h]. *)
Definition session_left (w0 : world) (h : gmap positive obj) (p c : positive) (cfg : olnk_config)
    (plan : link_plan) (es : list event) (w' : world) : Prop :=
  let disk := w_disk w0 (cf_output_path cfg) in
  exists ds errs, run_diags (w_heap w') ds errs /\
    match plan with
    | PlanError msg => exists d, ds = [d] /\ w_heap w' !! d = Some (ODiagnostic (error_diagnostic msg))
    | PlanWrite _ => ds = []
    end /\
    w_heap w' !! p = Some (OSession (run_session c cfg ds)) /\
    delete p (delete_all ds (w_heap w')) = h /\
    w_files w' = plan_files plan disk (cf_output_path cfg) (w_files w0) /\
    w_events w' = w_events w0 ++ es.

(** Text changes nothing but the events. *)
Lemma session_left_text w0 h p c cfg plan es w' t :
  session_left w0 h p c cfg plan es w' ->
  session_left w0 h p c cfg plan (es ++ [t]) (add_events [t] w').
Proof.
  intros (ds & errs & H1 & H2 & H3 & H4 & H5 & H6). exists ds, errs. cbn.
  split_and!; try done. by rewrite H6, <- app_assoc.
Qed.

(** What is printed between the run and the destruction of the result. *)
Lemma run_report w0 h p c cfg plan st w' (Q : Z -> world -> Prop) :
  session_left w0 h p c cfg plan [] w' -> st = plan_status plan (w_disk w0 (cf_output_path cfg)) ->
  (forall w'',
     session_left w0 h p c cfg plan (report_texts plan st) w'' -> w_heap w'' = w_heap w' -> Q (exit_code st) w'') ->
  wp true (if negb (bool_decide (st = OLNK_STATUS_OK))
           then _ ← print_err (line ("error: link failed: " ++ status_string st)%string);
                _ ← print_diagnostics (Some p);
                mret 1
           else _ ← print_diagnostics (Some p); mret 0) w' Q.
Proof.
  intros Hleft Hst HQ. unfold exit_code, report_texts in HQ.
  pose proof Hleft as (ds & errs & H1 & H2 & H3 & _).
  case_bool_decide as Hok; cbn [negb].
  - destruct plan as [msg|payload]; [by subst st|]. subst ds.
    apply wp_bind. eapply print_none; [done|]. by apply wp_ret, HQ.
  - apply wp_bind, wp_emit. apply wp_bind.
    change (with_event ?e ?w) with (add_events [e] w).
    apply (session_left_text _ _ _ _ _ _ _ _
      (EErr (line ("error: link failed: " ++ status_string st)%string))) in Hleft.
    destruct plan as [msg|payload].
    + destruct H2 as (d & -> & Hd). eapply print_one; [exact H3|exact Hd|].
      apply wp_ret, HQ; [|done]. by apply (session_left_text _ _ _ _ _ _ [_]).
    + subst ds. eapply print_none; [exact H3|]. by apply wp_ret, HQ.
Qed.

Lemma session_left_drop w0 h r x p c cfg plan es w' :
  r <> p -> h !! r = Some (OResult x) ->
  session_left w0 h p c cfg plan es w' ->
  w_heap w' !! r = Some (OResult x) /\
  session_left w0 (delete r h) p c cfg plan es (with_heap (delete r (w_heap w')) w').
Proof.
  intros Hrp Hr (ds & errs & H1 & H2 & H3 & H4 & H5 & H6).
  assert (w_heap w' !! r = Some (OResult x)) as Hr'.
  { rewrite <- H4, lookup_delete_ne, lookup_delete_all in Hr by done. by case_bool_decide. }
  split; [done|]. exists ds, errs. cbn.
  assert (forall d y, w_heap w' !! d = Some (ODiagnostic y) ->
    delete r (w_heap w') !! d = Some (ODiagnostic y)) as Hkeep.
  { intros d y Hd. rewrite lookup_delete_ne; [done|]. congruence. }
  split_and!; try done.
  - destruct H1 as [H1|(d & msg & Hds & Hd & He)]; [by left|]. right. exists d, msg.
    split_and!; [done|by apply Hkeep|done].
  - destruct plan as [msg|]; [|done]. destruct H2 as (d & -> & Hd). exists d.
    split; [done|by apply Hkeep].
  - by rewrite lookup_delete_ne.
  - by rewrite delete_all_delete, delete_delete, H4.
Qed.

Lemma finish_run w0 h p c cfg plan st w' (Q : Z * option positive -> world -> Prop) :
  session_left w0 h p c cfg plan (report_texts plan st) w' ->
  (forall w'', session_left w0 h p c cfg plan (run_texts plan st) w'' ->
     Q (exit_code st, Some p) w'') ->
  wp true (_ ← after_dispatch (exit_code st); mret (exit_code st, Some p)) w' Q.
Proof.
  intros Hleft HQ. unfold run_texts, exit_code, after_dispatch in *.
  apply wp_bind. destruct (bool_decide (st = OLNK_STATUS_OK)); cbn [negb Z.eqb].
  - do 2 apply wp_ret. apply HQ. by rewrite app_nil_r.
  - apply wp_emit, wp_ret, HQ. by apply (session_left_text _ _ _ _ _ _ _ w').
Qed.

Lemma session_step_calm w c g cx cfg (Q : Z * option positive -> world -> Prop) :
  calm w -> fresh_from (w_next w) (w_heap w) -> silent cx ->
  w_heap w !! c = Some (OContext cx) -> w_heap w !! g = Some (OConfig cfg) ->
  let plan := plan_link lua_formats lua_machines (w_machines w) cfg in
  let st := plan_status plan (w_disk w (cf_output_path cfg)) in
  (forall p w', session_left w (w_heap w) p c cfg plan (run_texts plan st) w' ->
     Q (exit_code st, Some p) w') ->
  wp true (run_session_step lua_formats lua_machines (Some c) (Some g)) w Q.
Proof.
  intros Hcalm Hfresh Hsil Hc Hg plan st HQ.
  pose proof (Hfresh (w_next w) ltac:(lia)) as Hn.
  pose proof (Hfresh (Pos.succ (w_next w)) ltac:(lia)) as Hn1.
  pose proof (Hfresh (Pos.succ (Pos.succ (w_next w))) ltac:(lia)) as Hn2.
  set (s := w_next w) in *. set (r := Pos.succ s) in *.
  assert (s <> c) as Hsc by congruence. assert (r <> c) as Hrc by congruence.
  assert (r <> s) as Hrs by (unfold r; lia).
  apply wp_bind. eapply session_create_calm; [done..|]. rewrite silent_log by done.
  rewrite add_events_nil. apply wp_bind. eapply session_start_calm.
  - done.
  - cbn. apply lookup_insert_eq.
  - cbn. by rewrite lookup_insert_ne.
  - cbn. by rewrite lookup_insert_ne.
  - rewrite silent_log, add_events_nil by done. cbn [w_next moved]. fold s r. eapply wp_mono.
    { apply (run_after_result_calm lua_formats lua_machines _ s r c cx cfg).
      * done.
      * cbn. by rewrite lookup_insert_ne, lookup_insert_eq.
      * cbn. apply lookup_insert_eq.
      * cbn. by rewrite !lookup_insert_ne.
      * cbn. rewrite !lookup_insert_ne by (unfold r; lia). done. }
    intros res w2 (ds & errs & Hds & Hdiag & -> & Hs2 & Hdel & Hf & He).
    cbn [w_machines moved w_disk] in *. fold plan st in Hdel, Hf, He.
    assert (session_left w (<[r := OResult (plan_result plan (w_disk w (cf_output_path cfg)) cfg)]>
      (w_heap w)) s c cfg plan [] w2) as Hleft.
    { exists ds, errs. split_and!; try done.
      - rewrite Hdel. cbn [w_heap moved].
        rewrite delete_insert_eq, insert_insert_eq, delete_insert_ne by done.
        by rewrite delete_insert_id.
      - rewrite He. cbn [w_events moved]. rewrite silent_end by done.
        f_equal. destruct plan; [by rewrite silent_diag|done]. }
    apply wp_bind. eapply run_report; [exact Hleft|done|]. intros w3 Hleft3 Hh3.
    destruct (session_left_drop _ _ r _ _ _ _ _ _ _ Hrs (lookup_insert_eq _ _ _) Hleft3)
      as [Hr3 Hleft4]. rewrite delete_insert_id in Hleft4 by done.
    apply wp_bind. eapply (wp_free true (A := ResultStorage)); [exact Hr3|].
    eapply finish_run; [exact Hleft4|]. intros w4 Hw4. by apply HQ.
Qed.

End Session.

(** ** The whole command *)

(** Exit code, files and printed text of a command. *)
Record answer := { an_code : Z; an_files : gmap string string; an_texts : list event }.

Section Plans.
Variable load_profile : profile_format -> string -> option (list (string * string)).
Variable parse_link : list string -> ParseResult.
Variable ipc_snapshot : ParseResult -> list string.
Variable klytmk_ok : bool.
Variable lua_formats : option (list (option lua_format_spec)).
Variable lua_machines : option (list (option lua_machine_spec)).

(** What follows the creation of the config. *)
Definition config_answer (w : world) (parsed : ParseResult) : answer :=
  match cli_config load_profile (w_files w) parsed config_default with
  | Ret cfg =>
      if has_value parsed "dry_run"
      then {| an_code := 0; an_files := w_files w; an_texts := [EOut dry_run_text] |}
      else
        let plan := plan_link lua_formats lua_machines (w_machines w) cfg in
        let disk := w_disk w (cf_output_path cfg) in
        {| an_code := exit_code (plan_status plan disk);
           an_files := plan_files plan disk (cf_output_path cfg) (w_files w);
           an_texts := run_texts plan (plan_status plan disk) |}
  | Fail msg => {| an_code := 2; an_files := w_files w; an_texts := [EErr msg] |}
  | Undef => {| an_code := 0; an_files := w_files w; an_texts := [] |}
  end.

Definition snapshot_texts (parsed : ParseResult) : list event :=
  if has_value parsed "ipc_signal" || has_value parsed "ipc_socket"
  then EOut <$> ipc_snapshot parsed else [].

Definition fast_text (args : list string) : option string :=
  token ← list_find (fun token => token = "--version" \/ token = "--help" \/ token = "-h")%string args;
  Some (if (token.2 =? "--version")%string then line olnk_version_string else help_text).

Definition subcommand_text (args : list string) : option string :=
  match args with
  | [] => None
  | first :: rest =>
      if bool_decide (first ∈ ["inspect"; "olnk.native.inspect"])%string
      then Some (inspect_text rest)
      else if bool_decide (first ∈ ["profiles"; "olnk.native.profiles"])%string
      then Some (line "supported profile formats: json, xml, yaml, sexpr")
      else None
  end.

Definition parsed_answer (w : world) (parsed : ParseResult) : answer :=
  let quiet code texts := {| an_code := code; an_files := w_files w; an_texts := texts |} in
  if negb (pr_ok parsed)
  then quiet 2 ((fun d => EErr (line ("error: " ++ d)%string)) <$> pr_diagnostics parsed)
  else if has_value parsed "help" then quiet 0 [EOut help_text]
  else if has_value parsed "version" then quiet 0 [EOut (line olnk_version_string)]
  else
    let a := config_answer w parsed in
    {| an_code := an_code a; an_files := an_files a;
       an_texts := snapshot_texts parsed ++ an_texts a |}.

(** The answer to a command line. *)
Definition cli_answer (w : world) (args : list string) : answer :=
  let a :=
    match fast_text args, subcommand_text args with
    | Some t, _ | None, Some t => {| an_code := 0; an_files := w_files w; an_texts := [EOut t] |}
    | None, None => parsed_answer w (after_parse (parse_link (before_parse args)))
    end in
  {| an_code := an_code a; an_files := an_files a;
     an_texts := (if klytmk_ok then [] else [EErr (line "warning: embedded klytmk DSL probe failed")])
       ++ an_texts a |}.
End Plans.

(** [w'] is what the answer [a] makes of [w]: no object is left behind. *)
Definition answered (w : world) (a : answer) (code : Z) (w' : world) : Prop :=
  code = an_code a /\ w_heap w' = w_heap w /\ w_files w' = an_files a /\
  w_events w' = w_events w ++ an_texts a.

Section Command.
Variable load_profile : profile_format -> string -> option (list (string * string)).
Variable parse_link : list string -> ParseResult.
Variable ipc_snapshot : ParseResult -> list string.
Variable klytmk_ok : bool.
Variable lua_formats : option (list (option lua_format_spec)).
Variable lua_machines : option (list (option lua_machine_spec)).

(** The heap of a command before its session: its context and config. *)
Definition with_state (c g : positive) (cx : olnk_context) (cfg : olnk_config)
    (h : gmap positive obj) : gmap positive obj :=
  <[g := OConfig cfg]> (<[c := OContext cx]> h).

Lemma destroy_rest c g cx cfg h w (Q : unit -> world -> Prop) :
  c <> g -> h !! c = None -> h !! g = None -> w_heap w = with_state c g cx cfg h ->
  Q tt (with_heap h w) -> wp true (destroy_state (Some c) (Some g) None) w Q.
Proof.
  intros Hcg Hc Hg Hw HQ. apply wp_bind, wp_ret, wp_bind.
  eapply (wp_free true (A := olnk_config)); [rewrite Hw; apply lookup_insert_eq|].
  rewrite Hw. unfold with_state. rewrite delete_insert_id by by rewrite lookup_insert_ne.
  eapply (wp_free true (A := olnk_context)); [cbn; apply lookup_insert_eq|].
  cbn [w_heap with_heap]. by rewrite delete_insert_id.
Qed.

(** The session, when there is one, goes first. *)
Lemma destroy_session_first c g p cx cfg cfg' h w0 plan es w (Q : unit -> world -> Prop) :
  c <> g -> h !! c = None -> h !! g = None ->
  session_left w0 (with_state c g cx cfg h) p c cfg' plan es w ->
  Q tt (with_heap h w) -> wp true (destroy_state (Some c) (Some g) (Some p)) w Q.
Proof.
  intros Hcg Hc Hg (ds & errs & Hds & _ & Hp & Hdel & _) HQ.
  apply wp_bind. eapply destroy_calm; [exact Hp|exact Hds|].
  rewrite Hdel. by eapply (destroy_rest c g cx cfg).
Qed.

(** From the config to the end of the destructor. *)
Lemma config_step_calm parsed c g cx h w :
  calm w -> fresh_from (w_next w) (w_heap w) -> silent cx ->
  c <> g -> h !! c = None -> h !! g = None -> w_heap w = with_state c g cx config_default h ->
  wp true ('(code, session) ← run_config_step load_profile lua_formats lua_machines parsed
             (Some c) (Some g);
           _ ← destroy_state (Some c) (Some g) session;
           mret code) w (answered (with_heap h w)
           (config_answer load_profile lua_formats lua_machines w parsed)).
Proof.
  intros Hcalm Hfresh Hsil Hcg Hc Hg Hw.
  assert (w_heap w !! g = Some (OConfig config_default)) as Hcfg
    by (rewrite Hw; apply lookup_insert_eq).
  assert (forall cfg, w_heap (cfg_world g cfg w) = with_state c g cx cfg h) as Hheap.
  { intros cfg. cbn. rewrite Hw. apply insert_insert_eq. }
  apply wp_bind, wp_bind. eapply (applies_config load_profile (w_files w)); [done..|].
  unfold config_answer.
  destruct (cli_config _ _ _ _) as [cfg|msg|] eqn:Hconf; cbn [negb].
  - apply wp_bind. unfold intercept_dispatch. destruct (has_value parsed "dry_run").
    + apply wp_bind, wp_emit, wp_ret, wp_bind, wp_ret, wp_ret, wp_bind.
      eapply (destroy_rest c g cx cfg); [done..|apply Hheap|]. by apply wp_ret.
    + apply wp_ret. eapply session_step_calm.
      * done.
      * intros a Ha. cbn. rewrite lookup_insert_ne; [by apply Hfresh|].
        intros ->. by rewrite Hfresh in Hcfg.
      * exact Hsil.
      * rewrite Hheap. unfold with_state. rewrite lookup_insert_ne by done.
        apply lookup_insert_eq.
      * cbn. apply lookup_insert_eq.
      * intros p w' Hleft. rewrite Hheap in Hleft.
        apply wp_bind. eapply destroy_session_first; [done..|exact Hleft|]. apply wp_ret.
        destruct Hleft as (ds & errs & _ & _ & _ & _ & Hf & He). done.
  - intros cfg. apply wp_ret, wp_bind.
    eapply (destroy_rest c g cx cfg); [done..|apply Hheap|]. by apply wp_ret.
  - by apply cli_config_defined in Hconf.
Qed.

Lemma print_lines_run print mk lines w (Q : unit -> world -> Prop) :
  (forall l, print l = emit (mk l)) -> Q tt (add_events (mk <$> lines) w) ->
  wp true (print_lines print lines) w Q.
Proof.
  intros Hp. revert w. induction lines as [|l lines IH]; intros w HQ; cbn.
  - apply (wp_ret true). by rewrite add_events_nil in HQ.
  - apply wp_bind. rewrite Hp. apply wp_emit, IH.
    unfold add_events, with_event in *. cbn in *. by rewrite <- app_assoc.
Qed.

(** The level the flags ask for. *)
Lemma set_level_run parsed c w cx (Q : unit -> world -> Prop) :
  w_heap w !! c = Some (OContext cx) -> silent cx ->
  (forall cx', silent cx' -> Q tt (with_heap (<[c := OContext cx']> (w_heap w)) w)) ->
  wp true (if has_value parsed "trace"
           then olnk_context_set_log_level (Some c) (olnk_log_level_Z OLNK_LOG_TRACE)
           else if has_value parsed "verbose"
           then olnk_context_set_log_level (Some c) (olnk_log_level_Z OLNK_LOG_DEBUG)
           else mret tt) w Q.
Proof.
  intros Hc Hs HQ.
  destruct (has_value parsed "trace"); [|destruct (has_value parsed "verbose")].
  3: { apply wp_ret. specialize (HQ cx Hs). rewrite insert_id in HQ by done. by destruct w. }
  all: apply wp_bind; eapply wp_load; [exact Hc|];
    eapply (wp_store true (A := olnk_context)); [exact Hc|]; by apply HQ.
Qed.

Lemma run_link_calm parsed w :
  calm w -> fresh_from (w_next w) (w_heap w) ->
  wp true (run_link load_profile ipc_snapshot lua_formats lua_machines parsed) w
    (answered (add_events (snapshot_texts ipc_snapshot parsed) w)
       (config_answer load_profile lua_formats lua_machines w parsed)).
Proof.
  intros Hcalm Hfresh. unfold run_link. apply wp_bind.
  assert (forall Q : unit -> world -> Prop,
    Q tt (add_events (snapshot_texts ipc_snapshot parsed) w) ->
    wp true (emit_ipc_snapshot ipc_snapshot parsed) w Q) as Hsnap.
  { intros Q HQ. unfold emit_ipc_snapshot, snapshot_texts in *. rewrite <- negb_orb.
    destruct (_ || _); cbn [negb].
    - by eapply print_lines_run.
    - apply wp_ret. by rewrite add_events_nil in HQ. }
  apply Hsnap. apply wp_bind, wp_bind, wp_may_throw_calm; [done|].
  apply wp_bind, wp_alloc, wp_ret, wp_bind.
  eapply set_level_run; [cbn; apply lookup_insert_eq|done|]. intros cx Hcx.
  apply wp_bind, wp_bind, wp_may_throw_calm; [done|]. apply wp_bind, wp_alloc, wp_ret.
  cbn [w_heap w_next with_heap]. rewrite insert_insert_eq.
  eapply wp_mono.
  - eapply (config_step_calm parsed (w_next w) (Pos.succ (w_next w)) cx (w_heap w)).
    + done.
    + intros a Ha. cbn in *. rewrite !lookup_insert_ne by lia. apply Hfresh. lia.
    + done.
    + lia.
    + apply Hfresh. lia.
    + apply Hfresh. lia.
    + done.
  - by intros code w' (Hcode & Hh & Hf & He).
Qed.

Lemma print_and_return text w :
  wp true (_ ← print_out text; mret 0) w
    (answered w {| an_code := 0; an_files := w_files w; an_texts := [EOut text] |}).
Proof. by apply wp_bind, wp_emit, wp_ret. Qed.

Lemma fast_path_text args :
  fast_path args = (fun t => _ ← print_out t; mret 0) <$> fast_text args.
Proof.
  unfold fast_text. induction args as [|token args IH]; [done|]. cbn [fast_path].
  cbn [list_find]. destruct (String.eqb_spec token "--version") as [->|Hv]; [done|].
  destruct (String.eqb_spec token "--help") as [->|Hl]; [done|].
  destruct (String.eqb_spec token "-h") as [->|Hs]; [done|].
  cbn [orb]. rewrite decide_False by naive_solver. rewrite IH.
  by destruct (list_find _ args) as [[]|].
Qed.

Lemma subcommand_texts args :
  subcommand args = (fun t => _ ← print_out t; mret 0) <$> subcommand_text args.
Proof.
  destruct args as [|first rest]; [done|]. cbn [subcommand subcommand_text].
  assert (forall s t, ((first =? s)%string || (first =? t)%string)
    = bool_decide (first ∈ [s; t])) as Hin.
  { intros s t. apply eq_bool_prop_intro. rewrite orb_True, bool_decide_spec.
    destruct (String.eqb_spec first s), (String.eqb_spec first t); set_solver. }
  rewrite !Hin. by repeat case_bool_decide.
Qed.

Lemma run_parsed parsed w :
  calm w -> fresh_from (w_next w) (w_heap w) ->
  wp true
    (if negb (pr_ok parsed)
     then _ ← print_lines print_err
                ((fun d => line ("error: " ++ d)%string) <$> pr_diagnostics parsed);
          mret 2
     else if has_value parsed "help" then _ ← print_help; mret 0
     else if has_value parsed "version" then _ ← print_version; mret 0
     else run_link load_profile ipc_snapshot lua_formats lua_machines parsed) w
    (answered w (parsed_answer load_profile ipc_snapshot lua_formats lua_machines w parsed)).
Proof.
  intros Hcalm Hfresh. unfold parsed_answer. cbv zeta.
  destruct (negb (pr_ok parsed)).
  { apply wp_bind. eapply (print_lines_run print_err EErr); [done|]. apply wp_ret.
    unfold answered. cbn. by rewrite <- list_fmap_compose. }
  destruct (has_value parsed "help"); [apply print_and_return|].
  destruct (has_value parsed "version"); [apply print_and_return|].
  eapply wp_mono; [by apply run_link_calm|]. intros code w' (Hcode & Hh & Hf & He).
  unfold answered. cbn in *. by rewrite app_assoc.
Qed.

(** C20: The command line does what its arguments say: when memory lasts, every
    run returns, prints exactly the texts of its answer in their order, writes
    the files of its answer and no others, and leaves no object behind. The
    answer is 0 with the text for help, version and the two subcommands, 2 with
    the parser's diagnostics or the first option that can not be applied, 0 for
    a dry run, and else 0 or 1 by the status of the link of the config the
    arguments describe, profile first and options over it. *)
Theorem run_cli_refines args w :
  calm w -> fresh_from (w_next w) (w_heap w) ->
  wp true (run_cli load_profile parse_link ipc_snapshot klytmk_ok lua_formats lua_machines args) w
    (answered w (cli_answer load_profile parse_link ipc_snapshot klytmk_ok lua_formats
                   lua_machines w args)).
Proof.
  intros Hcalm Hfresh. apply wp_bind.
  eapply (wp_mono true _ _ (fun _ w1 => w1 = add_events
    (if klytmk_ok then [] else [EErr (line "warning: embedded klytmk DSL probe failed")]) w)).
  { destruct klytmk_ok; [apply (wp_ret true); by rewrite add_events_nil|]. by apply wp_emit. }
  intros _ w1 ->. set (pre := if klytmk_ok then _ else _).
  assert (forall (m : M Z) a, wp true m (add_events pre w) (answered (add_events pre w) a) ->
    wp true m (add_events pre w) (answered w {| an_code := an_code a; an_files := an_files a;
      an_texts := pre ++ an_texts a |})) as Hpre.
  { intros m a Hm. eapply wp_mono; [exact Hm|]. intros code w' (? & ? & ? & He).
    unfold answered. cbn in *. by rewrite app_assoc. }
  apply Hpre. rewrite fast_path_text.
  destruct (fast_text args) as [t|]; [apply (print_and_return t (add_events pre w))|].
  cbn [fmap option_fmap option_map]. rewrite subcommand_texts.
  destruct (subcommand_text args) as [t|]; [apply (print_and_return t (add_events pre w))|].
  by apply (run_parsed _ (add_events pre w)).
Qed.

End Command.

(** A link of one input through a stub of the argument parser. *)
Definition ex_parsed : ParseResult :=
  {| pr_ok := true;
     pr_values := <["output" := ["a.out"]]> (<["threads" := [" 4294967298"]]>
       (<["format" := ["elf"]]> (<["machine" := ["x86_64"]]> ∅)));
     pr_positionals := ["main.o"]; pr_diagnostics := [] |}%string.

Definition ex_cli_world : world := mkWorld ∅ 1 [] ∅ (fun _ => WriteOk) [] g_builtin_machines.

Lemma run_cli_refines_witness :
  (calm ex_cli_world /\ fresh_from (w_next ex_cli_world) (w_heap ex_cli_world)) /\
  wp true (run_cli (fun _ _ => None) (fun _ => ex_parsed) (fun _ => []) true None None
             ["main.o"%string]) ex_cli_world
    (answered ex_cli_world (cli_answer (fun _ _ => None) (fun _ => ex_parsed) (fun _ => []) true
                              None None ex_cli_world ["main.o"%string])).
Proof.
  split; [split; [reflexivity|intros a _; apply lookup_empty]|].
  apply (run_cli_refines (fun _ _ => None) (fun _ => ex_parsed) (fun _ => []) true None None
    ["main.o"%string] ex_cli_world); [reflexivity|intros a _; apply lookup_empty].
Defined.
