(* ===== verification/InitCount.v ===== *)
(** * The initialization count (src/olnk/api.cpp, library lifecycle)

    olnk_initialize and olnk_shutdown of any number of threads over the one
    atomic counter, with relaxed memory order: the counter is the sequence of
    its writes (its modification order), a read of a thread returns any value
    that is not older than what the thread has seen, and a read-modify-write
    acts on the last value. compare_exchange_weak may fail at any time, and the
    value it then reads may be an old one. *)

From S2P Require Import Prelude.

Inductive lib_call : Set := Initialize | Shutdown.

#[export] Instance lib_call_eq_dec : EqDecision lib_call.
Proof. solve_decision. Defined.

(** A write to g_initialize_count: the thread, the call it belongs to and the
    value written. *)
Record write := { wr_thread : nat; wr_call : lib_call; wr_value : Z }.

(** A thread: the calls it still has to make, the first one being in progress
    when [th_current] holds the local variable of olnk_shutdown's loop, and how
    many writes it has seen. *)
Record thread := mkThread {
  th_calls : list lib_call; th_current : option Z; th_view : nat }.

Record counter := mkCounter { ct_writes : list write; ct_threads : list thread }.

(** The value after the first [k] writes. *)
Definition value_at (h : list write) (k : nat) : Z :=
  match k with O => 0 | S k => from_option wr_value 0 (h !! k) end.

Definition latest (h : list write) : Z := value_at h (length h).

(** What a scheduled thread does next: an atomic read-modify-write, a read of
    the value after write number [k] (the load, or a failed exchange), or the
    exit from the loop. *)
Inductive action : Set := AWrite | ARead (k : nat) | AExit.

Definition readable (h : list write) (t : thread) (k : nat) : bool :=
  (th_view t <=? k)%nat && (k <=? length h)%nat.

(** One atomic step of thread number [i]. *)
Definition thread_step (i : nat) (h : list write) (t : thread) (a : action)
    : option (list write * thread) :=
  match th_calls t, th_current t, a with
  | Initialize :: calls, None, AWrite =>
      Some (h ++ [{| wr_thread := i; wr_call := Initialize; wr_value := u32 (latest h + 1) |}],
            mkThread calls None (S (length h)))
  | Shutdown :: _, None, ARead k =>
      if readable h t k then Some (h, mkThread (th_calls t) (Some (value_at h k)) k) else None
  | Shutdown :: calls, Some current, AWrite =>
      if negb (current =? 0) && (current =? latest h)
      then Some (h ++ [{| wr_thread := i; wr_call := Shutdown;
                          wr_value := u32 (current - 1) |}],
                 mkThread calls None (S (length h)))
      else None
  | Shutdown :: _, Some current, ARead k =>
      if negb (current =? 0) && readable h t k
      then Some (h, mkThread (th_calls t) (Some (value_at h k)) k) else None
  | Shutdown :: calls, Some current, AExit =>
      if current =? 0 then Some (h, mkThread calls None (th_view t)) else None
  | _, _, _ => None
  end.

Definition counter_step (s : counter) (c : nat * action) : option counter :=
  t ← ct_threads s !! fst c;
  '(h, t') ← thread_step (fst c) (ct_writes s) t (snd c);
  Some (mkCounter h (<[fst c := t']> (ct_threads s))).

Fixpoint counter_run (s : counter) (schedule : list (nat * action)) : option counter :=
  match schedule with
  | [] => Some s
  | c :: rest => s' ← counter_step s c; counter_run s' rest
  end.

(** The threads before their first call; the counter starts at zero. *)
Definition counter_start (programs : list (list lib_call)) : counter :=
  mkCounter [] ((fun calls => mkThread calls None 0) <$> programs).

(** ** What the callers promise

    Every shutdown of a thread gives back an initialize of the same thread. *)
Fixpoint balanced (calls : list lib_call) (held : Z) : bool :=
  match calls with
  | [] => true
  | Initialize :: calls => balanced calls (held + 1)
  | Shutdown :: calls => (1 <=? held) && balanced calls (held - 1)
  end.

Definition delta (c : lib_call) : Z := match c with Initialize => 1 | Shutdown => -1 end.
Definition sum_of {A} (f : A -> Z) (l : list A) : Z := foldr (fun a n => f a + n) 0 l.

(** Initializes minus shutdowns. *)
Definition net_calls : list lib_call -> Z := sum_of delta.
Definition inits_of : list lib_call -> Z :=
  sum_of (fun c => match c with Initialize => 1 | Shutdown => 0 end).

Lemma inits_of_cons c calls :
  inits_of (c :: calls) = (match c with Initialize => 1 | Shutdown => 0 end) + inits_of calls.
Proof. done. Qed.

Lemma net_calls_cons c calls : net_calls (c :: calls) = delta c + net_calls calls.
Proof. done. Qed.

(** ** Sums *)

Section Sums.
Context {A : Type}.
Implicit Types (f g : A -> Z) (l : list A).

Lemma sum_of_app f l1 l2 : sum_of f (l1 ++ l2) = sum_of f l1 + sum_of f l2.
Proof. unfold sum_of. induction l1; cbn; lia. Qed.

Lemma sum_of_insert f l i x y :
  l !! i = Some x -> sum_of f (<[i := y]> l) = sum_of f l - f x + f y.
Proof.
  revert i. induction l as [|z l IH]; intros [|i] Hi; simplify_eq/=; [unfold sum_of; cbn; lia|].
  unfold sum_of in *. cbn. rewrite (IH _ Hi). lia.
Qed.

Lemma sum_of_le f g l (d : Z) :
  (forall x, x ∈ l -> f x <= g x + d) -> sum_of f l <= sum_of g l + d * Z.of_nat (length l).
Proof.
  induction l as [|x l IH]; intros H; [cbn; lia|]. cbn [sum_of foldr length].
  specialize (IH ltac:(set_solver)). specialize (H x ltac:(set_solver)).
  unfold sum_of in IH. lia.
Qed.

Lemma sum_of_nonneg f l : (forall x, x ∈ l -> 0 <= f x) -> 0 <= sum_of f l.
Proof.
  induction l as [|x l IH]; intros H; [done|]. cbn [sum_of foldr].
  specialize (IH ltac:(set_solver)). specialize (H x ltac:(set_solver)).
  unfold sum_of in IH. lia.
Qed.

Lemma sum_of_ge f l x : (forall y, y ∈ l -> 0 <= f y) -> x ∈ l -> f x <= sum_of f l.
Proof.
  intros H Hx. apply list_elem_of_split in Hx as (l1 & l2 & ->).
  rewrite sum_of_app. cbn [sum_of foldr]. fold (sum_of f l2).
  pose proof (sum_of_nonneg f l1 ltac:(set_solver)).
  pose proof (sum_of_nonneg f l2 ltac:(set_solver)). lia.
Qed.

Lemma sum_of_add f g l : sum_of (fun x => f x + g x) l = sum_of f l + sum_of g l.
Proof. unfold sum_of. induction l; cbn; lia. Qed.

Lemma sum_of_zero f l : (forall x, x ∈ l -> f x = 0) -> sum_of f l = 0.
Proof.
  induction l as [|x l IH]; intros H; [done|]. cbn [sum_of foldr].
  fold (sum_of f l). rewrite (H x), IH by set_solver. done.
Qed.

Lemma sum_of_ext f g l : (forall x, x ∈ l -> f x = g x) -> sum_of f l = sum_of g l.
Proof.
  induction l as [|x l IH]; intros H; [done|]. cbn [sum_of foldr].
  rewrite (H x) by set_solver. f_equal. apply IH. set_solver.
Qed.
End Sums.

Lemma sum_of_fmap {A B} (f : B -> Z) (g : A -> B) l : sum_of f (g <$> l) = sum_of (fun a => f (g a)) l.
Proof. unfold sum_of. induction l as [|a l IH]; cbn; [done|]. by rewrite IH. Qed.

(** One index of [0 .. n-1] contributes. *)
Lemma sum_of_single n j (d : Z) :
  (j < n)%nat -> sum_of (fun i => if decide (i = j) then d else 0) (seq 0 n) = d.
Proof.
  intros Hj. assert (seq 0 n = seq 0 j ++ [j] ++ seq (S j) (n - S j)) as ->.
  { replace n with (j + (1 + (n - S j)))%nat at 1 by lia. by rewrite seq_app. }
  assert (forall l, j ∉ l -> sum_of (fun i => if decide (i = j) then d else 0) l = 0) as Hz.
  { intros l Hl. apply sum_of_zero. intros x Hx. rewrite decide_False; [done|set_solver]. }
  rewrite !sum_of_app, (Hz (seq 0 j)), (Hz (seq (S j) _)) by (rewrite elem_of_seq; lia).
  unfold sum_of. cbn. rewrite decide_True by done. lia.
Qed.

(** ** The writes by thread *)

Definition wr_delta (w : write) : Z := delta (wr_call w).
Definition net (h : list write) : Z := sum_of wr_delta h.
Definition net_of (i : nat) (h : list write) : Z :=
  sum_of (fun w => if decide (wr_thread w = i) then wr_delta w else 0) h.
Definition wr_init (w : write) : Z := match wr_call w with Initialize => 1 | Shutdown => 0 end.
Definition inits (h : list write) : Z := sum_of wr_init h.

Lemma net_by_thread n h :
  Forall (fun w => (wr_thread w < n)%nat) h ->
  net h = sum_of (fun i => net_of i h) (seq 0 n).
Proof.
  induction 1 as [|w h Hw _ IH].
  - symmetry. by apply sum_of_zero.
  - unfold net in *. cbn [sum_of foldr]. fold (sum_of wr_delta h). rewrite IH.
    rewrite <- (sum_of_single n (wr_thread w) (wr_delta w)) at 1 by done.
    rewrite <- sum_of_add. apply sum_of_ext. intros i _. unfold net_of. cbn [sum_of foldr].
    f_equal. destruct (decide (i = wr_thread w)), (decide (wr_thread w = i)); congruence.
Qed.

Lemma net_ge_one n h i :
  Forall (fun w => (wr_thread w < n)%nat) h -> (forall j, 0 <= net_of j h) ->
  (i < n)%nat -> net_of i h <= net h.
Proof.
  intros Hh Hj Hi. rewrite (net_by_thread n h Hh).
  apply (sum_of_ge (fun i => net_of i h)); [naive_solver|]. apply elem_of_seq. lia.
Qed.

Lemma net_inits h : net h <= inits h.
Proof.
  unfold net, inits, sum_of, wr_delta, wr_init. induction h as [|w h IH]; [done|]. cbn.
  destruct (wr_call w); cbn; lia.
Qed.

Lemma net_of_snoc i h w :
  net_of i (h ++ [w]) = net_of i h + (if decide (wr_thread w = i) then wr_delta w else 0).
Proof. unfold net_of. rewrite sum_of_app. cbn. lia. Qed.

Lemma net_snoc h w : net (h ++ [w]) = net h + wr_delta w.
Proof. unfold net. rewrite sum_of_app. cbn. lia. Qed.

Lemma value_at_app h w k : (k <= length h)%nat -> value_at (h ++ [w]) k = value_at h k.
Proof. intros Hk. destruct k; [done|]. cbn. by rewrite lookup_app_l by lia. Qed.

Lemma latest_snoc h w : latest (h ++ [w]) = wr_value w.
Proof.
  unfold latest. rewrite length_app, Nat.add_1_r. cbn.
  by rewrite lookup_app_r, Nat.sub_diag by lia.
Qed.

(** ** The invariant *)

Section Invariant.
Variable programs : list (list lib_call).

(** Thread [i] has [net_of i h] calls to give back, has seen its own writes,
    and has not read zero. *)
Record thread_inv (i : nat) (h : list write) (t : thread) : Prop := {
  ti_balanced : balanced (th_calls t) (net_of i h) = true;
  ti_view : (th_view t <= length h)%nat;
  ti_own : forall k, (th_view t <= k <= length h)%nat -> net_of i (take k h) = net_of i h;
  ti_current : forall c, th_current t = Some c ->
    1 <= c < 2 ^ 32 /\ exists rest, th_calls t = Shutdown :: rest }.

Record counter_inv (s : counter) : Prop := {
  ci_by : Forall (fun w => (wr_thread w < length (ct_threads s))%nat) (ct_writes s);
  ci_value : forall k, (k <= length (ct_writes s))%nat ->
    value_at (ct_writes s) k = net (take k (ct_writes s));
  ci_nonneg : forall k j, 0 <= net_of j (take k (ct_writes s));
  ci_inits : inits (ct_writes s) + sum_of (fun t => inits_of (th_calls t)) (ct_threads s)
             = sum_of inits_of programs;
  ci_net : net (ct_writes s) + sum_of (fun t => net_calls (th_calls t)) (ct_threads s)
           = sum_of net_calls programs;
  ci_threads : forall i t, ct_threads s !! i = Some t -> thread_inv i (ct_writes s) t }.

Hypothesis few_inits : sum_of inits_of programs < 2 ^ 32.

Lemma inits_of_nonneg calls : 0 <= inits_of calls.
Proof. apply sum_of_nonneg. by intros []. Qed.

Lemma value_bounds s k :
  counter_inv s -> (k <= length (ct_writes s))%nat ->
  0 <= value_at (ct_writes s) k < 2 ^ 32.
Proof.
  intros Hi Hk. rewrite (ci_value _ Hi) by done. split.
  - rewrite (net_by_thread (length (ct_threads s))) by apply Forall_take, Hi.
    apply sum_of_nonneg. intros. apply Hi.
  - pose proof (net_inits (take k (ct_writes s))).
    assert (inits (take k (ct_writes s)) <= inits (ct_writes s)).
    { rewrite <- (take_drop k (ct_writes s)) at 2. unfold inits. rewrite sum_of_app.
      assert (0 <= sum_of wr_init (drop k (ct_writes s)))
        by (apply sum_of_nonneg; intros w _; unfold wr_init; by destruct (wr_call w)). lia. }
    pose proof (ci_inits _ Hi).
    pose proof (sum_of_nonneg (fun t => inits_of (th_calls t)) (ct_threads s)
      (fun t _ => inits_of_nonneg _)). lia.
Qed.

Lemma readable_spec h t k : readable h t k = true <-> (th_view t <= k <= length h)%nat.
Proof. unfold readable. rewrite andb_true_iff, !Nat.leb_le. lia. Qed.

(** A thread that holds an initialize reads a positive value. *)
Lemma read_positive s i t rest k :
  counter_inv s -> ct_threads s !! i = Some t -> th_calls t = Shutdown :: rest ->
  readable (ct_writes s) t k = true ->
  1 <= value_at (ct_writes s) k < 2 ^ 32.
Proof.
  intros Hi Ht Hc Hk%readable_spec.
  pose proof (ci_threads _ Hi _ _ Ht) as Hti.
  pose proof (ti_balanced _ _ _ Hti) as Hb. rewrite Hc in Hb. cbn in Hb. bool_prop.
  split; [|apply value_bounds; [done|lia]].
  rewrite (ci_value _ Hi) by lia.
  pose proof (ti_own _ _ _ Hti k ltac:(lia)).
  pose proof (net_ge_one (length (ct_threads s)) (take k (ct_writes s)) i
    (Forall_take _ _ _ (ci_by _ Hi)) (ci_nonneg _ Hi k) (lookup_lt_Some _ _ _ Ht)). lia.
Qed.

(** A read keeps the invariant. *)
Lemma read_inv s i t rest k :
  counter_inv s -> ct_threads s !! i = Some t -> th_calls t = Shutdown :: rest ->
  readable (ct_writes s) t k = true ->
  counter_inv (mkCounter (ct_writes s)
    (<[i := mkThread (th_calls t) (Some (value_at (ct_writes s) k)) k]> (ct_threads s))).
Proof.
  intros Hi Ht Hc Hk. pose proof (read_positive s i t rest k Hi Ht Hc Hk) as Hpos.
  apply readable_spec in Hk. pose proof (ci_threads _ Hi _ _ Ht) as Hti.
  constructor; cbn [ct_writes ct_threads].
  - rewrite length_insert. apply Hi.
  - apply Hi.
  - apply Hi.
  - erewrite sum_of_insert by done. cbn [th_calls]. pose proof (ci_inits _ Hi). lia.
  - erewrite sum_of_insert by done. cbn [th_calls]. pose proof (ci_net _ Hi). lia.
  - intros j u [(-> & <- & _)|[_ Hj]]%list_lookup_insert_Some; [|by apply (ci_threads _ Hi)].
    constructor; cbn [th_calls th_current th_view].
    + apply Hti.
    + lia.
    + intros k' Hk'. apply Hti. lia.
    + intros c [= <-]. eauto.
Qed.

(** A write that changes the count by the call's own share keeps it. *)
Lemma write_inv s i t c rest v :
  counter_inv s -> ct_threads s !! i = Some t -> th_calls t = c :: rest ->
  v = latest (ct_writes s) + delta c -> 0 <= net_of i (ct_writes s) + delta c ->
  balanced rest (net_of i (ct_writes s) + delta c) = true ->
  counter_inv (mkCounter (ct_writes s ++ [{| wr_thread := i; wr_call := c; wr_value := v |}])
    (<[i := mkThread rest None (S (length (ct_writes s)))]> (ct_threads s))).
Proof.
  intros Hi Ht Hc Hv Hnn Hb. set (w := {| wr_thread := i |}). set (h := ct_writes s) in *.
  assert (forall k, (k <= length h)%nat -> take k (h ++ [w]) = take k h) as Htake
    by (intros; by rewrite take_app_le).
  assert (forall k, (length h < k)%nat -> take k (h ++ [w]) = h ++ [w]) as Hall
    by (intros; apply take_ge; rewrite length_app; cbn; lia).
  constructor; cbn [ct_writes ct_threads].
  - rewrite length_insert. apply Forall_app. split; [apply Hi|].
    constructor; [by eapply lookup_lt_Some|constructor].
  - intros k Hk. rewrite length_app in Hk. cbn in Hk.
    destruct (decide (k <= length h)%nat) as [Hle|].
    + rewrite value_at_app, Htake by done. by apply Hi.
    + rewrite Hall, net_snoc by lia. replace k with (length (h ++ [w]))
        by (rewrite length_app; cbn; lia).
      fold (latest (h ++ [w])). rewrite latest_snoc. cbn [wr_value w].
      rewrite Hv. unfold latest. rewrite (ci_value _ Hi) by done. by rewrite firstn_all.
  - intros k j. destruct (decide (k <= length h)%nat) as [Hle|].
    + rewrite Htake by done. apply Hi.
    + rewrite Hall, net_of_snoc by lia. cbn [wr_thread w]. unfold wr_delta. cbn [wr_call w].
      pose proof (ci_nonneg _ Hi (length h) j) as Hj. fold h in Hj. rewrite firstn_all in Hj.
      destruct (decide (i = j)) as [->|]; lia.
  - erewrite sum_of_insert by done. cbn [th_calls]. rewrite Hc, inits_of_cons.
    pose proof (ci_inits _ Hi) as Hin. fold h in Hin. unfold inits in *. rewrite sum_of_app.
    unfold sum_of at 2, wr_init at 2. cbn [foldr wr_call w]. lia.
  - erewrite sum_of_insert by done. cbn [th_calls]. rewrite Hc, net_calls_cons.
    pose proof (ci_net _ Hi) as Hin. fold h in Hin. rewrite net_snoc. unfold wr_delta.
    cbn [wr_call w]. lia.
  - intros j u [(-> & <- & _)|[Hne Hj]]%list_lookup_insert_Some.
    + constructor; cbn [th_calls th_current th_view].
      * rewrite net_of_snoc. cbn [wr_thread w]. by rewrite decide_True.
      * rewrite length_app. cbn. lia.
      * intros k Hk. by rewrite Hall by lia.
      * done.
    + destruct (ci_threads _ Hi _ _ Hj) as [Hbj Hvj Hoj Hcj]. fold h in Hbj, Hvj, Hoj.
      assert (net_of j (h ++ [w]) = net_of j h) as Hnet
        by (rewrite net_of_snoc; cbn [wr_thread w]; rewrite decide_False by done; lia).
      constructor; [by rewrite Hnet|rewrite length_app; lia| |done].
      intros k Hk. rewrite Hnet. destruct (decide (k <= length h)%nat).
      * rewrite Htake by done. apply Hoj. lia.
      * by rewrite Hall by lia.
Qed.

Lemma step_inv s c s' : counter_inv s -> counter_step s c = Some s' -> counter_inv s'.
Proof.
  intros Hi Hs. destruct c as [i a]. unfold counter_step in Hs. cbn [fst snd] in Hs.
  destruct (ct_threads s !! i) as [t|] eqn:Ht; [|done]. cbn [mbind option_bind] in Hs.
  destruct (thread_step _ _ _ _) as [[h t']|] eqn:Hstep; [|done]. simplify_eq/=.
  unfold thread_step in Hstep.
  pose proof (ci_threads _ Hi _ _ Ht) as Hti.
  pose proof (ti_balanced _ _ _ Hti) as Hb. pose proof (ti_current _ _ _ Hti) as Hcur.
  pose proof (value_bounds s (length (ct_writes s)) Hi ltac:(lia)) as Hlast.
  fold (latest (ct_writes s)) in Hlast.
  pose proof (ci_nonneg _ Hi (length (ct_writes s)) i) as Hnn. rewrite firstn_all in Hnn.
  destruct (th_calls t) as [|[] rest] eqn:Hcalls; [done| |]; cbn [balanced] in Hb;
    destruct (th_current t) as [cur|], a as [|k|]; try done.
  - simplify_eq/=. eapply write_inv; cbn [delta]; [done..| |lia|done].
    apply wrap_small. split; [lia|].
    pose proof (ci_value _ Hi (length (ct_writes s)) ltac:(lia)) as Hv.
    rewrite firstn_all in Hv. fold (latest (ct_writes s)) in Hv.
    pose proof (net_inits (ct_writes s)). pose proof (ci_inits _ Hi).
    pose proof (sum_of_ge (fun t => inits_of (th_calls t)) (ct_threads s) t
      (fun t _ => inits_of_nonneg _) (list_elem_of_lookup_2 _ _ _ Ht)) as Hge.
    cbn in Hge. rewrite Hcalls, inits_of_cons in Hge. pose proof (inits_of_nonneg rest). lia.
  - destruct (negb _ && _) eqn:Hok; [|done]. bool_prop. simplify_eq/=.
    destruct (Hcur _ eq_refl) as [Hc1 _].
    eapply write_inv; cbn [delta]; [done..| |lia|].
    + rewrite wrap_small; [lia|split; lia].
    + by replace (net_of i (ct_writes s) + -1) with (net_of i (ct_writes s) - 1) by lia.
  - destruct (negb _ && _) eqn:Hok; [|done]. apply andb_true_iff in Hok as [_ Hk].
    simplify_eq/=. rewrite <- Hcalls. by eapply read_inv.
  - destruct (cur =? 0) eqn:Hz; [|done]. bool_prop. destruct (Hcur _ eq_refl) as [Hc1 _]. lia.
  - destruct (readable _ _ _) eqn:Hk; [|done]. simplify_eq/=. rewrite <- Hcalls.
    by eapply read_inv.
Qed.

Lemma run_inv schedule s s' :
  counter_inv s -> counter_run s schedule = Some s' -> counter_inv s'.
Proof.
  revert s. induction schedule as [|c schedule IH]; intros s Hi Hr; cbn in Hr; [by simplify_eq|].
  destruct (counter_step s c) as [s1|] eqn:Hs; [|done]. cbn in Hr.
  by eapply IH; [eapply step_inv|].
Qed.

Lemma start_inv :
  Forall (fun calls => balanced calls 0 = true) programs ->
  counter_inv (counter_start programs).
Proof.
  intros Hb. constructor; cbn [ct_writes ct_threads counter_start].
  - constructor.
  - intros k Hk. cbn in Hk. by replace k with O by lia.
  - intros k j. by rewrite take_nil.
  - rewrite sum_of_fmap. unfold inits, sum_of at 1. cbn. by rewrite Z.add_0_l.
  - rewrite sum_of_fmap. unfold net, sum_of at 1. cbn. by rewrite Z.add_0_l.
  - intros i t Ht. apply list_lookup_fmap_Some in Ht as (calls & -> & Hc).
    constructor; cbn; [exact (Forall_lookup_1 _ _ _ _ Hb Hc)|lia|by intros; rewrite take_nil|done].
Qed.

End Invariant.

Definition counter_done (s : counter) : Prop :=
  Forall (fun t => th_calls t = []) (ct_threads s).

(** C19: When every shutdown of a thread gives back an initialize of the same
    thread and fewer than 2^32 initializes are made, then in every state of
    every interleaving, stale reads and failing exchanges included, the counter
    is exactly the number of initialize calls made minus the shutdown calls
    made, lies between 0 and 2^32, and no thread in olnk_shutdown has read
    zero, so none leaves the loop without its decrement; once all calls are
    made, the counter is what the programs leave unbalanced, zero when every
    initialize was given back. *)
Theorem shutdown_balances_initialize programs schedule s :
  Forall (fun calls => balanced calls 0 = true) programs ->
  sum_of inits_of programs < 2 ^ 32 ->
  counter_run (counter_start programs) schedule = Some s ->
  latest (ct_writes s) = sum_of net_calls programs
                         - sum_of (fun t => net_calls (th_calls t)) (ct_threads s) /\
  0 <= latest (ct_writes s) < 2 ^ 32 /\
  (forall i t, ct_threads s !! i = Some t -> th_current t <> Some 0) /\
  (counter_done s -> latest (ct_writes s) = sum_of net_calls programs).
Proof.
  intros Hb Hn Hr. pose proof (run_inv programs Hn _ _ _ (start_inv programs Hb) Hr) as Hi.
  assert (latest (ct_writes s) = sum_of net_calls programs
          - sum_of (fun t => net_calls (th_calls t)) (ct_threads s)) as Hl.
  { unfold latest. rewrite (ci_value _ _ Hi), firstn_all by done.
    pose proof (ci_net _ _ Hi). lia. }
  split; [done|]. split; [by apply (value_bounds programs)|]. split.
  - intros i t Ht Hc. destruct (ti_current _ _ _ (ci_threads _ _ Hi _ _ Ht) _ Hc). lia.
  - intros Hd. rewrite Hl, (sum_of_zero (fun t => net_calls (th_calls t))); [lia|].
    intros t Ht. unfold counter_done in Hd. rewrite Forall_forall in Hd. by rewrite (Hd t Ht).
Qed.

(** Two threads that take turns; the second one's first exchange works on an
    old value and fails. *)
Definition two_programs : list (list lib_call) :=
  [[Initialize; Shutdown]; [Initialize; Initialize; Shutdown]].

Definition two_schedule : list (nat * action) :=
  [(0%nat, AWrite); (1%nat, AWrite); (1%nat, AWrite); (0%nat, ARead 1); (1%nat, ARead 3);
   (0%nat, ARead 3); (0%nat, AWrite); (1%nat, ARead 4); (1%nat, AWrite)].

Lemma shutdown_balances_initialize_witness :
  exists s, counter_run (counter_start two_programs) two_schedule = Some s /\
    latest (ct_writes s) = 1.
Proof.
  destruct (counter_run (counter_start two_programs) two_schedule) as [s|] eqn:Hs;
    [|vm_compute in Hs; discriminate].
  exists s. split; [done|].
  assert (counter_done s) as Hd by (vm_compute in Hs; simplify_eq; repeat constructor).
  apply (shutdown_balances_initialize two_programs two_schedule s); [|done|done|done].
  repeat constructor.
Defined.

(** ** Termination

    A step is lost when a thread in the loop reads an old value, or reads at
    all although it holds the last value (a spurious failure of the exchange). *)
Definition lost (s : counter) (c : nat * action) : nat :=
  match ct_threads s !! fst c, snd c with
  | Some t, ARead k =>
      match th_current t with
      | None => 0
      | Some current =>
          if negb (k =? length (ct_writes s))%nat || (current =? latest (ct_writes s))
          then 1 else 0
      end
  | _, _ => 0
  end.

Fixpoint run_lost (s : counter) (schedule : list (nat * action)) : nat :=
  match schedule with
  | [] => 0
  | c :: rest =>
      match counter_step s c with Some s' => lost s c + run_lost s' rest | None => 0 end
  end.

(** What a thread has still to do, in steps that are not lost, given the other
    threads leave it alone; every call has a reserve of one failed exchange for
    each thread. *)
Definition thread_work (h : list write) (n : Z) (t : thread) : Z :=
  (n + 3) * Z.of_nat (length (th_calls t)) +
  match th_current t with
  | None => 2
  | Some current => if current =? latest h then 0 else 1
  end.

Definition work (s : counter) : Z :=
  let n := Z.of_nat (length (ct_threads s)) in
  sum_of (thread_work (ct_writes s) n) (ct_threads s).

Lemma thread_work_write h h' n t : thread_work h' n t <= thread_work h n t + 1.
Proof. unfold thread_work. destruct (th_current t); [|lia]. do 2 destruct (_ =? _); lia. Qed.

(** A completed call pays for the failed exchanges it causes. *)
Lemma work_call s i t c rest h' view :
  ct_threads s !! i = Some t -> th_calls t = c :: rest ->
  work (mkCounter h' (<[i := mkThread rest None view]> (ct_threads s))) < work s.
Proof.
  intros Ht Hc. unfold work. cbn [ct_writes ct_threads]. cbv zeta. rewrite length_insert.
  set (n := Z.of_nat (length (ct_threads s))).
  erewrite sum_of_insert by done.
  pose proof (sum_of_le (thread_work h' n) (thread_work (ct_writes s) n) (ct_threads s) 1
    (fun t _ => thread_work_write _ _ _ _)) as Hle. fold n in Hle.
  unfold thread_work at 2 3. rewrite Hc. cbn [th_calls th_current length].
  destruct (th_current t); [destruct (_ =? _)|]; lia.
Qed.

Lemma work_read s i t k :
  ct_threads s !! i = Some t ->
  work (mkCounter (ct_writes s)
         (<[i := mkThread (th_calls t) (Some (value_at (ct_writes s) k)) k]> (ct_threads s)))
  = work s
    - match th_current t with
      | None => 2
      | Some current => if current =? latest (ct_writes s) then 0 else 1
      end
    + (if value_at (ct_writes s) k =? latest (ct_writes s) then 0 else 1).
Proof.
  intros Ht. unfold work. cbn [ct_writes ct_threads]. cbv zeta. rewrite length_insert.
  erewrite sum_of_insert by done. unfold thread_work at 2 3. cbn [th_calls th_current]. lia.
Qed.

Lemma work_step s c s' :
  counter_step s c = Some s' -> work s' < work s + 2 * Z.of_nat (lost s c).
Proof.
  destruct c as [i a]. unfold counter_step, lost. cbn [fst snd].
  destruct (ct_threads s !! i) as [t|] eqn:Ht; [|done]. cbn [mbind option_bind].
  destruct (thread_step _ _ _ _) as [[h t']|] eqn:Hstep; [|done]. intros [= <-].
  unfold thread_step in Hstep.
  destruct (th_calls t) as [|[] rest] eqn:Hcalls; [done| |];
    destruct (th_current t) as [cur|] eqn:Hcur, a as [|k|]; try done.
  - simplify_eq/=. rewrite Z.add_0_r. by eapply work_call.
  - destruct (negb _ && _); [|done]. simplify_eq/=. rewrite Z.add_0_r. by eapply work_call.
  - destruct (negb _ && _); [|done]. simplify_eq/=. rewrite <- Hcalls, (work_read s i t k Ht), Hcur.
    destruct (Nat.eqb_spec k (length (ct_writes s))) as [->|]; cbn [negb orb].
    + fold (latest (ct_writes s)). rewrite Z.eqb_refl. destruct (cur =? _); lia.
    + destruct (cur =? _), (value_at _ _ =? _); lia.
  - destruct (cur =? 0); [|done]. simplify_eq/=. rewrite Z.add_0_r. by eapply work_call.
  - destruct (readable _ _ _); [|done]. simplify_eq/=. rewrite <- Hcalls, (work_read s i t k Ht), Hcur.
    destruct (value_at _ _ =? _); lia.
Qed.

Lemma work_nonneg s : 0 <= work s.
Proof.
  apply sum_of_nonneg. intros t _. unfold thread_work.
  destruct (th_current t); [destruct (_ =? _)|]; nia.
Qed.

Lemma work_run schedule s s' :
  counter_run s schedule = Some s' ->
  Z.of_nat (length schedule) + work s' <= work s + 2 * Z.of_nat (run_lost s schedule).
Proof.
  revert s. induction schedule as [|c schedule IH]; intros s Hr; cbn in Hr |- *; [by simplify_eq; lia|].
  destruct (counter_step s c) as [s1|] eqn:Hs; [|done]. cbn in Hr.
  pose proof (work_step _ _ _ Hs). pose proof (IH _ Hr). lia.
Qed.

(** ** Progress *)

Definition thread_ok (h : list write) (t : thread) : Prop :=
  (th_view t <= length h)%nat /\
  (th_current t <> None -> exists rest, th_calls t = Shutdown :: rest).

Definition threads_ok (s : counter) : Prop := Forall (thread_ok (ct_writes s)) (ct_threads s).

Lemma threads_ok_step s c s' : threads_ok s -> counter_step s c = Some s' -> threads_ok s'.
Proof.
  destruct c as [i a]. unfold counter_step, threads_ok. cbn [fst snd]. intros Hok.
  destruct (ct_threads s !! i) as [t|] eqn:Ht; [|done]. cbn [mbind option_bind].
  destruct (thread_step _ _ _ _) as [[h t']|] eqn:Hstep; [|done]. intros [= <-].
  cbn [ct_writes ct_threads].
  pose proof (Forall_lookup_1 _ _ _ _ Hok Ht) as [Hv Hc].
  enough ((length (ct_writes s) <= length h)%nat /\ thread_ok h t') as [Hlen Ht'].
  { apply Forall_insert; [|done]. eapply Forall_impl; [exact Hok|].
    intros u [Hu1 Hu2]. split; [lia|done]. }
  unfold thread_step in Hstep. unfold thread_ok.
  destruct (th_calls t) as [|[] rest] eqn:Hcalls, (th_current t) as [cur|], a as [|k|];
    try done; repeat (case_match; try done); simplify_eq/=;
    rewrite ?length_app; cbn [length];
    repeat match goal with
    | H : (_ && _) = true |- _ => apply andb_true_iff in H as [? H]
    | H : readable _ _ _ = true |- _ => apply readable_spec in H
    end; (split; [lia|]); (split; [cbn; lia|]); cbn; try done; intros _; eauto.
Qed.

Lemma threads_ok_run schedule s s' :
  threads_ok s -> counter_run s schedule = Some s' -> threads_ok s'.
Proof.
  revert s. induction schedule as [|c schedule IH]; intros s Hok Hr; cbn in Hr; [by simplify_eq|].
  destruct (counter_step s c) as [s1|] eqn:Hs; [|done]. cbn in Hr.
  by eapply IH; [eapply threads_ok_step|].
Qed.

(** A thread with a call left can always take a step that is not lost. *)
Lemma thread_can_step s i t :
  threads_ok s -> ct_threads s !! i = Some t -> th_calls t <> [] ->
  exists a s', counter_step s (i, a) = Some s' /\ lost s (i, a) = O.
Proof.
  intros Hok Ht Hne. pose proof (Forall_lookup_1 _ _ _ _ Hok Ht) as [Hv Hc].
  unfold counter_step, lost. cbn [fst snd]. rewrite Ht. cbn [mbind option_bind].
  assert (readable (ct_writes s) t (length (ct_writes s)) = true) as Hread
    by (apply readable_spec; lia).
  destruct (th_current t) as [cur|] eqn:Hcur.
  - destruct Hc as [rest Hcalls]; [done|]. unfold thread_step. rewrite Hcalls, Hcur.
    destruct (cur =? 0) eqn:Hz; [by exists AExit; eexists|].
    destruct (cur =? latest (ct_writes s)) eqn:Hl; [by exists AWrite; eexists|].
    exists (ARead (length (ct_writes s))). rewrite Hread, Nat.eqb_refl. by eexists.
  - unfold thread_step. rewrite Hcur. destruct (th_calls t) as [|[] rest]; [done| |].
    + by exists AWrite; eexists.
    + exists (ARead (length (ct_writes s))). rewrite Hread. by eexists.
Qed.

Lemma not_done_thread s :
  ~ counter_done s -> exists i t, ct_threads s !! i = Some t /\ th_calls t <> [].
Proof.
  intros Hd%not_Forall_Exists; [|apply _].
  apply Exists_exists in Hd as (t & [i Hi]%list_elem_of_lookup & Ht). eauto.
Qed.

(** Without lost steps all the calls get done. *)
Lemma can_finish s :
  threads_ok s -> exists schedule s', counter_run s schedule = Some s' /\
    run_lost s schedule = O /\ counter_done s'.
Proof.
  remember (Z.to_nat (work s)) as n eqn:Hn. revert s Hn.
  induction n as [n IH] using lt_wf_ind. intros s Hn Hok.
  destruct (decide (Forall (fun t => th_calls t = []) (ct_threads s))) as [Hd|Hd].
  - exists [], s. done.
  - destruct (not_done_thread s Hd) as (i & t & Ht & Hne).
    destruct (thread_can_step s i t Hok Ht Hne) as (a & s1 & Hs & Hl).
    pose proof (work_step _ _ _ Hs) as Hw. rewrite Hl in Hw.
    pose proof (work_nonneg s1).
    destruct (IH (Z.to_nat (work s1)) ltac:(lia) s1 eq_refl (threads_ok_step _ _ _ Hok Hs))
      as (schedule & s' & Hr & Hlost & Hdone).
    exists ((i, a) :: schedule), s'. cbn [counter_run run_lost]. rewrite Hs, Hl.
    by split_and!.
Qed.

(** C36: The calls are lock-free. A run of any threads, interleaved in any
    way, in which [lost] exchanges fail spuriously or read an old value takes at
    most 2 * lost steps more than a bound given by the number of threads and
    calls, so it can only go on for ever by losing steps for ever; whatever
    happened so far, every thread with a call left can take a step that is not
    lost, and all calls can be completed without losing another. *)
Theorem shutdown_lock_free programs schedule s :
  counter_run (counter_start programs) schedule = Some s ->
  let n := Z.of_nat (length programs) in
  Z.of_nat (length schedule)
    <= sum_of (fun calls => (n + 3) * Z.of_nat (length calls) + 2) programs
       + 2 * Z.of_nat (run_lost (counter_start programs) schedule) /\
  (forall i t, ct_threads s !! i = Some t -> th_calls t <> [] ->
     exists a s', counter_step s (i, a) = Some s' /\ lost s (i, a) = O) /\
  exists rest s', counter_run s rest = Some s' /\ run_lost s rest = O /\ counter_done s'.
Proof.
  intros Hr n.
  assert (threads_ok s) as Hok.
  { eapply threads_ok_run; [|exact Hr]. apply Forall_fmap, Forall_true. intros calls.
    split; cbn; [lia|done]. }
  split; [|split; [by intros; eapply thread_can_step|by apply can_finish]].
  pose proof (work_run _ _ _ Hr). pose proof (work_nonneg s).
  enough (work (counter_start programs)
          = sum_of (fun calls => (n + 3) * Z.of_nat (length calls) + 2) programs) by lia.
  unfold work, counter_start. cbn [ct_writes ct_threads]. cbv zeta.
  by rewrite sum_of_fmap, length_fmap.
Qed.

Lemma shutdown_lock_free_witness :
  exists s, counter_run (counter_start two_programs) two_schedule = Some s /\
    Z.of_nat (length two_schedule) <= 29 + 2 * 0.
Proof.
  destruct (counter_run (counter_start two_programs) two_schedule) as [s|] eqn:Hs;
    [|vm_compute in Hs; discriminate].
  exists s. split; [done|].
  exact (proj1 (shutdown_lock_free two_programs two_schedule s Hs)).
Defined.
