(* ===== verification/ComputeOffsets.v ===== *)
(** * ComputeOffsets: layout arithmetic (src/olnk/compute_offsets.cpp)

    [align_up] and [compute_offsets] on 64-bit offsets, the unbounded layout
    they are meant to compute ([ideal_align], [ideal_layout]), and the exact
    condition under which the machine arithmetic agrees with it. *)

From S2P Require Import Prelude.

Record LayoutEntry := mkLayoutEntry {
  le_size : Z;
  le_alignment : Z;
  le_file_offset : Z;
}.

Definition set_alignment (a : Z) (e : LayoutEntry) : LayoutEntry :=
  mkLayoutEntry (le_size e) a (le_file_offset e).
Definition set_file_offset (o : Z) (e : LayoutEntry) : LayoutEntry :=
  mkLayoutEntry (le_size e) (le_alignment e) o.

(** All fields are [uint64_t]. *)
Definition entry_ok (e : LayoutEntry) : Prop :=
  fits 64 (le_size e) /\ fits 64 (le_alignment e) /\ fits 64 (le_file_offset e).

Definition align_up (value alignment : Z) : Z :=
  if alignment <=? 1 then value
  else
    let remainder := value mod alignment in
    if remainder =? 0 then value
    else u64 (value + (alignment - remainder)).

(** The loop of [compute_offsets]: [cursor] is the running offset; the vector
    is updated in place, so on failure the tail keeps its old entries. *)
Fixpoint compute_offsets_from (cursor : Z) (entries : list LayoutEntry)
    : bool * list LayoutEntry :=
  match entries with
  | [] => (true, [])
  | entry :: rest =>
      let entry := if le_alignment entry =? 0 then set_alignment 1 entry else entry in
      let cursor := align_up cursor (le_alignment entry) in
      let entry := set_file_offset cursor entry in
      let cursor := u64 (cursor + le_size entry) in
      if cursor <? le_file_offset entry then (false, entry :: rest)
      else
        let '(ok, rest) := compute_offsets_from cursor rest in
        (ok, entry :: rest)
  end.

Definition compute_offsets (entries : list LayoutEntry) (base_offset : Z)
    : bool * list LayoutEntry :=
  compute_offsets_from base_offset entries.

(** ** The layout the arithmetic stands for *)

(** The least multiple of [alignment] not below [value], over the integers;
    alignment 0 means 1. *)
Definition ideal_align (value alignment : Z) : Z :=
  let a := Z.max 1 alignment in a * ((value + a - 1) / a).

(** Placement of entries one after the other: (offsets, end). *)
Fixpoint ideal_layout (cursor : Z) (entries : list (Z * Z)) : list Z * Z :=
  match entries with
  | [] => ([], cursor)
  | (size, alignment) :: rest =>
      let off := ideal_align cursor alignment in
      let '(offs, fin) := ideal_layout (off + size) rest in
      (off :: offs, fin)
  end.

Definition dims (e : LayoutEntry) : Z * Z := (le_size e, le_alignment e).

(** ** Lemmas on alignment *)

Lemma ideal_align_ge v a : v <= ideal_align v a.
Proof.
  unfold ideal_align. set (b := Z.max 1 a).
  pose proof (Z.mod_pos_bound (v + b - 1) b ltac:(lia)).
  pose proof (Z.div_mod (v + b - 1) b ltac:(lia)). lia.
Qed.

Lemma ideal_align_lt v a : ideal_align v a < v + Z.max 1 a.
Proof.
  unfold ideal_align. set (b := Z.max 1 a).
  pose proof (Z.mod_pos_bound (v + b - 1) b ltac:(lia)).
  pose proof (Z.div_mod (v + b - 1) b ltac:(lia)). lia.
Qed.

Lemma ideal_align_mult v a : (Z.max 1 a | ideal_align v a).
Proof. exists ((v + Z.max 1 a - 1) / Z.max 1 a). unfold ideal_align. lia. Qed.

(** It is the least multiple. *)
Lemma ideal_align_least v a m : v <= m -> (Z.max 1 a | m) -> ideal_align v a <= m.
Proof.
  intros Hv [k ->]. unfold ideal_align. set (b := Z.max 1 a) in *.
  enough ((v + b - 1) / b <= k) by nia.
  enough ((v + b - 1) / b < k + 1) by lia. apply Z.div_lt_upper_bound; nia.
Qed.

Lemma ideal_align_remainder v a :
  1 < a -> ideal_align v a = if v mod a =? 0 then v else v + (a - v mod a).
Proof.
  intros Ha. unfold ideal_align. replace (Z.max 1 a) with a by lia.
  pose proof (Z.div_mod v a ltac:(lia)) as Hv.
  pose proof (Z.mod_pos_bound v a ltac:(lia)) as Hm.
  destruct (Z.eqb_spec (v mod a) 0).
  - replace ((v + a - 1) / a) with (v / a); [lia|].
    apply (Z.div_unique _ _ _ (a - 1)); lia.
  - replace ((v + a - 1) / a) with (v / a + 1); [lia|].
    apply (Z.div_unique _ _ _ (v mod a - 1)); lia.
Qed.

(** [align_up] is the ideal alignment reduced modulo 2^64. *)
Lemma align_up_ideal v a :
  fits 64 v -> fits 64 a -> align_up v a = u64 (ideal_align v a).
Proof.
  intros Hv Ha. unfold align_up. destruct (Z.leb_spec a 1).
  - unfold ideal_align. replace (Z.max 1 a) with 1 by lia.
    rewrite Z.div_1_r. rewrite wrap_small; [lia|]. unfold fits in *. lia.
  - rewrite ideal_align_remainder by lia.
    destruct (Z.eqb_spec (v mod a) 0); [by rewrite wrap_small|done].
Qed.

Lemma align_up_fits v a : fits 64 v -> fits 64 a -> fits 64 (align_up v a).
Proof. intros. rewrite align_up_ideal by done. apply wrap_fits. lia. Qed.

(** The test [aligned < value] detects the wrap-around, and only it. *)
Lemma align_up_lt v a :
  fits 64 v -> fits 64 a -> (align_up v a <? v) = (2 ^ 64 <=? ideal_align v a).
Proof.
  intros Hv Ha. rewrite align_up_ideal by done.
  pose proof (ideal_align_ge v a). pose proof (ideal_align_lt v a).
  unfold fits in *.
  replace (ideal_align v a) with (v + (ideal_align v a - v)) by lia.
  rewrite (wrap_add_lt 64) by (unfold fits; lia). done.
Qed.

Lemma ideal_layout_end_ge cursor es :
  Forall (fun p => 0 <= p.1) es -> cursor <= snd (ideal_layout cursor es).
Proof.
  intros Hes. revert cursor. induction Hes as [|[s a] es Hs Hes IH]; intros cursor; simpl; [lia|].
  specialize (IH (ideal_align cursor a + s)). destruct (ideal_layout _ es); simpl in *.
  pose proof (ideal_align_ge cursor a). lia.
Qed.

(** Entries of an ideal layout: aligned, in order and disjoint. *)
Lemma ideal_layout_spec cursor es :
  Forall (fun p => 0 <= p.1) es ->
  let offs := fst (ideal_layout cursor es) in
  length offs = length es /\
  (forall i size a off, es !! i = Some (size, a) -> offs !! i = Some off ->
     cursor <= off /\ (Z.max 1 a | off) /\ off + size <= snd (ideal_layout cursor es)) /\
  (forall i j size a oi oj, (i < j)%nat -> es !! i = Some (size, a) ->
     offs !! i = Some oi -> offs !! j = Some oj -> oi + size <= oj).
Proof.
  intros Hes. revert cursor. induction Hes as [|[s a] es Hs Hes IH]; intros cursor; simpl.
  { split_and!; [done|..]; intros; simplify_eq/=. }
  specialize (IH (ideal_align cursor a + s)).
  pose proof (ideal_layout_end_ge (ideal_align cursor a + s) es Hes) as Hend.
  pose proof (ideal_align_ge cursor a). pose proof (ideal_align_mult cursor a).
  destruct (ideal_layout (ideal_align cursor a + s) es) as [offs fin]; simpl in *.
  destruct IH as (Hlen & Hin & Hord). split_and!.
  - by rewrite Hlen.
  - intros [|i] size al off Hi Ho; simplify_eq/=; [done|].
    destruct (Hin i size al off Hi Ho) as (? & ? & ?). split_and!; [lia|done..].
  - intros [|i] [|j] size al oi oj Hij Hi Hoi Hoj; simplify_eq/=; try lia.
    + assert (exists p, es !! j = Some p) as [[sj aj] Hj].
      { apply lookup_lt_is_Some_2. rewrite <- Hlen. by eapply lookup_lt_Some. }
      destruct (Hin j sj aj oj Hj Hoj) as (? & _). lia.
    + eapply (Hord i j); [lia|done..].
Qed.

(** ** Correctness of [compute_offsets] *)

Definition norm_alignment (e : LayoutEntry) : LayoutEntry :=
  if le_alignment e =? 0 then set_alignment 1 e else e.

Lemma norm_alignment_max e :
  entry_ok e -> le_alignment (norm_alignment e) = Z.max 1 (le_alignment e).
Proof.
  intros (_ & [??] & _). unfold norm_alignment.
  destruct (Z.eqb_spec (le_alignment e) 0); simpl; lia.
Qed.

Lemma ideal_align_norm v e :
  entry_ok e -> ideal_align v (le_alignment (norm_alignment e)) = ideal_align v (le_alignment e).
Proof.
  intros He. unfold ideal_align. rewrite norm_alignment_max by done. by rewrite Z.max_assoc, Z.max_id.
Qed.

Lemma norm_alignment_ok e : entry_ok e -> entry_ok (norm_alignment e).
Proof.
  intros He. unfold norm_alignment. destruct (_ =? _); [|done].
  destruct He as (? & ? & ?). split_and!; done.
Qed.

Lemma norm_alignment_size e : le_size (norm_alignment e) = le_size e.
Proof. unfold norm_alignment. by destruct (_ =? _). Qed.

Lemma compute_offsets_from_cons cursor e es :
  compute_offsets_from cursor (e :: es) =
  let e' := norm_alignment e in
  let off := align_up cursor (le_alignment e') in
  let fin := u64 (off + le_size e) in
  if fin <? off then (false, set_file_offset off e' :: es)
  else
    let '(ok, es') := compute_offsets_from fin es in
    (ok, set_file_offset off e' :: es').
Proof. simpl. fold (norm_alignment e). by rewrite norm_alignment_size. Qed.

Lemma Forall_dims_size es : Forall entry_ok es -> Forall (fun p => 0 <= p.1) (dims <$> es).
Proof. rewrite Forall_fmap. intros H. eapply Forall_impl; [exact H|]. intros e ([??] & _). done. Qed.

(** One step of the loop, when its alignment does not wrap. *)
Lemma step_no_wrap cursor e :
  fits 64 cursor -> entry_ok e -> ideal_align cursor (le_alignment e) < 2 ^ 64 ->
  align_up cursor (le_alignment (norm_alignment e)) = ideal_align cursor (le_alignment e) /\
  fits 64 (ideal_align cursor (le_alignment e)).
Proof.
  intros Hc He Hlt. pose proof (ideal_align_ge cursor (le_alignment e)).
  assert (fits 64 (ideal_align cursor (le_alignment e))) by (unfold fits in *; lia).
  split; [|done]. pose proof (norm_alignment_ok e He) as (_ & ? & _).
  rewrite align_up_ideal, ideal_align_norm by done. by apply wrap_small.
Qed.

(** The vector [compute_offsets] produces when everything fits. *)
Definition laid_out (es : list LayoutEntry) (offs : list Z) : list LayoutEntry :=
  zip_with (fun e o => set_file_offset o (norm_alignment e)) es offs.

Lemma laid_out_offsets es offs :
  length offs = length es -> le_file_offset <$> laid_out es offs = offs.
Proof.
  revert offs. induction es as [|e es IH]; intros [|o offs] Hlen; simplify_eq/=; [done|].
  f_equal. by apply IH.
Qed.

Lemma compute_offsets_from_ideal cursor es :
  fits 64 cursor -> Forall entry_ok es ->
  snd (ideal_layout cursor (dims <$> es)) < 2 ^ 64 ->
  compute_offsets_from cursor es = (true, laid_out es (fst (ideal_layout cursor (dims <$> es)))).
Proof.
  intros Hc Hes. revert cursor Hc. induction Hes as [|e es He Hes IH]; intros cursor Hc Hend.
  { done. }
  rewrite compute_offsets_from_cons. cbn [fmap list_fmap ideal_layout] in *. simpl in *.
  set (off := ideal_align cursor (le_alignment e)) in *.
  pose proof (ideal_layout_end_ge (off + le_size e) _ (Forall_dims_size _ Hes)) as Hge.
  destruct (ideal_layout (off + le_size e) _) as [offs fin] eqn:Hrec; simpl in *.
  destruct He as (Hsz & Hal & Hfo).
  destruct (step_no_wrap cursor e Hc ltac:(done)) as [-> Hoff].
  { fold off. unfold fits in Hsz. lia. }
  fold off. assert (fits 64 (off + le_size e)) as Hfin by (unfold fits in *; lia).
  rewrite (wrap_small 64 (off + le_size e)) by done.
  rewrite (proj2 (Z.ltb_ge (off + le_size e) off)) by (unfold fits in Hsz; lia).
  rewrite IH by (rewrite ?Hrec; done). by rewrite Hrec.
Qed.

(** ** Properties *)

(** C11: when the unbounded layout of the entries ends below 2^64,
    [compute_offsets] succeeds; every entry keeps its size, gets its alignment
    normalised (0 becomes 1) and an offset that is at or above the base, a
    multiple of the alignment and the least such after its predecessor (the
    offsets are those of the unbounded layout), and no two entries overlap. *)
Theorem compute_offsets_correct es base :
  fits 64 base -> Forall entry_ok es ->
  snd (ideal_layout base (dims <$> es)) < 2 ^ 64 ->
  exists out,
    compute_offsets es base = (true, out) /\
    le_file_offset <$> out = fst (ideal_layout base (dims <$> es)) /\
    (forall i e e', es !! i = Some e -> out !! i = Some e' ->
       le_size e' = le_size e /\ le_alignment e' = Z.max 1 (le_alignment e) /\
       base <= le_file_offset e' /\ (le_alignment e' | le_file_offset e')) /\
    (forall i j a b, (i < j)%nat -> out !! i = Some a -> out !! j = Some b ->
       le_file_offset a + le_size a <= le_file_offset b).
Proof.
  intros Hb Hes Hend. exists (laid_out es (fst (ideal_layout base (dims <$> es)))).
  destruct (ideal_layout_spec base _ (Forall_dims_size _ Hes)) as (Hlen & Hin & Hord).
  rewrite length_fmap in Hlen.
  set (offs := fst (ideal_layout base (dims <$> es))) in *.
  assert (forall i e', laid_out es offs !! i = Some e' ->
    exists e o, es !! i = Some e /\ offs !! i = Some o /\
      e' = set_file_offset o (norm_alignment e)) as Hinv.
  { intros i e' (e & o & ? & ? & ?)%lookup_zip_with_Some. by exists e, o. }
  split_and!.
  - by apply compute_offsets_from_ideal.
  - by apply laid_out_offsets.
  - intros i e e' He He'. destruct (Hinv _ _ He') as (e0 & o & ? & Ho & ->). simplify_eq.
    pose proof (Forall_lookup_1 _ _ _ _ Hes He) as Hok.
    destruct (Hin i (le_size e) (le_alignment e) o) as (? & ? & _); [|done|].
    { rewrite list_lookup_fmap, He. done. }
    simpl. rewrite norm_alignment_size, norm_alignment_max by done. done.
  - intros i j a b Hij Ha Hb'.
    destruct (Hinv _ _ Ha) as (ea & oa & Hea & Hoa & ->).
    destruct (Hinv _ _ Hb') as (eb & ob & Heb & Hob & ->).
    simpl. rewrite norm_alignment_size.
    eapply (Hord i j (le_size ea) (le_alignment ea)); [done| |done..].
    rewrite list_lookup_fmap, Hea. done.
Qed.

Lemma compute_offsets_correct_witness :
  exists out,
    compute_offsets [mkLayoutEntry 10 16 0; mkLayoutEntry 5 0 0; mkLayoutEntry 7 8 0] 100
      = (true, out) /\ le_file_offset <$> out = [112; 122; 128].
Proof.
  destruct (compute_offsets_correct
    [mkLayoutEntry 10 16 0; mkLayoutEntry 5 0 0; mkLayoutEntry 7 8 0] 100)
    as (out & H1 & H2 & _).
  - unfold fits; lia.
  - repeat constructor; simpl; lia.
  - vm_compute. reflexivity.
  - exists out. split; [exact H1|]. rewrite H2. vm_compute. reflexivity.
Defined.

(** The wrap-around of [align_up] is not detected.  When the next
    multiple of the alignment is 2^64 or more, [compute_offsets] still reports
    success for an entry that fits after the wrapped offset, and hands out an
    offset below the base it was given. *)
Theorem compute_offsets_align_wrap_unreported base e :
  fits 64 base -> entry_ok e ->
  2 ^ 64 <= ideal_align base (le_alignment e) ->
  ideal_align base (le_alignment e) + le_size e < 2 ^ 65 ->
  exists e', compute_offsets [e] base = (true, [e']) /\ le_file_offset e' < base.
Proof.
  intros Hb He Hwrap Hsize. pose proof (norm_alignment_ok e He) as (_ & Hal & _).
  pose proof (align_up_lt base (le_alignment (norm_alignment e)) Hb Hal) as Hlt.
  rewrite ideal_align_norm in Hlt by done.
  rewrite (proj2 (Z.leb_le _ _) Hwrap) in Hlt. apply Z.ltb_lt in Hlt.
  unfold compute_offsets. rewrite compute_offsets_from_cons. simpl.
  pose proof (ideal_align_lt base (le_alignment e)) as Hup.
  assert (align_up base (le_alignment (norm_alignment e)) =
          ideal_align base (le_alignment e) - 2 ^ 64) as Hoff.
  { rewrite align_up_ideal, ideal_align_norm by done. unfold wrap.
    destruct He as (_ & Ha & _). unfold fits in *.
    symmetry. apply (Z.mod_unique _ _ 1); lia. }
  destruct He as (Hs & Ha & _). unfold fits in *.
  rewrite (wrap_small 64) by (unfold fits; lia).
  rewrite (proj2 (Z.ltb_ge _ _)) by lia.
  eexists. split; [done|]. simpl. lia.
Qed.

Lemma compute_offsets_align_wrap_unreported_witness :
  exists e', compute_offsets [mkLayoutEntry 4 16 0] (2 ^ 64 - 1) = (true, [e']) /\
    le_file_offset e' < 2 ^ 64 - 1.
Proof.
  apply compute_offsets_align_wrap_unreported;
    [unfold fits; lia|repeat split; simpl; lia|vm_compute; discriminate|vm_compute; reflexivity].
Defined.
