(* ===== verification/OutputBuilder.v ===== *)
(** * OutputBuilder: the output image (src/olnk/output_builder.cpp)

    The builder's inputs, the order it gives them, the checked layout of
    [OutputBuilder::build], and the proof that [build] succeeds exactly when
    the unbounded layout of ComputeOffsets fits in 64 bits. *)

From S2P Require Import Prelude StableSort ComputeOffsets.

Inductive OutputSectionKind :=
  | okUnknown | okCode | okReadOnlyData | okData | okBss | okTls | okDebug.

Definition OutputSectionKind_Z (k : OutputSectionKind) : Z :=
  match k with
  | okUnknown => 0 | okCode => 1 | okReadOnlyData => 2 | okData => 3
  | okBss => 4 | okTls => 5 | okDebug => 6
  end.

#[export] Instance OutputSectionKind_eq_dec : EqDecision OutputSectionKind.
Proof. solve_decision. Defined.

Record OutputSectionInput := mkOutputSectionInput {
  oi_name : string;
  oi_kind : OutputSectionKind;
  oi_size : Z;
  oi_alignment : Z;
  oi_input_ordinal : Z;
}.

Record OutputLayoutEntry := mkOutputLayoutEntry {
  ol_name : string;
  ol_kind : OutputSectionKind;
  ol_size : Z;
  ol_alignment : Z;
  ol_file_offset : Z;
}.

Record OutputImage := mkOutputImage {
  om_base_offset : Z;
  om_sections : list OutputLayoutEntry;
}.

(** The builder's only state is [inputs_]. *)
Abbreviation OutputBuilder := (list OutputSectionInput).

Definition add_section (section : OutputSectionInput) (b : OutputBuilder) : OutputBuilder :=
  b ++ [section].

Definition align_up (value alignment : Z) : Z :=
  if alignment <=? 1 then value
  else
    let remainder := value mod alignment in
    if remainder =? 0 then value
    else u64 (value + (alignment - remainder)).

Definition output_section_lt : OutputSectionInput -> OutputSectionInput -> bool :=
  then_by_Z (fun s => OutputSectionKind_Z (oi_kind s))
    (then_by_string oi_name
      (fun lhs rhs => oi_input_ordinal lhs <? oi_input_ordinal rhs)).

Definition normalize_input (input : OutputSectionInput) : OutputSectionInput :=
  if oi_alignment input =? 0
  then mkOutputSectionInput (oi_name input) (oi_kind input) (oi_size input) 1
         (oi_input_ordinal input)
  else input.

Definition normalize_inputs (inputs : list OutputSectionInput) : list OutputSectionInput :=
  stable_sort output_section_lt (normalize_input <$> inputs).

Definition layout_entry (input : OutputSectionInput) (offset : Z) : OutputLayoutEntry :=
  mkOutputLayoutEntry (oi_name input) (oi_kind input) (oi_size input)
    (oi_alignment input) offset.

(** The placement loop of [build]; [acc] is [out_image->sections]. *)
Fixpoint build_loop (cursor : Z) (inputs : list OutputSectionInput)
    (acc : list OutputLayoutEntry) : bool * list OutputLayoutEntry :=
  match inputs with
  | [] => (true, acc)
  | input :: rest =>
      let aligned_cursor := align_up cursor (oi_alignment input) in
      if aligned_cursor <? cursor then (false, acc)
      else
        let acc := acc ++ [layout_entry input aligned_cursor] in
        let cursor := u64 (aligned_cursor + oi_size input) in
        if cursor <? aligned_cursor then (false, acc)
        else build_loop cursor rest acc
  end.

(** [build]: the status, the image ([None] for a null [out_image]) and the
    builder, whose inputs are normalised in place. *)
Definition build (b : OutputBuilder) (base_offset : Z) (out_image : option OutputImage)
    : bool * option OutputImage * OutputBuilder :=
  match out_image with
  | None => (false, None, b)
  | Some _ =>
      let inputs := normalize_inputs b in
      let '(ok, sections) := build_loop base_offset inputs [] in
      (ok, Some (mkOutputImage base_offset sections), inputs)
  end.

(** ** Lemmas *)

Definition input_ok (i : OutputSectionInput) : Prop :=
  fits 64 (oi_size i) /\ fits 64 (oi_alignment i).
Definition input_dims (i : OutputSectionInput) : Z * Z := (oi_size i, oi_alignment i).

#[export] Instance output_section_lt_swo : StrictWeakOrder output_section_lt.
Proof.
  unfold output_section_lt. apply swo_then_by_Z, swo_then_by_string.
  split; intros; bool_prop; rewrite ?Z.ltb_lt, ?Z.ltb_ge, ?Z.ltb_irrefl in *; lia.
Qed.

Lemma align_up_same v a : align_up v a = ComputeOffsets.align_up v a.
Proof. done. Qed.

Lemma normalize_input_ok i : input_ok i -> input_ok (normalize_input i).
Proof. intros [? ?]. unfold normalize_input. destruct (_ =? _); by split. Qed.

Lemma normalize_inputs_ok b : Forall input_ok b -> Forall input_ok (normalize_inputs b).
Proof.
  intros H. unfold normalize_inputs. rewrite stable_sort_Forall, Forall_fmap.
  eapply Forall_impl; [exact H|]. apply normalize_input_ok.
Qed.

Lemma Forall_input_dims_size es :
  Forall input_ok es -> Forall (fun p => 0 <= p.1) (input_dims <$> es).
Proof. rewrite Forall_fmap. intros H. eapply Forall_impl; [exact H|]. intros i [[??] _]. done. Qed.

(** The loop computes the ideal layout when that fits, and fails otherwise. *)
Lemma build_loop_ideal cursor inputs acc :
  fits 64 cursor -> Forall input_ok inputs ->
  let ideal := ideal_layout cursor (input_dims <$> inputs) in
  if decide (snd ideal < 2 ^ 64)
  then build_loop cursor inputs acc = (true, acc ++ zip_with layout_entry inputs (fst ideal))
  else fst (build_loop cursor inputs acc) = false.
Proof.
  intros Hc Hin. revert cursor acc Hc.
  induction Hin as [|i rest [Hs Ha] Hin IH]; intros cursor acc Hc; cbn [ideal_layout fmap list_fmap build_loop].
  { simpl. destruct (decide _) as [|Hn]; [by rewrite app_nil_r|]. unfold fits in Hc. simpl in Hn. lia. }
  cbn [input_dims]. set (off := ideal_align cursor (oi_alignment i)).
  pose proof (ideal_layout_end_ge (off + oi_size i) _ (Forall_input_dims_size _ Hin)) as Hge.
  rewrite !align_up_same, (align_up_lt cursor (oi_alignment i)) by done. fold off.
  pose proof (ideal_align_ge cursor (oi_alignment i)) as Hoff. fold off in Hoff.
  destruct (Z.leb_spec (2 ^ 64) off) as [Hw|Hw].
  { destruct (ideal_layout _ _) as [offs fin]; simpl in *. unfold fits in *.
    rewrite decide_False by lia. done. }
  assert (fits 64 off) as Hoff64 by (unfold fits in *; lia).
  rewrite (align_up_ideal cursor (oi_alignment i)) by done. fold off.
  rewrite (wrap_small 64 off) by done. rewrite (wrap_add_lt 64) by (done || lia).
  destruct (Z.leb_spec (2 ^ 64) (off + oi_size i)) as [Hw2|Hw2].
  { destruct (ideal_layout _ _) as [offs fin]; simpl in *. rewrite decide_False by lia. done. }
  assert (fits 64 (off + oi_size i)) as Hfin by (unfold fits in *; lia).
  rewrite (wrap_small 64 (off + oi_size i)) by done.
  specialize (IH (off + oi_size i) (acc ++ [layout_entry i off]) Hfin).
  destruct (ideal_layout _ _) as [offs fin]; simpl in *.
  destruct (decide (fin < 2 ^ 64)); [|done]. rewrite IH. by rewrite <- app_assoc.
Qed.

Lemma normalize_input_alignment i :
  input_ok i -> oi_alignment (normalize_input i) = Z.max 1 (oi_alignment i).
Proof.
  intros [_ [??]]. unfold normalize_input.
  destruct (Z.eqb_spec (oi_alignment i) 0); simpl; lia.
Qed.

Lemma normalize_input_idemp i : normalize_input (normalize_input i) = normalize_input i.
Proof.
  unfold normalize_input. destruct (oi_alignment i =? 0) eqn:E; [done|]. by rewrite E.
Qed.

Lemma normalize_inputs_idemp b : normalize_inputs (normalize_inputs b) = normalize_inputs b.
Proof.
  unfold normalize_inputs at 1. replace (normalize_input <$> normalize_inputs b) with (normalize_inputs b).
  { apply stable_sort_idemp. apply _. }
  symmetry. apply list_eq. intros k. rewrite list_lookup_fmap.
  destruct (normalize_inputs b !! k) as [x|] eqn:E; [simpl|done]. f_equal.
  apply list_elem_of_lookup_2 in E. unfold normalize_inputs in E.
  rewrite stable_sort_elem_of, list_elem_of_fmap in E. destruct E as (y & -> & _).
  apply normalize_input_idemp.
Qed.

(** The key the comparator looks at. *)
Definition output_key (i : OutputSectionInput) : Z * string * Z :=
  (OutputSectionKind_Z (oi_kind i), oi_name i, oi_input_ordinal i).

Lemma output_section_tie x y : tie output_section_lt x y = true -> output_key x = output_key y.
Proof.
  unfold output_section_lt, output_key. intros H.
  apply tie_then_by_Z in H as [-> H]. apply tie_then_by_string in H as [-> H].
  unfold tie in H. simpl in H. bool_prop. f_equal. lia.
Qed.

Lemma output_key_normalize i : output_key (normalize_input i) = output_key i.
Proof. unfold normalize_input. by destruct (_ =? _). Qed.

(** Distinct keys: the order of the inputs does not matter. *)
Lemma normalize_inputs_perm b b' :
  b ≡ₚ b' -> NoDup (output_key <$> b) -> normalize_inputs b = normalize_inputs b'.
Proof.
  intros Hp Hnd. unfold normalize_inputs. apply stable_sort_order_independent; [apply _|by rewrite Hp|].
  intros x y Hx Hy Ht%output_section_tie.
  assert (NoDup (output_key <$> (normalize_input <$> b))) as Hnd'.
  { rewrite <- list_fmap_compose. erewrite list_fmap_ext; [exact Hnd|].
    intros ? i _. apply output_key_normalize. }
  by eapply NoDup_fmap_inj_on.
Qed.

(** What a successful [build] leaves in the image. *)
Lemma build_inv b base img out b' :
  Forall input_ok b -> fits 64 base ->
  build b base (Some img) = (true, Some out, b') ->
  let inputs := normalize_inputs b in
  let ideal := ideal_layout base (input_dims <$> inputs) in
  snd ideal < 2 ^ 64 /\
  out = mkOutputImage base (zip_with layout_entry inputs (fst ideal)).
Proof.
  intros Hb Hbase Hbuild. simpl.
  pose proof (build_loop_ideal base _ [] Hbase (normalize_inputs_ok _ Hb)) as H.
  unfold build in Hbuild. simpl in *.
  destruct (build_loop base (normalize_inputs b) []) as [ok secs]; simplify_eq/=.
  destruct (decide _); [by simplify_eq|done].
Qed.

Lemma normalize_inputs_length b : length (normalize_inputs b) = length b.
Proof. unfold normalize_inputs. by rewrite stable_sort_length, length_fmap. Qed.

(** What an entry takes from its input; an alignment of zero asks for none. *)
Definition asked (i : OutputSectionInput) : string * OutputSectionKind * Z * Z :=
  (oi_name i, oi_kind i, oi_size i, Z.max 1 (oi_alignment i)).
Definition granted (e : OutputLayoutEntry) : string * OutputSectionKind * Z * Z :=
  (ol_name e, ol_kind e, ol_size e, ol_alignment e).

Lemma asked_normalize i : input_ok i -> asked (normalize_input i) = asked i.
Proof.
  intros Hi. unfold asked. rewrite normalize_input_alignment by done. unfold normalize_input.
  destruct (_ =? _); simpl; f_equal; lia.
Qed.

Lemma normalize_inputs_asked b :
  Forall input_ok b -> (asked <$> normalize_inputs b) ≡ₚ (asked <$> b).
Proof.
  intros Hb. unfold normalize_inputs. rewrite stable_sort_perm, <- list_fmap_compose.
  erewrite list_fmap_ext; [done|]. intros ? i Hi. apply asked_normalize.
  by eapply Forall_lookup_1.
Qed.

Lemma normalize_inputs_alignment b x :
  Forall input_ok b -> x ∈ normalize_inputs b -> oi_alignment x = Z.max 1 (oi_alignment x).
Proof.
  intros Hb Hx. unfold normalize_inputs in Hx.
  rewrite stable_sort_elem_of, list_elem_of_fmap in Hx. destruct Hx as (y & -> & Hy).
  rewrite Forall_forall in Hb. rewrite normalize_input_alignment by auto. lia.
Qed.

Lemma normalize_inputs_by_kind b :
  StronglySorted (fun x y => OutputSectionKind_Z (oi_kind x) <= OutputSectionKind_Z (oi_kind y))
    (normalize_inputs b).
Proof.
  unfold normalize_inputs. eapply StronglySorted_impl; [|apply stable_sort_sorted, _].
  intros x y. unfold le_of, output_section_lt, then_by_Z.
  destruct (Z.eqb_spec (OutputSectionKind_Z (oi_kind y)) (OutputSectionKind_Z (oi_kind x)));
    simpl; intros; bool_prop; lia.
Qed.

Lemma layout_entries_granted inputs offs :
  length offs = length inputs -> Forall (fun i => 1 <= oi_alignment i) inputs ->
  granted <$> zip_with layout_entry inputs offs = asked <$> inputs.
Proof.
  intros Hlen Hal. revert offs Hlen.
  induction Hal as [|i rest Hi _ IH]; intros [|o os] ?; simplify_eq/=; [done|].
  f_equal; [|by apply IH]. unfold granted, asked. simpl. f_equal. lia.
Qed.

Lemma layout_entries_sorted (R : Z -> Z -> Prop) inputs offs :
  StronglySorted (fun x y => R (OutputSectionKind_Z (oi_kind x)) (OutputSectionKind_Z (oi_kind y))) inputs ->
  StronglySorted (fun x y => R (OutputSectionKind_Z (ol_kind x)) (OutputSectionKind_Z (ol_kind y)))
    (zip_with layout_entry inputs offs).
Proof.
  intros Hs. revert offs. induction Hs as [|i rest Hs IH Hi]; intros [|o os]; simpl; constructor; [done|].
  rewrite Forall_forall.
  intros e [k (x & o' & -> & Hx & _)%lookup_zip_with_Some]%list_elem_of_lookup.
  exact (Forall_lookup_1 _ _ _ _ Hi Hx).
Qed.

(** ** Properties *)

(** C1: [build] reports success exactly when the unbounded layout of the
    normalised inputs ends below 2^64; on success the image holds the sections
    in the comparator's order at the offsets of that layout.  (This is the
    check [compute_offsets] lacks.) *)
Theorem build_success_iff b base img :
  Forall input_ok b -> fits 64 base ->
  let inputs := normalize_inputs b in
  let ideal := ideal_layout base (input_dims <$> inputs) in
  let '(ok, out, b') := build b base (Some img) in
  (ok = true <-> snd ideal < 2 ^ 64) /\
  b' = inputs /\
  (ok = true -> out = Some (mkOutputImage base (zip_with layout_entry inputs (fst ideal)))).
Proof.
  intros Hb Hbase. simpl.
  pose proof (build_loop_ideal base (normalize_inputs b) [] Hbase (normalize_inputs_ok _ Hb)) as H.
  simpl in H. destruct (build_loop base (normalize_inputs b) []) as [ok secs] eqn:E.
  destruct (decide _) as [Hd|Hd]; simpl in *; simplify_eq; split_and!; done.
Qed.

Definition sample_inputs : list OutputSectionInput :=
  [mkOutputSectionInput ".text" okCode 40 16 0; mkOutputSectionInput ".data" okData 8 0 1].

Lemma build_success_iff_witness :
  (fst (fst (build sample_inputs 10 (Some (mkOutputImage 0 [])))) = true /\
   snd (ideal_layout 10 (input_dims <$> normalize_inputs sample_inputs)) = 64).
Proof.
  assert (Forall input_ok sample_inputs) as Hok by (repeat constructor; simpl; lia).
  assert (fits 64 10) as Hb by (unfold fits; lia).
  generalize (build_success_iff sample_inputs 10 (mkOutputImage 0 []) Hok Hb).
  destruct (build sample_inputs 10 (Some (mkOutputImage 0 []))) as [[ok out] b'] eqn:E.
  intros ([_ H] & _ & _). split; [|vm_compute; reflexivity]. apply H. vm_compute. reflexivity.
Defined.

(** C8: every image [build] accepts is well formed: one entry per input, with the
    input's name, kind, size and alignment (1 for an input that asks for none),
    ordered by section kind, each at a multiple of its alignment, at or above the
    base, ending below 2^64, and no two entries overlap. *)
Theorem build_image_well_formed b base img out b' :
  Forall input_ok b -> fits 64 base ->
  build b base (Some img) = (true, Some out, b') ->
  om_base_offset out = base /\
  ((fun e => (ol_name e, ol_kind e, ol_size e, ol_alignment e)) <$> om_sections out) ≡ₚ
    ((fun i => (oi_name i, oi_kind i, oi_size i, Z.max 1 (oi_alignment i))) <$> b) /\
  StronglySorted (fun e1 e2 => OutputSectionKind_Z (ol_kind e1) <= OutputSectionKind_Z (ol_kind e2))
    (om_sections out) /\
  (forall i e, om_sections out !! i = Some e ->
     base <= ol_file_offset e /\ 1 <= ol_alignment e /\ (ol_alignment e | ol_file_offset e) /\
     ol_file_offset e + ol_size e < 2 ^ 64) /\
  (forall i j e1 e2, (i < j)%nat -> om_sections out !! i = Some e1 -> om_sections out !! j = Some e2 ->
     ol_file_offset e1 + ol_size e1 <= ol_file_offset e2).
Proof.
  intros Hb Hbase Hbuild. destruct (build_inv _ _ _ _ _ Hb Hbase Hbuild) as [Hend ->].
  set (inputs := normalize_inputs b) in *.
  destruct (ideal_layout_spec base _ (Forall_input_dims_size _ (normalize_inputs_ok b Hb)))
    as (Hlen & Hin & Hord).
  fold inputs in Hlen, Hin, Hord. rewrite length_fmap in Hlen. simpl. split_and!.
  - done.
  - change (granted <$> zip_with layout_entry inputs (ideal_layout base (input_dims <$> inputs)).1
      ≡ₚ asked <$> b).
    rewrite layout_entries_granted; [by apply normalize_inputs_asked|done|]. apply Forall_forall.
    intros x Hx. pose proof (normalize_inputs_alignment b x Hb Hx). lia.
  - apply (layout_entries_sorted Z.le), normalize_inputs_by_kind.
  - intros i e (x & o & -> & Hx & Ho)%lookup_zip_with_Some.
    destruct (Hin i (oi_size x) (oi_alignment x) o) as (? & Hdiv & ?);
      [by rewrite list_lookup_fmap, Hx|done|].
    assert (oi_alignment x = Z.max 1 (oi_alignment x)) as Hal
      by (eapply normalize_inputs_alignment; [done|by eapply list_elem_of_lookup_2]).
    simpl. rewrite Hal at 2. split_and!; [lia|lia|done|lia].
  - intros i j e1 e2 Hij (x & o & -> & Hx & Ho)%lookup_zip_with_Some
      (y & o' & -> & Hy & Ho')%lookup_zip_with_Some.
    eapply (Hord i j (oi_size x) (oi_alignment x)); [done|by rewrite list_lookup_fmap, Hx|done..].
Qed.

Lemma build_image_well_formed_witness :
  exists out b', build sample_inputs 10 (Some (mkOutputImage 0 [])) = (true, Some out, b') /\
    ((fun e => (ol_name e, ol_kind e, ol_size e, ol_alignment e)) <$> om_sections out) ≡ₚ
      [(".text", okCode, 40, 16); (".data", okData, 8, 1)].
Proof.
  destruct (build sample_inputs 10 (Some (mkOutputImage 0 []))) as [[ok [out|]] b'] eqn:E;
    [|vm_compute in E; discriminate].
  assert (ok = true) as -> by (vm_compute in E; congruence).
  exists out, b'. split; [reflexivity|].
  assert (Forall input_ok sample_inputs) as Hok by (repeat constructor; simpl; lia).
  assert (fits 64 10) as Hb by (unfold fits; lia).
  exact (proj1 (proj2 (build_image_well_formed _ _ _ _ _ Hok Hb E))).
Defined.

(** C26: builders that received the same sections in different
    orders produce the same image, as long as no two sections share kind, name
    and input ordinal; and building twice gives the same image as once. *)
Theorem build_deterministic b1 b2 base img :
  b1 ≡ₚ b2 -> NoDup (output_key <$> b1) ->
  build b1 base (Some img) = build b2 base (Some img) /\
  build (snd (build b1 base (Some img))) base (Some img) = build b1 base (Some img).
Proof.
  intros Hp Hnd. unfold build. rewrite <- (normalize_inputs_perm b1 b2) by done.
  destruct (build_loop base (normalize_inputs b1) []) as [ok secs] eqn:E. simpl.
  rewrite normalize_inputs_idemp, E. done.
Qed.

Lemma build_deterministic_witness :
  build sample_inputs 10 (Some (mkOutputImage 0 [])) =
  build (reverse sample_inputs) 10 (Some (mkOutputImage 0 [])).
Proof.
  apply (build_deterministic sample_inputs (reverse sample_inputs)).
  - apply Permutation_swap.
  - vm_compute. repeat constructor; rewrite ?list_elem_of_In; simpl; intuition discriminate.
Defined.
