(* ===== verification/SymbolsTable.v ===== *)
(** * SymbolsTable: the symbol table (src/olnk/symbols_table.cpp)

    Records are appended, put in a deterministic order, and looked up by name
    with a linear scan.  The comparator looks at every field, so the order is
    a function of the multiset of records, and lookup after finalisation
    returns the least record of that name. *)

From S2P Require Import Prelude StableSort.

Inductive SymbolScope := scUndefined | scLocal | scGlobal | scWeak.

Definition SymbolScope_Z (s : SymbolScope) : Z :=
  match s with scUndefined => 0 | scLocal => 1 | scGlobal => 2 | scWeak => 3 end.

#[export] Instance SymbolScope_eq_dec : EqDecision SymbolScope.
Proof. solve_decision. Defined.

#[export] Instance SymbolScope_Z_inj : Inj (=) (=) SymbolScope_Z.
Proof. by intros [] []. Qed.

Record SymbolRecord := mkSymbolRecord {
  sy_name : string;
  sy_value : Z;
  sy_size : Z;
  sy_scope : SymbolScope;
  sy_input_ordinal : Z;
}.

(** The class [SymbolTable]: its state is [records_]. *)
Abbreviation SymbolTable := (list SymbolRecord).

Definition symbol_add (record : SymbolRecord) (t : SymbolTable) : SymbolTable := t ++ [record].

Definition symbol_lt : SymbolRecord -> SymbolRecord -> bool :=
  then_by_string sy_name
    (then_by_Z (fun r => SymbolScope_Z (sy_scope r))
      (then_by_Z sy_input_ordinal
        (then_by_Z sy_value
          (fun lhs rhs => sy_size lhs <? sy_size rhs)))).

Definition symbol_finalize_deterministic_order (t : SymbolTable) : SymbolTable :=
  stable_sort symbol_lt t.

Fixpoint symbol_find_by_name (t : SymbolTable) (name : string) : option SymbolRecord :=
  match t with
  | [] => None
  | record :: rest =>
      if (sy_name record =? name)%string then Some record else symbol_find_by_name rest name
  end.

Definition symbol_size (t : SymbolTable) : nat := length t.

(** ** Lemmas *)

#[export] Instance symbol_lt_swo : StrictWeakOrder symbol_lt.
Proof.
  unfold symbol_lt. apply swo_then_by_string. do 3 apply swo_then_by_Z.
  split; intros; bool_prop; rewrite ?Z.ltb_lt, ?Z.ltb_ge, ?Z.ltb_irrefl in *; lia.
Qed.

(** The comparator separates distinct records. *)
Lemma symbol_tie x y : tie symbol_lt x y = true -> x = y.
Proof.
  intros H. apply tie_then_by_string in H as [Hn H].
  apply tie_then_by_Z in H as [Hs%(inj SymbolScope_Z) H].
  apply tie_then_by_Z in H as [Ho H]. apply tie_then_by_Z in H as [Hv H].
  unfold tie in H. simpl in H. bool_prop.
  destruct x, y; simpl in *. f_equal; try done. lia.
Qed.

(** The order of the table, key by key: the name in byte order, then the number of
    the scope, the ordinal of the input, the value and the size. *)
Definition symbol_before (a b : SymbolRecord) : Prop :=
  String.compare (sy_name a) (sy_name b) = Lt \/ sy_name a = sy_name b /\
  (SymbolScope_Z (sy_scope a) < SymbolScope_Z (sy_scope b) \/ sy_scope a = sy_scope b /\
  (sy_input_ordinal a < sy_input_ordinal b \/ sy_input_ordinal a = sy_input_ordinal b /\
  (sy_value a < sy_value b \/ sy_value a = sy_value b /\ sy_size a < sy_size b))).

Lemma symbol_lt_before a b : symbol_lt a b = true <-> symbol_before a b.
Proof.
  unfold symbol_lt, symbol_before. rewrite then_by_string_true, !then_by_Z_true, Z.ltb_lt.
  assert (SymbolScope_Z (sy_scope a) = SymbolScope_Z (sy_scope b) <-> sy_scope a = sy_scope b) as ->; [|tauto].
  split; [apply (inj SymbolScope_Z)|by intros ->].
Qed.

Lemma symbol_find_spec t name r :
  symbol_find_by_name t name = Some r <->
  exists i, t !! i = Some r /\ sy_name r = name /\
    forall j r', (j < i)%nat -> t !! j = Some r' -> sy_name r' <> name.
Proof.
  revert r. induction t as [|a t IH]; intros r; simpl.
  { split; [done|]. intros (i & Hi & _). done. }
  destruct (String.eqb_spec (sy_name a) name) as [Hn|Hn].
  - split.
    + intros ?; simplify_eq. exists 0%nat. split_and!; [done..|]. intros; lia.
    + intros ([|i] & Hi & Hr & Hlt); simplify_eq/=; [done|].
      by destruct (Hlt 0%nat a ltac:(lia) eq_refl).
  - rewrite IH. split.
    + intros (i & Hi & Hr & Hlt). exists (S i). split_and!; [done..|].
      intros [|j] r' Hj Hr'; simplify_eq/=; [done|]. eapply Hlt; [|done]. lia.
    + intros ([|i] & Hi & Hr & Hlt); simplify_eq/=. exists i. split_and!; [done..|].
      intros j r' Hj Hr'. eapply (Hlt (S j)); [lia|done].
Qed.

Lemma symbol_find_None t name :
  symbol_find_by_name t name = None <-> Forall (fun r => sy_name r <> name) t.
Proof.
  induction t as [|a t IH]; simpl; [by split; constructor|].
  rewrite Forall_cons. destruct (String.eqb_spec (sy_name a) name); [|rewrite IH; by split; [|intros [??]]].
  by split; [|intros [??]].
Qed.

(** ** Properties *)

(** C27: the finalised table is a permutation of the records in which an earlier
    record equals a later one or comes before it by the first of the keys name
    (byte order), scope number, input ordinal, value and size in which they
    differ; it does not depend on the order in which the records were added;
    finalising again changes nothing. *)
Theorem symbol_order_deterministic t1 t2 :
  t1 ≡ₚ t2 ->
  symbol_finalize_deterministic_order t1 = symbol_finalize_deterministic_order t2 /\
  symbol_finalize_deterministic_order t1 ≡ₚ t1 /\
  (forall i j a b, (i < j)%nat -> symbol_finalize_deterministic_order t1 !! i = Some a ->
     symbol_finalize_deterministic_order t1 !! j = Some b -> a = b \/ symbol_before a b) /\
  symbol_finalize_deterministic_order (symbol_finalize_deterministic_order t1) =
    symbol_finalize_deterministic_order t1.
Proof.
  intros Hp. unfold symbol_finalize_deterministic_order. split_and!.
  - apply stable_sort_order_independent; [apply _|done|]. intros x y _ _. apply symbol_tie.
  - apply stable_sort_perm.
  - intros i j a b Hij Ha Hb.
    pose proof (sorted_lookup _ _ i j a b (stable_sort_sorted symbol_lt t1) Hij Ha Hb) as Hle.
    unfold le_of in Hle. rewrite <- symbol_lt_before.
    destruct (symbol_lt a b) eqn:E; [by right|left]. apply symbol_tie. unfold tie. by rewrite E, Hle.
  - apply stable_sort_idemp, _.
Qed.

Definition sample_symbols : SymbolTable :=
  [mkSymbolRecord "main" 16 8 scGlobal 1; mkSymbolRecord "main" 0 0 scUndefined 0;
   mkSymbolRecord "abs" 4 2 scWeak 2].

Lemma symbol_order_deterministic_witness :
  symbol_finalize_deterministic_order sample_symbols =
  symbol_finalize_deterministic_order (reverse sample_symbols).
Proof.
  apply (symbol_order_deterministic sample_symbols (reverse sample_symbols)).
  symmetry. apply (reverse_Permutation sample_symbols).
Defined.

(** On a finalised table, lookup finds a name exactly when some
    record has it, and returns the least such record in the table's order (so
    the lowest scope number wins: an undefined reference before a local, a
    global and a weak definition). *)
Theorem symbol_find_least t name :
  match symbol_find_by_name (symbol_finalize_deterministic_order t) name with
  | Some r => r ∈ t /\ sy_name r = name /\
      forall r', r' ∈ t -> sy_name r' = name -> r' = r \/ symbol_lt r r' = true
  | None => forall r, r ∈ t -> sy_name r <> name
  end.
Proof.
  unfold symbol_finalize_deterministic_order.
  destruct (symbol_find_by_name _ name) as [r|] eqn:E.
  - apply symbol_find_spec in E as (i & Hi & Hr & Hlt). split_and!; [|done|].
    { eapply stable_sort_elem_of, list_elem_of_lookup_2, Hi. }
    intros r' Hr' Hn'. rewrite <- (stable_sort_elem_of symbol_lt) in Hr'.
    apply list_elem_of_lookup in Hr' as [j Hj].
    destruct (decide (i = j)) as [<-|Hij]; [left; rewrite Hi in Hj; by simplify_eq|].
    destruct (decide (j < i)%nat); [by destruct (Hlt j r')|].
    pose proof (sorted_lookup _ _ i j r r' (stable_sort_sorted symbol_lt t) ltac:(lia) Hi Hj) as Hle.
    unfold le_of in Hle. destruct (symbol_lt r r') eqn:E; [by right|]. left. symmetry.
    apply symbol_tie. unfold tie. by rewrite E, Hle.
  - rewrite symbol_find_None, stable_sort_Forall, Forall_forall in E. auto.
Qed.
