(* ===== verification/SectionHandler.v ===== *)
(** * SectionHandler: the section table (src/olnk/section_handler.cpp) *)

From S2P Require Import Prelude StableSort.

Inductive SectionKind :=
  | skUnknown | skCode | skReadOnlyData | skData | skBss | skTls | skDebug.

Definition SectionKind_Z (k : SectionKind) : Z :=
  match k with
  | skUnknown => 0 | skCode => 1 | skReadOnlyData => 2 | skData => 3
  | skBss => 4 | skTls => 5 | skDebug => 6
  end.

#[export] Instance SectionKind_eq_dec : EqDecision SectionKind.
Proof. solve_decision. Defined.

Record SectionRecord := mkSectionRecord {
  se_name : string;
  se_kind : SectionKind;
  se_size : Z;
  se_alignment : Z;
  se_input_ordinal : Z;
}.

(** The class [SectionTable]: its state is [sections_]. *)
Abbreviation SectionTable := (list SectionRecord).

Definition section_add (section : SectionRecord) (t : SectionTable) : SectionTable :=
  t ++ [section].

Definition section_lt : SectionRecord -> SectionRecord -> bool :=
  then_by_Z (fun s => SectionKind_Z (se_kind s))
    (then_by_string se_name
      (fun lhs rhs => se_input_ordinal lhs <? se_input_ordinal rhs)).

Definition section_default_alignment (s : SectionRecord) : SectionRecord :=
  if se_alignment s =? 0
  then mkSectionRecord (se_name s) (se_kind s) (se_size s) 1 (se_input_ordinal s)
  else s.

Definition section_normalize (t : SectionTable) : SectionTable :=
  stable_sort section_lt (section_default_alignment <$> t).

(** ** Lemmas *)

#[export] Instance section_lt_swo : StrictWeakOrder section_lt.
Proof.
  unfold section_lt. apply swo_then_by_Z, swo_then_by_string.
  split; intros; bool_prop; rewrite ?Z.ltb_lt, ?Z.ltb_ge, ?Z.ltb_irrefl in *; lia.
Qed.

Definition section_key (s : SectionRecord) : Z * string * Z :=
  (SectionKind_Z (se_kind s), se_name s, se_input_ordinal s).

Lemma section_tie x y : tie section_lt x y = true <-> section_key x = section_key y.
Proof.
  unfold section_lt, section_key. split.
  - intros H. apply tie_then_by_Z in H as [-> H]. apply tie_then_by_string in H as [-> H].
    unfold tie in H. simpl in H. bool_prop. f_equal. lia.
  - intros [= Hk Hn Ho]. unfold tie, then_by_Z, then_by_string.
    by rewrite Hk, Hn, Ho, !Z.eqb_refl, !String.eqb_refl, !Z.ltb_irrefl.
Qed.

Lemma section_default_alignment_idemp s :
  section_default_alignment (section_default_alignment s) = section_default_alignment s.
Proof.
  unfold section_default_alignment. destruct (se_alignment s =? 0) eqn:E; [done|]. by rewrite E.
Qed.

Lemma section_key_default s : section_key (section_default_alignment s) = section_key s.
Proof. unfold section_default_alignment. by destruct (_ =? _). Qed.

Lemma section_default_key (t : SectionTable) :
  section_key <$> (section_default_alignment <$> t) = section_key <$> t.
Proof.
  rewrite <- list_fmap_compose. apply list_fmap_ext. intros ? s _. apply section_key_default.
Qed.

(** ** Properties *)

(** [normalize] leaves no zero alignment and changes nothing else in
    a section, orders the sections by (kind, name, ordinal), keeps the
    insertion order of sections that agree on all three, and is idempotent. *)
Theorem section_normalize_correct t :
  section_normalize t ≡ₚ (section_default_alignment <$> t) /\
  Forall (fun s => se_alignment s <> 0) (section_normalize t) /\
  StronglySorted (fun a b => section_lt b a = false) (section_normalize t) /\
  (forall s, filter (fun x => section_key x = section_key s) (section_normalize t) =
             filter (fun x => section_key x = section_key s) (section_default_alignment <$> t)) /\
  section_normalize (section_normalize t) = section_normalize t.
Proof.
  unfold section_normalize. split_and!.
  - apply stable_sort_perm.
  - rewrite stable_sort_Forall, Forall_fmap. apply Forall_true. intros s. simpl.
    unfold section_default_alignment. destruct (Z.eqb_spec (se_alignment s) 0); done.
  - apply stable_sort_sorted, _.
  - intros s.
    assert (forall l : list SectionRecord, filter (fun x => section_key x = section_key s) l =
              filter (fun x => tie section_lt s x = true) l) as He.
    { intros l. apply list_filter_iff. intros x. rewrite section_tie. done. }
    rewrite !He. apply stable_sort_stable, _.
  - rewrite fmap_id_on; [apply stable_sort_idemp, _|]. intros x.
    rewrite stable_sort_elem_of, list_elem_of_fmap. intros (y & -> & _).
    apply section_default_alignment_idemp.
Qed.

(** tables that received the same sections in different orders
    normalise to the same table when no two sections share kind, name and
    ordinal. *)
Theorem section_normalize_deterministic t1 t2 :
  t1 ≡ₚ t2 -> NoDup (section_key <$> t1) -> section_normalize t1 = section_normalize t2.
Proof.
  intros Hp Hnd. unfold section_normalize.
  apply stable_sort_order_independent; [apply _|by rewrite Hp|].
  intros x y Hx Hy Ht%section_tie.
  rewrite <- section_default_key in Hnd. by eapply NoDup_fmap_inj_on.
Qed.

Definition sample_sections : SectionTable :=
  [mkSectionRecord ".rodata" skReadOnlyData 12 0 0; mkSectionRecord ".text" skCode 40 16 1].

Lemma section_normalize_deterministic_witness :
  section_normalize sample_sections = section_normalize (reverse sample_sections).
Proof.
  apply section_normalize_deterministic.
  - apply Permutation_swap.
  - vm_compute. repeat constructor; rewrite ?list_elem_of_In; simpl; intuition discriminate.
Defined.
