(* ===== verification/Relocation.v ===== *)
(** * Relocation: planning and applying relocations (src/olnk/relocation.cpp)

    The planner's deterministic order and the application of one relocation
    with 64-bit overflow checks.  [apply_single] negates a negative addend as
    an [int64_t]; for INT64_MIN that is undefined behaviour in C++, which the
    model shows as [None]. *)

From S2P Require Import Prelude StableSort.

Inductive RelocationKind := rkNone | rkAbsolute | rkPcRelative | rkGot | rkPlt.

Definition RelocationKind_Z (k : RelocationKind) : Z :=
  match k with rkNone => 0 | rkAbsolute => 1 | rkPcRelative => 2 | rkGot => 3 | rkPlt => 4 end.

#[export] Instance RelocationKind_eq_dec : EqDecision RelocationKind.
Proof. solve_decision. Defined.

Inductive RelocationApplyStatus := rsApplied | rsSkippedUnsupported | rsInvalidInput | rsOverflow.

#[export] Instance RelocationApplyStatus_eq_dec : EqDecision RelocationApplyStatus.
Proof. solve_decision. Defined.

Record RelocationRecord := mkRelocationRecord {
  rr_kind : RelocationKind;
  rr_offset : Z;
  rr_addend : Z;          (* int64_t *)
  rr_target_value : Z;
  rr_input_ordinal : Z;
}.

Record RelocationResult := mkRelocationResult {
  rs_offset : Z;
  rs_status : RelocationApplyStatus;
  rs_resolved_value : Z;
}.

Abbreviation RelocationPlanner := (list RelocationRecord).

Definition reloc_add (record : RelocationRecord) (p : RelocationPlanner) : RelocationPlanner :=
  p ++ [record].

Definition reloc_lt : RelocationRecord -> RelocationRecord -> bool :=
  then_by_Z rr_offset
    (then_by_Z (fun r => RelocationKind_Z (rr_kind r))
      (fun lhs rhs => rr_input_ordinal lhs <? rr_input_ordinal rhs)).

Definition reloc_finalize_deterministic_order (p : RelocationPlanner) : RelocationPlanner :=
  stable_sort reloc_lt p.

(** Unary minus on [int64_t]. *)
Definition int64_neg (x : Z) : option Z := if x =? INT64_MIN then None else Some (- x).

Definition apply_single (record : RelocationRecord) (place : Z) : option RelocationResult :=
  let result := mkRelocationResult (rr_offset record) rsInvalidInput 0 in
  let with_status s v := mkRelocationResult (rr_offset record) s v in
  if decide (rr_kind record = rkNone) then
    Some (with_status rsSkippedUnsupported (rs_resolved_value result))
  else
    let base := rr_target_value record in
    let addend := rr_addend record in
    let finish resolved :=
      if decide (rr_kind record = rkPcRelative) then
        if resolved <? place then with_status rsOverflow resolved
        else with_status rsApplied (u64 (resolved - place))
      else with_status rsApplied resolved in
    if 0 <=? addend then
      let uadd := u64 addend in
      if UINT64_MAX - uadd <? base then Some (with_status rsOverflow (rs_resolved_value result))
      else Some (finish (u64 (base + uadd)))
    else
      neg ← int64_neg addend;
      let usub := u64 neg in
      if base <? usub then Some (with_status rsOverflow (rs_resolved_value result))
      else Some (finish (u64 (base - usub))).

Definition apply_one (place_base : Z) (record : RelocationRecord) : option RelocationResult :=
  let place := u64 (place_base + rr_offset record) in
  if place <? place_base then Some (mkRelocationResult (rr_offset record) rsOverflow 0)
  else apply_single record place.

Definition apply_relocations (records : list RelocationRecord) (place_base : Z)
    : option (list RelocationResult) :=
  mapM (apply_one place_base) records.

(** ** The value a relocation stands for *)

Definition reloc_ok (r : RelocationRecord) : Prop :=
  fits 64 (rr_offset r) /\ fits 64 (rr_target_value r) /\
  - 2 ^ 63 <= rr_addend r < 2 ^ 63 /\ fits 32 (rr_input_ordinal r).

(** S + A, or S + A - P for the PC-relative kind. *)
Definition reloc_symbolic (r : RelocationRecord) (place : Z) : Z :=
  rr_target_value r + rr_addend r - (if decide (rr_kind r = rkPcRelative) then place else 0).

(** The value is representable: S + A first, then the difference. *)
Definition reloc_representable (r : RelocationRecord) (place : Z) : Prop :=
  fits 64 (rr_target_value r + rr_addend r) /\ fits 64 (reloc_symbolic r place).

(** ** Lemmas *)

#[export] Instance reloc_lt_swo : StrictWeakOrder reloc_lt.
Proof.
  unfold reloc_lt. do 2 apply swo_then_by_Z.
  split; intros; bool_prop; rewrite ?Z.ltb_lt, ?Z.ltb_ge, ?Z.ltb_irrefl in *; lia.
Qed.

Definition reloc_key (r : RelocationRecord) : Z * Z * Z :=
  (rr_offset r, RelocationKind_Z (rr_kind r), rr_input_ordinal r).

Lemma reloc_tie x y : tie reloc_lt x y = true -> reloc_key x = reloc_key y.
Proof.
  unfold reloc_lt, reloc_key. intros H.
  apply tie_then_by_Z in H as [-> H]. apply tie_then_by_Z in H as [-> H].
  unfold tie in H. simpl in H. bool_prop. f_equal. lia.
Qed.

(** [apply_single] on every branch where it is defined. *)
Lemma apply_single_spec r place :
  reloc_ok r -> fits 64 place -> rr_addend r <> INT64_MIN -> rr_kind r <> rkNone ->
  exists res, apply_single r place = Some res /\ rs_offset res = rr_offset r /\
    (rs_status res = rsApplied /\ reloc_representable r place /\
       rs_resolved_value res = reloc_symbolic r place
     \/ rs_status res = rsOverflow /\ ~ reloc_representable r place).
Proof.
  intros (Ho & Ht & Ha & _) Hp Hmin Hk.
  unfold apply_single, reloc_representable, reloc_symbolic, int64_neg, UINT64_MAX, INT64_MIN in *.
  rewrite decide_False by done. unfold fits in *.
  destruct (Z.leb_spec 0 (rr_addend r)).
  - rewrite (wrap_small 64 (rr_addend r)) by (unfold fits; lia).
    destruct (Z.ltb_spec (2 ^ 64 - 1 - rr_addend r) (rr_target_value r)).
    { eexists. split; [done|]. split; [done|]. right. simpl. split; [done|]. lia. }
    rewrite (wrap_small 64 (_ + _)) by (unfold fits; lia).
    destruct (decide (rr_kind r = rkPcRelative)).
    + destruct (Z.ltb_spec (rr_target_value r + rr_addend r) place).
      * eexists. split; [done|]. split; [done|]. right. simpl. split; [done|]. lia.
      * rewrite (wrap_small 64) by (unfold fits; lia).
        eexists. split; [done|]. split; [done|]. left. simpl. split_and!; (done || lia).
    + eexists. split; [done|]. split; [done|]. left. simpl. split_and!; (done || lia).
  - rewrite (proj2 (Z.eqb_neq _ _)) by lia. simpl.
    rewrite (wrap_small 64 (- rr_addend r)) by (unfold fits; lia).
    destruct (Z.ltb_spec (rr_target_value r) (- rr_addend r)).
    { eexists. split; [done|]. split; [done|]. right. simpl. split; [done|]. lia. }
    rewrite (wrap_small 64 (_ - _)) by (unfold fits; lia).
    destruct (decide (rr_kind r = rkPcRelative)).
    + destruct (Z.ltb_spec (rr_target_value r - - rr_addend r) place).
      * eexists. split; [done|]. split; [done|]. right. simpl. split; [done|]. lia.
      * rewrite (wrap_small 64) by (unfold fits; lia).
        eexists. split; [done|]. split; [done|]. left. simpl. split_and!; (done || lia).
    + eexists. split; [done|]. split; [done|]. left. simpl. split_and!; (done || lia).
Qed.

(** What one entry of the result vector must say about its record. *)
Definition reloc_result_correct (place_base : Z) (r : RelocationRecord) (res : RelocationResult) : Prop :=
  rs_offset res = rr_offset r /\
  match decide (place_base + rr_offset r < 2 ^ 64) with
  | right _ => rs_status res = rsOverflow
  | left _ =>
      let place := place_base + rr_offset r in
      match rr_kind r with
      | rkNone => rs_status res = rsSkippedUnsupported
      | _ =>
          (rs_status res = rsApplied <-> reloc_representable r place) /\
          (rs_status res <> rsApplied -> rs_status res = rsOverflow) /\
          (rs_status res = rsApplied -> rs_resolved_value res = reloc_symbolic r place)
      end
  end.

Lemma apply_one_correct place_base r :
  fits 64 place_base -> reloc_ok r -> rr_addend r <> INT64_MIN ->
  exists res, apply_one place_base r = Some res /\ reloc_result_correct place_base r res.
Proof.
  intros Hb Hr Hmin. pose proof Hr as (Ho & _). unfold apply_one, reloc_result_correct.
  rewrite (wrap_add_lt 64) by (done || lia).
  destruct (Z.leb_spec (2 ^ 64) (place_base + rr_offset r)) as [Hw|Hw].
  { eexists. split; [done|]. split; [done|]. rewrite decide_False by lia. done. }
  assert (fits 64 (place_base + rr_offset r)) as Hp by (unfold fits in *; lia).
  rewrite (wrap_small 64) by done.
  destruct (decide (rr_kind r = rkNone)) as [Hk|Hk].
  { unfold apply_single. rewrite decide_True by done. eexists. split; [done|]. split; [done|].
    rewrite decide_True by lia. by rewrite Hk. }
  destruct (apply_single_spec r _ Hr Hp Hmin Hk) as (res & -> & Hoff & Hcase).
  exists res. split; [done|]. split; [done|]. rewrite decide_True by lia.
  destruct (rr_kind r); try done;
    (destruct Hcase as [(-> & ? & ->)|(-> & ?)]; split_and!; done).
Qed.

Lemma mapM_Forall2 {A B} (f : A -> option B) (R : A -> B -> Prop) l :
  (forall x, x ∈ l -> exists y, f x = Some y /\ R x y) ->
  exists k, mapM f l = Some k /\ Forall2 R l k.
Proof.
  induction l as [|x l IH]; intros H; [by exists []|].
  destruct (H x ltac:(left)) as (y & Hy & Rxy).
  destruct IH as (k & Hk & HF); [intros z Hz; apply H; by right|].
  exists (y :: k). simpl. rewrite Hy. simpl. rewrite Hk. simpl. split; [done|by constructor].
Qed.

(** ** Properties *)

(** C17: for records whose addend is not INT64_MIN, [apply_relocations]
    returns one result per record, in order.  A result is an overflow when the
    place does not fit in 64 bits; the kind [kNone] is skipped; any other
    record is applied exactly when S + A, and S + A - P for a PC-relative
    record, lie in [0, 2^64), and then carries that value; otherwise it is
    reported as an overflow. *)
Theorem apply_relocations_correct records place_base :
  fits 64 place_base ->
  Forall (fun r => reloc_ok r /\ rr_addend r <> INT64_MIN) records ->
  exists results, apply_relocations records place_base = Some results /\
    Forall2 (reloc_result_correct place_base) records results.
Proof.
  intros Hb Hr. apply mapM_Forall2. intros r Hin.
  rewrite Forall_forall in Hr. destruct (Hr r Hin). by apply apply_one_correct.
Qed.

Definition sample_relocs : list RelocationRecord :=
  [mkRelocationRecord rkPcRelative 8 (-4) 4096 0; mkRelocationRecord rkAbsolute 0 16 (2 ^ 64 - 8) 1].

Lemma apply_relocations_correct_witness :
  exists results, apply_relocations sample_relocs 1024 = Some results /\
    Forall2 (reloc_result_correct 1024) sample_relocs results.
Proof.
  apply apply_relocations_correct.
  - unfold fits; lia.
  - repeat constructor; unfold INT64_MIN; simpl; lia.
Defined.

(** The one addend the checks do not cover.  For INT64_MIN the
    negation overflows [int64_t], so no record that reaches it has a defined
    result. *)
Theorem apply_single_int64_min_undefined r place :
  rr_addend r = INT64_MIN -> rr_kind r <> rkNone -> apply_single r place = None.
Proof.
  intros Ha Hk. unfold apply_single. rewrite decide_False by done. rewrite Ha. done.
Qed.

Lemma apply_single_int64_min_undefined_witness :
  apply_single (mkRelocationRecord rkAbsolute 0 INT64_MIN (2 ^ 63) 0) 0 = None.
Proof. apply apply_single_int64_min_undefined; [reflexivity|discriminate]. Defined.

(** planning the same records in different orders gives the same
    plan when no two share offset, kind and input ordinal, and the plan is
    sorted by offset. *)
Theorem reloc_order_deterministic p1 p2 :
  p1 ≡ₚ p2 -> NoDup (reloc_key <$> p1) ->
  reloc_finalize_deterministic_order p1 = reloc_finalize_deterministic_order p2 /\
  StronglySorted (fun a b => rr_offset a <= rr_offset b) (reloc_finalize_deterministic_order p1).
Proof.
  intros Hp Hnd. unfold reloc_finalize_deterministic_order. split.
  - apply stable_sort_order_independent; [apply _|done|].
    intros x y Hx Hy Ht%reloc_tie. by eapply NoDup_fmap_inj_on.
  - eapply StronglySorted_impl; [|apply stable_sort_sorted, _].
    intros x y. unfold le_of, reloc_lt, then_by_Z.
    destruct (Z.eqb_spec (rr_offset y) (rr_offset x)); simpl; intros; bool_prop; lia.
Qed.

Lemma reloc_order_deterministic_witness :
  reloc_finalize_deterministic_order sample_relocs =
  reloc_finalize_deterministic_order (reverse sample_relocs).
Proof.
  apply (reloc_order_deterministic sample_relocs (reverse sample_relocs)).
  - apply Permutation_swap.
  - vm_compute. repeat constructor; rewrite ?list_elem_of_In; simpl; intuition discriminate.
Defined.
