(* ===== verification/IrBuilder.v ===== *)
(** * IrBuilder: the internal IR graph (src/olnk/internal/ir_model.h,
    ir_builder.cpp, ir_visitor.cpp)

    The builder normalises and orders sections and symbols and publishes them;
    the visitor calls back on every node in that order.  A callback is any
    state transformer, so "the visitor calls it once per node, in order" is an
    equation between states. *)

From S2P Require Import Prelude StableSort.

Inductive IrSectionKind := ikUnknown | ikCode | ikReadOnlyData | ikData | ikBss | ikDebug.

Definition IrSectionKind_Z (k : IrSectionKind) : Z :=
  match k with
  | ikUnknown => 0 | ikCode => 1 | ikReadOnlyData => 2 | ikData => 3 | ikBss => 4 | ikDebug => 5
  end.

#[export] Instance IrSectionKind_eq_dec : EqDecision IrSectionKind.
Proof. solve_decision. Defined.

Record IrSymbolNode := mkIrSymbolNode {
  is_name : string;
  is_value : Z;
  is_size : Z;
  is_input_ordinal : Z;
}.

Record IrSectionNode := mkIrSectionNode {
  in_name : string;
  in_kind : IrSectionKind;
  in_size : Z;
  in_alignment : Z;
  in_input_ordinal : Z;
}.

Record IrGraph := mkIrGraph {
  ig_sections : list IrSectionNode;
  ig_symbols : list IrSymbolNode;
}.

(** The class [IrBuilder]: [sections_] and [symbols_]. *)
Record IrBuilder := mkIrBuilder {
  ib_sections : list IrSectionNode;
  ib_symbols : list IrSymbolNode;
}.

Definition ir_add_section (section : IrSectionNode) (b : IrBuilder) : IrBuilder :=
  mkIrBuilder (ib_sections b ++ [section]) (ib_symbols b).

Definition ir_add_symbol (symbol : IrSymbolNode) (b : IrBuilder) : IrBuilder :=
  mkIrBuilder (ib_sections b) (ib_symbols b ++ [symbol]).

Definition ir_section_lt : IrSectionNode -> IrSectionNode -> bool :=
  then_by_Z (fun s => IrSectionKind_Z (in_kind s))
    (then_by_string in_name
      (fun lhs rhs => in_input_ordinal lhs <? in_input_ordinal rhs)).

Definition ir_default_alignment (s : IrSectionNode) : IrSectionNode :=
  if in_alignment s =? 0
  then mkIrSectionNode (in_name s) (in_kind s) (in_size s) 1 (in_input_ordinal s)
  else s.

Definition normalize_sections (l : list IrSectionNode) : list IrSectionNode :=
  stable_sort ir_section_lt (ir_default_alignment <$> l).

Definition ir_symbol_lt : IrSymbolNode -> IrSymbolNode -> bool :=
  then_by_string is_name
    (then_by_Z is_value
      (fun lhs rhs => is_input_ordinal lhs <? is_input_ordinal rhs)).

Definition normalize_symbols (l : list IrSymbolNode) : list IrSymbolNode :=
  stable_sort ir_symbol_lt l.

(** [build]: (status, graph, builder); a null [out_graph] is [None]. *)
Definition ir_build (b : IrBuilder) (out_graph : option IrGraph)
    : bool * option IrGraph * IrBuilder :=
  match out_graph with
  | None => (false, None, b)
  | Some _ =>
      let b := mkIrBuilder (normalize_sections (ib_sections b)) (normalize_symbols (ib_symbols b)) in
      (true, Some (mkIrGraph (ib_sections b) (ib_symbols b)), b)
  end.

(** The visitor, with its loop over indices; [None] is an empty
    [std::function]. *)
Section visitor.
Context {St N : Type}.

Fixpoint visit_from (nodes : list N) (callback : N -> St -> St) (fuel i : nat) (s : St) : St :=
  match fuel with
  | O => s
  | S fuel =>
      match nodes !! i with
      | None => s
      | Some n => visit_from nodes callback fuel (i + 1) (callback n s)
      end
  end.

Definition visit (nodes : list N) (callback : option (N -> St -> St)) (s : St) : bool * St :=
  match callback with
  | None => (false, s)
  | Some f => (true, visit_from nodes f (length nodes) 0 s)
  end.
End visitor.

Definition visit_sections {St} (g : IrGraph) (callback : option (IrSectionNode -> St -> St)) : St -> bool * St :=
  visit (ig_sections g) callback.
Definition visit_symbols {St} (g : IrGraph) (callback : option (IrSymbolNode -> St -> St)) : St -> bool * St :=
  visit (ig_symbols g) callback.

(** ** Lemmas *)

#[export] Instance ir_section_lt_swo : StrictWeakOrder ir_section_lt.
Proof.
  unfold ir_section_lt. apply swo_then_by_Z, swo_then_by_string.
  split; intros; bool_prop; rewrite ?Z.ltb_lt, ?Z.ltb_ge, ?Z.ltb_irrefl in *; lia.
Qed.

#[export] Instance ir_symbol_lt_swo : StrictWeakOrder ir_symbol_lt.
Proof.
  unfold ir_symbol_lt. apply swo_then_by_string, swo_then_by_Z.
  split; intros; bool_prop; rewrite ?Z.ltb_lt, ?Z.ltb_ge, ?Z.ltb_irrefl in *; lia.
Qed.

Lemma visit_from_drop {St N} (nodes : list N) (f : N -> St -> St) fuel i s :
  (length nodes <= fuel + i)%nat ->
  visit_from nodes f fuel i s = foldl (fun s n => f n s) s (drop i nodes).
Proof.
  revert i s. induction fuel as [|fuel IH]; intros i s Hf; simpl.
  { rewrite drop_ge by lia. done. }
  destruct (nodes !! i) as [n|] eqn:Hn.
  - rewrite IH by lia. rewrite (drop_S _ _ _ Hn), Nat.add_1_r. done.
  - apply lookup_ge_None in Hn. rewrite drop_ge by lia. done.
Qed.

Lemma ir_default_alignment_idemp s :
  ir_default_alignment (ir_default_alignment s) = ir_default_alignment s.
Proof. unfold ir_default_alignment. destruct (in_alignment s =? 0) eqn:E; [done|]. by rewrite E. Qed.

Lemma normalize_sections_idemp l : normalize_sections (normalize_sections l) = normalize_sections l.
Proof.
  unfold normalize_sections.
  rewrite (fmap_id_on ir_default_alignment); [apply stable_sort_idemp, _|].
  intros x. rewrite stable_sort_elem_of, list_elem_of_fmap. intros (y & -> & _).
  apply ir_default_alignment_idemp.
Qed.

(** ** Properties *)

(** [build] fails only for a null graph; otherwise the graph holds a
    permutation of the added sections (zero alignments replaced by 1) and of
    the added symbols, each in its comparator's order; and building again
    returns the same graph. *)
Theorem ir_build_correct b g :
  let '(ok, out, b') := ir_build b (Some g) in
  ok = true /\ fst (fst (ir_build b None)) = false /\
  exists graph, out = Some graph /\
    ig_sections graph ≡ₚ (ir_default_alignment <$> ib_sections b) /\
    ig_symbols graph ≡ₚ ib_symbols b /\
    StronglySorted (fun x y => ir_section_lt y x = false) (ig_sections graph) /\
    StronglySorted (fun x y => ir_symbol_lt y x = false) (ig_symbols graph) /\
    Forall (fun s => in_alignment s <> 0) (ig_sections graph) /\
    ir_build b' (Some g) = (true, Some graph, b').
Proof.
  simpl. split; [done|]. split; [done|]. eexists. split; [done|]. simpl. split_and!.
  - apply stable_sort_perm.
  - apply stable_sort_perm.
  - apply stable_sort_sorted, _.
  - apply stable_sort_sorted, _.
  - unfold normalize_sections. rewrite stable_sort_Forall, Forall_fmap. apply Forall_true.
    intros s. simpl. unfold ir_default_alignment. destruct (Z.eqb_spec (in_alignment s) 0); done.
  - unfold ir_build. simpl. rewrite normalize_sections_idemp. unfold normalize_symbols.
    by rewrite stable_sort_idemp by apply _.
Qed.

(** a traversal without a callback fails and changes nothing; with
    one it terminates having called it on every node, once, in the graph's
    order. *)
Theorem ir_visit_in_order {St} (g : IrGraph) (f : IrSectionNode -> St -> St) (h : IrSymbolNode -> St -> St) (s : St) :
  visit_sections g (Some f) s = (true, foldl (fun s n => f n s) s (ig_sections g)) /\
  visit_symbols g (Some h) s = (true, foldl (fun s n => h n s) s (ig_symbols g)) /\
  visit_sections g None s = (false, s) /\ visit_symbols g None s = (false, s).
Proof.
  unfold visit_sections, visit_symbols, visit.
  rewrite !visit_from_drop by lia. by rewrite !drop_0.
Qed.
