(* ===== verification/Endian.v ===== *)
(** Byte order: libbfd.c's readers and writers of 16, 24, 32 and 64-bit
    integers, big and little-endian, signed and unsigned, and the routines of
    any width [bfd_get_bits] and [bfd_put_bits].

    A buffer is the list of bytes that starts at the pointer; an access
    outside it has no result ([None]), and so has [abort]. *)

From S2P Require Import Prelude.

(** ** The routines *)

(** [addr[i]] as a value. *)
Definition rd (addr : list Z) (i : nat) : option Z := addr !! i.

(** [addr[i] = v]: nothing is written past the end of the buffer. *)
Definition wr (addr : list Z) (i : nat) (v : Z) : option (list Z) :=
  if decide (i < length addr)%nat then Some (<[i := v]> addr) else None.

(** The sign-extension macros, on [bfd_vma], read back as [bfd_signed_vma]. *)
Definition COERCE16 (x : Z) : Z := sext 64 ((x .^ 0x8000) - 0x8000).
Definition COERCE32 (x : Z) : Z := sext 64 ((x .^ 0x80000000) - 0x80000000).
Definition COERCE64 (x : Z) : Z := sext 64 ((x .^ (1 .<< 63)) - (1 .<< 63)).

Definition bfd_getb16 (addr : list Z) : option Z :=
  a0 ← rd addr 0; a1 ← rd addr 1; Some ((a0 .<< 8) .| a1).

Definition bfd_getl16 (addr : list Z) : option Z :=
  a1 ← rd addr 1; a0 ← rd addr 0; Some ((a1 .<< 8) .| a0).

Definition bfd_getb_signed_16 (addr : list Z) : option Z :=
  a0 ← rd addr 0; a1 ← rd addr 1; Some (COERCE16 ((a0 .<< 8) .| a1)).

Definition bfd_getl_signed_16 (addr : list Z) : option Z :=
  a1 ← rd addr 1; a0 ← rd addr 0; Some (COERCE16 ((a1 .<< 8) .| a0)).

Definition bfd_putb16 (data : Z) (addr : list Z) : option (list Z) :=
  addr ← wr addr 0 ((data .>> 8) .& 0xff);
  wr addr 1 (data .& 0xff).

Definition bfd_putl16 (data : Z) (addr : list Z) : option (list Z) :=
  addr ← wr addr 0 (data .& 0xff);
  wr addr 1 ((data .>> 8) .& 0xff).

Definition bfd_putb24 (data : Z) (addr : list Z) : option (list Z) :=
  addr ← wr addr 0 ((data .>> 16) .& 0xff);
  addr ← wr addr 1 ((data .>> 8) .& 0xff);
  wr addr 2 (data .& 0xff).

Definition bfd_putl24 (data : Z) (addr : list Z) : option (list Z) :=
  addr ← wr addr 0 (data .& 0xff);
  addr ← wr addr 1 ((data .>> 8) .& 0xff);
  wr addr 2 ((data .>> 16) .& 0xff).

Definition bfd_getb24 (addr : list Z) : option Z :=
  a0 ← rd addr 0; let v := u32 (a0 .<< 16) in
  a1 ← rd addr 1; let v := v .| u32 (a1 .<< 8) in
  a2 ← rd addr 2; Some (v .| a2).

Definition bfd_getl24 (addr : list Z) : option Z :=
  a0 ← rd addr 0; let v := a0 in
  a1 ← rd addr 1; let v := v .| u32 (a1 .<< 8) in
  a2 ← rd addr 2; Some (v .| u32 (a2 .<< 16)).

Definition bfd_getb32 (addr : list Z) : option Z :=
  a0 ← rd addr 0; let v := u32 (a0 .<< 24) in
  a1 ← rd addr 1; let v := v .| u32 (a1 .<< 16) in
  a2 ← rd addr 2; let v := v .| u32 (a2 .<< 8) in
  a3 ← rd addr 3; Some (v .| a3).

Definition bfd_getl32 (addr : list Z) : option Z :=
  a0 ← rd addr 0; let v := a0 in
  a1 ← rd addr 1; let v := v .| u32 (a1 .<< 8) in
  a2 ← rd addr 2; let v := v .| u32 (a2 .<< 16) in
  a3 ← rd addr 3; Some (v .| u32 (a3 .<< 24)).

Definition bfd_getb_signed_32 (addr : list Z) : option Z :=
  a0 ← rd addr 0; let v := u32 (a0 .<< 24) in
  a1 ← rd addr 1; let v := v .| u32 (a1 .<< 16) in
  a2 ← rd addr 2; let v := v .| u32 (a2 .<< 8) in
  a3 ← rd addr 3; let v := v .| a3 in
  Some (COERCE32 v).

Definition bfd_getl_signed_32 (addr : list Z) : option Z :=
  a0 ← rd addr 0; let v := a0 in
  a1 ← rd addr 1; let v := v .| u32 (a1 .<< 8) in
  a2 ← rd addr 2; let v := v .| u32 (a2 .<< 16) in
  a3 ← rd addr 3; let v := v .| u32 (a3 .<< 24) in
  Some (COERCE32 v).

Definition bfd_getb64 (addr : list Z) : option Z :=
  a ← rd addr 0; let v := u64 (a .<< 8) in
  a ← rd addr 1; let v := u64 ((v .| a) .<< 8) in
  a ← rd addr 2; let v := u64 ((v .| a) .<< 8) in
  a ← rd addr 3; let v := u64 ((v .| a) .<< 8) in
  a ← rd addr 4; let v := u64 ((v .| a) .<< 8) in
  a ← rd addr 5; let v := u64 ((v .| a) .<< 8) in
  a ← rd addr 6; let v := u64 ((v .| a) .<< 8) in
  a ← rd addr 7; Some (v .| a).

Definition bfd_getl64 (addr : list Z) : option Z :=
  a ← rd addr 7; let v := u64 (a .<< 8) in
  a ← rd addr 6; let v := u64 ((v .| a) .<< 8) in
  a ← rd addr 5; let v := u64 ((v .| a) .<< 8) in
  a ← rd addr 4; let v := u64 ((v .| a) .<< 8) in
  a ← rd addr 3; let v := u64 ((v .| a) .<< 8) in
  a ← rd addr 2; let v := u64 ((v .| a) .<< 8) in
  a ← rd addr 1; let v := u64 ((v .| a) .<< 8) in
  a ← rd addr 0; Some (v .| a).

Definition bfd_getb_signed_64 (addr : list Z) : option Z :=
  a ← rd addr 0; let v := u64 (a .<< 8) in
  a ← rd addr 1; let v := u64 ((v .| a) .<< 8) in
  a ← rd addr 2; let v := u64 ((v .| a) .<< 8) in
  a ← rd addr 3; let v := u64 ((v .| a) .<< 8) in
  a ← rd addr 4; let v := u64 ((v .| a) .<< 8) in
  a ← rd addr 5; let v := u64 ((v .| a) .<< 8) in
  a ← rd addr 6; let v := u64 ((v .| a) .<< 8) in
  a ← rd addr 7; let v := v .| a in
  Some (COERCE64 v).

Definition bfd_getl_signed_64 (addr : list Z) : option Z :=
  a ← rd addr 7; let v := u64 (a .<< 8) in
  a ← rd addr 6; let v := u64 ((v .| a) .<< 8) in
  a ← rd addr 5; let v := u64 ((v .| a) .<< 8) in
  a ← rd addr 4; let v := u64 ((v .| a) .<< 8) in
  a ← rd addr 3; let v := u64 ((v .| a) .<< 8) in
  a ← rd addr 2; let v := u64 ((v .| a) .<< 8) in
  a ← rd addr 1; let v := u64 ((v .| a) .<< 8) in
  a ← rd addr 0; let v := v .| a in
  Some (COERCE64 v).

Definition bfd_putb32 (data : Z) (addr : list Z) : option (list Z) :=
  addr ← wr addr 0 ((data .>> 24) .& 0xff);
  addr ← wr addr 1 ((data .>> 16) .& 0xff);
  addr ← wr addr 2 ((data .>> 8) .& 0xff);
  wr addr 3 (data .& 0xff).

Definition bfd_putl32 (data : Z) (addr : list Z) : option (list Z) :=
  addr ← wr addr 0 (data .& 0xff);
  addr ← wr addr 1 ((data .>> 8) .& 0xff);
  addr ← wr addr 2 ((data .>> 16) .& 0xff);
  wr addr 3 ((data .>> 24) .& 0xff).

Definition bfd_putb64 (data : Z) (addr : list Z) : option (list Z) :=
  addr ← wr addr 0 ((data .>> (7*8)) .& 0xff);
  addr ← wr addr 1 ((data .>> (6*8)) .& 0xff);
  addr ← wr addr 2 ((data .>> (5*8)) .& 0xff);
  addr ← wr addr 3 ((data .>> (4*8)) .& 0xff);
  addr ← wr addr 4 ((data .>> (3*8)) .& 0xff);
  addr ← wr addr 5 ((data .>> (2*8)) .& 0xff);
  addr ← wr addr 6 ((data .>> (1*8)) .& 0xff);
  wr addr 7 ((data .>> (0*8)) .& 0xff).

Definition bfd_putl64 (data : Z) (addr : list Z) : option (list Z) :=
  addr ← wr addr 7 ((data .>> (7*8)) .& 0xff);
  addr ← wr addr 6 ((data .>> (6*8)) .& 0xff);
  addr ← wr addr 5 ((data .>> (5*8)) .& 0xff);
  addr ← wr addr 4 ((data .>> (4*8)) .& 0xff);
  addr ← wr addr 3 ((data .>> (3*8)) .& 0xff);
  addr ← wr addr 2 ((data .>> (2*8)) .& 0xff);
  addr ← wr addr 1 ((data .>> (1*8)) .& 0xff);
  wr addr 0 ((data .>> (0*8)) .& 0xff).

(** The loop of [bfd_put_bits], from index [i], [n] rounds to go. *)
Fixpoint put_bits_loop (big_p : bool) (bytes : nat) (n i : nat) (data : Z) (addr : list Z)
    : option (list Z) :=
  match n with
  | O => Some addr
  | S n =>
      let addr_index := (if big_p then bytes - i - 1 else i)%nat in
      addr ← wr addr addr_index (data .& 0xff);
      put_bits_loop big_p bytes n (i + 1) (data .>> 8) addr
  end.

Definition bfd_put_bits (data : Z) (addr : list Z) (bits : Z) (big_p : bool)
    : option (list Z) :=
  if negb (Z.rem bits 8 =? 0) then None
  else
    let bytes := Z.to_nat (Z.quot bits 8) in
    put_bits_loop big_p bytes bytes 0 data addr.

(** The loop of [bfd_get_bits]. *)
Fixpoint get_bits_loop (big_p : bool) (bytes : nat) (addr : list Z) (n i : nat) (data : Z)
    : option Z :=
  match n with
  | O => Some data
  | S n =>
      let addr_index := (if big_p then i else bytes - i - 1)%nat in
      a ← rd addr addr_index;
      get_bits_loop big_p bytes addr n (i + 1) (u64 (data .<< 8) .| a)
  end.

Definition bfd_get_bits (addr : list Z) (bits : Z) (big_p : bool) : option Z :=
  if negb (Z.rem bits 8 =? 0) then None
  else
    let bytes := Z.to_nat (Z.quot bits 8) in
    get_bits_loop big_p bytes addr bytes 0 0.

(** ** The specification: numbers as byte lists *)

Fixpoint le_bytes (n : nat) (v : Z) : list Z :=
  match n with
  | O => []
  | S n => u8 v :: le_bytes n (v / 256)
  end.

Fixpoint le_value (l : list Z) : Z :=
  match l with
  | [] => 0
  | b :: l => b + 256 * le_value l
  end.

Definition be_bytes (n : nat) (v : Z) : list Z := rev (le_bytes n v).
Definition be_value (l : list Z) : Z := le_value (rev l).

(** The first [n] bytes of a buffer, when it has them. *)
Definition prefix_bytes (n : nat) (buf : list Z) : option (list Z) :=
  if decide (n <= length buf)%nat then Some (take n buf) else None.

(** Overwriting them. *)
Definition put_prefix (bs buf : list Z) : option (list Z) :=
  if decide (length bs <= length buf)%nat then Some (bs ++ drop (length bs) buf) else None.

(** ** Lemmas on the specification *)

Lemma le_bytes_length n v : length (le_bytes n v) = n.
Proof. revert v. induction n; intros; simpl; auto. Qed.

Lemma le_bytes_ok n v : bytes_ok (le_bytes n v).
Proof. revert v. induction n; intros; simpl; constructor; [by apply wrap_fits|done]. Qed.

Lemma le_value_bytes n v : le_value (le_bytes n v) = wrap (8 * Z.of_nat n) v.
Proof.
  revert v. induction n as [|n IH]; intros v; cbn [le_bytes le_value].
  - unfold wrap. by rewrite Z.mod_1_r.
  - rewrite IH. unfold wrap. change 256 with (2 ^ 8).
    replace (8 * Z.of_nat (S n)) with (8 + 8 * Z.of_nat n) by lia.
    rewrite Z.pow_add_r, Z.rem_mul_r by lia. lia.
Qed.

Lemma le_value_range l : bytes_ok l -> fits (8 * Z.of_nat (length l)) (le_value l).
Proof.
  induction 1 as [|b l [Hb1 Hb2] _ [IH1 IH2]]; cbn [le_value length]; [unfold fits; simpl; lia|].
  replace (8 * Z.of_nat (S (length l))) with (8 + 8 * Z.of_nat (length l)) by lia.
  unfold fits in *. rewrite Z.pow_add_r by lia. lia.
Qed.

Lemma le_bytes_value l : bytes_ok l -> le_bytes (length l) (le_value l) = l.
Proof.
  induction 1 as [|b l Hb Hl IH]; cbn [le_value le_bytes length]; [done|].
  destruct Hb as [Hb1 Hb2]. change (2 ^ 8) with 256 in *. f_equal.
  - unfold wrap. change (2 ^ 8) with 256. rewrite Z.mul_comm, Z_mod_plus_full.
    apply Z.mod_small. lia.
  - replace ((b + 256 * le_value l) / 256) with (le_value l); [done|].
    rewrite (Z.mul_comm 256), Z_div_plus_full by lia. rewrite Z.div_small; lia.
Qed.

Lemma le_value_app l1 l2 :
  le_value (l1 ++ l2) = le_value l1 + 2 ^ (8 * Z.of_nat (length l1)) * le_value l2.
Proof.
  induction l1 as [|b l IH]; cbn [app le_value length]; [simpl; lia|].
  rewrite IH. replace (8 * Z.of_nat (S (length l))) with (8 + 8 * Z.of_nat (length l)) by lia.
  rewrite Z.pow_add_r by lia. lia.
Qed.

Lemma be_bytes_length n v : length (be_bytes n v) = n.
Proof. unfold be_bytes. by rewrite length_rev, le_bytes_length. Qed.

Lemma be_value_bytes n v : be_value (be_bytes n v) = wrap (8 * Z.of_nat n) v.
Proof. unfold be_value, be_bytes. rewrite rev_involutive. apply le_value_bytes. Qed.

Lemma be_bytes_value l : bytes_ok l -> be_bytes (length l) (be_value l) = l.
Proof.
  intros Hl. unfold be_value, be_bytes.
  rewrite <- (length_rev l), le_bytes_value; [apply rev_involutive|].
  by apply List.Forall_rev.
Qed.

Lemma prefix_of_put bs buf buf' :
  put_prefix bs buf = Some buf' -> prefix_bytes (length bs) buf' = Some bs.
Proof.
  unfold put_prefix, prefix_bytes. intros ?. case_decide; simplify_eq.
  rewrite decide_True by (rewrite length_app; lia). by rewrite take_app_length.
Qed.

Lemma put_prefix_inv bs buf buf' :
  put_prefix bs buf = Some buf' ->
  length buf' = length buf /\ drop (length bs) buf' = drop (length bs) buf.
Proof.
  unfold put_prefix. intros ?. case_decide; simplify_eq.
  rewrite length_app, length_drop, drop_app_length. split; [lia|done].
Qed.

Lemma put_of_prefix n bs buf : prefix_bytes n buf = Some bs -> put_prefix bs buf = Some buf.
Proof.
  unfold put_prefix, prefix_bytes. intros ?. case_decide; simplify_eq.
  rewrite length_take, decide_True by lia. rewrite Nat.min_l by lia. by rewrite take_drop.
Qed.

Lemma prefix_bytes_ok n buf bs :
  bytes_ok buf -> prefix_bytes n buf = Some bs -> bytes_ok bs /\ length bs = n.
Proof.
  unfold prefix_bytes. intros ? ?. case_decide; simplify_eq.
  split; [by apply Forall_take|]. rewrite length_take. lia.
Qed.

(** ** Lemmas on the routines *)

(** [lor] of numbers with disjoint bits, as the shift-and-or code has them. *)
Lemma lor_add a b w : 0 <= w -> a mod 2 ^ w = 0 -> fits w b -> a .| b = a + b.
Proof.
  intros Hw Ha Hb. pose proof (pow2_pos w Hw).
  assert (a = a / 2 ^ w * 2 ^ w) as Ha' by (rewrite (Z.div_mod a (2 ^ w)) at 1; lia).
  rewrite Ha' at 1. rewrite <- Z.shiftl_mul_pow2, lor_shift_add by done. lia.
Qed.

Lemma lor_8 a b : fits 8 b -> (a * 256) .| b = a * 256 + b.
Proof. intros. apply (lor_add _ _ 8); [lia| |done]. by rewrite Z.mod_mul. Qed.

(** The sign-extension macros are the two's complement reading. *)
Lemma coerce_sext w v :
  0 < w <= 64 -> fits w v -> sext 64 ((v .^ (2 ^ (w - 1))) - 2 ^ (w - 1)) = sext w v.
Proof.
  intros Hw Hv. unfold sext at 2. rewrite (wrap_small w v Hv).
  assert (2 ^ w = 2 * 2 ^ (w - 1)) as Hpow.
  { rewrite <- Z.pow_succ_r by lia. f_equal. lia. }
  assert (0 < 2 ^ (w - 1) <= 2 ^ 63) as Hle.
  { split; [apply pow2_pos; lia|]. apply Z.pow_le_mono_r; lia. }
  assert (forall x, - 2 ^ 63 <= x < 2 ^ 63 -> sext 64 x = x) as Hsext.
  { intros x Hx. unfold sext, wrap. change (64 - 1) with 63.
    change (2 ^ 64) with (2 * 2 ^ 63). generalize dependent (2 ^ 63). intros M ??.
    destruct (Z.lt_ge_cases x 0).
    - replace (x mod (2 * M)) with (x + 2 * M).
      { destruct (Z.ltb_spec (x + 2 * M) M); lia. }
      apply (Z.mod_unique _ _ (-1)); lia.
    - rewrite Z.mod_small by lia. destruct (Z.ltb_spec x M); lia. }
  assert (forall a, fits (w - 1) a -> (2 ^ (w - 1)) .| a = 2 ^ (w - 1) + a) as Hor.
  { intros a Ha. apply (lor_add _ _ (w - 1)); [lia| |done]. by apply Z_mod_same_full. }
  assert (forall a, fits (w - 1) a -> a .^ (2 ^ (w - 1)) = 2 ^ (w - 1) + a) as Hxor.
  { intros a Ha. rewrite Z.lxor_comm, <- Hor by done. apply Z.lxor_lor.
    apply Z.bits_inj'. intros i Hi. rewrite Z.land_spec, Z.bits_0, Z.pow2_bits_eqb by lia.
    destruct (Z.eqb_spec (w - 1) i) as [<-|]; [|done].
    rewrite <- (Z.mod_small a (2 ^ (w - 1))), Z.mod_pow2_bits_high by (done || lia). done. }
  destruct Hv as [Hv1 Hv2]. destruct (Z.ltb_spec v (2 ^ (w - 1))).
  - rewrite Hxor by done. rewrite Hsext by lia. lia.
  - assert (fits (w - 1) (v - 2 ^ (w - 1))) as Hf by (unfold fits; lia).
    replace v with (2 ^ (w - 1) + (v - 2 ^ (w - 1))) at 1 by lia.
    rewrite <- Hxor, Z.lxor_assoc, Z.lxor_nilpotent, Z.lxor_0_r by done.
    rewrite Hsext; lia.
Qed.

Lemma COERCE16_sext v : fits 16 v -> COERCE16 v = sext 16 v.
Proof. apply (coerce_sext 16). lia. Qed.
Lemma COERCE32_sext v : fits 32 v -> COERCE32 v = sext 32 v.
Proof. apply (coerce_sext 32). lia. Qed.
Lemma COERCE64_sext v : fits 64 v -> COERCE64 v = sext 64 v.
Proof. apply (coerce_sext 64). lia. Qed.

(** Splits a buffer into its first bytes; short buffers are closed by
    computation. *)
Ltac short_buf :=
  unfold prefix_bytes, put_prefix; rewrite ?be_bytes_length, ?le_bytes_length;
  rewrite decide_False by (simpl; lia); reflexivity.

Ltac destruct_bytes n buf :=
  lazymatch n with
  | O => idtac
  | S ?n =>
      let b := fresh "b" in let buf' := fresh "buf" in
      destruct buf as [|b buf'];
      [ short_buf
      | destruct_bytes n buf' ]
  end.

(** Evaluates shifts and ors of byte-sized pieces to sums, innermost first. *)
Ltac byte_sums :=
  rewrite ?Z.shiftl_mul_pow2 by lia;
  repeat match goal with
  | |- context [wrap ?w ?z] => rewrite (wrap_small w z) by (unfold fits; lia)
  | |- context [?a .| ?b] =>
      first [ rewrite (lor_add a b 8) by (unfold fits; divmod_lia)
            | rewrite (lor_add a b 16) by (unfold fits; divmod_lia)
            | rewrite (lor_add a b 24) by (unfold fits; divmod_lia)
            | rewrite (Z.lor_comm a b), (lor_add b a 8) by (unfold fits; divmod_lia)
            | rewrite (Z.lor_comm a b), (lor_add b a 16) by (unfold fits; divmod_lia)
            | rewrite (Z.lor_comm a b), (lor_add b a 24) by (unfold fits; divmod_lia) ]
  end.

Ltac solve_getter n Hok :=
  match type of Hok with bytes_ok ?buf => destruct_bytes n buf end;
  unfold prefix_bytes; rewrite decide_True by (simpl; lia);
  repeat match goal with H : bytes_ok (_ :: _) |- _ => apply Forall_cons in H as [[? ?] ?] end;
  cbn -[Z.mul Z.add Z.lor Z.shiftl wrap fits]; f_equal;
  unfold be_value; rewrite ?take_0; cbn [rev app le_value]; byte_sums; lia.

Section getters.
Context (buf : list Z) (Hok : bytes_ok buf).

Lemma bfd_getb16_spec : bfd_getb16 buf = be_value <$> prefix_bytes 2 buf.
Proof using Hok. unfold bfd_getb16. solve_getter 2%nat Hok. Qed.
Lemma bfd_getl16_spec : bfd_getl16 buf = le_value <$> prefix_bytes 2 buf.
Proof using Hok. unfold bfd_getl16. solve_getter 2%nat Hok. Qed.
Lemma bfd_getb24_spec : bfd_getb24 buf = be_value <$> prefix_bytes 3 buf.
Proof using Hok. unfold bfd_getb24. solve_getter 3%nat Hok. Qed.
Lemma bfd_getl24_spec : bfd_getl24 buf = le_value <$> prefix_bytes 3 buf.
Proof using Hok. unfold bfd_getl24. solve_getter 3%nat Hok. Qed.
Lemma bfd_getb32_spec : bfd_getb32 buf = be_value <$> prefix_bytes 4 buf.
Proof using Hok. unfold bfd_getb32. solve_getter 4%nat Hok. Qed.
Lemma bfd_getl32_spec : bfd_getl32 buf = le_value <$> prefix_bytes 4 buf.
Proof using Hok. unfold bfd_getl32. solve_getter 4%nat Hok. Qed.
Lemma bfd_getb64_spec : bfd_getb64 buf = be_value <$> prefix_bytes 8 buf.
Proof using Hok. unfold bfd_getb64. solve_getter 8%nat Hok. Qed.
Lemma bfd_getl64_spec : bfd_getl64 buf = le_value <$> prefix_bytes 8 buf.
Proof using Hok. unfold bfd_getl64. solve_getter 8%nat Hok. Qed.

End getters.

(** The two readings of a value that fits. *)
Lemma sext_fmap (C : Z -> Z) w (val : list Z -> Z) n buf o :
  (forall v, fits w v -> C v = sext w v) ->
  (forall l, bytes_ok l -> length l = n -> fits w (val l)) ->
  bytes_ok buf -> o = val <$> prefix_bytes n buf ->
  C <$> o = (fun l => sext w (val l)) <$> prefix_bytes n buf.
Proof.
  intros HC Hval Hok ->. destruct (prefix_bytes n buf) as [bs|] eqn:Hbs; [|done].
  destruct (prefix_bytes_ok n buf bs Hok Hbs). simpl. f_equal. by apply HC, Hval.
Qed.

Lemma le_value_fits w n l :
  w = 8 * Z.of_nat n -> bytes_ok l -> length l = n -> fits w (le_value l).
Proof. intros -> Hl <-. by apply le_value_range. Qed.

Lemma be_value_fits w n l :
  w = 8 * Z.of_nat n -> bytes_ok l -> length l = n -> fits w (be_value l).
Proof.
  intros -> Hl <-. unfold be_value. rewrite <- length_rev.
  by apply le_value_range, List.Forall_rev.
Qed.

(** The signed reader is the macro applied to the unsigned reader's value. *)
Ltac signed_of_unsigned :=
  repeat match goal with |- context [rd ?b ?i ≫= _] => destruct (rd b i); simpl; [|done] end; done.

Lemma bfd_getb_signed_16_eq buf : bfd_getb_signed_16 buf = COERCE16 <$> bfd_getb16 buf.
Proof. unfold bfd_getb_signed_16, bfd_getb16. signed_of_unsigned. Qed.
Lemma bfd_getl_signed_16_eq buf : bfd_getl_signed_16 buf = COERCE16 <$> bfd_getl16 buf.
Proof. unfold bfd_getl_signed_16, bfd_getl16. signed_of_unsigned. Qed.
Lemma bfd_getb_signed_32_eq buf : bfd_getb_signed_32 buf = COERCE32 <$> bfd_getb32 buf.
Proof. unfold bfd_getb_signed_32, bfd_getb32. signed_of_unsigned. Qed.
Lemma bfd_getl_signed_32_eq buf : bfd_getl_signed_32 buf = COERCE32 <$> bfd_getl32 buf.
Proof. unfold bfd_getl_signed_32, bfd_getl32. signed_of_unsigned. Qed.
Lemma bfd_getb_signed_64_eq buf : bfd_getb_signed_64 buf = COERCE64 <$> bfd_getb64 buf.
Proof. unfold bfd_getb_signed_64, bfd_getb64. signed_of_unsigned. Qed.
Lemma bfd_getl_signed_64_eq buf : bfd_getl_signed_64 buf = COERCE64 <$> bfd_getl64 buf.
Proof. unfold bfd_getl_signed_64, bfd_getl64. signed_of_unsigned. Qed.

(** *** Writers *)

Lemma byte_of_shift data n : 0 <= n -> (data .>> n) .& 255 = u8 (data / 2 ^ n).
Proof. intros. by rewrite land_255, Z.shiftr_div_pow2. Qed.

Ltac solve_putter n buf :=
  destruct_bytes n buf; unfold put_prefix;
  rewrite decide_True by (rewrite ?be_bytes_length, ?le_bytes_length; simpl; lia);
  unfold be_bytes; cbn -[Z.land Z.shiftr wrap Z.div Z.mul];
  rewrite ?byte_of_shift, ?land_255, ?Z.div_div by lia;
  rewrite ?drop_0; change (2 ^ (0 * 8)) with 1; rewrite ?Z.div_1_r; reflexivity.

Section putters.
Context (data : Z) (buf : list Z).

Lemma bfd_putb16_spec : bfd_putb16 data buf = put_prefix (be_bytes 2 data) buf.
Proof using Type. unfold bfd_putb16. solve_putter 2%nat buf. Qed.
Lemma bfd_putl16_spec : bfd_putl16 data buf = put_prefix (le_bytes 2 data) buf.
Proof using Type. unfold bfd_putl16. solve_putter 2%nat buf. Qed.
Lemma bfd_putb24_spec : bfd_putb24 data buf = put_prefix (be_bytes 3 data) buf.
Proof using Type. unfold bfd_putb24. solve_putter 3%nat buf. Qed.
Lemma bfd_putl24_spec : bfd_putl24 data buf = put_prefix (le_bytes 3 data) buf.
Proof using Type. unfold bfd_putl24. solve_putter 3%nat buf. Qed.
Lemma bfd_putb32_spec : bfd_putb32 data buf = put_prefix (be_bytes 4 data) buf.
Proof using Type. unfold bfd_putb32. solve_putter 4%nat buf. Qed.
Lemma bfd_putl32_spec : bfd_putl32 data buf = put_prefix (le_bytes 4 data) buf.
Proof using Type. unfold bfd_putl32. solve_putter 4%nat buf. Qed.
Lemma bfd_putb64_spec : bfd_putb64 data buf = put_prefix (be_bytes 8 data) buf.
Proof using Type. unfold bfd_putb64. solve_putter 8%nat buf. Qed.
Lemma bfd_putl64_spec : bfd_putl64 data buf = put_prefix (le_bytes 8 data) buf.
Proof using Type. unfold bfd_putl64. solve_putter 8%nat buf. Qed.

End putters.

(** *** Any width *)

Lemma be_value_cons b l : be_value (b :: l) = b * 2 ^ (8 * Z.of_nat (length l)) + be_value l.
Proof.
  unfold be_value. cbn [rev]. rewrite le_value_app, length_rev. cbn [le_value]. lia.
Qed.

Lemma pow_8_S n : 2 ^ (8 * Z.of_nat (S n)) = 256 * 2 ^ (8 * Z.of_nat n).
Proof. replace (8 * Z.of_nat (S n)) with (8 + 8 * Z.of_nat n) by lia. by rewrite Z.pow_add_r by lia. Qed.

(** One round of the reading loop, on 64-bit data. *)
Lemma get_round data a : is_byte a -> u64 (data .<< 8) .| a = u64 (data * 256 + a).
Proof.
  intros Ha. rewrite Z.shiftl_mul_pow2 by lia. change (2 ^ 8) with 256.
  pose proof (Z.mod_pos_bound (data * 256) (2 ^ 64) ltac:(lia)).
  rewrite (lor_add _ _ 8); [|lia| |done].
  - unfold wrap, fits in *. divmod_lia.
  - unfold wrap. divmod_lia.
Qed.

Lemma wrap_mul_add_l data k x : u64 (u64 data * k + x) = u64 (data * k + x).
Proof. unfold wrap. by rewrite <- Zplus_mod_idemp_l, Zmult_mod_idemp_l, Zplus_mod_idemp_l. Qed.

Lemma get_bits_loop_big bytes addr n i data :
  bytes_ok addr -> fits 64 data -> (n + i = bytes)%nat -> (bytes <= length addr)%nat ->
  get_bits_loop true bytes addr n i data =
  Some (u64 (data * 2 ^ (8 * Z.of_nat n) + be_value (take n (drop i addr)))).
Proof.
  intros Hok. revert i data. induction n as [|n IH]; intros i data Hd Hn Hlen.
  - cbn. f_equal. rewrite Z.mul_1_r, Z.add_0_r. by rewrite wrap_small.
  - cbn [get_bits_loop]. unfold rd.
    destruct (lookup_lt_is_Some_2 addr i ltac:(lia)) as [a Ha]. rewrite Ha. cbn [mbind option_bind].
    pose proof (Forall_lookup_1 _ _ _ _ Hok Ha) as Hb.
    rewrite get_round by done. rewrite IH by (lia || by apply wrap_fits).
    rewrite (drop_S _ _ _ Ha). cbn [take]. rewrite be_value_cons, length_take, length_drop.
    rewrite wrap_mul_add_l, pow_8_S. rewrite Nat.min_l, Nat.add_1_r by lia. f_equal. f_equal. lia.
Qed.

Lemma get_bits_loop_little bytes addr n i data :
  bytes_ok addr -> fits 64 data -> (n + i = bytes)%nat -> (n <= length addr)%nat ->
  get_bits_loop false bytes addr n i data =
  Some (u64 (data * 2 ^ (8 * Z.of_nat n) + le_value (take n addr))).
Proof.
  intros Hok. revert i data. induction n as [|n IH]; intros i data Hd Hn Hlen.
  - cbn. f_equal. rewrite Z.mul_1_r, Z.add_0_r. by rewrite wrap_small.
  - cbn [get_bits_loop]. unfold rd. replace (bytes - i - 1)%nat with n by lia.
    destruct (lookup_lt_is_Some_2 addr n ltac:(lia)) as [a Ha]. rewrite Ha. cbn [mbind option_bind].
    pose proof (Forall_lookup_1 _ _ _ _ Hok Ha) as Hb.
    rewrite get_round by done. rewrite IH by (lia || by apply wrap_fits).
    rewrite (take_S_r _ _ _ Ha), le_value_app, length_take, wrap_mul_add_l, pow_8_S.
    rewrite Nat.min_l by lia. cbn [le_value]. f_equal. f_equal. lia.
Qed.

Lemma get_bits_loop_short (big_p : bool) bytes (addr : list Z) n i data :
  (n + i = bytes)%nat -> (if big_p then length addr < bytes else length addr < n)%nat ->
  (0 < n)%nat -> get_bits_loop big_p bytes addr n i data = None.
Proof.
  revert i data. induction n as [|n IH]; intros i data Hn Hlen Hpos; [lia|].
  cbn [get_bits_loop]. unfold rd. destruct (addr !! _) as [a|] eqn:Ha; [|done].
  cbn. apply lookup_lt_Some in Ha. destruct n as [|n].
  - destruct big_p; lia.
  - apply IH; [lia| |lia]. destruct big_p; lia.
Qed.

Lemma put_bits_loop_little bytes n i data (addr : list Z) :
  (n + i = bytes)%nat -> (bytes <= length addr)%nat ->
  put_bits_loop false bytes n i data addr =
  Some (take i addr ++ le_bytes n data ++ drop bytes addr).
Proof.
  revert i data addr. induction n as [|n IH]; intros i data addr Hn Hlen.
  - cbn. simpl in Hn. subst. by rewrite take_drop.
  - cbn [put_bits_loop]. unfold wr. rewrite decide_True by lia. cbn [mbind option_bind].
    rewrite IH by (rewrite ?length_insert; lia).
    rewrite land_255, Z.shiftr_div_pow2 by lia. cbn [le_bytes].
    rewrite drop_insert_lt by lia. rewrite Nat.add_1_r.
    rewrite (take_S_r _ _ (u8 data)) by (apply list_lookup_insert_eq; lia).
    rewrite take_insert_ge by lia. by rewrite <- app_assoc.
Qed.

Lemma put_bits_loop_big bytes n i data (addr : list Z) :
  (n + i = bytes)%nat -> (n <= length addr)%nat ->
  put_bits_loop true bytes n i data addr = Some (be_bytes n data ++ drop n addr).
Proof.
  revert i data addr. induction n as [|n IH]; intros i data addr Hn Hlen.
  - done.
  - cbn [put_bits_loop]. unfold wr. replace (bytes - i - 1)%nat with n by lia.
    rewrite decide_True by lia. cbn [mbind option_bind].
    rewrite IH by (rewrite ?length_insert; lia).
    rewrite land_255, Z.shiftr_div_pow2 by lia. unfold be_bytes. cbn [le_bytes rev].
    rewrite (drop_S _ (u8 data)) by (apply list_lookup_insert_eq; lia).
    rewrite drop_insert_lt by lia. by rewrite <- app_assoc.
Qed.

Lemma put_bits_loop_short (big_p : bool) bytes n i data (addr : list Z) :
  (n + i = bytes)%nat -> (if big_p then length addr < n else length addr < bytes)%nat ->
  (0 < n)%nat -> put_bits_loop big_p bytes n i data addr = None.
Proof.
  revert i data addr. induction n as [|n IH]; intros i data addr Hn Hlen Hpos; [lia|].
  cbn [put_bits_loop]. unfold wr. case_decide as Hi; [|done]. cbn.
  destruct n as [|n].
  - destruct big_p; lia.
  - apply IH; rewrite ?length_insert; [lia| |lia]. destruct big_p; lia.
Qed.

(** Byte order as a parameter. *)
Definition order_bytes (big_p : bool) (n : nat) (v : Z) : list Z :=
  if big_p then be_bytes n v else le_bytes n v.
Definition order_value (big_p : bool) (l : list Z) : Z :=
  if big_p then be_value l else le_value l.

Lemma order_bytes_length big_p n v : length (order_bytes big_p n v) = n.
Proof. destruct big_p; [apply be_bytes_length|apply le_bytes_length]. Qed.

Lemma order_value_bytes big_p n v :
  order_value big_p (order_bytes big_p n v) = wrap (8 * Z.of_nat n) v.
Proof. destruct big_p; [apply be_value_bytes|apply le_value_bytes]. Qed.

Lemma order_bytes_value big_p l :
  bytes_ok l -> order_bytes big_p (length l) (order_value big_p l) = l.
Proof. destruct big_p; [apply be_bytes_value|apply le_bytes_value]. Qed.

Lemma bits_bytes bits : 0 <= bits -> Z.rem bits 8 = bits mod 8 /\ Z.quot bits 8 = bits / 8.
Proof. intros. split; [apply Z.rem_mod_nonneg|apply Z.quot_div_nonneg]; lia. Qed.

Lemma bfd_get_bits_spec addr n big_p :
  bytes_ok addr ->
  bfd_get_bits addr (8 * Z.of_nat n) big_p =
  (fun l => u64 (order_value big_p l)) <$> prefix_bytes n addr.
Proof.
  intros Hok. unfold bfd_get_bits. destruct (bits_bytes (8 * Z.of_nat n)) as [-> ->]; [lia|].
  rewrite Z.mul_comm, Z_mod_mult, Z_div_mult, Nat2Z.id by lia. cbn [Z.eqb negb].
  unfold prefix_bytes. case_decide.
  - destruct big_p; [rewrite get_bits_loop_big by (done || lia)|
                     rewrite get_bits_loop_little by (done || lia)]; cbn [fmap option_fmap option_map order_value];
      by rewrite Z.mul_0_l, Z.add_0_l.
  - apply get_bits_loop_short; [lia| |lia]. destruct big_p; lia.
Qed.

Lemma bfd_put_bits_spec data addr n big_p :
  bfd_put_bits data addr (8 * Z.of_nat n) big_p = put_prefix (order_bytes big_p n data) addr.
Proof.
  unfold bfd_put_bits. destruct (bits_bytes (8 * Z.of_nat n)) as [-> ->]; [lia|].
  rewrite Z.mul_comm, Z_mod_mult, Z_div_mult, Nat2Z.id by lia. cbn [Z.eqb negb].
  unfold put_prefix. rewrite order_bytes_length. case_decide.
  - destruct big_p; [by rewrite put_bits_loop_big by lia|by rewrite put_bits_loop_little by lia].
  - apply put_bits_loop_short; [lia| |lia]. destruct big_p; lia.
Qed.

(** The reader and the writer of each width and order. *)
Record codec := mkCodec {
  codec_bytes : nat;
  codec_big : bool;
  codec_get : list Z -> option Z;
  codec_put : Z -> list Z -> option (list Z)
}.

Definition codecs : list codec :=
  [ mkCodec 2 true bfd_getb16 bfd_putb16; mkCodec 2 false bfd_getl16 bfd_putl16;
    mkCodec 3 true bfd_getb24 bfd_putb24; mkCodec 3 false bfd_getl24 bfd_putl24;
    mkCodec 4 true bfd_getb32 bfd_putb32; mkCodec 4 false bfd_getl32 bfd_putl32;
    mkCodec 8 true bfd_getb64 bfd_putb64; mkCodec 8 false bfd_getl64 bfd_putl64 ].

Definition codec_ok (c : codec) : Prop :=
  (codec_bytes c <= 8)%nat /\
  (forall buf, bytes_ok buf ->
     codec_get c buf = order_value (codec_big c) <$> prefix_bytes (codec_bytes c) buf) /\
  (forall data buf,
     codec_put c data buf = put_prefix (order_bytes (codec_big c) (codec_bytes c) data) buf).

Lemma codecs_ok : Forall codec_ok codecs.
Proof.
  repeat apply Forall_cons_2; [..|apply Forall_nil_2];
    (split; [cbn; lia|split; cbn [codec_get codec_put codec_big codec_bytes]; intros]).
  all: first
    [ by apply bfd_getb16_spec | by apply bfd_getl16_spec | by apply bfd_getb24_spec
    | by apply bfd_getl24_spec | by apply bfd_getb32_spec | by apply bfd_getl32_spec
    | by apply bfd_getb64_spec | by apply bfd_getl64_spec
    | apply bfd_putb16_spec | apply bfd_putl16_spec | apply bfd_putb24_spec
    | apply bfd_putl24_spec | apply bfd_putb32_spec | apply bfd_putl32_spec
    | apply bfd_putb64_spec | apply bfd_putl64_spec ].
Qed.

(** ** Properties *)

(** Every reader returns the number its bytes spell in its byte
    order, two's complement for the signed ones, and reads nothing when the
    buffer is too short. *)
Theorem endian_get_correct buf :
  bytes_ok buf ->
  bfd_getb16 buf = be_value <$> prefix_bytes 2 buf /\
  bfd_getl16 buf = le_value <$> prefix_bytes 2 buf /\
  bfd_getb24 buf = be_value <$> prefix_bytes 3 buf /\
  bfd_getl24 buf = le_value <$> prefix_bytes 3 buf /\
  bfd_getb32 buf = be_value <$> prefix_bytes 4 buf /\
  bfd_getl32 buf = le_value <$> prefix_bytes 4 buf /\
  bfd_getb64 buf = be_value <$> prefix_bytes 8 buf /\
  bfd_getl64 buf = le_value <$> prefix_bytes 8 buf /\
  bfd_getb_signed_16 buf = (fun l => sext 16 (be_value l)) <$> prefix_bytes 2 buf /\
  bfd_getl_signed_16 buf = (fun l => sext 16 (le_value l)) <$> prefix_bytes 2 buf /\
  bfd_getb_signed_32 buf = (fun l => sext 32 (be_value l)) <$> prefix_bytes 4 buf /\
  bfd_getl_signed_32 buf = (fun l => sext 32 (le_value l)) <$> prefix_bytes 4 buf /\
  bfd_getb_signed_64 buf = (fun l => sext 64 (be_value l)) <$> prefix_bytes 8 buf /\
  bfd_getl_signed_64 buf = (fun l => sext 64 (le_value l)) <$> prefix_bytes 8 buf.
Proof.
  intros Hok.
  rewrite bfd_getb_signed_16_eq, bfd_getl_signed_16_eq, bfd_getb_signed_32_eq,
    bfd_getl_signed_32_eq, bfd_getb_signed_64_eq, bfd_getl_signed_64_eq.
  split_and!;
    [ by apply bfd_getb16_spec | by apply bfd_getl16_spec | by apply bfd_getb24_spec
    | by apply bfd_getl24_spec | by apply bfd_getb32_spec | by apply bfd_getl32_spec
    | by apply bfd_getb64_spec | by apply bfd_getl64_spec
    | eapply (sext_fmap _ 16); [apply COERCE16_sext| |done|by apply bfd_getb16_spec]
    | eapply (sext_fmap _ 16); [apply COERCE16_sext| |done|by apply bfd_getl16_spec]
    | eapply (sext_fmap _ 32); [apply COERCE32_sext| |done|by apply bfd_getb32_spec]
    | eapply (sext_fmap _ 32); [apply COERCE32_sext| |done|by apply bfd_getl32_spec]
    | eapply (sext_fmap _ 64); [apply COERCE64_sext| |done|by apply bfd_getb64_spec]
    | eapply (sext_fmap _ 64); [apply COERCE64_sext| |done|by apply bfd_getl64_spec] ].
  all: intros l Hl Hn; first [eapply be_value_fits | eapply le_value_fits]; [|done|exact Hn]; done.
Qed.

Lemma endian_get_correct_witness :
  bfd_getb_signed_16 [0xff; 0xfe; 7] = Some (-2) /\ bfd_getl32 [1; 2; 3; 4; 5] = Some 0x04030201.
Proof.
  destruct (endian_get_correct [0xff; 0xfe; 7]) as (_ & _ & _ & _ & _ & _ & _ & _ & H & _).
  { repeat constructor; vm_compute; congruence. }
  destruct (endian_get_correct [1; 2; 3; 4; 5]) as (_ & _ & _ & _ & _ & H' & _).
  { repeat constructor; vm_compute; congruence. }
  rewrite H, H'. split; reflexivity.
Defined.

(** C31: for each of the eight pairs, writing fails exactly on a short
    buffer; what is written reads back as the number modulo its width, with
    the rest of the buffer untouched; and writing back what was read leaves
    the buffer as it was. *)
Theorem endian_roundtrip c data buf :
  c ∈ codecs -> bytes_ok buf ->
  let n := codec_bytes c in
  (codec_put c data buf = None <-> (length buf < n)%nat) /\
  (forall buf', codec_put c data buf = Some buf' ->
     bytes_ok buf' /\ length buf' = length buf /\ drop n buf' = drop n buf /\
     codec_get c buf' = Some (wrap (8 * Z.of_nat n) data)) /\
  (forall v, codec_get c buf = Some v -> codec_put c v buf = Some buf).
Proof.
  intros Hc Hok n. pose proof codecs_ok as Hall. rewrite Forall_forall in Hall.
  destruct (Hall c Hc) as (_ & Hget & Hput). fold n in Hget, Hput.
  pose proof (order_bytes_length (codec_big c) n data) as Hlen. split_and!.
  - rewrite Hput. unfold put_prefix. rewrite Hlen. case_decide; split; (lia || done).
  - intros buf' Hbuf'. rewrite Hput in Hbuf'.
    destruct (put_prefix_inv _ _ _ Hbuf') as [H1 H2]. rewrite Hlen in H2.
    assert (bytes_ok buf') as Hok'.
    { unfold put_prefix in Hbuf'. case_decide; simplify_eq. apply Forall_app. split.
      - unfold order_bytes, be_bytes. destruct (codec_big c); [apply List.Forall_rev|]; apply le_bytes_ok.
      - by apply Forall_drop. }
    split_and!; [done..|]. rewrite Hget by done.
    apply prefix_of_put in Hbuf'. rewrite Hlen in Hbuf'. rewrite Hbuf'. simpl.
    f_equal. apply order_value_bytes.
  - intros v. rewrite Hget by done. destruct (prefix_bytes n buf) as [bs|] eqn:Hbs; [|done].
    intros [= <-]. rewrite Hput. destruct (prefix_bytes_ok n buf bs Hok Hbs) as [Hbok <-].
    rewrite order_bytes_value by done. by eapply put_of_prefix.
Qed.

Lemma endian_roundtrip_witness :
  bfd_putb24 0x12345678 [1; 2; 3; 4] = Some [0x34; 0x56; 0x78; 4] /\
  bfd_getb24 [0x34; 0x56; 0x78; 4] = Some 0x345678.
Proof.
  split; [reflexivity|].
  destruct (endian_roundtrip (mkCodec 3 true bfd_getb24 bfd_putb24) 0x12345678 [1; 2; 3; 4])
    as (_ & H & _).
  - set_solver.
  - repeat constructor; vm_compute; congruence.
  - apply (H [0x34; 0x56; 0x78; 4]). reflexivity.
Defined.

(** The routines of any width abort unless the width is a multiple
    of eight; at a width of [n] bytes they read and write those bytes in the
    order asked for, keeping 64 bits of a wider number, and at the fixed
    widths they are the fixed-width routines. *)
Theorem endian_bits_correct bits n buf data big_p :
  bytes_ok buf ->
  (Z.rem bits 8 <> 0 -> bfd_get_bits buf bits big_p = None /\ bfd_put_bits data buf bits big_p = None) /\
  bfd_get_bits buf (8 * Z.of_nat n) big_p =
    (fun l => u64 (order_value big_p l)) <$> prefix_bytes n buf /\
  bfd_put_bits data buf (8 * Z.of_nat n) big_p = put_prefix (order_bytes big_p n data) buf /\
  Forall (fun c =>
    bfd_get_bits buf (8 * Z.of_nat (codec_bytes c)) (codec_big c) = codec_get c buf /\
    bfd_put_bits data buf (8 * Z.of_nat (codec_bytes c)) (codec_big c) = codec_put c data buf) codecs.
Proof.
  intros Hok. split_and!.
  - intros Hb. unfold bfd_get_bits, bfd_put_bits. apply Z.eqb_neq in Hb. by rewrite Hb.
  - by apply bfd_get_bits_spec.
  - apply bfd_put_bits_spec.
  - eapply Forall_impl; [exact codecs_ok|]. intros c (Hn & Hget & Hput).
    rewrite bfd_get_bits_spec, bfd_put_bits_spec, Hget, Hput by done. split; [|done].
    destruct (prefix_bytes _ buf) as [l|] eqn:Hl; [|done]. simpl. f_equal.
    destruct (prefix_bytes_ok _ _ _ Hok Hl) as [Hlok Hlen]. apply wrap_small.
    assert (fits (8 * Z.of_nat (length l)) (order_value (codec_big c) l)) as [H1 H2].
    { destruct (codec_big c); [by eapply be_value_fits|by apply le_value_range]. }
    split; [done|]. eapply Z.lt_le_trans; [exact H2|]. apply Z.pow_le_mono_r; lia.
Qed.

Lemma endian_bits_correct_witness :
  bfd_put_bits 0xabcdef [0; 0; 0; 9] 24 true = Some [0xab; 0xcd; 0xef; 9] /\
  bfd_get_bits [0xab; 0xcd; 0xef; 9] 12 true = None.
Proof.
  destruct (endian_bits_correct 12 3 [0; 0; 0; 9] 0xabcdef true) as (_ & _ & H & _).
  { repeat constructor; vm_compute; congruence. }
  destruct (endian_bits_correct 12 3 [0xab; 0xcd; 0xef; 9] 0 true) as (H' & _ & _ & _).
  { repeat constructor; vm_compute; congruence. }
  split; [exact H|]. apply H'. vm_compute. congruence.
Defined.
