(* ===== verification/Bits.v ===== *)
(** * Bits of machine words

    Equalities of masked and shifted numbers bit by bit: the bits of every
    operation as a boolean expression over positions, and a tactic that splits
    on the positions. The two's complement reading of a field. *)

From S2P Require Import Prelude.

(** ** Bits of the operations, at any position *)

Section Bits.
Implicit Types a b i j n w : Z.

Lemma testbit_wrap w a i : 0 <= w -> Z.testbit (wrap w a) i = (i <? w) && Z.testbit a i.
Proof.
  intros Hw. unfold wrap. destruct (Z.ltb_spec i w).
  - destruct (Z.lt_ge_cases i 0); [by rewrite !Z.testbit_neg_r by done|].
    by rewrite Z.mod_pow2_bits_low.
  - by rewrite Z.mod_pow2_bits_high by lia.
Qed.

Lemma testbit_ones n i : 0 <= n -> Z.testbit (Z.ones n) i = (0 <=? i) && (i <? n).
Proof.
  intros Hn. destruct (Z.leb_spec 0 i); [|by rewrite Z.testbit_neg_r].
  by rewrite Z.testbit_ones_nonneg.
Qed.

Lemma testbit_lnot a i : Z.testbit (Z.lnot a) i = (0 <=? i) && negb (Z.testbit a i).
Proof.
  destruct (Z.leb_spec 0 i); [by rewrite Z.lnot_spec|by rewrite Z.testbit_neg_r].
Qed.

Lemma testbit_shl a n i : Z.testbit (a .<< n) i = (0 <=? i) && Z.testbit a (i - n).
Proof.
  destruct (Z.leb_spec 0 i); [by rewrite Z.shiftl_spec|by rewrite Z.testbit_neg_r].
Qed.

Lemma testbit_shr a n i : Z.testbit (a .>> n) i = (0 <=? i) && Z.testbit a (i + n).
Proof.
  destruct (Z.leb_spec 0 i); [by rewrite Z.shiftr_spec|by rewrite Z.testbit_neg_r].
Qed.

Lemma testbit_fits w a i : fits w a -> w <= i -> Z.testbit a i = false.
Proof.
  intros Ha Hi. rewrite <- (wrap_small w a Ha), testbit_wrap.
  - by rewrite (proj2 (Z.ltb_ge i w)).
  - destruct (Z.lt_ge_cases w 0); [|done]. destruct Ha. rewrite Z.pow_neg_r in * by done. lia.
Qed.

(** The bits above a signed range are its sign. *)
Lemma testbit_sign k a i :
  0 <= k -> - 2 ^ k <= a < 2 ^ k -> k <= i -> Z.testbit a i = (a <? 0).
Proof.
  intros Hk [Ha1 Ha2] Hi. pose proof (Z.pow_le_mono_r 2 k i ltac:(lia) Hi) as Hle.
  rewrite Z.testbit_odd, Z.shiftr_div_pow2 by lia. destruct (Z.ltb_spec a 0).
  - replace (a / 2 ^ i) with (-1); [done|]. apply (Z.div_unique _ _ _ (a + 2 ^ i)); lia.
  - by rewrite Z.div_small by lia.
Qed.

Lemma wrap_sub_l w a b : wrap w (wrap w a - b) = wrap w (a - b).
Proof. apply Zminus_mod_idemp_l. Qed.

Lemma wrap_sub_wrap w a b : wrap w (wrap w a - wrap w b) = wrap w (a - b).
Proof. unfold wrap. by rewrite Zminus_mod_idemp_r, Zminus_mod_idemp_l. Qed.

(** ** Two's complement *)

Lemma wrap_sext w a : 0 <= w -> wrap w (sext w a) = wrap w a.
Proof. apply sext_wrap. Qed.

Lemma testbit_sext w a i : 0 < w -> i < w -> Z.testbit (sext w a) i = Z.testbit a i.
Proof.
  intros Hw Hi. pose proof (f_equal (fun z => Z.testbit z i) (sext_wrap w a ltac:(lia))) as H.
  cbn in H. rewrite !testbit_wrap in H by lia. by rewrite (proj2 (Z.ltb_lt i w) Hi) in H.
Qed.

Lemma pow2_split k : 0 < k -> 2 ^ k = 2 * 2 ^ (k - 1).
Proof. intros. rewrite <- Z.pow_succ_r by lia. f_equal. lia. Qed.

(** A reading of [n] bits lies in a signed range of [k + 1] bits exactly when
    the bits from [k] on are equal. *)
Lemma sext_in_range n k a :
  0 < n -> 0 <= k -> fits n a ->
  (- 2 ^ k <= sext n a < 2 ^ k) <-> (a < 2 ^ k \/ 2 ^ n - 2 ^ k <= a).
Proof.
  intros Hn Hk [Ha1 Ha2]. unfold sext. rewrite wrap_small by done.
  pose proof (pow2_split n Hn) as Hp. pose proof (pow2_pos k Hk).
  destruct (Z.lt_ge_cases k n) as [Hkn|Hkn].
  - pose proof (Z.pow_le_mono_r 2 k (n - 1) ltac:(lia) ltac:(lia)) as Hle.
    destruct (Z.ltb_spec a (2 ^ (n - 1))); lia.
  - pose proof (Z.pow_le_mono_r 2 n k ltac:(lia) ltac:(lia)) as Hle.
    destruct (Z.ltb_spec a (2 ^ (n - 1))); lia.
Qed.

Lemma sext_id w a : 0 < w -> - 2 ^ (w - 1) <= a < 2 ^ (w - 1) -> sext w (wrap w a) = a.
Proof.
  intros Hw Ha. unfold sext. rewrite wrap_idemp by lia. pose proof (pow2_split w Hw) as Hp.
  unfold wrap. destruct (Z.lt_ge_cases a 0).
  - replace (a mod 2 ^ w) with (a + 2 ^ w) by (apply (Z.mod_unique _ _ (-1)); lia).
    destruct (Z.ltb_spec (a + 2 ^ w) (2 ^ (w - 1))); lia.
  - rewrite Z.mod_small by lia. destruct (Z.ltb_spec a (2 ^ (w - 1))); lia.
Qed.

Lemma sext_0 w : 0 < w -> sext w 0 = 0.
Proof.
  intros Hw. pose proof (pow2_pos (w - 1) ltac:(lia)).
  rewrite <- (sext_id w 0) at 2 by lia. unfold sext. by rewrite wrap_idemp by lia.
Qed.

End Bits.

(** ** Proof by bits *)

Ltac bit_specs :=
  repeat first
    [ rewrite Z.land_spec | rewrite Z.lor_spec | rewrite Z.lxor_spec
    | rewrite Z.bits_0 | rewrite testbit_shl | rewrite testbit_shr | rewrite testbit_lnot
    | rewrite testbit_wrap by lia | rewrite testbit_ones by lia ].

Ltac bit_cases :=
  repeat match goal with
  | |- context [?a <? ?b] => destruct (Z.ltb_spec a b)
  | |- context [?a <=? ?b] => destruct (Z.leb_spec a b)
  end;
  cbn [andb orb negb xorb]; try lia;
  rewrite ?andb_true_r, ?andb_false_r, ?orb_false_r, ?orb_true_r;
  try reflexivity; try (f_equal; lia).

Ltac bitwise i :=
  apply Z.bits_inj'; intros i ?; bit_specs.

(** The low bits of a longer word. *)
Lemma wrap_wrap_le n w a : 0 <= n <= w -> wrap n (wrap w a) = wrap n a.
Proof. intros Hn. bitwise i. bit_cases. Qed.

(** Clearing the low bits. *)
Lemma land_not_ones w k a :
  0 <= k <= w -> fits w a -> a .& wrap w (Z.lnot (Z.ones k)) = a - wrap k a.
Proof.
  intros Hk Ha. transitivity ((a .>> k) .<< k).
  - bitwise i. destruct (Z.ltb_spec i w).
    + bit_cases.
    + rewrite (testbit_fits w a i Ha) by lia. cbn.
      replace (i - k + k) with i by lia. rewrite (testbit_fits w a i Ha) by lia.
      by rewrite !andb_false_r.
  - rewrite Z.shiftl_mul_pow2, Z.shiftr_div_pow2 by lia. unfold wrap.
    pose proof (Z.div_mod a (2 ^ k) ltac:(pose proof (pow2_pos k); lia)). lia.
Qed.
