(* ===== verification/Reloc.v ===== *)
(** * BFD relocation (bfd/reloc.c)

    The generic routines that compute the value of a relocation, check that it
    fits and put it into the bits of the section contents that the howto
    selects: bfd_check_overflow, bfd_perform_relocation, bfd_install_relocation,
    _bfd_final_link_relocate, _bfd_relocate_contents and _bfd_clear_contents.
    All values are bfd_vma, unsigned 64-bit numbers; contents are the bytes from
    a pointer on, and an access outside them has no result. *)

From S2P Require Import Prelude Bits Endian.

(** ** Data *)

Inductive complain_overflow : Set :=
  | complain_overflow_dont | complain_overflow_bitfield
  | complain_overflow_signed | complain_overflow_unsigned.

Inductive bfd_reloc_status : Set :=
  | bfd_reloc_ok | bfd_reloc_overflow | bfd_reloc_outofrange | bfd_reloc_continue
  | bfd_reloc_notsupported | bfd_reloc_other | bfd_reloc_undefined | bfd_reloc_dangerous.

#[export] Instance complain_eq_dec : EqDecision complain_overflow.
Proof. solve_decision. Defined.
#[export] Instance status_eq_dec : EqDecision bfd_reloc_status.
Proof. solve_decision. Defined.

Inductive bfd_flavour : Set := bfd_target_elf_flavour | bfd_target_coff_flavour | other_flavour.

(** What the routines read of a bfd: its target's byte order, flavour and name,
    its architecture's address size and octets per byte, its direction. *)
Record bfd := {
  xvec_big : bool;
  xvec_flavour : bfd_flavour;
  xvec_name : string;
  arch_bits_per_address : Z;
  arch_octets_per_byte : Z;
  write_direction : bool }.

Inductive section_kind : Set := sec_normal | sec_und | sec_abs | sec_com.

(** [output_section] is the vma of the section pointed to, when there is one. *)
Record asection := {
  sec_name : string;
  sec_kind : section_kind;
  SEC_ELF_OCTETS : bool;
  sec_vma : Z;
  output_offset : Z;
  output_section : option Z;
  sec_size : Z;
  rawsize : Z }.

Record asymbol := { sym_section : asection; sym_value : Z; BSF_WEAK : bool }.

(** The members of an arelent but its howto. *)
Record reloc_entry := { re_symbol : asymbol; address : Z; addend : Z }.

(** A special function is code of a back end: from the bfd, the entry, the
    contents, the input section and whether the output is relocatable to its
    status and what it left of entry and contents. *)
Definition special_fn : Type :=
  bfd -> reloc_entry -> list Z -> asection -> bool ->
  option (bfd_reloc_status * reloc_entry * list Z).

Record reloc_howto := {
  size : Z;
  bitsize : Z;
  rightshift : Z;
  bitpos : Z;
  complain_on_overflow : complain_overflow;
  negate : bool;
  pc_relative : bool;
  partial_inplace : bool;
  pcrel_offset : bool;
  install_addend : bool;
  src_mask : Z;
  dst_mask : Z;
  special_function : option special_fn }.

Definition bfd_get_reloc_size (howto : reloc_howto) : Z := size howto.

(** ** Overflow *)

(** [n] one bits of a bfd_vma; the shifts are defined up to 64. *)
Definition N_ONES (n : Z) : Z :=
  if n =? 0 then 0 else u64 (u64 (u64 (1 .<< (n - 1)) .<< 1) - 1).

(** [~x] of a bfd_vma. *)
Definition not64 (x : Z) : Z := u64 (Z.lnot x).

Definition bfd_check_overflow (how : complain_overflow) (bitsize rightshift addrsize relocation : Z)
    : bfd_reloc_status :=
  if bitsize =? 0 then bfd_reloc_ok
  else
    let fieldmask := N_ONES bitsize in
    let addrmask := N_ONES addrsize .| u64 (fieldmask .<< rightshift) in
    let a := (relocation .& addrmask) .>> rightshift in
    let sign_check signmask :=
      let ss := a .& signmask in
      if negb (ss =? 0) && negb (ss =? ((addrmask .>> rightshift) .& signmask))
      then bfd_reloc_overflow else bfd_reloc_ok in
    match how with
    | complain_overflow_dont => bfd_reloc_ok
    | complain_overflow_signed => sign_check (not64 (fieldmask .>> 1))
    | complain_overflow_bitfield => sign_check (not64 fieldmask)
    | complain_overflow_unsigned =>
        if negb (a .& not64 fieldmask =? 0) then bfd_reloc_overflow else bfd_reloc_ok
    end.

(** ** Places *)

Definition bfd_get_section_limit_octets (abfd : bfd) (sec : asection) : Z :=
  if negb (write_direction abfd) && negb (rawsize sec =? 0) then rawsize sec else sec_size sec.

Definition bfd_octets_per_byte (abfd : bfd) (sec : asection) : Z :=
  match xvec_flavour abfd with
  | bfd_target_elf_flavour => if SEC_ELF_OCTETS sec then 1 else arch_octets_per_byte abfd
  | _ => arch_octets_per_byte abfd
  end.

Definition bfd_reloc_offset_in_range (howto : reloc_howto) (abfd : bfd) (section : asection)
    (octet : Z) : bool :=
  let octet_end := bfd_get_section_limit_octets abfd section in
  let reloc_size := bfd_get_reloc_size howto in
  (octet <=? octet_end) && (reloc_size <=? u64 (octet_end - octet)).

(** ** Reading and writing the field *)

Definition bfd_get_8 (data : list Z) : option Z := b ← rd data 0; Some (b .& 0xff).
Definition bfd_put_8 (val : Z) (data : list Z) : option (list Z) := wr data 0 (val .& 0xff).

Definition read_reloc (abfd : bfd) (data : list Z) (howto : reloc_howto) : option Z :=
  let big := xvec_big abfd in
  match bfd_get_reloc_size howto with
  | 0 => Some 0
  | 1 => bfd_get_8 data
  | 2 => if big then bfd_getb16 data else bfd_getl16 data
  | 3 => if big then bfd_getb24 data else bfd_getl24 data
  | 4 => if big then bfd_getb32 data else bfd_getl32 data
  | 8 => if big then bfd_getb64 data else bfd_getl64 data
  | _ => None
  end.

Definition write_reloc (abfd : bfd) (val : Z) (data : list Z) (howto : reloc_howto)
    : option (list Z) :=
  let big := xvec_big abfd in
  match bfd_get_reloc_size howto with
  | 0 => Some data
  | 1 => bfd_put_8 val data
  | 2 => if big then bfd_putb16 val data else bfd_putl16 val data
  | 3 => if big then bfd_putb24 val data else bfd_putl24 val data
  | 4 => if big then bfd_putb32 val data else bfd_putl32 val data
  | 8 => if big then bfd_putb64 val data else bfd_putl64 val data
  | _ => None
  end.

(** The value put in place of [val]. *)
Definition masked_sum (howto : reloc_howto) (val relocation : Z) : Z :=
  (val .& not64 (dst_mask howto))
  .| (u64 ((val .& src_mask howto) + relocation) .& dst_mask howto).

Definition apply_reloc (abfd : bfd) (data : list Z) (howto : reloc_howto) (relocation : Z)
    : option (list Z) :=
  val ← read_reloc abfd data howto;
  let relocation := if negate howto then u64 (- relocation) else relocation in
  write_reloc abfd (masked_sum howto val relocation) data howto.

(** An operation on the contents from an offset on. *)
Definition at_octets (octets : Z) (f : list Z -> option (list Z)) (contents : list Z)
    : option (list Z) :=
  if bool_decide (octets <= Z.of_nat (length contents))
  then data ← f (drop (Z.to_nat octets) contents);
       Some (take (Z.to_nat octets) contents ++ data)
  else None.

(** ** Final link relocations *)

Definition _bfd_relocate_contents (howto : reloc_howto) (input_bfd : bfd) (relocation : Z)
    (location : list Z) : option (bfd_reloc_status * list Z) :=
  let rightshift := rightshift howto in
  let bitpos := bitpos howto in
  let relocation := if negate howto then u64 (- relocation) else relocation in
  x ← read_reloc input_bfd location howto;
  let flag :=
    let fieldmask := N_ONES (bitsize howto) in
    let addrmask := N_ONES (arch_bits_per_address input_bfd) .| u64 (fieldmask .<< rightshift) in
    let a := (relocation .& addrmask) .>> rightshift in
    let b := ((x .& src_mask howto) .& addrmask) .>> bitpos in
    let addrmask := addrmask .>> rightshift in
    let signed_sum signmask :=
      let ss := a .& signmask in
      let flag :=
        if negb (ss =? 0) && negb (ss =? (addrmask .& signmask))
        then bfd_reloc_overflow else bfd_reloc_ok in
      let ss := (((not64 (src_mask howto)) .>> 1) .& src_mask howto) .>> bitpos in
      let b := u64 ((b .^ ss) - ss) in
      let sum := u64 (a + b) in
      if negb ((((not64 (a .^ b)) .& (a .^ sum)) .& signmask) .& addrmask =? 0)
      then bfd_reloc_overflow else flag in
    match complain_on_overflow howto with
    | complain_overflow_dont => bfd_reloc_ok
    | complain_overflow_signed => signed_sum (not64 (fieldmask .>> 1))
    | complain_overflow_bitfield => signed_sum (not64 fieldmask)
    | complain_overflow_unsigned =>
        let sum := u64 (a + b) .& addrmask in
        if negb (((a .| b) .| sum) .& not64 fieldmask =? 0)
        then bfd_reloc_overflow else bfd_reloc_ok
    end in
  let relocation := u64 ((relocation .>> rightshift) .<< bitpos) in
  location ← write_reloc input_bfd (masked_sum howto x relocation) location howto;
  Some (flag, location).

Definition _bfd_final_link_relocate (howto : reloc_howto) (input_bfd : bfd)
    (input_section : asection) (contents : list Z) (address value addend : Z)
    : option (bfd_reloc_status * list Z) :=
  let octets := u64 (address * bfd_octets_per_byte input_bfd input_section) in
  if negb (bfd_reloc_offset_in_range howto input_bfd input_section octets)
  then Some (bfd_reloc_outofrange, contents)
  else
    let relocation := u64 (value + addend) in
    relocation ←
      (if pc_relative howto
       then
         vma ← output_section input_section;
         let relocation := u64 (relocation - u64 (vma + output_offset input_section)) in
         Some (if pcrel_offset howto then u64 (relocation - address) else relocation)
       else Some relocation);
    if bool_decide (octets <= Z.of_nat (length contents))
    then
      '(flag, data) ← _bfd_relocate_contents howto input_bfd relocation
                        (drop (Z.to_nat octets) contents);
      Some (flag, take (Z.to_nat octets) contents ++ data)
    else None.

Definition _bfd_clear_contents (howto : reloc_howto) (input_bfd : bfd) (input_section : asection)
    (buf : list Z) (off : Z) : option (bfd_reloc_status * list Z) :=
  if negb (bfd_reloc_offset_in_range howto input_bfd input_section off)
  then Some (bfd_reloc_outofrange, buf)
  else
    buf ← at_octets off (fun location =>
      x ← read_reloc input_bfd location howto;
      let x := x .& not64 (dst_mask howto) in
      let x :=
        if (sec_name input_section =? ".debug_ranges")%string
           && negb (dst_mask howto .& 1 =? 0)
        then x .| 1 else x in
      write_reloc input_bfd x location howto) buf;
    Some (bfd_reloc_ok, buf).

(** ** Relocation of entries *)

Record arelent := { ar_entry : reloc_entry; ar_howto : option reloc_howto }.

Definition is_kind (k : section_kind) (sec : asection) : bool :=
  match k, sec_kind sec with
  | sec_normal, sec_normal | sec_und, sec_und | sec_abs, sec_abs | sec_com, sec_com => true
  | _, _ => false
  end.

Definition set_address (a : Z) (r : reloc_entry) : reloc_entry :=
  {| re_symbol := re_symbol r; address := a; addend := addend r |}.
Definition set_addend (a : Z) (r : reloc_entry) : reloc_entry :=
  {| re_symbol := re_symbol r; address := address r; addend := a |}.

(** The value of the symbol; common symbols are special. *)
Definition symbol_value (symbol : asymbol) : Z :=
  if is_kind sec_com (sym_section symbol) then 0 else sym_value symbol.

(** [output_base *= octets] when addresses are in octets. *)
Definition scale_base (abfd : bfd) (symbol : asymbol) (input_section : asection) (base : Z) : Z :=
  match xvec_flavour abfd with
  | bfd_target_elf_flavour =>
      if SEC_ELF_OCTETS (sym_section symbol)
      then u64 (base * bfd_octets_per_byte abfd input_section) else base
  | _ => base
  end.

(** The overflow check and the application to the contents that end
    bfd_perform_relocation and bfd_install_relocation, the contents starting
    [start] octets before the given list. *)
Definition check_and_apply (abfd : bfd) (howto : reloc_howto) (flag : bfd_reloc_status)
    (relocation octets : Z) (data : list Z) : option (bfd_reloc_status * list Z) :=
  let flag :=
    if negb (bool_decide (complain_on_overflow howto = complain_overflow_dont))
       && bool_decide (flag = bfd_reloc_ok)
    then bfd_check_overflow (complain_on_overflow howto) (bitsize howto) (rightshift howto)
           (arch_bits_per_address abfd) relocation
    else flag in
  let relocation := u64 ((relocation .>> rightshift howto) .<< bitpos howto) in
  data ← at_octets octets (fun data => apply_reloc abfd data howto relocation) data;
  Some (flag, data).

(** What follows the special function. *)
Definition perform_generic (abfd : bfd) (entry : reloc_entry) (howto : option reloc_howto)
    (data : list Z) (input_section : asection) (relocatable : bool) (flag : bfd_reloc_status)
    : option (bfd_reloc_status * reloc_entry * list Z) :=
  let symbol := re_symbol entry in
  if is_kind sec_abs (sym_section symbol) && relocatable
  then Some (bfd_reloc_ok,
             set_address (u64 (address entry + output_offset input_section)) entry, data)
  else
    match howto with
    | None => Some (bfd_reloc_undefined, entry, data)
    | Some howto =>
        let octets := u64 (address entry * bfd_octets_per_byte abfd input_section) in
        if negb (bfd_reloc_offset_in_range howto abfd input_section octets)
        then Some (bfd_reloc_outofrange, entry, data)
        else
          let relocation := symbol_value symbol in
          let output_base :=
            match output_section (sym_section symbol) with
            | Some vma => if relocatable && negb (partial_inplace howto) then 0 else vma
            | None => 0
            end in
          let output_base := u64 (output_base + output_offset (sym_section symbol)) in
          let output_base := scale_base abfd symbol input_section output_base in
          let relocation := u64 (u64 (relocation + output_base) + addend entry) in
          relocation ←
            (if pc_relative howto
             then
               vma ← output_section input_section;
               let relocation := u64 (relocation - u64 (vma + output_offset input_section)) in
               Some (if pcrel_offset howto then u64 (relocation - address entry) else relocation)
             else Some relocation);
          if relocatable && negb (partial_inplace howto)
          then Some (flag,
                     set_address (u64 (address entry + output_offset input_section))
                       (set_addend relocation entry), data)
          else
            let '(relocation, entry) :=
              if relocatable
              then
                let entry := set_address (u64 (address entry + output_offset input_section)) entry in
                match xvec_flavour abfd with
                | bfd_target_coff_flavour =>
                    (u64 (relocation - addend entry), set_addend 0 entry)
                | _ => (relocation, set_addend relocation entry)
                end
              else (relocation, entry) in
            '(flag, data) ← check_and_apply abfd howto flag relocation octets data;
            Some (flag, entry, data)
    end.

Definition bfd_perform_relocation (abfd : bfd) (r : arelent) (data : list Z)
    (input_section : asection) (relocatable : bool)
    : option (bfd_reloc_status * reloc_entry * list Z) :=
  let entry := ar_entry r in
  let symbol := re_symbol entry in
  let flag :=
    if is_kind sec_und (sym_section symbol) && negb (BSF_WEAK symbol) && negb relocatable
    then bfd_reloc_undefined else bfd_reloc_ok in
  match ar_howto r ≫= special_function with
  | Some special =>
      '(cont, entry, data) ← special abfd entry data input_section relocatable;
      if negb (bool_decide (cont = bfd_reloc_continue)) then Some (cont, entry, data)
      else perform_generic abfd entry (ar_howto r) data input_section relocatable flag
  | None => perform_generic abfd entry (ar_howto r) data input_section relocatable flag
  end.

(** The contents start [data_start_offset] octets into the section. *)
Definition install_generic (abfd : bfd) (entry : reloc_entry) (howto : reloc_howto)
    (data : list Z) (data_start_offset : Z) (input_section : asection)
    : option (bfd_reloc_status * reloc_entry * list Z) :=
  let symbol := re_symbol entry in
  if negb (install_addend howto) && is_kind sec_abs (sym_section symbol)
  then Some (bfd_reloc_ok, entry, data)
  else
    let relocation :=
      if install_addend howto then addend entry
      else
        let relocation := symbol_value symbol in
        let output_base := if negb (partial_inplace howto) then 0 else sec_vma (sym_section symbol) in
        let output_base := scale_base abfd symbol input_section output_base in
        let relocation := u64 (u64 (relocation + output_base) + addend entry) in
        if pc_relative howto
        then
          let relocation := u64 (relocation - sec_vma input_section) in
          if pcrel_offset howto && partial_inplace howto
          then u64 (relocation - address entry) else relocation
        else relocation in
    if negb (partial_inplace howto)
    then Some (bfd_reloc_ok, set_addend relocation entry, data)
    else
      let '(relocation, entry) :=
        match xvec_flavour abfd with
        | bfd_target_coff_flavour =>
            if negb (install_addend howto)
            then (u64 (relocation - addend entry),
                  if negb (xvec_name abfd =? "coff-z8k")%string then set_addend 0 entry else entry)
            else (relocation, set_addend relocation entry)
        | _ => (relocation, set_addend relocation entry)
        end in
      let octets := u64 (address entry * bfd_octets_per_byte abfd input_section) in
      if negb (bfd_reloc_offset_in_range howto abfd input_section octets)
      then Some (bfd_reloc_outofrange, entry, data)
      else
        if bool_decide (octets < data_start_offset) then None
        else
          '(flag, data) ← check_and_apply abfd howto bfd_reloc_ok relocation
                            (octets - data_start_offset) data;
          Some (flag, entry, data).

(** The howto is used without a test, so it must be there. The special function
    gets the contents of the whole section, [before] the ones before them. *)
Definition bfd_install_relocation (abfd : bfd) (r : arelent) (before data : list Z)
    (input_section : asection) : option (bfd_reloc_status * reloc_entry * list Z) :=
  let entry := ar_entry r in
  let data_start_offset := Z.of_nat (length before) in
  match ar_howto r with
  | None => None
  | Some howto =>
      match special_function howto with
      | Some special =>
          '(cont, entry, all) ← special abfd entry (before ++ data) input_section true;
          if negb (bool_decide (cont = bfd_reloc_continue))
          then Some (cont, entry, drop (length before) all)
          else install_generic abfd entry howto (drop (length before) all) data_start_offset
                 input_section
      | None => install_generic abfd entry howto data data_start_offset input_section
      end
  end.

(** ** Lemmas on the masks *)

Lemma N_ONES_ones n : 0 <= n <= 64 -> N_ONES n = Z.ones n.
Proof.
  intros Hn. unfold N_ONES. destruct (Z.eqb_spec n 0) as [->|]; [done|].
  rewrite Z.ones_equiv. rewrite !Z.shiftl_mul_pow2 by lia.
  destruct (decide (n = 64)) as [->|]; [done|].
  assert (0 < 2 ^ (n - 1) <= 2 ^ 62) as Hp.
  { split; [apply pow2_pos; lia|]. apply Z.pow_le_mono_r; lia. }
  rewrite (pow2_split n) by lia. rewrite Z.mul_1_l. change (2 ^ 1) with 2.
  rewrite (wrap_small 64 (2 ^ (n - 1))) by (unfold fits; lia).
  rewrite (wrap_small 64 (2 ^ (n - 1) * 2)) by (unfold fits; lia).
  rewrite wrap_small by (unfold fits; lia). lia.
Qed.

(** The number of bits of an address after the shift. *)
Definition address_bits (addrsize bitsize rightshift : Z) : Z :=
  Z.min 64 (Z.max addrsize (rightshift + bitsize)) - rightshift.

Section Masks.
Context (addrsize bitsize rightshift : Z).
Context (Ha : 0 <= addrsize <= 64) (Hb : 0 < bitsize <= 64) (Hr : 0 <= rightshift < 64).
Let n := address_bits addrsize bitsize rightshift.
Let addrmask := N_ONES addrsize .| u64 (N_ONES bitsize .<< rightshift).

Lemma address_bits_range : 0 < n <= 64.
Proof using Ha Hb Hr. unfold n, address_bits. lia. Qed.

Lemma addrmask_shifted : addrmask .>> rightshift = Z.ones n.
Proof using Ha Hb Hr.
  unfold addrmask. rewrite !N_ONES_ones by lia. pose proof address_bits_range.
  bitwise i. unfold n, address_bits. bit_cases.
Qed.

Lemma address_masked relocation :
  (relocation .& addrmask) .>> rightshift = wrap n (relocation .>> rightshift).
Proof using Ha Hb Hr.
  unfold addrmask. rewrite !N_ONES_ones by lia. pose proof address_bits_range.
  bitwise i. unfold n, address_bits. bit_cases.
Qed.
End Masks.

Lemma ones_pred n : 0 < n -> Z.ones n .>> 1 = Z.ones (n - 1).
Proof. intros. bitwise i. bit_cases. Qed.

(** The test on the bits from [k] on. *)
Lemma sign_test n k a :
  0 < n <= 64 -> 0 <= k <= 64 -> fits n a ->
  let ss := a .& not64 (Z.ones k) in
  negb (ss =? 0) && negb (ss =? (Z.ones n .& not64 (Z.ones k))) = false <->
  - 2 ^ k <= sext n a < 2 ^ k.
Proof.
  intros Hn Hk Hf ss. rewrite sext_in_range by (done || lia).
  assert (forall m, fits n m -> m .& not64 (Z.ones k) = m - wrap k m) as Hland.
  { intros m [Hm1 Hm2]. apply land_not_ones; [lia|]. split; [lia|].
    pose proof (Z.pow_le_mono_r 2 n 64). lia. }
  assert (fits n (Z.ones n)) as Hones.
  { rewrite Z.ones_equiv. pose proof (pow2_pos n). unfold fits. lia. }
  unfold ss. rewrite !Hland by done. pose proof (pow2_pos k ltac:(lia)) as Hpk.
  pose proof (wrap_fits k a ltac:(lia)) as [Hw1 Hw2].
  rewrite andb_false_iff, !negb_false_iff, !Z.eqb_eq.
  assert (a - wrap k a = 0 <-> a < 2 ^ k) as ->.
  { split; [lia|]. intros. rewrite wrap_small; [lia|]. destruct Hf. unfold fits. lia. }
  assert (wrap k (Z.ones n) = Z.ones (Z.min k n)) as ->.
  { bitwise i. bit_cases. }
  rewrite !Z.ones_equiv. destruct Hf as [Hf1 Hf2].
  destruct (Z.le_ge_cases k n) as [Hkn|Hkn].
  - rewrite Z.min_l by lia. replace (Z.pred (2 ^ n) - Z.pred (2 ^ k)) with (2 ^ n - 2 ^ k) by lia.
    split; [intros [H|H]; [by left|right; lia]|]. intros [H|H]; [by left|right].
    assert (2 ^ n = 2 ^ (n - k) * 2 ^ k) as Hsplit.
    { rewrite <- Z.pow_add_r by lia. f_equal. lia. }
    unfold wrap. rewrite (Zmod_eq a (2 ^ k)) by lia.
    assert (a / 2 ^ k = 2 ^ (n - k) - 1) as ->; [|lia].
    symmetry; apply (Z.div_unique _ _ _ (a - (2 ^ n - 2 ^ k))); lia.
  - pose proof (Z.pow_le_mono_r 2 n k ltac:(lia) Hkn) as Hle.
    rewrite Z.min_r by lia. split; intros _; left; lia.
Qed.

Lemma unsigned_test k a :
  0 <= k <= 64 -> fits 64 a -> a .& not64 (Z.ones k) = 0 <-> a < 2 ^ k.
Proof.
  intros Hk Hf. unfold not64. rewrite (land_not_ones 64 k) by done.
  pose proof (wrap_fits k a ltac:(lia)) as [Hw1 Hw2].
  split; [lia|]. intros. rewrite wrap_small; [lia|]. destruct Hf. unfold fits. lia.
Qed.

(** ** What overflow means

    The address as the howto sees it, of [n] bits, and the numbers its field of
    [bitsize] bits is allowed to hold. *)
Definition address_value (how : complain_overflow) (n a : Z) : Z :=
  match how with complain_overflow_unsigned => wrap n a | _ => sext n a end.

Definition in_field (how : complain_overflow) (bitsize v : Z) : Prop :=
  match how with
  | complain_overflow_dont => True
  | complain_overflow_signed => - 2 ^ (bitsize - 1) <= v < 2 ^ (bitsize - 1)
  | complain_overflow_bitfield => - 2 ^ bitsize <= v < 2 ^ bitsize
  | complain_overflow_unsigned => 0 <= v < 2 ^ bitsize
  end.

#[export] Instance in_field_dec how bitsize v : Decision (in_field how bitsize v).
Proof. destruct how; apply _. Defined.

Lemma sext_wrap_arg n a : 0 <= n -> sext n (wrap n a) = sext n a.
Proof. intros. unfold sext. by rewrite wrap_idemp. Qed.

(** C32: bfd_check_overflow reports overflow exactly when the address, cut to
    the size of an address or of the shifted field and shifted right, does not
    fit: as a signed number of the field's size, as a signed number of one bit
    more for a bitfield, as an unsigned number of the field's size; an empty
    field and a howto that does not complain never overflow. *)
Theorem check_overflow_correct how bitsize rightshift addrsize relocation :
  0 <= bitsize <= 64 -> 0 <= addrsize <= 64 -> 0 <= rightshift < 64 -> fits 64 relocation ->
  bfd_check_overflow how bitsize rightshift addrsize relocation =
  if decide (bitsize = 0 \/
             in_field how bitsize (address_value how (address_bits addrsize bitsize rightshift)
                                     (relocation / 2 ^ rightshift)))
  then bfd_reloc_ok else bfd_reloc_overflow.
Proof.
  intros Hb Ha Hr Hrel. unfold bfd_check_overflow.
  destruct (Z.eqb_spec bitsize 0) as [->|Hb0]; [by rewrite decide_True by (by left)|].
  set (n := address_bits addrsize bitsize rightshift).
  pose proof (address_bits_range addrsize bitsize rightshift ltac:(lia) ltac:(lia) Hr) as Hn.
  rewrite addrmask_shifted, address_masked by lia. fold n in Hn |- *.
  rewrite !N_ONES_ones, ones_pred by lia. rewrite Z.shiftr_div_pow2 by lia.
  set (a := wrap n (relocation / 2 ^ rightshift)).
  assert (fits n a) as Hf by (apply wrap_fits; lia).
  assert (fits 64 a) as Hf64.
  { pose proof (Z.pow_le_mono_r 2 n 64). destruct Hf. unfold fits. lia. }
  assert (forall k, 0 <= k <= 64 ->
    negb (a .& not64 (Z.ones k) =? 0)
      && negb (a .& not64 (Z.ones k) =? (Z.ones n .& not64 (Z.ones k))) =
    negb (bool_decide (- 2 ^ k <= sext n (relocation / 2 ^ rightshift) < 2 ^ k))) as Hsign.
  { intros k Hk. pose proof (sign_test n k a Hn Hk Hf) as Ht. cbv zeta in Ht.
    assert (sext n a = sext n (relocation / 2 ^ rightshift)) as Hs
      by (unfold a; apply sext_wrap_arg; lia).
    rewrite Hs in Ht.
    destruct (_ && _); case_bool_decide; naive_solver. }
  destruct how; cbn [in_field address_value].
  - by rewrite decide_True by (by right).
  - rewrite Hsign by lia. case_bool_decide; case_decide; naive_solver.
  - rewrite Hsign by lia. case_bool_decide; case_decide; naive_solver.
  - fold a. pose proof (unsigned_test bitsize a Hb Hf64) as Hu.
    destruct Hf as [Hf1 _].
    destruct (Z.eqb_spec (a .& not64 (Z.ones bitsize)) 0); case_decide; try done; exfalso; intuition lia.
Qed.

(** ** The field of a howto *)

(** The [w] bits at [p], and their replacement. *)
Definition get_field (p w x : Z) : Z := wrap w (x / 2 ^ p).
Definition set_field (p w x v : Z) : Z := x - 2 ^ p * get_field p w x + 2 ^ p * wrap w v.

Lemma land_field p w x :
  0 <= p -> 0 <= w -> x .& (Z.ones w .<< p) = 2 ^ p * get_field p w x.
Proof.
  intros Hp Hw. unfold get_field.
  rewrite <- Z.shiftr_div_pow2, Z.mul_comm, <- Z.shiftl_mul_pow2 by done.
  bitwise i. bit_cases.
Qed.

Lemma land_not_field p w x :
  0 <= p -> 0 <= w -> fits 64 x ->
  x .& not64 (Z.ones w .<< p) = x - 2 ^ p * get_field p w x.
Proof.
  intros Hp Hw Hx. rewrite <- land_field by done.
  pose proof (Z.add_lor_land (x .& not64 (Z.ones w .<< p)) (x .& (Z.ones w .<< p))) as H.
  replace ((x .& not64 (Z.ones w .<< p)) .& (x .& (Z.ones w .<< p))) with 0 in H.
  2: { unfold not64. symmetry. bitwise i.
       bit_cases; destruct (Z.testbit x i); cbn; try done; bit_cases. }
  replace ((x .& not64 (Z.ones w .<< p)) .| (x .& (Z.ones w .<< p))) with x in H; [lia|].
  unfold not64. bitwise i. destruct (Z.lt_ge_cases i 64) as [Hi|Hi].
  - bit_cases; destruct (Z.testbit x i); done.
  - by rewrite (testbit_fits 64 x i Hx) by lia.
Qed.

Lemma field_disjoint p w x y :
  0 <= p -> 0 <= w -> (x .& not64 (Z.ones w .<< p)) .& (y .& (Z.ones w .<< p)) = 0.
Proof.
  intros Hp Hw. unfold not64. bitwise i.
  destruct (Z.testbit x i), (Z.testbit y i); bit_cases.
Qed.

Lemma masked_sum_field howto p w x f r :
  0 <= p -> 0 < w -> p + w <= 64 -> fits 64 x -> 0 <= f ->
  dst_mask howto = Z.ones w .<< p -> x .& src_mask howto = 2 ^ p * f ->
  masked_sum howto x (u64 (r .<< p)) = set_field p w x (f + r).
Proof.
  intros Hp Hw Hpw Hx Hf Hdst Hsrc. unfold masked_sum. rewrite Hdst, Hsrc.
  assert (u64 (2 ^ p * f + u64 (r .<< p)) .& (Z.ones w .<< p) = 2 ^ p * wrap w (f + r)) as Hnew.
  { rewrite wrap_add_r, land_field by lia. f_equal. unfold get_field.
    rewrite (Z.mul_comm _ f), <- Z.shiftl_mul_pow2, !Z.shiftl_mul_pow2, <- Z.mul_add_distr_r by lia.
    rewrite <- Z.shiftl_mul_pow2, <- Z.shiftr_div_pow2 by lia.
    bitwise i. bit_cases. }
  pose proof (Z.add_lor_land (x .& not64 (Z.ones w .<< p))
    (u64 (2 ^ p * f + u64 (r .<< p)) .& (Z.ones w .<< p))) as Hsum.
  rewrite field_disjoint, Z.add_0_r in Hsum by lia. rewrite Hsum, Hnew.
  rewrite land_not_field by (done || lia). reflexivity.
Qed.

(** Only the field changes, and it holds the new value. *)
Lemma set_field_spec p w x v m :
  0 <= p -> 0 < w -> p + w <= m -> fits m x ->
  fits m (set_field p w x v) /\ get_field p w (set_field p w x v) = wrap w v /\
  set_field p w x v - 2 ^ p * wrap w v = x - 2 ^ p * get_field p w x.
Proof.
  intros Hp Hw Hm Hx. unfold set_field.
  pose proof (pow2_pos p Hp) as Hpp. pose proof (pow2_pos w ltac:(lia)) as Hpw.
  set (hi := x / 2 ^ p / 2 ^ w). set (lo := x mod 2 ^ p).
  assert (x = lo + 2 ^ p * (get_field p w x + 2 ^ w * hi)) as Hsplit.
  { unfold lo, hi, get_field, wrap.
    pose proof (Z.div_mod x (2 ^ p) ltac:(lia)). pose proof (Z.div_mod (x / 2 ^ p) (2 ^ w) ltac:(lia)). lia. }
  assert (0 <= lo < 2 ^ p) as Hlo by (apply Z.mod_pos_bound; lia).
  pose proof (wrap_fits w v ltac:(lia)) as [Hv1 Hv2].
  assert (0 <= hi < 2 ^ (m - p - w)) as Hhi.
  { destruct Hx as [Hx1 Hx2]. unfold hi. rewrite Z.div_div by lia.
    rewrite <- Z.pow_add_r by lia. split; [apply Z.div_pos; lia|].
    apply Z.div_lt_upper_bound; [lia|]. rewrite <- Z.pow_add_r by lia.
    by replace (p + w + (m - p - w)) with m by lia. }
  assert (2 ^ m = 2 ^ p * (2 ^ w * 2 ^ (m - p - w))) as Hpm.
  { rewrite <- !Z.pow_add_r by lia. f_equal. lia. }
  assert (x - 2 ^ p * get_field p w x + 2 ^ p * wrap w v = lo + 2 ^ p * (wrap w v + 2 ^ w * hi))
    as Heq by lia.
  split_and!; [| |lia].
  - rewrite Heq. unfold fits. rewrite Hpm.
    assert (0 <= wrap w v + 2 ^ w * hi <= 2 ^ w * 2 ^ (m - p - w) - 1) as Hy by nia.
    generalize dependent (wrap w v + 2 ^ w * hi). intros y _ Hy. nia.
  - rewrite Heq. unfold get_field. replace ((lo + 2 ^ p * (wrap w v + 2 ^ w * hi)) / 2 ^ p)
      with (wrap w v + 2 ^ w * hi) by (apply (Z.div_unique _ _ _ lo); lia).
    rewrite Z.add_comm, Z.mul_comm. unfold wrap. rewrite Z.add_comm, Z_mod_plus_full.
    by rewrite Z.mod_mod by lia.
Qed.

(** ** Reading and writing *)

Definition reloc_sizes : list Z := [1; 2; 3; 4; 8].

Lemma read_reloc_spec abfd data howto :
  size howto ∈ reloc_sizes -> bytes_ok data ->
  read_reloc abfd data howto =
  order_value (xvec_big abfd) <$> prefix_bytes (Z.to_nat (size howto)) data.
Proof.
  intros Hs Hok. unfold read_reloc, bfd_get_reloc_size, order_value.
  repeat (apply elem_of_cons in Hs as [->|Hs]); [..|by apply elem_of_nil in Hs];
    destruct (xvec_big abfd).
  1, 2: unfold bfd_get_8, prefix_bytes, rd; destruct data as [|b data]; [done|];
    apply Forall_cons in Hok as [Hb _]; cbn -[Z.mul];
    change (Z.to_nat 1) with 1%nat; rewrite land_255, wrap_small, decide_True by (done || lia);
    cbn -[Z.mul]; rewrite take_0; cbn -[Z.mul]; by rewrite Z.add_0_r.
  - by apply bfd_getb16_spec.
  - by apply bfd_getl16_spec.
  - by apply bfd_getb24_spec.
  - by apply bfd_getl24_spec.
  - by apply bfd_getb32_spec.
  - by apply bfd_getl32_spec.
  - by apply bfd_getb64_spec.
  - by apply bfd_getl64_spec.
Qed.

Lemma write_reloc_spec abfd val data howto :
  size howto ∈ reloc_sizes ->
  write_reloc abfd val data howto =
  put_prefix (order_bytes (xvec_big abfd) (Z.to_nat (size howto)) val) data.
Proof.
  intros Hs. unfold write_reloc, bfd_get_reloc_size, order_bytes.
  repeat (apply elem_of_cons in Hs as [->|Hs]); [..|by apply elem_of_nil in Hs];
    destruct (xvec_big abfd).
  1, 2: unfold bfd_put_8, put_prefix, wr; destruct data as [|b data]; [done|];
    change (Z.to_nat 1) with 1%nat; rewrite ?be_bytes_length, ?le_bytes_length, decide_True
      by (cbn; lia); rewrite decide_True by (cbn; lia); cbn; by rewrite land_255, drop_0.
  - by apply bfd_putb16_spec.
  - by apply bfd_putl16_spec.
  - by apply bfd_putb24_spec.
  - by apply bfd_putl24_spec.
  - by apply bfd_putb32_spec.
  - by apply bfd_putl32_spec.
  - by apply bfd_putb64_spec.
  - by apply bfd_putl64_spec.
Qed.

Lemma size_bounds howto : size howto ∈ reloc_sizes -> 1 <= size howto <= 8.
Proof.
  intros Hs. repeat (apply elem_of_cons in Hs as [->|Hs]); [lia..|by apply elem_of_nil in Hs].
Qed.

Lemma order_value_fits big l : bytes_ok l -> fits (8 * Z.of_nat (length l)) (order_value big l).
Proof. intros. destruct big; [by eapply be_value_fits|by eapply le_value_fits]. Qed.

(** ** The overflow of a sum *)

(** The test on the signs of the operands and of the sum. *)
Section SumTest.
Context (n k a B : Z).
Context (Hn : 0 < n <= 64) (Hk : 0 <= k <= n) (Ha : fits n a).
Context (HA : - 2 ^ k <= sext n a < 2 ^ k) (HB : - 2 ^ k <= B < 2 ^ k).
Let b := u64 B.
Let sum := u64 (a + b).
Let test := ((not64 (a .^ b) .& (a .^ sum)) .& not64 (Z.ones k)) .& Z.ones n.

(** A bit of the test is set when the signs of the operands agree and that bit
    of the sum does not. *)
Lemma sum_test_bit i :
  0 <= i -> Z.testbit test i =
  bool_decide (k <= i < n) && negb (xorb (sext n a <? 0) (B <? 0))
    && xorb (sext n a <? 0) (Z.testbit (sext n a + B) i).
Proof using Hn Hk Ha HA HB.
  set (A := sext n a) in *.
  assert (k <= i < n -> Z.testbit a i = (A <? 0) /\ Z.testbit b i = (B <? 0) /\
    Z.testbit sum i = Z.testbit (A + B) i) as Hbits.
  { intros Hki. split_and!.
    - rewrite <- (testbit_sext n a i) by lia. apply (testbit_sign k); [lia|done|lia].
    - unfold b. rewrite testbit_wrap, (proj2 (Z.ltb_lt i 64)) by lia.
      apply (testbit_sign k); [lia|done|lia].
    - assert (wrap n sum = wrap n (A + B)) as Hs.
      { unfold sum, b, A. rewrite wrap_wrap_le by lia.
        rewrite <- wrap_add_r, wrap_wrap_le, wrap_add_r by lia.
        rewrite <- (wrap_add_l n (sext n a)), sext_wrap, wrap_add_l by lia. done. }
      apply (f_equal (fun z => Z.testbit z i)) in Hs. cbn in Hs.
      rewrite !testbit_wrap in Hs by lia. by rewrite (proj2 (Z.ltb_lt i n)) in Hs by lia. }
  intros Hi. unfold test, not64. bit_specs. case_bool_decide as Hki.
  - destruct (Hbits Hki) as (-> & -> & ->). bit_cases.
  - bit_cases.
Qed.

Lemma sum_test : (k = n -> - 2 ^ (n - 1) <= B < 2 ^ (n - 1)) ->
  test = 0 <-> - 2 ^ k <= sext n a + B < 2 ^ k.
Proof using Hn Hk Ha HA HB.
  intros HBn. set (A := sext n a) in *.
  pose proof (pow2_pos k ltac:(lia)) as Hpk. split.
  - intros H0.
    assert (k < n -> negb (xorb (A <? 0) (B <? 0)) && xorb (A <? 0) (Z.testbit (A + B) k) = false)
      as Hk0.
    { intros Hkn. pose proof (sum_test_bit k ltac:(lia)) as Ht. rewrite H0, Z.bits_0 in Ht.
      by rewrite bool_decide_eq_true_2 in Ht by lia. }
    destruct (decide (k = n)) as [->|Hne].
    { specialize (HBn eq_refl). pose proof (sext_range n a ltac:(lia)). fold A in H.
      rewrite (pow2_split n) by lia. lia. }
    specialize (Hk0 ltac:(lia)).
    destruct (Z.ltb_spec A 0), (Z.ltb_spec B 0); cbn [xorb negb andb] in Hk0; try lia.
    + destruct (Z.lt_ge_cases (A + B) (- 2 ^ k)) as [Hlt|]; [|lia].
      rewrite Z.testbit_odd, Z.shiftr_div_pow2 in Hk0 by lia.
      replace ((A + B) / 2 ^ k) with (-2) in Hk0; [done|].
      apply (Z.div_unique _ _ _ (A + B + 2 * 2 ^ k)); lia.
    + destruct (Z.lt_ge_cases (A + B) (2 ^ k)) as [|Hge]; [lia|].
      rewrite Z.testbit_odd, Z.shiftr_div_pow2 in Hk0 by lia.
      replace ((A + B) / 2 ^ k) with 1 in Hk0; [done|].
      apply (Z.div_unique _ _ _ (A + B - 2 ^ k)); lia.
  - intros Hsum. apply Z.bits_inj'. intros i Hi. rewrite sum_test_bit, Z.bits_0 by done.
    case_bool_decide as Hki; [|done]. cbn [andb].
    fold A. rewrite (testbit_sign k (A + B)) by lia.
    destruct (Z.ltb_spec A 0), (Z.ltb_spec B 0), (Z.ltb_spec (A + B) 0); cbn; done || lia.
Qed.
End SumTest.

(** ** Relocating contents *)

(** The howtos of the back ends: a field of [bitsize] bits at [bitpos] of a
    word of a size that can be read, whose old contents are the addend or are
    ignored, on a target whose addresses have the bits of the field. *)
Record field_howto (howto : reloc_howto) (abfd : bfd) : Prop := {
  fh_size : size howto ∈ reloc_sizes;
  fh_bitsize : 0 < bitsize howto;
  fh_bitpos : 0 <= bitpos howto;
  fh_inside : bitpos howto + bitsize howto <= 8 * size howto;
  fh_rightshift : 0 <= rightshift howto;
  fh_value : rightshift howto + bitsize howto <= 64;
  fh_dst : dst_mask howto = Z.ones (bitsize howto) .<< bitpos howto;
  fh_src : src_mask howto = dst_mask howto \/ src_mask howto = 0;
  fh_top : bitpos howto + bitsize howto < 64 \/ bitpos howto = 0;
  fh_address : bitpos howto + bitsize howto <= arch_bits_per_address abfd <= 64 }.

(** The addend in the field, as the howto reads it. *)
Definition stored (howto : reloc_howto) (x : Z) : Z :=
  if src_mask howto =? 0 then 0 else get_field (bitpos howto) (bitsize howto) x.

Definition stored_value (howto : reloc_howto) (x : Z) : Z :=
  match complain_on_overflow howto with
  | complain_overflow_unsigned => stored howto x
  | _ => sext (bitsize howto) (stored howto x)
  end.

(** The sum that has to fit; unsigned sums may wrap around the address space. *)
Definition field_sum (how : complain_overflow) (n A B : Z) : Z :=
  match how with complain_overflow_unsigned => wrap n (A + B) | _ => A + B end.

Section RelocateContents.
Context (howto : reloc_howto) (abfd : bfd) (Hh : field_howto howto abfd).
Let w := bitsize howto.
Let p := bitpos howto.
Let rs := rightshift howto.
Let n := address_bits (arch_bits_per_address abfd) w rs.

Lemma field_bits : 0 < w <= n /\ n <= 64 /\ w <= 64.
Proof using Hh.
  destruct Hh. pose proof (size_bounds howto fh_size0).
  unfold n, address_bits, w, rs in *. lia.
Qed.

Lemma field_src_cases :
  src_mask howto = Z.ones w .<< p /\ src_mask howto <> 0 \/ src_mask howto = 0.
Proof using Hh.
  destruct Hh. destruct fh_src0 as [->|]; [left|by right]. split; [done|].
  rewrite fh_dst0, Z.shiftl_mul_pow2, Z.ones_equiv by done.
  pose proof (pow2_pos (bitpos howto) fh_bitpos0). pose proof (pow2_split (bitsize howto) fh_bitsize0).
  pose proof (pow2_pos (bitsize howto - 1) ltac:(lia)). nia.
Qed.

Lemma stored_fits x : fits w (stored howto x).
Proof using Hh.
  pose proof field_bits. unfold stored. destruct (_ =? 0).
  - pose proof (pow2_pos w). unfold fits. lia.
  - apply wrap_fits. unfold w in *. lia.
Qed.

Lemma stored_masked x : x .& src_mask howto = 2 ^ p * stored howto x.
Proof using Hh.
  pose proof field_bits. destruct Hh. unfold stored, p.
  destruct field_src_cases as [[Hs Hne]|Hs].
  - rewrite (proj2 (Z.eqb_neq _ _) Hne), Hs. apply land_field; unfold p, w in *; lia.
  - rewrite Hs, Z.land_0_r. cbn. lia.
Qed.

(** The addend as the code cuts it out. *)
Lemma stored_cut x addrmask :
  addrmask = N_ONES (arch_bits_per_address abfd) .| u64 (N_ONES w .<< rs) ->
  ((x .& src_mask howto) .& addrmask) .>> p = stored howto x.
Proof using Hh.
  intros ->. pose proof field_bits. pose proof (stored_fits x) as Hf.
  destruct Hh. rewrite stored_masked, Z.mul_comm, <- Z.shiftl_mul_pow2 by done.
  rewrite !N_ONES_ones by (unfold w, p in *; lia). unfold p, w, rs in *. bitwise i.
  destruct (Z.lt_ge_cases i (bitsize howto)) as [Hi|Hi].
  - bit_cases; replace (i + bitpos howto - bitpos howto) with i by lia; done.
  - replace (i + bitpos howto - bitpos howto) with i by lia.
    rewrite (testbit_fits _ _ i Hf) by done. by rewrite !andb_false_r.
Qed.

(** Its sign extension. *)
Lemma stored_signed x :
  let ss := ((not64 (src_mask howto) .>> 1) .& src_mask howto) .>> p in
  u64 ((stored howto x .^ ss) - ss) = u64 (sext w (stored howto x)).
Proof using Hh.
  pose proof field_bits as Hw. pose proof (stored_fits x) as Hf. cbv zeta.
  destruct field_src_cases as [[Hs Hne]|Hs].
  2: { rewrite Hs, Z.land_0_r. unfold stored. rewrite Hs. cbn [Z.eqb].
       by rewrite Z.shiftr_0_l, sext_0 by lia. }
  destruct Hh. unfold p, w in *.
  destruct (decide (bitpos howto + bitsize howto < 64)) as [Hlt|Hge].
  - assert (((not64 (src_mask howto) .>> 1) .& src_mask howto) .>> bitpos howto
      = 2 ^ (bitsize howto - 1)) as ->.
    { rewrite Hs. unfold not64. rewrite <- (Z.mul_1_l (2 ^ _)), <- Z.shiftl_mul_pow2 by lia.
      change 1 with (Z.ones 1) at 2. bitwise i. bit_cases. }
    rewrite <- (coerce_sext (bitsize howto)) by (done || lia). by rewrite sext_wrap.
  - assert (bitpos howto = 0 /\ bitsize howto = 64) as [Hp Hb64] by lia.
    rewrite Hp, Hb64 in *.
    assert (((not64 (src_mask howto) .>> 1) .& src_mask howto) .>> 0 = 0) as ->.
    { rewrite Hs. unfold not64. bitwise i. bit_cases. }
    rewrite Z.lxor_0_r, Z.sub_0_r. by rewrite sext_wrap.
Qed.
(** The two checks of a signed or bitfield howto together. *)
Lemma signed_flag k a B :
  (k = w - 1 \/ k = w) -> fits n a -> - 2 ^ (w - 1) <= B < 2 ^ (w - 1) ->
  (if negb ((((not64 (a .^ u64 B)) .& (a .^ u64 (a + u64 B))) .& not64 (Z.ones k)) .& Z.ones n =? 0)
   then bfd_reloc_overflow
   else if negb (a .& not64 (Z.ones k) =? 0)
           && negb (a .& not64 (Z.ones k) =? (Z.ones n .& not64 (Z.ones k)))
   then bfd_reloc_overflow else bfd_reloc_ok)
  = if decide (- 2 ^ k <= sext n a < 2 ^ k /\ - 2 ^ k <= sext n a + B < 2 ^ k)
    then bfd_reloc_ok else bfd_reloc_overflow.
Proof using Hh.
  intros Hk Ha HB. pose proof field_bits as Hw. pose proof (pow2_pos (w - 1) ltac:(lia)).
  pose proof (pow2_split w ltac:(lia)).
  assert (- 2 ^ k <= B < 2 ^ k) as HBk by (destruct Hk as [-> | ->]; lia).
  pose proof (sign_test n k a ltac:(lia) ltac:(lia) Ha) as Hs. cbv zeta in Hs.
  destruct (negb (a .& _ =? 0) && _) eqn:Hflag.
  - rewrite decide_False by (intros [H' _]; apply Hs in H'; congruence). by case_match.
  - pose proof (proj1 Hs eq_refl) as HA.
    pose proof (sum_test n k a B ltac:(lia) ltac:(lia) Ha HA HBk) as Ht.
    destruct (Z.eqb_spec ((((not64 (a .^ u64 B)) .& (a .^ u64 (a + u64 B)))
      .& not64 (Z.ones k)) .& Z.ones n) 0) as [He|He]; cbn [negb].
    + rewrite decide_True; [done|]. split; [done|]. apply Ht; [|exact He].
      intros ->. destruct Hk as [Hk|Hk]; [lia|]. by rewrite Hk.
    + rewrite decide_False; [done|]. intros [_ Hsum]. apply He, Ht; [|exact Hsum].
      intros ->. destruct Hk as [Hk|Hk]; [lia|]. by rewrite Hk.
Qed.

Lemma unsigned_flag a f :
  fits n a -> fits w f ->
  (if negb (((a .| f) .| (u64 (a + f) .& Z.ones n)) .& not64 (Z.ones w) =? 0)
   then bfd_reloc_overflow else bfd_reloc_ok)
  = if decide (0 <= a < 2 ^ w /\ 0 <= wrap n (a + f) < 2 ^ w)
    then bfd_reloc_ok else bfd_reloc_overflow.
Proof using Hh.
  intros Ha Hf. pose proof field_bits as Hw.
  assert (forall m z, 0 <= m <= 64 -> fits m z -> fits 64 z) as H64.
  { intros m z Hm [Hz1 Hz2]. pose proof (Z.pow_le_mono_r 2 m 64). unfold fits. lia. }
  assert (u64 (a + f) .& Z.ones n = wrap n (a + f)) as ->.
  { rewrite Z.land_ones by lia. apply wrap_wrap_le. lia. }
  pose proof (wrap_fits n (a + f) ltac:(lia)) as Hsum.
  rewrite !Z.land_lor_distr_l.
  assert (forall z, fits 64 z -> z .& not64 (Z.ones w) = 0 <-> z < 2 ^ w) as Hu
    by (intros; apply unsigned_test; [lia|done]).
  pose proof (Hu a (H64 n a ltac:(lia) Ha)) as Hua.
  pose proof (Hu f (H64 w f ltac:(lia) Hf)) as Huf.
  pose proof (Hu _ (H64 n _ ltac:(lia) Hsum)) as Hus.
  destruct Ha, Hf, Hsum. case_decide as Hd.
  - rewrite (proj2 Hua), (proj2 Huf), (proj2 Hus) by lia. done.
  - destruct (Z.eqb_spec (((a .& not64 (Z.ones w)) .| (f .& not64 (Z.ones w)))
      .| (wrap n (a + f) .& not64 (Z.ones w))) 0) as [He|]; [|done].
    apply Z.lor_eq_0_iff in He as [He He3]. apply Z.lor_eq_0_iff in He as [He1 He2].
    apply Hua in He1. apply Hus in He3. lia.
Qed.
(** The check of _bfd_relocate_contents as a whole. *)
Lemma relocate_flag r x :
  let how := complain_on_overflow howto in
  let fieldmask := N_ONES w in
  let addrmask := N_ONES (arch_bits_per_address abfd) .| u64 (fieldmask .<< rs) in
  let a := (r .& addrmask) .>> rs in
  let b := ((x .& src_mask howto) .& addrmask) .>> p in
  let am := addrmask .>> rs in
  let signed_sum signmask :=
    let flag :=
      if negb (a .& signmask =? 0) && negb (a .& signmask =? (am .& signmask))
      then bfd_reloc_overflow else bfd_reloc_ok in
    let ss := (((not64 (src_mask howto)) .>> 1) .& src_mask howto) .>> p in
    let b := u64 ((b .^ ss) - ss) in
    if negb ((((not64 (a .^ b)) .& (a .^ u64 (a + b))) .& signmask) .& am =? 0)
    then bfd_reloc_overflow else flag in
  let A := address_value how n (r / 2 ^ rs) in
  let B := stored_value howto x in
  how <> complain_overflow_dont ->
  match how with
  | complain_overflow_dont => bfd_reloc_ok
  | complain_overflow_signed => signed_sum (not64 (fieldmask .>> 1))
  | complain_overflow_bitfield => signed_sum (not64 fieldmask)
  | complain_overflow_unsigned =>
      if negb (((a .| b) .| (u64 (a + b) .& am)) .& not64 fieldmask =? 0)
      then bfd_reloc_overflow else bfd_reloc_ok
  end = if decide (in_field how w A /\ in_field how w (field_sum how n A B))
        then bfd_reloc_ok else bfd_reloc_overflow.
Proof using Hh.
  pose proof field_bits as Hw. pose proof (fh_address _ _ Hh). pose proof (fh_bitpos _ _ Hh).
  pose proof (fh_rightshift _ _ Hh). pose proof (fh_value _ _ Hh).
  intros how fieldmask addrmask a b am signed_sum A B Hhow.
  assert (a = wrap n (r / 2 ^ rs)) as Ha.
  { unfold a, addrmask, fieldmask. rewrite address_masked, Z.shiftr_div_pow2; unfold w, p, rs in *; lia || done. }
  assert (b = stored howto x) as Hb by (by apply stored_cut).
  assert (am = Z.ones n) as Ham.
  { unfold am, addrmask, fieldmask. apply addrmask_shifted; unfold w, p, rs in *; lia. }
  assert (fieldmask = Z.ones w) as Hfm by (apply N_ONES_ones; lia).
  pose proof (stored_fits x) as Hf. pose proof (sext_range w (stored howto x) ltac:(lia)) as HB.
  pose proof (wrap_fits n (r / 2 ^ rs) ltac:(lia)) as Hn.
  pose proof (stored_signed x) as Hss. cbv zeta in Hss.
  subst signed_sum. cbv beta zeta. rewrite Hb, Ham, Hfm, Ha, Hss.
  assert (sext n (wrap n (r / 2 ^ rs)) = sext n (r / 2 ^ rs)) as Hsa by (apply sext_wrap_arg; lia).
  change A with (address_value how n (r / 2 ^ rs)).
  change B with (match how with
                 | complain_overflow_unsigned => stored howto x
                 | _ => sext w (stored howto x)
                 end).
  clearbody how. destruct how; [done| | |]; cbn [address_value in_field field_sum].
  - rewrite (signed_flag w) by (auto; done). by rewrite Hsa.
  - rewrite ones_pred by lia. rewrite (signed_flag (w - 1)) by (auto; done). by rewrite Hsa.
  - rewrite unsigned_flag by done. apply decide_ext.
    rewrite (wrap_add_l n) by lia. done.
Qed.
End RelocateContents.

(** A field that holds the low bits of a sum that fits reads back as the sum. *)
Lemma signed_read_back n w v f y :
  0 < w <= n -> - 2 ^ (w - 1) <= sext n v + sext w f < 2 ^ (w - 1) ->
  y = wrap w (f + v) -> sext w y = sext n v + sext w f.
Proof.
  intros Hw Hsum ->. rewrite <- (sext_id w (sext n v + sext w f)) by (done || lia). f_equal.
  rewrite <- (wrap_add_l w (sext n v)), <- (wrap_add_r w _ (sext w f)), sext_wrap by lia.
  rewrite <- (wrap_wrap_le w n (sext n v)), sext_wrap, wrap_wrap_le by lia.
  rewrite wrap_add_l, wrap_add_r by lia. f_equal. lia.
Qed.

(** C18: For a howto that is a plain field of a word ([field_howto]),
    _bfd_relocate_contents replaces exactly the field of the howto, and
    nothing around it, by the low bits of the addend stored there plus the
    shifted value, negated first when the howto says so. It reports overflow
    exactly when the address, cut to [address_bits], or its sum with the addend,
    both read as the howto reads them, does not fit the field; and when a signed
    relocation is reported to fit, the field read back is the sum. The cut is made
    for bitfields too ([bitfield_bits_dropped]). *)
Theorem relocate_contents_correct howto abfd relocation location :
  field_howto howto abfd -> fits 64 relocation -> bytes_ok location ->
  size howto <= Z.of_nat (length location) ->
  let how := complain_on_overflow howto in
  let n := address_bits (arch_bits_per_address abfd) (bitsize howto) (rightshift howto) in
  let r := if negate howto then u64 (- relocation) else relocation in
  let v := r / 2 ^ rightshift howto in
  let bytes := Z.to_nat (size howto) in
  let x := order_value (xvec_big abfd) (take bytes location) in
  let A := address_value how n v in
  let B := stored_value howto x in
  let y := set_field (bitpos howto) (bitsize howto) x (stored howto x + v) in
  exists flag,
    _bfd_relocate_contents howto abfd relocation location =
      Some (flag, order_bytes (xvec_big abfd) bytes y ++ drop bytes location) /\
    (how <> complain_overflow_dont -> flag =
       if decide (in_field how (bitsize howto) A /\ in_field how (bitsize howto) (field_sum how n A B))
       then bfd_reloc_ok else bfd_reloc_overflow) /\
    (how = complain_overflow_dont -> flag = bfd_reloc_ok) /\
    (how = complain_overflow_signed -> flag = bfd_reloc_ok ->
       sext (bitsize howto) (get_field (bitpos howto) (bitsize howto) y) = A + B).
Proof.
  intros Hh Hrel Hok Hlen how n r v bytes x A B y.
  pose proof (field_bits howto abfd Hh) as Hbits. fold n in Hbits.
  pose proof (size_bounds howto (fh_size _ _ Hh)) as Hsize.
  pose proof (stored_fits howto abfd Hh x) as Hf.
  assert (prefix_bytes bytes location = Some (take bytes location)) as Hpre.
  { unfold prefix_bytes. by rewrite decide_True by lia. }
  assert (length (take bytes location) = bytes) as Hlt by (rewrite length_take; lia).
  assert (fits 64 x) as Hx.
  { pose proof (order_value_fits (xvec_big abfd) (take bytes location)
      ltac:(by apply Forall_take)) as [Hx1 Hx2]. fold x in Hx1, Hx2. rewrite Hlt in Hx2.
    pose proof (Z.pow_le_mono_r 2 (8 * Z.of_nat bytes) 64). unfold fits. lia. }
  unfold _bfd_relocate_contents. cbv zeta. fold r.
  rewrite (read_reloc_spec _ _ _ (fh_size _ _ Hh) Hok). fold bytes. rewrite Hpre. cbn [fmap option_fmap option_map].
  fold x. cbn [mbind option_bind].
  rewrite (masked_sum_field howto (bitpos howto) (bitsize howto) x (stored howto x));
    [|apply Hh|lia|destruct Hh; lia|done|apply Hf|apply Hh|by eapply stored_masked].
  rewrite (Z.shiftr_div_pow2 r) by apply Hh. fold v y.
  rewrite (write_reloc_spec _ _ _ _ (fh_size _ _ Hh)). fold bytes. unfold put_prefix.
  rewrite order_bytes_length, decide_True by lia. cbn [mbind option_bind].
  eexists. split; [reflexivity|].
  pose proof (relocate_flag howto abfd Hh r x) as Hflag. cbv zeta in Hflag. fold how n v in Hflag.
  split_and!.
  - exact Hflag.
  - intros Hhow. fold how. by rewrite Hhow.
  - intros Hhow Hok'. pose proof (Hflag ltac:(congruence)) as Hfl.
    apply (eq_trans (eq_sym Hfl)) in Hok'. case_decide as Hd; [|done]. destruct Hd as [_ Hsum].
    unfold A, B, stored_value. fold how. rewrite Hhow in Hsum |- *.
    cbn [in_field field_sum address_value] in Hsum |- *. unfold stored_value in Hsum.
    fold how in Hsum. rewrite Hhow in Hsum.
    apply (signed_read_back n); [lia|exact Hsum|].
    apply (set_field_spec _ _ _ _ 64); [apply Hh|lia|destruct Hh; lia|done].
Qed.

(** ** Relocating within a section *)

(** Whatever the masks, a relocation of a size that can be read touches just
    that many bytes. *)
Lemma relocate_contents_total howto abfd relocation location :
  size howto ∈ 0 :: reloc_sizes -> bytes_ok location ->
  size howto <= Z.of_nat (length location) ->
  exists flag bytes, length bytes = Z.to_nat (size howto) /\
    _bfd_relocate_contents howto abfd relocation location =
    Some (flag, bytes ++ drop (Z.to_nat (size howto)) location).
Proof.
  intros Hs Hok Hlen. unfold _bfd_relocate_contents. cbv zeta.
  apply elem_of_cons in Hs as [H0|Hs].
  - unfold read_reloc, write_reloc, bfd_get_reloc_size. rewrite H0. cbn [mbind option_bind].
    eexists _, []. split; [done|]. by rewrite drop_0.
  - pose proof (size_bounds howto Hs).
    rewrite read_reloc_spec by done. unfold prefix_bytes. rewrite decide_True by lia.
    cbn [fmap option_fmap option_map mbind option_bind].
    rewrite write_reloc_spec by done. unfold put_prefix.
    rewrite order_bytes_length, decide_True by lia. cbn [mbind option_bind].
    eexists _, _. split; [|reflexivity]. apply order_bytes_length.
Qed.

Lemma offset_in_range_spec howto abfd section octet :
  0 <= octet -> fits 64 (bfd_get_section_limit_octets abfd section) ->
  bfd_reloc_offset_in_range howto abfd section octet =
  bool_decide (octet <= bfd_get_section_limit_octets abfd section /\
               octet + size howto <= bfd_get_section_limit_octets abfd section).
Proof.
  intros Ho Hl. unfold bfd_reloc_offset_in_range, bfd_get_reloc_size.
  set (limit := bfd_get_section_limit_octets abfd section) in *. destruct Hl as [Hl1 Hl2].
  apply eq_bool_prop_intro. rewrite andb_True, bool_decide_spec, !Is_true_true.
  rewrite !Z.leb_le. split; intros [H1 H2]; (split; [done|]);
    rewrite wrap_small in *; unfold fits; lia.
Qed.

(** The value of a relocation against [value] at [address]: S + A, or S + A - P. *)
Definition final_value (howto : reloc_howto) (section : asection) (vma address value addend : Z)
    : Z :=
  u64 (value + addend
       - (if pc_relative howto
          then vma + output_offset section + (if pcrel_offset howto then address else 0) else 0)).

(** What the code subtracts for a PC-relative howto. *)
Definition place_value (howto : reloc_howto) (section : asection) (address relocation : Z)
    : option Z :=
  if pc_relative howto
  then
    vma ← output_section section;
    let relocation := u64 (relocation - u64 (vma + output_offset section)) in
    Some (if pcrel_offset howto then u64 (relocation - address) else relocation)
  else Some relocation.

Lemma place_value_final howto section vma address value addend :
  output_section section = Some vma ->
  place_value howto section address (u64 (value + addend)) =
  Some (final_value howto section vma address value addend).
Proof.
  intros Hvma. unfold place_value, final_value. rewrite Hvma.
  destruct (pc_relative howto); cbn [mbind option_bind].
  - rewrite wrap_sub_wrap. destruct (pcrel_offset howto); rewrite ?wrap_sub_l; do 2 f_equal; lia.
  - do 2 f_equal. lia.
Qed.

Lemma place_value_fits howto section address relocation z :
  fits 64 relocation -> place_value howto section address relocation = Some z -> fits 64 z.
Proof.
  intros Hrel. unfold place_value. destruct (pc_relative howto); [|by intros [= <-]].
  destruct (output_section section); cbn [mbind option_bind]; [|done].
  destruct (pcrel_offset howto); intros [= <-]; by apply wrap_fits.
Qed.

(** C28: _bfd_final_link_relocate checks the place first: a field that would
    reach past the section's contents is refused and nothing is touched; every
    other one is relocated by S + A, or S + A - P for a PC-relative howto, and
    only the bytes of the field's word are written. It never reads or writes
    outside the contents, whatever address and howto the object file holds. *)
Theorem final_link_relocate_safe howto abfd section contents address value addend vma :
  size howto ∈ 0 :: reloc_sizes -> bytes_ok contents ->
  fits 64 (bfd_get_section_limit_octets abfd section) ->
  bfd_get_section_limit_octets abfd section <= Z.of_nat (length contents) ->
  output_section section = Some vma ->
  let octets := u64 (address * bfd_octets_per_byte abfd section) in
  if bool_decide (octets + size howto <= bfd_get_section_limit_octets abfd section)
  then exists flag bytes, length bytes = Z.to_nat (size howto) /\
    _bfd_relocate_contents howto abfd (final_value howto section vma address value addend)
      (drop (Z.to_nat octets) contents) =
      Some (flag, bytes ++ drop (Z.to_nat (octets + size howto)) contents) /\
    _bfd_final_link_relocate howto abfd section contents address value addend =
      Some (flag, take (Z.to_nat octets) contents ++ bytes
                    ++ drop (Z.to_nat (octets + size howto)) contents)
  else _bfd_final_link_relocate howto abfd section contents address value addend =
       Some (bfd_reloc_outofrange, contents).
Proof.
  intros Hs Hok Hl Hlen Hvma octets. unfold _bfd_final_link_relocate. fold octets.
  assert (0 <= octets) as Ho by (apply wrap_fits; lia).
  assert (0 <= size howto) as Hs0.
  { apply elem_of_cons in Hs as [->|Hs]; [lia|]. pose proof (size_bounds howto Hs). lia. }
  rewrite offset_in_range_spec by done.
  case_bool_decide as Hin.
  2: { rewrite bool_decide_eq_false_2; [done|]. intros [_ ?]. done. }
  rewrite bool_decide_eq_true_2 by lia. cbn [negb].
  rewrite (bool_decide_eq_true_2 (octets <= _)) by lia.
  destruct (relocate_contents_total howto abfd (final_value howto section vma address value addend)
    (drop (Z.to_nat octets) contents) Hs) as (flag & bytes & Hb & Hrun).
  { by apply Forall_drop. }
  { rewrite length_drop. lia. }
  rewrite drop_drop in Hrun. replace (Z.to_nat octets + Z.to_nat (size howto))%nat
    with (Z.to_nat (octets + size howto)) in Hrun by lia.
  exists flag, bytes. split_and!; [done|done|].
  change (if pc_relative howto then _ else _) with
    (place_value howto section address (u64 (value + addend))).
  rewrite (place_value_final _ _ vma) by done. cbn [mbind option_bind]. by rewrite Hrun.
Qed.

(** ** The two routines agree *)

(** The value of the symbol of an entry in a final link. *)
Definition final_symbol_value (abfd : bfd) (entry : reloc_entry) (input_section : asection) : Z :=
  let symbol := re_symbol entry in
  u64 (symbol_value symbol
       + scale_base abfd symbol input_section
           (u64 (default 0 (output_section (sym_section symbol))
                 + output_offset (sym_section symbol)))).

Lemma relocate_contents_rela howto abfd relocation location :
  field_howto howto abfd -> src_mask howto = 0 -> negate howto = false -> fits 64 relocation ->
  _bfd_relocate_contents howto abfd relocation location =
  (data ← apply_reloc abfd location howto
            (u64 ((relocation .>> rightshift howto) .<< bitpos howto));
   Some (if bool_decide (complain_on_overflow howto = complain_overflow_dont) then bfd_reloc_ok
         else bfd_check_overflow (complain_on_overflow howto) (bitsize howto) (rightshift howto)
                (arch_bits_per_address abfd) relocation, data)).
Proof.
  intros Hh Hsrc Hneg Hrel. unfold _bfd_relocate_contents, apply_reloc. cbv zeta. rewrite Hneg.
  destruct (read_reloc abfd location howto) as [x|]; [|done]. cbn [mbind option_bind].
  destruct (write_reloc _ _ _ _) as [l|]; [|done]. cbn [mbind option_bind]. f_equal. f_equal.
  pose proof (field_bits howto abfd Hh) as Hw.
  pose proof (relocate_flag howto abfd Hh relocation x) as Hflag. cbv zeta in Hflag.
  case_bool_decide as Hhow; [by rewrite Hhow|].
  etrans; [exact (Hflag Hhow)|].
  rewrite check_overflow_correct by (done || (destruct Hh; lia)).
  apply decide_ext. set (n := address_bits _ _ _) in *.
  set (A := address_value _ n _).
  assert (stored_value howto x = 0) as ->.
  { unfold stored_value, stored. rewrite Hsrc. cbn. by destruct (complain_on_overflow howto);
      rewrite ?sext_0 by lia. }
  assert (field_sum (complain_on_overflow howto) n A 0 = A) as ->.
  { unfold field_sum, A, address_value. rewrite Z.add_0_r. destruct (complain_on_overflow howto);
      try done. by rewrite wrap_idemp by lia. }
  split; [naive_solver|]. intros [?|?]; [lia|done].
Qed.

Lemma check_and_apply_rela howto abfd relocation octets data :
  field_howto howto abfd -> src_mask howto = 0 -> negate howto = false -> fits 64 relocation ->
  check_and_apply abfd howto bfd_reloc_ok relocation octets data =
  (if bool_decide (octets <= Z.of_nat (length data))
   then '(flag, data') ← _bfd_relocate_contents howto abfd relocation
                           (drop (Z.to_nat octets) data);
        Some (flag, take (Z.to_nat octets) data ++ data')
   else None).
Proof.
  intros Hh Hsrc Hneg Hrel. unfold check_and_apply, at_octets.
  destruct (bool_decide (octets <= _)); [|done].
  rewrite relocate_contents_rela by done.
  destruct (apply_reloc _ _ _ _) as [l|]; [|done]. cbn [mbind option_bind].
  by destruct (bool_decide (complain_on_overflow howto = _)).
Qed.

(** C34: In a final link, for a symbol that is defined or weak and a howto that is
    a plain field ([field_howto]) with its addend in the relocation entry, without a
    special function and without negation, bfd_perform_relocation does for every
    address, addend and contents what _bfd_final_link_relocate does with the output
    address of the symbol: the same status, overflow and refusals included, the same
    contents, and the entry as it was. *)
Theorem perform_is_final_link howto abfd entry data section :
  field_howto howto abfd -> src_mask howto = 0 -> negate howto = false ->
  special_function howto = None ->
  (is_kind sec_und (sym_section (re_symbol entry)) = true -> BSF_WEAK (re_symbol entry) = true) ->
  bfd_perform_relocation abfd {| ar_entry := entry; ar_howto := Some howto |} data section false =
  ('(flag, data) ← _bfd_final_link_relocate howto abfd section data (address entry)
                     (final_symbol_value abfd entry section) (addend entry);
   Some (flag, entry, data)).
Proof.
  intros Hh Hsrc Hneg Hsp Hund. unfold bfd_perform_relocation. cbn [ar_entry ar_howto mbind option_bind].
  rewrite Hsp.
  assert (is_kind sec_und (sym_section (re_symbol entry)) && negb (BSF_WEAK (re_symbol entry))
    && negb false = false) as ->.
  { destruct (is_kind sec_und _); [by rewrite Hund|done]. }
  unfold perform_generic, _bfd_final_link_relocate. rewrite andb_false_r. cbn [andb].
  destruct (negb (bfd_reloc_offset_in_range _ _ _ _)); [done|].
  unfold final_symbol_value. replace (match output_section (sym_section (re_symbol entry)) with
    Some vma => vma | None => 0 end) with (default 0 (output_section (sym_section (re_symbol entry))))
    by (by destruct (output_section _)).
  set (value := u64 (symbol_value _ + _)).
  change (if pc_relative howto then _ else _) with
    (place_value howto section (address entry) (u64 (value + addend entry))).
  destruct (place_value howto section (address entry) (u64 (value + addend entry))) as [z|] eqn:Hz;
    [|done].
  cbn [mbind option_bind]. rewrite check_and_apply_rela; try done.
  eapply place_value_fits; [|exact Hz]. by apply wrap_fits.
Qed.

(** ** Examples *)

(** A 32-bit PC-relative howto with its addend in the entry, one with its addend
    in the contents, and the 24-bit word displacement of a branch. *)
Definition ex_howto : reloc_howto :=
  {| size := 4; bitsize := 32; rightshift := 0; bitpos := 0;
     complain_on_overflow := complain_overflow_signed; negate := false; pc_relative := true;
     partial_inplace := false; pcrel_offset := true; install_addend := false;
     src_mask := 0; dst_mask := 0xffffffff; special_function := None |}.

Definition ex_branch : reloc_howto :=
  {| size := 4; bitsize := 24; rightshift := 2; bitpos := 0;
     complain_on_overflow := complain_overflow_signed; negate := false; pc_relative := true;
     partial_inplace := true; pcrel_offset := true; install_addend := false;
     src_mask := 0xffffff; dst_mask := 0xffffff; special_function := None |}.

Definition ex_bfd : bfd :=
  {| xvec_big := false; xvec_flavour := bfd_target_elf_flavour; xvec_name := "elf64-little";
     arch_bits_per_address := 64; arch_octets_per_byte := 1; write_direction := false |}.

Definition ex_section : asection :=
  {| sec_name := ".text"; sec_kind := sec_normal; SEC_ELF_OCTETS := false; sec_vma := 0;
     output_offset := 0x10; output_section := Some 0x400000; sec_size := 8; rawsize := 0 |}.

Definition ex_symbol : asymbol :=
  {| sym_section := ex_section; sym_value := 6; BSF_WEAK := false |}.

Definition ex_entry : reloc_entry :=
  {| re_symbol := ex_symbol; address := 1; addend := u64 (-4) |}.

Lemma ex_howto_field : field_howto ex_howto ex_bfd.
Proof.
  constructor; cbn; try lia; [|by vm_compute].
  unfold reloc_sizes. do 3 (apply elem_of_cons; right). by left.
Qed.

Lemma ex_branch_field : field_howto ex_branch ex_bfd.
Proof.
  constructor; cbn; try lia; [|by vm_compute].
  unfold reloc_sizes. do 3 (apply elem_of_cons; right). by left.
Qed.

Lemma check_overflow_correct_witness :
  bfd_check_overflow complain_overflow_signed 24 2 32 (2 ^ 32 - 0x2000000) = bfd_reloc_ok /\
  bfd_check_overflow complain_overflow_signed 24 2 32 0x2000000 = bfd_reloc_overflow.
Proof.
  split; (rewrite check_overflow_correct;
    [vm_compute; reflexivity|lia|lia|lia|vm_compute; split; congruence]).
Defined.

(** A branch with the addend -2 in its low bits, to 0x1000: the field becomes
    0x3fe and the opcode byte stays. *)
Lemma relocate_contents_correct_witness :
  _bfd_relocate_contents ex_branch ex_bfd 0x1000 [0xfe; 0xff; 0xff; 0xeb]
  = Some (bfd_reloc_ok, [0xfe; 0x03; 0x00; 0xeb]).
Proof.
  destruct (relocate_contents_correct ex_branch ex_bfd 0x1000 [0xfe; 0xff; 0xff; 0xeb]
    ex_branch_field) as (flag & Hrun & Hflag & _).
  - vm_compute. split; congruence.
  - repeat constructor; vm_compute; congruence.
  - vm_compute. congruence.
  - rewrite Hrun. rewrite Hflag by discriminate. vm_compute. reflexivity.
Defined.

Lemma final_link_relocate_safe_witness :
  _bfd_final_link_relocate ex_howto ex_bfd ex_section [0xe8; 0; 0; 0; 0; 0; 0; 0] 5 0 0
  = Some (bfd_reloc_outofrange, [0xe8; 0; 0; 0; 0; 0; 0; 0]).
Proof.
  pose proof (final_link_relocate_safe ex_howto ex_bfd ex_section [0xe8; 0; 0; 0; 0; 0; 0; 0]
    5 0 0 0x400000) as H.
  apply H; [|repeat constructor; vm_compute; congruence|vm_compute; split; congruence
           |vm_compute; congruence|reflexivity].
  apply elem_of_cons. right. apply (fh_size _ _ ex_howto_field).
Defined.

Lemma perform_is_final_link_witness :
  bfd_perform_relocation ex_bfd {| ar_entry := ex_entry; ar_howto := Some ex_howto |}
    [0xe8; 0; 0; 0; 0; 0; 0; 0] ex_section false
  = Some (bfd_reloc_ok, ex_entry, [0xe8; 1; 0; 0; 0; 0; 0; 0]).
Proof.
  rewrite (perform_is_final_link ex_howto ex_bfd ex_entry [0xe8; 0; 0; 0; 0; 0; 0; 0] ex_section
    ex_howto_field); [vm_compute; reflexivity|reflexivity..|discriminate].
Defined.

(** A 16-bit bitfield on a target with 32-bit addresses: the bits above the size
    of an address do not count. *)
Definition ex_bitfield : reloc_howto :=
  {| size := 2; bitsize := 16; rightshift := 0; bitpos := 0;
     complain_on_overflow := complain_overflow_bitfield; negate := false; pc_relative := false;
     partial_inplace := false; pcrel_offset := false; install_addend := false;
     src_mask := 0; dst_mask := 0xffff; special_function := None |}.

Definition ex_bfd32 : bfd :=
  {| xvec_big := false; xvec_flavour := bfd_target_elf_flavour; xvec_name := "elf32-little";
     arch_bits_per_address := 32; arch_octets_per_byte := 1; write_direction := false |}.

Example bitfield_bits_dropped :
  _bfd_relocate_contents ex_bitfield ex_bfd32 0x100000001 [0; 0] = Some (bfd_reloc_ok, [1; 0]) /\
  _bfd_relocate_contents ex_bitfield ex_bfd 0x100000001 [0; 0] = Some (bfd_reloc_overflow, [1; 0]).
Proof. by vm_compute. Qed.
