(* ===== verification/Hash.v ===== *)
(** * Content hashes (src/olnk/hash.cpp)

    The one-shot hashes and the streaming hash64_builder over the XXH3 library,
    which is a parameter: an interface [XXH3] with the law its header documents
    for the streaming interface. Builders own library states through raw
    pointers that moves hand over, so the states live in a store, and a
    specification without pointers says what programs over builders compute. *)

From S2P Require Import Prelude Endian.

(** ** The XXH3 library

    [xxh64 seed bytes] is XXH3_64bits_withSeed; a state is created, reset to a
    seed, updated with chunks and digested. *)
Class XXH3 (X : Type) := {
  xxh64 : Z -> list Z -> Z;
  xxh_created : X;
  xxh_reset : X -> Z -> X;
  xxh_update : X -> list Z -> X;
  xxh_digest : X -> Z }.

(** The digest of a state is the hash of the chunks since its last reset. *)
Class XXH3Streaming (X : Type) `{XXH3 X} : Prop :=
  xxh_stream : forall x seed chunks,
    xxh_digest (foldl xxh_update (xxh_reset x seed) chunks) = xxh64 seed (concat chunks).

Definition kDefaultSeed : Z := 0x9E3779B185EBCA87.

Section Hash.
Context {X : Type} `{XXH3 X}.

(** ** One-shot hashes

    [data] is [None] for a null pointer, whatever the size. *)
Definition hash_bytes64 (data : option (list Z)) (seed : Z) : Z :=
  match data with
  | None | Some [] => xxh64 seed []
  | Some bytes => xxh64 seed bytes
  end.

Definition hash_string64 (s : list Z) (seed : Z) : Z := hash_bytes64 (Some s) seed.

(** The bytes of the struct pair_bytes_t on a host of the given byte order. *)
Definition pair_bytes (big_endian : bool) (a b : Z) : list Z :=
  let bytes := if big_endian then be_bytes 8 else le_bytes 8 in bytes a ++ bytes b.

Definition hash_u64_pair (big_endian : bool) (a b seed : Z) : Z :=
  hash_bytes64 (Some (pair_bytes big_endian a b)) seed.

Definition hash_combine64 (big_endian : bool) (current next seed : Z) : Z :=
  hash_u64_pair big_endian current next seed.

(** ** The store of library states *)

(** [st_allocs] says of each coming XXH3_createState whether it succeeds; past
    its end they all do. *)
Record store := { st_states : gmap positive X; st_next : positive; st_allocs : list bool }.

(** [None]: behaviour the library does not define. *)
Definition Hasher (A : Type) : Type := store -> option (A * store).
#[local] Instance H_ret : MRet Hasher := fun A a s => Some (a, s).
#[local] Instance H_bind : MBind Hasher := fun A B f m s =>
  match m s with Some (a, s') => f a s' | None => None end.

Definition XXH3_createState : Hasher (option positive) := fun s =>
  match st_allocs s with
  | false :: allocs =>
      Some (None, {| st_states := st_states s; st_next := st_next s; st_allocs := allocs |})
  | allocs =>
      Some (Some (st_next s),
            {| st_states := <[st_next s := xxh_created]> (st_states s);
               st_next := Pos.succ (st_next s); st_allocs := tail allocs |})
  end.

Definition with_states (f : gmap positive X -> gmap positive X) (s : store) : store :=
  {| st_states := f (st_states s); st_next := st_next s; st_allocs := st_allocs s |}.

Definition state_modify (p : positive) (f : X -> X) : Hasher unit := fun s =>
  match st_states s !! p with
  | Some x => Some (tt, with_states <[p := f x]> s)
  | None => None
  end.

Definition XXH3_freeState (p : positive) : Hasher unit := fun s =>
  match st_states s !! p with
  | Some _ => Some (tt, with_states (delete p) s)
  | None => None
  end.

Definition XXH3_64bits_digest (p : positive) : Hasher Z := fun s =>
  match st_states s !! p with Some x => Some (xxh_digest x, s) | None => None end.

Definition reset_withSeed (p : positive) (seed : Z) : Hasher unit :=
  state_modify p (fun x => xxh_reset x seed).

(** ** hash64_builder *)

Record hash64_builder := { hb_state : option positive; hb_seed : Z }.

Definition when_state (b : hash64_builder) (f : positive -> Hasher unit) : Hasher unit :=
  match hb_state b with Some p => f p | None => mret tt end.

Definition builder_construct (seed : Z) : Hasher hash64_builder :=
  p ← XXH3_createState;
  let b := {| hb_state := p; hb_seed := seed |} in
  _ ← when_state b (fun p => reset_withSeed p seed);
  mret b.

Definition builder_destroy (b : hash64_builder) : Hasher unit := when_state b XXH3_freeState.

Definition moved_from : hash64_builder := {| hb_state := None; hb_seed := 0 |}.

(** The new builder and what is left of the other. *)
Definition builder_move_construct (other : hash64_builder) : hash64_builder * hash64_builder :=
  (other, moved_from).

(** For two different builders; a self assignment returns before anything. *)
Definition builder_move_assign (this other : hash64_builder)
    : Hasher (hash64_builder * hash64_builder) :=
  _ ← when_state this XXH3_freeState;
  mret (other, moved_from).

Definition builder_update (b : hash64_builder) (data : option (list Z)) : Hasher unit :=
  match hb_state b, data with
  | None, _ | _, None | _, Some [] => mret tt
  | Some p, Some bytes => state_modify p (fun x => xxh_update x bytes)
  end.

Definition builder_digest (b : hash64_builder) : Hasher Z :=
  match hb_state b with
  | None => mret (hash_bytes64 (Some []) (hb_seed b))
  | Some p => XXH3_64bits_digest p
  end.

Definition builder_reset (b : hash64_builder) : Hasher unit :=
  when_state b (fun p => reset_withSeed p (hb_seed b)).

Definition builder_seed (b : hash64_builder) : Z := hb_seed b.

(** ** Programs over named builders *)

Inductive builder_op : Set :=
  | Construct (b : string) (seed : Z)
  | Destroy (b : string)
  | MoveConstruct (dst src : string)
  | MoveAssign (dst src : string)
  | Update (b : string) (data : option (list Z))
  | Digest (b : string)
  | Reset (b : string).

Local Abbreviation env := (gmap string hash64_builder).

(** The builders after a step and what a digest yields; [None] when a name is
    not as the step needs it, or when the step is undefined. *)
Definition run_op (op : builder_op) (e : env) : Hasher (env * list Z) := fun s =>
  match op with
  | Construct n seed =>
      match e !! n with
      | None => (b ← builder_construct seed; mret (<[n := b]> e, [])) s
      | Some _ => None
      end
  | Destroy n => b ← e !! n; (_ ← builder_destroy b; mret (delete n e, [])) s
  | MoveConstruct dst src =>
      match e !! dst, e !! src with
      | None, Some b =>
          let '(new, old) := builder_move_construct b in
          Some ((<[dst := new]> (<[src := old]> e), []), s)
      | _, _ => None
      end
  | MoveAssign dst src =>
      this ← e !! dst; other ← e !! src;
      if decide (dst = src) then Some ((e, []), s)
      else ('(this, other) ← builder_move_assign this other;
            mret (<[dst := this]> (<[src := other]> e), [])) s
  | Update n data => b ← e !! n; (_ ← builder_update b data; mret (e, [])) s
  | Digest n => b ← e !! n; (d ← builder_digest b; mret (e, [d])) s
  | Reset n => b ← e !! n; (_ ← builder_reset b; mret (e, [])) s
  end.

Fixpoint run_ops (ops : list builder_op) (e : env) : Hasher (env * list Z) :=
  match ops with
  | [] => mret (e, [])
  | op :: ops =>
      '(e, out) ← run_op op e;
      '(e, outs) ← run_ops ops e;
      mret (e, out ++ outs)
  end.

(** ** The specification

    A builder holds the bytes since its last reset and its seed; or no bytes,
    for ever, when its allocation failed or it was moved from. *)
Local Abbreviation content := (option (list Z) * Z)%type.

Record spec := { sp_builders : gmap string content; sp_allocs : list bool }.

Definition with_builders (f : gmap string content -> gmap string content) (a : spec) : spec :=
  {| sp_builders := f (sp_builders a); sp_allocs := sp_allocs a |}.

Definition spec_digest (c : content) : Z := hash_bytes64 c.1 c.2.

Definition spec_op (op : builder_op) (a : spec) : option (spec * list Z) :=
  let bs := sp_builders a in
  match op with
  | Construct n seed =>
      match bs !! n with
      | None =>
          let ok := default true (head (sp_allocs a)) in
          Some ({| sp_builders := <[n := (if ok then Some [] else None, seed)]> bs;
                   sp_allocs := tail (sp_allocs a) |}, [])
      | Some _ => None
      end
  | Destroy n => _ ← bs !! n; Some (with_builders (delete n) a, [])
  | MoveConstruct dst src =>
      match bs !! dst, bs !! src with
      | None, Some c => Some (with_builders (fun bs => <[dst := c]> (<[src := (None, 0)]> bs)) a, [])
      | _, _ => None
      end
  | MoveAssign dst src =>
      _ ← bs !! dst; c ← bs !! src;
      if decide (dst = src) then Some (a, [])
      else Some (with_builders (fun bs => <[dst := c]> (<[src := (None, 0)]> bs)) a, [])
  | Update n data =>
      '(bytes, seed) ← bs !! n;
      Some (with_builders <[n := ((fun l => l ++ default [] data) <$> bytes, seed)]> a, [])
  | Digest n => c ← bs !! n; Some (a, [spec_digest c])
  | Reset n =>
      '(bytes, seed) ← bs !! n;
      Some (with_builders <[n := ((fun _ => []) <$> bytes, seed)]> a, [])
  end.

Fixpoint spec_ops (ops : list builder_op) (a : spec) : option (spec * list Z) :=
  match ops with
  | [] => Some (a, [])
  | op :: ops =>
      '(a, out) ← spec_op op a;
      '(a, outs) ← spec_ops ops a;
      Some (a, out ++ outs)
  end.

(** ** The refinement *)

Section Refinement.
Context `{!XXH3Streaming X}.

(** The state of a builder holds exactly its content. *)
Definition represents (m : gmap positive X) (b : hash64_builder) (c : content) : Prop :=
  hb_seed b = c.2 /\
  match hb_state b, c.1 with
  | Some p, Some bytes =>
      exists x0 chunks, m !! p = Some (foldl xxh_update (xxh_reset x0 c.2) chunks) /\
        concat chunks = bytes
  | None, None => True
  | _, _ => False
  end.

Definition owns (e : env) (n : string) (p : positive) : Prop :=
  exists b, e !! n = Some b /\ hb_state b = Some p.

Record refines (e : env) (s : store) (a : spec) : Prop := {
  rf_allocs : st_allocs s = sp_allocs a;
  rf_content : forall n, option_Forall2 (represents (st_states s)) (e !! n) (sp_builders a !! n);
  rf_one_owner : forall n n' p, owns e n p -> owns e n' p -> n = n';
  rf_no_leak : forall p, is_Some (st_states s !! p) -> exists n, owns e n p;
  rf_fresh : forall p, is_Some (st_states s !! p) -> (p < st_next s)%positive }.

Lemma represents_frame m m' b c :
  represents m b c -> (forall p, hb_state b = Some p -> m' !! p = m !! p) -> represents m' b c.
Proof.
  intros [Hs Hb] Hm. split; [done|]. destruct (hb_state b), (c.1); try done. by rewrite Hm.
Qed.

Lemma refines_live e s a n c :
  refines e s a -> sp_builders a !! n = Some c ->
  exists b, e !! n = Some b /\ represents (st_states s) b c.
Proof.
  intros Hr Hn. pose proof (rf_content _ _ _ Hr n) as Hc. rewrite Hn in Hc.
  inversion Hc; subst; eauto.
Qed.

Lemma refines_absent e s a n : refines e s a -> sp_builders a !! n = None -> e !! n = None.
Proof.
  intros Hr Hn. pose proof (rf_content _ _ _ Hr n) as Hc. rewrite Hn in Hc. by inversion Hc.
Qed.

Lemma represents_state m b c p :
  represents m b c -> hb_state b = Some p ->
  exists bytes x0 chunks, c.1 = Some bytes /\
    m !! p = Some (foldl xxh_update (xxh_reset x0 c.2) chunks) /\ concat chunks = bytes.
Proof. intros [_ Hb] Hp. rewrite Hp in Hb. destruct (c.1); [naive_solver|done]. Qed.

Lemma owned_live e s a n p :
  refines e s a -> owns e n p -> is_Some (st_states s !! p).
Proof.
  intros Hr (b & Hn & Hp). pose proof (rf_content _ _ _ Hr n) as Hc. rewrite Hn in Hc.
  inversion Hc as [? c Hbc|]; subst. destruct (represents_state _ _ _ _ Hbc Hp) as (? & ? & ? & _ & Hs & _).
  by eexists.
Qed.

(** Replacing the state of one builder. *)
Lemma refines_modify e s a n b p x c :
  refines e s a -> e !! n = Some b -> hb_state b = Some p ->
  represents (<[p := x]> (st_states s)) b c ->
  refines e (with_states <[p := x]> s) (with_builders <[n := c]> a).
Proof.
  intros Hr Hn Hp Hc. assert (owns e n p) as Hown by by exists b.
  constructor; cbn.
  - apply Hr.
  - intros n'. destruct (decide (n = n')) as [<-|Hne].
    + rewrite Hn, lookup_insert_eq. by constructor.
    + rewrite lookup_insert_ne by done. pose proof (rf_content _ _ _ Hr n') as Hn'.
      destruct (e !! n') as [b'|] eqn:He; inversion Hn'; subst; [|constructor]. constructor.
      eapply represents_frame; [done|]. intros p' Hp'. apply lookup_insert_ne.
      intros ->. apply Hne. eapply (rf_one_owner _ _ _ Hr); [done|by exists b'].
  - apply Hr.
  - intros p' Hp'. apply (rf_no_leak _ _ _ Hr). destruct (decide (p = p')) as [<-|].
    + by eapply owned_live.
    + by rewrite lookup_insert_ne in Hp'.
  - intros p' Hp'. apply (rf_fresh _ _ _ Hr). destruct (decide (p = p')) as [<-|].
    + by eapply owned_live.
    + by rewrite lookup_insert_ne in Hp'.
Qed.

(** Storing the content a name already has. *)
Lemma refines_same e s a n c :
  refines e s a -> sp_builders a !! n = Some c -> refines e s (with_builders <[n := c]> a).
Proof.
  intros Hr Hn. destruct a as [bs al]. cbn in *. unfold with_builders. cbn.
  by rewrite insert_id.
Qed.

(** The end of a builder: its state is freed. *)
Lemma refines_destroy e s a n b :
  refines e s a -> e !! n = Some b ->
  exists s', builder_destroy b s = Some (tt, s') /\
    refines (delete n e) s' (with_builders (delete n) a).
Proof.
  intros Hr Hn. unfold builder_destroy, when_state.
  assert (forall n' b' p, delete n e !! n' = Some b' -> hb_state b' = Some p ->
    hb_state b = Some p -> False) as Hothers.
  { intros n' b' p [Hne Hn']%lookup_delete_Some Hp' Hp. apply Hne.
    eapply (rf_one_owner _ _ _ Hr); [by exists b|by exists b']. }
  assert (forall m', (forall p, hb_state b <> Some p -> m' !! p = st_states s !! p) ->
    forall n', option_Forall2 (represents m') (delete n e !! n') (delete n (sp_builders a) !! n'))
    as Hcont.
  { intros m' Hm n'. destruct (decide (n = n')) as [<-|Hne].
    - rewrite !lookup_delete_eq. constructor.
    - rewrite !lookup_delete_ne by done. pose proof (rf_content _ _ _ Hr n') as Hn'.
      destruct (e !! n') as [b'|] eqn:He; inversion Hn'; subst; [|constructor]. constructor.
      eapply represents_frame; [done|]. intros p' Hp'. apply Hm. intros Hp.
      eapply Hothers; [|exact Hp'|exact Hp]. by rewrite lookup_delete_ne. }
  assert (forall n1 n2 p, owns (delete n e) n1 p -> owns (delete n e) n2 p -> n1 = n2) as Hone.
  { intros n1 n2 p (b1 & [_ H1]%lookup_delete_Some & Hp1) (b2 & [_ H2]%lookup_delete_Some & Hp2).
    eapply (rf_one_owner _ _ _ Hr); [by exists b1|by exists b2]. }
  assert (forall p, hb_state b <> Some p -> is_Some (st_states s !! p) ->
    exists n', owns (delete n e) n' p) as Hleak.
  { intros p Hp [n' (b' & Hn' & Hp')]%(rf_no_leak _ _ _ Hr). exists n', b'.
    split; [|done]. rewrite lookup_delete_ne; [done|]. congruence. }
  destruct (hb_state b) as [p|] eqn:Hp.
  - destruct (owned_live _ _ _ n p Hr) as [x Hx]; [by exists b|].
    unfold XXH3_freeState. rewrite Hx. eexists. split; [done|]. constructor; cbn.
    + apply Hr.
    + apply Hcont. intros p' Hp'. apply lookup_delete_ne. congruence.
    + done.
    + intros p' [y [Hne Hy]%lookup_delete_Some]. apply Hleak; [congruence|by eexists].
    + intros p' [y [Hne Hy]%lookup_delete_Some]. apply (rf_fresh _ _ _ Hr). by eexists.
  - eexists. split; [done|]. constructor; cbn; try apply Hr; [by apply Hcont|done|].
    intros p' Hp'. by apply Hleak.
Qed.

(** A builder handed over to a free name. *)
Lemma refines_move e s a dst src b c :
  refines e s a -> e !! dst = None -> sp_builders a !! dst = None ->
  e !! src = Some b -> sp_builders a !! src = Some c ->
  refines (<[dst := b]> (<[src := moved_from]> e)) s
    (with_builders (fun bs => <[dst := c]> (<[src := (None, 0)]> bs)) a).
Proof.
  intros Hr Hd Hd' Hs Hs'. assert (dst <> src) as Hne by congruence.
  assert (forall n p, owns (<[dst := b]> (<[src := moved_from]> e)) n p ->
    (n = dst /\ owns e src p) \/ (n <> dst /\ n <> src /\ owns e n p)) as Howns.
  { intros n p (b' & Hn & Hp). destruct (decide (n = dst)) as [->|Hnd].
    - rewrite lookup_insert_eq in Hn. left. simplify_eq. split; [done|by exists b'].
    - rewrite lookup_insert_ne in Hn by done. destruct (decide (n = src)) as [->|Hns].
      + rewrite lookup_insert_eq in Hn. by simplify_eq.
      + rewrite lookup_insert_ne in Hn by done. right. split_and!; [done..|by exists b']. }
  constructor; cbn; try apply Hr.
  - intros n. destruct (decide (n = dst)) as [->|Hnd]; [|destruct (decide (n = src)) as [->|Hns]].
    + rewrite !lookup_insert_eq. constructor. pose proof (rf_content _ _ _ Hr src) as Hc.
      rewrite Hs, Hs' in Hc. by inversion Hc.
    + rewrite !(lookup_insert_ne _ dst) by done. rewrite !lookup_insert_eq. by constructor.
    + rewrite !lookup_insert_ne by done. apply Hr.
  - intros n n' p Hn%Howns Hn'%Howns. pose proof (rf_one_owner _ _ _ Hr) as Hone.
    destruct Hn as [[-> Hn]|(? & ? & Hn)], Hn' as [[-> Hn']|(? & ? & Hn')]; [done| | |eauto].
    + by pose proof (Hone _ _ _ Hn Hn'); subst.
    + by pose proof (Hone _ _ _ Hn Hn'); subst.
  - intros p [n (b' & Hn & Hp)]%(rf_no_leak _ _ _ Hr).
    destruct (decide (n = src)) as [->|Hns].
    + exists dst, b'. rewrite lookup_insert_eq. split; [congruence|done].
    + exists n, b'. rewrite !lookup_insert_ne by congruence. done.
Qed.

(** A new builder on a free name, with the state it got, if any. *)
Lemma construct_one_owner e n b :
  (forall n' n'' p, owns e n' p -> owns e n'' p -> n' = n'') ->
  (forall n' p, owns e n' p -> hb_state b <> Some p) ->
  forall n1 n2 p, owns (<[n := b]> e) n1 p -> owns (<[n := b]> e) n2 p -> n1 = n2.
Proof.
  intros Hone Hnew n1 n2 p (b1 & H1 & Hp1) (b2 & H2 & Hp2).
  rewrite lookup_insert_Some in H1. rewrite lookup_insert_Some in H2.
  destruct H1 as [[<- <-]|[Hne1 H1]], H2 as [[<- <-]|[Hne2 H2]]; [done| | |].
  - exfalso. eapply (Hnew n2 p); [by exists b2|done].
  - exfalso. eapply (Hnew n1 p); [by exists b1|done].
  - eapply Hone; [by exists b1|by exists b2].
Qed.

Lemma owns_insert_old e n b n' p : e !! n = None -> owns e n' p -> owns (<[n := b]> e) n' p.
Proof.
  intros He (b' & Hn' & Hp'). exists b'. rewrite lookup_insert_ne; [done|]. congruence.
Qed.

Lemma refines_construct_ok e s a n seed x0 :
  refines e s a -> sp_builders a !! n = None ->
  refines (<[n := {| hb_state := Some (st_next s); hb_seed := seed |}]> e)
    {| st_states := <[st_next s := xxh_reset x0 seed]> (st_states s);
       st_next := Pos.succ (st_next s); st_allocs := tail (st_allocs s) |}
    {| sp_builders := <[n := (Some [], seed)]> (sp_builders a);
       sp_allocs := tail (sp_allocs a) |}.
Proof.
  intros Hr Hn. pose proof (refines_absent _ _ _ _ Hr Hn) as He. set (p := st_next s).
  assert (forall n' p', owns e n' p' -> p' <> p) as Hnew.
  { intros n' p' Ho ->. pose proof (rf_fresh _ _ _ Hr p (owned_live _ _ _ _ _ Hr Ho)).
    unfold p in *. lia. }
  constructor; cbn.
  - by rewrite (rf_allocs _ _ _ Hr).
  - intros n'. destruct (decide (n' = n)) as [->|Hne].
    + rewrite !lookup_insert_eq. constructor. split; [done|]. cbn.
      exists x0, []. by rewrite lookup_insert_eq.
    + rewrite !lookup_insert_ne by done. pose proof (rf_content _ _ _ Hr n') as Hn'.
      destruct (e !! n') as [b'|] eqn:Hb'; inversion Hn'; subst; [|constructor]. constructor.
      eapply represents_frame; [done|]. intros p' Hp'. apply lookup_insert_ne.
      intros Heq. eapply (Hnew n' p'); [by exists b'|done].
  - apply construct_one_owner; [apply Hr|]. intros n' p' Ho [= Heq]. by eapply Hnew.
  - intros p' [x [[<- _]|[Hne Hx]]%lookup_insert_Some].
    + exists n. eexists. by rewrite lookup_insert_eq.
    + destruct (rf_no_leak _ _ _ Hr p') as (n' & Ho); [by eexists|].
      exists n'. by apply owns_insert_old.
  - intros p' [x [[<- _]|[Hne Hx]]%lookup_insert_Some]; [lia|].
    pose proof (rf_fresh _ _ _ Hr p' ltac:(by eexists)). unfold p. lia.
Qed.

Lemma refines_construct_failed e s a n seed :
  refines e s a -> sp_builders a !! n = None ->
  refines (<[n := {| hb_state := None; hb_seed := seed |}]> e)
    {| st_states := st_states s; st_next := st_next s; st_allocs := tail (st_allocs s) |}
    {| sp_builders := <[n := (None, seed)]> (sp_builders a);
       sp_allocs := tail (sp_allocs a) |}.
Proof.
  intros Hr Hn. pose proof (refines_absent _ _ _ _ Hr Hn) as He.
  constructor; cbn; try apply Hr.
  - by rewrite (rf_allocs _ _ _ Hr).
  - intros n'. destruct (decide (n' = n)) as [->|Hne].
    + rewrite !lookup_insert_eq. by constructor.
    + rewrite !lookup_insert_ne by done. apply Hr.
  - by apply construct_one_owner; [apply Hr|].
  - intros p' (n' & Ho)%(rf_no_leak _ _ _ Hr). exists n'. by apply owns_insert_old.
Qed.

Lemma refines_construct e s a n seed :
  refines e s a -> sp_builders a !! n = None ->
  exists b s', builder_construct seed s = Some (b, s') /\
    refines (<[n := b]> e) s'
      {| sp_builders := <[n := (if default true (head (sp_allocs a)) then Some [] else None,
                                seed)]> (sp_builders a);
         sp_allocs := tail (sp_allocs a) |}.
Proof.
  intros Hr Hn. pose proof (rf_allocs _ _ _ Hr) as Hal.
  unfold builder_construct, mbind, H_bind, XXH3_createState. rewrite Hal.
  pose proof (refines_construct_ok _ _ _ n seed xxh_created Hr Hn) as Hok.
  pose proof (refines_construct_failed _ _ _ n seed Hr Hn) as Hbad.
  rewrite Hal in Hok, Hbad.
  destruct (sp_allocs a) as [|[] al]; do 2 eexists;
    (split; [|first [exact Hok|exact Hbad]]); [..|done];
    unfold when_state, reset_withSeed, state_modify; cbn; rewrite lookup_insert_eq;
    unfold with_states; cbn; by rewrite insert_insert_eq.
Qed.

Lemma digest_run m s b c :
  represents m b c -> st_states s = m -> builder_digest b s = Some (spec_digest c, s).
Proof.
  intros [Hs Hb] <-. unfold builder_digest, spec_digest.
  destruct (hb_state b) as [p|], c as [[bytes|] seed]; cbn in *; try done.
  - destruct Hb as (x0 & chunks & Hp & <-). unfold XXH3_64bits_digest. rewrite Hp, xxh_stream.
    by destruct (concat chunks).
  - by rewrite Hs.
Qed.

Lemma update_run e s a n b bytes seed data :
  refines e s a -> e !! n = Some b -> sp_builders a !! n = Some (bytes, seed) ->
  exists s', builder_update b data s = Some (tt, s') /\
    refines e s' (with_builders <[n := ((fun l => l ++ default [] data) <$> bytes, seed)]> a).
Proof.
  intros Hr Hb Hc. destruct (refines_live _ _ _ _ _ Hr Hc) as (b' & Hb' & Hrep).
  simplify_eq. unfold builder_update. pose proof Hrep as [Hs Hst]. cbn in Hs, Hst.
  destruct (hb_state b) as [p|] eqn:Hp, bytes as [bytes|]; try done; cbn.
  2: { eexists. split; [by destruct data|]. by apply refines_same. }
  destruct Hst as (x0 & chunks & Hx & <-).
  destruct data as [[|y data]|]; cbn.
  1, 3: eexists; split; [done|]; rewrite app_nil_r; by apply refines_same.
  unfold state_modify. rewrite Hx. eexists. split; [done|].
  eapply refines_modify; [done..|]. split; [done|]. rewrite Hp. cbn.
  exists x0, (chunks ++ [y :: data]). rewrite lookup_insert_eq, foldl_app, concat_app. cbn.
  by rewrite app_nil_r.
Qed.

Lemma reset_run e s a n b bytes seed :
  refines e s a -> e !! n = Some b -> sp_builders a !! n = Some (bytes, seed) ->
  exists s', builder_reset b s = Some (tt, s') /\
    refines e s' (with_builders <[n := ((fun _ => []) <$> bytes, seed)]> a).
Proof.
  intros Hr Hb Hc. destruct (refines_live _ _ _ _ _ Hr Hc) as (b' & Hb' & Hrep).
  simplify_eq. unfold builder_reset, when_state. pose proof Hrep as [Hs Hst]. cbn in Hs, Hst.
  destruct (hb_state b) as [p|] eqn:Hp, bytes as [bytes|]; try done; cbn.
  2: { eexists. split; [done|]. by apply refines_same. }
  destruct Hst as (x0 & chunks & Hx & _).
  unfold reset_withSeed, state_modify. rewrite Hx. eexists. split; [done|].
  eapply refines_modify; [done..|]. split; [done|]. rewrite Hp. cbn.
  eexists _, []. by rewrite lookup_insert_eq, Hs.
Qed.

Lemma move_assign_run e s a dst src this other c c' :
  refines e s a -> dst <> src -> e !! dst = Some this -> e !! src = Some other ->
  sp_builders a !! dst = Some c -> sp_builders a !! src = Some c' ->
  exists s', builder_move_assign this other s = Some ((other, moved_from), s') /\
    refines (<[dst := other]> (<[src := moved_from]> e)) s'
      (with_builders (fun bs => <[dst := c']> (<[src := (None, 0)]> bs)) a).
Proof.
  intros Hr Hne Hd Hs Hcd Hcs. destruct (refines_destroy _ _ _ _ _ Hr Hd) as (s' & Hrun & Hr').
  exists s'. split.
  { unfold builder_move_assign, mbind, H_bind, builder_destroy in *. by rewrite Hrun. }
  apply (refines_move _ _ _ dst src other c') in Hr'; try apply lookup_delete_eq;
    try (cbn; by rewrite lookup_delete_ne).
  unfold with_builders in *. cbn in *.
  rewrite <- (delete_insert_ne e), <- (delete_insert_ne (sp_builders a)) in Hr' by done.
  by rewrite (insert_delete_eq (<[src := moved_from]> e)),
    (insert_delete_eq (<[src := (None, 0)]> (sp_builders a))) in Hr'.
Qed.

(** One step. *)
Lemma run_op_refines op e s a a' out :
  refines e s a -> spec_op op a = Some (a', out) ->
  exists e' s', run_op op e s = Some ((e', out), s') /\ refines e' s' a'.
Proof.
  intros Hr Hop. destruct op as [n seed|n|dst src|dst src|n data|n|n]; cbn [spec_op] in Hop.
  - destruct (sp_builders a !! n) eqn:Hn; [done|]. simplify_eq.
    destruct (refines_construct _ _ _ n seed Hr Hn) as (b & s' & Hrun & Hr').
    eexists _, s'. split; [|exact Hr']. cbn. rewrite (refines_absent _ _ _ _ Hr Hn).
    unfold mbind, H_bind. by rewrite Hrun.
  - apply bind_Some in Hop as (c & Hc & Hop). simplify_eq.
    destruct (refines_live _ _ _ _ _ Hr Hc) as (b & Hb & _).
    destruct (refines_destroy _ _ _ _ _ Hr Hb) as (s' & Hrun & Hr').
    eexists _, s'. split; [|exact Hr']. cbn. rewrite Hb. cbn. unfold mbind, H_bind. by rewrite Hrun.
  - destruct (sp_builders a !! dst) eqn:Hd; [done|].
    destruct (sp_builders a !! src) as [c|] eqn:Hc; [|done]. simplify_eq.
    destruct (refines_live _ _ _ _ _ Hr Hc) as (b & Hb & _).
    pose proof (refines_absent _ _ _ _ Hr Hd) as Hd'.
    do 2 eexists. split; [|by apply (refines_move e s a dst src b c)].
    cbn. by rewrite Hd', Hb.
  - apply bind_Some in Hop as (c & Hd & Hop). apply bind_Some in Hop as (c' & Hc & Hop).
    destruct (refines_live _ _ _ _ _ Hr Hd) as (this & Hthis & _).
    destruct (refines_live _ _ _ _ _ Hr Hc) as (other & Hother & _).
    cbn. rewrite Hthis, Hother. cbn. destruct (decide (dst = src)) as [->|Hne]; simplify_eq.
    + by do 2 eexists.
    + destruct (move_assign_run _ _ _ dst src this other c c' Hr) as (s' & Hrun & Hr'); [done..|].
      do 2 eexists. split; [|exact Hr']. unfold mbind, H_bind. by rewrite Hrun.
  - apply bind_Some in Hop as ([bytes seed] & Hc & Hop). simplify_eq.
    destruct (refines_live _ _ _ _ _ Hr Hc) as (b & Hb & _).
    destruct (update_run _ _ _ _ _ _ _ data Hr Hb Hc) as (s' & Hrun & Hr').
    eexists _, s'. split; [|exact Hr']. cbn. rewrite Hb. cbn. unfold mbind, H_bind. by rewrite Hrun.
  - apply bind_Some in Hop as (c & Hc & Hop). simplify_eq.
    destruct (refines_live _ _ _ _ _ Hr Hc) as (b & Hb & Hrep).
    eexists _, s. split; [|exact Hr]. cbn. rewrite Hb. cbn. unfold mbind, H_bind.
    by rewrite (digest_run _ _ _ _ Hrep eq_refl).
  - apply bind_Some in Hop as ([bytes seed] & Hc & Hop). simplify_eq.
    destruct (refines_live _ _ _ _ _ Hr Hc) as (b & Hb & _).
    destruct (reset_run _ _ _ _ _ _ _ Hr Hb Hc) as (s' & Hrun & Hr').
    eexists _, s'. split; [|exact Hr']. cbn. rewrite Hb. cbn. unfold mbind, H_bind. by rewrite Hrun.
Qed.

Lemma run_ops_refines ops e s a a' outs :
  refines e s a -> spec_ops ops a = Some (a', outs) ->
  exists e' s', run_ops ops e s = Some ((e', outs), s') /\ refines e' s' a'.
Proof.
  revert e s a outs. induction ops as [|op ops IH]; intros e s a outs Hr Hops;
    cbn [spec_ops] in Hops; simplify_eq; [by do 2 eexists|].
  apply bind_Some in Hops as ([a1 out] & Hop & Hops).
  apply bind_Some in Hops as ([a2 outs'] & Hops & ?). simplify_eq.
  destruct (run_op_refines _ _ _ _ _ _ Hr Hop) as (e1 & s1 & Hrun & Hr1).
  destruct (IH _ _ _ _ Hr1 Hops) as (e2 & s2 & Hruns & Hr2).
  exists e2, s2. split; [|done]. cbn [run_ops]. unfold mbind, H_bind. by rewrite Hrun, Hruns.
Qed.

Lemma refines_initial allocs :
  refines ∅ {| st_states := ∅; st_next := 1; st_allocs := allocs |}
    {| sp_builders := ∅; sp_allocs := allocs |}.
Proof.
  constructor; cbn; [done| | | |].
  - intros n. rewrite !lookup_empty. constructor.
  - intros n n' p (b & Hb & _). by rewrite lookup_empty in Hb.
  - intros p. rewrite lookup_empty. by intros [].
  - intros p. rewrite lookup_empty. by intros [].
Qed.

(** Any program that creates, moves, updates, resets, digests and destroys
    hash builders, each only while it lives, and whichever allocations fail,
    uses no library state after it was freed and frees none twice; every digest
    is the one-shot hash of the bytes fed since the last reset with the
    builder's seed (of no bytes when the allocation failed or the builder was
    moved from); and the states left are exactly those of the builders left,
    one each. *)
Theorem builders_refine ops allocs a outs :
  spec_ops ops {| sp_builders := ∅; sp_allocs := allocs |} = Some (a, outs) ->
  exists e s,
    run_ops ops ∅ {| st_states := ∅; st_next := 1; st_allocs := allocs |} = Some ((e, outs), s) /\
    dom e = dom (sp_builders a) /\
    (forall p, is_Some (st_states s !! p) <-> exists n, owns e n p) /\
    (forall n n' p, owns e n p -> owns e n' p -> n = n').
Proof.
  intros Hspec.
  destruct (run_ops_refines _ _ _ _ _ _ (refines_initial allocs) Hspec) as (e & s & Hrun & Hr).
  exists e, s. split; [done|]. split_and!.
  - apply set_eq. intros n. rewrite !elem_of_dom. pose proof (rf_content _ _ _ Hr n) as Hn.
    inversion Hn; split; intros []; by eauto.
  - intros p. split; [apply Hr|]. intros [n Hn]. by eapply owned_live.
  - apply Hr.
Qed.

End Refinement.

(** Packing a pair of 64-bit numbers forgets nothing, their order included. *)
Lemma pair_bytes_inj big a b a' b' :
  fits 64 a -> fits 64 b -> fits 64 a' -> fits 64 b' ->
  pair_bytes big a b = pair_bytes big a' b' -> a = a' /\ b = b'.
Proof.
  intros Ha Hb Ha' Hb' Heq. unfold pair_bytes in Heq.
  assert (forall x y, fits 64 x -> fits 64 y -> le_bytes 8 x = le_bytes 8 y -> x = y) as Hle.
  { intros x y Hx Hy Hxy. apply (f_equal le_value) in Hxy. rewrite !le_value_bytes in Hxy.
    change (8 * Z.of_nat 8) with 64 in Hxy. by rewrite !wrap_small in Hxy. }
  apply app_inj_1 in Heq as [H1 H2]; [|by destruct big; unfold be_bytes; rewrite ?length_rev, !le_bytes_length].
  destruct big; unfold be_bytes in *; [apply (f_equal (@rev _)) in H1, H2; rewrite !rev_involutive in H1, H2|];
    split; by apply Hle.
Qed.

End Hash.

(** A concrete hash with the streaming law: the state keeps the seed and the
    bytes, and the hash adds them up. *)
Definition sum_hash (seed : Z) (bytes : list Z) : Z := u64 (seed + foldr Z.add 0 bytes).

#[export] Instance sum_xxh3 : XXH3 (Z * list Z) := {
  xxh64 := sum_hash;
  xxh_created := (0, []);
  xxh_reset _ seed := (seed, []);
  xxh_update x bytes := (x.1, x.2 ++ bytes);
  xxh_digest x := sum_hash x.1 x.2 }.

#[export] Instance sum_streaming : XXH3Streaming (Z * list Z).
Proof.
  intros x seed chunks.
  assert (forall acc, foldl xxh_update (seed, acc) chunks = (seed, acc ++ concat chunks)) as Hfold.
  { induction chunks as [|c chunks IH]; intros acc; [cbn; by rewrite app_nil_r|].
    change (foldl xxh_update (seed, acc ++ c) chunks = (seed, acc ++ (c ++ concat chunks))).
    by rewrite IH, app_assoc. }
  change (xxh_digest (foldl xxh_update (seed, []) chunks) = sum_hash seed (concat chunks)).
  by rewrite Hfold.
Qed.

Definition ex_ops : list builder_op :=
  [Construct "a" 7; Update "a" (Some [1; 2]); MoveConstruct "b" "a"; Update "b" (Some [3]);
   Update "a" (Some [9]); Digest "b"; Digest "a"; Construct "c" 1; MoveAssign "b" "c";
   Digest "b"; Destroy "b"; Destroy "a"]%string.

Lemma builders_refine_witness :
  exists e s, run_ops (X := Z * list Z) ex_ops ∅ {| st_states := ∅; st_next := 1; st_allocs := [true; false] |}
    = Some ((e, [13; 0; 1]), s) /\ st_states s = ∅.
Proof.
  destruct (builders_refine (X := Z * list Z) ex_ops [true; false]
    {| sp_builders := <["c"%string := (None, 0)]> ∅; sp_allocs := [] |} [13; 0; 1])
    as (e & s & Hrun & Hdom & Hown & _); [vm_compute; reflexivity|].
  exists e, s. split; [exact Hrun|]. vm_compute in Hrun. injection Hrun as <- <-. reflexivity.
Defined.
