(* ===== verification/Utils.v ===== *)
(** * The small internal modules (src/olnk/)

    One Module per file: threading.cpp, diagnostics.cpp, handle_header.cpp,
    incremental.cpp, file_io.cpp with memory_map.cpp, and the Lua helpers
    lua_global_utils.cpp, lua_format.cpp, lua_machine.cpp and
    lua_linker_script.cpp. None of them is called by the public API yet; the
    lemmas are the contracts their callers can rely on. *)

From Stdlib Require Import Ascii.
From S2P Require Import Prelude Abi Machine Format World FormatRun Api Endian.

(** ** threading.cpp *)

Module Threading.

(** A std::function is a state change, or empty. *)
Section Runner.
Context {W : Type}.

Definition DeterministicTaskRunner : Type := list (W -> W).

Definition add_task (task : option (W -> W)) (r : DeterministicTaskRunner)
    : DeterministicTaskRunner :=
  match task with Some t => r ++ [t] | None => r end.

Definition run_all_serial (r : DeterministicTaskRunner) (w : W) : W :=
  foldl (fun w task => task w) w r.

Definition task_count (r : DeterministicTaskRunner) : nat := length r.

Definition clear (r : DeterministicTaskRunner) : DeterministicTaskRunner := [].

(** The tasks added run once each in the order of their addition, empty ones
    left out, and again when they are run again. *)
Lemma runner_order tasks w :
  run_all_serial (foldl (fun r t => add_task t r) [] tasks) w
  = foldl (fun w t => match t with Some f => f w | None => w end) w tasks.
Proof.
  assert (forall r, run_all_serial (foldl (fun r t => add_task t r) r tasks) w
    = foldl (fun w t => match t with Some f => f w | None => w end) (run_all_serial r w) tasks)
    as Hgen; [|apply Hgen].
  induction tasks as [|[t|] tasks IH]; intros r; cbn [foldl add_task]; [done| |apply IH].
  rewrite IH. unfold run_all_serial. by rewrite foldl_app.
Qed.
End Runner.

End Threading.

(** ** diagnostics.cpp *)

Module Diagnostics.

Record DiagnosticMessage := { dm_severity : Z; dm_text : string }.

Definition DiagnosticBuffer : Type := list DiagnosticMessage.

Definition push (severity : Z) (message : string) (b : DiagnosticBuffer) : DiagnosticBuffer :=
  b ++ [{| dm_severity := severity; dm_text := message |}].

Definition messages (b : DiagnosticBuffer) : list DiagnosticMessage := b.

(** The severities are those of olnk-api.h: note, warning, error, fatal. *)
Definition severity_to_string (severity : Z) : string :=
  match severity with
  | 0 => "note"
  | 1 => "warning"
  | 2 => "error"
  | 3 => "fatal"
  | _ => "unknown"
  end.

Definition format_diagnostic (severity : Z) (message : string) : string :=
  ("[" ++ severity_to_string severity ++ "] " ++ message)%string.

Lemma string_app_inj (s t1 t2 : string) : (s ++ t1 = s ++ t2)%string -> t1 = t2.
Proof. induction s as [|c s IH]; cbn; [done|]. intros [= Heq]. by apply IH. Qed.

(** The text determines the message and, among the four severities, the
    severity. *)
Lemma format_diagnostic_inj sev sev' msg msg' :
  0 <= sev < 4 -> 0 <= sev' < 4 ->
  format_diagnostic sev msg = format_diagnostic sev' msg' -> sev = sev' /\ msg = msg'.
Proof.
  intros Hs Hs' Heq.
  assert (sev = 0 \/ sev = 1 \/ sev = 2 \/ sev = 3) as Hsev by lia.
  assert (sev' = 0 \/ sev' = 1 \/ sev' = 2 \/ sev' = 3) as Hsev' by lia.
  destruct Hsev as [->|[->|[->| ->]]], Hsev' as [->|[->|[->| ->]]]; cbn in Heq;
    injection Heq; intros; by subst.
Qed.

End Diagnostics.

(** ** handle_header.cpp *)

Module Header.

Inductive HeaderParseStatus : Set := kOk | kInvalidArgument | kTooSmall | kUnsupported.

(** [None] is a null data pointer. *)
Definition HeaderView : Type := option (list Z).

Record ParsedHeaderInfo := { magic : Z; machine : Z; kind : Z }.

Definition no_info : ParsedHeaderInfo := {| magic := 0; machine := 0; kind := 0 |}.

(** The fields as the code puts them together. *)
Definition byte_at (bytes : list Z) (i : nat) : Z := default 0 (bytes !! i).
Definition u16_at (bytes : list Z) (i : nat) : Z :=
  u16 (byte_at bytes i) .| (u16 (byte_at bytes (S i)) .<< 8).
Definition u32_at (bytes : list Z) (i : nat) : Z :=
  ((byte_at bytes i .| (byte_at bytes (i + 1) .<< 8)) .| (byte_at bytes (i + 2) .<< 16))
  .| (byte_at bytes (i + 3) .<< 24).

(** With an output object; without one the status is kInvalidArgument. *)
Definition parse_header_prefix (input : HeaderView) : HeaderParseStatus * ParsedHeaderInfo :=
  match input with
  | None | Some [] => (kInvalidArgument, no_info)
  | Some bytes =>
      if bool_decide (length bytes < 8)%nat then (kTooSmall, no_info)
      else (kOk, {| magic := u32 (u32_at bytes 0); machine := u16 (u16_at bytes 4);
                    kind := u16 (u16_at bytes 6) |})
  end.

Lemma lor_byte a b w : 0 <= w -> fits w a -> a .| (b .<< w) = a + 2 ^ w * b.
Proof. intros Hw Ha. rewrite Z.lor_comm, lor_shift_add by done. lia. Qed.

(** A prefix of eight bytes is accepted and its fields are the little-endian
    numbers at 0, 4 and 6; anything shorter is rejected with no information. *)
Lemma parse_header_correct bytes :
  bytes_ok bytes ->
  match parse_header_prefix (Some bytes) with
  | (kOk, info) =>
      (8 <= length bytes)%nat /\
      bytes = le_bytes 4 (magic info) ++ le_bytes 2 (machine info) ++ le_bytes 2 (kind info)
                ++ drop 8 bytes
  | (_, info) => (length bytes < 8)%nat /\ info = no_info
  end.
Proof.
  intros Hok. destruct bytes as [|b0 bytes]; [cbn; split; [lia|done]|].
  unfold parse_header_prefix. case_bool_decide as Hlen; [done|].
  destruct bytes as [|b1 [|b2 [|b3 [|b4 [|b5 [|b6 [|b7 bytes]]]]]]]; cbn in Hlen; try lia.
  repeat (apply Forall_cons in Hok as [? Hok]). split; [cbn; lia|].
  assert (forall b, fits 8 b -> fits 16 b) as H16 by (unfold fits; lia).
  unfold u16_at, u32_at, byte_at. cbn [lookup list_lookup default Nat.add from_option id magic
    machine kind].
  rewrite (wrap_small 16 b4), (wrap_small 16 b5), (wrap_small 16 b6), (wrap_small 16 b7) by auto.
  unfold fits in *.
  rewrite (lor_byte b0 b1 8), (lor_byte _ b2 16), (lor_byte _ b3 24), (lor_byte b4 b5 8),
    (lor_byte b6 b7 8) by (unfold fits; lia).
  cbn [le_bytes app drop]. unfold wrap. repeat f_equal; divmod_lia.
Qed.

End Header.
(** ** incremental.cpp *)

Module Incremental.

Inductive IncrementalStatus : Set :=
  | kOk | kDisabled | kInvalidArgument | kCacheMiss | kIncompatible | kIoFailure.

Record IncrementalMetadata := { schema_version : Z; key : string }.

Definition no_metadata : IncrementalMetadata := {| schema_version := 1; key := EmptyString |}.

Record IncrementalLoadResult := {
  lr_status : IncrementalStatus; lr_metadata : IncrementalMetadata }.

Record IncrementalCache := {
  supported_schema_version_ : Z;
  entries_ : gmap string IncrementalMetadata }.

Definition make_cache (supported : Z) : IncrementalCache :=
  {| supported_schema_version_ := supported; entries_ := ∅ |}.

Definition try_load (cache_key : string) (on_disk_schema_version : Z) (c : IncrementalCache)
    : IncrementalLoadResult :=
  let failed status := {| lr_status := status; lr_metadata := no_metadata |} in
  if (cache_key =? "")%string then failed kInvalidArgument
  else if negb (on_disk_schema_version =? supported_schema_version_ c) then failed kIncompatible
  else match entries_ c !! cache_key with
       | None => failed kCacheMiss
       | Some m => {| lr_status := kOk; lr_metadata := m |}
       end.

Definition store (m : IncrementalMetadata) (c : IncrementalCache)
    : IncrementalStatus * IncrementalCache :=
  if (key m =? "")%string then (kInvalidArgument, c)
  else if negb (schema_version m =? supported_schema_version_ c) then (kIncompatible, c)
  else (kOk, {| supported_schema_version_ := supported_schema_version_ c;
                entries_ := <[key m := m]> (entries_ c) |}).

(** The metadata a cache of a version accepts. *)
Definition acceptable (version : Z) (m : IncrementalMetadata) : bool :=
  negb (key m =? "")%string && (schema_version m =? version).

Lemma store_entries m c :
  let c' := (store m c).2 in
  supported_schema_version_ c' = supported_schema_version_ c /\
  entries_ c' = (if acceptable (supported_schema_version_ c) m
                 then <[key m := m]> (entries_ c) else entries_ c).
Proof.
  unfold store, acceptable. destruct (key m =? "")%string; [done|].
  by destruct (schema_version m =? supported_schema_version_ c).
Qed.

(** Whatever was stored before, loading finds exactly the keys of which some
    acceptable metadata was stored, as they were stored last. *)
Lemma try_load_correct supported ms k :
  k <> ""%string ->
  try_load k supported (foldl (fun c m => (store m c).2) (make_cache supported) ms)
  = match find_first (fun m => acceptable supported m && (key m =? k)%string) (rev ms) with
    | Some m => {| lr_status := kOk; lr_metadata := m |}
    | None => {| lr_status := kCacheMiss; lr_metadata := no_metadata |}
    end.
Proof.
  intros Hk. set (c := foldl _ _ ms).
  assert (supported_schema_version_ c = supported /\
    entries_ c !! k = find_first (fun m => acceptable supported m && (key m =? k)%string) (rev ms))
    as [Hv He].
  { unfold c. clear c. induction ms as [|m ms [IHv IHe]] using rev_ind; [done|].
    rewrite foldl_app, rev_app_distr. cbn [foldl rev app find_first].
    set (c := foldl _ _ ms) in *. destruct (store_entries m c) as [Hv ->].
    rewrite Hv, IHv. split; [done|]. destruct (acceptable supported m); cbn; [|done].
    destruct (String.eqb_spec (key m) k) as [->|Hne].
    - by rewrite lookup_insert_eq.
    - by rewrite lookup_insert_ne. }
  unfold try_load. rewrite Hv, He, Z.eqb_refl.
  destruct (String.eqb_spec k ""); [done|]. cbn [negb]. by destruct (find_first _ _).
Qed.

End Incremental.

(** ** file_io.cpp and memory_map.cpp *)

Module FileIo.

Inductive FileIoStatus : Set :=
  | kOk | kInvalidArgument | kOpenFailed | kReadFailed | kWriteFailed | kPartialWrite.

Record FileReadResult := { fr_status : FileIoStatus; fr_bytes : string }.
Record FileWriteResult := { fw_status : FileIoStatus; fw_bytes_written : Z }.

(** What the file system does with a file opened for reading. *)
Inductive read_outcome : Set :=
  | CannotOpen | NoSize | ReadFails | Reads (bytes : string).

Definition read_file_all (fs : string -> read_outcome) (path : string) : FileReadResult :=
  if (path =? "")%string then {| fr_status := kInvalidArgument; fr_bytes := "" |}
  else match fs path with
       | CannotOpen => {| fr_status := kOpenFailed; fr_bytes := "" |}
       | NoSize | ReadFails => {| fr_status := kReadFailed; fr_bytes := "" |}
       | Reads bytes => {| fr_status := kOk; fr_bytes := bytes |}
       end.

(** [None] is a null pointer, for which [size] may be anything. *)
Definition write_file_all (path : string) (data : option string) (size : Z) : M FileWriteResult :=
  let failed status := mret {| fw_status := status; fw_bytes_written := 0 |} in
  if (path =? "")%string || (bool_decide (data = None) && negb (size =? 0))
  then failed kInvalidArgument
  else
    let bytes := default ""%string data in
    w ← get;
    match w_disk w path with
    | OpenFails => failed kOpenFailed
    | WriteFails n =>
        if (bytes =? "")%string
        then _ ← modify (with_files (<[path := ""%string]> (w_files w)));
             mret {| fw_status := kOk; fw_bytes_written := 0 |}
        else _ ← modify (with_files (<[path := String.substring 0 n bytes]> (w_files w)));
             failed kWriteFailed
    | CloseFails n =>
        _ ← modify (with_files (<[path := String.substring 0 n bytes]> (w_files w)));
        mret {| fw_status := kOk; fw_bytes_written := size |}
    | WriteOk =>
        _ ← modify (with_files (<[path := bytes]> (w_files w)));
        mret {| fw_status := kOk; fw_bytes_written := size |}
    end.

(** A file system that reads what a world holds. *)
Definition reads_of (w : world) (path : string) : read_outcome :=
  match w_files w !! path with Some bytes => Reads bytes | None => CannotOpen end.

(** What was written without a failure of the disk is read back. *)
Lemma write_then_read path bytes w :
  path <> ""%string -> w_disk w path = WriteOk ->
  wp true (write_file_all path (Some bytes) (Z.of_nat (String.length bytes))) w (fun r w' =>
    r = {| fw_status := kOk; fw_bytes_written := Z.of_nat (String.length bytes) |} /\
    read_file_all (reads_of w') path = {| fr_status := kOk; fr_bytes := bytes |}).
Proof.
  intros Hp Hd. unfold write_file_all. destruct (String.eqb_spec path ""); [done|].
  rewrite bool_decide_eq_false_2 by done. cbn [orb andb default].
  apply wp_bind, wp_get. rewrite Hd. apply wp_bind, wp_modify, wp_ret. split; [done|].
  unfold read_file_all, reads_of. destruct (String.eqb_spec path ""); [done|].
  cbn [w_files with_files]. by rewrite lookup_insert_eq.
Qed.

(** The flush of the stream happens when it is destroyed, after the status was
    taken: a write that fails there is reported as complete. *)
Lemma write_unflushed path bytes n w :
  path <> ""%string -> w_disk w path = CloseFails n ->
  wp true (write_file_all path (Some bytes) (Z.of_nat (String.length bytes))) w (fun r w' =>
    r = {| fw_status := kOk; fw_bytes_written := Z.of_nat (String.length bytes) |} /\
    w_files w' !! path = Some (String.substring 0 n bytes)).
Proof.
  intros Hp Hd. unfold write_file_all. destruct (String.eqb_spec path ""); [done|].
  rewrite bool_decide_eq_false_2 by done. cbn [orb andb default].
  apply wp_bind, wp_get. rewrite Hd. apply wp_bind, wp_modify, wp_ret. split; [done|].
  apply lookup_insert_eq.
Qed.

End FileIo.

Module MemoryMap.
Import FileIo.

Inductive MemoryMapStatus : Set := kOk | kInvalidArgument | kOpenFailed | kReadFailed.

(** The data pointer is null for an empty buffer. *)
Record MemoryMapView := { mv_data : option string; mv_size : Z }.

(** The member buffer_. *)
Definition MemoryMappedFile : Type := string.

Definition open (fs : string -> read_outcome) (path : string) (f : MemoryMappedFile)
    : MemoryMapStatus * MemoryMappedFile :=
  if (path =? "")%string then (kInvalidArgument, ""%string)
  else match fs path with
       | CannotOpen => (kOpenFailed, ""%string)
       | NoSize | ReadFails => (kReadFailed, ""%string)
       | Reads bytes => (kOk, bytes)
       end.

Definition view (f : MemoryMappedFile) : MemoryMapView :=
  {| mv_data := if (f =? "")%string then None else Some f;
     mv_size := Z.of_nat (String.length f) |}.

Definition close (f : MemoryMappedFile) : MemoryMappedFile := ""%string.

(** Opening anew shows the file exactly when it can be read, and nothing of
    what was open before otherwise; the two readers agree. *)
Lemma open_view fs path f :
  let r := read_file_all fs path in
  let '(st, f') := open fs path f in
  default ""%string (mv_data (view f')) = fr_bytes r /\
  mv_size (view f') = Z.of_nat (String.length (fr_bytes r)) /\
  (st = kOk <-> fr_status r = FileIo.kOk).
Proof.
  unfold read_file_all, open, view. destruct (path =? "")%string; [done|].
  destruct (fs path) as [| | |bytes]; try (split_and!; done).
  destruct (String.eqb_spec bytes "") as [->|]; done.
Qed.

End MemoryMap.

(** ** The Lua helpers *)

Module LuaUtils.

(** std::isalnum and std::isspace in the C locale. *)
Definition isalnum (n : Z) : bool :=
  ((48 <=? n) && (n <=? 57)) || ((65 <=? n) && (n <=? 90)) || ((97 <=? n) && (n <=? 122)).
Definition isspace (n : Z) : bool := ((9 <=? n) && (n <=? 13)) || (n =? 32).

Definition identifier_char (n : Z) : bool :=
  isalnum n || (n =? 95) || (n =? 45) || (n =? 46).

(** Strings are their bytes. *)
Definition lua_identifier_is_ascii (value : list Z) : bool :=
  match value with [] => false | _ => forallb identifier_char value end.

(** The two loops over the bounds of the result. *)
Fixpoint trim_begin (fuel : nat) (value : list Z) (b e : nat) : nat :=
  match fuel with
  | O => b
  | S fuel =>
      if bool_decide (b < e)%nat && isspace (default 0 (value !! b))
      then trim_begin fuel value (S b) e else b
  end.

Fixpoint trim_end (value : list Z) (b e : nat) : nat :=
  match e with
  | O => O
  | S e' =>
      if bool_decide (b < e)%nat && isspace (default 0 (value !! e'))
      then trim_end value b e' else e
  end.

Definition lua_trim_ascii_whitespace (value : list Z) : list Z :=
  let b := trim_begin (length value) value 0 (length value) in
  let e := trim_end value b (length value) in
  take (e - b) (drop b value).

Fixpoint drop_spaces (value : list Z) : list Z :=
  match value with
  | c :: rest => if isspace c then drop_spaces rest else value
  | [] => []
  end.

Lemma trim_begin_drop value b fuel :
  (length value <= b + fuel)%nat ->
  drop (trim_begin fuel value b (length value)) value = drop_spaces (drop b value).
Proof.
  revert b. induction fuel as [|fuel IH]; intros b Hf; cbn [trim_begin].
  - by rewrite drop_ge by lia.
  - case_bool_decide as Hb; cbn [andb].
    + destruct (lookup_lt_is_Some_2 value b Hb) as [c Hc]. rewrite Hc.
      rewrite (drop_S value c b) by done. cbn [default from_option id drop_spaces].
      destruct (isspace c); [apply IH; lia|]. by apply drop_S.
    + by rewrite drop_ge by lia.
Qed.

Lemma trim_end_take value b e :
  (b <= e <= length value)%nat ->
  take (trim_end value b e - b) (drop b value) = rev (drop_spaces (rev (take (e - b) (drop b value)))).
Proof.
  induction e as [|e IH]; intros [Hb He]; cbn [trim_end].
  - by rewrite take_0.
  - case_bool_decide as Hlt; cbn [andb].
    2: { replace (S e - b)%nat with 0%nat by lia. done. }
    destruct (lookup_lt_is_Some_2 value e ltac:(lia)) as [c Hc]. rewrite Hc.
    replace (S e - b)%nat with (S (e - b)) by lia.
    rewrite (take_S_r (drop b value) (e - b) c)
      by (rewrite lookup_drop; replace (b + (e - b))%nat with e by lia; done).
    rewrite rev_app_distr. cbn [rev app default from_option id drop_spaces].
    destruct (isspace c).
    + rewrite IH by lia. done.
    + cbn [rev]. rewrite rev_involutive.
      replace (S e - b)%nat with (S (e - b)) by lia.
      rewrite (take_S_r (drop b value) (e - b) c); [done|].
      rewrite lookup_drop. by replace (b + (e - b))%nat with e by lia.
Qed.

(** Trimming removes exactly the whitespace at the two ends. *)
Lemma trim_correct value :
  lua_trim_ascii_whitespace value = rev (drop_spaces (rev (drop_spaces value))).
Proof.
  unfold lua_trim_ascii_whitespace. set (b := trim_begin _ _ _ _).
  pose proof (trim_begin_drop value 0 (length value) ltac:(lia)) as Hb. fold b in Hb.
  rewrite drop_0 in Hb.
  assert (b <= length value)%nat as Hle.
  { assert (forall fuel b, (b <= length value)%nat ->
      (trim_begin fuel value b (length value) <= length value)%nat) as Hgen.
    { induction fuel as [|fuel IH]; intros b' Hb'; cbn [trim_begin]; [done|].
      case_bool_decide; cbn [andb]; [destruct (isspace _); [apply IH; lia|done]|done]. }
    apply Hgen. lia. }
  rewrite trim_end_take by lia. rewrite (take_ge (drop b value)) by (rewrite length_drop; lia).
  by rewrite Hb.
Qed.

(** lua_format.cpp *)
Record LuaFormatSchema := {
  fmt_name : string; fmt_kind : string;
  has_get_properties : bool; has_validate_config : bool; has_serialize : bool }.

Definition validate_lua_format_schema (s : LuaFormatSchema) : olnk_status :=
  if (fmt_name s =? "")%string || (fmt_kind s =? "")%string then OLNK_STATUS_INVALID_ARGUMENT
  else if negb (has_get_properties s) || negb (has_validate_config s) || negb (has_serialize s)
  then OLNK_STATUS_INVALID_ARGUMENT
  else OLNK_STATUS_OK.

(** The status and what is stored through [out_definition], when there is one:
    always a null pointer. *)
Definition make_lua_format_definition_stub {D} (s : LuaFormatSchema) (out_definition : bool)
    : olnk_status * option (option D) :=
  if negb out_definition then (OLNK_STATUS_INVALID_ARGUMENT, None)
  else
    let status := validate_lua_format_schema s in
    if negb (bool_decide (status = OLNK_STATUS_OK)) then (status, Some None)
    else (OLNK_STATUS_NOT_IMPLEMENTED, Some None).

(** lua_machine.cpp *)
Record LuaMachineSchema := {
  mach_name : string; mach_arch : string; default_section_alignment : Z;
  supports_relocations : bool; has_validate_output_kind : bool }.

Definition validate_lua_machine_schema (s : LuaMachineSchema) : olnk_status :=
  if (mach_name s =? "")%string || (mach_arch s =? "")%string then OLNK_STATUS_INVALID_ARGUMENT
  else if default_section_alignment s =? 0 then OLNK_STATUS_INVALID_ARGUMENT
  else if negb (has_validate_output_kind s) then OLNK_STATUS_INVALID_ARGUMENT
  else OLNK_STATUS_OK.

Definition make_lua_machine_definition_stub {D} (s : LuaMachineSchema) (out_definition : bool)
    : olnk_status * option (option D) :=
  if negb out_definition then (OLNK_STATUS_INVALID_ARGUMENT, None)
  else
    let status := validate_lua_machine_schema s in
    if negb (bool_decide (status = OLNK_STATUS_OK)) then (status, Some None)
    else (OLNK_STATUS_NOT_IMPLEMENTED, Some None).

(** lua_linker_script.cpp *)
Record LuaScriptRequest := { script_path : string; entry_function : string }.

Definition validate_lua_script_request (r : LuaScriptRequest) : olnk_status :=
  if (script_path r =? "")%string || (entry_function r =? "")%string
  then OLNK_STATUS_INVALID_ARGUMENT else OLNK_STATUS_OK.

End LuaUtils.
