(* ===== verification/Leb128.v ===== *)
(** LEB128: libbfd.c's readers of variable-length integers (unsigned, signed
    and bounded) and the writer of unsigned ones. *)

From S2P Require Import Prelude.

(** ** The routines *)

(** One byte of the readers' loops: seven more bits while they fit in
    [bfd_vma]. *)
Definition leb_step (byte result shift : Z) : Z * Z :=
  if shift <? 8 * 8 then (result .| u64 ((byte .& 0x7f) .<< shift), shift + 7)
  else (result, shift).

(** The do-while loop of the unbounded readers; reading past the buffer has no
    result. *)
Fixpoint leb_read_loop (buf : list Z) (result shift num_read : Z) : option (Z * Z * Z * Z) :=
  match buf with
  | [] => None
  | byte :: buf =>
      let num_read := u32 (num_read + 1) in
      let '(result, shift) := leb_step byte result shift in
      if byte .& 0x80 =? 0 then Some (result, shift, num_read, byte)
      else leb_read_loop buf result shift num_read
  end.

Definition bfd_read_unsigned_leb128 (buf : list Z) : option (Z * Z) :=
  '(result, shift, num_read, byte) ← leb_read_loop buf 0 0 0;
  Some (result, num_read).

Definition bfd_read_signed_leb128 (buf : list Z) : option (Z * Z) :=
  '(result, shift, num_read, byte) ← leb_read_loop buf 0 0 0;
  let result :=
    if (shift <? 8 * 8) && negb (byte .& 0x40 =? 0)
    then result .| u64 (UINT64_MAX .<< shift) else result in
  Some (sext 64 result, num_read).

(** The while loop of the bounded reader over the bytes before [end]. *)
Fixpoint leb_safe_loop (data : list Z) (result shift byte : Z) : Z * Z * Z * list Z :=
  match data with
  | [] => (result, shift, byte, [])
  | byte :: data =>
      let '(result, shift) := leb_step byte result shift in
      if byte .& 0x80 =? 0 then (result, shift, byte, data)
      else leb_safe_loop data result shift byte
  end.

(** The value, and what is left from the updated [*ptr] on. *)
Definition bfd_safe_read_leb128 (data : list Z) (sign : bool) : Z * list Z :=
  let '(result, shift, byte, data) := leb_safe_loop data 0 0 0 in
  let result :=
    if sign && (shift <? 8 * 8) && negb (byte .& 0x40 =? 0)
    then result .| u64 (- (1 .<< shift)) else result in
  (result, data).

(** The writer on a memory [mem] with indices [p] and [end]: [None] for a
    store outside the memory, [Some (None, _)] for the null result. *)
Fixpoint leb_write_loop (fuel : nat) (mem : list Z) (p end_ : nat) (val : Z)
    : option (option nat * list Z) :=
  match fuel with
  | O => None
  | S fuel =>
      if (end_ <? p)%nat then Some (None, mem)
      else
        let c := val .& 0x7f in
        let val := val .>> 7 in
        let c := if val =? 0 then c else c .| 0x80 in
        if (p <? length mem)%nat then
          let mem := <[p := c]> mem in
          let p := (p + 1)%nat in
          if val =? 0 then Some (Some p, mem) else leb_write_loop fuel mem p end_ val
        else None
  end.

(** Ten rounds consume a 64-bit value. *)
Definition bfd_write_unsigned_leb128 (mem : list Z) (p end_ : nat) (val : Z)
    : option (option nat * list Z) :=
  leb_write_loop 10 mem p end_ val.

(** ** The specification: base-128 digits, least significant first *)

Fixpoint uleb_value (enc : list Z) : Z :=
  match enc with
  | [] => 0
  | b :: enc => b mod 128 + 128 * uleb_value enc
  end.

(** The sign bit is bit 6 of the last byte. *)
Definition sleb_value (enc : list Z) : Z :=
  match last enc with
  | Some b => if Z.testbit b 6 then uleb_value enc - 2 ^ (7 * Z.of_nat (length enc))
              else uleb_value enc
  | None => 0
  end.

(** The encoding a buffer starts with, up to the first byte without the
    continuation bit, or the whole buffer. *)
Fixpoint leb_take (buf : list Z) : list Z * list Z :=
  match buf with
  | [] => ([], [])
  | b :: buf => if b <? 128 then ([b], buf) else let '(enc, rest) := leb_take buf in (b :: enc, rest)
  end.

(** Whether it is terminated within the buffer. *)
Definition leb_terminated (buf : list Z) : bool := existsb (fun b => b <? 128) buf.

(** Number of bytes of the shortest encoding. *)
Definition uleb_size (val : Z) : Z := Z.log2 val / 7 + 1.

(** ** Lemmas *)

Lemma land_127 b : b .& 127 = b mod 128.
Proof. apply (Z.land_ones b 7). lia. Qed.

(** Testing one bit of a byte by masking. *)
Lemma land_bit b n : 0 <= n -> (b .& 2 ^ n =? 0) = negb (Z.testbit b n).
Proof.
  intros Hn. destruct (Z.eqb_spec (b .& 2 ^ n) 0) as [H|H].
  - destruct (Z.testbit b n) eqn:Hb; [|done].
    apply (f_equal (fun z => Z.testbit z n)) in H.
    rewrite Z.land_spec, Hb, Z.bits_0, Z.pow2_bits_true in H by done. done.
  - destruct (Z.testbit b n) eqn:Hb; [done|]. destruct H. apply Z.bits_inj'. intros i Hi.
    rewrite Z.land_spec, Z.bits_0, Z.pow2_bits_eqb by done.
    destruct (Z.eqb_spec n i) as [<-|]; [by rewrite Hb|apply andb_false_r].
Qed.

Lemma continuation_bit b : is_byte b -> (b .& 0x80 =? 0) = (b <? 128).
Proof.
  intros [Hb1 Hb2]. change 0x80 with (2 ^ 7). rewrite land_bit, Z.testbit_eqb by lia.
  change (2 ^ 7) with 128. change (2 ^ 8) with 256 in *.
  destruct (Z.ltb_spec b 128).
  - by rewrite Z.div_small by lia.
  - replace (b / 128) with 1; [done|]. apply (Z.div_unique _ _ _ (b - 128)); lia.
Qed.

Lemma uleb_value_app l1 l2 :
  uleb_value (l1 ++ l2) = uleb_value l1 + 2 ^ (7 * Z.of_nat (length l1)) * uleb_value l2.
Proof.
  induction l1 as [|b l IH]; cbn [app uleb_value length]; [simpl; lia|].
  rewrite IH. replace (7 * Z.of_nat (S (length l))) with (7 + 7 * Z.of_nat (length l)) by lia.
  rewrite Z.pow_add_r by lia. lia.
Qed.

Lemma uleb_value_range l : fits (7 * Z.of_nat (length l)) (uleb_value l).
Proof.
  induction l as [|b l [IH1 IH2]]; cbn [uleb_value length]; [unfold fits; simpl; lia|].
  replace (7 * Z.of_nat (S (length l))) with (7 + 7 * Z.of_nat (length l)) by lia.
  unfold fits in *. rewrite Z.pow_add_r by lia. pose proof (Z.mod_pos_bound b 128). lia.
Qed.

(** The accumulator after the bytes [done] were read. *)
Definition leb_acc (enc : list Z) : Z := u64 (uleb_value enc).
Definition leb_shift (enc : list Z) : Z := 7 * Z.min (Z.of_nat (length enc)) 10.

Lemma leb_step_acc enc b :
  leb_step b (leb_acc enc) (leb_shift enc) = (leb_acc (enc ++ [b]), leb_shift (enc ++ [b])).
Proof.
  unfold leb_step, leb_acc, leb_shift. rewrite uleb_value_app, length_app. cbn [uleb_value length].
  rewrite Z.mul_0_r, Z.add_0_r. set (k := Z.of_nat (length enc)).
  pose proof (uleb_value_range enc) as HV. fold k in HV. set (V := uleb_value enc) in *.
  rewrite Nat2Z.inj_add. fold k. pose proof (Z.mod_pos_bound b 128 ltac:(lia)) as Hb.
  destruct (Z.ltb_spec (7 * Z.min k 10) (8 * 8)).
  - rewrite land_127. rewrite (Z.min_l k) by lia. rewrite Z.min_l by lia. f_equal; [|lia].
    assert (0 <= k <= 9) by lia. assert (2 ^ (7 * k) <= 2 ^ 63) by (apply Z.pow_le_mono_r; lia).
    destruct HV as [HV1 HV2]. pose proof (pow2_pos (7 * k) ltac:(lia)) as Hpos.
    rewrite (wrap_small 64 V) by (unfold fits; lia). rewrite Z.shiftl_mul_pow2, Z.lor_comm by lia.
    assert (2 ^ 64 = 2 ^ (64 - 7 * k) * 2 ^ (7 * k)) as H64.
    { rewrite <- Z.pow_add_r by lia. f_equal. lia. }
    assert (u64 (b mod 128 * 2 ^ (7 * k)) = (b mod 128) mod 2 ^ (64 - 7 * k) * 2 ^ (7 * k)) as Hw.
    { unfold wrap. rewrite H64. apply Zmult_mod_distr_r. }
    rewrite Hw. rewrite <- Z.shiftl_mul_pow2, lor_shift_add, <- Hw by (done || lia).
    pose proof (Z.mod_pos_bound (b mod 128) (2 ^ (64 - 7 * k)) ltac:(apply pow2_pos; lia)).
    rewrite <- (wrap_add_r 64 V) by lia. rewrite (Z.mul_comm (2 ^ _)), Z.add_comm.
    symmetry. apply wrap_small. unfold fits. rewrite Hw. nia.
  - rewrite !Z.min_r by lia. f_equal. unfold wrap.
    replace (7 * k) with (64 + (7 * k - 64)) by lia. rewrite Z.pow_add_r by lia.
    rewrite <- Z.mul_assoc, (Z.mul_comm (2 ^ 64)), Z_mod_plus_full. done.
Qed.

Lemma leb_take_app buf : let '(enc, rest) := leb_take buf in buf = enc ++ rest.
Proof.
  induction buf as [|b buf IH]; simpl; [done|]. destruct (b <? 128); [done|].
  destruct (leb_take buf). by subst.
Qed.

(** Both loops consume the encoding the buffer starts with. *)
Lemma leb_read_loop_spec buf pre n :
  bytes_ok buf -> leb_terminated buf = true ->
  let enc := (leb_take buf).1 in
  exists byte, last enc = Some byte /\
    leb_read_loop buf (leb_acc pre) (leb_shift pre) n =
    Some (leb_acc (pre ++ enc), leb_shift (pre ++ enc),
          u32 (u32 n + Z.of_nat (length enc)), byte).
Proof.
  intros Hok. revert pre n. induction Hok as [|b buf Hb Hok IH]; intros pre n Ht; [done|].
  cbn [leb_terminated existsb] in Ht. cbn [leb_read_loop leb_take].
  rewrite leb_step_acc, continuation_bit by done. destruct (b <? 128) eqn:Hlt.
  - exists b. split; [done|]. cbn [fst length]. by rewrite wrap_add_l by lia.
  - destruct (IH (pre ++ [b]) (u32 (n + 1)) Ht) as (byte & Hlast & Heq).
    exists byte. destruct (leb_take buf) as [enc rest]. cbn [fst] in *. split.
    + by destruct enc.
    + rewrite Heq, <- app_assoc. cbn [app length].
      rewrite wrap_idemp, !wrap_add_l by lia. do 4 f_equal. lia.
Qed.

Lemma leb_safe_loop_spec data pre byte :
  bytes_ok data ->
  let '(enc, rest) := leb_take data in
  leb_safe_loop data (leb_acc pre) (leb_shift pre) byte =
  (leb_acc (pre ++ enc), leb_shift (pre ++ enc), default byte (last enc), rest).
Proof.
  intros Hok. revert pre byte. induction Hok as [|b data Hb Hok IH]; intros pre byte.
  - cbn. by rewrite app_nil_r.
  - cbn [leb_safe_loop leb_take]. rewrite leb_step_acc, continuation_bit by done.
    destruct (b <? 128); [done|]. specialize (IH (pre ++ [b]) b).
    destruct (leb_take data) as [enc rest]. rewrite IH, <- app_assoc. cbn [app].
    do 2 f_equal. destruct enc as [|e enc]; [done|]. rewrite last_cons_cons.
    by destruct (last (e :: enc)) eqn:?; [|destruct (last_None (e :: enc)); naive_solver].
Qed.

Lemma last_take_nonempty buf :
  buf <> [] -> exists b, last (leb_take buf).1 = Some b.
Proof.
  induction buf as [|b buf IH]; [done|]. intros _. cbn [leb_take].
  destruct (b <? 128); [by exists b|]. destruct buf as [|b' buf]; [by exists b|].
  destruct (leb_take (b' :: buf)) as [enc rest]. destruct (IH ltac:(done)) as [x Hx].
  exists x. cbn [fst] in *. destruct enc; [done|]. by rewrite last_cons_cons.
Qed.

(** 2^(7k) vanishes in 64 bits from ten bytes on. *)
Lemma pow_7_wrap k V : 10 <= k -> u64 (V - 2 ^ (7 * k)) = u64 V.
Proof.
  intros Hk. unfold wrap. replace (7 * k) with (7 * k - 64 + 64) by lia.
  rewrite Z.pow_add_r by lia.
  replace (V - 2 ^ (7 * k - 64) * 2 ^ 64) with (V + - 2 ^ (7 * k - 64) * 2 ^ 64) by lia.
  apply Z_mod_plus_full.
Qed.

(** Both sign extensions of the code or in the bits above [shift]. *)
Lemma sign_mask_eq s :
  0 <= s <= 64 -> u64 (UINT64_MAX .<< s) = 2 ^ 64 - 2 ^ s /\ u64 (- (1 .<< s)) = u64 (2 ^ 64 - 2 ^ s).
Proof.
  intros Hs. rewrite !Z.shiftl_mul_pow2 by lia. pose proof (pow2_pos s ltac:(lia)).
  assert (2 ^ s <= 2 ^ 64) by (apply Z.pow_le_mono_r; lia). unfold UINT64_MAX, wrap. split.
  - replace ((2 ^ 64 - 1) * 2 ^ s) with ((2 ^ 64 - 2 ^ s) + (2 ^ s - 1) * 2 ^ 64) by lia.
    rewrite Z_mod_plus_full. apply Z.mod_small. lia.
  - replace (- (1 * 2 ^ s)) with (2 ^ 64 - 2 ^ s + (-1) * 2 ^ 64) by lia. apply Z_mod_plus_full.
Qed.

Lemma sign_extend_or V k :
  0 <= k <= 9 -> fits (7 * k) V -> V .| (2 ^ 64 - 2 ^ (7 * k)) = u64 (V - 2 ^ (7 * k)).
Proof.
  intros Hk HV. pose proof HV as [HV1 HV2].
  assert (2 ^ (7 * k) <= 2 ^ 63) by (apply Z.pow_le_mono_r; lia).
  assert (2 ^ 64 = 2 ^ (64 - 7 * k) * 2 ^ (7 * k)) as H64.
  { rewrite <- Z.pow_add_r by lia. f_equal. lia. }
  rewrite Z.lor_comm. replace (2 ^ 64 - 2 ^ (7 * k)) with ((2 ^ (64 - 7 * k) - 1) .<< (7 * k)).
  - rewrite lor_shift_add by (done || lia). unfold wrap.
    apply (Z.mod_unique _ _ (-1)); lia.
  - rewrite Z.shiftl_mul_pow2 by lia. lia.
Qed.

Lemma sign_extension enc b (mask : Z) :
  last enc = Some b ->
  mask = 2 ^ 64 - 2 ^ leb_shift enc ->
  (if (leb_shift enc <? 8 * 8) && negb (b .& 0x40 =? 0) then leb_acc enc .| mask else leb_acc enc)
  = u64 (sleb_value enc).
Proof.
  intros Hlast ->. unfold sleb_value. rewrite Hlast. change 0x40 with (2 ^ 6).
  rewrite land_bit, negb_involutive by lia. unfold leb_shift, leb_acc.
  pose proof (uleb_value_range enc) as HV. set (k := Z.of_nat (length enc)) in *.
  destruct (Z.ltb_spec (7 * Z.min k 10) (8 * 8)); cbn [andb].
  - destruct (Z.testbit b 6); [|done]. rewrite (Z.min_l k 10) by lia.
    rewrite (wrap_small 64 (uleb_value enc)); [by rewrite sign_extend_or by (done || lia)|].
    destruct HV as [HV1 HV2]. split; [done|]. eapply Z.lt_le_trans; [exact HV2|].
    apply Z.pow_le_mono_r; lia.
  - destruct (Z.testbit b 6); [|done]. rewrite pow_7_wrap by lia. done.
Qed.

(** *** The writer *)

Fixpoint uleb_encode (fuel : nat) (val : Z) : list Z :=
  match fuel with
  | O => []
  | S fuel => if val / 128 =? 0 then [val] else (val mod 128 + 128) :: uleb_encode fuel (val / 128)
  end.

Lemma uleb_encode_ok fuel val rest :
  0 <= val < 2 ^ (7 * Z.of_nat fuel) -> (0 < fuel)%nat ->
  uleb_value (uleb_encode fuel val) = val /\ bytes_ok (uleb_encode fuel val) /\
  leb_take (uleb_encode fuel val ++ rest) = (uleb_encode fuel val, rest) /\
  leb_terminated (uleb_encode fuel val ++ rest) = true /\
  Z.of_nat (length (uleb_encode fuel val)) = uleb_size val.
Proof.
  revert val. induction fuel as [|fuel IH]; intros val Hval Hfuel; [lia|]. cbn [uleb_encode].
  replace (7 * Z.of_nat (S fuel)) with (7 + 7 * Z.of_nat fuel) in Hval by lia.
  rewrite Z.pow_add_r in Hval by lia. change (2 ^ 7) with 128 in Hval.
  pose proof (Z.mod_pos_bound val 128 ltac:(lia)) as Hm.
  destruct (Z.eqb_spec (val / 128) 0) as [H0|H0].
  - assert (0 <= val < 128) by (apply Z.div_small_iff in H0; lia).
    cbn [uleb_value leb_take leb_terminated existsb app length].
    replace (val <? 128) with true by lia. rewrite Z.mod_small by lia. split_and!; [lia| |done..|].
    + constructor; [unfold fits; lia|constructor].
    + unfold uleb_size. destruct (Z.eq_dec val 0) as [->|]; [done|].
      assert (Z.log2 val < 7) by (apply Z.log2_lt_pow2; lia).
      pose proof (Z.log2_nonneg val). by rewrite Z.div_small by lia.
  - assert (0 <= val / 128 < 2 ^ (7 * Z.of_nat fuel)) as Hdiv.
    { split; [apply Z.div_pos; lia|]. apply Z.div_lt_upper_bound; lia. }
    assert (0 < fuel)%nat. { destruct fuel; [|lia]. change (2 ^ (7 * Z.of_nat 0)) with 1 in Hdiv. lia. }
    destruct (IH (val / 128) Hdiv ltac:(done)) as (IH1 & IH2 & IH3 & IH4 & IH5).
    cbn [uleb_value leb_take leb_terminated existsb app length].
    replace (val mod 128 + 128 <? 128) with false by lia. rewrite IH1, IH3. split_and!.
    + rewrite <- Z.add_mod_idemp_r, Z_mod_same_full, Z.add_0_r, Z.mod_mod by lia.
      pose proof (Z.div_mod val 128 ltac:(lia)). lia.
    + constructor; [unfold fits; lia|done].
    + done.
    + done.
    + rewrite Nat2Z.inj_succ, IH5. unfold uleb_size.
      replace (Z.log2 (val / 128)) with (Z.log2 val - 7).
      * replace (Z.log2 val) with (Z.log2 val - 7 + 1 * 7) at 2 by lia.
        rewrite Z_div_plus_full by lia. lia.
      * assert (128 <= val) by (destruct (Z.lt_ge_cases val 128); [|done]; destruct H0; apply Z.div_small; lia).
        change 128 with (2 ^ 7). rewrite <- Z.shiftr_div_pow2, Z.log2_shiftr by lia.
        assert (7 <= Z.log2 val) by (apply Z.log2_le_pow2; lia). lia.
Qed.

(** [mem] and [mem'] differ only at the indices [p] to [q - 1]. *)
Definition only_between (p q : nat) (mem mem' : list Z) : Prop :=
  length mem' = length mem /\ forall i, (i < p \/ q <= i)%nat -> mem' !! i = mem !! i.

Lemma leb_write_loop_spec fuel mem p end_ val :
  0 <= val < 2 ^ (7 * Z.of_nat fuel) -> (0 < fuel)%nat -> (end_ < length mem)%nat ->
  let enc := uleb_encode fuel val in
  if decide (p + length enc <= end_ + 1)%nat
  then leb_write_loop fuel mem p end_ val =
       Some (Some (p + length enc)%nat, take p mem ++ enc ++ drop (p + length enc) mem)
  else exists mem', leb_write_loop fuel mem p end_ val = Some (None, mem') /\
       only_between p (end_ + 1) mem mem'.
Proof.
  revert mem p val. induction fuel as [|fuel IH]; intros mem p val Hval Hfuel Hend; [lia|].
  cbn [uleb_encode leb_write_loop]. rewrite Z.shiftr_div_pow2 by lia. change (2 ^ 7) with 128.
  rewrite land_127. replace (7 * Z.of_nat (S fuel)) with (7 + 7 * Z.of_nat fuel) in Hval by lia.
  rewrite Z.pow_add_r in Hval by lia. change (2 ^ 7) with 128 in Hval.
  destruct (Nat.ltb_spec end_ p) as [Hp|Hp].
  { rewrite decide_False; [by exists mem; split; [|split]|].
    destruct (val / 128 =? 0); simpl; lia. }
  replace (p <? length mem)%nat with true by (symmetry; apply Nat.ltb_lt; lia).
  destruct (Z.eqb_spec (val / 128) 0) as [H0|H0].
  - assert (0 <= val < 128) by (apply Z.div_small_iff in H0; lia).
    rewrite decide_True by (simpl; lia). rewrite Z.mod_small by lia.
    cbn [length app]. by rewrite insert_take_drop by lia; rewrite Nat.add_1_r.
  - assert (0 <= val / 128 < 2 ^ (7 * Z.of_nat fuel)) as Hdiv.
    { split; [apply Z.div_pos; lia|]. apply Z.div_lt_upper_bound; lia. }
    assert (0 < fuel)%nat. { destruct fuel; [|lia]. change (2 ^ (7 * Z.of_nat 0)) with 1 in Hdiv. lia. }
    assert (val mod 128 .| 128 = val mod 128 + 128) as Hor.
    { pose proof (Z.mod_pos_bound val 128 ltac:(lia)).
      rewrite Z.lor_comm. change (128 .| val mod 128) with ((1 .<< 7) .| val mod 128).
      rewrite lor_shift_add; [lia..|unfold fits; lia]. }
    rewrite Hor. set (c := val mod 128 + 128) in *.
    specialize (IH (<[p:=c]> mem) (p + 1)%nat (val / 128) Hdiv ltac:(done)
      ltac:(rewrite length_insert; lia)).
    cbn [length app] in *. set (enc := uleb_encode fuel (val / 128)) in *.
    case_decide as Hfit; [rewrite decide_True by lia|rewrite decide_False by lia].
    + rewrite IH. do 2 f_equal; [f_equal; lia|]. rewrite Nat.add_1_r.
      rewrite (take_S_r _ _ c) by (apply list_lookup_insert_eq; lia).
      rewrite take_insert_ge, drop_insert_lt, <- app_assoc by lia. cbn [app].
      do 4 f_equal. lia.
    + destruct IH as (mem' & -> & Hlen & Heq). exists mem'. split; [done|]. split.
      * by rewrite Hlen, length_insert.
      * intros i Hi. rewrite Heq by lia. apply list_lookup_insert_ne. lia.
Qed.

Lemma leb_not_terminated buf result shift n :
  bytes_ok buf -> leb_terminated buf = false -> leb_read_loop buf result shift n = None.
Proof.
  intros Hok. revert result shift n. induction Hok as [|b buf Hb Hok IH]; intros result shift n Ht; [done|].
  cbn [leb_terminated existsb] in Ht. apply orb_false_iff in Ht as [Hb' Ht].
  cbn [leb_read_loop]. destruct (leb_step b result shift). rewrite continuation_bit, Hb' by done.
  by apply IH.
Qed.

Lemma leb_shift_range enc : 0 <= leb_shift enc <= 70.
Proof. unfold leb_shift. lia. Qed.

Lemma uleb_size_range val : fits 64 val -> 1 <= uleb_size val <= 10.
Proof.
  intros [Hv1 Hv2]. unfold uleb_size. pose proof (Z.log2_nonneg val).
  assert (Z.log2 val <= 63) as Hlog.
  { change 63 with (Z.log2 (2 ^ 64 - 1)). apply Z.log2_le_mono. lia. }
  assert (0 <= Z.log2 val / 7) by (apply Z.div_pos; lia).
  assert (Z.log2 val / 7 < 10) by (apply Z.div_lt_upper_bound; lia). lia.
Qed.

(** ** Properties *)

(** An unbounded reader consumes exactly the encoding the buffer
    starts with and returns its value, two's complement for the signed
    reader, modulo 2^64; when no byte of the buffer ends the encoding, it reads
    past the buffer. *)
Theorem leb_read_correct buf :
  bytes_ok buf ->
  let enc := (leb_take buf).1 in
  if leb_terminated buf
  then bfd_read_unsigned_leb128 buf = Some (u64 (uleb_value enc), u32 (Z.of_nat (length enc))) /\
       bfd_read_signed_leb128 buf = Some (sext 64 (sleb_value enc), u32 (Z.of_nat (length enc)))
  else bfd_read_unsigned_leb128 buf = None /\ bfd_read_signed_leb128 buf = None.
Proof.
  intros Hok enc. unfold bfd_read_unsigned_leb128, bfd_read_signed_leb128.
  destruct (leb_terminated buf) eqn:Ht.
  2: { by rewrite leb_not_terminated. }
  destruct (leb_read_loop_spec buf [] 0 Hok Ht) as (b & Hlast & Heq).
  change (leb_acc []) with 0 in Heq. change (leb_shift []) with 0 in Heq.
  rewrite Heq. fold enc in Hlast |- *. cbn [app mbind option_bind]. split; [done|].
  do 2 f_equal.
  assert (forall x, sext 64 (u64 x) = sext 64 x) as Hs.
  { intros x. unfold sext. by rewrite wrap_idemp. }
  rewrite <- (Hs (sleb_value enc)). f_equal.
  destruct (Z.ltb_spec (leb_shift enc) (8 * 8)) as [Hlt|Hge].
  - rewrite <- (sign_extension enc b (u64 (UINT64_MAX .<< leb_shift enc)) Hlast).
    + by replace (leb_shift enc <? 8 * 8) with true by lia.
    + apply sign_mask_eq. pose proof (leb_shift_range enc). lia.
  - rewrite <- (sign_extension enc b _ Hlast eq_refl).
    by replace (leb_shift enc <? 8 * 8) with false by lia.
Qed.

Lemma leb_read_correct_witness :
  bfd_read_unsigned_leb128 [0xe5; 0x8e; 0x26; 0] = Some (624485, 3) /\
  bfd_read_signed_leb128 [0xc0; 0xbb; 0x78] = Some (-123456, 3).
Proof.
  pose proof (leb_read_correct [0xe5; 0x8e; 0x26; 0]) as H1.
  pose proof (leb_read_correct [0xc0; 0xbb; 0x78]) as H2. split.
  - apply H1. repeat constructor; vm_compute; congruence.
  - apply H2. repeat constructor; vm_compute; congruence.
Defined.

(** The bounded reader always returns, never reads past the end,
    consumes the encoding (or everything, when it is cut short) and returns
    the value of the bytes it consumed, modulo 2^64. *)
Theorem leb_safe_read_correct data sign :
  bytes_ok data ->
  let '(enc, rest) := leb_take data in
  data = enc ++ rest /\
  (rest <> [] -> leb_terminated data = true) /\
  bfd_safe_read_leb128 data sign = (u64 (if sign then sleb_value enc else uleb_value enc), rest).
Proof.
  intros Hok. pose proof (leb_take_app data) as Happ.
  pose proof (leb_safe_loop_spec data [] 0 Hok) as Hloop. unfold bfd_safe_read_leb128.
  change (leb_acc []) with 0 in Hloop. change (leb_shift []) with 0 in Hloop.
  pose proof (last_take_nonempty data) as Hlast.
  destruct (leb_take data) as [enc rest] eqn:Htake. split; [done|]. split.
  { clear Happ Hloop Hlast. revert enc Htake. induction data as [|b data IH]; intros enc Htake Hrest.
    - by simplify_eq/=.
    - cbn [leb_take leb_terminated existsb] in *. destruct (b <? 128) eqn:Hb; [done|].
      destruct (leb_take data) as [enc' rest'] eqn:Htake'. injection Htake as <- <-.
      cbn [orb]. apply Forall_cons in Hok as [_ Hok]. by eapply IH. }
  rewrite Hloop. cbn [app]. f_equal. destruct sign; cbn [andb]; [|done].
  destruct data as [|b0 data]; [cbn in Htake; by simplify_eq|].
  destruct (Hlast ltac:(done)) as [b Hb]. cbn [fst] in Hb. rewrite Hb. cbn [default].
  rewrite <- (sign_extension enc b (2 ^ 64 - 2 ^ leb_shift enc) Hb eq_refl).
  destruct (Z.ltb_spec (leb_shift enc) (8 * 8)); [|done]. cbn [andb].
  destruct (negb _); [|done]. f_equal. pose proof (leb_shift_range enc).
  destruct (sign_mask_eq (leb_shift enc)) as [_ ->]; [lia|]. apply wrap_small. unfold fits.
  pose proof (pow2_pos (leb_shift enc) ltac:(lia)).
  assert (2 ^ leb_shift enc <= 2 ^ 64) by (apply Z.pow_le_mono_r; lia). lia.
Qed.

Lemma leb_safe_read_correct_witness :
  bfd_safe_read_leb128 [0x7f; 1] true = (2 ^ 64 - 1, [1]) /\
  bfd_safe_read_leb128 [0x80; 0x81] false = (128, []).
Proof.
  split.
  - apply (leb_safe_read_correct [0x7f; 1] true). repeat constructor; vm_compute; congruence.
  - apply (leb_safe_read_correct [0x80; 0x81] false). repeat constructor; vm_compute; congruence.
Defined.

(** C33: the writer stores the shortest encoding when it fits before
    [end] (inclusive) and returns the pointer after it, and reading there gives
    the value back; otherwise it returns null and has written nothing outside
    [p, end]. *)
Theorem leb_write_read mem p end_ val :
  fits 64 val -> (end_ < length mem)%nat -> bytes_ok mem ->
  if decide (Z.of_nat p + uleb_size val <= Z.of_nat end_ + 1)
  then exists q mem', bfd_write_unsigned_leb128 mem p end_ val = Some (Some q, mem') /\
       Z.of_nat q = Z.of_nat p + uleb_size val /\
       only_between p q mem mem' /\
       bfd_read_unsigned_leb128 (drop p mem') = Some (val, uleb_size val)
  else exists mem', bfd_write_unsigned_leb128 mem p end_ val = Some (None, mem') /\
       only_between p (end_ + 1) mem mem'.
Proof.
  intros Hval Hend Hmem. unfold bfd_write_unsigned_leb128.
  assert (0 <= val < 2 ^ (7 * Z.of_nat 10)) as Hval'.
  { destruct Hval. split; [done|]. eapply Z.lt_trans; [done|]. by vm_compute. }
  pose proof (leb_write_loop_spec 10 mem p end_ val Hval' ltac:(lia) Hend) as Hspec. cbn zeta in Hspec.
  set (enc := uleb_encode 10 val) in *.
  destruct (uleb_encode_ok 10 val (drop (p + length enc) mem) Hval' ltac:(lia))
    as (Hv & Hok & Htake & Hterm & Hsize). fold enc in Hv, Hok, Htake, Hterm, Hsize.
  destruct (decide (Z.of_nat p + uleb_size val <= Z.of_nat end_ + 1)) as [Hfit|Hfit];
    [rewrite decide_True in Hspec by lia|rewrite decide_False in Hspec by lia; done].
  exists (p + length enc)%nat, (take p mem ++ enc ++ drop (p + length enc) mem).
  assert (length (take p mem) = p) as Hp by (rewrite length_take; lia).
  split_and!; [done|lia| |].
  - split; [rewrite !length_app, length_drop, Hp; lia|]. intros i [Hi|Hi].
    + rewrite lookup_app_l by lia. by rewrite lookup_take_lt by lia.
    + rewrite lookup_app_r, lookup_app_r, lookup_drop by lia. f_equal. lia.
  - rewrite drop_app_length' by done.
    assert (bytes_ok (enc ++ drop (p + length enc) mem)) as Hbok.
    { apply Forall_app. split; [done|by apply Forall_drop]. }
    destruct (leb_read_loop_spec (enc ++ drop (p + length enc) mem) [] 0 Hbok Hterm) as (b & _ & Heq).
    change (leb_acc []) with 0 in Heq. change (leb_shift []) with 0 in Heq.
    unfold bfd_read_unsigned_leb128. rewrite Heq, Htake. cbn [app fst mbind option_bind].
    unfold leb_acc. rewrite Hv, Hsize, (wrap_small 64 val) by done. do 2 f_equal.
    apply wrap_small. pose proof (uleb_size_range val Hval). unfold fits.
    change (u32 0) with 0. lia.
Qed.

Lemma leb_write_read_witness :
  bfd_write_unsigned_leb128 [9; 9; 9; 9] 1 2 300 = Some (Some 3%nat, [9; 0xac; 0x02; 9]) /\
  bfd_read_unsigned_leb128 [0xac; 0x02; 9] = Some (300, 2) /\
  exists mem', bfd_write_unsigned_leb128 [9; 9; 9; 9] 1 1 300 = Some (None, mem') /\
    only_between 1 2 [9; 9; 9; 9] mem'.
Proof.
  pose proof (leb_write_read [9; 9; 9; 9] 1 2 300 ltac:(vm_compute; split; congruence)
    ltac:(simpl; lia) ltac:(repeat constructor; vm_compute; congruence)) as H.
  destruct H as (q & mem' & Heq & _ & _ & Hread).
  assert (bfd_write_unsigned_leb128 [9; 9; 9; 9] 1 2 300 = Some (Some 3%nat, [9; 0xac; 0x02; 9])) as Hw
    by reflexivity.
  split; [done|]. rewrite Hw in Heq. injection Heq as <- <-. split; [exact Hread|].
  pose proof (leb_write_read [9; 9; 9; 9] 1 1 300 ltac:(vm_compute; split; congruence)
    ltac:(simpl; lia) ltac:(repeat constructor; vm_compute; congruence)) as H'.
  rewrite decide_False in H' by (vm_compute; congruence). exact H'.
Defined.
