(* ===== verification/HashTable.v ===== *)
(** Hash tables: hash.c's chained table of named entries, with its hash
    function, its table of primes and its growth.

    Entries live in a heap addressed by natural numbers and are linked by
    their [he_next] fields, as in the code; [he_data] is what a derived entry
    type adds to [struct bfd_hash_entry].  A C string is the list of its
    non-null bytes.  [ht_oracle] holds the answers of the coming allocations
    (an exhausted list answers yes).  [None] is undefined behaviour: a read
    outside an array, a division by zero, [abort]. *)

From Stdlib Require Import Znumtheory.
From S2P Require Import Prelude StableSort.

Abbreviation cstring := (list Z).
Abbreviation ptr := nat.

(** ** Primes *)

Definition DEFAULT_SIZE : Z := 4051.

Definition primes : list Z :=
  [31; 61; 127; 251; 509; 1021; 2039; 4093; 8191; 16381; 32749; 65521; 131071; 262139;
   524287; 1048573; 2097143; 4194301; 8388593; 16777213; 33554393; 67108859; 134217689;
   268435399; 536870909; 1073741789; 2147483647; 4294967291].

(** The binary search; [low] and [high] are indices into [primes]. *)
Fixpoint prime_search (fuel : nat) (n : Z) (low high : nat) : option nat :=
  match fuel with
  | O => None
  | S fuel =>
      if (low =? high)%nat then Some low
      else
        let mid := (low + (high - low) / 2)%nat in
        p ← primes !! mid;
        if n >=? p then prime_search fuel n (mid + 1) high
        else prime_search fuel n low mid
  end.

Definition higher_prime_number (n : Z) : option Z :=
  low ← prime_search 29 n 0 (length primes);
  p ← primes !! low;
  Some (if n >=? p then 0 else p).

(** [bfd_hash_set_default_size] on a host whose [size_t] is wider than four
    bytes. *)
Definition bfd_hash_set_default_size (hash_size : Z) : option Z :=
  let silly_size := 0x4000000 in
  let hash_size :=
    if silly_size <? hash_size then silly_size
    else if negb (hash_size =? 0) then hash_size - 1 else hash_size in
  higher_prime_number hash_size.

(** ** The hash function *)

(** [hash += c + (c << 17); hash ^= hash >> 2;] for an unsigned int [c]. *)
Definition hash_step (hash c : Z) : Z :=
  let hash := u64 (hash + u32 (c + u32 (c .<< 17))) in
  hash .^ (hash .>> 2).

Definition bfd_hash_hash (string : cstring) : Z * Z :=
  let hash := foldl hash_step 0 string in
  let len := u32 (Z.of_nat (length string)) in
  (hash_step hash len, len).

(** ** Tables *)

Section hash.
Context {E : Type}.

Record hash_entry := mkHashEntry {
  he_next : option ptr;
  he_string : cstring;
  he_hash : Z;
  he_data : E
}.

Record hash_table := mkHashTable {
  ht_table : list (option ptr);
  ht_heap : gmap nat hash_entry;
  ht_brk : nat;
  ht_oracle : list bool;
  ht_size : Z;
  ht_count : Z;
  ht_entsize : Z;
  ht_frozen : bool
}.

Definition set_table (tb : list (option ptr)) (t : hash_table) : hash_table :=
  mkHashTable tb (ht_heap t) (ht_brk t) (ht_oracle t) (ht_size t) (ht_count t)
    (ht_entsize t) (ht_frozen t).
Definition set_heap (h : gmap nat hash_entry) (t : hash_table) : hash_table :=
  mkHashTable (ht_table t) h (ht_brk t) (ht_oracle t) (ht_size t) (ht_count t)
    (ht_entsize t) (ht_frozen t).
Definition set_count (c : Z) (t : hash_table) : hash_table :=
  mkHashTable (ht_table t) (ht_heap t) (ht_brk t) (ht_oracle t) (ht_size t) c
    (ht_entsize t) (ht_frozen t).
Definition set_frozen (b : bool) (t : hash_table) : hash_table :=
  mkHashTable (ht_table t) (ht_heap t) (ht_brk t) (ht_oracle t) (ht_size t) (ht_count t)
    (ht_entsize t) b.
Definition set_size (s : Z) (t : hash_table) : hash_table :=
  mkHashTable (ht_table t) (ht_heap t) (ht_brk t) (ht_oracle t) s (ht_count t)
    (ht_entsize t) (ht_frozen t).

(** [e->next = n] *)
Definition set_next (n : option ptr) (e : hash_entry) : hash_entry :=
  mkHashEntry n (he_string e) (he_hash e) (he_data e).

(** [e->field = ...] on what a derived entry adds. *)
Definition set_data (d : E) (e : hash_entry) : hash_entry :=
  mkHashEntry (he_next e) (he_string e) (he_hash e) d.

Definition store_data (p : ptr) (d : E) (t : hash_table) : option hash_table :=
  e ← ht_heap t !! p; Some (set_heap (<[p := set_data d e]> (ht_heap t)) t).

(** [objalloc_alloc], the caller only learning whether it succeeded. *)
Definition objalloc_alloc (t : hash_table) : bool * hash_table :=
  match ht_oracle t with
  | [] => (true, t)
  | ok :: rest =>
      (ok, mkHashTable (ht_table t) (ht_heap t) (ht_brk t) rest (ht_size t) (ht_count t)
             (ht_entsize t) (ht_frozen t))
  end.

(** [bfd_hash_table_init_n]; [ok_create] and [oracle] answer for objalloc. *)
Definition bfd_hash_table_init_n (ok_create : bool) (oracle : list bool) (entsize size : Z)
    : option hash_table :=
  let alloc := u64 (size * 8) in
  if negb (alloc / 8 =? size) then None
  else if negb ok_create then None
  else
    let t := mkHashTable (replicate (Z.to_nat size) None) ∅ 0 oracle size 0 entsize false in
    let '(ok, t) := objalloc_alloc t in
    if ok then Some t else None.

(** [bfd_hash_newfunc] for a derived entry initialised with [init]. *)
Definition bfd_hash_newfunc (init : E) (t : hash_table) : option ptr * hash_table :=
  let '(ok, t) := objalloc_alloc t in
  if ok then
    let p := ht_brk t in
    (Some p, mkHashTable (ht_table t) (<[p := mkHashEntry None [] 0 init]> (ht_heap t)) (p + 1)
               (ht_oracle t) (ht_size t) (ht_count t) (ht_entsize t) (ht_frozen t))
  else (None, t).

(** The search loop of [bfd_hash_lookup] along a chain. *)
Fixpoint chain_find (fuel : nat) (heap : gmap nat hash_entry) (hashp : option ptr)
    (hash : Z) (string : cstring) : option (option ptr) :=
  match fuel with
  | O => None
  | S fuel =>
      match hashp with
      | None => Some None
      | Some a =>
          e ← heap !! a;
          if (he_hash e =? hash) && bool_decide (he_string e = string) then Some (Some a)
          else chain_find fuel heap (he_next e) hash string
      end
  end.

(** [while (chain_end->next && chain_end->next->hash == chain->hash)
       chain_end = chain_end->next;] *)
Fixpoint chain_run_end (fuel : nat) (heap : gmap nat hash_entry) (hash : Z) (chain_end : ptr)
    : option ptr :=
  match fuel with
  | O => None
  | S fuel =>
      e ← heap !! chain_end;
      match he_next e with
      | None => Some chain_end
      | Some n =>
          en ← heap !! n;
          if he_hash en =? hash then chain_run_end fuel heap hash n else Some chain_end
      end
  end.

(** The inner loop of the growth: moves runs of bucket [hi] to the new
    table. *)
Fixpoint move_bucket (fuel bound : nat) (newsize : Z) (hi : nat)
    (heap : gmap nat hash_entry) (table newtable : list (option ptr))
    : option (gmap nat hash_entry * list (option ptr) * list (option ptr)) :=
  match fuel with
  | O => None
  | S fuel =>
      slot ← table !! hi;
      match slot with
      | None => Some (heap, table, newtable)
      | Some chain =>
          e ← heap !! chain;
          chain_end ← chain_run_end bound heap (he_hash e) chain;
          ee ← heap !! chain_end;
          let table := <[hi := he_next ee]> table in
          let _index := Z.to_nat (he_hash e mod newsize) in
          old ← newtable !! _index;
          let heap := <[chain_end := set_next old ee]> heap in
          let newtable := <[_index := Some chain]> newtable in
          move_bucket fuel bound newsize hi heap table newtable
      end
  end.

(** The outer loop, [n] buckets to go from [hi]. *)
Fixpoint move_buckets (bound : nat) (newsize : Z) (n hi : nat)
    (heap : gmap nat hash_entry) (table newtable : list (option ptr))
    : option (gmap nat hash_entry * list (option ptr)) :=
  match n with
  | O => Some (heap, newtable)
  | S n =>
      '(heap, table, newtable) ← move_bucket bound bound newsize hi heap table newtable;
      move_buckets bound newsize n (hi + 1) heap table newtable
  end.

(** The growth at the end of [bfd_hash_insert]. *)
Definition hash_grow (t : hash_table) : option hash_table :=
  newsize ← higher_prime_number (ht_size t);
  let alloc := u64 (newsize * 8) in
  if (newsize =? 0) || negb (alloc / 8 =? newsize) then Some (set_frozen true t)
  else
    let '(ok, t) := objalloc_alloc t in
    if ok then
      '(heap, newtable) ←
        move_buckets (ht_brk t + 1) newsize (Z.to_nat (ht_size t)) 0 (ht_heap t) (ht_table t)
          (replicate (Z.to_nat newsize) None);
      Some (set_size newsize (set_table newtable (set_heap heap t)))
    else Some (set_frozen true t).

Definition bfd_hash_insert (init : E) (t : hash_table) (string : cstring) (hash : Z)
    : option (option ptr * hash_table) :=
  let '(r, t) := bfd_hash_newfunc init t in
  match r with
  | None => Some (None, t)
  | Some p =>
      if ht_size t =? 0 then None
      else
        let _index := Z.to_nat (hash mod ht_size t) in
        head ← ht_table t !! _index;
        let t := set_heap (<[p := mkHashEntry head string hash init]> (ht_heap t)) t in
        let t := set_table (<[_index := Some p]> (ht_table t)) t in
        let t := set_count (u32 (ht_count t + 1)) t in
        if negb (ht_frozen t) && (u32 (ht_size t * 3) / 4 <? ht_count t) then
          t ← hash_grow t; Some (Some p, t)
        else Some (Some p, t)
  end.

Definition bfd_hash_lookup (init : E) (t : hash_table) (string : cstring) (create copy : bool)
    : option (option ptr * hash_table) :=
  let '(hash, len) := bfd_hash_hash string in
  if ht_size t =? 0 then None
  else
    let _index := Z.to_nat (hash mod ht_size t) in
    head ← ht_table t !! _index;
    found ← chain_find (ht_brk t + 1) (ht_heap t) head hash string;
    match found with
    | Some a => Some (Some a, t)
    | None =>
        if negb create then Some (None, t)
        else
          let '(ok, t) := if copy then objalloc_alloc t else (true, t) in
          if ok then bfd_hash_insert init t string hash else Some (None, t)
    end.

(** [for (pph = ...; *pph != NULL; pph = &( *pph)->next) if ( *pph == ent) break;]
    A link [pph] is the slot of the table ([None]) or the [next] field of an
    entry; the search fails ([abort]) when no link points to [ent]. *)
Fixpoint find_link (fuel : nat) (heap : gmap nat hash_entry) (pph cur : option ptr) (ent : ptr)
    : option (option ptr) :=
  match fuel with
  | O => None
  | S fuel =>
      match cur with
      | None => None
      | Some a =>
          if (a =? ent)%nat then Some pph
          else e ← heap !! a; find_link fuel heap (Some a) (he_next e) ent
      end
  end.

(** [*pph = v] *)
Definition store_link (pph : option ptr) (_index : nat) (v : option ptr) (t : hash_table)
    : option hash_table :=
  match pph with
  | None => Some (set_table (<[_index := v]> (ht_table t)) t)
  | Some a => e ← ht_heap t !! a; Some (set_heap (<[a := set_next v e]> (ht_heap t)) t)
  end.

Definition bfd_hash_rename (t : hash_table) (string : cstring) (ent : ptr) : option hash_table :=
  e ← ht_heap t !! ent;
  if ht_size t =? 0 then None
  else
    let _index := Z.to_nat (he_hash e mod ht_size t) in
    head ← ht_table t !! _index;
    pph ← find_link (ht_brk t + 1) (ht_heap t) None head ent;
    t ← store_link pph _index (he_next e) t;
    let hash := (bfd_hash_hash string).1 in
    let _index := Z.to_nat (hash mod ht_size t) in
    head ← ht_table t !! _index;
    let t := set_heap (<[ent := mkHashEntry head string hash (he_data e)]> (ht_heap t)) t in
    Some (set_table (<[_index := Some ent]> (ht_table t)) t).

Definition bfd_hash_replace (t : hash_table) (old nw : ptr) : option hash_table :=
  e ← ht_heap t !! old;
  if ht_size t =? 0 then None
  else
    let _index := Z.to_nat (he_hash e mod ht_size t) in
    head ← ht_table t !! _index;
    pph ← find_link (ht_brk t + 1) (ht_heap t) None head old;
    store_link pph _index (Some nw) t.

(** The loops of [bfd_hash_traverse]; the callback sees the entry and its own
    state [info] and says whether to go on.  The second component is false
    after the jump out. *)
Section traverse.
Context {St : Type} (func : ptr -> hash_entry -> St -> bool * St).

Fixpoint traverse_chain (fuel : nat) (heap : gmap nat hash_entry) (p : option ptr) (info : St)
    : option (bool * St) :=
  match fuel with
  | O => None
  | S fuel =>
      match p with
      | None => Some (true, info)
      | Some a =>
          e ← heap !! a;
          let '(ok, info) := func a e info in
          if ok then traverse_chain fuel heap (he_next e) info else Some (false, info)
      end
  end.

Fixpoint traverse_buckets (bound : nat) (heap : gmap nat hash_entry) (table : list (option ptr))
    (info : St) : option (bool * St) :=
  match table with
  | [] => Some (true, info)
  | p :: table =>
      '(ok, info) ← traverse_chain bound heap p info;
      if (ok : bool) then traverse_buckets bound heap table info else Some (false, info)
  end.

Definition bfd_hash_traverse (t : hash_table) (info : St) : option (St * hash_table) :=
  let t := set_frozen true t in
  '(_, info) ← traverse_buckets (ht_brk t + 1) (ht_heap t) (ht_table t) info;
  Some (info, set_frozen false t).

End traverse.
End hash.

Arguments hash_entry : clear implicits.
Arguments hash_table : clear implicits.

(** ** The table of primes *)

Lemma primes_sorted : StronglySorted Z.lt primes.
Proof. unfold primes. repeat constructor. Qed.

Lemma primes_lookup_lt i j p q : primes !! i = Some p -> primes !! j = Some q -> (i < j)%nat -> p < q.
Proof. intros Hi Hj Hlt. exact (sorted_lookup Z.lt primes i j p q primes_sorted Hlt Hi Hj). Qed.

(** The binary search stops at the first prime above [n]. *)
Lemma prime_search_spec fuel n low high :
  (high - low < fuel)%nat -> (low <= high <= length primes)%nat ->
  (forall i p, (i < low)%nat -> primes !! i = Some p -> p <= n) ->
  (forall i p, (high <= i)%nat -> primes !! i = Some p -> n < p) ->
  exists k, prime_search fuel n low high = Some k /\ (k <= length primes)%nat /\
    (forall i p, (i < k)%nat -> primes !! i = Some p -> p <= n) /\
    (forall i p, (k <= i)%nat -> primes !! i = Some p -> n < p).
Proof.
  revert low high. induction fuel as [|fuel IH]; intros low high Hf Hlh Hlow Hhigh; [lia|].
  cbn [prime_search]. destruct (Nat.eqb_spec low high) as [->|Hne].
  { exists high. split_and!; [done|lia|done|done]. }
  pose proof (Nat.div_lt (high - low) 2 ltac:(lia) ltac:(lia)).
  set (mid := (low + (high - low) / 2)%nat) in *.
  destruct (lookup_lt_is_Some_2 primes mid ltac:(lia)) as [p Hp].
  rewrite Hp. cbn [mbind option_bind]. destruct (Z.geb_spec n p).
  - apply IH; [lia|lia| |done]. intros i q Hi Hq.
    destruct (decide (i = mid)) as [->|]; [by simplify_eq|].
    destruct (decide (i < low)%nat); [by eapply Hlow|].
    pose proof (primes_lookup_lt i mid q p Hq Hp ltac:(lia)). lia.
  - apply IH; [lia|lia|done|]. intros i q Hi Hq.
    destruct (decide (i = mid)) as [->|]; [simplify_eq; lia|].
    pose proof (primes_lookup_lt mid i p q Hp Hq ltac:(lia)). lia.
Qed.

Lemma higher_prime_spec n :
  (n < 4294967291 -> exists p, higher_prime_number n = Some p /\ p ∈ primes /\ n < p /\
     forall q, q ∈ primes -> n < q -> p <= q) /\
  (4294967291 <= n -> higher_prime_number n = None).
Proof.
  unfold higher_prime_number.
  destruct (prime_search_spec 29 n 0 (length primes)) as (k & -> & Hk & Hbelow & Habove).
  { unfold primes; simpl; lia. } { lia. } { lia. }
  { intros i p Hi Hp. apply lookup_lt_Some in Hp. lia. }
  cbn [mbind option_bind]. split; intros Hn.
  - destruct (decide (k < length primes)%nat) as [Hlt|Hge].
    + destruct (lookup_lt_is_Some_2 primes k Hlt) as [p Hp].
      pose proof (Habove k p ltac:(lia) Hp). rewrite Hp. cbn [mbind option_bind].
      exists p. replace (n >=? p) with false by lia. split_and!; [done| |lia|].
      * by eapply list_elem_of_lookup_2.
      * intros q Hq Hnq. apply list_elem_of_lookup in Hq as [j Hj].
        destruct (decide (j < k)%nat); [specialize (Hbelow j q ltac:(lia) Hj); lia|].
        destruct (decide (j = k)) as [->|]; [by simplify_eq|].
        pose proof (primes_lookup_lt k j p q Hp Hj ltac:(lia)). lia.
    + specialize (Hbelow 27%nat 4294967291 ltac:(unfold primes in *; simpl in *; lia) eq_refl). lia.
  - destruct (primes !! k) as [p|] eqn:Hp; [|done].
    pose proof (Habove k p ltac:(lia) Hp).
    pose proof (lookup_lt_Some _ _ _ Hp) as Hlt. exfalso.
    assert (p <= 4294967291); [|lia].
    destruct (decide (k = 27%nat)) as [->|]; [by injection Hp as <-|].
    pose proof (primes_lookup_lt k 27 p 4294967291 Hp eq_refl ltac:(unfold primes in *; simpl in *; lia)). lia.
Qed.

(** Trial division by all numbers from 2 up to the square root. *)
Fixpoint no_divisor (n : nat) (d p : Z) : bool :=
  match n with
  | O => true
  | S n => if p mod d =? 0 then false else no_divisor n (d + 1) p
  end.

Lemma no_divisor_spec n d p k :
  no_divisor n d p = true -> d <= k < d + Z.of_nat n -> 0 < d -> ~ (k | p).
Proof.
  revert d. induction n as [|n IH]; intros d Hd Hk Hpos; [lia|]. cbn [no_divisor] in Hd.
  destruct (Z.eqb_spec (p mod d) 0) as [|Hne]; [done|].
  destruct (Z.eq_dec k d) as [->|].
  - intros Hdiv. apply Hne. by apply Z.mod_divide; [lia|].
  - apply (IH (d + 1)); [done|lia|lia].
Qed.

Definition is_prime (p : Z) : bool := (1 <? p) && no_divisor (Z.to_nat (Z.sqrt p - 1)) 2 p.

Lemma is_prime_spec p : is_prime p = true -> prime p.
Proof.
  unfold is_prime. intros H. apply andb_true_iff in H as [Hp Hno].
  apply Z.ltb_lt in Hp. apply prime_alt. split; [done|]. intros k Hk [c Hc].
  pose proof (Z.sqrt_spec p ltac:(lia)) as Hsq. pose proof (Z.sqrt_nonneg p) as Hsn.
  assert (forall d, 2 <= d <= Z.sqrt p -> ~ (d | p)) as Hnd.
  { intros d Hd. eapply no_divisor_spec; [exact Hno| |lia]. lia. }
  destruct (Z.le_gt_cases k (Z.sqrt p)).
  - apply (Hnd k); [lia|]. by exists c.
  - assert (1 < c) by nia. assert (c <= Z.sqrt p).
    { destruct (Z.le_gt_cases c (Z.sqrt p)) as [|Hc']; [done|].
      assert (Z.succ (Z.sqrt p) * Z.succ (Z.sqrt p) <= c * k) by (apply Z.mul_le_mono_nonneg; lia). cbn zeta in Hsq. lia. }
    apply (Hnd c); [lia|]. exists k. lia.
Qed.

Lemma primes_prime : Forall prime primes.
Proof.
  assert (forallb is_prime primes = true) as H by (vm_compute; reflexivity).
  rewrite forallb_forall in H. apply List.Forall_forall. intros p Hp. by apply is_prime_spec, H.
Qed.

(** ** Properties *)

(** Below the last entry of its table, [higher_prime_number] returns
    the least table entry above its argument, which is a prime; the default
    size it computes is never zero.  From the last entry on, the search ends
    past the table and the comparison reads outside it, so the zero that the
    code means as an error is never returned. *)
Theorem higher_prime_number_correct n :
  (n < 4294967291 -> exists p, higher_prime_number n = Some p /\ prime p /\ n < p /\ 31 <= p /\
     forall q, q ∈ primes -> n < q -> p <= q) /\
  (4294967291 <= n -> higher_prime_number n = None) /\
  (forall p, higher_prime_number n = Some p -> p <> 0) /\
  (0 <= n -> exists p, bfd_hash_set_default_size n = Some p /\ prime p /\ 31 <= p <= 134217689).
Proof.
  assert (forall p, p ∈ primes -> prime p /\ 31 <= p) as Hprimes.
  { intros p Hp. split.
    - pose proof primes_prime as H. rewrite Forall_forall in H. by apply H.
    - assert (Forall (fun q => 31 <= q) primes) as H by (unfold primes; repeat constructor; lia).
      rewrite Forall_forall in H. by apply H. }
  destruct (higher_prime_spec n) as [Hlt Hge]. split_and!; [|done| |].
  - intros Hn. destruct (Hlt Hn) as (p & -> & Hp & Hnp & Hleast).
    exists p. destruct (Hprimes p Hp). done.
  - intros p Hp. destruct (Z.lt_ge_cases n 4294967291) as [Hn|Hn].
    + destruct (Hlt Hn) as (q & Hq & Hin & _). rewrite Hq in Hp. injection Hp as <-.
      destruct (Hprimes q Hin). lia.
    + by rewrite Hge in Hp.
  - intros Hn. unfold bfd_hash_set_default_size.
    set (m := if 0x4000000 <? n then _ else _).
    assert (m <= 0x4000000) as Hm by (subst m; split_ifs; lia).
    destruct (proj1 (higher_prime_spec m)) as (p & -> & Hp & Hmp & Hleast); [lia|].
    exists p. destruct (Hprimes p Hp). split_and!; [done..|].
    apply Hleast; [|lia].
    apply list_elem_of_lookup. by exists 22%nat.
Qed.

Lemma higher_prime_number_correct_witness :
  higher_prime_number 4051 = Some 4093 /\ higher_prime_number 4294967295 = None /\
  exists p, higher_prime_number 4051 = Some p /\ prime p.
Proof.
  split; [reflexivity|]. split.
  - apply higher_prime_number_correct. lia.
  - destruct (higher_prime_number_correct 4051) as [H _].
    destruct H as (p & Hp & Hprime & _); [lia|]. by exists p.
Defined.
