(* ===== verification/HashTableSpec.v ===== *)
(** Hash tables refine finite maps: the invariant of hash.c's chained tables,
    the growth that relinks every entry into a larger array, and the theorems
    that lookup, insertion, renaming, replacement and traversal act on the
    table as on a finite map from strings to entries. *)

From S2P Require Import Prelude StableSort HashTable.

(** ** Lists of lists *)

Lemma concat_insert {A} (ls : list (list A)) i l :
  ls !! i = Some l ->
  exists k, concat ls ≡ₚ l ++ k /\ forall l', concat (<[i := l']> ls) ≡ₚ l' ++ k.
Proof.
  revert i. induction ls as [|x ls IH]; intros [|i] Hi; simplify_eq/=.
  - by exists (concat ls).
  - destruct (IH i Hi) as (k & Hk & Hins). exists (x ++ k). split.
    + rewrite Hk. solve_Permutation.
    + intros l'. rewrite Hins. solve_Permutation.
Qed.

Lemma elem_of_concat {A} (ls : list (list A)) a :
  a ∈ concat ls <-> exists i l, ls !! i = Some l /\ a ∈ l.
Proof.
  rewrite list_elem_of_In, in_concat. setoid_rewrite <- list_elem_of_In. split.
  - intros (l & Hl & Ha). apply list_elem_of_lookup in Hl as [i Hi]. eauto.
  - intros (i & l & Hi & Ha). apply list_elem_of_lookup_2 in Hi. eauto.
Qed.

Lemma NoDup_lt_length (l : list nat) n : NoDup l -> (forall x, x ∈ l -> (x < n)%nat) -> (length l <= n)%nat.
Proof.
  intros Hl Hlt. rewrite <- (length_seq n 0). apply submseteq_length, NoDup_submseteq; [done|].
  intros x Hx. apply elem_of_seq. specialize (Hlt x Hx). lia.
Qed.

Section spec.
Context {E : Type}.
Implicit Types (h heap : gmap nat (hash_entry E)) (p q : option ptr) (l : list ptr) (t : hash_table E).

(** ** Linked segments *)

(** Following [next] from [p] goes through the entries [l] and ends at [q]. *)
Fixpoint lseg h p l q : Prop :=
  match l with
  | [] => p = q
  | a :: l => p = Some a /\ exists e, h !! a = Some e /\ lseg h (he_next e) l q
  end.

Lemma lseg_app h p l1 l2 q :
  lseg h p (l1 ++ l2) q <-> exists m, lseg h p l1 m /\ lseg h m l2 q.
Proof.
  revert p. induction l1 as [|a l1 IH]; intros p; cbn [app lseg].
  - split; [by eauto|]. by intros (m & -> & ?).
  - split.
    + intros (-> & e & He & Hl). apply IH in Hl as (m & Hm & Hl). eauto 8.
    + intros (m & (-> & e & He & Hm) & Hl). split; [done|]. exists e. split; [done|]. apply IH. eauto.
Qed.

Lemma lseg_frame h h' p l q :
  (forall a, a ∈ l -> h' !! a = h !! a) -> lseg h p l q -> lseg h' p l q.
Proof.
  revert p. induction l as [|a l IH]; intros p Hsame; [done|]. cbn [lseg].
  intros (-> & e & He & Hl). split; [done|]. exists e.
  rewrite Hsame by left. split; [done|]. apply IH; [|done]. intros b Hb. apply Hsame. by right.
Qed.

Lemma lseg_insert h p l q a e : a ∉ l -> lseg h p l q -> lseg (<[a := e]> h) p l q.
Proof.
  intros Ha. apply lseg_frame. intros b Hb. apply lookup_insert_ne. intros ->. done.
Qed.

Lemma lseg_lookup h p l q a : lseg h p l q -> a ∈ l -> is_Some (h !! a).
Proof.
  revert p. induction l as [|b l IH]; intros p Hl Ha; [by apply elem_of_nil in Ha|].
  destruct Hl as (_ & e & He & Hl). apply elem_of_cons in Ha as [->|Ha]; [by eexists|eauto].
Qed.

(** Relinks the last entry of a segment. *)
Lemma lseg_relink h p l a e q q' :
  NoDup (l ++ [a]) -> h !! a = Some e -> lseg h p (l ++ [a]) q ->
  lseg (<[a := set_next q' e]> h) p (l ++ [a]) q'.
Proof.
  intros Hnd He. rewrite NoDup_app in Hnd. destruct Hnd as (_ & Hnd & _).
  rewrite !lseg_app. intros (m & Hl & -> & e' & He' & _). exists (Some a). split.
  - apply lseg_insert; [|done]. intros Ha. apply (Hnd a Ha). by left.
  - split; [done|]. eexists. rewrite lookup_insert_eq. by split.
Qed.

Lemma lseg_next_of_last h p l a q :
  lseg h p (l ++ [a]) q -> exists e, h !! a = Some e /\ he_next e = q.
Proof. rewrite lseg_app. intros (m & _ & _ & e & He & <-). by exists e. Qed.

(** What does not change when entries are relinked. *)
Definition he_strip (e : hash_entry E) : cstring * Z * E := (he_string e, he_hash e, he_data e).

Lemma he_strip_inv e e' :
  he_strip e = he_strip e' ->
  he_string e = he_string e' /\ he_hash e = he_hash e' /\ he_data e = he_data e'.
Proof. unfold he_strip. intros H. by injection H. Qed.

Definition same_entries h h' : Prop := forall a, he_strip <$> h' !! a = he_strip <$> h !! a.

Lemma same_entries_trans h1 h2 h3 : same_entries h1 h2 -> same_entries h2 h3 -> same_entries h1 h3.
Proof. intros H1 H2 a. by rewrite H2. Qed.

Lemma same_entries_set_next h a e p : h !! a = Some e -> same_entries h (<[a := set_next p e]> h).
Proof.
  intros He b. destruct (decide (b = a)) as [->|].
  - rewrite lookup_insert_eq, He. by destruct e.
  - by rewrite lookup_insert_ne.
Qed.

Lemma same_entries_lookup h h' a e :
  same_entries h h' -> h !! a = Some e -> exists e', h' !! a = Some e' /\ he_strip e' = he_strip e.
Proof.
  intros Hs He. specialize (Hs a). rewrite He in Hs. simpl in Hs.
  destruct (h' !! a) as [e'|]; [|done]. injection Hs as Hs. exists e'. split; [done|].
  unfold he_strip. by f_equal; [f_equal|].
Qed.

(** ** Growth *)

(** A run that [chain_run_end] finds: entries of one hash value. *)
Lemma chain_run_end_spec fuel h hash a l :
  lseg h (Some a) (a :: l) None -> (length (a :: l) <= fuel)%nat ->
  (exists e, h !! a = Some e /\ he_hash e = hash) ->
  exists r b rest, a :: l = (r ++ [b]) ++ rest /\ chain_run_end fuel h hash a = Some b /\
    forall x, x ∈ r ++ [b] -> exists e, h !! x = Some e /\ he_hash e = hash.
Proof.
  revert a l. induction fuel as [|fuel IH]; intros a l Hseg Hlen (e & He & Hhash);
    [simpl in Hlen; lia|].
  destruct Hseg as (_ & e' & He' & Hseg). rewrite He in He'. injection He' as <-.
  cbn [chain_run_end]. rewrite He. cbn [mbind option_bind].
  assert (forall x, x ∈ ([] ++ [a]) -> exists e, h !! x = Some e /\ he_hash e = hash) as Hsingle.
  { intros x Hx. apply list_elem_of_singleton in Hx as ->. eauto. }
  destruct l as [|n l].
  { cbn in Hseg. rewrite Hseg. by exists [], a, []. }
  pose proof Hseg as (Hn & en & Hen & _). rewrite Hn, Hen. cbn [mbind option_bind].
  destruct (Z.eqb_spec (he_hash en) hash) as [Heq|].
  - rewrite Hn in Hseg.
    destruct (IH n l Hseg ltac:(simpl in *; lia)) as (r & b & rest & Hl & Hrun & Hall); [eauto|].
    exists (a :: r), b, rest. rewrite Hl. split_and!; [done..|].
    intros x Hx. apply elem_of_cons in Hx as [->|Hx]; eauto.
  - by exists [], a, (n :: l).
Qed.

Definition chains_ok h (table : list (option ptr)) (chains : list (list ptr)) : Prop :=
  Forall2 (fun p l => lseg h p l None) table chains.

(** Every entry of chain [i] belongs in bucket [i] of a table of [size]. *)
Definition placed h (size : Z) (chains : list (list ptr)) : Prop :=
  forall i l a, chains !! i = Some l -> a ∈ l ->
    exists e, h !! a = Some e /\ Z.to_nat (he_hash e mod size) = i.

Lemma chains_ok_frame h h' table chains :
  (forall a, a ∈ concat chains -> h' !! a = h !! a) ->
  chains_ok h table chains -> chains_ok h' table chains.
Proof.
  intros Hsame Hok. induction Hok as [|p l table chains Hl Hok IH]; constructor.
  - eapply lseg_frame; [|exact Hl]. intros a Ha. apply Hsame. simpl. apply elem_of_app. by left.
  - apply IH. intros a Ha. apply Hsame. simpl. apply elem_of_app. by right.
Qed.

Lemma chains_ok_insert h table chains i p l :
  chains_ok h table chains -> lseg h p l None -> chains_ok h (<[i := p]> table) (<[i := l]> chains).
Proof. intros. by apply Forall2_insert. Qed.

Lemma chains_ok_lookup h table chains i l :
  chains_ok h table chains -> chains !! i = Some l ->
  exists p, table !! i = Some p /\ lseg h p l None.
Proof. intros Hok Hi. by apply (Forall2_lookup_r _ _ _ _ _ Hok Hi). Qed.

Lemma placed_same h h' size chains : same_entries h h' -> placed h size chains -> placed h' size chains.
Proof.
  intros Hs Hp i l a Hi Ha. destruct (Hp i l a Hi Ha) as (e & He & Hidx).
  destruct (same_entries_lookup _ _ _ _ Hs He) as (e' & He' & Hstrip). exists e'.
  split; [done|]. apply he_strip_inv in Hstrip as (_ & -> & _). done.
Qed.

(** The state of the growth: what is still in the old array and what is in
    the new one, over the same entries [all]. *)
Record move_inv (all : list ptr) (newsize : Z) h table newtable chains newchains : Prop := {
  mi_old : chains_ok h table chains;
  mi_new : chains_ok h newtable newchains;
  mi_all : concat chains ++ concat newchains ≡ₚ all;
  mi_len : Z.of_nat (length newchains) = newsize;
  mi_placed : placed h newsize newchains
}.

(** One run moved: the run leaves the head of old bucket [hi] and becomes the
    head of its new bucket. *)
Lemma move_run all newsize h table newtable chains newchains hi a (e eb : hash_entry E) r b rest :
  NoDup all -> 0 < newsize ->
  move_inv all newsize h table newtable chains newchains ->
  chains !! hi = Some ((r ++ [b]) ++ rest) -> table !! hi = Some (Some a) ->
  (forall x, x ∈ r ++ [b] -> exists ex, h !! x = Some ex /\ he_hash ex = he_hash e) ->
  h !! b = Some eb ->
  let i := Z.to_nat (he_hash e mod newsize) in
  exists old lold, newtable !! i = Some old /\ newchains !! i = Some lold /\
    move_inv all newsize (<[b := set_next old eb]> h) (<[hi := he_next eb]> table)
      (<[i := Some a]> newtable) (<[hi := rest]> chains) (<[i := (r ++ [b]) ++ lold]> newchains).
Proof.
  intros Hnd Hsize [Hold Hnew Hall Hlen Hplaced] Hhi Hslot Hrun Heb i.
  assert (i < length newchains)%nat as Hi.
  { subst i. pose proof (Z.mod_pos_bound (he_hash e) newsize Hsize). lia. }
  destruct (lookup_lt_is_Some_2 newchains i Hi) as [lold Hlold].
  destruct (chains_ok_lookup _ _ _ _ _ Hnew Hlold) as (old & Hnewi & Hsegold).
  destruct (chains_ok_lookup _ _ _ _ _ Hold Hhi) as (p & Hp & Hseg).
  rewrite Hslot in Hp. injection Hp as <-.
  apply lseg_app in Hseg as (m & Hsegr & Hrest).
  destruct (lseg_next_of_last _ _ _ _ _ Hsegr) as (eb' & Heb' & Hm).
  rewrite Heb in Heb'. injection Heb' as <-.
  destruct (concat_insert chains hi _ Hhi) as (k & Hk & Hins).
  destruct (concat_insert newchains i _ Hlold) as (k' & Hk' & Hins').
  assert (NoDup ((r ++ [b]) ++ (rest ++ k) ++ lold ++ k')) as Hnd'.
  { eapply NoDup_Permutation_proper; [|exact Hnd]. rewrite <- Hall, Hk, Hk'. solve_Permutation. }
  apply NoDup_app in Hnd' as (Hndr & Hdisj & _).
  assert (forall x, x ∈ r ++ [b] -> (x ∉ rest) /\ (x ∉ k) /\ (x ∉ lold) /\ (x ∉ k')) as Hd.
  { intros x Hx. specialize (Hdisj x Hx). set_solver. }
  assert ((b ∉ rest) /\ (b ∉ k) /\ (b ∉ lold) /\ (b ∉ k')) as (Hb1 & Hb2 & Hb3 & Hb4).
  { apply Hd. set_solver. }
  set (h' := <[b := set_next old eb]> h).
  assert (same_entries h h') as Hsame by (by apply same_entries_set_next).
  assert (forall x, x <> b -> h' !! x = h !! x) as Hother.
  { intros x Hx. by apply lookup_insert_ne. }
  exists old, lold. split; [done|]. split; [done|]. constructor.
  - eapply chains_ok_frame, chains_ok_insert; [|exact Hold|by rewrite Hm].
    intros x Hx. apply Hother. rewrite Hins in Hx. set_solver.
  - apply chains_ok_insert.
    + eapply chains_ok_frame; [|exact Hnew]. intros x Hx. apply Hother. rewrite Hk' in Hx. set_solver.
    + apply lseg_app. exists old. split; [by eapply lseg_relink|by apply lseg_insert].
  - rewrite Hins, Hins', <- Hall, Hk, Hk'. solve_Permutation.
  - by rewrite length_insert.
  - apply (placed_same h h'); [done|]. intros j l x Hj Hx.
    destruct (decide (j = i)) as [->|Hji].
    + rewrite list_lookup_insert_eq in Hj by done. injection Hj as <-.
      apply elem_of_app in Hx as [Hx|Hx]; [|by eapply Hplaced].
      destruct (Hrun x Hx) as (ex & Hex & Hh). exists ex. by rewrite Hh.
    + rewrite list_lookup_insert_ne in Hj by done. by eapply Hplaced.
Qed.

Lemma move_bucket_spec all newsize bound hi fuel h table newtable chains newchains l :
  NoDup all -> 0 < newsize -> (length all < bound)%nat ->
  move_inv all newsize h table newtable chains newchains ->
  chains !! hi = Some l -> (length l < fuel)%nat ->
  exists h' table' newtable' newchains',
    move_bucket fuel bound newsize hi h table newtable = Some (h', table', newtable') /\
    move_inv all newsize h' table' newtable' (<[hi := []]> chains) newchains' /\
    same_entries h h'.
Proof.
  intros Hnd Hsize Hbound. revert h table newtable chains newchains l.
  induction fuel as [|fuel IH]; intros h table newtable chains newchains l Hinv Hhi Hlen; [lia|].
  destruct (chains_ok_lookup _ _ _ _ _ (mi_old _ _ _ _ _ _ _ Hinv) Hhi) as (p & Hslot & Hseg).
  cbn [move_bucket]. rewrite Hslot. cbn [mbind option_bind]. destruct l as [|a l].
  { cbn in Hseg. subst p. exists h, table, newtable, newchains.
    rewrite list_insert_id by done. split_and!; [done..|]. by intros x. }
  pose proof Hseg as (-> & e & He & _). rewrite He. cbn [mbind option_bind].
  assert (length (a :: l) <= bound)%nat as Hlb.
  { destruct (concat_insert chains hi _ Hhi) as (k & Hk & _).
    pose proof (Permutation_length (mi_all _ _ _ _ _ _ _ Hinv)) as Hpl.
    rewrite Hk, !length_app in Hpl. lia. }
  destruct (chain_run_end_spec bound h (he_hash e) a l Hseg Hlb) as (r & b & rest & Hl & Hrun & Hall);
    [by eauto|].
  rewrite Hrun. cbn [mbind option_bind].
  destruct (Hall b ltac:(set_solver)) as (eb & Heb & _). rewrite Heb. cbn [mbind option_bind].
  rewrite Hl in Hhi.
  destruct (move_run all newsize h table newtable chains newchains hi a e eb r b rest
    Hnd Hsize Hinv Hhi Hslot Hall Heb) as (old & lold & Hold & Hlold & Hinv').
  rewrite Hold. cbn [mbind option_bind].
  destruct (IH _ _ _ _ _ rest Hinv') as (h' & table' & newtable' & newchains' & Hmove & Hinv'' & Hsame).
  - apply list_lookup_insert_eq. by eapply lookup_lt_Some.
  - assert (length (a :: l) = length ((r ++ [b]) ++ rest)) as Hll by (by rewrite Hl).
    rewrite !length_app in Hll. simpl in *. lia.
  - exists h', table', newtable', newchains'. split; [exact Hmove|]. split.
    + by rewrite list_insert_insert_eq in Hinv''.
    + eapply same_entries_trans; [|exact Hsame]. by apply same_entries_set_next.
Qed.

Lemma move_buckets_spec all newsize bound n hi h table newtable chains newchains :
  NoDup all -> 0 < newsize -> (length all < bound)%nat ->
  move_inv all newsize h table newtable chains newchains ->
  (n + hi = length chains)%nat ->
  (forall j l, (j < hi)%nat -> chains !! j = Some l -> l = []) ->
  exists h' newtable' newchains',
    move_buckets bound newsize n hi h table newtable = Some (h', newtable') /\
    chains_ok h' newtable' newchains' /\ concat newchains' ≡ₚ all /\
    Z.of_nat (length newchains') = newsize /\ placed h' newsize newchains' /\
    same_entries h h'.
Proof.
  intros Hnd Hsize Hbound. revert hi h table newtable chains newchains.
  induction n as [|n IH]; intros hi h table newtable chains newchains Hinv Hn Hdone.
  - exists h, newtable, newchains. destruct Hinv as [Hold Hnew Hall Hlen Hplaced].
    split_and!; [done|done| |done|done|by intros x].
    rewrite <- Hall. replace (concat chains) with (@nil ptr); [done|].
    assert (Forall (fun l => l = []) chains) as Hnil.
    { apply Forall_lookup. intros j l Hj. eapply Hdone; [|exact Hj].
      apply lookup_lt_Some in Hj. lia. }
    clear -Hnil. induction Hnil as [|l chains -> _ IH]; [done|exact IH].
  - destruct (lookup_lt_is_Some_2 chains hi ltac:(lia)) as [l Hl].
    destruct (concat_insert chains hi _ Hl) as (k & Hk & _).
    pose proof (Permutation_length (mi_all _ _ _ _ _ _ _ Hinv)) as Hpl.
    rewrite Hk, !length_app in Hpl.
    destruct (move_bucket_spec all newsize bound hi bound h table newtable chains newchains l
      Hnd Hsize Hbound Hinv Hl ltac:(lia)) as (h1 & table1 & newtable1 & newchains1 & Hmove & Hinv1 & Hsame1).
    cbn [move_buckets]. rewrite Hmove. cbn [mbind option_bind].
    destruct (IH (hi + 1)%nat _ _ _ _ _ Hinv1) as (h2 & nt2 & nc2 & Hmv & H1 & H2 & H3 & H4 & H5).
    + rewrite length_insert. lia.
    + intros j l' Hj Hl'. destruct (decide (j = hi)) as [->|].
      * rewrite list_lookup_insert_eq in Hl' by lia. by injection Hl' as <-.
      * rewrite list_lookup_insert_ne in Hl' by done. eapply Hdone; [|done]. lia.
    + exists h2, nt2, nc2. split_and!; [done..|]. by eapply same_entries_trans.
Qed.

(** ** The invariant and the map a table represents *)

Record ht_inv t (chains : list (list ptr)) : Prop := {
  hi_size : 0 < ht_size t < 2 ^ 32;
  hi_len : Z.of_nat (length chains) = ht_size t;
  hi_chains : chains_ok (ht_heap t) (ht_table t) chains;
  hi_nodup : NoDup (concat chains);
  hi_placed : placed (ht_heap t) (ht_size t) chains;
  hi_hash : forall a e, a ∈ concat chains -> ht_heap t !! a = Some e ->
    he_hash e = (bfd_hash_hash (he_string e)).1;
  hi_fresh : forall a, (ht_brk t <= a)%nat -> ht_heap t !! a = None
}.

(** The entries of the table are exactly those of the map, each under its
    own string. *)
Definition entries_of h (as_ : list ptr) (m : gmap cstring ptr) : Prop :=
  forall s a, m !! s = Some a <-> a ∈ as_ /\ exists e, h !! a = Some e /\ he_string e = s.

Definition represents t (m : gmap cstring ptr) : Prop :=
  exists chains, ht_inv t chains /\ entries_of (ht_heap t) (concat chains) m /\
    ht_count t = u32 (Z.of_nat (length (concat chains))).

(** The entries other than [p] are the same but for their links. *)
Definition keeps_entries (p : option ptr) t t' : Prop :=
  forall a, p <> Some a -> he_strip <$> ht_heap t' !! a = he_strip <$> ht_heap t !! a.

Lemma entries_of_same h h' as_ as' m :
  same_entries h h' -> as_ ≡ₚ as' -> entries_of h as_ m -> entries_of h' as' m.
Proof.
  intros Hsame Hperm Hm s a. rewrite (Hm s a), Hperm. split; intros (Ha & e & He & Hs).
  - destruct (same_entries_lookup _ _ _ _ Hsame He) as (e' & He' & Hst).
    apply he_strip_inv in Hst as (Hst & _). split; [done|]. exists e'. by rewrite Hst.
  - assert (same_entries h' h) as Hsame' by (intros x; by rewrite Hsame).
    destruct (same_entries_lookup _ _ _ _ Hsame' He) as (e' & He' & Hst).
    apply he_strip_inv in Hst as (Hst & _). split; [done|]. exists e'. by rewrite Hst.
Qed.

Lemma objalloc_alloc_spec t :
  let '(ok, t') := objalloc_alloc t in
  ht_table t' = ht_table t /\ ht_heap t' = ht_heap t /\ ht_brk t' = ht_brk t /\
  ht_size t' = ht_size t /\ ht_count t' = ht_count t /\ ht_frozen t' = ht_frozen t /\
  (ok = false -> false ∈ ht_oracle t) /\ (false ∈ ht_oracle t' -> false ∈ ht_oracle t).
Proof.
  unfold objalloc_alloc. destruct (ht_oracle t) as [|ok o] eqn:Ho; split_and!; try done.
  - by rewrite Ho.
  - intros ->. by left.
  - intros. by right.
Qed.

(** [ht_inv] looks at neither the flag nor the allocator. *)
Lemma ht_inv_ext t t' chains :
  ht_table t' = ht_table t -> ht_heap t' = ht_heap t -> ht_brk t' = ht_brk t ->
  ht_size t' = ht_size t -> ht_inv t chains -> ht_inv t' chains.
Proof. intros E1 E2 E3 E4 []. by constructor; rewrite ?E1, ?E2, ?E3, ?E4. Qed.

Lemma ht_inv_length t chains : ht_inv t chains -> (length (concat chains) <= ht_brk t)%nat.
Proof.
  intros Hinv. apply NoDup_lt_length; [apply Hinv|]. intros a Ha.
  apply elem_of_concat in Ha as (i & l & Hi & Ha).
  destruct (hi_placed _ _ Hinv i l a Hi Ha) as (e & He & _).
  destruct (decide (ht_brk t <= a)%nat) as [Hle|]; [|lia].
  by rewrite (hi_fresh _ _ Hinv a Hle) in He.
Qed.

Lemma ht_inv_chain_length t chains i l :
  ht_inv t chains -> chains !! i = Some l -> (length l <= ht_brk t)%nat.
Proof.
  intros Hinv Hi. destruct (concat_insert chains i l Hi) as (k & Hk & _).
  pose proof (ht_inv_length t chains Hinv) as Hlen. rewrite Hk, length_app in Hlen. lia.
Qed.

(** The bucket of a hash value. *)
Lemma ht_bucket t chains hash :
  ht_inv t chains ->
  exists p l, let i := Z.to_nat (hash mod ht_size t) in
    ht_table t !! i = Some p /\ chains !! i = Some l /\ lseg (ht_heap t) p l None.
Proof.
  intros Hinv. set (i := Z.to_nat (hash mod ht_size t)).
  assert (i < length chains)%nat as Hi.
  { pose proof (hi_size _ _ Hinv). pose proof (hi_len _ _ Hinv).
    pose proof (Z.mod_pos_bound hash (ht_size t) ltac:(lia)). lia. }
  destruct (lookup_lt_is_Some_2 chains i Hi) as [l Hl].
  destruct (chains_ok_lookup _ _ _ _ _ (hi_chains _ _ Hinv) Hl) as (p & Hp & Hseg).
  by exists p, l.
Qed.

(** ** Lookup *)

Lemma chain_find_spec fuel h p l hash s :
  lseg h p l None -> (length l < fuel)%nat ->
  exists r, chain_find fuel h p hash s = Some r /\
    match r with
    | Some a => a ∈ l /\ exists e, h !! a = Some e /\ he_hash e = hash /\ he_string e = s
    | None => forall a e, a ∈ l -> h !! a = Some e -> he_hash e = hash -> he_string e <> s
    end.
Proof.
  revert p l. induction fuel as [|fuel IH]; intros p l Hseg Hlen; [lia|].
  cbn [chain_find]. destruct l as [|a l].
  - cbn in Hseg. subst p. exists None. split; [done|]. intros a e Ha. by apply elem_of_nil in Ha.
  - destruct Hseg as (-> & e & He & Hseg). rewrite He. cbn [mbind option_bind].
    destruct (Z.eqb_spec (he_hash e) hash) as [Hh|Hh]; cbn [andb].
    2: destruct (IH _ _ Hseg ltac:(simpl in Hlen; lia)) as (r & Hr & Hspec).
    + case_bool_decide as Hs.
      * exists (Some a). split; [done|]. split; [by left|eauto].
      * destruct (IH _ _ Hseg ltac:(simpl in Hlen; lia)) as (r & Hr & Hspec).
        exists r. split; [done|]. destruct r as [b|]; [set_solver|].
        intros b eb Hb Heb Hhb. apply elem_of_cons in Hb as [->|Hb]; [|by eapply Hspec].
        rewrite He in Heb. by injection Heb as <-.
    + exists r. split; [done|]. destruct r as [b|]; [set_solver|].
      intros b eb Hb Heb Hhb. apply elem_of_cons in Hb as [->|Hb]; [|by eapply Hspec].
      rewrite He in Heb. by injection Heb as <-.
Qed.

(** The search loop computes the map. *)
Lemma lookup_find t m s :
  represents t m ->
  let hash := (bfd_hash_hash s).1 in
  exists head, ht_table t !! Z.to_nat (hash mod ht_size t) = Some head /\
    chain_find (ht_brk t + 1) (ht_heap t) head hash s = Some (m !! s).
Proof.
  intros (chains & Hinv & Hm & _) hash.
  destruct (ht_bucket t chains hash Hinv) as (head & l & Hhead & Hl & Hseg).
  exists head. split; [done|].
  pose proof (ht_inv_chain_length _ _ _ _ Hinv Hl) as Hlen.
  destruct (chain_find_spec (ht_brk t + 1) _ _ _ hash s Hseg ltac:(lia)) as (r & Hr & Hspec).
  rewrite Hr. f_equal. destruct r as [a|].
  - destruct Hspec as (Ha & e & He & _ & Hs). symmetry. apply Hm. split; [|eauto].
    apply elem_of_concat. eauto.
  - destruct (m !! s) as [a|] eqn:Hms; [|done]. apply Hm in Hms as (Ha & e & He & Hs). exfalso.
    pose proof (hi_hash _ _ Hinv a e Ha He) as Hh. rewrite Hs in Hh.
    apply elem_of_concat in Ha as (j & l' & Hj & Ha).
    destruct (hi_placed _ _ Hinv j l' a Hj Ha) as (e' & He' & Hidx). rewrite He in He'.
    injection He' as <-. rewrite Hh in Hidx. fold hash in Hidx. rewrite Hidx in Hl.
    rewrite Hj in Hl. injection Hl as ->. by apply (Hspec a e Ha He Hh).
Qed.

(** ** Growth preserves the map *)

Lemma represents_frozen t m b : represents t m -> represents (set_frozen b t) m.
Proof.
  intros (chains & Hinv & Hm & Hc). exists chains. split_and!; [|done..]. by apply (ht_inv_ext t).
Qed.

Lemma hash_grow_spec t m :
  represents t m -> ht_size t < 4294967291 ->
  exists t', hash_grow t = Some t' /\ represents t' m /\ same_entries (ht_heap t) (ht_heap t').
Proof.
  intros (chains & Hinv & Hm & Hc) Hsize. unfold hash_grow.
  destruct (proj1 (higher_prime_spec (ht_size t)) Hsize) as (ns & Hns & Hin & Hgt & Hleast).
  rewrite Hns. cbn [mbind option_bind]. pose proof (hi_size _ _ Hinv) as Hpos.
  assert (ns <= 4294967291) as Hns32.
  { apply Hleast; [|done]. apply list_elem_of_lookup. by exists 27%nat. }
  assert (u64 (ns * 8) / 8 = ns) as Halloc.
  { rewrite wrap_small by (unfold fits; lia). by rewrite Z.div_mul. }
  rewrite Halloc, Z.eqb_refl. replace (ns =? 0) with false by lia. cbn [orb negb].
  pose proof (objalloc_alloc_spec t) as Hal.
  destruct (objalloc_alloc t) as [ok t1]. destruct Hal as (E1 & E2 & E3 & E4 & E5 & _ & _ & _).
  assert (ht_inv t1 chains) as Hinv1 by (by apply (ht_inv_ext t)).
  destruct ok.
  2: { exists (set_frozen true t1). split; [done|]. split; [|by simpl; rewrite E2].
       apply represents_frozen. exists chains. by rewrite E2, E5. }
  assert (move_inv (concat chains) ns (ht_heap t1) (ht_table t1) (replicate (Z.to_nat ns) None)
            chains (replicate (Z.to_nat ns) [])) as Hmi.
  { constructor.
    - apply Hinv1.
    - apply Forall2_replicate. done.
    - assert (forall n, concat (replicate n (@nil ptr)) = []) as -> by (induction n; simpl; auto).
      by rewrite app_nil_r.
    - rewrite length_replicate. lia.
    - intros i l a Hi Ha. apply lookup_replicate in Hi as [-> _]. by apply elem_of_nil in Ha. }
  pose proof (ht_inv_length _ _ Hinv1) as Hbrk.
  destruct (move_buckets_spec (concat chains) ns (ht_brk t1 + 1) (Z.to_nat (ht_size t1)) 0 _ _ _ _ _
    (hi_nodup _ _ Hinv1) ltac:(lia) ltac:(lia) Hmi) as (h' & nt & nc & Hmove & Hok & Hperm & Hlen & Hpl & Hsame).
  { pose proof (hi_len _ _ Hinv1). lia. }
  { intros j l Hj. lia. }
  rewrite Hmove. cbn [mbind option_bind]. eexists. split; [done|]. split.
  - exists nc. split_and!; [|simpl; rewrite E2 in Hsame; by eapply entries_of_same|
      simpl; by rewrite (Permutation_length Hperm), E5].
    constructor; simpl.
    + lia.
    + done.
    + done.
    + eapply NoDup_Permutation_proper; [exact Hperm|]. apply Hinv.
    + done.
    + intros a e Ha He. rewrite Hperm in Ha.
      assert (same_entries h' (ht_heap t1)) as Hsame' by (intros x; by rewrite Hsame).
      destruct (same_entries_lookup _ _ _ _ Hsame' He) as (e' & He' & Hst).
      apply he_strip_inv in Hst as (<- & <- & _). by apply (hi_hash _ _ Hinv1 a).
    + intros a Ha. pose proof (hi_fresh _ _ Hinv1 a Ha) as Hn.
      specialize (Hsame a). rewrite Hn in Hsame. by destruct (h' !! a).
  - simpl. by rewrite E2 in Hsame.
Qed.

(** ** Insertion *)

(** The table after a fresh entry [p] was put at the head of its bucket. *)
Lemma link_entry t chains m s (p : ptr) (e : hash_entry E) (head : option ptr) t' :
  ht_inv t chains -> entries_of (ht_heap t) (concat chains) m ->
  m !! s = None -> p ∉ concat chains -> (p < ht_brk t')%nat -> (ht_brk t <= ht_brk t')%nat ->
  let i := Z.to_nat (he_hash e mod ht_size t) in
  ht_table t !! i = Some head ->
  he_next e = head -> he_string e = s -> he_hash e = (bfd_hash_hash s).1 ->
  ht_heap t' = <[p := e]> (ht_heap t) -> ht_table t' = <[i := Some p]> (ht_table t) ->
  ht_size t' = ht_size t ->
  exists chains', ht_inv t' chains' /\ entries_of (ht_heap t') (concat chains') (<[s := p]> m) /\
    concat chains' ≡ₚ p :: concat chains.
Proof.
  intros Hinv Hm Hs Hp Hbrk1 Hbrk2 i Hhead Hnext Hstr Hhash Eh Et Es.
  destruct (ht_bucket t chains (he_hash e) Hinv) as (head' & l & Hhead' & Hl & Hseg).
  fold i in Hhead', Hl. rewrite Hhead in Hhead'. injection Hhead' as <-.
  destruct (concat_insert chains i l Hl) as (k & Hk & Hins).
  assert (forall a, a ∈ concat chains -> a <> p) as Hfresh by (by intros a Ha ->).
  assert (concat (<[i := p :: l]> chains) ≡ₚ p :: concat chains) as Hperm by (by rewrite Hins, Hk).
  assert (forall a, a <> p -> ht_heap t' !! a = ht_heap t !! a) as Hother.
  { intros a Ha. rewrite Eh. by apply lookup_insert_ne. }
  assert (ht_heap t' !! p = Some e) as Hpe by (rewrite Eh; apply lookup_insert_eq).
  exists (<[i := p :: l]> chains). split_and!; [constructor| |done].
  - rewrite Es. apply Hinv.
  - rewrite length_insert, Es. apply Hinv.
  - rewrite Et. apply chains_ok_insert.
    + eapply chains_ok_frame; [|apply Hinv]. intros a Ha. by apply Hother, Hfresh.
    + split; [done|]. exists e. split; [done|]. rewrite Hnext.
      eapply lseg_frame; [|exact Hseg]. intros a Ha. apply Hother, Hfresh.
      rewrite Hk. apply elem_of_app. by left.
  - eapply NoDup_Permutation_proper; [exact Hperm|]. apply NoDup_cons. split; [|apply Hinv].
    intros Ha. by apply (Hfresh p).
  - rewrite Es. intros j l' a Hj Ha. destruct (decide (j = i)) as [->|].
    + rewrite list_lookup_insert_eq in Hj by (by eapply lookup_lt_Some). injection Hj as <-.
      apply elem_of_cons in Ha as [->|Ha]; [by exists e|].
      destruct (hi_placed _ _ Hinv i l a Hl Ha) as (ea & Hea & Hi). exists ea.
      rewrite Hother; [done|]. apply Hfresh. rewrite Hk. apply elem_of_app. by left.
    + rewrite list_lookup_insert_ne in Hj by done.
      destruct (hi_placed _ _ Hinv j l' a Hj Ha) as (ea & Hea & Hi). exists ea.
      rewrite Hother; [done|]. apply Hfresh. apply elem_of_concat. eauto.
  - intros a ea Ha Hea. rewrite Hperm in Ha. apply elem_of_cons in Ha as [->|Ha].
    + rewrite Hpe in Hea. injection Hea as <-. by rewrite Hstr.
    + rewrite Hother in Hea by (by apply Hfresh). by eapply (hi_hash _ _ Hinv).
  - intros a Ha. rewrite Hother by lia. apply (hi_fresh _ _ Hinv). lia.
  - intros s' a. rewrite Hperm, elem_of_cons. split.
    + rewrite lookup_insert_Some. intros [[<- <-]|[Hne Ha]].
      * split; [by left|]. by exists e.
      * apply Hm in Ha as (Ha & ea & Hea & Hsa). split; [by right|]. exists ea.
        by rewrite Hother by (by apply Hfresh).
    + intros [[->|Ha] (ea & Hea & Hsa)].
      * rewrite Hpe in Hea. injection Hea as <-. rewrite <- Hsa, Hstr. apply lookup_insert_eq.
      * rewrite Hother in Hea by (by apply Hfresh).
        assert (m !! s' = Some a) as Hms by (apply Hm; eauto).
        rewrite lookup_insert_ne; [done|]. intros ->. by rewrite Hs in Hms.
Qed.

Lemma hash_insert_spec init t m s :
  represents t m -> m !! s = None -> ht_frozen t = true \/ ht_size t < 4294967291 ->
  exists r t', bfd_hash_insert init t s (bfd_hash_hash s).1 = Some (r, t') /\
    match r with
    | None => false ∈ ht_oracle t /\ represents t' m /\ ht_heap t' = ht_heap t
    | Some p => ht_heap t !! p = None /\ represents t' (<[s := p]> m) /\
        keeps_entries (Some p) t t' /\
        he_strip <$> ht_heap t' !! p = Some (s, (bfd_hash_hash s).1, init)
    end.
Proof.
  intros (chains & Hinv & Hm & Hc) Hs Hgrow. unfold bfd_hash_insert, bfd_hash_newfunc.
  pose proof (objalloc_alloc_spec t) as Hal. destruct (objalloc_alloc t) as [ok t1].
  destruct Hal as (E1 & E2 & E3 & E4 & E5 & E6 & Hno & _).
  assert (ht_inv t1 chains) as Hinv1 by (by apply (ht_inv_ext t)).
  destruct ok.
  2: { exists None, t1. split; [done|]. split_and!; [by apply Hno| |done].
       exists chains. by rewrite E2, E5. }
  pose proof (hi_size _ _ Hinv) as Hsize. cbn [ht_size ht_table ht_heap ht_brk ht_count ht_frozen].
  rewrite E4. replace (ht_size t =? 0) with false by lia.
  destruct (ht_bucket t1 chains (bfd_hash_hash s).1 Hinv1) as (head & l & Hhead & Hl & Hseg).
  rewrite E4 in Hhead. rewrite Hhead. cbn [mbind option_bind].
  set (p := ht_brk t1). set (e := mkHashEntry head s (bfd_hash_hash s).1 init).
  assert (ht_heap t !! p = None) as Hp.
  { apply (hi_fresh _ _ Hinv). subst p. rewrite E3. lia. }
  match goal with |- context [if negb (ht_frozen ?x) && _ then _ else _] => set (t2 := x) end.
  assert (represents t2 (<[s := p]> m)) as Hrep.
  { assert (p ∉ concat chains) as Hpc.
    { intros Ha. apply elem_of_concat in Ha as (j & l' & Hj & Ha).
      destruct (hi_placed _ _ Hinv j l' p Hj Ha) as (e' & He' & _). by rewrite Hp in He'. }
    destruct (link_entry t1 chains m s p e head t2) as (chains' & Hinv' & Hm' & Hperm);
      try done; [..|exists chains'; split_and!; [done..|]; subst t2; cbn;
        rewrite (Permutation_length Hperm), E5, Hc, wrap_add_l by lia; f_equal; simpl; lia];
      subst t2 e; cbn; rewrite ?E2, ?E4.
    - done.
    - lia.
    - subst p. lia.
    - done.
    - by rewrite insert_insert_eq.
    - done. }
  assert (keeps_entries (Some p) t t2) as Hkeep.
  { intros a Ha. subst t2. cbn. rewrite E2, insert_insert_eq. rewrite lookup_insert_ne; [done|]. congruence. }
  assert (he_strip <$> ht_heap t2 !! p = Some (s, (bfd_hash_hash s).1, init)) as Hpe.
  { subst t2. cbn. by rewrite lookup_insert_eq. }
  destruct (negb (ht_frozen t2) && _) eqn:Hg.
  - apply andb_true_iff in Hg as [Hf _].
    assert (ht_size t2 < 4294967291) as Hsz.
    { subst t2. cbn in *. rewrite E6 in Hf. destruct Hgrow as [Hfr|]; [by rewrite Hfr in Hf|lia]. }
    destruct (hash_grow_spec t2 _ Hrep Hsz) as (t3 & Hg3 & Hrep3 & Hsame).
    rewrite Hg3. cbn [mbind option_bind]. exists (Some p), t3. split_and!; [done..| |].
    + intros a Ha. rewrite Hsame. by apply Hkeep.
    + by rewrite Hsame.
  - by exists (Some p), t2.
Qed.

(** ** Redirecting a link *)

Lemma find_link_spec fuel h pph p l1 ent l2 :
  lseg h p (l1 ++ ent :: l2) None -> ent ∉ l1 -> (length l1 < fuel)%nat ->
  find_link fuel h pph p ent = Some (match last l1 with Some b => Some b | None => pph end).
Proof.
  revert pph p l1. induction fuel as [|fuel IH]; intros pph p l1 Hseg Hent Hlen; [lia|].
  cbn [find_link]. destruct l1 as [|b l1].
  - destruct Hseg as (-> & _). by rewrite Nat.eqb_refl.
  - destruct Hseg as (-> & e & He & Hseg). apply not_elem_of_cons in Hent as [Hne Hent].
    destruct (Nat.eqb_spec b ent) as [->|]; [done|]. rewrite He. cbn [mbind option_bind].
    rewrite (IH _ _ _ Hseg Hent) by (simpl in Hlen; lia). f_equal.
    destruct l1 as [|c l1]; [done|]. rewrite last_cons_cons.
    destruct (last (c :: l1)) eqn:Hlast; [done|]. by apply last_None in Hlast.
Qed.

(** After the store, the chain goes on with what [v] leads to. *)
Lemma redirect_spec t chains i l1 ent l2 v l2' :
  chains_ok (ht_heap t) (ht_table t) chains -> NoDup (concat chains) ->
  chains !! i = Some (l1 ++ ent :: l2) -> lseg (ht_heap t) v l2' None ->
  (forall a, a ∈ l1 -> a ∉ l2') -> (length l1 <= ht_brk t)%nat ->
  exists head pph t1,
    ht_table t !! i = Some head /\
    find_link (ht_brk t + 1) (ht_heap t) None head ent = Some pph /\
    store_link pph i v t = Some t1 /\
    chains_ok (ht_heap t1) (ht_table t1) (<[i := l1 ++ l2']> chains) /\
    same_entries (ht_heap t) (ht_heap t1) /\
    (forall a, a ∉ l1 -> ht_heap t1 !! a = ht_heap t !! a) /\
    ht_size t1 = ht_size t /\ ht_brk t1 = ht_brk t /\ ht_count t1 = ht_count t.
Proof.
  intros Hok Hnd Hi Hv Hdisj Hlen.
  destruct (chains_ok_lookup _ _ _ _ _ Hok Hi) as (head & Hhead & Hseg).
  destruct (concat_insert chains i _ Hi) as (k & Hk & Hins).
  assert (NoDup ((l1 ++ ent :: l2) ++ k)) as Hnd'.
  { eapply NoDup_Permutation_proper; [|exact Hnd]. by rewrite Hk. }
  apply NoDup_app in Hnd' as (Hndl & Hdk & _).
  pose proof Hndl as Hndl'. apply NoDup_app in Hndl' as (Hnd1 & Hd1 & _).
  assert (ent ∉ l1) as Hent by (intros He; apply (Hd1 ent He); by left).
  exists head. rewrite (find_link_spec _ _ None head l1 ent l2 Hseg Hent) by lia.
  destruct (last l1) as [b|] eqn:Hlast.
  - apply last_Some in Hlast as [l1' ->]. rewrite <- app_assoc in Hseg.
    rewrite lseg_app in Hseg. destruct Hseg as (mid & Hseg1 & -> & eb & Heb & Hsegb).
    exists (Some b). cbn [store_link]. rewrite Heb. cbn [mbind option_bind].
    eexists. split_and!; try done; [|by apply same_entries_set_next|].
    + assert (forall a, a <> b -> <[b := set_next v eb]> (ht_heap t) !! a = ht_heap t !! a) as Hoth.
      { intros a Ha. by apply lookup_insert_ne. }
      cbn [ht_heap ht_table set_heap].
      rewrite <- (list_insert_id (ht_table t) i head) by done.
      apply Forall2_lookup. intros j.
      destruct (decide (j = i)) as [->|Hji].
      * rewrite !list_lookup_insert_eq by (by eapply lookup_lt_Some). constructor.
        apply lseg_app. exists v. split.
        -- eapply lseg_relink; [done|exact Heb|]. apply lseg_app. exists (Some b). split; [done|].
           split; [done|]. by exists eb.
        -- apply lseg_insert; [|done]. apply Hdisj. apply elem_of_app. right. by left.
      * rewrite !list_lookup_insert_ne by done.
        destruct (chains !! j) as [l|] eqn:Hj.
        -- destruct (chains_ok_lookup _ _ _ _ _ Hok Hj) as (p & Hp & Hsegj). rewrite Hp. constructor.
           eapply lseg_frame; [|exact Hsegj]. intros a Ha. apply Hoth. intros ->.
           apply (Hdk b); [set_solver|].
           assert (b ∈ concat (<[i := []]> chains)) as Hbc.
           { apply elem_of_concat. exists j, l. by rewrite list_lookup_insert_ne. }
           by rewrite Hins in Hbc.
        -- apply lookup_ge_None in Hj. apply Forall2_length in Hok.
           rewrite (proj2 (lookup_ge_None _ _)) by lia. constructor.
    + intros a Ha. apply lookup_insert_ne. set_solver.
  - apply last_None in Hlast as ->. exists None. cbn [store_link]. eexists.
    split_and!; try done.
    cbn [ht_heap ht_table set_table]. by apply chains_ok_insert.
Qed.

(** Strings identify the entries of a table. *)
Lemma entries_of_inj h as_ m s s' a : entries_of h as_ m -> m !! s = Some a -> m !! s' = Some a -> s = s'.
Proof.
  intros Hm Hs Hs'. apply Hm in Hs as (_ & e & He & <-). apply Hm in Hs' as (_ & e' & He' & <-).
  rewrite He in He'. by injection He' as <-.
Qed.

(** Where the map's entry for [s] is. *)
Lemma entry_position t chains m s a :
  ht_inv t chains -> entries_of (ht_heap t) (concat chains) m -> m !! s = Some a ->
  exists e l1 l2, ht_heap t !! a = Some e /\ he_string e = s /\ he_hash e = (bfd_hash_hash s).1 /\
    chains !! Z.to_nat (he_hash e mod ht_size t) = Some (l1 ++ a :: l2) /\
    (length l1 <= ht_brk t)%nat.
Proof.
  intros Hinv Hm Hs. apply Hm in Hs as (Ha & e & He & Hs).
  pose proof (hi_hash _ _ Hinv a e Ha He) as Hh. rewrite Hs in Hh.
  apply elem_of_concat in Ha as (i & l & Hi & Ha).
  destruct (hi_placed _ _ Hinv i l a Hi Ha) as (e' & He' & <-). rewrite He in He'. injection He' as <-.
  pose proof (ht_inv_chain_length _ _ _ _ Hinv Hi) as Hlen.
  apply list_elem_of_split in Ha as (l1 & l2 & ->). rewrite length_app in Hlen.
  exists e, l1, l2. split_and!; [done..|lia].
Qed.

(** The table with one entry unlinked. *)
Lemma unlink_spec t chains m s a :
  ht_inv t chains -> entries_of (ht_heap t) (concat chains) m -> m !! s = Some a ->
  exists e head pph t1 chains1,
    ht_heap t !! a = Some e /\ he_string e = s /\
    (let i := Z.to_nat (he_hash e mod ht_size t) in
     ht_table t !! i = Some head /\
     find_link (ht_brk t + 1) (ht_heap t) None head a = Some pph /\
     store_link pph i (he_next e) t = Some t1) /\
    ht_inv t1 chains1 /\ entries_of (ht_heap t1) (concat chains1) (delete s m) /\
    concat chains ≡ₚ a :: concat chains1 /\
    same_entries (ht_heap t) (ht_heap t1) /\ ht_heap t1 !! a = Some e /\
    ht_size t1 = ht_size t /\ ht_brk t1 = ht_brk t /\ ht_count t1 = ht_count t.
Proof.
  intros Hinv Hm Hs.
  destruct (entry_position t chains m s a Hinv Hm Hs) as (e & l1 & l2 & He & Hse & Hh & Hi & Hlen).
  set (i := Z.to_nat (he_hash e mod ht_size t)) in *.
  destruct (concat_insert chains i _ Hi) as (k & Hk & Hins).
  assert (concat chains ≡ₚ a :: concat (<[i := l1 ++ l2]> chains)) as Hperm.
  { rewrite Hk, Hins. solve_Permutation. }
  assert (NoDup (a :: concat (<[i := l1 ++ l2]> chains))) as Hnd.
  { eapply NoDup_Permutation_proper; [|apply Hinv]. by rewrite Hperm. }
  apply NoDup_cons in Hnd as [Hnin Hnd].
  assert (NoDup (l1 ++ a :: l2)) as Hndl.
  { pose proof (hi_nodup _ _ Hinv) as H. rewrite Hk in H. by apply NoDup_app in H as (? & _). }
  apply NoDup_app in Hndl as (Hnd1 & Hd1 & Hnd2).
  destruct (chains_ok_lookup _ _ _ _ _ (hi_chains _ _ Hinv) Hi) as (head' & Hhead' & Hseg).
  apply lseg_app in Hseg as (mid & _ & -> & e' & He' & Hseg2). rewrite He in He'. injection He' as <-.
  destruct (redirect_spec t chains i l1 a l2 (he_next e) l2) as
    (head & pph & t1 & Hhead & Hfind & Hstore & Hok1 & Hsame & Hother & E1 & E2 & E3);
    [by apply Hinv|by apply Hinv|done|done| |done|].
  { intros b Hb Hb2. apply (Hd1 b Hb). by right. }
  exists e, head, pph, t1, (<[i := l1 ++ l2]> chains). split; [done|]. split; [done|]. split; [done|].
  assert (forall b, b ∈ concat (<[i := l1 ++ l2]> chains) -> b ∈ concat chains) as Hsub.
  { intros b Hb. rewrite Hperm. by right. }
  split; [constructor|split_and!; try done].
  - rewrite E1. apply Hinv.
  - rewrite length_insert, E1. apply Hinv.
  - done.
  - done.
  - rewrite E1. apply (placed_same _ _ _ _ Hsame). intros j l b Hj Hb.
    destruct (decide (j = i)) as [->|].
    + rewrite list_lookup_insert_eq in Hj by (by eapply lookup_lt_Some). injection Hj as <-.
      apply (hi_placed _ _ Hinv i _ b Hi). set_solver.
    + rewrite list_lookup_insert_ne in Hj by done. by eapply (hi_placed _ _ Hinv).
  - intros b eb Hb Heb. assert (same_entries (ht_heap t1) (ht_heap t)) as Hsame' by (intros x; by rewrite Hsame).
    destruct (same_entries_lookup _ _ _ _ Hsame' Heb) as (e' & He' & Hst).
    apply he_strip_inv in Hst as (<- & <- & _). apply (hi_hash _ _ Hinv b); auto.
  - intros b Hb. rewrite E2 in Hb. pose proof (hi_fresh _ _ Hinv b Hb) as Hn.
    specialize (Hsame b). rewrite Hn in Hsame. by destruct (ht_heap t1 !! b).
  - apply (entries_of_same (ht_heap t) _ (concat (<[i := l1 ++ l2]> chains))); [done|done|].
    intros s' b. rewrite lookup_delete_Some, (Hm s' b), Hperm, elem_of_cons. split.
    + intros (Hne & [->|Hb] & eb & Heb & Hsb); [|by eauto].
      rewrite He in Heb. injection Heb as <-. by rewrite Hse in Hsb.
    + intros (Hb & eb & Heb & Hsb). split; [|by eauto]. intros <-.
      assert (m !! s = Some b) as Hsb' by (apply Hm; eauto).
      rewrite Hs in Hsb'. by injection Hsb' as ->.
  - rewrite Hother; [done|]. intros Ha. apply (Hd1 a Ha). by left.
Qed.

(** ** Changes that a table does not see *)

(** Chains, strings and hashes determine what a table represents: derived
    data may change, and entries outside the chains may appear. *)
Lemma represents_ext t t' m :
  represents t m ->
  ht_table t' = ht_table t -> ht_size t' = ht_size t -> ht_count t' = ht_count t ->
  (ht_brk t <= ht_brk t')%nat ->
  (forall a e, ht_heap t !! a = Some e -> exists e', ht_heap t' !! a = Some e' /\
     he_next e' = he_next e /\ he_string e' = he_string e /\ he_hash e' = he_hash e) ->
  (forall a, (ht_brk t' <= a)%nat -> ht_heap t' !! a = None) ->
  represents t' m.
Proof.
  intros (chains & Hinv & Hm & Hc) E1 E2 E3 Hbrk Hsame Hfresh.
  assert (forall a, a ∈ concat chains -> is_Some (ht_heap t !! a)) as Hdom.
  { intros a Ha. apply elem_of_concat in Ha as (i & l & Hi & Ha).
    destruct (hi_placed _ _ Hinv i l a Hi Ha) as (e & He & _). by exists e. }
  assert (forall p l, lseg (ht_heap t) p l None -> lseg (ht_heap t') p l None) as Hseg.
  { intros p l. revert p. induction l as [|a l IH]; intros p; [done|].
    intros (-> & e & He & Hl). destruct (Hsame a e He) as (e' & He' & Hn & _).
    split; [done|]. exists e'. rewrite Hn. auto. }
  exists chains. split_and!; [constructor| |by rewrite E3].
  - rewrite E2. apply Hinv.
  - rewrite E2. apply Hinv.
  - rewrite E1. eapply Forall2_impl; [apply Hinv|]. auto.
  - apply Hinv.
  - rewrite E2. intros i l a Hi Ha. destruct (hi_placed _ _ Hinv i l a Hi Ha) as (e & He & Hidx).
    destruct (Hsame a e He) as (e' & He' & _ & _ & Hh). exists e'. by rewrite Hh.
  - intros a e' Ha He'. destruct (Hdom a Ha) as [e He].
    destruct (Hsame a e He) as (e2 & He2 & _ & Hs & Hh). rewrite He' in He2. injection He2 as <-.
    rewrite Hs, Hh. by apply (hi_hash _ _ Hinv a).
  - done.
  - intros s a. rewrite (Hm s a). split; intros (Ha & e & He & Hs); (split; [done|]).
    + destruct (Hsame a e He) as (e' & He' & _ & Hs' & _). exists e'. by rewrite Hs'.
    + destruct (Hdom a Ha) as [e1 He1]. destruct (Hsame a e1 He1) as (e' & He' & _ & Hs' & _).
      rewrite He in He'. injection He' as <-. exists e1. by rewrite <- Hs'.
Qed.

Lemma represents_fresh t m a : represents t m -> (ht_brk t <= a)%nat -> ht_heap t !! a = None.
Proof. intros (chains & Hinv & _). apply (hi_fresh _ _ Hinv). Qed.

Lemma represents_brk t m a e : represents t m -> ht_heap t !! a = Some e -> (a < ht_brk t)%nat.
Proof.
  intros Hrep He. destruct (decide (ht_brk t <= a)%nat) as [Hle|]; [|lia].
  by rewrite (represents_fresh t m a Hrep Hle) in He.
Qed.

Lemma represents_entry t m s a :
  represents t m -> m !! s = Some a -> exists e, ht_heap t !! a = Some e /\ he_string e = s.
Proof. intros (chains & _ & Hm & _) Hs. by apply Hm in Hs as (_ & ?). Qed.

(** Storing the data of an entry. *)
Lemma store_data_eq (a : ptr) d t (e : hash_entry E) :
  ht_heap t !! a = Some e -> store_data a d t = Some (set_heap (<[a := set_data d e]> (ht_heap t)) t).
Proof. intros He. unfold store_data. by rewrite He. Qed.

Lemma represents_store table m (p : ptr) (e : hash_entry E) d :
  represents table m -> ht_heap table !! p = Some e ->
  represents (set_heap (<[p := set_data d e]> (ht_heap table)) table) m.
Proof.
  intros Hrep He. apply (represents_ext table); try done.
  - intros a ea Hea. cbn. destruct (decide (a = p)) as [->|].
    + rewrite He in Hea. injection Hea as <-. rewrite lookup_insert_eq. by eexists.
    + rewrite lookup_insert_ne by done. by exists ea.
  - intros a Ha. cbn in *. pose proof (represents_fresh _ _ _ Hrep Ha).
    rewrite lookup_insert_ne; [done|]. intros ->. congruence.
Qed.

(** A fresh table is the empty map. *)
Lemma hash_init_represents ok oracle entsize size t :
  0 < size < 2 ^ 32 ->
  bfd_hash_table_init_n (E:=E) ok oracle entsize size = Some t -> represents t ∅ /\ ht_size t = size.
Proof.
  intros Hsize. unfold bfd_hash_table_init_n.
  destruct (negb _); [done|]. destruct ok; [|done]. cbn [negb].
  set (t0 := mkHashTable _ _ _ _ _ _ _ _).
  pose proof (objalloc_alloc_spec t0) as Hal. destruct (objalloc_alloc t0) as [[] t1]; [|done].
  destruct Hal as (E1 & E2 & E3 & E4 & E5 & _). intros [= <-].
  assert (forall n, concat (replicate n (@nil ptr)) = []) as Hcc by (induction n; simpl; auto).
  split; [|by rewrite E4]. exists (replicate (Z.to_nat size) []).
  rewrite E2, E5, Hcc. subst t0. cbn in *. split_and!; [|by intros s a; rewrite lookup_empty, elem_of_nil; naive_solver|done].
  constructor; rewrite ?E1, ?E2, ?E4, ?Hcc.
  - done.
  - rewrite length_replicate. lia.
  - apply Forall2_replicate. done.
  - constructor.
  - intros i l a Hi Ha. apply lookup_replicate in Hi as [-> _]. by apply elem_of_nil in Ha.
  - intros a e Ha. by apply elem_of_nil in Ha.
  - intros a _. apply lookup_empty.
Qed.

(** Calls the callback on the entries in turn until it says to stop. *)
Fixpoint visit_until {St} (func : ptr -> hash_entry E -> St -> bool * St) h (as_ : list ptr) (info : St) : bool * St :=
  match as_ with
  | [] => (true, info)
  | a :: as_ =>
      match h !! a with
      | None => (false, info)
      | Some e => let '(ok, info) := func a e info in
                  if ok then visit_until func h as_ info else (false, info)
      end
  end.

Lemma visit_until_app {St} (func : ptr -> hash_entry E -> St -> bool * St) h l1 l2 info :
  visit_until func h (l1 ++ l2) info =
  let '(ok, info) := visit_until func h l1 info in
  if ok then visit_until func h l2 info else (false, info).
Proof.
  revert info. induction l1 as [|a l1 IH]; intros info; cbn [app visit_until]; [done|].
  destruct (h !! a) as [e|]; [|done]. destruct (func a e info) as [[] info']; [apply IH|done].
Qed.

Lemma traverse_chain_spec {St} (func : ptr -> hash_entry E -> St -> bool * St) fuel h p l info :
  lseg h p l None -> (length l < fuel)%nat ->
  traverse_chain func fuel h p info = Some (visit_until func h l info).
Proof.
  revert p l info. induction fuel as [|fuel IH]; intros p l info Hseg Hlen; [lia|].
  cbn [traverse_chain]. destruct l as [|a l].
  - cbn in Hseg. by subst p.
  - destruct Hseg as (-> & e & He & Hseg). cbn [visit_until]. rewrite He. cbn [mbind option_bind].
    destruct (func a e info) as [[] info']; [|done]. apply IH; [done|simpl in Hlen; lia].
Qed.

Lemma traverse_buckets_spec {St} (func : ptr -> hash_entry E -> St -> bool * St) bound h table chains info :
  chains_ok h table chains -> (forall l, l ∈ chains -> (length l < bound)%nat) ->
  traverse_buckets func bound h table info = Some (visit_until func h (concat chains) info).
Proof.
  intros Hok. revert info. induction Hok as [|p l table chains Hseg Hok IH]; intros info Hlen; [done|].
  cbn [traverse_buckets concat]. rewrite (traverse_chain_spec func bound h p l info Hseg) by (apply Hlen; by left).
  cbn [mbind option_bind]. rewrite visit_until_app.
  destruct (visit_until func h l info) as [[] info']; [|done]. apply IH. intros l' Hl'. apply Hlen. by right.
Qed.

Lemma entries_of_perm h as_ m :
  NoDup as_ -> entries_of h as_ m -> (forall a, a ∈ as_ -> is_Some (h !! a)) ->
  as_ ≡ₚ (map_to_list m).*2.
Proof.
  intros Hnd Hm Hdom. apply NoDup_Permutation; [done| |].
  - apply NoDup_fmap_2_strong; [|apply NoDup_map_to_list].
    intros [s a] [s' a'] Hs Hs' Heq. cbn in Heq. subst a'.
    apply elem_of_map_to_list in Hs, Hs'. f_equal. by eapply entries_of_inj.
  - intros a. rewrite list_elem_of_fmap. split.
    + intros Ha. destruct (Hdom a Ha) as [e He]. exists (he_string e, a). split; [done|].
      apply elem_of_map_to_list, Hm. eauto.
    + intros ([s a'] & -> & Hs). apply elem_of_map_to_list, Hm in Hs as [Ha _]. done.
Qed.

(** Lookup acts on the represented map. *)
Lemma hash_lookup_spec init t m s create copy :
  represents t m -> ht_frozen t = true \/ ht_size t < 4294967291 ->
  exists r t', bfd_hash_lookup init t s create copy = Some (r, t') /\
    match m !! s with
    | Some a => r = Some a /\ t' = t
    | None =>
        if create then
          match r with
          | Some p => ht_heap t !! p = None /\ represents t' (<[s := p]> m) /\
              keeps_entries (Some p) t t' /\
              he_strip <$> ht_heap t' !! p = Some (s, (bfd_hash_hash s).1, init)
          | None => false ∈ ht_oracle t /\ represents t' m /\ ht_heap t' = ht_heap t
          end
        else r = None /\ t' = t
    end.
Proof.
  intros Hrep Hgrow. unfold bfd_hash_lookup.
  destruct (lookup_find t m s Hrep) as (head & Hhead & Hfind).
  pose proof Hrep as (chains & Hinv & Hm & Hc). pose proof (hi_size _ _ Hinv) as Hsize.
  destruct (bfd_hash_hash s) as [hash len] eqn:Hh. cbn [fst] in *.
  replace (ht_size t =? 0) with false by lia. rewrite Hhead. cbn [mbind option_bind].
  rewrite Hfind. cbn [mbind option_bind]. destruct (m !! s) as [a|] eqn:Hs; [by exists (Some a), t|].
  destruct create; cbn [negb]; [|by exists None, t].
  assert (exists ok t1, (if copy then objalloc_alloc t else (true, t)) = (ok, t1) /\
    ht_heap t1 = ht_heap t /\ represents t1 m /\ (ht_frozen t1 = true \/ ht_size t1 < 4294967291) /\
    (ok = false -> false ∈ ht_oracle t) /\ (false ∈ ht_oracle t1 -> false ∈ ht_oracle t))
    as (ok & t1 & -> & Hheap & Hrep1 & Hgrow1 & Hno & Horacle).
  { destruct copy; [|by exists true, t]. pose proof (objalloc_alloc_spec t) as Hal.
    destruct (objalloc_alloc t) as [ok t1]. destruct Hal as (E1 & E2 & E3 & E4 & E5 & E6 & E7 & E8).
    exists ok, t1. split_and!; try done; [|by rewrite E4, E6].
    exists chains. rewrite E2, E5. split_and!; [|done..]. by apply (ht_inv_ext t). }
  destruct ok; [|by exists None, t1; split_and!; [|apply Hno| |]].
  destruct (hash_insert_spec init t1 m s Hrep1 Hs Hgrow1) as (r & t' & Hins & Hspec).
  rewrite Hh in Hins, Hspec. exists r, t'. split; [exact Hins|]. destruct r as [p|].
  - unfold keeps_entries in *. by rewrite Hheap in Hspec.
  - rewrite Hheap in Hspec. destruct Hspec as (? & ? & ?). auto.
Qed.

(** ** Properties *)

(** C7: on a table that represents a map, lookup finds exactly the
    map's entry and changes nothing; with [create], a missing string is added
    under a fresh entry that holds it, and every other entry keeps its string,
    hash and data, across the growth of the table; it fails only when an
    allocation does, and then the map is unchanged. *)
Theorem hash_lookup_correct init t m s create copy :
  represents t m -> ht_frozen t = true \/ ht_size t < 4294967291 ->
  exists r t', bfd_hash_lookup init t s create copy = Some (r, t') /\
    match m !! s with
    | Some a => r = Some a /\ t' = t
    | None =>
        if create then
          match r with
          | Some p => ht_heap t !! p = None /\ represents t' (<[s := p]> m) /\
              keeps_entries (Some p) t t' /\
              he_strip <$> ht_heap t' !! p = Some (s, (bfd_hash_hash s).1, init)
          | None => false ∈ ht_oracle t /\ represents t' m /\ ht_heap t' = ht_heap t
          end
        else r = None /\ t' = t
    end.
Proof. apply hash_lookup_spec. Qed.

(** Renaming the entry of one string to a string that is free
    moves that entry, and only it, to the new string. *)
Theorem hash_rename_correct t m old new a :
  represents t m -> m !! old = Some a -> new = old \/ m !! new = None ->
  exists t', bfd_hash_rename t new a = Some t' /\ represents t' (<[new := a]> (delete old m)) /\
    keeps_entries (Some a) t t' /\
    (forall e, ht_heap t !! a = Some e ->
       he_strip <$> ht_heap t' !! a = Some (new, (bfd_hash_hash new).1, he_data e)).
Proof.
  intros (chains & Hinv & Hm & Hc) Hold Hnew. unfold bfd_hash_rename.
  destruct (unlink_spec t chains m old a Hinv Hm Hold)
    as (e & head & pph & t1 & chains1 & He & Hs & (Hhead & Hfind & Hstore) & Hinv1 & Hm1 & Hperm
        & Hsame & He1 & E1 & E2 & E3).
  pose proof (hi_size _ _ Hinv) as Hsize. rewrite He. cbn [mbind option_bind].
  replace (ht_size t =? 0) with false by lia. rewrite Hhead. cbn [mbind option_bind].
  rewrite Hfind. cbn [mbind option_bind]. rewrite Hstore. cbn [mbind option_bind].
  set (hash := (bfd_hash_hash new).1).
  destruct (ht_bucket t1 chains1 hash Hinv1) as (head1 & l & Hhead1 & Hl & Hseg).
  rewrite Hhead1. cbn [mbind option_bind]. eexists. split; [done|].
  set (e' := mkHashEntry head1 new hash (he_data e)).
  assert (a ∉ concat chains1) as Hac.
  { pose proof (hi_nodup _ _ Hinv) as Hnd. rewrite Hperm in Hnd. by apply NoDup_cons in Hnd as [? _]. }
  assert (a < ht_brk t1)%nat as Hbrk.
  { destruct (decide (ht_brk t1 <= a)%nat) as [Hle|]; [|lia]. by rewrite (hi_fresh _ _ Hinv1 a Hle) in He1. }
  match goal with |- represents ?x _ /\ _ => set (t2 := x) end.
  destruct (link_entry t1 chains1 (delete old m) new a e' head1 t2) as (chains2 & Hinv2 & Hm2 & Hp2);
    try done.
  { destruct Hnew as [->|Hn]; [apply lookup_delete_eq|]. by rewrite lookup_delete_ne by congruence. }
  split_and!.
  - exists chains2. split_and!; [done..|]. subst t2. cbn. rewrite E3, Hc.
    by rewrite (Permutation_length Hp2), (Permutation_length Hperm).
  - intros b Hb. subst t2. cbn. rewrite lookup_insert_ne by congruence. apply Hsame.
  - intros e0 He0. simplify_eq. subst t2. cbn. by rewrite lookup_insert_eq.
Qed.

(** replacing an entry by one that is not in the table and holds
    the same string, hash and link puts the new entry in its place. *)
Theorem hash_replace_correct t m s old nw eo en :
  represents t m -> m !! s = Some old -> (forall s', m !! s' <> Some nw) ->
  ht_heap t !! old = Some eo -> ht_heap t !! nw = Some en ->
  he_next en = he_next eo -> he_string en = he_string eo -> he_hash en = he_hash eo ->
  exists t', bfd_hash_replace t old nw = Some t' /\ represents t' (<[s := nw]> m) /\
    keeps_entries None t t'.
Proof.
  intros (chains & Hinv & Hm & Hc) Hold Hfresh Heo Hen Hnext Hstr Hhash. unfold bfd_hash_replace.
  destruct (entry_position t chains m s old Hinv Hm Hold) as (e & l1 & l2 & He & Hse & Hh & Hi & Hlen).
  rewrite Heo in He. injection He as <-. set (i := Z.to_nat (he_hash eo mod ht_size t)) in *.
  pose proof (hi_size _ _ Hinv) as Hsize. rewrite Heo. cbn [mbind option_bind].
  replace (ht_size t =? 0) with false by lia.
  destruct (concat_insert chains i _ Hi) as (k & Hk & Hins).
  assert (nw ∉ concat chains) as Hnw.
  { intros Ha. apply (Hfresh (he_string en)), Hm. eauto. }
  assert (NoDup ((l1 ++ old :: l2) ++ k)) as Hnd.
  { eapply NoDup_Permutation_proper; [|apply Hinv]. by rewrite Hk. }
  destruct (chains_ok_lookup _ _ _ _ _ (hi_chains _ _ Hinv) Hi) as (head' & Hhead' & Hseg).
  apply lseg_app in Hseg as (mid & _ & -> & e' & He' & Hseg2). rewrite Heo in He'. injection He' as <-.
  destruct (redirect_spec t chains i l1 old l2 (Some nw) (nw :: l2)) as
    (head & pph & t1 & Hhead & Hfind & Hstore & Hok1 & Hsame & Hother & E1 & E2 & E3);
    [by apply Hinv|by apply Hinv|done| | |done|].
  { split; [done|]. exists en. by rewrite Hnext. }
  { intros b Hb Hb2. rewrite Hk in Hnw. apply NoDup_app in Hnd as (Hnd & _ & _).
    apply NoDup_app in Hnd as (_ & Hd & _). specialize (Hd b Hb). set_solver. }
  fold i. rewrite Hhead. cbn [mbind option_bind]. rewrite Hfind. cbn [mbind option_bind].
  exists t1. split; [done|]. split; [|intros b _; apply Hsame].
  set (chains1 := <[i := l1 ++ nw :: l2]> chains) in *.
  assert (concat chains1 ≡ₚ nw :: l1 ++ l2 ++ k) as Hperm1 by (subst chains1; rewrite Hins; solve_Permutation).
  assert (concat chains ≡ₚ old :: l1 ++ l2 ++ k) as Hperm by (rewrite Hk; solve_Permutation).
  assert (forall b e, ht_heap t1 !! b = Some e -> exists e', ht_heap t !! b = Some e' /\ he_strip e = he_strip e') as Hback.
  { intros b eb Hb. specialize (Hsame b). rewrite Hb in Hsame. simpl in Hsame.
    destruct (ht_heap t !! b) as [e'|]; [|done]. injection Hsame as Hsame. exists e'. split; [done|].
    unfold he_strip. by f_equal; [f_equal|]. }
  exists chains1. split_and!; [constructor| |].
  - rewrite E1. apply Hinv.
  - subst chains1. rewrite length_insert, E1. apply Hinv.
  - done.
  - eapply NoDup_Permutation_proper; [exact Hperm1|]. rewrite Hperm in Hnw.
    apply NoDup_cons. split; [set_solver|].
    pose proof (hi_nodup _ _ Hinv) as H. rewrite Hperm in H. by apply NoDup_cons in H as [_ H].
  - rewrite E1. apply (placed_same _ _ _ _ Hsame). intros j l b Hj Hb.
    destruct (decide (j = i)) as [->|].
    + subst chains1. rewrite list_lookup_insert_eq in Hj by (by eapply lookup_lt_Some). injection Hj as <-.
      destruct (decide (b = nw)) as [->|]; [exists en; by rewrite Hhash|].
      apply (hi_placed _ _ Hinv i _ b Hi). set_solver.
    + subst chains1. rewrite list_lookup_insert_ne in Hj by done. by eapply (hi_placed _ _ Hinv).
  - intros b eb Hb Heb. destruct (Hback b eb Heb) as (e' & He' & Hst).
    apply he_strip_inv in Hst as (-> & -> & _). rewrite Hperm1 in Hb.
    apply elem_of_cons in Hb as [->|Hb].
    + rewrite Hen in He'. injection He' as <-. by rewrite Hstr, Hhash, Hse.
    + apply (hi_hash _ _ Hinv b); [|done]. rewrite Hperm. by right.
  - intros b Hb. rewrite E2 in Hb. pose proof (hi_fresh _ _ Hinv b Hb) as Hn.
    specialize (Hsame b). rewrite Hn in Hsame. by destruct (ht_heap t1 !! b).
  - apply (entries_of_same (ht_heap t) _ (concat chains1)); [done|done|]. intros s' b.
    rewrite lookup_insert_Some, Hperm1, elem_of_cons, (Hm s' b), Hperm, elem_of_cons. split.
    + intros [[<- <-]|(Hne & [->|Hb] & eb & Heb & Hsb)].
      * split; [by left|]. exists en. by rewrite Hstr, Hse.
      * rewrite Heo in Heb. injection Heb as <-. by rewrite Hse in Hsb.
      * split; [by right|]. eauto.
    + intros [[->|Hb] (eb & Heb & Hsb)].
      * left. rewrite Hen in Heb. injection Heb as <-. by rewrite <- Hsb, Hstr.
      * right. split; [|split; [by right|by eauto]]. intros <-.
        assert (m !! s = Some b) as Hb'. { apply Hm. split; [|by eauto]. rewrite Hperm. by right. }
        rewrite Hold in Hb'. injection Hb' as ->.
        pose proof (hi_nodup _ _ Hinv) as H. rewrite Hperm in H. by apply NoDup_cons in H as [H _].
  - rewrite E3, Hc, (Permutation_length Hperm1), (Permutation_length Hperm). done.
Qed.

(** a traversal calls the callback on every entry of the map
    once, until it asks to stop, and leaves the table as it was, unfrozen. *)
Theorem hash_traverse_correct {St} (func : ptr -> hash_entry E -> St -> bool * St) t m info :
  represents t m ->
  exists as_, as_ ≡ₚ (map_to_list m).*2 /\
    bfd_hash_traverse func t info =
    Some ((visit_until func (ht_heap t) as_ info).2, set_frozen false t).
Proof.
  intros (chains & Hinv & Hm & _). exists (concat chains). split.
  - apply (entries_of_perm (ht_heap t)); [apply Hinv|done|]. intros a Ha.
    apply elem_of_concat in Ha as (i & l & Hi & Ha).
    destruct (hi_placed _ _ Hinv i l a Hi Ha) as (e & He & _). by exists e.
  - unfold bfd_hash_traverse. cbn [set_frozen ht_brk ht_heap ht_table].
    rewrite (traverse_buckets_spec func _ _ _ chains); [|apply Hinv|].
    + cbn [mbind option_bind]. by destruct (visit_until _ _ _ _).
    + intros l Hl. apply list_elem_of_lookup in Hl as [i Hi].
      pose proof (ht_inv_chain_length _ _ _ _ Hinv Hi). lia.
Qed.

End spec.

(** ** Witnesses *)

(** A table of 31 slots, and the same table holding "ab". *)
Definition sample_empty : hash_table unit :=
  mkHashTable (replicate 31 None) ∅ 0 [] 31 0 24 false.

Definition sample_one : hash_table unit :=
  match bfd_hash_insert tt sample_empty [97; 98] (bfd_hash_hash [97; 98]).1 with
  | Some (_, t) => t
  | None => sample_empty
  end.

Lemma sample_empty_represents : represents sample_empty ∅.
Proof. apply (hash_init_represents true [] 24 31); [lia|reflexivity]. Qed.

Lemma sample_one_represents : represents sample_one (<[[97; 98] := 0%nat]> ∅).
Proof.
  destruct (hash_insert_spec tt sample_empty ∅ [97; 98] sample_empty_represents) as (r & t' & H & Hr);
    [done|right; simpl; lia|].
  assert (bfd_hash_insert tt sample_empty [97; 98] (bfd_hash_hash [97; 98]).1
          = Some (Some 0%nat, sample_one)) as Hs by (vm_compute; reflexivity).
  rewrite Hs in H. injection H as <- <-. apply Hr.
Qed.

Lemma hash_lookup_correct_witness :
  (exists t', bfd_hash_lookup tt sample_one [99] true true = Some (Some 1%nat, t') /\
     represents t' (<[[99] := 1%nat]> (<[[97; 98] := 0%nat]> ∅))) /\
  bfd_hash_lookup tt sample_one [97; 98] true true = Some (Some 0%nat, sample_one).
Proof.
  assert (ht_frozen sample_one = true \/ ht_size sample_one < 4294967291) as Hsize by (right; by vm_compute).
  split.
  - destruct (hash_lookup_correct tt sample_one _ [99] true true sample_one_represents Hsize)
      as (r & t' & Hl & Hspec).
    assert (fst <$> bfd_hash_lookup tt sample_one [99] true true = Some (Some 1%nat)) as Hr
      by (vm_compute; reflexivity).
    rewrite Hl in Hr. injection Hr as ->. exists t'. split; [exact Hl|]. apply Hspec.
  - destruct (hash_lookup_correct tt sample_one _ [97; 98] true true sample_one_represents Hsize)
      as (r & t' & Hl & Hr & Ht).
    rewrite Hl, Hr, Ht. reflexivity.
Defined.

Lemma hash_rename_correct_witness :
  exists t', bfd_hash_rename sample_one [120] 0 = Some t' /\
    represents t' (<[[120] := 0%nat]> (delete [97; 98] (<[[97; 98] := 0%nat]> ∅))).
Proof.
  destruct (hash_rename_correct sample_one _ [97; 98] [120] 0%nat sample_one_represents)
    as (t' & H1 & H2 & _); [reflexivity|right; reflexivity|].
  exists t'. split; [exact H1|exact H2].
Defined.

(** [sample_one] with a copy of its entry at address 1. *)
Definition sample_copy : hash_table unit :=
  let t := (bfd_hash_newfunc tt sample_one).2 in
  match ht_heap t !! 0%nat with Some e => set_heap (<[1%nat := e]> (ht_heap t)) t | None => t end.

Lemma sample_copy_represents : represents sample_copy (<[[97; 98] := 0%nat]> ∅).
Proof.
  destruct sample_one_represents as (chains & Hinv & Hm & Hc). exists chains.
  assert (forall a, a ∈ concat chains -> a = 0%nat) as Hzero.
  { intros a Ha. apply elem_of_concat in Ha as (i & l & Hi & Ha).
    destruct (hi_placed _ _ Hinv i l a Hi Ha) as (e & He & _).
    destruct (decide (1 <= a)%nat) as [Hle|]; [|lia].
    rewrite (hi_fresh _ _ Hinv a) in He; [done|]. exact Hle. }
  assert (forall a, a = 0%nat -> ht_heap sample_copy !! a = ht_heap sample_one !! a) as Hsame
    by (intros a ->; vm_compute; reflexivity).
  split_and!; [constructor| |exact Hc].
  - apply Hinv.
  - apply (hi_len _ _ Hinv).
  - eapply chains_ok_frame; [|apply Hinv]. intros a Ha. by apply Hsame, Hzero.
  - apply Hinv.
  - intros i l a Hi Ha. rewrite Hsame; [by eapply (hi_placed _ _ Hinv)|].
    apply Hzero, elem_of_concat. eauto.
  - intros a e Ha. rewrite Hsame by (by apply Hzero). by apply (hi_hash _ _ Hinv).
  - intros a Ha. change (ht_brk sample_copy) with 2%nat in Ha.
    assert (ht_heap sample_copy =
      <[1%nat := mkHashEntry None [97; 98] (bfd_hash_hash [97; 98]).1 tt]> (ht_heap sample_one)) as ->
      by (vm_compute; reflexivity).
    rewrite lookup_insert_ne by lia. apply (hi_fresh _ _ Hinv).
    change (ht_brk sample_one) with 1%nat. lia.
  - intros s a. rewrite (Hm s a). split; intros (Ha & e & He & Hs).
    + split; [done|]. exists e. by rewrite Hsame by (by apply Hzero).
    + split; [done|]. exists e. by rewrite <- Hsame by (by apply Hzero).
Qed.

Lemma hash_replace_correct_witness :
  exists t', bfd_hash_replace sample_copy 0 1 = Some t' /\
    represents t' (<[[97; 98] := 1%nat]> (<[[97; 98] := 0%nat]> ∅)).
Proof.
  set (e := mkHashEntry None [97; 98] (bfd_hash_hash [97; 98]).1 tt).
  assert (ht_heap sample_copy !! 0%nat = Some e) as H0 by (vm_compute; reflexivity).
  assert (ht_heap sample_copy !! 1%nat = Some e) as H1 by (vm_compute; reflexivity).
  assert (forall s', (<[[97; 98] := 0%nat]> ∅ : gmap cstring ptr) !! s' <> Some 1%nat) as Hfresh.
  { intros s'. rewrite lookup_insert_Some, lookup_empty. by intros [[_ H]|[_ H]]. }
  destruct (hash_replace_correct sample_copy _ [97; 98] 0%nat 1%nat e e sample_copy_represents
    eq_refl Hfresh H0 H1 eq_refl eq_refl eq_refl) as (t' & Hr & Hrep & _).
  exists t'. split; [exact Hr|exact Hrep].
Defined.

Lemma hash_traverse_correct_witness :
  exists as_, as_ ≡ₚ (map_to_list (<[[97; 98] := 0%nat]> (∅ : gmap cstring ptr))).*2 /\
    bfd_hash_traverse (fun a e n => (true, n + 1)) sample_one 0 =
    Some ((visit_until (fun a e n => (true, n + 1)) (ht_heap sample_one) as_ 0).2,
          set_frozen false sample_one).
Proof. exact (hash_traverse_correct _ sample_one _ 0 sample_one_represents). Defined.
