(* ===== verification/HashGrowth.v ===== *)
(** How large a hash table gets: its size stays within a constant and four
    times the entries ever made, so that the table of primes is not exhausted
    below 2^28 entries. *)

From S2P Require Import Prelude StableSort HashTable HashTableSpec.

Section growth.
Context {E : Type}.
Implicit Types (t : hash_table E).

Definition roomy t : Prop := ht_size t <= 2 ^ 28 + 4 * Z.of_nat (ht_brk t).

Lemma roomy_grows t : roomy t -> Z.of_nat (ht_brk t) < 2 ^ 28 -> ht_frozen t = true \/ ht_size t < 4294967291.
Proof. unfold roomy. intros H Hb. right. lia. Qed.

(** Each prime is at most about 2.1 times the one before. *)
Fixpoint ratio_ok (a : Z) (l : list Z) : bool :=
  match l with [] => true | b :: l => (10 * b <=? 21 * a + 21) && ratio_ok b l end.

Lemma ratio_next a l n q :
  ratio_ok a l = true -> a <= n -> q ∈ l -> n < q -> exists b, b ∈ l /\ n < b /\ 10 * b <= 21 * n + 21.
Proof.
  revert a. induction l as [|b l IH]; intros a Hr Ha Hq Hnq; [by apply elem_of_nil in Hq|].
  cbn in Hr. bool_prop. destruct (decide (n < b)) as [Hlt|Hge].
  - exists b. split_and!; [left|done|lia].
  - destruct (IH b) as (c & Hc & ?); [done|lia| |done|].
    + apply elem_of_cons in Hq as [->|Hq]; [lia|done].
    + exists c. split; [by right|done].
Qed.

Lemma higher_prime_ratio n p : 31 <= n -> higher_prime_number n = Some p -> 10 * p <= 21 * n + 21.
Proof.
  intros Hn Hp. destruct (decide (n < 4294967291)) as [Hlt|Hge].
  - destruct (higher_prime_spec n) as [H _]. destruct (H Hlt) as (q & Hq & Hin & Hnq & Hmin).
    rewrite Hp in Hq. injection Hq as <-.
    destruct (ratio_next 31 (tail primes) n p) as (b & Hb & Hnb & Hle); [reflexivity|done| |done|].
    + unfold primes in Hin. apply elem_of_cons in Hin as [->|Hin]; [lia|done].
    + pose proof (Hmin b ltac:(unfold primes; by right) Hnb). lia.
  - destruct (higher_prime_spec n) as [_ H]. by rewrite H in Hp by lia.
Qed.

Lemma higher_prime_small n p : n < 31 -> higher_prime_number n = Some p -> p = 31.
Proof.
  intros Hn Hp. destruct (higher_prime_spec n) as [H _]. destruct (H ltac:(lia)) as (q & Hq & Hin & Hnq & Hmin).
  rewrite Hp in Hq. injection Hq as <-. specialize (Hmin 31 ltac:(unfold primes; by left) Hn).
  assert (31 <= p); [|lia]. apply list_elem_of_lookup in Hin as [[|i] Hi]; [cbn in Hi; simplify_eq; lia|].
  pose proof (primes_lookup_lt 0 (S i) 31 p eq_refl Hi ltac:(lia)). lia.
Qed.

Lemma objalloc_alloc_frame t ok t' :
  objalloc_alloc t = (ok, t') -> ht_size t' = ht_size t /\ ht_brk t' = ht_brk t /\ ht_count t' = ht_count t /\
    (ht_oracle t = [] -> ok = true /\ ht_oracle t' = []).
Proof.
  unfold objalloc_alloc. destruct (ht_oracle t) as [|b o] eqn:Ho; intros H;
    injection H as <- <-; by split_and!.
Qed.

(** What growing does to the size. *)
Lemma hash_grow_fields t t' :
  hash_grow t = Some t' ->
  ht_brk t' = ht_brk t /\ (ht_oracle t = [] -> ht_oracle t' = []) /\
  (ht_size t' = ht_size t \/ higher_prime_number (ht_size t) = Some (ht_size t')).
Proof.
  unfold hash_grow. destruct (higher_prime_number (ht_size t)) as [p|] eqn:Hp; [|done].
  cbn [mbind option_bind]. destruct (_ || _); [intros H; injection H as <-; by auto|].
  destruct (objalloc_alloc t) as [ok t1] eqn:Hal. apply objalloc_alloc_frame in Hal as (E1 & E2 & E3 & E4).
  destruct ok; [|intros H; injection H as <-; naive_solver].
  destruct (move_buckets _ _ _ _ _ _ _) as [[heap newtable]|]; [|done]. intros H. injection H as <-. naive_solver.
Qed.

Lemma hash_grow_size t t' :
  hash_grow t = Some t' -> u32 (ht_size t * 3) / 4 < ht_count t -> ht_count t <= Z.of_nat (ht_brk t) ->
  Z.of_nat (ht_brk t) <= 2 ^ 28 -> 0 < ht_size t -> roomy t ->
  roomy t' /\ ht_brk t' = ht_brk t /\ (ht_oracle t = [] -> ht_oracle t' = []).
Proof.
  intros Hg Hc Hcb Hb Hpos Hroom. apply hash_grow_fields in Hg as (F1 & F2 & F3).
  split; [|done]. unfold roomy in *. rewrite F1.
  destruct F3 as [->|Hp]; [done|]. rewrite wrap_small in Hc by (unfold fits; lia).
  destruct (decide (31 <= ht_size t)) as [Hge|Hlt].
  - pose proof (higher_prime_ratio _ _ Hge Hp). pose proof (Z.div_mod (ht_size t * 3) 4 ltac:(lia)).
    pose proof (Z.mod_pos_bound (ht_size t * 3) 4 ltac:(lia)). lia.
  - rewrite (higher_prime_small (ht_size t) (ht_size t') ltac:(lia) Hp). lia.
Qed.

(** A lookup keeps the table roomy and makes at most one entry; when every
    allocation succeeds, so does the lookup that creates. *)
Lemma hash_lookup_roomy init t m s create copy r t' :
  represents t m -> roomy t -> Z.of_nat (ht_brk t) < 2 ^ 28 ->
  bfd_hash_lookup init t s create copy = Some (r, t') ->
  roomy t' /\ (ht_brk t <= ht_brk t' <= S (ht_brk t))%nat /\
  (ht_oracle t = [] -> ht_oracle t' = [] /\ (create = true -> is_Some r)) /\
  (create = false -> t' = t).
Proof.
  intros Hrep Hroom Hb Hl. pose proof (roomy_grows t Hroom Hb) as Hgrow. unfold bfd_hash_lookup in Hl.
  destruct (bfd_hash_hash s) as [hash len].
  destruct (ht_size t =? 0) eqn:Hz; [done|]. destruct (ht_table t !! _) as [head|]; [|done].
  cbn [mbind option_bind] in Hl. destruct (chain_find _ _ _ _ _) as [[a|]|]; [| |done];
    cbn [mbind option_bind] in Hl; [injection Hl as <- <-; split_and!; (done || lia || naive_solver)|].
  destruct create; cbn [negb] in Hl; [|injection Hl as <- <-; split_and!; (done || lia || naive_solver)].
  assert (exists ok t1, (if copy then objalloc_alloc t else (true, t)) = (ok, t1) /\ ht_size t1 = ht_size t /\
    ht_brk t1 = ht_brk t /\ ht_count t1 = ht_count t /\ (ht_oracle t = [] -> ok = true /\ ht_oracle t1 = []))
    as (ok & t1 & Hal & E1 & E2 & E3 & E4).
  { destruct copy; [|by exists true, t]. destruct (objalloc_alloc t) as [ok t1] eqn:Hal.
    exists ok, t1. split; [done|]. by apply objalloc_alloc_frame. }
  rewrite Hal in Hl. destruct ok.
  2: { injection Hl as <- <-. unfold roomy in *. rewrite E1, E2. split_and!; try done; [lia|naive_solver]. }
  unfold bfd_hash_insert, bfd_hash_newfunc in Hl. destruct (objalloc_alloc t1) as [ok t2] eqn:Hal2.
  apply objalloc_alloc_frame in Hal2 as (F1 & F2 & F3 & F4). destruct ok.
  2: { injection Hl as <- <-. unfold roomy in *. rewrite F1, F2, E1, E2. split_and!; try done; [lia|naive_solver]. }
  cbn [ht_size] in Hl. destruct (ht_size t2 =? 0); [done|]. cbn [ht_table] in Hl.
  destruct (ht_table t2 !! _) as [hd|]; [|done]. cbn [mbind option_bind] in Hl.
  assert (0 <= ht_count t <= Z.of_nat (ht_brk t) /\ 0 < ht_size t) as Hcount.
  { destruct Hrep as (chains & Hinv & _ & ->). pose proof (ht_inv_length t chains Hinv). pose proof (hi_size _ _ Hinv).
    pose proof (Z.mod_le (Z.of_nat (length (concat chains))) (2 ^ 32) ltac:(lia) ltac:(lia)).
    pose proof (wrap_fits 32 (Z.of_nat (length (concat chains))) ltac:(lia)) as [? _]. unfold wrap in *. lia. }
  set (tt2 := set_count _ _) in Hl.
  assert (ht_size tt2 = ht_size t /\ ht_brk tt2 = S (ht_brk t) /\ ht_count tt2 = u32 (ht_count t + 1) /\
    (ht_oracle t = [] -> ht_oracle tt2 = [])) as (G1 & G2 & G3 & G4).
  { subst tt2. cbn. rewrite F1, F2, F3, E1, E2, E3. split_and!; [done|lia|done|naive_solver]. }
  clearbody tt2. assert (roomy tt2) as Hroom2 by (unfold roomy in *; rewrite G1, G2; lia).
  destruct (negb _ && _) eqn:Hg.
  - destruct (hash_grow tt2) as [t3|] eqn:Hgr; [|done]. cbn [mbind option_bind] in Hl. injection Hl as <- <-.
    apply andb_prop in Hg as [_ Hg]. apply Z.ltb_lt in Hg.
    destruct (hash_grow_size tt2 t3) as (R & B & O); [done|done| | |lia|done|].
    + rewrite G3, G2. pose proof (Z.mod_le (ht_count t + 1) (2 ^ 32) ltac:(lia) ltac:(lia)). unfold wrap. lia.
    + rewrite G2. lia.
    + split_and!; [done|lia|lia|naive_solver|done].
  - injection Hl as <- <-. split_and!; [done|lia|lia|naive_solver|done].
Qed.
End growth.
