(* ===== verification/Strtab.v ===== *)
(** String tables: hash.c's [bfd_strtab_hash], which hands out byte offsets
    for strings, shares duplicates through the hash table, and writes the
    table out.

    The entries of the table extend the hash entries with an index and the
    link of the output order; entries made without hashing live in the same
    memory but in no bucket. *)

From S2P Require Import Prelude StableSort Endian HashTable HashTableSpec.

Record strtab_data := mkStrtabData {
  sd_index : Z;
  sd_next : option ptr
}.

Abbreviation strtab_hash_entry := (hash_entry strtab_data).

Record bfd_strtab_hash := mkStrtab {
  st_table : hash_table strtab_data;
  st_size : Z;
  st_first : option ptr;
  st_last : option ptr;
  st_length_field_size : Z
}.

(** What [strtab_hash_newfunc] stores in a fresh entry: index -1, no link. *)
Definition strtab_hash_init : strtab_data := mkStrtabData UINT64_MAX None.

Definition strtab_hash_lookup (t : bfd_strtab_hash) (string : cstring) (create copy : bool)
    : option (option ptr * bfd_strtab_hash) :=
  '(r, table) ← bfd_hash_lookup strtab_hash_init (st_table t) string create copy;
  Some (r, mkStrtab table (st_size t) (st_first t) (st_last t) (st_length_field_size t)).

(** [_bfd_stringtab_init]; [ok_malloc], [ok_create] and [oracle] answer for
    the allocators. *)
Definition bfd_stringtab_init (ok_malloc ok_create : bool) (oracle : list bool)
    (default_size : Z) : option bfd_strtab_hash :=
  if negb ok_malloc then None
  else
    table ← bfd_hash_table_init_n ok_create oracle 48 default_size;
    Some (mkStrtab table 0 None None 0).

Definition bfd_xcoff_stringtab_init (ok_malloc ok_create : bool) (oracle : list bool)
    (default_size : Z) (isxcoff64 : bool) : option bfd_strtab_hash :=
  ret ← bfd_stringtab_init ok_malloc ok_create oracle default_size;
  Some (mkStrtab (st_table ret) (st_size ret) (st_first ret) (st_last ret)
          (if isxcoff64 then 4 else 2)).

(** The entry made when [hash] is false: allocated, maybe with a copy of the
    string, and in no bucket. *)
Definition strtab_raw_entry (t : hash_table strtab_data) (str : cstring) (copy : bool)
    : option ptr * hash_table strtab_data :=
  let '(r, t) := bfd_hash_newfunc strtab_hash_init t in
  match r with
  | None => (None, t)
  | Some p =>
      let '(ok, t) := if copy then objalloc_alloc t else (true, t) in
      if ok
      then (Some p, set_heap (<[p := mkHashEntry None str 0 strtab_hash_init]> (ht_heap t)) t)
      else (None, t)
  end.

(** The end of [_bfd_stringtab_add]: a fresh entry gets its index and is
    appended to the output list. *)
Definition strtab_append (tab : bfd_strtab_hash) (p : ptr) (str : cstring)
    : option (Z * bfd_strtab_hash) :=
  e ← ht_heap (st_table tab) !! p;
  if sd_index (he_data e) =? UINT64_MAX then
    let index := st_size tab in
    let size := u64 (st_size tab + u64 (Z.of_nat (length str) + 1)) in
    let index := u64 (index + st_length_field_size tab) in
    let size := u64 (size + st_length_field_size tab) in
    table ← store_data p (mkStrtabData index (sd_next (he_data e))) (st_table tab);
    match st_first tab with
    | None => Some (index, mkStrtab table size (Some p) (Some p) (st_length_field_size tab))
    | Some first =>
        last ← st_last tab;
        el ← ht_heap table !! last;
        table ← store_data last (mkStrtabData (sd_index (he_data el)) (Some p)) table;
        Some (index, mkStrtab table size (Some first) (Some p) (st_length_field_size tab))
    end
  else Some (sd_index (he_data e), tab).

Definition bfd_stringtab_add (tab : bfd_strtab_hash) (str : cstring) (hash copy : bool)
    : option (Z * bfd_strtab_hash) :=
  '(r, tab) ←
    (if hash then strtab_hash_lookup tab str true copy
     else
       let '(r, table) := strtab_raw_entry (st_table tab) str copy in
       Some (r, mkStrtab table (st_size tab) (st_first tab) (st_last tab)
                  (st_length_field_size tab)));
  match r with
  | None => Some (UINT64_MAX, tab)
  | Some p => strtab_append tab p str
  end.

Definition bfd_stringtab_size (tab : bfd_strtab_hash) : Z := st_size tab.

(** [_bfd_stringtab_emit] on a target of the given byte order; [bfd_write]
    returns the number of bytes written and the file. *)
Section emit.
Context {F : Type} (bfd_write : list Z -> F -> Z * F) (big_p : bool).

Definition emit_length (tab : bfd_strtab_hash) (len : Z) (abfd : F) : option (bool * F) :=
  if st_length_field_size tab =? 4 then
    buf ← (if big_p then bfd_putb32 else bfd_putl32) len [0; 0; 0; 0];
    let '(n, abfd) := bfd_write buf abfd in Some (n =? 4, abfd)
  else if st_length_field_size tab =? 2 then
    buf ← (if big_p then bfd_putb16 else bfd_putl16) len [0; 0];
    let '(n, abfd) := bfd_write buf abfd in Some (n =? 2, abfd)
  else Some (true, abfd).

Fixpoint emit_loop (fuel : nat) (tab : bfd_strtab_hash) (entry : option ptr) (abfd : F)
    : option (bool * F) :=
  match fuel with
  | O => None
  | S fuel =>
      match entry with
      | None => Some (true, abfd)
      | Some p =>
          e ← ht_heap (st_table tab) !! p;
          let str := he_string e in
          let len := Z.of_nat (length str) + 1 in
          '(ok, abfd) ← emit_length tab len abfd;
          if negb ok then Some (false, abfd)
          else
            let '(n, abfd) := bfd_write (str ++ [0]) abfd in
            if n =? len then emit_loop fuel tab (sd_next (he_data e)) abfd else Some (false, abfd)
      end
  end.

Definition bfd_stringtab_emit (abfd : F) (tab : bfd_strtab_hash) : option (bool * F) :=
  emit_loop (ht_brk (st_table tab) + 1) tab (st_first tab) abfd.

End emit.

(** ** The invariant *)

Abbreviation sheap := (gmap nat strtab_hash_entry).

(** The output list: following [sd_next] from [p] goes through [l] to [q]. *)
Fixpoint oseg (h : sheap) (p : option ptr) (l : list ptr) (q : option ptr) : Prop :=
  match l with
  | [] => p = q
  | a :: l => p = Some a /\ exists e, h !! a = Some e /\ oseg h (sd_next (he_data e)) l q
  end.

(** The entries of [l] have the indices of strings laid out from offset [off]
    to [fin], each after a length field of [lfs] bytes. *)
Fixpoint laid (h : sheap) (lfs off : Z) (l : list ptr) (fin : Z) : Prop :=
  match l with
  | [] => off = fin
  | a :: l => exists e, h !! a = Some e /\ sd_index (he_data e) = off + lfs /\
      laid h lfs (off + lfs + Z.of_nat (length (he_string e)) + 1) l fin
  end.

Record strtab_inv (tab : bfd_strtab_hash) (seq : list ptr) (m : gmap cstring ptr) : Prop := {
  si_table : represents (st_table tab) m;
  si_nodup : NoDup seq;
  si_list : oseg (ht_heap (st_table tab)) (st_first tab) seq None;
  si_last : st_last tab = last seq;
  si_laid : laid (ht_heap (st_table tab)) (st_length_field_size tab) 0 seq (st_size tab);
  si_size : st_size tab < 2 ^ 64 - 1;
  si_lfs : st_length_field_size tab = 0 \/ st_length_field_size tab = 2 \/ st_length_field_size tab = 4;
  si_hashed : forall s a, m !! s = Some a -> a ∈ seq
}.

(** What the table writes for one string, and for all. *)
Definition entry_bytes (big_p : bool) (lfs : Z) (s : cstring) : list Z :=
  order_bytes big_p (Z.to_nat lfs) (Z.of_nat (length s) + 1) ++ s ++ [0].

Definition seq_bytes (h : sheap) (big_p : bool) (lfs : Z) (seq : list ptr) : list Z :=
  concat ((fun a => match h !! a with Some e => entry_bytes big_p lfs (he_string e) | None => [] end) <$> seq).

Definition strtab_bytes (big_p : bool) (tab : bfd_strtab_hash) (seq : list ptr) : list Z :=
  seq_bytes (ht_heap (st_table tab)) big_p (st_length_field_size tab) seq.

(** ** Lemmas *)

(** [h'] holds the entries of [l] as [h] does, links apart. *)
Definition same_data (h h' : sheap) (l : list ptr) : Prop :=
  forall a e, a ∈ l -> h !! a = Some e -> exists e', h' !! a = Some e' /\ he_strip e' = he_strip e.

Lemma oseg_same h h' p l q : same_data h h' l -> oseg h p l q -> oseg h' p l q.
Proof.
  revert p. induction l as [|a l IH]; intros p Hs; [done|]. intros (-> & e & He & Hl).
  destruct (Hs a e ltac:(left) He) as (e' & He' & Hst). apply he_strip_inv in Hst as (_ & _ & Hd).
  split; [done|]. exists e'. rewrite Hd. split; [done|]. apply IH; [|done].
  intros b eb Hb. apply Hs. by right.
Qed.

Lemma laid_same h h' lfs off l fin : same_data h h' l -> laid h lfs off l fin -> laid h' lfs off l fin.
Proof.
  revert off. induction l as [|a l IH]; intros off Hs; [done|]. intros (e & He & Hidx & Hl).
  destruct (Hs a e ltac:(left) He) as (e' & He' & Hst). apply he_strip_inv in Hst as (Hn & _ & Hd).
  exists e'. rewrite Hd, Hn. split_and!; [done..|]. apply IH; [|done].
  intros b eb Hb. apply Hs. by right.
Qed.

Lemma seq_bytes_same h h' big_p lfs l :
  (forall a, a ∈ l -> he_string <$> h' !! a = he_string <$> h !! a) ->
  seq_bytes h' big_p lfs l = seq_bytes h big_p lfs l.
Proof.
  intros Hs. unfold seq_bytes. f_equal. apply list_fmap_ext. intros i a Ha.
  specialize (Hs a (list_elem_of_lookup_2 _ _ _ Ha)).
  destruct (h' !! a), (h !! a); simplify_eq/=; congruence.
Qed.

Lemma oseg_app h p l1 l2 q :
  oseg h p (l1 ++ l2) q <-> exists m, oseg h p l1 m /\ oseg h m l2 q.
Proof.
  revert p. induction l1 as [|a l1 IH]; intros p; cbn [app oseg].
  - split; [by eauto|]. by intros (m & -> & ?).
  - split.
    + intros (-> & e & He & Hl). apply IH in Hl as (m & Hm & Hl). eauto 8.
    + intros (m & (-> & e & He & Hm) & Hl). split; [done|]. exists e. split; [done|]. apply IH. eauto.
Qed.

Lemma oseg_insert h p l q a e : a ∉ l -> oseg h p l q -> oseg (<[a := e]> h) p l q.
Proof.
  intros Ha. apply oseg_same. intros b eb Hb Heb. exists eb. split; [|done].
  rewrite lookup_insert_ne; [done|]. by intros ->.
Qed.

Lemma laid_snoc h lfs off l a e fin :
  laid h lfs off l fin -> h !! a = Some e -> sd_index (he_data e) = fin + lfs ->
  laid h lfs off (l ++ [a]) (fin + lfs + Z.of_nat (length (he_string e)) + 1).
Proof.
  revert off. induction l as [|b l IH]; intros off; cbn [app laid].
  - intros -> He Hidx. by exists e.
  - intros (eb & Heb & Hb & Hl) He Hidx. exists eb. split_and!; [done..|]. by apply IH.
Qed.

Lemma laid_insert_data h lfs off l fin a (e e' : strtab_hash_entry) :
  h !! a = Some e -> sd_index (he_data e') = sd_index (he_data e) -> he_string e' = he_string e ->
  laid h lfs off l fin -> laid (<[a := e']> h) lfs off l fin.
Proof.
  intros He Hi Hs. revert off. induction l as [|b l IH]; intros off; cbn [laid]; [done|].
  intros (eb & Heb & Hb & Hl). destruct (decide (b = a)) as [->|].
  - rewrite He in Heb. injection Heb as <-. exists e'. rewrite lookup_insert_eq, Hi, Hs. auto.
  - exists eb. rewrite lookup_insert_ne by done. auto.
Qed.

Lemma laid_range h lfs off l fin : 0 <= lfs -> laid h lfs off l fin -> off <= fin.
Proof.
  intros Hlfs. revert off. induction l as [|a l IH]; intros off; cbn [laid]; [lia|].
  intros (e & _ & _ & Hl). apply IH in Hl. lia.
Qed.

Lemma laid_elem h lfs off l fin a :
  laid h lfs off l fin -> a ∈ l -> is_Some (h !! a).
Proof.
  revert off. induction l as [|b l IH]; intros off; [intros _ Ha; by apply elem_of_nil in Ha|].
  intros (e & He & _ & Hl) Ha. apply elem_of_cons in Ha as [->|Ha]; [by exists e|eauto].
Qed.

Lemma entry_bytes_length big_p lfs s :
  0 <= lfs -> Z.of_nat (length (entry_bytes big_p lfs s)) = lfs + Z.of_nat (length s) + 1.
Proof. intros. unfold entry_bytes. rewrite !length_app, order_bytes_length. simpl. lia. Qed.

Lemma seq_bytes_cons h big_p lfs a e l :
  h !! a = Some e ->
  seq_bytes h big_p lfs (a :: l) = entry_bytes big_p lfs (he_string e) ++ seq_bytes h big_p lfs l.
Proof. intros He. unfold seq_bytes. cbn [fmap list_fmap concat]. by rewrite He. Qed.

Lemma seq_bytes_length h big_p lfs off l fin :
  0 <= lfs -> laid h lfs off l fin -> off + Z.of_nat (length (seq_bytes h big_p lfs l)) = fin.
Proof.
  intros Hlfs. revert off. induction l as [|a l IH]; intros off; [cbn; lia|].
  intros (e & He & _ & Hl). apply IH in Hl. rewrite (seq_bytes_cons _ _ _ _ e) by done.
  rewrite length_app, Nat2Z.inj_add, entry_bytes_length by done. lia.
Qed.

(** The bytes at the index of an entry are its string and the null byte. *)
Lemma seq_bytes_read h big_p lfs off l fin a e :
  0 <= lfs -> laid h lfs off l fin -> a ∈ l -> h !! a = Some e ->
  off + lfs <= sd_index (he_data e) /\
  sd_index (he_data e) + Z.of_nat (length (he_string e)) + 1 <= fin /\
  take (length (he_string e) + 1) (drop (Z.to_nat (sd_index (he_data e) - off)) (seq_bytes h big_p lfs l))
  = he_string e ++ [0].
Proof.
  intros Hlfs. revert off. induction l as [|b l IH]; intros off; [intros _ Ha; by apply elem_of_nil in Ha|].
  intros (eb & Heb & Hidx & Hl) Ha He. pose proof (laid_range _ _ _ _ _ Hlfs Hl) as Hr.
  rewrite (seq_bytes_cons _ _ _ _ eb) by done.
  destruct (decide (b = a)) as [->|Hne].
  - rewrite He in Heb. injection Heb as <-. split_and!; [lia|lia|].
    unfold entry_bytes. rewrite Hidx, <- !app_assoc, app_assoc.
    rewrite <- (app_assoc (order_bytes _ _ _)).
    rewrite drop_app_length' by (rewrite order_bytes_length; lia).
    rewrite app_assoc, take_app_length' by (rewrite length_app; simpl; lia). done.
  - apply elem_of_cons in Ha as [->|Ha]; [done|]. destruct (IH _ Hl Ha He) as (H1 & H2 & H3).
    split_and!; [lia|lia|]. rewrite <- H3. f_equal.
    pose proof (entry_bytes_length big_p lfs (he_string eb) Hlfs) as Hlen.
    rewrite drop_app_ge by lia. f_equal. lia.
Qed.

(** *** Writing the table *)

Lemma put_zeros big_p n data :
  put_prefix (order_bytes big_p n data) (replicate n 0) = Some (order_bytes big_p n data).
Proof.
  unfold put_prefix. rewrite order_bytes_length, length_replicate, decide_True by lia.
  rewrite drop_ge by (rewrite length_replicate; lia). by rewrite app_nil_r.
Qed.

Lemma emit_length_spec big_p tab len f :
  st_length_field_size tab = 0 \/ st_length_field_size tab = 2 \/ st_length_field_size tab = 4 ->
  emit_length append_write big_p tab len f =
  Some (true, f ++ order_bytes big_p (Z.to_nat (st_length_field_size tab)) len).
Proof.
  intros Hlfs. unfold emit_length. destruct Hlfs as [Hl|[Hl|Hl]]; rewrite Hl; cbn [Z.eqb Pos.eqb].
  - unfold order_bytes, be_bytes. by destruct big_p; rewrite app_nil_r.
  - replace ((if big_p then bfd_putb16 else bfd_putl16) len [0; 0])
      with (put_prefix (order_bytes big_p 2 len) (replicate 2 0))
      by (destruct big_p; [by rewrite bfd_putb16_spec|by rewrite bfd_putl16_spec]).
    rewrite put_zeros. cbn [mbind option_bind]. unfold append_write. by rewrite order_bytes_length.
  - replace ((if big_p then bfd_putb32 else bfd_putl32) len [0; 0; 0; 0])
      with (put_prefix (order_bytes big_p 4 len) (replicate 4 0))
      by (destruct big_p; [by rewrite bfd_putb32_spec|by rewrite bfd_putl32_spec]).
    rewrite put_zeros. cbn [mbind option_bind]. unfold append_write. by rewrite order_bytes_length.
Qed.

Lemma emit_loop_spec big_p tab fuel p l f :
  st_length_field_size tab = 0 \/ st_length_field_size tab = 2 \/ st_length_field_size tab = 4 ->
  oseg (ht_heap (st_table tab)) p l None -> (length l < fuel)%nat ->
  emit_loop append_write big_p fuel tab p f = Some (true, f ++ strtab_bytes big_p tab l).
Proof.
  intros Hlfs. revert p l f. induction fuel as [|fuel IH]; intros p l f Hseg Hlen; [lia|].
  cbn [emit_loop]. destruct l as [|a l].
  - cbn in Hseg. subst p. cbn. by rewrite app_nil_r.
  - destruct Hseg as (-> & e & He & Hseg). rewrite He. cbn [mbind option_bind].
    rewrite emit_length_spec by done. cbn [mbind option_bind negb]. unfold append_write at 1.
    rewrite length_app. replace (Z.of_nat (length (he_string e) + length [0]) =? Z.of_nat (length (he_string e)) + 1)
      with true by (symmetry; apply Z.eqb_eq; simpl; lia).
    rewrite (IH _ l) by (done || (simpl in Hlen; lia)). unfold strtab_bytes.
    rewrite (seq_bytes_cons _ _ _ _ e) by done. unfold entry_bytes. by rewrite !app_assoc.
Qed.

Lemma strtab_brk tab seq m : strtab_inv tab seq m -> (length seq <= ht_brk (st_table tab))%nat.
Proof.
  intros Hinv. apply NoDup_lt_length; [apply Hinv|]. intros a Ha.
  destruct (laid_elem _ _ _ _ _ _ (si_laid _ _ _ Hinv) Ha) as [e He].
  by eapply represents_brk; [apply Hinv|].
Qed.

(** *** Adding a string *)

Lemma heap_strings_store (h : sheap) p e d a :
  h !! p = Some e -> he_string <$> <[p := set_data d e]> h !! a = he_string <$> h !! a.
Proof.
  intros He. destruct (decide (a = p)) as [->|].
  - by rewrite lookup_insert_eq, He.
  - by rewrite lookup_insert_ne.
Qed.

(** A fresh entry [p] appended to the output list. *)
Lemma strtab_append_fresh tab seq m p e str m' table :
  strtab_inv tab seq m -> p ∉ seq ->
  represents table m' -> same_data (ht_heap (st_table tab)) (ht_heap table) seq ->
  (forall s a, m' !! s = Some a -> a ∈ seq \/ a = p) ->
  ht_heap table !! p = Some e -> he_string e = str -> he_data e = strtab_hash_init ->
  st_size tab + st_length_field_size tab + Z.of_nat (length str) + 1 < 2 ^ 64 - 1 ->
  let tab1 := mkStrtab table (st_size tab) (st_first tab) (st_last tab) (st_length_field_size tab) in
  exists tab', strtab_append tab1 p str = Some (st_size tab + st_length_field_size tab, tab') /\
    strtab_inv tab' (seq ++ [p]) m' /\
    st_length_field_size tab' = st_length_field_size tab /\
    (forall a, he_string <$> ht_heap (st_table tab') !! a = he_string <$> ht_heap table !! a) /\
    exists e', ht_heap (st_table tab') !! p = Some e' /\
      sd_index (he_data e') = st_size tab + st_length_field_size tab.
Proof.
  intros Hinv Hp Hrep Hsame Hm He Hs Hd Hsize tab1.
  pose proof (si_lfs _ _ _ Hinv) as Hlfs.
  assert (0 <= st_size tab) as Hpos.
  { eapply laid_range; [|apply Hinv]. destruct Hlfs as [->|[->| ->]]; lia. }
  unfold strtab_append. cbn [st_table st_size st_first st_last st_length_field_size tab1].
  rewrite He. cbn [mbind option_bind]. rewrite Hd. cbn [strtab_hash_init sd_index sd_next].
  rewrite Z.eqb_refl. rewrite (store_data_eq p _ table e He). cbn [mbind option_bind].
  assert (0 <= st_length_field_size tab <= 4) by (destruct Hlfs as [->|[->| ->]]; lia).
  rewrite (wrap_small 64 (Z.of_nat (length str) + 1)) by (unfold fits; lia).
  rewrite (wrap_small 64 (st_size tab + st_length_field_size tab)) by (unfold fits; lia).
  rewrite (wrap_small 64 (st_size tab + (Z.of_nat (length str) + 1))) by (unfold fits; lia).
  rewrite (wrap_small 64 (_ + st_length_field_size tab)) by (unfold fits; lia).
  set (idx := st_size tab + st_length_field_size tab).
  set (e1 := set_data (mkStrtabData idx None) e).
  set (h1 := <[p := e1]> (ht_heap table)).
  pose proof (oseg_same _ _ _ _ _ Hsame (si_list _ _ _ Hinv)) as Hlist.
  pose proof (laid_same _ _ _ _ _ _ Hsame (si_laid _ _ _ Hinv)) as Hlaid.
  assert (laid h1 (st_length_field_size tab) 0 (seq ++ [p])
    (st_size tab + (Z.of_nat (length str) + 1) + st_length_field_size tab)) as Hlaid1.
  { replace (st_size tab + (Z.of_nat (length str) + 1) + st_length_field_size tab)
      with (st_size tab + st_length_field_size tab + Z.of_nat (length (he_string e1)) + 1) by (cbn; rewrite Hs; lia).
    apply laid_snoc; [|apply lookup_insert_eq|done].
    eapply laid_same; [|exact Hlaid]. intros b eb Hb Heb. exists eb. split; [|done].
    subst h1. rewrite lookup_insert_ne; [done|]. by intros ->. }
  assert (NoDup (seq ++ [p])) as Hnd.
  { apply NoDup_app. split_and!; [apply Hinv| |apply NoDup_singleton].
    intros b Hb ->%list_elem_of_singleton. done. }
  assert (forall s a, m' !! s = Some a -> a ∈ seq ++ [p]) as Hm'.
  { intros s a Ha. apply elem_of_app. rewrite list_elem_of_singleton. eauto. }
  assert (represents (set_heap h1 table) m') as Hrep1.
  { apply (represents_store table m' p e); done. }
  destruct seq as [|a0 seq0] eqn:Hseq.
  - cbn in Hlist. rewrite Hlist. eexists. split; [done|]. split.
    + constructor; cbn; try done; [|lia].
      split; [done|]. exists e1. subst h1. by rewrite lookup_insert_eq.
    + split; [done|]. split; [intros a; cbn; by apply heap_strings_store|].
      exists e1. subst h1. cbn. by rewrite lookup_insert_eq.
  - pose proof Hlist as (Hfirst & _). rewrite Hfirst.
    destruct (last (a0 :: seq0)) as [b|] eqn:Hlast; [|by apply last_None in Hlast].
    rewrite (si_last _ _ _ Hinv), Hlast. cbn [mbind option_bind].
    apply last_Some in Hlast as [l' Hl']. rewrite Hl' in *.
    apply oseg_app in Hlist as (mid & Hl & -> & eb & Heb & Hend). cbn in Hend.
    assert (b <> p) as Hbp by (intros ->; apply Hp; apply elem_of_app; right; by left).
    assert (h1 !! b = Some eb) as Heb1 by (subst h1; by rewrite lookup_insert_ne).
    cbn [ht_heap set_heap]. rewrite Heb1. cbn [mbind option_bind].
    rewrite (store_data_eq b _ (set_heap h1 table) eb Heb1). cbn [mbind option_bind].
    set (eb2 := set_data (mkStrtabData (sd_index (he_data eb)) (Some p)) eb).
    eexists. split; [done|]. split.
    + constructor; cbn; try done; [by apply (represents_store (set_heap h1 table) m' b eb)| | | |lia].
      * apply NoDup_app in Hnd as (Hnd & Hdp & _). apply NoDup_app in Hnd as (_ & Hdb & _).
        apply oseg_app. exists (Some p). split.
        -- apply oseg_app. exists (Some b). split.
           ++ apply oseg_insert; [intros Hb; apply (Hdb b Hb); by left|].
              apply oseg_insert; [|by rewrite <- Hfirst]. intros Hb. apply (Hdp p); [apply elem_of_app|]; by left.
           ++ split; [done|]. exists eb2. by rewrite lookup_insert_eq.
        -- split; [done|]. exists e1. rewrite lookup_insert_ne by done. subst h1. by rewrite lookup_insert_eq.
      * by rewrite last_snoc.
      * by apply (laid_insert_data _ _ _ _ _ b eb).
    + split; [done|]. split.
      * intros a. cbn [st_table ht_heap set_heap].
        etransitivity; [by apply (heap_strings_store h1 b eb)|by apply (heap_strings_store _ p e)].
      * exists e1. cbn. rewrite lookup_insert_ne by done. subst h1. by rewrite lookup_insert_eq.
Qed.

(** Allocating an entry outside every bucket. *)
Lemma strtab_raw_spec t m str copy :
  represents t m ->
  let '(r, t') := strtab_raw_entry t str copy in
  represents t' m /\
  (forall a e, ht_heap t !! a = Some e -> ht_heap t' !! a = Some e) /\
  match r with
  | Some p => ht_heap t !! p = None /\
      exists e, ht_heap t' !! p = Some e /\ he_string e = str /\ he_data e = strtab_hash_init
  | None => false ∈ ht_oracle t
  end.
Proof.
  intros Hrep. unfold strtab_raw_entry, bfd_hash_newfunc.
  pose proof (objalloc_alloc_spec t) as Hal. destruct (objalloc_alloc t) as [ok t1].
  destruct Hal as (E1 & E2 & E3 & E4 & E5 & _ & Hno & Hor). rewrite E3.
  pose proof (represents_fresh _ _ _ Hrep (Nat.le_refl (ht_brk t))) as Hp.
  assert (forall a e (x : strtab_hash_entry), ht_heap t !! a = Some e -> <[ht_brk t := x]> (ht_heap t) !! a = Some e) as Hkeep.
  { intros a e x He. rewrite lookup_insert_ne; [done|]. intros <-. by rewrite Hp in He. }
  assert (forall a (x : strtab_hash_entry), (ht_brk t + 1 <= a)%nat -> <[ht_brk t := x]> (ht_heap t) !! a = None) as Hfr.
  { intros a x Ha. rewrite lookup_insert_ne by lia. apply (represents_fresh _ _ _ Hrep). lia. }
  destruct ok.
  2: { split_and!; [|by rewrite E2|by apply Hno]. apply (represents_ext t); try done; [by rewrite E3| |].
       - rewrite E2. eauto.
       - rewrite E2, E3. intros a. apply (represents_fresh _ _ _ Hrep). }
  set (t2 := mkHashTable _ _ _ _ _ _ _ _).
  assert (exists ok t3, (if copy then objalloc_alloc t2 else (true, t2)) = (ok, t3) /\
    ht_table t3 = ht_table t /\ ht_heap t3 = ht_heap t2 /\ ht_brk t3 = ht_brk t2 /\ ht_size t3 = ht_size t /\
    ht_count t3 = ht_count t /\ (ok = false -> false ∈ ht_oracle t))
    as (ok & t3 & -> & F1 & F2 & F3 & F4 & F5 & F6).
  { destruct copy; [|by exists true, t2; cbn]. pose proof (objalloc_alloc_spec t2) as Hal.
    destruct (objalloc_alloc t2) as [ok t3]. destruct Hal as (G1 & G2 & G3 & G4 & G5 & _ & G7 & _).
    exists ok, t3. split; [done|]. rewrite G1, G2, G3, G4, G5. split_and!; try done.
    intros Hok. apply Hor. by apply G7. }
  assert (ht_heap t2 = <[ht_brk t := mkHashEntry None [] 0 strtab_hash_init]> (ht_heap t)) as H2
    by (subst t2; cbn; by rewrite E2).
  assert (ht_brk t2 = ht_brk t + 1)%nat as H3 by done.
  destruct ok.
  - cbn [ht_heap set_heap]. rewrite F2, H2, insert_insert_eq. split_and!.
    + apply (represents_ext t); cbn; try done; [lia| |].
      * intros a e He. rewrite (Hkeep a e) by done. by exists e.
      * intros a Ha. apply Hfr. lia.
    + intros a e He. by apply Hkeep.
    + done.
    + eexists. rewrite lookup_insert_eq. by split.
  - split_and!; [|intros a e He; rewrite F2, H2; by apply Hkeep|by apply F6].
    apply (represents_ext t); try done; [lia| |].
    + intros a e He. rewrite F2, H2, (Hkeep a e) by done. by exists e.
    + intros a Ha. rewrite F2, H2. apply Hfr. lia.
Qed.

(** The invariant over a table whose entries of [seq] are the same. *)
Lemma strtab_inv_same tab seq m table m' :
  strtab_inv tab seq m -> represents table m' -> same_data (ht_heap (st_table tab)) (ht_heap table) seq ->
  (forall s a, m' !! s = Some a -> a ∈ seq) ->
  strtab_inv (mkStrtab table (st_size tab) (st_first tab) (st_last tab) (st_length_field_size tab)) seq m'.
Proof.
  intros [] Hrep Hsame Hm'. constructor; cbn; try done.
  - by eapply oseg_same.
  - by eapply laid_same.
Qed.

(** What adding a string establishes; [seq'] and [m'] describe the table
    afterwards. *)
Record added (tab tab' : bfd_strtab_hash) (seq seq' : list ptr) (m' : gmap cstring ptr)
    (str : cstring) (idx : Z) : Prop := {
  ad_inv : strtab_inv tab' seq' m';
  ad_lfs : st_length_field_size tab' = st_length_field_size tab;
  ad_prefix : forall big_p, exists new,
    strtab_bytes big_p tab' seq' = strtab_bytes big_p tab seq ++ new;
  ad_read : forall big_p,
    take (length str + 1) (drop (Z.to_nat idx) (strtab_bytes big_p tab' seq')) = str ++ [0]
}.

Lemma strtab_lfs_nonneg tab seq m : strtab_inv tab seq m -> 0 <= st_length_field_size tab.
Proof. intros Hinv. destruct (si_lfs _ _ _ Hinv) as [->|[->| ->]]; lia. Qed.

(** An entry already in the output list gives its index back. *)
Lemma strtab_append_present tab seq m p e :
  strtab_inv tab seq m -> p ∈ seq -> ht_heap (st_table tab) !! p = Some e ->
  strtab_append tab p (he_string e) = Some (sd_index (he_data e), tab) /\
  added tab tab seq seq m (he_string e) (sd_index (he_data e)).
Proof.
  intros Hinv Hp He. pose proof (strtab_lfs_nonneg _ _ _ Hinv) as Hlfs.
  assert (forall big_p, _) as Hread by
    exact (fun big_p => seq_bytes_read _ big_p _ _ _ _ p e Hlfs (si_laid _ _ _ Hinv) Hp He).
  split.
  - unfold strtab_append. rewrite He. cbn [mbind option_bind].
    destruct (Hread true) as (_ & Hle & _). pose proof (si_size _ _ _ Hinv).
    replace (sd_index (he_data e) =? UINT64_MAX) with false; [done|].
    symmetry. apply Z.eqb_neq. unfold UINT64_MAX. lia.
  - constructor; [done|done| |].
    + intros big_p. exists []. by rewrite app_nil_r.
    + intros big_p. destruct (Hread big_p) as (_ & _ & Hr). by rewrite Z.sub_0_r in Hr.
Qed.

(** A fresh entry is appended and can be read back. *)
Lemma strtab_append_added tab seq m p e str m' table :
  strtab_inv tab seq m -> p ∉ seq ->
  represents table m' -> same_data (ht_heap (st_table tab)) (ht_heap table) seq ->
  (forall s a, m' !! s = Some a -> a ∈ seq \/ a = p) ->
  ht_heap table !! p = Some e -> he_string e = str -> he_data e = strtab_hash_init ->
  st_size tab + st_length_field_size tab + Z.of_nat (length str) + 1 < 2 ^ 64 - 1 ->
  let tab1 := mkStrtab table (st_size tab) (st_first tab) (st_last tab) (st_length_field_size tab) in
  exists idx tab', strtab_append tab1 p str = Some (idx, tab') /\
    added tab tab' seq (seq ++ [p]) m' str idx.
Proof.
  intros Hinv Hp Hrep Hsame Hm He Hs Hd Hsize tab1.
  destruct (strtab_append_fresh tab seq m p e str m' table Hinv Hp Hrep Hsame Hm He Hs Hd Hsize)
    as (tab' & Happ & Hinv' & Hlfs & Hstr & e' & He' & Hidx).
  eexists _, tab'. split; [exact Happ|]. pose proof (strtab_lfs_nonneg _ _ _ Hinv) as Hpos.
  assert (forall a ea, a ∈ seq -> ht_heap (st_table tab) !! a = Some ea ->
    he_string <$> ht_heap (st_table tab') !! a = Some (he_string ea)) as Hold.
  { intros a ea Ha Hea. destruct (Hsame a ea Ha Hea) as (ea' & Hea' & Hst).
    apply he_strip_inv in Hst as (Hn & _). rewrite Hstr, Hea', <- Hn. done. }
  constructor; [done|done| |].
  - intros big_p. unfold strtab_bytes. rewrite Hlfs. eexists. unfold seq_bytes at 1.
    rewrite fmap_app, concat_app. f_equal. apply seq_bytes_same. intros a Ha.
    destruct (laid_elem _ _ _ _ _ _ (si_laid _ _ _ Hinv) Ha) as [ea Hea].
    by rewrite (Hold a ea), Hea.
  - intros big_p.
    assert (he_string e' = str) as Hs'.
    { pose proof (Hstr p) as H. rewrite He, He' in H. injection H as ->. done. }
    assert (p ∈ seq ++ [p]) as Hin by (apply elem_of_app; right; by left).
    rewrite <- Hidx. pose proof (seq_bytes_read _ big_p _ _ _ _ p e'
      (strtab_lfs_nonneg _ _ _ Hinv') (si_laid _ _ _ Hinv') Hin He') as (_ & _ & Hr).
    rewrite Z.sub_0_r, Hs' in Hr. exact Hr.
Qed.

Lemma fresh_not_in_seq tab seq m p :
  strtab_inv tab seq m -> ht_heap (st_table tab) !! p = None -> p ∉ seq.
Proof.
  intros Hinv Hp Hin. destruct (laid_elem _ _ _ _ _ _ (si_laid _ _ _ Hinv) Hin) as [e He].
  by rewrite Hp in He.
Qed.

(** The result of an addition: an index of the string, or a failed allocation. *)
Definition add_result (tab : bfd_strtab_hash) (seq : list ptr) (m : gmap cstring ptr)
    (str : cstring) (hash : bool) (r : option (Z * bfd_strtab_hash)) : Prop :=
  exists idx tab' seq' m', r = Some (idx, tab') /\
    ((idx = UINT64_MAX /\ false ∈ ht_oracle (st_table tab) /\ strtab_inv tab' seq m /\
      st_size tab' = st_size tab) \/
     (added tab tab' seq seq' m' str idx /\
      (hash = true -> is_Some (m' !! str) /\ (is_Some (m !! str) -> tab' = tab)))).

Lemma strtab_add_hashed tab seq m str copy :
  strtab_inv tab seq m ->
  ht_frozen (st_table tab) = true \/ ht_size (st_table tab) < 4294967291 ->
  st_size tab + st_length_field_size tab + Z.of_nat (length str) + 1 < 2 ^ 64 - 1 ->
  add_result tab seq m str true (bfd_stringtab_add tab str true copy).
Proof.
  intros Hinv Hgrow Hsize. unfold add_result, bfd_stringtab_add.
  pose proof (si_table _ _ _ Hinv) as Hrep.
  pose proof (fun p => fresh_not_in_seq tab seq m p Hinv) as Hnot.
  unfold strtab_hash_lookup.
  destruct (hash_lookup_spec strtab_hash_init (st_table tab) m str true copy Hrep Hgrow)
    as (r & table & Hl & Hspec).
  rewrite Hl. cbn [mbind option_bind]. destruct (m !! str) as [a|] eqn:Hms.
  - destruct Hspec as [-> ->]. destruct (represents_entry _ _ _ _ Hrep Hms) as (e & He & <-).
    destruct (strtab_append_present tab seq m a e Hinv (si_hashed _ _ _ Hinv _ _ Hms) He) as [Happ Hadd].
    assert (mkStrtab (st_table tab) (st_size tab) (st_first tab) (st_last tab) (st_length_field_size tab) = tab)
      as -> by (by destruct tab).
    rewrite Happ. exists (sd_index (he_data e)), tab, seq, m. split; [done|]. right. by rewrite Hms.
  - destruct r as [p|].
    + destruct Hspec as (Hp & Hrep' & Hkeep & Hpe).
      destruct (ht_heap table !! p) as [e|] eqn:He; [|done].
      injection Hpe as Hs Hh Hd.
      destruct (strtab_append_added tab seq m p e str (<[str := p]> m) table) as (idx & tab' & Happ & Hadd);
        try done; [by apply Hnot| | |].
      * intros a ea Ha Hea. assert (a <> p) as Hap by (intros ->; by rewrite Hp in Hea).
         specialize (Hkeep a ltac:(congruence)). rewrite Hea in Hkeep. cbn in Hkeep.
         destruct (ht_heap table !! a) as [e'|]; [|done]. injection Hkeep as H1 H2 H3.
         exists e'. split; [done|]. unfold he_strip. by rewrite H1, H2, H3.
      * intros s a. rewrite lookup_insert_Some. intros [[_ <-]|[_ Ha]]; [by right|left].
         by eapply (si_hashed _ _ _ Hinv).
      * rewrite Happ. exists idx, tab', (seq ++ [p]), (<[str := p]> m). split; [done|]. right.
         split; [done|]. intros _. rewrite lookup_insert_eq. split; [by eexists|]. by intros [].
    + destruct Hspec as (Hno & Hrep' & Hheap). eexists _, _, seq, m. split; [done|]. left.
      split_and!; [done..| |done]. apply (strtab_inv_same tab seq m table m); try done.
      * intros a e _ He. exists e. by rewrite Hheap.
      * apply (si_hashed _ _ _ Hinv).
Qed.

Lemma strtab_add_raw tab seq m str copy :
  strtab_inv tab seq m ->
  st_size tab + st_length_field_size tab + Z.of_nat (length str) + 1 < 2 ^ 64 - 1 ->
  add_result tab seq m str false (bfd_stringtab_add tab str false copy).
Proof.
  intros Hinv Hsize. unfold add_result, bfd_stringtab_add.
  pose proof (si_table _ _ _ Hinv) as Hrep.
  pose proof (fun p => fresh_not_in_seq tab seq m p Hinv) as Hnot.
  pose proof (strtab_raw_spec (st_table tab) m str copy Hrep) as Hraw.
  destruct (strtab_raw_entry (st_table tab) str copy) as [r table].
  destruct Hraw as (Hrep' & Hkeep & Hr). cbn [mbind option_bind].
  assert (same_data (ht_heap (st_table tab)) (ht_heap table) seq) as Hsame.
  { intros a e _ He. exists e. split; [by apply Hkeep|done]. }
  destruct r as [p|].
  - destruct Hr as (Hp & e & He & Hs & Hd).
    destruct (strtab_append_added tab seq m p e str m table) as (idx & tab' & Happ & Hadd);
      try done; [by apply Hnot| |].
    + intros s a Ha. left. by eapply (si_hashed _ _ _ Hinv).
    + rewrite Happ. exists idx, tab', (seq ++ [p]), m. split; [done|]. by right.
  - eexists _, _, seq, m. split; [done|]. left. split_and!; [done..| |done].
    apply (strtab_inv_same tab seq m table m); try done. apply (si_hashed _ _ _ Hinv).
Qed.

(** ** Properties *)

(** C23: [_bfd_stringtab_add] returns an index at which the table, once
    written, holds the string and its null byte; what the table held before
    stays where it was; a string already added with hashing gets its index
    back and changes nothing; and a failed allocation returns -1 and leaves
    the table as it was. *)
Theorem strtab_add_correct tab seq m str hash copy :
  strtab_inv tab seq m ->
  ht_frozen (st_table tab) = true \/ ht_size (st_table tab) < 4294967291 ->
  st_size tab + st_length_field_size tab + Z.of_nat (length str) + 1 < 2 ^ 64 - 1 ->
  exists idx tab' seq' m', bfd_stringtab_add tab str hash copy = Some (idx, tab') /\
    ((idx = UINT64_MAX /\ false ∈ ht_oracle (st_table tab) /\ strtab_inv tab' seq m /\
      st_size tab' = st_size tab) \/
     (added tab tab' seq seq' m' str idx /\
      (hash = true -> is_Some (m' !! str) /\ (is_Some (m !! str) -> tab' = tab)))).
Proof.
  intros Hinv Hgrow Hsize.
  destruct hash; [by apply strtab_add_hashed|by apply strtab_add_raw].
Qed.

(** Writing a table to a file that takes everything produces the
    strings in the order of their addition, each with its length field in the
    target's byte order, as many bytes as the table's size. *)
Theorem strtab_emit_correct big_p tab seq m f :
  strtab_inv tab seq m ->
  bfd_stringtab_emit append_write big_p f tab = Some (true, f ++ strtab_bytes big_p tab seq) /\
  Z.of_nat (length (strtab_bytes big_p tab seq)) = bfd_stringtab_size tab.
Proof.
  intros Hinv. pose proof (strtab_brk _ _ _ Hinv). split.
  - apply emit_loop_spec; [apply Hinv|apply Hinv|lia].
  - apply (seq_bytes_length _ big_p _ 0 seq); [by eapply strtab_lfs_nonneg|apply Hinv].
Qed.

(** ** Witnesses *)

Lemma strtab_init_inv ok1 ok2 oracle size tab :
  0 < size < 2 ^ 32 -> bfd_stringtab_init ok1 ok2 oracle size = Some tab ->
  strtab_inv tab [] ∅ /\ ht_size (st_table tab) = size.
Proof.
  intros Hsize. unfold bfd_stringtab_init. destruct ok1; [|done]. cbn [negb].
  destruct (bfd_hash_table_init_n ok2 oracle 48 size) as [table|] eqn:Ht; [|done].
  intros [= <-]. destruct (hash_init_represents _ _ _ _ _ Hsize Ht) as [Hrep Hs].
  split; [|done]. constructor; cbn; try done; [by constructor|by left].
Qed.

Definition sample_strtab : bfd_strtab_hash :=
  mkStrtab (mkHashTable (replicate 31 None) ∅ 0 [] 31 0 48 false) 0 None None 0.

Lemma sample_strtab_inv : strtab_inv sample_strtab [] ∅.
Proof. apply (strtab_init_inv true true [] 31); [lia|reflexivity]. Qed.

Lemma strtab_add_correct_witness :
  exists tab' seq' m', bfd_stringtab_add sample_strtab [97; 98] true false = Some (0, tab') /\
    added sample_strtab tab' [] seq' m' [97; 98] 0.
Proof.
  destruct (strtab_add_correct sample_strtab [] ∅ [97; 98] true false sample_strtab_inv)
    as (idx & tab' & seq' & m' & Hadd & Hspec); [right; simpl; lia|simpl; lia|].
  exists tab', seq', m'.
  assert (fst <$> bfd_stringtab_add sample_strtab [97; 98] true false = Some 0) as Hidx
    by (vm_compute; reflexivity).
  rewrite Hadd in Hidx. injection Hidx as ->. split; [exact Hadd|].
  destruct Hspec as [(Hbad & _)|[Hok _]]; [discriminate Hbad|exact Hok].
Defined.

Lemma strtab_emit_correct_witness :
  bfd_stringtab_emit append_write true [7] sample_strtab = Some (true, [7]).
Proof. exact (proj1 (strtab_emit_correct true sample_strtab [] ∅ [7] sample_strtab_inv)). Defined.
