(* ===== verification/ElfStrtab.v ===== *)
(** ELF string tables: elf-strtab.c's reference-counted strings with indices,
    of which only the referenced ones are written, a string that ends another
    one sharing its bytes.

    [es_array] is the array of pointers ([] once its reallocation failed),
    [es_asserts] counts the reports of BFD_ASSERT, which does not stop the
    program.  [None] is undefined behaviour: an access outside an array,
    signed overflow, the index of an entry whose union holds a pointer. *)

From S2P Require Import Prelude StableSort HashTable HashTableSpec.

Inductive elf_strtab_u :=
  | EU_index (index : Z)
  | EU_suffix (suffix : ptr).

Record elf_strtab_data := mkElfData {
  ed_len : Z;
  ed_refcount : Z;
  ed_u : elf_strtab_u
}.

Abbreviation elf_strtab_hash_entry := (hash_entry elf_strtab_data).

Record elf_strtab_hash := mkElfStrtab {
  es_table : hash_table elf_strtab_data;
  es_size : Z;
  es_alloced : Z;
  es_sec_size : Z;
  es_array : list (option ptr);
  es_asserts : nat
}.

(** *** Fields *)

Definition with_len (len : Z) (d : elf_strtab_data) : elf_strtab_data :=
  mkElfData len (ed_refcount d) (ed_u d).
Definition with_refcount (r : Z) (d : elf_strtab_data) : elf_strtab_data :=
  mkElfData (ed_len d) r (ed_u d).
Definition with_u (u : elf_strtab_u) (d : elf_strtab_data) : elf_strtab_data :=
  mkElfData (ed_len d) (ed_refcount d) u.

Definition set_es_table (t : hash_table elf_strtab_data) (tab : elf_strtab_hash) : elf_strtab_hash :=
  mkElfStrtab t (es_size tab) (es_alloced tab) (es_sec_size tab) (es_array tab) (es_asserts tab).
Definition set_es_size (n : Z) (tab : elf_strtab_hash) : elf_strtab_hash :=
  mkElfStrtab (es_table tab) n (es_alloced tab) (es_sec_size tab) (es_array tab) (es_asserts tab).
Definition set_es_sec_size (n : Z) (tab : elf_strtab_hash) : elf_strtab_hash :=
  mkElfStrtab (es_table tab) (es_size tab) (es_alloced tab) n (es_array tab) (es_asserts tab).
Definition set_es_array (alloced : Z) (a : list (option ptr)) (tab : elf_strtab_hash) : elf_strtab_hash :=
  mkElfStrtab (es_table tab) (es_size tab) alloced (es_sec_size tab) a (es_asserts tab).

Definition bfd_assert (b : bool) (tab : elf_strtab_hash) : elf_strtab_hash :=
  if b then tab
  else mkElfStrtab (es_table tab) (es_size tab) (es_alloced tab) (es_sec_size tab) (es_array tab)
         (S (es_asserts tab)).

(** The result of an operation on [int]. *)
Definition int_op (z : Z) : option Z :=
  if (- 2 ^ 31 <=? z) && (z <? 2 ^ 31) then Some z else None.

(** [u.index] *)
Definition u_index (d : elf_strtab_data) : option Z :=
  match ed_u d with EU_index i => Some i | EU_suffix _ => None end.

(** [tab->array[idx]] *)
Definition es_slot (tab : elf_strtab_hash) (idx : Z) : option ptr :=
  slot ← es_array tab !! Z.to_nat idx; slot.

(** [*e] and [*e = d] *)
Definition es_data (tab : elf_strtab_hash) (p : ptr) : option elf_strtab_data :=
  he_data <$> ht_heap (es_table tab) !! p.
Definition es_store (p : ptr) (d : elf_strtab_data) (tab : elf_strtab_hash) : option elf_strtab_hash :=
  table ← store_data p d (es_table tab); Some (set_es_table table tab).

(** ** Building the table *)

(** What [elf_strtab_hash_newfunc] stores in a fresh entry. *)
Definition elf_strtab_hash_init : elf_strtab_data := mkElfData 0 0 (EU_index UINT64_MAX).

(** [ok_malloc], [ok_create], [oracle] and [ok_array] answer for the
    allocators, [default_size] is bfd_default_hash_table_size. *)
Definition bfd_elf_strtab_init (ok_malloc ok_create : bool) (oracle : list bool) (ok_array : bool)
    (default_size : Z) : option elf_strtab_hash :=
  if negb ok_malloc then None
  else
    table ← bfd_hash_table_init_n ok_create oracle 40 default_size;
    if negb ok_array then None
    else Some (mkElfStrtab table 1 64 0 (replicate 64 None) 0).

(** [bfd_realloc_or_free (tab->array, tab->alloced * amt)] after the doubling *)
Definition elf_strtab_grow (ok_realloc : bool) (tab : elf_strtab_hash) : elf_strtab_hash :=
  let alloced := u64 (es_alloced tab * 2) in
  if ok_realloc then
    let slots := Z.to_nat (u64 (alloced * 8) / 8) in
    set_es_array alloced (take slots (es_array tab) ++ replicate (slots - length (es_array tab)) None) tab
  else set_es_array alloced [] tab.

(** The entry [entry] of [str], with data [d], is new or was dropped: it gets
    its length and the next index. *)
Definition elf_strtab_append (tab : elf_strtab_hash) (entry : ptr) (str : cstring) (d : elf_strtab_data)
    (ok_realloc : bool) : option (Z * elf_strtab_hash) :=
  let d := with_len (sext 32 (Z.of_nat (length str) + 1)) d in
  let tab := bfd_assert (0 <? ed_len d) tab in
  tab ← es_store entry d tab;
  let '(ok, tab) :=
    if es_size tab =? es_alloced tab
    then (ok_realloc, elf_strtab_grow ok_realloc tab) else (true, tab) in
  if negb ok then Some (UINT64_MAX, tab)
  else
    let index := es_size tab in
    tab ← es_store entry (with_u (EU_index index) d) (set_es_size (u64 (index + 1)) tab);
    if decide (Z.to_nat index < length (es_array tab))%nat
    then Some (index, set_es_array (es_alloced tab) (<[Z.to_nat index := Some entry]> (es_array tab)) tab)
    else None.

Definition bfd_elf_strtab_add (tab : elf_strtab_hash) (str : cstring) (copy ok_realloc : bool)
    : option (Z * elf_strtab_hash) :=
  match str with
  | [] => Some (0, tab)
  | _ =>
      let tab := bfd_assert (es_sec_size tab =? 0) tab in
      '(entry, table) ← bfd_hash_lookup elf_strtab_hash_init (es_table tab) str true copy;
      let tab := set_es_table table tab in
      match entry with
      | None => Some (UINT64_MAX, tab)
      | Some entry =>
          d ← es_data tab entry;
          let d := with_refcount (u32 (ed_refcount d + 1)) d in
          if ed_len d =? 0 then elf_strtab_append tab entry str d ok_realloc
          else
            tab ← es_store entry d tab;
            index ← u_index d;
            Some (index, tab)
      end
  end.

Definition bfd_elf_strtab_addref (tab : elf_strtab_hash) (idx : Z) : option elf_strtab_hash :=
  if (idx =? 0) || (idx =? UINT64_MAX) then Some tab
  else
    let tab := bfd_assert (es_sec_size tab =? 0) tab in
    let tab := bfd_assert (idx <? es_size tab) tab in
    p ← es_slot tab idx;
    d ← es_data tab p;
    es_store p (with_refcount (u32 (ed_refcount d + 1)) d) tab.

Definition bfd_elf_strtab_delref (tab : elf_strtab_hash) (idx : Z) : option elf_strtab_hash :=
  if (idx =? 0) || (idx =? UINT64_MAX) then Some tab
  else
    let tab := bfd_assert (es_sec_size tab =? 0) tab in
    let tab := bfd_assert (idx <? es_size tab) tab in
    p ← es_slot tab idx;
    d ← es_data tab p;
    let tab := bfd_assert (0 <? ed_refcount d) tab in
    es_store p (with_refcount (u32 (ed_refcount d - 1)) d) tab.

Definition bfd_elf_strtab_refcount (tab : elf_strtab_hash) (idx : Z) : option Z :=
  p ← es_slot tab idx;
  d ← es_data tab p;
  Some (ed_refcount d).

(** [for (; idx < limit; idx++)], [n] steps to go, over the entries. *)
Section each.
Context {S : Type} (body : Z -> ptr -> elf_strtab_data -> S -> elf_strtab_hash -> option (S * elf_strtab_hash)).

Fixpoint each_entry (n : nat) (idx : Z) (s : S) (tab : elf_strtab_hash) : option (S * elf_strtab_hash) :=
  match n with
  | O => Some (s, tab)
  | Datatypes.S n =>
      p ← es_slot tab idx;
      d ← es_data tab p;
      '(s, tab) ← body idx p d s tab;
      each_entry n (idx + 1) s tab
  end.

End each.

(** The number of steps of [for (idx = 1; idx < tab->size; ...)]. *)
Definition es_steps (tab : elf_strtab_hash) : nat := Z.to_nat (es_size tab - 1).

Definition bfd_elf_strtab_clear_all_refs (tab : elf_strtab_hash) : option elf_strtab_hash :=
  '(_, tab) ← each_entry (fun _ p d _ tab =>
      tab ← es_store p (with_refcount 0 d) tab; Some (tt, tab)) (es_steps tab) 1 tt tab;
  Some tab.

(** ** Saving and restoring the reference counts *)

(** [refcount[idx]] is [sv_refcount !! idx]; index 0 is not written. *)
Record strtab_save := mkStrtabSave {
  sv_size : Z;
  sv_refcount : list Z
}.

Definition bfd_elf_strtab_save (ok_malloc : bool) (tab : elf_strtab_hash) : option (option strtab_save) :=
  if negb ok_malloc then Some None
  else
    '(rs, _) ← each_entry (fun _ _ d rs tab => Some (rs ++ [ed_refcount d], tab))
                 (es_steps tab) 1 [0] tab;
    Some (Some (mkStrtabSave (es_size tab) rs)).

(** The loop over the entries that were saved, and the one over those added
    since. *)
Definition restore_body (save : option strtab_save) (idx : Z) (p : ptr) (d : elf_strtab_data)
    (_ : unit) (tab : elf_strtab_hash) : option (unit * elf_strtab_hash) :=
  save ← save;
  r ← sv_refcount save !! Z.to_nat idx;
  tab ← es_store p (with_refcount r d) tab;
  Some (tt, tab).

Definition drop_body (_ : Z) (p : ptr) (d : elf_strtab_data) (_ : unit) (tab : elf_strtab_hash)
    : option (unit * elf_strtab_hash) :=
  tab ← es_store p (with_len 0 (with_refcount 0 d)) tab;
  Some (tt, tab).

Definition bfd_elf_strtab_restore (tab : elf_strtab_hash) (save : option strtab_save)
    : option elf_strtab_hash :=
  let curr_size := es_size tab in
  let tab := bfd_assert (es_sec_size tab =? 0) tab in
  let save_size := match save with None => 1 | Some save => sv_size save end in
  let tab := bfd_assert (save_size <=? curr_size) tab in
  let tab := set_es_size save_size tab in
  '(_, tab) ← each_entry (restore_body save) (Z.to_nat (save_size - 1)) 1 tt tab;
  let idx := Z.max 1 save_size in
  '(_, tab) ← each_entry drop_body (Z.to_nat (curr_size - idx)) idx tt tab;
  Some tab.

Definition bfd_elf_strtab_size (tab : elf_strtab_hash) : Z :=
  if es_sec_size tab =? 0 then es_size tab else es_sec_size tab.

Definition bfd_elf_strtab_len (tab : elf_strtab_hash) : Z := es_size tab.

(** ** Using the finished table *)

Definition bfd_elf_strtab_offset (tab : elf_strtab_hash) (idx : Z) : option (Z * elf_strtab_hash) :=
  if idx =? 0 then Some (0, tab)
  else
    let tab := bfd_assert (idx <? es_size tab) tab in
    let tab := bfd_assert (negb (es_sec_size tab =? 0)) tab in
    p ← es_slot tab idx;
    d ← es_data tab p;
    let tab := bfd_assert (0 <? ed_refcount d) tab in
    tab ← es_store p (with_refcount (u32 (ed_refcount d - 1)) d) tab;
    index ← u_index d;
    Some (index, tab).

(** The string and what is stored through [offset], when it is not null; the
    assertions report to the table. *)
Definition bfd_elf_strtab_str (tab : elf_strtab_hash) (idx : Z) (offset : bool)
    : option (option (cstring * option Z) * elf_strtab_hash) :=
  if idx =? 0 then Some (None, tab)
  else
    let tab := bfd_assert (idx <? es_size tab) tab in
    let tab := bfd_assert (negb (es_sec_size tab =? 0)) tab in
    p ← es_slot tab idx;
    e ← ht_heap (es_table tab) !! p;
    if ed_refcount (he_data e) =? 0 then Some (None, tab)
    else if offset then
      index ← u_index (he_data e);
      Some (Some (he_string e, Some index), tab)
    else Some (Some (he_string e, None), tab).

(** [n] bytes of a string, null byte included, from offset [off]. *)
Definition c_bytes (s : cstring) (off n : Z) : option (list Z) :=
  if (0 <=? off) && (0 <=? n) && (off + n <=? Z.of_nat (length s) + 1)
  then Some (take (Z.to_nat n) (drop (Z.to_nat off) (s ++ [0]))) else None.

Section emit.
Context {F : Type} (bfd_write : list Z -> F -> Z * F).

(** The loop; false is the early return. *)
Fixpoint emit_entries (n : nat) (i : Z) (off : Z) (abfd : F) (tab : elf_strtab_hash)
    : option (bool * Z * F * elf_strtab_hash) :=
  match n with
  | O => Some (true, off, abfd, tab)
  | S n =>
      p ← es_slot tab i;
      e ← ht_heap (es_table tab) !! p;
      let tab := bfd_assert (ed_refcount (he_data e) =? 0) tab in
      let len := u32 (ed_len (he_data e)) in
      if sext 32 len <=? 0 then emit_entries n (i + 1) off abfd tab
      else
        bytes ← c_bytes (he_string e) 0 len;
        let '(written, abfd) := bfd_write bytes abfd in
        if negb (written =? len) then Some (false, off, abfd, tab)
        else emit_entries n (i + 1) (u64 (off + len)) abfd tab
  end.

Definition bfd_elf_strtab_emit (abfd : F) (tab : elf_strtab_hash) : option (bool * F * elf_strtab_hash) :=
  let '(written, abfd) := bfd_write [0] abfd in
  if negb (written =? 1) then Some (false, abfd, tab)
  else
    '(ok, off, abfd, tab) ← emit_entries (es_steps tab) 1 1 abfd tab;
    if (ok : bool) then Some (true, abfd, bfd_assert (off =? es_sec_size tab) tab)
    else Some (false, abfd, tab).

End emit.

(** ** Merging suffixes *)

Definition c_byte (s : cstring) (i : Z) : option Z :=
  if 0 <=? i then (s ++ [0]) !! Z.to_nat i else None.

(** The loop of [strrevcmp], [l] steps to go, with the value of the last
    [return]. *)
Fixpoint strrevcmp_loop (l : nat) (sA sB : cstring) (s t : Z) (last : Z) : option Z :=
  match l with
  | O => Some last
  | S l =>
      a ← c_byte sA s;
      b ← c_byte sB t;
      if negb (a =? b) then Some (a - b) else strrevcmp_loop l sA sB (s - 1) (t - 1) last
  end.

Definition strrevcmp (A B : elf_strtab_hash_entry) : option Z :=
  let lenA := u32 (ed_len (he_data A)) in
  let lenB := u32 (ed_len (he_data B)) in
  let l := sext 32 (if lenA <? lenB then lenA else lenB) in
  if l <? 0 then None
  else strrevcmp_loop (Z.to_nat l) (he_string A) (he_string B) (lenA - 1) (lenB - 1)
         (sext 32 (lenA - lenB)).

(** [memcmp] of equal lengths, compared with 0 *)
Definition is_suffix (A B : elf_strtab_hash_entry) : option bool :=
  let lenA := ed_len (he_data A) in
  let lenB := ed_len (he_data B) in
  if lenA <=? lenB then Some false
  else
    off ← int_op (lenA - lenB);
    n ← int_op (lenB - 1);
    a ← c_bytes (he_string A) off n;
    b ← c_bytes (he_string B) 0 n;
    Some (bool_decide (a = b)).

(** [qsort (array, size, sizeof *array, strrevcmp)]; every comparison it may
    make has to be defined. *)
Definition strrev_cmp_at (tab : elf_strtab_hash) (p q : ptr) : option Z :=
  A ← ht_heap (es_table tab) !! p;
  B ← ht_heap (es_table tab) !! q;
  strrevcmp A B.

Definition strrev_lt (tab : elf_strtab_hash) (p q : ptr) : bool :=
  match strrev_cmp_at tab p q with Some z => z <? 0 | None => false end.

Definition qsort_strrevcmp (tab : elf_strtab_hash) (array : list ptr) : option (list ptr) :=
  if forallb (fun p => forallb (fun q => bool_decide (is_Some (strrev_cmp_at tab p q))) array) array
  then Some (stable_sort (strrev_lt tab) array) else None.

(** The loop over the sorted array from its end; [e] is the entry that is
    kept, the list holds the entries before it, last first. *)
Fixpoint merge_loop (e : ptr) (a : list ptr) (tab : elf_strtab_hash) : option elf_strtab_hash :=
  match a with
  | [] => Some tab
  | cmp :: a =>
      d ← es_data tab cmp;
      len ← int_op (ed_len d + 1);
      tab ← es_store cmp (with_len len d) tab;
      ee ← ht_heap (es_table tab) !! e;
      ec ← ht_heap (es_table tab) !! cmp;
      suffix ← is_suffix ee ec;
      if (suffix : bool) then
        len ← int_op (- len);
        tab ← es_store cmp (mkElfData len (ed_refcount d) (EU_suffix e)) tab;
        merge_loop e a tab
      else merge_loop cmp a tab
  end.

Definition merge_sorted (sorted : list ptr) (tab : elf_strtab_hash) : option elf_strtab_hash :=
  match reverse sorted with
  | [] => Some tab
  | e :: a =>
      d ← es_data tab e;
      len ← int_op (ed_len d + 1);
      tab ← es_store e (with_len len d) tab;
      merge_loop e a tab
  end.

(** The first loop: the referenced entries, their lengths without the null
    byte. *)
Definition collect_body (_ : Z) (p : ptr) (d : elf_strtab_data) (array : list ptr) (tab : elf_strtab_hash)
    : option (list ptr * elf_strtab_hash) :=
  if negb (ed_refcount d =? 0) then
    len ← int_op (ed_len d - 1);
    tab ← es_store p (with_len len d) tab;
    Some (array ++ [p], tab)
  else
    tab ← es_store p (with_len 0 d) tab;
    Some (array, tab).

(** The positions of the strings that are kept. *)
Definition assign_body (_ : Z) (p : ptr) (d : elf_strtab_data) (sec_size : Z) (tab : elf_strtab_hash)
    : option (Z * elf_strtab_hash) :=
  if negb (ed_refcount d =? 0) && (0 <? ed_len d) then
    tab ← es_store p (with_u (EU_index sec_size) d) tab;
    Some (u64 (sec_size + ed_len d), tab)
  else Some (sec_size, tab).

(** The positions of the others. *)
Definition adjust_body (_ : Z) (p : ptr) (d : elf_strtab_data) (_ : unit) (tab : elf_strtab_hash)
    : option (unit * elf_strtab_hash) :=
  if negb (ed_refcount d =? 0) && (ed_len d <? 0) then
    q ← (match ed_u d with EU_suffix q => Some q | EU_index _ => None end);
    dq ← es_data tab q;
    index ← u_index dq;
    diff ← int_op (ed_len dq + ed_len d);
    tab ← es_store p (with_u (EU_index (u64 (index + u64 diff))) d) tab;
    Some (tt, tab)
  else Some (tt, tab).

Definition bfd_elf_strtab_finalize (ok_malloc : bool) (tab : elf_strtab_hash) : option elf_strtab_hash :=
  tab ← (if ok_malloc then
           '(array, tab) ← each_entry collect_body (es_steps tab) 1 [] tab;
           sorted ← qsort_strrevcmp tab array;
           merge_sorted sorted tab
         else Some tab);
  '(sec_size, tab) ← each_entry assign_body (es_steps tab) 1 1 tab;
  let tab := set_es_sec_size sec_size tab in
  '(_, tab) ← each_entry adjust_body (es_steps tab) 1 tt tab;
  Some tab.

(** ** The invariant *)

Definition es_str (tab : elf_strtab_hash) (p : ptr) : option cstring :=
  he_string <$> ht_heap (es_table tab) !! p.

(** The entry at index [i + 1], which is referenced [r] times. *)
Definition entry_at (tab : elf_strtab_hash) (m : gmap cstring ptr) (i : nat) (p : ptr) : Prop :=
  exists s r, es_str tab p = Some s /\ m !! s = Some p /\ s <> [] /\
    Z.of_nat (length s) + 1 < 2 ^ 31 /\ fits 32 r /\
    es_data tab p = Some (mkElfData (Z.of_nat (length s) + 1) r (EU_index (Z.of_nat i + 1))).

(** A table under construction: [seq] are the entries of indices 1, 2, ...;
    the hash table maps the strings to their entries, those in use and those
    that [_bfd_elf_strtab_restore] dropped. *)
Record es_inv (tab : elf_strtab_hash) (seq : list ptr) (m : gmap cstring ptr) : Prop := {
  ei_table : represents (es_table tab) m;
  ei_array : exists rest, es_array tab = None :: (Some <$> seq) ++ rest;
  ei_alloced : Z.of_nat (length (es_array tab)) = es_alloced tab;
  ei_size : es_size tab = Z.of_nat (length seq) + 1;
  ei_nodup : NoDup seq;
  ei_entry : forall i p, seq !! i = Some p -> entry_at tab m i p;
  ei_hashed : forall s p, m !! s = Some p ->
    p ∈ seq \/ exists d, es_data tab p = Some d /\ ed_len d = 0 /\ ed_refcount d = 0;
  ei_sec_size : es_sec_size tab = 0
}.

(** All strings of the table, each with its null byte. *)
Definition all_bytes (tab : elf_strtab_hash) (l : list ptr) : list Z :=
  concat ((fun p => match es_str tab p with Some s => s ++ [0] | None => [] end) <$> l).

(** The strings with a positive length, and the section made of them. *)
Definition kept_bytes (tab : elf_strtab_hash) (l : list ptr) : list Z :=
  concat ((fun p => match es_str tab p, es_data tab p with
                    | Some s, Some d => if 0 <? ed_len d then s ++ [0] else []
                    | _, _ => [] end) <$> l).

Definition section_bytes (tab : elf_strtab_hash) (seq : list ptr) : list Z := 0 :: kept_bytes tab seq.

(** The entry of [p] is referenced. *)
Definition referenced (tab : elf_strtab_hash) (p : ptr) : Prop :=
  exists d, es_data tab p = Some d /\ ed_refcount d <> 0.

Definition kept (tab : elf_strtab_hash) (p : ptr) : Prop :=
  exists d, es_data tab p = Some d /\ 0 < ed_len d.

(** Only the data of entries differ. *)
Record same_shape (tab tab' : elf_strtab_hash) : Prop := {
  ss_size : es_size tab' = es_size tab;
  ss_alloced : es_alloced tab' = es_alloced tab;
  ss_sec_size : es_sec_size tab' = es_sec_size tab;
  ss_array : es_array tab' = es_array tab;
  ss_asserts : es_asserts tab' = es_asserts tab;
  ss_table : forall m, represents (es_table tab) m -> represents (es_table tab') m;
  ss_frozen : ht_frozen (es_table tab') = ht_frozen (es_table tab);
  ss_buckets : ht_size (es_table tab') = ht_size (es_table tab);
  ss_oracle : ht_oracle (es_table tab') = ht_oracle (es_table tab);
  ss_str : forall p, es_str tab' p = es_str tab p
}.

#[export] Instance same_shape_preorder : PreOrder same_shape.
Proof.
  split.
  - intros tab. by constructor.
  - intros t1 t2 t3 [] []. constructor; try congruence; eauto.
Qed.

(** ** Lemmas *)

(** The data of the entries in [l] are changed by [f], the others not. *)
Definition updated (f : ptr -> elf_strtab_data -> elf_strtab_data) (l : list ptr) (tab tab' : elf_strtab_hash) : Prop :=
  same_shape tab tab' /\
  forall q, es_data tab' q = if decide (q ∈ l) then f q <$> es_data tab q else es_data tab q.

Lemma es_store_spec p d d0 tab :
  es_data tab p = Some d0 ->
  exists tab', es_store p d tab = Some tab' /\ same_shape tab tab' /\
    forall q, es_data tab' q = if decide (q = p) then Some d else es_data tab q.
Proof.
  unfold es_data. intros Hd. apply fmap_Some in Hd as (e & He & ->). unfold es_store.
  rewrite (store_data_eq p d (es_table tab) e He). cbn [mbind option_bind].
  eexists. split; [done|]. split.
  - constructor; try done; [intros m Hm; by apply (represents_store _ m p e)|].
    intros q. unfold es_str. cbn. destruct (decide (q = p)) as [->|].
    + by rewrite lookup_insert_eq, He.
    + by rewrite lookup_insert_ne.
  - intros q. cbn. case_decide as Hq; [by subst; rewrite lookup_insert_eq|].
    by rewrite lookup_insert_ne.
Qed.

Lemma updated_nil f tab : updated f [] tab tab.
Proof. split; [reflexivity|]. intros q. by rewrite decide_False by apply not_elem_of_nil. Qed.

Lemma updated_snoc f l tab tab1 p d :
  updated f l tab tab1 -> p ∉ l -> es_data tab p = Some d ->
  es_data tab1 p = Some d /\
  exists tab2, es_store p (f p d) tab1 = Some tab2 /\ updated f (l ++ [p]) tab tab2.
Proof.
  intros [Hs Hu] Hp Hd. pose proof (Hu p) as Hdp. rewrite decide_False, Hd in Hdp by done.
  split; [done|]. destruct (es_store_spec p (f p d) d tab1 Hdp) as (tab2 & Hst & Hs2 & Hd2).
  exists tab2. split; [done|]. split; [by etransitivity|]. intros q. rewrite Hd2, Hu.
  destruct (decide (q = p)) as [->|Hqp].
  - rewrite decide_True by (apply elem_of_app; right; by left). by rewrite Hd.
  - destruct (decide (q ∈ l)) as [Hl|Hl].
    + by rewrite decide_True by (apply elem_of_app; by left).
    + rewrite decide_False; [done|]. by intros [?| ->%list_elem_of_singleton]%elem_of_app.
Qed.

(** *** Loops over the entries *)

Lemma inv_slot tab seq rest i p :
  es_array tab = None :: (Some <$> seq) ++ rest -> seq !! i = Some p ->
  es_slot tab (Z.of_nat i + 1) = Some p.
Proof.
  intros Ha Hi. unfold es_slot. rewrite Ha. replace (Z.to_nat _) with (S i) by lia.
  assert (((Some <$> seq) ++ rest) !! i = Some (Some p)) as Hs.
  { rewrite lookup_app_l by (rewrite length_fmap; by eapply lookup_lt_Some).
    by rewrite list_lookup_fmap, Hi. }
  change ((None :: (Some <$> seq) ++ rest) !! S i) with (((Some <$> seq) ++ rest) !! i).
  by rewrite Hs.
Qed.

(** The rule of the loop: [P i] holds before entry [i]. *)
Lemma each_entry_rule {S} body seq rest (P : nat -> S -> elf_strtab_hash -> Prop) n i s tab :
  (forall i p s tab, seq !! i = Some p -> P i s tab ->
     es_array tab = None :: (Some <$> seq) ++ rest /\
     exists d s' tab', es_data tab p = Some d /\ body (Z.of_nat i + 1) p d s tab = Some (s', tab') /\
       P (Datatypes.S i) s' tab') ->
  (i + n <= length seq)%nat -> P i s tab ->
  exists s' tab', each_entry body n (Z.of_nat i + 1) s tab = Some (s', tab') /\ P (i + n)%nat s' tab'.
Proof.
  intros Hstep. revert i s tab. induction n as [|n IH]; intros i s tab Hn HP.
  - exists s, tab. split; [done|]. by rewrite Nat.add_0_r.
  - destruct (lookup_lt_is_Some_2 seq i ltac:(lia)) as [p Hp].
    destruct (Hstep i p s tab Hp HP) as (Ha & d & s' & tab' & Hd & Hb & HP').
    cbn [each_entry]. rewrite (inv_slot tab seq rest i p Ha Hp). cbn [mbind option_bind].
    rewrite Hd. cbn [mbind option_bind]. rewrite Hb. cbn [mbind option_bind].
    replace (Z.of_nat i + 1 + 1) with (Z.of_nat (Datatypes.S i) + 1) by lia.
    destruct (IH (Datatypes.S i) s' tab' ltac:(lia) HP') as (s2 & tab2 & -> & HP2).
    exists s2, tab2. split; [done|]. by replace (i + Datatypes.S n)%nat with (Datatypes.S i + n)%nat by lia.
Qed.

(** The loop over all entries. *)
Lemma each_entry_all {S} body seq rest (P : nat -> S -> elf_strtab_hash -> Prop) s tab :
  (forall i p s tab, seq !! i = Some p -> P i s tab ->
     es_array tab = None :: (Some <$> seq) ++ rest /\
     exists d s' tab', es_data tab p = Some d /\ body (Z.of_nat i + 1) p d s tab = Some (s', tab') /\
       P (Datatypes.S i) s' tab') ->
  P 0%nat s tab ->
  exists s' tab', each_entry body (length seq) 1 s tab = Some (s', tab') /\ P (length seq) s' tab'.
Proof. intros Hstep HP. by apply (each_entry_rule body seq rest P (length seq) 0 s tab Hstep). Qed.

Lemma inv_steps tab seq m : es_inv tab seq m -> es_steps tab = length seq.
Proof. intros Hinv. unfold es_steps. rewrite (ei_size _ _ _ Hinv). lia. Qed.

Lemma take_S_fresh (l : list ptr) i p :
  NoDup l -> l !! i = Some p -> take (S i) l = take i l ++ [p] /\ p ∉ take i l.
Proof.
  intros Hnd Hi. split; [by apply take_S_r|]. intros Hin.
  apply list_elem_of_lookup in Hin as [j Hj].
  assert (j < i)%nat as Hji.
  { apply lookup_lt_Some in Hj. rewrite length_take in Hj. lia. }
  rewrite lookup_take_lt in Hj by done. pose proof (NoDup_lookup _ _ _ _ Hnd Hi Hj). lia.
Qed.

Lemma bfd_assert_true b tab : b = true -> bfd_assert b tab = tab.
Proof. by intros ->. Qed.

(** ** Adding strings *)

(** There is a slot for one more entry, after growing if needed. *)
Lemma room_spec tab seq rest ok :
  es_array tab = None :: (Some <$> seq) ++ rest -> Z.of_nat (length (es_array tab)) = es_alloced tab ->
  es_size tab = Z.of_nat (length seq) + 1 -> es_alloced tab < 2 ^ 58 ->
  ok = true \/ es_size tab < es_alloced tab ->
  exists tab' slot rest',
    (if es_size tab =? es_alloced tab then (ok, elf_strtab_grow ok tab) else (true, tab)) = (true, tab') /\
    es_array tab' = None :: (Some <$> seq) ++ slot :: rest' /\
    Z.of_nat (length (es_array tab')) = es_alloced tab' /\
    es_table tab' = es_table tab /\ es_size tab' = es_size tab /\ es_sec_size tab' = es_sec_size tab /\
    es_asserts tab' = es_asserts tab.
Proof.
  intros Ha Hal Hsz Hmax Hok.
  pose proof (f_equal length Ha) as Hlen. cbn in Hlen. rewrite length_app, length_fmap in Hlen.
  destruct (Z.eqb_spec (es_size tab) (es_alloced tab)) as [Heq|Hne].
  - destruct Hok as [->|]; [|lia]. unfold elf_strtab_grow.
    rewrite (wrap_small 64 (es_alloced tab * 2)) by (unfold fits; lia).
    rewrite wrap_small by (unfold fits; lia). rewrite Z.div_mul by done.
    rewrite take_ge by lia.
    assert (Z.to_nat (es_alloced tab * 2) - length (es_array tab) = S (length seq))%nat as -> by lia.
    assert (rest = []) as -> by (apply length_zero_iff_nil; lia). rewrite app_nil_r in Ha.
    eexists _, None, (replicate (length seq) None). split; [done|]. cbn [es_array set_es_array].
    split_and!; try done; [by rewrite Ha|]. cbn [es_alloced set_es_array].
    rewrite length_app, length_replicate. lia.
  - destruct rest as [|slot rest]; [simpl in Hlen; lia|]. by exists tab, slot, rest.
Qed.

Lemma array_insert (seq : list ptr) (p : ptr) slot (rest : list (option ptr)) :
  <[S (length seq) := Some p]> (None :: (Some <$> seq) ++ slot :: rest) = None :: (Some <$> (seq ++ [p])) ++ rest.
Proof.
  change (None :: <[length seq := Some p]> ((Some <$> seq) ++ slot :: rest)
    = None :: (Some <$> (seq ++ [p])) ++ rest). f_equal.
  rewrite insert_app_r_alt by (rewrite length_fmap; lia).
  rewrite length_fmap, Nat.sub_diag, fmap_app, <- app_assoc. done.
Qed.

(** The entries of [seq] in another table are the same. *)
Lemma entry_at_same tab tab' m m' i p :
  es_str tab' p = es_str tab p -> es_data tab' p = es_data tab p ->
  (forall s q, m !! s = Some q -> m' !! s = Some q) -> entry_at tab m i p -> entry_at tab' m' i p.
Proof.
  intros Hs Hd Hm (s & r & H1 & H2 & H). exists s, r. rewrite Hs, Hd. split; [done|]. split; [by apply Hm|done].
Qed.

(** The invariant with one more entry. *)
Lemma inv_snoc tab tab' seq m m' p str r rest :
  es_inv tab seq m -> represents (es_table tab') m' ->
  es_array tab' = None :: (Some <$> (seq ++ [p])) ++ rest ->
  Z.of_nat (length (es_array tab')) = es_alloced tab' ->
  es_size tab' = Z.of_nat (length seq) + 2 -> es_sec_size tab' = 0 -> p ∉ seq ->
  (forall a, a ∈ seq -> es_str tab' a = es_str tab a /\ es_data tab' a = es_data tab a) ->
  es_str tab' p = Some str -> str <> [] -> Z.of_nat (length str) + 1 < 2 ^ 31 -> fits 32 r ->
  es_data tab' p = Some (mkElfData (Z.of_nat (length str) + 1) r (EU_index (Z.of_nat (length seq) + 1))) ->
  m' !! str = Some p -> (forall s q, m !! s = Some q -> m' !! s = Some q) ->
  (forall s q, m' !! s = Some q -> q ∈ seq \/ q = p \/
     exists dq, es_data tab' q = Some dq /\ ed_len dq = 0 /\ ed_refcount dq = 0) ->
  es_inv tab' (seq ++ [p]) m'.
Proof.
  intros Hinv Hrep Ha Hal Hsz Hsec Hp Hseq Hs Hne Hlen Hr Hd Hms Hm Hm'. constructor; try done.
  - by exists rest.
  - rewrite Hsz, length_app. simpl. lia.
  - apply NoDup_app. split_and!; [apply Hinv| |apply NoDup_singleton]. by intros q Hq ->%list_elem_of_singleton.
  - intros i q Hi. apply lookup_app_Some in Hi as [Hi|[Hge Hi]].
    + destruct (Hseq q) as [Hsq Hdq]; [by eapply list_elem_of_lookup_2|].
      apply (entry_at_same tab _ m); [done..|]. by apply (ei_entry _ _ _ Hinv).
    + apply list_lookup_singleton_Some in Hi as [Hi0 <-]. assert (i = length seq) as -> by lia.
      exists str, r. split; [done|]. split; [done|]. split; [done|]. by split.
  - intros s q Hq. rewrite elem_of_app, list_elem_of_singleton.
    destruct (Hm' s q Hq) as [Hin|[->|Hdrop]]; auto.
Qed.

(** An entry outside [seq] that is added at the end. *)
Lemma append_spec tab0 table seq m m' p str d r ok :
  let tab := set_es_table table tab0 in
  es_inv tab0 seq m -> represents table m' ->
  (forall a, a ∈ seq -> es_str tab a = es_str tab0 a /\ es_data tab a = es_data tab0 a) ->
  p ∉ seq -> es_str tab p = Some str -> str <> [] -> Z.of_nat (length str) + 1 < 2 ^ 31 ->
  es_data tab p = Some d -> fits 32 r -> m' !! str = Some p ->
  (forall s q, m !! s = Some q -> m' !! s = Some q) ->
  (forall s q, m' !! s = Some q -> q ∈ seq \/ q = p \/
     exists dq, es_data tab q = Some dq /\ ed_len dq = 0 /\ ed_refcount dq = 0) ->
  es_alloced tab0 < 2 ^ 58 -> ok = true \/ es_size tab0 < es_alloced tab0 ->
  exists tab', elf_strtab_append tab p str (with_refcount r d) ok = Some (Z.of_nat (length seq) + 1, tab') /\
    es_inv tab' (seq ++ [p]) m' /\ es_asserts tab' = es_asserts tab0 /\
    (forall q, es_str tab' q = es_str tab q) /\ (forall q, q <> p -> es_data tab' q = es_data tab q) /\
    es_data tab' p = Some (mkElfData (Z.of_nat (length str) + 1) r (EU_index (Z.of_nat (length seq) + 1))).
Proof.
  intros tab Hinv Hrep Hseq Hp Hs Hne Hlen Hd Hr Hms Hm Hm' Hmax Hok. unfold elf_strtab_append.
  rewrite sext_small by lia. rewrite bfd_assert_true by (cbn; lia).
  destruct (es_store_spec p (with_len (Z.of_nat (length str) + 1) (with_refcount r d)) d tab Hd)
    as (tab1 & -> & Hs1 & Hd1). cbn [mbind option_bind].
  destruct (ei_array _ _ _ Hinv) as [rest Ha].
  destruct (room_spec tab1 seq rest ok) as (tab2 & slot & rest' & -> & Ha2 & Hal2 & Ht2 & Hsz2 & Hsec2 & Has2).
  { by rewrite (ss_array _ _ Hs1). } { rewrite (ss_array _ _ Hs1), (ss_alloced _ _ Hs1). apply Hinv. }
  { rewrite (ss_size _ _ Hs1). apply Hinv. } { by rewrite (ss_alloced _ _ Hs1). }
  { by rewrite (ss_alloced _ _ Hs1), (ss_size _ _ Hs1). }
  cbn [negb]. rewrite Hsz2, (ss_size _ _ Hs1). change (es_size tab) with (es_size tab0).
  rewrite (ei_size _ _ _ Hinv).
  pose proof (ei_size _ _ _ Hinv) as Hsz. pose proof (ei_alloced _ _ _ Hinv) as Hal.
  pose proof (f_equal length Ha) as Hla. cbn in Hla. rewrite length_app, length_fmap in Hla.
  rewrite (wrap_small 64 (Z.of_nat (length seq) + 1 + 1)) by (unfold fits; lia).
  set (n := Z.of_nat (length seq) + 1) in *.
  set (d3 := with_u (EU_index n) (with_len (Z.of_nat (length str) + 1) (with_refcount r d))).
  assert (es_data (set_es_size (n + 1) tab2) p = Some (with_len (Z.of_nat (length str) + 1) (with_refcount r d))) as Hd2.
  { unfold es_data. cbn. rewrite Ht2. change (es_data tab1 p = Some (with_len (Z.of_nat (length str) + 1) (with_refcount r d))).
    by rewrite Hd1, decide_True. }
  destruct (es_store_spec p d3 _ _ Hd2) as (tab3 & -> & Hs3 & Hd3). cbn [mbind option_bind].
  rewrite (ss_array _ _ Hs3), (ss_alloced _ _ Hs3). cbn [es_array set_es_size es_alloced].
  replace (Z.to_nat n) with (S (length seq)) by lia.
  pose proof (f_equal length Ha2) as Hla2. cbn in Hla2. rewrite length_app, length_fmap in Hla2. cbn in Hla2.
  rewrite decide_True by lia. rewrite Ha2, array_insert.
  eexists. split; [done|].
  assert (forall q, es_str tab3 q = es_str tab q) as Hstr.
  { intros q. rewrite (ss_str _ _ Hs3), <- (ss_str _ _ Hs1). unfold es_str. cbn. by rewrite Ht2. }
  assert (forall q, es_data tab3 q = if decide (q = p) then Some d3 else es_data tab q) as Hdat.
  { intros q. rewrite Hd3. case_decide; [done|]. unfold es_data. cbn. rewrite Ht2.
    change (es_data tab1 q = es_data tab q). by rewrite Hd1, decide_False. }
  assert (es_data tab3 p = Some d3) as Hd3p by (by rewrite Hdat, decide_True).
  assert (forall q, q <> p -> es_data tab3 q = es_data tab q) as Hd3o by (intros q Hq; by rewrite Hdat, decide_False).
  assert (forall a, a ∈ seq -> a <> p) as Hnp by (by intros a Ha' ->).
  split_and!; [|cbn; rewrite (ss_asserts _ _ Hs3); cbn; rewrite Has2; apply Hs1|exact Hstr|exact Hd3o|exact Hd3p].
  eapply (inv_snoc tab0 _ seq m m' p str r rest'); try done; cbn [es_table es_array es_alloced es_size es_sec_size set_es_array].
  - apply (ss_table _ _ Hs3). cbn. rewrite Ht2. by apply (ss_table _ _ Hs1).
  - rewrite <- Hal2, Ha2. cbn. rewrite !length_app, !length_fmap, length_app. cbn. lia.
  - rewrite (ss_size _ _ Hs3). cbn. lia.
  - rewrite (ss_sec_size _ _ Hs3). cbn. rewrite Hsec2, (ss_sec_size _ _ Hs1). apply Hinv.
  - intros a Hin. destruct (Hseq a Hin) as [<- <-]. split; [apply Hstr|by apply Hd3o, Hnp].
  - exact (eq_trans (Hstr p) Hs).
  - intros s q Hq. destruct (Hm' s q Hq) as [Hin|[->|Hdrop]]; [by left|by right; left|].
    destruct (decide (q = p)) as [->|Hqp]; [by right; left|]. right. right.
    change (exists dq, es_data tab3 q = Some dq /\ ed_len dq = 0 /\ ed_refcount dq = 0). by rewrite Hd3o.
Qed.

(** Storing a reference count. *)
Lemma store_refcount_spec tab seq m p d r :
  es_inv tab seq m -> p ∈ seq -> es_data tab p = Some d -> fits 32 r ->
  exists tab', es_store p (with_refcount r d) tab = Some tab' /\ es_inv tab' seq m /\ same_shape tab tab' /\
    forall q, es_data tab' q = if decide (q = p) then Some (with_refcount r d) else es_data tab q.
Proof.
  intros Hinv Hp Hd Hr. destruct (es_store_spec p (with_refcount r d) d tab Hd) as (tab' & Hst & Hs & Hd').
  exists tab'. split_and!; [done| |done..]. destruct (ei_array _ _ _ Hinv) as [rest Ha]. constructor.
  - apply (ss_table _ _ Hs), Hinv.
  - exists rest. by rewrite (ss_array _ _ Hs).
  - rewrite (ss_array _ _ Hs), (ss_alloced _ _ Hs). apply Hinv.
  - rewrite (ss_size _ _ Hs). apply Hinv.
  - apply Hinv.
  - intros i q Hi. destruct (ei_entry _ _ _ Hinv i q Hi) as (s & r0 & H1 & H2 & H3 & H4 & H5 & H6).
    destruct (decide (q = p)) as [->|Hq].
    + exists s, r. rewrite (ss_str _ _ Hs), Hd', decide_True by done. rewrite Hd in H6. injection H6 as ->. done.
    + exists s, r0. rewrite (ss_str _ _ Hs), Hd', decide_False by done. done.
  - intros s q Hq. destruct (ei_hashed _ _ _ Hinv s q Hq) as [|Hdrop]; [by left|].
    destruct (decide (q = p)) as [->|Hqp]; [by left|right]. by rewrite Hd', decide_False.
  - rewrite (ss_sec_size _ _ Hs). apply Hinv.
Qed.

(** Another hash table with the same strings and data. *)
Lemma inv_table tab seq m table m' :
  es_inv tab seq m -> represents table m' ->
  (forall p, p ∈ seq -> es_str (set_es_table table tab) p = es_str tab p /\
     es_data (set_es_table table tab) p = es_data tab p) ->
  (forall s q, m !! s = Some q -> m' !! s = Some q) ->
  (forall s q, m' !! s = Some q -> q ∈ seq \/
     exists d, es_data (set_es_table table tab) q = Some d /\ ed_len d = 0 /\ ed_refcount d = 0) ->
  es_inv (set_es_table table tab) seq m'.
Proof.
  intros Hinv Hrep Hseq Hm Hm'. constructor; try done; try apply Hinv.
  intros i p Hi. destruct (Hseq p) as [Hs Hd]; [by eapply list_elem_of_lookup_2|].
  apply (entry_at_same tab _ m); [done..|]. by apply (ei_entry _ _ _ Hinv).
Qed.

Lemma inv_entry tab seq m p :
  es_inv tab seq m -> p ∈ seq -> exists i, seq !! i = Some p /\ entry_at tab m i p.
Proof. intros Hinv [i Hi]%list_elem_of_lookup. exists i. split; [done|]. by apply (ei_entry _ _ _ Hinv). Qed.

(** What adding [str] establishes when it returns [idx]. *)
Record string_added (tab tab' : elf_strtab_hash) (seq seq' : list ptr) (m' : gmap cstring ptr)
    (str : cstring) (idx : Z) : Prop := {
  sa_inv : es_inv tab' seq' m';
  sa_asserts : es_asserts tab' = es_asserts tab;
  sa_str : forall q, q ∈ seq -> es_str tab' q = es_str tab q;
  sa_entry : exists i p r', idx = Z.of_nat i + 1 /\ seq' !! i = Some p /\ es_str tab' p = Some str /\
    ed_refcount <$> es_data tab' p = Some r' /\
    (forall q, q ∈ seq -> q <> p -> es_data tab' q = es_data tab q) /\
    ((seq' = seq /\ exists r, ed_refcount <$> es_data tab p = Some r /\ r' = u32 (r + 1)) \/
     (seq' = seq ++ [p] /\ i = length seq /\ r' = 1 /\ forall q, q ∈ seq -> es_str tab q <> Some str))
}.

(** The string of an entry in use. *)
Lemma inv_str_in tab seq m p s : es_inv tab seq m -> p ∈ seq -> es_str tab p = Some s -> m !! s = Some p.
Proof. intros Hinv Hp Hs. destruct (inv_entry _ _ _ _ Hinv Hp) as (i & _ & s' & r & Hs' & Hm & _). congruence. Qed.

Lemma add_present tab seq m p s i r :
  es_inv tab seq m -> seq !! i = Some p -> es_str tab p = Some s ->
  es_data tab p = Some (mkElfData (Z.of_nat (length s) + 1) r (EU_index (Z.of_nat i + 1))) ->
  exists tab', es_store p (mkElfData (Z.of_nat (length s) + 1) (u32 (r + 1)) (EU_index (Z.of_nat i + 1))) tab = Some tab' /\
    string_added tab tab' seq seq m s (Z.of_nat i + 1).
Proof.
  intros Hinv Hi Hs Hd.
  destruct (store_refcount_spec tab seq m p _ (u32 (r + 1)) Hinv ltac:(by eapply list_elem_of_lookup_2) Hd)
    as (tab' & Hst & Hinv' & Hsh & Hd'); [apply wrap_fits; lia|].
  exists tab'. split; [exact Hst|]. constructor; [done|apply Hsh|intros q _; apply Hsh|].
  exists i, p, (u32 (r + 1)). rewrite (ss_str _ _ Hsh), Hd', decide_True by done. split_and!; try done.
  - intros q _ Hq. by rewrite Hd', decide_False.
  - left. split; [done|]. exists r. by rewrite Hd.
Qed.

(** The append, whether the entry is new or was dropped. *)
Lemma add_appended tab table seq m m' p str d ok :
  let tab1 := set_es_table table tab in
  es_inv tab seq m -> represents table m' ->
  (forall a, a ∈ seq -> es_str tab1 a = es_str tab a /\ es_data tab1 a = es_data tab a) ->
  p ∉ seq -> es_str tab1 p = Some str -> str <> [] -> Z.of_nat (length str) + 1 < 2 ^ 31 ->
  es_data tab1 p = Some d -> m' !! str = Some p -> (forall q, q ∈ seq -> es_str tab q <> Some str) ->
  (forall s q, m !! s = Some q -> m' !! s = Some q) ->
  (forall s q, m' !! s = Some q -> q ∈ seq \/ q = p \/
     exists dq, es_data tab1 q = Some dq /\ ed_len dq = 0 /\ ed_refcount dq = 0) ->
  es_alloced tab < 2 ^ 58 -> ok = true \/ es_size tab < es_alloced tab ->
  exists tab', elf_strtab_append tab1 p str (with_refcount 1 d) ok = Some (Z.of_nat (length seq) + 1, tab') /\
    string_added tab tab' seq (seq ++ [p]) m' str (Z.of_nat (length seq) + 1).
Proof.
  intros tab1 Hinv Hrep Hseq Hp Hs Hne Hlen Hd Hms Hnew Hm Hm' Hmax Hok.
  destruct (append_spec tab table seq m m' p str d 1 ok) as (tab' & Happ & Hinv' & Has & Hstr & Hoth & Hdp);
    try done.
  exists tab'. split; [done|]. constructor; [done|done| |].
  - intros q Hq. rewrite Hstr. by apply Hseq.
  - exists (length seq), p, 1. rewrite Hstr, Hdp, lookup_app_r, Nat.sub_diag by lia. split_and!; try done.
    + intros q Hq Hqp. rewrite Hoth by done. by apply Hseq.
    + by right.
Qed.

Lemma keeps_same tab table p q :
  keeps_entries (Some p) (es_table tab) table -> q <> p ->
  es_str (set_es_table table tab) q = es_str tab q /\ es_data (set_es_table table tab) q = es_data tab q.
Proof.
  intros Hk Hq. assert (Some p <> Some q) as Hne by congruence. specialize (Hk q Hne).
  unfold es_str, es_data. cbn.
  destruct (ht_heap table !! q) as [e'|], (ht_heap (es_table tab) !! q) as [e|]; try done.
  cbn in Hk |- *. apply (inj Some) in Hk. apply he_strip_inv in Hk as (-> & _ & ->). done.
Qed.

(** A string the hash table did not have. *)
Lemma add_fresh tab table seq m p str ok :
  es_inv tab seq m -> m !! str = None -> str <> [] -> Z.of_nat (length str) + 1 < 2 ^ 31 ->
  es_alloced tab < 2 ^ 58 -> ok = true \/ es_size tab < es_alloced tab ->
  ht_heap (es_table tab) !! p = None -> represents table (<[str := p]> m) ->
  keeps_entries (Some p) (es_table tab) table ->
  he_strip <$> ht_heap table !! p = Some (str, (bfd_hash_hash str).1, elf_strtab_hash_init) ->
  exists tab', elf_strtab_append (set_es_table table tab) p str (with_refcount 1 elf_strtab_hash_init) ok =
      Some (Z.of_nat (length seq) + 1, tab') /\
    string_added tab tab' seq (seq ++ [p]) (<[str := p]> m) str (Z.of_nat (length seq) + 1).
Proof.
  intros Hinv Hms Hne Hlen Hmax Hok Hfresh Hrep Hkeep Hpe.
  assert (forall q, es_data tab q <> None -> q <> p) as Hdom
    by (intros q Hq ->; apply Hq; unfold es_data; by rewrite Hfresh).
  assert (forall q, q ∈ seq -> q <> p) as Hseqp.
  { intros q Hq. apply Hdom. destruct (inv_entry _ _ _ _ Hinv Hq) as (i & _ & s & r & _ & _ & _ & _ & _ & ->). done. }
  destruct (ht_heap table !! p) as [e|] eqn:He; [|done]. injection Hpe as Hes _ Hed.
  apply (add_appended tab table seq m _ p str elf_strtab_hash_init); try done.
  - intros q Hq. by apply (keeps_same tab table p), Hseqp.
  - intros Hp. by apply (Hseqp p Hp).
  - unfold es_str. cbn. rewrite He. cbn. by rewrite Hes.
  - unfold es_data. cbn. rewrite He. cbn. by rewrite Hed.
  - apply lookup_insert_eq.
  - intros q Hq Hs. pose proof (inv_str_in _ _ _ _ _ Hinv Hq Hs). congruence.
  - intros s q Hq. rewrite lookup_insert_ne; [done|]. intros <-. congruence.
  - intros s q. rewrite lookup_insert_Some. intros [[_ <-]|[_ Hq]]; [by right; left|].
    destruct (ei_hashed _ _ _ Hinv s q Hq) as [|(d & Hd & H)]; [by left|]. right. right. exists d.
    destruct (keeps_same tab table p q Hkeep) as [_ ->]; [|done]. apply Hdom. by rewrite Hd.
Qed.

(** ** Reference counts *)

Lemma addref_spec tab seq m i p d :
  es_inv tab seq m -> seq !! i = Some p -> es_data tab p = Some d -> Z.of_nat i + 1 < UINT64_MAX ->
  exists tab', bfd_elf_strtab_addref tab (Z.of_nat i + 1) = Some tab' /\ es_inv tab' seq m /\ same_shape tab tab' /\
    forall q, es_data tab' q = if decide (q = p) then Some (with_refcount (u32 (ed_refcount d + 1)) d) else es_data tab q.
Proof.
  intros Hinv Hi Hd Hmax. destruct (ei_array _ _ _ Hinv) as [rest Ha]. unfold bfd_elf_strtab_addref.
  pose proof (lookup_lt_Some _ _ _ Hi) as Hlt.
  rewrite (proj2 (Z.eqb_neq _ 0)), (proj2 (Z.eqb_neq _ UINT64_MAX)) by lia. cbn [orb].
  rewrite (bfd_assert_true (es_sec_size tab =? 0)) by (by rewrite (ei_sec_size _ _ _ Hinv)).
  rewrite bfd_assert_true by (rewrite (ei_size _ _ _ Hinv); apply Z.ltb_lt; lia).
  rewrite (inv_slot _ _ _ _ _ Ha Hi). cbn [mbind option_bind]. rewrite Hd. cbn [mbind option_bind].
  apply (store_refcount_spec tab seq m p d); [done|by eapply list_elem_of_lookup_2|done|apply wrap_fits; lia].
Qed.

Lemma delref_spec tab seq m i p d :
  es_inv tab seq m -> seq !! i = Some p -> es_data tab p = Some d -> Z.of_nat i + 1 < UINT64_MAX ->
  0 < ed_refcount d ->
  exists tab', bfd_elf_strtab_delref tab (Z.of_nat i + 1) = Some tab' /\ es_inv tab' seq m /\ same_shape tab tab' /\
    forall q, es_data tab' q = if decide (q = p) then Some (with_refcount (u32 (ed_refcount d - 1)) d) else es_data tab q.
Proof.
  intros Hinv Hi Hd Hmax Hrc. destruct (ei_array _ _ _ Hinv) as [rest Ha]. unfold bfd_elf_strtab_delref.
  pose proof (lookup_lt_Some _ _ _ Hi) as Hlt.
  rewrite (proj2 (Z.eqb_neq _ 0)), (proj2 (Z.eqb_neq _ UINT64_MAX)) by lia. cbn [orb].
  rewrite (bfd_assert_true (es_sec_size tab =? 0)) by (by rewrite (ei_sec_size _ _ _ Hinv)).
  rewrite (bfd_assert_true (_ <? es_size tab)) by (rewrite (ei_size _ _ _ Hinv); apply Z.ltb_lt; lia).
  rewrite (inv_slot _ _ _ _ _ Ha Hi). cbn [mbind option_bind]. rewrite Hd. cbn [mbind option_bind].
  rewrite bfd_assert_true by lia.
  apply (store_refcount_spec tab seq m p d); [done|by eapply list_elem_of_lookup_2|done|apply wrap_fits; lia].
Qed.

(** A loop that stores something in each of the entries [l2], which come
    after [l1]. *)
Lemma update_loop body f l1 l2 rest tab :
  es_array tab = None :: (Some <$> l1 ++ l2) ++ rest -> NoDup (l1 ++ l2) ->
  (forall j p, l2 !! j = Some p -> exists d, es_data tab p = Some d /\
     forall t, body (Z.of_nat (length l1 + j) + 1) p d tt t = (t ← es_store p (f p d) t; Some (tt, t))) ->
  exists tab', each_entry body (length l2) (Z.of_nat (length l1) + 1) tt tab = Some (tt, tab') /\
    updated f l2 tab tab'.
Proof.
  intros Ha Hnd Hbody.
  destruct (each_entry_rule body (l1 ++ l2) rest (fun i (_ : unit) t =>
    (length l1 <= i)%nat /\ updated f (take (i - length l1) l2) tab t) (length l2) (length l1) tt tab)
    as ([] & tab' & Hl & _ & Hu).
  - intros i p [] t Hi [Hle Hu]. split; [by rewrite (ss_array _ _ (proj1 Hu))|].
    rewrite lookup_app_r in Hi by done. set (j := (i - length l1)%nat) in *.
    destruct (Hbody j p Hi) as (d & Hd & Hb). apply NoDup_app in Hnd as (_ & _ & Hnd).
    destruct (take_S_fresh l2 j p Hnd Hi) as [Htake Hp].
    destruct (updated_snoc _ _ _ _ _ _ Hu Hp Hd) as (Hd1 & tab2 & Hst & Hu2).
    exists d, tt, tab2. split; [done|]. replace i with (length l1 + j)%nat by lia. rewrite Hb, Hst.
    split; [done|]. split; [lia|]. replace (S (length l1 + j) - length l1)%nat with (S j) by lia.
    by rewrite Htake.
  - rewrite length_app. lia.
  - split; [done|]. rewrite Nat.sub_diag. apply updated_nil.
  - exists tab'. split; [done|]. replace (length l1 + length l2 - length l1)%nat with (length l2) in Hu by lia.
    by rewrite firstn_all in Hu.
Qed.

(** The entries [seq] stay with reference counts [r], the entries [ext] after
    them are dropped. *)
Lemma inv_restored tab tab' seq ext m r :
  es_inv tab (seq ++ ext) m -> same_shape (set_es_size (Z.of_nat (length seq) + 1) tab) tab' ->
  (forall p, p ∈ seq -> fits 32 (r p)) ->
  (forall q, es_data tab' q =
     if decide (q ∈ seq) then with_refcount (r q) <$> es_data tab q
     else if decide (q ∈ ext) then (fun d => with_len 0 (with_refcount 0 d)) <$> es_data tab q
     else es_data tab q) ->
  es_inv tab' seq m.
Proof.
  intros Hinv Hs Hr Hd. destruct (ei_array _ _ _ Hinv) as [rest Ha].
  pose proof (ei_nodup _ _ _ Hinv) as Hnd. apply NoDup_app in Hnd as (Hnd & _ & _).
  assert (forall q, es_str tab' q = es_str tab q) as Hstr by apply Hs. constructor.
  - apply (ss_table _ _ Hs), Hinv.
  - exists ((Some <$> ext) ++ rest). rewrite (ss_array _ _ Hs). cbn. by rewrite Ha, fmap_app, app_assoc.
  - rewrite (ss_array _ _ Hs), (ss_alloced _ _ Hs). apply Hinv.
  - by rewrite (ss_size _ _ Hs).
  - done.
  - intros i p Hi. assert (p ∈ seq) as Hp by (by eapply list_elem_of_lookup_2).
    destruct (ei_entry _ _ _ Hinv i p) as (s & r0 & H1 & H2 & H3 & H4 & H5 & H6).
    { rewrite lookup_app_l; [done|]. by eapply lookup_lt_Some. }
    exists s, (r p). rewrite Hstr, Hd, decide_True, H6 by done. split; [done|]. split; [done|]. split; [done|].
    split; [done|]. by split; [apply Hr|].
  - intros s q Hq. rewrite Hd. destruct (decide (q ∈ seq)) as [|Hn]; [by left|right].
    destruct (ei_hashed _ _ _ Hinv s q Hq) as [Hin|Hdrop].
    + apply elem_of_app in Hin as [|Hin]; [done|]. rewrite decide_True by done.
      destruct (inv_entry _ _ _ q Hinv) as (i & _ & s0 & r0 & _ & _ & _ & _ & _ & ->); [apply elem_of_app; by right|].
      by eexists.
    + case_decide; [|done]. destruct Hdrop as (d & -> & _). by eexists.
  - rewrite (ss_sec_size _ _ Hs). apply Hinv.
Qed.

(** What [_bfd_elf_strtab_save] records. *)
Definition refcounts (tab : elf_strtab_hash) (seq : list ptr) : list Z :=
  (fun p => default 0 (ed_refcount <$> es_data tab p)) <$> seq.

Lemma save_spec tab seq m :
  es_inv tab seq m ->
  bfd_elf_strtab_save true tab =
  Some (Some (mkStrtabSave (Z.of_nat (length seq) + 1) (0 :: refcounts tab seq))).
Proof.
  intros Hinv. unfold bfd_elf_strtab_save. cbn [negb]. rewrite (inv_steps _ _ _ Hinv).
  destruct (ei_array _ _ _ Hinv) as [rest Ha].
  destruct (each_entry_all (fun _ _ d rs tab => Some (rs ++ [ed_refcount d], tab)) seq rest
    (fun i rs t => t = tab /\ rs = 0 :: refcounts tab (take i seq)) [0] tab) as (rs & t & -> & -> & ->); [|done|].
  - intros i p rs t Hi [-> ->]. split; [done|].
    destruct (ei_entry _ _ _ Hinv i p Hi) as (s & r & _ & _ & _ & _ & _ & Hd).
    eexists _, _, tab. split; [exact Hd|]. split; [done|]. split; [done|].
    rewrite (take_S_r _ _ _ Hi). unfold refcounts. rewrite fmap_app. cbn. by rewrite Hd.
  - cbn [mbind option_bind]. by rewrite firstn_all, (ei_size _ _ _ Hinv).
Qed.

Lemma clear_spec tab seq m :
  es_inv tab seq m ->
  exists tab', bfd_elf_strtab_clear_all_refs tab = Some tab' /\ es_inv tab' seq m /\ same_shape tab tab' /\
    forall p, p ∈ seq -> ed_refcount <$> es_data tab' p = Some 0.
Proof.
  intros Hinv. unfold bfd_elf_strtab_clear_all_refs. rewrite (inv_steps _ _ _ Hinv).
  destruct (ei_array _ _ _ Hinv) as [rest Ha].
  destruct (update_loop (fun _ p d _ tab => tab ← es_store p (with_refcount 0 d) tab; Some (tt, tab))
    (fun _ => with_refcount 0) [] seq rest tab Ha (ei_nodup _ _ _ Hinv)) as (tab' & Hl & Hs & Hd).
  { intros j p Hj. destruct (ei_entry _ _ _ Hinv j p Hj) as (s & r & _ & _ & _ & _ & _ & Hd). by eexists. }
  change (Z.of_nat (length []) + 1) with 1 in Hl. rewrite Hl. exists tab'.
  split; [done|]. split; [|split; [done|]].
  - apply (inv_restored tab tab' seq [] m (fun _ => 0)); [by rewrite app_nil_r| |done|].
    + rewrite <- (ei_size _ _ _ Hinv). by destruct tab.
    + intros q. rewrite Hd. case_decide; [done|]. by rewrite decide_False by apply not_elem_of_nil.
  - intros p Hp. rewrite Hd, decide_True by done.
    destruct (inv_entry _ _ _ _ Hinv Hp) as (i & _ & s & r & _ & _ & _ & _ & _ & ->). done.
Qed.

(** The two loops of [_bfd_elf_strtab_restore]. *)
Lemma restore_loops tab seq ext m r sv :
  es_inv tab (seq ++ ext) m -> (forall i p, seq !! i = Some p -> sv_refcount sv !! S i = Some (r p)) ->
  let tab0 := set_es_size (Z.of_nat (length seq) + 1) tab in
  exists tab1 tab2,
    each_entry (restore_body (Some sv)) (length seq) 1 tt tab0 = Some (tt, tab1) /\
    each_entry drop_body (length ext) (Z.of_nat (length seq) + 1) tt tab1 = Some (tt, tab2) /\
    same_shape tab0 tab2 /\
    forall q, es_data tab2 q =
      if decide (q ∈ seq) then with_refcount (r q) <$> es_data tab q
      else if decide (q ∈ ext) then (fun d => with_len 0 (with_refcount 0 d)) <$> es_data tab q
      else es_data tab q.
Proof.
  intros Hinv Hr tab0. destruct (ei_array _ _ _ Hinv) as [rest Ha]. pose proof (ei_nodup _ _ _ Hinv) as Hnd.
  assert (forall q, q ∈ seq ++ ext -> is_Some (es_data tab q)) as Hdom.
  { intros q Hq. destruct (inv_entry _ _ _ _ Hinv Hq) as (i & _ & s & r0 & _ & _ & _ & _ & _ & ->). by eexists. }
  pose proof Hnd as (Hnd1 & Hdis & _)%NoDup_app.
  destruct (update_loop (restore_body (Some sv)) (fun p => with_refcount (r p)) [] seq ((Some <$> ext) ++ rest) tab0) as (tab1 & Hl1 & Hu1); [|done| |].
  { cbn. by rewrite Ha, fmap_app, app_assoc. }
  { intros j p Hj. destruct (Hdom p) as [d Hd]; [apply elem_of_app; left; by eapply list_elem_of_lookup_2|].
    exists d. split; [done|]. intros t. unfold restore_body. cbn [length Nat.add mbind option_bind].
    replace (Z.to_nat _) with (S j) by lia. by rewrite (Hr j p Hj). }
  pose proof Hu1 as [Hs1 Hd1].
  destruct (update_loop drop_body (fun _ d => with_len 0 (with_refcount 0 d)) seq ext rest tab1) as (tab2 & Hl2 & [Hs2 Hd2]); [|done| |].
  { by rewrite (ss_array _ _ Hs1). }
  { intros j p Hj. assert (p ∈ ext) as Hp by (by eapply list_elem_of_lookup_2).
    destruct (Hdom p) as [d Hd]; [apply elem_of_app; by right|].
    exists d. split; [|done]. rewrite Hd1, decide_False; [exact Hd|]. intros Hq. by apply (Hdis p). }
  exists tab1, tab2. split_and!; [exact Hl1|exact Hl2|by etransitivity|].
  intros q. rewrite Hd2, Hd1. change (es_data tab0 q) with (es_data tab q).
  destruct (decide (q ∈ seq)) as [Hq|Hq]; [|done]. rewrite decide_False; [done|]. by apply Hdis.
Qed.

(** Adding a string that the hash table has. *)
Lemma add_hit tab seq m str p copy ok_realloc :
  es_inv tab seq m -> str <> [] -> Z.of_nat (length str) + 1 < 2 ^ 31 ->
  ht_frozen (es_table tab) = true \/ ht_size (es_table tab) < 4294967291 ->
  es_alloced tab < 2 ^ 58 -> ok_realloc = true \/ es_size tab < es_alloced tab -> m !! str = Some p ->
  exists idx tab' seq', bfd_elf_strtab_add tab str copy ok_realloc = Some (idx, tab') /\
    string_added tab tab' seq seq' m str idx.
Proof.
  intros Hinv Hne Hlen Hgrow Hmax Hok Hms. unfold bfd_elf_strtab_add.
  destruct str as [|c str']; [done|]. set (str := c :: str') in *.
  rewrite bfd_assert_true by (by rewrite (ei_sec_size _ _ _ Hinv)).
  pose proof (ei_table _ _ _ Hinv) as Hrep.
  destruct (hash_lookup_spec elf_strtab_hash_init (es_table tab) m str true copy Hrep Hgrow)
    as (entry & table & -> & Hspec). cbn [mbind option_bind]. rewrite Hms in Hspec. destruct Hspec as [-> ->].
  assert (set_es_table (es_table tab) tab = tab) as Htab by (by destruct tab). rewrite Htab.
  destruct (represents_entry _ _ _ _ Hrep Hms) as (e & He & Hes).
  assert (es_str tab p = Some str) as Hs by (unfold es_str; rewrite He; cbn; by rewrite Hes).
  destruct (decide (p ∈ seq)) as [Hin|Hout].
  - destruct (inv_entry _ _ _ _ Hinv Hin) as (i & Hi & s & r & Hs' & _ & _ & _ & _ & Hd).
    rewrite Hs in Hs'. injection Hs' as <-. rewrite Hd. cbn [mbind option_bind]. unfold with_refcount.
    cbn [ed_len ed_refcount ed_u]. rewrite (proj2 (Z.eqb_neq _ _)) by lia.
    destruct (add_present tab seq m p str i r Hinv Hi Hs Hd) as (tab' & -> & Hadd).
    by exists (Z.of_nat i + 1), tab', seq.
  - destruct (ei_hashed _ _ _ Hinv _ _ Hms) as [|(d & Hd & Hlen0 & Hrc0)]; [done|].
    rewrite Hd. cbn [mbind option_bind]. rewrite Hrc0. cbn [with_refcount ed_len]. rewrite Hlen0.
    change (u32 (0 + 1)) with 1. cbn [Z.eqb].
    destruct (add_appended tab (es_table tab) seq m m p str d ok_realloc) as (tab' & Happ & Hadd);
      rewrite ?Htab in *; try done; [| |by eexists _, tab', (seq ++ [p])].
    + intros q Hq Hsq. apply Hout. pose proof (inv_str_in _ _ _ _ _ Hinv Hq Hsq). congruence.
    + intros s q Hq. destruct (ei_hashed _ _ _ Hinv s q Hq); auto.
Qed.

(** Adding a string that it does not have. *)
Lemma add_miss tab seq m str copy ok_realloc :
  es_inv tab seq m -> str <> [] -> Z.of_nat (length str) + 1 < 2 ^ 31 ->
  ht_frozen (es_table tab) = true \/ ht_size (es_table tab) < 4294967291 ->
  es_alloced tab < 2 ^ 58 -> ok_realloc = true \/ es_size tab < es_alloced tab -> m !! str = None ->
  exists idx tab', bfd_elf_strtab_add tab str copy ok_realloc = Some (idx, tab') /\
    ((idx = UINT64_MAX /\ false ∈ ht_oracle (es_table tab) /\ es_inv tab' seq m /\
      forall q, es_str tab' q = es_str tab q /\ es_data tab' q = es_data tab q) \/
     exists p, string_added tab tab' seq (seq ++ [p]) (<[str := p]> m) str idx).
Proof.
  intros Hinv Hne Hlen Hgrow Hmax Hok Hms. unfold bfd_elf_strtab_add.
  destruct str as [|c str']; [done|]. set (str := c :: str') in *.
  rewrite bfd_assert_true by (by rewrite (ei_sec_size _ _ _ Hinv)).
  pose proof (ei_table _ _ _ Hinv) as Hrep.
  destruct (hash_lookup_spec elf_strtab_hash_init (es_table tab) m str true copy Hrep Hgrow)
    as (entry & table & -> & Hspec). cbn [mbind option_bind]. rewrite Hms in Hspec. destruct entry as [p|].
  - destruct Hspec as (Hfresh & Hrep' & Hkeep & Hpe).
    assert (es_data (set_es_table table tab) p = Some elf_strtab_hash_init) as ->.
    { unfold es_data. cbn. destruct (ht_heap table !! p) as [e|]; [|done]. injection Hpe as _ _ Hd. cbn. by rewrite Hd. }
    cbn [mbind option_bind]. change (ed_len (with_refcount _ _)) with 0.
    change (u32 (ed_refcount elf_strtab_hash_init + 1)) with 1. cbn [Z.eqb].
    destruct (add_fresh tab table seq m p str ok_realloc) as (tab' & Happ & Hadd); try done.
    eexists _, tab'. split; [exact Happ|]. right. by exists p.
  - destruct Hspec as (Hno & Hrep' & Hheap). eexists _, _. split; [done|]. left.
    assert (forall q, es_str (set_es_table table tab) q = es_str tab q /\
      es_data (set_es_table table tab) q = es_data tab q) as Hsame
      by (intros q; unfold es_str, es_data; cbn; by rewrite Hheap).
    split_and!; [done|done| |done].
    apply (inv_table tab seq m); [done..|]. intros s q Hq. destruct (Hsame q) as [_ ->].
    by apply (ei_hashed _ _ _ Hinv s).
Qed.

(** A new table is empty. *)
Lemma elf_init_inv ok1 ok2 oracle ok3 size tab :
  0 < size < 2 ^ 32 -> bfd_elf_strtab_init ok1 ok2 oracle ok3 size = Some tab -> es_inv tab [] ∅.
Proof.
  intros Hsize. unfold bfd_elf_strtab_init. destruct ok1; [|done]. cbn [negb].
  destruct (bfd_hash_table_init_n ok2 oracle 40 size) as [table|] eqn:Ht; [|done].
  cbn [mbind option_bind]. destruct ok3; [|done]. intros [= <-].
  destruct (hash_init_represents _ _ _ _ _ Hsize Ht) as [Hrep _].
  constructor; try done; [by eexists|by constructor].
Qed.

(** ** Properties *)

(** [_bfd_elf_strtab_add] gives a string that is in use its index back
    and counts one more reference; any other string gets the next index with
    one reference; no other entry changes and no assertion reports.  When an
    allocation of the hash table fails it returns -1 and the table is as it
    was. *)
Theorem elf_strtab_add_correct tab seq m str copy ok_realloc :
  es_inv tab seq m -> str <> [] -> Z.of_nat (length str) + 1 < 2 ^ 31 ->
  ht_frozen (es_table tab) = true \/ ht_size (es_table tab) < 4294967291 ->
  es_alloced tab < 2 ^ 58 -> ok_realloc = true \/ es_size tab < es_alloced tab ->
  exists idx tab', bfd_elf_strtab_add tab str copy ok_realloc = Some (idx, tab') /\
    ((idx = UINT64_MAX /\ false ∈ ht_oracle (es_table tab) /\ es_inv tab' seq m /\
      forall q, es_str tab' q = es_str tab q /\ es_data tab' q = es_data tab q) \/
     exists seq' m', string_added tab tab' seq seq' m' str idx).
Proof.
  intros Hinv Hne Hlen Hgrow Hmax Hok. destruct (m !! str) as [p|] eqn:Hms.
  - destruct (add_hit tab seq m str p copy ok_realloc) as (idx & tab' & seq' & Hadd & Hsa); try done.
    exists idx, tab'. split; [done|]. right. by exists seq', m.
  - destruct (add_miss tab seq m str copy ok_realloc) as (idx & tab' & Hadd & [Hfail|[p Hsa]]); try done;
      exists idx, tab'; (split; [done|]); [by left|]. right. by eexists _, _.
Qed.

(** C37: [_bfd_elf_strtab_restore] undoes what happened since
    [_bfd_elf_strtab_save]: the later entries leave the table, the earlier
    ones get their reference counts back, and a dropped string can be added
    again; no assertion reports. *)
Theorem elf_strtab_restore_correct tab tab' seq ext m m' sv :
  es_inv tab seq m -> es_inv tab' (seq ++ ext) m' -> bfd_elf_strtab_save true tab = Some (Some sv) ->
  exists tab2, bfd_elf_strtab_restore tab' (Some sv) = Some tab2 /\ es_inv tab2 seq m' /\
    es_asserts tab2 = es_asserts tab' /\ (forall p, es_str tab2 p = es_str tab' p) /\
    (forall p, p ∈ seq -> ed_refcount <$> es_data tab2 p = ed_refcount <$> es_data tab p).
Proof.
  intros Hinv Hinv' Hsave. rewrite (save_spec _ _ _ Hinv) in Hsave. injection Hsave as <-.
  set (r := fun p => default 0 (ed_refcount <$> es_data tab p)).
  destruct (restore_loops tab' seq ext m' r (mkStrtabSave (Z.of_nat (length seq) + 1) (0 :: refcounts tab seq)) Hinv')
    as (tab1 & tab2 & Hl1 & Hl2 & Hs & Hd).
  { intros i p Hi. cbn [sv_refcount]. change ((0 :: refcounts tab seq) !! S i) with (refcounts tab seq !! i).
    unfold refcounts. by rewrite list_lookup_fmap, Hi. }
  unfold bfd_elf_strtab_restore. cbn [sv_size].
  pose proof (ei_size _ _ _ Hinv') as Hsz. rewrite length_app in Hsz.
  rewrite (bfd_assert_true (es_sec_size tab' =? 0)) by (by rewrite (ei_sec_size _ _ _ Hinv')).
  rewrite bfd_assert_true by (apply Z.leb_le; lia).
  replace (Z.to_nat (Z.of_nat (length seq) + 1 - 1)) with (length seq) by lia.
  rewrite Hl1. cbn [mbind option_bind].
  replace (Z.max 1 (Z.of_nat (length seq) + 1)) with (Z.of_nat (length seq) + 1) by lia.
  replace (Z.to_nat _) with (length ext) by lia. rewrite Hl2.
  exists tab2. split; [done|]. split_and!.
  - apply (inv_restored tab' tab2 seq ext m' r); try done. intros p Hp. subst r.
    destruct (inv_entry _ _ _ _ Hinv Hp) as (i & _ & s & r0 & _ & _ & _ & _ & Hr0 & Hdp). cbn. by rewrite Hdp.
  - apply (ss_asserts _ _ Hs).
  - intros p. apply (ss_str _ _ Hs).
  - intros p Hp. rewrite Hd, decide_True by done. subst r.
    destruct (inv_entry _ _ _ _ Hinv Hp) as (i & _ & s & r0 & _ & _ & _ & _ & _ & Hdp).
    destruct (inv_entry _ _ _ p Hinv') as (j & _ & s' & r' & _ & _ & _ & _ & _ & Hdp'); [apply elem_of_app; by left|].
    rewrite Hdp, Hdp'. done.
Qed.

(** ** Witnesses *)

Definition elf_sample_0 : elf_strtab_hash :=
  mkElfStrtab (mkHashTable (replicate 31 None) ∅ 0 [] 31 0 40 false) 1 64 0 (replicate 64 None) 0.

Definition elf_sample_add (str : cstring) (tab : elf_strtab_hash) : elf_strtab_hash :=
  match bfd_elf_strtab_add tab str false true with Some (_, tab) => tab | None => tab end.

(** A table with "bc" and "c". *)
Definition elf_sample : elf_strtab_hash := elf_sample_add [99] (elf_sample_add [98; 99] elf_sample_0).

Lemma elf_sample_0_inv : es_inv elf_sample_0 [] ∅.
Proof. apply (elf_init_inv true true [] true 31); [lia|reflexivity]. Qed.

(** Adding a first string to a table that has none of it. *)
Lemma elf_sample_step tab seq m str :
  es_inv tab seq m -> str <> [] -> Z.of_nat (length str) + 1 < 2 ^ 31 -> ht_size (es_table tab) < 4294967291 ->
  es_alloced tab < 2 ^ 58 -> ht_oracle (es_table tab) = [] -> m !! str = None ->
  exists p, es_inv (elf_sample_add str tab) (seq ++ [p]) (<[str := p]> m).
Proof.
  intros Hinv Hne Hlen Hsize Hmax Hor Hms.
  destruct (add_miss tab seq m str false true) as (idx & tab' & Hadd & [(_ & Hno & _)|[p Hsa]]); try done; auto.
  - rewrite Hor in Hno. by apply elem_of_nil in Hno.
  - exists p. unfold elf_sample_add. rewrite Hadd. apply Hsa.
Qed.

Lemma elf_sample_inv : exists m, es_inv elf_sample [0%nat; 1%nat] m.
Proof.
  destruct (elf_sample_step elf_sample_0 [] ∅ [98; 99] elf_sample_0_inv) as [p Hp]; try done.
  destruct (elf_sample_step _ _ _ [99] Hp) as [q Hq]; try done.
  exists (<[[99] := q]> (<[[98; 99] := p]> ∅)). fold elf_sample in Hq. cbn [app] in Hq.
  destruct (ei_array _ _ _ Hq) as [rest Ha].
  assert (take 3 (es_array elf_sample) = [None; Some 0%nat; Some 1%nat]) as Hs by (vm_compute; reflexivity).
  rewrite Ha in Hs. injection Hs as -> ->. exact Hq.
Qed.

Lemma elf_strtab_add_correct_witness :
  exists tab' seq' m', bfd_elf_strtab_add elf_sample_0 [98; 99] true true = Some (1, tab') /\
    string_added elf_sample_0 tab' [] seq' m' [98; 99] 1.
Proof.
  destruct (elf_strtab_add_correct elf_sample_0 [] ∅ [98; 99] true true elf_sample_0_inv)
    as (idx & tab' & Hadd & Hspec); [discriminate|simpl; lia|right; simpl; lia|simpl; lia|by left|].
  assert (fst <$> bfd_elf_strtab_add elf_sample_0 [98; 99] true true = Some 1) as Hidx
    by (vm_compute; reflexivity).
  rewrite Hadd in Hidx. injection Hidx as ->.
  destruct Hspec as [(Hbad & _)|(seq' & m' & Hsa)]; [discriminate Hbad|].
  exists tab', seq', m'. split; [exact Hadd|exact Hsa].
Defined.

(** Saved when empty, restored after two additions. *)
Lemma elf_strtab_restore_correct_witness :
  exists tab2 m, bfd_elf_strtab_restore elf_sample (Some (mkStrtabSave 1 [0])) = Some tab2 /\ es_inv tab2 [] m.
Proof.
  destruct elf_sample_inv as [m Hinv].
  destruct (elf_strtab_restore_correct elf_sample_0 elf_sample [] [0%nat; 1%nat] ∅ m (mkStrtabSave 1 [0])
    elf_sample_0_inv Hinv) as (tab2 & Hr & Hi & _); [reflexivity|].
  exists tab2, m. split; [exact Hr|exact Hi].
Defined.
