(* ===== verification/ElfStrtabFinal.v ===== *)
(** Finalizing ELF string tables: elf-strtab.c's sorting of the referenced
    strings by their reversed bytes, the merging of those that end another
    one, the positions it assigns, and what the finished table writes and
    answers. *)

From S2P Require Import Prelude StableSort HashTable HashTableSpec ElfStrtab.

(** *** Collecting the referenced entries *)

Definition is_referenced (tab : elf_strtab_hash) (p : ptr) : bool :=
  match es_data tab p with Some d => negb (ed_refcount d =? 0) | None => false end.

Definition collected (d : elf_strtab_data) : elf_strtab_data :=
  with_len (if ed_refcount d =? 0 then 0 else ed_len d - 1) d.

Lemma collect_spec tab seq m :
  es_inv tab seq m ->
  exists tab', each_entry collect_body (es_steps tab) 1 [] tab =
      Some (filter (fun p => is_referenced tab p = true) seq, tab') /\
    updated (fun _ => collected) seq tab tab'.
Proof.
  intros Hinv. rewrite (inv_steps _ _ _ Hinv). destruct (ei_array _ _ _ Hinv) as [rest Ha].
  destruct (each_entry_all collect_body seq rest
    (fun i array tab' => array = filter (fun p => is_referenced tab p = true) (take i seq) /\
       updated (fun _ => collected) (take i seq) tab tab') [] tab)
    as (array & tab' & Hl & Harr & Hu); [|by split; [|apply updated_nil]|].
  - intros i p s tab1 Hi [-> Hu]. split; [by rewrite (ss_array _ _ (proj1 Hu))|].
    destruct (ei_entry _ _ _ Hinv i p Hi) as (str & r & Hstr & Hm & Hne & Hlen & Hr & Hd).
    destruct (take_S_fresh _ _ _ (ei_nodup _ _ _ Hinv) Hi) as [Htake Hp].
    destruct (updated_snoc _ _ _ _ _ _ Hu Hp Hd) as (Hd1 & tab2 & Hst & Hu2).
    assert (is_referenced tab p = negb (r =? 0)) as Href by (unfold is_referenced; by rewrite Hd).
    eexists _, (filter (fun p => is_referenced tab p = true) (take (S i) seq)), tab2. split; [exact Hd1|].
    rewrite Htake, filter_app, filter_cons, filter_nil, Href.
    unfold collect_body. cbn [ed_refcount ed_len]. unfold collected in Hst. cbn [ed_refcount ed_len] in Hst.
    destruct (r =? 0); cbn [negb] in *.
    + rewrite Hst, decide_False, app_nil_r by done. done.
    + unfold int_op. replace (_ && _) with true by lia. cbn [mbind option_bind].
      rewrite Hst, decide_True by done. done.
  - rewrite firstn_all in *. exists tab'. by rewrite Hl, Harr.
Qed.

(** *** The order of the reversed strings *)

Fixpoint revlt (l1 l2 : list Z) : bool :=
  match l1, l2 with
  | _, [] => false
  | [], _ :: _ => true
  | x :: l1, y :: l2 => (x <? y) || ((x =? y) && revlt l1 l2)
  end.

#[export] Instance revlt_swo {A} (key : A -> list Z) : StrictWeakOrder (fun a b => revlt (key a) (key b)).
Proof.
  enough (StrictWeakOrder revlt) as [].
  { split; eauto. }
  split.
  - intros x. induction x as [|a x IH]; [done|]. cbn. rewrite IH, Z.ltb_irrefl. by rewrite andb_false_r.
  - intros x. induction x as [|a x IH]; intros [|b y] [|c z]; cbn; try done.
    destruct (Z.ltb_spec a b), (Z.ltb_spec b c), (Z.ltb_spec a c), (Z.eqb_spec a b), (Z.eqb_spec b c),
      (Z.eqb_spec a c); cbn; try done; try lia. apply IH.
  - intros x. induction x as [|a x IH]; intros [|b y] [|c z]; cbn; try done.
    destruct (Z.ltb_spec a b), (Z.ltb_spec b c), (Z.ltb_spec a c), (Z.eqb_spec a b), (Z.eqb_spec b c),
      (Z.eqb_spec a c); cbn; try done; try lia. apply IH.
Qed.

Lemma revlt_total x y : revlt x y = false -> revlt y x = false -> x = y.
Proof.
  revert y. induction x as [|a x IH]; intros [|b y]; cbn; try done.
  destruct (Z.ltb_spec a b), (Z.ltb_spec b a), (Z.eqb_spec a b), (Z.eqb_spec b a); cbn; try done; try lia.
  subst. intros H1 H2. f_equal. by apply IH.
Qed.

(** Between a list and one it begins, everything begins with it. *)
Lemma revlt_prefix_between x y z :
  x `prefix_of` z -> x = y \/ revlt x y = true -> revlt y z = true -> x `prefix_of` y.
Proof.
  revert y z. induction x as [|a x IH]; intros y z; [intros; apply prefix_nil|].
  intros [k ->]. destruct y as [|b y]; cbn; [intros [|]; done|].
  destruct (Z.ltb_spec a b), (Z.ltb_spec b a), (Z.eqb_spec a b), (Z.eqb_spec b a); cbn; try done; try lia.
  - intros [[= ? ?]|]; [lia|done].
  - intros Hxy Hyz. subst b. apply prefix_cons. apply (IH y (x ++ k)); [by exists k| |done].
    destruct Hxy as [[= ?]|]; auto.
Qed.

Lemma revlt_prefix x y : x `prefix_of` y -> revlt y x = false.
Proof.
  intros [k ->]. induction x as [|a x IH]; cbn; [by destruct k|].
  by rewrite Z.ltb_irrefl, Z.eqb_refl, IH.
Qed.

(** *** [strrevcmp] *)

Lemma c_byte_lookup s i b : s !! i = Some b -> c_byte s (Z.of_nat i) = Some b.
Proof.
  intros Hi. unfold c_byte. rewrite (proj2 (Z.leb_le _ _)), Nat2Z.id by lia.
  rewrite lookup_app_l; [done|by eapply lookup_lt_Some].
Qed.

Lemma strrevcmp_loop_spec sA sB i j last :
  (i <= length sA)%nat -> (j <= length sB)%nat -> (last < 0 <-> (i < j)%nat) ->
  exists z, strrevcmp_loop (i `min` j) sA sB (Z.of_nat i - 1) (Z.of_nat j - 1) last = Some z /\
    (z <? 0) = revlt (reverse (take i sA)) (reverse (take j sB)).
Proof.
  revert j. induction i as [|i IH]; intros j Hi Hj Hlast.
  - exists last. split; [done|]. destruct j as [|j]; cbn [take]; rewrite ?reverse_nil; cbn [revlt].
    + apply Z.ltb_ge. lia.
    + destruct (lookup_lt_is_Some_2 sB j ltac:(lia)) as [b Hb]. rewrite (take_S_r _ _ _ Hb), reverse_snoc.
      cbn [revlt]. apply Z.ltb_lt. lia.
  - destruct (lookup_lt_is_Some_2 sA i ltac:(lia)) as [a Ha]. rewrite (take_S_r _ _ _ Ha), reverse_snoc.
    destruct j as [|j].
    { exists last. split; [done|]. cbn. apply Z.ltb_ge. lia. }
    destruct (lookup_lt_is_Some_2 sB j ltac:(lia)) as [b Hb]. rewrite (take_S_r _ _ _ Hb), reverse_snoc.
    cbn [Nat.min strrevcmp_loop revlt].
    replace (Z.of_nat (S i) - 1) with (Z.of_nat i) by lia. replace (Z.of_nat (S j) - 1) with (Z.of_nat j) by lia.
    rewrite (c_byte_lookup _ _ _ Ha), (c_byte_lookup _ _ _ Hb). cbn [mbind option_bind].
    destruct (Z.eqb_spec a b) as [->|Hab]; cbn [negb].
    + destruct (IH j ltac:(lia) ltac:(lia) ltac:(lia)) as (z & Hz & Hlt). exists z. split; [done|].
      by rewrite Hlt, Z.ltb_irrefl.
    + exists (a - b). split; [done|]. cbn [andb]. rewrite orb_false_r.
      destruct (Z.ltb_spec (a - b) 0), (Z.ltb_spec a b); lia || done.
Qed.

Lemma strrevcmp_spec (A B : elf_strtab_hash_entry) :
  ed_len (he_data A) = Z.of_nat (length (he_string A)) -> Z.of_nat (length (he_string A)) < 2 ^ 31 ->
  ed_len (he_data B) = Z.of_nat (length (he_string B)) -> Z.of_nat (length (he_string B)) < 2 ^ 31 ->
  exists z, strrevcmp A B = Some z /\ (z <? 0) = revlt (reverse (he_string A)) (reverse (he_string B)).
Proof.
  intros HA HA31 HB HB31. unfold strrevcmp. rewrite HA, HB, !(wrap_small 32) by (unfold fits; lia).
  set (i := length (he_string A)) in *. set (j := length (he_string B)) in *.
  rewrite (sext_small 32) by (first [lia|split_ifs; lia]).
  replace (if Z.of_nat i <? Z.of_nat j then Z.of_nat i else Z.of_nat j) with (Z.of_nat (i `min` j))
    by (destruct (Z.ltb_spec (Z.of_nat i) (Z.of_nat j)); lia).
  rewrite (proj2 (Z.ltb_ge _ _)), Nat2Z.id, sext_small by lia.
  destruct (strrevcmp_loop_spec (he_string A) (he_string B) i j (Z.of_nat i - Z.of_nat j))
    as (z & Hz & Hlt); [done|done|lia|]. exists z. split; [done|].
  by rewrite Hlt, !take_ge by done.
Qed.

(** *** Sorting *)

Lemma entry_of tab p s d :
  es_str tab p = Some s -> es_data tab p = Some d ->
  exists e, ht_heap (es_table tab) !! p = Some e /\ he_string e = s /\ he_data e = d.
Proof.
  unfold es_str, es_data. destruct (ht_heap (es_table tab) !! p) as [e|]; [|done].
  cbn. intros [= <-] [= <-]. by exists e.
Qed.

(** [p] has a string and data whose length does not count the null byte. *)
Definition bare (tab : elf_strtab_hash) (p : ptr) : Prop :=
  exists s d, es_str tab p = Some s /\ es_data tab p = Some d /\
    Z.of_nat (length s) + 1 < 2 ^ 31 /\ ed_len d = Z.of_nat (length s).

Definition skey (tab : elf_strtab_hash) (p : ptr) : list Z := reverse (default [] (es_str tab p)).

Lemma strrev_lt_key tab p q :
  bare tab p -> bare tab q ->
  is_Some (strrev_cmp_at tab p q) /\ strrev_lt tab p q = revlt (skey tab p) (skey tab q).
Proof.
  intros (s & d & Hs & Hd & Hl & Hlen) (s' & d' & Hs' & Hd' & Hl' & Hlen').
  destruct (entry_of _ _ _ _ Hs Hd) as (e & He & <- & <-).
  destruct (entry_of _ _ _ _ Hs' Hd') as (e' & He' & <- & <-).
  destruct (strrevcmp_spec e e') as (z & Hz & Hlt); [done|lia|done|lia|].
  unfold strrev_lt, strrev_cmp_at, skey. rewrite He, He'. cbn [mbind option_bind]. rewrite Hz, Hs, Hs'.
  split; [by eexists|exact Hlt].
Qed.

(** Entries with different strings. *)
Definition strings_differ (tab : elf_strtab_hash) (l : list ptr) : Prop :=
  forall p q, p ∈ l -> q ∈ l -> es_str tab p = es_str tab q -> p = q.

Definition key_lt (tab : elf_strtab_hash) (p q : ptr) : Prop := revlt (skey tab p) (skey tab q) = true.

Lemma sorted_strict tab l :
  NoDup l -> strings_differ tab l -> (forall p, p ∈ l -> is_Some (es_str tab p)) ->
  StronglySorted (le_of (fun a b => revlt (skey tab a) (skey tab b))) l ->
  StronglySorted (key_lt tab) l.
Proof.
  intros Hnd Hdiff Hstr Hs. induction Hs as [|p l Hs IH Hp]; [constructor|].
  apply NoDup_cons in Hnd as [Hpl Hnd]. constructor.
  - apply IH; [done| |].
    + intros a b Ha Hb. apply Hdiff; by right.
    + intros a Ha. apply Hstr. by right.
  - rewrite Forall_forall in Hp |- *. intros q Hq. specialize (Hp q Hq). unfold key_lt.
    destruct (revlt (skey tab p) (skey tab q)) eqn:Hlt; [done|]. exfalso. apply Hpl.
    pose proof (revlt_total _ _ Hlt Hp) as Hkey. unfold skey in Hkey.
    apply (inj reverse) in Hkey. replace p with q; [done|]. apply Hdiff; [by right|by left|].
    destruct (Hstr p ltac:(by left)) as [s Hsp], (Hstr q ltac:(by right)) as [s' Hsq].
    rewrite Hsp, Hsq in *. cbn in Hkey. by subst.
Qed.

Lemma qsort_spec tab l :
  NoDup l -> (forall p, p ∈ l -> bare tab p) -> strings_differ tab l ->
  exists sorted, qsort_strrevcmp tab l = Some sorted /\ sorted ≡ₚ l /\ StronglySorted (key_lt tab) sorted.
Proof.
  intros Hnd Hbare Hdiff. unfold qsort_strrevcmp.
  assert (forallb (fun p => forallb (fun q => bool_decide (is_Some (strrev_cmp_at tab p q))) l) l = true) as ->.
  { rewrite forallb_forall. intros p Hp. rewrite forallb_forall. intros q Hq.
    rewrite <- list_elem_of_In in Hp, Hq. apply bool_decide_eq_true.
    by destruct (strrev_lt_key tab p q (Hbare p Hp) (Hbare q Hq)). }
  rewrite (stable_sort_ext_on _ (fun a b => revlt (skey tab a) (skey tab b))).
  2: { intros p q Hp Hq. by destruct (strrev_lt_key tab p q (Hbare p Hp) (Hbare q Hq)). }
  eexists. split; [done|]. split; [apply stable_sort_perm|].
  apply sorted_strict; rewrite ?stable_sort_perm; try done.
  - intros p q. rewrite !stable_sort_elem_of. apply Hdiff.
  - intros p. rewrite stable_sort_elem_of. intros Hp. destruct (Hbare p Hp) as (s & d & Hs & _). by exists s.
  - apply stable_sort_sorted. apply _.
Qed.

(** *** Merging *)

Lemma c_bytes_spec s off n :
  0 <= off -> 0 <= n -> off + n <= Z.of_nat (length s) ->
  c_bytes s off n = Some (take (Z.to_nat n) (drop (Z.to_nat off) s)).
Proof.
  intros H1 H2 H3. unfold c_bytes. replace (_ && _) with true by lia.
  rewrite drop_app_le by lia. rewrite take_app_le; [done|]. rewrite length_drop. lia.
Qed.

Lemma is_suffix_spec (A B : elf_strtab_hash_entry) :
  ed_len (he_data A) = Z.of_nat (length (he_string A)) + 1 -> Z.of_nat (length (he_string A)) + 1 < 2 ^ 31 ->
  ed_len (he_data B) = Z.of_nat (length (he_string B)) + 1 -> he_string A <> he_string B ->
  is_suffix A B = Some (bool_decide (he_string B `suffix_of` he_string A)).
Proof.
  intros HA HA31 HB Hne. unfold is_suffix. rewrite HA, HB.
  destruct (Z.leb_spec (Z.of_nat (length (he_string A)) + 1) (Z.of_nat (length (he_string B)) + 1)) as [Hle|Hlt].
  - rewrite bool_decide_eq_false_2; [done|]. intros [k Hk]. apply Hne.
    destruct k as [|x k]; [by rewrite Hk|]. rewrite Hk in Hle. cbn in Hle. rewrite length_app in Hle. lia.
  - unfold int_op. replace (_ && _) with true by lia. cbn [mbind option_bind].
    replace (_ && _) with true by lia. cbn [mbind option_bind].
    rewrite !c_bytes_spec by lia. cbn [mbind option_bind]. f_equal.
    apply bool_decide_ext. rewrite drop_0, !take_ge by (rewrite ?length_drop; lia).
    replace (Z.to_nat _) with (length (he_string A) - length (he_string B))%nat by lia. split.
    + intros <-. eexists. symmetry. apply take_drop.
    + intros [k Hk]. rewrite Hk. rewrite length_app.
      by rewrite drop_app_length' by lia.
Qed.

(** [p] has its string and a length that counts the null byte. *)
Definition full (tab : elf_strtab_hash) (p : ptr) (s : cstring) : Prop :=
  es_str tab p = Some s /\ Z.of_nat (length s) + 1 < 2 ^ 31 /\
  exists d, es_data tab p = Some d /\ ed_len d = Z.of_nat (length s) + 1.

(** The string of [p] ends that of [q]. *)
Definition ends (tab : elf_strtab_hash) (p q : ptr) : Prop :=
  exists s t, es_str tab p = Some s /\ es_str tab q = Some t /\ s `suffix_of` t.

(** What the merging makes of the entry of [p], among those of [l]. *)
Definition merged_entry (tab tab' : elf_strtab_hash) (l : list ptr) (p : ptr) : Prop :=
  exists s d, es_str tab p = Some s /\ es_data tab p = Some d /\ Z.of_nat (length s) + 1 < 2 ^ 31 /\
    (es_data tab' p = Some (with_len (Z.of_nat (length s) + 1) d) \/
     exists q t, q ∈ l /\ full tab' q t /\ s `suffix_of` t /\
       es_data tab' p = Some (mkElfData (- (Z.of_nat (length s) + 1)) (ed_refcount d) (EU_suffix q))).

(** Entries that are kept do not end one another. *)
Definition minimal (tab tab' : elf_strtab_hash) (l : list ptr) : Prop :=
  forall p q, p ∈ l -> q ∈ l -> kept tab' p -> kept tab' q -> ends tab p q -> p = q.

Record merged (e : ptr) (a : list ptr) (tab tab' : elf_strtab_hash) : Prop := {
  mg_shape : same_shape tab tab';
  mg_other : forall q, q ∉ a -> es_data tab' q = es_data tab q;
  mg_entry : forall p, p ∈ a -> merged_entry tab tab' (e :: a) p;
  mg_minimal : minimal tab tab' (e :: a)
}.

Lemma bare_same tab tab' p :
  same_shape tab tab' -> es_data tab' p = es_data tab p -> bare tab p -> bare tab' p.
Proof. intros Hs Hd (s & d & H). exists s, d. by rewrite (ss_str _ _ Hs), Hd. Qed.

Lemma full_same tab tab' p s :
  same_shape tab tab' -> es_data tab' p = es_data tab p -> full tab p s -> full tab' p s.
Proof. intros Hs Hd H. unfold full. by rewrite (ss_str _ _ Hs), Hd. Qed.

Lemma strings_differ_same tab tab' l : same_shape tab tab' -> strings_differ tab l -> strings_differ tab' l.
Proof. intros Hs H p q Hp Hq. rewrite !(ss_str _ _ Hs). by apply H. Qed.

Lemma skey_same tab tab' p : same_shape tab tab' -> skey tab' p = skey tab p.
Proof. intros Hs. unfold skey. by rewrite (ss_str _ _ Hs). Qed.

Lemma key_sorted_same tab tab' l :
  same_shape tab tab' -> StronglySorted (flip (key_lt tab)) l -> StronglySorted (flip (key_lt tab')) l.
Proof. intros Hs. apply StronglySorted_impl. intros p q. unfold flip, key_lt. by rewrite !(skey_same tab tab'). Qed.

Lemma ends_key tab p q : ends tab p q -> skey tab p `prefix_of` skey tab q.
Proof.
  intros (s & t & Hs & Ht & Hst). unfold skey. rewrite Hs, Ht. cbn. by apply suffix_prefix_reverse.
Qed.

Lemma key_ends tab p q :
  is_Some (es_str tab p) -> is_Some (es_str tab q) -> skey tab p `prefix_of` skey tab q -> ends tab p q.
Proof.
  intros [s Hs] [t Ht]. unfold skey, ends. rewrite Hs, Ht. cbn. intros H. exists s, t.
  split_and!; [done..|]. by apply suffix_prefix_reverse.
Qed.

(** If the entry after [e] does not end it, none of the entries before does
    without ending that one, and [e] ends none of them. *)
Lemma ends_skip tab e c a p :
  (forall q, q ∈ e :: c :: a -> is_Some (es_str tab q)) ->
  StronglySorted (flip (key_lt tab)) (e :: c :: a) -> p ∈ c :: a ->
  ~ ends tab e p /\ (ends tab p e -> ends tab p c).
Proof.
  intros Hstr [Hs He]%StronglySorted_inv Hp. rewrite Forall_forall in He.
  pose proof (He p Hp) as Hlt. unfold flip, key_lt in Hlt. split.
  - intros Hend%ends_key%revlt_prefix. congruence.
  - intros Hend. apply key_ends; [by apply Hstr; right|apply Hstr; right; left|].
    apply (revlt_prefix_between _ _ (skey tab e)); [by apply ends_key| |].
    + apply elem_of_cons in Hp as [->|Hp]; [by left|right].
      apply StronglySorted_inv in Hs as [_ Hc]. rewrite Forall_forall in Hc. by apply Hc.
    + apply He. by left.
Qed.

Lemma not_kept_neg tab p d : es_data tab p = Some d -> ed_len d < 0 -> ~ kept tab p.
Proof. intros Hd Hlen (d' & Hd' & Hpos). rewrite Hd in Hd'. injection Hd' as <-. lia. Qed.

Lemma int_op_spec z : - 2 ^ 31 <= z < 2 ^ 31 -> int_op z = Some z.
Proof. intros. unfold int_op. by replace (_ && _) with true by lia. Qed.

Lemma merge_step e s c a tab :
  full tab e s -> bare tab c -> c <> e -> es_str tab c <> es_str tab e ->
  exists (b : bool) tab2 t d,
    merge_loop e (c :: a) tab = merge_loop (if b then e else c) a tab2 /\
    same_shape tab tab2 /\ (forall q, q <> c -> es_data tab2 q = es_data tab q) /\
    es_str tab c = Some t /\ es_data tab c = Some d /\ Z.of_nat (length t) + 1 < 2 ^ 31 /\
    (b = true <-> ends tab c e) /\
    es_data tab2 c = Some (if b then mkElfData (- (Z.of_nat (length t) + 1)) (ed_refcount d) (EU_suffix e)
                           else with_len (Z.of_nat (length t) + 1) d).
Proof.
  intros (Hse & He31 & de & Hde & Hle) (t & d & Ht & Hd & Ht31 & Hlen) Hce Hdiff.
  destruct (es_store_spec c (with_len (Z.of_nat (length t) + 1) d) d tab Hd) as (tab1 & Hst & Hs1 & Hd1).
  assert (forall q, q <> c -> es_data tab1 q = es_data tab q) as Hoth by
    (intros q Hq; by rewrite Hd1, decide_False).
  pose proof (Hd1 c) as Hdc. rewrite decide_True in Hdc by done.
  pose proof Hse as Hse1. rewrite <- (ss_str _ _ Hs1) in Hse1.
  pose proof Ht as Ht1. rewrite <- (ss_str _ _ Hs1) in Ht1.
  destruct (entry_of tab1 e s de Hse1) as (ee & Hee & Hees & Heed); [by rewrite Hoth|].
  destruct (entry_of tab1 c t _ Ht1 Hdc) as (ec & Hec & Hecs & Hecd).
  cbn [merge_loop]. rewrite Hd. cbn [mbind option_bind]. rewrite Hlen, int_op_spec by lia.
  cbn [mbind option_bind]. rewrite Hst. cbn [mbind option_bind]. rewrite Hee, Hec. cbn [mbind option_bind].
  rewrite (is_suffix_spec ee ec); rewrite ?Hees, ?Hecs, ?Heed, ?Hecd; try done; [|congruence].
  cbn [mbind option_bind].
  assert (ends tab c e <-> t `suffix_of` s) as Hends.
  { split; [intros (t' & s' & H1 & H2 & H3); congruence|]. intros H. by exists t, s. }
  case_bool_decide as Hsuf.
  - rewrite int_op_spec by lia. cbn [mbind option_bind].
    destruct (es_store_spec c (mkElfData (- (Z.of_nat (length t) + 1)) (ed_refcount d) (EU_suffix e)) _ tab1 Hdc)
      as (tab2 & Hst2 & Hs2 & Hd2). rewrite Hst2. cbn [mbind option_bind].
    exists true, tab2, t, d. split_and!; try done; [by etransitivity| | |].
    + intros q Hq. rewrite Hd2, decide_False by done. by apply Hoth.
    + by rewrite Hends.
    + by rewrite Hd2, decide_True.
  - exists false, tab1, t, d. split_and!; try done. by rewrite Hends.
Qed.

(** The entry [c], as one step left it in [tab2], seen from before the step. *)
Lemma merged_entry_before tab tab2 tab' l l' c p :
  same_shape tab tab2 -> (forall q, q <> c -> es_data tab2 q = es_data tab q) -> p <> c ->
  (forall q, q ∈ l -> q ∈ l') ->
  merged_entry tab2 tab' l p -> merged_entry tab tab' l' p.
Proof.
  intros Hs Hoth Hp Hl (s & d & Hstr & Hd & Hlen & H). exists s, d.
  rewrite (ss_str _ _ Hs) in Hstr. rewrite Hoth in Hd by done. split_and!; [done..|].
  destruct H as [|(q & t & Hq & H)]; [by left|right]. exists q, t. eauto.
Qed.

Lemma ends_same tab tab' p q : same_shape tab tab' -> ends tab' p q <-> ends tab p q.
Proof. intros Hs. unfold ends. by setoid_rewrite (ss_str _ _ Hs). Qed.

(** The step that makes [c] a suffix of [e]. *)
Lemma merged_suffix e s c a tab tab2 tab' t d :
  NoDup (e :: c :: a) -> same_shape tab tab2 -> (forall q, q <> c -> es_data tab2 q = es_data tab q) ->
  es_str tab c = Some t -> es_data tab c = Some d -> Z.of_nat (length t) + 1 < 2 ^ 31 -> ends tab c e ->
  es_data tab2 c = Some (mkElfData (- (Z.of_nat (length t) + 1)) (ed_refcount d) (EU_suffix e)) ->
  full tab2 e s -> merged e a tab2 tab' -> merged e (c :: a) tab tab'.
Proof.
  intros Hnd Hs2 Hoth Ht Hd Ht31 Hends Hdc Hfull [Hs Ho He Hmin].
  apply NoDup_cons in Hnd as [Hec [Hca _]%NoDup_cons]. apply not_elem_of_cons in Hec as [_ Hea].
  assert (~ kept tab' c) as Hnk.
  { eapply not_kept_neg; [rewrite Ho by done; exact Hdc|]. cbn. lia. }
  constructor.
  - by etransitivity.
  - intros q [Hqc Hqa]%not_elem_of_cons. rewrite Ho by done. by apply Hoth.
  - intros p Hp. apply elem_of_cons in Hp as [->|Hp].
    + exists t, d. split_and!; [done..|right]. exists e, s. split_and!; [by left| | |by rewrite Ho].
      * apply (full_same tab2); [done|by apply Ho|done].
      * destruct Hends as (t' & s' & H1 & H2 & H3). destruct Hfull as [H4 _].
        rewrite (ss_str _ _ Hs2) in H4. congruence.
    + apply (merged_entry_before tab tab2 tab' (e :: a) _ c); [done|done|by intros ->| |by apply He].
      intros q [->|Hq]%elem_of_cons; [by left|by do 2 right].
  - intros p q Hp Hq Hkp Hkq Hend.
    assert (forall x, x ∈ e :: c :: a -> kept tab' x -> x ∈ e :: a) as Hin.
    { intros x [->|[->|Hx]%elem_of_cons]%elem_of_cons Hk; [by left|done|by right]. }
    apply Hmin; auto. by apply (ends_same tab tab2).
Qed.

(** The step that keeps [c]. *)
Lemma merged_keep e c a tab tab2 tab' t d :
  NoDup (e :: c :: a) -> StronglySorted (flip (key_lt tab)) (e :: c :: a) ->
  (forall q, q ∈ e :: c :: a -> is_Some (es_str tab q)) ->
  same_shape tab tab2 -> (forall q, q <> c -> es_data tab2 q = es_data tab q) ->
  es_str tab c = Some t -> es_data tab c = Some d -> Z.of_nat (length t) + 1 < 2 ^ 31 -> ~ ends tab c e ->
  es_data tab2 c = Some (with_len (Z.of_nat (length t) + 1) d) ->
  merged c a tab2 tab' -> merged e (c :: a) tab tab'.
Proof.
  intros Hnd Hsort Hstr Hs2 Hoth Ht Hd Ht31 Hends Hdc [Hs Ho He Hmin].
  apply NoDup_cons in Hnd as [Hec [Hca _]%NoDup_cons]. apply not_elem_of_cons in Hec as [_ Hea].
  assert (kept tab' c) as Hkc.
  { exists (with_len (Z.of_nat (length t) + 1) d). rewrite Ho by done. split; [done|]. cbn. lia. }
  constructor.
  - by etransitivity.
  - intros q [Hqc Hqa]%not_elem_of_cons. rewrite Ho by done. by apply Hoth.
  - intros p Hp. apply elem_of_cons in Hp as [->|Hp].
    + exists t, d. split_and!; [done..|left]. by rewrite Ho.
    + apply (merged_entry_before tab tab2 tab' (c :: a) _ c); [done|done|by intros ->| |by apply He].
      intros q Hq. by right.
  - assert (forall x, x ∈ c :: a -> kept tab' x -> ~ ends tab x e) as Hskip.
    { intros x Hx Hkx Hend. destruct (ends_skip tab e c a x Hstr Hsort Hx) as [_ Hto].
      assert (x = c) as ->; [|done].
      apply Hmin; [done|by left|done|done|]. apply (ends_same tab tab2); auto. }
    intros p q Hp Hq Hkp Hkq Hend.
    apply elem_of_cons in Hp as [->|Hp]; apply elem_of_cons in Hq as [->|Hq].
    + done.
    + by destruct (ends_skip tab e c a q Hstr Hsort Hq) as [Hno _].
    + by destruct (Hskip p Hp Hkp).
    + apply Hmin; try done. by apply (ends_same tab tab2).
Qed.

Lemma merge_loop_spec a : forall e s tab,
  NoDup (e :: a) -> strings_differ tab (e :: a) -> full tab e s -> (forall p, p ∈ a -> bare tab p) ->
  StronglySorted (flip (key_lt tab)) (e :: a) ->
  exists tab', merge_loop e a tab = Some tab' /\ merged e a tab tab'.
Proof.
  induction a as [|c a IH]; intros e s tab Hnd Hdiff Hfull Hbare Hsort.
  { exists tab. split; [done|]. constructor; [reflexivity|done|intros p Hp; by apply elem_of_nil in Hp|].
    by intros p q ->%list_elem_of_singleton ->%list_elem_of_singleton. }
  apply NoDup_cons in Hnd as Hnd'. destruct Hnd' as [Hec Hndc]. apply NoDup_cons in Hndc as Hndc'.
  destruct Hndc' as [Hca Hnda]. apply not_elem_of_cons in Hec as [Hec Hea].
  destruct (merge_step e s c a tab Hfull (Hbare c ltac:(by left)) ltac:(done))
    as (b & tab2 & t & d & -> & Hs2 & Hoth & Ht & Hd & Ht31 & Hb & Hdc).
  { intros H. apply Hec. symmetry. apply Hdiff; [right; by left|by left|done]. }
  assert (forall p, p ∈ a -> p <> c) as Hac by (intros p Hp ->; done).
  assert (forall p, p ∈ a -> bare tab2 p) as Hbare2.
  { intros p Hp. apply (bare_same tab); [done|by apply Hoth, Hac|]. apply Hbare. by right. }
  assert (forall q, q ∈ e :: c :: a -> is_Some (es_str tab q)) as Hstr.
  { intros q [->|Hq]%elem_of_cons; [by eexists; apply Hfull|].
    destruct (Hbare q Hq) as (x & ? & Hx & _). by exists x. }
  pose proof (strings_differ_same _ _ _ Hs2 Hdiff) as Hdiff2.
  pose proof (key_sorted_same _ _ _ Hs2 Hsort) as Hsort2.
  pose proof (full_same tab tab2 e s Hs2 (Hoth e Hec) Hfull) as Hfull2.
  assert (forall x, x ∈ e :: a -> x ∈ e :: c :: a) as Hsub.
  { intros x [->|Hx]%elem_of_cons; [by left|by do 2 right]. }
  destruct b.
  - destruct (IH e s tab2) as (tab' & Hloop & Hm); try done; [by constructor| | |].
    + intros p q Hp Hq. apply Hdiff2; auto.
    + apply StronglySorted_inv in Hsort2 as [Hsort2 Hhd].
      apply StronglySorted_inv in Hsort2 as [Hsort2 _]. apply Forall_cons in Hhd as [_ Hhd]. by constructor.
    + exists tab'. split; [done|]. eapply (merged_suffix e s c a tab tab2); try done. by apply Hb.
  - destruct (IH c t tab2) as (tab' & Hloop & Hm); try done.
    + intros p q Hp Hq. apply Hdiff2; by right.
    + split; [by rewrite (ss_str _ _ Hs2)|]. split; [done|]. by eexists.
    + by apply StronglySorted_inv in Hsort2 as [Hsort2 _].
    + exists tab'. split; [done|]. eapply (merged_keep e c a tab tab2); try done.
      intros Hend%Hb. done.
Qed.

Lemma StronglySorted_reverse {A} (R : A -> A -> Prop) l :
  StronglySorted R l -> StronglySorted (flip R) (reverse l).
Proof.
  induction 1 as [|x l Hs IH Hx]; [constructor|]. rewrite reverse_cons.
  apply StronglySorted_app. split_and!; [|exact IH|repeat constructor].
  intros y z Hy ->%list_elem_of_singleton. rewrite Forall_forall in Hx. apply Hx. by apply elem_of_reverse.
Qed.

Lemma merge_sorted_spec tab sorted :
  NoDup sorted -> strings_differ tab sorted -> (forall p, p ∈ sorted -> bare tab p) ->
  StronglySorted (key_lt tab) sorted ->
  exists tab', merge_sorted sorted tab = Some tab' /\ same_shape tab tab' /\
    (forall q, q ∉ sorted -> es_data tab' q = es_data tab q) /\
    (forall p, p ∈ sorted -> merged_entry tab tab' sorted p) /\ minimal tab tab' sorted.
Proof.
  intros Hnd Hdiff Hbare Hsort%StronglySorted_reverse. unfold merge_sorted.
  assert (forall q, q ∈ reverse sorted <-> q ∈ sorted) as Hin by (intros q; apply elem_of_reverse).
  rewrite <- (reverse_Permutation sorted) in Hnd. destruct (reverse sorted) as [|e a].
  { exists tab. split_and!; [done|reflexivity|done| |]; intros p; [intros Hp|intros ? Hp _ _ _];
      by apply Hin, elem_of_nil in Hp. }
  destruct (Hbare e) as (s & d & Hs & Hd & Hlen31 & Hlen); [apply Hin; by left|].
  rewrite Hd. cbn [mbind option_bind]. rewrite Hlen, int_op_spec by lia. cbn [mbind option_bind].
  destruct (es_store_spec e (with_len (Z.of_nat (length s) + 1) d) d tab Hd) as (tab1 & -> & Hs1 & Hd1).
  cbn [mbind option_bind]. pose proof Hnd as [Hea _]%NoDup_cons.
  assert (forall q, q <> e -> es_data tab1 q = es_data tab q) as Hoth by
    (intros q Hq; by rewrite Hd1, decide_False).
  destruct (merge_loop_spec a e s tab1) as (tab' & Hloop & [Hs' Ho He Hmin]); try done.
  - apply (strings_differ_same tab); [done|]. intros p q Hp Hq. apply Hdiff; by apply Hin.
  - split; [by rewrite (ss_str _ _ Hs1)|]. split; [done|]. eexists. rewrite Hd1, decide_True by done.
    by split.
  - intros p Hp. apply (bare_same tab); [done| |apply Hbare, Hin; by right].
    apply Hoth. by intros ->.
  - by apply (key_sorted_same tab).
  - exists tab'. split; [done|]. split; [by etransitivity|]. split_and!.
    + intros q Hq. rewrite <- Hin in Hq. apply not_elem_of_cons in Hq as [Hqe Hqa].
      rewrite Ho by done. by apply Hoth.
    + intros p Hp. apply Hin, elem_of_cons in Hp as [->|Hp].
      * exists s, d. split_and!; [done..|left]. rewrite Ho, Hd1, decide_True by done. done.
      * apply (merged_entry_before tab tab1 tab' (e :: a) _ e); [done|done|by intros ->| |by apply He].
        intros q Hq. by apply Hin.
    + intros p q Hp Hq Hkp Hkq Hend. apply Hmin; [by apply Hin..|done|done|].
      by apply (ends_same tab tab1).
Qed.

(** ** Finalizing *)

(** The entry of [p] before positions are assigned: dropped, kept, or made a
    suffix of a kept one. *)
Definition ready_entry (tab : elf_strtab_hash) (seq : list ptr) (p : ptr) : Prop :=
  exists s r, es_str tab p = Some s /\ fits 32 r /\ Z.of_nat (length s) + 1 < 2 ^ 31 /\
    ((r = 0 /\ exists u, es_data tab p = Some (mkElfData 0 r u)) \/
     (r <> 0 /\ exists u, es_data tab p = Some (mkElfData (Z.of_nat (length s) + 1) r u)) \/
     (r <> 0 /\ exists q t, q ∈ seq /\ full tab q t /\ s `suffix_of` t /\
        es_data tab p = Some (mkElfData (- (Z.of_nat (length s) + 1)) r (EU_suffix q)))).

Record ready (tab tab' : elf_strtab_hash) (seq : list ptr) : Prop := {
  rd_shape : same_shape tab tab';
  rd_entry : forall p, p ∈ seq -> ready_entry tab' seq p;
  rd_refcount : forall p, ed_refcount <$> es_data tab' p = ed_refcount <$> es_data tab p
}.

Lemma inv_differ tab seq m : es_inv tab seq m -> strings_differ tab seq.
Proof.
  intros Hinv p q Hp Hq Hs.
  destruct (inv_entry _ _ _ _ Hinv Hp) as (i & _ & s & r & Hsp & Hm & _).
  destruct (inv_entry _ _ _ _ Hinv Hq) as (j & _ & s' & r' & Hsq & Hm' & _). congruence.
Qed.

Definition referenced_part (tab : elf_strtab_hash) (seq : list ptr) : list ptr :=
  filter (fun p => is_referenced tab p = true) seq.

(** The sorting and merging. *)
Lemma merge_ready tab seq m :
  es_inv tab seq m ->
  exists tab1 sorted tab2,
    each_entry collect_body (es_steps tab) 1 [] tab = Some (referenced_part tab seq, tab1) /\
    qsort_strrevcmp tab1 (referenced_part tab seq) = Some sorted /\ merge_sorted sorted tab1 = Some tab2 /\
    ready tab tab2 seq /\ minimal tab tab2 (referenced_part tab seq).
Proof.
  intros Hinv. destruct (collect_spec _ _ _ Hinv) as (tab1 & Hc & Hs1 & Hu1).
  fold (referenced_part tab seq) in Hc.
  assert (forall p, p ∈ referenced_part tab seq <-> is_referenced tab p = true /\ p ∈ seq) as Hin by
    (intros p; unfold referenced_part; by rewrite list_elem_of_filter).
  assert (forall p, p ∈ referenced_part tab seq -> bare tab1 p) as Hbare.
  { intros p [Hr Hp]%Hin. destruct (inv_entry _ _ _ _ Hinv Hp) as (i & _ & s & r & Hs & _ & _ & Hl & _ & Hd).
    unfold is_referenced in Hr. rewrite Hd in Hr. cbn in Hr.
    exists s. eexists. rewrite (ss_str _ _ Hs1), Hu1, decide_True, Hd by done. split_and!; [done..|].
    unfold collected. cbn. destruct (r =? 0); [done|]. cbn. lia. }
  destruct (qsort_spec tab1 (referenced_part tab seq)) as (sorted & Hq & Hperm & Hsort); [|done| |].
  { apply NoDup_filter, Hinv. }
  { apply (strings_differ_same tab); [done|]. intros p q [_ Hp]%Hin [_ Hq]%Hin.
    by apply (inv_differ _ _ _ Hinv). }
  assert (forall p, p ∈ sorted <-> p ∈ referenced_part tab seq) as Hins by (intros p; by rewrite Hperm).
  destruct (merge_sorted_spec tab1 sorted) as (tab2 & Hm & Hs2 & Ho & He & Hmin); [| | |done|].
  { rewrite Hperm. apply NoDup_filter, Hinv. }
  { apply (strings_differ_same tab); [done|]. intros p q Hp%Hins Hq'%Hins.
    apply Hin in Hp as [_ Hp]. apply Hin in Hq' as [_ Hq']. by apply (inv_differ _ _ _ Hinv). }
  { intros p Hp%Hins. by apply Hbare. }
  exists tab1, sorted, tab2. split_and!; [done..| |].
  2: { intros p q Hp Hq'. intros Hkp Hkq Hend. apply Hmin; [by apply Hins..|done|done|].
       by apply (ends_same tab tab1). }
  constructor; [by etransitivity| |].
  - intros p Hp. destruct (inv_entry _ _ _ _ Hinv Hp) as (i & _ & s & r & Hs & _ & _ & Hl & Hr & Hd).
    exists s, r. rewrite (ss_str _ _ Hs2), (ss_str _ _ Hs1). do 3 (split; [done|]).
    pose proof (Hu1 p) as Hd1. rewrite decide_True, Hd in Hd1 by done. cbn in Hd1.
    assert (p ∈ sorted <-> r <> 0) as Hsort'.
    { rewrite Hins, Hin. unfold is_referenced. rewrite Hd. cbn. rewrite negb_true_iff, Z.eqb_neq. by intuition. }
    destruct (Z.eqb_spec r 0) as [->|Hr0].
    + left. split; [done|]. rewrite Ho by (by intros Hx%Hsort'). eexists. exact Hd1.
    + right. destruct (He p) as (s' & d & Hs' & Hd' & _ & Hcase); [by apply Hsort'|].
      rewrite (ss_str _ _ Hs1), Hs in Hs'. injection Hs' as <-. rewrite Hd1 in Hd'. injection Hd' as <-.
      destruct Hcase as [Hk|(q & t & Hqs & Hf & Hsuf & Hd2)].
      * left. split; [done|]. eexists. exact Hk.
      * right. split; [done|]. exists q, t. split_and!; [|done..]. by apply Hins, Hin in Hqs as [_ Hqs].
  - intros p. destruct (decide (p ∈ sorted)) as [Hp|Hp].
    + destruct (He p Hp) as (s & d & _ & Hd & _ & Hcase). apply Hins, Hin in Hp as [_ Hp].
      assert (ed_refcount <$> es_data tab1 p = ed_refcount <$> es_data tab p) as <-.
      { rewrite Hu1, decide_True by done. by destruct (es_data tab p). }
      rewrite Hd. by destruct Hcase as [->|(q & t & _ & _ & _ & ->)].
    + rewrite Ho, Hu1 by done. case_decide; [|done]. by destruct (es_data tab p).
Qed.

(** Without the array, and with every entry referenced, all are kept. *)
Lemma all_ready tab seq m :
  es_inv tab seq m -> (forall p, p ∈ seq -> referenced tab p) -> ready tab tab seq.
Proof.
  intros Hinv Href. constructor; [reflexivity| |done]. intros p Hp.
  destruct (inv_entry _ _ _ _ Hinv Hp) as (i & _ & s & r & Hs & _ & _ & Hl & Hr & Hd).
  destruct (Href p Hp) as (d & Hd' & Hne). rewrite Hd in Hd'. injection Hd' as <-.
  exists s, r. do 3 (split; [done|]). right. left. split; [done|]. by eexists.
Qed.

(** *** Positions *)

(** The entries of [l] with a positive length have the positions of strings
    laid out from [off] to [fin]. *)
Fixpoint es_laid (tab : elf_strtab_hash) (off : Z) (l : list ptr) (fin : Z) : Prop :=
  match l with
  | [] => off = fin
  | p :: l => exists s d, es_str tab p = Some s /\ es_data tab p = Some d /\
      if 0 <? ed_len d
      then ed_len d = Z.of_nat (length s) + 1 /\ ed_u d = EU_index off /\ es_laid tab (off + ed_len d) l fin
      else es_laid tab off l fin
  end.

Lemma es_laid_ext tab tab' off l fin :
  (forall p, es_str tab' p = es_str tab p) ->
  (forall p d, p ∈ l -> es_data tab p = Some d ->
     exists d', es_data tab' p = Some d' /\ ed_len d' = ed_len d /\ (0 < ed_len d -> ed_u d' = ed_u d)) ->
  es_laid tab off l fin -> es_laid tab' off l fin.
Proof.
  intros Hs. revert off. induction l as [|p l IH]; intros off Hd; [done|].
  intros (s & d & Hsp & Hdp & H). destruct (Hd p d) as (d' & Hd' & Hlen & Hu); [by left|done|].
  exists s, d'. rewrite Hs, Hlen. split_and!; [done..|].
  assert (forall off, es_laid tab off l fin -> es_laid tab' off l fin) as IH'
    by (intros o; apply IH; intros q x Hq; apply Hd; by right).
  destruct (Z.ltb_spec 0 (ed_len d)); [|auto]. destruct H as (? & ? & ?). rewrite Hu by done. auto.
Qed.

Lemma es_laid_same tab tab' off l fin :
  same_shape tab tab' -> (forall p, p ∈ l -> es_data tab' p = es_data tab p) ->
  es_laid tab off l fin -> es_laid tab' off l fin.
Proof.
  intros Hs Hd. apply es_laid_ext; [apply Hs|]. intros p d Hp Hpd. exists d. by rewrite Hd.
Qed.

Lemma es_laid_snoc tab off l fin p s d :
  es_laid tab off l fin -> es_str tab p = Some s -> es_data tab p = Some d ->
  (0 < ed_len d -> ed_len d = Z.of_nat (length s) + 1 /\ ed_u d = EU_index fin) ->
  es_laid tab off (l ++ [p]) (fin + Z.max 0 (ed_len d)).
Proof.
  intros Hl Hs Hd Hk. revert off Hl. induction l as [|q l IH]; intros off; cbn [app es_laid].
  - intros ->. exists s, d. split_and!; [done..|]. destruct (Z.ltb_spec 0 (ed_len d)); [|lia].
    destruct Hk as [H1 H2]; [done|]. split_and!; [done..|lia].
  - intros (s' & d' & Hs' & Hd' & H). exists s', d'. split_and!; [done..|].
    destruct (0 <? ed_len d'); [destruct H as (? & ? & ?)|]; auto.
Qed.

Lemma kept_bytes_cons tab p l s d :
  es_str tab p = Some s -> es_data tab p = Some d ->
  kept_bytes tab (p :: l) = (if 0 <? ed_len d then s ++ [0] else []) ++ kept_bytes tab l.
Proof. intros Hs Hd. unfold kept_bytes. cbn [fmap list_fmap concat]. by rewrite Hs, Hd. Qed.

Lemma es_laid_length tab off l fin :
  es_laid tab off l fin -> off + Z.of_nat (length (kept_bytes tab l)) = fin.
Proof.
  revert off. induction l as [|p l IH]; intros off; [cbn; lia|].
  intros (s & d & Hs & Hd & H). rewrite (kept_bytes_cons _ _ _ s d) by done.
  rewrite length_app. destruct (0 <? ed_len d).
  - destruct H as (Hlen & _ & H%IH). rewrite length_app. simpl. lia.
  - apply IH in H. simpl. lia.
Qed.

Lemma all_bytes_app tab l1 l2 : all_bytes tab (l1 ++ l2) = all_bytes tab l1 ++ all_bytes tab l2.
Proof. unfold all_bytes. by rewrite fmap_app, concat_app. Qed.

Lemma all_bytes_same tab tab' l : same_shape tab tab' -> all_bytes tab' l = all_bytes tab l.
Proof.
  intros Hs. unfold all_bytes. f_equal. apply list_fmap_ext. intros i p _. by rewrite (ss_str _ _ Hs).
Qed.

Lemma kept_bytes_le tab l : (length (kept_bytes tab l) <= length (all_bytes tab l))%nat.
Proof.
  induction l as [|p l IH]; [done|]. unfold kept_bytes, all_bytes in *. cbn [fmap list_fmap concat].
  rewrite !length_app. destruct (es_str tab p) as [s|]; [|simpl; lia].
  destruct (es_data tab p) as [d|]; [|simpl; lia]. destruct (0 <? ed_len d); simpl; lia.
Qed.

(** The bytes at the position of a kept entry. *)
Lemma es_laid_read tab off l fin p s d :
  es_laid tab off l fin -> p ∈ l -> es_str tab p = Some s -> es_data tab p = Some d -> 0 < ed_len d ->
  exists o, ed_u d = EU_index o /\ off <= o /\ o + Z.of_nat (length s) + 1 <= fin /\
    take (length s + 1) (drop (Z.to_nat (o - off)) (kept_bytes tab l)) = s ++ [0].
Proof.
  intros Hl Hp Hs Hd Hpos. revert off Hl. induction l as [|q l IH]; [by apply elem_of_nil in Hp|].
  intros off Hl. pose proof (es_laid_length _ _ _ _ Hl) as Hfin.
  destruct Hl as (s' & d' & Hs' & Hd' & H). rewrite (kept_bytes_cons _ _ _ s' d') in Hfin |- * by done.
  rewrite length_app in Hfin. destruct (decide (q = p)) as [->|Hne].
  - rewrite Hs in Hs'. injection Hs' as <-. rewrite Hd in Hd'. injection Hd' as <-.
    destruct (Z.ltb_spec 0 (ed_len d)); [|lia]. destruct H as (Hlen & Hu & _).
    exists off. rewrite length_app in Hfin. simpl in Hfin. split_and!; [done|lia|lia|].
    rewrite Z.sub_diag. cbn [Z.to_nat drop]. apply take_app_length'. rewrite length_app. simpl. lia.
  - apply elem_of_cons in Hp as [->|Hp]; [done|]. destruct (Z.ltb_spec 0 (ed_len d')).
    + destruct H as (Hlen & _ & H). destruct (IH Hp _ H) as (o & Hu & H1 & H2 & H3).
      exists o. split_and!; [done|lia|done|]. rewrite <- H3. f_equal.
      rewrite drop_app_ge by (rewrite length_app; simpl; lia). f_equal. rewrite length_app. simpl. lia.
    + by apply IH.
Qed.

(** The end of a string that has been placed. *)
Lemma read_suffix (bs : list Z) (a : nat) (s t : cstring) :
  take (length t + 1) (drop a bs) = t ++ [0] -> s `suffix_of` t ->
  take (length s + 1) (drop (a + (length t - length s)) bs) = s ++ [0].
Proof.
  intros Ht [k ->]. rewrite length_app in *. replace (length k + length s - length s)%nat with (length k) by lia.
  rewrite <- drop_drop. rewrite <- app_assoc in Ht.
  replace (length k + length s + 1)%nat with (length k + (length s + 1))%nat in Ht by lia.
  rewrite take_drop_commute, Ht. by rewrite drop_app_length.
Qed.

(** Some kept entries have got their position. *)
Record positioned (tab tab' : elf_strtab_hash) : Prop := {
  ps_shape : same_shape tab tab';
  ps_data : forall p, es_data tab' p = es_data tab p \/
    exists d o, es_data tab p = Some d /\ 0 < ed_len d /\ es_data tab' p = Some (with_u (EU_index o) d)
}.

Lemma full_positioned tab tab' p s : positioned tab tab' -> full tab p s -> full tab' p s.
Proof.
  intros [Hs Hd] (H1 & H2 & d & H3 & H4). split; [by rewrite (ss_str _ _ Hs)|]. split; [done|].
  destruct (Hd p) as [->|(d' & o & Hd' & _ & ->)]; [by exists d|].
  rewrite H3 in Hd'. injection Hd' as <-. by eexists.
Qed.

Lemma ready_positioned tab tab1 tab2 seq :
  ready tab tab1 seq -> positioned tab1 tab2 -> ready tab tab2 seq.
Proof.
  intros [Hs He Hr] Hp. pose proof Hp as [Hs2 Hd2]. constructor; [by etransitivity| |].
  - intros p Hin. destruct (He p Hin) as (s & r & Hsp & Hf & Hl & Hcase). exists s, r.
    rewrite (ss_str _ _ Hs2). do 3 (split; [done|]).
    destruct Hcase as [[-> [u Hd]]|[[Hr0 [u Hd]]|[Hr0 (q & t & Hq & Hfull & Hsuf & Hd)]]];
      (destruct (Hd2 p) as [->|(d & o & Hd' & Hpos & ->)];
        [|rewrite Hd in Hd'; injection Hd' as <-; cbn in Hpos]).
    + left. eauto.
    + lia.
    + right. left. eauto.
    + right. left. split; [done|]. by eexists.
    + do 2 right. split; [done|]. exists q, t. split_and!; try done. by apply (full_positioned tab1).
    + lia.
  - intros p. rewrite <- Hr. by destruct (Hd2 p) as [->|(d & o & -> & _ & ->)].
Qed.

Lemma all_bytes_take tab l i p s :
  l !! i = Some p -> es_str tab p = Some s ->
  (length (all_bytes tab (take i l)) + length s + 1 <= length (all_bytes tab l))%nat.
Proof.
  intros Hi Hs. rewrite <- (take_drop_middle l i p Hi) at 2.
  rewrite all_bytes_app, length_app. unfold all_bytes at 3. cbn [fmap list_fmap concat].
  rewrite Hs, !length_app. simpl. lia.
Qed.

Lemma positioned_store tab t p d o :
  positioned tab t -> es_data tab p = Some d -> es_data t p = Some d -> 0 < ed_len d ->
  exists t', es_store p (with_u (EU_index o) d) t = Some t' /\ same_shape t t' /\ positioned tab t' /\
    es_data t' p = Some (with_u (EU_index o) d) /\ forall q, q <> p -> es_data t' q = es_data t q.
Proof.
  intros [Hs Hd] Hp Hpt Hpos.
  destruct (es_store_spec p (with_u (EU_index o) d) d t Hpt) as (t' & Hst & Hs' & Hd').
  exists t'. split_and!; [done..| |by rewrite Hd', decide_True|intros q Hq; by rewrite Hd', decide_False].
  constructor; [by etransitivity|]. intros q. rewrite Hd'. case_decide as Hq; [|apply Hd].
  subst q. right. by exists d, o.
Qed.

(** The loop that assigns the positions. *)
Lemma assign_spec tab tab1 seq rest :
  ready tab tab1 seq -> NoDup seq -> es_array tab1 = None :: (Some <$> seq) ++ rest ->
  1 + Z.of_nat (length (all_bytes tab1 seq)) < 2 ^ 64 ->
  exists fin tab2, each_entry assign_body (length seq) 1 1 tab1 = Some (fin, tab2) /\
    positioned tab1 tab2 /\ es_laid tab2 1 seq fin.
Proof.
  intros Hready Hnd Ha Hsize.
  destruct (each_entry_all assign_body seq rest (fun i sec t =>
    positioned tab1 t /\ es_laid t 1 (take i seq) sec /\
    forall q, q ∉ take i seq -> es_data t q = es_data tab1 q) 1 tab1) as (fin & tab2 & Hl & Hp & Hlaid & _).
  2: { split_and!; [|done..]. constructor; [reflexivity|]. by left. }
  2: { rewrite firstn_all in Hlaid. by exists fin, tab2. }
  intros i p sec t Hi (Hp & Hlaid & Hoth). pose proof (ps_shape _ _ Hp) as Hs.
  split; [by rewrite (ss_array _ _ Hs)|].
  destruct (take_S_fresh seq i p Hnd Hi) as [-> Hfresh].
  destruct (rd_entry _ _ _ Hready p ltac:(by eapply list_elem_of_lookup_2)) as (s & r & Hsp & Hr & Hlen & Hcase).
  pose proof (Hoth p Hfresh) as Hdp. pose proof Hsp as Hspt. rewrite <- (ss_str _ _ Hs) in Hspt.
  assert (forall d, es_data tab1 p = Some d -> ed_len d <= 0 ->
    exists d' s' t', es_data t p = Some d' /\ assign_body (Z.of_nat i + 1) p d' sec t = Some (s', t') /\
      positioned tab1 t' /\ es_laid t' 1 (take i seq ++ [p]) s' /\
      forall q, q ∉ take i seq ++ [p] -> es_data t' q = es_data tab1 q) as Hskip.
  { intros d Hd Hle. exists d, sec, t. rewrite Hdp. split; [done|]. unfold assign_body.
    replace (0 <? ed_len d) with false by lia. rewrite andb_false_r. split; [done|]. split; [done|]. split.
    - replace sec with (sec + Z.max 0 (ed_len d)) by lia.
      apply (es_laid_snoc _ _ _ _ _ s); [done..|by rewrite Hdp|lia].
    - intros q Hq. apply Hoth. intros H. apply Hq. apply elem_of_app. by left. }
  destruct Hcase as [[-> [u Hd]]|[[Hr0 [u Hd]]|[Hr0 (q & x & _ & _ & _ & Hd)]]];
    [by apply (Hskip _ Hd)| |apply (Hskip _ Hd); cbn; lia].
  rewrite Hd in Hdp.
  destruct (positioned_store tab1 t p _ sec Hp Hd Hdp) as (t' & Hst & Hs' & Hp' & Hd' & Hoth'); [cbn; lia|].
  eexists _, _, t'. split; [exact Hdp|]. unfold assign_body. cbn [ed_refcount ed_len].
  replace (negb (r =? 0) && _) with true by lia. rewrite Hst. cbn [mbind option_bind]. split; [done|].
  pose proof (es_laid_length _ _ _ _ Hlaid) as Hsec. pose proof (kept_bytes_le t (take i seq)) as Hle.
  rewrite (all_bytes_same tab1 t _ Hs) in Hle. pose proof (all_bytes_take tab1 seq i p s Hi Hsp) as Htot.
  split_and!; [done| |].
  - rewrite wrap_small by (unfold fits; lia).
    replace (sec + (Z.of_nat (length s) + 1)) 
      with (sec + Z.max 0 (ed_len (with_u (EU_index sec) (mkElfData (Z.of_nat (length s) + 1) r u))))
      by (cbn; lia).
    eapply (es_laid_snoc t' 1 _ sec p s); [|by rewrite (ss_str _ _ Hs')|exact Hd'|by intros _].
    apply (es_laid_same t); [done| |done]. intros q Hq. apply Hoth'. by intros ->.
  - intros q Hq. rewrite Hoth'.
    + apply Hoth. intros H. apply Hq. apply elem_of_app. by left.
    + intros ->. apply Hq. apply elem_of_app. right. by left.
Qed.

(** An entry of the finished table over the section [bs] of [fin] bytes. *)
Definition placed (tab : elf_strtab_hash) (bs : list Z) (fin : Z) (p : ptr) : Prop :=
  exists s r, es_str tab p = Some s /\ fits 32 r /\
    ((r = 0 /\ exists len u, es_data tab p = Some (mkElfData len r u)) \/
     (r <> 0 /\ exists len o, es_data tab p = Some (mkElfData len r (EU_index o)) /\
        1 <= o /\ o + Z.of_nat (length s) + 1 <= fin /\
        take (length s + 1) (drop (Z.to_nat o) bs) = s ++ [0])).

Lemma placed_shape tab tab' bs fin p :
  same_shape tab tab' -> es_data tab' p = es_data tab p -> placed tab bs fin p -> placed tab' bs fin p.
Proof. intros Hs Hd. unfold placed. by rewrite (ss_str _ _ Hs), Hd. Qed.

(** The bytes of a kept entry in the section. *)
Lemma section_read tab seq fin p s d :
  es_laid tab 1 seq fin -> p ∈ seq -> es_str tab p = Some s -> es_data tab p = Some d -> 0 < ed_len d ->
  exists o, ed_u d = EU_index o /\ 1 <= o /\ o + Z.of_nat (length s) + 1 <= fin /\
    take (length s + 1) (drop (Z.to_nat o) (section_bytes tab seq)) = s ++ [0].
Proof.
  intros Hl Hp Hs Hd Hpos. destruct (es_laid_read _ _ _ _ _ _ _ Hl Hp Hs Hd Hpos) as (o & Hu & H1 & H2 & H3).
  exists o. split_and!; [done..|]. rewrite <- H3. f_equal. unfold section_bytes.
  by replace (Z.to_nat o) with (S (Z.to_nat (o - 1))) by lia.
Qed.

(** What the last loop leaves alone. *)
Definition ed_counts (d : elf_strtab_data) : Z * Z := (ed_len d, ed_refcount d).

(** One step of the last loop. *)
Lemma adjust_step tab seq fin t i p :
  es_laid tab 1 seq fin -> fin < 2 ^ 64 -> same_shape tab t -> p ∈ seq -> ready_entry tab seq p ->
  es_data t p = es_data tab p ->
  (forall q d, es_data tab q = Some d -> 0 <= ed_len d -> es_data t q = Some d) ->
  exists d t', es_data t p = Some d /\ adjust_body i p d tt t = Some (tt, t') /\ same_shape t t' /\
    (forall q, q <> p -> es_data t' q = es_data t q) /\
    (forall q d, es_data tab q = Some d -> 0 <= ed_len d -> es_data t' q = Some d) /\
    placed t' (section_bytes tab seq) fin p /\ ed_counts <$> es_data t' p = ed_counts <$> es_data tab p.
Proof.
  intros Hlaid Hfin Hs Hp (s & r & Hsp & Hr & Hlen & Hcase) Hdp Hk.
  pose proof Hsp as Hspt. rewrite <- (ss_str _ _ Hs) in Hspt.
  destruct Hcase as [[-> [u Hd]]|[[Hr0 [u Hd]]|[Hr0 (q & x & Hq & (Hxs & Hx31 & dq & Hdq & Hlq) & Hsuf & Hd)]]];
    rewrite Hd in Hdp; eexists.
  - exists t. split; [exact Hdp|]. split_and!; try done; [|by rewrite Hdp, Hd]. exists s, 0. do 2 (split; [done|]). left. split; [done|]. by eexists _, u.
  - exists t. split; [exact Hdp|]. unfold adjust_body. cbn [ed_refcount ed_len].
    replace (_ && _) with false by lia. split_and!; try done; [|by rewrite Hdp, Hd].
    exists s, r. do 2 (split; [done|]). right. split; [done|].
    destruct (section_read _ _ _ _ _ _ Hlaid Hp Hsp Hd) as (o & Hu & Ho); [cbn; lia|]. cbn in Hu. subst u.
    eexists _, o. split; [exact Hdp|exact Ho].
  - destruct (section_read _ _ _ _ _ _ Hlaid Hq Hxs Hdq) as (o & Hu & Ho1 & Ho2 & Hread); [lia|].
    pose proof (suffix_length _ _ Hsuf) as Hsl.
    set (o' := o + (Z.of_nat (length x) + 1 + - (Z.of_nat (length s) + 1))).
    destruct (es_store_spec p (with_u (EU_index o') (mkElfData (- (Z.of_nat (length s) + 1)) r (EU_suffix q))) _ t Hdp)
      as (t' & Hst & Hs' & Hd'). exists t'.
    split; [exact Hdp|]. unfold adjust_body. cbn [ed_refcount ed_len ed_u].
    replace (negb (r =? 0) && _) with true by lia.
    cbn [mbind option_bind]. rewrite (Hk q dq Hdq) by lia. cbn [mbind option_bind].
    unfold u_index. rewrite Hu. cbn [mbind option_bind]. rewrite Hlq, int_op_spec by lia. cbn [mbind option_bind].
    rewrite (wrap_small 64 (_ + - _)) by (unfold fits; lia).
    rewrite (wrap_small 64 (o + _)) by (unfold fits; lia).
    fold o'. rewrite Hst. split_and!; [done|done| | | |].
    + intros y Hy. by rewrite Hd', decide_False.
    + intros y d Hy Hle. rewrite Hd', decide_False; [by apply Hk|].
      intros ->. rewrite Hd in Hy. injection Hy as <-. cbn in Hle. lia.
    + exists s, r. rewrite (ss_str _ _ Hs'), Hd', decide_True by done. do 2 (split; [done|]). right.
      split; [done|]. eexists _, o'. split; [done|]. split_and!; [lia|lia|].
      rewrite <- (read_suffix _ _ _ _ Hread Hsuf). f_equal. f_equal. lia.
    + by rewrite Hd', decide_True, Hd by done.
Qed.

(** The loop that places the suffixes. *)
Lemma adjust_spec tab seq rest fin :
  es_laid tab 1 seq fin -> fin < 2 ^ 64 -> NoDup seq -> es_array tab = None :: (Some <$> seq) ++ rest ->
  (forall p, p ∈ seq -> ready_entry tab seq p) ->
  exists tab', each_entry adjust_body (length seq) 1 tt tab = Some (tt, tab') /\ same_shape tab tab' /\
    (forall q d, es_data tab q = Some d -> 0 <= ed_len d -> es_data tab' q = Some d) /\
    (forall p, p ∈ seq -> placed tab' (section_bytes tab seq) fin p) /\
    (forall p, ed_counts <$> es_data tab' p = ed_counts <$> es_data tab p).
Proof.
  intros Hlaid Hfin Hnd Ha Hready.
  destruct (each_entry_all adjust_body seq rest (fun i _ t => same_shape tab t /\
    (forall q, q ∉ take i seq -> es_data t q = es_data tab q) /\
    (forall q d, es_data tab q = Some d -> 0 <= ed_len d -> es_data t q = Some d) /\
    (forall p, p ∈ take i seq -> placed t (section_bytes tab seq) fin p) /\
    (forall p, ed_counts <$> es_data t p = ed_counts <$> es_data tab p)) tt tab)
    as ([] & tab' & Hl & Hs & _ & H).
  2: { split_and!; [reflexivity|done..| |done]. intros p Hp. by apply elem_of_nil in Hp. }
  2: { rewrite firstn_all in H. by exists tab'. }
  intros i p [] t Hi (Hs & Hoth & Hk & Hpl & Hc). split; [by rewrite (ss_array _ _ Hs)|].
  destruct (take_S_fresh seq i p Hnd Hi) as [-> Hfresh].
  assert (p ∈ seq) as Hp by (by eapply list_elem_of_lookup_2).
  destruct (adjust_step tab seq fin t (Z.of_nat i + 1) p Hlaid Hfin Hs Hp (Hready p Hp) (Hoth p Hfresh) Hk)
    as (d & t' & Hd & Hb & Hs' & Hoth' & Hk' & Hpl' & Hc').
  exists d, tt, t'. split_and!; [done|done|by etransitivity| |done| |].
  - intros q Hq. rewrite Hoth'.
    + apply Hoth. intros H. apply Hq. apply elem_of_app. by left.
    + intros ->. apply Hq. apply elem_of_app. right. by left.
  - intros q [Hq| ->%list_elem_of_singleton]%elem_of_app; [|done].
    apply (placed_shape t); [done|apply Hoth'; by intros ->|by apply Hpl].
  - intros q. destruct (decide (q = p)) as [->|Hq]; [done|]. by rewrite Hoth'.
Qed.

(** A table whose positions are assigned. *)
Record finished (tab : elf_strtab_hash) (seq : list ptr) : Prop := {
  fs_array : exists rest, es_array tab = None :: (Some <$> seq) ++ rest;
  fs_size : es_size tab = Z.of_nat (length seq) + 1;
  fs_nodup : NoDup seq;
  fs_laid : es_laid tab 1 seq (es_sec_size tab);
  fs_sec_size : es_sec_size tab < 2 ^ 64;
  fs_int : forall p d, p ∈ seq -> es_data tab p = Some d -> - 2 ^ 31 <= ed_len d < 2 ^ 31;
  fs_placed : forall p, p ∈ seq -> placed tab (section_bytes tab seq) (es_sec_size tab) p
}.

(** What finalizing keeps, and what it drops. *)
Record finalized (tab tab' : elf_strtab_hash) (seq : list ptr) : Prop := {
  fz_finished : finished tab' seq;
  fz_asserts : es_asserts tab' = es_asserts tab;
  fz_str : forall p, es_str tab' p = es_str tab p;
  fz_refcount : forall p, ed_refcount <$> es_data tab' p = ed_refcount <$> es_data tab p;
  fz_kept : forall p, p ∈ seq -> kept tab' p -> referenced tab p
}.

Lemma kept_bytes_same tab tab' l :
  (forall p, es_str tab' p = es_str tab p) -> (forall p, ed_counts <$> es_data tab' p = ed_counts <$> es_data tab p) ->
  kept_bytes tab' l = kept_bytes tab l.
Proof.
  intros Hs Hc. unfold kept_bytes. f_equal. apply list_fmap_ext. intros i p _. rewrite Hs.
  specialize (Hc p). destruct (es_data tab' p) as [d'|], (es_data tab p) as [d|]; try done.
  injection Hc as -> _. done.
Qed.

Lemma ready_int tab seq p d : ready_entry tab seq p -> es_data tab p = Some d -> - 2 ^ 31 <= ed_len d < 2 ^ 31.
Proof.
  intros (s & r & _ & _ & Hl & H) Hd.
  destruct H as [[-> [u Hd']]|[[_ [u Hd']]|[_ (q & t & _ & _ & _ & Hd')]]];
    rewrite Hd' in Hd; injection Hd as <-; cbn; lia.
Qed.

Lemma ready_kept tab tab1 seq p : ready tab tab1 seq -> p ∈ seq -> kept tab1 p -> referenced tab p.
Proof.
  intros Hready Hp (d & Hd & Hpos). pose proof (rd_refcount _ _ _ Hready p) as Hrc. rewrite Hd in Hrc.
  destruct (es_data tab p) as [d0|] eqn:Hd0; [|done]. injection Hrc as Hrc. exists d0. split; [done|].
  rewrite <- Hrc. destruct (rd_entry _ _ _ Hready p Hp) as (s & r & _ & _ & _ & H).
  destruct H as [[-> [u Hd']]|[[Hr [u Hd']]|[Hr (q & t & _ & _ & _ & Hd')]]];
    rewrite Hd' in Hd; injection Hd as <-; cbn in *; [lia|done..].
Qed.

Lemma kept_counts tab tab' p :
  ed_counts <$> es_data tab' p = ed_counts <$> es_data tab p -> kept tab' p <-> kept tab p.
Proof.
  intros Hc. unfold kept. destruct (es_data tab' p) as [d'|], (es_data tab p) as [d|]; try done.
  injection Hc as Hl _. split; intros (x & [= <-] & Hx); eexists; (split; [done|lia]).
Qed.

Lemma kept_positioned tab tab' p : positioned tab tab' -> kept tab' p <-> kept tab p.
Proof.
  intros [_ Hd]. unfold kept. destruct (Hd p) as [->|(d & o & -> & Hpos & ->)]; [done|].
  split; intros _; by eexists.
Qed.

(** Every referenced string ends a kept one. *)
Lemma ready_covers tab tab1 seq p :
  ready tab tab1 seq -> p ∈ seq -> referenced tab p -> exists q, q ∈ seq /\ kept tab1 q /\ ends tab p q.
Proof.
  intros Hready Hp (d0 & Hd0 & Hne). pose proof (rd_refcount _ _ _ Hready p) as Hrc. rewrite Hd0 in Hrc.
  pose proof (rd_shape _ _ _ Hready) as Hsh.
  destruct (rd_entry _ _ _ Hready p Hp) as (s & r & Hs & _ & _ & H).
  destruct H as [[-> [u Hd]]|[[Hr [u Hd]]|[Hr (q & t & Hq & (Ht & _ & dq & Hdq & Hlq) & Hsuf & Hd)]]];
    rewrite Hd in Hrc; injection Hrc as Hrc.
  - congruence.
  - exists p. split; [done|]. split; [eexists; split; [exact Hd|cbn; lia]|].
    exists s, s. by rewrite <- (ss_str _ _ Hsh).
  - exists q. split; [done|]. split; [exists dq; split; [done|lia]|].
    exists s, t. by rewrite <- !(ss_str _ _ Hsh).
Qed.

(** Both loops that assign positions. *)
Lemma place_spec tab tab1 seq m :
  es_inv tab seq m -> ready tab tab1 seq -> 1 + Z.of_nat (length (all_bytes tab seq)) < 2 ^ 64 ->
  exists fin tab2 tab3,
    each_entry assign_body (es_steps tab1) 1 1 tab1 = Some (fin, tab2) /\
    each_entry adjust_body (es_steps (set_es_sec_size fin tab2)) 1 tt (set_es_sec_size fin tab2) = Some (tt, tab3) /\
    finalized tab tab3 seq /\ forall p, kept tab3 p <-> kept tab1 p.
Proof.
  intros Hinv Hready Hsize. destruct (ei_array _ _ _ Hinv) as [rest Ha].
  pose proof (rd_shape _ _ _ Hready) as Hs1. pose proof (ei_nodup _ _ _ Hinv) as Hnd.
  assert (es_steps tab1 = length seq) as ->.
  { unfold es_steps. rewrite (ss_size _ _ Hs1). apply (inv_steps _ _ _ Hinv). }
  destruct (assign_spec tab tab1 seq rest Hready Hnd) as (fin & tab2 & Has & Hpos & Hlaid).
  { by rewrite (ss_array _ _ Hs1). } { by rewrite (all_bytes_same tab). }
  pose proof (ready_positioned _ _ _ _ Hready Hpos) as Hready2.
  pose proof (rd_shape _ _ _ Hready2) as Hs2.
  assert (fin < 2 ^ 64) as Hfin.
  { pose proof (es_laid_length _ _ _ _ Hlaid). pose proof (kept_bytes_le tab2 seq) as Hle.
    rewrite (all_bytes_same tab _ _ Hs2) in Hle. lia. }
  destruct (adjust_spec (set_es_sec_size fin tab2) seq rest fin) as (tab3 & Had & Hs3 & Hk & Hpl & Hc); try done.
  { apply (es_laid_ext tab2); [done|intros p d _ Hd; by exists d|exact Hlaid]. }
  { cbn. by rewrite (ss_array _ _ Hs2). }
  { apply Hready2. }
  exists fin, tab2, tab3.
  assert (forall p, ed_counts <$> es_data tab3 p = ed_counts <$> es_data tab2 p) as Hc' by exact Hc.
  clear Hc. rename Hc' into Hc.
  assert (forall p, es_str tab3 p = es_str tab2 p) as Hstr by apply Hs3.
  assert (es_sec_size tab3 = fin) as Hsec by apply (ss_sec_size _ _ Hs3).
  assert (section_bytes tab3 seq = section_bytes tab2 seq) as Hbytes.
  { unfold section_bytes. f_equal. by apply kept_bytes_same. }
  assert (es_steps (set_es_sec_size fin tab2) = length seq) as ->.
  { unfold es_steps. cbn. rewrite (ss_size _ _ Hs2). apply (inv_steps _ _ _ Hinv). }
  assert (forall p, kept tab3 p <-> kept tab1 p) as Hkept.
  { intros p. etransitivity; [apply (kept_counts tab2 tab3), Hc|by apply kept_positioned]. }
  split_and!; [done|done| |done].
  constructor; [constructor| | | |].
  - exists rest. rewrite (ss_array _ _ Hs3). cbn. by rewrite (ss_array _ _ Hs2).
  - rewrite (ss_size _ _ Hs3). cbn. rewrite (ss_size _ _ Hs2). apply Hinv.
  - done.
  - rewrite Hsec. apply (es_laid_ext tab2); [exact Hstr| |exact Hlaid]. intros p d _ Hd. specialize (Hc p).
    rewrite Hd in Hc.
    destruct (es_data tab3 p) as [d'|] eqn:Hd'; [|done]. injection Hc as Hlen _. exists d'. split_and!; [done..|].
    intros Hlen0. pose proof (Hk p d Hd ltac:(lia)) as Hkd. rewrite Hd' in Hkd. by injection Hkd as ->.
  - by rewrite Hsec.
  - intros p d Hp Hd. specialize (Hc p). rewrite Hd in Hc.
    destruct (es_data tab2 p) as [d'|] eqn:Hd'; [|done]. injection Hc as Hl _. rewrite Hl.
    by eapply ready_int, Hd'; apply Hready2.
  - rewrite Hsec, Hbytes. exact Hpl.
  - rewrite (ss_asserts _ _ Hs3). cbn. apply Hs2.
  - intros p. rewrite Hstr. apply Hs2.
  - intros p. rewrite <- (rd_refcount _ _ _ Hready2). specialize (Hc p).
    destruct (es_data tab3 p), (es_data tab2 p); try done. injection Hc as _ Hr. cbn. by rewrite Hr.
  - intros p Hp Hkp%Hkept. exact (ready_kept _ _ _ _ Hready Hp Hkp).
Qed.

(** *** Finalizing, as a whole *)

Lemma finalize_spec tab seq m ok_malloc :
  es_inv tab seq m -> 1 + Z.of_nat (length (all_bytes tab seq)) < 2 ^ 64 ->
  ok_malloc = true \/ (forall p, p ∈ seq -> referenced tab p) ->
  exists tab', bfd_elf_strtab_finalize ok_malloc tab = Some tab' /\ finalized tab tab' seq /\
    (ok_malloc = true -> minimal tab tab' (referenced_part tab seq)) /\
    (forall p, p ∈ seq -> referenced tab p -> exists q, q ∈ seq /\ kept tab' q /\ ends tab p q).
Proof.
  intros Hinv Hsize Hok. unfold bfd_elf_strtab_finalize.
  assert (exists tab1, (if ok_malloc then
           '(array, tab) ← each_entry collect_body (es_steps tab) 1 [] tab;
           sorted ← qsort_strrevcmp tab array;
           merge_sorted sorted tab
         else Some tab) = Some tab1 /\ ready tab tab1 seq /\
         (ok_malloc = true -> minimal tab tab1 (referenced_part tab seq))) as (tab1 & -> & Hready & Hmin).
  { destruct ok_malloc.
    - destruct (merge_ready _ _ _ Hinv) as (t1 & sorted & t2 & -> & Hq & Hm & Hr & Hmin).
      cbn [mbind option_bind]. rewrite Hq. cbn [mbind option_bind]. by exists t2.
    - destruct Hok as [|Href]; [done|]. exists tab. split_and!; [done| |done]. by eapply all_ready. }
  cbn [mbind option_bind].
  destruct (place_spec _ _ _ _ Hinv Hready Hsize) as (fin & tab2 & tab3 & -> & Had & Hfz & Hkept).
  cbn [mbind option_bind]. rewrite Had. cbn [mbind option_bind]. exists tab3. split_and!; [done|done| |].
  - intros Htrue p q Hp Hq Hkp%Hkept Hkq%Hkept. by apply (Hmin Htrue).
  - intros p Hp Href. destruct (ready_covers _ _ _ _ Hready Hp Href) as (q & Hq & Hk & He). exists q.
    by rewrite Hkept.
Qed.

(** *** Writing and reading the finished table *)

Definition add_asserts (n : nat) (tab : elf_strtab_hash) : elf_strtab_hash :=
  mkElfStrtab (es_table tab) (es_size tab) (es_alloced tab) (es_sec_size tab) (es_array tab)
    (n + es_asserts tab).

Lemma bfd_assert_add b tab : bfd_assert b tab = add_asserts (if b then 0 else 1) tab.
Proof. by destruct b, tab. Qed.

Lemma add_asserts_add n k tab : add_asserts n (add_asserts k tab) = add_asserts (k + n) tab.
Proof. unfold add_asserts. cbn. f_equal. lia. Qed.

Lemma sext_u32 z : - 2 ^ 31 <= z < 2 ^ 31 -> sext 32 (u32 z) = z.
Proof.
  intros Hz. rewrite <- (sext_small 32 z) at 2 by lia. unfold sext. by rewrite wrap_idemp by lia.
Qed.

(** How many of the entries still have references. *)
Definition open_refs (tab : elf_strtab_hash) (l : list ptr) : nat := length (referenced_part tab l).

Lemma open_refs_cons tab p l d :
  es_data tab p = Some d ->
  open_refs tab (p :: l) = ((if (ed_refcount d =? 0)%Z then 0 else 1) + open_refs tab l)%nat.
Proof.
  intros Hd. unfold open_refs, referenced_part. rewrite filter_cons.
  assert (is_referenced tab p = negb (ed_refcount d =? 0)) as -> by (unfold is_referenced; by rewrite Hd).
  by destruct (ed_refcount d =? 0).
Qed.

Lemma c_bytes_all s : c_bytes s 0 (Z.of_nat (length s) + 1) = Some (s ++ [0]).
Proof.
  pose proof (Nat2Z.is_nonneg (length s)). unfold c_bytes. replace (_ && _) with true by lia. rewrite drop_0, take_ge; [done|].
  rewrite length_app. simpl. lia.
Qed.

(** The loop from entry [i] on; the table it reads is [tab] with [k] more
    reports. *)
Lemma emit_entries_spec tab seq rest n : forall i off f k,
  es_array tab = None :: (Some <$> seq) ++ rest -> (i + n = length seq)%nat ->
  es_laid tab off (drop i seq) (es_sec_size tab) -> es_sec_size tab < 2 ^ 64 -> 0 <= off ->
  (forall p d, p ∈ seq -> es_data tab p = Some d -> - 2 ^ 31 <= ed_len d < 2 ^ 31) ->
  emit_entries append_write n (Z.of_nat i + 1) off f (add_asserts k tab) =
  Some (true, es_sec_size tab, f ++ kept_bytes tab (drop i seq), add_asserts (k + open_refs tab (drop i seq)) tab).
Proof.
  induction n as [|n IH]; intros i off f k Ha Hn Hl Hsz Hoff Hint.
  - rewrite drop_ge in * by lia. cbn in Hl |- *. rewrite Hl, app_nil_r, Nat.add_0_r. done.
  - destruct (lookup_lt_is_Some_2 seq i ltac:(lia)) as [p Hp]. cbn [emit_entries].
    change (es_slot (add_asserts k tab)) with (es_slot tab). rewrite (inv_slot _ _ _ _ _ Ha Hp).
    rewrite (drop_S _ _ _ Hp) in *. pose proof (es_laid_length _ _ _ _ Hl) as Hfin.
    destruct Hl as (s & d & Hs & Hd & Hl). destruct (entry_of _ _ _ _ Hs Hd) as (e & He & Hes & Hed).
    cbn [mbind option_bind add_asserts es_table]. fold (add_asserts k tab). rewrite He. cbn [mbind option_bind].
    rewrite Hes, Hed, bfd_assert_add, add_asserts_add.
    rewrite (kept_bytes_cons _ _ _ _ _ Hs Hd) in Hfin |- *. rewrite (open_refs_cons _ _ _ _ Hd).
    rewrite length_app in Hfin.
    pose proof (Hint p d ltac:(by eapply list_elem_of_lookup_2) Hd) as Hd31. rewrite sext_u32 by done.
    replace (Z.of_nat i + 1 + 1) with (Z.of_nat (S i) + 1) by lia.
    destruct (Z.ltb_spec 0 (ed_len d)) as [Hpos|Hle].
    + destruct Hl as (Hlen & _ & Hl). replace (ed_len d <=? 0) with false by lia.
      rewrite wrap_small by (unfold fits; lia). rewrite Hlen, c_bytes_all. cbn [mbind option_bind].
      unfold append_write at 1. rewrite length_app in Hfin |- *. simpl length in Hfin |- *.
      rewrite (proj2 (Z.eqb_eq _ _)) by lia. cbn [negb].
      rewrite wrap_small by (unfold fits; lia). rewrite <- Hlen. rewrite IH; try done; [|lia|lia].
      rewrite <- app_assoc. do 2 f_equal. f_equal. lia.
    + replace (ed_len d <=? 0) with true by lia. rewrite IH; try done; [|lia].
      do 2 f_equal. f_equal. lia.
Qed.

Lemma emit_spec tab seq f :
  finished tab seq ->
  bfd_elf_strtab_emit append_write f tab =
  Some (true, f ++ section_bytes tab seq, add_asserts (open_refs tab seq) tab).
Proof.
  intros Hfs. destruct (fs_array _ _ Hfs) as [rest Ha].
  pose proof (emit_entries_spec tab seq rest (length seq) 0 1 (f ++ [0]) 0 Ha eq_refl
    (fs_laid _ _ Hfs) (fs_sec_size _ _ Hfs) ltac:(lia) (fs_int _ _ Hfs)) as He.
  assert (add_asserts 0 tab = tab) as Hz by (by destruct tab). rewrite Hz in He.
  change (Z.of_nat 0 + 1) with 1 in He. cbn [drop Nat.add] in He.
  assert (es_steps tab = length seq) as Hst by (unfold es_steps; rewrite (fs_size _ _ Hfs); lia).
  unfold bfd_elf_strtab_emit. rewrite Hst. unfold append_write at 1. cbn [length].
  change (negb (Z.of_nat 1 =? 1)) with false. cbn iota. rewrite He. cbn [mbind option_bind].
  rewrite bfd_assert_add, add_asserts_add. cbn [es_sec_size add_asserts].
  by rewrite Z.eqb_refl, Nat.add_0_r, <- app_assoc.
Qed.

Lemma section_length tab seq :
  finished tab seq -> Z.of_nat (length (section_bytes tab seq)) = bfd_elf_strtab_size tab.
Proof.
  intros Hfs. pose proof (es_laid_length _ _ _ _ (fs_laid _ _ Hfs)) as Hlen.
  unfold bfd_elf_strtab_size, section_bytes. cbn [length].
  destruct (Z.eqb_spec (es_sec_size tab) 0); lia.
Qed.

(** Giving one reference of [p] back. *)
Lemma finished_store tab seq p d r :
  finished tab seq -> p ∈ seq -> es_data tab p = Some d -> 0 <= r < ed_refcount d ->
  exists tab', es_store p (with_refcount r d) tab = Some tab' /\ finished tab' seq /\
    section_bytes tab' seq = section_bytes tab seq /\ same_shape tab tab' /\
    forall q, es_data tab' q = if decide (q = p) then Some (with_refcount r d) else es_data tab q.
Proof.
  intros Hfs Hp Hd Hr. destruct (es_store_spec p (with_refcount r d) d tab Hd) as (tab' & Hst & Hs & Hd').
  assert (section_bytes tab' seq = section_bytes tab seq) as Hbytes.
  { unfold section_bytes. f_equal. unfold kept_bytes. f_equal. apply list_fmap_ext. intros i q _.
    rewrite (ss_str _ _ Hs), Hd'. case_decide as Hq; [|done]. subst q. by rewrite Hd. }
  exists tab'. split_and!; [done| |done..]. destruct Hfs as [Ha Hsz Hnd Hl Hsec Hint Hpl].
  constructor; rewrite ?(ss_array _ _ Hs), ?(ss_size _ _ Hs), ?(ss_sec_size _ _ Hs); try done.
  - apply (es_laid_ext tab); [apply Hs| |done]. intros q dq _ Hdq. rewrite Hd'.
    case_decide as Hq; [|by exists dq]. subst q. rewrite Hd in Hdq. injection Hdq as <-. by eexists.
  - intros q dq Hq. rewrite Hd'. case_decide as Hqp; [|by apply Hint]. subst q. intros [= <-]. exact (Hint p d Hp Hd).
  - intros q Hq. rewrite Hbytes. destruct (decide (q = p)) as [->|Hqp].
    2: { apply (placed_shape tab); [done|by rewrite Hd', decide_False|by apply Hpl]. }
    destruct (Hpl p Hp) as (s & r0 & Hs0 & Hr0 & Hcase). exists s, r.
    rewrite (ss_str _ _ Hs), Hd', decide_True by done. split; [done|].
    destruct Hcase as [[-> (len & u & Hd0)]|[Hne (len & o & Hd0 & Ho)]];
      rewrite Hd in Hd0; injection Hd0 as ->; cbn in Hr.
    + lia.
    + split; [unfold fits in *; lia|]. destruct (decide (r = 0)) as [->|Hrz]; [left|right]; (split; [done|]).
      * by eexists _, _.
      * by exists len, o.
Qed.

(** The caller's use of the finished table: an offset for each index. *)
Fixpoint take_offsets (tab : elf_strtab_hash) (idxs : list Z) : option (list Z * elf_strtab_hash) :=
  match idxs with
  | [] => Some ([], tab)
  | idx :: idxs =>
      '(o, tab) ← bfd_elf_strtab_offset tab idx;
      '(os, tab) ← take_offsets tab idxs;
      Some (o :: os, tab)
  end.

(** The string that was added under an index; 0 is the empty one. *)
Definition string_at (tab : elf_strtab_hash) (seq : list ptr) (idx : Z) : option cstring :=
  if idx =? 0 then Some [] else p ← seq !! Z.to_nat (idx - 1); es_str tab p.

Definition reads_back (bs : list Z) (o : Z) (s : cstring) : Prop :=
  0 <= o /\ take (length s + 1) (drop (Z.to_nat o) bs) = s ++ [0].

Definition uses (idxs : list Z) (i : nat) : Z := Z.of_nat (count_occ Z.eq_dec idxs (Z.of_nat i + 1)).

Lemma uses_cons idx idxs i : uses (idx :: idxs) i = (if decide (idx = Z.of_nat i + 1) then 1 else 0) + uses idxs i.
Proof.
  unfold uses. destruct (decide (idx = Z.of_nat i + 1)) as [->|Hne].
  - rewrite count_occ_cons_eq by done. lia.
  - by rewrite count_occ_cons_neq.
Qed.

Lemma uses_nonneg idxs i : 0 <= uses idxs i.
Proof. unfold uses. lia. Qed.

Lemma offset_step tab seq i p d :
  finished tab seq -> seq !! i = Some p -> es_data tab p = Some d -> 0 < ed_refcount d ->
  exists o tab' s, bfd_elf_strtab_offset tab (Z.of_nat i + 1) = Some (o, tab') /\
    es_str tab p = Some s /\ reads_back (section_bytes tab seq) o s /\
    finished tab' seq /\ section_bytes tab' seq = section_bytes tab seq /\ same_shape tab tab' /\
    forall q, es_data tab' q = if decide (q = p) then Some (with_refcount (ed_refcount d - 1) d) else es_data tab q.
Proof.
  intros Hfs Hi Hd Hrc. pose proof (section_length _ _ Hfs) as Hlen. pose proof (Nat2Z.is_nonneg i).
  assert (p ∈ seq) as Hp by (by eapply list_elem_of_lookup_2).
  pose proof (lookup_lt_Some _ _ _ Hi) as Hlt. destruct (fs_array _ _ Hfs) as [rest Ha].
  destruct (fs_placed _ _ Hfs p Hp) as (s & r & Hs & Hr & Hcase).
  destruct (finished_store tab seq p d (ed_refcount d - 1) Hfs Hp Hd ltac:(lia))
    as (tab' & Hst & Hfs' & Hbytes & Hsh & Hd').
  destruct Hcase as [[-> (len & u & Hd0)]|[Hne (len & o & Hd0 & Ho1 & Ho2 & Hread)]];
    rewrite Hd in Hd0; injection Hd0 as ->; cbn in Hrc; [lia|].
  exists o, tab', s. split; [|split; [done|split; [split; [lia|done]|done]]].
  unfold bfd_elf_strtab_offset. replace (Z.of_nat i + 1 =? 0) with false by lia.
  rewrite (bfd_assert_true (Z.of_nat i + 1 <? es_size tab)) by (rewrite (fs_size _ _ Hfs); apply Z.ltb_lt; lia).
  assert ((es_sec_size tab =? 0) = false) as Hsec.
  { apply Z.eqb_neq. pose proof (es_laid_length _ _ _ _ (fs_laid _ _ Hfs)). lia. }
  rewrite bfd_assert_true by (by rewrite Hsec). rewrite (inv_slot _ _ _ _ _ Ha Hi). cbn [mbind option_bind].
  rewrite Hd. cbn [mbind option_bind ed_refcount].
  rewrite bfd_assert_true by lia.
  unfold fits in Hr. rewrite wrap_small by (unfold fits; lia).
  cbn [ed_refcount] in Hst. rewrite Hst. done.
Qed.

(** What a run of offsets gives. *)
Record offsets_taken (tab tab' : elf_strtab_hash) (seq : list ptr) (idxs os : list Z) : Prop := {
  ot_finished : finished tab' seq;
  ot_bytes : section_bytes tab' seq = section_bytes tab seq;
  ot_shape : same_shape tab tab';
  ot_data : forall i p d, seq !! i = Some p -> es_data tab p = Some d ->
    es_data tab' p = Some (with_refcount (ed_refcount d - uses idxs i) d);
  ot_read : Forall2 (fun idx o => exists s, string_at tab seq idx = Some s /\
    reads_back (section_bytes tab seq) o s) idxs os
}.

Lemma zero_reads_back tab seq : reads_back (section_bytes tab seq) 0 [].
Proof. by split. Qed.

Lemma take_offsets_spec seq idxs : forall tab,
  finished tab seq -> Forall (fun idx => 0 <= idx <= Z.of_nat (length seq)) idxs ->
  (forall i p d, seq !! i = Some p -> es_data tab p = Some d -> uses idxs i <= ed_refcount d) ->
  exists os tab', take_offsets tab idxs = Some (os, tab') /\ offsets_taken tab tab' seq idxs os.
Proof.
  induction idxs as [|idx idxs IH]; intros tab Hfs Hrange Huses.
  { exists [], tab. split; [done|]. constructor; try done. intros i p d _ Hd. rewrite Hd.
    destruct d. unfold with_refcount, uses. cbn. do 2 f_equal. lia. }
  apply Forall_cons in Hrange as [Hidx Hrange]. cbn [take_offsets].
  destruct (decide (idx = 0)) as [->|Hne].
  - destruct (IH tab Hfs Hrange) as (os & tab' & Hto & [H1 H2 H3 H4 H5]).
    { intros i p d Hi Hd. specialize (Huses i p d Hi Hd). rewrite uses_cons in Huses.
      rewrite decide_False in Huses by lia. lia. }
    cbn [bfd_elf_strtab_offset Z.eqb mbind option_bind]. rewrite Hto. cbn [mbind option_bind].
    exists (0 :: os), tab'. split; [done|]. constructor; try done.
    + intros i p d Hi Hd. rewrite uses_cons, decide_False by lia. by apply H4.
    + constructor; [|done]. exists []. split; [done|]. apply zero_reads_back.
  - assert (exists i, idx = Z.of_nat i + 1) as [i ->] by (exists (Z.to_nat (idx - 1)); lia).
    destruct (lookup_lt_is_Some_2 seq i ltac:(lia)) as [p Hp].
    destruct (fs_placed _ _ Hfs p ltac:(by eapply list_elem_of_lookup_2)) as (s0 & r & _ & Hr & Hcase).
    assert (is_Some (es_data tab p)) as [d Hd].
    { destruct Hcase as [[_ (len & u & ->)]|[_ (len & o & -> & _)]]; by eexists. }
    pose proof (Huses i p d Hp Hd) as Hui. rewrite uses_cons, decide_True in Hui by done.
    pose proof (uses_nonneg idxs i). pose proof (Nat2Z.is_nonneg i).
    destruct (offset_step tab seq i p d Hfs Hp Hd ltac:(lia)) as (o & tab1 & s & -> & Hs & Hread & Hfs1 & Hb1 & Hsh1 & Hd1).
    cbn [mbind option_bind]. pose proof (fs_nodup _ _ Hfs) as Hnd.
    assert (forall j q dq, seq !! j = Some q -> es_data tab q = Some dq ->
      es_data tab1 q = Some (with_refcount (ed_refcount dq - if decide (Z.of_nat i + 1 = Z.of_nat j + 1) then 1 else 0) dq))
      as Hone.
    { intros j q dq Hj Hdq. rewrite Hd1. case_decide as Hqp.
      - subst q. assert (j = i) as -> by (by eapply NoDup_lookup). rewrite decide_True by done. congruence.
      - rewrite decide_False; [rewrite Hdq, Z.sub_0_r; by destruct dq|]. intros Hij. apply Hqp.
        assert (j = i) as -> by lia. congruence. }
    destruct (IH tab1 Hfs1 Hrange) as (os & tab' & Hto & [H1 H2 H3 H4 H5]).
    { intros j q dq Hj Hdq1.
      destruct (es_data tab q) as [dq0|] eqn:Hdq.
      - pose proof (Huses j q dq0 Hj Hdq) as Huj. rewrite uses_cons in Huj.
        rewrite (Hone j q dq0 Hj Hdq) in Hdq1. injection Hdq1 as <-. cbn. lia.
      - rewrite Hd1 in Hdq1. case_decide; [subst; congruence|congruence]. }
    rewrite Hto. cbn [mbind option_bind]. exists (o :: os), tab'. split; [done|]. constructor.
    + done.
    + by rewrite H2, Hb1.
    + by etransitivity.
    + intros j q dq Hj Hdq. rewrite (H4 j q _ Hj (Hone j q dq Hj Hdq)), uses_cons.
      unfold with_refcount. cbn. do 2 f_equal. lia.
    + constructor.
      * exists s. split; [|done]. unfold string_at. replace (Z.of_nat i + 1 =? 0) with false by lia.
        replace (Z.to_nat _) with i by lia. by rewrite Hp.
      * rewrite Hb1 in H5. eapply Forall2_impl; [exact H5|]. intros x y (s' & Hs' & Hr'). exists s'. split; [|done].
        unfold string_at in *. destruct (x =? 0); [done|].
        destruct (seq !! Z.to_nat (x - 1)) as [q|]; [|done]. cbn in *. by rewrite <- (ss_str _ _ Hsh1).
Qed.

Lemma open_refs_zero tab seq :
  (forall p d, p ∈ seq -> es_data tab p = Some d -> ed_refcount d = 0) -> open_refs tab seq = 0%nat.
Proof.
  unfold open_refs, referenced_part. induction seq as [|p seq IH]; intros H; [done|].
  rewrite filter_cons. rewrite decide_False.
  - apply IH. intros q d Hq. apply H. by right.
  - unfold is_referenced. destruct (es_data tab p) as [d|] eqn:Hd; [|done]. by rewrite (H p d) by (done || left).
Qed.

(** ** Properties *)

(** C15: The life of a table after its last change.  Finalizing succeeds; the
    offsets then asked for, no more of each index than it has references, are
    places of the written section where the string of the index stands with
    its null byte; the section is written as one block of as many bytes as
    the table's size says, the same however the offsets were asked for; no
    assertion reports but one for each index whose references were not all
    used, and finalizing needs memory only when some string has no
    reference. *)
Theorem elf_strtab_roundtrip tab seq m ok_malloc idxs :
  es_inv tab seq m -> 1 + Z.of_nat (length (all_bytes tab seq)) < 2 ^ 64 ->
  ok_malloc = true \/ (forall p, p ∈ seq -> referenced tab p) ->
  Forall (fun idx => 0 <= idx <= Z.of_nat (length seq)) idxs ->
  (forall i p d, seq !! i = Some p -> es_data tab p = Some d -> uses idxs i <= ed_refcount d) ->
  exists tab1 os tab2 bs,
    bfd_elf_strtab_finalize ok_malloc tab = Some tab1 /\ take_offsets tab1 idxs = Some (os, tab2) /\
    Forall2 (fun idx o => exists s, string_at tab seq idx = Some s /\ reads_back bs o s) idxs os /\
    Z.of_nat (length bs) = bfd_elf_strtab_size tab2 /\ es_asserts tab2 = es_asserts tab /\
    (forall f, bfd_elf_strtab_emit append_write f tab2 =
       Some (true, f ++ bs, add_asserts (open_refs tab2 seq) tab2)) /\
    ((forall i p d, seq !! i = Some p -> es_data tab p = Some d -> uses idxs i = ed_refcount d) ->
       open_refs tab2 seq = 0%nat).
Proof.
  intros Hinv Hsize Hok Hrange Huses.
  destruct (finalize_spec tab seq m ok_malloc Hinv Hsize Hok) as (tab1 & Hfin & [Hfs Has Hstr Hrc _] & _).
  assert (forall q d, es_data tab1 q = Some d ->
    exists d0, es_data tab q = Some d0 /\ ed_refcount d0 = ed_refcount d) as Hback.
  { intros q d Hd. specialize (Hrc q). rewrite Hd in Hrc. destruct (es_data tab q) as [d0|]; [|done].
    injection Hrc as Hrc. by exists d0. }
  destruct (take_offsets_spec seq idxs tab1 Hfs Hrange) as (os & tab2 & Hto & [Hfs2 Hb Hsh Hd Hread]).
  { intros i p d Hi Hd. destruct (Hback p d Hd) as (d0 & Hd0 & <-). by apply (Huses i p). }
  exists tab1, os, tab2, (section_bytes tab1 seq). split_and!; [done|done| | | | |].
  - eapply Forall2_impl; [exact Hread|]. intros idx o (s & Hs & Hr). exists s. split; [|done].
    unfold string_at in *. destruct (idx =? 0); [done|].
    destruct (seq !! Z.to_nat (idx - 1)) as [q|]; [|done]. cbn in *. by rewrite <- Hstr.
  - rewrite <- Hb. by apply section_length.
  - by rewrite (ss_asserts _ _ Hsh).
  - intros f. rewrite <- Hb. by apply emit_spec.
  - intros Hall. apply open_refs_zero. intros p d Hp Hdp. apply list_elem_of_lookup in Hp as [i Hi].
    assert (is_Some (es_data tab1 p)) as [d1 Hd1].
    { destruct (fs_placed _ _ Hfs p) as (s & r & _ & _ & H); [by eapply list_elem_of_lookup_2|].
      destruct H as [[_ (len & u & ->)]|[_ (len & o & -> & _)]]; by eexists. }
    rewrite (Hd i p d1 Hi Hd1) in Hdp. injection Hdp as <-. cbn.
    destruct (Hback p d1 Hd1) as (d0 & Hd0 & <-). rewrite (Hall i p d0 Hi Hd0). lia.
Qed.

(** C21: The merging is complete: of the strings that the finished table writes,
    all are referenced, none ends another, and every referenced string ends
    one of them. *)
Theorem elf_strtab_merge_minimal tab seq m :
  es_inv tab seq m -> 1 + Z.of_nat (length (all_bytes tab seq)) < 2 ^ 64 ->
  exists tab', bfd_elf_strtab_finalize true tab = Some tab' /\
    (forall p, p ∈ seq -> kept tab' p -> referenced tab p) /\
    (forall p q, p ∈ seq -> q ∈ seq -> kept tab' p -> kept tab' q -> ends tab p q -> p = q) /\
    (forall p, p ∈ seq -> referenced tab p -> exists q, q ∈ seq /\ kept tab' q /\ ends tab p q).
Proof.
  intros Hinv Hsize.
  destruct (finalize_spec tab seq m true Hinv Hsize) as (tab' & Hfin & Hfz & Hmin & Hcov); [by left|].
  pose proof (fz_kept _ _ _ Hfz) as Hkept.
  exists tab'. split_and!; [done..| |done]. intros p q Hp Hq Hkp Hkq.
  assert (forall x, x ∈ seq -> kept tab' x -> x ∈ referenced_part tab seq) as Hin.
  { intros x Hx (d & Hd & Hne)%Hkept; [|done]. unfold referenced_part. rewrite list_elem_of_filter.
    split; [|done]. unfold is_referenced. rewrite Hd. by apply negb_true_iff, Z.eqb_neq. }
  apply (Hmin eq_refl); auto.
Qed.

(** ** Witnesses *)

Lemma elf_sample_strings :
  all_bytes elf_sample [0%nat; 1%nat] = [98; 99; 0; 99; 0].
Proof. vm_compute. reflexivity. Qed.

Lemma elf_strtab_roundtrip_witness :
  exists tab1 os tab2 bs,
    bfd_elf_strtab_finalize true elf_sample = Some tab1 /\ take_offsets tab1 [2; 1] = Some (os, tab2) /\
    (forall f, bfd_elf_strtab_emit append_write f tab2 =
       Some (true, f ++ bs, add_asserts (open_refs tab2 [0%nat; 1%nat]) tab2)) /\
    open_refs tab2 [0%nat; 1%nat] = 0%nat.
Proof.
  destruct elf_sample_inv as [m Hinv].
  assert (forall i p d, [0%nat; 1%nat] !! i = Some p -> es_data elf_sample p = Some d ->
    uses [2; 1] i = ed_refcount d) as Huses.
  { intros [|[|i]] p d Hi; [| |discriminate Hi]; injection Hi as <-;
      vm_compute; intros [= <-]; reflexivity. }
  destruct (elf_strtab_roundtrip elf_sample [0%nat; 1%nat] m true [2; 1] Hinv)
    as (tab1 & os & tab2 & bs & Hfin & Hto & _ & _ & _ & Hemit & Hopen).
  - rewrite elf_sample_strings. simpl. lia.
  - left. reflexivity.
  - repeat constructor; simpl; lia.
  - intros i p d Hi Hd. rewrite (Huses i p d Hi Hd). reflexivity.
  - exists tab1, os, tab2, bs. split; [exact Hfin|]. split; [exact Hto|]. split; [exact Hemit|].
    apply Hopen. exact Huses.
Defined.

(** "c" ends "bc". *)
Lemma elf_strtab_merge_minimal_witness :
  exists tab', bfd_elf_strtab_finalize true elf_sample = Some tab' /\ ~ kept tab' 1%nat.
Proof.
  destruct elf_sample_inv as [m Hinv].
  destruct (elf_strtab_merge_minimal elf_sample [0%nat; 1%nat] m Hinv) as (tab' & Hfin & _ & Hmin & _).
  - rewrite elf_sample_strings. simpl. lia.
  - exists tab'. split; [exact Hfin|]. intros Hk1.
    assert (bfd_elf_strtab_finalize true elf_sample ≫= (fun t => es_data t 0%nat) =
      Some (mkElfData 3 1 (EU_index 1))) as Hd0 by (vm_compute; reflexivity).
    rewrite Hfin in Hd0. cbn in Hd0.
    assert (1%nat = 0%nat) as Hbad; [|discriminate Hbad].
    apply Hmin; [right; left|left|exact Hk1| |].
    + exists (mkElfData 3 1 (EU_index 1)). split; [exact Hd0|simpl; lia].
    + exists [99], [98; 99]. split; [vm_compute; reflexivity|]. split; [vm_compute; reflexivity|].
      exists [98]. reflexivity.
Defined.

(** When the array cannot be allocated, an entry without references keeps its
    length: the section is said to have 4 bytes and 6 are written. *)
Lemma elf_finalize_without_memory :
  exists tab1 tab2 tab3,
    bfd_elf_strtab_delref elf_sample 2 = Some tab1 /\
    bfd_elf_strtab_finalize false tab1 = Some tab2 /\ bfd_elf_strtab_size tab2 = 4 /\
    bfd_elf_strtab_emit append_write [] tab2 = Some (true, [0; 98; 99; 0; 99; 0], tab3).
Proof. do 3 eexists. split; [vm_compute; reflexivity|]. split; [vm_compute; reflexivity|]. split; vm_compute; reflexivity. Qed.
