(* ===== verification/Cache.v ===== *)
(** The file cache: cache.c keeps at most a number of files open, closes the
    least recently used one when it needs another, and reopens a file at the
    position it had; bfdio.c reads, writes and seeks through it, or through a
    buffer for files in memory.

    BFDs live in a heap and link one another in a ring through [b_lru_next] and
    [b_lru_prev]; streams are addresses of C's FILE objects, which are buffered:
    they have an inode, a position and an error flag, the bytes written that have
    not reached the inode, and bytes of the inode that have been fetched ahead.
    [os_oracle] answers for the coming calls of the system and of the lock
    functions, [os_close_oracle] for the calls of fclose (an exhausted list
    answers with success), and [os_buffering] says how many bytes the coming
    reads fetch ahead and how many the coming writes hold back (an exhausted list
    says none).  [None] is undefined behaviour: [abort], a null pointer, a closed
    stream, reading from a stream after writing to it without a flush or a seek
    between, writing after reading without a seek between (C17 7.21.5.3). *)

From S2P Require Import Prelude HashTable.

(** ** The C library's files *)

(** The last operation on a stream, when it restricts the next one. *)
Inductive last_op := F_neutral | F_input | F_output.

#[export] Instance last_op_eq_dec : EqDecision last_op.
Proof. solve_decision. Defined.

(** [f_out] are the bytes before [f_pos] that are not in the inode yet,
    [f_ahead] the bytes from [f_pos] on that have been fetched. *)
Record FILE := mkFILE {
  f_inode : nat;
  f_pos : Z;
  f_writable : bool;
  f_error : bool;
  f_last : last_op;
  f_out : list Z;
  f_ahead : list Z
}.

Definition fresh_FILE (ino : nat) (writable : bool) : FILE := mkFILE ino 0 writable false F_neutral [] [].

Record os := mkOs {
  os_names : gmap string nat;
  os_inodes : gmap nat (list Z);
  os_next_inode : nat;
  os_files : gmap nat FILE;
  os_next_file : nat;
  os_limit : Z;
  os_oracle : list bool;
  os_close_oracle : list bool;
  os_buffering : list nat
}.

Inductive open_mode := FOPEN_RB | FOPEN_RUB | FOPEN_WUB.
Inductive whence := SEEK_SET | SEEK_CUR | SEEK_END.
Inductive errno := E_NONE | EINVAL | ENOSPC | E_OTHER.

#[export] Instance whence_eq_dec : EqDecision whence.
Proof. solve_decision. Defined.
#[export] Instance errno_eq_dec : EqDecision errno.
Proof. solve_decision. Defined.

(** ** BFDs *)

Inductive stream := S_file (f : nat) | S_memory (bim : nat).
Inductive iovec := cache_iovec | memory_iovec.
Inductive bfd_direction := no_direction | read_direction | write_direction | both_direction.
Inductive bfd_last_io := bfd_io_seek | bfd_io_read | bfd_io_write | bfd_io_force.
Inductive bfd_error := bfd_error_no_error | bfd_error_system_call | bfd_error_invalid_operation
  | bfd_error_file_truncated.

#[export] Instance iovec_eq_dec : EqDecision iovec.
Proof. solve_decision. Defined.
#[export] Instance stream_eq_dec : EqDecision stream.
Proof. solve_decision. Defined.
#[export] Instance bfd_last_io_eq_dec : EqDecision bfd_last_io.
Proof. solve_decision. Defined.

(** [b_in_memory] and [b_closed_by_cache] are bits of [flags]; [b_arelt_size]
    is the parsed size of [arelt_data], when there is one. *)
Record bfd := mkBfd {
  b_filename : string;
  b_iostream : option stream;
  b_iovec : option iovec;
  b_lru_prev : option ptr;
  b_lru_next : option ptr;
  b_where : Z;
  b_in_memory : bool;
  b_closed_by_cache : bool;
  b_direction : bfd_direction;
  b_last_io : bfd_last_io;
  b_cacheable : bool;
  b_opened_once : bool;
  b_is_thin_archive : bool;
  b_in_format_matches : bool;
  b_origin : Z;
  b_my_archive : option ptr;
  b_arelt_size : option Z;
  b_file_size : Z
}.

Definition set_iostream (v : option stream) (b : bfd) : bfd :=
  mkBfd (b_filename b) v (b_iovec b) (b_lru_prev b) (b_lru_next b) (b_where b) (b_in_memory b)
    (b_closed_by_cache b) (b_direction b) (b_last_io b) (b_cacheable b) (b_opened_once b) (b_is_thin_archive
    b) (b_in_format_matches b) (b_origin b) (b_my_archive b) (b_arelt_size b) (b_file_size b).
Definition set_iovec (v : option iovec) (b : bfd) : bfd :=
  mkBfd (b_filename b) (b_iostream b) v (b_lru_prev b) (b_lru_next b) (b_where b) (b_in_memory b)
    (b_closed_by_cache b) (b_direction b) (b_last_io b) (b_cacheable b) (b_opened_once b) (b_is_thin_archive
    b) (b_in_format_matches b) (b_origin b) (b_my_archive b) (b_arelt_size b) (b_file_size b).
Definition set_lru_prev (v : option ptr) (b : bfd) : bfd :=
  mkBfd (b_filename b) (b_iostream b) (b_iovec b) v (b_lru_next b) (b_where b) (b_in_memory b)
    (b_closed_by_cache b) (b_direction b) (b_last_io b) (b_cacheable b) (b_opened_once b) (b_is_thin_archive
    b) (b_in_format_matches b) (b_origin b) (b_my_archive b) (b_arelt_size b) (b_file_size b).
Definition set_lru_next (v : option ptr) (b : bfd) : bfd :=
  mkBfd (b_filename b) (b_iostream b) (b_iovec b) (b_lru_prev b) v (b_where b) (b_in_memory b)
    (b_closed_by_cache b) (b_direction b) (b_last_io b) (b_cacheable b) (b_opened_once b) (b_is_thin_archive
    b) (b_in_format_matches b) (b_origin b) (b_my_archive b) (b_arelt_size b) (b_file_size b).
Definition set_where (v : Z) (b : bfd) : bfd :=
  mkBfd (b_filename b) (b_iostream b) (b_iovec b) (b_lru_prev b) (b_lru_next b) v (b_in_memory b)
    (b_closed_by_cache b) (b_direction b) (b_last_io b) (b_cacheable b) (b_opened_once b) (b_is_thin_archive
    b) (b_in_format_matches b) (b_origin b) (b_my_archive b) (b_arelt_size b) (b_file_size b).
Definition set_closed_by_cache (v : bool) (b : bfd) : bfd :=
  mkBfd (b_filename b) (b_iostream b) (b_iovec b) (b_lru_prev b) (b_lru_next b) (b_where b) (b_in_memory b)
    v (b_direction b) (b_last_io b) (b_cacheable b) (b_opened_once b) (b_is_thin_archive b)
    (b_in_format_matches b) (b_origin b) (b_my_archive b) (b_arelt_size b) (b_file_size b).
Definition set_last_io (v : bfd_last_io) (b : bfd) : bfd :=
  mkBfd (b_filename b) (b_iostream b) (b_iovec b) (b_lru_prev b) (b_lru_next b) (b_where b) (b_in_memory b)
    (b_closed_by_cache b) (b_direction b) v (b_cacheable b) (b_opened_once b) (b_is_thin_archive b)
    (b_in_format_matches b) (b_origin b) (b_my_archive b) (b_arelt_size b) (b_file_size b).
Definition set_cacheable (v : bool) (b : bfd) : bfd :=
  mkBfd (b_filename b) (b_iostream b) (b_iovec b) (b_lru_prev b) (b_lru_next b) (b_where b) (b_in_memory b)
    (b_closed_by_cache b) (b_direction b) (b_last_io b) v (b_opened_once b) (b_is_thin_archive b)
    (b_in_format_matches b) (b_origin b) (b_my_archive b) (b_arelt_size b) (b_file_size b).
Definition set_opened_once (v : bool) (b : bfd) : bfd :=
  mkBfd (b_filename b) (b_iostream b) (b_iovec b) (b_lru_prev b) (b_lru_next b) (b_where b) (b_in_memory b)
    (b_closed_by_cache b) (b_direction b) (b_last_io b) (b_cacheable b) v (b_is_thin_archive b)
    (b_in_format_matches b) (b_origin b) (b_my_archive b) (b_arelt_size b) (b_file_size b).
Definition set_in_format_matches (v : bool) (b : bfd) : bfd :=
  mkBfd (b_filename b) (b_iostream b) (b_iovec b) (b_lru_prev b) (b_lru_next b) (b_where b) (b_in_memory b)
    (b_closed_by_cache b) (b_direction b) (b_last_io b) (b_cacheable b) (b_opened_once b) (b_is_thin_archive
    b) v (b_origin b) (b_my_archive b) (b_arelt_size b) (b_file_size b).
Definition set_file_size (v : Z) (b : bfd) : bfd :=
  mkBfd (b_filename b) (b_iostream b) (b_iovec b) (b_lru_prev b) (b_lru_next b) (b_where b) (b_in_memory b)
    (b_closed_by_cache b) (b_direction b) (b_last_io b) (b_cacheable b) (b_opened_once b) (b_is_thin_archive
    b) (b_in_format_matches b) (b_origin b) (b_my_archive b) (b_arelt_size b) v.

(** [bim_buffer] is what the buffer holds, to its allocated size; [None] is a
    byte that was never written. *)
Record bfd_in_memory := mkInMemory {
  bim_size : Z;
  bim_buffer : list (option Z)
}.

(** The static variables of cache.c with everything they reach; [c_reports]
    are the BFDs of the "reopening" messages, [c_asserts] counts the reports
    of BFD_ASSERT. *)
Record cstate := mkCstate {
  c_bfds : gmap ptr bfd;
  c_last_cache : option ptr;
  c_open_files : Z;
  c_max_open_files : Z;
  c_memory : gmap nat bfd_in_memory;
  c_os : os;
  c_error : bfd_error;
  c_errno : errno;
  c_asserts : nat;
  c_reports : list ptr
}.

Definition set_c_bfds (v : gmap ptr bfd) (s : cstate) : cstate :=
  mkCstate v (c_last_cache s) (c_open_files s) (c_max_open_files s) (c_memory s) (c_os s) (c_error s)
    (c_errno s) (c_asserts s) (c_reports s).
Definition set_c_last_cache (v : option ptr) (s : cstate) : cstate :=
  mkCstate (c_bfds s) v (c_open_files s) (c_max_open_files s) (c_memory s) (c_os s) (c_error s) (c_errno s)
    (c_asserts s) (c_reports s).
Definition set_c_open_files (v : Z) (s : cstate) : cstate :=
  mkCstate (c_bfds s) (c_last_cache s) v (c_max_open_files s) (c_memory s) (c_os s) (c_error s) (c_errno s)
    (c_asserts s) (c_reports s).
Definition set_c_max_open_files (v : Z) (s : cstate) : cstate :=
  mkCstate (c_bfds s) (c_last_cache s) (c_open_files s) v (c_memory s) (c_os s) (c_error s) (c_errno s)
    (c_asserts s) (c_reports s).
Definition set_c_memory (v : gmap nat bfd_in_memory) (s : cstate) : cstate :=
  mkCstate (c_bfds s) (c_last_cache s) (c_open_files s) (c_max_open_files s) v (c_os s) (c_error s) (c_errno
    s) (c_asserts s) (c_reports s).
Definition set_c_os (v : os) (s : cstate) : cstate :=
  mkCstate (c_bfds s) (c_last_cache s) (c_open_files s) (c_max_open_files s) (c_memory s) v (c_error s)
    (c_errno s) (c_asserts s) (c_reports s).
Definition set_c_error (v : bfd_error) (s : cstate) : cstate :=
  mkCstate (c_bfds s) (c_last_cache s) (c_open_files s) (c_max_open_files s) (c_memory s) (c_os s) v
    (c_errno s) (c_asserts s) (c_reports s).
Definition set_c_errno (v : errno) (s : cstate) : cstate :=
  mkCstate (c_bfds s) (c_last_cache s) (c_open_files s) (c_max_open_files s) (c_memory s) (c_os s) (c_error
    s) v (c_asserts s) (c_reports s).
Definition set_c_asserts (v : nat) (s : cstate) : cstate :=
  mkCstate (c_bfds s) (c_last_cache s) (c_open_files s) (c_max_open_files s) (c_memory s) (c_os s) (c_error
    s) (c_errno s) v (c_reports s).
Definition set_c_reports (v : list ptr) (s : cstate) : cstate :=
  mkCstate (c_bfds s) (c_last_cache s) (c_open_files s) (c_max_open_files s) (c_memory s) (c_os s) (c_error
    s) (c_errno s) (c_asserts s) v.

(** ** The state monad *)

Definition M (A : Type) : Type := cstate -> option (A * cstate).

Definition ret {A} (a : A) : M A := fun s => Some (a, s).
#[export] Instance M_bind : MBind M := fun A B f m s =>
  match m s with Some (a, s') => f a s' | None => None end.

Definition gets {A} (f : cstate -> A) : M A := fun s => Some (f s, s).
Definition modify (f : cstate -> cstate) : M unit := fun s => Some (tt, f s).
Definition undefined {A} : M A := fun _ => None.
Definition the {A} (o : option A) : M A := match o with Some a => ret a | None => undefined end.

Definition get_bfd (p : ptr) : M bfd := o ← gets (fun s => c_bfds s !! p); the o.
Definition set_bfd (p : ptr) (f : bfd -> bfd) : M unit :=
  b ← get_bfd p; modify (fun s => set_c_bfds (<[p := f b]> (c_bfds s)) s).

Definition bfd_set_error (e : bfd_error) : M unit := modify (set_c_error e).
Definition set_errno (e : errno) : M unit := modify (set_c_errno e).
Definition BFD_ASSERT (b : bool) : M unit :=
  if b then ret tt else modify (fun s => set_c_asserts (S (c_asserts s)) s).

(** *** System calls *)

Definition set_os (f : os -> os) : M unit := modify (fun s => set_c_os (f (c_os s)) s).

Definition answer : M bool := fun s =>
  let o := c_os s in
  match os_oracle o with
  | [] => Some (true, s)
  | ok :: rest =>
      Some (ok, set_c_os (mkOs (os_names o) (os_inodes o) (os_next_inode o) (os_files o) (os_next_file o)
                            (os_limit o) rest (os_close_oracle o) (os_buffering o)) s)
  end.

Definition close_answer : M bool := fun s =>
  let o := c_os s in
  match os_close_oracle o with
  | [] => Some (true, s)
  | ok :: rest =>
      Some (ok, set_c_os (mkOs (os_names o) (os_inodes o) (os_next_inode o) (os_files o) (os_next_file o)
                            (os_limit o) (os_oracle o) rest (os_buffering o)) s)
  end.

Definition buffering : M nat := fun s =>
  let o := c_os s in
  match os_buffering o with
  | [] => Some (0%nat, s)
  | k :: rest =>
      Some (k, set_c_os (mkOs (os_names o) (os_inodes o) (os_next_inode o) (os_files o) (os_next_file o)
                           (os_limit o) (os_oracle o) (os_close_oracle o) rest) s)
  end.

Definition set_files (fs : gmap nat FILE) (o : os) : os :=
  mkOs (os_names o) (os_inodes o) (os_next_inode o) fs (os_next_file o) (os_limit o)
    (os_oracle o) (os_close_oracle o) (os_buffering o).
Definition set_inode (ino : nat) (bs : list Z) (o : os) : os :=
  mkOs (os_names o) (<[ino := bs]> (os_inodes o)) (os_next_inode o) (os_files o) (os_next_file o)
    (os_limit o) (os_oracle o) (os_close_oracle o) (os_buffering o).

Definition new_file (F : FILE) : M nat :=
  f ← gets (fun s => os_next_file (c_os s));
  _ ← set_os (fun o => mkOs (os_names o) (os_inodes o) (os_next_inode o) (<[f := F]> (os_files o)) (S f)
                        (os_limit o) (os_oracle o) (os_close_oracle o) (os_buffering o));
  ret f.

Definition new_inode (name : string) : M nat :=
  ino ← gets (fun s => os_next_inode (c_os s));
  _ ← set_os (fun o => mkOs (<[name := ino]> (os_names o)) (<[ino := []]> (os_inodes o)) (S ino) (os_files o)
                        (os_next_file o) (os_limit o) (os_oracle o) (os_close_oracle o) (os_buffering o));
  ret ino.

Definition fopen (name : string) (mode : open_mode) : M (option nat) :=
  ok ← answer;
  if negb ok then _ ← set_errno E_OTHER; ret None
  else
    ino ← gets (fun s => os_names (c_os s) !! name);
    match mode, ino with
    | FOPEN_RB, Some ino => f ← new_file (fresh_FILE ino false); ret (Some f)
    | FOPEN_RUB, Some ino => f ← new_file (fresh_FILE ino true); ret (Some f)
    | FOPEN_WUB, Some ino => _ ← set_os (set_inode ino []); f ← new_file (fresh_FILE ino true); ret (Some f)
    | FOPEN_WUB, None => ino ← new_inode name; f ← new_file (fresh_FILE ino true); ret (Some f)
    | _, None => _ ← set_errno E_OTHER; ret None
    end.

Definition get_file (f : nat) : M FILE := o ← gets (fun s => os_files (c_os s) !! f); the o.
Definition set_file (f : nat) (F : FILE) : M unit := set_os (fun o => set_files (<[f := F]> (os_files o)) o).
Definition inode_bytes (ino : nat) : M (list Z) := o ← gets (fun s => os_inodes (c_os s) !! ino); the o.

(** [bs] written over [bytes] at [pos], zeros filling a hole. *)
Definition overwrite (bytes : list Z) (pos : nat) (bs : list Z) : list Z :=
  take pos bytes ++ replicate (pos - length bytes) 0 ++ bs ++ drop (pos + length bs) bytes.

(** The write of the bytes of a buffer, if there are any. *)
Definition deliver (bytes : list Z) (pos : nat) (out : list Z) : list Z :=
  match out with [] => bytes | _ => overwrite bytes pos out end.

(** Where the unwritten bytes of a stream belong. *)
Definition out_start (F : FILE) : nat := Z.to_nat (f_pos F) - length (f_out F).
(** The inode's bytes when the stream is flushed. *)
Definition flushed (F : FILE) (bytes : list Z) : list Z := deliver bytes (out_start F) (f_out F).

(** True when fclose returns 0; the stream is closed anyway, and when it fails
    what was not written is lost. *)
Definition fclose (f : nat) : M bool :=
  F ← get_file f;
  bytes ← inode_bytes (f_inode F);
  closed ← close_answer;
  _ ← (if (closed : bool) then set_os (set_inode (f_inode F) (flushed F bytes)) else ret tt);
  _ ← set_os (fun o => set_files (delete f (os_files o)) o);
  ret closed.

Definition ftell (f : nat) : M Z := F ← get_file f; ret (f_pos F).

(** True when fseek returns 0. *)
Definition fseek (f : nat) (offset : Z) (w : whence) : M bool :=
  F ← get_file f;
  bytes ← inode_bytes (f_inode F);
  ok ← answer;
  let bytes := flushed F bytes in
  let pos := match w with SEEK_SET => 0 | SEEK_CUR => f_pos F | SEEK_END => Z.of_nat (length bytes) end + offset in
  if pos <? 0 then _ ← set_errno EINVAL; ret false
  else if negb ok then _ ← set_errno E_OTHER; ret false
  else
    _ ← set_os (set_inode (f_inode F) bytes);
    _ ← set_file f (mkFILE (f_inode F) pos (f_writable F) (f_error F) F_neutral [] []);
    ret true.

(** [fread (buf, 1, nbytes, f)]: the bytes read.  Reading to the end of the file
    allows to write next. *)
Definition fread (nbytes : Z) (f : nat) : M (list Z) :=
  F ← get_file f;
  bytes ← inode_bytes (f_inode F);
  if nbytes =? 0 then ret []
  else if decide (f_last F = F_output) then undefined
  else
    ok ← answer;
    if negb ok then
      _ ← set_file f (mkFILE (f_inode F) (f_pos F) (f_writable F) true F_input (f_out F) (f_ahead F));
      ret []
    else
      more ← buffering;
      let n := Z.to_nat nbytes in
      let rest := f_ahead F ++ drop (Z.to_nat (f_pos F) + length (f_ahead F)) bytes in
      let got := take n rest in
      _ ← set_file f (mkFILE (f_inode F) (f_pos F + Z.of_nat (length got)) (f_writable F) (f_error F)
                        (if Z.of_nat (length got) <? nbytes then F_neutral else F_input) (f_out F)
                        (take (Nat.max more (length (f_ahead F) - n)) (drop n rest)));
      ret got.

(** [fwrite (bs, 1, size, f)]: the number of bytes taken; all but the last of
    them go to the inode. *)
Definition fwrite (bs : list Z) (f : nat) : M Z :=
  F ← get_file f;
  bytes ← inode_bytes (f_inode F);
  if bool_decide (bs = []) then ret 0
  else if f_writable F && bool_decide (f_last F = F_input) then undefined
  else
    ok ← answer;
    if negb (ok && f_writable F) then
      _ ← set_file f (mkFILE (f_inode F) (f_pos F) (f_writable F) true (f_last F) (f_out F) (f_ahead F));
      ret 0
    else
      kept ← buffering;
      let out := f_out F ++ bs in
      let sent := take (length out - kept) out in
      _ ← set_os (set_inode (f_inode F) (deliver bytes (out_start F) sent));
      _ ← set_file f (mkFILE (f_inode F) (f_pos F + Z.of_nat (length bs)) (f_writable F) (f_error F)
                        F_output (drop (length out - kept) out) []);
      ret (Z.of_nat (length bs)).

Definition ferror (f : nat) : M bool := F ← get_file f; ret (f_error F).

(** On a stream that was read from, what POSIX says: the bytes fetched ahead are
    dropped. *)
Definition fflush (f : nat) : M Z :=
  F ← get_file f;
  bytes ← inode_bytes (f_inode F);
  ok ← answer;
  if negb ok then
    _ ← set_file f (mkFILE (f_inode F) (f_pos F) (f_writable F) true (f_last F) (f_out F) (f_ahead F));
    ret (-1)
  else
    _ ← set_os (set_inode (f_inode F) (flushed F bytes));
    _ ← set_file f (mkFILE (f_inode F) (f_pos F) (f_writable F) (f_error F)
                      (if decide (f_last F = F_output) then F_neutral else f_last F) [] []);
    ret 0.

(** The size, when fstat succeeds: what has reached the inode counts. *)
Definition fstat (f : nat) : M (option Z) :=
  F ← get_file f;
  bytes ← inode_bytes (f_inode F);
  ok ← answer;
  ret (if (ok : bool) then Some (Z.of_nat (length bytes)) else None).

(** The size of the file of that name, when there is one. *)
Definition stat (name : string) : M (option Z) :=
  ok ← answer;
  ino ← gets (fun s => os_names (c_os s) !! name);
  match ino with
  | Some ino => bytes ← inode_bytes ino; ret (if (ok : bool) then Some (Z.of_nat (length bytes)) else None)
  | None => ret None
  end.

(** libiberty's removal of a regular file: the name goes, the inode stays for
    those who have it open. *)
Definition unlink_if_ordinary (name : string) : M unit :=
  set_os (fun o => mkOs (delete name (os_names o)) (os_inodes o) (os_next_inode o) (os_files o)
                    (os_next_file o) (os_limit o) (os_oracle o) (os_close_oracle o) (os_buffering o)).

(** ** cache.c *)

Definition CACHE_NORMAL : Z := 0.
Definition CACHE_NO_OPEN : Z := 1.
Definition CACHE_NO_SEEK : Z := 2.
Definition CACHE_NO_SEEK_ERROR : Z := 4.

(** [if (flag & bit)] *)
Definition has_flag (flag bit : Z) : bool := negb (flag .& bit =? 0).

(** [os_limit] is the number the system's limit comes to, an int: an eighth of
    RLIMIT_NOFILE or of sysconf's answer. *)
Definition bfd_cache_max_open : M Z :=
  max_open_files ← gets c_max_open_files;
  if max_open_files =? 0 then
    max ← gets (fun s => os_limit (c_os s));
    let max_open_files := if max <? 10 then 10 else max in
    _ ← modify (set_c_max_open_files max_open_files);
    ret max_open_files
  else ret max_open_files.

(** The lock functions of the program, if it has any. *)
Definition bfd_lock : M bool := answer.
Definition bfd_unlock : M bool := answer.

Definition insert (abfd : ptr) : M unit :=
  bfd_last_cache ← gets c_last_cache;
  _ ← (match bfd_last_cache with
       | None =>
           _ ← set_bfd abfd (set_lru_next (Some abfd));
           set_bfd abfd (set_lru_prev (Some abfd))
       | Some last =>
           _ ← set_bfd abfd (set_lru_next (Some last));
           l ← get_bfd last;
           _ ← set_bfd abfd (set_lru_prev (b_lru_prev l));
           a ← get_bfd abfd;
           prev ← the (b_lru_prev a);
           _ ← set_bfd prev (set_lru_next (Some abfd));
           a ← get_bfd abfd;
           next ← the (b_lru_next a);
           set_bfd next (set_lru_prev (Some abfd))
       end);
  modify (set_c_last_cache (Some abfd)).

Definition snip (abfd : ptr) : M unit :=
  a ← get_bfd abfd;
  prev ← the (b_lru_prev a);
  _ ← set_bfd prev (set_lru_next (b_lru_next a));
  a ← get_bfd abfd;
  next ← the (b_lru_next a);
  _ ← set_bfd next (set_lru_prev (b_lru_prev a));
  bfd_last_cache ← gets c_last_cache;
  if decide (Some abfd = bfd_last_cache) then
    a ← get_bfd abfd;
    let bfd_last_cache := b_lru_next a in
    modify (set_c_last_cache (if decide (Some abfd = bfd_last_cache) then None else bfd_last_cache))
  else ret tt.

(** [(FILE * ) abfd->iostream] *)
Definition as_file (s : option stream) : M (option nat) :=
  match s with
  | None => ret None
  | Some (S_file f) => ret (Some f)
  | Some (S_memory _) => undefined
  end.

Definition bfd_cache_delete (abfd : ptr) : M bool :=
  a ← get_bfd abfd;
  f ← as_file (b_iostream a);
  f ← the f;
  closed ← fclose f;
  _ ← (if (closed : bool) then ret tt else bfd_set_error bfd_error_system_call);
  _ ← snip abfd;
  _ ← set_bfd abfd (set_iostream None);
  open_files ← gets c_open_files;
  _ ← BFD_ASSERT (0 <? open_files);
  _ ← modify (set_c_open_files (u32 (open_files - 1)));
  _ ← set_bfd abfd (set_closed_by_cache true);
  _ ← set_bfd abfd (set_last_io bfd_io_force);
  ret closed.

(** The search of [close_one] from [to_kill]: at most [n] entries are in the
    ring. *)
Fixpoint find_to_kill (n : nat) (last to_kill : ptr) : M (option ptr) :=
  match n with
  | O => undefined
  | S n =>
      b ← get_bfd to_kill;
      if b_cacheable b then ret (Some to_kill)
      else if decide (to_kill = last) then ret None
      else prev ← the (b_lru_prev b); find_to_kill n last prev
  end.

Definition close_one : M bool :=
  bfd_last_cache ← gets c_last_cache;
  n ← gets (fun s => size (c_bfds s));
  to_kill ←
    (match bfd_last_cache with
     | None => ret None
     | Some last => l ← get_bfd last; prev ← the (b_lru_prev l); find_to_kill n last prev
     end);
  match to_kill with
  | None => ret true
  | Some to_kill =>
      b ← get_bfd to_kill;
      f ← as_file (b_iostream b);
      f ← the f;
      pos ← ftell f;
      _ ← set_bfd to_kill (set_where (u64 pos));
      bfd_cache_delete to_kill
  end.

Definition possibly_cached (abfd : ptr) : M bool :=
  a ← get_bfd abfd;
  if b_in_memory a then ret false
  else
    match b_my_archive a with
    | None => ret true
    | Some archive => ar ← get_bfd archive; ret (b_is_thin_archive ar)
    end.

Definition _bfd_cache_init_unlocked (abfd : ptr) : M bool :=
  a ← get_bfd abfd;
  _ ← BFD_ASSERT (bool_decide (is_Some (b_iostream a)));
  open_files ← gets c_open_files;
  max ← bfd_cache_max_open;
  ok ← (if max <=? open_files then close_one else ret true);
  if negb ok then ret false
  else
    _ ← set_bfd abfd (set_iovec (Some cache_iovec));
    _ ← insert abfd;
    _ ← set_bfd abfd (set_closed_by_cache false);
    open_files ← gets c_open_files;
    _ ← modify (set_c_open_files (u32 (open_files + 1)));
    ret true.

(** The switch of [_bfd_open_file_unlocked]. *)
Definition open_by_direction (abfd : ptr) : M unit :=
  a ← get_bfd abfd;
  let name := b_filename a in
  let store f := set_bfd abfd (set_iostream (S_file <$> f)) in
  match b_direction a with
  | read_direction | no_direction => f ← fopen name FOPEN_RB; store f
  | both_direction | write_direction =>
      if b_opened_once a then
        f ← fopen name FOPEN_RUB;
        _ ← store f;
        match f with
        | Some _ => ret tt
        | None => f ← fopen name FOPEN_WUB; store f
        end
      else
        st ← stat name;
        _ ← (match st with
             | Some size => if negb (size =? 0) then unlink_if_ordinary name else ret tt
             | None => ret tt
             end);
        f ← fopen name FOPEN_WUB;
        _ ← store f;
        set_bfd abfd (set_opened_once true)
  end.

Definition _bfd_open_file_unlocked (abfd : ptr) : M (option nat) :=
  _ ← set_bfd abfd (set_cacheable true);
  open_files ← gets c_open_files;
  max ← bfd_cache_max_open;
  ok ← (if max <=? open_files then close_one else ret true);
  if negb ok then ret None
  else
    _ ← open_by_direction abfd;
    a ← get_bfd abfd;
    match b_iostream a with
    | None => _ ← bfd_set_error bfd_error_system_call; ret None
    | Some _ =>
        ok ← _bfd_cache_init_unlocked abfd;
        if negb ok then ret None
        else a ← get_bfd abfd; as_file (b_iostream a)
    end.

Definition bfd_open_file (abfd : ptr) : M (option nat) :=
  ok ← bfd_lock;
  if negb ok then ret None
  else
    result ← _bfd_open_file_unlocked abfd;
    ok ← bfd_unlock;
    ret (if (ok : bool) then result else None).

(** [file_ptr] values are signed; [where] is not. *)
Abbreviation s64 := (sext 64).

Definition bfd_cache_lookup_worker (abfd : ptr) (flag : Z) : M (option nat) :=
  ok ← possibly_cached abfd;
  if negb ok then undefined
  else
    a ← get_bfd abfd;
    if b_in_format_matches a then
      f ← as_file (b_iostream a);
      match f with None => undefined | Some f => ret (Some f) end
    else
      match b_iostream a with
      | Some _ =>
          last ← gets c_last_cache;
          _ ← (if decide (Some abfd = last) then ret tt else _ ← snip abfd; insert abfd);
          as_file (b_iostream a)
      | None =>
          if has_flag flag CACHE_NO_OPEN then ret None
          else
            let failed :=
              _ ← modify (fun s => set_c_reports (c_reports s ++ [abfd]) s); ret None in
            opened ← _bfd_open_file_unlocked abfd;
            match opened with
            | None => failed
            | Some _ =>
                a ← get_bfd abfd;
                f ← as_file (b_iostream a);
                f ← the f;
                if has_flag flag CACHE_NO_SEEK then ret (Some f)
                else
                  sought ← fseek f (s64 (b_where a)) SEEK_SET;
                  if negb sought && negb (has_flag flag CACHE_NO_SEEK_ERROR)
                  then _ ← bfd_set_error bfd_error_system_call; failed
                  else ret (Some f)
            end
      end.

Definition bfd_cache_lookup (x : ptr) (flag : Z) : M (option nat) :=
  last ← gets c_last_cache;
  if decide (Some x = last) then b ← get_bfd x; as_file (b_iostream b)
  else bfd_cache_lookup_worker x flag.

(** The frame of the operations: the lock, the stream, what to do without and
    with it.  [fail] is what a failed lock gives, [unlock_closed] says whether
    a failed unlock matters when there is no stream. *)
Definition cache_locked {A} (abfd : ptr) (flag : Z) (fail : A) (unlock_closed : bool)
    (closed : M A) (k : nat -> M A) : M A :=
  ok ← bfd_lock;
  if negb ok then ret fail
  else
    f ← bfd_cache_lookup abfd flag;
    match f with
    | None =>
        ok ← bfd_unlock;
        if negb ok && unlock_closed then ret fail else closed
    | Some f =>
        result ← k f;
        ok ← bfd_unlock;
        ret (if (ok : bool) then result else fail)
    end.

Definition cache_btell (abfd : ptr) : M Z :=
  cache_locked abfd CACHE_NO_OPEN (-1) true
    (a ← get_bfd abfd; ret (s64 (b_where a))) (fun f => ftell f).

Definition cache_bseek (abfd : ptr) (offset : Z) (w : whence) : M Z :=
  cache_locked abfd (if decide (w = SEEK_CUR) then CACHE_NORMAL else CACHE_NO_SEEK) (-1) false
    (ret (-1)) (fun f => ok ← fseek f offset w; ret (if (ok : bool) then 0 else -1)).

Definition cache_bread_1 (f : nat) (nbytes : Z) : M (Z * list Z) :=
  got ← fread nbytes f;
  let nread := Z.of_nat (length got) in
  err ← ferror f;
  if (nread <? nbytes) && err then
    _ ← bfd_set_error bfd_error_system_call; ret (nread, got)
  else
    _ ← (if nread <? nbytes then bfd_set_error bfd_error_file_truncated else ret tt);
    ret (nread, got).

Definition max_chunk_size : Z := 0x800000.

(** The loop of [cache_bread], [n] chunks at most; [buf] is what has been
    read. *)
Fixpoint bread_loop (n : nat) (f : nat) (nbytes nread : Z) (buf : list Z) : M (Z * list Z) :=
  match n with
  | O => undefined
  | S n =>
      if negb (nread <? nbytes) then ret (nread, buf)
      else
        let chunk_size := Z.min (nbytes - nread) max_chunk_size in
        '(chunk_nread, got) ← cache_bread_1 f chunk_size;
        let buf := buf ++ got in
        let nread := if (nread =? 0) || (0 <? chunk_nread) then nread + chunk_nread else nread in
        if chunk_nread <? chunk_size then ret (nread, buf) else bread_loop n f nbytes nread buf
  end.

Definition cache_bread (abfd : ptr) (nbytes : Z) : M (Z * list Z) :=
  cache_locked abfd CACHE_NORMAL (-1, []) false (ret (-1, []))
    (fun f => bread_loop (Z.to_nat (nbytes / max_chunk_size) + 2) f nbytes 0 []).

Definition cache_bwrite (abfd : ptr) (from : list Z) : M Z :=
  ok ← bfd_lock;
  if negb ok then ret (-1)
  else
    f ← bfd_cache_lookup abfd CACHE_NORMAL;
    match f with
    | None => ok ← bfd_unlock; ret (if (ok : bool) then 0 else -1)
    | Some f =>
        nwrite ← fwrite from f;
        err ← ferror f;
        if (nwrite <? Z.of_nat (length from)) && err then
          _ ← bfd_set_error bfd_error_system_call;
          _ ← bfd_unlock;
          ret (-1)
        else ok ← bfd_unlock; ret (if (ok : bool) then nwrite else -1)
    end.

Definition cache_bflush (abfd : ptr) : M Z :=
  cache_locked abfd CACHE_NO_OPEN (-1) true (ret 0)
    (fun f =>
       sts ← fflush f;
       _ ← (if sts <? 0 then bfd_set_error bfd_error_system_call else ret tt);
       ret sts).

(** The status and the size. *)
Definition cache_bstat (abfd : ptr) : M (Z * Z) :=
  cache_locked abfd CACHE_NO_SEEK_ERROR (-1, 0) false (ret (-1, 0))
    (fun f =>
       st ← fstat f;
       match st with
       | Some size => ret (0, size)
       | None => _ ← bfd_set_error bfd_error_system_call; ret (-1, 0)
       end).

Definition bfd_cache_init (abfd : ptr) : M bool :=
  ok ← bfd_lock;
  if negb ok then ret false
  else result ← _bfd_cache_init_unlocked abfd; ok ← bfd_unlock; ret (ok && result).

Definition _bfd_cache_close_unlocked (abfd : ptr) : M bool :=
  a ← get_bfd abfd;
  if negb (bool_decide (b_iovec a = Some cache_iovec)) then ret true
  else
    match b_iostream a with
    | None => ret true
    | Some _ => bfd_cache_delete abfd
    end.

Definition bfd_cache_close (abfd : ptr) : M bool :=
  ok ← bfd_lock;
  if negb ok then ret false
  else result ← _bfd_cache_close_unlocked abfd; ok ← bfd_unlock; ret (ok && result).

Definition cache_bclose (abfd : ptr) : M Z :=
  ok ← bfd_cache_close abfd; ret ((if (ok : bool) then 1 else 0) - 1).

(** The loop of [bfd_cache_close_all], [n] BFDs at most. *)
Fixpoint close_all_loop (n : nat) (r : bool) : M bool :=
  match n with
  | O => undefined
  | S n =>
      last ← gets c_last_cache;
      match last with
      | None => ret r
      | Some prev =>
          ok ← _bfd_cache_close_unlocked prev;
          last ← gets c_last_cache;
          if decide (last = Some prev) then ret (r && ok) else close_all_loop n (r && ok)
      end
  end.

Definition bfd_cache_close_all : M bool :=
  ok ← bfd_lock;
  if negb ok then ret false
  else
    n ← gets (fun s => size (c_bfds s));
    result ← close_all_loop (n + 1) true;
    ok ← bfd_unlock;
    ret (ok && result).

(** The result and what is stored through [old]. *)
Definition bfd_cache_set_uncloseable (abfd : ptr) (value : bool) : M (bool * option bool) :=
  ok ← bfd_lock;
  if negb ok then ret (false, None)
  else
    a ← get_bfd abfd;
    let old := b_in_format_matches a in
    cached ← (if negb (bool_decide (value = old)) && bool_decide (b_iovec a = Some cache_iovec)
              then possibly_cached abfd else ret false);
    result ←
      (if (cached : bool) then
         result ←
           (if value then
              f ← bfd_cache_lookup abfd CACHE_NORMAL;
              match f with None => ret false | Some _ => _ ← snip abfd; ret true end
            else _ ← insert abfd; ret true);
         _ ← set_bfd abfd (set_in_format_matches value);
         ret result
       else ret true);
    ok ← bfd_unlock;
    ret (ok && result, Some old).

Definition bfd_cache_size : M Z := gets c_open_files.

(** ** bfdio.c: files in memory *)

Definition get_memory (abfd : ptr) : M (nat * bfd_in_memory) :=
  a ← get_bfd abfd;
  match b_iostream a with
  | Some (S_memory i) => o ← gets (fun s => c_memory s !! i); bim ← the o; ret (i, bim)
  | _ => undefined
  end.

Definition set_memory (i : nat) (bim : bfd_in_memory) : M unit :=
  modify (fun s => set_c_memory (<[i := bim]> (c_memory s)) s).

(** [memcpy] from and into a buffer: within its bounds. *)
Definition buffer_read (buffer : list (option Z)) (off n : Z) : M (list Z) :=
  if n =? 0 then ret []
  else if off + n <=? Z.of_nat (length buffer)
  then the (mapM id (take (Z.to_nat n) (drop (Z.to_nat off) buffer)))
  else undefined.

Definition buffer_write (buffer : list (option Z)) (off : Z) (bs : list (option Z)) : M (list (option Z)) :=
  if off + Z.of_nat (length bs) <=? Z.of_nat (length buffer)
  then ret (take (Z.to_nat off) buffer ++ bs ++ drop (Z.to_nat off + length bs) buffer)
  else undefined.

(** [(size + 127) & ~(bfd_size_type) 127] *)
Definition round_128 (size : Z) : Z := u64 (size + 127) .& (2 ^ 64 - 128).

(** [bfd_realloc_or_free (bim->buffer, newsize)], newsize above the size the
    buffer had. *)
Definition realloc_buffer (buffer : list (option Z)) (newsize : Z) : M (option (list (option Z))) :=
  ok ← answer;
  ret (if (ok : bool)
       then Some (buffer ++ replicate (Z.to_nat newsize - length buffer) None) else None).

Definition memory_bread (abfd : ptr) (size : Z) : M (Z * list Z) :=
  a ← get_bfd abfd;
  '(i, bim) ← get_memory abfd;
  let get := u64 size in
  get ←
    (if bim_size bim <? u64 (b_where a + get) then
       _ ← bfd_set_error bfd_error_file_truncated;
       ret (if bim_size bim <? b_where a then 0 else bim_size bim - b_where a)
     else ret get);
  bytes ← buffer_read (bim_buffer bim) (b_where a) get;
  ret (s64 get, bytes).

Definition memory_bwrite (abfd : ptr) (bs : list Z) : M Z :=
  a ← get_bfd abfd;
  '(i, bim) ← get_memory abfd;
  let size := Z.of_nat (length bs) in
  let where_ := b_where a in
  grown ←
    (if bim_size bim <? u64 (where_ + size) then
       let oldsize := round_128 (bim_size bim) in
       let bsize := u64 (where_ + size) in
       let newsize := round_128 bsize in
       if oldsize <? newsize then
         buffer ← realloc_buffer (bim_buffer bim) newsize;
         match buffer with
         | None => _ ← set_memory i (mkInMemory 0 []); ret None
         | Some buffer =>
             if bsize <? newsize then
               buffer ← buffer_write buffer bsize (replicate (Z.to_nat (newsize - bsize)) (Some 0));
               ret (Some (mkInMemory bsize buffer))
             else ret (Some (mkInMemory bsize buffer))
         end
       else ret (Some (mkInMemory bsize (bim_buffer bim)))
     else ret (Some bim));
  match grown with
  | None => ret 0
  | Some bim =>
      buffer ← buffer_write (bim_buffer bim) where_ (Some <$> bs);
      _ ← set_memory i (mkInMemory (bim_size bim) buffer);
      ret size
  end.

Definition memory_btell (abfd : ptr) : M Z := a ← get_bfd abfd; ret (s64 (b_where a)).

Definition bfd_write_p (a : bfd) : bool :=
  match b_direction a with write_direction | both_direction => true | _ => false end.

Definition memory_bseek (abfd : ptr) (position : Z) (w : whence) : M Z :=
  a ← get_bfd abfd;
  '(i, bim) ← get_memory abfd;
  let nwhere := if decide (w = SEEK_SET) then position else s64 (b_where a + position) in
  if nwhere <? 0 then
    _ ← set_bfd abfd (set_where 0);
    _ ← set_errno EINVAL;
    ret (-1)
  else if bim_size bim <? nwhere then
    if bfd_write_p a then
      let oldsize := round_128 (bim_size bim) in
      let newsize := round_128 nwhere in
      if oldsize <? newsize then
        buffer ← realloc_buffer (bim_buffer bim) newsize;
        match buffer with
        | None => _ ← set_errno EINVAL; _ ← set_memory i (mkInMemory 0 []); ret (-1)
        | Some buffer =>
            buffer ← buffer_write buffer oldsize (replicate (Z.to_nat (newsize - oldsize)) (Some 0));
            _ ← set_memory i (mkInMemory nwhere buffer);
            ret 0
        end
      else _ ← set_memory i (mkInMemory nwhere (bim_buffer bim)); ret 0
    else
      _ ← set_bfd abfd (set_where (bim_size bim));
      _ ← set_errno EINVAL;
      _ ← bfd_set_error bfd_error_file_truncated;
      ret (-1)
  else ret 0.

Definition memory_bclose (abfd : ptr) : M Z :=
  '(i, _) ← get_memory abfd;
  _ ← modify (fun s => set_c_memory (delete i (c_memory s)) s);
  _ ← set_bfd abfd (set_iostream None);
  ret 0.

Definition memory_bflush (abfd : ptr) : M Z := ret 0.

Definition memory_bstat (abfd : ptr) : M (Z * Z) :=
  '(_, bim) ← get_memory abfd; ret (0, bim_size bim).

(** *** The two tables of operations *)

Definition iovec_bread (v : iovec) : ptr -> Z -> M (Z * list Z) :=
  match v with cache_iovec => cache_bread | memory_iovec => memory_bread end.
Definition iovec_bwrite (v : iovec) : ptr -> list Z -> M Z :=
  match v with cache_iovec => cache_bwrite | memory_iovec => memory_bwrite end.
Definition iovec_btell (v : iovec) : ptr -> M Z :=
  match v with cache_iovec => cache_btell | memory_iovec => memory_btell end.
Definition iovec_bseek (v : iovec) : ptr -> Z -> whence -> M Z :=
  match v with cache_iovec => cache_bseek | memory_iovec => memory_bseek end.
Definition iovec_bclose (v : iovec) : ptr -> M Z :=
  match v with cache_iovec => cache_bclose | memory_iovec => memory_bclose end.
Definition iovec_bflush (v : iovec) : ptr -> M Z :=
  match v with cache_iovec => cache_bflush | memory_iovec => memory_bflush end.
Definition iovec_bstat (v : iovec) : ptr -> M (Z * Z) :=
  match v with cache_iovec => cache_bstat | memory_iovec => memory_bstat end.

(** ** bfdio.c: the operations on any BFD *)

(** [my_archive], when the BFD shares the stream of its archive. *)
Definition containing (a : bfd) : M (option ptr) :=
  match b_my_archive a with
  | None => ret None
  | Some ar =>
      r ← get_bfd ar;
      ret (if bool_decide (b_iovec r = b_iovec a) && negb (b_is_thin_archive r) then Some ar else None)
  end.

(** The BFD whose stream is used and the offset in it; at most [n] levels. *)
Fixpoint outermost (n : nat) (abfd : ptr) (offset : Z) : M (ptr * Z) :=
  match n with
  | O => undefined
  | S n =>
      a ← get_bfd abfd;
      up ← containing a;
      let offset := u64 (offset + b_origin a) in
      match up with
      | None => ret (abfd, offset)
      | Some ar => outermost n ar offset
      end
  end.

Definition stream_of (abfd : ptr) : M (ptr * Z) :=
  n ← gets (fun s => size (c_bfds s)); outermost n abfd 0.

Definition bfd_seek (abfd : ptr) (position : Z) (direction : whence) : M Z :=
  '(abfd, offset) ← stream_of abfd;
  a ← get_bfd abfd;
  match b_iovec a with
  | None => _ ← bfd_set_error bfd_error_invalid_operation; ret (-1)
  | Some iovec =>
      _ ← BFD_ASSERT (bool_decide (direction = SEEK_SET) || bool_decide (direction = SEEK_CUR));
      let position := if decide (direction = SEEK_CUR) then position else s64 (position + offset) in
      if ((bool_decide (direction = SEEK_CUR) && (position =? 0))
          || (bool_decide (direction = SEEK_SET) && (u64 position =? b_where a)))
         && negb (bool_decide (b_last_io a = bfd_io_force))
      then ret 0
      else
        _ ← set_bfd abfd (set_last_io bfd_io_seek);
        result ← iovec_bseek iovec abfd position direction;
        if negb (result =? 0) then
          e ← gets c_errno;
          _ ← bfd_set_error (if decide (e = EINVAL) then bfd_error_file_truncated else bfd_error_system_call);
          ret result
        else
          _ ← set_bfd abfd (fun a =>
                set_where (if decide (direction = SEEK_CUR) then u64 (b_where a + position) else u64 position) a);
          ret result
  end.

(** What [bfd_read] allows of [size] bytes at [pos] in an element of
    [maxbytes] at [offset]; [None] is the error. *)
Definition element_size (pos offset size maxbytes : Z) : option Z :=
  if (pos <? offset) || (maxbytes <=? pos - offset) then None
  else if maxbytes <? u64 (pos - offset + size) then Some (maxbytes - (pos - offset))
  else Some size.

(** A seek between reading and writing: true when the operation can go on. *)
Definition change_direction (abfd : ptr) (before : bfd_last_io) : M bool :=
  a ← get_bfd abfd;
  if decide (b_last_io a = before) then
    _ ← set_bfd abfd (set_last_io bfd_io_force);
    r ← bfd_seek abfd 0 SEEK_CUR;
    ret (r =? 0)
  else ret true.

Definition bfd_read (size : Z) (element_bfd : ptr) : M (Z * list Z) :=
  e ← get_bfd element_bfd;
  up ← containing e;
  '(abfd, offset) ← stream_of element_bfd;
  a ← get_bfd abfd;
  match (match up, b_arelt_size e with
         | Some _, Some maxbytes => element_size (b_where a) offset size maxbytes
         | _, _ => Some size
         end) with
  | None => _ ← bfd_set_error bfd_error_invalid_operation; ret (u64 (-1), [])
  | Some size =>
      match b_iovec a with
      | None => _ ← bfd_set_error bfd_error_invalid_operation; ret (u64 (-1), [])
      | Some iovec =>
          ok ← change_direction abfd bfd_io_write;
          if negb ok then ret (u64 (-1), [])
          else
            _ ← set_bfd abfd (set_last_io bfd_io_read);
            '(nread, bytes) ← iovec_bread iovec abfd (s64 size);
            _ ← (if negb (nread =? -1)
                 then set_bfd abfd (fun a => set_where (u64 (b_where a + nread)) a) else ret tt);
            ret (u64 nread, bytes)
      end
  end.

Definition bfd_write (bs : list Z) (abfd : ptr) : M Z :=
  '(abfd, _) ← stream_of abfd;
  a ← get_bfd abfd;
  match b_iovec a with
  | None => _ ← bfd_set_error bfd_error_invalid_operation; ret (u64 (-1))
  | Some iovec =>
      ok ← change_direction abfd bfd_io_read;
      if negb ok then ret (u64 (-1))
      else
        _ ← set_bfd abfd (set_last_io bfd_io_write);
        nwrote ← iovec_bwrite iovec abfd bs;
        _ ← (if negb (nwrote =? -1)
             then set_bfd abfd (fun a => set_where (u64 (b_where a + nwrote)) a) else ret tt);
        _ ← (if negb (u64 nwrote =? Z.of_nat (length bs))
             then _ ← set_errno ENOSPC; bfd_set_error bfd_error_system_call else ret tt);
        ret (u64 nwrote)
  end.

Definition bfd_tell (abfd : ptr) : M Z :=
  '(abfd, offset) ← stream_of abfd;
  a ← get_bfd abfd;
  match b_iovec a with
  | None => ret 0
  | Some iovec =>
      pos ← iovec_btell iovec abfd;
      _ ← set_bfd abfd (set_where (u64 pos));
      ret (s64 (pos - offset))
  end.

Definition bfd_flush (abfd : ptr) : M Z :=
  '(abfd, _) ← stream_of abfd;
  a ← get_bfd abfd;
  match b_iovec a with
  | None => ret 0
  | Some iovec => iovec_bflush iovec abfd
  end.

Definition bfd_stat (abfd : ptr) : M (Z * Z) :=
  '(abfd, _) ← stream_of abfd;
  a ← get_bfd abfd;
  match b_iovec a with
  | None => _ ← bfd_set_error bfd_error_invalid_operation; ret (-1, 0)
  | Some iovec =>
      '(result, size) ← iovec_bstat iovec abfd;
      _ ← (if result <? 0 then bfd_set_error bfd_error_system_call else ret tt);
      ret (result, size)
  end.

Definition bfd_get_size (abfd : ptr) : M Z :=
  a ← get_bfd abfd;
  if (b_file_size a <=? 1) || bfd_write_p a then
    if (b_file_size a =? 1) && negb (bfd_write_p a) then ret 0
    else
      '(result, size) ← bfd_stat abfd;
      if negb (result =? 0) || (size =? 0) then
        _ ← set_bfd abfd (set_file_size 1); ret 0
      else
        _ ← set_bfd abfd (set_file_size size); ret size
  else ret (b_file_size a).
