(* ===== verification/CacheRing.v ===== *)
(** Rules for running cache.c's code, and its ring of open BFDs: [insert],
    [snip] and the search of [close_one] as operations on the list that starts
    at [bfd_last_cache] and follows [lru_next]. *)

From S2P Require Import Prelude HashTable Cache.

(** ** Runs with a postcondition

    [runs m s Q]: from [s], [m] ends without undefined behaviour, with a result
    and a state that satisfy [Q]. *)

Definition runs {A} (m : M A) (s : cstate) (Q : A -> cstate -> Prop) : Prop :=
  exists a s', m s = Some (a, s') /\ Q a s'.

Section rules.
Context {A B : Type}.
Implicit Types (s : cstate).

Lemma runs_ret (a : A) s (Q : A -> cstate -> Prop) : Q a s -> runs (ret a) s Q.
Proof. intros H. exists a, s. done. Qed.

Lemma runs_bind (m : M B) (f : B -> M A) s (Q : A -> cstate -> Prop) :
  runs m s (fun b s' => runs (f b) s' Q) -> runs (m ≫= f) s Q.
Proof.
  intros (b & s' & Hm & a & s'' & Hf & HQ). exists a, s''.
  split; [|done]. unfold mbind, M_bind. by rewrite Hm.
Qed.

Lemma runs_mono (m : M A) s (P Q : A -> cstate -> Prop) :
  runs m s P -> (forall a s', P a s' -> Q a s') -> runs m s Q.
Proof. intros (a & s' & Hm & HP) HPQ. exists a, s'. auto. Qed.

Lemma runs_gets (f : cstate -> A) s (Q : A -> cstate -> Prop) : Q (f s) s -> runs (gets f) s Q.
Proof. intros H. by exists (f s), s. Qed.

Lemma runs_modify f s Q : Q tt (f s) -> runs (modify f) s Q.
Proof. intros H. by exists tt, (f s). Qed.

Lemma runs_the (o : option A) (a : A) s (Q : A -> cstate -> Prop) :
  o = Some a -> Q a s -> runs (the o) s Q.
Proof. intros -> H. by apply runs_ret. Qed.

Lemma runs_eq (m : M A) s a s' Q : m s = Some (a, s') -> runs m s Q -> Q a s'.
Proof. intros Hm (a' & s'' & Hm' & HQ). by simplify_eq. Qed.
End rules.

Lemma runs_get_bfd p b s Q : c_bfds s !! p = Some b -> Q b s -> runs (get_bfd p) s Q.
Proof. intros H HQ. apply runs_bind, runs_gets. by apply (runs_the _ b). Qed.

Lemma runs_assert b s Q : b = true -> Q tt s -> runs (BFD_ASSERT b) s Q.
Proof. intros ->. apply runs_ret. Qed.

(** A BFD's fields are changed by [alter]. *)
Definition alter_bfd (f : bfd -> bfd) (p : ptr) (s : cstate) : cstate :=
  set_c_bfds (alter f p (c_bfds s)) s.

Lemma alter_insert_lookup (h : gmap ptr bfd) p b f : h !! p = Some b -> <[p := f b]> h = alter f p h.
Proof.
  intros H. apply map_eq. intros q. destruct (decide (p = q)) as [<-|Hq].
  - by rewrite lookup_insert_eq, lookup_alter_eq, H.
  - by rewrite lookup_insert_ne, lookup_alter_ne.
Qed.

Lemma runs_set_bfd p f s Q : is_Some (c_bfds s !! p) -> Q tt (alter_bfd f p s) -> runs (set_bfd p f) s Q.
Proof.
  intros [b H] HQ. apply runs_bind, (runs_get_bfd _ b); [done|]. apply runs_modify.
  by rewrite (alter_insert_lookup _ _ b).
Qed.

(** One step of symbolic execution; what it needs to know of the heap is left
    as a goal. *)
Ltac rstep := lazymatch goal with
  | |- runs (ret _) _ _ => apply runs_ret
  | |- runs (_ ≫= _) _ _ => apply runs_bind
  | |- runs (gets _) _ _ => apply runs_gets
  | |- runs (modify _) _ _ => apply runs_modify
  | |- runs (get_bfd _) _ _ => eapply runs_get_bfd
  | |- runs (set_bfd _ _) _ _ => eapply runs_set_bfd
  | |- runs (the _) _ _ => eapply runs_the
  | |- runs (BFD_ASSERT _) _ _ => apply runs_assert
  | |- runs (bfd_set_error _) _ _ => apply runs_modify
  | |- runs (set_errno _) _ _ => apply runs_modify
  | |- runs (as_file (Some (S_file ?f))) _ _ => apply (runs_ret (Some f))
  end; cbn beta.

(** ** Chains of links *)

Definition link (h : gmap ptr bfd) (a b : ptr) : Prop :=
  (h !! a ≫= b_lru_next) = Some b /\ (h !! b ≫= b_lru_prev) = Some a.

Fixpoint chain (h : gmap ptr bfd) (l : list ptr) : Prop :=
  match l with
  | a :: t => match t with [] => True | b :: _ => link h a b /\ chain h t end
  | [] => True
  end.

(** The ring of [l]: its chain, closed from the last to the first. *)
Definition ring (h : gmap ptr bfd) (l : list ptr) : Prop :=
  match l with [] => True | a :: _ => chain h (l ++ [a]) end.

(** What the ring's operations leave alone. *)
Definition core (b : bfd) : bfd := set_lru_next None (set_lru_prev None b).

Section chains.
Context (h : gmap ptr bfd).

Lemma chain_app l1 a l2 : chain h (l1 ++ a :: l2) <-> chain h (l1 ++ [a]) /\ chain h (a :: l2).
Proof.
  induction l1 as [|x [|y t] IH]; [naive_solver | simpl in *; tauto |].
  change (link h x y /\ chain h ((y :: t) ++ a :: l2) <->
          (link h x y /\ chain h ((y :: t) ++ [a])) /\ chain h (a :: l2)). tauto.
Qed.

Lemma ring_rotate l1 l2 : ring h (l1 ++ l2) <-> ring h (l2 ++ l1).
Proof.
  destruct l1 as [|a t1]; [by rewrite app_nil_r|].
  destruct l2 as [|b t2]; [by rewrite app_nil_r|].
  simpl. rewrite <- !app_assoc. simpl.
  rewrite (chain_app (a :: t1) b (t2 ++ [a])), (chain_app (b :: t2) a (t1 ++ [b])). tauto.
Qed.

Lemma link_some a b : link h a b -> is_Some (h !! a) /\ is_Some (h !! b).
Proof. intros [H1 H2]. destruct (h !! a), (h !! b); naive_solver. Qed.

Lemma ring_some l p : ring h l -> p ∈ l -> is_Some (h !! p).
Proof.
  intros Hr (l1 & l2 & ->)%list_elem_of_split. rewrite ring_rotate in Hr.
  destruct l2 as [|z l2]; [destruct l1|]; simpl in Hr;
    destruct Hr as [Hl _]; by apply link_some in Hl as [? ?].
Qed.
End chains.

Lemma ring_link h l1 a b l2 : ring h (l1 ++ a :: b :: l2) -> link h a b.
Proof. rewrite ring_rotate. by intros [H _]. Qed.

(** A chain only depends on the successors of all but its last element and on
    the predecessors of all but its first. *)
Lemma chain_frame h h' l :
  NoDup l -> chain h l ->
  (forall a, a ∈ l -> last l <> Some a -> (h' !! a ≫= b_lru_next) = (h !! a ≫= b_lru_next)) ->
  (forall b, b ∈ l -> head l <> Some b -> (h' !! b ≫= b_lru_prev) = (h !! b ≫= b_lru_prev)) ->
  chain h' l.
Proof.
  induction l as [|a [|b t] IH]; [done..|].
  intros [Ha Hd]%NoDup_cons [[Hn Hp] Hc] Hnext Hprev.
  assert (Hab : a <> b) by set_solver.
  split.
  - split.
    + rewrite Hnext; [done | set_solver |].
      intros Hlast. apply Ha, last_Some_elem_of. by rewrite <- Hlast.
    + rewrite Hprev; [done | set_solver | naive_solver].
  - apply IH; [done.. | |].
    + intros c Hc' Hl. apply Hnext; [set_solver | done].
    + intros c Hc' Hl. apply Hprev; [set_solver | intros [= ->]; done].
Qed.

Section alters.
Implicit Types (h : gmap ptr bfd).

Lemma alter_lookup f q h p :
  alter f q h !! p = (if decide (q = p) then f <$> h !! p else h !! p).
Proof. case_decide; subst; [by rewrite lookup_alter_eq | by rewrite lookup_alter_ne]. Qed.

Lemma core_alter f q h p :
  (forall b, core (f b) = core b) -> core <$> alter f q h !! p = core <$> h !! p.
Proof.
  intros Hf. rewrite alter_lookup. case_decide; [|done].
  destruct (h !! p); simpl; by rewrite ?Hf.
Qed.

Lemma next_alter f q h p :
  (forall b, b_lru_next (f b) = b_lru_next b) -> (alter f q h !! p ≫= b_lru_next) = (h !! p ≫= b_lru_next).
Proof.
  intros Hf. rewrite alter_lookup. case_decide; [|done].
  destruct (h !! p); simpl; by rewrite ?Hf.
Qed.

Lemma prev_alter f q h p :
  (forall b, b_lru_prev (f b) = b_lru_prev b) -> (alter f q h !! p ≫= b_lru_prev) = (h !! p ≫= b_lru_prev).
Proof.
  intros Hf. rewrite alter_lookup. case_decide; [|done].
  destruct (h !! p); simpl; by rewrite ?Hf.
Qed.

(** Linking the last of a chain to an element before its first. *)
Lemma chain_relink h z t q x y :
  NoDup (z :: t) -> chain h (z :: t) -> last (z :: t) = Some q ->
  chain (alter (set_lru_prev x) z (alter (set_lru_next y) q h)) (z :: t).
Proof.
  intros Hd Hc Hq. apply (chain_frame h); [done..| |].
  - intros a Ha Hl. rewrite next_alter by done. rewrite alter_lookup, decide_False; [done | congruence].
  - intros b Hb Hz. rewrite alter_lookup, decide_False by naive_solver. by rewrite prev_alter.
Qed.

Lemma chain_snoc h z t q a :
  last (z :: t) = Some q -> chain h ((z :: t) ++ [a]) <-> chain h (z :: t) /\ link h q a.
Proof.
  intros (l & Hl)%last_Some. rewrite Hl, <- app_assoc. simpl.
  rewrite chain_app. simpl. tauto.
Qed.
End alters.

(** ** The ring of the cache *)

(** [l] is what is linked from [bfd_last_cache]. *)
Definition cached (s : cstate) (l : list ptr) : Prop :=
  c_last_cache s = head l /\ NoDup l /\ ring (c_bfds s) l.

Lemma cached_length s l : cached s l -> (length l <= size (c_bfds s))%nat.
Proof.
  intros (_ & Hd & Hr). rewrite <- (size_list_to_set (C:=gset ptr) l), <- size_dom by done.
  apply subseteq_size. intros p Hp%elem_of_list_to_set.
  by apply elem_of_dom, (ring_some _ l).
Qed.

(** [s'] differs from [s] in the links only. *)
Definition relinked (s s' : cstate) : Prop :=
  exists h x, s' = set_c_last_cache x (set_c_bfds h s) /\
    forall p, core <$> h !! p = core <$> c_bfds s !! p.

Lemma relinked_refl s : relinked s s.
Proof. exists (c_bfds s), (c_last_cache s). by destruct s. Qed.

Lemma relinked_trans s1 s2 s3 : relinked s1 s2 -> relinked s2 s3 -> relinked s1 s3.
Proof.
  intros (h1 & x1 & -> & H1) (h2 & x2 & -> & H2). exists h2, x2. split; [done|].
  intros p. rewrite H2. apply H1.
Qed.

Lemma relinked_some s s' p : relinked s s' -> is_Some (c_bfds s !! p) -> is_Some (c_bfds s' !! p).
Proof.
  intros (h & x & -> & H) Hs. specialize (H p). simpl.
  by rewrite <- (fmap_is_Some core), H, fmap_is_Some.
Qed.

(** Looking a field up after the alterations of an operation. *)
Ltac heap_lookup :=
  unfold link; simpl; rewrite ?alter_lookup; simpl;
  repeat first [rewrite decide_True by congruence | rewrite decide_False by congruence];
  repeat match goal with H : ?h !! ?p = Some _ |- context [?h !! ?p] => rewrite H end; simpl.

Ltac hsolve := heap_lookup; repeat case_decide; heap_lookup; try congruence; eauto.

Lemma chain_untouched h z t p x y :
  p ∉ z :: t -> NoDup (z :: t) -> chain h (z :: t) ->
  chain (alter (set_lru_prev x) p (alter (set_lru_next y) p h)) (z :: t).
Proof.
  intros Hp Hd Hc. apply (chain_frame h); [done..| |]; intros a Ha _;
    rewrite !alter_lookup, !decide_False by (intros ->; done); done.
Qed.

Lemma ring_split h z t q : last (z :: t) = Some q -> ring h (z :: t) -> chain h (z :: t) /\ link h q z.
Proof. intros Hq Hr. by apply chain_snoc. Qed.

(** The ring without its first element. *)
Lemma ring_tail h p z t q :
  p ∉ z :: t -> last (z :: t) = Some q ->
  ring h (p :: z :: t) -> link h p z /\ chain h (z :: t) /\ link h q p.
Proof.
  intros Hp Hq Hr. simpl ring in Hr. destruct Hr as [H1 H2]. split; [done|].
  by apply chain_snoc.
Qed.

Lemma relinked_alter s p f :
  (forall b, core (f b) = core b) -> relinked s (alter_bfd f p s).
Proof.
  intros Hf. exists (alter f p (c_bfds s)), (c_last_cache s). split; [by destruct s|].
  intros q. by apply core_alter.
Qed.

Lemma relinked_last s x : relinked s (set_c_last_cache x s).
Proof. exists (c_bfds s), x. by destruct s. Qed.

Lemma insert_spec s l p :
  cached s l -> p ∉ l -> is_Some (c_bfds s !! p) ->
  runs (insert p) s (fun _ s' => relinked s s' /\ cached s' (p :: l)).
Proof.
  intros (Hlast & Hd & Hr) Hp [b Hb]. unfold insert. do 2 rstep. rewrite Hlast.
  destruct l as [|z t]; cbn [head hd_error].
  - repeat rstep; [naive_solver | heap_lookup; eauto |]. split.
    + repeat (eapply relinked_trans; [|apply relinked_last || by apply relinked_alter]).
      apply relinked_refl.
    + split_and!; [done | repeat constructor; set_solver |]. simpl. heap_lookup. naive_solver.
  - destruct (last (z :: t)) as [q|] eqn:Hq; [|by apply last_None in Hq].
    destruct (ring_split _ _ _ _ Hq Hr) as [Hc Hl].
    assert (Hpq : p <> q) by (intros ->; by apply Hp, last_Some_elem_of).
    assert (Hpz : p <> z) by set_solver.
    destruct (link_some _ _ _ Hl) as [[bq Hbq] [bz Hbz]].
    pose proof Hl as [Hnq Hpz']. rewrite Hbz in Hpz'. rewrite Hbq in Hnq. simpl in Hnq, Hpz'.
    repeat rstep; [hsolve..|].
    split; [repeat (eapply relinked_trans; [|apply relinked_last || by apply relinked_alter]);
            apply relinked_refl|].
    split_and!; [done | by constructor |]. simpl c_bfds.
    set (h := alter _ p (alter _ p (c_bfds s))).
    assert (Hch : chain (alter (set_lru_prev (Some p)) z (alter (set_lru_next (Some p)) q h)) (z :: t))
      by (apply chain_relink, Hq; [done | by apply chain_untouched]).
    split; [|apply (chain_snoc _ _ _ q); [done | split; [done|]]]; subst h; split; hsolve.
Qed.

Lemma snip_spec s l1 p l2 :
  cached s (l1 ++ p :: l2) ->
  runs (snip p) s (fun _ s' => relinked s s' /\ cached s' (l1 ++ l2)).
Proof.
  intros (Hlast & Hd & Hr).
  assert (Hd' : NoDup (p :: l2 ++ l1)) by (revert Hd; by rewrite (Permutation_app_comm l1)).
  apply NoDup_cons in Hd' as [Hp Hd'].
  rewrite ring_rotate in Hr. simpl app in Hr. unfold snip.
  destruct (l2 ++ l1) as [|z t] eqn:Hl.
  - apply app_nil in Hl as [-> ->]. simpl in Hr. destruct Hr as [[Hn Hv] _].
    destruct (c_bfds s !! p) as [b|] eqn:Hb; [|done]. simpl in Hn, Hv.
    repeat rstep; [hsolve..|]. simpl. rewrite Hlast, decide_True by done.
    repeat rstep; [hsolve..|]. simpl. rewrite Hn, decide_True by done. split.
    + repeat (eapply relinked_trans; [|apply relinked_last || by apply relinked_alter]).
      apply relinked_refl.
    + split_and!; [done | constructor | done].
  - destruct (last (z :: t)) as [q|] eqn:Hq; [|by apply last_None in Hq].
    destruct (ring_tail _ _ _ _ _ Hp Hq Hr) as ([Hn Hpz] & Hc & [Hqn Hpv]).
    assert (Hpq : p <> q) by (intros ->; by apply Hp, last_Some_elem_of).
    assert (Hpz' : p <> z) by set_solver.
    destruct (c_bfds s !! p) as [b|] eqn:Hb; [|done]. simpl in Hn, Hpv.
    destruct (c_bfds s !! q) as [bq|] eqn:Hbq; [|done].
    destruct (c_bfds s !! z) as [bz|] eqn:Hbz; [|done]. simpl in Hpz, Hqn.
    repeat rstep; [hsolve..|].
    rewrite Hn, Hpv. set (s1 := alter_bfd _ z _).
    assert (Hs1 : relinked s s1)
      by (subst s1; eapply relinked_trans; by apply relinked_alter).
    assert (Hr1 : ring (c_bfds s1) (l1 ++ l2)).
    { rewrite ring_rotate, Hl. apply (chain_snoc _ _ _ q); [done|].
      split; [by apply chain_relink | subst s1; split; hsolve]. }
    assert (Hd1 : NoDup (l1 ++ l2)) by (rewrite (Permutation_app_comm l1), Hl; done).
    change (c_last_cache s1) with (c_last_cache s). rewrite Hlast.
    destruct l1 as [|y l1]; cbn [app head hd_error].
    + rewrite decide_True by done. repeat rstep; [subst s1; hsolve|]. rewrite Hn.
      rewrite decide_False by congruence. rewrite app_nil_r in Hl. subst l2.
      split; [eapply relinked_trans; [done | apply relinked_last] | by split_and!].
    + assert (p <> y) by (intros ->; apply Hp; rewrite <- Hl; set_solver).
      rewrite decide_False by congruence. rstep. by split_and!.
Qed.

(** [close_one] finds the last cacheable one. *)
Definition last_cacheable (h : gmap ptr bfd) (l : list ptr) : option ptr :=
  last (filter (fun p => b_cacheable <$> h !! p = Some true) l).

Lemma last_cacheable_snoc h l p b :
  h !! p = Some b -> last_cacheable h (l ++ [p]) = if b_cacheable b then Some p else last_cacheable h l.
Proof.
  intros Hb. unfold last_cacheable. rewrite filter_app, filter_cons, filter_nil, Hb. simpl.
  destruct (b_cacheable b).
  - by rewrite decide_True, last_snoc.
  - by rewrite decide_False, app_nil_r by congruence.
Qed.

Lemma find_to_kill_spec a s (Q : option ptr -> cstate -> Prop) l1 : forall x l2 n,
  cached s (l1 ++ x :: l2) -> head (l1 ++ [x]) = Some a -> (length l1 < n)%nat ->
  Q (last_cacheable (c_bfds s) (l1 ++ [x])) s ->
  runs (find_to_kill n a x) s Q.
Proof.
  induction l1 as [|y l1 IH] using rev_ind; intros x l2 [|n] Hs Ha Hn HQ; [lia| |lia|].
  all: destruct Hs as (Hlast & Hd & Hr).
  all: destruct (ring_some _ _ x Hr) as [b Hb]; [set_solver|].
  all: rewrite (last_cacheable_snoc _ _ _ b) in HQ by done.
  all: simpl; rstep; rstep; [done|]; destruct (b_cacheable b); [by rstep|].
  - simplify_eq/=. rewrite decide_True by done. by rstep.
  - assert (Hxa : x <> a).
    { intros ->. destruct l1; simplify_eq/=; apply NoDup_cons in Hd as [Hd _]; set_solver. }
    rewrite decide_False by done.
    rewrite <- app_assoc in Hd, Hr, Hlast, Ha. destruct (ring_link _ _ _ _ _ Hr) as [_ Hp].
    rewrite Hb in Hp. simpl in Hp. rstep. rstep; [done|].
    rewrite length_app in Hn. simpl in Hn.
    apply (IH y (x :: l2)); [by split_and! | by destruct l1 | lia | done].
Qed.

(** The whole search. *)
Lemma victim_spec s l (Q : option ptr -> cstate -> Prop) :
  cached s l -> Q (last_cacheable (c_bfds s) l) s ->
  runs (match c_last_cache s with
        | None => ret None
        | Some last => b ← get_bfd last; prev ← the (b_lru_prev b); find_to_kill (size (c_bfds s)) last prev
        end) s Q.
Proof.
  intros Hc HQ. pose proof Hc as (Hlast & Hd & Hr). rewrite Hlast.
  destruct l as [|a t]; cbn [head hd_error]; [by rstep|].
  destruct (last (a :: t)) as [x|] eqn:Hx; [|by apply last_None in Hx].
  destruct (ring_split _ _ _ _ Hx Hr) as [_ [Hxa Hax]].
  destruct (c_bfds s !! a) as [b|] eqn:Hb; [|done]. simpl in Hax.
  repeat (rstep; [done|] || rstep).
  apply last_Some in Hx as [l1 Hl]. rewrite Hl in *.
  apply (find_to_kill_spec a s Q l1 x []); [done | by rewrite <- Hl | | done].
  apply (Nat.lt_le_trans _ (length (l1 ++ [x]))); [rewrite length_app; simpl; lia|].
  by apply cached_length.
Qed.
