(* ===== verification/CacheFiles.v ===== *)
(** The cache as always-open files: an abstract state in which every BFD has a
    file that is never closed, and the relation of it to a state of cache.c.

    [files B x y s v l pins] relates the state [s] to the abstract [v]: [l] are
    the BFDs in the ring, most recently used first, and [pins] the open ones
    out of it because they are uncloseable.  A stream shows the abstract contents
    of its inode as they will be when what it holds back is written.  [x] may be a
    BFD whose stream is being opened or moved, about whose stream the relation
    then says nothing; [y] one whose last operation, as the BFD records it, may not
    be that of its stream.  When [B] is true all BFDs can be closed and the number of open files stays
    below the maximum. *)

From S2P Require Import Prelude HashTable Cache CacheRing.

(** ** Files that stay open *)

(** [v_synced] is the size the file had when the system last knew all of it,
    unless nothing has been written since then. *)
Record vfile := mkVfile {
  v_inode : nat;
  v_pos : Z;
  v_writable : bool;
  v_pinned : bool;
  v_synced : option Z
}.

(** [v_home] gives, for a BFD, the one whose stream it uses, its offset in it
    and the size it is limited to, when it is an element of an archive. *)
Record vstate := mkVstate {
  v_files : gmap ptr vfile;
  v_inodes : gmap nat (list Z);
  v_home : gmap ptr (ptr * Z * option Z)
}.

Definition contents (v : vstate) (w : vfile) : list Z := default [] (v_inodes v !! v_inode w).

(** ** What a BFD is and what changes of it *)

Definition shape (b : bfd) : bfd :=
  mkBfd (b_filename b) None (b_iovec b) None None 0 (b_in_memory b) false (b_direction b) bfd_io_seek false
    (b_opened_once b) (b_is_thin_archive b) false (b_origin b) (b_my_archive b) (b_arelt_size b) 0.

Definition dyn (b : bfd) : option stream * Z * bool * bool * bfd_last_io :=
  (b_iostream b, b_where b, b_in_format_matches b, b_cacheable b, b_last_io b).

(** The number of files the cache may have open. *)
Definition cap (s : cstate) : Z :=
  if c_max_open_files s =? 0 then Z.max 10 (os_limit (c_os s)) else c_max_open_files s.

(** No assertion failed and no message was reported from [s] to [s'], and the
    maximum stayed. *)
Definition quiet (s s' : cstate) : Prop :=
  c_asserts s' = c_asserts s /\ c_reports s' = c_reports s /\ cap s' = cap s.

Lemma quiet_trans s1 s2 s3 : quiet s1 s2 -> quiet s2 s3 -> quiet s1 s3.
Proof. intros (? & ? & ?) (? & ? & ?). split_and!; congruence. Qed.

(** From [s] to [s'] only [p] of the BFDs of [V], its stream and, when it can be
    written, its inode have changed, and nothing was reported. *)
Record frame (V : gmap ptr vfile) (p : ptr) (s s' : cstate) : Prop := {
  fr_shape : forall q, shape <$> c_bfds s' !! q = shape <$> c_bfds s !! q;
  fr_dyn : forall q, q <> p -> dyn <$> c_bfds s' !! q = dyn <$> c_bfds s !! q;
  fr_files : forall q b f, q <> p -> q ∈ dom V -> c_bfds s !! q = Some b -> b_iostream b = Some (S_file f) ->
    os_files (c_os s') !! f = os_files (c_os s) !! f;
  fr_inodes : forall i, (forall w, V !! p = Some w -> v_inode w = i -> v_writable w = false) ->
    os_inodes (c_os s') !! i = os_inodes (c_os s) !! i;
  fr_names : os_names (c_os s') = os_names (c_os s);
  fr_oracles : os_oracle (c_os s') = os_oracle (c_os s) /\ os_close_oracle (c_os s') = os_close_oracle (c_os s);
  fr_next : (os_next_file (c_os s) <= os_next_file (c_os s'))%nat;
  fr_cap : cap s' = cap s;
  fr_quiet : quiet s s'
}.

Lemma frame_refl V p s : frame V p s s.
Proof. by split. Qed.

Lemma shape_lookup s s' q b :
  (forall q, shape <$> c_bfds s' !! q = shape <$> c_bfds s !! q) ->
  c_bfds s !! q = Some b -> exists b', c_bfds s' !! q = Some b' /\ shape b' = shape b.
Proof.
  intros H Hb. specialize (H q). rewrite Hb in H. simpl in H.
  apply fmap_Some in H as (b' & Hb' & H). eauto.
Qed.

Lemma dyn_lookup s s' q b :
  dyn <$> c_bfds s' !! q = dyn <$> c_bfds s !! q ->
  c_bfds s !! q = Some b -> exists b', c_bfds s' !! q = Some b' /\ dyn b' = dyn b.
Proof.
  intros H Hb. rewrite Hb in H. simpl in H. apply fmap_Some in H as (b' & Hb' & H). eauto.
Qed.

Lemma frame_trans V p s1 s2 s3 : frame V p s1 s2 -> frame V p s2 s3 -> frame V p s1 s3.
Proof.
  intros [S1 D1 F1 I1 N1 [O1 C1] X1 M1 Q1] [S2 D2 F2 I2 N2 [O2 C2] X2 M2 Q2].
  split; try congruence; try (split; congruence); try lia; try by eapply quiet_trans.
  - intros q Hq. by rewrite D2, D1.
  - intros q b f Hq HD Hb Hs.
    destruct (dyn_lookup s1 s2 q b (D1 q Hq) Hb) as (b' & Hb' & Hd). injection Hd as Hi _ _ _ _.
    rewrite (F2 q b'), (F1 q b); [done..| congruence].
  - intros i Hi. by rewrite I2, I1.
Qed.

Lemma frame_relinked V p s s' : relinked s s' -> frame V p s s'.
Proof.
  intros (h & x & -> & H).
  assert (Hc : forall A (g : bfd -> A), (forall b, g (core b) = g b) ->
            forall q, g <$> h !! q = g <$> c_bfds s !! q).
  { intros A g Hg q. specialize (H q).
    destruct (h !! q) as [b|], (c_bfds s !! q) as [b0|]; try done.
    apply (inj Some) in H. simpl. by rewrite <- (Hg b), <- (Hg b0), H. }
  split; try done; [exact (Hc _ shape (fun _ => eq_refl)) | intros q _; apply (Hc _ dyn (fun _ => eq_refl))].
Qed.

Lemma frame_alter V p f s : (forall b, shape (f b) = shape b) -> frame V p s (alter_bfd f p s).
Proof.
  intros Hf. split; try done; simpl.
  - intros q. rewrite alter_lookup. case_decide; [|done].
    destruct (c_bfds s !! q); simpl; by rewrite ?Hf.
  - intros q Hq. by rewrite lookup_alter_ne.
Qed.

(** What does not reach the files and the BFDs. *)
Lemma frame_same V p s s' :
  c_bfds s' = c_bfds s -> c_os s' = c_os s -> cap s' = cap s ->
  c_asserts s' = c_asserts s -> c_reports s' = c_reports s -> frame V p s s'.
Proof. intros H1 H2 H3 H4 H5. by split; rewrite ?H1, ?H2. Qed.

Lemma frame_open_files V p n s : frame V p s (set_c_open_files n s).
Proof. by apply frame_same. Qed.
Lemma frame_error V p e s : frame V p s (set_c_error e s).
Proof. by apply frame_same. Qed.
Lemma frame_errno V p e s : frame V p s (set_c_errno e s).
Proof. by apply frame_same. Qed.

Lemma frame_os V p s o :
  os_names o = os_names (c_os s) -> os_oracle o = os_oracle (c_os s) ->
  os_close_oracle o = os_close_oracle (c_os s) -> os_limit o = os_limit (c_os s) ->
  (os_next_file (c_os s) <= os_next_file o)%nat ->
  (forall q b f, q <> p -> q ∈ dom V -> c_bfds s !! q = Some b -> b_iostream b = Some (S_file f) ->
     os_files o !! f = os_files (c_os s) !! f) ->
  (forall i, (forall w, V !! p = Some w -> v_inode w = i -> v_writable w = false) ->
     os_inodes o !! i = os_inodes (c_os s) !! i) ->
  frame V p s (set_c_os o s).
Proof.
  intros Hn Ho Hc Hl Hx Hf Hi. assert (Hcap : cap (set_c_os o s) = cap s) by (unfold cap; simpl; by rewrite Hl).
  by split.
Qed.

(** ** What only depends on the shape of the BFDs *)

Definition same_shape (s s' : cstate) : Prop :=
  forall q, shape <$> c_bfds s' !! q = shape <$> c_bfds s !! q.

Section shapes.
Context {s s' : cstate} (Hsh : same_shape s s').

Lemma get_bfd_inv s0 p b s1 : get_bfd p s0 = Some (b, s1) -> c_bfds s0 !! p = Some b /\ s1 = s0.
Proof. unfold get_bfd, gets, mbind, M_bind, the. simpl. case_match; intros [= -> ->]; done. Qed.

Lemma get_bfd_eq s0 p b : c_bfds s0 !! p = Some b -> get_bfd p s0 = Some (b, s0).
Proof. intros H. unfold get_bfd, gets, mbind, M_bind, the. simpl. by rewrite H. Qed.

Lemma bind_inv {A B} (m : M A) (f : A -> M B) s0 b s2 :
  (m ≫= f) s0 = Some (b, s2) -> exists a s1, m s0 = Some (a, s1) /\ f a s1 = Some (b, s2).
Proof. unfold mbind, M_bind. case_match; [|done]. destruct p. eauto. Qed.

Lemma bind_eq {A B} (m : M A) (f : A -> M B) s0 a s1 : m s0 = Some (a, s1) -> (m ≫= f) s0 = f a s1.
Proof. intros H. unfold mbind, M_bind. by rewrite H. Qed.

Lemma get_bfd_shape p b :
  get_bfd p s = Some (b, s) -> exists b', get_bfd p s' = Some (b', s') /\ shape b' = shape b.
Proof using Hsh.
  intros [Hb _]%get_bfd_inv. destruct (shape_lookup s s' p b Hsh Hb) as (b' & Hb' & Hs).
  exists b'. split; [by apply get_bfd_eq | done].
Qed.

Lemma possibly_cached_shape p r :
  possibly_cached p s = Some (r, s) -> possibly_cached p s' = Some (r, s').
Proof using Hsh.
  unfold possibly_cached. intros (b & s1 & [Hb ->]%get_bfd_inv & H)%bind_inv.
  destruct (get_bfd_shape p b) as (b' & Hb' & Hs); [by apply get_bfd_eq|].
  erewrite bind_eq by done. injection Hs as _ _ Hm _ _ _ _ Ha _. rewrite Hm, Ha.
  destruct (b_in_memory b); [by injection H as <-|].
  destruct (b_my_archive b) as [ar|]; [|by injection H as <-].
  apply bind_inv in H as (c & s1 & [Hc ->]%get_bfd_inv & H).
  destruct (get_bfd_shape ar c) as (c' & Hc' & Hs); [by apply get_bfd_eq|].
  erewrite bind_eq by done. injection Hs as _ _ _ _ _ Ht _ _ _. rewrite Ht. by injection H as <-.
Qed.

Lemma containing_shape b b' r :
  shape b' = shape b -> containing b s = Some (r, s) -> containing b' s' = Some (r, s').
Proof using Hsh.
  unfold containing. intros Hs H. injection Hs as _ Hi _ _ _ _ _ Ha _. rewrite Ha.
  destruct (b_my_archive b) as [ar|]; [|by injection H as <-].
  apply bind_inv in H as (c & s1 & [Hc ->]%get_bfd_inv & H).
  destruct (get_bfd_shape ar c) as (c' & Hc' & Hs); [by apply get_bfd_eq|].
  erewrite bind_eq by done. injection Hs as _ Hi' _ _ _ Ht _ _ _. rewrite Hi, Hi', Ht.
  by injection H as <-.
Qed.

Lemma containing_pure b r s0 s1 : containing b s0 = Some (r, s1) -> s1 = s0.
Proof.
  unfold containing. destruct (b_my_archive b); [|by intros [= _ ->]].
  intros (c & s2 & [Hc ->]%get_bfd_inv & H)%bind_inv. by injection H as _ ->.
Qed.

Lemma outermost_shape n : forall p off r,
  outermost n p off s = Some (r, s) -> outermost n p off s' = Some (r, s').
Proof using Hsh.
  induction n as [|n IH]; intros p off r H; [done|]. simpl in H |- *.
  apply bind_inv in H as (b & s1 & [Hb ->]%get_bfd_inv & H).
  apply bind_inv in H as (up & s1 & Hup & H). pose proof (containing_pure _ _ _ _ Hup) as ->.
  destruct (get_bfd_shape p b) as (b' & Hb' & Hs); [by apply get_bfd_eq|].
  erewrite bind_eq by done. erewrite bind_eq by (by eapply containing_shape).
  injection Hs as _ _ _ _ _ _ Ho _ _. rewrite Ho.
  destruct up; [by apply IH | by injection H as <-].
Qed.

Lemma size_shape : size (c_bfds s') = size (c_bfds s).
Proof using Hsh.
  rewrite <- !size_dom. f_equal. apply set_eq. intros q.
  specialize (Hsh q). rewrite !elem_of_dom.
  destruct (c_bfds s' !! q), (c_bfds s !! q); simplify_eq/=; naive_solver.
Qed.

Lemma stream_of_shape p r : stream_of p s = Some (r, s) -> stream_of p s' = Some (r, s').
Proof using Hsh.
  change (stream_of p s) with (outermost (size (c_bfds s)) p 0 s).
  change (stream_of p s') with (outermost (size (c_bfds s')) p 0 s').
  rewrite size_shape. apply outermost_shape.
Qed.
End shapes.

(** ** The relation *)

Record file_ok (s : cstate) (p : ptr) (b : bfd) (v : vfile) : Prop := {
  fo_cached : possibly_cached p s = Some (true, s);
  fo_iovec : b_iovec b = Some cache_iovec;
  fo_root : containing b s = Some (None, s);
  fo_name : os_names (c_os s) !! b_filename b = Some (v_inode v);
  fo_direction : v_writable v = bfd_write_p b;
  fo_once : v_writable v = true -> b_opened_once b = true;
  fo_inode : is_Some (os_inodes (c_os s) !! v_inode v);
  fo_where : b_where b = v_pos v;
  fo_range : 0 <= v_pos v < 2 ^ 63;
  fo_pinned : b_in_format_matches b = v_pinned v
}.

(** The inode of [w] holds what it abstractly holds once [out] is written at
    [start]. *)
Definition settled (s : cstate) (v : vstate) (w : vfile) (out : list Z) (start : nat) : Prop :=
  exists act, os_inodes (c_os s) !! v_inode w = Some act /\
    v_inodes v !! v_inode w = Some (deliver act start out) /\
    (forall lo, v_synced w = Some lo -> lo <= Z.of_nat (length act)) /\
    (out <> [] -> v_writable w = true /\ is_Some (v_synced w)).

(** The stream [G] of [w] at [pos]. *)
Record shows (s : cstate) (v : vstate) (w : vfile) (pos : Z) (G : FILE) : Prop := {
  sh_inode : f_inode G = v_inode w;
  sh_pos : f_pos G = pos;
  sh_writable : f_writable G = v_writable w;
  sh_error : f_error G = false;
  sh_settled : settled s v w (f_out G) (out_start G);
  sh_start : Z.of_nat (length (f_out G)) <= pos;
  sh_last : f_out G <> [] -> f_last G = F_output;
  sh_ahead : f_ahead G = take (length (f_ahead G)) (drop (Z.to_nat pos) (contents v w))
}.

(** The BFD knows whether its stream was read or written last. *)
Definition dir_ok (b : bfd) (G : FILE) : Prop :=
  (f_last G = F_output -> b_last_io b = bfd_io_write) /\
  (f_last G = F_input -> b_last_io b = bfd_io_read).

(** The stream of [b]: none when closed, else at the abstract position. *)
Definition stream_ok (s : cstate) (v : vstate) (y : option ptr) (open : list ptr) (p : ptr) (b : bfd)
    (w : vfile) : Prop :=
  match b_iostream b with
  | None => p ∉ open /\ settled s v w [] 0
  | Some (S_file f) => p ∈ open /\ exists G, os_files (c_os s) !! f = Some G /\
      shows s v w (v_pos w) G /\ (y <> Some p -> dir_ok b G)
  | Some (S_memory _) => False
  end.

Definition home_ok (s : cstate) (p : ptr) (r : ptr) (off : Z) (lim : option Z) : Prop :=
  stream_of p s = Some ((r, off), s) /\ 0 <= off < 2 ^ 63 /\
  exists e up, c_bfds s !! p = Some e /\ containing e s = Some (up, s) /\
    lim = match up with Some _ => b_arelt_size e | None => None end.

(** Two BFDs of one inode only read it. *)
Definition exclusive (V : gmap ptr vfile) : Prop :=
  forall p q w u, V !! p = Some w -> V !! q = Some u -> p <> q -> v_inode w = v_inode u -> v_writable w = false.

Record files (B : bool) (x y : option ptr) (s : cstate) (v : vstate) (l pins : list ptr) : Prop := {
  fs_ring : cached s l;
  fs_nodup : NoDup (l ++ pins);
  fs_count : c_open_files s = Z.of_nat (length l + length pins);
  fs_oracle : os_oracle (c_os s) = [];
  fs_close_oracle : os_close_oracle (c_os s) = [];
  fs_exclusive : exclusive (v_files v);
  fs_rest : forall i, (forall p w, v_files v !! p = Some w -> v_inode w <> i) ->
    os_inodes (c_os s) !! i = v_inodes v !! i;
  fs_tracked : forall p, p ∈ l ++ pins -> p ∈ dom (v_files v);
  fs_small : Z.of_nat (size (dom (v_files v))) < 2 ^ 32;
  fs_cap : 1 <= cap s;
  fs_bound : B = true -> pins = [] /\ c_open_files s <= cap s;
  fs_file : forall p w, v_files v !! p = Some w -> exists b, c_bfds s !! p = Some b /\
    file_ok s p b w /\ (p ∈ pins <-> v_pinned w = true) /\ (B = true -> b_cacheable b = true) /\
    (x <> Some p -> stream_ok s v y (l ++ pins) p b w);
  fs_streams : forall p b f, p ∈ dom (v_files v) -> c_bfds s !! p = Some b ->
    b_iostream b = Some (S_file f) ->
    (f < os_next_file (c_os s))%nat /\
    forall q c, q ∈ dom (v_files v) -> c_bfds s !! q = Some c -> b_iostream c = Some (S_file f) -> q = p;
  fs_home : forall p r off lim, v_home v !! p = Some (r, off, lim) ->
    r ∈ dom (v_files v) /\ home_ok s p r off lim
}.

(** What a stream shows depends on its inode only. *)
Lemma settled_ext s s' v v' w out start :
  os_inodes (c_os s') !! v_inode w = os_inodes (c_os s) !! v_inode w ->
  v_inodes v' !! v_inode w = v_inodes v !! v_inode w ->
  settled s v w out start -> settled s' v' w out start.
Proof. intros H1 H2. unfold settled. by rewrite H1, H2. Qed.

Lemma shows_ext s s' v v' w pos G :
  os_inodes (c_os s') !! v_inode w = os_inodes (c_os s) !! v_inode w ->
  v_inodes v' !! v_inode w = v_inodes v !! v_inode w ->
  shows s v w pos G -> shows s' v' w pos G.
Proof.
  intros H1 H2 [A1 A2 A3 A4 A5 A6 A7 A8]. split; try done; [by eapply settled_ext|].
  unfold contents. by rewrite H2.
Qed.

Lemma settled_contents s v w : settled s v w [] 0 -> os_inodes (c_os s) !! v_inode w = Some (contents v w).
Proof. intros (act & Ha & Hv & _). unfold contents. by rewrite Ha, Hv. Qed.

Lemma stream_ok_ext s s' v v' y y' open open' q c c' u :
  os_inodes (c_os s') !! v_inode u = os_inodes (c_os s) !! v_inode u ->
  v_inodes v' !! v_inode u = v_inodes v !! v_inode u ->
  dyn c' = dyn c -> (q ∈ open' <-> q ∈ open) -> (y' <> Some q -> y <> Some q) ->
  (forall f, b_iostream c = Some (S_file f) -> os_files (c_os s') !! f = os_files (c_os s) !! f) ->
  stream_ok s v y open q c u -> stream_ok s' v' y' open' q c' u.
Proof.
  intros H1 H2 Hd Ho Hy Hf. injection Hd as Hi _ _ _ Hl. unfold stream_ok, dir_ok. rewrite Hi, Hl.
  destruct (b_iostream c) as [[f|]|] eqn:E; [|done|].
  - rewrite Ho, (Hf f eq_refl). intros (Hq & G & HG & Hs & HD). split; [done|]. exists G.
    split; [done|]. split; [by eapply shows_ext|]. auto.
  - rewrite Ho. intros [Hq Hs]. split; [done|]. by eapply settled_ext.
Qed.

Section frames.
Context {V : gmap ptr vfile} {p : ptr} {s s' : cstate} (Hf : frame V p s s').

Lemma frame_shape : same_shape s s'.
Proof using Hf. exact (fr_shape _ _ _ _ Hf). Qed.

(** A BFD's condition but for its dynamic part. *)
Lemma file_ok_frame q b b' w w' :
  file_ok s q b w -> c_bfds s' !! q = Some b' -> shape b' = shape b ->
  v_inode w' = v_inode w -> v_writable w' = v_writable w ->
  is_Some (os_inodes (c_os s') !! v_inode w) ->
  b_where b' = v_pos w' -> 0 <= v_pos w' < 2 ^ 63 -> b_in_format_matches b' = v_pinned w' ->
  file_ok s' q b' w'.
Proof using Hf.
  intros [C I R N Di O _ _ _ _] Hb' Hs Hi Hw Hn Hwh Hr Hp.
  pose proof frame_shape as Hsh.
  pose proof (possibly_cached_shape Hsh _ _ C) as C'.
  pose proof (containing_shape Hsh _ _ _ Hs R) as R'.
  injection Hs as H1 H2 _ H3 H4 _ _ _ _.
  split; rewrite ?Hi, ?Hw, ?H2, ?H4; try done.
  - by rewrite (fr_names _ _ _ _ Hf), H1.
  - rewrite Di. unfold bfd_write_p. by rewrite H3.
Qed.

Lemma home_ok_frame q r off lim : home_ok s q r off lim -> home_ok s' q r off lim.
Proof using Hf.
  intros (Hst & Ho & e & up & He & Hup & ->). pose proof frame_shape as Hsh.
  split; [by apply (stream_of_shape Hsh)|]. split; [done|].
  destruct (shape_lookup s s' q e Hsh He) as (e' & He' & Hs). exists e', up.
  split; [done|]. split; [by apply (containing_shape Hsh e)|].
  by injection Hs as _ _ _ _ _ _ _ _ ->.
Qed.

Lemma other_lookup q b :
  q <> p -> c_bfds s !! q = Some b ->
  exists b', c_bfds s' !! q = Some b' /\ shape b' = shape b /\ dyn b' = dyn b.
Proof using Hf.
  intros Hq Hb. destruct (shape_lookup s s' q b frame_shape Hb) as (b' & Hb' & Hs).
  destruct (dyn_lookup s s' q b (fr_dyn _ _ _ _ Hf q Hq) Hb) as (b'' & Hb'' & Hd).
  rewrite Hb' in Hb''. apply (inj Some) in Hb'' as <-. eauto.
Qed.

Lemma other_lookup_inv q b' :
  q <> p -> c_bfds s' !! q = Some b' ->
  exists b, c_bfds s !! q = Some b /\ shape b' = shape b /\ dyn b' = dyn b.
Proof using Hf.
  intros Hq Hb'. pose proof (frame_shape q) as Hs. rewrite Hb' in Hs. simpl in Hs.
  destruct (c_bfds s !! q) as [b|] eqn:Hb; [|done].
  destruct (other_lookup q b Hq Hb) as (b'' & Hb'' & Hs' & Hd).
  rewrite Hb' in Hb''. apply (inj Some) in Hb'' as <-. eauto.
Qed.

(** The inode of another BFD. *)
Lemma other_inode q u :
  exclusive V -> q <> p -> V !! q = Some u ->
  os_inodes (c_os s') !! v_inode u = os_inodes (c_os s) !! v_inode u.
Proof using Hf.
  intros Hex Hq Hu. apply (fr_inodes _ _ _ _ Hf). intros w Hw Hi. by apply (Hex p q w u).
Qed.
End frames.

(** One BFD [p] and its file change, the others stay. *)
Lemma files_focus B p x y s v l pins x' y' s' v' l' pins' w w' b b' :
  files B x y s v l pins -> frame (v_files v) p s s' ->
  v_files v !! p = Some w -> c_bfds s !! p = Some b ->
  (forall q, q <> p -> (x' <> Some q -> x <> Some q) /\ (y' <> Some q -> y <> Some q)) ->
  v_files v' = <[p := w']> (v_files v) -> v_home v' = v_home v ->
  (forall i, (v_writable w = true -> v_inode w <> i) -> v_inodes v' !! i = v_inodes v !! i) ->
  is_Some (os_inodes (c_os s') !! v_inode w) ->
  cached s' l' -> NoDup (l' ++ pins') ->
  (forall q, q <> p -> q ∈ l' <-> q ∈ l) -> (forall q, q <> p -> q ∈ pins' <-> q ∈ pins) ->
  c_open_files s' = Z.of_nat (length l' + length pins') ->
  (B = true -> pins' = [] /\ c_open_files s' <= cap s' /\ b_cacheable b' = true) ->
  c_bfds s' !! p = Some b' -> v_inode w' = v_inode w -> v_writable w' = v_writable w ->
  b_where b' = v_pos w' -> 0 <= v_pos w' < 2 ^ 63 -> b_in_format_matches b' = v_pinned w' ->
  (p ∈ pins' <-> v_pinned w' = true) ->
  (x' <> Some p -> stream_ok s' v' y' (l' ++ pins') p b' w') ->
  (forall f, b_iostream b' = Some (S_file f) -> (f < os_next_file (c_os s'))%nat /\
     forall q c, q <> p -> q ∈ dom (v_files v) -> c_bfds s !! q = Some c -> b_iostream c <> Some (S_file f)) ->
  files B x' y' s' v' l' pins'.
Proof.
  intros F Hf Hw Hb Hxy Hv' Hh Hvi Hino Hc Hd Hl Hp Hcount HB Hb' Hwi Hww Hpos Hrange Hpin Hpin' Hst Hown.
  pose proof (fs_exclusive _ _ _ _ _ _ _ F) as Hex.
  assert (Hdom : dom (v_files v') = dom (v_files v))
    by (rewrite Hv', dom_insert_L; apply elem_of_dom_2 in Hw; set_solver).
  assert (Hvq : forall q u, q <> p -> v_files v !! q = Some u -> v_inodes v' !! v_inode u = v_inodes v !! v_inode u).
  { intros q u Hq Hu. apply Hvi. intros Hwr Hi. by rewrite (Hex p q w u) in Hwr. }
  split; rewrite ?Hdom; try done.
  - by rewrite (proj1 (fr_oracles _ _ _ _ Hf)), (fs_oracle _ _ _ _ _ _ _ F).
  - by rewrite (proj2 (fr_oracles _ _ _ _ Hf)), (fs_close_oracle _ _ _ _ _ _ _ F).
  - intros q1 q2 u1 u2. rewrite Hv', !lookup_insert_Some.
    intros [[<- <-]|[? H1]] [[<- <-]|[? H2]] Hne; rewrite ?Hwi, ?Hww; try done;
      by (intros Hi; eapply Hex; [..|exact Hi]).
  - intros i Hi.
    assert (Hi' : forall q u, v_files v !! q = Some u -> v_inode u <> i).
    { intros q u Hu. destruct (decide (q = p)) as [->|Hq].
      - rewrite Hw in Hu. apply (inj Some) in Hu as <-. rewrite <- Hwi. apply (Hi p). by rewrite Hv', lookup_insert_eq.
      - apply (Hi q). by rewrite Hv', lookup_insert_ne. }
    rewrite Hvi by (intros _; by apply (Hi' p)).
    rewrite (fr_inodes _ _ _ _ Hf) by (intros u Hu Hui; by destruct (Hi' p u Hu)).
    by apply (fs_rest _ _ _ _ _ _ _ F).
  - intros q Hq. destruct (decide (q = p)) as [->|Hqp]; [by apply elem_of_dom_2 in Hw|].
    apply (fs_tracked _ _ _ _ _ _ _ F). apply elem_of_app. apply elem_of_app in Hq as [Hq|Hq]; [left|right].
    + by apply Hl.
    + by apply Hp.
  - apply (fs_small _ _ _ _ _ _ _ F).
  - rewrite (fr_cap _ _ _ _ Hf). apply (fs_cap _ _ _ _ _ _ _ F).
  - intros HB'. destruct (HB HB') as (? & ? & ?). done.
  - intros q u Hu. rewrite Hv' in Hu. destruct (decide (q = p)) as [->|Hqp].
    + rewrite lookup_insert_eq in Hu. apply (inj Some) in Hu as <-.
      destruct (fs_file _ _ _ _ _ _ _ F p w Hw) as (c & Hcb & Hok & _). rewrite Hcb in Hb.
      apply (inj Some) in Hb as ->. exists b'. split; [done|].
      destruct (shape_lookup s s' p b (frame_shape Hf) Hcb) as (b'' & Hb'' & Hs).
      rewrite Hb' in Hb''. apply (inj Some) in Hb'' as <-.
      split; [|split; [done|split; [intros HB'; by apply HB | done]]].
      by eapply (file_ok_frame Hf).
    + rewrite lookup_insert_ne in Hu by done. destruct (Hxy q Hqp) as [Hx Hy].
      destruct (fs_file _ _ _ _ _ _ _ F q u Hu) as (c & Hcb & Hok & Hpq & Hcc & Hs).
      destruct (other_lookup Hf q c Hqp Hcb) as (c' & Hcb' & Hsh & Hdyn).
      pose proof Hdyn as Hdyn'. injection Hdyn' as Hio Hwh Him Hca _. exists c'. split; [done|].
      pose proof (other_inode Hf q u Hex Hqp Hu) as Hiu.
      split; [|split; [by rewrite (Hp q Hqp) | split; [by rewrite Hca|]]].
      * eapply (file_ok_frame Hf); try done.
        -- rewrite Hiu. apply (fo_inode _ _ _ _ Hok).
        -- rewrite Hwh. apply (fo_where _ _ _ _ Hok).
        -- apply (fo_range _ _ _ _ Hok).
        -- rewrite Him. apply (fo_pinned _ _ _ _ Hok).
      * intros Hxq. apply (stream_ok_ext s s' v v' y y' (l ++ pins) _ q c); try done; auto.
        -- by eapply Hvq.
        -- rewrite !elem_of_app. by rewrite (Hl q Hqp), (Hp q Hqp).
        -- intros f Hf'. apply (fr_files _ _ _ _ Hf q c f); [done|by apply elem_of_dom_2 in Hu|done..].
  - intros q c f Hq Hcb Hio. destruct (decide (q = p)) as [->|Hqp].
    + rewrite Hb' in Hcb. apply (inj Some) in Hcb as <-. destruct (Hown f Hio) as [? Ho].
      split; [done|]. intros r d Hr Hd' Hrs. destruct (decide (r = p)) as [->|Hrp]; [done|].
      destruct (other_lookup_inv Hf r d Hrp Hd') as (d0 & Hd0 & _ & Hdd). injection Hdd as Hdi _ _ _ _.
      exfalso. apply (Ho r d0 Hrp Hr Hd0). by rewrite <- Hdi.
    + destruct (other_lookup_inv Hf q c Hqp Hcb) as (c0 & Hc0 & _ & Hcd). injection Hcd as Hci _ _ _ _.
      rewrite Hci in Hio. destruct (fs_streams _ _ _ _ _ _ _ F q c0 f Hq Hc0 Hio) as [Hlt Hinj].
      split; [eapply Nat.lt_le_trans; [done | apply (fr_next _ _ _ _ Hf)]|].
      intros r d Hr Hd' Hrs. destruct (decide (r = p)) as [->|Hrp].
      * rewrite Hb' in Hd'. apply (inj Some) in Hd' as <-. destruct (Hown f Hrs) as [_ Ho].
        by destruct (Ho q c0 Hqp Hq Hc0).
      * destruct (other_lookup_inv Hf r d Hrp Hd') as (d0 & Hd0 & _ & Hdd). injection Hdd as Hdi _ _ _ _.
        apply (Hinj r d0); [done..|]. by rewrite <- Hdi.
  - intros q r off lim Hq. rewrite Hh in Hq. destruct (fs_home _ _ _ _ _ _ _ F q r off lim Hq) as [? Ho].
    split; [done | by apply (home_ok_frame Hf)].
Qed.

(** The stream of [p] is opened, closed or moved; its abstract file stays. *)
Lemma files_local B p x y s v l pins x' y' s' l' w b b' :
  files B x y s v l pins -> frame (v_files v) p s s' ->
  v_files v !! p = Some w -> c_bfds s !! p = Some b ->
  (forall q, q <> p -> (x' <> Some q -> x <> Some q) /\ (y' <> Some q -> y <> Some q)) ->
  is_Some (os_inodes (c_os s') !! v_inode w) ->
  cached s' l' -> NoDup (l' ++ pins) -> (forall q, q <> p -> q ∈ l' <-> q ∈ l) ->
  c_open_files s' = Z.of_nat (length l' + length pins) ->
  (B = true -> c_open_files s' <= cap s') ->
  c_bfds s' !! p = Some b' -> b_where b' = b_where b ->
  b_in_format_matches b' = b_in_format_matches b -> (b_cacheable b = true -> b_cacheable b' = true) ->
  (x' <> Some p -> stream_ok s' v y' (l' ++ pins) p b' w) ->
  (forall f, b_iostream b' = Some (S_file f) -> (f < os_next_file (c_os s'))%nat /\
     forall q c, q <> p -> q ∈ dom (v_files v) -> c_bfds s !! q = Some c -> b_iostream c <> Some (S_file f)) ->
  files B x' y' s' v l' pins.
Proof.
  intros F Hf Hw Hb Hxy Hi Hc Hd Hl Hn HB Hb' Hwh Him Hca Hs Hown.
  destruct (fs_file _ _ _ _ _ _ _ F p w Hw) as (c & Hcb & Hok & Hpin & HBc & _).
  rewrite Hcb in Hb. apply (inj Some) in Hb as ->.
  eapply (files_focus B p x y s v l pins x' y' s' v l' pins w w b b'); try done.
  - symmetry. by apply insert_id.
  - intros HB'. destruct (fs_bound _ _ _ _ _ _ _ F HB') as [? _]. auto.
  - rewrite Hwh. apply (fo_where _ _ _ _ Hok).
  - apply (fo_range _ _ _ _ Hok).
  - rewrite Him. apply (fo_pinned _ _ _ _ Hok).
Qed.

(** What is not of the files. *)
Definition set_buffering (ks : list nat) (o : os) : os :=
  mkOs (os_names o) (os_inodes o) (os_next_inode o) (os_files o) (os_next_file o) (os_limit o)
    (os_oracle o) (os_close_oracle o) ks.

Lemma files_ext B x y s v l pins s' :
  files B x y s v l pins ->
  c_bfds s' = c_bfds s -> c_last_cache s' = c_last_cache s -> c_open_files s' = c_open_files s ->
  set_buffering [] (c_os s') = set_buffering [] (c_os s) -> cap s' = cap s -> files B x y s' v l pins.
Proof.
  intros F Hb Hl Hn Ho Hc. injection Ho as O1 O2 O3 O4 O5 O6 O7 O8.
  assert (Hsh : same_shape s s') by (intros q; by rewrite Hb).
  destruct F as [F1 F2 F3 F4 F5 F6 F7 F8 F9 F10 F11 F12 F13 F14].
  split; rewrite ?O2, ?O4, ?O5, ?O7, ?O8, ?Hb, ?Hn, ?Hc; try done.
  - destruct F1 as (? & ? & ?). split_and!; [by rewrite Hl | done | by rewrite Hb].
  - intros p w Hw. destruct (F12 p w Hw) as (b & Hb' & [C I R N Di On In Wh Ra Pi] & ? & ? & Hs).
    exists b. split; [done|]. split; [|split; [done|split; [done|]]].
    + split; rewrite ?O1, ?O2; try done; [by apply (possibly_cached_shape Hsh) | by apply (containing_shape Hsh b)].
    + intros Hx. by apply (stream_ok_ext s s' v v y y (l ++ pins) _ p b b); rewrite ?O2, ?O4; auto.
  - intros p r off lim Hp. destruct (F14 p r off lim Hp) as [? (Hst & ? & e & up & He & Hup & ->)].
    split; [done|]. split; [by apply (stream_of_shape Hsh)|]. split; [done|].
    exists e, up. split_and!; [by rewrite Hb | by apply (containing_shape Hsh e) | done].
Qed.
