(* ===== verification/CacheOps.v ===== *)
(** The cache's own operations keep the relation to always-open files: closing,
    finding one to close, opening again and looking a stream up. *)

From S2P Require Import Prelude HashTable Cache CacheRing CacheFiles.

(** ** Rules for the system calls *)

Section calls.
Implicit Types (s : cstate).

Lemma runs_answer s (Q : bool -> cstate -> Prop) : os_oracle (c_os s) = [] -> Q true s -> runs answer s Q.
Proof. intros H HQ. exists true, s. split; [|done]. unfold answer. by rewrite H. Qed.

Lemma runs_close_answer s (Q : bool -> cstate -> Prop) :
  os_close_oracle (c_os s) = [] -> Q true s -> runs close_answer s Q.
Proof. intros H HQ. exists true, s. split; [|done]. unfold close_answer. by rewrite H. Qed.

Lemma runs_get_file f F s (Q : FILE -> cstate -> Prop) :
  os_files (c_os s) !! f = Some F -> Q F s -> runs (get_file f) s Q.
Proof. intros H HQ. apply runs_bind, runs_gets. by apply (runs_the _ F). Qed.

Lemma runs_inode_bytes i bs s (Q : list Z -> cstate -> Prop) :
  os_inodes (c_os s) !! i = Some bs -> Q bs s -> runs (inode_bytes i) s Q.
Proof. intros H HQ. apply runs_bind, runs_gets. by apply (runs_the _ bs). Qed.

Lemma runs_set_os g s (Q : unit -> cstate -> Prop) : Q tt (set_c_os (g (c_os s)) s) -> runs (set_os g) s Q.
Proof. intros HQ. by apply runs_modify. Qed.

(** The files after an operation on [f]. *)
Definition with_file (f : nat) (F : option FILE) (s : cstate) : cstate :=
  set_c_os (set_files (partial_alter (fun _ => F) f (os_files (c_os s))) (c_os s)) s.

Lemma with_file_lookup f G s : os_files (c_os (with_file f G s)) !! f = G.
Proof. simpl. by rewrite lookup_partial_alter_eq. Qed.

(** The files and an inode after an operation on [f]. *)
Definition put (f i : nat) (F : option FILE) (bs : list Z) (s : cstate) : cstate :=
  with_file f F (set_c_os (set_inode i bs (c_os s)) s).

Lemma put_inode f i F bs s : os_inodes (c_os (put f i F bs s)) !! i = Some bs.
Proof. apply lookup_insert_eq. Qed.

Lemma put_file f i F bs s : os_files (c_os (put f i F bs s)) !! f = F.
Proof. apply with_file_lookup. Qed.

(** With other choices of what is buffered. *)
Definition rebuffer (ks : list nat) (s : cstate) : cstate := set_c_os (set_buffering ks (c_os s)) s.

Lemma runs_buffering s (Q : nat -> cstate -> Prop) :
  (forall k ks, Q k (rebuffer ks s)) -> runs buffering s Q.
Proof.
  intros HQ. unfold buffering. destruct (os_buffering (c_os s)) as [|k ks] eqn:E.
  - exists 0%nat, s. unfold runs. rewrite E. split; [done|]. specialize (HQ 0%nat []).
    unfold rebuffer, set_buffering in HQ. rewrite <- E in HQ. by destruct s as [? ? ? ? ? [] ? ? ? ?].
  - exists k, (rebuffer ks s). by rewrite E.
Qed.

Lemma runs_fclose f F bs s (Q : bool -> cstate -> Prop) :
  os_files (c_os s) !! f = Some F -> os_inodes (c_os s) !! f_inode F = Some bs ->
  os_close_oracle (c_os s) = [] ->
  Q true (put f (f_inode F) None (flushed F bs) s) -> runs (fclose f) s Q.
Proof.
  intros HF Hi Ho HQ. apply runs_bind, (runs_get_file _ F); [done|].
  apply runs_bind, (runs_inode_bytes _ bs); [done|]. apply runs_bind, runs_close_answer; [done|].
  by apply runs_bind, runs_set_os, runs_bind, runs_set_os, runs_ret.
Qed.

Lemma runs_ftell f F s (Q : Z -> cstate -> Prop) :
  os_files (c_os s) !! f = Some F -> Q (f_pos F) s -> runs (ftell f) s Q.
Proof. intros HF HQ. by eapply runs_bind, runs_get_file, runs_ret. Qed.

Lemma runs_set_file f F s (Q : unit -> cstate -> Prop) :
  Q tt (with_file f (Some F) s) -> runs (set_file f F) s Q.
Proof. intros HQ. by apply runs_set_os. Qed.

Lemma runs_fseek f F bs offset w s (Q : bool -> cstate -> Prop) pos :
  os_files (c_os s) !! f = Some F -> os_inodes (c_os s) !! f_inode F = Some bs ->
  os_oracle (c_os s) = [] ->
  pos = match w with SEEK_SET => 0 | SEEK_CUR => f_pos F | SEEK_END => Z.of_nat (length (flushed F bs)) end
          + offset ->
  0 <= pos ->
  Q true (put f (f_inode F) (Some (mkFILE (f_inode F) pos (f_writable F) (f_error F) F_neutral [] []))
            (flushed F bs) s) ->
  runs (fseek f offset w) s Q.
Proof.
  intros HF Hi Ho -> Hp HQ. unfold fseek. apply runs_bind, (runs_get_file _ F); [done|].
  apply runs_bind, (runs_inode_bytes _ bs); [done|]. apply runs_bind, runs_answer; [done|].
  cbv zeta. rewrite (proj2 (Z.ltb_ge _ _)) by done. cbn [negb].
  by apply runs_bind, runs_set_os, runs_bind, runs_set_file, runs_ret.
Qed.
End calls.

(** ** What the relation and the ring read *)

Lemma cached_ext s s' l :
  c_last_cache s' = c_last_cache s ->
  (forall p, (c_bfds s' !! p ≫= b_lru_next) = (c_bfds s !! p ≫= b_lru_next)) ->
  (forall p, (c_bfds s' !! p ≫= b_lru_prev) = (c_bfds s !! p ≫= b_lru_prev)) ->
  cached s l -> cached s' l.
Proof.
  intros Hl Hn Hp (H1 & H2 & H3). split_and!; [by rewrite Hl | done |].
  assert (Hc : forall m, chain (c_bfds s) m -> chain (c_bfds s') m).
  { induction m as [|a [|b m] IH]; [done..|]. intros [[Ha Hb] Hm]. split; [|by apply IH].
    by split; rewrite ?Hn, ?Hp. }
  destruct l; [done | by apply Hc].
Qed.

Lemma cached_alter f p s l :
  (forall b, b_lru_next (f b) = b_lru_next b) -> (forall b, b_lru_prev (f b) = b_lru_prev b) ->
  cached s l -> cached (alter_bfd f p s) l.
Proof. intros Hn Hp. apply cached_ext; [done| |]; intros q; by apply next_alter || apply prev_alter. Qed.

Lemma relinked_lookup s s' p b :
  relinked s s' -> c_bfds s !! p = Some b ->
  exists b', c_bfds s' !! p = Some b' /\ dyn b' = dyn b /\ shape b' = shape b.
Proof.
  intros (h & x & -> & H) Hb. specialize (H p). rewrite Hb in H. simpl in *.
  apply fmap_Some in H as (b' & Hb' & H). exists b'. split; [done|].
  split; [change (dyn (core b') = dyn (core b)) | change (shape (core b') = shape (core b))];
    by rewrite H.
Qed.

Lemma relinked_rest s s' : relinked s s' -> c_os s' = c_os s /\ c_open_files s' = c_open_files s.
Proof. by intros (h & x & -> & _). Qed.

(** An alteration that changes nothing. *)
Lemma alter_bfd_id f p b s : c_bfds s !! p = Some b -> f b = b -> alter_bfd f p s = s.
Proof.
  intros Hb Hf. unfold alter_bfd. rewrite <- (alter_insert_lookup _ _ b f) by done.
  rewrite Hf, insert_id by done. by destruct s.
Qed.

Lemma alter_bfd_lookup f p s b : c_bfds s !! p = Some b -> c_bfds (alter_bfd f p s) !! p = Some (f b).
Proof. intros Hb. simpl. by rewrite lookup_alter_eq, Hb. Qed.

Section relation.
Context {B : bool} {x y : option ptr} {s : cstate} {v : vstate} {l pins : list ptr}.
Hypothesis F : files B x y s v l pins.

Lemma tracked_file p : p ∈ l ++ pins -> is_Some (v_files v !! p).
Proof using F. intros Hp. by apply elem_of_dom, (fs_tracked _ _ _ _ _ _ _ F). Qed.

(** The stream of an open BFD. *)
Lemma open_stream p w :
  p ∈ l ++ pins -> v_files v !! p = Some w -> x <> Some p ->
  exists b f G, c_bfds s !! p = Some b /\ b_iostream b = Some (S_file f) /\
    os_files (c_os s) !! f = Some G /\ shows s v w (v_pos w) G /\ (y <> Some p -> dir_ok b G) /\
    file_ok s p b w.
Proof using F.
  intros Hp Hw Hx. destruct (fs_file _ _ _ _ _ _ _ F p w Hw) as (b & Hb & Hok & _ & _ & Hs).
  specialize (Hs Hx). unfold stream_ok in Hs. exists b.
  destruct (b_iostream b) as [[f|]|] eqn:Hf; [|done|by destruct Hs].
  destruct Hs as [_ (G & HG & Hsh & Hd)]. exists f, G. by split_and!.
Qed.

(** Changing the file of [p], and its inode when it can be written, leaves the
    others alone. *)
Lemma frame_with_file p b f G :
  p ∈ dom (v_files v) -> c_bfds s !! p = Some b -> b_iostream b = Some (S_file f) ->
  frame (v_files v) p s (with_file f G s).
Proof using F.
  intros Hp Hb Hf. apply frame_os; try done. intros q c g Hqp Hq Hc Hg. simpl.
  apply lookup_partial_alter_ne. intros <-.
  destruct (fs_streams _ _ _ _ _ _ _ F p b f Hp Hb Hf) as [_ Hinj]. by apply Hqp, (Hinj q c).
Qed.

Lemma frame_put p w b f G bs :
  v_files v !! p = Some w -> c_bfds s !! p = Some b -> b_iostream b = Some (S_file f) ->
  v_writable w = true \/ os_inodes (c_os s) !! v_inode w = Some bs ->
  frame (v_files v) p s (put f (v_inode w) G bs s).
Proof using F.
  intros Hw Hb Hf Hbs. pose proof (elem_of_dom_2 _ _ _ Hw) as Hp.
  change (put f (v_inode w) G bs s) with (set_c_os (c_os (put f (v_inode w) G bs s)) s). apply frame_os; try done.
  - intros q c g Hqp Hq Hc Hg. simpl. apply lookup_partial_alter_ne. intros <-.
    destruct (fs_streams _ _ _ _ _ _ _ F p b f Hp Hb Hf) as [_ Hinj]. by apply Hqp, (Hinj q c).
  - intros i Hi. simpl. destruct (decide (v_inode w = i)) as [<-|Hne]; [|by rewrite lookup_insert_ne].
    rewrite lookup_insert_eq. destruct Hbs as [Hwr| ->]; [|done]. by rewrite (Hi w Hw eq_refl) in Hwr.
Qed.

Lemma own_stream p b f :
  p ∈ dom (v_files v) -> c_bfds s !! p = Some b -> b_iostream b = Some (S_file f) ->
  (f < os_next_file (c_os s))%nat /\
  forall q c, q <> p -> q ∈ dom (v_files v) -> c_bfds s !! q = Some c -> b_iostream c <> Some (S_file f).
Proof using F.
  intros Hp Hb Hf. destruct (fs_streams _ _ _ _ _ _ _ F p b f Hp Hb Hf) as [? Hinj]. split; [done|].
  intros q c Hqp Hq Hc Hg. by apply Hqp, (Hinj q c).
Qed.

Lemma open_count : Z.of_nat (length l + length pins) <= Z.of_nat (size (dom (v_files v))).
Proof using F.
  rewrite <- length_app, <- (size_list_to_set (C:=gset ptr)) by apply (fs_nodup _ _ _ _ _ _ _ F).
  apply inj_le, subseteq_size. intros p Hp%elem_of_list_to_set. by apply (fs_tracked _ _ _ _ _ _ _ F).
Qed.

Lemma closed_count p :
  p ∈ dom (v_files v) -> p ∉ l ++ pins -> u32 (c_open_files s + 1) = c_open_files s + 1.
Proof using F.
  intros Hp Hn. pose proof (fs_small _ _ _ _ _ _ _ F) as Hs. rewrite (fs_count _ _ _ _ _ _ _ F).
  assert (H : Z.of_nat (length (p :: l ++ pins)) <= Z.of_nat (size (dom (v_files v)))).
  { rewrite <- (size_list_to_set (C:=gset ptr)).
    - apply inj_le, subseteq_size. intros q Hq%elem_of_list_to_set.
      apply elem_of_cons in Hq as [->|Hq]; [done | by apply (fs_tracked _ _ _ _ _ _ _ F)].
    - apply NoDup_cons. split; [done | apply (fs_nodup _ _ _ _ _ _ _ F)]. }
  cbn [length] in H. rewrite length_app in H. apply wrap_small. unfold fits. lia.
Qed.
End relation.

(** ** Closing *)

Lemma overwrite_length bytes pos bs : length (overwrite bytes pos bs) = Nat.max (length bytes) (pos + length bs).
Proof. unfold overwrite. rewrite !length_app, length_take, length_replicate, length_drop. lia. Qed.

Lemma deliver_length bytes pos out : (length bytes <= length (deliver bytes pos out))%nat.
Proof. destruct out; [done|]. unfold deliver. rewrite overwrite_length. lia. Qed.

Lemma nodup_remove (l1 : list ptr) p l2 pins :
  NoDup ((l1 ++ p :: l2) ++ pins) -> p ∉ (l1 ++ l2) ++ pins /\ NoDup ((l1 ++ l2) ++ pins).
Proof.
  assert (H : (l1 ++ p :: l2) ++ pins ≡ₚ p :: (l1 ++ l2) ++ pins) by solve_Permutation.
  by rewrite H, NoDup_cons.
Qed.

(** The frame of a sequence of primitive steps, read off the final state. *)
Ltac solve_frame :=
  repeat first
  [ apply frame_refl
  | eassumption
  | eapply frame_trans; [|apply frame_alter; done]
  | eapply frame_trans; [|apply frame_relinked; eassumption]
  | eapply frame_trans; [|apply frame_open_files || apply frame_error || apply frame_errno] ].

Lemma delete_spec B x y s v l1 p l2 pins w (Q : bool -> cstate -> Prop) :
  files B x y s v (l1 ++ p :: l2) pins -> v_files v !! p = Some w -> x <> Some p ->
  (forall s', files B x y s' v (l1 ++ l2) pins -> frame (v_files v) p s s' ->
     c_open_files s' = c_open_files s - 1 -> Q true s') ->
  runs (bfd_cache_delete p) s Q.
Proof.
  intros F Hw Hx HQ. pose proof (elem_of_dom_2 _ _ _ Hw) as Hp.
  destruct (open_stream F p w) as (b & f & G & Hb & Hf & HG & Hsh & _ & Hok); [set_solver|done..|].
  destruct (sh_settled _ _ _ _ _ Hsh) as (act & Hact & Hvi & Hlo & Hout).
  pose proof (sh_inode _ _ _ _ _ Hsh) as Hgi.
  pose proof (fs_ring _ _ _ _ _ _ _ F) as Hring. pose proof (fs_count _ _ _ _ _ _ _ F) as Hcount.
  pose proof (open_count F) as Hsmall. pose proof (fs_small _ _ _ _ _ _ _ F) as Hsmall'.
  unfold bfd_cache_delete. repeat rstep; [done|]. unfold as_file. rewrite Hf. repeat rstep; [done|].
  apply (runs_fclose _ G act); [done | by rewrite Hgi | by apply (fs_close_oracle _ _ _ _ _ _ _ F)|]. cbn iota.
  rewrite Hgi. repeat rstep. set (s1 := put f (v_inode w) None (flushed G act) s).
  eapply runs_mono; [apply (snip_spec s1); exact Hring|].
  intros [] s2 [Hrel Hring2]. cbn beta.
  destruct (relinked_lookup s1 s2 p b Hrel Hb) as (b2 & Hb2 & Hdyn & _).
  injection Hdyn as _ Hwh Him Hca _.
  destruct (relinked_rest _ _ Hrel) as [Hos2 Ho2]. change (c_open_files s1) with (c_open_files s) in Ho2.
  assert (Hpos : 0 < c_open_files s < 2 ^ 32) 
    by (pose proof (length_app l1 (p :: l2)) as Hl; cbn [length] in Hl; lia).
  repeat rstep; [done | simpl; rewrite Ho2; apply Z.ltb_lt; lia | hsolve.. |].
  simpl c_open_files. rewrite Ho2, wrap_small by (unfold fits; lia).
  set (s' := alter_bfd _ p _).
  assert (Hf1 : frame (v_files v) p s s1).
  { eapply frame_put; [exact F | done..|]. unfold flushed. destruct (f_out G) as [|z out] eqn:Ho;
      [by right | by left; apply Hout]. }
  assert (Hf' : frame (v_files v) p s s') by (subst s'; solve_frame).
  apply HQ; [|done | done].
  pose proof (fs_nodup _ _ _ _ _ _ _ F) as Hd.
  apply nodup_remove in Hd as [Hpn Hd].
  assert (Hb' : c_bfds s' !! p =
    Some (set_last_io bfd_io_force (set_closed_by_cache true (set_iostream None b2)))).
  { subst s'. by repeat apply alter_bfd_lookup. }
  assert (Hino : os_inodes (c_os s') !! v_inode w = Some (flushed G act))
    by (subst s'; simpl; rewrite Hos2; apply put_inode).
  eapply (files_local B p x y s v _ pins x y s' _ w b _ F Hf' Hw Hb); try done.
  - subst s'. by repeat apply cached_alter.
  - set_solver.
  - subst s'. simpl. rewrite Hcount, !length_app. simpl. lia.
  - intros HB. destruct (fs_bound _ _ _ _ _ _ _ F HB) as [_ Hle].
    rewrite (fr_cap _ _ _ _ Hf'). subst s'. simpl. lia.
  - simpl. by rewrite Hca.
  - intros _. split; [done|]. exists (flushed G act). split_and!; [done|done| |done].
    intros lo Hl. pose proof (Hlo lo Hl). pose proof (deliver_length act (out_start G) (f_out G)). unfold flushed. lia.
Qed.

Lemma last_cacheable_all h l :
  (forall p, p ∈ l -> b_cacheable <$> h !! p = Some true) -> last_cacheable h l = last l.
Proof.
  intros H. unfold last_cacheable. f_equal. induction l as [|a l IH]; [done|].
  rewrite filter_cons, decide_True by (apply H; set_solver). f_equal. apply IH. set_solver.
Qed.

Lemma last_cacheable_in h l p : last_cacheable h l = Some p -> p ∈ l.
Proof. intros H%last_Some_elem_of. by apply list_elem_of_filter in H as [_ H]. Qed.

Lemma close_one_spec B x y s v l pins (Q : bool -> cstate -> Prop) :
  files B x y s v l pins -> (forall p, p ∈ l -> x <> Some p) ->
  (forall s' l' q, files B x y s' v l' pins -> frame (v_files v) q s s' -> x <> Some q ->
     (forall r, r ∈ l' -> r ∈ l) -> c_open_files s' <= c_open_files s ->
     (B = true -> l <> [] -> c_open_files s' = c_open_files s - 1) -> Q true s') ->
  runs close_one s Q.
Proof.
  intros F Hx HQ. unfold close_one. do 5 rstep.
  apply (victim_spec s l); [by apply (fs_ring _ _ _ _ _ _ _ F)|].
  destruct (last_cacheable (c_bfds s) l) as [p|] eqn:Hp.
  - apply last_cacheable_in in Hp as Hpl.
    destruct (tracked_file F p) as [w Hw]; [set_solver|].
    destruct (open_stream F p w) as (b & f & G & Hb & Hf & HG & Hsh & _ & Hok); [set_solver | done | by apply Hx |].
    do 2 rstep; [done|]. unfold as_file. rewrite Hf. repeat rstep; [done|].
    apply (runs_ftell _ _ _ _ HG). rewrite (sh_pos _ _ _ _ _ Hsh). rstep. rstep; [done|].
    rewrite (alter_bfd_id _ _ b); [|done|].
    + apply list_elem_of_split in Hpl as (l1 & l2 & ->).
      apply (delete_spec B x y s v l1 p l2 pins w); [done..| by apply Hx; set_solver |].
      intros s' F' Hf' Hn. apply (HQ s' (l1 ++ l2) p); try done; [by apply Hx; set_solver | set_solver | lia].
    + simpl. rewrite wrap_small by (pose proof (fo_range _ _ _ _ Hok); unfold fits; lia).
      rewrite <- (fo_where _ _ _ _ Hok). by destruct b.
  - rstep. apply (HQ s l (match x with Some y => S y | None => O end)); try done.
    + destruct x; [intros [= ?]; lia | done].
    + intros HB Hl. rewrite last_cacheable_all in Hp; [by apply last_None in Hp|].
      intros p Hpl. destruct (tracked_file F p) as [w Hw]; [set_solver|].
      destruct (fs_file _ _ _ _ _ _ _ F p w Hw) as (b & Hb & _ & _ & Hc & _). rewrite Hb. simpl. by rewrite Hc.
Qed.

(** ** Opening *)

Lemma runs_max_open s (Q : Z -> cstate -> Prop) :
  1 <= cap s -> Q (cap s) (set_c_max_open_files (cap s) s) -> runs bfd_cache_max_open s Q.
Proof.
  intros Hc HQ. unfold bfd_cache_max_open. repeat rstep. unfold cap in *.
  destruct (Z.eqb_spec (c_max_open_files s) 0) as [H0|H0].
  - repeat rstep. replace (Z.max 10 (os_limit (c_os s))) with
      (if os_limit (c_os s) <? 10 then 10 else os_limit (c_os s)) in HQ; [done|].
    destruct (Z.ltb_spec (os_limit (c_os s)) 10); lia.
  - rstep. by destruct s.
Qed.

Lemma cap_max_open s : 1 <= cap s -> cap (set_c_max_open_files (cap s) s) = cap s.
Proof. intros Hc. unfold cap at 1. simpl. by rewrite (proj2 (Z.eqb_neq _ _)) by lia. Qed.

(** Room for one more. *)
Lemma room_for_spec B x y s v l pins (Q : bool -> cstate -> Prop) :
  files B x y s v l pins -> (forall p, p ∈ l -> x <> Some p) ->
  (forall s' l' q, files B x y s' v l' pins -> frame (v_files v) q s s' -> x <> Some q ->
     (forall r, r ∈ l' -> r ∈ l) -> (B = true -> c_open_files s' < cap s') -> Q true s') ->
  runs (if cap s <=? c_open_files s then close_one else ret true) (set_c_max_open_files (cap s) s) Q.
Proof.
  intros F Hx HQ. pose proof (fs_cap _ _ _ _ _ _ _ F) as Hcap. pose proof (cap_max_open s Hcap) as Hc.
  set (s1 := set_c_max_open_files (cap s) s) in *.
  assert (F1 : files B x y s1 v l pins) by (by apply (files_ext _ _ _ s)).
  assert (Hf : forall q, frame (v_files v) q s s1) by (intros q; by apply frame_same).
  destruct (Z.leb_spec (cap s) (c_open_files s)) as [Hle|Hlt].
  - apply (close_one_spec B x y s1 v l pins); [done..|]. intros s' l' q F' Hf' Hq Hl Hn HB.
    apply (HQ s' l' q); try done; [by eapply frame_trans|]. intros HB'.
    rewrite HB; [|done|].
    + rewrite (fr_cap _ _ _ _ Hf'), Hc. destruct (fs_bound _ _ _ _ _ _ _ F HB') as [_ Hb].
      change (c_open_files s1) with (c_open_files s). lia.
    + intros ->. destruct (fs_bound _ _ _ _ _ _ _ F HB') as [-> _].
      rewrite (fs_count _ _ _ _ _ _ _ F) in Hle. simpl in Hle. lia.
  - rstep. apply (HQ s1 l (match x with Some y => S y | None => O end)); try done.
    + destruct x; [intros [= ?]; lia | done].
    + intros _. by rewrite Hc.
Qed.

(** The state after opening the inode [i]. *)
Definition opened (i : nat) (writable : bool) (s : cstate) : cstate :=
  let o := c_os s in
  set_c_os (mkOs (os_names o) (os_inodes o) (os_next_inode o)
              (<[os_next_file o := fresh_FILE i writable]> (os_files o)) (S (os_next_file o))
              (os_limit o) (os_oracle o) (os_close_oracle o) (os_buffering o)) s.

Lemma runs_fopen name mode i s (Q : option nat -> cstate -> Prop) :
  os_oracle (c_os s) = [] -> os_names (c_os s) !! name = Some i ->
  match mode with FOPEN_WUB => False | _ => True end ->
  Q (Some (os_next_file (c_os s))) (opened i (match mode with FOPEN_RB => false | _ => true end) s) ->
  runs (fopen name mode) s Q.
Proof.
  intros Ho Hn Hm HQ. unfold fopen. rstep. apply runs_answer; [done|]. cbn [negb].
  repeat rstep. rewrite Hn. unfold new_file, set_os. destruct mode; [by repeat rstep..|done].
Qed.

Lemma open_by_direction_spec p b w s (Q : unit -> cstate -> Prop) :
  c_bfds s !! p = Some b -> file_ok s p b w -> os_oracle (c_os s) = [] ->
  Q tt (alter_bfd (set_iostream (Some (S_file (os_next_file (c_os s))))) p
          (opened (v_inode w) (v_writable w) s)) ->
  runs (open_by_direction p) s Q.
Proof.
  intros Hb Hok Ho HQ. pose proof (fo_name _ _ _ _ Hok) as Hn.
  pose proof (fo_direction _ _ _ _ Hok) as Hd. pose proof (fo_once _ _ _ _ Hok) as Honce.
  unfold open_by_direction. rstep. rstep; [done|]. cbv zeta. unfold bfd_write_p in Hd.
  destruct (b_direction b); rewrite Hd in *.
  1, 2: rstep; apply (runs_fopen _ _ _ _ _ Ho Hn); [done|]; by rstep.
  all: rewrite Honce by done; rstep; apply (runs_fopen _ _ _ _ _ Ho Hn); [done|];
    rstep; rstep; [done | by rstep].
Qed.

Lemma frame_opened (V : gmap ptr vfile) p i w s :
  (forall q b f, q <> p -> q ∈ dom V -> c_bfds s !! q = Some b -> b_iostream b = Some (S_file f) ->
     (f < os_next_file (c_os s))%nat) ->
  frame V p s (opened i w s).
Proof.
  intros H. apply frame_os; try done; simpl; [lia|]. intros q b f Hq HD Hb Hf.
  rewrite lookup_insert_ne; [done|]. specialize (H q b f Hq HD Hb Hf). lia.
Qed.

(** The stream of a BFD. *)
Definition stream_at (s : cstate) (p : ptr) (f : nat) (G : FILE) : Prop :=
  (b_iostream <$> c_bfds s !! p) = Some (Some (S_file f)) /\ os_files (c_os s) !! f = Some G.

(** The stream of [p] is [G], which shows [w] at [pos]. *)
Definition found (s : cstate) (v : vstate) (p : ptr) (f : nat) (w : vfile) (pos : Z) (G : FILE) : Prop :=
  stream_at s p f G /\ shows s v w pos G.

Definition dir_at (s : cstate) (p : ptr) (G : FILE) : Prop :=
  exists b, c_bfds s !! p = Some b /\ dir_ok b G.

Lemma found_frame v p q s s' f w pos G :
  frame (v_files v) q s s' -> exclusive (v_files v) -> q <> p -> v_files v !! p = Some w ->
  found s v p f w pos G -> found s' v p f w pos G.
Proof.
  intros Hf Hex Hq Hw [[Hs HG] Hsh]. pose proof (elem_of_dom_2 _ _ _ Hw) as Hp.
  split; [|by eapply shows_ext; [eapply (other_inode Hf p w)|..]].
  destruct (c_bfds s !! p) as [b|] eqn:Hb; [|done]. simpl in Hs.
  apply (inj Some) in Hs. destruct (other_lookup Hf p b) as (b' & Hb' & _ & Hd); [done..|].
  injection Hd as Hi _ _ _ _. split; [by rewrite Hb', <- Hs, <- Hi|].
  by rewrite (fr_files _ _ _ _ Hf p b f).
Qed.

Lemma found_same s s' v p f w pos G :
  c_os s' = c_os s -> (b_iostream <$> c_bfds s' !! p) = (b_iostream <$> c_bfds s !! p) ->
  found s v p f w pos G -> found s' v p f w pos G.
Proof.
  intros Ho Hb [[Hs HG] Hsh]. split; [split; [by rewrite Hb | by rewrite Ho]|].
  by apply (shows_ext s s' v v); rewrite ?Ho.
Qed.

Definition last_io (s : cstate) (p : ptr) : option bfd_last_io := b_last_io <$> c_bfds s !! p.

Lemma last_io_frame V p q s s' : frame V q s s' -> q <> p -> last_io s' p = last_io s p.
Proof.
  intros Hf Hq. pose proof (fr_dyn _ _ _ _ Hf p ltac:(done)) as Hd. unfold last_io.
  destruct (c_bfds s' !! p), (c_bfds s !! p); try done. apply (inj Some) in Hd. injection Hd as _ _ _ _ Hd. simpl. by rewrite Hd.
Qed.

Lemma last_io_relinked s s' p b : relinked s s' -> c_bfds s !! p = Some b -> last_io s' p = last_io s p.
Proof.
  intros R Hb. destruct (relinked_lookup s s' p b R Hb) as (b' & Hb' & Hd & _).
  injection Hd as _ _ _ _ Hl. unfold last_io. rewrite Hb, Hb'. simpl. by rewrite Hl.
Qed.

(** A new stream, or one that was just moved. *)
Definition resting (w : vfile) (pos : Z) : FILE := mkFILE (v_inode w) pos (v_writable w) false F_neutral [] [].

Lemma shows_resting s v w pos : settled s v w [] 0 -> 0 <= pos -> shows s v w pos (resting w pos).
Proof. intros Hs Hp. by split. Qed.

Lemma dir_ok_neutral b G : f_last G = F_neutral -> dir_ok b G.
Proof. intros H. split; by rewrite H. Qed.

Lemma init_spec B p y s v l pins w f pos G (Q : bool -> cstate -> Prop) :
  files B (Some p) y s v l pins -> v_files v !! p = Some w -> p ∉ l ++ pins -> found s v p f w pos G ->
  (forall s' l', files B (Some p) y s' v (p :: l') pins -> found s' v p f w pos G ->
     last_io s' p = last_io s p -> quiet s s' -> Q true s') ->
  runs (_bfd_cache_init_unlocked p) s Q.
Proof.
  intros F Hw Hp Hs HQ. pose proof (elem_of_dom_2 _ _ _ Hw) as HD. pose proof Hs as [[Hi _] _].
  destruct (fs_file _ _ _ _ _ _ _ F p w Hw) as (b & Hb & _).
  rewrite Hb in Hi. simpl in Hi. apply (inj Some) in Hi.
  unfold _bfd_cache_init_unlocked. repeat rstep; [done | by rewrite Hi | ].
  apply runs_max_open; [by apply (fs_cap _ _ _ _ _ _ _ F)|]. rstep.
  apply (room_for_spec B (Some p) y s v l pins); [done | intros q Hq [= ->]; set_solver |].
  intros s1 l1 q F1 Hf1 Hq Hl1 HB1. assert (Hqp : q <> p) by congruence. cbn [negb].
  pose proof (found_frame _ _ _ _ _ _ _ _ _ Hf1 (fs_exclusive _ _ _ _ _ _ _ F) Hqp Hw Hs) as Hs1.
  destruct (fs_file _ _ _ _ _ _ _ F1 p w Hw) as (b1 & Hb1 & Hok1 & Hpin & HBc & _).
  assert (Hp1 : p ∉ l1 ++ pins) by set_solver.
  repeat rstep; [done|]. rewrite (alter_bfd_id _ _ b1); [|done|].
  2: { rewrite (eq_sym (fo_iovec _ _ _ _ Hok1)). by destruct b1. }
  eapply runs_mono; [apply (insert_spec s1 l1 p); [by apply (fs_ring _ _ _ _ _ _ _ F1) | set_solver | done]|].
  intros [] s2 [Hrel Hring]. destruct (relinked_rest _ _ Hrel) as [Hos2 Ho2].
  destruct (relinked_lookup s1 s2 p b1 Hrel Hb1) as (b2 & Hb2 & Hdyn & _).
  injection Hdyn as Hio Hwh Him Hca _. repeat rstep; [done|].
  simpl c_open_files. rewrite Ho2, (closed_count F1 p) by done.
  set (s3 := set_c_open_files _ _).
  assert (Hf3 : frame (v_files v) p s1 s3) by (subst s3; solve_frame).
  assert (Hb3 : c_bfds s3 !! p = Some (set_closed_by_cache false b2)) by (by apply alter_bfd_lookup).
  apply (HQ s3 l1).
  - eapply (files_local B p _ y s1 v l1 pins (Some p) y s3 _ w b1 _ F1 Hf3 Hw Hb1); try done.
    + subst s3. simpl. rewrite Hos2. apply (fo_inode _ _ _ _ Hok1).
    + subst s3. apply (cached_ext (alter_bfd (set_closed_by_cache false) p s2)); [done..|].
      by apply cached_alter.
    + constructor; [done | apply (fs_nodup _ _ _ _ _ _ _ F1)].
    + set_solver.
    + subst s3. simpl. rewrite (fs_count _ _ _ _ _ _ _ F1). lia.
    + intros HB. rewrite (fr_cap _ _ _ _ Hf3). specialize (HB1 HB). subst s3. simpl. lia.
    + simpl. by rewrite Hca.
    + intros g Hg. apply (own_stream F1 p b1 g) in Hb1 as [? ?]; [|done|by rewrite <- Hio].
      split; [|done]. eapply Nat.lt_le_trans; [done | apply (fr_next _ _ _ _ Hf3)].
  - apply (found_same s1); [done| |done]. rewrite Hb3, Hb1. simpl. by rewrite Hio.
  - rewrite <- (last_io_frame _ p q s s1 Hf1 Hqp), <- (last_io_relinked s1 s2 p b1 Hrel Hb1).
    unfold last_io. by rewrite Hb3, Hb2.
  - eapply quiet_trans; [apply (fr_quiet _ _ _ _ Hf1) | apply (fr_quiet _ _ _ _ Hf3)].
Qed.

Lemma open_spec B p y s v l pins w (Q : option nat -> cstate -> Prop) :
  files B None y s v l pins -> v_files v !! p = Some w -> p ∉ l ++ pins ->
  (forall s' l' f, files B (Some p) y s' v (p :: l') pins -> found s' v p f w 0 (resting w 0) ->
     last_io s' p = last_io s p -> quiet s s' -> Q (Some f) s') ->
  runs (_bfd_open_file_unlocked p) s Q.
Proof.
  intros F Hw Hp HQ. pose proof (elem_of_dom_2 _ _ _ Hw) as HD.
  destruct (fs_file _ _ _ _ _ _ _ F p w Hw) as (b & Hb & Hok & Hpin & HBc & Hst).
  specialize (Hst ltac:(done)). assert (Hset : settled s v w [] 0).
  { unfold stream_ok in Hst. destruct (b_iostream b) as [[f|]|]; [by destruct Hst | done | apply Hst]. }
  pose proof (fs_exclusive _ _ _ _ _ _ _ F) as Hex.
  unfold _bfd_open_file_unlocked. rstep. rstep; [done|].
  set (s1 := alter_bfd _ p s).
  assert (Hf1 : frame (v_files v) p s s1) by (subst s1; solve_frame).
  assert (Hb1 : c_bfds s1 !! p = Some (set_cacheable true b)) by (by apply alter_bfd_lookup).
  assert (F1 : files B (Some p) y s1 v l pins).
  { eapply (files_local B p None y s v l pins (Some p) y s1 l w b _ F Hf1 Hw Hb); try done.
    - apply (fo_inode _ _ _ _ Hok).
    - apply cached_alter; [done..|apply (fs_ring _ _ _ _ _ _ _ F)].
    - apply (fs_nodup _ _ _ _ _ _ _ F).
    - apply (fs_count _ _ _ _ _ _ _ F).
    - intros HB. by apply (fs_bound _ _ _ _ _ _ _ F HB).
    - intros f Hf. by apply (own_stream F p b f). }
  do 3 rstep. apply runs_max_open; [by apply (fs_cap _ _ _ _ _ _ _ F1)|]. rstep.
  apply (room_for_spec B (Some p) y s1 v l pins); [done | intros q Hq [= ->]; set_solver |].
  intros s2 l2 q F2 Hf2 Hq Hl2 HB2. assert (Hqp : q <> p) by congruence. cbn [negb].
  assert (Hset2 : settled s2 v w [] 0) by (by eapply (settled_ext s1); [eapply (other_inode Hf2 p w)|..]).
  destruct (fs_file _ _ _ _ _ _ _ F2 p w Hw) as (b2 & Hb2 & Hok2 & _).
  rstep. apply (open_by_direction_spec p b2 w s2 _ Hb2 Hok2); [apply (fs_oracle _ _ _ _ _ _ _ F2)|].
  set (f := os_next_file (c_os s2)). set (s3 := alter_bfd _ _ _).
  assert (Hf3 : frame (v_files v) p s2 s3).
  { subst s3. eapply frame_trans; [|by apply frame_alter]. apply frame_opened.
    intros r c g _ Hr Hc Hg. by apply (fs_streams _ _ _ _ _ _ _ F2 r c g). }
  assert (Hb3 : c_bfds s3 !! p = Some (set_iostream (Some (S_file f)) b2)) by (by apply alter_bfd_lookup).
  assert (F3 : files B (Some p) y s3 v l2 pins).
  { eapply (files_local B p (Some p) y s2 v l2 pins (Some p) y s3 l2 w b2 _ F2 Hf3 Hw Hb2); try done.
    - apply (fo_inode _ _ _ _ Hok2).
    - apply cached_alter; [done..|apply (fs_ring _ _ _ _ _ _ _ F2)].
    - apply (fs_nodup _ _ _ _ _ _ _ F2).
    - apply (fs_count _ _ _ _ _ _ _ F2).
    - intros HB. by apply (fs_bound _ _ _ _ _ _ _ F2 HB).
    - intros g [= <-]. split; [simpl; lia|]. intros r c _ Hr Hc Hg.
      destruct (fs_streams _ _ _ _ _ _ _ F2 r c f Hr Hc Hg) as [Hlt _]. subst f. lia. }
  assert (H3 : found s3 v p f w 0 (resting w 0)).
  { split; [split; [by rewrite Hb3 | apply lookup_insert_eq]|]. by apply shows_resting. }
  rstep. rstep; [done|]. simpl b_iostream. cbv iota. rstep.
  eapply (init_spec B p y s3 v l2 pins w f 0 _ _ F3 Hw); [set_solver | exact H3 |].
  intros s4 l4 F4 Hfd4 Hl4 Hq4. pose proof Hfd4 as [[Hi HG] _]. cbn [negb]. destruct (c_bfds s4 !! p) as [b4|] eqn:Hb4; [|done].
  apply (inj Some) in Hi. rstep. rstep; [done|]. unfold as_file. rewrite Hi. rstep.
  apply (HQ s4 l4 f F4); [done| |].
  { rewrite Hl4. transitivity (last_io s2 p); [unfold last_io; by rewrite Hb3, Hb2|].
    rewrite (last_io_frame _ p q s1 s2 Hf2 Hqp). unfold last_io. by rewrite Hb1, Hb. }
  eapply quiet_trans; [|done]. eapply quiet_trans; [|apply (fr_quiet _ _ _ _ Hf3)].
  eapply quiet_trans; [apply (fr_quiet _ _ _ _ Hf1) | apply (fr_quiet _ _ _ _ Hf2)].
Qed.

(** ** Looking a stream up *)

Lemma files_weaken B y s v l pins p : files B None y s v l pins -> files B (Some p) y s v l pins.
Proof.
  intros [F1 F2 F3 F4 F5 F6 F7 F8 F9 F10 F11 F12 F13 F14]. split; try done.
  intros q u Hu. destruct (F12 q u Hu) as (b & ? & ? & ? & ? & Hs). exists b. split_and!; auto.
Qed.

Lemma files_found B y s v l pins p f w G :
  files B (Some p) y s v l pins -> v_files v !! p = Some w -> p ∈ l ++ pins ->
  found s v p f w (v_pos w) G -> (y <> Some p -> dir_at s p G) -> files B None y s v l pins.
Proof.
  intros [F1 F2 F3 F4 F5 F6 F7 F8 F9 F10 F11 F12 F13 F14] Hw Hp [[Hi HG] Hsh] Hd. split; try done.
  intros q u Hu. destruct (F12 q u Hu) as (b & Hb & ? & ? & ? & Hs). exists b. split_and!; auto.
  intros _. destruct (decide (q = p)) as [->|Hq]; [|apply Hs; congruence].
  rewrite Hb in Hi. simpl in Hi. apply (inj Some) in Hi. rewrite Hw in Hu. apply (inj Some) in Hu as <-.
  unfold stream_ok. rewrite Hi. split; [done|]. exists G. split_and!; [done..|]. intros Hy.
  destruct (Hd Hy) as (b' & Hb' & Hd'). rewrite Hb in Hb'. by apply (inj Some) in Hb' as <-.
Qed.

(** Another stream for [p] and, when it can be written, another content. *)
Lemma files_put B x y s v l pins p f w G G' bs :
  files B x y s v l pins -> v_files v !! p = Some w -> (forall q, x = Some q -> q = p) ->
  stream_at s p f G' -> v_writable w = true \/ os_inodes (c_os s) !! v_inode w = Some bs ->
  files B (Some p) y (put f (v_inode w) G bs s) v l pins.
Proof.
  intros F Hw Hx [Hi HG] Hbs. pose proof (elem_of_dom_2 _ _ _ Hw) as HD.
  destruct (fs_file _ _ _ _ _ _ _ F p w Hw) as (b & Hb & _).
  rewrite Hb in Hi. simpl in Hi. apply (inj Some) in Hi.
  assert (Hf : frame (v_files v) p s (put f (v_inode w) G bs s)) by (by eapply frame_put).
  eapply (files_local B p x y s v l pins _ _ _ l w b b F Hf Hw Hb); try done.
  - intros q Hq. split; [|done]. intros _ ->. by apply Hq, Hx.
  - by rewrite put_inode.
  - apply (fs_ring _ _ _ _ _ _ _ F).
  - apply (fs_nodup _ _ _ _ _ _ _ F).
  - apply (fs_count _ _ _ _ _ _ _ F).
  - intros HB. by apply (fs_bound _ _ _ _ _ _ _ F HB).
  - intros g Hg. by apply (own_stream F p b g).
Qed.

(** A stream after a seek. *)
Lemma settled_flushed s v w f G H act :
  settled s v w (f_out G) (out_start G) -> os_inodes (c_os s) !! v_inode w = Some act ->
  settled (put f (v_inode w) H (flushed G act) s) v w [] 0 /\
  (v_writable w = true \/ os_inodes (c_os s) !! v_inode w = Some (flushed G act)).
Proof.
  intros (act' & Ha & Hv & Hlo & Hout) Hact. rewrite Hact in Ha. apply (inj Some) in Ha as <-. split.
  - exists (flushed G act). split_and!; [apply put_inode | done | | done]. intros lo Hl.
    pose proof (Hlo lo Hl). pose proof (deliver_length act (out_start G) (f_out G)). unfold flushed. lia.
  - unfold flushed. destruct (f_out G) eqn:E; [by right | left; by apply Hout].
Qed.

Lemma found_resting s v p f w pos pos' G act :
  found s v p f w pos G -> os_inodes (c_os s) !! v_inode w = Some act -> 0 <= pos' ->
  found (put f (v_inode w) (Some (resting w pos')) (flushed G act) s) v p f w pos' (resting w pos').
Proof.
  intros [[Hi HG] Hsh] Hact Hp. split; [split; [done | apply with_file_lookup]|].
  apply shows_resting; [|done]. by apply settled_flushed; [apply Hsh|].
Qed.

Lemma runs_sought f G w offset dir s v p pos pos' (Q : bool -> cstate -> Prop) :
  found s v p f w pos G -> os_oracle (c_os s) = [] ->
  match dir with SEEK_SET => pos' = offset | SEEK_CUR => pos' = pos + offset | SEEK_END => False end -> 0 <= pos' ->
  (forall act, os_inodes (c_os s) !! v_inode w = Some act ->
     Q true (put f (v_inode w) (Some (resting w pos')) (flushed G act) s)) ->
  runs (fseek f offset dir) s Q.
Proof.
  intros [[_ HG] Hsh] Ho Hd Hp HQ. destruct (sh_settled _ _ _ _ _ Hsh) as (act & Hact & _).
  destruct Hsh as [G1 G2 G3 G4 _ _ _ _]. specialize (HQ act Hact).
  rewrite <- G1 in Hact. eapply (runs_fseek _ _ act _ _ _ _ pos' HG Hact Ho); [|done|].
  - rewrite G2. destruct dir; [lia | lia | done].
  - rewrite G1, G3, G4. exact HQ.
Qed.

(** Moving an open BFD to the start of the ring. *)
Lemma touch_spec B p y s v l1 l2 pins w (Q : unit -> cstate -> Prop) :
  files B None y s v (l1 ++ p :: l2) pins -> v_files v !! p = Some w ->
  (forall s', files B None y s' v (p :: l1 ++ l2) pins -> relinked s s' -> Q tt s') ->
  runs (_ ← snip p; insert p) s Q.
Proof.
  intros F Hw HQ. destruct (fs_file _ _ _ _ _ _ _ F p w Hw) as (b & Hb & Hok & _ & _ & Hst).
  pose proof (elem_of_dom_2 _ _ _ Hw) as HD. pose proof (fs_nodup _ _ _ _ _ _ _ F) as Hd. apply nodup_remove in Hd as [Hp Hd].
  rstep. eapply runs_mono; [apply (snip_spec s l1 p l2), (fs_ring _ _ _ _ _ _ _ F)|].
  intros [] s1 [R1 H1]. cbn beta.
  eapply runs_mono; [apply (insert_spec s1 (l1 ++ l2)); [done | set_solver | by apply (relinked_some s); [|exists b]]|].
  intros [] s2 [R2 H2]. pose proof (relinked_trans _ _ _ R1 R2) as R. apply HQ; [|done].
  destruct (relinked_lookup s s2 p b R Hb) as (b2 & Hb2 & Hdyn & _).
  pose proof Hdyn as Hdyn'. injection Hdyn' as Hi Hwh Him Hca _.
  destruct (relinked_rest _ _ R) as [Ho Hn].
  assert (Hf : frame (v_files v) p s s2) by (by apply frame_relinked).
  eapply (files_local B p None y s v _ pins None y s2 _ w b b2 F Hf Hw Hb); try done.
  - rewrite Ho. apply (fo_inode _ _ _ _ Hok).
  - by constructor.
  - set_solver.
  - rewrite Hn, (fs_count _ _ _ _ _ _ _ F). simpl. rewrite !length_app. simpl. lia.
  - intros HB. rewrite Hn, (fr_cap _ _ _ _ Hf). by apply (fs_bound _ _ _ _ _ _ _ F HB).
  - by rewrite Hca.
  - intros Hx. specialize (Hst Hx). eapply stream_ok_ext; [..|exact Hst]; rewrite ?Ho; try done. set_solver.
  - intros f Hf'. rewrite Hi in Hf'. rewrite Ho. by apply (own_stream F p b f).
Qed.

(** The stream of an open BFD that is looked up. *)
Lemma found_open B y s v l pins p w b f :
  files B None y s v l pins -> v_files v !! p = Some w -> c_bfds s !! p = Some b ->
  b_iostream b = Some (S_file f) -> p ∈ l ++ pins ->
  exists G, found s v p f w (v_pos w) G /\ (y <> Some p -> dir_at s p G).
Proof.
  intros F Hw Hb Hf Hp. destruct (open_stream F p w) as (b' & f' & G & Hb' & Hf' & HG & Hsh & Hd & _); [done..|].
  rewrite Hb in Hb'. apply (inj Some) in Hb' as <-. rewrite Hf in Hf'. injection Hf' as <-.
  exists G. split; [split; [split; [by rewrite Hb; simpl; rewrite Hf | done] | done]|].
  intros Hy. exists b. auto.
Qed.

Lemma lookup_spec B p y s v l pins w flag (Q : option nat -> cstate -> Prop) :
  files B None y s v l pins -> v_files v !! p = Some w ->
  (forall s' l' f pos G, files B (Some p) y s' v l' pins -> p ∈ l' ++ pins -> found s' v p f w pos G ->
     (y <> Some p -> dir_at s' p G) -> last_io s' p = last_io s p ->
     (pos = v_pos w \/ has_flag flag CACHE_NO_SEEK = true) -> quiet s s' -> Q (Some f) s') ->
  (has_flag flag CACHE_NO_OPEN = true -> p ∉ l ++ pins -> Q None s) ->
  runs (bfd_cache_lookup p flag) s Q.
Proof.
  intros F Hw HS HN. destruct (fs_file _ _ _ _ _ _ _ F p w Hw) as (b & Hb & Hok & Hpin & _ & Hst).
  specialize (Hst ltac:(done)). unfold stream_ok in Hst.
  assert (Hopen : forall f, b_iostream b = Some (S_file f) -> p ∈ l ++ pins -> Q (Some f) s).
  { intros f Hf Hp. destruct (found_open _ _ _ _ _ _ p w b f F) as (G & Hfd & Hd); [done..|].
    apply (HS s l f (v_pos w) G); [by apply files_weaken | done | done | done | done | by left | done]. }
  pose proof (fs_ring _ _ _ _ _ _ _ F) as (Hlast & _ & _).
  unfold bfd_cache_lookup. rstep. rstep. case_decide as Hh.
  { rewrite Hlast in Hh. rstep. rstep; [done|].
    assert (Hp : p ∈ l) by (destruct l; simplify_eq/=; set_solver).
    destruct (b_iostream b) as [[f|]|] eqn:Hf; [|done|set_solver]. rstep. apply Hopen; set_solver. }
  unfold bfd_cache_lookup_worker. rstep. exists true, s. split; [apply (fo_cached _ _ _ _ Hok)|].
  cbn [negb]. rstep. rstep; [done|]. rewrite (fo_pinned _ _ _ _ Hok).
  destruct (v_pinned w) eqn:Hpw.
  { assert (Hp : p ∈ pins) by (by apply Hpin). destruct (b_iostream b) as [[f|]|] eqn:Hf; [|done|set_solver].
    rstep. rstep. rstep. apply Hopen; set_solver. }
  destruct (b_iostream b) as [[f|]|] eqn:Hf; [| done |].
  - destruct Hst as [Hp _].
    assert (Hpl : p ∈ l) by (apply elem_of_app in Hp as [?|Hp]; [done | by apply Hpin in Hp]).
    rstep. rstep. rewrite decide_False by done. apply list_elem_of_split in Hpl as (l1 & l2 & ->).
    rstep. apply (touch_spec B p y s v l1 l2 pins w); [done..|]. intros s' F' R. rstep.
    destruct (relinked_lookup s s' p b R Hb) as (b2 & Hb2 & Hdyn & _). injection Hdyn as Hi _ _ _ _.
    destruct (found_open _ _ _ _ _ _ p w b2 f F') as (G & Hfd & Hd); [done|done|congruence|set_solver|].
    apply (HS s' (p :: l1 ++ l2) f (v_pos w) G); [by apply files_weaken | set_solver | done | done | by eapply last_io_relinked | by left |].
    by destruct R as (h & z & -> & _).
  - destruct (has_flag flag CACHE_NO_OPEN) eqn:Hno; [rstep; by apply HN; [|apply Hst]|].
    rstep. apply (open_spec B p y s v l pins w); [done | done | apply Hst |]. intros s' l' f F' Hfd Hlio Hq.
    pose proof Hfd as [[Hi HG] _]. destruct (fs_file _ _ _ _ _ _ _ F' p w Hw) as (b' & Hb' & Hok' & _).
    rewrite Hb' in Hi. simpl in Hi. apply (inj Some) in Hi.
    rstep. rstep; [done|]. rewrite Hi. rstep. rstep. rstep. rstep; [done|].
    assert (Hrest : forall pos, dir_ok b' (resting w pos)) by (intros pos; by apply dir_ok_neutral).
    destruct (has_flag flag CACHE_NO_SEEK) eqn:Hns.
    { rstep. apply (HS s' (p :: l') f 0 (resting w 0)); [done | set_solver | done | | done | by right | done].
      intros _. by exists b'. }
    rewrite (fo_where _ _ _ _ Hok'). pose proof (fo_range _ _ _ _ Hok') as Hr.
    rewrite sext_small by lia.
    rstep. apply (runs_sought f _ _ _ _ _ _ _ _ (v_pos w) _ Hfd); [apply (fs_oracle _ _ _ _ _ _ _ F')|done|lia|].
    intros act Hact. cbn [negb andb]. rstep.
    apply (HS _ (p :: l') f (v_pos w) (resting w (v_pos w))); [| set_solver | | | done | by left | done].
    + eapply files_put; [done | done | congruence | apply Hfd |].
      eapply (settled_flushed s' v w f _ None), Hact. apply Hfd.
    + apply (found_resting _ _ _ _ _ 0); [done | done | lia].
    + intros _. by exists b'.
Qed.
