(* ===== verification/CacheCalls.v ===== *)
(** bfdio.c over the file cache behaves as bfdio.c over files that are never
    closed: whatever the cache closes and opens again between two calls, and
    whatever the streams hold back or fetch ahead, each call returns what the
    always-open files give.  Only the size of a file that is asked for while
    written bytes may be held back is not determined. *)

From S2P Require Import Prelude HashTable Cache CacheRing CacheFiles CacheOps.

(** ** The calls and their meaning on always-open files *)

Inductive call :=
  | Seek (p : ptr) (position : Z) (direction : whence)
  | Read (p : ptr) (n : Z)
  | Write (p : ptr) (bs : list Z)
  | Tell (p : ptr)
  | Flush (p : ptr)
  | Stat (p : ptr)
  | Close (p : ptr)
  | Close_all
  | Set_uncloseable (p : ptr) (value : bool).

(** [R_stat_between] only occurs in what is specified: a status of 0 with a size
    between the two. *)
Inductive outcome :=
  | R_status (z : Z)
  | R_read (z : Z) (bs : list Z)
  | R_stat (z : Z) (size : Z)
  | R_stat_between (low high : Z)
  | R_bool (b : bool)
  | R_pin (b : bool) (old : option bool).

Definition run_call (c : call) : M outcome :=
  match c with
  | Seek p position direction => r ← bfd_seek p position direction; ret (R_status r)
  | Read p n => '(r, bs) ← bfd_read n p; ret (R_read r bs)
  | Write p bs => r ← bfd_write bs p; ret (R_status r)
  | Tell p => r ← bfd_tell p; ret (R_status r)
  | Flush p => r ← bfd_flush p; ret (R_status r)
  | Stat p => '(r, size) ← bfd_stat p; ret (R_stat r size)
  | Close p => r ← bfd_cache_close p; ret (R_bool r)
  | Close_all => r ← bfd_cache_close_all; ret (R_bool r)
  | Set_uncloseable p value => '(r, old) ← bfd_cache_set_uncloseable p value; ret (R_pin r old)
  end.

Fixpoint run_calls (cs : list call) : M (list outcome) :=
  match cs with
  | [] => ret []
  | c :: cs => r ← run_call c; rs ← run_calls cs; ret (r :: rs)
  end.

(** What a call may return where [o] is specified. *)
Definition agrees (o o' : outcome) : Prop :=
  match o with
  | R_stat_between low high => exists size, o' = R_stat 0 size /\ low <= size <= high
  | _ => o' = o
  end.

Definition at_pos (w : vfile) (pos : Z) (synced : option Z) : vfile :=
  mkVfile (v_inode w) pos (v_writable w) (v_pinned w) synced.

Definition moved (r : ptr) (w : vfile) (pos : Z) (synced : option Z) (v : vstate) : vstate :=
  mkVstate (<[r := at_pos w pos synced]> (v_files v)) (v_inodes v) (v_home v).

Definition with_inode (i : nat) (bytes : list Z) (v : vstate) : vstate :=
  mkVstate (v_files v) (<[i := bytes]> (v_inodes v)) (v_home v).

Definition in_range (pos : Z) : bool := (0 <=? pos) && (pos <? 2 ^ 63).

(** The files the cache can close, after it has closed them. *)
Definition all_synced (v : vstate) : vstate :=
  mkVstate ((fun w => if v_pinned w then w else at_pos w (v_pos w) None) <$> v_files v) (v_inodes v) (v_home v).

(** [None] is out of the contract of the calls: an unknown BFD, a position out
    of range, a write to a file opened for reading, closing a pinned file. *)
Definition spec_call (c : call) (v : vstate) : option (outcome * vstate) :=
  match c with
  | Seek p position direction =>
      '(r, off, _) ← v_home v !! p; w ← v_files v !! r;
      pos ← match direction with
            | SEEK_SET => Some (position + off)
            | SEEK_CUR => Some (v_pos w + position)
            | SEEK_END => None
            end;
      if in_range pos
      then Some (R_status 0, moved r w pos (if pos =? v_pos w then v_synced w else None) v) else None
  | Read p n =>
      '(r, off, lim) ← v_home v !! p; w ← v_files v !! r;
      if in_range n then
        match (match lim with Some m => element_size (v_pos w) off n m | None => Some n end) with
        | None => Some (R_read (u64 (-1)) [], v)
        | Some n =>
            let got := take (Z.to_nat n) (drop (Z.to_nat (v_pos w)) (contents v w)) in
            let pos := v_pos w + Z.of_nat (length got) in
            if in_range pos then Some (R_read (Z.of_nat (length got)) got, moved r w pos None v) else None
        end
      else None
  | Write p bs =>
      '(r, _, _) ← v_home v !! p; w ← v_files v !! r;
      let pos := v_pos w + Z.of_nat (length bs) in
      if v_writable w && in_range pos then
        let bytes := contents v w in
        let synced := if bool_decide (bs = []) then v_synced w
                      else Some (default (Z.of_nat (length bytes)) (v_synced w)) in
        Some (R_status (Z.of_nat (length bs)),
              moved r w pos synced (with_inode (v_inode w) (deliver bytes (Z.to_nat (v_pos w)) bs) v))
      else None
  | Tell p =>
      '(r, off, _) ← v_home v !! p; w ← v_files v !! r; Some (R_status (v_pos w - off), v)
  | Flush p => '(r, _, _) ← v_home v !! p; w ← v_files v !! r; Some (R_status 0, moved r w (v_pos w) None v)
  | Stat p =>
      '(r, _, _) ← v_home v !! p; w ← v_files v !! r;
      let size := Z.of_nat (length (contents v w)) in
      Some (match v_synced w with None => R_stat 0 size | Some low => R_stat_between low size end, v)
  | Close p =>
      w ← v_files v !! p; if v_pinned w then None else Some (R_bool true, moved p w (v_pos w) None v)
  | Close_all => Some (R_bool true, all_synced v)
  | Set_uncloseable p value =>
      w ← v_files v !! p;
      Some (R_pin true (Some (v_pinned w)),
            mkVstate (<[p := mkVfile (v_inode w) (v_pos w) (v_writable w) value (v_synced w)]> (v_files v))
              (v_inodes v) (v_home v))
  end.

Fixpoint spec_calls (cs : list call) (v : vstate) : option (list outcome * vstate) :=
  match cs with
  | [] => Some ([], v)
  | c :: cs => '(r, v1) ← spec_call c v; '(rs, v2) ← spec_calls cs v1; Some (r :: rs, v2)
  end.

(** ** Changes of a BFD that is open *)

Lemma runs_intro {A} (m : M A) a s s' (Q : A -> cstate -> Prop) : m s = Some (a, s') -> Q a s' -> runs m s Q.
Proof. intros H HQ. by exists a, s'. Qed.

Lemma at_pos_id w : at_pos w (v_pos w) (v_synced w) = w.
Proof. by destruct w. Qed.

Lemma moved_id r w v : v_files v !! r = Some w -> moved r w (v_pos w) (v_synced w) v = v.
Proof. intros Hw. unfold moved. rewrite at_pos_id, insert_id by done. by destruct v. Qed.

Lemma alter_bfd_eq f g p b s : c_bfds s !! p = Some b -> f b = g b -> alter_bfd f p s = alter_bfd g p s.
Proof.
  intros Hb Hfg. unfold alter_bfd. f_equal.
  rewrite <- (alter_insert_lookup _ _ b f), <- (alter_insert_lookup _ _ b g) by done. by rewrite Hfg.
Qed.

(** A file is synced when its stream holds nothing back. *)
Lemma settled_synced s v w pos synced out start :
  settled s v w out start -> synced = v_synced w \/ (synced = None /\ out = []) ->
  settled s v (at_pos w pos synced) out start.
Proof.
  intros (act & Ha & Hv & Hlo & Hout) [->|[-> ->]]; exists act; by split_and!.
Qed.

Lemma shows_synced s v w pos pos' synced G :
  shows s v w pos G -> synced = v_synced w \/ (synced = None /\ f_out G = []) ->
  shows s v (at_pos w pos' synced) pos G.
Proof.
  intros [G1 G2 G3 G4 G5 G6 G7 G8] Hs. split; try done. by apply settled_synced.
Qed.

Section changes.
Context {B : bool} {x y : option ptr} {s : cstate} {v : vstate} {l pins : list ptr}.
Hypothesis F : files B x y s v l pins.

(** Recording another last operation. *)
Lemma files_last_io p io y' :
  p ∈ dom (v_files v) -> (forall q, q <> p -> y' <> Some q -> y <> Some q) ->
  (y' <> Some p -> x = Some p \/ forall b f G, c_bfds s !! p = Some b -> b_iostream b = Some (S_file f) ->
     os_files (c_os s) !! f = Some G -> dir_ok (set_last_io io b) G) ->
  files B x y' (alter_bfd (set_last_io io) p s) v l pins.
Proof using F.
  intros HD Hy Hdir. apply elem_of_dom in HD as HD'. destruct HD' as [w Hw].
  destruct (fs_file _ _ _ _ _ _ _ F p w Hw) as (b & Hb & Hok & _ & _ & Hst).
  eapply (files_local B p x y s v l pins x y' _ l w b (set_last_io io b) F); try done.
  - by apply frame_alter.
  - intros q Hq. auto.
  - apply (fo_inode _ _ _ _ Hok).
  - by apply cached_alter, (fs_ring _ _ _ _ _ _ _ F).
  - apply (fs_nodup _ _ _ _ _ _ _ F).
  - apply (fs_count _ _ _ _ _ _ _ F).
  - intros HB. by apply (fs_bound _ _ _ _ _ _ _ F HB).
  - by apply alter_bfd_lookup.
  - intros Hx. specialize (Hst Hx). unfold stream_ok in *. simpl.
    destruct (b_iostream b) as [[f|]|] eqn:Hf; [|done..].
    destruct Hst as [Hp (G & HG & Hsh & _)]. split; [done|]. exists G. split; [done|].
    split; [by apply (shows_ext s _ v v)|].
    intros Hy'. destruct (Hdir Hy') as [?|H]; [done|]. by apply (H b f G).
  - intros g Hg. by apply (own_stream F p b g).
Qed.

(** The file is where the BFD is told to be. *)
Lemma files_moved p w f pos synced G :
  x = Some p -> (forall q, q <> p -> y <> Some q) ->
  v_files v !! p = Some w -> p ∈ l ++ pins -> stream_at s p f G -> dir_at s p G ->
  shows s (moved p w pos synced v) (at_pos w pos synced) pos G -> 0 <= pos < 2 ^ 63 ->
  files B None None (alter_bfd (set_where pos) p s) (moved p w pos synced v) l pins.
Proof using F.
  intros -> Hy Hw Hp [Hi HG] (b0 & Hb0 & Hd) Hsh Hr. pose proof (elem_of_dom_2 _ _ _ Hw) as HD.
  destruct (fs_file _ _ _ _ _ _ _ F p w Hw) as (b & Hb & Hok & Hpin & HBc & _).
  rewrite Hb in Hi, Hb0. simpl in Hi. apply (inj Some) in Hi. apply (inj Some) in Hb0 as <-.
  eapply (files_focus B p (Some p) y s v l pins None None _ _ l pins w _ b (set_where pos b) F); try done.
  - by apply frame_alter.
  - intros q Hq. split; [congruence | by intros _; apply Hy].
  - apply (fo_inode _ _ _ _ Hok).
  - by apply cached_alter, (fs_ring _ _ _ _ _ _ _ F).
  - apply (fs_nodup _ _ _ _ _ _ _ F).
  - apply (fs_count _ _ _ _ _ _ _ F).
  - intros HB. destruct (fs_bound _ _ _ _ _ _ _ F HB). auto.
  - by apply alter_bfd_lookup.
  - apply (fo_pinned _ _ _ _ Hok).
  - intros _. unfold stream_ok. simpl. rewrite Hi. split; [done|]. exists G. split; [done|].
    split; [by apply (shows_ext s _ (moved p w pos synced v) _)|done].
  - intros g Hg. by apply (own_stream F p b g).
Qed.
End changes.

(** A stream that holds nothing back. *)
Definition clean (s : cstate) (p : ptr) : Prop :=
  forall b f G, c_bfds s !! p = Some b -> b_iostream b = Some (S_file f) ->
    os_files (c_os s) !! f = Some G -> f_out G = [].

Lemma files_clean B y s v l pins p w :
  files B None y s v l pins -> v_files v !! p = Some w -> clean s p ->
  files B None y s (moved p w (v_pos w) None v) l pins.
Proof.
  intros F Hw Hc. destruct (fs_file _ _ _ _ _ _ _ F p w Hw) as (b & Hb & Hok & Hpin & HBc & Hst).
  specialize (Hst ltac:(done)).
  eapply (files_focus B p None y s v l pins None y _ _ l pins w _ b b F); try done.
  - apply (fo_inode _ _ _ _ Hok).
  - apply (fs_ring _ _ _ _ _ _ _ F).
  - apply (fs_nodup _ _ _ _ _ _ _ F).
  - apply (fs_count _ _ _ _ _ _ _ F).
  - intros HB. destruct (fs_bound _ _ _ _ _ _ _ F HB). auto.
  - apply (fo_where _ _ _ _ Hok).
  - apply (fo_range _ _ _ _ Hok).
  - apply (fo_pinned _ _ _ _ Hok).
  - intros _. unfold stream_ok in *. destruct (b_iostream b) as [[f|]|] eqn:Hf; [|done|].
    + destruct Hst as [Hp (G & HG & Hsh & Hd)]. split; [done|]. exists G. split; [done|]. split; [|done].
      apply shows_synced; [by apply (shows_ext s _ v _) | right; split; [done | by eapply Hc]].
    + destruct Hst as [Hp Hs]. split; [done|]. apply settled_synced; [by apply (settled_ext s _ v _) | by right].
  - intros g Hg. apply (own_stream F p b g); [by apply elem_of_dom_2 in Hw | done..].
Qed.

Lemma files_error B x y s v l pins e : files B x y s v l pins -> files B x y (set_c_error e s) v l pins.
Proof. intros F. by apply (files_ext B x y s). Qed.

(** ** The frame of the operations *)

Lemma locked_spec {A} B p y s v l pins w flag (fail : A) uc (closed : M A) (k : nat -> M A)
    (Q : A -> cstate -> Prop) :
  files B None y s v l pins -> v_files v !! p = Some w ->
  (forall s' l' f pos G, files B (Some p) y s' v l' pins -> p ∈ l' ++ pins -> found s' v p f w pos G ->
     (y <> Some p -> dir_at s' p G) -> last_io s' p = last_io s p ->
     (pos = v_pos w \/ has_flag flag CACHE_NO_SEEK = true) -> quiet s s' ->
     runs (k f) s' (fun a s'' => os_oracle (c_os s'') = [] /\ Q a s'')) ->
  (has_flag flag CACHE_NO_OPEN = true -> p ∉ l ++ pins -> runs closed s Q) ->
  runs (cache_locked p flag fail uc closed k) s Q.
Proof.
  intros F Hw HS HN. unfold cache_locked, bfd_lock, bfd_unlock. rstep.
  apply runs_answer; [apply (fs_oracle _ _ _ _ _ _ _ F)|]. cbn [negb]. rstep.
  apply (lookup_spec B p y s v l pins w); [done..| |].
  - intros s' l' f pos G F' Hp Hf Hd Hl Hpos Hq. rstep.
    eapply runs_mono; [by apply (HS s' l' f pos G)|]. intros a s'' [Ho HQ]. cbn beta. rstep.
    by apply runs_answer, runs_ret.
  - intros Hno Hp. rstep. apply runs_answer; [apply (fs_oracle _ _ _ _ _ _ _ F)|]. cbn [negb andb]. by apply HN.
Qed.

Section ops.
Context (B : bool) (y : option ptr) (s : cstate) (v : vstate) (l pins : list ptr) (r : ptr) (w : vfile).
Hypotheses (F : files B None y s v l pins) (Hw : v_files v !! r = Some w).

Lemma cache_bseek_spec offset dir pos (Q : Z -> cstate -> Prop) :
  match dir with
  | SEEK_SET => pos = offset | SEEK_CUR => pos = v_pos w + offset | SEEK_END => False end ->
  0 <= pos ->
  (forall s' l' f, files B (Some r) y s' v l' pins -> r ∈ l' ++ pins -> found s' v r f w pos (resting w pos) ->
     quiet s s' -> Q 0 s') ->
  runs (cache_bseek r offset dir) s Q.
Proof using F Hw.
  intros Hdir Hpos HQ. unfold cache_bseek. apply (locked_spec B r y s v l pins w); [done..| |].
  - intros s' l' f cur G F' Hr Hf _ _ Hcur Hq. rstep.
    assert (Hcur' : cur = v_pos w \/ dir = SEEK_SET) by (destruct dir, Hcur; naive_solver).
    apply (runs_sought f G w offset dir s' v r cur pos); [done | apply (fs_oracle _ _ _ _ _ _ _ F') | | done |].
    { destruct dir; [done | destruct Hcur' as [->|]; [done|congruence] | done]. }
    intros act Hact. rstep. split; [apply (fs_oracle _ _ _ _ _ _ _ F')|].
    apply (HQ _ l' f); [|done|by eapply found_resting|done].
    eapply files_put; [done | done | congruence | apply Hf |].
    eapply (settled_flushed s' v w f _ None), Hact. apply Hf.
  - destruct (decide (dir = SEEK_CUR)); [intros [=] | intros [=]].
Qed.
End ops.

(** The stream has been moved, so that it may be read or written. *)
Definition neutral_at (s : cstate) (p : ptr) : Prop := exists f G, stream_at s p f G /\ f_last G = F_neutral.

Section seek.
Context (B : bool) (y : option ptr) (s : cstate) (v : vstate) (l pins : list ptr) (r : ptr) (w : vfile).
Hypotheses (F : files B None y s v l pins) (Hw : v_files v !! r = Some w).
Hypothesis Hy : y = None \/ (y = Some r /\ last_io s r = Some bfd_io_force).

Lemma bfd_seek_spec p off position dir pos (Q : Z -> cstate -> Prop) :
  stream_of p s = Some ((r, off), s) ->
  match dir with
  | SEEK_SET => pos = position + off | SEEK_CUR => pos = v_pos w + position | SEEK_END => False end ->
  0 <= pos < 2 ^ 63 ->
  (forall s' l', files B None None s' (moved r w pos (if pos =? v_pos w then v_synced w else None) v) l' pins ->
     (last_io s r = Some bfd_io_force -> neutral_at s' r) -> quiet s s' -> Q 0 s') ->
  runs (bfd_seek p position dir) s Q.
Proof using F Hw Hy.
  intros Hst Hdir Hpos HQ. pose proof (elem_of_dom_2 _ _ _ Hw) as HD.
  destruct (fs_file _ _ _ _ _ _ _ F r w Hw) as (b & Hb & Hok & _).
  assert (Hlio : last_io s r = Some (b_last_io b)) by (unfold last_io; by rewrite Hb).
  unfold bfd_seek. rstep. apply (runs_intro _ _ _ _ _ Hst). cbn beta iota.
  rstep. rstep; [done|]. rewrite (fo_iovec _ _ _ _ Hok). cbv zeta. rstep.
  rstep; [by destruct dir|].
  set (position' := if decide (dir = SEEK_CUR) then position else s64 (position + off)).
  assert (Hp' : match dir with
    | SEEK_SET => pos = position' | SEEK_CUR => pos = v_pos w + position' | SEEK_END => False end).
  { subst position'. destruct dir; simpl; [|done..]. by rewrite sext_small by lia. }
  assert (Hkeep : pos = v_pos w -> b_last_io b <> bfd_io_force -> Q 0 s).
  { intros -> Hn. destruct Hy as [->|[-> Hforce]]; [|congruence].
    apply (HQ s l); [by rewrite Z.eqb_refl, moved_id | congruence | done]. }
  match goal with |- runs (if ?c then _ else _) _ _ => destruct c eqn:Hc end.
  { rstep. rewrite (fo_where _ _ _ _ Hok) in Hc.
    apply andb_true_iff in Hc as [[Hc|Hc]%orb_true_iff Hn]; apply andb_true_iff in Hc as [Hd Hc];
      apply bool_decide_eq_true in Hd as ->; apply Z.eqb_eq in Hc;
      (apply Hkeep; [|by apply negb_true_iff, bool_decide_eq_false in Hn]).
    - lia.
    - rewrite Hp', <- Hc. symmetry. apply wrap_small. unfold fits. lia. }
  rstep. rstep; [done|]. set (s1 := alter_bfd _ r s).
  assert (F1 : files B None (Some r) s1 v l pins).
  { apply (files_last_io F); [done| |done]. intros q Hq _. destruct Hy as [->|[-> _]]; congruence. }
  rstep. apply (cache_bseek_spec B _ s1 v l pins r w F1 Hw _ _ pos); [done | lia |].
  intros s' l' f F' Hr Hf Hq. cbn [negb Z.eqb].
  destruct (fs_file _ _ _ _ _ _ _ F' r w Hw) as (b' & Hb' & Hok' & _).
  assert (Heq : (if decide (dir = SEEK_CUR) then u64 (b_where b' + position') else u64 position') = pos).
  { rewrite (fo_where _ _ _ _ Hok'). destruct dir; [..|done]; simpl; rewrite wrap_small;
      unfold fits; lia. }
  rstep. rstep; [done|]. rstep.
  rewrite (alter_bfd_eq _ (set_where pos) _ b') by (done || by rewrite Heq).
  destruct Hf as [Hs Hsh].
  apply (HQ _ l'); [|intros _|done].
  - apply (files_moved F' r w f _ _ (resting w pos)); try done; [congruence | |].
    + exists b'. split; [done | by apply dir_ok_neutral].
    + apply shows_synced; [by apply (shows_ext s' _ v _)|]. destruct (pos =? v_pos w); [by left | by right].
  - exists f, (resting w pos). split; [|done]. destruct Hs as [Hi HG]. split; [|done].
    rewrite Hb' in Hi. simpl. by rewrite lookup_alter_eq, Hb'.
Qed.
End seek.

(** ** Reading in chunks *)

Definition read_at (bs : list Z) (pos n : Z) : list Z := take (Z.to_nat n) (drop (Z.to_nat pos) bs).

Lemma with_file_with_file f G G' s : with_file f G (with_file f G' s) = with_file f G s.
Proof.
  unfold with_file, set_files, set_c_os. simpl. do 2 f_equal. apply map_eq. intros g.
  destruct (decide (f = g)) as [<-|Hg]; [by rewrite !lookup_partial_alter_eq|].
  by rewrite !lookup_partial_alter_ne.
Qed.

Lemma with_file_id f G s : os_files (c_os s) !! f = Some G -> with_file f (Some G) s = s.
Proof.
  intros HG. unfold with_file, set_files, set_c_os. rewrite <- HG, partial_alter_self.
  destruct s as [? ? ? ? ? o ? ? ? ?]. by destruct o.
Qed.

Lemma rebuffer_id s : rebuffer (os_buffering (c_os s)) s = s.
Proof. by destruct s as [? ? ? ? ? [] ? ? ? ?]. Qed.

Lemma error_id s : set_c_error (c_error s) s = s.
Proof. by destruct s. Qed.

Lemma put_same f i G bs s : os_inodes (c_os s) !! i = Some bs -> put f i G bs s = with_file f G s.
Proof.
  intros H. unfold put, set_inode. rewrite insert_id by done. by destruct s as [? ? ? ? ? [] ? ? ? ?].
Qed.

(** What was fetched ahead is what comes next. *)
Lemma ahead_rest (ahead bs : list Z) pos :
  ahead = take (length ahead) (drop pos bs) -> ahead ++ drop (pos + length ahead) bs = drop pos bs.
Proof. intros H. rewrite <- drop_drop. rewrite H at 1. apply take_drop. Qed.

Lemma take_length_take {A} n (l : list A) : take n l = take (length (take n l)) l.
Proof. rewrite length_take. destruct (Nat.min_spec n (length l)) as [[? ->]|[? ->]]; [done|]. by rewrite !take_ge. Qed.

Section reading.
Context (f : nat) (w : vfile) (bs : list Z) (s0 : cstate).
Hypotheses (Hino : os_inodes (c_os s0) !! v_inode w = Some bs) (Ho : os_oracle (c_os s0) = []).

(** A stream at [pos] that can be read. *)
Definition readable (pos : Z) (G : FILE) : Prop :=
  f_inode G = v_inode w /\ f_pos G = pos /\ f_writable G = v_writable w /\ f_error G = false /\
  f_last G <> F_output /\ f_out G = [] /\ f_ahead G = take (length (f_ahead G)) (drop (Z.to_nat pos) bs).

(** The state [s0] when its stream has been read to [pos]. *)
Definition read_to (pos : Z) (s : cstate) : Prop :=
  exists G e ks, readable pos G /\ s = set_c_error e (with_file f (Some G) (rebuffer ks s0)).

Lemma read_to_start pos G : os_files (c_os s0) !! f = Some G -> readable pos G -> read_to pos s0.
Proof using.
  intros HG HR. exists G, (c_error s0), (os_buffering (c_os s0)). split; [done|].
  by rewrite rebuffer_id, with_file_id, error_id.
Qed.

(** What one call of fread leaves. *)
Lemma readable_next G pos n more last :
  readable pos G -> 0 <= pos -> 0 <= n -> last <> F_output ->
  let got := read_at bs pos n in
  readable (pos + Z.of_nat (length got))
    (mkFILE (f_inode G) (f_pos G + Z.of_nat (length got)) (f_writable G) (f_error G) last (f_out G)
       (take more (drop (Z.to_nat n) (drop (Z.to_nat pos) bs)))).
Proof using.
  intros (G1 & G2 & G3 & G4 & G5 & G6 & G7) Hp Hn Hl got. split_and!; cbn; try done; [by rewrite G2|].
  rewrite drop_drop. destruct (decide (Z.of_nat (length got) = n)) as [He|He].
  - replace (Z.to_nat pos + Z.to_nat n)%nat with (Z.to_nat (pos + Z.of_nat (length got))) by lia.
    apply take_length_take.
  - assert (length got = Nat.min (Z.to_nat n) (length bs - Z.to_nat pos)) as Hg
      by (subst got; unfold read_at; by rewrite length_take, length_drop).
    rewrite (drop_ge bs) by lia. by rewrite take_nil.
Qed.

Lemma cache_bread_1_spec n pos s (Q : Z * list Z -> cstate -> Prop) :
  read_to pos s -> 0 < n -> 0 <= pos ->
  (forall s', let got := read_at bs pos n in
     read_to (pos + Z.of_nat (length got)) s' -> Q (Z.of_nat (length got), got) s') ->
  runs (cache_bread_1 f n) s Q.
Proof using Hino Ho.
  intros (G & e & ks & HR & ->) Hn Hp HQ. pose proof HR as (G1 & G2 & G3 & G4 & G5 & G6 & G7).
  unfold cache_bread_1, fread. rstep. rstep.
  apply (runs_get_file _ G); [apply with_file_lookup|]. rstep.
  apply (runs_inode_bytes _ bs); [by rewrite G1|].
  rewrite (proj2 (Z.eqb_neq n 0)), decide_False by (done || lia).
  rstep. apply runs_answer; [done|]. cbn [negb]. rstep. apply runs_buffering. intros more ks'. cbv zeta.
  rewrite G2, ahead_rest by done. fold (read_at bs pos n). set (got := read_at bs pos n) in *.
  set (last := if Z.of_nat (length got) <? n then F_neutral else F_input).
  assert (Hlast : last <> F_output) by (subst last; by destruct (_ <? _)).
  pose proof (readable_next G pos n (Nat.max more (length (f_ahead G) - Z.to_nat n)) last HR Hp ltac:(lia) Hlast) as HR'.
  cbv zeta in HR'. fold got in HR'. rewrite G2 in HR'. rstep. apply runs_set_file. rstep.
  set (G' := mkFILE _ _ _ _ _ _ _) in *.
  assert (Heq : with_file f (Some G') (rebuffer ks' (set_c_error e (with_file f (Some G) (rebuffer ks s0))))
    = set_c_error e (with_file f (Some G') (rebuffer ks' s0))).
  { transitivity (set_c_error e (with_file f (Some G') (with_file f (Some G) (rebuffer ks' s0)))); [done|].
    by rewrite with_file_with_file. }
  rewrite Heq. unfold ferror. rstep. rstep. eapply runs_get_file; [apply with_file_lookup|]. rstep.
  cbn [f_error G']. rewrite G4, andb_false_r. cbv iota.
  destruct (_ <? n); repeat rstep; apply HQ; by exists G'; do 2 eexists.
Qed.

Lemma take_drop_more {A} (l : list A) p a b :
  (a <= b)%nat -> take b (drop p l) = take a (drop p l) ++ take (b - a) (drop (p + a) l).
Proof using.
  intros H. rewrite <- (take_drop a (take b (drop p l))).
  by rewrite take_take, Nat.min_l, skipn_firstn_comm, drop_drop by done.
Qed.

(** One chunk and the rest of it. *)
Lemma read_at_chunk pos c n :
  0 <= pos -> 0 <= c <= n -> Z.of_nat (length (read_at bs pos c)) = c ->
  read_at bs pos n = read_at bs pos c ++ read_at bs (pos + c) (n - c).
Proof using.
  intros Hp Hc Hl. unfold read_at. rewrite (take_drop_more bs _ (Z.to_nat c)) by lia.
  do 2 f_equal; [lia|]. f_equal. lia.
Qed.

Lemma read_at_short pos c n :
  0 <= c <= n -> Z.of_nat (length (read_at bs pos c)) < c -> read_at bs pos n = read_at bs pos c.
Proof using.
  unfold read_at. intros Hc Hl. rewrite length_take in Hl. rewrite !take_ge by lia. done.
Qed.

Lemma bread_loop_spec nbytes (Q : Z * list Z -> cstate -> Prop) n : forall nread buf pos s,
  read_to pos s -> 0 <= pos -> 0 <= nread -> nbytes - nread <= (Z.of_nat n - 1) * max_chunk_size ->
  (1 <= n)%nat ->
  (forall s', let got := read_at bs pos (nbytes - nread) in
     read_to (pos + Z.of_nat (length got)) s' -> Q (nread + Z.of_nat (length got), buf ++ got) s') ->
  runs (bread_loop n f nbytes nread buf) s Q.
Proof using Hino Ho.
  induction n as [|n IH]; intros nread buf pos s Hs Hpos Hn Hfuel H1 HQ; [lia|]. cbn [bread_loop].
  destruct (Z.ltb_spec nread nbytes) as [Hlt|Hge]; cbn [negb].
  2: { rstep. specialize (HQ s). cbv zeta in HQ. unfold read_at in HQ.
       rewrite Z2Nat.nonpos, take_0, app_nil_r in HQ by lia. simpl in HQ.
       rewrite !Z.add_0_r in HQ. auto. }
  unfold max_chunk_size in *.
  set (c := Z.min (nbytes - nread) 0x800000). assert (Hc : 0 < c <= nbytes - nread) by lia.
  rstep. apply (cache_bread_1_spec c pos s); [done|lia|done|]. intros s1 got Hs1. cbv zeta iota beta.
  pose proof (length_take (drop (Z.to_nat pos) bs) (Z.to_nat c)) as Hlen.
  assert (Hgot : Z.of_nat (length got) <= c) by (subst got; unfold read_at; lia).
  assert (Hsum : (if (nread =? 0) || (0 <? Z.of_nat (length got)) then nread + Z.of_nat (length got) else nread)
                 = nread + Z.of_nat (length got)).
  { destruct (Z.eqb_spec nread 0); [done|]. destruct (Z.ltb_spec 0 (Z.of_nat (length got))); simpl; lia. }
  rewrite Hsum. destruct (Z.ltb_spec (Z.of_nat (length got)) c) as [Hshort|Hfull].
  - rstep. specialize (HQ s1). cbv zeta in HQ. rewrite (read_at_short pos c) in HQ by (done || lia).
    by apply HQ.
  - assert (Heq : Z.of_nat (length got) = c) by lia.
    apply (IH _ _ (pos + Z.of_nat (length got))); [done | lia..|].
    intros s' Hs'. specialize (HQ s'). cbv zeta in HQ.
    rewrite (read_at_chunk pos c) in HQ by (done || lia). fold got in HQ.
    rewrite Heq in Hs' |- *. replace (nbytes - (nread + c)) with (nbytes - nread - c) in * by lia.
    rewrite length_app, Nat2Z.inj_add, Heq in HQ.
    rewrite <- app_assoc, <- !Z.add_assoc in *. by apply HQ.
Qed.
End reading.

(** ** The operations of bfdio.c *)

(** The last operation that the one recorded as [io] stands for. *)
Definition op_of (io : bfd_last_io) : last_op :=
  match io with bfd_io_read => F_input | bfd_io_write => F_output | _ => F_neutral end.

(** The stream, if there is one, was not used for [io] last. *)
Definition turned (s : cstate) (p : ptr) (io : bfd_last_io) : Prop :=
  forall b f G, c_bfds s !! p = Some b -> b_iostream b = Some (S_file f) ->
    os_files (c_os s) !! f = Some G -> f_last G <> op_of io.

Section bfdio.
Context {B : bool} {s : cstate} {v : vstate} {l pins : list ptr} {r : ptr} {w : vfile}.
Hypotheses (F : files B None None s v l pins) (Hw : v_files v !! r = Some w).

Lemma root_stream : exists off, stream_of r s = Some ((r, off), s).
Proof using F Hw.
  destruct (fs_file _ _ _ _ _ _ _ F r w Hw) as (b & Hb & Hok & _).
  change (stream_of r s) with (outermost (size (c_bfds s)) r 0 s).
  destruct (size (c_bfds s)) as [|n] eqn:Hn; [by apply map_size_empty_inv in Hn; rewrite Hn in Hb|].
  cbn [outermost]. erewrite bind_eq by (by apply get_bfd_eq). erewrite bind_eq by apply (fo_root _ _ _ _ Hok).
  eauto.
Qed.

Lemma change_direction_spec before (Q : bool -> cstate -> Prop) :
  before = bfd_io_read \/ before = bfd_io_write ->
  (forall s' l', files B None None s' v l' pins -> turned s' r before -> quiet s s' -> Q true s') ->
  runs (change_direction r before) s Q.
Proof using F Hw.
  intros Hbef HQ. pose proof (elem_of_dom_2 _ _ _ Hw) as HD.
  destruct (fs_file _ _ _ _ _ _ _ F r w Hw) as (b & Hb & Hok & _ & _ & Hst). specialize (Hst ltac:(done)).
  unfold change_direction. rstep. rstep; [done|]. case_decide as Hio.
  2: { rstep. apply (HQ s l); [done| |done]. intros b' f G Hb' Hf HG. rewrite Hb in Hb'.
       apply (inj Some) in Hb' as <-. unfold stream_ok in Hst. rewrite Hf in Hst.
       destruct Hst as (_ & G' & HG' & _ & Hd). rewrite HG in HG'. apply (inj Some) in HG' as <-.
       destruct (Hd ltac:(done)) as [H1 H2]. destruct Hbef as [->| ->]; cbn; auto. }
  rstep. rstep; [done|]. set (s1 := alter_bfd _ r s).
  assert (F1 : files B None (Some r) s1 v l pins) by (by apply (files_last_io F)).
  destruct root_stream as [off Hst0].
  assert (Hst1 : stream_of r s1 = Some ((r, off), s1)).
  { apply (stream_of_shape (frame_shape (frame_alter (v_files v) r (set_last_io bfd_io_force) s
      (fun _ => eq_refl)))). done. }
  assert (Hforce : last_io s1 r = Some bfd_io_force) by (unfold last_io; simpl; by rewrite lookup_alter_eq, Hb).
  rstep. apply (bfd_seek_spec B (Some r) s1 v l pins r w F1 Hw (or_intror (conj eq_refl Hforce)) r off 0
    SEEK_CUR (v_pos w)); [done | lia | |].
  - apply (fo_range _ _ _ _ Hok).
  - intros s' l' F' Hn Hq. rewrite Z.eqb_refl, moved_id in F' by done. rstep. apply (HQ s' l'); [done| |done].
    destruct (Hn Hforce) as (f & G & [Hi HG] & Hl). intros b' f' G' Hb' Hf' HG'.
    rewrite Hb' in Hi. simpl in Hi. rewrite Hf' in Hi. injection Hi as ->. rewrite HG in HG'.
    apply (inj Some) in HG' as <-. rewrite Hl. by destruct Hbef as [->| ->].
Qed.

(** Reading or writing may follow. *)
Lemma files_turned io before :
  (io = bfd_io_read /\ before = bfd_io_write) \/ (io = bfd_io_write /\ before = bfd_io_read) ->
  turned s r before -> files B None None (alter_bfd (set_last_io io) r s) v l pins.
Proof using F Hw.
  intros Hio Ht. pose proof (elem_of_dom_2 _ _ _ Hw) as HD. apply (files_last_io F); [done|done|].
  intros _. right. intros b f G Hb Hf HG. pose proof (Ht b f G Hb Hf HG) as Hn.
  destruct Hio as [[-> ->]|[-> ->]]; by split.
Qed.

(** Reading from the stream's BFD. *)
Lemma cache_bread_spec n (Q : Z * list Z -> cstate -> Prop) :
  0 <= n -> last_io s r = Some bfd_io_read ->
  (forall s' l' f G, let got := read_at (contents v w) (v_pos w) n in
     files B (Some r) None s' v l' pins -> r ∈ l' ++ pins ->
     found s' v r f w (v_pos w + Z.of_nat (length got)) G -> f_out G = [] -> dir_at s' r G -> quiet s s' ->
     Q (Z.of_nat (length got), got) s') ->
  runs (cache_bread r n) s Q.
Proof using F Hw.
  intros Hn Hlio HQ. destruct (fs_file _ _ _ _ _ _ _ F r w Hw) as (b & Hb & Hok & _).
  unfold cache_bread. apply (locked_spec B r None s v l pins w); [done..| |done].
  intros s' l' f cur G F' Hr Hf Hd Hlio' [->|Hns] Hq; [|done].
  destruct (Hd ltac:(done)) as (b' & Hb' & [Hd1 Hd2]).
  assert (Hlb : b_last_io b' = bfd_io_read).
  { rewrite Hlio in Hlio'. unfold last_io in Hlio'. rewrite Hb' in Hlio'. by injection Hlio'. }
  pose proof Hf as [[Hi HG] Hsh]. pose proof Hsh as [G1 G2 G3 G4 G5 G6 G7 G8].
  assert (Hne : f_last G <> F_output) by (intros E; rewrite Hd1 in Hlb; done).
  assert (Hout : f_out G = []) by (destruct (f_out G); [done | by destruct Hne; apply G7]).
  rewrite Hout in G5. pose proof (settled_contents s' v w G5) as Hact.
  pose proof (fs_oracle _ _ _ _ _ _ _ F') as Ho'.
  apply (bread_loop_spec f w (contents v w) s' Hact Ho' n _ _ 0 [] (v_pos w)).
  - by apply (read_to_start _ _ _ _ _ G).
  - apply (fo_range _ _ _ _ Hok).
  - lia.
  - unfold max_chunk_size. rewrite Nat2Z.inj_add, Z2Nat.id; Z.to_euclidean_division_equations; lia.
  - lia.
  - rewrite Z.sub_0_r. intros s'' got (G' & e & ks & (R1 & R2 & R3 & R4 & R5 & R6 & R7) & ->).
    rewrite Z.add_0_l. cbn [app]. split; [done|]. apply (HQ _ l' f G'); [|done| |done| |done].
    + apply files_error.
      rewrite <- (put_same f (v_inode w) (Some G') (contents v w) (rebuffer ks s')) by done.
      apply (files_put B (Some r) None (rebuffer ks s') v l' pins r f w (Some G') G);
        [by apply (files_ext _ _ _ s') | done | congruence | done | by right].
    + split; [split; [done | apply with_file_lookup]|]. split; try done.
      * rewrite R6. exact G5.
      * rewrite R6. cbn [length]. pose proof (fo_range _ _ _ _ Hok). lia.
    + exists b'. split; [done|]. by split; [intros E; destruct R5|].
Qed.
End bfdio.

(** Where a file operation leaves the BFD. *)
Lemma advance_where s r w b n :
  c_bfds s !! r = Some b -> file_ok s r b w -> in_range (v_pos w + n) = true ->
  u64 (b_where b + n) = v_pos w + n /\ 0 <= v_pos w + n < 2 ^ 63.
Proof.
  intros Hb Hok [H0 H1]%andb_true_iff. apply Z.leb_le in H0. apply Z.ltb_lt in H1.
  rewrite (fo_where _ _ _ _ Hok). split; [apply wrap_small; unfold fits; lia | lia].
Qed.

Lemma element_size_range pos off n m n' :
  0 <= pos < 2 ^ 63 -> 0 <= off -> 0 <= n < 2 ^ 63 -> element_size pos off n m = Some n' -> 0 <= n' < 2 ^ 63.
Proof.
  intros Hp Ho Hn. unfold element_size.
  destruct (Z.ltb_spec pos off); [done|]. destruct (Z.leb_spec m (pos - off)); [done|]. simpl.
  rewrite wrap_small by (unfold fits; lia). destruct (Z.ltb_spec m (pos - off + n)); intros [= <-]; lia.
Qed.

(** ** Writing *)

Lemma overwrite_app act st a b :
  overwrite act st (a ++ b) = overwrite (overwrite act st a) (st + length a) b.
Proof.
  unfold overwrite at 2. unfold overwrite at 2. rewrite overwrite_length.
  replace (st + length a - Nat.max (length act) (st + length a))%nat with 0%nat by lia. cbn [replicate app].
  assert (Hpre : length (take st act ++ replicate (st - length act) 0) = st)
    by (rewrite length_app, length_take, length_replicate; lia).
  unfold overwrite. rewrite !(app_assoc (take st act)), !(app_assoc _ a).
  set (pre := take st act ++ replicate (st - length act) 0) in *.
  assert (Hpa : length (pre ++ a) = (st + length a)%nat) by (rewrite length_app, Hpre; done).
  rewrite take_app_length' by done. rewrite drop_app, Hpa, (drop_ge (pre ++ a)) by lia. cbn [app].
  rewrite drop_drop, length_app, <- !app_assoc. do 4 f_equal. lia.
Qed.

Lemma deliver_app act st a b : deliver act st (a ++ b) = deliver (deliver act st a) (st + length a) b.
Proof.
  destruct a as [|z a]; [by rewrite Nat.add_0_r|]. destruct b as [|z' b]; [by rewrite app_nil_r|].
  exact (overwrite_app act st (z :: a) (z' :: b)).
Qed.

(** What the inode of a stream gets when [bs] is written to it. *)
Lemma deliver_written act pos out bs kept :
  0 <= pos -> Z.of_nat (length out) <= pos ->
  let sent := take (length (out ++ bs) - kept) (out ++ bs) in
  let held := drop (length (out ++ bs) - kept) (out ++ bs) in
  deliver (deliver act (Z.to_nat pos - length out) sent)
    (Z.to_nat (pos + Z.of_nat (length bs)) - length held) held =
  deliver (deliver act (Z.to_nat pos - length out) out) (Z.to_nat pos) bs.
Proof.
  intros Hp Ho sent held.
  assert (Hsh : sent ++ held = out ++ bs) by apply take_drop.
  assert (Hlen : (length sent + length held = length out + length bs)%nat)
    by (by rewrite <- !length_app, Hsh).
  replace (Z.to_nat (pos + Z.of_nat (length bs)) - length held)%nat
    with (Z.to_nat pos - length out + length sent)%nat by lia.
  rewrite <- deliver_app, Hsh, deliver_app. f_equal. lia.
Qed.

Lemma with_inode_id v i bytes : v_inodes v !! i = Some bytes -> with_inode i bytes v = v.
Proof. intros H. unfold with_inode. rewrite insert_id by done. by destruct v. Qed.

(** What is known of the size after writing [bs]. *)
Definition written_synced (v : vstate) (w : vfile) (bs : list Z) : option Z :=
  if bool_decide (bs = []) then v_synced w else Some (default (Z.of_nat (length (contents v w))) (v_synced w)).

Section writing.
Context {B : bool} {s : cstate} {v : vstate} {l pins : list ptr} {r : ptr} {w : vfile} {f : nat} {G : FILE}.
Hypotheses (F : files B (Some r) None s v l pins) (Hw : v_files v !! r = Some w).
Hypotheses (Hf : found s v r f w (v_pos w) G) (Hwr : v_writable w = true).

(** The inode of a BFD that is written. *)
Lemma fwrite_files ks G' act bytes :
  files B (Some r) None (put f (v_inode w) (Some G') act (rebuffer ks s)) (with_inode (v_inode w) bytes v) l pins.
Proof using F Hw Hf Hwr.
  assert (F1 : files B (Some r) None (rebuffer ks s) v l pins) by (by apply (files_ext _ _ _ s)).
  pose proof (files_put B (Some r) None (rebuffer ks s) v l pins r f w (Some G') G act F1 Hw
    ltac:(congruence) (proj1 Hf) (or_introl Hwr)) as F2.
  destruct (fs_file _ _ _ _ _ _ _ F2 r w Hw) as (b & Hb & Hok & Hpin & HBc & _).
  eapply (files_focus B r (Some r) None _ v l pins (Some r) None _ _ l pins w w b b F2); try done.
  - symmetry. by apply insert_id.
  - intros i Hi. simpl. rewrite lookup_insert_ne; [done|]. by apply Hi.
  - apply (fo_inode _ _ _ _ Hok).
  - apply (fs_ring _ _ _ _ _ _ _ F2).
  - apply (fs_nodup _ _ _ _ _ _ _ F2).
  - apply (fs_count _ _ _ _ _ _ _ F2).
  - intros HB. destruct (fs_bound _ _ _ _ _ _ _ F2 HB). auto.
  - apply (fo_where _ _ _ _ Hok).
  - apply (fo_range _ _ _ _ Hok).
  - apply (fo_pinned _ _ _ _ Hok).
  - intros g Hg. apply (own_stream F2 r b g); [by apply elem_of_dom_2 in Hw | done..].
Qed.

Lemma fwrite_spec bs (Q : Z -> cstate -> Prop) :
  f_last G <> F_input -> 0 <= v_pos w ->
  (let pos := v_pos w + Z.of_nat (length bs) in
   let v' := with_inode (v_inode w) (deliver (contents v w) (Z.to_nat (v_pos w)) bs) v in
   forall s' G', files B (Some r) None s' v' l pins -> stream_at s' r f G' ->
     shows s' v' (at_pos w pos (written_synced v w bs)) pos G' -> (G' = G \/ f_last G' = F_output) ->
     c_bfds s' = c_bfds s -> quiet s s' -> Q (Z.of_nat (length bs)) s') ->
  runs (fwrite bs f) s Q.
Proof using F Hw Hf Hwr.
  intros Hlast Hpos HQ. pose proof Hf as [[Hi HG] Hsh]. pose proof Hsh as [G1 G2 G3 G4 G5 G6 G7 G8].
  destruct G5 as (act & Hact & Hv & Hlo & Hout).
  assert (Hcont : contents v w = deliver act (out_start G) (f_out G)) by (unfold contents; by rewrite Hv).
  unfold fwrite. rstep. apply (runs_get_file _ G); [done|]. rstep.
  apply (runs_inode_bytes _ act); [by rewrite G1|]. unfold written_synced in HQ. case_bool_decide as Hbs.
  { subst bs. cbn [length] in *. rewrite Z.add_0_r in HQ. cbv zeta in HQ. cbn [deliver] in HQ.
    rewrite with_inode_id in HQ by (by rewrite Hcont). rewrite at_pos_id in HQ. rstep.
    apply (HQ s G); [exact F | done | done | by left | done | done]. }
  rewrite (bool_decide_false (f_last G = F_input)), andb_false_r by done.
  rstep. apply runs_answer; [apply (fs_oracle _ _ _ _ _ _ _ F)|]. rewrite G3, Hwr. cbn [negb andb].
  rstep. apply runs_buffering. intros kept ks. cbv zeta. rstep. apply runs_set_os. rstep. apply runs_set_file. rstep.
  unfold out_start in *. rewrite G1, G2, G4 in *.
  pose proof (deliver_written act (v_pos w) (f_out G) bs kept Hpos G6) as Hdel. cbv zeta in Hdel.
  clear G8. set (sent := take _ _) in *. set (held := drop _ _) in *. set (G' := mkFILE _ _ _ _ _ _ _).
  change (with_file f (Some G') _) with
    (put f (v_inode w) (Some G') (deliver act (Z.to_nat (v_pos w) - length (f_out G)) sent) (rebuffer ks s)).
  assert (Hheld : (length held <= length (f_out G) + length bs)%nat)
    by (subst held; rewrite length_drop, length_app; lia).
  pose proof (deliver_length act (Z.to_nat (v_pos w) - length (f_out G)) sent) as Hgrow.
  apply (HQ _ G'); [by apply fwrite_files | split; [done | apply with_file_lookup] | | by right | done | done].
  split; try done.
  - exists (deliver act (Z.to_nat (v_pos w) - length (f_out G)) sent). split_and!.
    + apply put_inode.
    + simpl. rewrite lookup_insert_eq. f_equal. unfold out_start. simpl. rewrite Hcont. symmetry. exact Hdel.
    + simpl. intros lo [= <-]. destruct (v_synced w) as [lo|] eqn:Hs; simpl.
      * specialize (Hlo lo eq_refl). lia.
      * assert (f_out G = []) as Hno by (destruct (f_out G); [done|]; by destruct (Hout ltac:(done)) as [_ [? ?]]).
        assert (contents v w = act) as -> by (by rewrite Hcont, Hno). lia.
    + simpl. intros _. split; [done|]. by eexists.
  - simpl. lia.
Qed.
End writing.

Section bfdio_calls.
Context {B : bool} {s : cstate} {v : vstate} {l pins : list ptr} {p r : ptr} {off : Z} {lim : option Z} {w : vfile}.
Hypotheses (F : files B None None s v l pins) (Hw : v_files v !! r = Some w) (Hp : v_home v !! p = Some (r, off, lim)).

Lemma home_stream : stream_of p s = Some ((r, off), s) /\ 0 <= off < 2 ^ 63.
Proof using F Hp. by destruct (fs_home _ _ _ _ _ _ _ F p r off lim Hp) as [_ (? & ? & _)]. Qed.

Lemma bfd_read_spec n (Q : Z * list Z -> cstate -> Prop) :
  in_range n = true ->
  match (match lim with Some m => element_size (v_pos w) off n m | None => Some n end) with
  | None => forall s', files B None None s' v l pins -> quiet s s' -> Q (u64 (-1), []) s'
  | Some n =>
      let got := read_at (contents v w) (v_pos w) n in
      let pos := v_pos w + Z.of_nat (length got) in
      in_range pos = true /\
      forall s' l', files B None None s' (moved r w pos None v) l' pins -> quiet s s' ->
        Q (Z.of_nat (length got), got) s'
  end ->
  runs (bfd_read n p) s Q.
Proof using F Hw Hp.
  intros [Hn0 Hn1]%andb_true_iff HQ. apply Z.leb_le in Hn0. apply Z.ltb_lt in Hn1.
  destruct home_stream as [Hst Hoff].
  destruct (fs_home _ _ _ _ _ _ _ F p r off lim Hp) as [_ (_ & _ & e & up & He & Hup & Hlim)].
  destruct (fs_file _ _ _ _ _ _ _ F r w Hw) as (b & Hb & Hok & _). pose proof (fo_range _ _ _ _ Hok) as Hr.
  unfold bfd_read. rstep. rstep; [done|]. rstep. apply (runs_intro _ _ _ _ _ Hup). rstep.
  apply (runs_intro _ _ _ _ _ Hst). cbv beta iota. rstep. rstep; [done|].
  replace (match up, b_arelt_size e with
           | Some _, Some maxbytes => element_size (b_where b) off n maxbytes
           | _, _ => Some n end)
    with (match lim with Some m => element_size (v_pos w) off n m | None => Some n end).
  2: { rewrite Hlim, (fo_where _ _ _ _ Hok). by destruct up, (b_arelt_size e). }
  destruct (match lim with Some m => _ | None => _ end) as [n'|] eqn:Hn'.
  2: { repeat rstep. by apply HQ; [apply files_error|]. }
  assert (Hr' : 0 <= n' < 2 ^ 63).
  { destruct lim; [eapply element_size_range; [..|done]; lia | simplify_eq; lia]. }
  clear Hn'. cbv zeta in HQ. destruct HQ as [Hrange HQ]. rewrite (fo_iovec _ _ _ _ Hok). rstep.
  apply (change_direction_spec F Hw bfd_io_write); [by right|]. intros s1 l1 F1 Ht1 Hq1. cbn [negb].
  destruct (fs_file _ _ _ _ _ _ _ F1 r w Hw) as (b1 & Hb1 & _). rstep. rstep; [done|].
  set (s2 := alter_bfd _ r s1).
  assert (F2 : files B None None s2 v l1 pins) by (apply (files_turned F1 Hw _ bfd_io_write); [by left | done]).
  assert (Hl2 : last_io s2 r = Some bfd_io_read) by (unfold last_io; simpl; by rewrite lookup_alter_eq, Hb1).
  rstep. rewrite sext_small by lia. apply (cache_bread_spec F2 Hw); [lia|done|].
  intros s3 l3 f G got F3 Hr3 [Hs3 Hsh3] Hout Hd3 Hq3. subst got. set (got := read_at _ _ _) in *.
  destruct (fs_file _ _ _ _ _ _ _ F3 r w Hw) as (b3 & Hb3 & Hok3 & _).
  destruct (advance_where s3 r w b3 (Z.of_nat (length got)) Hb3 Hok3) as [Hu Hrg]; [done|].
  cbv beta iota. rewrite (proj2 (Z.eqb_neq _ (-1))) by lia. cbn [negb]. rstep. rstep; [done|]. rstep.
  rewrite (alter_bfd_eq _ (set_where (v_pos w + Z.of_nat (length got))) _ b3) by (done || by rewrite Hu).
  rewrite wrap_small by (unfold fits; lia).
  apply (HQ _ l3); [|eapply quiet_trans; [exact Hq1 | exact Hq3]].
  apply (files_moved F3 r w f _ _ G); try done.
  apply shows_synced; [by apply (shows_ext s3 _ v _) | by right].
Qed.

Lemma bfd_write_spec bs (Q : Z -> cstate -> Prop) :
  let pos := v_pos w + Z.of_nat (length bs) in
  let bytes := deliver (contents v w) (Z.to_nat (v_pos w)) bs in
  v_writable w = true -> in_range pos = true ->
  (forall s' l', files B None None s' (moved r w pos (written_synced v w bs) (with_inode (v_inode w) bytes v)) l' pins ->
     quiet s s' -> Q (Z.of_nat (length bs)) s') ->
  runs (bfd_write bs p) s Q.
Proof using F Hw Hp.
  intros pos bytes Hwr Hrange HQ. destruct home_stream as [Hst Hoff].
  destruct (fs_file _ _ _ _ _ _ _ F r w Hw) as (b & Hb & Hok & _). pose proof (fo_range _ _ _ _ Hok) as Hr.
  unfold bfd_write. rstep. apply (runs_intro _ _ _ _ _ Hst). cbv beta iota. rstep. rstep; [done|].
  rewrite (fo_iovec _ _ _ _ Hok). rstep.
  apply (change_direction_spec F Hw bfd_io_read); [by left|]. intros s1 l1 F1 Ht1 Hq1. cbn [negb].
  destruct (fs_file _ _ _ _ _ _ _ F1 r w Hw) as (b1 & Hb1 & _). rstep. rstep; [done|].
  set (s2 := alter_bfd _ r s1).
  assert (F2 : files B None None s2 v l1 pins) by (apply (files_turned F1 Hw _ bfd_io_read); [by right | done]).
  assert (Hl2 : last_io s2 r = Some bfd_io_write) by (unfold last_io; simpl; by rewrite lookup_alter_eq, Hb1).
  rstep. cbn [iovec_bwrite]. unfold cache_bwrite, bfd_lock, bfd_unlock. rstep.
  apply runs_answer; [apply (fs_oracle _ _ _ _ _ _ _ F2)|]. cbn [negb]. rstep.
  apply (lookup_spec B r None s2 v l1 pins w); [done..| |done].
  intros s3 l3 f cur G F3 Hr3 Hf3 Hd3 Hl3 [->|?] Hq3; [|done]. rstep.
  destruct (Hd3 ltac:(done)) as (b3 & Hb3 & [Hd3a Hd3b]).
  assert (Hlb : b_last_io b3 = bfd_io_write).
  { rewrite Hl2 in Hl3. unfold last_io in Hl3. rewrite Hb3 in Hl3. by injection Hl3. }
  apply (fwrite_spec F3 Hw Hf3 Hwr); [intros E; rewrite Hd3b in Hlb; done | lia |]. cbv zeta. fold pos bytes.
  intros s4 G4 F4 Hs4 Hsh4 Hlast4 Hb4 Hq4. rstep.
  pose proof Hs4 as [_ HG4]. unfold ferror. rstep. apply (runs_get_file _ _ _ _ HG4). rstep.
  rewrite (sh_error _ _ _ _ _ Hsh4), andb_false_r. rstep. apply runs_answer; [apply (fs_oracle _ _ _ _ _ _ _ F4)|]. rstep.
  rewrite <- Hb4 in Hb3. destruct (fs_file _ _ _ _ _ _ _ F4 r w Hw) as (b5 & Hb5 & Hok5 & _).
  rewrite Hb3 in Hb5. apply (inj Some) in Hb5 as <-.
  destruct (advance_where s4 r w b3 (Z.of_nat (length bs)) Hb3 Hok5) as [Hu Hrg]; [done|].
  rstep. rewrite (proj2 (Z.eqb_neq _ (-1))) by lia. cbn [negb]. rstep; [done|].
  rewrite (alter_bfd_eq _ (set_where pos) _ b3) by (done || by rewrite Hu).
  rewrite wrap_small by (unfold fits; lia). rewrite Z.eqb_refl. cbn [negb]. repeat rstep.
  apply (HQ _ l3); [|eapply quiet_trans; [exact Hq1|]; eapply quiet_trans; [exact Hq3 | exact Hq4]].
  apply (files_moved F4 r w f _ _ G4); try done.
  - exists b3. split; [done|]. destruct Hlast4 as [->|E]; [by split|].
    split; rewrite E; [by intros _ | done].
  - by apply (shows_ext s4 _ (with_inode (v_inode w) bytes v) _).
Qed.

Lemma bfd_tell_spec (Q : Z -> cstate -> Prop) :
  (forall s' l', files B None None s' v l' pins -> quiet s s' -> Q (v_pos w - off) s') ->
  runs (bfd_tell p) s Q.
Proof using F Hw Hp.
  intros HQ. destruct home_stream as [Hst Hoff].
  destruct (fs_file _ _ _ _ _ _ _ F r w Hw) as (b & Hb & Hok & _). pose proof (fo_range _ _ _ _ Hok) as Hr.
  unfold bfd_tell. rstep. apply (runs_intro _ _ _ _ _ Hst). cbv beta iota. rstep. rstep; [done|].
  rewrite (fo_iovec _ _ _ _ Hok). rstep. cbn [iovec_btell]. unfold cache_btell.
  assert (Hend : forall s' l', files B None None s' v l' pins -> quiet s s' ->
    runs (_ ← set_bfd r (set_where (u64 (v_pos w))); ret (s64 (v_pos w - off))) s' Q).
  { intros s' l' F' Hq. destruct (fs_file _ _ _ _ _ _ _ F' r w Hw) as (b' & Hb' & Hok' & _).
    rstep. rstep; [done|]. rstep. rewrite wrap_small by (unfold fits; lia).
    rewrite (alter_bfd_id _ _ b') by (done || rewrite <- (fo_where _ _ _ _ Hok'); by destruct b').
    rewrite sext_small by lia. by apply (HQ s' l'). }
  apply (locked_spec B r None s v l pins w); [done..| |].
  - intros s' l' f cur G F' Hr' Hf Hd _ [->|?] Hq; [|done]. pose proof Hf as [[_ HG] Hsh].
    apply (runs_ftell _ _ _ _ HG). rewrite (sh_pos _ _ _ _ _ Hsh). split; [apply (fs_oracle _ _ _ _ _ _ _ F')|].
    apply (Hend s' l'); [by eapply files_found | done].
  - intros _ _. rstep. rstep; [done|]. rstep. rewrite (fo_where _ _ _ _ Hok), (sext_small 64 (v_pos w)) by lia.
    by apply (Hend s l).
Qed.

Lemma bfd_flush_spec (Q : Z -> cstate -> Prop) :
  (forall s' l', files B None None s' (moved r w (v_pos w) None v) l' pins -> quiet s s' -> Q 0 s') ->
  runs (bfd_flush p) s Q.
Proof using F Hw Hp.
  intros HQ. destruct home_stream as [Hst Hoff].
  destruct (fs_file _ _ _ _ _ _ _ F r w Hw) as (b & Hb & Hok & _ & _ & Hstr).
  unfold bfd_flush. rstep. apply (runs_intro _ _ _ _ _ Hst). cbv beta iota. rstep. rstep; [done|].
  rewrite (fo_iovec _ _ _ _ Hok). cbn [iovec_bflush]. unfold cache_bflush.
  apply (locked_spec B r None s v l pins w); [done..| |].
  - intros s' l' f cur G F' Hr' Hf Hd _ [->|?] Hq; [|done]. pose proof Hf as [[Hi HG] Hsh].
    pose proof Hsh as [G1 G2 G3 G4 G5 G6 G7 G8]. destruct G5 as (act & Hact & G5). unfold fflush.
    rstep. rstep. apply (runs_get_file _ _ _ _ HG). rstep. apply (runs_inode_bytes _ act); [by rewrite G1|].
    rstep. apply runs_answer; [apply (fs_oracle _ _ _ _ _ _ _ F')|]. cbn [negb].
    rstep. apply runs_set_os. rstep. apply runs_set_file. rewrite G1, G2, G3, G4. repeat rstep. cbn [Z.ltb Z.compare].
    repeat rstep. set (G' := mkFILE _ _ _ _ _ _ _).
    change (with_file f (Some G') _) with (put f (v_inode w) (Some G') (flushed G act) s').
    destruct (settled_flushed s' v w f G (Some G') act) as [Hset Hok2]; [apply Hsh | done|].
    destruct (Hd ltac:(done)) as (b' & Hb' & [Hd1 Hd2]).
    split; [apply (fs_oracle _ _ _ _ _ _ _ F')|]. apply (HQ _ l'); [|done]. apply files_clean; [|done|].
    + apply (files_found B None _ v l' pins r f w G'); [| done | done | split; [split; [done | apply with_file_lookup]|] |].
      * apply (files_put B (Some r) None s' v l' pins r f w (Some G') G); [done | done | congruence | apply Hf | done].
      * split; try done. simpl. lia.
      * intros _. exists b'. split; [done|]. cbn. destruct (decide (f_last G = F_output)); by split.
    + intros b2 f2 G2' Hb2 Hf2 HG2. change (c_bfds (put _ _ _ _ s')) with (c_bfds s') in Hb2. rewrite Hb2 in Hi.
      simpl in Hi. rewrite Hf2 in Hi. injection Hi as ->. rewrite put_file in HG2.
      by injection HG2 as <-.
  - intros _ Hn. rstep. apply (HQ s l); [|done]. apply files_clean; [done..|]. intros b2 f2 G2 Hb2 Hf2 HG2.
    rewrite Hb in Hb2. apply (inj Some) in Hb2 as <-. specialize (Hstr ltac:(done)). unfold stream_ok in Hstr.
    rewrite Hf2 in Hstr. by destruct Hstr.
Qed.

(** The size is that of the inode. *)
Lemma bfd_stat_spec (Q : Z * Z -> cstate -> Prop) :
  (forall s' l' size, files B None None s' v l' pins ->
     match v_synced w with
     | None => size = Z.of_nat (length (contents v w))
     | Some low => low <= size <= Z.of_nat (length (contents v w))
     end -> quiet s s' -> Q (0, size) s') ->
  runs (bfd_stat p) s Q.
Proof using F Hw Hp.
  intros HQ. destruct home_stream as [Hst Hoff].
  destruct (fs_file _ _ _ _ _ _ _ F r w Hw) as (b & Hb & Hok & _).
  unfold bfd_stat. rstep. apply (runs_intro _ _ _ _ _ Hst). cbv beta iota. rstep. rstep; [done|].
  rewrite (fo_iovec _ _ _ _ Hok). rstep. cbn [iovec_bstat]. unfold cache_bstat.
  apply (locked_spec B r None s v l pins w); [done..| |done].
  intros s' l' f cur G F' Hr' Hf Hd _ [->|?] Hq; [|done]. pose proof Hf as [[_ HG] Hsh].
  destruct (sh_settled _ _ _ _ _ Hsh) as (act & Hact & Hv & Hlo & Hout). unfold fstat.
  rstep. rstep. apply (runs_get_file _ _ _ _ HG). rstep.
  apply (runs_inode_bytes _ act); [by rewrite (sh_inode _ _ _ _ _ Hsh)|]. rstep.
  apply runs_answer; [apply (fs_oracle _ _ _ _ _ _ _ F')|]. rstep. rstep.
  split; [apply (fs_oracle _ _ _ _ _ _ _ F')|]. cbn [Z.ltb Z.compare]. repeat rstep.
  apply (HQ s' l'); [by eapply files_found | | done]. unfold contents. rewrite Hv. cbn [default id].
  pose proof (deliver_length act (out_start G) (f_out G)).
  destruct (v_synced w) as [low|] eqn:Hs; [specialize (Hlo low eq_refl); lia|].
  destruct (f_out G) eqn:E; [done|]. by destruct (Hout ltac:(done)) as [_ [? ?]].
Qed.
End bfdio_calls.

(** ** Closing and pinning *)

Lemma close_unlocked_spec B s v l1 p l2 pins (Q : bool -> cstate -> Prop) :
  files B None None s v (l1 ++ p :: l2) pins ->
  (forall s', files B None None s' v (l1 ++ l2) pins -> quiet s s' -> Q true s') ->
  runs (_bfd_cache_close_unlocked p) s Q.
Proof.
  intros F HQ. destruct (tracked_file F p) as [w Hw]; [set_solver|].
  destruct (open_stream F p w) as (b & f & G & Hb & Hf & _ & _ & _ & Hok); [set_solver|done..|].
  unfold _bfd_cache_close_unlocked. rstep. rstep; [done|].
  rewrite (fo_iovec _ _ _ _ Hok), bool_decide_true by done. cbn [negb]. rewrite Hf.
  apply (delete_spec B None None s v l1 p l2 pins w); [done..|]. intros s' F' Hfr _.
  apply HQ; [done | apply (fr_quiet _ _ _ _ Hfr)].
Qed.

(** A closed BFD holds nothing back. *)
Lemma closed_clean B y s v l pins p w :
  files B None y s v l pins -> v_files v !! p = Some w -> p ∉ l ++ pins -> clean s p.
Proof.
  intros F Hw Hp b f G Hb Hf _. destruct (fs_file _ _ _ _ _ _ _ F p w Hw) as (b' & Hb' & _ & _ & _ & Hst).
  rewrite Hb in Hb'. apply (inj Some) in Hb' as <-. specialize (Hst ltac:(done)). unfold stream_ok in Hst.
  rewrite Hf in Hst. by destruct Hst.
Qed.

Lemma bfd_cache_close_spec B s v l pins p w (Q : bool -> cstate -> Prop) :
  files B None None s v l pins -> v_files v !! p = Some w -> v_pinned w = false ->
  (forall s' l', files B None None s' (moved p w (v_pos w) None v) l' pins -> quiet s s' -> Q true s') ->
  runs (bfd_cache_close p) s Q.
Proof.
  intros F Hw Hpw HQ. destruct (fs_file _ _ _ _ _ _ _ F p w Hw) as (b & Hb & Hok & Hpin & _ & Hst).
  specialize (Hst ltac:(done)). unfold stream_ok in Hst. rewrite Hpw in Hpin.
  unfold bfd_cache_close, bfd_lock, bfd_unlock. rstep.
  apply runs_answer; [apply (fs_oracle _ _ _ _ _ _ _ F)|]. cbn [negb]. rstep.
  assert (Hend : forall s' l', files B None None s' v l' pins -> p ∉ l' ++ pins -> quiet s s' ->
    runs (ok ← answer; ret (ok && true)) s' Q).
  { intros s' l' F' Hpn Hq. rstep. apply runs_answer; [apply (fs_oracle _ _ _ _ _ _ _ F')|]. rstep.
    apply (HQ s' l'); [|done]. apply files_clean; [done..|by eapply closed_clean]. }
  destruct (b_iostream b) as [[f|]|] eqn:Hf; [|done|].
  - assert (Hp : p ∈ l) by (destruct Hst as [[?|Hp]%elem_of_app _]; [done | by apply Hpin in Hp]).
    apply list_elem_of_split in Hp as (l1 & l2 & ->).
    apply (close_unlocked_spec B s v l1 p l2 pins); [done|]. intros s' F' Hq.
    apply (Hend s' (l1 ++ l2)); [done| |done]. by apply nodup_remove, (fs_nodup _ _ _ _ _ _ _ F).
  - unfold _bfd_cache_close_unlocked. rstep. rstep; [done|].
    rewrite (fo_iovec _ _ _ _ Hok), bool_decide_true by done. cbn [negb]. rewrite Hf. rstep.
    by apply (Hend s l); [|apply Hst|].
Qed.

Lemma close_all_loop_spec B v pins (Q : bool -> cstate -> Prop) l : forall n s0 s,
  files B None None s v l pins -> (length l < n)%nat -> quiet s0 s ->
  (forall s', files B None None s' v [] pins -> quiet s0 s' -> Q true s') ->
  runs (close_all_loop n true) s Q.
Proof.
  induction l as [|p l IH]; intros [|n] s0 s F Hn Hq HQ; simpl in Hn; try lia;
    destruct (fs_ring _ _ _ _ _ _ _ F) as (Hlast & Hd & _); cbn [close_all_loop];
    rstep; rstep; rewrite Hlast; cbn [head hd_error].
  - rstep. by apply HQ.
  - rstep. apply (close_unlocked_spec B s v [] p l pins); [done|]. intros s' F' Hq'.
    destruct (fs_ring _ _ _ _ _ _ _ F') as (Hlast' & _ & _). rstep. rstep. rewrite Hlast'.
    rewrite decide_False.
    + apply (IH n s0 s'); [done | lia | by eapply quiet_trans | done].
    + intros Hh. apply NoDup_cons in Hd as [Hp _]. apply Hp. destruct l; simplify_eq/=. set_solver.
Qed.

(** When only the pinned files are open. *)
Lemma files_all_synced B s v pins :
  files B None None s v [] pins -> files B None None s (all_synced v) [] pins.
Proof.
  intros [F1 F2 F3 F4 F5 F6 F7 F8 F9 F10 F11 F12 F13 F14].
  assert (Hl : forall p u, v_files (all_synced v) !! p = Some u ->
    exists w, v_files v !! p = Some w /\ u = if v_pinned w then w else at_pos w (v_pos w) None).
  { intros p u. simpl. rewrite lookup_fmap. destruct (v_files v !! p) as [w|]; [|done].
    simpl. intros [= <-]. by exists w. }
  assert (Hsame : forall w, let u := if v_pinned w then w else at_pos w (v_pos w) None in
    v_inode u = v_inode w /\ v_pos u = v_pos w /\ v_writable u = v_writable w /\ v_pinned u = v_pinned w)
    by (intros w; destruct (v_pinned w) eqn:E; simpl; by rewrite ?E).
  assert (Hdom : dom (v_files (all_synced v)) = dom (v_files v)) by apply dom_fmap_L.
  split; rewrite ?Hdom; try done.
  - intros p q w u Hw Hu. apply Hl in Hw as (w0 & Hw & ->). apply Hl in Hu as (u0 & Hu & ->).
    destruct (Hsame w0) as (-> & _ & -> & _), (Hsame u0) as (-> & _). by apply (F6 p q).
  - intros i Hi. apply F7. intros p w Hw. destruct (Hsame w) as (<- & _). apply (Hi p). simpl.
    by rewrite lookup_fmap, Hw.
  - intros p u Hu. apply Hl in Hu as (w & Hw & Hu). destruct (F12 p w Hw) as (b & Hb & Hok & Hp & Hc & Hst).
    destruct (Hsame w) as (S1 & S2 & S3 & S4). rewrite <- Hu in S1, S2, S3, S4. exists b. split; [done|].
    split; [by destruct Hok; split; rewrite ?S1, ?S2, ?S3, ?S4|]. rewrite S4. split; [done|]. split; [done|].
    intros _. specialize (Hst ltac:(done)). destruct (v_pinned w) eqn:Hpw; [rewrite Hu; by apply (stream_ok_ext s s v _ None None ([] ++ pins) _ p b b)|].
    unfold stream_ok in *. rewrite Hu. destruct (b_iostream b) as [[f|]|] eqn:Hf; [|done|].
    + destruct Hst as [Hin _]. by apply Hp in Hin.
    + destruct Hst as [Hn Hs]. split; [done|]. apply settled_synced; [|by right].
      by apply (settled_ext s _ v).
Qed.

Lemma bfd_cache_close_all_spec B s v l pins (Q : bool -> cstate -> Prop) :
  files B None None s v l pins ->
  (forall s', files B None None s' (all_synced v) [] pins -> quiet s s' -> Q true s') ->
  runs bfd_cache_close_all s Q.
Proof.
  intros F HQ. unfold bfd_cache_close_all, bfd_lock, bfd_unlock. rstep.
  apply runs_answer; [apply (fs_oracle _ _ _ _ _ _ _ F)|]. cbn [negb]. repeat rstep.
  pose proof (cached_length _ _ (fs_ring _ _ _ _ _ _ _ F)).
  apply (close_all_loop_spec B v pins _ l _ s s); [done | lia | done |].
  intros s' F' Hq. rstep. apply runs_answer; [apply (fs_oracle _ _ _ _ _ _ _ F')|]. rstep.
  by apply HQ; [apply files_all_synced|].
Qed.

(** Taking a file in use out of the ring, and putting it back. *)
Definition pinned (p : ptr) (w : vfile) (value : bool) (v : vstate) : vstate :=
  mkVstate (<[p := mkVfile (v_inode w) (v_pos w) (v_writable w) value (v_synced w)]> (v_files v)) (v_inodes v)
    (v_home v).

Lemma pin_files s v l pins p w s1 l' pins' value :
  files false None None s v l pins -> v_files v !! p = Some w -> p ∈ l ++ pins -> relinked s s1 -> cached s1 l' ->
  l' ++ pins' ≡ₚ l ++ pins -> (forall q, q <> p -> q ∈ l' <-> q ∈ l) ->
  (forall q, q <> p -> q ∈ pins' <-> q ∈ pins) -> (p ∈ pins' <-> value = true) ->
  files false None None (alter_bfd (set_in_format_matches value) p s1) (pinned p w value v) l' pins'.
Proof.
  intros F Hw Hp R Hring Hperm Hl Hpi Hval. pose proof (elem_of_dom_2 _ _ _ Hw) as HD.
  destruct (open_stream F p w) as (b & f & G & Hb & Hf & HG & Hsh & Hd & Hok); [done..|].
  destruct (relinked_lookup s s1 p b R Hb) as (b1 & Hb1 & Hdyn & _).
  injection Hdyn as Hio Hwh Him Hca Hlio. destruct (relinked_rest _ _ R) as [Ho Hn].
  eapply (files_focus false p None None s v l pins None None _ _ l' pins' w _ b
            (set_in_format_matches value b1) F); try done.
  - eapply frame_trans; [by apply frame_relinked | by apply frame_alter].
  - simpl. rewrite Ho. apply (fo_inode _ _ _ _ Hok).
  - by apply cached_alter.
  - rewrite Hperm. apply (fs_nodup _ _ _ _ _ _ _ F).
  - simpl. rewrite Hn, (fs_count _ _ _ _ _ _ _ F), <- !length_app. by rewrite Hperm.
  - by apply alter_bfd_lookup.
  - simpl. rewrite Hwh. apply (fo_where _ _ _ _ Hok).
  - apply (fo_range _ _ _ _ Hok).
  - intros _. unfold stream_ok. simpl. rewrite Hio, Hf, Ho, Hperm. split; [done|]. exists G. split; [done|].
    split; [|by unfold dir_ok; simpl; rewrite Hlio]. destruct Hsh as [A1 A2 A3 A4 A5 A6 A7 A8].
    split; try done. by apply (settled_ext s _ v _ w); simpl; rewrite ?Ho.
  - intros g Hg. simpl in Hg. rewrite Hio in Hg. simpl. rewrite Ho. by apply (own_stream F p b g).
Qed.

Lemma pinned_id p w v : v_files v !! p = Some w -> pinned p w (v_pinned w) v = v.
Proof. intros Hw. unfold pinned. destruct w. simpl. rewrite insert_id by done. by destruct v. Qed.

Lemma pin_spec s v l pins p w (Q : bool -> cstate -> Prop) :
  files false None None s v l pins -> v_files v !! p = Some w -> v_pinned w = false ->
  (forall s' l' pins', files false None None s' (pinned p w true v) l' pins' -> quiet s s' -> Q true s') ->
  runs (result ← (f ← bfd_cache_lookup p CACHE_NORMAL;
                  match f with None => ret false | Some _ => _ ← snip p; ret true end);
        _ ← set_bfd p (set_in_format_matches true); ret result) s Q.
Proof.
  intros F Hw Hpw HQ. rstep. rstep. apply (lookup_spec false p None s v l pins w); [done..| |done].
  intros s1 l1 f pos G F1' Hp Hf Hdir _ [->|?] Hq; [|done].
  assert (F1 : files false None None s1 v l1 pins) by (by eapply files_found).
  destruct (fs_file _ _ _ _ _ _ _ F1 p w Hw) as (b & Hb & _ & Hpin & _). rewrite Hpw in Hpin.
  assert (Hpl : p ∈ l1) by (apply elem_of_app in Hp as [?|Hp]; [done | by apply Hpin in Hp]).
  apply list_elem_of_split in Hpl as (l2 & l3 & ->). rstep.
  eapply runs_mono; [apply (snip_spec s1 l2 p l3), (fs_ring _ _ _ _ _ _ _ F1)|].
  intros [] s2 [R Hring]. repeat rstep; [by apply (relinked_some s1); [|exists b]|].
  pose proof (fs_nodup _ _ _ _ _ _ _ F1) as Hd. apply nodup_remove in Hd as [Hpn _].
  apply (HQ _ (l2 ++ l3) (p :: pins)).
  - apply (pin_files s1 v (l2 ++ p :: l3) pins); try done; [solve_Permutation | set_solver..].
  - eapply quiet_trans; [done|]. by destruct R as (h & y & -> & _).
Qed.

Lemma unpin_spec s v l pins p w (Q : bool -> cstate -> Prop) :
  files false None None s v l pins -> v_files v !! p = Some w -> v_pinned w = true ->
  (forall s' l' pins', files false None None s' (pinned p w false v) l' pins' -> quiet s s' -> Q true s') ->
  runs (result ← (_ ← insert p; ret true);
        _ ← set_bfd p (set_in_format_matches false); ret result) s Q.
Proof.
  intros F Hw Hpw HQ. destruct (fs_file _ _ _ _ _ _ _ F p w Hw) as (b & Hb & _ & Hpin & _).
  rewrite Hpw in Hpin. assert (Hp : p ∈ pins) by (by apply Hpin).
  apply list_elem_of_split in Hp as (p1 & p2 & ->). pose proof (fs_nodup _ _ _ _ _ _ _ F) as Hd.
  assert (Hd' : NoDup (p :: l ++ p1 ++ p2)).
  { revert Hd. assert (l ++ p1 ++ p :: p2 ≡ₚ p :: l ++ p1 ++ p2) as -> by solve_Permutation. done. }
  apply NoDup_cons in Hd' as [Hpn _]. rstep. rstep.
  eapply runs_mono; [apply (insert_spec s l p); [apply (fs_ring _ _ _ _ _ _ _ F) | set_solver | by exists b]|].
  intros [] s2 [R Hring]. repeat rstep; [by apply (relinked_some s); [|exists b]|].
  apply (HQ _ (p :: l) (p1 ++ p2)).
  - apply (pin_files s v l (p1 ++ p :: p2)); try done; [set_solver | solve_Permutation | set_solver..].
  - by destruct R as (h & y & -> & _).
Qed.

Lemma set_uncloseable_spec s v l pins p w value (Q : bool * option bool -> cstate -> Prop) :
  files false None None s v l pins -> v_files v !! p = Some w ->
  (forall s' l' pins', files false None None s' (pinned p w value v) l' pins' -> quiet s s' ->
     Q (true, Some (v_pinned w)) s') ->
  runs (bfd_cache_set_uncloseable p value) s Q.
Proof.
  intros F Hw HQ. destruct (fs_file _ _ _ _ _ _ _ F p w Hw) as (b & Hb & Hok & _).
  unfold bfd_cache_set_uncloseable, bfd_lock, bfd_unlock. rstep.
  apply runs_answer; [apply (fs_oracle _ _ _ _ _ _ _ F)|]. cbn [negb]. rstep. rstep; [done|]. cbv zeta.
  rewrite (fo_pinned _ _ _ _ Hok), (fo_iovec _ _ _ _ Hok).
  assert (Hend : forall s' l' pins', files false None None s' (pinned p w value v) l' pins' -> quiet s s' ->
    runs (ok ← answer; ret (ok && true, Some (v_pinned w))) s' Q).
  { intros s' l' pins' F' Hq. rstep. apply runs_answer; [apply (fs_oracle _ _ _ _ _ _ _ F')|]. rstep.
    by apply (HQ s' l' pins'). }
  destruct (decide (value = v_pinned w)) as [->|Hne].
  - rewrite bool_decide_true by done. cbn [negb andb]. do 4 rstep. apply (Hend s l pins); [|done].
    by rewrite pinned_id.
  - rewrite bool_decide_false, (bool_decide_true (Some cache_iovec = _)) by done. cbn [negb andb].
    rstep. apply (runs_intro _ _ _ _ _ (fo_cached _ _ _ _ Hok)). rstep.
    destruct value, (v_pinned w) eqn:Hpw; try done.
    + apply (pin_spec s v l pins p w); [done..|]. intros s' l' pins' F' Hq. by eapply Hend.
    + apply (unpin_spec s v l pins p w); [done..|]. intros s' l' pins' F' Hq. by eapply Hend.
Qed.

(** ** Sequences of calls *)

(** With [B] no file is pinned by the calls. *)
Definition allowed (B : bool) (c : call) : Prop :=
  match c with Set_uncloseable _ _ => B = false | _ => True end.

Lemma run_call_spec B c s v l pins o v' (Q : outcome -> cstate -> Prop) :
  files B None None s v l pins -> allowed B c -> spec_call c v = Some (o, v') ->
  (forall o' s' l' pins', agrees o o' -> files B None None s' v' l' pins' -> quiet s s' -> Q o' s') ->
  runs (run_call c) s Q.
Proof.
  intros F Hall Hc HQ. destruct c as [p position dir|p n|p bs|p|p|p|p| |p value];
    cbn [run_call]; rstep; unfold spec_call in Hc.
  - apply bind_Some in Hc as ([[r off] lim] & Hp & (w & Hw & (pos & Hd & Hc)%bind_Some)%bind_Some).
    destruct (in_range pos) eqn:Hr; simplify_eq. unfold in_range in Hr. bool_prop.
    destruct (home_stream F Hp) as [Hst _].
    apply (bfd_seek_spec B None s v l pins r w F Hw (or_introl eq_refl) p off position dir pos _ Hst);
      [by destruct dir; simplify_eq | lia |]. intros s' l' F' _ Hq. rstep. by apply (HQ _ s' l' pins).
  - apply bind_Some in Hc as ([[r off] lim] & Hp & (w & Hw & Hc)%bind_Some).
    destruct (in_range n) eqn:Hr; [|done]. apply (bfd_read_spec F Hw Hp n); [done|].
    destruct (match lim with Some m => _ | None => _ end); cbv zeta in *.
    + destruct (in_range (v_pos w + _)) eqn:Hr'; simplify_eq. split; [done|].
      intros s' l' F' Hq. rstep. by apply (HQ _ s' l' pins).
    + simplify_eq. intros s' F' Hq. rstep. by apply (HQ _ s' l pins).
  - apply bind_Some in Hc as ([[r off] lim] & Hp & (w & Hw & Hc)%bind_Some). cbv zeta in Hc.
    destruct (v_writable w && _) eqn:Hr; simplify_eq. apply andb_true_iff in Hr as [Hwr Hr].
    apply (bfd_write_spec F Hw Hp bs); [done..|]. intros s' l' F' Hq. rstep. by apply (HQ _ s' l' pins).
  - apply bind_Some in Hc as ([[r off] lim] & Hp & (w & Hw & Hc)%bind_Some). simplify_eq.
    apply (bfd_tell_spec F Hw Hp). intros s' l' F' Hq. rstep. by apply (HQ _ s' l' pins).
  - apply bind_Some in Hc as ([[r off] lim] & Hp & (w & Hw & Hc)%bind_Some). simplify_eq.
    apply (bfd_flush_spec F Hw Hp). intros s' l' F' Hq. rstep. by apply (HQ _ s' l' pins).
  - apply bind_Some in Hc as ([[r off] lim] & Hp & (w & Hw & Hc)%bind_Some). simplify_eq.
    apply (bfd_stat_spec F Hw Hp). intros s' l' size F' Hsize Hq. rstep. apply (HQ _ s' l' pins); [|done..].
    destruct (v_synced w); [by exists size | by rewrite Hsize].
  - apply bind_Some in Hc as (w & Hw & Hc). destruct (v_pinned w) eqn:Hpw; simplify_eq.
    apply (bfd_cache_close_spec B s v l pins p w); [done..|]. intros s' l' F' Hq. rstep.
    by apply (HQ _ s' l' pins).
  - simplify_eq. apply (bfd_cache_close_all_spec B s v l pins); [done..|]. intros s' F' Hq. rstep.
    by apply (HQ _ s' [] pins).
  - apply bind_Some in Hc as (w & Hw & Hc). simplify_eq. cbn in Hall. subst B.
    apply (set_uncloseable_spec s v l pins p w); [done..|]. intros s' l' pins' F' Hq. rstep.
    by apply (HQ _ s' l' pins').
Qed.

Lemma run_calls_spec B cs : forall s0 s v l pins os v' (Q : list outcome -> cstate -> Prop),
  files B None None s v l pins -> Forall (allowed B) cs -> spec_calls cs v = Some (os, v') -> quiet s0 s ->
  (forall os' s' l' pins', Forall2 agrees os os' -> files B None None s' v' l' pins' -> quiet s0 s' -> Q os' s') ->
  runs (run_calls cs) s Q.
Proof.
  induction cs as [|c cs IH]; intros s0 s v l pins os v' Q F Hall Hc Hq HQ; cbn [run_calls spec_calls] in *.
  - simplify_eq. rstep. by apply (HQ _ s l pins).
  - apply Forall_cons in Hall as [Hac Hall].
    apply bind_Some in Hc as ([o v1] & Ho & ([os1 v2] & Hos & [= <- <-])%bind_Some).
    rstep. apply (run_call_spec B c s v l pins o v1); [done..|]. intros o' s1 l1 pins1 Ha F1 Hq1. rstep.
    apply (IH s0 s1 v1 l1 pins1 os1 v2); [done..| by eapply quiet_trans |].
    intros os' s2 l2 pins2 Has F2 Hq2. rstep. apply (HQ _ s2 l2 pins2); [by constructor|done..].
Qed.
