(* ===== verification/CacheMain.v ===== *)
(** What the file cache promises to its clients, from a state in which the
    cache has every file closed: calls return what always-open files return,
    nothing is reported, and no more files are open than the maximum. *)

From S2P Require Import Prelude HashTable Cache CacheRing CacheFiles CacheOps CacheCalls.

(** ** Checking a start state *)

Definition file_ready (s : cstate) (p : ptr) (w : vfile) : bool :=
  match c_bfds s !! p with
  | None => false
  | Some b =>
      match possibly_cached p s with Some (true, _) => true | _ => false end
      && bool_decide (b_iovec b = Some cache_iovec)
      && match containing b s with Some (None, _) => true | _ => false end
      && bool_decide (os_names (c_os s) !! b_filename b = Some (v_inode w))
      && eqb (v_writable w) (bfd_write_p b)
      && implb (v_writable w) (b_opened_once b)
      && bool_decide (is_Some (os_inodes (c_os s) !! v_inode w))
      && (b_where b =? v_pos w) && in_range (v_pos w)
      && negb (b_in_format_matches b) && negb (v_pinned w) && bool_decide (v_synced w = None)
      && b_cacheable b && bool_decide (b_iostream b = None)
  end.

Definition home_ready (s : cstate) (v : vstate) (p : ptr) (h : ptr * Z * option Z) : bool :=
  let '(r, off, lim) := h in
  bool_decide (is_Some (v_files v !! r)) && in_range off &&
  match stream_of p s, c_bfds s !! p with
  | Some ((r', off'), _), Some e =>
      bool_decide (r' = r) && (off' =? off) &&
      match containing e s with
      | Some (up, _) => bool_decide (lim = match up with Some _ => b_arelt_size e | None => None end)
      | None => false
      end
  | _, _ => false
  end.

(** [exclusive] as a test. *)
Definition exclusive_ok (V : gmap ptr vfile) : bool :=
  forallb (fun '(p, w) => negb (v_writable w) ||
    forallb (fun '(q, u) => bool_decide (p = q) || negb (bool_decide (v_inode w = v_inode u))) (map_to_list V))
    (map_to_list V).

(** Every BFD of [v] is closed and known to the system, [v] says where it is, and
    no other BFD of [v] has the inode of one that can be written. *)
Definition ready (s : cstate) (v : vstate) : bool :=
  bool_decide (c_last_cache s = None) && (c_open_files s =? 0)
  && bool_decide (os_oracle (c_os s) = []) && bool_decide (os_close_oracle (c_os s) = [])
  && bool_decide (os_inodes (c_os s) = v_inodes v) && exclusive_ok (v_files v)
  && (Z.of_nat (size (dom (v_files v))) <? 2 ^ 32) && (1 <=? cap s)
  && forallb (fun '(p, w) => file_ready s p w) (map_to_list (v_files v))
  && forallb (fun '(p, h) => home_ready s v p h) (map_to_list (v_home v)).

Lemma possibly_cached_pure p s r s' : possibly_cached p s = Some (r, s') -> s' = s.
Proof.
  unfold possibly_cached. intros (b & s1 & [Hb ->]%get_bfd_inv & H)%bind_inv.
  destruct (b_in_memory b); [by injection H as _ ->|].
  destruct (b_my_archive b); [|by injection H as _ ->].
  apply bind_inv in H as (c & s1 & [Hc ->]%get_bfd_inv & H). by injection H as _ ->.
Qed.

Lemma outermost_pure n : forall p off s r s', outermost n p off s = Some (r, s') -> s' = s.
Proof.
  induction n as [|n IH]; intros p off s r s' H; [done|]. simpl in H.
  apply bind_inv in H as (b & s1 & [Hb ->]%get_bfd_inv & H).
  apply bind_inv in H as (up & s1 & Hup & H). pose proof (containing_pure _ _ _ _ Hup) as ->.
  destruct up; [by eapply IH | by injection H as _ ->].
Qed.

Lemma file_ready_ok s p w :
  file_ready s p w = true ->
  exists b, c_bfds s !! p = Some b /\ file_ok s p b w /\ v_pinned w = false /\ b_cacheable b = true /\
    b_iostream b = None /\ v_synced w = None.
Proof.
  unfold file_ready. destruct (c_bfds s !! p) as [b|] eqn:Hb; [|done]. intros H. exists b.
  destruct (possibly_cached p s) as [[[] s1]|] eqn:Hpc; [|done..].
  destruct (containing b s) as [[[] s2]|] eqn:Hct; [by rewrite !andb_false_r in H| |by rewrite !andb_false_r in H].
  pose proof (possibly_cached_pure _ _ _ _ Hpc) as ->. pose proof (containing_pure _ _ _ _ Hct) as ->.
  unfold in_range in H. bool_prop.
  split_and!; try done. split; try done.
  - by apply eqb_prop.
  - intros Hw. by rewrite Hw in *.
  - congruence.
Qed.

Lemma home_ready_ok s v p r off lim :
  home_ready s v p (r, off, lim) = true -> r ∈ dom (v_files v) /\ home_ok s p r off lim.
Proof.
  unfold home_ready, home_ok. intros H. bool_prop.
  destruct (stream_of p s) as [[[r' off'] s1]|] eqn:Hst; [|done].
  destruct (c_bfds s !! p) as [e|] eqn:He; [|done]. bool_prop.
  destruct (containing e s) as [[up s2]|] eqn:Hct; [|done]. bool_prop. subst.
  change (stream_of p s) with (outermost (size (c_bfds s)) p 0 s) in Hst.
  pose proof (outermost_pure _ _ _ _ _ _ Hst) as ->. pose proof (containing_pure _ _ _ _ Hct) as ->.
  unfold in_range in *. bool_prop. split; [by apply elem_of_dom|]. split_and!; try done.
  exists e, up. by split_and!.
Qed.

Lemma forallb_map {A} (f : ptr * A -> bool) (m : gmap ptr A) p a :
  forallb f (map_to_list m) = true -> m !! p = Some a -> f (p, a) = true.
Proof.
  intros H Hm. rewrite forallb_forall in H. apply H, list_elem_of_In. by apply elem_of_map_to_list.
Qed.

Lemma exclusive_ok_spec V : exclusive_ok V = true -> exclusive V.
Proof.
  intros H p q w u Hw Hu Hne Hi.
  pose proof (forallb_map (fun '(p, w) => negb (v_writable w) || _) V p w H Hw) as Hp. cbn beta iota in Hp.
  apply orb_true_iff in Hp as [Hp|Hp]; [by apply negb_true_iff in Hp|].
  pose proof (forallb_map (fun '(q, u) => bool_decide (p = q) || _) V q u Hp Hu) as Hq. cbn beta iota in Hq.
  apply orb_true_iff in Hq as [Hq|Hq]; [by apply bool_decide_eq_true in Hq|].
  apply negb_true_iff, bool_decide_eq_false in Hq. done.
Qed.

Lemma ready_files B s v : ready s v = true -> files B None None s v [] [].
Proof.
  unfold ready. intros H. bool_prop.
  assert (Hfile : forall p w, v_files v !! p = Some w -> exists b, c_bfds s !! p = Some b /\
    file_ok s p b w /\ v_pinned w = false /\ b_cacheable b = true /\ b_iostream b = None /\ v_synced w = None).
  { intros p w Hw. apply file_ready_ok. by apply (forallb_map (fun '(p, w) => file_ready s p w) (v_files v)). }
  split; try done.
  - split_and!; [done | constructor | done].
  - constructor.
  - by apply exclusive_ok_spec.
  - intros i _. congruence.
  - set_solver.
  - intros _. split; [done | lia].
  - intros p w Hw. destruct (Hfile p w Hw) as (b & Hb & Hok & Hp & Hc & Hi & Hs). exists b. split_and!; try done.
    + split; [set_solver | congruence].
    + intros _. unfold stream_ok. rewrite Hi. split; [set_solver|].
      destruct (fo_inode _ _ _ _ Hok) as [act Hact]. exists act. rewrite Hs. split_and!; try done. simpl. congruence.
  - intros p b f [w Hw]%elem_of_dom Hb Hf. destruct (Hfile p w Hw) as (b' & Hb' & _ & _ & _ & Hi & _).
    congruence.
  - intros p r off lim Hp. apply home_ready_ok.
    by apply (forallb_map (fun '(p, h) => home_ready s v p h) (v_home v)).
Qed.

(** ** The theorems *)

(** All that was written to the inode is in it. *)
Definition synced_inode (v : vstate) (i : nat) : Prop :=
  forall p w, v_files v !! p = Some w -> v_inode w = i -> v_synced w = None.

Lemma files_synced B s v l pins i :
  files B None None s v l pins -> synced_inode v i -> os_inodes (c_os s) !! i = v_inodes v !! i.
Proof.
  intros F Hs.
  assert (Hfile : forall p w, v_files v !! p = Some w -> v_inode w = i -> os_inodes (c_os s) !! i = v_inodes v !! i).
  { intros p w Hw Hi. pose proof (Hs p w Hw Hi) as Hn. subst i.
    destruct (fs_file _ _ _ _ _ _ _ F p w Hw) as (b & _ & _ & _ & _ & Hst). specialize (Hst ltac:(done)).
    unfold stream_ok in Hst. destruct (b_iostream b) as [[f|]|]; [|done|].
    - destruct Hst as (_ & G & _ & Hsh & _). destruct (sh_settled _ _ _ _ _ Hsh) as (act & Ha & Hv & _ & Ho).
      rewrite Ha, Hv. destruct (f_out G); [done|]. destruct (Ho ltac:(done)) as [_ [? ?]]. congruence.
    - destruct Hst as (_ & act & Ha & Hv & _). by rewrite Ha, Hv. }
  destruct (decide (Exists (fun '(_, w) => v_inode w = i) (map_to_list (v_files v)))) as [He|Hn].
  - apply Exists_exists in He as ([p w] & Hp%elem_of_map_to_list & Hi). by apply (Hfile p w).
  - apply (fs_rest _ _ _ _ _ _ _ F). intros p w Hw Hi. apply Hn, Exists_exists. exists (p, w).
    split; [by apply elem_of_map_to_list | done].
Qed.

(** C13: The file cache is transparent. From a state in which every file is
    closed and no other BFD has the inode of one that can be written, any sequence
    of seeks, reads, writes, tells, flushes, stats, closes and pins that stays
    within its contract runs without undefined behaviour - no stream is read after
    a write, or written after a read, without a seek or a flush between - and gives
    the results it has on files that are never closed, elements of archives
    included, whatever the streams hold back of what is written and fetch ahead of
    what is read.  Only the size of a file that has been written since it was last
    flushed, moved, read or closed lies somewhere between the size it had then and
    the one it will have.  The inodes get the same contents, but for those that may
    still lack bytes that are held back; no assertion fails and no failed reopening
    is reported. *)
Theorem cache_transparent s v cs os v' :
  ready s v = true -> spec_calls cs v = Some (os, v') ->
  exists os' s', run_calls cs s = Some (os', s') /\ Forall2 agrees os os' /\
    (forall i, synced_inode v' i -> os_inodes (c_os s') !! i = v_inodes v' !! i) /\ quiet s s'.
Proof.
  intros Hr Hc.
  destruct (run_calls_spec false cs s s v [] [] os v'
    (fun o s' => Forall2 agrees os o /\
       (forall i, synced_inode v' i -> os_inodes (c_os s') !! i = v_inodes v' !! i) /\ quiet s s'))
    as (o & s' & Hrun & H).
  - by apply ready_files.
  - apply Forall_forall. intros c _. by destruct c.
  - done.
  - done.
  - intros os' s' l' pins' Ha F' Hq. split_and!; [done | | done]. intros i Hi. by eapply files_synced.
  - by exists o, s'.
Qed.

(** The BFDs of [v] that hold a stream. *)
Definition streams_open (s : cstate) (v : vstate) : gset ptr :=
  filter (fun p => is_Some (c_bfds s !! p ≫= b_iostream)) (dom (v_files v)).

Lemma streams_open_files B s v l pins :
  files B None None s v l pins -> streams_open s v = list_to_set (l ++ pins).
Proof.
  intros F. apply set_eq. intros p. unfold streams_open. rewrite elem_of_filter, elem_of_list_to_set. split.
  - intros [Hi [w Hw]%elem_of_dom]. destruct (fs_file _ _ _ _ _ _ _ F p w Hw) as (b & Hb & _ & _ & _ & Hst).
    specialize (Hst ltac:(done)). unfold stream_ok in Hst. rewrite Hb in Hi. simpl in Hi.
    destruct (b_iostream b) as [[f|]|]; [apply Hst | done | by destruct Hi].
  - intros Hp. destruct (tracked_file F p Hp) as [w Hw].
    destruct (open_stream F p w) as (b & f & G & Hb & Hf & _); [done..|]. rewrite Hb. simpl. rewrite Hf.
    split; [done | by apply elem_of_dom_2 in Hw].
Qed.

Definition pins_nothing (c : call) : bool := match c with Set_uncloseable _ _ => false | _ => true end.

(** C24: The cache keeps its promise on open files: after any calls that pin
    nothing, open_files is the number of BFDs that hold a stream, and it is at
    most the maximum, which is at least 10 unless it was set otherwise. *)
Theorem cache_bounded s v cs os v' :
  ready s v = true -> forallb pins_nothing cs = true -> spec_calls cs v = Some (os, v') ->
  exists os' s', run_calls cs s = Some (os', s') /\ Forall2 agrees os os' /\
    c_open_files s' = Z.of_nat (size (streams_open s' v')) /\ c_open_files s' <= cap s.
Proof.
  intros Hr Hp Hc.
  destruct (run_calls_spec true cs s s v [] [] os v' (fun o s' => Forall2 agrees os o /\
    c_open_files s' = Z.of_nat (size (streams_open s' v')) /\ c_open_files s' <= cap s))
    as (o & s' & Hrun & H).
  - by apply ready_files.
  - apply Forall_forall. intros c Hin. rewrite forallb_forall in Hp.
    specialize (Hp c ltac:(by apply list_elem_of_In)). by destruct c.
  - done.
  - done.
  - intros os' s' l' pins' Ha F' Hq. split; [done|]. destruct (fs_bound _ _ _ _ _ _ _ F' eq_refl) as [-> Hle].
    destruct Hq as (_ & _ & Hcap). rewrite <- Hcap. split; [|done].
    rewrite (streams_open_files _ _ _ _ _ F'), (size_list_to_set (C:=gset ptr)), (fs_count _ _ _ _ _ _ _ F'),
      length_app by apply (fs_nodup _ _ _ _ _ _ _ F'). done.
  - by exists o, s'.
Qed.

(** ** A concrete start *)

(** A closed BFD of the file [name], at [pos]. *)
Definition closed_bfd (name : string) (dir : bfd_direction) (pos : Z) : bfd :=
  mkBfd name None (Some cache_iovec) None None pos false true dir bfd_io_force true true false false 0
    None None 0.

(** The element of the archive [ar] at [origin] with [size] bytes. *)
Definition element_bfd (ar : ptr) (origin size : Z) : bfd :=
  mkBfd "element" None (Some cache_iovec) None None 0 false false read_direction bfd_io_seek true false false
    false origin (Some ar) (Some size) 0.

(** Twelve files for a cache of ten; the first is an archive with an element,
    the second can be written. *)
Definition demo_names : list string :=
  ["a"; "b"; "c"; "d"; "e"; "f"; "g"; "h"; "i"; "j"; "k"; "l"]%string.
Definition demo_bfds : gmap ptr bfd :=
  <[20%nat := element_bfd 0 4 3]>
    (<[1%nat := closed_bfd "b" both_direction 1]>
       (map_seq 0 ((fun name => closed_bfd name read_direction 0) <$> demo_names))).
Definition demo_inodes : gmap nat (list Z) :=
  map_seq 0 ((fun n => [n; n + 1; n + 2; n + 3; n + 4; n + 5; n + 6; n + 7]) <$> seqZ 0 12).
(** The first write is held back whole, the reads fetch ahead. *)
Definition demo_buffering : list nat := replicate 200 4%nat.
Definition demo_os : os :=
  mkOs (list_to_map (zip demo_names (seq 0 12))) demo_inodes 12 ∅ 0 3 [] [] demo_buffering.
Definition demo_state : cstate :=
  mkCstate demo_bfds None 0 0 ∅ demo_os bfd_error_no_error E_NONE 0 [].
Definition demo_files : vstate :=
  mkVstate (map_imap (fun p b => if decide (p = 20%nat) then None else
              Some (mkVfile p (b_where b) (bfd_write_p b) false None)) demo_bfds) demo_inodes
    (<[20%nat := (0%nat, 4, Some 3)]> (map_imap (fun p _ => if decide (p = 20%nat) then None else
       Some (p, 0, None)) demo_bfds)).

Definition demo_reads : list call :=
  (fun p => Read p 2) <$> seq 0 12.
Definition demo_calls : list call :=
  demo_reads ++ [Read 0 3; Seek 20 1 SEEK_SET; Read 20 10; Tell 20; Write 1 [70; 71]; Read 1 1; Write 1 [72];
    Seek 1 (-3) SEEK_CUR; Close_all; Read 1 4; Set_uncloseable 5 true] ++ demo_reads ++
    [Set_uncloseable 5 false; Close 5; Stat 5; Read 5 9; Seek 1 7 SEEK_SET; Write 1 [80; 81; 82]; Stat 1; Flush 1;
     Stat 1].

Definition demo_result : list outcome * vstate := default ([], demo_files) (spec_calls demo_calls demo_files).

Lemma cache_transparent_witness :
  take 12 (drop 12 (fst demo_result)) =
    [R_read 3 [2; 3; 4]; R_status 0; R_read 2 [5; 6]; R_status 3; R_status 2; R_read 1 [6]; R_status 1; R_status 0;
     R_bool true; R_read 4 [71; 6; 72; 8]; R_pin true (Some false); R_read 1 [7]] /\
  drop 37 (fst demo_result) =
    [R_stat 0 8; R_read 4 [9; 10; 11; 12]; R_status 0; R_status 3; R_stat_between 8 10; R_status 0; R_stat 0 10] /\
  v_inodes (snd demo_result) !! 1%nat = Some [1; 2; 3; 70; 71; 6; 72; 80; 81; 82]%Z /\
  exists os' s', run_calls demo_calls demo_state = Some (os', s') /\ Forall2 agrees (fst demo_result) os' /\
    (forall i, synced_inode (snd demo_result) i -> os_inodes (c_os s') !! i = v_inodes (snd demo_result) !! i) /\
    quiet demo_state s'.
Proof.
  split; [vm_compute; reflexivity|]. split; [vm_compute; reflexivity|]. split; [vm_compute; reflexivity|].
  apply (cache_transparent demo_state demo_files demo_calls (fst demo_result) (snd demo_result));
    vm_compute; reflexivity.
Defined.

Lemma cache_bounded_witness :
  let '(os, v') := default ([], demo_files) (spec_calls demo_reads demo_files) in
  exists os' s', run_calls demo_reads demo_state = Some (os', s') /\ Forall2 agrees os os' /\
    c_open_files s' = Z.of_nat (size (streams_open s' v')) /\ c_open_files s' <= 10.
Proof.
  apply (cache_bounded demo_state demo_files demo_reads
    (fst (default ([], demo_files) (spec_calls demo_reads demo_files)))
    (snd (default ([], demo_files) (spec_calls demo_reads demo_files)))); vm_compute; reflexivity.
Defined.

(** ** Where closing shows *)

(** A seek to before the start fails; on a file that is open the position
    stays, on one that the cache has closed the next read starts at 0. *)
Lemma failed_seek_moves_closed_file :
  fst <$> run_calls [Read 1 0; Seek 1 (-1) SEEK_SET; Read 1 2] demo_state =
    Some [R_read 0 []; R_status (-1); R_read 2 [2; 3]] /\
  fst <$> run_calls [Seek 1 (-1) SEEK_SET; Read 1 2] demo_state = Some [R_status (-1); R_read 2 [1; 2]].
Proof. split; vm_compute; reflexivity. Qed.

(** The size of a file whose last bytes are held back is the old one, unless
    the cache has closed the file in between to open others. *)
Lemma stat_sees_what_is_flushed :
  let held := [Seek 1 7 SEEK_SET; Write 1 [80; 81; 82]] in
  last <$> (fst <$> run_calls (held ++ [Stat 1]) demo_state) = Some (Some (R_stat 0 8)) /\
  last <$> (fst <$> run_calls (held ++ ((fun p => Read p 1) <$> seq 2 10) ++ [Stat 1]) demo_state) =
    Some (Some (R_stat 0 10)).
Proof. split; vm_compute; reflexivity. Qed.

(** A stream must be moved between a write and a read: without it there is no
    result, and [bfd_read] and [bfd_write] move it. *)
Lemma turning_needs_a_seek :
  fst <$> (f ← fopen "b" FOPEN_RUB; match f with
           | Some f => _ ← fwrite [70] f; bs ← fread 1 f; ret bs | None => ret [] end) demo_state = None /\
  fst <$> (f ← fopen "b" FOPEN_RUB; match f with
           | Some f => _ ← fwrite [70] f; _ ← fseek f 0 SEEK_CUR; bs ← fread 1 f; ret bs | None => ret [] end)
           demo_state = Some [2] /\
  fst <$> run_calls [Write 1 [70]; Read 1 1; Write 1 [72]] demo_state = Some [R_status 1; R_read 1 [3]; R_status 1].
Proof. split_and!; vm_compute; reflexivity. Qed.

(** The files cannot be opened again ([fopen] fails after the lock succeeded):
    a read fails, a write writes 0 bytes and blames the disk. *)
Definition demo_unopenable : cstate :=
  set_c_os (mkOs (os_names demo_os) demo_inodes 12 ∅ 0 3 [true; false; false] [] []) demo_state.

Lemma write_without_file :
  fst <$> run_calls [Read 1 2] demo_unopenable = Some [R_read (2 ^ 64 - 1) []] /\
  (fun '(o, s) => (o, c_errno s)) <$> run_calls [Write 1 [7]] demo_unopenable = Some ([R_status 0], ENOSPC).
Proof. split; vm_compute; reflexivity. Qed.

(** A file that cannot be opened is marked uncloseable all the same, and the
    next use of it aborts. *)
Lemma failed_pin_aborts :
  fst <$> run_calls [Set_uncloseable 2 true] demo_unopenable = Some [R_pin false (Some false)] /\
  run_calls [Set_uncloseable 2 true; Flush 2] demo_unopenable = None /\
  fst <$> run_calls [Flush 2] demo_state = Some [R_status 0].
Proof. split_and!; vm_compute; reflexivity. Qed.
