(* ===== verification/CacheMemory.v ===== *)
(** Files in memory: bfdio.c's buffers, rounded up to 128 bytes and grown by
    writes and seeks, behave as plain files, never touch memory out of the
    buffer and never read a byte that was not written. *)

From S2P Require Import Prelude Bits HashTable Cache CacheRing CacheFiles CacheOps CacheCalls.

(** [bfd_make_writable], for a BFD made without a file. *)
Definition make_memory (i : nat) (b : bfd) : bfd :=
  mkBfd (b_filename b) (Some (S_memory i)) (Some memory_iovec) (b_lru_prev b) (b_lru_next b) 0 true
    (b_closed_by_cache b) write_direction (b_last_io b) (b_cacheable b) (b_opened_once b)
    (b_is_thin_archive b) (b_in_format_matches b) 0 (b_my_archive b) (b_arelt_size b) (b_file_size b).

Definition bfd_make_writable (abfd : ptr) : M bool :=
  a ← get_bfd abfd;
  match b_direction a with
  | no_direction =>
      ok ← answer;
      if negb ok then ret false
      else
        i ← gets (fun s => fresh (dom (c_memory s)));
        _ ← set_memory i (mkInMemory 0 []);
        _ ← set_bfd abfd (make_memory i);
        ret true
  | _ => _ ← bfd_set_error bfd_error_invalid_operation; ret false
  end.

(** ** The abstract file *)

Record mfile := mkMfile { m_bytes : list Z; m_pos : Z; m_writable : bool }.

Definition m_size (m : mfile) : Z := Z.of_nat (length (m_bytes m)).

(** The calls on [p] stay below 2^62. *)
Definition mem_small (z : Z) : bool := (- 2 ^ 62 <=? z) && (z <? 2 ^ 62).

Definition mem_call (p : ptr) (c : call) (m : mfile) : option (outcome * mfile) :=
  match c with
  | Seek q position dir =>
      pos ← match dir with
            | SEEK_SET => Some position | SEEK_CUR => Some (m_pos m + position) | SEEK_END => None
            end;
      if bool_decide (q = p) && mem_small pos then
        if pos <? 0 then Some (R_status (-1), mkMfile (m_bytes m) 0 (m_writable m))
        else if m_size m <? pos then
          if m_writable m
          then Some (R_status 0,
                 mkMfile (m_bytes m ++ replicate (Z.to_nat (pos - m_size m)) 0) pos (m_writable m))
          else Some (R_status (-1), mkMfile (m_bytes m) (m_size m) (m_writable m))
        else Some (R_status 0, mkMfile (m_bytes m) pos (m_writable m))
      else None
  | Read q n =>
      if bool_decide (q = p) && (0 <=? n) && mem_small n then
        let got := read_at (m_bytes m) (m_pos m) n in
        Some (R_read (Z.of_nat (length got)) got,
              mkMfile (m_bytes m) (m_pos m + Z.of_nat (length got)) (m_writable m))
      else None
  | Write q bs =>
      let pos := m_pos m + Z.of_nat (length bs) in
      if bool_decide (q = p) && mem_small pos then
        Some (R_status (Z.of_nat (length bs)),
              mkMfile (overwrite (m_bytes m) (Z.to_nat (m_pos m)) bs) pos (m_writable m))
      else None
  | Tell q => if bool_decide (q = p) then Some (R_status (m_pos m), m) else None
  | Flush q => if bool_decide (q = p) then Some (R_status 0, m) else None
  | Stat q => if bool_decide (q = p) then Some (R_stat 0 (m_size m), m) else None
  | _ => None
  end.

Fixpoint mem_calls (p : ptr) (cs : list call) (m : mfile) : option (list outcome * mfile) :=
  match cs with
  | [] => Some ([], m)
  | c :: cs => '(r, m1) ← mem_call p c m; '(rs, m2) ← mem_calls p cs m1; Some (r :: rs, m2)
  end.

(** ** Buffers *)

(** The bytes, then zeros to the allocated size. *)
Definition padded (bytes : list Z) (n : Z) : list (option Z) :=
  (Some <$> bytes) ++ replicate (Z.to_nat n - length bytes) (Some 0).

Lemma round_128_eq z : 0 <= z < 2 ^ 63 -> round_128 z = (z + 127) / 128 * 128.
Proof.
  intros Hz. unfold round_128. rewrite wrap_small by (unfold fits; lia).
  transitivity (((z + 127) .>> 7) .<< 7).
  - apply Z.bits_inj'. intros k Hk. rewrite Z.land_spec.
    destruct (Z.lt_ge_cases k 7).
    + rewrite Z.shiftl_spec_low by lia. apply andb_false_intro2.
      assert (k = 0 \/ k = 1 \/ k = 2 \/ k = 3 \/ k = 4 \/ k = 5 \/ k = 6) as Hc by lia.
      by decompose [or] Hc; subst.
    + rewrite Z.shiftl_spec, Z.shiftr_spec by lia. replace (k - 7 + 7) with k by lia.
      destruct (Z.lt_ge_cases k 64).
      * replace (2 ^ 64 - 128) with (Z.shiftl (Z.ones 57) 7) by done.
        rewrite Z.shiftl_spec, Z.ones_spec_low by lia. apply andb_true_r.
      * rewrite (Z.bits_above_log2 (z + 127)); [done | lia |]. 
        apply Z.log2_lt_pow2; [lia|]. assert (2 ^ 64 <= 2 ^ k) by (apply Z.pow_le_mono_r; lia). lia.
  - by rewrite Z.shiftl_mul_pow2, Z.shiftr_div_pow2 by lia.
Qed.

Lemma round_128_bounds z : 0 <= z < 2 ^ 63 -> z <= round_128 z < z + 128.
Proof. intros Hz. rewrite round_128_eq by done. divmod_lia. Qed.

Lemma round_128_mono a b : 0 <= a <= b -> b < 2 ^ 63 -> round_128 a <= round_128 b.
Proof. intros Ha Hb. rewrite !round_128_eq by lia. divmod_lia. Qed.

Lemma length_padded bytes n : Z.of_nat (length bytes) <= n -> Z.of_nat (length (padded bytes n)) = n.
Proof. intros H. unfold padded. rewrite length_app, length_fmap, length_replicate. lia. Qed.

Lemma take_padded k bytes n : (k <= length bytes)%nat -> take k (padded bytes n) = Some <$> take k bytes.
Proof. intros H. unfold padded. by rewrite take_app_le, fmap_take by (by rewrite length_fmap). Qed.

Lemma drop_padded k bytes n :
  (length bytes <= k)%nat -> drop k (padded bytes n) = replicate (Z.to_nat n - k) (Some 0).
Proof.
  intros H. unfold padded. rewrite drop_app_ge, length_fmap, drop_replicate by (by rewrite length_fmap).
  f_equal. lia.
Qed.

Lemma mapM_id_some {A} (l : list A) : mapM id (Some <$> l) = Some l.
Proof. 
  induction l as [|a l IH]; [done|]. simpl. change (list_fmap _ _ Some l) with (Some <$> l). by rewrite IH.
Qed.

Lemma padded_zeros bytes k n :
  Z.of_nat (length bytes + k) <= n -> padded (bytes ++ replicate k 0) n = padded bytes n.
Proof.
  intros H. unfold padded. rewrite fmap_app, fmap_replicate, <- app_assoc, length_app, length_replicate.
  rewrite <- replicate_add. do 2 f_equal. lia.
Qed.

Lemma padded_more bytes a b :
  Z.of_nat (length bytes) <= a <= b ->
  padded bytes a ++ replicate (Z.to_nat (b - a)) (Some 0) = padded bytes b.
Proof.
  intros H. unfold padded. rewrite <- app_assoc, <- replicate_add. do 2 f_equal. lia.
Qed.

(** [bs] written at [pos] into a buffer that agrees with [bytes] before it and
    holds what is left of [bytes], or zeros, after it. *)
Lemma padded_overwrite X bytes pos bs n :
  (pos <= length bytes)%nat -> Z.of_nat (length X) = n -> Z.of_nat (pos + length bs) <= n ->
  Z.of_nat (length bytes) <= n ->
  take pos X = Some <$> take pos bytes ->
  drop (pos + length bs) X = drop (pos + length bs) (padded bytes n) ->
  take pos X ++ (Some <$> bs) ++ drop (pos + length bs) X = padded (overwrite bytes pos bs) n.
Proof.
  intros Hp HX Hn Hb Ht Hd. rewrite Ht, Hd. unfold overwrite.
  replace (pos - length bytes)%nat with O by lia. cbn [replicate app].
  unfold padded at 2. rewrite !fmap_app, <- !app_assoc, !length_app, length_take, length_drop, Nat.min_l by done.
  do 2 f_equal. destruct (Nat.le_ge_cases (pos + length bs) (length bytes)) as [Hle|Hge].
  - unfold padded. rewrite drop_app_le, fmap_drop by (by rewrite length_fmap). do 2 f_equal. lia.
  - rewrite drop_padded, (drop_ge bytes) by done. cbn [fmap list_fmap app]. f_equal. lia.
Qed.

Lemma runs_buffer_write buffer off bs s (Q : list (option Z) -> cstate -> Prop) :
  off + Z.of_nat (length bs) <= Z.of_nat (length buffer) ->
  Q (take (Z.to_nat off) buffer ++ bs ++ drop (Z.to_nat off + length bs) buffer) s ->
  runs (buffer_write buffer off bs) s Q.
Proof. intros H HQ. unfold buffer_write. rewrite (proj2 (Z.leb_le _ _)) by done. by rstep. Qed.

Lemma length_overwrite bytes pos bs :
  (pos <= length bytes)%nat -> length (overwrite bytes pos bs) = Nat.max (length bytes) (pos + length bs).
Proof.
  intros H. unfold overwrite. rewrite !length_app, length_take, length_replicate, length_drop. lia.
Qed.

(** ** The relation *)

Record mem_ok (s : cstate) (p : ptr) (m : mfile) : Prop := {
  mo_bfd : exists b i, c_bfds s !! p = Some b /\ b_iovec b = Some memory_iovec /\
    containing b s = Some (None, s) /\ b_origin b = 0 /\ b_iostream b = Some (S_memory i) /\
    b_where b = m_pos m /\ bfd_write_p b = m_writable m /\
    c_memory s !! i = Some (mkInMemory (m_size m) (padded (m_bytes m) (round_128 (m_size m))));
  mo_pos : 0 <= m_pos m <= m_size m;
  mo_size : m_size m < 2 ^ 62;
  mo_oracle : os_oracle (c_os s) = []
}.

(** A change of the BFD and of its buffer. *)
Lemma mem_ok_step s s' p m m' :
  mem_ok s p m -> same_shape s s' -> os_oracle (c_os s') = os_oracle (c_os s) ->
  m_writable m' = m_writable m -> 0 <= m_pos m' <= m_size m' -> m_size m' < 2 ^ 62 ->
  (forall b i, c_bfds s !! p = Some b -> b_iostream b = Some (S_memory i) ->
     c_memory s !! i = Some (mkInMemory (m_size m) (padded (m_bytes m) (round_128 (m_size m)))) ->
     exists b', c_bfds s' !! p = Some b' /\ b_iostream b' = b_iostream b /\ b_where b' = m_pos m' /\
       c_memory s' !! i = Some (mkInMemory (m_size m') (padded (m_bytes m') (round_128 (m_size m'))))) ->
  mem_ok s' p m'.
Proof.
  intros [(b & i & Hb & Hv & Hc & Ho & Hi & Hw & Hwr & Hm) Hp Hs Hor] Hsh Hor' Hwr' Hp' Hs' H.
  destruct (H b i Hb Hi Hm) as (b' & Hb' & Hi' & Hw' & Hm'). split; [|done|done|congruence].
  destruct (shape_lookup s s' p b Hsh Hb) as (b2 & Hb2 & Hshb). rewrite Hb' in Hb2.
  apply (inj Some) in Hb2 as <-. exists b', i.
  pose proof (containing_shape Hsh b b' None Hshb Hc) as Hc'.
  injection Hshb as _ H2 _ H3 _ _ H6 _ _.
  assert (bfd_write_p b' = bfd_write_p b) by (unfold bfd_write_p; by rewrite H3).
  split_and!; congruence.
Qed.

Section memory.
Context {s : cstate} {p : ptr} {m : mfile}.
Hypothesis O : mem_ok s p m.

Lemma mem_stream : stream_of p s = Some ((p, 0), s).
Proof using O.
  destruct (mo_bfd _ _ _ O) as (b & i & Hb & Hv & Hc & Ho & _).
  change (stream_of p s) with (outermost (size (c_bfds s)) p 0 s).
  destruct (size (c_bfds s)) as [|n] eqn:Hn; [by apply map_size_empty_inv in Hn; rewrite Hn in Hb|].
  cbn [outermost]. erewrite bind_eq by (by apply get_bfd_eq). erewrite bind_eq by done. by rewrite Ho.
Qed.

Lemma runs_get_memory b i bim (Q : nat * bfd_in_memory -> cstate -> Prop) :
  c_bfds s !! p = Some b -> b_iostream b = Some (S_memory i) -> c_memory s !! i = Some bim ->
  Q (i, bim) s -> runs (get_memory p) s Q.
Proof using.
  intros Hb Hi Hm HQ. unfold get_memory. rstep. rstep; [done|]. rewrite Hi. repeat rstep; done.
Qed.

(** What leaves the position and the buffer. *)
Lemma mem_ok_alter f :
  (forall b, shape (f b) = shape b) -> (forall b, b_iostream (f b) = b_iostream b) ->
  (forall b, b_where (f b) = b_where b) -> mem_ok (alter_bfd f p s) p m.
Proof using O.
  intros Hf Hi Hw. destruct (mo_bfd _ _ _ O) as (b0 & i0 & Hb0 & _ & _ & _ & _ & Hw0 & _).
  apply (mem_ok_step s _ p m m O); try done.
  - exact (frame_shape (frame_alter ∅ p f s Hf)).
  - apply (mo_pos _ _ _ O).
  - apply (mo_size _ _ _ O).
  - intros b i Hb Hbi Hm. exists (f b). split_and!; [by apply alter_bfd_lookup | done | | done].
    rewrite Hw. congruence.
Qed.

Lemma mem_ok_where pos :
  0 <= pos <= m_size m -> mem_ok (alter_bfd (set_where pos) p s) p (mkMfile (m_bytes m) pos (m_writable m)).
Proof using O.
  intros Hp. apply (mem_ok_step s _ p m _ O); try done.
  - exact (frame_shape (frame_alter ∅ p (set_where pos) s (fun _ => eq_refl))).
  - apply (mo_size _ _ _ O).
  - intros b i Hb Hbi Hm. exists (set_where pos b). split_and!; [by apply alter_bfd_lookup | done..].
Qed.

Lemma mem_ok_ext s' :
  c_bfds s' = c_bfds s -> c_memory s' = c_memory s -> c_os s' = c_os s -> mem_ok s' p m.
Proof using O.
  intros Hb Hm Ho. apply (mem_ok_step s _ p m m O); try done; rewrite ?Hb, ?Hm, ?Ho; try done.
  - intros q. by rewrite Hb.
  - apply (mo_pos _ _ _ O).
  - apply (mo_size _ _ _ O).
  - intros b i Hb' Hbi Hm'. exists b. destruct (mo_bfd _ _ _ O) as (b0 & i0 & Hb0 & _ & _ & _ & _ & Hw0 & _).
    split_and!; [done | done | congruence | done].
Qed.
End memory.

(** ** Reading, writing and seeking in a buffer *)

Section buffers.
Context (s : cstate) (p : ptr) (m : mfile).
Hypothesis O : mem_ok s p m.

Lemma mem_ok_buffer i b m' :
  c_bfds s !! p = Some b -> b_iostream b = Some (S_memory i) -> m_pos m' = m_pos m ->
  m_writable m' = m_writable m -> m_pos m <= m_size m' < 2 ^ 62 ->
  mem_ok (set_c_memory (<[i := mkInMemory (m_size m') (padded (m_bytes m') (round_128 (m_size m')))]>
    (c_memory s)) s) p m'.
Proof using O.
  intros Hb Hi Hp Hw Hs. pose proof (mo_pos _ _ _ O).
  apply (mem_ok_step s _ p m m' O); try done; [lia | lia |].
  intros b' i' Hb' Hi' _. exists b'. destruct (mo_bfd _ _ _ O) as (b0 & i0 & Hb0 & _ & _ & _ & _ & Hw0 & _).
  split_and!; [done | done | congruence |]. replace i' with i by congruence. apply lookup_insert_eq.
Qed.

Lemma memory_bread_spec n (Q : Z * list Z -> cstate -> Prop) :
  0 <= n < 2 ^ 62 ->
  (forall s', mem_ok s' p m -> let got := read_at (m_bytes m) (m_pos m) n in
     Q (Z.of_nat (length got), got) s') ->
  runs (memory_bread p n) s Q.
Proof using O.
  intros Hn HQ. destruct (mo_bfd _ _ _ O) as (b & i & Hb & Hv & Hc & Ho & Hi & Hw & Hwr & Hm).
  pose proof (mo_pos _ _ _ O) as Hpos. pose proof (mo_size _ _ _ O) as Hsz.
  pose proof (round_128_bounds (m_size m)) as Hround.
  unfold memory_bread. rstep. rstep; [done|]. rstep. apply (runs_get_memory b i _ _ Hb Hi Hm).
  cbv beta iota zeta. cbn [bim_size bim_buffer]. rewrite Hw, (wrap_small 64 n), wrap_small by (unfold fits; lia). rstep.
  set (got := read_at (m_bytes m) (m_pos m) n).
  assert (Hgot : Z.of_nat (length got) = Z.min n (m_size m - m_pos m)).
  { subst got. unfold read_at. rewrite length_take, length_drop. unfold m_size in *. lia. }
  assert (Hread : forall s', mem_ok s' p m -> forall k, k = Z.of_nat (length got) ->
    runs (bytes ← buffer_read (padded (m_bytes m) (round_128 (m_size m))) (m_pos m) k; ret (s64 k, bytes)) s' Q).
  { intros s' O' k ->. rstep. unfold buffer_read. pose proof (length_padded (m_bytes m) (round_128 (m_size m))).
    destruct (Z.eqb_spec (Z.of_nat (length got)) 0) as [H0|H0].
    - repeat rstep. rewrite sext_small by lia. specialize (HQ s' O'). cbv zeta in HQ. fold got in HQ.
      destruct got; [exact HQ | done].
    - rewrite (proj2 (Z.leb_le _ _)) by (unfold m_size in *; lia). rstep.
      + rewrite Nat2Z.id. unfold padded. rewrite drop_app_le, take_app_le, <- fmap_drop, <- fmap_take;
          [|rewrite ?length_drop, length_fmap; unfold m_size in *; lia..].
        apply mapM_id_some.
      + rstep. rewrite sext_small by lia.
        assert (take (length got) (drop (Z.to_nat (m_pos m)) (m_bytes m)) = got) as ->; [|by apply HQ].
        { symmetry. apply take_length_take. } }
  destruct (Z.ltb_spec (m_size m) (m_pos m + n)).
  - rstep. rstep. rewrite (proj2 (Z.ltb_ge _ _)) by lia. rstep.
    apply Hread; [by apply (mem_ok_ext O) | lia].
  - rstep. apply Hread; [done | lia].
Qed.

Lemma memory_bwrite_spec bs (Q : Z -> cstate -> Prop) :
  m_pos m + Z.of_nat (length bs) < 2 ^ 62 ->
  (forall s', mem_ok s' p (mkMfile (overwrite (m_bytes m) (Z.to_nat (m_pos m)) bs) (m_pos m) (m_writable m)) ->
     Q (Z.of_nat (length bs)) s') ->
  runs (memory_bwrite p bs) s Q.
Proof using O.
  intros Hn HQ. destruct (mo_bfd _ _ _ O) as (b & i & Hb & Hv & Hc & Ho & Hi & Hw & Hwr & Hm).
  pose proof (mo_pos _ _ _ O) as Hpos. pose proof (mo_size _ _ _ O) as Hsz.
  unfold memory_bwrite. rstep. rstep; [done|]. rstep. apply (runs_get_memory b i _ _ Hb Hi Hm).
  cbv beta iota zeta. cbn [bim_size bim_buffer]. rewrite Hw, wrap_small by (unfold fits; lia).
  set (bytes' := overwrite (m_bytes m) (Z.to_nat (m_pos m)) bs) in *.
  set (m' := mkMfile bytes' (m_pos m) (m_writable m)) in *.
  assert (Hlen : m_size m' = Z.max (m_size m) (m_pos m + Z.of_nat (length bs))).
  { unfold m_size, m', bytes' in *. cbn [m_bytes]. rewrite length_overwrite; lia. }
  assert (Hround : m_size m <= round_128 (m_size m)) by (apply round_128_bounds; lia).
  assert (Hround' : m_size m' <= round_128 (m_size m')) by (apply round_128_bounds; lia).
  assert (Hend : forall X, Z.of_nat (length X) = round_128 (m_size m') ->
    take (Z.to_nat (m_pos m)) X = Some <$> take (Z.to_nat (m_pos m)) (m_bytes m) ->
    drop (Z.to_nat (m_pos m) + length bs) X =
      drop (Z.to_nat (m_pos m) + length bs) (padded (m_bytes m) (round_128 (m_size m'))) ->
    runs (buffer ← buffer_write X (m_pos m) (Some <$> bs);
          _ ← set_memory i (mkInMemory (m_size m') buffer); ret (Z.of_nat (length bs))) s Q).
  { intros X HX Ht Hd. rstep. apply runs_buffer_write; [rewrite length_fmap; lia|]. rstep. unfold set_memory.
    rstep. rstep. apply HQ. rewrite length_fmap.
    rewrite (padded_overwrite X (m_bytes m) _ bs (round_128 (m_size m'))) by
      (done || unfold m_size in *; lia).
    apply (mem_ok_buffer i b m'); try done. lia. }
  assert (Hpb : (Z.to_nat (m_pos m) <= length (m_bytes m))%nat) by (unfold m_size in *; lia).
  rstep. destruct (Z.ltb_spec (m_size m) (m_pos m + Z.of_nat (length bs))) as [Hgrow|Hno].
  2: { rstep. cbn [bim_size bim_buffer]. replace (m_size m) with (m_size m') by lia.
       apply Hend; [apply length_padded; unfold m_size in *; lia | by apply take_padded | done]. }
  set (N := m_pos m + Z.of_nat (length bs)) in *.
  assert (HN : m_size m' = N) by lia. rewrite HN in *.
  pose proof (round_128_mono (m_size m) N ltac:(lia) ltac:(lia)) as Hmono.
  destruct (Z.ltb_spec (round_128 (m_size m)) (round_128 N)) as [Hlt|Hge].
  2: { rstep. cbn [bim_size bim_buffer]. assert (round_128 (m_size m) = round_128 N) as -> by lia.
       apply Hend; [apply length_padded; unfold m_size in *; lia | by apply take_padded | done]. }
  unfold realloc_buffer. rstep. rstep. apply runs_answer; [apply (mo_oracle _ _ _ O)|]. rstep.
  pose proof (length_padded (m_bytes m) (round_128 (m_size m)) Hround) as HL.
  pose proof (take_padded (Z.to_nat (m_pos m)) (m_bytes m) (round_128 (m_size m)) Hpb) as HT.
  set (P := padded (m_bytes m) (round_128 (m_size m))) in *.
  assert (HPN : length (P ++ replicate (Z.to_nat (round_128 N) - length P) None) = Z.to_nat (round_128 N))
    by (rewrite length_app, length_replicate; lia).
  assert (HPT : take (Z.to_nat (m_pos m)) (P ++ replicate (Z.to_nat (round_128 N) - length P) None) =
                Some <$> take (Z.to_nat (m_pos m)) (m_bytes m))
    by (rewrite take_app_le; [done | unfold m_size in *; lia]).
  destruct (Z.ltb_spec N (round_128 N)) as [Hlt'|Hge'].
  - rstep. apply runs_buffer_write; [rewrite length_replicate, HPN; lia|]. rstep. cbn [bim_size bim_buffer].
    rewrite length_replicate, (drop_ge _ (Z.to_nat N + _)), app_nil_r by lia.
    apply Hend.
    + rewrite length_app, length_take, length_replicate. lia.
    + rewrite take_app_le, take_take, Nat.min_l by (rewrite ?length_take; lia). done.
    + rewrite drop_padded by (unfold m_size in *; lia).
      replace (Z.to_nat (m_pos m) + length bs)%nat with (length (take (Z.to_nat N)
        (P ++ replicate (Z.to_nat (round_128 N) - length P) None))) by (rewrite length_take; lia).
      rewrite drop_app_length, length_take, HPN. f_equal. lia.
  - rstep. cbn [bim_size bim_buffer]. apply Hend; [lia | done |].
    rewrite !drop_ge; [done| |rewrite HPN; lia].
    pose proof (length_padded (m_bytes m) (round_128 N)). unfold m_size in *. lia.
Qed.

(** The result of a seek to [pos], and the file after it; the position only
    follows a seek that succeeds later, in [bfd_seek]. *)
Definition mem_seek (m : mfile) (pos : Z) : Z * mfile :=
  if pos <? 0 then (-1, mkMfile (m_bytes m) 0 (m_writable m))
  else if m_size m <? pos then
    if m_writable m
    then (0, mkMfile (m_bytes m ++ replicate (Z.to_nat (pos - m_size m)) 0) (m_pos m) (m_writable m))
    else (-1, mkMfile (m_bytes m) (m_size m) (m_writable m))
  else (0, m).

Lemma memory_bseek_spec position dir pos (Q : Z -> cstate -> Prop) :
  match dir with
  | SEEK_SET => pos = position | SEEK_CUR => pos = m_pos m + position | SEEK_END => False end ->
  - 2 ^ 62 <= pos < 2 ^ 62 ->
  (forall s', mem_ok s' p (snd (mem_seek m pos)) -> Q (fst (mem_seek m pos)) s') ->
  runs (memory_bseek p position dir) s Q.
Proof using O.
  intros Hdir Hn HQ. destruct (mo_bfd _ _ _ O) as (b & i & Hb & Hv & Hc & Ho & Hi & Hw & Hwr & Hm).
  pose proof (mo_pos _ _ _ O) as Hpos. pose proof (mo_size _ _ _ O) as Hsz.
  unfold memory_bseek. rstep. rstep; [done|]. rstep. apply (runs_get_memory b i _ _ Hb Hi Hm).
  cbv beta iota zeta. cbn [bim_size bim_buffer].
  assert ((if decide (dir = SEEK_SET) then position else s64 (b_where b + position)) = pos) as ->.
  { rewrite Hw. destruct dir; [done | rewrite decide_False, sext_small; [done|lia..|done] | done]. }
  unfold mem_seek in HQ. destruct (Z.ltb_spec pos 0) as [Hneg|Hnn].
  { rstep. rstep; [done|]. repeat rstep. apply HQ. cbn [snd].
    assert (O' : mem_ok (alter_bfd (set_where 0) p s) p (mkMfile (m_bytes m) 0 (m_writable m)))
      by (apply (mem_ok_where O); lia).
    by apply (mem_ok_ext O'). }
  destruct (Z.ltb_spec (m_size m) pos) as [Hgrow|Hin]; [|rstep; by apply HQ].
  rewrite Hwr. destruct (m_writable m) eqn:Hwm.
  2: { rstep. rstep; [done|]. repeat rstep. apply HQ. cbn [snd].
       assert (O' : mem_ok (alter_bfd (set_where (m_size m)) p s) p (mkMfile (m_bytes m) (m_size m) false))
         by (rewrite <- Hwm; apply (mem_ok_where O); lia).
       by apply (mem_ok_ext O'). }
  set (m' := mkMfile (m_bytes m ++ replicate (Z.to_nat (pos - m_size m)) 0) (m_pos m) true) in *.
  assert (Hm' : m_size m' = pos).
  { change (Z.of_nat (length (m_bytes m ++ replicate (Z.to_nat (pos - m_size m)) 0)) = pos).
    rewrite length_app, length_replicate, Nat2Z.inj_add. fold (m_size m). lia. }
  pose proof (round_128_bounds (m_size m)) as Hround. pose proof (round_128_bounds pos) as Hround'.
  pose proof (round_128_mono (m_size m) pos ltac:(lia) ltac:(lia)) as Hmono.
  assert (Hpad : padded (m_bytes m) (round_128 pos) = padded (m_bytes m') (round_128 (m_size m'))).
  { rewrite Hm'. symmetry. apply padded_zeros. unfold m_size in *. lia. }
  assert (Hend : runs (_ ← set_memory i (mkInMemory pos (padded (m_bytes m) (round_128 pos))); ret 0) s Q).
  { unfold set_memory. rstep. rstep. rstep. apply (HQ _). cbn [snd]. rewrite Hpad, <- Hm'.
    apply (mem_ok_buffer i b m'); try done. lia. }
  destruct (Z.ltb_spec (round_128 (m_size m)) (round_128 pos)) as [Hlt|Hge].
  - unfold realloc_buffer. rstep. rstep. apply runs_answer; [apply (mo_oracle _ _ _ O)|]. rstep.
    pose proof (length_padded (m_bytes m) (round_128 (m_size m))) as HL. unfold m_size in HL at 1 2. rstep.
    apply runs_buffer_write; [rewrite length_app, !length_replicate; lia|].
    rewrite length_replicate, take_app_le, take_ge, drop_ge, app_nil_r
      by (rewrite ?length_app, ?length_replicate; unfold m_size in *; lia).
    rewrite padded_more by (unfold m_size in *; lia). exact Hend.
  - assert (round_128 (m_size m) = round_128 pos) as -> by lia. exact Hend.
Qed.
End buffers.

(** ** The calls *)

Definition m_at (pos : Z) (m : mfile) : mfile := mkMfile (m_bytes m) pos (m_writable m).

Lemma m_at_id m : m_at (m_pos m) m = m.
Proof. by destruct m. Qed.

Section calls.
Context (s : cstate) (p : ptr) (m : mfile).
Hypothesis O : mem_ok s p m.

Lemma mem_bfd_seek position dir pos (Q : Z -> cstate -> Prop) :
  match dir with
  | SEEK_SET => pos = position | SEEK_CUR => pos = m_pos m + position | SEEK_END => False end ->
  - 2 ^ 62 <= pos < 2 ^ 62 ->
  (forall s', mem_ok s' p (let '(r, m1) := mem_seek m pos in if r =? 0 then m_at pos m1 else m1) ->
     Q (fst (mem_seek m pos)) s') ->
  runs (bfd_seek p position dir) s Q.
Proof using O.
  intros Hdir Hn HQ. destruct (mo_bfd _ _ _ O) as (b & i & Hb & Hv & Hc & Ho & Hi & Hw & Hwr & Hm).
  pose proof (mo_pos _ _ _ O) as Hpos. pose proof (mo_size _ _ _ O) as Hsz.
  unfold bfd_seek. rstep. apply (runs_intro _ _ _ _ _ (mem_stream O)). cbv beta iota.
  rstep. rstep; [done|]. rewrite Hv. cbv zeta. rstep. rstep; [by destruct dir|].
  assert (Hp' : (if decide (dir = SEEK_CUR) then position else s64 (position + 0)) = position).
  { destruct dir; [rewrite decide_False, Z.add_0_r, sext_small; [done|lia..|done] | done | done]. }
  rewrite Hp'. match goal with |- runs (if ?c then _ else _) _ _ => destruct c eqn:Hcond end.
  { assert (pos = m_pos m) as Heq.
    { rewrite Hw in Hcond. apply andb_true_iff in Hcond as [[Hd|Hd]%orb_true_iff _];
        apply andb_true_iff in Hd as [Hd Hz]; apply bool_decide_eq_true in Hd as ->; apply Z.eqb_eq in Hz.
      - lia.
      - subst pos. unfold wrap in Hz. Z.to_euclidean_division_equations. lia. }
    rstep. unfold mem_seek in HQ.
    rewrite (proj2 (Z.ltb_ge _ _)), (proj2 (Z.ltb_ge _ _)) in HQ by lia. cbn in HQ. apply HQ.
    by rewrite Heq, m_at_id. }
  rstep. rstep; [done|]. set (s1 := alter_bfd _ p s).
  assert (O1 : mem_ok s1 p m) by (by apply (mem_ok_alter O)).
  rstep. apply (memory_bseek_spec s1 p m O1 position dir pos); [done..|]. intros s2 O2.
  destruct (mem_seek m pos) as [r m1] eqn:Hseek. cbn [fst snd] in *.
  destruct (mo_bfd _ _ _ O2) as (b2 & i2 & Hb2 & _ & _ & _ & _ & Hw2 & _).
  destruct (Z.eqb_spec r 0) as [->|Hr]; cbn [negb].
  - unfold mem_seek in Hseek. destruct (Z.ltb_spec pos 0); [done|].
    assert (Hm1 : m_pos m1 = m_pos m /\ pos <= m_size m1).
    { destruct (Z.ltb_spec (m_size m) pos); [|by simplify_eq].
      destruct (m_writable m); simplify_eq. split; [done|]. unfold m_size at 1. cbn [m_bytes].
      rewrite length_app, length_replicate, Nat2Z.inj_add. fold (m_size m). lia. }
    rstep. rstep; [done|]. rstep.
    assert (Heq : (if decide (dir = SEEK_CUR) then u64 (b_where b2 + position) else u64 position) = pos).
    { rewrite Hw2. destruct Hm1 as [-> _]. destruct dir; [..|done]; simpl; rewrite wrap_small;
        unfold fits; lia. }
    rewrite (alter_bfd_eq _ (set_where pos) _ b2) by (done || by rewrite Heq).
    apply HQ. apply (mem_ok_where O2). lia.
  - repeat rstep. apply HQ. by apply (mem_ok_ext O2).
Qed.
End calls.

Lemma mem_seek_here m : 0 <= m_pos m <= m_size m -> mem_seek m (m_pos m) = (0, m).
Proof. intros H. unfold mem_seek. by rewrite !(proj2 (Z.ltb_ge _ _)) by lia. Qed.

Lemma mem_change_direction s p m before (Q : bool -> cstate -> Prop) :
  mem_ok s p m -> (forall s', mem_ok s' p m -> Q true s') -> runs (change_direction p before) s Q.
Proof.
  intros O HQ. destruct (mo_bfd _ _ _ O) as (b & i & Hb & _).
  pose proof (mo_pos _ _ _ O) as Hpos. pose proof (mo_size _ _ _ O) as Hsz.
  unfold change_direction. rstep. rstep; [done|]. case_decide; [|rstep; by apply HQ].
  rstep. rstep; [done|]. rstep. apply (mem_bfd_seek _ p m) with (pos := m_pos m); [by apply (mem_ok_alter O)|lia..|].
  intros s' O'. rewrite mem_seek_here in O' |- * by done. cbn in O'. rewrite m_at_id in O'. rstep. by apply HQ.
Qed.

Lemma mem_read_spec s p m n (Q : Z * list Z -> cstate -> Prop) :
  mem_ok s p m -> 0 <= n < 2 ^ 62 ->
  (forall s', let got := read_at (m_bytes m) (m_pos m) n in
     mem_ok s' p (m_at (m_pos m + Z.of_nat (length got)) m) -> Q (Z.of_nat (length got), got) s') ->
  runs (bfd_read n p) s Q.
Proof.
  intros O Hn HQ. destruct (mo_bfd _ _ _ O) as (b & i & Hb & Hv & Hc & _).
  pose proof (mo_pos _ _ _ O) as Hpos. pose proof (mo_size _ _ _ O) as Hsz.
  unfold bfd_read. rstep. rstep; [done|]. rstep. apply (runs_intro _ _ _ _ _ Hc). rstep.
  apply (runs_intro _ _ _ _ _ (mem_stream O)). cbv beta iota. rstep. rstep; [done|]. rewrite Hv. rstep.
  apply (mem_change_direction _ _ m); [done|]. intros s1 O1. cbn [negb].
  destruct (mo_bfd _ _ _ O1) as (b1 & i1 & Hb1 & _). rstep. rstep; [done|]. rstep.
  rewrite sext_small by lia. apply (memory_bread_spec _ p m); [by apply (mem_ok_alter O1) | done |].
  intros s2 O2 got. subst got. set (got := read_at _ _ _) in *. cbv beta iota.
  rewrite (proj2 (Z.eqb_neq _ (-1))) by lia. cbn [negb].
  assert (Hgot : m_pos m + Z.of_nat (length got) <= m_size m).
  { subst got. unfold read_at, m_size in *. rewrite length_take, length_drop. lia. }
  destruct (mo_bfd _ _ _ O2) as (b2 & i2 & Hb2 & _ & _ & _ & _ & Hw2 & _). rstep. rstep; [done|]. rstep.
  rewrite (alter_bfd_eq _ (set_where (m_pos m + Z.of_nat (length got))) _ b2)
    by (done || rewrite Hw2, wrap_small by (unfold fits; lia); done).
  rewrite wrap_small by (unfold fits; lia). apply HQ. apply (mem_ok_where O2). lia.
Qed.

Lemma mem_write_spec s p m bs (Q : Z -> cstate -> Prop) :
  mem_ok s p m -> m_pos m + Z.of_nat (length bs) < 2 ^ 62 ->
  (forall s', mem_ok s' p (mkMfile (overwrite (m_bytes m) (Z.to_nat (m_pos m)) bs)
     (m_pos m + Z.of_nat (length bs)) (m_writable m)) -> Q (Z.of_nat (length bs)) s') ->
  runs (bfd_write bs p) s Q.
Proof.
  intros O Hn HQ. destruct (mo_bfd _ _ _ O) as (b & i & Hb & Hv & Hc & _).
  pose proof (mo_pos _ _ _ O) as Hpos. pose proof (mo_size _ _ _ O) as Hsz.
  unfold bfd_write. rstep. apply (runs_intro _ _ _ _ _ (mem_stream O)). cbv beta iota. rstep. rstep; [done|].
  rewrite Hv. rstep. apply (mem_change_direction _ _ m); [done|]. intros s1 O1. cbn [negb].
  destruct (mo_bfd _ _ _ O1) as (b1 & i1 & Hb1 & _). rstep. rstep; [done|]. rstep.
  apply (memory_bwrite_spec _ p m); [by apply (mem_ok_alter O1) | done |]. intros s2 O2. rstep.
  rewrite (proj2 (Z.eqb_neq _ (-1))) by lia. cbn [negb].
  destruct (mo_bfd _ _ _ O2) as (b2 & i2 & Hb2 & _ & _ & _ & _ & Hw2 & _). rstep; [done|].
  rewrite (alter_bfd_eq _ (set_where (m_pos m + Z.of_nat (length bs))) _ b2)
    by (done || rewrite Hw2; cbn [m_pos]; rewrite wrap_small by (unfold fits; lia); done).
  rewrite wrap_small by (unfold fits; lia). rewrite Z.eqb_refl. cbn [negb]. repeat rstep.
  apply HQ. apply (mem_ok_where O2). unfold m_size. cbn [m_bytes].
  rewrite length_overwrite by (unfold m_size in *; lia). lia.
Qed.

Lemma mem_run_call p c s m o m' (Q : outcome -> cstate -> Prop) :
  mem_ok s p m -> mem_call p c m = Some (o, m') -> (forall s', mem_ok s' p m' -> Q o s') ->
  runs (run_call c) s Q.
Proof.
  intros O Hc HQ. pose proof (mo_pos _ _ _ O) as Hpos. pose proof (mo_size _ _ _ O) as Hsz.
  destruct (mo_bfd _ _ _ O) as (b & i & Hb & Hv & Hct & Ho & Hi & Hw & Hwr & Hm).
  destruct c as [q position dir|q n|q bs|q|q|q|q| |q value]; try done;
    cbn [run_call]; rstep; unfold mem_call in Hc.
  - apply bind_Some in Hc as (pos & Hd & Hc).
    destruct (bool_decide (q = p) && mem_small pos) eqn:Hr; [|done]. unfold mem_small in Hr. bool_prop. subst q.
    apply (mem_bfd_seek s p m O position dir pos); [by destruct dir; simplify_eq | lia |].
    intros s' O'. rstep. unfold mem_seek in *.
    destruct (pos <? 0); [simplify_eq; by apply HQ|].
    destruct (m_size m <? pos); [destruct (m_writable m)|]; simplify_eq; by apply HQ.
  - destruct (bool_decide (q = p) && _ && _) eqn:Hr; [|done]. unfold mem_small in Hr. bool_prop. subst q.
    simplify_eq. apply (mem_read_spec s p m n); [done | lia |]. intros s' got O'. rstep. by apply HQ.
  - cbv zeta in Hc. destruct (bool_decide (q = p) && _) eqn:Hr; [|done]. unfold mem_small in Hr.
    bool_prop. subst q. simplify_eq. apply (mem_write_spec s p m bs); [done | lia |].
    intros s' O'. rstep. by apply HQ.
  - case_bool_decide; simplify_eq. unfold bfd_tell. rstep. apply (runs_intro _ _ _ _ _ (mem_stream O)).
    cbv beta iota. rstep. rstep; [done|]. rewrite Hv. rstep. cbn [iovec_btell]. unfold memory_btell.
    rstep. rstep; [done|]. repeat rstep; [done|]. rewrite Hw, (sext_small 64 (m_pos m')) by lia.
    rewrite (alter_bfd_id _ _ b); [|done|].
    + rewrite Z.sub_0_r, sext_small by lia. by apply HQ.
    + rewrite wrap_small by (unfold fits; lia). rewrite <- Hw. by destruct b.
  - case_bool_decide; simplify_eq. unfold bfd_flush. rstep. apply (runs_intro _ _ _ _ _ (mem_stream O)).
    cbv beta iota. rstep. rstep; [done|]. rewrite Hv. cbn [iovec_bflush]. unfold memory_bflush.
    repeat rstep. by apply HQ.
  - case_bool_decide; simplify_eq. unfold bfd_stat. rstep. apply (runs_intro _ _ _ _ _ (mem_stream O)).
    cbv beta iota. rstep. rstep; [done|]. rewrite Hv. rstep. cbn [iovec_bstat]. unfold memory_bstat.
    rstep. apply (runs_get_memory b i _ _ Hb Hi Hm). cbv beta iota. repeat rstep.
    cbn [Z.ltb Z.compare]. repeat rstep. by apply HQ.
Qed.

Lemma mem_run_calls p cs : forall s m os m' (Q : list outcome -> cstate -> Prop),
  mem_ok s p m -> mem_calls p cs m = Some (os, m') -> (forall s', mem_ok s' p m' -> Q os s') ->
  runs (run_calls cs) s Q.
Proof.
  induction cs as [|c cs IH]; intros s m os m' Q O Hc HQ; cbn [run_calls mem_calls] in *.
  - simplify_eq. rstep. by apply HQ.
  - apply bind_Some in Hc as ([o m1] & Ho & ([os1 m2] & Hos & [= <- <-])%bind_Some).
    rstep. apply (mem_run_call p c s m o m1); [done..|]. intros s1 O1. rstep.
    apply (IH s1 m1 os1 m2); [done..|]. intros s2 O2. rstep. by apply HQ.
Qed.

Lemma make_writable_ok s p b (Q : bool -> cstate -> Prop) :
  c_bfds s !! p = Some b -> b_direction b = no_direction -> b_my_archive b = None ->
  os_oracle (c_os s) = [] ->
  (forall s', mem_ok s' p (mkMfile [] 0 true) -> Q true s') ->
  runs (bfd_make_writable p) s Q.
Proof.
  intros Hb Hd Ha Ho HQ. unfold bfd_make_writable. rstep. rstep; [done|]. rewrite Hd. rstep.
  apply runs_answer; [done|]. cbn [negb]. unfold set_memory. repeat rstep; [done|]. apply HQ.
  set (i := fresh _). split; [|done|done|done].
  exists (make_memory i b), i. split_and!; try done.
  - by apply alter_bfd_lookup.
  - unfold containing. cbn [make_memory b_my_archive]. by rewrite Ha.
  - simpl. by rewrite lookup_insert_eq.
Qed.

(** C30: A file in memory is a file, while memory lasts: after bfd_make_writable
    on a BFD without a file, any sequence of seeks, reads, writes, tells, flushes
    and stats below 2^62 runs within the buffer and gives the results of an array
    of bytes that writes and seeks extend, seeks with zeros. *)
Theorem memory_file_correct s p b cs os m' :
  c_bfds s !! p = Some b -> b_direction b = no_direction -> b_my_archive b = None ->
  os_oracle (c_os s) = [] -> mem_calls p cs (mkMfile [] 0 true) = Some (os, m') ->
  exists s1 s2, bfd_make_writable p s = Some (true, s1) /\ run_calls cs s1 = Some (os, s2) /\
    exists i k, (b_iostream <$> c_bfds s2 !! p) = Some (Some (S_memory i)) /\
      c_memory s2 !! i = Some (mkInMemory (m_size m') ((Some <$> m_bytes m') ++ replicate k (Some 0))).
Proof.
  intros Hb Hd Ha Ho Hcs.
  destruct (make_writable_ok s p b (fun r s1 => r = true /\ mem_ok s1 p (mkMfile [] 0 true)) Hb Hd Ha Ho)
    as (r & s1 & Hmk & -> & O1); [done|].
  destruct (mem_run_calls p cs s1 _ os m' (fun o s2 => o = os /\ mem_ok s2 p m') O1 Hcs)
    as (o & s2 & Hrun & -> & O2); [done|].
  exists s1, s2. split; [done|]. split; [done|].
  destruct (mo_bfd _ _ _ O2) as (b2 & i & Hb2 & _ & _ & _ & Hi & _ & _ & Hm).
  eexists i, _. split; [by rewrite Hb2; simpl; rewrite Hi | exact Hm].
Qed.

Definition memory_state : cstate :=
  mkCstate {[ 0%nat := mkBfd "m" None None None None 0 false false no_direction bfd_io_seek false false false
    false 0 None None 0 ]} None 0 0 ∅ (mkOs ∅ ∅ 0 ∅ 0 0 [] [] []) bfd_error_no_error E_NONE 0 [].

Definition memory_calls : list call :=
  [Write 0 [1; 2; 3]; Seek 0 200 SEEK_SET; Write 0 [4]; Seek 0 2 SEEK_SET; Read 0 3; Seek 0 (-9) SEEK_CUR;
   Tell 0; Seek 0 199 SEEK_SET; Read 0 5; Stat 0].

Lemma memory_file_correct_witness :
  exists s1 s2, bfd_make_writable 0 memory_state = Some (true, s1) /\
    run_calls memory_calls s1 = Some ([R_status 3; R_status 0; R_status 1; R_status 0; R_read 3 [3; 0; 0];
      R_status (-1); R_status 0; R_status 0; R_read 2 [0; 4]; R_stat 0 201], s2) /\
    exists i k, (b_iostream <$> c_bfds s2 !! 0%nat) = Some (Some (S_memory i)) /\
      c_memory s2 !! i = Some (mkInMemory 201 ((Some <$> ([1; 2; 3] ++ replicate 197 0 ++ [4])) ++
        replicate k (Some 0))).
Proof.
  eapply (memory_file_correct memory_state 0 _ memory_calls _
    (mkMfile ([1; 2; 3] ++ replicate 197 0 ++ [4]) 201 true)); vm_compute; reflexivity.
Defined.
