(* ===== verification/StateRes.v ===== *)
(** A state monad for code whose loops need fuel: a run times out, is
    undefined ([abort], a read through a null pointer), or is done with a result
    and a state; and the rules for running such code with a postcondition. *)

From S2P Require Import Prelude.

Inductive res (A : Type) : Type :=
| Timeout
| Undef
| Done (a : A).
Arguments Timeout {A}.
Arguments Undef {A}.
Arguments Done {A} a.

Definition M (S A : Type) : Type := S -> res (A * S).

Section monad.
Context {S A : Type}.

Definition ret (a : A) : M S A := fun s => Done (a, s).
Definition undefined : M S A := fun _ => Undef.
Definition timeout : M S A := fun _ => Timeout.
Definition the (o : option A) : M S A := match o with Some a => ret a | None => undefined end.
Definition gets (f : S -> A) : M S A := fun s => Done (f s, s).
Definition modify (f : S -> S) : M S unit := fun s => Done (tt, f s).
End monad.

#[export] Instance M_bind {S} : MBind (M S) := fun A B f m s =>
  match m s with Done (a, s') => f a s' | Undef => Undef | Timeout => Timeout end.

(** The code [m] on a part of the state. *)
Definition zoom {S T A} (get : S -> T) (set : T -> S -> S) (m : M T A) : M S A := fun s =>
  match m (get s) with
  | Done (a, t) => Done (a, set t s)
  | Undef => Undef
  | Timeout => Timeout
  end.

(** ** Runs with a postcondition *)

Definition runs {S A} (m : M S A) (s : S) (Q : A -> S -> Prop) : Prop :=
  exists a s', m s = Done (a, s') /\ Q a s'.

Section rules.
Context {S A B : Type}.

Lemma run_ret (a : A) (s : S) Q : Q a s -> runs (ret a) s Q.
Proof. intros H. exists a, s. done. Qed.

Lemma run_bind (m : M S B) (f : B -> M S A) s Q :
  runs m s (fun b s' => runs (f b) s' Q) -> runs (m ≫= f) s Q.
Proof.
  intros (b & s' & Hm & a & s'' & Hf & HQ). exists a, s''.
  split; [|done]. unfold mbind, M_bind. by rewrite Hm.
Qed.

Lemma run_bind_inv (m : M S B) (f : B -> M S A) s Q :
  runs (m ≫= f) s Q -> runs m s (fun b s' => runs (f b) s' Q).
Proof.
  intros (a & s'' & H & HQ). unfold mbind, M_bind in H. destruct (m s) as [| |[b s']] eqn:E; [done..|].
  exists b, s'. split; [done|]. by exists a, s''.
Qed.

Lemma run_mono (m : M S A) s (P Q : A -> S -> Prop) :
  runs m s P -> (forall a s', P a s' -> Q a s') -> runs m s Q.
Proof. intros (a & s' & Hm & HP) HPQ. exists a, s'. auto. Qed.

Lemma run_gets (f : S -> A) s Q : Q (f s) s -> runs (gets f) s Q.
Proof. intros H. by exists (f s), s. Qed.

Lemma run_modify (f : S -> S) s Q : Q tt (f s) -> runs (modify f) s Q.
Proof. intros H. by exists tt, (f s). Qed.

Lemma run_the (o : option A) (a : A) (s : S) Q : o = Some a -> Q a s -> runs (the o) s Q.
Proof. intros -> H. by apply run_ret. Qed.

Lemma run_done (m : M S A) s a s' Q : m s = Done (a, s') -> runs m s Q -> Q a s'.
Proof. intros Hm (a' & s'' & Hm' & HQ). rewrite Hm in Hm'. by injection Hm' as -> ->. Qed.

Lemma run_zoom {T} (get : S -> T) set (m : M T A) s Q :
  runs m (get s) (fun a t => Q a (set t s)) -> runs (zoom get set m) s Q.
Proof. intros (a & t & Hm & HQ). exists a, (set t s). split; [|done]. unfold zoom. by rewrite Hm. Qed.

(** The first two steps of a sequence as one. *)
Lemma run_then {C} (m : M S B) (n : M S C) (k : M S A) s Q :
  runs (_ ← m; n) s (fun _ s' => runs k s' Q) -> runs (_ ← m; _ ← n; k) s Q.
Proof.
  intros (c & s' & H & a & s'' & Hk & HQ). exists a, s''. split; [|done].
  unfold mbind, M_bind in *. destruct (m s) as [| |[b s1]]; [done..|].
  destruct (n s1) as [| |[c' s2]]; [done..|]. by injection H as _ ->.
Qed.

Lemma run_assoc {C} (m : M S B) (f : B -> M S C) (g : C -> M S A) s Q :
  runs ((m ≫= f) ≫= g) s Q -> runs (m ≫= fun b => f b ≫= g) s Q.
Proof.
  intros (a & s' & H & HQ). exists a, s'. split; [|done]. rewrite <- H. unfold mbind, M_bind.
  by destruct (m s) as [| |[b s1]].
Qed.

Lemma bind_timeout (m : M S B) (f : B -> M S A) s : m s = Timeout -> (m ≫= f) s = Timeout.
Proof. intros H. unfold mbind, M_bind. by rewrite H. Qed.

Lemma bind_done (m : M S B) (f : B -> M S A) s b s' : m s = Done (b, s') -> (m ≫= f) s = f b s'.
Proof. intros H. unfold mbind, M_bind. by rewrite H. Qed.
End rules.

(** One step of symbolic execution. *)
Ltac rstep := lazymatch goal with
  | |- runs (ret _) _ _ => apply run_ret
  | |- runs (_ ≫= _) _ _ => apply run_bind
  | |- runs (gets _) _ _ => apply run_gets
  | |- runs (modify _) _ _ => apply run_modify
  | |- runs (the _) _ _ => eapply run_the
  | |- runs (zoom _ _ _) _ _ => apply run_zoom
  end; cbn beta.
