(* ===== verification/BfdSection.v ===== *)
(** Sections of BFDs: section.c's creation and search of sections, and the
    operations of bfd.h on a BFD's list of sections.

    A section is one of the four standard ones or an entry of the section hash
    table of its BFD ([Own abfd p]).  The target's hook for new sections and the
    user's lock functions are answers from [ss_oracle] (an exhausted list answers
    yes); what a hook adds to a section is not modelled.  [ss_locked] counts the
    locks that are held. *)

From S2P Require Import Prelude HashTable HashTableSpec StateRes.

(** The bytes of a string literal. *)
Definition c_str (s : string) : cstring := (fun c => Z.of_N (Ascii.N_of_ascii c)) <$> String.list_ascii_of_string s.

Inductive bfd_error :=
| bfd_error_invalid_operation
| bfd_error_wrong_format
| bfd_error_no_armap.
#[export] Instance bfd_error_eq_dec : EqDecision bfd_error.
Proof. solve_decision. Defined.

(** [asection *]: an index into [_bfd_std_section], or an entry of a BFD's
    table. *)
Inductive asec :=
| Std (i : nat)
| Own (abfd p : ptr).
#[export] Instance asec_eq_dec : EqDecision asec.
Proof. solve_decision. Defined.

Record asection := mkAsection {
  s_name : option cstring;
  s_id : Z;
  s_index : Z;
  s_owner : option ptr;
  s_next : option asec;
  s_prev : option asec;
  s_flags : Z;
  s_size : Z;
  s_vma : Z;
  s_alignment_power : Z;
  s_output_section : option asec
}.

Definition set_s_name (v : option cstring) (x : asection) : asection :=
  mkAsection v (s_id x) (s_index x) (s_owner x) (s_next x) (s_prev x) (s_flags x) (s_size x) (s_vma x)
    (s_alignment_power x) (s_output_section x).
Definition set_s_id (v : Z) (x : asection) : asection :=
  mkAsection (s_name x) v (s_index x) (s_owner x) (s_next x) (s_prev x) (s_flags x) (s_size x)
    (s_vma x) (s_alignment_power x) (s_output_section x).
Definition set_s_index (v : Z) (x : asection) : asection :=
  mkAsection (s_name x) (s_id x) v (s_owner x) (s_next x) (s_prev x) (s_flags x) (s_size x) (s_vma x)
    (s_alignment_power x) (s_output_section x).
Definition set_s_owner (v : option ptr) (x : asection) : asection :=
  mkAsection (s_name x) (s_id x) (s_index x) v (s_next x) (s_prev x) (s_flags x) (s_size x) (s_vma x)
    (s_alignment_power x) (s_output_section x).
Definition set_s_next (v : option asec) (x : asection) : asection :=
  mkAsection (s_name x) (s_id x) (s_index x) (s_owner x) v (s_prev x) (s_flags x) (s_size x) (s_vma x)
    (s_alignment_power x) (s_output_section x).
Definition set_s_prev (v : option asec) (x : asection) : asection :=
  mkAsection (s_name x) (s_id x) (s_index x) (s_owner x) (s_next x) v (s_flags x) (s_size x) (s_vma x)
    (s_alignment_power x) (s_output_section x).
Definition set_s_flags (v : Z) (x : asection) : asection :=
  mkAsection (s_name x) (s_id x) (s_index x) (s_owner x) (s_next x) (s_prev x) v (s_size x) (s_vma x)
    (s_alignment_power x) (s_output_section x).
Definition set_s_size (v : Z) (x : asection) : asection :=
  mkAsection (s_name x) (s_id x) (s_index x) (s_owner x) (s_next x) (s_prev x) (s_flags x) v (s_vma x)
    (s_alignment_power x) (s_output_section x).
Definition set_s_vma (v : Z) (x : asection) : asection :=
  mkAsection (s_name x) (s_id x) (s_index x) (s_owner x) (s_next x) (s_prev x) (s_flags x) (s_size x) v
    (s_alignment_power x) (s_output_section x).
Definition set_s_alignment_power (v : Z) (x : asection) : asection :=
  mkAsection (s_name x) (s_id x) (s_index x) (s_owner x) (s_next x) (s_prev x) (s_flags x) (s_size x)
    (s_vma x) v (s_output_section x).
Definition set_s_output_section (v : option asec) (x : asection) : asection :=
  mkAsection (s_name x) (s_id x) (s_index x) (s_owner x) (s_next x) (s_prev x) (s_flags x) (s_size x)
    (s_vma x) (s_alignment_power x) v.

(** [memset (&entry->section, 0, sizeof (asection))] *)
Definition section_zero : asection := mkAsection None 0 0 None None None 0 0 0 0 None.

Record bfd := mkBfd {
  b_section_htab : hash_table asection;
  b_sections : option asec;
  b_section_last : option asec;
  b_section_count : Z;
  b_output_has_begun : bool;
  b_link_next : option ptr
}.

Definition set_b_section_htab (v : hash_table asection) (x : bfd) : bfd :=
  mkBfd v (b_sections x) (b_section_last x) (b_section_count x) (b_output_has_begun x) (b_link_next x).
Definition set_b_sections (v : option asec) (x : bfd) : bfd :=
  mkBfd (b_section_htab x) v (b_section_last x) (b_section_count x) (b_output_has_begun x)
    (b_link_next x).
Definition set_b_section_last (v : option asec) (x : bfd) : bfd :=
  mkBfd (b_section_htab x) (b_sections x) v (b_section_count x) (b_output_has_begun x) (b_link_next x).
Definition set_b_section_count (v : Z) (x : bfd) : bfd :=
  mkBfd (b_section_htab x) (b_sections x) (b_section_last x) v (b_output_has_begun x) (b_link_next x).
Definition set_b_output_has_begun (v : bool) (x : bfd) : bfd :=
  mkBfd (b_section_htab x) (b_sections x) (b_section_last x) (b_section_count x) v (b_link_next x).
Definition set_b_link_next (v : option ptr) (x : bfd) : bfd :=
  mkBfd (b_section_htab x) (b_sections x) (b_section_last x) (b_section_count x)
    (b_output_has_begun x) v.

Record sstate := mkSstate {
  ss_bfds : gmap ptr bfd;
  ss_std : list asection;
  ss_section_id : Z;
  ss_locked : Z;
  ss_oracle : list bool;
  ss_error : option bfd_error
}.

Definition set_ss_bfds (v : gmap ptr bfd) (x : sstate) : sstate :=
  mkSstate v (ss_std x) (ss_section_id x) (ss_locked x) (ss_oracle x) (ss_error x).
Definition set_ss_std (v : list asection) (x : sstate) : sstate :=
  mkSstate (ss_bfds x) v (ss_section_id x) (ss_locked x) (ss_oracle x) (ss_error x).
Definition set_ss_section_id (v : Z) (x : sstate) : sstate :=
  mkSstate (ss_bfds x) (ss_std x) v (ss_locked x) (ss_oracle x) (ss_error x).
Definition set_ss_locked (v : Z) (x : sstate) : sstate :=
  mkSstate (ss_bfds x) (ss_std x) (ss_section_id x) v (ss_oracle x) (ss_error x).
Definition set_ss_oracle (v : list bool) (x : sstate) : sstate :=
  mkSstate (ss_bfds x) (ss_std x) (ss_section_id x) (ss_locked x) v (ss_error x).
Definition set_ss_error (v : option bfd_error) (x : sstate) : sstate :=
  mkSstate (ss_bfds x) (ss_std x) (ss_section_id x) (ss_locked x) (ss_oracle x) v.

Abbreviation SM := (M sstate).

(** ** Access to the heap *)

Definition get_bfd (abfd : ptr) : SM bfd := o ← gets (fun s => ss_bfds s !! abfd); the o.
Definition set_bfd (abfd : ptr) (f : bfd -> bfd) : SM unit :=
  b ← get_bfd abfd; modify (fun s => set_ss_bfds (<[abfd := f b]> (ss_bfds s)) s).

Definition get_sec (sec : asec) : SM asection :=
  match sec with
  | Std i => o ← gets (fun s => ss_std s !! i); the o
  | Own abfd p =>
      b ← get_bfd abfd;
      e ← the (ht_heap (b_section_htab b) !! p);
      ret (he_data e)
  end.

Definition set_sec (sec : asec) (f : asection -> asection) : SM unit :=
  d ← get_sec sec;
  match sec with
  | Std i => modify (fun s => set_ss_std (<[i := f d]> (ss_std s)) s)
  | Own abfd p =>
      b ← get_bfd abfd;
      t ← the (store_data p (f d) (b_section_htab b));
      set_bfd abfd (set_b_section_htab t)
  end.

Definition answer : SM bool := fun s =>
  match ss_oracle s with
  | [] => Done (true, s)
  | ok :: rest => Done (ok, set_ss_oracle rest s)
  end.

Definition bfd_set_error (e : bfd_error) : SM unit := modify (set_ss_error (Some e)).

Definition bfd_lock : SM bool :=
  ok ← answer;
  _ ← (if (ok : bool) then modify (fun s => set_ss_locked (ss_locked s + 1) s) else ret tt);
  ret ok.
Definition bfd_unlock : SM bool :=
  ok ← answer;
  _ ← (if (ok : bool) then modify (fun s => set_ss_locked (ss_locked s - 1) s) else ret tt);
  ret ok.

(** ** The standard sections *)

Definition SEC_ALLOC : Z := 0x1.
Definition SEC_IS_COMMON : Z := 0x1000.
Definition SEC_LINKER_CREATED : Z := 0x100000.

Definition bfd_com_section_ptr : asec := Std 0.
Definition bfd_und_section_ptr : asec := Std 1.
Definition bfd_abs_section_ptr : asec := Std 2.
Definition bfd_ind_section_ptr : asec := Std 3.

Definition bfd_is_und_section (sec : asec) : bool := bool_decide (sec = bfd_und_section_ptr).
Definition bfd_is_abs_section (sec : asec) : bool := bool_decide (sec = bfd_abs_section_ptr).
Definition bfd_is_ind_section (sec : asec) : bool := bool_decide (sec = bfd_ind_section_ptr).
Definition bfd_is_com_section (sec : asec) : SM bool :=
  d ← get_sec sec; ret (negb (s_flags d .& SEC_IS_COMMON =? 0)).

Definition BFD_ABS_SECTION_NAME : cstring := c_str "*ABS*".
Definition BFD_UND_SECTION_NAME : cstring := c_str "*UND*".
Definition BFD_COM_SECTION_NAME : cstring := c_str "*COM*".
Definition BFD_IND_SECTION_NAME : cstring := c_str "*IND*".

Definition STD_SECTION (name : cstring) (idx : nat) (flags : Z) : asection :=
  mkAsection (Some name) (Z.of_nat idx) 0 None None None flags 0 0 0 (Some (Std idx)).

Definition bfd_std_section : list asection :=
  [STD_SECTION BFD_COM_SECTION_NAME 0 SEC_IS_COMMON; STD_SECTION BFD_UND_SECTION_NAME 1 0;
   STD_SECTION BFD_ABS_SECTION_NAME 2 0; STD_SECTION BFD_IND_SECTION_NAME 3 0].

(** ** The list of a BFD's sections *)

Definition bfd_section_list_remove (abfd : ptr) (s : asec) : SM unit :=
  d ← get_sec s;
  let next := s_next d in
  let prev := s_prev d in
  _ ← match prev with
      | Some p => set_sec p (set_s_next next)
      | None => set_bfd abfd (set_b_sections next)
      end;
  match next with
  | Some n => set_sec n (set_s_prev prev)
  | None => set_bfd abfd (set_b_section_last prev)
  end.

Definition bfd_section_list_append (abfd : ptr) (s : asec) : SM unit :=
  _ ← set_sec s (set_s_next None);
  b ← get_bfd abfd;
  _ ← match b_section_last b with
      | Some l => _ ← set_sec s (set_s_prev (Some l)); set_sec l (set_s_next (Some s))
      | None => _ ← set_sec s (set_s_prev None); set_bfd abfd (set_b_sections (Some s))
      end;
  set_bfd abfd (set_b_section_last (Some s)).

Definition bfd_section_list_prepend (abfd : ptr) (s : asec) : SM unit :=
  _ ← set_sec s (set_s_prev None);
  b ← get_bfd abfd;
  _ ← match b_sections b with
      | Some f => _ ← set_sec s (set_s_next (Some f)); set_sec f (set_s_prev (Some s))
      | None => _ ← set_sec s (set_s_next None); set_bfd abfd (set_b_section_last (Some s))
      end;
  set_bfd abfd (set_b_sections (Some s)).

Definition bfd_section_list_insert_after (abfd : ptr) (a s : asec) : SM unit :=
  d ← get_sec a;
  let next := s_next d in
  _ ← set_sec s (set_s_next next);
  _ ← set_sec s (set_s_prev (Some a));
  _ ← set_sec a (set_s_next (Some s));
  match next with
  | Some n => set_sec n (set_s_prev (Some s))
  | None => set_bfd abfd (set_b_section_last (Some s))
  end.

Definition bfd_section_list_insert_before (abfd : ptr) (b s : asec) : SM unit :=
  d ← get_sec b;
  let prev := s_prev d in
  _ ← set_sec s (set_s_prev prev);
  _ ← set_sec s (set_s_next (Some b));
  _ ← set_sec b (set_s_prev (Some s));
  match prev with
  | Some p => set_sec p (set_s_next (Some s))
  | None => set_bfd abfd (set_b_sections (Some s))
  end.

Definition bfd_section_removed_from_list (abfd : ptr) (s : asec) : SM bool :=
  d ← get_sec s;
  match s_next d with
  | Some n => dn ← get_sec n; ret (negb (bool_decide (s_prev dn = Some s)))
  | None => b ← get_bfd abfd; ret (negb (bool_decide (b_section_last b = Some s)))
  end.

Definition bfd_section_list_clear (abfd : ptr) : SM unit :=
  set_bfd abfd (fun b =>
    let t := b_section_htab b in
    mkBfd (set_count 0 (set_table (replicate (Z.to_nat (ht_size t)) None) t)) None None 0
      (b_output_has_begun b) (b_link_next b)).

(** ** Search by name *)

Definition section_hash_lookup (abfd : ptr) (name : cstring) (create copy : bool) : SM (option ptr) :=
  b ← get_bfd abfd;
  '(r, t) ← the (bfd_hash_lookup section_zero (b_section_htab b) name create copy);
  _ ← set_bfd abfd (set_b_section_htab t);
  ret r.

Definition bfd_get_section_by_name (abfd : ptr) (name : option cstring) : SM (option asec) :=
  match name with
  | None => ret None
  | Some name => sh ← section_hash_lookup abfd name false false; ret (Own abfd <$> sh)
  end.

(** The entries after [sh] in its chain, until one answers yes. *)
Fixpoint next_in_chain (fuel : nat) (abfd : ptr) (sh : option ptr) (hash : Z) (name : cstring)
    (operation : asec -> SM bool) : SM (option asec) :=
  match fuel with
  | O => timeout
  | S fuel =>
      match sh with
      | None => ret None
      | Some p =>
          b ← get_bfd abfd;
          e ← the (ht_heap (b_section_htab b) !! p);
          ok ← (if (he_hash e =? hash) && bool_decide (he_string e = name)
                then operation (Own abfd p) else ret false);
          if (ok : bool) then ret (Some (Own abfd p))
          else next_in_chain fuel abfd (he_next e) hash name operation
      end
  end.

(** [while ((ibfd = ibfd->link.next) != NULL)] *)
Fixpoint in_following_bfds (fuel : nat) (ibfd : ptr) (name : cstring) : SM (option asec) :=
  match fuel with
  | O => timeout
  | S fuel =>
      b ← get_bfd ibfd;
      match b_link_next b with
      | None => ret None
      | Some next =>
          s ← bfd_get_section_by_name next (Some name);
          match s with Some s => ret (Some s) | None => in_following_bfds fuel next name end
      end
  end.

(** Called on sections of a table only ([sec] is cast to its entry). *)
Definition bfd_get_next_section_by_name (fuel : nat) (ibfd : option ptr) (sec : asec) : SM (option asec) :=
  match sec with
  | Std _ => undefined
  | Own abfd p =>
      b ← get_bfd abfd;
      e ← the (ht_heap (b_section_htab b) !! p);
      name ← the (s_name (he_data e));
      r ← next_in_chain fuel abfd (he_next e) (he_hash e) name (fun _ => ret true);
      match r with
      | Some s => ret (Some s)
      | None => match ibfd with Some ibfd => in_following_bfds fuel ibfd name | None => ret None end
      end
  end.

Fixpoint linker_section_loop (fuel bound : nat) (sec : option asec) : SM (option asec) :=
  match fuel with
  | O => timeout
  | S fuel =>
      match sec with
      | None => ret None
      | Some sec =>
          d ← get_sec sec;
          if s_flags d .& SEC_LINKER_CREATED =? 0 then
            sec ← bfd_get_next_section_by_name bound None sec; linker_section_loop fuel bound sec
          else ret (Some sec)
      end
  end.

Definition bfd_get_linker_section (fuel : nat) (abfd : ptr) (name : cstring) : SM (option asec) :=
  sec ← bfd_get_section_by_name abfd (Some name); linker_section_loop fuel fuel sec.

Definition bfd_get_section_by_name_if (fuel : nat) (abfd : ptr) (name : option cstring)
    (operation : asec -> SM bool) : SM (option asec) :=
  match name with
  | None => ret None
  | Some name =>
      sh ← section_hash_lookup abfd name false false;
      match sh with
      | None => ret None
      | Some p =>
          b ← get_bfd abfd;
          e ← the (ht_heap (b_section_htab b) !! p);
          next_in_chain fuel abfd (Some p) (he_hash e) name operation
      end
  end.

(** ** Making sections *)

(** [_bfd_generic_new_section_hook] and the targets' own: they succeed or not. *)
Definition new_section_hook : SM bool := answer.

Definition bfd_section_init (abfd : ptr) (newsect : asec) : SM (option asec) :=
  ok ← bfd_lock;
  if negb ok then ret None
  else
    id ← gets ss_section_id;
    b ← get_bfd abfd;
    _ ← set_sec newsect (set_s_id id);
    _ ← set_sec newsect (set_s_index (b_section_count b));
    _ ← set_sec newsect (set_s_owner (Some abfd));
    ok ← new_section_hook;
    if negb ok then ret None
    else
      _ ← modify (set_ss_section_id (u32 (id + 1)));
      _ ← set_bfd abfd (set_b_section_count (u32 (b_section_count b + 1)));
      _ ← bfd_section_list_append abfd newsect;
      ok ← bfd_unlock;
      ret (if (ok : bool) then Some newsect else None).

Definition standard_section (name : cstring) : option asec :=
  if bool_decide (name = BFD_ABS_SECTION_NAME) then Some bfd_abs_section_ptr
  else if bool_decide (name = BFD_COM_SECTION_NAME) then Some bfd_com_section_ptr
  else if bool_decide (name = BFD_UND_SECTION_NAME) then Some bfd_und_section_ptr
  else if bool_decide (name = BFD_IND_SECTION_NAME) then Some bfd_ind_section_ptr
  else None.

Definition bfd_make_section_old_way (abfd : ptr) (name : cstring) : SM (option asec) :=
  b ← get_bfd abfd;
  if b_output_has_begun b then _ ← bfd_set_error bfd_error_invalid_operation; ret None
  else
    match standard_section name with
    | Some newsect => ret (Some newsect)
    | None =>
        sh ← section_hash_lookup abfd name true false;
        match sh with
        | None => ret None
        | Some p =>
            let newsect := Own abfd p in
            d ← get_sec newsect;
            match s_name d with
            | Some _ => ret (Some newsect)
            | None => _ ← set_sec newsect (set_s_name (Some name)); bfd_section_init abfd newsect
            end
        end
    end.

(** [new_sh->root = sh->root; sh->root.next = &new_sh->root;] *)
Definition link_after (p q : ptr) (t : hash_table asection) : option (hash_table asection) :=
  e ← ht_heap t !! p;
  n ← ht_heap t !! q;
  let h := <[q := mkHashEntry (he_next e) (he_string e) (he_hash e) (he_data n)]> (ht_heap t) in
  Some (set_heap (<[p := set_next (Some q) e]> h) t).

Definition bfd_make_section_anyway_with_flags (abfd : ptr) (name : cstring) (flags : Z) : SM (option asec) :=
  b ← get_bfd abfd;
  if b_output_has_begun b then _ ← bfd_set_error bfd_error_invalid_operation; ret None
  else
    sh ← section_hash_lookup abfd name true false;
    match sh with
    | None => ret None
    | Some p =>
        d ← get_sec (Own abfd p);
        r ← match s_name d with
            | None => ret (Some p)
            | Some _ =>
                b ← get_bfd abfd;
                let '(new_sh, t) := bfd_hash_newfunc section_zero (b_section_htab b) in
                _ ← set_bfd abfd (set_b_section_htab t);
                match new_sh with
                | None => ret None
                | Some q =>
                    t ← the (link_after p q t);
                    _ ← set_bfd abfd (set_b_section_htab t);
                    ret (Some q)
                end
            end;
        match r with
        | None => ret None
        | Some q =>
            let newsect := Own abfd q in
            _ ← set_sec newsect (set_s_flags flags);
            _ ← set_sec newsect (set_s_name (Some name));
            bfd_section_init abfd newsect
        end
    end.

Definition bfd_make_section_anyway (abfd : ptr) (name : cstring) : SM (option asec) :=
  bfd_make_section_anyway_with_flags abfd name 0.

Definition bfd_make_section_with_flags (abfd : option ptr) (name : option cstring) (flags : Z)
    : SM (option asec) :=
  match abfd, name with
  | Some abfd, Some name =>
      b ← get_bfd abfd;
      if b_output_has_begun b then _ ← bfd_set_error bfd_error_invalid_operation; ret None
      else
        match standard_section name with
        | Some _ => ret None
        | None =>
            sh ← section_hash_lookup abfd name true false;
            match sh with
            | None => ret None
            | Some p =>
                let newsect := Own abfd p in
                d ← get_sec newsect;
                match s_name d with
                | Some _ => ret None
                | None =>
                    _ ← set_sec newsect (set_s_name (Some name));
                    _ ← set_sec newsect (set_s_flags flags);
                    bfd_section_init abfd newsect
                end
            end
        end
  | _, _ => _ ← bfd_set_error bfd_error_invalid_operation; ret None
  end.

Definition bfd_make_section (abfd : option ptr) (name : option cstring) : SM (option asec) :=
  bfd_make_section_with_flags abfd name 0.

(** ** Fields of sections *)

Definition bfd_set_section_flags (section : asec) (flags : Z) : SM bool :=
  _ ← set_sec section (set_s_flags flags); ret true.

Definition bfd_rename_section (sec : asec) (newname : cstring) : SM unit :=
  match sec with
  | Std _ => undefined
  | Own _ p =>
      _ ← set_sec sec (set_s_name (Some newname));
      d ← get_sec sec;
      owner ← the (s_owner d);
      b ← get_bfd owner;
      t ← the (bfd_hash_rename (b_section_htab b) newname p);
      set_bfd owner (set_b_section_htab t)
  end.

Definition bfd_set_section_size (sec : asec) (val : Z) : SM bool :=
  d ← get_sec sec;
  match s_owner d with
  | None => _ ← bfd_set_error bfd_error_invalid_operation; ret false
  | Some owner =>
      b ← get_bfd owner;
      if b_output_has_begun b then _ ← bfd_set_error bfd_error_invalid_operation; ret false
      else _ ← set_sec sec (set_s_size val); ret true
  end.

Definition bfd_set_section_alignment (sec : asec) (val : Z) : SM bool :=
  if 8 * 8 - 1 <=? val then ret false
  else _ ← set_sec sec (set_s_alignment_power val); ret true.

(** ** Loops over the sections of a BFD *)

Fixpoint map_loop {A} (fuel : nat) (sect : option asec) (operation : asec -> A -> SM A) (i : Z) (a : A)
    : SM (Z * A) :=
  match fuel with
  | O => timeout
  | S fuel =>
      match sect with
      | None => ret (i, a)
      | Some sec =>
          a ← operation sec a;
          d ← get_sec sec;
          map_loop fuel (s_next d) operation (u32 (i + 1)) a
      end
  end.

Definition bfd_map_over_sections {A} (fuel : nat) (abfd : ptr) (operation : asec -> A -> SM A) (a : A)
    : SM A :=
  b ← get_bfd abfd;
  '(i, a) ← map_loop fuel (b_sections b) operation 0 a;
  b ← get_bfd abfd;
  if i =? b_section_count b then ret a else undefined.

Fixpoint find_if_loop (fuel : nat) (sect : option asec) (operation : asec -> SM bool) : SM (option asec) :=
  match fuel with
  | O => timeout
  | S fuel =>
      match sect with
      | None => ret None
      | Some sec =>
          ok ← operation sec;
          if (ok : bool) then ret (Some sec)
          else d ← get_sec sec; find_if_loop fuel (s_next d) operation
      end
  end.

Definition bfd_sections_find_if (fuel : nat) (abfd : ptr) (operation : asec -> SM bool) : SM (option asec) :=
  b ← get_bfd abfd; find_if_loop fuel (b_sections b) operation.
