(* ===== verification/SectionList.v ===== *)
(** The sections of a BFD as a doubly linked list: the heap of sections as a
    function, and the five list operations of bfd.h as operations on lists. *)

From S2P Require Import Prelude HashTable HashTableSpec StateRes BfdSection.

(** ** The heap of sections *)

Definition sec_at (s : sstate) (x : asec) : option asection :=
  match x with
  | Std i => ss_std s !! i
  | Own b p => B ← ss_bfds s !! b; he_data <$> ht_heap (b_section_htab B) !! p
  end.

(** The store after [*x = d]. *)
Definition put_sec (x : asec) (d : asection) (s : sstate) : sstate :=
  match x with
  | Std i => set_ss_std (<[i := d]> (ss_std s)) s
  | Own b p =>
      match ss_bfds s !! b with
      | Some B =>
          let t := b_section_htab B in
          set_ss_bfds (<[b := set_b_section_htab (set_heap (alter (set_data d) p (ht_heap t)) t) B]> (ss_bfds s)) s
      | None => s
      end
  end.

Definition put_bfd (b : ptr) (f : bfd -> bfd) (s : sstate) : sstate :=
  set_ss_bfds (alter f b (ss_bfds s)) s.

Lemma run_get_bfd b B s Q : ss_bfds s !! b = Some B -> Q B s -> runs (get_bfd b) s Q.
Proof. intros H HQ. apply run_bind, run_gets. by eapply run_the. Qed.

Lemma alter_insert {K A} `{Countable K} (m : gmap K A) (k : K) (a : A) f : m !! k = Some a -> <[k := f a]> m = alter f k m.
Proof.
  intros Hk. apply map_eq. intros j. destruct (decide (k = j)) as [<-|Hj].
  - by rewrite lookup_insert_eq, lookup_alter_eq, Hk.
  - by rewrite lookup_insert_ne, lookup_alter_ne.
Qed.

Lemma run_set_bfd b f s Q : is_Some (ss_bfds s !! b) -> Q tt (put_bfd b f s) -> runs (set_bfd b f) s Q.
Proof.
  intros [B H] HQ. apply run_bind, (run_get_bfd _ B); [done|]. apply run_modify. by rewrite (alter_insert _ _ B).
Qed.

Lemma run_get_sec x d s Q : sec_at s x = Some d -> Q d s -> runs (get_sec x) s Q.
Proof.
  intros H HQ. destruct x as [i|b p]; cbn in *.
  - apply run_bind, run_gets. by eapply run_the.
  - apply bind_Some in H as (B & HB & H). apply fmap_Some in H as (e & He & ->).
    rstep. apply (run_get_bfd _ B); [done|]. rstep. apply (run_the _ e); [done|]. by rstep.
Qed.

Lemma run_set_sec x f d s Q : sec_at s x = Some d -> Q tt (put_sec x (f d) s) -> runs (set_sec x f) s Q.
Proof.
  intros H HQ. apply run_bind, (run_get_sec _ d); [done|]. destruct x as [i|b p]; cbn in *; [by rstep|].
  apply bind_Some in H as (B & HB & H). apply fmap_Some in H as (e & He & ->).
  rstep. apply (run_get_bfd _ B); [done|]. rstep. eapply run_the; [by eapply store_data_eq|].
  apply run_set_bfd; [by eexists|]. rewrite HB in HQ. unfold put_bfd.
  rewrite <- (alter_insert _ _ B) by done. by rewrite <- (alter_insert _ _ e) in HQ.
Qed.

(** *** What the updates change *)

Lemma sec_at_put x d s y :
  is_Some (sec_at s x) -> sec_at (put_sec x d s) y = if decide (y = x) then Some d else sec_at s y.
Proof.
  intros [d0 H]. destruct x as [i|b p]; cbn in H |- *.
  - apply lookup_lt_Some in H. destruct y as [j|]; cbn.
    + case_decide as Hj; [injection Hj as ->; by rewrite list_lookup_insert_eq|].
      rewrite list_lookup_insert_ne; [done|]. congruence.
    + by rewrite decide_False.
  - apply bind_Some in H as (B & HB & H). apply fmap_Some in H as (e & He & ->). rewrite HB.
    destruct y as [j|b' p']; cbn; [by rewrite decide_False|].
    destruct (decide (b = b')) as [<-|Hb].
    + rewrite lookup_insert_eq, HB. cbn. case_decide as Hj.
      * injection Hj as ->. by rewrite lookup_alter_eq, He.
      * rewrite lookup_alter_ne; [done|]. congruence.
    + rewrite lookup_insert_ne by done. rewrite decide_False by congruence. done.
Qed.

(** What an update of a section leaves of a BFD: all but the data of the
    entries. *)
Definition bfd_frame (B B' : bfd) : Prop :=
  b_sections B' = b_sections B /\ b_section_last B' = b_section_last B /\
  b_section_count B' = b_section_count B /\ b_output_has_begun B' = b_output_has_begun B /\
  b_link_next B' = b_link_next B /\
  ht_oracle (b_section_htab B') = ht_oracle (b_section_htab B) /\
  ht_frozen (b_section_htab B') = ht_frozen (b_section_htab B) /\
  ht_size (b_section_htab B') = ht_size (b_section_htab B) /\
  (forall p, he_string <$> ht_heap (b_section_htab B') !! p = he_string <$> ht_heap (b_section_htab B) !! p) /\
  (forall m, represents (b_section_htab B) m -> represents (b_section_htab B') m) /\
  ht_brk (b_section_htab B') = ht_brk (b_section_htab B).

Lemma put_sec_bfds x d s b B :
  is_Some (sec_at s x) -> ss_bfds s !! b = Some B ->
  exists B', ss_bfds (put_sec x d s) !! b = Some B' /\ bfd_frame B B'.
Proof.
  intros [d0 H] HB. destruct x as [i|c p]; cbn in H |- *; [exists B; by split_and!|].
  apply bind_Some in H as (C & HC & H). apply fmap_Some in H as (e & He & ->). rewrite HC.
  destruct (decide (c = b)) as [->|Hb]; cbn.
  - simplify_eq. rewrite lookup_insert_eq. eexists. split; [done|]. split_and!; try done; cbn.
    + intros q. destruct (decide (p = q)) as [<-|]; [by rewrite lookup_alter_eq, He|by rewrite lookup_alter_ne].
    + intros m Hm. rewrite <- (alter_insert _ _ e) by done. by apply represents_store.
  - rewrite lookup_insert_ne by done. exists B. by split_and!.
Qed.

Lemma sec_at_put_bfd b f s y :
  (forall B, b_section_htab (f B) = b_section_htab B) -> sec_at (put_bfd b f s) y = sec_at s y.
Proof.
  intros Hf. destruct y as [|c p]; cbn; [done|]. destruct (decide (b = c)) as [<-|Hb].
  - rewrite lookup_alter_eq. destruct (ss_bfds s !! b) as [B|]; [|done]. cbn. by rewrite Hf.
  - by rewrite lookup_alter_ne.
Qed.

(** ** Doubly linked lists *)

Section dll.
Implicit Types (f : asec -> option asection) (l : list asec).

(** [l] linked both ways, between [prev] and [next]. *)
Fixpoint dll f (prev : option asec) l (next : option asec) : Prop :=
  match l with
  | [] => True
  | a :: l =>
      (exists d, f a = Some d /\ s_prev d = prev /\ s_next d = match l with [] => next | b :: _ => Some b end)
      /\ dll f (Some a) l next
  end.

Definition first_or (l : list asec) (o : option asec) : option asec := match l with [] => o | a :: _ => Some a end.
Definition last_or (l : list asec) (o : option asec) : option asec := match last l with None => o | Some a => Some a end.

Lemma dll_app f p l1 l2 n : dll f p (l1 ++ l2) n <-> dll f p l1 (first_or l2 n) /\ dll f (last_or l1 p) l2 n.
Proof.
  revert p. induction l1 as [|a l1 IH]; intros p; [cbn; tauto|].
  cbn [app dll]. rewrite IH. destruct l1 as [|b l1]; cbn [app last_or]; [tauto|].
  change (last_or (a :: b :: l1) p) with (last_or (b :: l1) p).
  assert (last_or (b :: l1) (Some a) = last_or (b :: l1) p) as ->; [|tauto].
  unfold last_or. by destruct (last (b :: l1)) eqn:E; [|apply last_None in E].
Qed.

Lemma dll_frame f f' p l n : (forall a, a ∈ l -> f' a = f a) -> dll f p l n -> dll f' p l n.
Proof.
  revert p. induction l as [|a l IH]; intros p Hf; [done|]. intros [(d & Hd & Hp & Hn) Hl]. split.
  - exists d. split_and!; [|done..]. rewrite Hf; [done|left].
  - apply IH; [|done]. intros b Hb. apply Hf. by right.
Qed.

Lemma dll_lookup f p l n a : dll f p l n -> a ∈ l -> is_Some (f a).
Proof.
  revert p. induction l as [|b l IH]; intros p; [by intros _ ?%elem_of_nil|].
  intros [(d & Hd & _) Hl] [->|Ha]%elem_of_cons; [by eexists|by eapply IH].
Qed.

(** Changing the link after the last element, or before the first. *)
Lemma dll_set_next f f' p l a d n n' :
  dll f p (l ++ [a]) n -> a ∉ l -> f a = Some d -> f' a = Some (set_s_next n' d) ->
  (forall b, b ∈ l -> f' b = f b) -> dll f' p (l ++ [a]) n'.
Proof.
  rewrite !dll_app. intros [Hl Ha] Hni Hd Hd' Hf. split; [by eapply dll_frame|].
  destruct Ha as [(d0 & Hd0 & Hp & Hn) _]. simplify_eq. cbn. split; [|done]. by eexists.
Qed.

Lemma dll_set_prev f f' p p' l a d n :
  dll f p (a :: l) n -> a ∉ l -> f a = Some d -> f' a = Some (set_s_prev p' d) ->
  (forall b, b ∈ l -> f' b = f b) -> dll f' p' (a :: l) n.
Proof.
  intros [(d0 & Hd0 & Hp & Hn) Hl] Hni Hd Hd' Hf. simplify_eq. split; [|by eapply dll_frame].
  by eexists.
Qed.
End dll.

(** ** What the list operations leave alone *)

(** A section without its links. *)
Definition unlinked (d : asection) : asection := set_s_next None (set_s_prev None d).

(** A BFD without its list and the data of its sections. *)
Definition bfd_core (B B' : bfd) : Prop :=
  b_section_count B' = b_section_count B /\ b_output_has_begun B' = b_output_has_begun B /\
  b_link_next B' = b_link_next B /\
  ht_oracle (b_section_htab B') = ht_oracle (b_section_htab B) /\
  ht_frozen (b_section_htab B') = ht_frozen (b_section_htab B) /\
  ht_size (b_section_htab B') = ht_size (b_section_htab B) /\
  (forall p, he_string <$> ht_heap (b_section_htab B') !! p = he_string <$> ht_heap (b_section_htab B) !! p) /\
  (forall m, represents (b_section_htab B) m -> represents (b_section_htab B') m) /\
  ht_brk (b_section_htab B') = ht_brk (b_section_htab B).

Record list_frame (b : ptr) (s s' : sstate) : Prop := {
  lf_secs : forall x, unlinked <$> sec_at s' x = unlinked <$> sec_at s x;
  lf_bfds : forall c C, ss_bfds s !! c = Some C -> exists C', ss_bfds s' !! c = Some C' /\ bfd_core C C';
  lf_other : forall c, c <> b -> ss_bfds s' !! c = ss_bfds s !! c;
  lf_rest : ss_std s' = ss_std s /\ ss_section_id s' = ss_section_id s /\ ss_locked s' = ss_locked s /\
    ss_oracle s' = ss_oracle s /\ ss_error s' = ss_error s
}.

#[export] Instance bfd_core_preorder : PreOrder bfd_core.
Proof.
  split; [intros B; by split_and!|].
  intros B1 B2 B3 (E1&E2&E3&E4&E5&E6&E7&E8&E9) (F1&F2&F3&F4&F5&F6&F7&F8&F9).
  split_and!; try congruence; auto.
Qed.

#[export] Instance list_frame_preorder b : PreOrder (list_frame b).
Proof.
  split.
  - intros s. constructor; [done| |done|by split_and!]. intros c C HC. exists C. by split_and!.
  - intros s1 s2 s3 [H1 H2 H3 H4] [J1 J2 J3 J4]. constructor.
    + intros x. by rewrite J1.
    + intros c C HC. destruct (H2 c C HC) as (C' & HC' & Hc).
      destruct (J2 c C' HC') as (C'' & HC'' & Hc'). exists C''. split; [done|by etrans].
    + intros c Hc. by rewrite J3, H3.
    + destruct H4 as (?&?&?&?&?), J4 as (?&?&?&?&?). split_and!; congruence.
Qed.

Lemma put_sec_rest x d s :
  let s' := put_sec x d s in
  ss_section_id s' = ss_section_id s /\ ss_locked s' = ss_locked s /\
  ss_oracle s' = ss_oracle s /\ ss_error s' = ss_error s.
Proof. destruct x as [|b p]; cbn; [by split_and!|]. by destruct (ss_bfds s !! b). Qed.

(** A section made in the table of [b]. *)
Definition owned (b : ptr) (x : asec) : Prop := match x with Std _ => False | Own c _ => c = b end.

Lemma put_sec_frame b x d d0 s :
  owned b x -> sec_at s x = Some d0 -> unlinked d = unlinked d0 -> list_frame b s (put_sec x d s).
Proof.
  intros Ho Hd0 Hu. constructor.
  - intros y. rewrite sec_at_put by by eexists. case_decide as Hy; [|done]. subst y. rewrite Hd0. cbn. by f_equal.
  - intros c C HC. destruct (put_sec_bfds x d s c C) as (C' & HC' & F); [by eexists|done|].
    destruct F as (?&?&?&?&?&?&?&?&?&?&?). exists C'. by split_and!.
  - intros c Hc. destruct x as [|b' p]; [done|]. cbn in Ho |- *. subst b'.
    destruct (ss_bfds s !! b); cbn; [by rewrite lookup_insert_ne|done].
  - split; [|apply put_sec_rest]. destruct x as [|b' p]; cbn; [done|]. by destruct (ss_bfds s !! b').
Qed.

Lemma put_bfd_frame b f s :
  (forall B, bfd_core B (f B)) -> (forall B, b_section_htab (f B) = b_section_htab B) ->
  list_frame b s (put_bfd b f s).
Proof.
  intros Hf Ht. constructor; [| |intros c Hc; cbn; by rewrite lookup_alter_ne|by split_and!].
  - intros x. by rewrite sec_at_put_bfd.
  - intros c C HC. cbn. destruct (decide (b = c)) as [<-|Hb].
    + rewrite lookup_alter_eq, HC. eexists. split; [done|apply Hf].
    + rewrite lookup_alter_ne by done. exists C. by split_and!.
Qed.

(** ** The two halves of a list *)

(** The part [l] of the list of [b] before [x], and the part after [x]. *)
Definition left_to (s : sstate) (b : ptr) (l : list asec) (x : option asec) : Prop :=
  exists B, ss_bfds s !! b = Some B /\ b_sections B = first_or l x /\ dll (sec_at s) None l x.
Definition right_to (s : sstate) (b : ptr) (l : list asec) (x : option asec) : Prop :=
  exists B, ss_bfds s !! b = Some B /\ b_section_last B = last_or l x /\ dll (sec_at s) x l None.

(** The sections of [b], in order. *)
Definition sections_are (s : sstate) (b : ptr) (l : list asec) : Prop :=
  NoDup l /\ left_to s b l None /\ right_to s b [] (last l) /\ Forall (owned b) l.

Lemma last_or_None l : last_or l None = last l.
Proof. unfold last_or. by destruct (last l). Qed.

Lemma last_or_app l1 l2 x : last_or (l1 ++ l2) x = last_or l2 (last_or l1 x).
Proof. unfold last_or. rewrite last_app. by destruct (last l2). Qed.

Lemma first_or_app l1 l2 x : first_or (l1 ++ l2) x = first_or l1 (first_or l2 x).
Proof. by destruct l1. Qed.

Lemma sections_split s b l1 l2 :
  sections_are s b (l1 ++ l2) <->
  NoDup (l1 ++ l2) /\ left_to s b l1 (first_or l2 None) /\ right_to s b l2 (last l1) /\
  Forall (owned b) l1 /\ Forall (owned b) l2.
Proof.
  unfold sections_are, left_to, right_to. rewrite <- (last_or_None (l1 ++ l2)), <- (last_or_None l1), Forall_app.
  split.
  - intros (Hnd & (B & HB & Hf & Hl) & (B' & HB' & Hlast & _) & Ho). simplify_eq.
    rewrite dll_app in Hl. destruct Hl as [H1 H2]. rewrite first_or_app in Hf. cbn in Hlast.
    rewrite last_or_app in Hlast. destruct Ho. split_and!; [done| | |done..]; by exists B.
  - intros (Hnd & (B & HB & Hf & Hl) & (B' & HB' & Hlast & Hr) & Ho). simplify_eq.
    split_and!; [done| | |apply Ho..]; exists B; rewrite ?first_or_app, ?dll_app, ?last_or_app; by split_and!.
Qed.

(** The assignments the operations are made of. *)
Definition set_left (b : ptr) (prev v : option asec) : SM unit :=
  match prev with
  | Some p => set_sec p (set_s_next v)
  | None => set_bfd b (set_b_sections v)
  end.
Definition set_right (b : ptr) (next v : option asec) : SM unit :=
  match next with
  | Some n => set_sec n (set_s_prev v)
  | None => set_bfd b (set_b_section_last v)
  end.

Lemma put_sec_left x d s b l y :
  x ∉ l -> is_Some (sec_at s x) -> left_to s b l y -> left_to (put_sec x d s) b l y.
Proof.
  intros Hx Hs (B & HB & Hf & Hl). destruct (put_sec_bfds x d s b B Hs HB) as (B' & HB' & E1 & E2 & _).
  exists B'. rewrite E1. split_and!; [done..|]. eapply dll_frame; [|done].
  intros a Ha. rewrite sec_at_put by done. by rewrite decide_False by congruence.
Qed.
Lemma put_sec_right x d s b l y :
  x ∉ l -> is_Some (sec_at s x) -> right_to s b l y -> right_to (put_sec x d s) b l y.
Proof.
  intros Hx Hs (B & HB & Hf & Hl). destruct (put_sec_bfds x d s b B Hs HB) as (B' & HB' & E1 & E2 & _).
  exists B'. rewrite E2. split_and!; [done..|]. eapply dll_frame; [|done].
  intros a Ha. rewrite sec_at_put by done. by rewrite decide_False by congruence.
Qed.

Lemma put_bfd_lookup b f s B : ss_bfds s !! b = Some B -> ss_bfds (put_bfd b f s) !! b = Some (f B).
Proof. intros HB. cbn. by rewrite lookup_alter_eq, HB. Qed.

Lemma set_left_spec s b l1 x v :
  NoDup l1 -> Forall (owned b) l1 -> left_to s b l1 x ->
  runs (set_left b (last l1) v) s (fun _ s' =>
    left_to s' b l1 v /\ list_frame b s s' /\
    (forall l2 y, l1 ## l2 -> right_to s b l2 y -> right_to s' b l2 y) /\
    (forall y, y ∉ l1 -> sec_at s' y = sec_at s y)).
Proof.
  intros Hnd Ho (B & HB & Hf & Hl). destruct l1 as [|p l1 _] using rev_ind.
  - apply run_set_bfd; [by eexists|]. split_and!.
    + eexists. split; [by apply put_bfd_lookup|done].
    + apply put_bfd_frame; [by intros; split_and!|done].
    + intros l2 y _ (B' & HB' & Hlast & Hr). simplify_eq. eexists.
      split_and!; [by apply put_bfd_lookup|done|]. eapply dll_frame; [|done]. intros. by rewrite sec_at_put_bfd.
    + intros y _. by rewrite sec_at_put_bfd.
  - rewrite last_snoc. apply NoDup_app in Hnd as (Hnd & Hdis & _).
    destruct (dll_lookup _ _ _ _ p Hl) as [d Hd]; [set_solver|].
    apply (run_set_sec _ _ d); [done|]. split_and!.
    + destruct (put_sec_bfds p (set_s_next v d) s b B) as (B' & HB' & E1 & _); [by eexists|done|].
      exists B'. split_and!; [done| |].
      * rewrite E1, Hf. by destruct l1.
      * eapply dll_set_next; [done|set_solver|done| |].
        -- rewrite sec_at_put by by eexists. by rewrite decide_True.
        -- intros a Ha. rewrite sec_at_put by by eexists. rewrite decide_False; set_solver.
    + apply (put_sec_frame _ _ _ d); [|done..]. apply Forall_app in Ho as [_ Ho]. by inversion Ho.
    + intros l2 y Hd12. apply put_sec_right; [set_solver|by eexists].
    + intros y Hy. rewrite sec_at_put by by eexists. rewrite decide_False; set_solver.
Qed.

Lemma set_right_spec s b l2 x v :
  NoDup l2 -> Forall (owned b) l2 -> right_to s b l2 x ->
  runs (set_right b (first_or l2 None) v) s (fun _ s' =>
    right_to s' b l2 v /\ list_frame b s s' /\
    (forall l1 y, l1 ## l2 -> left_to s b l1 y -> left_to s' b l1 y) /\
    (forall y, y ∉ l2 -> sec_at s' y = sec_at s y)).
Proof.
  intros Hnd Ho (B & HB & Hf & Hl). destruct l2 as [|n l2].
  - apply run_set_bfd; [by eexists|]. split_and!.
    + eexists. split; [by apply put_bfd_lookup|done].
    + apply put_bfd_frame; [by intros; split_and!|done].
    + intros l1 y _ (B' & HB' & Hlast & Hr). simplify_eq. eexists.
      split_and!; [by apply put_bfd_lookup|done|]. eapply dll_frame; [|done]. intros. by rewrite sec_at_put_bfd.
    + intros y _. by rewrite sec_at_put_bfd.
  - apply NoDup_cons in Hnd as (Hdis & Hnd). cbn [first_or].
    destruct (dll_lookup _ _ _ _ n Hl) as [d Hd]; [set_solver|].
    apply (run_set_sec _ _ d); [done|]. split_and!.
    + destruct (put_sec_bfds n (set_s_prev v d) s b B) as (B' & HB' & _ & E1 & _); [by eexists|done|].
      exists B'. split_and!; [done| |].
      * rewrite E1, Hf. unfold last_or. by destruct (last (n :: l2)) eqn:E; [|apply last_None in E].
      * eapply dll_set_prev; [done|done|done| |].
        -- rewrite sec_at_put by by eexists. by rewrite decide_True.
        -- intros a Ha. rewrite sec_at_put by by eexists. rewrite decide_False; set_solver.
    + apply (put_sec_frame _ _ _ d); [|done..]. by apply Forall_cons in Ho as [? _].
    + intros l1 y Hd12. apply put_sec_left; [set_solver|by eexists].
    + intros y Hy. rewrite sec_at_put by by eexists. rewrite decide_False; set_solver.
Qed.

(** ** The operations *)

Lemma link_new s b l1 x l2 d :
  NoDup (l1 ++ x :: l2) -> left_to s b l1 (Some x) -> right_to s b l2 (Some x) ->
  sec_at s x = Some d -> s_prev d = last l1 -> s_next d = first_or l2 None ->
  Forall (owned b) (l1 ++ x :: l2) ->
  sections_are s b (l1 ++ x :: l2).
Proof.
  intros Hnd H1 (B & HB & Hlast & Hr) Hd Hp Hn [Ho1 Ho2]%Forall_app. rewrite sections_split. split_and!; [done..| |done|done].
  exists B. split_and!; [done| |].
  - rewrite Hlast. change (x :: l2) with ([x] ++ l2). by rewrite last_or_app.
  - split; [|done]. exists d. split_and!; [done..|]. rewrite Hn. by destruct l2.
Qed.

Lemma at_put x d s : is_Some (sec_at s x) -> sec_at (put_sec x d s) x = Some d.
Proof. intros H. rewrite sec_at_put by done. by rewrite decide_True. Qed.

Lemma middle_fields s b l1 x l2 d :
  sections_are s b (l1 ++ x :: l2) -> sec_at s x = Some d -> s_prev d = last l1 /\ s_next d = first_or l2 None.
Proof.
  rewrite sections_split. intros (_ & _ & (B & _ & _ & [(d' & Hd' & Hp & Hn) _]) & _) Hd. simplify_eq.
  rewrite Hn. by destruct l2.
Qed.

Lemma sections_member s b l x : sections_are s b l -> x ∈ l -> is_Some (sec_at s x).
Proof. intros (_ & (B & _ & _ & Hl) & _ & _). by apply dll_lookup with (1 := Hl). Qed.

Lemma list_remove_spec s b l1 x l2 :
  sections_are s b (l1 ++ x :: l2) ->
  runs (bfd_section_list_remove b x) s (fun _ s' =>
    sections_are s' b (l1 ++ l2) /\ list_frame b s s' /\ sec_at s' x = sec_at s x).
Proof.
  intros Hs. destruct (sections_member _ _ _ x Hs) as [d Hd]; [set_solver|].
  destruct (middle_fields _ _ _ _ _ _ Hs Hd) as [Hp Hn].
  apply sections_split in Hs as (Hnd & Hl & Hr & Ho1 & [_ Ho2]%Forall_cons).
  assert (right_to s b l2 (Some x)) as Hr2.
  { destruct Hr as (B & HB & Hla & [_ Hr]). exists B. split_and!; [done| |done].
    rewrite Hla. exact (last_or_app [x] l2 _). }
  apply NoDup_app in Hnd as (Hn1 & Hdis & [Hx Hn2]%NoDup_cons).
  apply run_bind, (run_get_sec _ d); [done|]. rewrite Hp, Hn. apply run_bind.
  eapply run_mono; [exact (set_left_spec s b l1 _ (first_or l2 None) Hn1 Ho1 Hl)|].
  intros _ s1 (Hl1 & F1 & K1 & X1). apply (K1 l2) in Hr2; [|set_solver].
  eapply run_mono; [exact (set_right_spec s1 b l2 _ (last l1) Hn2 Ho2 Hr2)|].
  intros _ s2 (Hr3 & F2 & K2 & X2). split_and!; [|by etrans|].
  - rewrite sections_split. split_and!; [|apply K2; [set_solver|done]|done..].
    apply NoDup_app. split_and!; [done|set_solver|done].
  - rewrite X2, X1; [done|set_solver..].
Qed.

(** Giving [x], which is in neither half, its links. *)
Lemma set_links_spec s b l1 l2 x d n p y z :
  sec_at s x = Some d -> x ∉ l1 -> x ∉ l2 -> owned b x -> left_to s b l1 y -> right_to s b l2 z ->
  let Q := fun (_ : unit) s' =>
    (exists d', sec_at s' x = Some d' /\ s_prev d' = p /\ s_next d' = n) /\
    left_to s' b l1 y /\ right_to s' b l2 z /\ list_frame b s s' in
  runs (_ ← set_sec x (set_s_next n); set_sec x (set_s_prev p)) s Q /\
  runs (_ ← set_sec x (set_s_prev p); set_sec x (set_s_next n)) s Q.
Proof.
  intros Hd H1 H2 Ho Hl Hr Q.
  assert (forall f g, unlinked (f d) = unlinked d -> unlinked (g (f d)) = unlinked d ->
    s_prev (g (f d)) = p -> s_next (g (f d)) = n -> runs (_ ← set_sec x f; set_sec x g) s Q) as Hgen.
  { intros f g Hu1 Hu2 Hp Hn. apply run_bind, (run_set_sec _ _ d); [done|].
    assert (sec_at (put_sec x (f d) s) x = Some (f d)) as Hd1 by (by apply at_put).
    apply (run_set_sec _ _ (f d)); [done|]. split_and!.
    - eexists. split_and!; [by apply at_put|done..].
    - by do 2 (apply put_sec_left; [done|by eexists|]).
    - by do 2 (apply put_sec_right; [done|by eexists|]).
    - etrans; [by apply (put_sec_frame b x (f d) d)|].
      apply (put_sec_frame b x _ (f d)); [done|done|congruence]. }
  split; by apply Hgen.
Qed.

(** Linking [x], whose links are set, between the halves. *)
Lemma insert_links s b l1 x l2 y z d :
  NoDup (l1 ++ x :: l2) -> left_to s b l1 y -> right_to s b l2 z ->
  sec_at s x = Some d -> s_prev d = last l1 -> s_next d = first_or l2 None ->
  Forall (owned b) (l1 ++ x :: l2) ->
  runs (_ ← set_left b (last l1) (Some x); set_right b (first_or l2 None) (Some x)) s (fun _ s' =>
    sections_are s' b (l1 ++ x :: l2) /\ list_frame b s s') /\
  runs (_ ← set_right b (first_or l2 None) (Some x); set_left b (last l1) (Some x)) s (fun _ s' =>
    sections_are s' b (l1 ++ x :: l2) /\ list_frame b s s').
Proof.
  intros Hnd Hl Hr Hd Hp Hn Ho. pose proof Hnd as (Hn1 & Hdis & [Hx Hn2]%NoDup_cons)%NoDup_app.
  pose proof Ho as (Ho1 & [_ Ho2]%Forall_cons)%Forall_app.
  split; apply run_bind.
  - eapply run_mono; [exact (set_left_spec s b l1 _ (Some x) Hn1 Ho1 Hl)|].
    intros _ s1 (Hl1 & F1 & K1 & X1). apply (K1 l2) in Hr; [|set_solver].
    eapply run_mono; [exact (set_right_spec s1 b l2 _ (Some x) Hn2 Ho2 Hr)|].
    intros _ s2 (Hr3 & F2 & K2 & X2). split; [|by etrans].
    apply (link_new _ _ _ _ _ d); [done|apply K2; [set_solver|done]|done| |done..].
    rewrite X2, X1; [done|set_solver..].
  - eapply run_mono; [exact (set_right_spec s b l2 _ (Some x) Hn2 Ho2 Hr)|].
    intros _ s1 (Hr1 & F1 & K1 & X1). apply (K1 l1) in Hl; [|set_solver].
    eapply run_mono; [exact (set_left_spec s1 b l1 _ (Some x) Hn1 Ho1 Hl)|].
    intros _ s2 (Hl3 & F2 & K2 & X2). split; [|by etrans].
    apply (link_new _ _ _ _ _ d); [done|done|apply K2; [set_solver|done]| |done..].
    rewrite X2, X1; [done|set_solver..].
Qed.

(** The five assignments of an insertion, in the order of the code. *)
Lemma list_insert_after_spec s b l1 a l2 x :
  sections_are s b (l1 ++ a :: l2) -> x ∉ l1 ++ a :: l2 -> owned b x -> is_Some (sec_at s x) ->
  runs (bfd_section_list_insert_after b a x) s (fun _ s' =>
    sections_are s' b (l1 ++ a :: x :: l2) /\ list_frame b s s').
Proof.
  intros Hs Hx Hox [d Hd]. destruct (sections_member _ _ _ a Hs) as [da Hda]; [set_solver|].
  destruct (middle_fields _ _ _ _ _ _ Hs Hda) as [_ Hn].
  replace (l1 ++ a :: l2) with ((l1 ++ [a]) ++ l2) in * by (by rewrite <- app_assoc).
  replace (l1 ++ a :: x :: l2) with ((l1 ++ [a]) ++ x :: l2) by (by rewrite <- app_assoc).
  apply sections_split in Hs as (Hnd & Hl & Hr & Ho1 & Ho2).
  apply run_bind, (run_get_sec _ da); [done|]. rewrite Hn.
  apply run_then. eapply run_mono.
  { eapply (set_links_spec s b (l1 ++ [a]) l2 x d (first_or l2 None) (Some a)); [done|set_solver..|done|exact Hl|exact Hr]. }
  intros _ s1 ((d1 & Hd1 & Hp1 & Hn1) & Hl1 & Hr1 & F1).
  edestruct (insert_links s1 b (l1 ++ [a]) x l2) as [Hrun _]; [|exact Hl1|exact Hr1|exact Hd1| |exact Hn1| |].
  { apply NoDup_app in Hnd as (? & ? & ?). apply NoDup_app. split_and!; [done|set_solver|].
    apply NoDup_cons. split; [set_solver|done]. }
  { by rewrite last_snoc. }
  { apply Forall_app; auto. }
  rewrite last_snoc in Hrun. eapply run_mono; [exact Hrun|]. intros _ s2 [Hs2 F2]. split; [done|by etrans].
Qed.

Lemma list_insert_before_spec s b l1 a l2 x :
  sections_are s b (l1 ++ a :: l2) -> x ∉ l1 ++ a :: l2 -> owned b x -> is_Some (sec_at s x) ->
  runs (bfd_section_list_insert_before b a x) s (fun _ s' =>
    sections_are s' b (l1 ++ x :: a :: l2) /\ list_frame b s s').
Proof.
  intros Hs Hx Hox [d Hd]. destruct (sections_member _ _ _ a Hs) as [da Hda]; [set_solver|].
  destruct (middle_fields _ _ _ _ _ _ Hs Hda) as [Hp _].
  apply sections_split in Hs as (Hnd & Hl & Hr & Ho1 & Ho2).
  apply run_bind, (run_get_sec _ da); [done|]. rewrite Hp. apply run_then. eapply run_mono.
  { eapply (set_links_spec s b l1 (a :: l2) x d (Some a) (last l1)); [done|set_solver..|done|exact Hl|exact Hr]. }
  intros _ s1 ((d1 & Hd1 & Hp1 & Hn1) & Hl1 & Hr1 & F1).
  edestruct (insert_links s1 b l1 x (a :: l2)) as [_ Hrun]; [|exact Hl1|exact Hr1|exact Hd1|exact Hp1|exact Hn1| |].
  { apply NoDup_app in Hnd as (? & ? & ?). apply NoDup_app. split_and!; [done|set_solver|].
    apply NoDup_cons. split; [set_solver|done]. }
  { apply Forall_app; auto. }
  eapply run_mono; [exact Hrun|]. intros _ s2 [Hs2 F2]. split; [done|by etrans].
Qed.

(** At an end the operations look at the other end of the list in between. *)
Lemma list_append_spec s b l x :
  sections_are s b l -> x ∉ l -> owned b x -> is_Some (sec_at s x) ->
  runs (bfd_section_list_append b x) s (fun _ s' => sections_are s' b (l ++ [x]) /\ list_frame b s s').
Proof.
  intros Hs Hx Hox [d Hd]. rewrite <- (app_nil_r l) in Hs. apply sections_split in Hs as (Hnd & Hl & Hr & Ho1 & _).
  rewrite app_nil_r in Hnd.
  destruct (set_links_spec s b l [] x d None (last l) _ _ Hd Hx ltac:(set_solver) Hox Hl Hr) as [H _].
  cbn in H. destruct H as (u & s1 & H & (d1 & Hd1 & Hp1 & Hn1) & Hl1 & Hr1 & F1).
  edestruct (insert_links s1 b l x []) as [Hrun _]; [|exact Hl1|exact Hr1|exact Hd1|exact Hp1|exact Hn1| |].
  { apply NoDup_app. split_and!; [done|set_solver|apply NoDup_singleton]. }
  { apply Forall_app; auto. }
  destruct (set_sec x (set_s_next None) s) as [| |[[] s0]] eqn:E0;
    (unfold mbind, M_bind in H; rewrite E0 in H); [done..|].
  assert (right_to s0 b [] (last l)) as (B & HB & Hla & _).
  { apply (run_done _ _ _ _ (fun _ s' => right_to s' b [] (last l)) E0).
    apply (run_set_sec _ _ d); [done|]. apply put_sec_right; [set_solver|by eexists|done]. }
  apply run_bind. exists tt, s0. split; [done|]. apply run_bind, (run_get_bfd _ B); [done|].
  cbn in Hla. rewrite Hla. apply run_bind.
  assert (runs (_ ← set_sec x (set_s_prev (last l)); set_left b (last l) (Some x)) s0 (fun _ s' =>
    runs (set_bfd b (set_b_section_last (Some x))) s' (fun _ s' =>
      sections_are s' b (l ++ [x]) /\ list_frame b s s'))) as Hmid.
  { apply run_bind. exists u, s1. split; [done|]. apply run_bind_inv in Hrun.
    eapply run_mono; [exact Hrun|]. intros ? s2 H2. eapply run_mono; [exact H2|].
    intros _ s3 [H3 F3]. split; [done|by etrans]. }
  by destruct (last l).
Qed.

Lemma list_prepend_spec s b l x :
  sections_are s b l -> x ∉ l -> owned b x -> is_Some (sec_at s x) ->
  runs (bfd_section_list_prepend b x) s (fun _ s' => sections_are s' b (x :: l) /\ list_frame b s s').
Proof.
  intros Hs Hx Hox [d Hd]. apply (sections_split s b [] l) in Hs as (Hnd & Hl & Hr & _ & Ho2).
  destruct (set_links_spec s b [] l x d (first_or l None) None _ _ Hd ltac:(set_solver) Hx Hox Hl Hr)
    as [_ (u & s1 & H & (d1 & Hd1 & Hp1 & Hn1) & Hl1 & Hr1 & F1)].
  edestruct (insert_links s1 b [] x l) as [_ Hrun]; [|exact Hl1|exact Hr1|exact Hd1|exact Hp1|exact Hn1| |].
  { by apply NoDup_cons. }
  { by apply Forall_cons. }
  destruct (set_sec x (set_s_prev None) s) as [| |[[] s0]] eqn:E0;
    (unfold mbind, M_bind in H; rewrite E0 in H); [done..|].
  assert (left_to s0 b [] (first_or l None)) as (B & HB & Hla & _).
  { apply (run_done _ _ _ _ (fun _ s' => left_to s' b [] (first_or l None)) E0).
    apply (run_set_sec _ _ d); [done|]. apply put_sec_left; [set_solver|by eexists|done]. }
  apply run_bind. exists tt, s0. split; [done|]. apply run_bind, (run_get_bfd _ B); [done|].
  cbn in Hla. rewrite Hla. apply run_bind.
  assert (runs (_ ← set_sec x (set_s_next (first_or l None)); set_right b (first_or l None) (Some x)) s0 (fun _ s' =>
    runs (set_bfd b (set_b_sections (Some x))) s' (fun _ s' =>
      sections_are s' b (x :: l) /\ list_frame b s s'))) as Hmid.
  { apply run_bind. exists u, s1. split; [done|]. apply run_bind_inv in Hrun.
    eapply run_mono; [exact Hrun|]. intros ? s2 H2. eapply run_mono; [exact H2|].
    intros _ s3 [H3 F3]. split; [done|by etrans]. }
  by destruct l.
Qed.

(** *** Removed from the list *)

Lemma removed_spec s b x d l :
  sections_are s b l -> sec_at s x = Some d ->
  (x ∈ l -> runs (bfd_section_removed_from_list b x) s (fun r s' => r = false /\ s' = s)) /\
  (forall l1 l2, l = l1 ++ l2 -> x ∉ l -> s_next d = first_or l2 None ->
     runs (bfd_section_removed_from_list b x) s (fun r s' => r = true /\ s' = s)).
Proof.
  intros Hs Hd. pose proof Hs as (_ & _ & (B & HB & Hlast & _) & _). split.
  - intros (l1 & l2 & ->)%list_elem_of_split. destruct (middle_fields _ _ _ _ _ _ Hs Hd) as [_ Hn].
    apply run_bind, (run_get_sec _ d); [done|]. rewrite Hn. destruct l2 as [|n l2]; cbn [first_or].
    + apply run_bind, (run_get_bfd _ B); [done|]. apply run_ret. cbn in Hlast.
      rewrite Hlast, last_snoc. by rewrite bool_decide_true.
    + destruct (sections_member _ _ _ n Hs) as [dn Hdn]; [set_solver|].
      apply run_bind, (run_get_sec _ dn); [done|]. apply run_ret.
      replace (l1 ++ x :: n :: l2) with ((l1 ++ [x]) ++ n :: l2) in Hs by (by rewrite <- app_assoc).
      destruct (middle_fields _ _ _ _ _ _ Hs Hdn) as [Hp _]. rewrite Hp, last_snoc. by rewrite bool_decide_true.
  - intros l1 l2 -> Hx Hn. apply run_bind, (run_get_sec _ d); [done|]. rewrite Hn.
    destruct l2 as [|n l2]; cbn [first_or].
    + apply run_bind, (run_get_bfd _ B); [done|]. apply run_ret. cbn in Hlast. rewrite Hlast.
      rewrite bool_decide_false; [done|]. intros Hl. apply last_Some in Hl as [l' Hl]. rewrite Hl in Hx. set_solver.
    + destruct (sections_member _ _ _ n Hs) as [dn Hdn]; [set_solver|].
      apply run_bind, (run_get_sec _ dn); [done|]. apply run_ret.
      destruct (middle_fields _ _ _ _ _ _ Hs Hdn) as [Hp _]. rewrite Hp.
      rewrite bool_decide_false; [done|]. intros Hl. apply last_Some in Hl as [l' Hl].
      rewrite Hl in Hx. set_solver.
Qed.

(** Removing a section and then asking. *)
Lemma remove_then_removed s b l1 x l2 :
  sections_are s b (l1 ++ x :: l2) ->
  runs (_ ← bfd_section_list_remove b x; bfd_section_removed_from_list b x) s (fun r s' =>
    r = true /\ sections_are s' b (l1 ++ l2) /\ list_frame b s s').
Proof.
  intros Hs. destruct (sections_member _ _ _ x Hs) as [d Hd]; [set_solver|].
  destruct (middle_fields _ _ _ _ _ _ Hs Hd) as [_ Hn].
  pose proof Hs as (Hnd & _). apply run_bind. eapply run_mono; [by apply list_remove_spec|].
  intros _ s' (Hs' & F & E). rewrite Hd in E. eapply run_mono.
  - apply (removed_spec s' b x d _ Hs' E) with l1 l2; [done| |done].
    apply NoDup_app in Hnd as (_ & ? & [? _]%NoDup_cons). set_solver.
  - by intros r s'' [-> ->].
Qed.

(** *** Going over the sections *)

(** [operation] on the sections in turn. *)
Fixpoint foldM {A} (operation : asec -> A -> SM A) (l : list asec) (a : A) : SM A :=
  match l with [] => ret a | x :: l => a ← operation x a; foldM operation l a end.

Lemma map_loop_spec {A} (operation : asec -> A -> SM A) (I : sstate -> Prop) b l1 l2 fuel i a s Q :
  (forall s, I s -> sections_are s b (l1 ++ l2)) ->
  (forall s x a Q, I s -> runs (operation x a) s Q -> runs (operation x a) s (fun a' s' => I s' /\ Q a' s')) ->
  (length l2 < fuel)%nat -> I s -> fits 32 i ->
  runs (foldM operation l2 a) s Q ->
  runs (map_loop fuel (first_or l2 None) operation i a) s (fun r s' =>
    r.1 = u32 (i + Z.of_nat (length l2)) /\ I s' /\ Q r.2 s').
Proof.
  revert l1 fuel i a s. induction l2 as [|x l2 IH]; intros l1 fuel i a s HI Hop Hf Hs Hi Hrun;
    (destruct fuel as [|fuel]; [cbn in Hf; lia|]); cbn [map_loop first_or].
  - apply run_ret. cbn. split_and!; [|done|].
    + rewrite Z.add_0_r, wrap_small; [done|exact Hi].
    + by apply (run_done _ _ _ _ _ eq_refl) in Hrun.
  - cbn [foldM] in Hrun. apply run_bind_inv in Hrun. apply (Hop _ _ _ _ Hs) in Hrun.
    apply run_bind. eapply run_mono; [exact Hrun|]. intros a' s' [Hs' Hrun'].
    destruct (sections_member _ _ _ x (HI _ Hs')) as [d Hd]; [set_solver|].
    destruct (middle_fields _ _ _ _ _ _ (HI _ Hs') Hd) as [_ Hn].
    apply run_bind, (run_get_sec _ d); [done|]. rewrite Hn.
    eapply run_mono; [apply (IH (l1 ++ [x])); try done|].
    + intros s0 H0. rewrite <- app_assoc. by apply HI.
    + cbn in Hf. lia.
    + by apply wrap_fits.
    + intros r s'' (-> & ? & ?). split_and!; [|done..]. cbn [length].
      rewrite wrap_add_l by lia. f_equal. lia.
Qed.

(** A walk over the sections with an operation that keeps the list and the
    count ([I]) calls it on each in order and passes the check at the end. *)
Lemma map_over_sections_spec {A} (operation : asec -> A -> SM A) (I : sstate -> Prop) b l fuel a s Q :
  (forall s, I s -> sections_are s b l /\
     exists B, ss_bfds s !! b = Some B /\ b_section_count B = u32 (Z.of_nat (length l))) ->
  (forall s x a Q, I s -> runs (operation x a) s Q -> runs (operation x a) s (fun a' s' => I s' /\ Q a' s')) ->
  (length l < fuel)%nat -> I s -> runs (foldM operation l a) s Q ->
  runs (bfd_map_over_sections fuel b operation a) s (fun a' s' => I s' /\ Q a' s').
Proof.
  intros HI Hop Hf Hs Hrun. destruct (HI s Hs) as [(_ & (B & HB & Hfirst & _) & _) _].
  apply run_bind, (run_get_bfd _ B); [done|]. rewrite Hfirst. apply run_bind. eapply run_mono.
  { apply (map_loop_spec operation I b [] l); try done. intros s0 H0. by apply HI. }
  intros [i a'] s' (Hi & Hs' & HQ). cbn [fst snd] in Hi, HQ. subst i. destruct (HI s' Hs') as [_ (B' & HB' & Hc)].
  apply run_bind, (run_get_bfd _ B'); [done|]. rewrite Hc, Z.add_0_l, Z.eqb_refl.
  by apply run_ret.
Qed.
