(* ===== verification/SectionMake.v ===== *)
(** Making sections: what bfd_make_section_old_way and its relatives do on a BFD
    whose list and table of sections agree. *)

From S2P Require Import Prelude HashTable HashTableSpec HashGrowth StateRes BfdSection SectionList.

(** ** Answers *)

Lemma set_oracle_id s : set_ss_oracle (ss_oracle s) s = s.
Proof. by destruct s. Qed.

Lemma run_answer s Q :
  (forall ok o, (ok = false -> false ∈ ss_oracle s) -> (false ∈ o -> false ∈ ss_oracle s) ->
     (ss_oracle s = [] -> o = []) -> Q ok (set_ss_oracle o s)) ->
  runs answer s Q.
Proof.
  intros H. unfold runs, answer. destruct (ss_oracle s) as [|ok o] eqn:Ho.
  - exists true, s. split; [done|]. pose proof (H true []) as H'. rewrite <- Ho, set_oracle_id, Ho in H'. by apply H'.
  - exists ok, (set_ss_oracle o s). split; [done|]. apply H; [intros ->; left|by right|done].
Qed.

(** ** The invariant *)

(** The list of [b] is [l], in its table each under its name, numbered in
    order. *)
Record sections_ok (s : sstate) (b : ptr) (l : list ptr) (m : gmap cstring ptr) : Prop := {
  so_list : sections_are s b (Own b <$> l);
  so_bfd : exists B, ss_bfds s !! b = Some B /\ represents (b_section_htab B) m /\ roomy (b_section_htab B) /\
    b_section_count B = u32 (Z.of_nat (length l));
  so_names : forall name p, m !! name = Some p <-> p ∈ l /\ sec_at s (Own b p) ≫= s_name = Some name;
  so_index : forall i p, l !! i = Some p -> exists d, sec_at s (Own b p) = Some d /\
    s_index d = u32 (Z.of_nat i) /\ s_owner d = Some b
}.

(** What a call on [b] that makes [p] leaves alone: the other sections, but for
    the links of those of [b], and the other BFDs. *)
Record others_same (b p : ptr) (s s' : sstate) : Prop := {
  os_secs : forall y, y <> Own b p -> unlinked <$> sec_at s' y = unlinked <$> sec_at s y;
  os_bfds : forall c, c <> b -> ss_bfds s' !! c = ss_bfds s !! c;
  os_std : ss_std s' = ss_std s
}.

(** The BFD after one entry was made in its table. *)
Definition bfd_later (B B' : bfd) : Prop :=
  b_output_has_begun B' = b_output_has_begun B /\ b_link_next B' = b_link_next B /\
  (ht_oracle (b_section_htab B) = [] -> ht_oracle (b_section_htab B') = []) /\
  (ht_brk (b_section_htab B') <= S (ht_brk (b_section_htab B)))%nat.

Lemma sections_are_ext s s' b l B B' :
  ss_bfds s !! b = Some B -> ss_bfds s' !! b = Some B' ->
  b_sections B' = b_sections B -> b_section_last B' = b_section_last B ->
  (forall x, x ∈ l -> sec_at s' x = sec_at s x) -> sections_are s b l -> sections_are s' b l.
Proof.
  intros HB HB' E1 E2 Hx (Hnd & (B1 & H1 & Hf & Hl) & (B2 & H2 & Hla & _) & Ho). simplify_eq.
  split_and!; [done| | |done].
  - exists B'. rewrite E1. split_and!; [done..|]. by eapply dll_frame.
  - exists B'. by rewrite E2.
Qed.

(** ** Looking a name up *)

Lemma set_bfds_id b B s : ss_bfds s !! b = Some B -> set_ss_bfds (<[b := B]> (ss_bfds s)) s = s.
Proof. intros H. rewrite insert_id by done. by destruct s. Qed.

Lemma set_htab_id B : set_b_section_htab (b_section_htab B) B = B.
Proof. by destruct B. Qed.

Lemma lookup_existing s b B m name create copy Q :
  ss_bfds s !! b = Some B -> represents (b_section_htab B) m -> roomy (b_section_htab B) ->
  Z.of_nat (ht_brk (b_section_htab B)) < 2 ^ 28 ->
  create = false \/ is_Some (m !! name) ->
  Q (m !! name) s -> runs (section_hash_lookup b name create copy) s Q.
Proof.
  intros HB Hrep Hroom Hb Hc HQ. apply run_bind, (run_get_bfd _ B); [done|].
  destruct (hash_lookup_spec section_zero _ m name create copy Hrep) as (r & t' & Hlk & Hspec).
  { by apply roomy_grows. }
  apply run_bind. eapply run_the; [exact Hlk|]. cbn beta iota. apply run_bind, run_bind, (run_get_bfd _ B); [done|].
  apply run_modify, run_ret.
  assert (r = m !! name /\ t' = b_section_htab B) as [-> ->].
  { destruct (m !! name) eqn:E; [naive_solver|]. destruct create; [|naive_solver].
    destruct Hc as [|[? ?]]; [done|congruence]. }
  by rewrite set_htab_id, set_bfds_id.
Qed.

(** The state after the lookup that makes the entry [p]. *)
Lemma lookup_creates s b B m name copy Q :
  ss_bfds s !! b = Some B -> represents (b_section_htab B) m -> roomy (b_section_htab B) ->
  Z.of_nat (ht_brk (b_section_htab B)) < 2 ^ 28 -> m !! name = None ->
  (forall s', false ∈ ht_oracle (b_section_htab B) -> Q None s') ->
  (forall p t', ht_heap (b_section_htab B) !! p = None ->
     represents t' (<[name := p]> m) -> roomy t' -> keeps_entries (Some p) (b_section_htab B) t' ->
     he_data <$> ht_heap t' !! p = Some section_zero ->
     bfd_later B (set_b_section_htab t' B) ->
     Q (Some p) (set_ss_bfds (<[b := set_b_section_htab t' B]> (ss_bfds s)) s)) ->
  runs (section_hash_lookup b name true copy) s Q.
Proof.
  intros HB Hrep Hroom Hb Hm Hno Hyes. apply run_bind, (run_get_bfd _ B); [done|].
  destruct (hash_lookup_spec section_zero _ m name true copy Hrep) as (r & t' & Hlk & Hspec).
  { by apply roomy_grows. }
  destruct (hash_lookup_roomy _ _ m _ _ _ r t' Hrep Hroom Hb Hlk) as (Hr' & Hbrk & Hor & _).
  apply run_bind. eapply run_the; [exact Hlk|]. cbn beta iota.
  apply run_bind, run_bind, (run_get_bfd _ B); [done|]. apply run_modify, run_ret.
  rewrite Hm in Hspec. destruct r as [p|].
  - destruct Hspec as (H1 & H2 & H3 & H4). apply Hyes; [done|done|done|done| |].
    + destruct (ht_heap t' !! p) as [e|]; [|done]. cbn in H4 |- *. by injection H4 as _ _ ->.
    + split_and!; cbn; [done|done|naive_solver|lia].
  - destruct Hspec as [? _]. by apply Hno.
Qed.

(** ** A section being made *)

(** [Own b p] holds [d]; it is in the table of [b] and not yet in the list. *)
Record making (s0 : sstate) (b : ptr) (l : list ptr) (m : gmap cstring ptr) (p : ptr) (d : asection) (s : sstate)
    : Prop := {
  mk_list : sections_are s b (Own b <$> l);
  mk_bfd : exists B0 B, ss_bfds s0 !! b = Some B0 /\ bfd_later B0 B /\
    ss_bfds s !! b = Some B /\ represents (b_section_htab B) m /\ roomy (b_section_htab B) /\
    b_section_count B = u32 (Z.of_nat (length l));
  mk_sec : sec_at s (Own b p) = Some d;
  mk_others : others_same b p s0 s;
  mk_fresh : p ∉ l /\ sec_at s0 (Own b p) = None
}.

Lemma making_put s0 b l m p d s d' : making s0 b l m p d s -> making s0 b l m p d' (put_sec (Own b p) d' s).
Proof.
  intros [H1 (B0 & B & HB0 & Hlat & HB & H2 & H3 & H4) H5 [H6a H6b H6c] [H7 H8]].
  assert (is_Some (sec_at s (Own b p))) as Hs by by eexists.
  destruct (put_sec_bfds (Own b p) d' s b B Hs HB) as
    (B' & HB' & E1 & E2 & E3 & E7 & E8 & E9 & _ & E4 & _ & E5 & E6).
  assert (forall y, y <> Own b p -> sec_at (put_sec (Own b p) d' s) y = sec_at s y) as Hy.
  { intros y Hy. rewrite sec_at_put by done. by rewrite decide_False. }
  constructor.
  - apply (sections_are_ext s _ b _ B B'); try done. intros x (q & -> & Hq)%list_elem_of_fmap. apply Hy. congruence.
  - exists B0, B'. split_and!; [done| |done|by apply E5| |congruence].
    + destruct Hlat as (?&?&?&?). split_and!; [congruence|congruence|by rewrite E9|by rewrite E6].
    + unfold roomy in *. by rewrite E4, E6.
  - by apply at_put.
  - constructor.
    + intros y Hne. by rewrite Hy, H6a.
    + intros c Hc. cbn. rewrite HB. cbn. by rewrite lookup_insert_ne, H6b.
    + cbn. by rewrite HB.
  - done.
Qed.

Lemma making_ext s0 b l m p d s s' :
  ss_bfds s' = ss_bfds s -> ss_std s' = ss_std s -> making s0 b l m p d s -> making s0 b l m p d s'.
Proof.
  intros E1 E2 [H1 (B0 & B & HB0 & Hlat & HB & H2) H5 [H6a H6b H6c] [H7 H8]].
  assert (forall y, sec_at s' y = sec_at s y) as Hy by (intros [i|c q]; cbn; by rewrite ?E1, ?E2).
  constructor; [| | | |done].
  - apply (sections_are_ext s _ b _ B B); by rewrite ?E1.
  - exists B0, B. by rewrite E1.
  - by rewrite Hy.
  - constructor; [intros y Hne; by rewrite Hy, H6a|by rewrite E1|by rewrite E2].
Qed.

Lemma run_making_set s0 b l m p d s f Q :
  making s0 b l m p d s ->
  (making s0 b l m p (f d) (put_sec (Own b p) (f d) s) -> Q tt (put_sec (Own b p) (f d) s)) ->
  runs (set_sec (Own b p) f) s Q.
Proof. intros Hm HQ. apply (run_set_sec _ _ d); [apply Hm|]. eapply HQ, making_put, Hm. Qed.

(** What a section looks like once it has been initialised. *)
Definition initialised (b : ptr) (id index : Z) (d : asection) : asection :=
  set_s_owner (Some b) (set_s_index index (set_s_id id d)).

Record made (s0 : sstate) (b : ptr) (l : list ptr) (m : gmap cstring ptr) (p : ptr) (d : asection) (s : sstate)
    : Prop := {
  md_list : sections_are s b (Own b <$> l ++ [p]);
  md_bfd : exists B0 B, ss_bfds s0 !! b = Some B0 /\ bfd_later B0 B /\
    ss_bfds s !! b = Some B /\ represents (b_section_htab B) m /\ roomy (b_section_htab B) /\
    b_section_count B = u32 (Z.of_nat (length (l ++ [p])));
  md_sec : unlinked <$> sec_at s (Own b p) = Some (unlinked d);
  md_others : others_same b p s0 s
}.

Lemma making_append s0 b l m p d s s' B :
  making s0 b l m p d s -> ss_bfds s !! b = Some B ->
  sections_are s' b (Own b <$> l ++ [p]) ->
  list_frame b (put_bfd b (set_b_section_count (u32 (b_section_count B + 1))) s) s' ->
  made s0 b l m p d s'.
Proof.
  intros [H1 (B0 & B1 & HB0 & Hlat & HB1 & H2 & H3 & H4) H5 [H6a H6b H6c] H7] HB Hs' [F1 F2 F3 F4]. rewrite HB in HB1. injection HB1 as <-.
  assert (forall y, unlinked <$> sec_at s' y = unlinked <$> sec_at s y) as Hy.
  { intros y. by rewrite F1, sec_at_put_bfd. }
  constructor; [done| | |].
  - destruct (F2 b _ (put_bfd_lookup _ _ _ _ HB)) as
      (C & HC & (E1 & E5 & E6 & E7 & _ & E2 & _ & E3 & E4)).
    exists B0, C. split_and!; [done| |done|by apply E3| |].
    + destruct Hlat as (?&?&?&?). cbn in *. split_and!; [congruence|congruence|by rewrite E7|by rewrite E4].
    + unfold roomy in *. cbn in E2, E4. by rewrite E2, E4.
    + rewrite E1. cbn. rewrite H4, length_app, wrap_add_l by lia. f_equal. simpl. lia.
  - by rewrite Hy, H5.
  - constructor.
    + intros y Hne. by rewrite Hy, H6a.
    + intros c Hc. rewrite F3 by done. cbn. by rewrite lookup_alter_ne, H6b.
    + destruct F4 as [-> _]. done.
Qed.

Lemma run_section_init s0 b l m p d s (Q : option asec -> sstate -> Prop) :
  making s0 b l m p d s ->
  (forall s', false ∈ ss_oracle s -> Q None s') ->
  (forall s', made s0 b l m p (initialised b (ss_section_id s) (u32 (Z.of_nat (length l))) d) s' ->
     ss_section_id s' = u32 (ss_section_id s + 1) -> ss_locked s' = ss_locked s -> ss_error s' = ss_error s ->
     (ss_oracle s = [] -> ss_oracle s' = []) -> Q (Some (Own b p)) s') ->
  runs (bfd_section_init b (Own b p)) s Q.
Proof.
  intros Hm Hno Hyes. apply run_bind. apply run_bind, run_answer. intros ok o1 Hok1 Ho1 He1.
  destruct ok; [|apply run_bind, run_ret, run_ret, run_ret, Hno, Hok1; done].
  apply run_bind, run_modify, run_ret. cbn [negb].
  set (s1 := set_ss_locked _ _).
  assert (making s0 b l m p d s1) as Hm1 by (by apply (making_ext s0 b l m p d s)).
  apply run_bind, run_gets. destruct (mk_bfd _ _ _ _ _ _ _ Hm1) as (B0 & B & HB0 & _ & HB & _ & _ & Hcount).
  apply run_bind, (run_get_bfd _ B); [done|].
  apply run_bind. eapply run_making_set; [exact Hm1|]. intros Hm2.
  apply run_bind. eapply run_making_set; [exact Hm2|]. intros Hm3.
  apply run_bind. eapply run_making_set; [exact Hm3|]. intros Hm4.
  match type of Hm4 with making _ _ _ _ _ _ ?x => set (s4 := x) in * end.
  assert (ss_section_id s4 = ss_section_id s /\ ss_locked s4 = ss_locked s + 1 /\ ss_oracle s4 = o1 /\
    ss_error s4 = ss_error s) as (G1 & G2 & G3 & G4).
  { subst s4. repeat match goal with |- context [put_sec ?x ?d ?s] =>
      destruct (put_sec_rest x d s) as (-> & -> & -> & ->) end. by split_and!. }
  apply run_bind, run_answer. intros ok o2 Hok2 Ho2 He2. rewrite G3 in Hok2, Ho2, He2.
  destruct ok; cbn [negb]; [|apply run_ret, Hno, Ho1, Hok2; done].
  apply run_bind, run_modify. set (s5 := set_ss_section_id _ _).
  assert (making s0 b l m p (initialised b (ss_section_id s) (u32 (Z.of_nat (length l))) d) s5) as Hm5.
  { rewrite Hcount in Hm4. by apply (making_ext _ _ _ _ _ _ s4). }
  clearbody s4. destruct (mk_bfd _ _ _ _ _ _ _ Hm5) as (B05 & B5 & HB05 & _ & HB5 & _ & _ & Hcount5).
  rewrite Hcount, <- Hcount5. apply run_bind, run_set_bfd; [by eexists|]. set (s6 := put_bfd _ _ _).
  apply run_bind. eapply run_mono.
  { apply (list_append_spec s6 b (Own b <$> l)).
    - eapply (sections_are_ext s5); [exact HB5|by apply put_bfd_lookup|done|done| |by apply Hm5].
      intros x _. by apply sec_at_put_bfd.
    - intros (q & Hq & Hin)%list_elem_of_fmap. injection Hq as <-. by apply (mk_fresh _ _ _ _ _ _ _ Hm5), Hin.
    - done.
    - unfold s6. rewrite sec_at_put_bfd by done. rewrite (mk_sec _ _ _ _ _ _ _ Hm5). by eexists. }
  intros _ s7 [Hs7 F7]. destruct (lf_rest _ _ _ F7) as (_ & J1 & J2 & J3 & J4). cbn in J1, J2, J3, J4.
  change [Own b p] with (Own b <$> [p]) in Hs7. rewrite <- fmap_app in Hs7.
  pose proof (making_append _ _ _ _ _ _ _ _ _ Hm5 HB5 Hs7 F7) as Hmade.
  apply run_bind, run_bind, run_answer. intros ok o3 Hok3 Ho3 He3. rewrite J3 in Hok3, Ho3, He3.
  destruct ok; [apply run_bind, run_modify, run_ret, run_ret|].
  - apply Hyes; cbn; [|by rewrite J1|rewrite J2, G2; lia|by rewrite J4, G4|by auto].
    destruct Hmade as [K1 K2 K3 [K4a K4b K4c]]. constructor; [|done|done|by constructor].
    destruct K2 as (_ & C & _ & _ & HC & _). by apply (sections_are_ext s7 _ _ _ C C).
  - apply run_bind, run_ret, run_ret, run_ret. apply Hno; auto.
Qed.

(** ** The calls *)

(** The state after a call on [b] that made [p], named [name] and with
    [flags]. *)
Definition section_made (s : sstate) (b : ptr) (l : list ptr) (m : gmap cstring ptr) (name : cstring) (flags : Z)
    (p : ptr) (s' : sstate) : Prop :=
  p ∉ l /\ sec_at s (Own b p) = None /\ sections_ok s' b (l ++ [p]) (<[name := p]> m) /\
  unlinked <$> sec_at s' (Own b p) =
    Some (initialised b (ss_section_id s) (u32 (Z.of_nat (length l)))
            (set_s_flags flags (set_s_name (Some name) section_zero))) /\
  others_same b p s s' /\
  (forall B, ss_bfds s !! b = Some B -> exists B', ss_bfds s' !! b = Some B' /\ bfd_later B B') /\
  (ss_oracle s = [] -> ss_oracle s' = []) /\ ss_section_id s' = u32 (ss_section_id s + 1) /\
  ss_locked s' = ss_locked s /\ ss_error s' = ss_error s.

Lemma unlinked_name d : s_name (unlinked d) = s_name d.
Proof. done. Qed.

Lemma unlinked_fmap {A} (f : asection -> A) (o o' : option asection) :
  (forall d, f (unlinked d) = f d) -> unlinked <$> o = unlinked <$> o' -> f <$> o = f <$> o'.
Proof.
  intros Hf H. destruct o as [d|], o' as [d'|]; try done. apply (inj Some) in H.
  change (Some (f d) = Some (f d')). by rewrite <- (Hf d), <- (Hf d'), H.
Qed.

Lemma made_ok s b l m name p d s' :
  sections_ok s b l m -> m !! name = None -> p ∉ l ->
  made s b l (<[name := p]> m) p d s' -> s_name d = Some name -> s_index d = u32 (Z.of_nat (length l)) ->
  s_owner d = Some b -> sections_ok s' b (l ++ [p]) (<[name := p]> m).
Proof.
  intros [O1 O2 O3 O4] Hm Hp [K1 K2 K3 K4] Hname Hidx Hown.
  assert (s_name <$> sec_at s' (Own b p) = Some (Some name)) as Hnp.
  { destruct (sec_at s' (Own b p)) as [d'|]; [|done]. apply (inj Some) in K3.
    cbn. by rewrite <- unlinked_name, K3, unlinked_name, Hname. }
  assert (forall q, q <> p -> s_name <$> sec_at s' (Own b q) = s_name <$> sec_at s (Own b q)) as Hnq.
  { intros q Hq. apply unlinked_fmap; [done|]. apply (os_secs _ _ _ _ K4). congruence. }
  constructor; [done|by destruct K2 as (_ & B & _ & _ & ?); exists B| |].
  - intros n q. rewrite lookup_insert_Some, elem_of_app, list_elem_of_singleton.
    assert (forall o : option asection, o ≫= s_name = Some n <-> s_name <$> o = Some (Some n)) as Hb.
    { intros [d'|]; cbn; [|done]. split; [by intros ->|by intros [=]]. }
    rewrite Hb. destruct (decide (q = p)) as [->|Hq].
    + rewrite Hnp. split.
      * intros [[<- _]|[_ Hq]]; [by auto|]. apply O3 in Hq as [? _]. done.
      * intros [_ [= ->]]. by left.
    + rewrite Hnq by done. rewrite <- Hb, (O3 n q). split.
      * intros [[_ ->]|[_ [? ?]]]; [done|]. by auto.
      * intros [[Hin|Hin] Hs]; [|done]. right. split; [|done]. intros ->.
        assert (m !! n = Some q) as Hmq by (by apply O3). congruence.
  - intros i q. rewrite lookup_app_Some. intros [Hi|[Hlen Hi]].
    + destruct (O4 i q Hi) as (d' & Hd' & Hi1 & Hi2).
      assert (q <> p) as Hq by (intros ->; by apply Hp; eapply list_elem_of_lookup_2).
      pose proof (os_secs _ _ _ _ K4 (Own b q) ltac:(congruence)) as Hs. rewrite Hd' in Hs.
      destruct (sec_at s' (Own b q)) as [d2|]; [|done]. apply (inj Some) in Hs as Hu.
      exists d2.
      split_and!; [done| |]; [change (s_index (unlinked d2) = u32 (Z.of_nat i))|change (s_owner (unlinked d2) = Some b)];
        by rewrite Hu.
    + apply list_lookup_singleton_Some in Hi as [Hi <-].
      destruct (sec_at s' (Own b p)) as [d2|] eqn:E; [|done]. apply (inj Some) in K3 as Hu.
      exists d2.
      split_and!; [done| |]; [change (s_index (unlinked d2) = u32 (Z.of_nat i))|change (s_owner (unlinked d2) = Some b)];
        rewrite Hu; [|done]. cbn. rewrite Hidx. do 2 f_equal. lia.
Qed.

Lemma making_start s b l m name p t' B :
  sections_ok s b l m -> ss_bfds s !! b = Some B ->
  ht_heap (b_section_htab B) !! p = None -> represents t' (<[name := p]> m) -> roomy t' ->
  keeps_entries (Some p) (b_section_htab B) t' -> he_data <$> ht_heap t' !! p = Some section_zero ->
  bfd_later B (set_b_section_htab t' B) ->
  making s b l (<[name := p]> m) p section_zero
    (set_ss_bfds (<[b := set_b_section_htab t' B]> (ss_bfds s)) s).
Proof.
  intros [O1 (B1 & HB1 & O2 & O3 & O4) O5 O6] HB Hp Hrep Hroom Hkeep Hdata Hlat. rewrite HB in HB1. injection HB1 as <-.
  set (s' := set_ss_bfds _ s).
  assert (forall y, y <> Own b p -> sec_at s' y = sec_at s y) as Hy.
  { intros [i|c q] Hy; [done|]. cbn. destruct (decide (c = b)) as [->|Hc]; [|by rewrite lookup_insert_ne].
    rewrite lookup_insert_eq, HB. cbn. specialize (Hkeep q ltac:(congruence)).
    destruct (ht_heap t' !! q) as [e'|], (ht_heap (b_section_htab B) !! q) as [e|]; try done.
    cbn in *. injection Hkeep as _ _ Hd. by f_equal. }
  assert (p ∉ l) as Hpl.
  { intros Hin. destruct (sections_member s b _ (Own b p) O1) as [d Hd]; [by apply list_elem_of_fmap_2|].
    cbn in Hd. rewrite HB in Hd. cbn in Hd. by rewrite Hp in Hd. }
  constructor; [| | | |split; [done|]].
  - apply (sections_are_ext s s' b _ B (set_b_section_htab t' B)); try done.
    + subst s'. cbn. by rewrite lookup_insert_eq.
    + intros x (q & -> & Hq)%list_elem_of_fmap. apply Hy. congruence.
  - eexists B, _. split_and!; [done|exact Hlat|apply lookup_insert_eq|done..].
  - cbn. rewrite lookup_insert_eq. cbn. done.
  - constructor; [intros y Hne; by rewrite Hy|intros c Hc; cbn; by rewrite lookup_insert_ne|done].
  - cbn. rewrite HB. cbn. by rewrite Hp.
Qed.

Section calls.
Context (s : sstate) (b : ptr) (l : list ptr) (m : gmap cstring ptr) (B : bfd).
Context (Hok : sections_ok s b l m) (HB : ss_bfds s !! b = Some B).
Context (Hsmall : Z.of_nat (ht_brk (b_section_htab B)) < 2 ^ 28).

Definition may_fail : Prop := false ∈ ss_oracle s \/ false ∈ ht_oracle (b_section_htab B).

Lemma section_table : represents (b_section_htab B) m /\ roomy (b_section_htab B).
Proof using Hok HB.
  destruct (so_bfd _ _ _ _ Hok) as (B1 & HB1 & H1 & H2 & _). rewrite HB in HB1. by injection HB1 as <-.
Qed.

(** [s2] differs from [s] by the section being made only. *)
Definition same_globals (s2 : sstate) : Prop :=
  ss_section_id s2 = ss_section_id s /\ ss_locked s2 = ss_locked s /\ ss_oracle s2 = ss_oracle s /\
  ss_error s2 = ss_error s.

(** The steps the calls share, for a name that is not in the table. *)
Lemma run_fresh name (K : option ptr -> SM (option asec)) (Q : option asec -> sstate -> Prop) :
  m !! name = None ->
  (forall s', may_fail -> runs (K None) s' Q) ->
  (forall p s1, making s b l (<[name := p]> m) p section_zero s1 -> same_globals s1 -> runs (K (Some p)) s1 Q) ->
  runs (section_hash_lookup b name true false ≫= K) s Q.
Proof using Hok HB Hsmall.
  intros Hm Hno Hyes. destruct section_table as [Hrep Hroom].
  apply run_bind. eapply lookup_creates; try done.
  - intros s' Hf. apply Hno. by right.
  - intros p t' Hp Hrep' Hroom' Hkeep Hdata Hlat. apply Hyes; [|done].
    exact (making_start _ _ _ _ _ _ _ _ Hok HB Hp Hrep' Hroom' Hkeep Hdata Hlat).
Qed.

Lemma run_finish name flags p s2 (Q : option asec -> sstate -> Prop) :
  m !! name = None ->
  making s b l (<[name := p]> m) p (set_s_flags flags (set_s_name (Some name) section_zero)) s2 ->
  same_globals s2 ->
  (forall s', may_fail -> Q None s') ->
  (forall s', section_made s b l m name flags p s' -> Q (Some (Own b p)) s') ->
  runs (bfd_section_init b (Own b p)) s2 Q.
Proof using Hok HB.
  intros Hm Hm2 (G1 & G2 & G3 & G4) Hno Hyes. eapply run_section_init; [exact Hm2| |].
  - intros s' Hf. rewrite G3 in Hf. apply Hno. by left.
  - intros s' Hmade J1 J2 J3 J4. rewrite G1 in Hmade, J1. rewrite G3 in J4. apply Hyes.
    split_and!; [by apply Hm2|by apply Hm2| |by apply Hmade|by apply Hmade| |done|congruence..].
    + eapply made_ok; [done|done|by apply Hm2|exact Hmade|done..].
    + intros B1 HB1. destruct (md_bfd _ _ _ _ _ _ _ Hmade) as (B0 & B' & HB0 & Hlat & HB' & _).
      rewrite HB1 in HB0. injection HB0 as <-. by exists B'.
Qed.

Lemma same_globals_put x d s1 : same_globals s1 -> same_globals (put_sec x d s1).
Proof using Type. intros (?&?&?&?). destruct (put_sec_rest x d s1) as (E1&E2&E3&E4). split_and!; congruence. Qed.

(** What bfd_make_section_old_way does, case by case. *)
Definition old_way_outcome (name : cstring) (r : option asec) (s' : sstate) : Prop :=
  if b_output_has_begun B then r = None /\ s' = set_ss_error (Some bfd_error_invalid_operation) s
  else
    match standard_section name, m !! name with
    | Some x, _ => r = Some x /\ s' = s
    | None, Some p => r = Some (Own b p) /\ s' = s
    | None, None => (r = None /\ may_fail) \/ exists p, r = Some (Own b p) /\ section_made s b l m name 0 p s'
    end.

Lemma old_way_spec name : runs (bfd_make_section_old_way b name) s (old_way_outcome name).
Proof using Hok HB Hsmall.
  unfold old_way_outcome. destruct section_table as [Hrep Hroom]. apply run_bind, (run_get_bfd _ B); [done|].
  destruct (b_output_has_begun B); [by apply run_bind, run_modify, run_ret|].
  destruct (standard_section name) as [x|]; [by apply run_ret|]. destruct (m !! name) as [p|] eqn:Hm.
  - apply run_bind. eapply lookup_existing; try done; [right; by rewrite Hm|]. rewrite Hm.
    pose proof Hm as Hp. apply (so_names _ _ _ _ Hok) in Hp as [Hin Hname].
    destruct (sec_at s (Own b p)) as [d|] eqn:Hd; [|done]. cbn in Hname.
    apply run_bind, (run_get_sec _ d); [done|]. rewrite Hname. by apply run_ret.
  - apply run_fresh; [done|intros; apply run_ret; by left|]. intros p s1 Hmk Hg.
    apply run_bind, (run_get_sec _ section_zero); [apply Hmk|]. cbn [s_name section_zero].
    apply run_bind. eapply run_making_set; [exact Hmk|]. intros Hm2.
    apply (run_finish name 0); [done|exact Hm2|by apply same_globals_put|by left|].
    intros s' Hs'. right. by exists p.
Qed.

(** And bfd_make_section_with_flags. *)
Definition with_flags_outcome (name : cstring) (flags : Z) (r : option asec) (s' : sstate) : Prop :=
  if b_output_has_begun B then r = None /\ s' = set_ss_error (Some bfd_error_invalid_operation) s
  else
    match standard_section name, m !! name with
    | Some _, _ | None, Some _ => r = None /\ s' = s
    | None, None => (r = None /\ may_fail) \/ exists p, r = Some (Own b p) /\ section_made s b l m name flags p s'
    end.

Lemma with_flags_spec name flags :
  runs (bfd_make_section_with_flags (Some b) (Some name) flags) s (with_flags_outcome name flags).
Proof using Hok HB Hsmall.
  unfold with_flags_outcome. destruct section_table as [Hrep Hroom]. apply run_bind, (run_get_bfd _ B); [done|].
  destruct (b_output_has_begun B); [by apply run_bind, run_modify, run_ret|].
  destruct (standard_section name) as [x|]; [by apply run_ret|]. destruct (m !! name) as [p|] eqn:Hm.
  - apply run_bind. eapply lookup_existing; try done; [right; by rewrite Hm|]. rewrite Hm.
    pose proof Hm as Hp. apply (so_names _ _ _ _ Hok) in Hp as [Hin Hname].
    destruct (sec_at s (Own b p)) as [d|] eqn:Hd; [|done]. cbn in Hname.
    apply run_bind, (run_get_sec _ d); [done|]. rewrite Hname. by apply run_ret.
  - apply run_fresh; [done|intros; apply run_ret; by left|]. intros p s1 Hmk Hg.
    apply run_bind, (run_get_sec _ section_zero); [apply Hmk|]. cbn [s_name section_zero].
    apply run_bind. eapply run_making_set; [exact Hmk|]. intros Hm2.
    apply run_bind. eapply run_making_set; [exact Hm2|]. intros Hm3.
    apply (run_finish name flags); [done|exact Hm3|by do 2 apply same_globals_put|by left|].
    intros s' Hs'. right. by exists p.
Qed.

Lemma by_name_spec name : runs (bfd_get_section_by_name b name) s (fun r s' =>
  s' = s /\ r = Own b <$> (name ≫= (m !!.))).
Proof using Hok HB Hsmall.
  destruct section_table as [Hrep Hroom]. destruct name as [name|]; [|by apply run_ret].
  apply run_bind. eapply lookup_existing; try done; [by left|]. by apply run_ret.
Qed.

End calls.

Arguments old_way_outcome : clear implicits.

(** ** Properties *)

(** C29: the five list operations of bfd.h do to the sections of a BFD what their
    names say: from the list [l1 ++ x :: l2] removing [x] leaves [l1 ++ l2] (and
    only then is [x] reported as removed); appending, prepending and inserting
    after or before an element put a section there.  Nothing else of the BFDs and
    of the sections changes but the links. *)
Theorem section_list_correct s b l1 a l2 x :
  sections_are s b (l1 ++ a :: l2) -> x ∉ l1 ++ a :: l2 -> owned b x -> is_Some (sec_at s x) ->
  let gives (m : SM unit) (l : list asec) := runs m s (fun _ s' => sections_are s' b l /\ list_frame b s s') in
  runs (bfd_section_removed_from_list b a) s (fun r s' => r = false /\ s' = s) /\
  runs (_ ← bfd_section_list_remove b a; bfd_section_removed_from_list b a) s (fun r s' =>
    r = true /\ sections_are s' b (l1 ++ l2) /\ list_frame b s s') /\
  gives (bfd_section_list_append b x) (l1 ++ a :: l2 ++ [x]) /\
  gives (bfd_section_list_prepend b x) (x :: l1 ++ a :: l2) /\
  gives (bfd_section_list_insert_after b a x) (l1 ++ a :: x :: l2) /\
  gives (bfd_section_list_insert_before b a x) (l1 ++ x :: a :: l2).
Proof.
  intros Hs Hx Ho Hd. destruct (sections_member _ _ _ a Hs) as [d Ha]; [set_solver|]. split_and!.
  - apply (removed_spec s b a d _ Hs Ha). set_solver.
  - by apply remove_then_removed.
  - replace (l1 ++ a :: l2 ++ [x]) with ((l1 ++ a :: l2) ++ [x]) by (by rewrite <- app_assoc).
    by apply list_append_spec.
  - by apply list_prepend_spec.
  - by apply list_insert_after_spec.
  - by apply list_insert_before_spec.
Qed.

(** C25: on a BFD whose list and table of sections agree,
    bfd_make_section_old_way refuses once output has begun, gives the standard
    section of a reserved name and the section that exists under a name; a new
    name gets a fresh section, cleared but for its name, owner and next id,
    numbered and listed last and found by name from then on, with all other
    sections, BFDs and the lock as before.  It fails only when an allocation, a
    lock or the target's hook does.  bfd_make_section_with_flags does the same but
    refuses names that are taken, and bfd_get_section_by_name finds exactly the
    sections of the list. *)
Theorem make_section_correct s b l m B name flags :
  sections_ok s b l m -> ss_bfds s !! b = Some B -> Z.of_nat (ht_brk (b_section_htab B)) < 2 ^ 28 ->
  runs (bfd_make_section_old_way b name) s (old_way_outcome s b l m B name) /\
  runs (bfd_make_section_with_flags (Some b) (Some name) flags) s (with_flags_outcome s b l m B name flags) /\
  runs (bfd_get_section_by_name b (Some name)) s (fun r s' =>
    s' = s /\ forall x, r = Some x <-> exists p, x = Own b p /\ p ∈ l /\ sec_at s x ≫= s_name = Some name).
Proof.
  intros Hok HB Hsmall. split_and!; [by apply old_way_spec|by apply with_flags_spec|].
  eapply run_mono; [by eapply (by_name_spec s b l m B)|]. intros r s' [-> ->]. split; [done|]. intros x.
  cbn. rewrite fmap_Some. split.
  - intros (p & Hp & ->). exists p. split; [done|]. by apply (so_names _ _ _ _ Hok).
  - intros (p & -> & Hp). exists p. split; [|done]. by apply (so_names _ _ _ _ Hok).
Qed.

(** ** At work *)

(** A BFD with no sections. *)
Definition demo_table : hash_table asection := mkHashTable (replicate 31 None) ∅ 0 [] 31 0 200 false.
Definition demo_bfd : bfd := mkBfd demo_table None None 0 false None.
Definition demo_world (oracle : list bool) : sstate :=
  mkSstate {[ 7%nat := demo_bfd ]} bfd_std_section 16 0 oracle None.

Lemma demo_table_represents : represents demo_table ∅.
Proof. by eapply (hash_init_represents true [] 200 31). Qed.

Lemma demo_ok oracle : sections_ok (demo_world oracle) 7 [] ∅.
Proof.
  constructor.
  - split; [constructor|]. split; [|split; [|constructor]]; by exists demo_bfd.
  - exists demo_bfd. split_and!; [done|apply demo_table_represents|vm_compute; discriminate|done].
  - intros n p. rewrite lookup_empty. split; [done|]. by intros [?%elem_of_nil _].
  - done.
Qed.

Lemma make_section_correct_witness :
  runs (bfd_make_section_old_way 7 (c_str ".text")) (demo_world [])
    (old_way_outcome (demo_world []) 7 [] ∅ demo_bfd (c_str ".text")).
Proof.
  refine (proj1 (make_section_correct (demo_world []) 7 [] ∅ demo_bfd (c_str ".text") 0 (demo_ok []) eq_refl _)).
  reflexivity.
Defined.

(** Two sections, one of them not yet in the list. *)
Definition demo_entry (name : string) (next prev : option asec) : hash_entry asection :=
  mkHashEntry None (c_str name) 0 (mkAsection (Some (c_str name)) 16 0 (Some 7%nat) next prev 0 0 0 0 None).
Definition demo_listed : sstate :=
  let heap := <[0%nat := demo_entry ".text" None None]> {[ 1%nat := demo_entry ".data" None None ]} in
  mkSstate {[ 7%nat := mkBfd (mkHashTable [] heap 2 [] 31 0 200 false) (Some (Own 7 0)) (Some (Own 7 0)) 1 false None ]}
    bfd_std_section 17 0 [] None.

Lemma section_list_correct_witness :
  runs (bfd_section_list_insert_before 7 (Own 7 0) (Own 7 1)) demo_listed (fun _ s' =>
    sections_are s' 7 [Own 7 1; Own 7 0] /\ list_frame 7 demo_listed s').
Proof.
  refine (proj2 (proj2 (proj2 (proj2 (proj2 (section_list_correct demo_listed 7 [] (Own 7 0) [] (Own 7 1) _ _ _ _)))))).
  - split; [apply NoDup_singleton|]. split; [|split; [|by repeat constructor]]; eexists; split_and!; try reflexivity.
    cbn [dll]. split; [|done]. eexists. by split_and!.
  - intros H%list_elem_of_singleton. discriminate H.
  - reflexivity.
  - by eexists.
Defined.

(** *** Where the code does not keep its word *)

(** When the target's hook fails the lock is not released and the section stays
    in the table without being in the list; the next call hands it out. *)
Lemma failed_hook_leaves_section :
  match (r1 ← bfd_make_section_old_way 7 (c_str ".text");
         r2 ← bfd_make_section_old_way 7 (c_str ".text");
         b ← get_bfd 7;
         ret (r1, r2, b_sections b, b_section_count b)) (demo_world [true; false]) with
  | Done (r, s) => r = (None, Some (Own 7 0), None, 0) /\ ss_locked s = 1
  | _ => False
  end.
Proof. vm_compute. split; reflexivity. Qed.

(** Of several sections with one name the search finds the oldest, and then the
    most recent. *)
Lemma by_name_finds_oldest :
  match (x ← bfd_make_section_anyway 7 (c_str ".text");
         y ← bfd_make_section_anyway 7 (c_str ".text");
         z ← bfd_make_section_anyway 7 (c_str ".text");
         r ← bfd_get_section_by_name 7 (Some (c_str ".text"));
         next ← bfd_get_next_section_by_name 9 None (default (Std 0) r);
         ret (x, y, z, r, next)) (demo_world []) with
  | Done ((x, y, z, r, next), _) => r = x /\ next = z /\ x <> z /\ y <> z
  | _ => False
  end.
Proof. vm_compute. split_and!; (reflexivity || discriminate). Qed.
