(* ===== verification/Linker.v ===== *)
(** Symbol resolution: linker.c's global table of symbols, the state table by
    which a symbol of an input file changes its entry, the list of undefined
    symbols, and the search of archives.

    The structures are declared in a header that the repository lacks; their
    fields are the ones linker.c uses.  An entry is a [link_kind], the union with
    its tag, and [lh_next], the link of the list of undefined symbols, which the
    code reads and writes whatever the tag is ([bfd_link_repair_undef_list] relies
    on its place).  The callbacks of the linker are recorded as events, in order,
    latest first; those that answer, and what the target and archive code does,
    are fields of [link_info]. *)

From S2P Require Import Prelude HashTable HashTableSpec StateRes BfdSection.

(** ** Data *)

(** [struct bfd_link_hash_common_entry] and the size next to its pointer. *)
Record common_entry := mkCommon {
  c_alignment_power : Z;
  c_section : asec;
  c_size : Z
}.

#[export] Instance common_entry_eq_dec : EqDecision common_entry.
Proof. solve_decision. Defined.

(** A common symbol without an entry is one whose allocation failed. *)
Inductive link_kind :=
| bfd_link_hash_new
| bfd_link_hash_undefined (abfd : option ptr)
| bfd_link_hash_undefweak (abfd : option ptr)
| bfd_link_hash_defined (section : asec) (value : Z)
| bfd_link_hash_defweak (section : asec) (value : Z)
| bfd_link_hash_common (c : option common_entry)
| bfd_link_hash_indirect (link : ptr)
| bfd_link_hash_warning (link : ptr) (warning : option cstring).

#[export] Instance link_kind_eq_dec : EqDecision link_kind.
Proof. solve_decision. Defined.

Record link_data := mkLink {
  lh_kind : link_kind;
  lh_next : option ptr;
  lh_linker_def : bool;
  lh_ldscript_def : bool;
  lh_non_ir_ref_regular : bool;
  lh_non_ir_ref_dynamic : bool;
  lh_wrapper_symbol : bool;
  lh_ref_real : bool;
  lh_written : bool;
  lh_sym : option ptr
}.

Definition set_lh_kind (v : link_kind) (x : link_data) : link_data :=
  mkLink v (lh_next x) (lh_linker_def x) (lh_ldscript_def x) (lh_non_ir_ref_regular x)
    (lh_non_ir_ref_dynamic x) (lh_wrapper_symbol x) (lh_ref_real x) (lh_written x) (lh_sym x).
Definition set_lh_next (v : option ptr) (x : link_data) : link_data :=
  mkLink (lh_kind x) v (lh_linker_def x) (lh_ldscript_def x) (lh_non_ir_ref_regular x)
    (lh_non_ir_ref_dynamic x) (lh_wrapper_symbol x) (lh_ref_real x) (lh_written x) (lh_sym x).
Definition set_lh_linker_def (v : bool) (x : link_data) : link_data :=
  mkLink (lh_kind x) (lh_next x) v (lh_ldscript_def x) (lh_non_ir_ref_regular x)
    (lh_non_ir_ref_dynamic x) (lh_wrapper_symbol x) (lh_ref_real x) (lh_written x) (lh_sym x).
Definition set_lh_ldscript_def (v : bool) (x : link_data) : link_data :=
  mkLink (lh_kind x) (lh_next x) (lh_linker_def x) v (lh_non_ir_ref_regular x)
    (lh_non_ir_ref_dynamic x) (lh_wrapper_symbol x) (lh_ref_real x) (lh_written x) (lh_sym x).
Definition set_lh_non_ir_ref_regular (v : bool) (x : link_data) : link_data :=
  mkLink (lh_kind x) (lh_next x) (lh_linker_def x) (lh_ldscript_def x) v (lh_non_ir_ref_dynamic x)
    (lh_wrapper_symbol x) (lh_ref_real x) (lh_written x) (lh_sym x).
Definition set_lh_non_ir_ref_dynamic (v : bool) (x : link_data) : link_data :=
  mkLink (lh_kind x) (lh_next x) (lh_linker_def x) (lh_ldscript_def x) (lh_non_ir_ref_regular x) v
    (lh_wrapper_symbol x) (lh_ref_real x) (lh_written x) (lh_sym x).
Definition set_lh_wrapper_symbol (v : bool) (x : link_data) : link_data :=
  mkLink (lh_kind x) (lh_next x) (lh_linker_def x) (lh_ldscript_def x) (lh_non_ir_ref_regular x)
    (lh_non_ir_ref_dynamic x) v (lh_ref_real x) (lh_written x) (lh_sym x).
Definition set_lh_ref_real (v : bool) (x : link_data) : link_data :=
  mkLink (lh_kind x) (lh_next x) (lh_linker_def x) (lh_ldscript_def x) (lh_non_ir_ref_regular x)
    (lh_non_ir_ref_dynamic x) (lh_wrapper_symbol x) v (lh_written x) (lh_sym x).
Definition set_lh_written (v : bool) (x : link_data) : link_data :=
  mkLink (lh_kind x) (lh_next x) (lh_linker_def x) (lh_ldscript_def x) (lh_non_ir_ref_regular x)
    (lh_non_ir_ref_dynamic x) (lh_wrapper_symbol x) (lh_ref_real x) v (lh_sym x).
Definition set_lh_sym (v : option ptr) (x : link_data) : link_data :=
  mkLink (lh_kind x) (lh_next x) (lh_linker_def x) (lh_ldscript_def x) (lh_non_ir_ref_regular x)
    (lh_non_ir_ref_dynamic x) (lh_wrapper_symbol x) (lh_ref_real x) (lh_written x) v.

(** What [_bfd_link_hash_newfunc] and [_bfd_generic_link_hash_newfunc] store in
    an entry. *)
Definition link_hash_init : link_data :=
  mkLink bfd_link_hash_new None false false false false false false false None.

Record asymbol := mkAsymbol {
  sy_name : option cstring;
  sy_flags : Z;
  sy_section : asec;
  sy_value : Z;
  sy_udata : option ptr
}.

Definition set_sy_name (v : option cstring) (x : asymbol) : asymbol :=
  mkAsymbol v (sy_flags x) (sy_section x) (sy_value x) (sy_udata x).
Definition set_sy_flags (v : Z) (x : asymbol) : asymbol :=
  mkAsymbol (sy_name x) v (sy_section x) (sy_value x) (sy_udata x).
Definition set_sy_section (v : asec) (x : asymbol) : asymbol :=
  mkAsymbol (sy_name x) (sy_flags x) v (sy_value x) (sy_udata x).
Definition set_sy_value (v : Z) (x : asymbol) : asymbol :=
  mkAsymbol (sy_name x) (sy_flags x) (sy_section x) v (sy_udata x).
Definition set_sy_udata (v : option ptr) (x : asymbol) : asymbol :=
  mkAsymbol (sy_name x) (sy_flags x) (sy_section x) (sy_value x) v.

(** The reports of the linker's callbacks. *)
Inductive event :=
| E_multiple_definition (h : ptr) (abfd : ptr) (section : asec) (value : Z)
| E_multiple_common (h : ptr) (abfd : ptr) (size : option Z)
| E_constructor (constructor : bool) (name : cstring) (abfd : ptr) (section : asec) (value : Z)
| E_add_to_set (h : ptr) (abfd : ptr) (section : asec) (value : Z)
| E_warning (warning : option cstring) (symbol : cstring) (abfd : option ptr)
| E_gc_note (abfd : option ptr)
| E_loop (abfd : ptr) (name string : option cstring)
| E_lto_slim (abfd : ptr)
| E_notice (h : ptr) (inh : option ptr) (abfd : ptr) (section : asec) (value flags : Z)
| E_add_archive_element (abfd : ptr) (name : option cstring).

Record lstate := mkLstate {
  l_table : hash_table link_data;
  l_undefs : option ptr;
  l_undefs_tail : option ptr;
  l_secs : sstate;
  l_syms : gmap ptr asymbol;
  l_events : list event;
  l_asserts : nat
}.

Definition set_l_table (v : hash_table link_data) (x : lstate) : lstate :=
  mkLstate v (l_undefs x) (l_undefs_tail x) (l_secs x) (l_syms x) (l_events x) (l_asserts x).
Definition set_l_undefs (v : option ptr) (x : lstate) : lstate :=
  mkLstate (l_table x) v (l_undefs_tail x) (l_secs x) (l_syms x) (l_events x) (l_asserts x).
Definition set_l_undefs_tail (v : option ptr) (x : lstate) : lstate :=
  mkLstate (l_table x) (l_undefs x) v (l_secs x) (l_syms x) (l_events x) (l_asserts x).
Definition set_l_secs (v : sstate) (x : lstate) : lstate :=
  mkLstate (l_table x) (l_undefs x) (l_undefs_tail x) v (l_syms x) (l_events x) (l_asserts x).
Definition set_l_syms (v : gmap ptr asymbol) (x : lstate) : lstate :=
  mkLstate (l_table x) (l_undefs x) (l_undefs_tail x) (l_secs x) v (l_events x) (l_asserts x).
Definition set_l_events (v : list event) (x : lstate) : lstate :=
  mkLstate (l_table x) (l_undefs x) (l_undefs_tail x) (l_secs x) (l_syms x) v (l_asserts x).
Definition set_l_asserts (v : nat) (x : lstate) : lstate :=
  mkLstate (l_table x) (l_undefs x) (l_undefs_tail x) (l_secs x) (l_syms x) (l_events x) v.

(** The parts of [struct bfd_link_info] that are read, and what code elsewhere
    answers. *)
Record link_info := mkInfo {
  i_notice_all : bool;
  i_notice_hash : option (hash_table unit);
  i_wrap_hash : option (hash_table unit);
  i_wrap_char : Z;
  i_lto_plugin_active : bool;
  i_gc_sections : bool;
  i_relocatable : bool;
  i_pei386_auto_import : bool;
  (** the callbacks that answer *)
  i_notice : cstring -> bool;
  i_add_archive_element : ptr -> option cstring -> option ptr;
  (** of a BFD: its leading char, whether a plugin made it, its target; the
      target of the output *)
  i_symbol_leading_char : ptr -> Z;
  i_plugin : ptr -> bool;
  i_xvec : ptr -> nat;
  i_output_xvec : nat;
  (** its symbols, when they can be read *)
  i_symbols : ptr -> option (list ptr);
  (** the element of an archive at an offset, when it is an object file *)
  i_element : Z -> option ptr
}.

Abbreviation LM := (M lstate).

(** ** Access to the state *)

Definition secs {A} (m : M sstate A) : LM A := zoom l_secs set_l_secs m.

Definition get_entry (h : ptr) : LM (hash_entry link_data) := o ← gets (fun s => ht_heap (l_table s) !! h); the o.
Definition get_h (h : ptr) : LM link_data := e ← get_entry h; ret (he_data e).
Definition set_h (h : ptr) (f : link_data -> link_data) : LM unit :=
  d ← get_h h;
  o ← gets (fun s => store_data h (f d) (l_table s));
  t ← the o;
  modify (set_l_table t).

Definition report (e : event) : LM unit := modify (fun s => set_l_events (e :: l_events s) s).
Definition BFD_ASSERT (b : bool) : LM unit :=
  if b then ret tt else modify (fun s => set_l_asserts (S (l_asserts s)) s).

(** [bfd_hash_allocate] on the table of symbols. *)
Definition hash_allocate : LM bool := fun s =>
  let '(ok, t) := objalloc_alloc (l_table s) in Done (ok, set_l_table t s).

(** A lookup without [create] in a table of names. *)
Definition listed (t : hash_table unit) (s : cstring) : LM bool :=
  '(r, _) ← the (bfd_hash_lookup tt t s false false); ret (bool_decide (is_Some r)).

(** ** Looking symbols up *)

(** [while (ret->type == bfd_link_hash_indirect || ...) ret = ret->u.i.link;] *)
Fixpoint follow_links (fuel : nat) (h : ptr) : LM ptr :=
  match fuel with
  | O => timeout
  | S fuel =>
      d ← get_h h;
      match lh_kind d with
      | bfd_link_hash_indirect link | bfd_link_hash_warning link _ => follow_links fuel link
      | _ => ret h
      end
  end.

Definition bfd_link_hash_lookup (fuel : nat) (string : option cstring) (create copy follow : bool)
    : LM (option ptr) :=
  match string with
  | None => ret None
  | Some string =>
      o ← gets (fun s => bfd_hash_lookup link_hash_init (l_table s) string create copy);
      '(r, t) ← the o;
      _ ← modify (set_l_table t);
      match r with
      | Some h => if follow then h ← follow_links fuel h; ret (Some h) else ret (Some h)
      | None => ret None
      end
  end.

Definition WRAP : cstring := c_str "__wrap_".
Definition REAL : cstring := c_str "__real_".

Definition startswith (s prefix : cstring) : bool := bool_decide (take (length prefix) s = prefix).

(** The name after a leading character, and that character. *)
Definition strip_leading (leading wrap_char : Z) (string : cstring) : option Z * cstring :=
  match string with
  | c :: l => if (c =? leading) || (c =? wrap_char) then (Some c, l) else (None, string)
  | [] => (None, [])
  end.

(** [n[0] = prefix; n[1] = 0; strcat (n, ...)] *)
Definition with_prefix (prefix : option Z) (n : cstring) : cstring :=
  match prefix with Some c => c :: n | None => n end.

Definition bfd_wrapped_link_hash_lookup (info : link_info) (fuel : nat) (abfd : ptr) (string : option cstring)
    (create copy follow : bool) : LM (option ptr) :=
  match i_wrap_hash info with
  | None => bfd_link_hash_lookup fuel string create copy follow
  | Some wrap_hash =>
      s ← the string;
      let '(prefix, l) := strip_leading (i_symbol_leading_char info abfd) (i_wrap_char info) s in
      wrapped ← listed wrap_hash l;
      if (wrapped : bool) then
        ok ← secs answer;
        if negb ok then ret None
        else
          h ← bfd_link_hash_lookup fuel (Some (with_prefix prefix (WRAP ++ l))) create true follow;
          match h with
          | Some h => _ ← set_h h (set_lh_wrapper_symbol true); ret (Some h)
          | None => ret None
          end
      else
        real ← (if startswith l REAL then listed wrap_hash (drop (length REAL) l) else ret false);
        if (real : bool) then
          ok ← secs answer;
          if negb ok then ret None
          else
            h ← bfd_link_hash_lookup fuel (Some (with_prefix prefix (drop (length REAL) l))) create true follow;
            match h with
            | Some h => _ ← set_h h (set_lh_ref_real true); ret (Some h)
            | None => ret None
            end
        else bfd_link_hash_lookup fuel string create copy follow
  end.

(** The name is looked up with its leading character moved to before the rest of
    the wrapped name, over the end of the prefix. *)
Definition unwrap_hash_lookup (info : link_info) (fuel : nat) (input_bfd : ptr) (h : ptr) : LM (option ptr) :=
  e ← get_entry h;
  let '(prefix, l) := strip_leading (i_symbol_leading_char info input_bfd) (i_wrap_char info) (he_string e) in
  if startswith l WRAP then
    let l := drop (length WRAP) l in
    wrap_hash ← the (i_wrap_hash info);
    wrapped ← listed wrap_hash l;
    if (wrapped : bool) then bfd_link_hash_lookup fuel (Some (with_prefix prefix l)) false false false
    else ret (Some h)
  else ret (Some h).

(** ** The list of undefined symbols *)

Definition bfd_link_add_undef (h : ptr) : LM unit :=
  d ← get_h h;
  _ ← BFD_ASSERT (bool_decide (lh_next d = None));
  tail ← gets l_undefs_tail;
  _ ← match tail with
      | Some t => set_h t (set_lh_next (Some h))
      | None => ret tt
      end;
  undefs ← gets l_undefs;
  _ ← match undefs with
      | None => modify (set_l_undefs (Some h))
      | Some _ => ret tt
      end;
  modify (set_l_undefs_tail (Some h)).

(** [pun] is the head of the list ([None]) or the [next] field of an entry. *)
Fixpoint repair_loop (fuel : nat) (pun : option ptr) : LM unit :=
  match fuel with
  | O => timeout
  | S fuel =>
      cur ← match pun with None => gets l_undefs | Some q => d ← get_h q; ret (lh_next d) end;
      match cur with
      | None => ret tt
      | Some h =>
          d ← get_h h;
          match lh_kind d with
          | bfd_link_hash_new | bfd_link_hash_undefweak _ =>
              _ ← match pun with
                  | None => modify (set_l_undefs (lh_next d))
                  | Some q => set_h q (set_lh_next (lh_next d))
                  end;
              _ ← set_h h (set_lh_next None);
              tail ← gets l_undefs_tail;
              if bool_decide (tail = Some h) then modify (set_l_undefs_tail pun)
              else repair_loop fuel pun
          | _ => repair_loop fuel (Some h)
          end
      end
  end.

Definition bfd_link_repair_undef_list (fuel : nat) : LM unit := repair_loop fuel None.

(** ** The state table *)

Inductive link_row := UNDEF_ROW | UNDEFW_ROW | DEF_ROW | DEFW_ROW | COMMON_ROW | INDR_ROW | WARN_ROW | SET_ROW.

Inductive action :=
| FAIL | UND | WEAK | DEF | DEFW | COM | REF | CREF | CDEF | NOACT | BIG | MDEF | MIND | IND | CIND | SET
| MWARN | WARN | CYCLE | REFC | WARNC.

#[export] Instance link_row_eq_dec : EqDecision link_row.
Proof. solve_decision. Defined.
#[export] Instance action_eq_dec : EqDecision action.
Proof. solve_decision. Defined.

(** [link_action[row]], one action for each type of entry. *)
Definition link_action (row : link_row) : list action :=
  match row with
  (* current\prev  new    undef  undefw def    defw   com    indr   warn *)
  | UNDEF_ROW  => [UND;   NOACT; UND;   REF;   REF;   NOACT; REFC;  WARNC]
  | UNDEFW_ROW => [WEAK;  NOACT; NOACT; REF;   REF;   NOACT; REFC;  WARNC]
  | DEF_ROW    => [DEF;   DEF;   DEF;   MDEF;  DEF;   CDEF;  MIND;  CYCLE]
  | DEFW_ROW   => [DEFW;  DEFW;  DEFW;  NOACT; NOACT; NOACT; NOACT; CYCLE]
  | COMMON_ROW => [COM;   COM;   COM;   CREF;  COM;   BIG;   REFC;  WARNC]
  | INDR_ROW   => [IND;   IND;   IND;   MDEF;  IND;   CIND;  MIND;  CYCLE]
  | WARN_ROW   => [MWARN; WARN;  WARN;  WARN;  WARN;  WARN;  WARN;  NOACT]
  | SET_ROW    => [SET;   SET;   SET;   SET;   SET;   SET;   CYCLE; CYCLE]
  end.

(** The number of [h->type] in the enumeration: the columns of the table. *)
Definition type_of (k : link_kind) : nat :=
  match k with
  | bfd_link_hash_new => 0
  | bfd_link_hash_undefined _ => 1
  | bfd_link_hash_undefweak _ => 2
  | bfd_link_hash_defined _ _ => 3
  | bfd_link_hash_defweak _ _ => 4
  | bfd_link_hash_common _ => 5
  | bfd_link_hash_indirect _ => 6
  | bfd_link_hash_warning _ _ => 7
  end.

Definition is_common (k : link_kind) : bool := match k with bfd_link_hash_common _ => true | _ => false end.

(** [h->ldscript_def] makes the entry count as undefined. *)
Definition action_for (row : link_row) (d : link_data) : option action :=
  link_action row !! (if lh_ldscript_def d then 1%nat else type_of (lh_kind d)).

Fixpoint hash_entry_bfd (fuel : nat) (h : ptr) : LM (option ptr) :=
  match fuel with
  | O => timeout
  | S fuel =>
      d ← get_h h;
      match lh_kind d with
      | bfd_link_hash_warning link _ => hash_entry_bfd fuel link
      | bfd_link_hash_undefined abfd | bfd_link_hash_undefweak abfd => ret abfd
      | bfd_link_hash_defined section _ | bfd_link_hash_defweak section _ =>
          s ← secs (get_sec section); ret (s_owner s)
      | bfd_link_hash_common c => c ← the c; s ← secs (get_sec (c_section c)); ret (s_owner s)
      | bfd_link_hash_new | bfd_link_hash_indirect _ => ret None
      end
  end.

(** libbfd.c *)
Fixpoint log2_loop (fuel : nat) (x result : Z) : Z :=
  match fuel with
  | O => result
  | S fuel =>
      let result := result + 1 in
      let x := x .>> 1 in
      if x =? 0 then result else log2_loop fuel x result
  end.
Definition bfd_log2 (x : Z) : Z := if x <=? 1 then 0 else log2_loop 64 (x - 1) 0.

(** ** Adding a symbol *)

Definition BSF_GLOBAL : Z := 0x2.
Definition BSF_WEAK : Z := 0x80.
Definition BSF_OLD_COMMON : Z := 0x200.
Definition BSF_CONSTRUCTOR : Z := 0x800.
Definition BSF_WARNING : Z := 0x1000.
Definition BSF_INDIRECT : Z := 0x2000.

Definition has (flags bit : Z) : bool := negb (flags .& bit =? 0).

(** The row of a symbol that is not indirect. *)
Definition plain_row (flags : Z) (section : asec) : LM link_row :=
  if has flags BSF_WARNING then ret WARN_ROW
  else if has flags BSF_CONSTRUCTOR then ret SET_ROW
  else if bfd_is_und_section section then ret (if has flags BSF_WEAK then UNDEFW_ROW else UNDEF_ROW)
  else if has flags BSF_WEAK then ret DEFW_ROW
  else
    common ← secs (bfd_is_com_section section);
    ret (if (common : bool) then COMMON_ROW else DEF_ROW).

(** The test for the name of the marker of slim LTO objects; a C string is read
    up to its null byte. *)
Definition char_at (s : cstring) (i : nat) : option Z := (s ++ [0]) !! i.
Definition lto_slim (name : cstring) : bool :=
  bool_decide (char_at name 0 = Some 95) && bool_decide (char_at name 1 = Some 95) &&
  bool_decide (drop (if bool_decide (char_at name 2 = Some 95) then 1 else 0) name = c_str "__gnu_lto_slim").

Definition warn_lto_slim (info : link_info) (abfd : ptr) (name : option cstring) : LM unit :=
  match name with
  | Some name => if negb (i_relocatable info) && lto_slim name then report (E_lto_slim abfd) else ret tt
  | None => ret tt
  end.

(** What the loop knows of the symbol. *)
Record request := mkRequest {
  r_abfd : ptr;
  r_name : option cstring;
  r_section : asec;
  r_value : Z;
  r_string : option cstring;
  r_copy : bool;
  r_collect : bool
}.

Definition CONS_PREFIX : cstring := c_str "GLOBAL_".

Fixpoint skip_underscores (s : cstring) : cstring :=
  match s with 95 :: s => skip_underscores s | _ => s end.

(** The names of constructors and destructors; a read after the end of the name
    is undefined. *)
Definition collect_constructor (oldtype : link_kind) (h : ptr) (r : request) : LM unit :=
  name ← the (r_name r);
  match name with
  | 95 :: s =>
      let s := skip_underscores s in
      if startswith s CONS_PREFIX then
        c ← the (char_at s 8);
        if (c =? 73) || (c =? 68) then
          a ← the (char_at s 7);
          b ← the (char_at s 9);
          if a =? b then
            match oldtype with
            | bfd_link_hash_defweak _ _ => undefined
            | _ =>
                e ← get_entry h;
                report (E_constructor (c =? 73) (he_string e) (r_abfd r) (r_section r) (r_value r))
            end
          else ret tt
        else ret tt
      else ret tt
  | _ => ret tt
  end.

(** The actions DEF and DEFW. *)
Definition define_symbol (weak : bool) (h : ptr) (r : request) : LM unit :=
  d ← get_h h;
  let oldtype := lh_kind d in
  let k := if weak then bfd_link_hash_defweak (r_section r) (r_value r)
           else bfd_link_hash_defined (r_section r) (r_value r) in
  _ ← set_h h (fun d => set_lh_ldscript_def false (set_lh_linker_def false (set_lh_kind k d)));
  if r_collect r then collect_constructor oldtype h r else ret tt.

(** [section->flags |= SEC_ALLOC], through the pointer the call returned. *)
Definition make_alloc_section (abfd : ptr) (name : cstring) : LM asec :=
  r ← secs (bfd_make_section_old_way abfd name);
  section ← the r;
  _ ← secs (set_sec section (fun d => set_s_flags (s_flags d .| SEC_ALLOC) d));
  ret section.

(** The section a common symbol would be allocated in. *)
Definition common_section (r : request) : LM asec :=
  if bool_decide (r_section r = bfd_com_section_ptr) then make_alloc_section (r_abfd r) (c_str "COMMON")
  else
    s ← secs (get_sec (r_section r));
    if bool_decide (s_owner s = Some (r_abfd r)) then ret (r_section r)
    else name ← the (s_name s); make_alloc_section (r_abfd r) name.

Definition common_power (value : Z) : Z := Z.min (bfd_log2 value) 4.

(** [h->u.c.size = value], and the alignment and section that go with it. *)
Definition set_common (h : ptr) (r : request) : LM unit :=
  section ← common_section r;
  set_h h (set_lh_kind (bfd_link_hash_common (Some (mkCommon (common_power (r_value r)) section (r_value r))))).

(** [if (h->u.undef.next == NULL && info->hash->undefs_tail != h) h->u.undef.next = h;] *)
Definition mark_referenced (h : ptr) : LM unit :=
  d ← get_h h;
  tail ← gets l_undefs_tail;
  if bool_decide (lh_next d = None) && negb (bool_decide (tail = Some h))
  then set_h h (set_lh_next (Some h)) else ret tt.

(** How one round of the loop ends: it fails, it is done (and may have put a
    new entry in the place of the symbol's), or it goes on. *)
Inductive round :=
| Fails
| Ends (sub : option ptr)
| Cycles (row : link_row) (h : ptr).

(** The action MWARN. *)
Definition make_warning (h : ptr) (r : request) : LM round :=
  o ← gets (fun s => bfd_hash_newfunc link_hash_init (l_table s));
  let '(sub, t) := o in
  _ ← modify (set_l_table t);
  match sub with
  | None => ret Fails
  | Some sub =>
      e ← get_entry h;
      w ← (if r_copy r then
             string ← the (r_string r); ok ← hash_allocate; ret (if (ok : bool) then Some (Some string) else None)
           else ret (Some (r_string r)));
      match w with
      | None => ret Fails
      | Some w =>
          let d := set_lh_kind (bfd_link_hash_warning h w) (he_data e) in
          _ ← modify (fun s => set_l_table (set_heap (<[sub := set_data d e]> (ht_heap (l_table s))) (l_table s)) s);
          o ← gets (fun s => bfd_hash_replace (l_table s) h sub);
          t ← the o;
          _ ← modify (set_l_table t);
          ret (Ends (Some sub))
      end
  end.

(** The actions IND and, after its report, CIND. *)
Definition make_indirect (row : link_row) (h : ptr) (inh : option ptr) (r : request) : LM round :=
  inh ← the inh;
  di ← get_h inh;
  if bool_decide (lh_kind di = bfd_link_hash_indirect h) then
    _ ← report (E_loop (r_abfd r) (r_name r) (r_string r));
    _ ← secs (bfd_set_error bfd_error_invalid_operation);
    ret Fails
  else
    _ ← match lh_kind di with
        | bfd_link_hash_new =>
            _ ← set_h inh (set_lh_kind (bfd_link_hash_undefined (Some (r_abfd r)))); bfd_link_add_undef inh
        | _ => ret tt
        end;
    d ← get_h h;
    _ ← set_h h (set_lh_kind (bfd_link_hash_indirect inh));
    ret (match lh_kind d with bfd_link_hash_new => Ends None | _ => Cycles UNDEF_ROW h end).

Definition multiple_definition (h : ptr) (r : request) : LM round :=
  _ ← report (E_multiple_definition h (r_abfd r) (r_section r) (r_value r)); ret (Ends None).

(** [h->u.i.link], of an indirect or warning symbol. *)
Definition link_of (k : link_kind) : option ptr :=
  match k with bfd_link_hash_indirect link | bfd_link_hash_warning link _ => Some link | _ => None end.

(** The body of the loop. *)
Definition add_symbol_round (info : link_info) (fuel : nat) (row : link_row) (h : ptr) (inh : option ptr)
    (r : request) : LM round :=
  d ← get_h h;
  a ← the (action_for row d);
  match a with
  | FAIL => undefined
  | NOACT => ret (Ends None)
  | UND =>
      _ ← set_h h (set_lh_kind (bfd_link_hash_undefined (Some (r_abfd r))));
      _ ← bfd_link_add_undef h;
      ret (Ends None)
  | WEAK => _ ← set_h h (set_lh_kind (bfd_link_hash_undefweak (Some (r_abfd r)))); ret (Ends None)
  | CDEF =>
      _ ← BFD_ASSERT (is_common (lh_kind d));
      _ ← report (E_multiple_common h (r_abfd r) None);
      _ ← define_symbol false h r;
      ret (Ends None)
  | DEF => _ ← define_symbol false h r; ret (Ends None)
  | DEFW => _ ← define_symbol true h r; ret (Ends None)
  | COM =>
      _ ← match lh_kind d with bfd_link_hash_new => bfd_link_add_undef h | _ => ret tt end;
      _ ← set_h h (set_lh_kind (bfd_link_hash_common None));
      ok ← hash_allocate;
      if negb ok then ret Fails
      else
        _ ← set_common h r;
        _ ← set_h h (fun d => set_lh_ldscript_def false (set_lh_linker_def false d));
        ret (Ends None)
  | REF => _ ← mark_referenced h; ret (Ends None)
  | BIG =>
      _ ← BFD_ASSERT (is_common (lh_kind d));
      _ ← report (E_multiple_common h (r_abfd r) (Some (r_value r)));
      c ← the (match lh_kind d with bfd_link_hash_common c => c | _ => None end);
      _ ← (if c_size c <? r_value r then set_common h r else ret tt);
      ret (Ends None)
  | CREF => _ ← report (E_multiple_common h (r_abfd r) (Some (r_value r))); ret (Ends None)
  | MIND =>
      link ← the (link_of (lh_kind d));
      if bool_decide (inh = Some link) then ret (Ends None)
      else
        dl ← get_h link;
        match lh_kind dl with
        | bfd_link_hash_defweak _ _ => ret (Cycles row link)
        | _ => multiple_definition h r
        end
  | MDEF => multiple_definition h r
  | CIND =>
      _ ← BFD_ASSERT (is_common (lh_kind d));
      _ ← report (E_multiple_common h (r_abfd r) None);
      make_indirect row h inh r
  | IND => make_indirect row h inh r
  | SET => _ ← report (E_add_to_set h (r_abfd r) (r_section r) (r_value r)); ret (Ends None)
  | WARNC =>
      _ ← match lh_kind d with
          | bfd_link_hash_warning link (Some w) =>
              if i_plugin info (r_abfd r) then ret tt
              else
                e ← get_entry h;
                _ ← report (E_warning (Some w) (he_string e) (Some (r_abfd r)));
                set_h h (set_lh_kind (bfd_link_hash_warning link None))
          | _ => ret tt
          end;
      link ← the (link_of (lh_kind d));
      ret (Cycles row link)
  | CYCLE => link ← the (link_of (lh_kind d)); ret (Cycles row link)
  | REFC =>
      _ ← mark_referenced h;
      link ← the (link_of (lh_kind d));
      ret (Cycles row link)
  | WARN =>
      tail ← gets l_undefs_tail;
      if (negb (i_lto_plugin_active info) &&
          (negb (bool_decide (lh_next d = None)) || bool_decide (tail = Some h)))
         || lh_non_ir_ref_regular d || lh_non_ir_ref_dynamic d
      then
        e ← get_entry h;
        abfd ← hash_entry_bfd fuel h;
        _ ← report (E_warning (r_string r) (he_string e) abfd);
        _ ← (if i_gc_sections info then report (E_gc_note abfd) else ret tt);
        ret (Ends None)
      else make_warning h r
  | MWARN => make_warning h r
  end.

(** [do ... while (cycle);]  The result is that of the function and the entry
    to store in [*hashp], if any. *)
Fixpoint add_symbol_loop (info : link_info) (bound fuel : nat) (row : link_row) (h : ptr) (inh : option ptr)
    (r : request) : LM (bool * option ptr) :=
  match fuel with
  | O => timeout
  | S fuel =>
      x ← add_symbol_round info bound row h inh r;
      match x with
      | Fails => ret (false, None)
      | Ends sub => ret (true, sub)
      | Cycles row h => add_symbol_loop info bound fuel row h inh r
      end
  end.

(** [hashp]: [None] is a null pointer, [Some v] points to [v].  Returns the
    result and what [*hashp] holds. *)
Definition _bfd_generic_link_add_one_symbol (info : link_info) (fuel : nat) (abfd : ptr)
    (name : option cstring) (flags : Z) (section : asec) (value : Z) (string : option cstring)
    (copy collect : bool) (hashp : option (option ptr)) : LM (bool * option (option ptr)) :=
  let r := mkRequest abfd name section value string copy collect in
  '(row, inh, failed) ← (if bfd_is_ind_section section || has flags BSF_INDIRECT then
         inh ← bfd_wrapped_link_hash_lookup info fuel abfd string true copy false;
         ret (INDR_ROW, inh, bool_decide (inh = None))
       else
         row ← plain_row flags section;
         _ ← (if decide (row = COMMON_ROW) then warn_lto_slim info abfd name else ret tt);
         ret (row, None, false) : LM (link_row * option ptr * bool));
  if (failed : bool) then ret (false, hashp)
  else
    h ← match hashp with
        | Some (Some h) => (ret (Some h) : LM (option ptr))
        | _ =>
            if decide (row = UNDEF_ROW \/ row = UNDEFW_ROW)
            then bfd_wrapped_link_hash_lookup info fuel abfd name true copy false
            else bfd_link_hash_lookup fuel name true copy false
        end;
    match h with
    | None => ret (false, (fun _ => None) <$> hashp)
    | Some h =>
        noticed ← match i_notice_all info, i_notice_hash info with
                  | true, _ => (ret true : LM bool)
                  | false, Some t => name ← the name; listed t name
                  | false, None => ret false
                  end;
        ok ← (if (noticed : bool) then
                e ← get_entry h;
                _ ← report (E_notice h inh abfd section value flags);
                ret (i_notice info (he_string e))
              else ret true);
        if negb ok then ret (false, hashp)
        else
          let hashp := (fun _ => Some h) <$> hashp in
          '(ok, sub) ← add_symbol_loop info fuel fuel row h inh r;
          ret (ok, match sub with Some s => (fun _ => Some s) <$> hashp | None => hashp end)
    end.
