(* ===== verification/LinkerFiles.v ===== *)
(** The input files of the linker: linker.c's reading of the symbols of objects
    and archives into the table, and what becomes of symbols afterwards (common
    symbols, __start and __stop symbols, alignment). *)

From S2P Require Import Prelude HashTable HashTableSpec StateRes BfdSection Linker.

(** ** Symbols of an object file *)

Definition get_sym (p : ptr) : LM asymbol := o ← gets (fun s => l_syms s !! p); the o.
Definition set_sym (p : ptr) (f : asymbol -> asymbol) : LM unit :=
  y ← get_sym p; modify (fun s => set_l_syms (<[p := f y]> (l_syms s)) s).

Definition bfd_asymbol_value (y : asymbol) : LM Z :=
  s ← secs (get_sec (sy_section y)); ret (u64 (s_vma s + sy_value y)).

(** The symbols [generic_link_add_symbol_list] looks at. *)
Definition is_global (y : asymbol) : LM bool :=
  if has (sy_flags y) (BSF_INDIRECT .| BSF_WARNING .| BSF_GLOBAL .| BSF_CONSTRUCTOR .| BSF_WEAK) then ret true
  else if bfd_is_und_section (sy_section y) then ret true
  else
    common ← secs (bfd_is_com_section (sy_section y));
    ret (common || bfd_is_ind_section (sy_section y)).

(** [h->sym = p], unless the symbol there tells more. *)
Definition save_symbol (p h : ptr) : LM unit :=
  y ← get_sym p;
  d ← get_h h;
  common ← secs (bfd_is_com_section (sy_section y));
  take_it ← match lh_sym d with
            | None => ret true
            | Some q =>
                if bfd_is_und_section (sy_section y) then ret false
                else if negb common then ret true
                else yq ← get_sym q; ret (bfd_is_und_section (sy_section yq))
            end;
  if (take_it : bool) then
    _ ← set_h h (set_lh_sym (Some p));
    if (common : bool) then set_sym p (fun y => set_sy_flags (sy_flags y .| BSF_OLD_COMMON) y) else ret tt
  else ret tt.

(** The body of the loop for the symbol [p], under the name [name] and with
    [string]. *)
Definition add_listed_symbol (info : link_info) (fuel : nat) (abfd p : ptr) (name string : option cstring) : LM bool :=
  y ← get_sym p;
  '(ok, bh) ← _bfd_generic_link_add_one_symbol info fuel abfd name (sy_flags y) (sy_section y) (sy_value y)
               string false false (Some None);
  if negb ok then ret false
  else
    h ← the bh;
    kind ← match h with Some h => d ← get_h h; ret (Some (lh_kind d)) | None => ret None end;
    if has (sy_flags y) BSF_CONSTRUCTOR && (bool_decide (kind = None) || bool_decide (kind = Some bfd_link_hash_new))
    then _ ← set_sym p (set_sy_udata None); ret true
    else
      _ ← (if (i_output_xvec info =? i_xvec info abfd)%nat then h ← the h; save_symbol p h else ret tt);
      _ ← set_sym p (set_sy_udata h);
      ret true.

(** An indirect symbol is followed by the symbol it stands for, a warning by
    the symbol it is about. *)
Fixpoint generic_link_add_symbol_list (info : link_info) (fuel : nat) (abfd : ptr) (symbols : list ptr) : LM bool :=
  match symbols with
  | [] => ret true
  | p :: pp =>
      y ← get_sym p;
      global ← is_global y;
      if negb global then generic_link_add_symbol_list info fuel abfd pp
      else
        let indirect := has (sy_flags y) BSF_INDIRECT || bfd_is_ind_section (sy_section y) in
        match pp with
        | q :: pp' =>
            if indirect || has (sy_flags y) BSF_WARNING then
              yq ← get_sym q;
              ok ← (if indirect then add_listed_symbol info fuel abfd p (sy_name y) (sy_name yq)
                    else add_listed_symbol info fuel abfd p (sy_name yq) (sy_name y));
              if (ok : bool) then generic_link_add_symbol_list info fuel abfd pp' else ret false
            else
              ok ← add_listed_symbol info fuel abfd p (sy_name y) (sy_name y);
              if (ok : bool) then generic_link_add_symbol_list info fuel abfd pp else ret false
        | [] => add_listed_symbol info fuel abfd p (sy_name y) (sy_name y)
        end
  end.

Definition generic_link_add_object_symbols (info : link_info) (fuel : nat) (abfd : ptr) : LM bool :=
  match i_symbols info abfd with
  | None => ret false
  | Some syms => generic_link_add_symbol_list info fuel abfd syms
  end.

(** ** Archives *)

(** [generic_link_check_archive_element]: the result and [*pneeded]. *)
Fixpoint check_element_loop (info : link_info) (fuel : nat) (abfd : ptr) (pp : list ptr) : LM (bool * bool) :=
  match pp with
  | [] => ret (true, false)
  | p :: pp =>
      y ← get_sym p;
      common ← secs (bfd_is_com_section (sy_section y));
      if negb common && negb (has (sy_flags y) (BSF_GLOBAL .| BSF_INDIRECT .| BSF_WEAK))
      then check_element_loop info fuel abfd pp
      else
        h ← bfd_link_hash_lookup fuel (sy_name y) false false true;
        match h with
        | None => check_element_loop info fuel abfd pp
        | Some h =>
            d ← get_h h;
            match lh_kind d with
            | bfd_link_hash_undefined symbfd =>
                if negb common || bool_decide (symbfd = None) then
                  _ ← report (E_add_archive_element abfd (sy_name y));
                  match i_add_archive_element info abfd (sy_name y) with
                  | None => ret (false, true)
                  | Some abfd => ok ← generic_link_add_object_symbols info fuel abfd; ret (ok, true)
                  end
                else
                  symbfd ← the symbfd;
                  _ ← set_h h (set_lh_kind (bfd_link_hash_common None));
                  ok ← hash_allocate;
                  if negb ok then ret (false, false)
                  else
                    size ← bfd_asymbol_value y;
                    section ← (if bool_decide (sy_section y = bfd_com_section_ptr)
                               then make_alloc_section symbfd (c_str "COMMON")
                               else s ← secs (get_sec (sy_section y));
                                    name ← the (s_name s);
                                    make_alloc_section symbfd name);
                    _ ← set_h h (set_lh_kind (bfd_link_hash_common
                                  (Some (mkCommon (common_power size) section size))));
                    check_element_loop info fuel abfd pp
            | bfd_link_hash_common c =>
                if negb common then
                  _ ← report (E_add_archive_element abfd (sy_name y));
                  match i_add_archive_element info abfd (sy_name y) with
                  | None => ret (false, true)
                  | Some abfd => ok ← generic_link_add_object_symbols info fuel abfd; ret (ok, true)
                  end
                else
                  c ← the c;
                  size ← bfd_asymbol_value y;
                  _ ← (if c_size c <? size
                       then set_h h (set_lh_kind (bfd_link_hash_common
                              (Some (mkCommon (c_alignment_power c) (c_section c) size))))
                       else ret tt);
                  check_element_loop info fuel abfd pp
            | _ => check_element_loop info fuel abfd pp
            end
        end
  end.

Definition generic_link_check_archive_element (info : link_info) (fuel : nat) (abfd : ptr) : LM (bool * bool) :=
  match i_symbols info abfd with
  | None => ret (false, false)
  | Some syms => check_element_loop info fuel abfd syms
  end.

(** [carsym]: an entry of the archive's symbol table. *)
Record carsym := mkCarsym { ar_name : option cstring; ar_file_offset : Z }.

(** [do included[mark] = 1; ... while (arsyms[mark].file_offset == last_ar_offset);] *)
Fixpoint mark_back (arsyms : list carsym) (last_ar_offset : Z) (mark : nat) (included : list bool) : list bool :=
  let included := <[mark := true]> included in
  match mark with
  | O => included
  | S m =>
      match arsyms !! m with
      | Some a => if ar_file_offset a =? last_ar_offset then mark_back arsyms last_ar_offset m included else included
      | None => included
      end
  end.

(** The state of one pass over the symbol table. *)
Record pass := mkPass {
  p_included : list bool;
  p_needed : bool;
  p_last_ar_offset : Z;
  p_element : option ptr;
  p_loop : bool
}.

Section archive.
Context (info : link_info) (fuel : nat).
Context (checkfn : ptr -> LM (bool * bool)).
Context (arsyms : list carsym).

Definition IMP : cstring := c_str "__imp_".

(** The entry of a symbol of the archive, if the link knows it. *)
Definition lookup_arsym (name : cstring) : LM (option ptr) :=
  h ← bfd_link_hash_lookup fuel (Some name) false false true;
  match h with
  | Some h => ret (Some h)
  | None =>
      if i_pei386_auto_import info && startswith name IMP
      then bfd_link_hash_lookup fuel (Some (drop (length IMP) name)) false false true
      else ret None
  end.

(** The body of the loop for the symbol [arsym], number [indx]; [None] is the
    jump to error_return. *)
Definition arsym_body (indx : nat) (arsym : carsym) (p : pass) : LM (option pass) :=
  done ← the (p_included p !! indx);
  if (done : bool) then ret (Some p)
  else if p_needed p && (ar_file_offset arsym =? p_last_ar_offset p) then
    ret (Some (mkPass (<[indx := true]> (p_included p)) (p_needed p) (p_last_ar_offset p) (p_element p) (p_loop p)))
  else
    match ar_name arsym with
    | None => ret None
    | Some name =>
        h ← lookup_arsym name;
        match h with
        | None => ret (Some p)
        | Some h =>
            d ← get_h h;
            match lh_kind d with
            | bfd_link_hash_undefined _ | bfd_link_hash_common _ =>
                let element :=
                  if p_last_ar_offset p =? ar_file_offset arsym then p_element p
                  else i_element info (ar_file_offset arsym) in
                if bool_decide (element = None) && negb (p_last_ar_offset p =? ar_file_offset arsym) then ret None
                else
                  elt ← the element;
                  undefs_tail ← gets l_undefs_tail;
                  '(ok, needed) ← checkfn elt;
                  if negb ok then ret None
                  else if (needed : bool) then
                    tail ← gets l_undefs_tail;
                    ret (Some (mkPass (mark_back arsyms (ar_file_offset arsym) indx (p_included p)) true
                                (ar_file_offset arsym) (Some elt)
                                (p_loop p || negb (bool_decide (undefs_tail = tail)))))
                  else ret (Some (mkPass (p_included p) false (ar_file_offset arsym) (Some elt) (p_loop p)))
            | bfd_link_hash_undefweak _ => ret (Some p)
            | _ => ret (Some (mkPass (<[indx := true]> (p_included p)) (p_needed p) (p_last_ar_offset p)
                                (p_element p) (p_loop p)))
            end
        end
    end.

Fixpoint arsym_loop (indx : nat) (syms : list carsym) (p : pass) : LM (option pass) :=
  match syms with
  | [] => ret (Some p)
  | a :: syms =>
      r ← arsym_body indx a p;
      match r with
      | None => ret None
      | Some p => arsym_loop (S indx) syms p
      end
  end.

Fixpoint archive_passes (passes : nat) (included : list bool) : LM bool :=
  match passes with
  | O => timeout
  | S passes =>
      r ← arsym_loop 0 arsyms (mkPass included false (-1) None false);
      match r with
      | None => ret false
      | Some p => if p_loop p then archive_passes passes (p_included p) else ret true
      end
  end.

(** [arsyms] is the symbol table of an archive that has one; without one,
    [empty] says whether the archive has no elements.  The allocation of
    [included] can fail. *)
Definition _bfd_generic_link_add_archive_symbols (has_map empty : bool) (passes : nat) : LM bool :=
  if negb has_map then
    if empty then ret true else _ ← secs (bfd_set_error bfd_error_no_armap); ret false
  else
    match arsyms with
    | [] => ret true
    | _ =>
        ok ← secs answer;
        if (ok : bool) then archive_passes passes (replicate (length arsyms) false) else ret false
    end.
End archive.

(** ** After the symbols are resolved *)

Definition SEC_HAS_CONTENTS : Z := 0x100.

(** [bfd_octets_per_byte] of the output is [opb]. *)
Definition bfd_generic_define_common_symbol (opb : Z) (h : ptr) : LM bool :=
  d ← get_h h;
  _ ← BFD_ASSERT (is_common (lh_kind d));
  c ← the (match lh_kind d with bfd_link_hash_common c => c | _ => None end);
  let size := c_size c in
  let power_of_two := c_alignment_power c in
  let section := c_section c in
  let alignment := if power_of_two =? 0 then 1 else u64 (opb .<< power_of_two) in
  _ ← BFD_ASSERT (negb (alignment =? 0) && (alignment .& u64 (- alignment) =? alignment));
  _ ← secs (set_sec section (fun s => set_s_size (u64 (s_size s + (alignment - 1))) s));
  _ ← secs (set_sec section (fun s => set_s_size (s_size s .& u64 (- alignment)) s));
  _ ← secs (set_sec section (fun s =>
        if s_alignment_power s <? power_of_two then set_s_alignment_power power_of_two s else s));
  s ← secs (get_sec section);
  _ ← set_h h (set_lh_kind (bfd_link_hash_defined section (s_size s)));
  _ ← secs (set_sec section (fun s => set_s_size (u64 (s_size s + size)) s));
  _ ← secs (set_sec section (fun s => set_s_flags (s_flags s .| SEC_ALLOC) s));
  _ ← secs (set_sec section (fun s =>
        set_s_flags (s_flags s .& u32 (Z.lnot (SEC_IS_COMMON .| SEC_HAS_CONTENTS))) s));
  ret true.

Definition bfd_generic_define_start_stop (fuel : nat) (symbol : option cstring) (sec : asec) : LM (option ptr) :=
  h ← bfd_link_hash_lookup fuel symbol false false true;
  match h with
  | None => ret None
  | Some h =>
      d ← get_h h;
      match lh_ldscript_def d, lh_kind d with
      | false, (bfd_link_hash_undefined _ | bfd_link_hash_undefweak _) =>
          _ ← set_h h (set_lh_kind (bfd_link_hash_defined sec 0)); ret (Some h)
      | _, _ => ret None
      end
  end.

Definition bfd_link_align_section (sec : asec) (align_p2 : Z) : LM bool :=
  d ← secs (get_sec sec);
  if s_alignment_power d <? align_p2 then
    ok ← secs (bfd_set_section_alignment sec align_p2);
    if negb ok then ret false
    else
      match s_output_section d with
      | None => ret true
      | Some osec =>
          o ← secs (get_sec osec);
          if s_alignment_power o <? align_p2 then secs (bfd_set_section_alignment osec align_p2) else ret true
      end
  else ret true.
