(* ===== verification/LinkerState.v ===== *)
(** The linker's state seen as a heap of symbols: updates of entries, the list
    of undefined symbols, the sections the symbols are in, and lookups. *)

From S2P Require Import Prelude HashTable HashTableSpec HashGrowth StateRes BfdSection SectionList SectionMake Linker.

(** ** The heap of symbols *)

Definition data_at (s : lstate) (h : ptr) : option link_data := he_data <$> ht_heap (l_table s) !! h.
Definition string_at (s : lstate) (h : ptr) : option cstring := he_string <$> ht_heap (l_table s) !! h.
Definition kind_at (s : lstate) (h : ptr) : option link_kind := lh_kind <$> data_at s h.

Definition put_h (h : ptr) (d : link_data) (s : lstate) : lstate :=
  set_l_table (set_heap (alter (set_data d) h (ht_heap (l_table s))) (l_table s)) s.

Lemma data_at_put h d s x : is_Some (data_at s h) -> data_at (put_h h d s) x = if decide (x = h) then Some d else data_at s x.
Proof.
  intros [d0 H]. unfold data_at in *. cbn. case_decide as Hx.
  - subst x. rewrite lookup_alter_eq. by destruct (ht_heap (l_table s) !! h).
  - by rewrite lookup_alter_ne.
Qed.

Lemma string_at_put h d s x : string_at (put_h h d s) x = string_at s x.
Proof.
  unfold string_at. cbn. destruct (decide (x = h)) as [->|Hx].
  - rewrite lookup_alter_eq. by destruct (ht_heap (l_table s) !! h).
  - by rewrite lookup_alter_ne.
Qed.

Lemma kind_at_put h d s x :
  is_Some (data_at s h) -> kind_at (put_h h d s) x = if decide (x = h) then Some (lh_kind d) else kind_at s x.
Proof. intros H. unfold kind_at. rewrite data_at_put by done. by case_decide. Qed.

Lemma run_get_entry h d s Q :
  data_at s h = Some d -> (forall e, he_data e = d -> string_at s h = Some (he_string e) -> Q e s) ->
  runs (get_entry h) s Q.
Proof.
  unfold data_at, string_at. intros (e & He & ->)%fmap_Some HQ. apply run_bind, run_gets.
  rewrite He in *. apply run_ret. by apply HQ.
Qed.

Lemma run_get_h h d s Q : data_at s h = Some d -> Q d s -> runs (get_h h) s Q.
Proof. intros H HQ. apply run_bind, (run_get_entry _ d); [done|]. intros e <- _. by apply run_ret. Qed.

Lemma run_set_h h f d s Q : data_at s h = Some d -> Q tt (put_h h (f d) s) -> runs (set_h h f) s Q.
Proof.
  intros H HQ. apply run_bind, (run_get_h _ d); [done|]. apply run_bind, run_gets.
  unfold data_at in H. apply fmap_Some in H as (e & He & ->).
  apply run_bind. eapply run_the; [by eapply store_data_eq|]. apply run_modify.
  unfold put_h in HQ. by rewrite <- (alter_insert _ _ e) in HQ.
Qed.

Lemma run_secs {A} (m : SM A) s Q : runs m (l_secs s) (fun a t => Q a (set_l_secs t s)) -> runs (secs m) s Q.
Proof. apply run_zoom. Qed.

Lemma set_secs_id s : set_l_secs (l_secs s) s = s.
Proof. by destruct s. Qed.

(** ** The table, but for the data of its entries *)

Record same_table (s s' : lstate) : Prop := {
  st_represents : forall m, represents (l_table s) m -> represents (l_table s') m;
  st_roomy : roomy (l_table s) -> roomy (l_table s');
  st_brk : ht_brk (l_table s') = ht_brk (l_table s);
  st_oracle : ht_oracle (l_table s) = [] -> ht_oracle (l_table s') = [];
  st_string : forall x, string_at s' x = string_at s x
}.

#[export] Instance same_table_preorder : PreOrder same_table.
Proof.
  split; [by intros s; constructor|]. intros s1 s2 s3 [A1 A2 A3 A4 A5] [B1 B2 B3 B4 B5].
  constructor; auto; [congruence|]. intros x. by rewrite B5, A5.
Qed.

Lemma same_table_put h d s : is_Some (data_at s h) -> same_table s (put_h h d s).
Proof.
  intros [d0 H]. unfold data_at in H. apply fmap_Some in H as (e & He & ->). constructor; try done.
  - intros m Hm. unfold put_h. cbn. rewrite <- (alter_insert _ _ e) by done. by apply represents_store.
  - apply string_at_put.
Qed.

(** The parts of the state besides the symbols. *)
Lemma same_table_eq s s' : l_table s' = l_table s -> same_table s s'.
Proof. intros E. constructor; unfold string_at; by rewrite E. Qed.

(** ** The list of undefined symbols *)

(** [l] from [undefs] along [next] to [undefs_tail]. *)
Fixpoint next_chain (s : lstate) (l : list ptr) : Prop :=
  match l with
  | [] => True
  | h :: l => (lh_next <$> data_at s h) = Some (head l) /\ next_chain s l
  end.

Record undefs_are (s : lstate) (l : list ptr) : Prop := {
  u_head : l_undefs s = head l;
  u_tail : l_undefs_tail s = last l;
  u_nodup : NoDup l;
  u_chain : next_chain s l
}.

Lemma next_chain_frame s s' l :
  (forall h, h ∈ l -> lh_next <$> data_at s' h = lh_next <$> data_at s h) -> next_chain s l -> next_chain s' l.
Proof.
  induction l as [|h l IH]; intros Hf; [done|]. intros [H1 H2]. split.
  - rewrite Hf; [done|left].
  - apply IH; [|done]. intros x Hx. apply Hf. by right.
Qed.

Lemma next_chain_member s l h : next_chain s l -> h ∈ l -> is_Some (data_at s h).
Proof.
  induction l as [|x l IH]; [by intros _ ?%elem_of_nil|]. intros [H1 H2] [->|Hh]%elem_of_cons; [|by apply IH].
  by destruct (data_at s x).
Qed.

(** A member without a next one is the last. *)
Lemma next_chain_last s l h d : next_chain s l -> h ∈ l -> data_at s h = Some d -> lh_next d = None -> last l = Some h.
Proof.
  induction l as [|x l IH]; [by intros _ ?%elem_of_nil|]. intros [H1 H2] [->|Hh]%elem_of_cons Hd Hn.
  - rewrite Hd in H1. cbn in H1. destruct l; [done|]. cbn in H1. congruence.
  - specialize (IH H2 Hh Hd Hn). destruct l; [by apply elem_of_nil in Hh|done].
Qed.

Lemma next_chain_snoc s s' l h t d :
  next_chain s (l ++ [t]) -> NoDup (l ++ [t]) -> data_at s t = Some d ->
  data_at s' t = Some (set_lh_next (Some h) d) -> (forall x, x ∈ l -> data_at s' x = data_at s x) ->
  lh_next <$> data_at s' h = Some None -> next_chain s' (l ++ [t] ++ [h]).
Proof.
  induction l as [|x l IH]; intros Hc Hnd Hd Ht Hf Hh.
  - cbn. by rewrite Ht.
  - cbn in *. destruct Hc as [H1 H2]. apply NoDup_cons in Hnd as [Hx Hnd]. split.
    + rewrite Hf by left. rewrite H1. by destruct l.
    + apply IH; try done. intros y Hy. apply Hf. by right.
Qed.

(** What stays when only the links of the list change. *)
Record list_kept (s s' : lstate) : Prop := {
  lk_data : forall x, set_lh_next None <$> data_at s' x = set_lh_next None <$> data_at s x;
  lk_table : same_table s s';
  lk_secs : l_secs s' = l_secs s;
  lk_syms : l_syms s' = l_syms s;
  lk_events : l_events s' = l_events s;
  lk_asserts : l_asserts s' = l_asserts s
}.

Lemma next_free_fmap {A} (f : link_data -> A) (o o' : option link_data) :
  (forall d, f (set_lh_next None d) = f d) ->
  set_lh_next None <$> o = set_lh_next None <$> o' -> f <$> o = f <$> o'.
Proof.
  intros Hf H. destruct o as [d|], o' as [d'|]; try done. apply (inj Some) in H.
  change (Some (f d) = Some (f d')). by rewrite <- (Hf d), <- (Hf d'), H.
Qed.

Lemma lk_kind s s' x : list_kept s s' -> kind_at s' x = kind_at s x.
Proof. intros H. by apply next_free_fmap, (lk_data _ _ H). Qed.

Lemma add_undef_spec s l h d :
  undefs_are s l -> h ∉ l -> data_at s h = Some d -> lh_next d = None ->
  runs (bfd_link_add_undef h) s (fun _ s' =>
    undefs_are s' (l ++ [h]) /\ list_kept s s' /\ (forall x, x ∉ l -> data_at s' x = data_at s x)).
Proof.
  intros [U1 U2 U3 U4] Hh Hd Hn. apply run_bind, (run_get_h _ d); [done|].
  rewrite Hn. rewrite bool_decide_true by done. apply run_bind, run_ret. apply run_bind, run_gets. rewrite U2.
  destruct l as [|t l _] using rev_ind.
  - apply run_bind, run_ret, run_bind, run_gets. rewrite U1. cbn [head]. apply run_bind, run_modify, run_modify.
    split; [|split; [by constructor; [|apply same_table_eq|..]|done]].
    constructor; try done; [apply NoDup_singleton|]. cbn.
    change (lh_next <$> data_at s h = Some None /\ True). by rewrite Hd, <- Hn.
  - rewrite last_snoc. destruct (next_chain_member s _ t U4) as [dt Hdt]; [set_solver|].
    apply run_bind, (run_set_h _ _ dt); [done|]. set (s1 := put_h t _ s).
    assert (forall x, data_at s1 x = if decide (x = t) then Some (set_lh_next (Some h) dt) else data_at s x) as Hx.
    { intros x. apply data_at_put. by eexists. }
    apply run_bind, run_gets. change (l_undefs s1) with (l_undefs s). rewrite U1.
    assert (is_Some (head (l ++ [t]))) as [f Hf] by (by destruct l; eexists). rewrite Hf.
    apply run_bind, run_ret, run_modify. split; [|split].
    + constructor; cbn.
      * rewrite U1. by destruct l.
      * by rewrite last_snoc.
      * apply NoDup_app. split_and!; [done| |apply NoDup_singleton]. intros x Hx1 ->%list_elem_of_singleton. done.
      * rewrite <- app_assoc.
        apply (next_chain_frame s1); [done|]. eapply (next_chain_snoc s s1 l h t dt); try done.
        -- by rewrite Hx, decide_True.
        -- intros x Hxl. rewrite Hx, decide_False; [done|]. apply NoDup_app in U3. set_solver.
        -- rewrite Hx, decide_False by set_solver. by rewrite Hd, <- Hn.
    + constructor; try done.
      * intros x. change (set_lh_next None <$> data_at s1 x = set_lh_next None <$> data_at s x). rewrite Hx.
        case_decide; [|done]. subst x. by rewrite Hdt.
      * etrans; [apply (same_table_put t); by eexists|]. by apply same_table_eq.
    + intros x Hxl. change (data_at s1 x = data_at s x). rewrite Hx, decide_False; [done|]. set_solver.
Qed.

(** ** The sections *)

(** Every call succeeds for the next [n] sections made. *)
Record secs_ok (n : Z) (ss : sstate) : Prop := {
  sk_oracle : ss_oracle ss = [];
  sk_bfds : forall b B, ss_bfds ss !! b = Some B ->
    b_output_has_begun B = false /\ ht_oracle (b_section_htab B) = [] /\
    Z.of_nat (ht_brk (b_section_htab B)) + n < 2 ^ 28 /\ exists l m, sections_ok ss b l m;
  sk_std : forall x i, x = Std i -> (i < 4)%nat -> is_Some (sec_at ss x)
}.

(** What no section loses when others are made. *)
Record secs_later (ss ss' : sstate) : Prop := {
  sl_secs : forall x d, sec_at ss x = Some d -> exists d', sec_at ss' x = Some d' /\
    s_name d' = s_name d /\ s_owner d' = s_owner d /\ s_flags d' .& SEC_IS_COMMON = s_flags d .& SEC_IS_COMMON;
  sl_bfds : forall b, is_Some (ss_bfds ss !! b) -> is_Some (ss_bfds ss' !! b)
}.

#[export] Instance secs_later_preorder : PreOrder secs_later.
Proof.
  split.
  - intros ss. constructor; [|done]. intros x d Hd. by exists d.
  - intros s1 s2 s3 [A1 A2] [B1 B2]. constructor; [|auto]. intros x d Hd.
    destruct (A1 x d Hd) as (d' & Hd' & E1 & E2 & E3). destruct (B1 x d' Hd') as (d'' & Hd'' & F1 & F2 & F3).
    exists d''. split_and!; [done|congruence..].
Qed.

Lemma secs_ok_mono n n' ss : n' <= n -> secs_ok n ss -> secs_ok n' ss.
Proof.
  intros Hn [H1 H2 H3]. constructor; [done| |done]. intros b B HB.
  destruct (H2 b B HB) as (?&?&?&?). split_and!; try done. lia.
Qed.

(** Storing flags that keep the section common or not. *)
Lemma sections_ok_put_flags ss b l m x d f :
  sections_ok ss b l m -> sec_at ss x = Some d -> sections_ok (put_sec x (set_s_flags f d) ss) b l m.
Proof.
  intros [O1 (B & HB & O2 & O3 & O4) O5 O6] Hd. assert (is_Some (sec_at ss x)) as Hx by by eexists.
  destruct (put_sec_bfds x (set_s_flags f d) ss b B Hx HB) as (B' & HB' & E1 & E2 & E3 & _ & _ & _ & _ & E4 & _ & E5 & E6).
  assert (forall y, exists g, (sec_at (put_sec x (set_s_flags f d) ss) y) = set_s_flags g <$> sec_at ss y \/
    sec_at (put_sec x (set_s_flags f d) ss) y = sec_at ss y) as Hy.
  { intros y. exists f. rewrite sec_at_put by done. case_decide as Hyx; [|by right]. subst y. left. by rewrite Hd. }
  constructor.
  - destruct O1 as (Hnd & (B1 & H1 & Hf & Hl) & (B2 & H2 & Hla & _) & Ho). simplify_eq.
    split_and!; [done| | |done].
    + exists B'. rewrite E1. split_and!; [done..|]. clear -Hl Hy. revert Hl.
      generalize (None : option asec) at 1 3. generalize (Own b <$> l). intros xs. induction xs as [|a xs IH]; intros p; [done|].
      intros [(da & Hda & Hp & Hn) Hl]. split; [|by apply IH]. destruct (Hy a) as [g [E|E]]; rewrite E, Hda; by eexists.
    + exists B'. by rewrite E2.
  - exists B'. split_and!; [done|by apply E5| |congruence]. unfold roomy in *. by rewrite E4, E6.
  - intros name p. rewrite (O5 name p). destruct (Hy (Own b p)) as [g [E|E]]; rewrite E; [|done].
    by destruct (sec_at ss (Own b p)).
  - intros i p Hi. destruct (O6 i p Hi) as (dp & Hdp & ?). destruct (Hy (Own b p)) as [g [E|E]]; rewrite E, Hdp; by eexists.
Qed.

Lemma secs_ok_put_flags n ss x d f : secs_ok n ss -> sec_at ss x = Some d -> secs_ok n (put_sec x (set_s_flags f d) ss).
Proof.
  intros [H1 H2 H3] Hd. assert (is_Some (sec_at ss x)) as Hx by by eexists. constructor.
  - destruct (put_sec_rest x (set_s_flags f d) ss) as (_ & _ & -> & _). done.
  - intros b B HB. assert (exists B0, ss_bfds ss !! b = Some B0) as [B0 HB0].
    { destruct x as [|c p]; cbn in HB; [by eexists|]. destruct (ss_bfds ss !! c) eqn:E; [|by eexists].
      cbn in HB. destruct (decide (c = b)) as [->|]; [by eexists|]. rewrite lookup_insert_ne in HB by done. by eexists. }
    destruct (put_sec_bfds x (set_s_flags f d) ss b B0 Hx HB0) as (B' & HB' & E1 & E2 & E3 & E4 & _ & E5 & _ & _ & _ & _ & E6).
    rewrite HB in HB'. injection HB' as <-. destruct (H2 b B0 HB0) as (?&?&?&l&m&?).
    rewrite E4, E5, E6. split_and!; [done..|]. exists l, m. by apply sections_ok_put_flags.
  - intros y i Hy Hi. rewrite sec_at_put by done. case_decide; [by eexists|by eapply H3].
Qed.

Lemma sections_ok_other ss ss' b l m :
  ss_bfds ss' !! b = ss_bfds ss !! b -> sections_ok ss b l m -> sections_ok ss' b l m.
Proof.
  intros E [O1 (B & HB & O2) O5 O6]. assert (forall p, sec_at ss' (Own b p) = sec_at ss (Own b p)) as Hs.
  { intros p. cbn. by rewrite E. }
  constructor.
  - apply (sections_are_ext ss ss' b _ B B); rewrite ?E; try done. intros x (q & -> & _)%list_elem_of_fmap. apply Hs.
  - exists B. by rewrite E.
  - intros name p. by rewrite Hs.
  - intros i p Hi. rewrite Hs. by apply O6.
Qed.

Lemma unlinked_fields d d' : unlinked d = unlinked d' -> s_name d = s_name d' /\ s_owner d = s_owner d' /\ s_flags d = s_flags d'.
Proof.
  intros H. change (s_name (unlinked d) = s_name (unlinked d') /\ s_owner (unlinked d) = s_owner (unlinked d') /\
    s_flags (unlinked d) = s_flags (unlinked d')). by rewrite H.
Qed.

Lemma section_made_ok n ss b l m name p ss' :
  secs_ok (n + 1) ss -> is_Some (ss_bfds ss !! b) -> section_made ss b l m name 0 p ss' ->
  secs_ok n ss' /\ secs_later ss ss' /\
  exists d, sec_at ss' (Own b p) = Some d /\ s_name d = Some name /\ s_owner d = Some b.
Proof.
  intros [H1 H2 H3] [B0 HB0] (Hp & Hnone & Hok' & Hsec & [K1 K2 K3] & Hlat & Hor & _).
  destruct (Hlat B0 HB0) as (B' & HB' & L1 & L2 & L3 & L4). destruct (H2 b B0 HB0) as (A1 & A2 & A3 & _).
  split_and!.
  - constructor; [by apply Hor| |].
    + intros c C HC. destruct (decide (c = b)) as [->|Hc].
      * rewrite HB' in HC. injection HC as <-. split_and!; [congruence|by apply L3|lia|by eexists _, _].
      * rewrite K2 in HC by done. destruct (H2 c C HC) as (?&?&?&lc&mc&Hc'). split_and!; [done..|lia|].
        exists lc, mc. apply (sections_ok_other ss); [|done]. by rewrite K2.
    + intros x i -> Hi. cbn. rewrite K3. by apply (H3 (Std i) i).
  - constructor.
    + intros x d Hd. destruct (decide (x = Own b p)) as [->|Hx]; [congruence|].
      specialize (K1 x Hx). rewrite Hd in K1. destruct (sec_at ss' x) as [d'|]; [|done]. apply (inj Some) in K1.
      apply unlinked_fields in K1 as (E1 & E2 & E3). exists d'. by rewrite E3.
    + intros c [C HC]. destruct (decide (c = b)) as [->|Hc]; [by eexists|]. rewrite K2 by done. by eexists.
  - destruct (sec_at ss' (Own b p)) as [d|]; [|done]. apply (inj Some) in Hsec. exists d.
    destruct (unlinked_fields d _ (Hsec : unlinked d = unlinked (initialised b (ss_section_id ss)
      (u32 (Z.of_nat (length l))) (set_s_flags 0 (set_s_name (Some name) section_zero))))) as (E1 & E2 & _).
    done.
Qed.

Lemma secs_later_put_flags ss x d f :
  sec_at ss x = Some d -> f .& SEC_IS_COMMON = s_flags d .& SEC_IS_COMMON ->
  secs_later ss (put_sec x (set_s_flags f d) ss).
Proof.
  intros Hd Hf. assert (is_Some (sec_at ss x)) as Hx by by eexists. constructor.
  - intros y dy Hy. rewrite sec_at_put by done. case_decide as E; [|by exists dy]. subst y.
    rewrite Hd in Hy. injection Hy as <-. by eexists.
  - intros b [B HB]. destruct (put_sec_bfds x (set_s_flags f d) ss b B Hx HB) as (B' & HB' & _). by eexists.
Qed.

Lemma alloc_keeps_common f : (f .| SEC_ALLOC) .& SEC_IS_COMMON = f .& SEC_IS_COMMON.
Proof. rewrite Z.land_lor_distr_l. change (SEC_ALLOC .& SEC_IS_COMMON) with 0. by rewrite Z.lor_0_r. Qed.

(** The section [bfd_make_section_old_way] gives for a name. *)
Definition section_named (ss : sstate) (b : ptr) (name : cstring) (x : asec) : Prop :=
  match standard_section name with
  | Some y => x = y
  | None => exists d, sec_at ss x = Some d /\ s_name d = Some name /\ s_owner d = Some b
  end.

Lemma standard_section_std name x : standard_section name = Some x -> exists i, x = Std i /\ (i < 4)%nat.
Proof. unfold standard_section. intros H. repeat case_bool_decide; simplify_eq; eexists; (split; [reflexivity|lia]). Qed.

Lemma old_way_ok n ss b name :
  0 <= n -> secs_ok (n + 1) ss -> is_Some (ss_bfds ss !! b) ->
  runs (bfd_make_section_old_way b name) ss (fun r ss' => exists x, r = Some x /\
    secs_ok n ss' /\ secs_later ss ss' /\ is_Some (sec_at ss' x) /\ section_named ss' b name x).
Proof.
  intros Hn Hok [B HB]. destruct (sk_bfds _ _ Hok b B HB) as (A1 & A2 & A3 & l & m & Hs).
  eapply run_mono; [apply (old_way_spec ss b l m B Hs HB)|]; [lia|].
  intros r ss' H. unfold old_way_outcome in H. rewrite A1 in H. unfold section_named.
  destruct (standard_section name) as [x|] eqn:Hstd.
  - destruct H as [-> ->]. exists x. destruct (standard_section_std _ _ Hstd) as (i & -> & Hi).
    split_and!; [done|apply (secs_ok_mono (n + 1)); [lia|done]|done|by eapply (sk_std _ _ Hok)|done].
  - destruct (m !! name) as [p|] eqn:Hm.
    + destruct H as [-> ->]. exists (Own b p). apply (so_names _ _ _ _ Hs) in Hm as [Hin Hname].
      destruct (sec_at ss (Own b p)) as [d|] eqn:Hd; [|done]. cbn in Hname.
      apply list_elem_of_lookup in Hin as [i Hi]. destruct (so_index _ _ _ _ Hs i p Hi) as (d' & Hd' & _ & Hown).
      rewrite Hd in Hd'. injection Hd' as <-.
      split_and!; [done|apply (secs_ok_mono (n + 1)); [lia|done]|done|by eexists|by exists d].
    + destruct H as [[_ [H|H]]|(p & -> & Hmade)].
      * rewrite (sk_oracle _ _ Hok) in H. by apply elem_of_nil in H.
      * rewrite A2 in H. by apply elem_of_nil in H.
      * destruct (section_made_ok n ss b l m name p ss' Hok ltac:(by eexists) Hmade) as (K1 & K2 & d & Hd & K3).
        exists (Own b p). split_and!; [done..|by eexists|by exists d].
Qed.

Lemma section_named_put ss b name x y d f :
  sec_at ss y = Some d -> section_named ss b name x -> section_named (put_sec y (set_s_flags f d) ss) b name x.
Proof.
  unfold section_named. intros Hd. destruct (standard_section name); [done|]. intros (dx & Hx & E1 & E2).
  rewrite sec_at_put by by eexists. case_decide as E; [|by exists dx]. subst y. rewrite Hd in Hx. injection Hx as <-.
  by eexists.
Qed.

(** Making a section for common symbols. *)
Lemma make_alloc_spec n s b name Q :
  0 <= n -> secs_ok (n + 1) (l_secs s) -> is_Some (ss_bfds (l_secs s) !! b) ->
  (forall x ss', secs_ok n ss' -> secs_later (l_secs s) ss' -> is_Some (sec_at ss' x) ->
     section_named ss' b name x -> Q x (set_l_secs ss' s)) ->
  runs (make_alloc_section b name) s Q.
Proof.
  intros Hn Hok Hb HQ. apply run_bind, run_secs. eapply run_mono; [by apply (old_way_ok n)|].
  intros r ss1 (x & -> & H1 & H2 & [d Hd] & H3). apply run_bind. eapply run_the; [done|].
  apply run_bind, run_secs. apply (run_set_sec _ _ d); [done|]. apply run_ret.
  pose proof (alloc_keeps_common (s_flags d)) as Hc. set (ss2 := put_sec x _ _).
  assert (ss2 = put_sec x (set_s_flags (s_flags d .| SEC_ALLOC) d) ss1) as -> by done.
  assert (is_Some (sec_at ss1 x)) as Hx by by exists d.
  apply (HQ x); [by apply secs_ok_put_flags| |rewrite at_put by done; by eexists|by apply section_named_put].
  etrans; [done|]. by apply secs_later_put_flags.
Qed.
