(* ===== verification/LinkerRound.v ===== *)
(** The invariant of the linker's table and what each action of the state table
    does to it. *)

From S2P Require Import Prelude HashTable HashTableSpec HashGrowth StateRes BfdSection SectionList SectionMake.
From S2P Require Import Linker LinkerState.

(** ** The invariant *)

Definition link_at (s : lstate) (h : ptr) : option ptr := kind_at s h ≫= link_of.

(** [q] is reached from [p] along links. *)
Definition reaches (s : lstate) : ptr -> ptr -> Prop := rtc (fun p q => link_at s p = Some q).

(** What the kind of the entry [h] asks of the rest; [l] is the list of
    undefined symbols. *)
Definition kind_ok (s : lstate) (l : list ptr) (h : ptr) (k : link_kind) : Prop :=
  match k with
  | bfd_link_hash_undefined _ => h ∈ l
  | bfd_link_hash_new | bfd_link_hash_undefweak _ => h ∉ l /\ lh_next <$> data_at s h = Some None
  | bfd_link_hash_defined x _ | bfd_link_hash_defweak x _ => is_Some (sec_at (l_secs s) x)
  | bfd_link_hash_common c => exists c', c = Some c' /\ is_Some (sec_at (l_secs s) (c_section c'))
  | bfd_link_hash_indirect q | bfd_link_hash_warning q _ => is_Some (kind_at s q)
  end.

Record linked (n : Z) (s : lstate) (m : gmap cstring ptr) (l : list ptr) : Prop := {
  g_table : represents (l_table s) m;
  g_roomy : roomy (l_table s);
  g_brk : Z.of_nat (ht_brk (l_table s)) + n < 2 ^ 28;
  g_oracle : ht_oracle (l_table s) = [];
  g_secs : secs_ok n (l_secs s);
  g_undefs : undefs_are s l;
  g_kinds : forall h k, kind_at s h = Some k -> kind_ok s l h k;
  g_links : forall h, Acc (fun q p => link_at s p = Some q) h
}.

Lemma linked_mono n n' s m l : n' <= n -> linked n s m l -> linked n' s m l.
Proof.
  intros Hn [H1 H2 H3 H4 H5 H6 H7 H8]. constructor; try done; [lia|]. by apply (secs_ok_mono n).
Qed.

Lemma kind_at_Some s h k : kind_at s h = Some k <-> exists d, data_at s h = Some d /\ lh_kind d = k.
Proof. unfold kind_at. rewrite fmap_Some. naive_solver. Qed.

(** Replacing one entry's links keeps the links well founded when the new
    target does not lead back. *)
Lemma links_update (s s' : lstate) h o :
  (forall x, link_at s' x = if decide (x = h) then o else link_at s x) ->
  (forall q, o = Some q -> ~ reaches s q h) ->
  (forall x, Acc (fun q p => link_at s p = Some q) x) -> forall x, Acc (fun q p => link_at s' p = Some q) x.
Proof.
  intros Hl Ho Hacc.
  assert (forall x, ~ reaches s x h -> Acc (fun q p => link_at s' p = Some q) x) as Haway.
  { intros x. induction (Hacc x) as [x _ IH]. intros Hx. constructor. intros q Hq. rewrite Hl in Hq.
    destruct (decide (x = h)) as [->|Hne]; [by destruct Hx; apply rtc_refl|].
    apply IH; [done|]. intros Hqh. apply Hx. by eapply rtc_l. }
  intros x. induction (Hacc x) as [x _ IH]. constructor. intros q Hq. rewrite Hl in Hq.
  destruct (decide (x = h)) as [->|Hne]; [by apply Haway, Ho|by apply IH].
Qed.

Lemma no_cycle s h q :
  (forall x, Acc (fun q p => link_at s p = Some q) x) -> link_at s h = Some q -> ~ reaches s q h.
Proof.
  intros Hacc. revert q. induction (Hacc h) as [h _ IH]. intros q Hhq Hr.
  apply rtc_inv in Hr as [->|(y & Hqy & Hr)]; [by eapply (IH h Hhq); [done|apply rtc_refl]|].
  eapply (IH q Hhq); [exact Hqy|]. eapply rtc_r; [exact Hr|done].
Qed.

(** ** Changes of one entry *)

(** What an entry keeps besides its kind and place. *)
Definition entry_kept (d d' : link_data) : Prop :=
  (lh_ldscript_def d' = true -> lh_ldscript_def d = true) /\ lh_sym d' = lh_sym d.

#[export] Instance entry_kept_preorder : PreOrder entry_kept.
Proof. split; [by intros d|]. intros d1 d2 d3 [A1 A2] [B1 B2]. split; [auto|congruence]. Qed.

(** The entry [h] gets the kind [k], with the reports [evs]; no other entry
    changes its kind, and none becomes defined by the linker script. *)
Record becomes (h : ptr) (k : link_kind) (evs : list event) (s s' : lstate) : Prop := {
  bc_kind : forall x, kind_at s' x = if decide (x = h) then Some k else kind_at s x;
  bc_script : forall x d', data_at s' x = Some d' -> exists d, data_at s x = Some d /\ entry_kept d d';
  bc_events : l_events s' = evs ++ l_events s;
  bc_asserts : l_asserts s' = l_asserts s;
  bc_syms : l_syms s' = l_syms s;
  bc_table : same_table s s';
  bc_secs : secs_later (l_secs s) (l_secs s')
}.

Lemma linked_update n n' s m l s' l' h k evs :
  linked n s m l -> n' <= n -> becomes h k evs s s' -> secs_ok n' (l_secs s') -> undefs_are s' l' ->
  (forall x, x ∈ l -> x ∈ l') -> (forall x, x ∈ l' -> x ∈ l \/ x = h) ->
  (forall x, x <> h -> x ∉ l -> lh_next <$> data_at s' x = lh_next <$> data_at s x) ->
  is_Some (data_at s h) -> kind_ok s' l' h k -> (forall q, link_of k = Some q -> ~ reaches s q h) ->
  linked n' s' m l'.
Proof.
  intros [H1 H2 H3 H4 H5 H6 H7 H8] Hn [B1 B2 B3 B4 B5 [T1 T2 T3 T4 T5] B7] Hsecs Hu Hl1 Hl2 Hnext [d0 Hh] Hk Hacyc.
  constructor; [by apply T1|by apply T2|rewrite T3; lia|by apply T4|done|done| |].
  - intros x kx Hx. rewrite B1 in Hx. case_decide as E; [subst x; by injection Hx as <-|].
    specialize (H7 x kx Hx). destruct kx as [|a|a|y v|y v|c|q|q w]; cbn in H7 |- *.
    + destruct H7 as [Hxl Hn0]. split; [intros [?|?]%Hl2; done|]. by rewrite Hnext.
    + by apply Hl1.
    + destruct H7 as [Hxl Hn0]. split; [intros [?|?]%Hl2; done|]. by rewrite Hnext.
    + destruct H7 as [d Hd]. destruct (sl_secs _ _ B7 y d Hd) as (d' & Hd' & _). by eexists.
    + destruct H7 as [d Hd]. destruct (sl_secs _ _ B7 y d Hd) as (d' & Hd' & _). by eexists.
    + destruct H7 as (c' & -> & [d Hd]). destruct (sl_secs _ _ B7 _ d Hd) as (d' & Hd' & _). exists c'. split; [done|by eexists].
    + rewrite B1. case_decide; [by eexists|done].
    + rewrite B1. case_decide; [by eexists|done].
  - apply (links_update s s' h (link_of k)); [|done|done]. intros x. unfold link_at. rewrite B1. by case_decide.
Qed.

(** *** Storing a kind, and nothing else *)

Lemma becomes_put h d d' s :
  data_at s h = Some d -> entry_kept d d' ->
  becomes h (lh_kind d') [] s (put_h h d' s).
Proof.
  intros Hd Hs. assert (is_Some (data_at s h)) as Hh by by eexists. constructor; try done.
  - intros x. by apply kind_at_put.
  - intros x dx Hx. rewrite data_at_put in Hx by done. case_decide as E; [|by exists dx].
    subst x. injection Hx as <-. by exists d.
  - by apply same_table_put.
Qed.

Lemma undefs_put s l h d d' :
  data_at s h = Some d -> lh_next d' = lh_next d -> undefs_are s l -> undefs_are (put_h h d' s) l.
Proof.
  intros Hd Hn [U1 U2 U3 U4]. constructor; try done. apply (next_chain_frame s); [|done].
  intros x Hx. rewrite data_at_put by by eexists. case_decide as E; [|done]. subst x. rewrite Hd. cbn. by rewrite Hn.
Qed.

Lemma linked_put n s m l h d d' :
  linked n s m l -> data_at s h = Some d -> lh_next d' = lh_next d ->
  entry_kept d d' ->
  kind_ok (put_h h d' s) l h (lh_kind d') -> (forall q, link_of (lh_kind d') = Some q -> ~ reaches s q h) ->
  linked n (put_h h d' s) m l.
Proof.
  intros Hlk Hd Hn Hs Hk Hacyc. assert (is_Some (data_at s h)) as Hh by by eexists.
  eapply (linked_update n n); [exact Hlk|lia|by apply (becomes_put h d)|by apply Hlk| | | | |done|done|done].
  - eapply undefs_put; [done|done|by apply Hlk].
  - done.
  - by left.
  - intros x Hx _. rewrite data_at_put by done. by rewrite decide_False.
Qed.

(** Changes of the reports only. *)
Lemma linked_ext n s s' m l :
  l_table s' = l_table s -> l_undefs s' = l_undefs s -> l_undefs_tail s' = l_undefs_tail s -> l_secs s' = l_secs s ->
  linked n s m l -> linked n s' m l.
Proof.
  intros E1 E2 E3 E4 [H1 H2 H3 H4 H5 [U1 U2 U3 U4] H7 H8].
  assert (forall x, data_at s' x = data_at s x) as Hd by (intros x; unfold data_at; by rewrite E1).
  assert (forall x, kind_at s' x = kind_at s x) as Hk by (intros x; unfold kind_at; by rewrite Hd).
  assert (forall x, link_at s' x = link_at s x) as Hl by (intros x; unfold link_at; by rewrite Hk).
  constructor; [by rewrite E1..|by rewrite E4| | |].
  - constructor; [by rewrite E2|by rewrite E3|done|]. apply (next_chain_frame s); [|done]. intros x _. by rewrite Hd.
  - intros h k Hh. rewrite Hk in Hh. specialize (H7 h k Hh). destruct k; cbn in H7 |- *; rewrite ?Hd, ?Hk, ?E4; done.
  - intros h. induction (H8 h) as [h _ IH]. constructor. intros q Hq. rewrite Hl in Hq. by apply IH.
Qed.

Lemma becomes_refl h k s : kind_at s h = Some k -> becomes h k [] s s.
Proof.
  intros Hk. constructor; try done; [|by intros x d Hd; exists d]. intros x. by case_decide as E; [subst|].
Qed.

Lemma becomes_trans h k1 k2 evs1 evs2 s1 s2 s3 :
  becomes h k1 evs1 s1 s2 -> becomes h k2 evs2 s2 s3 -> becomes h k2 (evs2 ++ evs1) s1 s3.
Proof.
  intros [A1 A2 A3 A4 A5 A6 A7] [B1 B2 B3 B4 B5 B6 B7]. constructor.
  - intros x. rewrite B1, A1. by case_decide.
  - intros x d'' Hx. destruct (B2 x d'' Hx) as (d' & Hd' & Hs). destruct (A2 x d' Hd') as (d & Hd & Hs').
    exists d. split; [done|by etrans].
  - by rewrite B3, A3, app_assoc.
  - congruence.
  - congruence.
  - by etrans.
  - by etrans.
Qed.

Lemma becomes_event h k s e : kind_at s h = Some k -> becomes h k [e] s (set_l_events (e :: l_events s) s).
Proof.
  intros Hk. constructor; try done.
  - intros x. change (kind_at (set_l_events (e :: l_events s) s) x) with (kind_at s x). by case_decide as E; [subst|].
  - intros x d Hd. by exists d.
Qed.

(** A change of the sections only. *)
Lemma becomes_secs h k s ss : kind_at s h = Some k -> secs_later (l_secs s) ss -> becomes h k [] s (set_l_secs ss s).
Proof.
  intros Hk Hl. constructor; try done.
  - intros x. change (kind_at (set_l_secs ss s) x) with (kind_at s x). by case_decide as E; [subst|].
  - intros x d Hd. by exists d.
Qed.

(** ** The parts of the actions *)

Section parts.
Context (n : Z) (s : lstate) (m : gmap cstring ptr) (l : list ptr) (h : ptr) (d : link_data).
Context (Hlk : linked n s m l) (Hd : data_at s h = Some d).

Lemma entry_exists : is_Some (data_at s h).
Proof using Hd. by eexists. Qed.

Lemma entry_kind : kind_at s h = Some (lh_kind d).
Proof using Hd. unfold kind_at. by rewrite Hd. Qed.

(** *** References *)

Lemma mark_referenced_spec :
  match lh_kind d with bfd_link_hash_new | bfd_link_hash_undefweak _ => False | _ => True end ->
  runs (mark_referenced h) s (fun _ s' => linked n s' m l /\ becomes h (lh_kind d) [] s s').
Proof using Hlk Hd.
  intros Hkind. apply run_bind, (run_get_h _ d); [done|]. apply run_bind, run_gets.
  destruct (bool_decide (lh_next d = None)) eqn:Hn; cbn [andb];
    [|apply run_ret; split; [done|by apply becomes_refl, entry_kind]].
  destruct (bool_decide (l_undefs_tail s = Some h)) eqn:Ht; cbn [negb];
    [apply run_ret; split; [done|by apply becomes_refl, entry_kind]|]. bool_prop.
  pose proof (g_undefs _ _ _ _ Hlk) as [U1 U2 U3 U4].
  assert (h ∉ l) as Hl.
  { intros Hl. rewrite (next_chain_last s l h d) in U2 by done. done. }
  apply (run_set_h _ _ d); [done|].
  assert (becomes h (lh_kind d) [] s (put_h h (set_lh_next (Some h) d) s)) as Hb
    by (by apply (becomes_put h d (set_lh_next (Some h) d))).
  split; [|done]. eapply (linked_update n n); [exact Hlk|lia|exact Hb|by apply Hlk| |done|by left| |apply entry_exists| |].
  - constructor; try done. apply (next_chain_frame s); [|done]. intros x Hx.
    rewrite data_at_put by apply entry_exists. rewrite decide_False; [done|]. by intros ->.
  - intros x Hx _. rewrite data_at_put by apply entry_exists. by rewrite decide_False.
  - pose proof (g_kinds _ _ _ _ Hlk h _ entry_kind) as Hk. destruct (lh_kind d); try done.
    + cbn in Hk |- *. rewrite kind_at_put by apply entry_exists. by case_decide.
    + cbn in Hk |- *. rewrite kind_at_put by apply entry_exists. by case_decide.
  - intros q Hq. apply (no_cycle s); [apply Hlk|]. unfold link_at. by rewrite entry_kind.
Qed.

End parts.

(** *** New members of the list *)

Lemma add_undef_becomes s l h d :
  undefs_are s l -> h ∉ l -> data_at s h = Some d -> lh_next d = None ->
  runs (bfd_link_add_undef h) s (fun _ s' =>
    undefs_are s' (l ++ [h]) /\ becomes h (lh_kind d) [] s s' /\ l_secs s' = l_secs s /\
    (forall x, x ∉ l -> data_at s' x = data_at s x)).
Proof.
  intros Hu Hl Hd Hn. eapply run_mono; [by eapply (add_undef_spec s l h)|]. intros _ s' (Hu' & Hkept & Hsame).
  split_and!; [done| |apply Hkept|done]. destruct Hkept as [K1 K2 K3 K4 K5 K6]. constructor; try done; [| |by rewrite K3].
  - intros x. assert (kind_at s' x = kind_at s x) as -> by (by apply lk_kind; constructor).
    case_decide as E; [|done]. subst x. unfold kind_at. by rewrite Hd.
  - intros x d' Hx. specialize (K1 x). rewrite Hx in K1. destruct (data_at s x) as [dx|]; [|done].
    apply (inj Some) in K1. exists dx. split; [done|].
    change (entry_kept (set_lh_next None dx) (set_lh_next None d')).
    by rewrite K1.
Qed.

Lemma not_listed n s m l h d :
  linked n s m l -> data_at s h = Some d ->
  match lh_kind d with bfd_link_hash_new | bfd_link_hash_undefweak _ => True | _ => False end ->
  h ∉ l /\ lh_next d = None.
Proof.
  intros Hlk Hd Hold. assert (kind_at s h = Some (lh_kind d)) as Hk by (unfold kind_at; by rewrite Hd).
  pose proof (g_kinds _ _ _ _ Hlk h _ Hk) as Hok.
  destruct (lh_kind d); try done; cbn in Hok; rewrite Hd in Hok; by destruct Hok as [? [= ?]].
Qed.

Lemma promote_spec n s m l h d abfd :
  linked n s m l -> data_at s h = Some d ->
  match lh_kind d with bfd_link_hash_new | bfd_link_hash_undefweak _ => True | _ => False end ->
  let k := bfd_link_hash_undefined abfd in
  runs (_ ← set_h h (set_lh_kind k); bfd_link_add_undef h) s (fun _ s' =>
    exists l', linked n s' m l' /\ becomes h k [] s s' /\ l_secs s' = l_secs s).
Proof.
  intros Hlk Hd Hold k. destruct (not_listed _ _ _ _ _ _ Hlk Hd Hold) as [Hl Hn].
  assert (is_Some (data_at s h)) as Hh by by eexists.
  apply run_bind, (run_set_h _ _ d); [done|]. set (s1 := put_h h _ s).
  assert (becomes h k [] s s1) as Hb1 by (by apply (becomes_put h d (set_lh_kind k d))).
  assert (data_at s1 h = Some (set_lh_kind k d)) as Hd1.
  { subst s1. rewrite data_at_put by done. by rewrite decide_True. }
  assert (undefs_are s1 l) as Hu1 by (eapply undefs_put; [done|done|by apply Hlk]).
  eapply run_mono; [by apply (add_undef_becomes s1 l h (set_lh_kind k d))|].
  intros _ s' (Hu & Hb2 & Hsecs & Hsame).
  pose proof (becomes_trans _ _ _ _ _ _ _ _ Hb1 Hb2) as Hb. exists (l ++ [h]). split_and!; [|exact Hb|done].
  eapply (linked_update n n s m l s' (l ++ [h]) h k []); [done|lia|exact Hb| |done|set_solver|set_solver| |done| |done].
  - rewrite Hsecs. apply Hlk.
  - intros x Hx Hxl. rewrite (Hsame x Hxl). subst s1. rewrite data_at_put by done. by rewrite decide_False.
  - cbn. set_solver.
Qed.

(** *** Definitions *)

(** What the request needs of the sections. *)
Definition request_ok (ss : sstate) (r : request) : Prop :=
  is_Some (ss_bfds ss !! r_abfd r) /\ is_Some (sec_at ss (r_section r) ≫= s_name).

Definition defined_kind (weak : bool) (r : request) : link_kind :=
  if weak then bfd_link_hash_defweak (r_section r) (r_value r) else bfd_link_hash_defined (r_section r) (r_value r).

Lemma define_symbol_spec n s m l h d weak r :
  linked n s m l -> data_at s h = Some d -> request_ok (l_secs s) r -> r_collect r = false ->
  runs (define_symbol weak h r) s (fun _ s' => linked n s' m l /\ becomes h (defined_kind weak r) [] s s' /\
    lh_ldscript_def <$> data_at s' h = Some false).
Proof.
  intros Hlk Hd [_ Hsec] Hcol. assert (is_Some (data_at s h)) as Hh by by eexists.
  apply run_bind, (run_get_h _ d); [done|]. apply run_bind, (run_set_h _ _ d); [done|]. rewrite Hcol. apply run_ret.
  fold (defined_kind weak r). set (d' := set_lh_ldscript_def _ _).
  assert (lh_kind d' = defined_kind weak r) as Hk by done.
  split_and!.
  - apply (linked_put n s m l h d d'); try done; rewrite Hk.
    + unfold defined_kind. destruct (sec_at (l_secs s) (r_section r)) as [ds|] eqn:E; [|by destruct Hsec].
      destruct weak; cbn; by exists ds.
    + unfold defined_kind. by destruct weak.
  - rewrite <- Hk. by apply (becomes_put h d d').
  - rewrite data_at_put by done. by rewrite decide_True.
Qed.

(** *** Common symbols *)

(** Where a common symbol of the request goes. *)
Definition common_place (ss ss' : sstate) (r : request) (x : asec) : Prop :=
  if decide (r_section r = bfd_com_section_ptr) then section_named ss' (r_abfd r) (c_str "COMMON") x
  else if decide (sec_at ss (r_section r) ≫= s_owner = Some (r_abfd r)) then x = r_section r
  else exists name, sec_at ss (r_section r) ≫= s_name = Some name /\ section_named ss' (r_abfd r) name x.

Lemma common_section_spec n s r Q :
  0 <= n -> secs_ok (n + 1) (l_secs s) -> request_ok (l_secs s) r ->
  (forall x ss', secs_ok n ss' -> secs_later (l_secs s) ss' -> is_Some (sec_at ss' x) ->
     common_place (l_secs s) ss' r x -> Q x (set_l_secs ss' s)) ->
  runs (common_section r) s Q.
Proof.
  intros Hn Hok [Hb Hsec] HQ. unfold common_section, common_place in *.
  destruct (decide (r_section r = bfd_com_section_ptr)) as [E|E].
  - rewrite bool_decide_true by done. by apply (make_alloc_spec n).
  - rewrite bool_decide_false by done. destruct (sec_at (l_secs s) (r_section r)) as [d|] eqn:Hd; [|by destruct Hsec].
    apply run_bind, run_secs, (run_get_sec _ d); [done|]. rewrite set_secs_id. cbn in Hsec, HQ.
    destruct (decide (s_owner d = Some (r_abfd r))) as [Ho|Ho].
    + rewrite bool_decide_true by done. apply run_ret. rewrite <- (set_secs_id s).
      apply (HQ (r_section r) (l_secs s)); [|done|by exists d|done].
      apply (secs_ok_mono (n + 1)); [lia|done].
    + rewrite bool_decide_false by done. destruct Hsec as [name Hname]. apply run_bind.
      eapply run_the; [exact Hname|]. apply (make_alloc_spec n); try done.
      intros x ss' H1 H2 H3 H4. apply HQ; try done. by exists name.
Qed.

Definition common_of (r : request) (x : asec) : link_kind :=
  bfd_link_hash_common (Some (mkCommon (common_power (r_value r)) x (r_value r))).

(** Only the entry [h] and the sections change. *)
Record local_change (h : ptr) (d' : link_data) (s s' : lstate) : Prop := {
  lc_entry : data_at s' h = Some d';
  lc_others : forall x, x <> h -> data_at s' x = data_at s x;
  lc_undefs : l_undefs s' = l_undefs s /\ l_undefs_tail s' = l_undefs_tail s
}.

Lemma local_undefs h d d' s s' l :
  data_at s h = Some d -> lh_next d' = lh_next d -> local_change h d' s s' -> undefs_are s l -> undefs_are s' l.
Proof.
  intros Hd Hn [H1 H2 [H3 H4]] [U1 U2 U3 U4]. constructor; [congruence|congruence|done|].
  apply (next_chain_frame s); [|done]. intros x _. destruct (decide (x = h)) as [->|Hx]; [|by rewrite H2].
  rewrite H1, Hd. cbn. by rewrite Hn.
Qed.

Lemma local_put h d d' s : data_at s h = Some d -> local_change h d' s (put_h h d' s).
Proof.
  intros Hd. assert (is_Some (data_at s h)) as Hh by by eexists. constructor; [| |done].
  - rewrite data_at_put by done. by rewrite decide_True.
  - intros x Hx. rewrite data_at_put by done. by rewrite decide_False.
Qed.

Lemma local_trans h d1 d2 s1 s2 s3 : local_change h d1 s1 s2 -> local_change h d2 s2 s3 -> local_change h d2 s1 s3.
Proof.
  intros [A1 A2 [A3 A4]] [B1 B2 [B3 B4]]. constructor; [done| |split; congruence]. intros x Hx. by rewrite B2, A2.
Qed.

Lemma set_common_spec n s h d r :
  0 <= n -> data_at s h = Some d -> secs_ok (n + 1) (l_secs s) -> request_ok (l_secs s) r ->
  runs (set_common h r) s (fun _ s' => exists x,
    becomes h (common_of r x) [] s s' /\ local_change h (set_lh_kind (common_of r x) d) s s' /\
    secs_ok n (l_secs s') /\ is_Some (sec_at (l_secs s') x) /\ common_place (l_secs s) (l_secs s') r x).
Proof.
  intros Hn Hd Hok Hr. apply run_bind. eapply common_section_spec; [exact Hn|done|done|].
  intros x ss H1 H2 H3 H4. set (s1 := set_l_secs ss s). assert (data_at s1 h = Some d) as Hd1 by done.
  apply (run_set_h _ _ d); [done|]. exists x. split_and!; [| |done..].
  - change (@nil event) with ([] ++ [] : list event). eapply becomes_trans.
    + apply (becomes_secs h (lh_kind d)); [|exact H2]. unfold kind_at. by rewrite Hd.
    + by apply (becomes_put h d (set_lh_kind (common_of r x) d) s1).
  - destruct (local_put h d (set_lh_kind (common_of r x) d) s1 Hd1) as [L1 L2 L3]. by constructor.
Qed.

(** An entry that changes in place. *)
Lemma linked_local n n' s m l s' h d d' k evs :
  linked n s m l -> n' <= n -> data_at s h = Some d -> local_change h d' s s' -> lh_next d' = lh_next d ->
  becomes h k evs s s' -> secs_ok n' (l_secs s') -> kind_ok s' l h k ->
  (forall q, link_of k = Some q -> ~ reaches s q h) -> linked n' s' m l.
Proof.
  intros Hlk Hn Hd Hloc Hnext Hb Hsecs Hk Hacyc.
  eapply (linked_update n n' s m l s' l h k evs);
    [exact Hlk|exact Hn|exact Hb|exact Hsecs| |done|by left| |by eexists|exact Hk|exact Hacyc].
  - by eapply local_undefs; [exact Hd|exact Hnext|exact Hloc|apply Hlk].
  - intros x Hx _. by rewrite (lc_others _ _ _ _ Hloc).
Qed.

(** The action BIG on a larger symbol. *)
Lemma enlarge_spec n s m l h d r :
  0 <= n -> linked (n + 1) s m l -> data_at s h = Some d -> request_ok (l_secs s) r ->
  runs (set_common h r) s (fun _ s' => exists x,
    linked n s' m l /\ becomes h (common_of r x) [] s s' /\ common_place (l_secs s) (l_secs s') r x /\
    lh_ldscript_def <$> data_at s' h = Some (lh_ldscript_def d)).
Proof.
  intros Hn Hlk Hd Hr. eapply run_mono; [apply (set_common_spec n s h d r); try done; apply Hlk|].
  intros _ s' (x & Hb & Hloc & Hsecs & Hx & Hplace). exists x. split_and!; [|done|done|].
  - eapply (linked_local (n + 1) n); [exact Hlk|lia|exact Hd|exact Hloc|done|exact Hb|done| |done]. cbn. by eexists.
  - by rewrite (lc_entry _ _ _ _ Hloc).
Qed.

Lemma run_hash_allocate s Q :
  ht_oracle (l_table s) = [] -> (forall t, t = l_table s -> Q true (set_l_table t s)) -> runs hash_allocate s Q.
Proof.
  intros Ho HQ. unfold runs, hash_allocate, objalloc_alloc. rewrite Ho. eexists _, _. split; [done|]. by apply HQ.
Qed.

Lemma set_table_id s : set_l_table (l_table s) s = s.
Proof. by destruct s. Qed.

(** The action COM. *)
Definition make_common (h : ptr) (r : request) : LM round :=
  _ ← set_h h (set_lh_kind (bfd_link_hash_common None));
  ok ← hash_allocate;
  if negb ok then ret Fails
  else
    _ ← set_common h r;
    _ ← set_h h (fun d => set_lh_ldscript_def false (set_lh_linker_def false d));
    ret (Ends None).

Lemma make_common_spec n s h d r :
  0 <= n -> data_at s h = Some d -> ht_oracle (l_table s) = [] -> secs_ok (n + 1) (l_secs s) ->
  request_ok (l_secs s) r ->
  runs (make_common h r) s (fun res s' => res = Ends None /\ exists x d',
    becomes h (common_of r x) [] s s' /\ local_change h d' s s' /\ lh_next d' = lh_next d /\
    lh_ldscript_def d' = false /\ secs_ok n (l_secs s') /\ is_Some (sec_at (l_secs s') x) /\
    common_place (l_secs s) (l_secs s') r x).
Proof.
  intros Hn Hd Ho Hok Hr. assert (is_Some (data_at s h)) as Hh by by eexists.
  set (d1 := set_lh_kind (bfd_link_hash_common None) d).
  apply run_bind, (run_set_h _ _ d); [done|]. fold d1. set (s1 := put_h h d1 s).
  pose proof (becomes_put h d d1 s Hd) as Hb1. pose proof (local_put h d d1 s Hd) as Hl1.
  apply run_bind, run_hash_allocate; [done|]. intros t ->. rewrite set_table_id. cbn [negb].
  apply run_bind. eapply run_mono; [apply (set_common_spec n s1 h d1 r); try done; apply Hl1|].
  intros _ s2 (x & Hb2 & Hl2 & Hsecs & Hx & Hplace). set (d2 := set_lh_kind (common_of r x) d1) in *.
  apply run_bind, (run_set_h _ _ d2); [by apply Hl2|]. apply run_ret. split; [done|].
  set (d3 := set_lh_ldscript_def false _). exists x, d3.
  pose proof (becomes_put h d2 d3 s2 (lc_entry _ _ _ _ Hl2)) as Hb3.
  pose proof (local_put h d2 d3 s2 (lc_entry _ _ _ _ Hl2)) as Hl3.
  split_and!; try done.
  - change (@nil event) with (([] ++ []) ++ [] : list event). eapply becomes_trans; [by apply Hb1|].
    eapply becomes_trans; [exact Hb2|]. by apply Hb3.
  - eapply local_trans; [exact Hl1|]. by eapply local_trans.
Qed.

Lemma com_spec n s m l h d r :
  0 <= n -> linked (n + 1) s m l -> data_at s h = Some d -> request_ok (l_secs s) r ->
  runs (_ ← match lh_kind d with bfd_link_hash_new => bfd_link_add_undef h | _ => ret tt end; make_common h r) s
    (fun res s' => res = Ends None /\ exists l' x, linked n s' m l' /\ becomes h (common_of r x) [] s s' /\
      common_place (l_secs s) (l_secs s') r x /\ lh_ldscript_def <$> data_at s' h = Some false).
Proof.
  intros Hn Hlk Hd Hr. assert (is_Some (data_at s h)) as Hh by by eexists.
  assert (kind_at s h = Some (lh_kind d)) as Hkd by (unfold kind_at; by rewrite Hd).
  apply run_bind.
  assert (runs match lh_kind d with bfd_link_hash_new => bfd_link_add_undef h | _ => ret tt end s (fun _ s1 =>
    exists l1 d1, undefs_are s1 l1 /\ becomes h (lh_kind d) [] s s1 /\ l_secs s1 = l_secs s /\
      data_at s1 h = Some d1 /\ (forall x, x ∈ l -> x ∈ l1) /\ (forall x, x ∈ l1 -> x ∈ l \/ x = h) /\
      (forall x, x <> h -> x ∉ l -> data_at s1 x = data_at s x))) as Hfirst.
  { destruct (lh_kind d) eqn:Hk; try (apply run_ret; exists l, d; split_and!;
      [apply Hlk|by apply becomes_refl|done|done|done|by left|done]).
    destruct (not_listed _ _ _ _ _ _ Hlk Hd ltac:(by rewrite Hk)) as [Hl Hnx].
    eapply run_mono; [apply (add_undef_becomes s l h d); try done; apply Hlk|].
    intros _ s1 (Hu & Hb & Hsecs & Hsame). rewrite Hk in Hb. exists (l ++ [h]), d. split_and!; try done.
    - by rewrite Hsame.
    - set_solver.
    - set_solver.
    - intros x _ Hx. by apply Hsame. }
  eapply run_mono; [exact Hfirst|]. intros _ s1 (l1 & d1 & Hu1 & Hb1 & Hsecs1 & Hd1 & Hl1 & Hl2 & Hsame1).
  eapply run_mono; [apply (make_common_spec n s1 h d1 r); try done|].
  { apply (st_oracle _ _ (bc_table _ _ _ _ _ Hb1)), Hlk. }
  { rewrite Hsecs1. apply Hlk. }
  { by rewrite Hsecs1. }
  intros res s2 (-> & x & d2 & Hb2 & Hloc & Hnx & Hscr & Hsecs2 & Hx & Hplace). split; [done|]. exists l1, x.
  pose proof (becomes_trans _ _ _ _ _ _ _ _ Hb1 Hb2) as Hb. rewrite Hsecs1 in Hplace.
  split_and!; [|exact Hb|done|by rewrite (lc_entry _ _ _ _ Hloc), <- Hscr].
  eapply (linked_update (n + 1) n s m l s2 l1 h (common_of r x) []);
    [exact Hlk|lia|exact Hb|done| |done|done| |done| |done].
  - by eapply local_undefs.
  - intros y Hy Hyl. by rewrite (lc_others _ _ _ _ Hloc), Hsame1.
  - cbn. by eexists.
Qed.

(** *** Indirect symbols *)

Lemma kind_entry s h k : kind_at s h = Some k -> exists d, data_at s h = Some d /\ lh_kind d = k.
Proof. apply kind_at_Some. Qed.

Lemma reaches_mono s s' p q :
  (forall x y, link_at s x = Some y -> link_at s' x = Some y) -> reaches s p q -> reaches s' p q.
Proof. intros H. induction 1 as [|x y z Hxy _ IH]; [apply rtc_refl|]. eapply rtc_l; [by apply H|done]. Qed.

Lemma make_indirect_spec n s m l row h d inh r :
  linked n s m l -> data_at s h = Some d -> is_Some (data_at s inh) -> ~ reaches s inh h ->
  runs (make_indirect row h (Some inh) r) s (fun res s' =>
    res = (match lh_kind d with bfd_link_hash_new => Ends None | _ => Cycles UNDEF_ROW h end) /\
    (exists l', linked n s' m l') /\
    (forall x, link_at s' x = if decide (x = h) then Some inh else link_at s x) /\
    exists s1 k1, becomes inh k1 [] s s1 /\ becomes h (bfd_link_hash_indirect inh) [] s1 s' /\ l_secs s' = l_secs s).
Proof.
  intros Hlk Hd [di Hdi] Hno. apply run_bind. eapply run_the; [done|].
  assert (inh <> h) as Hne by (intros ->; apply Hno, rtc_refl).
  apply run_bind, (run_get_h _ di); [done|]. rewrite bool_decide_false.
  2: { intros Hk. apply Hno. eapply rtc_l; [|apply rtc_refl]. unfold link_at, kind_at. rewrite Hdi. cbn. by rewrite Hk. }
  set (k1 := match lh_kind di with bfd_link_hash_new => bfd_link_hash_undefined (Some (r_abfd r)) | k => k end).
  apply run_bind.
  assert (runs match lh_kind di with
    | bfd_link_hash_new =>
        _ ← set_h inh (set_lh_kind (bfd_link_hash_undefined (Some (r_abfd r)))); bfd_link_add_undef inh
    | _ => ret tt end s (fun _ s1 => exists l', linked n s1 m l' /\ becomes inh k1 [] s s1 /\ l_secs s1 = l_secs s /\
      (exists d1, data_at s1 h = Some d1 /\ lh_kind d1 = lh_kind d))) as Hfirst.
  { assert (kind_at s inh = Some (lh_kind di)) as Hki by (unfold kind_at; by rewrite Hdi).
    destruct (lh_kind di) eqn:Hk; try (apply run_ret; exists l; split_and!;
      [done|by apply becomes_refl|done|by exists d]).
    destruct (promote_spec n s m l inh di (Some (r_abfd r)) Hlk Hdi ltac:(by rewrite Hk)) as (u & s1 & Hrun & l' & H1 & H2).
    destruct H2 as [H2 H3]. exists u, s1. split; [done|]. exists l'. split_and!; [done..|].
    apply kind_entry. rewrite (bc_kind _ _ _ _ _ H2), decide_False by done. unfold kind_at. by rewrite Hd. }
  eapply run_mono; [exact Hfirst|]. intros _ s1 (l' & Hlk1 & Hb1 & Hsecs1 & d1 & Hd1 & Hk1).
  apply run_bind, (run_get_h _ d1); [done|]. apply run_bind, (run_set_h _ _ d1); [done|]. apply run_ret.
  rewrite Hk1. set (d2 := set_lh_kind _ d1). pose proof (becomes_put h d1 d2 s1 Hd1 ltac:(by split)) as Hb2.
  assert (forall x, link_at s1 x = link_at s x) as Hsame.
  { intros x. unfold link_at. rewrite (bc_kind _ _ _ _ _ Hb1). case_decide as E; [|done]. subst x.
    unfold kind_at. rewrite Hdi. subst k1. cbn. by destruct (lh_kind di). }
  split; [by destruct (lh_kind d)|]. split_and!.
  - exists l'. apply (linked_put n s1 m l' h d1 d2); try done.
    + cbn. rewrite kind_at_put by by eexists. case_decide; [by eexists|].
      rewrite (bc_kind _ _ _ _ _ Hb1). rewrite decide_True by done. by eexists.
    + intros q [= <-] Hr. apply Hno. eapply reaches_mono; [|exact Hr]. intros x y Hxy. by rewrite <- Hsame.
  - intros x. rewrite <- Hsame. unfold link_at. rewrite (bc_kind _ _ _ _ _ Hb2). by case_decide.
  - exists s1, k1. by split_and!.
Qed.

(** *** Warnings *)

Lemma unmapped_fresh n s m l :
  linked n s m l -> data_at s (ht_brk (l_table s)) = None.
Proof.
  intros Hlk. unfold data_at. by rewrite (represents_fresh _ m) by (done || apply Hlk).
Qed.

(** Replacing keeps the size of the table. *)
Lemma hash_replace_frame (t t' : hash_table link_data) old nw :
  bfd_hash_replace t old nw = Some t' ->
  ht_size t' = ht_size t /\ ht_brk t' = ht_brk t /\ ht_oracle t' = ht_oracle t.
Proof.
  unfold bfd_hash_replace. destruct (ht_heap t !! old) as [e|]; [|done]. cbn [mbind option_bind].
  destruct (ht_size t =? 0); [done|]. destruct (ht_table t !! _) as [head|]; [|done]. cbn [mbind option_bind].
  destruct (find_link _ _ _ _ _) as [pph|]; [|done]. cbn [mbind option_bind]. unfold store_link.
  destruct pph as [a|]; [|by intros [= <-]]. destruct (ht_heap t !! a); [|done]. by intros [= <-].
Qed.

Lemma data_at_strip s s' x :
  he_strip <$> ht_heap (l_table s') !! x = he_strip <$> ht_heap (l_table s) !! x ->
  data_at s' x = data_at s x /\ string_at s' x = string_at s x.
Proof.
  unfold data_at, string_at. destruct (ht_heap (l_table s') !! x), (ht_heap (l_table s) !! x); try done.
  intros H. apply (inj Some) in H. unfold he_strip in H. injection H as H1 H2 H3. cbn. by rewrite H1, H3.
Qed.

(** A new entry [sub] is added to the heap: of an unseen symbol, or with a link
    to an old one. *)
Lemma linked_add n s s' m m' l sub k :
  linked (n + 1) s m l -> represents (l_table s') m' -> roomy (l_table s') ->
  (ht_brk (l_table s') <= S (ht_brk (l_table s)))%nat -> ht_oracle (l_table s') = [] ->
  l_secs s' = l_secs s -> l_undefs s' = l_undefs s -> l_undefs_tail s' = l_undefs_tail s ->
  data_at s sub = None -> (forall x, x <> sub -> data_at s' x = data_at s x) ->
  kind_at s' sub = Some k ->
  match link_of k with
  | Some q => is_Some (data_at s q)
  | None => k = bfd_link_hash_new /\ lh_next <$> data_at s' sub = Some None
  end -> linked n s' m' l.
Proof.
  intros Hlk Hrep Hroom Hbrk Ho Hss Hu1 Hu2 Hsub Hsame Hk Hq. pose proof Hlk as [H1 H2 H3 H4 H5 H6 H7 H8].
  assert (forall x, x <> sub -> kind_at s' x = kind_at s x) as Hkind by (intros x Hx; unfold kind_at; by rewrite Hsame).
  assert (sub ∉ l) as Hsubl.
  { intros Hin. destruct (next_chain_member s l sub (u_chain _ _ H6) Hin). congruence. }
  assert (forall x kx, kind_at s x = Some kx -> x <> sub) as Hold.
  { intros x kx Hx ->. unfold kind_at in Hx. by rewrite Hsub in Hx. }
  constructor; [done|done|lia|done|rewrite Hss; apply (secs_ok_mono (n + 1)); [lia|done]| | |].
  - destruct H6 as [U1 U2 U3 U4]. constructor; [congruence|congruence|done|].
    apply (next_chain_frame s); [|done]. intros x Hx. destruct (next_chain_member s l x U4 Hx) as [d Hd].
    rewrite Hsame; [done|congruence].
  - intros x kx Hx. destruct (decide (x = sub)) as [->|Hne].
    + rewrite Hk in Hx. injection Hx as <-.
      destruct k; cbn in Hq |- *; try (by destruct Hq); destruct Hq as [dq Hdq];
        (rewrite Hkind by congruence; unfold kind_at; rewrite Hdq; by eexists).
    + rewrite Hkind in Hx by done. specialize (H7 x kx Hx).
      destruct kx; cbn in H7 |- *; rewrite ?Hss, ?Hsame by done; try done;
        (destruct H7 as [k' Hk']; rewrite Hkind by (by eapply Hold); by eexists).
  - assert (forall x y, link_at s x = Some y -> link_at s' x = Some y /\ x <> sub) as Hl.
    { intros x y Hxy. unfold link_at in *. destruct (kind_at s x) as [kx|] eqn:Hkx; [|done].
      split; [|by eapply Hold]. rewrite Hkind by (by eapply Hold). by rewrite Hkx. }
    assert (forall x, x <> sub -> Acc (fun q p => link_at s' p = Some q) x) as Hacc.
    { intros x. induction (H8 x) as [x _ IH]. intros Hx. constructor. intros y Hy.
      assert (link_at s x = Some y) as Hy' by (unfold link_at in *; by rewrite <- Hkind).
      apply IH; [done|]. intros ->. unfold link_at in Hy'. destruct (kind_at s x) as [kx|] eqn:Hkx; [|done].
      specialize (H7 x kx Hkx). cbn in Hy'. assert (is_Some (kind_at s sub)) as [ks Hks].
      { destruct kx; try done; injection Hy' as ->; done. }
      by apply (Hold _ _ Hks). }
    intros x. destruct (decide (x = sub)) as [->|]; [|by apply Hacc]. constructor. intros y Hy. apply Hacc.
    unfold link_at in Hy. rewrite Hk in Hy. cbn in Hy. rewrite Hy in Hq. destruct Hq. congruence.
Qed.

(** The entry that takes the place of [h]. *)
Definition warned (s s' : lstate) (h sub : ptr) (r : request) : Prop :=
  data_at s sub = None /\ kind_at s' sub = Some (bfd_link_hash_warning h (r_string r)) /\
  lh_ldscript_def <$> data_at s' sub = lh_ldscript_def <$> data_at s h /\
  (forall x, x <> sub -> data_at s' x = data_at s x) /\
  l_asserts s' = l_asserts s /\ l_secs s' = l_secs s /\ l_events s' = l_events s.

Lemma make_warning_spec n s m l h d name r :
  linked (n + 1) s m l -> data_at s h = Some d -> m !! name = Some h -> is_Some (r_string r) ->
  runs (make_warning h r) s (fun res s' => exists sub, res = Ends (Some sub) /\
    linked n s' (<[name := sub]> m) l /\ warned s s' h sub r).
Proof.
  intros Hlk Hd Hm [w Hw]. pose proof (unmapped_fresh _ _ _ _ Hlk) as Hsub.
  set (sub := ht_brk (l_table s)) in *. pose proof (g_table _ _ _ _ Hlk) as Hrep.
  pose proof (g_oracle _ _ _ _ Hlk) as Ho. apply run_bind, run_gets.
  unfold bfd_hash_newfunc, objalloc_alloc. rewrite Ho. cbn beta iota zeta. fold sub. rewrite Ho.
  assert (h <> sub) as Hne by congruence. apply run_bind, run_modify.
  set (t1 := mkHashTable _ _ _ _ _ _ _ _). set (s1 := set_l_table t1 s).
  assert (data_at s1 h = Some d) as Hd1 by (unfold data_at in *; subst s1 t1; cbn; by rewrite lookup_insert_ne).
  apply fmap_Some in Hd as (e & He & ->).
  apply run_bind, (run_bind (gets _)), run_gets. change (l_table s1) with t1.
  assert (ht_heap t1 !! h = Some e) as He1 by (subst t1; cbn; by rewrite lookup_insert_ne).
  rewrite He1. cbn [the]. apply run_ret, run_bind.
  assert (runs (if r_copy r
     then string ← the (r_string r); ok ← hash_allocate; ret (if ok : bool then Some (Some string) else None)
     else ret (Some (r_string r)) : LM (option (option cstring))) s1
     (fun x s2 => x = Some (r_string r) /\ s2 = s1)) as Hcopy.
  { destruct (r_copy r); [|by apply run_ret]. apply run_bind. eapply run_the; [done|].
    apply run_bind, run_hash_allocate; [done|]. intros t ->. apply run_ret. by rewrite Hw, set_table_id. }
  eapply run_mono; [exact Hcopy|]. intros x s2 [-> ->]. set (d' := set_lh_kind _ (he_data e)).
  apply run_bind, run_modify. change (l_table s1) with t1.
  set (t2 := set_heap (<[sub := set_data d' e]> (ht_heap t1)) t1).
  assert (forall x, x <> sub -> ht_heap t2 !! x = ht_heap (l_table s) !! x) as Hheap2
    by (intros x Hx; subst t2 t1; cbn; by rewrite !lookup_insert_ne).
  assert (represents t2 m) as Hrep2.
  { apply (represents_ext (l_table s)); try done; [cbn; lia| |].
    - intros x ex Hx. exists ex. rewrite Hheap2; [done|]. intros ->. by rewrite (represents_fresh _ m) in Hx.
    - intros x Hx. cbn in Hx. rewrite Hheap2 by lia. by apply (represents_fresh _ m); [|lia]. }
  apply run_bind, run_gets. change (l_table (set_l_table t2 s1)) with t2.
  destruct (hash_replace_correct t2 m name h sub e (set_data d' e)) as (t3 & Ht3 & Hrep3 & Hkeep); try done.
  { intros name' Hs. destruct (represents_entry _ _ _ _ Hrep Hs) as (es & Hes & _).
    by rewrite (represents_fresh _ m) in Hes. }
  { by rewrite Hheap2. }
  { subst t2. cbn. by rewrite lookup_insert_eq. }
  apply run_bind. eapply run_the; [exact Ht3|]. apply run_bind, run_modify. apply run_ret. exists sub. split; [done|].
  destruct (hash_replace_frame _ _ _ _ Ht3) as (F1 & F2 & F3).
  set (s' := set_l_table t3 _).
  assert (forall x, x <> sub -> data_at s' x = data_at s x) as Hsame.
  { intros x Hx. destruct (data_at_strip (set_l_table t2 s1) s' x (Hkeep x ltac:(done))) as [-> _].
    unfold data_at. change (l_table (set_l_table t2 s1)) with t2. by rewrite Hheap2. }
  assert (data_at s' sub = Some d') as Hdsub.
  { destruct (data_at_strip (set_l_table t2 s1) s' sub (Hkeep sub ltac:(done))) as [-> _].
    unfold data_at. subst t2. cbn. by rewrite lookup_insert_eq. }
  assert (kind_at s' sub = Some (bfd_link_hash_warning h (r_string r))) as Hksub by (unfold kind_at; by rewrite Hdsub).
  split.
  - eapply (linked_add n s s' m _ l sub); [exact Hlk|exact Hrep3| | | |done..|exact Hsub|exact Hsame|exact Hksub|].
    + pose proof (g_roomy _ _ _ _ Hlk) as Hroom. subst s'. unfold roomy in *. cbn. rewrite F1, F2. subst t2 t1. cbn. lia.
    + subst s'. cbn. rewrite F2. subst t2 t1. cbn. lia.
    + subst s'. cbn. by rewrite F3.
    + cbn. unfold data_at. rewrite He. by eexists.
  - unfold warned. split_and!; try done. rewrite Hdsub. unfold data_at. by rewrite He.
Qed.

(** ** Looking symbols up *)

(** The entry [h] is found, or made anew; nothing else changes. *)
Record looked (h : ptr) (s s' : lstate) : Prop := {
  lo_others : forall x, x <> h -> data_at s' x = data_at s x;
  lo_kind : kind_at s' h = Some (default bfd_link_hash_new (kind_at s h));
  lo_script : lh_ldscript_def <$> data_at s' h = Some (default false (lh_ldscript_def <$> data_at s h));
  lo_sym : lh_sym <$> data_at s' h = Some (default None (lh_sym <$> data_at s h));
  lo_secs : l_secs s' = l_secs s;
  lo_events : l_events s' = l_events s;
  lo_syms : l_syms s' = l_syms s;
  lo_asserts : l_asserts s' = l_asserts s
}.

Lemma looked_refl h s : is_Some (data_at s h) -> looked h s s.
Proof. intros [d Hd]. constructor; unfold kind_at; by rewrite ?Hd. Qed.

(** A new entry is one that no name of the table had. *)
Definition entry_of (s : lstate) (m : gmap cstring ptr) (name : cstring) (h : ptr) : Prop :=
  m !! name = Some h \/ m !! name = None /\ data_at s h = None.

Lemma mapped_entry n s m l name h : linked n s m l -> m !! name = Some h -> is_Some (data_at s h).
Proof.
  intros Hlk Hm. destruct (represents_entry _ _ _ _ (g_table _ _ _ _ Hlk) Hm) as (e & He & _).
  unfold data_at. rewrite He. by eexists.
Qed.

Lemma link_lookup_spec n s m l name copy fuel :
  0 <= n -> linked (n + 1) s m l ->
  runs (bfd_link_hash_lookup fuel (Some name) true copy false) s (fun r s' => exists h, r = Some h /\
    linked n s' (<[name := h]> m) l /\ entry_of s m name h /\ looked h s s').
Proof.
  intros Hn Hlk. pose proof Hlk as [H1 H2 H3 H4 H5 H6 H7 H8]. apply run_bind, run_gets.
  destruct (hash_lookup_spec link_hash_init (l_table s) m name true copy H1) as (r & t & Hl & Hspec).
  { apply roomy_grows; [done|lia]. }
  destruct (hash_lookup_roomy _ _ m _ _ _ _ _ H1 H2 ltac:(lia) Hl) as (R1 & R2 & R3 & _).
  destruct (R3 H4) as [R4 R5]. rewrite Hl. apply run_bind. eapply run_the; [done|].
  apply run_bind, run_modify. destruct (m !! name) as [h|] eqn:Hm.
  - destruct Hspec as [-> ->]. rewrite set_table_id. apply run_ret. exists h.
    split_and!; [done| |by left|by apply looked_refl, (mapped_entry (n + 1) s m l name)].
    rewrite insert_id by done. apply (linked_mono (n + 1)); [lia|done].
  - destruct r as [h|]; [|by destruct (R5 eq_refl)]. destruct Hspec as (Hh & Hrep & Hkeep & Hnew). apply run_ret.
    set (s' := set_l_table t s). exists h.
    assert (forall x, x <> h -> data_at s' x = data_at s x) as Hsame.
    { intros x Hx. apply data_at_strip. apply Hkeep. congruence. }
    assert (data_at s' h = Some link_hash_init) as Hinit.
    { apply fmap_Some in Hnew as (e & He & Hst). unfold he_strip in Hst. injection Hst as _ _ Hst.
      unfold data_at. subst s'. cbn. by rewrite He, Hst. }
    assert (data_at s h = None) as Hnone by (unfold data_at; by rewrite Hh).
    split_and!; [done| |by right|].
    + eapply (linked_add n s s' m _ l h); [exact Hlk|exact Hrep|exact R1|subst s'; cbn; lia|done..|exact Hsame| |].
      * unfold kind_at. by rewrite Hinit.
      * cbn. by rewrite Hinit.
    + constructor; try done; unfold kind_at; by rewrite Hinit, Hnone.
Qed.

(** Setting a flag of the entry that was found. *)
Lemma looked_flag n s s' m l h f :
  linked n s' m l -> looked h s s' ->
  (forall d, lh_kind (f d) = lh_kind d /\ lh_next (f d) = lh_next d /\ lh_ldscript_def (f d) = lh_ldscript_def d /\
    lh_sym (f d) = lh_sym d) ->
  runs (set_h h f) s' (fun _ s2 => linked n s2 m l /\ looked h s s2).
Proof.
  intros Hlk [L1 L2 L3 Ls L4 L5 L6 L7] Hf. destruct (data_at s' h) as [d|] eqn:Hd; [|done].
  assert (kind_at s' h = Some (lh_kind d)) as Hkd by (unfold kind_at; by rewrite Hd).
  destruct (Hf d) as (F1 & F2 & F3 & F4). assert (is_Some (data_at s' h)) as Hh by by eexists.
  apply (run_set_h _ _ d); [done|]. split.
  - apply (linked_put n s' m l h d); [done|done|done|by split; [rewrite F3|]| |]; rewrite F1.
    + pose proof (g_kinds _ _ _ _ Hlk h (lh_kind d) ltac:(unfold kind_at; by rewrite Hd)) as Hk.
      destruct (lh_kind d); cbn in Hk |- *; try done;
        try (rewrite data_at_put, decide_True by done; rewrite Hd in Hk; cbn; by rewrite F2);
        (rewrite kind_at_put by done; case_decide; [by eexists|done]).
    + intros q Hq. apply (no_cycle s'); [apply Hlk|]. unfold link_at, kind_at. by rewrite Hd.
  - constructor; try done.
    + intros x Hx. rewrite data_at_put by done. rewrite decide_False by done. by apply L1.
    + rewrite kind_at_put by done. rewrite decide_True by done. rewrite F1. by rewrite <- L2.
    + rewrite data_at_put by done. rewrite decide_True by done. cbn in L3 |- *. by rewrite F3.
    + rewrite data_at_put by done. rewrite decide_True by done. cbn in Ls |- *. by rewrite F4.
Qed.
