(* ===== verification/LinkerLoop.v ===== *)
(** The loop over the state table: each call of
    [_bfd_generic_link_add_one_symbol] ends, keeps the table's invariant and
    violates no assertion, as long as no symbol is made to stand for itself. *)

From S2P Require Import Prelude HashTable HashTableSpec HashGrowth StateRes BfdSection SectionList SectionMake.
From S2P Require Import Linker LinkerState LinkerRound.

(** ** The names that are looked up *)

(** The table lists the names of the map. *)
Definition lists (t : hash_table unit) (names : gmap cstring ptr) : Prop :=
  represents t names /\ (ht_frozen t = true \/ ht_size t < 4294967291).

Lemma run_listed {t names} name s Q :
  lists t names -> Q (bool_decide (is_Some (names !! name))) s -> runs (listed t name) s Q.
Proof.
  intros [Hrep Hsize] HQ. destruct (hash_lookup_spec tt t names name false false Hrep Hsize) as (r & t' & Hl & Hspec).
  unfold listed. rewrite Hl. apply run_bind. eapply run_the; [done|]. apply run_ret.
  destruct (names !! name) as [h|]; destruct Hspec as [-> _]; exact HQ.
Qed.

(** The tables of wrapped names and of names to report. *)
Record info_ok (info : link_info) (wrapped noticed : gmap cstring ptr) : Prop := {
  io_wrap : forall t, i_wrap_hash info = Some t -> lists t wrapped;
  io_notice : forall t, i_notice_hash info = Some t -> lists t noticed
}.

(** The name under which [bfd_wrapped_link_hash_lookup] looks. *)
Definition wrapped_name (info : link_info) (wrapped : gmap cstring ptr) (abfd : ptr) (name : cstring) : cstring :=
  match i_wrap_hash info with
  | None => name
  | Some _ =>
      let '(prefix, l) := strip_leading (i_symbol_leading_char info abfd) (i_wrap_char info) name in
      if decide (is_Some (wrapped !! l)) then with_prefix prefix (WRAP ++ l)
      else if startswith l REAL && bool_decide (is_Some (wrapped !! drop (length REAL) l))
      then with_prefix prefix (drop (length REAL) l)
      else name
  end.

Lemma run_secs_answer s Q : ss_oracle (l_secs s) = [] -> Q true s -> runs (secs answer) s Q.
Proof.
  intros Ho HQ. apply run_secs. unfold runs, answer. rewrite Ho. eexists _, _. split; [done|]. by rewrite set_secs_id.
Qed.

(** A name is looked up and its entry gets a flag that the table ignores. *)
Definition found (n : Z) (s : lstate) (m : gmap cstring ptr) (l : list ptr) (name : cstring)
    (r : option ptr) (s' : lstate) : Prop :=
  exists h, r = Some h /\ linked n s' (<[name := h]> m) l /\ entry_of s m name h /\ looked h s s'.

Lemma lookup_and_flag n s m l name copy fuel f :
  0 <= n -> linked (n + 1) s m l ->
  (forall d, lh_kind (f d) = lh_kind d /\ lh_next (f d) = lh_next d /\ lh_ldscript_def (f d) = lh_ldscript_def d /\
    lh_sym (f d) = lh_sym d) ->
  runs (h ← bfd_link_hash_lookup fuel (Some name) true copy false;
        match h with Some h => _ ← set_h h f; ret (Some h) | None => ret None end) s (found n s m l name).
Proof.
  intros Hn Hlk Hf. apply run_bind. eapply run_mono; [by apply link_lookup_spec|].
  intros r s1 (h & -> & Hlk1 & He & Hlo). apply run_bind.
  eapply run_mono; [by eapply looked_flag|]. intros _ s2 [Hlk2 Hlo2]. apply run_ret. by exists h.
Qed.

Lemma wrapped_lookup_spec n s m l info wrapped noticed fuel abfd name copy :
  0 <= n -> info_ok info wrapped noticed -> linked (n + 1) s m l ->
  runs (bfd_wrapped_link_hash_lookup info fuel abfd (Some name) true copy false) s
    (found n s m l (wrapped_name info wrapped abfd name)).
Proof.
  intros Hn Hinfo Hlk. unfold bfd_wrapped_link_hash_lookup, wrapped_name.
  pose proof (sk_oracle _ _ (g_secs _ _ _ _ Hlk)) as Ho.
  destruct (i_wrap_hash info) as [t|] eqn:Ht; [|by apply link_lookup_spec].
  pose proof (io_wrap _ _ _ Hinfo t Ht) as Hlist. apply run_bind. eapply run_the; [done|].
  destruct (strip_leading _ _ _) as [prefix x]. apply run_bind, (run_listed _ _ _ Hlist).
  destruct (decide (is_Some (wrapped !! x))) as [Hw|Hw].
  - rewrite bool_decide_true by done. apply run_bind, run_secs_answer; [done|]. by apply lookup_and_flag.
  - rewrite bool_decide_false by done. apply run_bind.
    set (real := startswith x REAL && bool_decide (is_Some (wrapped !! drop (length REAL) x))).
    assert (runs (if startswith x REAL then listed t (drop (length REAL) x) else ret false) s
      (fun b s1 => b = real /\ s1 = s)) as Hreal.
    { subst real. destruct (startswith x REAL); [by apply (run_listed _ _ _ Hlist)|by apply run_ret]. }
    eapply run_mono; [exact Hreal|]. intros b s1 [-> ->]. destruct real; [|by apply link_lookup_spec].
    apply run_bind, run_secs_answer; [done|]. by apply lookup_and_flag.
Qed.

(** ** One round *)

Definition old_kind (k : link_kind) : Prop :=
  match k with bfd_link_hash_new | bfd_link_hash_undefweak _ => True | _ => False end.

(** What the code of an action relies on. *)
Definition action_fits (a : action) (k : link_kind) : Prop :=
  match a with
  | FAIL => False
  | UND | WEAK => old_kind k
  | CDEF | BIG | CIND => is_common k = true
  | REF => ~ old_kind k
  | MIND | CYCLE | WARNC => is_Some (link_of k)
  | REFC => is_Some (link_of k) /\ ~ old_kind k
  | _ => True
  end.

Lemma action_for_fits row d : exists a, action_for row d = Some a /\ action_fits a (lh_kind d).
Proof.
  unfold action_for. destruct (lh_ldscript_def d).
  - destruct row; cbn; eexists; (split; [reflexivity|exact I]).
  - destruct row, (lh_kind d); cbn; eexists; (split; [reflexivity|cbn; by repeat (eexists || split || intros [])]).
Qed.

(** What an action makes of the entry [h], how the round ends, and what is
    reported, for the rows of the symbols that are neither indirect nor
    warnings. *)
Definition outcome (row : link_row) (a : action) (d : link_data) (h : ptr) (inh : option ptr) (r : request)
    (res : round) (k : link_kind) (evs : list event) : Prop :=
  let same := k = lh_kind d in
  let cycles := exists link, link_of (lh_kind d) = Some link /\ res = Cycles row link in
  match a with
  | UND => res = Ends None /\ k = bfd_link_hash_undefined (Some (r_abfd r)) /\ evs = []
  | WEAK => res = Ends None /\ k = bfd_link_hash_undefweak (Some (r_abfd r)) /\ evs = []
  | DEF => res = Ends None /\ k = defined_kind false r /\ evs = []
  | DEFW => res = Ends None /\ k = defined_kind true r /\ evs = []
  | CDEF => res = Ends None /\ k = defined_kind false r /\ evs = [E_multiple_common h (r_abfd r) None]
  | COM => res = Ends None /\ evs = [] /\ exists x, k = common_of r x
  | NOACT | REF => res = Ends None /\ same /\ evs = []
  | CREF => res = Ends None /\ same /\ evs = [E_multiple_common h (r_abfd r) (Some (r_value r))]
  | BIG => res = Ends None /\ evs = [E_multiple_common h (r_abfd r) (Some (r_value r))] /\
      exists c, lh_kind d = bfd_link_hash_common (Some c) /\
        if c_size c <? r_value r then exists x, k = common_of r x else same
  | MDEF => res = Ends None /\ same /\ evs = [E_multiple_definition h (r_abfd r) (r_section r) (r_value r)]
  | SET => res = Ends None /\ same /\ evs = [E_add_to_set h (r_abfd r) (r_section r) (r_value r)]
  | MIND => same /\ (cycles /\ evs = [] \/
      res = Ends None /\ (evs = [] /\ inh = link_of (lh_kind d) \/
                          evs = [E_multiple_definition h (r_abfd r) (r_section r) (r_value r)]))
  | CYCLE | REFC => same /\ cycles /\ evs = []
  | WARNC => cycles /\ link_of k = link_of (lh_kind d)
  | _ => False
  end.

Definition plain (row : link_row) : Prop := row <> INDR_ROW /\ row <> WARN_ROW.

(** What a round does: the budget is spent only by the last one. *)
Definition stepped (n : Z) (s : lstate) (m : gmap cstring ptr) (row : link_row) (h : ptr) (d : link_data)
    (inh : option ptr) (r : request) (res : round) (s' : lstate) : Prop :=
  exists a l' k evs, action_for row d = Some a /\ outcome row a d h inh r res k evs /\ becomes h k evs s s' /\
    match res with Cycles _ _ => linked (n + 1) s' m l' | _ => linked n s' m l' end.

Section one_round.
Context (n : Z) (s : lstate) (m : gmap cstring ptr) (l : list ptr) (h : ptr) (d : link_data) (r : request).
Context (Hn : 0 <= n) (Hlk : linked (n + 1) s m l) (Hd : data_at s h = Some d).

Lemma here : kind_at s h = Some (lh_kind d).
Proof using Hd. unfold kind_at. by rewrite Hd. Qed.

Lemma less : linked n s m l.
Proof using Hlk. apply (linked_mono (n + 1)); [lia|done]. Qed.

(** The target of a link is an entry. *)
Lemma target_entry q : link_of (lh_kind d) = Some q -> is_Some (data_at s q).
Proof using Hlk Hd.
  intros Hq. pose proof (g_kinds _ _ _ _ Hlk h _ here) as Hk. unfold kind_at in Hk.
  destruct (lh_kind d); try done; injection Hq as ->; cbn in Hk; unfold kind_at in Hk;
    destruct (data_at s q); try done; by destruct Hk.
Qed.

Lemma report_spec e (Q : unit -> lstate -> Prop) :
  (forall s', linked (n + 1) s' m l -> becomes h (lh_kind d) [e] s s' -> data_at s' h = Some d ->
     l_secs s' = l_secs s -> Q tt s') ->
  runs (report e) s Q.
Proof using Hlk Hd.
  intros HQ. apply run_modify. apply HQ; [|by apply becomes_event, here|done|done].
  by apply (linked_ext (n + 1) s).
Qed.

End one_round.

Section actions.
Context (info : link_info) (bound : nat) (row : link_row) (inh : option ptr).
Context (n : Z) (s : lstate) (m : gmap cstring ptr) (l : list ptr) (h : ptr) (d : link_data) (r : request).
Context (Hn : 0 <= n) (Hlk : linked (n + 1) s m l) (Hd : data_at s h = Some d).
Context (Hr : request_ok (l_secs s) r) (Hcol : r_collect r = false).

Let Q := stepped n s m row h d inh r.

Lemma finish a res k evs l' s' :
  action_for row d = Some a -> outcome row a d h inh r res k evs -> becomes h k evs s s' ->
  match res with Cycles _ _ => linked (n + 1) s' m l' | _ => linked n s' m l' end -> Q res s'.
Proof. intros Ha H1 H2 H3. by exists a, l', k, evs. Qed.

(** Nothing but a report. *)
Lemma reported_spec a e :
  action_for row d = Some a -> outcome row a d h inh r (Ends None) (lh_kind d) [e] ->
  runs (_ ← report e; ret (Ends None)) s Q.
Proof using Hlk Hd.
  intros Ha Ho. apply run_bind, (report_spec n s m l h d Hlk Hd). intros s' H1 H2 _ _. apply run_ret.
  eapply finish; [exact Ha|exact Ho|exact H2|]. apply (linked_mono (n + 1)); [lia|done].
Qed.

Lemma und_spec :
  action_for row d = Some UND -> old_kind (lh_kind d) ->
  runs (_ ← set_h h (set_lh_kind (bfd_link_hash_undefined (Some (r_abfd r)))); _ ← bfd_link_add_undef h; ret (Ends None)) s Q.
Proof using Hlk Hd.
  intros Ha Hold. apply run_then. eapply run_mono; [by apply (promote_spec n s m l h d (Some (r_abfd r)) (less n s m l Hlk) Hd)|].
  intros _ s' (l' & H1 & H2 & _). apply run_ret. eapply finish; [exact Ha| |exact H2|exact H1]. done.
Qed.

Lemma weak_spec :
  action_for row d = Some WEAK -> old_kind (lh_kind d) ->
  runs (_ ← set_h h (set_lh_kind (bfd_link_hash_undefweak (Some (r_abfd r)))); ret (Ends None)) s Q.
Proof using Hlk Hd.
  intros Ha Hold. destruct (not_listed _ _ _ _ _ _ Hlk Hd Hold) as [Hl Hnx]. assert (is_Some (data_at s h)) as Hh by by eexists.
  apply run_bind, (run_set_h _ _ d); [done|]. apply run_ret.
  eapply finish; [exact Ha|done|by apply (becomes_put h d (set_lh_kind (bfd_link_hash_undefweak (Some (r_abfd r))) d))|].
  apply (linked_put n s m l h d); [by apply less|exact Hd|done|done| |done]. cbn. split; [done|].
  rewrite data_at_put by done. rewrite decide_True by done. cbn. by rewrite Hnx.
Qed.

Lemma define_spec weak :
  action_for row d = Some (if weak : bool then DEFW else DEF) ->
  runs (_ ← define_symbol weak h r; ret (Ends None)) s Q.
Proof using Hlk Hd Hr Hcol.
  intros Ha. apply run_bind. eapply run_mono; [by apply (define_symbol_spec n s m l h d weak r (less n s m l Hlk))|].
  intros _ s' (H1 & H2 & _). apply run_ret. eapply finish; [exact Ha| |exact H2|exact H1]. by destruct weak.
Qed.

Lemma common_defined_spec :
  action_for row d = Some CDEF -> is_common (lh_kind d) = true ->
  runs (_ ← BFD_ASSERT (is_common (lh_kind d)); _ ← report (E_multiple_common h (r_abfd r) None);
        _ ← define_symbol false h r; ret (Ends None)) s Q.
Proof using Hlk Hd Hr Hcol.
  intros Ha ->. apply run_bind, run_ret. apply run_bind, (report_spec n s m l h d Hlk Hd).
  intros s1 H1 H2 Hd1 Hs1. apply run_bind.
  eapply run_mono; [apply (define_symbol_spec n s1 m l h d false r (less n s1 m l H1) Hd1); [by rewrite Hs1|done]|].
  intros _ s' (H3 & H4 & _). apply run_ret. pose proof (becomes_trans _ _ _ _ _ _ _ _ H2 H4) as Hb.
  eapply finish; [exact Ha| |exact Hb|exact H3]. done.
Qed.

Lemma bigger_spec :
  action_for row d = Some BIG -> is_common (lh_kind d) = true ->
  runs (_ ← BFD_ASSERT (is_common (lh_kind d)); _ ← report (E_multiple_common h (r_abfd r) (Some (r_value r)));
        c ← the (match lh_kind d with bfd_link_hash_common c => c | _ => None end);
        _ ← (if c_size c <? r_value r then set_common h r else ret tt); ret (Ends None)) s Q.
Proof using Hlk Hd Hr Hn.
  intros Ha Hc. pose proof (g_kinds _ _ _ _ Hlk h _ (here s h d Hd)) as Hk. rewrite Hc.
  destruct (lh_kind d) as [| | | | |o| |] eqn:Hkd; try done. destruct Hk as (c & -> & _).
  apply run_bind, run_ret. apply run_bind, (report_spec n s m l h d Hlk Hd).
  intros s1 H1 H2 Hd1 Hs1. apply run_bind. eapply run_the; [done|]. apply run_bind.
  destruct (c_size c <? r_value r) eqn:Hlt.
  - eapply run_mono; [apply (enlarge_spec n s1 m l h d r Hn H1 Hd1); by rewrite Hs1|].
    intros _ s' (x & H3 & H4 & _). apply run_ret. pose proof (becomes_trans _ _ _ _ _ _ _ _ H2 H4) as Hb.
    eapply finish; [exact Ha| |exact Hb|exact H3]. split_and!; [done..|]. exists c. rewrite Hlt. split; [done|by exists x].
  - apply run_ret, run_ret. eapply finish; [exact Ha| |exact H2|by apply (less n)].
    split_and!; [done..|]. exists c. by rewrite Hlt, Hkd.
Qed.

Lemma common_spec :
  action_for row d = Some COM ->
  runs (_ ← match lh_kind d with bfd_link_hash_new => bfd_link_add_undef h | _ => ret tt end; make_common h r) s Q.
Proof using Hlk Hd Hr Hn.
  intros Ha. eapply run_mono; [by apply (com_spec n s m l h d r)|].
  intros res s' (-> & l' & x & H1 & H2 & _). eapply finish; [exact Ha| |exact H2|exact H1]. split_and!; [done..|by exists x].
Qed.

Lemma referenced_spec (res : round) :
  (match res with Cycles row' q => row' = row /\ action_for row d = Some REFC /\ link_of (lh_kind d) = Some q
   | Ends None => action_for row d = Some REF | _ => False end) -> ~ old_kind (lh_kind d) ->
  runs (mark_referenced h) s (fun _ s' => Q res s').
Proof using Hlk Hd.
  intros Hres Hold. eapply run_mono; [apply (mark_referenced_spec (n + 1) s m l h d Hlk Hd)|].
  { destruct (lh_kind d); done || by destruct Hold. }
  intros _ s' [H1 H2]. destruct res as [|[]|row' q]; try done.
  - eapply finish; [exact Hres| |exact H2|by apply less]. done.
  - destruct Hres as (-> & Ha & Hq). eapply finish; [exact Ha| |exact H2|exact H1]. split_and!; try done. by exists q.
Qed.

End actions.

Section links.
Context (info : link_info) (bound : nat) (row : link_row) (inh : option ptr).
Context (n : Z) (s : lstate) (m : gmap cstring ptr) (l : list ptr) (h : ptr) (d : link_data) (r : request).
Context (Hlk : linked (n + 1) s m l) (Hd : data_at s h = Some d).

Let Q := stepped n s m row h d inh r.

Lemma cycle_spec a q :
  action_for row d = Some a -> a = CYCLE \/ a = MIND \/ a = REFC -> link_of (lh_kind d) = Some q -> Q (Cycles row q) s.
Proof using Hlk Hd.
  intros Ha Hcase Hq. eapply finish; [exact Ha| |by apply becomes_refl, (here s h d)|exact Hlk].
  destruct Hcase as [->|[->| ->]]; (split; [done|]); [|left|]; (split; [by exists q|done]).
Qed.

Lemma indirect_again_spec :
  action_for row d = Some MIND -> is_Some (link_of (lh_kind d)) ->
  runs (link ← the (link_of (lh_kind d));
        if bool_decide (inh = Some link) then ret (Ends None)
        else
          dl ← get_h link;
          match lh_kind dl with
          | bfd_link_hash_defweak _ _ => ret (Cycles row link)
          | _ => multiple_definition h r
          end) s Q.
Proof using Hlk Hd.
  intros Ha [q Hq]. apply run_bind. eapply run_the; [exact Hq|]. case_bool_decide as Hi.
  - apply run_ret. eapply finish; [exact Ha| |by apply becomes_refl, (here s h d)|by apply less].
    split; [done|right]. split; [done|left]. by rewrite Hq.
  - destruct (target_entry n s m l h d Hlk Hd q Hq) as [dl Hdl]. apply run_bind, (run_get_h _ dl); [done|].
    assert (runs (multiple_definition h r) s Q) as Hmulti.
    { apply (reported_spec row inh n s m l h d r Hlk Hd MIND); [done|]. split; [done|right]. split; [done|by right]. }
    destruct (lh_kind dl); try exact Hmulti. apply run_ret. apply (cycle_spec MIND); [done|by right; left|done].
Qed.

Lemma warn_cycle_spec :
  action_for row d = Some WARNC -> is_Some (link_of (lh_kind d)) ->
  runs (_ ← match lh_kind d with
            | bfd_link_hash_warning link (Some w) =>
                if i_plugin info (r_abfd r) then ret tt
                else
                  e ← get_entry h;
                  _ ← report (E_warning (Some w) (he_string e) (Some (r_abfd r)));
                  set_h h (set_lh_kind (bfd_link_hash_warning link None))
            | _ => ret tt
            end;
        link ← the (link_of (lh_kind d)); ret (Cycles row link)) s Q.
Proof using Hlk Hd.
  intros Ha [q Hq]. apply run_bind.
  apply (run_mono _ _ (fun _ s' => exists k evs, becomes h k evs s s' /\ link_of k = Some q /\ linked (n + 1) s' m l)).
  2: { intros _ s' (k & evs & H1 & H2 & H3). apply run_bind. eapply run_the; [exact Hq|]. apply run_ret.
       eapply finish; [exact Ha| |exact H1|exact H3]. split; [by exists q|congruence]. }
  assert (runs (ret tt) s (fun _ s' => exists k evs, becomes h k evs s s' /\ link_of k = Some q /\ linked (n + 1) s' m l)) as Hsame.
  { apply run_ret. exists (lh_kind d), []. split_and!; [by apply becomes_refl, (here s h d)|done|exact Hlk]. }
  destruct (lh_kind d) as [| | | | | | |link [w|]] eqn:Hk; try exact Hsame.
  destruct (i_plugin info (r_abfd r)); [exact Hsame|]. injection Hq as ->.
  apply run_bind, (run_get_entry _ d); [done|]. intros e _ _.
  apply run_bind, (report_spec n s m l h d Hlk Hd). intros s1 H1 H2 Hd1 _. apply (run_set_h _ _ d); [done|].
  assert (is_Some (data_at s1 h)) as Hh by by eexists.
  pose proof (becomes_put h d (set_lh_kind (bfd_link_hash_warning q None) d) s1 Hd1 ltac:(by split)) as H3.
  exists (bfd_link_hash_warning q None), ([] ++ [E_warning (Some w) (he_string e) (Some (r_abfd r))]).
  split_and!; [by apply (becomes_trans _ (lh_kind d) _ _ _ _ s1)|done|].
  assert (link_at s1 h = Some q) as Hq1 by (unfold link_at, kind_at; rewrite Hd1; cbn; by rewrite Hk).
  apply (linked_put (n + 1) s1 m l h d); [exact H1|exact Hd1|done|done| |].
  - cbn. rewrite kind_at_put by done. case_decide; [by eexists|].
    destruct (target_entry n s1 m l h d H1 Hd1 q ltac:(by rewrite Hk)) as [dq Hdq]. unfold kind_at. rewrite Hdq. by eexists.
  - intros q' [= <-]. apply (no_cycle s1); [apply H1|done].
Qed.

End links.

Lemma round_spec info bound row inh n s m l h d r :
  plain row -> 0 <= n -> linked (n + 1) s m l -> data_at s h = Some d -> request_ok (l_secs s) r ->
  r_collect r = false ->
  runs (add_symbol_round info bound row h inh r) s (stepped n s m row h d inh r).
Proof.
  intros [Hind Hwarn] Hn Hlk Hd Hr Hcol.
  destruct (action_for_fits row d) as (a & Ha & Hfit). apply run_bind, (run_get_h _ d); [done|].
  apply run_bind. eapply run_the; [exact Ha|].
  assert (a = IND \/ a = CIND \/ a = MWARN \/ a = WARN -> row = INDR_ROW \/ row = WARN_ROW) as Hno.
  { clear -Ha. unfold action_for in Ha. intros Hcase.
    destruct row; try (by auto); destruct (lh_ldscript_def d), (lh_kind d); cbn in Ha; injection Ha as <-;
      by destruct Hcase as [|[|[|]]]. }
  destruct a; cbn in Hfit; try (exfalso; by destruct Hno; [auto|..]); try done.
  - by eapply und_spec.
  - by eapply weak_spec.
  - by eapply (define_spec row inh n s m l h d r Hlk Hd Hr Hcol false).
  - by eapply (define_spec row inh n s m l h d r Hlk Hd Hr Hcol true).
  - by eapply common_spec.
  - apply run_bind. eapply run_mono; [by eapply (referenced_spec row inh n s m l h d r Hlk Hd (Ends None))|].
    intros [] s' HQ. apply run_ret. exact HQ.
  - by eapply (reported_spec row inh n s m l h d r Hlk Hd CREF).
  - by eapply common_defined_spec.
  - apply run_ret. eapply finish; [exact Ha| |by apply becomes_refl, (here s h d)|by apply (less n)]. done.
  - by eapply bigger_spec.
  - by eapply (reported_spec row inh n s m l h d r Hlk Hd MDEF).
  - by eapply indirect_again_spec.
  - by eapply (reported_spec row inh n s m l h d r Hlk Hd SET).
  - destruct Hfit as [q Hq]. apply run_bind. eapply run_the; [exact Hq|]. apply run_ret. by eapply (cycle_spec row inh n s m l h d r Hlk Hd CYCLE q); [|left|].
  - destruct Hfit as [[q Hq] Hold]. apply run_bind.
    eapply run_mono; [by eapply (referenced_spec row inh n s m l h d r Hlk Hd (Cycles row q))|].
    intros [] s' HQ. apply run_bind. eapply run_the; [exact Hq|]. apply run_ret. exact HQ.
  - by eapply warn_cycle_spec.
Qed.

(** ** The loop *)

Lemma request_ok_later ss ss' r : secs_later ss ss' -> request_ok ss r -> request_ok ss' r.
Proof.
  intros [L1 L2] [H1 [name H2]]. split; [by apply L2|]. destruct (sec_at ss (r_section r)) as [d|] eqn:Hd; [|done].
  destruct (L1 _ d Hd) as (d' & -> & E & _). cbn in *. rewrite E, H2. by eexists.
Qed.

(** What a call leaves as it was: the entries outside [P]. *)
Record kept (P : ptr -> Prop) (s s' : lstate) : Prop := {
  op_others : forall x, ~ P x -> kind_at s' x = kind_at s x;
  op_asserts : l_asserts s' = l_asserts s;
  op_secs : secs_later (l_secs s) (l_secs s')
}.

Lemma kept_trans (P P1 P2 : ptr -> Prop) s s1 s2 :
  kept P1 s s1 -> kept P2 s1 s2 -> (forall x, P1 x -> P x) -> (forall x, P2 x -> P x) -> kept P s s2.
Proof.
  intros [A1 A2 A3] [B1 B2 B3] H1 H2. constructor; [|congruence|by etrans]. intros x Hx. rewrite B1, A1; auto.
Qed.

Lemma kept_mono (P P' : ptr -> Prop) s s' : kept P s s' -> (forall x, P x -> P' x) -> kept P' s s'.
Proof. intros [A1 A2 A3] H. constructor; auto. Qed.

Lemma kept_becomes h k evs s s' : becomes h k evs s s' -> kept (eq h) s s'.
Proof.
  intros [B1 B2 B3 B4 B5 B6 B7]. constructor; [|done|done]. intros x Hx. rewrite B1, decide_False; [done|]. congruence.
Qed.

(** The entries on the path of links from [h]. *)
Notation on_path h s s' := (kept (reaches s h) s s').

Lemma on_path_becomes h k evs s s' : becomes h k evs s s' -> on_path h s s'.
Proof.
  intros Hb. apply kept_becomes in Hb. eapply kept_mono; [exact Hb|]. intros x <-. apply rtc_refl.
Qed.

Lemma reaches_same s s' p q : (forall x, link_at s' x = link_at s x) -> reaches s' p q <-> reaches s p q.
Proof.
  intros H. split; apply reaches_mono; intros x y; by rewrite H.
Qed.

Lemma on_path_step h q k evs s s1 s' :
  becomes h k evs s s1 -> link_at s h = Some q -> link_of k = Some q -> on_path q s1 s' -> on_path h s s'.
Proof.
  intros Hb Hl Hk Hp. eapply kept_trans; [by eapply kept_becomes|exact Hp|intros x <-; apply rtc_refl|].
  intros x Hx. eapply rtc_l; [exact Hl|]. apply (reaches_same s s1); [|exact Hx]. intros y. unfold link_at.
  rewrite (bc_kind _ _ _ _ _ Hb). case_decide as E; [|done]. subst y. by rewrite <- Hl in Hk.
Qed.

(** A round that goes on does so along the link, and keeps all links. *)
Lemma outcome_cycles row a d h inh r res k evs :
  plain row -> outcome row a d h inh r res k evs ->
  res = Ends None \/ exists q, res = Cycles row q /\ link_of (lh_kind d) = Some q /\ link_of k = Some q.
Proof.
  intros _ Ho. destruct a; cbn in Ho; try done; try (by left; destruct Ho).
  - destruct Ho as (-> & [[(q & Hq & ->) _]|[-> _]]); [right; by exists q|by left].
  - destruct Ho as (-> & (q & Hq & ->) & _). right. by exists q.
  - destruct Ho as (-> & (q & Hq & ->) & _). right. by exists q.
  - destruct Ho as ((q & Hq & ->) & Hk). right. exists q. split_and!; [done..|congruence].
Qed.

(** Only warnings use the bound. *)
Lemma round_bound info b1 b2 row h inh r s :
  row <> WARN_ROW -> add_symbol_round info b1 row h inh r s = add_symbol_round info b2 row h inh r s.
Proof.
  intros Hrow. unfold add_symbol_round, mbind, M_bind. destruct (get_h h s) as [| |[d s1]]; [done..|].
  destruct (action_for row d) as [a|] eqn:Ha; [|done]. cbn. destruct a; try done. exfalso. apply Hrow.
  unfold action_for in Ha. destruct row, (lh_ldscript_def d), (lh_kind d); done.
Qed.

(** How a run from [h] ends. *)
Definition settled (n : Z) (s : lstate) (m : gmap cstring ptr) (h : ptr) (res : bool * option ptr) (s' : lstate) : Prop :=
  res = (true, None) /\ (exists l', linked n s' m l') /\ on_path h s s'.

Lemma plain_loop_acc info row inh n m r s0 h :
  plain row -> 0 <= n -> r_collect r = false -> Acc (fun q p => link_at s0 p = Some q) h ->
  forall s l, (forall x, link_at s x = link_at s0 x) -> linked (n + 1) s m l -> is_Some (data_at s h) ->
    request_ok (l_secs s) r ->
    exists fuel0, forall bound fuel, (fuel0 <= fuel)%nat ->
      runs (add_symbol_loop info bound fuel row h inh r) s (settled n s m h).
Proof.
  intros Hrow Hn Hcol Hacc. induction Hacc as [h _ IH]. intros s l Hsame Hlk [d Hd] Hr.
  destruct (round_spec info 0 row inh n s m l h d r Hrow Hn Hlk Hd Hr Hcol)
    as (res & s2 & Hrun & a & l' & k & evs & Ha & Ho & Hb & Hlk2).
  assert (forall bound, add_symbol_round info bound row h inh r s = Done (res, s2)) as Hrun'
    by (intros bound; rewrite <- Hrun; apply round_bound, Hrow).
  destruct (outcome_cycles _ _ _ _ _ _ _ _ _ Hrow Ho) as [->|(q & -> & Hq & Hkq)].
  - exists 1%nat. intros bound [|fuel] Hf; [lia|]. apply run_bind. exists (Ends None), s2. split; [done|].
    apply run_ret. split; [done|]. split; [by exists l'|by eapply on_path_becomes].
  - assert (link_at s h = Some q) as Hl by (unfold link_at, kind_at; by rewrite Hd).
    assert (forall x, link_at s2 x = link_at s0 x) as Hsame2.
    { intros x. rewrite <- Hsame. unfold link_at. rewrite (bc_kind _ _ _ _ _ Hb). case_decide as E; [|done].
      subst x. by rewrite <- Hl in Hkq. }
    assert (is_Some (data_at s2 q)) as Hq2.
    { pose proof (target_entry n s m l h d Hlk Hd q Hq) as [dq Hdq].
      assert (is_Some (kind_at s2 q)) as [kq Hkq'].
      { rewrite (bc_kind _ _ _ _ _ Hb). case_decide; [by eexists|]. unfold kind_at. rewrite Hdq. by eexists. }
      apply kind_entry in Hkq' as (d2 & Hd2 & _). by eexists. }
    destruct (IH q) with (s := s2) (l := l') as [fuel0 Hloop];
      [by rewrite <- Hsame|exact Hsame2|exact Hlk2|exact Hq2|by eapply request_ok_later; [apply Hb|]|].
    exists (S fuel0). intros bound [|fuel] Hf; [lia|]. apply run_bind. exists (Cycles row q), s2. split; [done|].
    eapply run_mono; [apply Hloop; lia|]. intros res s' (-> & Hlk' & Hp). split; [done|]. split; [done|].
    by eapply on_path_step.
Qed.

Lemma plain_loop info row inh n s m l h r :
  plain row -> 0 <= n -> r_collect r = false -> linked (n + 1) s m l -> is_Some (data_at s h) ->
  request_ok (l_secs s) r ->
  exists fuel0, forall bound fuel, (fuel0 <= fuel)%nat ->
    runs (add_symbol_loop info bound fuel row h inh r) s (settled n s m h).
Proof.
  intros Hrow Hn Hcol Hlk. apply (plain_loop_acc info row inh n m r s h Hrow Hn Hcol (g_links _ _ _ _ Hlk h) s l); done.
Qed.

(** *** Indirect symbols *)

(** The path of [h] stays away from the target [inh], unless [h] already stands
    for it, or the target for the end of the path. *)
Definition no_loop (s : lstate) (inh h : ptr) : Prop :=
  kind_at s h = Some (bfd_link_hash_indirect inh) \/
  forall e, reaches s h e -> ~ reaches s inh e \/ kind_at s inh = Some (bfd_link_hash_indirect e).

Lemma linked_error n s m l e : linked n s m l -> linked n (set_l_secs (set_ss_error e (l_secs s)) s) m l.
Proof.
  intros [H1 H2 H3 H4 [S1 S2 S3] [U1 U2 U3 U4] H7 H8].
  constructor; [exact H1|exact H2|exact H3|exact H4| |constructor; [exact U1|exact U2|exact U3|by apply (next_chain_frame s)]| |exact H8].
  - constructor; [done| |done]. intros b B HB. destruct (S2 b B HB) as (A1&A2&A3&x&y&A4). split_and!; try done.
    exists x, y. by apply (sections_ok_other (l_secs s)).
  - intros h k Hk. specialize (H7 h k Hk). destruct k; cbn in H7 |- *; done.
Qed.

Lemma reaches_redirect s s' h inh x :
  (forall x, link_at s' x = if decide (x = h) then Some inh else link_at s x) -> ~ reaches s inh h ->
  reaches s' h x -> x = h \/ reaches s inh x.
Proof.
  intros Hl Hno Hx. apply rtc_inv in Hx as [->|(y & Hy & Hx)]; [by left|right].
  rewrite Hl, decide_True in Hy by done. injection Hy as <-.
  assert (forall p z, reaches s' p z -> ~ reaches s p h -> reaches s p z) as Haway; [|by apply Haway].
  clear x Hx. intros p x. induction 1 as [p|p q z Hpq _ IH]; intros Hp; [apply rtc_refl|].
  rewrite Hl in Hpq. case_decide as E; [subst p; destruct Hp; apply rtc_refl|].
  eapply rtc_l; [exact Hpq|]. apply IH. intros Hq. apply Hp. by eapply rtc_l.
Qed.

(** How a round of the row of indirect symbols ends. *)
Inductive indirect_round (n : Z) (s : lstate) (m : gmap cstring ptr) (h inh : ptr) : round -> lstate -> Prop :=
| indirect_ends l' s' :
    linked n s' m l' -> kept (fun x => x = h \/ x = inh) s s' -> indirect_round n s m h inh (Ends None) s'
| indirect_made l' s' :
    linked (n + 1) s' m l' -> kept (fun x => x = h \/ x = inh) s s' ->
    (forall x, link_at s' x = if decide (x = h) then Some inh else link_at s x) -> ~ reaches s inh h ->
    indirect_round n s m h inh (Cycles UNDEF_ROW h) s'
| indirect_follows q :
    link_at s h = Some q -> kind_at s h <> Some (bfd_link_hash_indirect inh) ->
    indirect_round n s m h inh (Cycles INDR_ROW q) s
| indirect_refused l' s' :
    linked n s' m l' -> kept (eq h) s s' -> kind_at s inh = Some (bfd_link_hash_indirect h) ->
    indirect_round n s m h inh Fails s'.

Lemma make_indirect_round n s m l h d inh r :
  linked (n + 1) s m l -> data_at s h = Some d -> is_Some (data_at s inh) ->
  (~ reaches s inh h \/ kind_at s inh = Some (bfd_link_hash_indirect h)) ->
  runs (make_indirect INDR_ROW h (Some inh) r) s (indirect_round n s m h inh).
Proof.
  intros Hlk Hd [di Hdi] Hno.
  destruct (decide (kind_at s inh = Some (bfd_link_hash_indirect h))) as [Hloop|Hk].
  - apply run_bind. eapply run_the; [done|]. apply run_bind, (run_get_h _ di); [done|].
    unfold kind_at in Hloop. rewrite Hdi in Hloop. injection Hloop as Hloop. rewrite bool_decide_true by done.
    apply run_bind, (report_spec n s m l h d Hlk Hd). intros s1 H1 H2 _ _.
    apply run_bind, run_secs, run_modify, run_ret.
    apply (indirect_refused n s m h inh l); [by apply linked_error, less| |unfold kind_at; rewrite Hdi; cbn; by rewrite Hloop].
    apply kept_becomes in H2 as [K1 K2 K3]. constructor; [exact K1|exact K2|]. etrans; [exact K3|].
    constructor; [|done]. intros x dx Hx. by exists dx.
  - destruct Hno as [Hno|]; [|done].
    eapply run_mono; [apply (make_indirect_spec (n + 1) s m l INDR_ROW h d inh r Hlk Hd); [by eexists|done]|].
    intros res s' (-> & [l' Hlk'] & Hlinks & s1 & k1 & B1 & B2 & Hsecs).
    assert (kept (fun x => x = h \/ x = inh) s s') as Hkept.
    { apply kept_becomes in B1, B2. by eapply kept_trans; [exact B1|exact B2| |]; intros x <-; [right|left]. }
    destruct (lh_kind d); try (by eapply indirect_made). eapply indirect_ends; [by eapply less|done].
Qed.

Lemma add_indirect_round info bound n s m l h d inh r :
  linked (n + 1) s m l -> data_at s h = Some d -> is_Some (data_at s inh) -> no_loop s inh h ->
  runs (add_symbol_round info bound INDR_ROW h (Some inh) r) s (indirect_round n s m h inh).
Proof.
  intros Hlk Hd Hinh Hno.
  assert (~ reaches s inh h \/ kind_at s inh = Some (bfd_link_hash_indirect h)) as Hhere.
  { destruct Hno as [Hk|Hno]; [|by apply Hno, rtc_refl]. left. apply (no_cycle s); [apply Hlk|].
    unfold link_at. by rewrite Hk. }
  assert (kept (fun x => x = h \/ x = inh) s s) as Hsame by by constructor.
  assert (forall e, runs (_ ← report e; ret (Ends None)) s (indirect_round n s m h inh)) as Hreported.
  { intros e. apply run_bind, (report_spec n s m l h d Hlk Hd). intros s1 H1 H2 _ _. apply run_ret.
    eapply indirect_ends; [by eapply less|]. apply kept_becomes in H2.
    eapply kept_mono; [exact H2|]. intros x <-. by left. }
  assert (runs (make_indirect INDR_ROW h (Some inh) r) s (indirect_round n s m h inh)) as Hmake by by eapply make_indirect_round.
  destruct (action_for_fits INDR_ROW d) as (a & Ha & Hfit). apply run_bind, (run_get_h _ d); [done|].
  apply run_bind. eapply run_the; [exact Ha|]. unfold action_for in Ha.
  destruct (lh_ldscript_def d); cbn in Ha; [by injection Ha as <-|].
  destruct (lh_kind d) as [| | | | | |q|q w] eqn:Hk; cbn in Ha; injection Ha as <-; try exact Hmake.
  - apply Hreported.
  - apply run_bind, run_ret. apply run_bind, (report_spec n s m l h d Hlk Hd). intros s1 H1 H2 Hd1 Hs1.
    assert (forall x, kind_at s1 x = kind_at s x) as Hkinds.
    { intros x. rewrite (bc_kind _ _ _ _ _ H2). case_decide as E; [|done]. subst x. unfold kind_at. by rewrite Hd. }
    assert (forall x, link_at s1 x = link_at s x) as Hlinks by (intros x; unfold link_at; by rewrite Hkinds).
    assert (is_Some (data_at s1 inh)) as Hinh1.
    { destruct Hinh as [di Hdi]. assert (is_Some (kind_at s1 inh)) as [ki Hki]
        by (rewrite Hkinds; unfold kind_at; rewrite Hdi; by eexists).
      apply kind_entry in Hki as (d1 & Hd1' & _). by eexists. }
    eapply run_mono; [eapply (make_indirect_round n s1 m l h d inh r H1 Hd1 Hinh1); by rewrite (reaches_same s s1), Hkinds|].
    apply kept_becomes in H2. intros res s' Hround. inversion Hround as [l1 ? A1 A2|l1 ? A1 A2 A3 A4|q A1 A2|l1 ? A1 A2 A3]; subst.
    + eapply indirect_ends; [exact A1|]. eapply kept_trans; [exact H2|exact A2| |done]. intros x <-. by left.
    + eapply indirect_made; [exact A1| |intros x; by rewrite A3, Hlinks|by rewrite <- (reaches_same s s1)].
      eapply kept_trans; [exact H2|exact A2| |done]. intros x <-. by left.
    + unfold link_at, kind_at in A1. rewrite Hd1 in A1. cbn in A1. by rewrite Hk in A1.
    + eapply indirect_refused; [exact A1| |by rewrite <- Hkinds]. by eapply kept_trans; [exact H2|exact A2| |].
  - apply run_bind, run_ret. cbn [link_of]. case_bool_decide as Hi; [apply run_ret; by eapply indirect_ends; [eapply less|]|].
    destruct (target_entry n s m l h d Hlk Hd q ltac:(by rewrite Hk)) as [dl Hdl]. apply run_bind, (run_get_h _ dl); [done|].
    destruct (lh_kind dl); try apply Hreported. apply run_ret, indirect_follows.
    + unfold link_at, kind_at. rewrite Hd. cbn. by rewrite Hk.
    + unfold kind_at. rewrite Hd. cbn. rewrite Hk. intros [= ->]. done.
  - apply run_bind, run_ret, run_ret, indirect_follows; unfold link_at, kind_at; rewrite Hd; cbn; by rewrite Hk.
Qed.

(** How a run that makes [h] stand for [inh] ends: it fails only when [inh]
    stands for an entry of the path of [h]. *)
Definition made_indirect (n : Z) (s : lstate) (m : gmap cstring ptr) (inh h : ptr) (res : bool * option ptr)
    (s' : lstate) : Prop :=
  exists ok, res = (ok, None) /\ (exists l', linked n s' m l') /\
    kept (fun x => reaches s h x \/ reaches s inh x) s s' /\
    (ok = false -> exists e, reaches s h e /\ kind_at s inh = Some (bfd_link_hash_indirect e)).

Lemma no_loop_next s inh h q :
  no_loop s inh h -> link_at s h = Some q -> kind_at s h <> Some (bfd_link_hash_indirect inh) -> no_loop s inh q.
Proof. intros [H|H] Hq Hk; [done|]. right. intros e He. apply H. by eapply rtc_l. Qed.

Lemma indirect_loop info n s m l h inh r :
  0 <= n -> r_collect r = false -> linked (n + 1) s m l -> is_Some (data_at s h) -> is_Some (data_at s inh) ->
  request_ok (l_secs s) r -> no_loop s inh h ->
  exists fuel0, forall bound fuel, (fuel0 <= fuel)%nat ->
    runs (add_symbol_loop info bound fuel INDR_ROW h (Some inh) r) s (made_indirect n s m inh h).
Proof.
  intros Hn Hcol Hlk Hh Hinh Hr. pose proof (g_links _ _ _ _ Hlk h) as Hacc. revert Hh.
  induction Hacc as [h _ IH]. intros [d Hd] Hno.
  assert (forall x, x = h \/ x = inh -> reaches s h x \/ reaches s inh x) as Hends
    by (intros x [->| ->]; [left|right]; apply rtc_refl).
  destruct (add_indirect_round info 0 n s m l h d inh r Hlk Hd Hinh Hno) as (res & s2 & Hrun & Hround).
  assert (forall bound, add_symbol_round info bound INDR_ROW h (Some inh) r s = Done (res, s2)) as Hrun'
    by (intros bound; rewrite <- Hrun; by apply round_bound).
  inversion Hround as [l1 ? A1 A2|l1 ? A1 A2 A3 A4|q A1 A2|l1 ? A1 A2 A3]; subst.
  - exists 1%nat. intros bound [|fuel] Hf; [lia|]. apply run_bind. exists (Ends None), s2. split; [done|]. apply run_ret.
    exists true. split_and!; [done|by exists l1|by eapply kept_mono|done].
  - assert (is_Some (data_at s2 h)) as Hh2.
    { specialize (A3 h). rewrite decide_True in A3 by done. unfold link_at, kind_at in A3. by destruct (data_at s2 h). }
    destruct (plain_loop info UNDEF_ROW (Some inh) n s2 m l1 h r) as [fuel0 Hloop];
      [done|exact Hn|done|exact A1|done|by eapply request_ok_later; [apply A2|]|].
    exists (S fuel0). intros bound [|fuel] Hf; [lia|]. apply run_bind. exists (Cycles UNDEF_ROW h), s2. split; [done|].
    eapply run_mono; [apply Hloop; lia|]. intros res s' (-> & Hlk' & Hp). exists true. split_and!; [done..| |done].
    eapply kept_trans; [exact A2|exact Hp|done|]. intros x Hx. apply (reaches_redirect s s2 h inh) in Hx as [->|Hx];
      [left; apply rtc_refl|by right|done|done].
  - destruct (target_entry n s2 m l h d Hlk Hd q) as [dq Hdq]; [by unfold link_at, kind_at in A1; rewrite Hd in A1|].
    destruct (IH q A1 ltac:(by eexists) (no_loop_next _ _ _ _ Hno A1 A2)) as [fuel0 Hloop].
    exists (S fuel0). intros bound [|fuel] Hf; [lia|]. apply run_bind. exists (Cycles INDR_ROW q), s2. split; [done|].
    eapply run_mono; [apply Hloop; lia|]. intros res s' (ok & -> & Hlk' & Hk & Hfail). exists ok. split_and!; [done..| |].
    + eapply kept_mono; [exact Hk|]. intros x [Hx|Hx]; [left; by eapply rtc_l|by right].
    + intros Hok. destruct (Hfail Hok) as (e & He & Hke). exists e. split; [by eapply rtc_l|done].
  - exists 1%nat. intros bound [|fuel] Hf; [lia|]. apply run_bind. exists Fails, s2. split; [done|]. apply run_ret.
    exists false. split_and!; [done|by exists l1| |].
    + eapply kept_mono; [exact A2|]. intros x <-. left. apply rtc_refl.
    + intros _. exists h. split; [apply rtc_refl|done].
Qed.
