(* ===== verification/LinkerCall.v ===== *)
(** A call of [_bfd_generic_link_add_one_symbol]: warnings, the loop for any
    row, and the lookups before it. *)

From S2P Require Import Prelude HashTable HashTableSpec HashGrowth StateRes BfdSection SectionList SectionMake.
From S2P Require Import Linker LinkerState LinkerRound LinkerLoop.

(** ** Warnings *)

Lemma hash_entry_bfd_spec n s m l h :
  linked n s m l -> is_Some (data_at s h) ->
  exists fuel0, forall fuel, (fuel0 <= fuel)%nat -> runs (hash_entry_bfd fuel h) s (fun _ s' => s' = s).
Proof.
  intros Hlk. induction (g_links _ _ _ _ Hlk h) as [h _ IH]. intros [d Hd].
  pose proof (g_kinds _ _ _ _ Hlk h _ (here s h d Hd)) as Hk.
  assert (forall x, is_Some (sec_at (l_secs s) x) ->
    runs (s ← secs (get_sec x); ret (s_owner s)) s (fun _ s' => s' = s)) as Hsec.
  { intros x [dx Hx]. apply run_bind, run_secs, (run_get_sec _ dx); [done|]. apply run_ret, set_secs_id. }
  destruct (lh_kind d) as [|a|a|x v|x v|c|q|q w] eqn:Hkd; cbn in Hk.
  8: { assert (link_at s h = Some q) as Hq by (unfold link_at, kind_at; rewrite Hd; cbn; by rewrite Hkd).
       destruct Hk as [kq Hkq]. destruct (kind_entry _ _ _ Hkq) as (dq & Hdq & _).
       destruct (IH q Hq ltac:(by eexists)) as [fuel0 Hf]. exists (S fuel0). intros [|fuel] Hle; [lia|].
       apply run_bind, (run_get_h _ d); [done|]. rewrite Hkd. apply Hf. lia. }
  all: exists 1%nat; intros [|fuel] Hle; [lia|]; apply run_bind, (run_get_h _ d); [done|]; rewrite Hkd; try by apply run_ret.
  - by apply Hsec.
  - by apply Hsec.
  - destruct Hk as (c' & -> & Hc). apply run_bind, run_ret. by apply Hsec.
Qed.

(** How a run for a warning about [h] ends: a new entry may have taken the name. *)
Definition warning_given (n : Z) (s : lstate) (m : gmap cstring ptr) (name : cstring) (h : ptr) (r : request)
    (res : round) (s' : lstate) : Prop :=
  exists sub l', res = Ends sub /\ linked n s' (<[name := default h sub]> m) l' /\
    match sub with
    | Some sub => warned s s' h sub r
    | None => (forall x, kind_at s' x = kind_at s x) /\ l_asserts s' = l_asserts s /\ l_secs s' = l_secs s
    end.

Lemma warn_round info n s m l h name inh r :
  linked (n + 1) s m l -> m !! name = Some h -> is_Some (data_at s h) -> is_Some (r_string r) ->
  exists fuel0, forall bound, (fuel0 <= bound)%nat ->
    runs (add_symbol_round info bound WARN_ROW h inh r) s (warning_given n s m name h r).
Proof.
  intros Hlk Hm Hh Hw. destruct (hash_entry_bfd_spec _ _ _ _ h Hlk Hh) as [fuel0 Hbfd].
  destruct Hh as [d Hd]. exists fuel0. intros bound Hle.
  assert (runs (make_warning h r) s (warning_given n s m name h r)) as Hmake.
  { eapply run_mono; [by apply (make_warning_spec n s m l h d name r)|]. intros res s' (sub & -> & H1 & H2).
    by exists (Some sub), l. }
  assert (forall s', l_table s' = l_table s -> l_undefs s' = l_undefs s -> l_undefs_tail s' = l_undefs_tail s ->
    l_secs s' = l_secs s -> l_asserts s' = l_asserts s -> warning_given n s m name h r (Ends None) s') as Hquiet.
  { intros s' E1 E2 E3 E4 E5. exists None, l. split_and!; [done| | |done|done].
    - cbn. rewrite insert_id by done. apply (less n), (linked_ext (n + 1) s); done.
    - intros x. unfold kind_at, data_at. by rewrite E1. }
  destruct (action_for_fits WARN_ROW d) as (a & Ha & _). apply run_bind, (run_get_h _ d); [done|].
  apply run_bind. eapply run_the; [exact Ha|].
  assert (a = MWARN \/ a = WARN \/ a = NOACT) as [->|[->| ->]].
  { unfold action_for in Ha. destruct (lh_ldscript_def d), (lh_kind d); cbn in Ha; injection Ha as <-; auto. }
  - exact Hmake.
  - apply run_bind, run_gets. destruct (_ || _ || _); [|exact Hmake].
    apply run_bind, (run_get_entry _ d); [done|]. intros e _ _.
    apply run_bind. eapply run_mono; [apply Hbfd, Hle|]. intros abfd ? ->.
    apply run_bind, run_modify, run_bind. destruct (i_gc_sections info).
    + apply run_modify, run_ret. by apply Hquiet.
    + apply run_ret, run_ret. by apply Hquiet.
  - apply run_ret. by apply Hquiet.
Qed.

(** ** The loop for any row *)

(** The entries that a run for [h] and the target [inh] may change, besides new
    ones. *)
Definition touched (s : lstate) (h : ptr) (inh : option ptr) (x : ptr) : Prop :=
  reaches s h x \/ (exists q, inh = Some q /\ reaches s q x) \/ kind_at s x = None.

Definition loop_ends (n : Z) (s : lstate) (m : gmap cstring ptr) (name : cstring) (h : ptr) (inh : option ptr)
    (res : bool * option ptr) (s' : lstate) : Prop :=
  (exists l', linked n s' (<[name := default h (res.2)]> m) l') /\ kept (touched s h inh) s s' /\
  (res.1 = false -> exists q e, inh = Some q /\ reaches s h e /\ kind_at s q = Some (bfd_link_hash_indirect e)).

(** What each row asks for. *)
Definition row_ok (row : link_row) (s : lstate) (h : ptr) (inh : option ptr) (r : request) : Prop :=
  match row with
  | INDR_ROW => exists q, inh = Some q /\ is_Some (data_at s q) /\ no_loop s q h
  | WARN_ROW => is_Some (r_string r)
  | _ => True
  end.

Lemma loop_spec info row n s m l name h inh r :
  0 <= n -> r_collect r = false -> linked (n + 1) s m l -> m !! name = Some h -> request_ok (l_secs s) r ->
  row_ok row s h inh r ->
  exists fuel0, forall fuel, (fuel0 <= fuel)%nat ->
    runs (add_symbol_loop info fuel fuel row h inh r) s (loop_ends n s m name h inh).
Proof.
  intros Hn Hcol Hlk Hm Hr Hrow. pose proof (mapped_entry _ _ _ _ _ _ Hlk Hm) as Hh.
  destruct (decide (row = INDR_ROW)) as [->|Hind]; [|destruct (decide (row = WARN_ROW)) as [->|Hwarn]].
  - destruct Hrow as (q & -> & Hq & Hno).
    destruct (indirect_loop info n s m l h q r Hn Hcol Hlk Hh Hq Hr Hno) as [fuel0 Hloop].
    exists fuel0. intros fuel Hle. eapply run_mono; [by apply Hloop|].
    intros res s' (ok & -> & [l' Hlk'] & Hk & Hfail). split_and!.
    + exists l'. cbn. by rewrite insert_id.
    + eapply kept_mono; [exact Hk|]. intros x [Hx|Hx]; [by left|right; left]. by exists q.
    + intros Hok. destruct (Hfail Hok) as (e & He & Hke). by exists q, e.
  - destruct (warn_round info n s m l h name inh r Hlk Hm Hh Hrow) as [fuel0 Hround].
    exists (S fuel0). intros fuel Hle. destruct fuel as [|fuel]; [lia|]. apply run_bind.
    eapply run_mono; [apply Hround; lia|]. intros res s' (sub & l' & -> & Hlk' & Hcase). apply run_ret.
    split; [by exists l'|]. split; [|done]. destruct sub as [sub|].
    + destruct Hcase as (H1 & H2 & H3 & H4 & H5 & H6 & H7). constructor; [|done|by rewrite H6].
      intros x Hx. unfold kind_at. rewrite H4; [done|]. intros ->. apply Hx. right. right. unfold kind_at. by rewrite H1.
    + destruct Hcase as (H1 & H2 & H3). by constructor; [auto| |rewrite H3].
  - destruct (plain_loop info row inh n s m l h r (conj Hind Hwarn) Hn Hcol Hlk Hh Hr) as [fuel0 Hloop].
    exists fuel0. intros fuel Hle. eapply run_mono; [by apply Hloop|].
    intros res s' (-> & [l' Hlk'] & Hk). split_and!; [exists l'; cbn; by rewrite insert_id| |done].
    eapply kept_mono; [exact Hk|]. intros x Hx. by left.
Qed.

(** ** The call *)

Definition section_common (ss : sstate) (x : asec) : bool :=
  match sec_at ss x with Some d => negb (s_flags d .& SEC_IS_COMMON =? 0) | None => false end.

(** The row of a symbol. *)
Definition row_of (ss : sstate) (flags : Z) (section : asec) : link_row :=
  if bfd_is_ind_section section || has flags BSF_INDIRECT then INDR_ROW
  else if has flags BSF_WARNING then WARN_ROW
  else if has flags BSF_CONSTRUCTOR then SET_ROW
  else if bfd_is_und_section section then if has flags BSF_WEAK then UNDEFW_ROW else UNDEF_ROW
  else if has flags BSF_WEAK then DEFW_ROW
  else if section_common ss section then COMMON_ROW else DEF_ROW.

Lemma run_is_com x s Q : is_Some (sec_at (l_secs s) x) -> Q (section_common (l_secs s) x) s ->
  runs (secs (bfd_is_com_section x)) s Q.
Proof.
  unfold section_common. intros [d Hd] HQ. rewrite Hd in HQ. apply run_secs. unfold bfd_is_com_section.
  apply run_bind, (run_get_sec _ d); [done|]. apply run_ret. by rewrite set_secs_id.
Qed.

(** *** The entries that the lookups find *)

Lemma looked_kind h s s' x k : looked h s s' -> kind_at s x = Some k -> kind_at s' x = Some k.
Proof.
  intros [L1 L2 _ _ _ _ _ _] Hk. destruct (decide (x = h)) as [->|Hx]; [by rewrite L2, Hk|].
  unfold kind_at in *. by rewrite L1.
Qed.

Lemma looked_link h s s' x : looked h s s' -> link_at s' x = link_at s x.
Proof.
  intros [L1 L2 _ _ _ _ _ _]. unfold link_at. destruct (decide (x = h)) as [->|Hx].
  - rewrite L2. by destruct (kind_at s h).
  - unfold kind_at. by rewrite L1.
Qed.

Lemma new_reaches s h x : data_at s h = None -> reaches s h x -> x = h.
Proof.
  intros Hh Hr. apply rtc_inv in Hr as [->|(y & Hy & _)]; [done|]. unfold link_at, kind_at in Hy. by rewrite Hh in Hy.
Qed.

Lemma reaches_new n s m l p x : linked n s m l -> reaches s p x -> data_at s x = None -> p = x.
Proof.
  intros Hlk Hr Hx. apply rtc_inv_r in Hr as [->|(y & _ & Hy)]; [done|].
  unfold link_at in Hy. destruct (kind_at s y) as [k|] eqn:Hk; [|done].
  pose proof (g_kinds _ _ _ _ Hlk y k Hk) as Hok. exfalso.
  destruct k; try done; injection Hy as ->; destruct Hok as [kx Hkx]; unfold kind_at in Hkx; by rewrite Hx in Hkx.
Qed.

(** An entry that is new is on no path. *)
Lemma no_loop_new n s m l a b :
  linked n s m l -> a <> b -> data_at s a = None \/ data_at s b = None -> no_loop s a b.
Proof.
  intros Hlk Hab Hnew. right. intros e He. left. intros Ha. destruct Hnew as [Hn|Hn].
  - apply (new_reaches _ _ _ Hn) in Ha as ->. by rewrite (reaches_new _ _ _ _ _ _ Hlk He Hn) in Hab.
  - apply (new_reaches _ _ _ Hn) in He as ->. by rewrite (reaches_new _ _ _ _ _ _ Hlk Ha Hn) in Hab.
Qed.

Lemma no_loop_same s s' a b :
  (forall x, link_at s' x = link_at s x) -> (forall x k, kind_at s x = Some k -> kind_at s' x = Some k) ->
  no_loop s a b -> no_loop s' a b.
Proof.
  intros Hl Hk [H|H]; [left; by apply Hk|right]. intros e He. apply (reaches_same s s') in He; [|done].
  destruct (H e He) as [Hn|Hi]; [left|right; by apply Hk]. by rewrite (reaches_same s s').
Qed.

Lemma mapped_inj n s m l a b x : linked n s m l -> m !! a = Some x -> m !! b = Some x -> a = b.
Proof.
  intros Hlk Ha Hb. pose proof (g_table _ _ _ _ Hlk) as Hrep.
  destruct (represents_entry _ _ _ _ Hrep Ha) as (e & He & <-).
  destruct (represents_entry _ _ _ _ Hrep Hb) as (e' & He' & <-). rewrite He in He'. by injection He' as <-.
Qed.

(** What a call looks up, its state before the loop. *)
Record prepared (n : Z) (s : lstate) (m m' : gmap cstring ptr) (l : list ptr) (s' : lstate) : Prop := {
  pr_linked : linked n s' m' l;
  pr_kind : forall x k, kind_at s x = Some k -> kind_at s' x = Some k;
  pr_link : forall x, link_at s' x = link_at s x;
  pr_secs : l_secs s' = l_secs s;
  pr_asserts : l_asserts s' = l_asserts s;
  pr_map : forall nm x, m !! nm = Some x -> m' !! nm = Some x
}.

Lemma prepared_found n s0 m0 s m l name r s' :
  prepared (n + 1) s0 m0 m l s -> found n s m l name r s' ->
  exists h, r = Some h /\ entry_of s m name h /\ prepared n s0 m0 (<[name := h]> m) l s'.
Proof.
  intros [P1 P2 P3 P4 P5 P6] (h & -> & Hlk & He & Hlo). exists h. split_and!; [done..|]. constructor; [done| | | | |].
  - intros x k Hx. by eapply looked_kind, P2.
  - intros x. by rewrite (looked_link h s s').
  - by rewrite (lo_secs _ _ _ Hlo).
  - by rewrite (lo_asserts _ _ _ Hlo).
  - intros nm x Hx. destruct (decide (nm = name)) as [->|]; [|rewrite lookup_insert_ne by done; by apply P6].
    rewrite lookup_insert_eq. destruct He as [He|[He _]]; rewrite (P6 _ _ Hx) in He; [done|done].
Qed.

Lemma prepared_refl n s m l : linked n s m l -> prepared n s m m l s.
Proof. by constructor. Qed.

Lemma prepared_mono n n' s m m' l s' : n' <= n -> prepared n s m m' l s' -> prepared n' s m m' l s'.
Proof. intros Hn [P1 P2 P3 P4 P5 P6]. constructor; try assumption. by apply (linked_mono n). Qed.

(** The names a call is about: its own, and the one an indirect symbol stands
    for. *)
Definition own_name (info : link_info) (wrapped : gmap cstring ptr) (row : link_row) (abfd : ptr) (name : cstring) : cstring :=
  match row with UNDEF_ROW | UNDEFW_ROW => wrapped_name info wrapped abfd name | _ => name end.
Definition target_name (info : link_info) (wrapped : gmap cstring ptr) (row : link_row) (abfd : ptr)
    (string : option cstring) : option cstring :=
  match row with INDR_ROW => wrapped_name info wrapped abfd <$> string | _ => None end.

(** What the symbol must bring: a warning its text, an indirect symbol the name
    of another that does not lead back to it. *)
Definition symbol_ok (s : lstate) (m : gmap cstring ptr) (row : link_row) (name : cstring)
    (target string : option cstring) : Prop :=
  match row with
  | INDR_ROW => exists t, target = Some t /\ t <> name /\
      forall a b, m !! t = Some a -> m !! name = Some b -> no_loop s a b
  | WARN_ROW => is_Some string
  | _ => True
  end.

(** The entry of the target. *)
Definition target_found (s : lstate) (m : gmap cstring ptr) (target : option cstring) (inh : option ptr)
    (m1 : gmap cstring ptr) : Prop :=
  match target with
  | Some t => exists q, inh = Some q /\ entry_of s m t q /\ m1 = <[t := q]> m
  | None => inh = None /\ m1 = m
  end.

(** How a call ends. *)
Definition call_ends (n : Z) (s : lstate) (m : gmap cstring ptr) (info : link_info) (key : cstring)
    (target : option cstring) (hashp : option (option ptr)) (res : bool * option (option ptr)) (s' : lstate) : Prop :=
  exists m' l' h, linked n s' m' l' /\ m' !! key = Some h /\
    (forall nm x, nm <> key -> m !! nm = Some x -> m' !! nm = Some x) /\
    (forall x k, kind_at s x = Some k ->
       (forall nm y, nm = key \/ target = Some nm -> m !! nm = Some y -> ~ reaches s y x) -> kind_at s' x = Some k) /\
    l_asserts s' = l_asserts s /\ secs_later (l_secs s) (l_secs s') /\
    if res.1 then res.2 = (fun _ => Some h) <$> hashp
    else i_notice info key = false \/
      exists t a b e, target = Some t /\ m !! t = Some a /\ m !! key = Some b /\ reaches s b e /\
        kind_at s a = Some (bfd_link_hash_indirect e).

Lemma row_ready n n' s m l row name key target inh m1 h m2 s2 r :
  linked n s m l -> symbol_ok s m row name target (r_string r) -> (row = INDR_ROW -> key = name) ->
  target_found s m target inh m1 -> entry_of s m key h -> linked n' s2 m2 l -> m2 !! key = Some h ->
  (forall x, link_at s2 x = link_at s x) -> (forall x k, kind_at s x = Some k -> kind_at s2 x = Some k) ->
  (forall t q, target = Some t -> inh = Some q -> m2 !! t = Some q) -> row_ok row s2 h inh r.
Proof.
  intros Hlk Hsym Hkey Htf He Hlk2 Hm2 Hlinks Hkinds Hinh. destruct row; try done.
  destruct Hsym as (t & -> & Hne & Hloop). specialize (Hkey eq_refl) as ->.
  destruct Htf as (q & -> & Hq & ->). specialize (Hinh t q eq_refl eq_refl).
  assert (q <> h) as Hqh by (intros ->; by apply Hne, (mapped_inj _ _ _ _ _ _ _ Hlk2 Hinh Hm2)).
  exists q. split_and!; [done|by eapply mapped_entry|]. apply (no_loop_same s); [done|done|].
  destruct Hq as [Hq|[_ Hq]]; [|by eapply no_loop_new; [..|left]].
  destruct He as [He|[_ He]]; [by apply Hloop|by eapply no_loop_new; [..|right]].
Qed.

(** The end of the loop is the end of the call. *)
Lemma loop_call_ends n s m m2 l s2 info key target h inh hashp res s' :
  linked n s m l -> prepared (n + 1) s m m2 l s2 -> m2 !! key = Some h -> entry_of s m key h ->
  (forall q, inh = Some q -> exists t, target = Some t /\ entry_of s m t q) ->
  loop_ends n s2 m2 key h inh res s' ->
  call_ends n s m info key target hashp
    (res.1, match res.2 with Some x => (fun _ => Some x) <$> hashp | None => (fun _ => Some h) <$> hashp end) s'.
Proof.
  intros Hlk [P1 P2 P3 P4 P5 P6] Hm2 He Hinh ([l' Hlk'] & [K1 K2 K3] & Hfail).
  assert (forall y x, reaches s2 y x <-> reaches s y x) as Hreach by (intros y x; by apply reaches_same).
  exists (<[key := default h (res.2)]> m2), l', (default h (res.2)). split; [done|].
  split; [by rewrite lookup_insert_eq|]. split; [|split; [|split; [|split]]].
  - intros nm x Hnm Hx. rewrite lookup_insert_ne by done. by apply P6.
  - intros x k Hk Hoff.
    assert (forall nm y, nm = key \/ target = Some nm -> entry_of s m nm y -> ~ reaches s y x) as Hoff'.
    { intros nm y Hnm [Hy|[_ Hy]]; [by eapply Hoff|]. intros Hyx. apply (new_reaches _ _ _ Hy) in Hyx as ->.
      unfold kind_at in Hk. by rewrite Hy in Hk. }
    rewrite K1; [by apply P2|]. intros [Hx|[(q & Hq & Hx)|Hx]].
    + apply Hreach in Hx. by eapply (Hoff' key h); [left|..].
    + apply Hreach in Hx. destruct (Hinh q Hq) as (t & Ht & Hqe). by eapply (Hoff' t q); [right|..].
    + by rewrite (P2 _ _ Hk) in Hx.
  - congruence.
  - by rewrite P4 in K3.
  - cbn [fst snd]. destruct (res.1); [by destruct (res.2)|]. right. destruct (Hfail eq_refl) as (q & e & Hq & Hhe & Hqe).
    destruct (Hinh q Hq) as (t & Ht & Hqt). apply Hreach in Hhe.
    assert (link_at s q = Some e) as Hl by (rewrite <- P3; unfold link_at; by rewrite Hqe).
    assert (kind_at s q = Some (bfd_link_hash_indirect e)) as Hqe'.
    { unfold link_at in Hl. destruct (kind_at s q) as [k|] eqn:Hk; [|done]. rewrite (P2 _ _ Hk) in Hqe. done. }
    destruct Hqt as [Hqt|[_ Hqt]]; [|unfold kind_at in Hqe'; by rewrite Hqt in Hqe'].
    exists t, q, h, e. split_and!; [done|done| |done|done].
    destruct He as [He|[_ He]]; [done|]. apply (new_reaches _ _ _ He) in Hhe as ->.
    assert (q = h) as ->; [|by unfold kind_at in Hqe'; rewrite He in Hqe'].
    eapply (reaches_new _ _ _ _ q h Hlk); [by eapply rtc_l; [|apply rtc_refl]|done].
Qed.

Section call.
Context (info : link_info) (wrapped noticed : gmap cstring ptr) (Hinfo : info_ok info wrapped noticed).
Context (n : Z) (Hn : 0 <= n) (s : lstate) (m : gmap cstring ptr) (l : list ptr) (Hlk : linked (n + 3) s m l).
Context (abfd : ptr) (name : cstring) (flags : Z) (section : asec) (value : Z) (string : option cstring) (copy : bool).

Local Notation r := (mkRequest abfd (Some name) section value string copy false).
Local Notation row := (row_of (l_secs s) flags section).
Local Notation key := (own_name info wrapped row abfd name).
Local Notation target := (target_name info wrapped row abfd string).

Context (Hr : request_ok (l_secs s) r).

Context (Hsym : symbol_ok s m row name target string).

(** The first part of the function. *)
Definition classify (fuel : nat) : LM (link_row * option ptr * bool) :=
  if bfd_is_ind_section section || has flags BSF_INDIRECT then
    inh ← bfd_wrapped_link_hash_lookup info fuel abfd string true copy false;
    ret (INDR_ROW, inh, bool_decide (inh = None))
  else
    row ← plain_row flags section;
    _ ← (if decide (row = COMMON_ROW) then warn_lto_slim info abfd (Some name) else ret tt);
    ret (row, None, false).

Lemma plain_row_spec (Q : link_row -> lstate -> Prop) :
  bfd_is_ind_section section || has flags BSF_INDIRECT = false -> Q row s -> runs (plain_row flags section) s Q.
Proof using Hr.
  intros Hind HQ. unfold plain_row. unfold row_of in HQ. rewrite Hind in HQ.
  destruct (has flags BSF_WARNING); [by apply run_ret|]. destruct (has flags BSF_CONSTRUCTOR); [by apply run_ret|].
  destruct (bfd_is_und_section section); [by apply run_ret|]. destruct (has flags BSF_WEAK); [by apply run_ret|].
  destruct Hr as [_ Hsec]. cbn in Hsec. apply run_bind, run_is_com; [|by apply run_ret].
  destruct (sec_at (l_secs s) section); [by eexists|by destruct Hsec].
Qed.

Lemma plain_row_not_indirect :
  bfd_is_ind_section section || has flags BSF_INDIRECT = false -> row <> INDR_ROW.
Proof using. unfold row_of. intros ->. by repeat case_match. Qed.

Lemma classify_spec fuel :
  runs (classify fuel) s (fun x s1 => exists inh m1, x = (row, inh, false) /\ prepared (n + 2) s m m1 l s1 /\
    target_found s m target inh m1).
Proof using Hinfo Hn Hlk Hr Hsym.
  unfold classify. destruct (bfd_is_ind_section section || has flags BSF_INDIRECT) eqn:Hind.
  - assert (row = INDR_ROW) as Hrow by (unfold row_of; by rewrite Hind).
    pose proof Hsym as Hs. unfold symbol_ok in Hs. unfold target_found.
    rewrite Hrow in Hs |- *. destruct Hs as (t & Ht & Hne & _). rewrite Ht.
    cbn in Ht. destruct string as [str|]; [|done]. injection Ht as Ht.
    apply run_bind. eapply run_mono; [eapply (wrapped_lookup_spec (n + 2) s m l); [lia|exact Hinfo|]|].
    { by replace (n + 2 + 1) with (n + 3) by lia. }
    rewrite Ht. intros x s1 Hf. apply run_ret.
    destruct (prepared_found (n + 2) s m s m l t x s1) as (q & -> & He & Hp); [|exact Hf|].
    { apply prepared_refl. by replace (n + 2 + 1) with (n + 3) by lia. }
    exists (Some q), (<[t := q]> m). split_and!; [done|exact Hp|]. by exists q.
  - pose proof (plain_row_not_indirect Hind) as Hrow. apply run_bind, plain_row_spec; [done|].
    assert (target = None) as Ht by (by destruct row).
    assert (forall s1, l_table s1 = l_table s -> l_undefs s1 = l_undefs s -> l_undefs_tail s1 = l_undefs_tail s ->
      l_secs s1 = l_secs s -> l_asserts s1 = l_asserts s -> exists inh m1, (row, None, false) = (row, inh, false) /\
      prepared (n + 2) s m m1 l s1 /\ target_found s m target inh m1) as Hdone.
    { intros s1 E1 E2 E3 E4 E5. exists None, m. split_and!; [done| |unfold target_found; by rewrite Ht].
      constructor; [|intros x k|intros x|exact E4|exact E5|done]; [|unfold kind_at, data_at; by rewrite E1|
        unfold link_at, kind_at, data_at; by rewrite E1].
      apply (linked_mono (n + 3)); [lia|]. apply (linked_ext (n + 3) s); [exact E1|exact E2|exact E3|exact E4|exact Hlk]. }
    apply run_bind. destruct (decide (row = COMMON_ROW)); [|by apply run_ret, run_ret, Hdone].
    unfold warn_lto_slim. destruct (_ && _); [|by apply run_ret, run_ret, Hdone].
    by apply run_modify, run_ret, Hdone.
Qed.

Lemma target_not_key t : target = Some t -> t <> key.
Proof using Hsym.
  clear Hr. revert Hsym. destruct row; try done. intros (t' & Ht & Hne & _) Ht'. rewrite Ht in Ht'. injection Ht' as <-. done.
Qed.

(** The entry of the symbol's own name, in terms of the state at the start. *)
Lemma own_entry inh m1 s1 h :
  prepared (n + 2) s m m1 l s1 -> target_found s m target inh m1 -> entry_of s1 m1 key h ->
  entry_of s m key h /\ (forall nm, nm <> key -> target <> Some nm -> m1 !! nm = m !! nm).
Proof using Hsym.
  intros Hp Htf He.
  assert (m1 !! key = m !! key /\ forall nm, nm <> key -> target <> Some nm -> m1 !! nm = m !! nm) as [Hkey Hothers].
  { unfold target_found in Htf. pose proof target_not_key as Hne. destruct target as [t|]; [|by destruct Htf as [_ ->]].
    destruct Htf as (q & -> & _ & ->). split; [apply lookup_insert_ne; by apply Hne|].
    intros nm _ Hnm. apply lookup_insert_ne. congruence. }
  split; [|done]. destruct He as [He|[He Hd]]; rewrite Hkey in He; [by left|right]. split; [done|].
  destruct (data_at s h) as [d|] eqn:Hdh; [|done].
  pose proof (pr_kind _ _ _ _ _ _ Hp h (lh_kind d) ltac:(unfold kind_at; by rewrite Hdh)) as Hk.
  unfold kind_at in Hk. by rewrite Hd in Hk.
Qed.

(** The lookup of the symbol's own entry, with no entry passed in. *)
Lemma own_lookup_spec fuel inh m1 s1 (hashp : option (option ptr)) :
  hashp = None \/ hashp = Some None -> prepared (n + 2) s m m1 l s1 -> target_found s m target inh m1 ->
  runs (match hashp with
        | Some (Some h) => (ret (Some h) : LM (option ptr))
        | _ =>
            if decide (row = UNDEF_ROW \/ row = UNDEFW_ROW)
            then bfd_wrapped_link_hash_lookup info fuel abfd (Some name) true copy false
            else bfd_link_hash_lookup fuel (Some name) true copy false
        end) s1 (fun x s2 => exists h m2, x = Some h /\ m2 !! key = Some h /\ entry_of s m key h /\
          prepared (n + 1) s m m2 l s2 /\ row_ok row s2 h inh r /\
          (forall q, inh = Some q -> exists t, target = Some t /\ entry_of s m t q)).
Proof using Hinfo Hn Hsym Hlk.
  intros Hh Hp Htf. pose proof (pr_linked _ _ _ _ _ _ Hp) as Hlk1.
  assert (linked (n + 1 + 1) s1 m1 l) as Hlk1' by (by replace (n + 1 + 1) with (n + 2) by lia).
  eapply (run_mono _ _ (found (n + 1) s1 m1 l key)).
  { destruct Hh as [->| ->]; (destruct (decide _) as [Hu|Hu];
      [assert (key = wrapped_name info wrapped abfd name) as -> by (by destruct Hu as [->| ->]);
       by eapply wrapped_lookup_spec; [lia|..]
      |assert (key = name) as -> by (destruct row; try done; destruct Hu; auto); apply link_lookup_spec; [lia|done]]). }
  intros x s2 Hf. assert (prepared (n + 1 + 1) s m m1 l s1) as Hp' by (by replace (n + 1 + 1) with (n + 2) by lia).
  destruct (prepared_found _ _ _ _ _ _ _ _ _ Hp' Hf) as (h & -> & He & Hp2).
  destruct (own_entry inh m1 s1 h Hp Htf He) as [Hown _].
  exists h, (<[key := h]> m1). split_and!; [done|by rewrite lookup_insert_eq|done|exact Hp2| |].
  - eapply (row_ready (n + 3) (n + 1) s m l row name key target inh m1 h _ s2 r);
      [exact Hlk|exact Hsym|by intros ->|exact Htf|exact Hown|apply Hp2|by rewrite lookup_insert_eq|apply Hp2|apply Hp2|].
    intros t q Ht ->. unfold target_found in Htf. rewrite Ht in Htf. destruct Htf as (q' & [= <-] & _ & ->).
    rewrite lookup_insert_ne by (intros E; by apply (target_not_key t Ht)). apply lookup_insert_eq.
  - intros q ->. unfold target_found in Htf. destruct target as [t|]; [|by destruct Htf].
    destruct Htf as (q' & [= <-] & Hq & _). by exists t.
Qed.

(** Whether the symbol is reported, and the callback's answer. *)
Lemma notice_spec s1 h inh (Q : bool -> lstate -> Prop) m2 n2 :
  linked n2 s1 m2 l -> m2 !! key = Some h ->
  (forall ok s2, linked n2 s2 m2 l -> (forall x, data_at s2 x = data_at s1 x) -> l_secs s2 = l_secs s1 ->
     l_asserts s2 = l_asserts s1 -> (ok = false -> i_notice info key = false) -> Q ok s2) ->
  runs (noticed ← match i_notice_all info, i_notice_hash info with
                  | true, _ => (ret true : LM bool)
                  | false, Some t => name ← the (Some name); listed t name
                  | false, None => ret false
                  end;
        if (noticed : bool) then
          e ← get_entry h;
          _ ← report (E_notice h inh abfd section value flags);
          ret (i_notice info (he_string e))
        else ret true) s1 Q.
Proof using Hinfo.
  intros Hlk1 Hm HQ. apply run_bind, (run_mono _ _ (fun _ s' => s' = s1)).
  { destruct (i_notice_all info); [by apply run_ret|]. destruct (i_notice_hash info) as [t|] eqn:Ht; [|by apply run_ret].
    apply run_bind. eapply run_the; [done|]. by apply (run_listed _ _ _ (io_notice _ _ _ Hinfo t Ht)). }
  intros noticing ? ->. destruct noticing; [|by apply run_ret, HQ].
  destruct (represents_entry _ _ _ _ (g_table _ _ _ _ Hlk1) Hm) as (e & He & Hs).
  apply run_bind, run_bind, run_gets. rewrite He. apply run_ret. apply run_bind, run_modify, run_ret. rewrite Hs.
  apply HQ; [by apply (linked_ext n2 s1)|done..].
Qed.

Lemma call_spec hashp :
  hashp = None \/ hashp = Some None ->
  exists fuel0, forall fuel, (fuel0 <= fuel)%nat ->
    runs (_bfd_generic_link_add_one_symbol info fuel abfd (Some name) flags section value string copy false hashp) s
      (call_ends n s m info key target hashp).
Proof using Hinfo Hn Hlk Hr Hsym.
  intros Hh. destruct (classify_spec 0) as (? & s1 & Hrun1 & inh & m1 & -> & Hp1 & Htf).
  destruct (own_lookup_spec 0 inh m1 s1 hashp Hh Hp1 Htf)
    as (? & s2 & Hrun2 & h & m2 & -> & Hm2 & He & Hp2 & Hrow & Hinh).
  destruct (notice_spec s2 h inh (fun ok s3 => linked (n + 1) s3 m2 l /\ (forall x, data_at s3 x = data_at s2 x) /\
      l_secs s3 = l_secs s2 /\ l_asserts s3 = l_asserts s2 /\ (ok = false -> i_notice info key = false)) m2 (n + 1))
    as (ok & s3 & Hrun3 & Hlk3 & Hd3 & Hs3 & Ha3 & Hok); [apply Hp2|exact Hm2|by intros; split_and!|].
  assert (forall x, kind_at s3 x = kind_at s2 x) as Hk3 by (intros x; unfold kind_at; by rewrite Hd3).
  assert (forall x, link_at s3 x = link_at s2 x) as Hl3 by (intros x; unfold link_at; by rewrite Hk3).
  assert (prepared (n + 1) s m m2 l s3) as Hp3.
  { destruct Hp2 as [P1 P2 P3 P4 P5 P6]. constructor; [exact Hlk3| | |congruence|congruence|exact P6].
    - intros x k. rewrite Hk3. apply P2.
    - intros x. by rewrite Hl3. }
  assert (row_ok row s3 h inh r) as Hrow3.
  { destruct row; try exact Hrow. destruct Hrow as (q & Hq & Hdq & Hno). exists q. split_and!; [done|by rewrite Hd3|].
    eapply no_loop_same; [exact Hl3| |exact Hno]. intros x k. by rewrite Hk3. }
  assert (request_ok (l_secs s3) r) as Hr3 by (by rewrite (pr_secs _ _ _ _ _ _ Hp3)).
  destruct (loop_spec info row n s3 m2 l key h inh r Hn eq_refl Hlk3 Hm2 Hr3 Hrow3) as [fuel0 Hloop].
  exists fuel0. intros fuel Hle. apply run_bind. eexists (row, inh, false), s1. split; [exact Hrun1|]. cbn iota beta.
  apply run_bind. exists (Some h), s2. split; [exact Hrun2|]. cbn iota beta.
  apply run_assoc, run_bind. exists ok, s3. split; [exact Hrun3|]. destruct ok; cbn [negb].
  - apply run_bind. eapply run_mono; [by apply Hloop|]. intros [ok sub] s' Hends. apply run_ret.
    pose proof (loop_call_ends n s m m2 l s3 info key target h inh hashp (ok, sub) s') as Hfinal. cbn [fst snd] in Hfinal.
    replace (match sub with Some s0 => (fun _ => Some s0) <$> ((fun _ => Some h) <$> hashp)
      | None => (fun _ => Some h) <$> hashp end) with
      (match sub with Some x => (fun _ => Some x) <$> hashp | None => (fun _ : option ptr => Some h) <$> hashp end)
      by (by destruct sub, hashp).
    apply Hfinal; [apply (linked_mono (n + 3)); [lia|exact Hlk]|exact Hp3|exact Hm2|exact He|exact Hinh|exact Hends].
  - apply run_ret. exists m2, l, h. split; [by apply less|]. split; [done|]. split_and!.
    + intros nm x _. by apply Hp3.
    + intros x k Hk _. by apply Hp3.
    + by apply Hp3.
    + by rewrite (pr_secs _ _ _ _ _ _ Hp3).
    + left. by apply Hok.
Qed.
End call.
