(* ===== verification/LinkerMain.v ===== *)
(** The theorem on adding a symbol to the linker's table, the state a link starts
    with, and the symbols on which the code does not end. *)

From S2P Require Import Prelude HashTable HashTableSpec HashGrowth StateRes BfdSection SectionList SectionMake.
From S2P Require Import Linker LinkerState LinkerRound LinkerLoop LinkerCall.

(** ** The start of a link *)

Lemma linked_start n t ss syms evs :
  represents t ∅ -> roomy t -> ht_oracle t = [] -> ht_heap t = ∅ -> Z.of_nat (ht_brk t) + n < 2 ^ 28 -> secs_ok n ss ->
  linked n (mkLstate t None None ss syms evs 0) ∅ [].
Proof.
  intros H1 H2 H3 H4 H5 H6. set (s := mkLstate _ _ _ _ _ _ _).
  assert (forall h, kind_at s h = None) as Hk by (intros h; unfold kind_at, data_at; cbn; by rewrite H4, lookup_empty).
  constructor; [exact H1|exact H2|exact H5|exact H3|exact H6| | |].
  - by constructor; [..|constructor|].
  - intros h k Hh. by rewrite Hk in Hh.
  - intros h. constructor. intros q Hq. unfold link_at in Hq. by rewrite Hk in Hq.
Qed.

(** ** Properties *)

(** C16: as long as memory lasts, adding a symbol ends, for an entry that is looked
    up by name and with collect false (with collect true the code aborts at a strong
    definition of a constructor that was weakly defined, and reads past names that
    end after GLOBAL_): the table of symbols still represents a map from names to
    entries, which gains only the names of the call; the list of undefined
    symbols is still the chain from undefs to undefs_tail, without repetition, and
    holds every undefined entry; defined and common entries are in sections that
    exist; links end.  No assertion is violated, and only entries on the paths of
    links from the symbol and its target change their kind.  The call fails
    only when the notice callback says so or when the target of an indirect symbol
    already stands for an entry on the symbol's own path. *)
Theorem add_one_symbol_correct info wrapped noticed n s m l abfd name flags section value string copy hashp :
  info_ok info wrapped noticed -> 0 <= n -> linked (n + 3) s m l ->
  request_ok (l_secs s) (mkRequest abfd (Some name) section value string copy false) ->
  let row := row_of (l_secs s) flags section in
  let key := own_name info wrapped row abfd name in
  let target := target_name info wrapped row abfd string in
  symbol_ok s m row name target string -> hashp = None \/ hashp = Some None ->
  exists fuel0, forall fuel, (fuel0 <= fuel)%nat ->
    runs (_bfd_generic_link_add_one_symbol info fuel abfd (Some name) flags section value string copy false hashp) s
      (call_ends n s m info key target hashp).
Proof. intros Hinfo Hn Hlk Hr row key target Hsym Hh. by eapply call_spec. Qed.

(** ** At work *)

Definition start_table : hash_table link_data := mkHashTable (replicate 31 None) ∅ 0 [] 31 0 64 false.
Definition start : lstate := mkLstate start_table None None (demo_world []) ∅ [] 0.
Definition plain_info : link_info :=
  mkInfo false None None 0 false false false false (fun _ => true) (fun _ _ => None) (fun _ => 0) (fun _ => false)
    (fun _ => 0%nat) 0 (fun _ => None) (fun _ => None).

Lemma demo_secs_ok : secs_ok 100 (demo_world []).
Proof.
  constructor; [done| |].
  - intros b B HB. cbn in HB. apply lookup_singleton_Some in HB as [<- <-]. split_and!; [done..|].
    exists [], ∅. apply demo_ok.
  - intros x i -> Hi. destruct i as [|[|[|[|i]]]]; [by eexists..|lia].
Qed.

Lemma start_table_represents : represents start_table ∅.
Proof. by eapply (hash_init_represents true [] 64 31). Qed.

Lemma start_linked : linked 100 start ∅ [].
Proof. apply linked_start; [apply start_table_represents|vm_compute; discriminate|done..|apply demo_secs_ok]. Qed.

Lemma plain_info_ok : info_ok plain_info ∅ ∅.
Proof. by constructor. Qed.

Lemma und_request_ok name value string copy :
  request_ok (l_secs start) (mkRequest 7 (Some name) bfd_und_section_ptr value string copy false).
Proof. split; [by eexists|]. by eexists. Qed.

(** foo is made to stand for bar; afterwards foo is defined, which counts as a
    second definition. *)
Lemma add_one_symbol_correct_witness :
  (exists fuel0, forall fuel, (fuel0 <= fuel)%nat ->
    runs (_bfd_generic_link_add_one_symbol plain_info fuel 7 (Some (c_str "foo")) BSF_INDIRECT bfd_und_section_ptr 0
            (Some (c_str "bar")) false false (Some None)) start
      (call_ends 97 start ∅ plain_info (c_str "foo") (Some (c_str "bar")) (Some None))) /\
  match _bfd_generic_link_add_one_symbol plain_info 5 7 (Some (c_str "foo")) BSF_INDIRECT bfd_und_section_ptr 0
          (Some (c_str "bar")) false false (Some None) start with
  | Done (r, s) => r = (true, Some (Some 1%nat)) /\ kind_at s 1 = Some (bfd_link_hash_indirect 0) /\
      kind_at s 0 = Some (bfd_link_hash_undefined (Some 7%nat)) /\ l_undefs s = Some 0%nat
  | _ => False
  end.
Proof.
  split; [|vm_compute; split_and!; reflexivity].
  refine (add_one_symbol_correct plain_info ∅ ∅ 97 start ∅ [] 7 (c_str "foo") BSF_INDIRECT bfd_und_section_ptr 0
            (Some (c_str "bar")) false (Some None) plain_info_ok _ start_linked (und_request_ok _ _ _ _) _ _).
  - discriminate.
  - exists (c_str "bar"). split; [reflexivity|]. split; [discriminate|]. intros a b Ha. discriminate Ha.
  - right. reflexivity.
Defined.

(** ** Symbols that stand for themselves *)

(** The loop follows a reference around a symbol that stands for itself. *)
Lemma self_indirect_loops info bound fuel h inh r s d :
  data_at s h = Some d -> lh_kind d = bfd_link_hash_indirect h -> lh_ldscript_def d = false ->
  lh_next d <> None \/ l_undefs_tail s = Some h ->
  add_symbol_loop info bound fuel UNDEF_ROW h inh r s = Timeout.
Proof.
  intros Hd Hk Hs Hnext. induction fuel as [|fuel IH]; [done|].
  assert (runs (add_symbol_round info bound UNDEF_ROW h inh r) s (fun x s' => x = Cycles UNDEF_ROW h /\ s' = s))
    as (x & s' & Hrun & -> & ->).
  { apply run_bind, (run_get_h _ d); [done|]. unfold action_for. rewrite Hs, Hk. apply run_bind, run_ret.
    apply run_bind. apply (run_mono _ _ (fun _ s' => s' = s)).
    - apply run_bind, (run_get_h _ d); [done|]. apply run_bind, run_gets.
      destruct (decide (lh_next d = None)) as [Hn|Hn].
      + destruct Hnext as [Hnext|Ht]; [done|]. rewrite Ht, (bool_decide_true (Some h = Some h)) by done.
        rewrite andb_false_r. by apply run_ret.
      + rewrite (bool_decide_false (lh_next d = None)) by done. by apply run_ret.
    - intros _ s' ->. apply run_bind, run_ret, run_ret. done. }
  cbn [add_symbol_loop]. rewrite (bind_done _ _ _ _ _ Hrun). exact IH.
Qed.

(** A new entry that is made to stand for itself. *)
Lemma self_indirect_round info bound fuel n s m l h r d :
  linked n s m l -> data_at s h = Some d -> lh_kind d = bfd_link_hash_new -> lh_ldscript_def d = false ->
  add_symbol_loop info bound fuel INDR_ROW h (Some h) r s = Timeout.
Proof.
  intros Hlk Hd Hk Hs. destruct fuel as [|fuel]; [done|].
  destruct (promote_spec n s m l h d (Some (r_abfd r)) Hlk Hd ltac:(by rewrite Hk)) as (u & s1 & Hrun & l' & Hlk1 & Hb & _).
  assert (kind_at s1 h = Some (bfd_link_hash_undefined (Some (r_abfd r)))) as Hk1
    by (rewrite (bc_kind _ _ _ _ _ Hb); by rewrite decide_True).
  destruct (kind_entry _ _ _ Hk1) as (d1 & Hd1 & Hkd1).
  assert (is_Some (data_at s1 h)) as Hh by by eexists.
  set (d2 := set_lh_kind (bfd_link_hash_indirect h) d1).
  assert (add_symbol_round info bound INDR_ROW h (Some h) r s = Done (Cycles UNDEF_ROW h, put_h h d2 s1)) as Hround.
  { assert (runs (add_symbol_round info bound INDR_ROW h (Some h) r) s (fun x s' => x = Cycles UNDEF_ROW h /\ s' = put_h h d2 s1))
      as (x & s' & Hx & -> & ->); [|exact Hx].
    apply run_bind, (run_get_h _ d); [done|]. unfold action_for. rewrite Hs, Hk. apply run_bind, run_ret.
    apply run_bind, run_ret. apply run_bind, (run_get_h _ d); [done|]. rewrite Hk, bool_decide_false by done.
    apply run_bind. exists u, s1. split; [exact Hrun|]. apply run_bind, (run_get_h _ d1); [done|].
    apply run_bind, (run_set_h _ _ d1); [done|]. rewrite Hkd1. by apply run_ret. }
  cbn [add_symbol_loop]. rewrite (bind_done _ _ _ _ _ Hround).
  apply (self_indirect_loops _ _ _ _ _ _ _ d2).
  - rewrite data_at_put by done. by rewrite decide_True.
  - done.
  - destruct (bc_script _ _ _ _ _ Hb h d1 Hd1) as (d0 & Hd0 & Hs0 & _). rewrite Hd in Hd0. injection Hd0 as <-.
    change (lh_ldscript_def d1 = false). destruct (lh_ldscript_def d1); [|done]. by rewrite Hs0 in Hs.
  - pose proof (g_kinds _ _ _ _ Hlk1 h _ Hk1) as Hin. cbn in Hin. destruct (g_undefs _ _ _ _ Hlk1) as [U1 U2 U3 U4].
    change (lh_next d1 <> None \/ l_undefs_tail s1 = Some h). destruct (decide (lh_next d1 = None)) as [Hn|]; [right|by left].
    rewrite U2. by eapply next_chain_last.
Qed.

(** A symbol that is not known and is made to stand for itself, as is the last
    symbol of an object file when it is indirect: the call never ends. *)
Lemma self_indirect_hangs fuel info n s m l abfd name value copy hashp :
  0 <= n -> linked (n + 1 + 1) s m l -> m !! name = None ->
  i_wrap_hash info = None -> i_notice_all info = false -> i_notice_hash info = None ->
  hashp = None \/ hashp = Some None ->
  _bfd_generic_link_add_one_symbol info fuel abfd (Some name) BSF_INDIRECT bfd_ind_section_ptr value
    (Some name) copy false hashp s = Timeout.
Proof.
  intros Hn Hlk Hm Hw Hna Hnh Hh.
  destruct (link_lookup_spec (n + 1) s m l name copy fuel ltac:(lia) Hlk) as (? & s1 & Hrun1 & h & -> & Hlk1 & He & Hlo).
  destruct He as [He|[_ Hnew]]; [congruence|].
  destruct (link_lookup_spec n s1 _ l name copy fuel Hn Hlk1) as (? & s2 & Hrun2 & h' & -> & Hlk2 & He' & Hlo').
  assert (h' = h) as ->. { destruct He' as [He'|[He' _]]; rewrite lookup_insert_eq in He'; congruence. }
  assert (exists d, data_at s2 h = Some d /\ lh_kind d = bfd_link_hash_new /\ lh_ldscript_def d = false) as (d & Hd & Hk & Hs).
  { destruct Hlo as [_ K1 S1 _ _ _ _ _], Hlo' as [_ K2 S2 _ _ _ _ _]. rewrite K1 in K2. rewrite S1 in S2.
    unfold kind_at in K2. rewrite Hnew in K2, S2. destruct (data_at s2 h) as [d|]; [|done]. exists d.
    cbn in K2, S2. by injection K2 as K2; injection S2 as S2. }
  unfold _bfd_generic_link_add_one_symbol. change (bfd_is_ind_section bfd_ind_section_ptr || has BSF_INDIRECT BSF_INDIRECT) with true.
  cbn iota. unfold bfd_wrapped_link_hash_lookup. rewrite Hw, Hna, Hnh.
  assert (forall A (f : option ptr -> LM A), (x ← match hashp with
      | Some (Some h) => (ret (Some h) : LM (option ptr))
      | _ => if decide (INDR_ROW = UNDEF_ROW \/ INDR_ROW = UNDEFW_ROW)
             then bfd_link_hash_lookup fuel (Some name) true copy false
             else bfd_link_hash_lookup fuel (Some name) true copy false
      end; f x) s1 = f (Some h) s2) as Hown.
  { intros A f. apply bind_done. destruct Hh as [->| ->]; by case_decide. }
  pose proof (self_indirect_round info fuel fuel n s2 _ l h
    (mkRequest abfd (Some name) bfd_ind_section_ptr value (Some name) copy false) d Hlk2 Hd Hk Hs) as Hloop.
  rewrite (bind_done _ _ s (INDR_ROW, Some h, false) s1); [|by rewrite (bind_done _ _ _ _ _ Hrun1)].
  cbn iota beta. rewrite Hown. cbn iota beta. rewrite (bind_done _ _ s2 false s2) by done. cbn iota beta.
  rewrite (bind_done _ _ s2 true s2) by done. cbn iota beta. cbn [negb]. by rewrite bind_timeout.
Qed.
