(* ===== verification/LinkerResolve.v ===== *)
(** Which symbol wins: the table's rows as a precedence on the symbols of a
    name, and the resolution of the symbols of object files against it. *)

From S2P Require Import Prelude HashTable HashTableSpec HashGrowth StateRes BfdSection SectionList SectionMake.
From S2P Require Import Linker LinkerFiles LinkerState LinkerRound LinkerLoop LinkerCall LinkerMain.

(** ** The specification *)

(** A global symbol of an object file. *)
Record input := mkInput {
  in_abfd : ptr;
  in_name : cstring;
  in_row : link_row;
  in_section : asec;
  in_value : Z
}.

(** A definition comes before a common symbol, this before a weak definition,
    and any of them before a reference. *)
Definition rank (row : link_row) : Z :=
  match row with
  | UNDEFW_ROW => 1
  | UNDEF_ROW => 2
  | DEFW_ROW => 3
  | COMMON_ROW => 4
  | DEF_ROW => 5
  | _ => 0
  end.

Definition simple (row : link_row) : Prop := 0 < rank row.

(** Of two common symbols the larger one counts; otherwise the first of the
    highest rank. *)
Definition in_size (q : input) : Z := match in_row q with COMMON_ROW => in_value q | _ => 0 end.
Definition overrides (q p : input) : bool :=
  (rank (in_row p) <? rank (in_row q)) || (rank (in_row p) =? rank (in_row q)) && (in_size p <? in_size q).

Definition better (p : option input) (q : input) : input :=
  match p with Some p => if overrides q p then q else p | None => q end.

(** The symbols are listed latest first. *)
Fixpoint winners (qs : list input) : gmap cstring input :=
  match qs with
  | [] => ∅
  | q :: qs => let w := winners qs in <[in_name q := better (w !! in_name q) q]> w
  end.

(** What is reported when [q] meets the entry [h] that [p] won so far. *)
Definition clash (h : ptr) (p q : input) : list event :=
  match in_row p, in_row q with
  | DEF_ROW, DEF_ROW => [E_multiple_definition h (in_abfd q) (in_section q) (in_value q)]
  | COMMON_ROW, DEF_ROW => [E_multiple_common h (in_abfd q) None]
  | DEF_ROW, COMMON_ROW | COMMON_ROW, COMMON_ROW => [E_multiple_common h (in_abfd q) (Some (in_value q))]
  | _, _ => []
  end.

Definition slim (info : link_info) (q : input) : list event :=
  match in_row q with
  | COMMON_ROW => if negb (i_relocatable info) && lto_slim (in_name q) then [E_lto_slim (in_abfd q)] else []
  | _ => []
  end.

Fixpoint reports (info : link_info) (m : gmap cstring ptr) (qs : list input) : list event :=
  match qs with
  | [] => []
  | q :: qs =>
      match m !! in_name q, winners qs !! in_name q with Some h, Some p => clash h p q | _, _ => [] end
        ++ slim info q ++ reports info m qs
  end.

(** The kind of the entry that [q] won. *)
Definition won (q : input) (k : link_kind) : Prop :=
  match in_row q with
  | UNDEF_ROW => k = bfd_link_hash_undefined (Some (in_abfd q))
  | UNDEFW_ROW => k = bfd_link_hash_undefweak (Some (in_abfd q))
  | DEF_ROW => k = bfd_link_hash_defined (in_section q) (in_value q)
  | DEFW_ROW => k = bfd_link_hash_defweak (in_section q) (in_value q)
  | COMMON_ROW => exists x,
      k = bfd_link_hash_common (Some (mkCommon (common_power (in_value q)) x (in_value q)))
  | _ => False
  end.

(** The table holds the winners. *)
Definition holds (s : lstate) (m : gmap cstring ptr) (qs : list input) : Prop :=
  forall name, match winners qs !! name with
  | None => m !! name = None
  | Some q => exists h d, m !! name = Some h /\ data_at s h = Some d /\ lh_ldscript_def d = false /\ won q (lh_kind d)
  end.

(** ** The state table follows the precedence *)

Ltac eval_ranks := repeat match goal with
  | |- context [rank ?a <? rank ?b] =>
      let v := eval vm_compute in (rank a <? rank b) in change (rank a <? rank b) with v
  | |- context [rank ?a =? rank ?b] =>
      let v := eval vm_compute in (rank a =? rank b) in change (rank a =? rank b) with v
  end; cbn [orb andb].

Lemma outcome_better p q d h inh r a res k evs :
  simple (in_row q) -> lh_ldscript_def d = false ->
  r_abfd r = in_abfd q -> r_section r = in_section q -> r_value r = in_value q ->
  match p with Some p => simple (in_row p) /\ won p (lh_kind d) | None => lh_kind d = bfd_link_hash_new end ->
  action_for (in_row q) d = Some a -> outcome (in_row q) a d h inh r res k evs ->
  res = Ends None /\ won (better p q) k /\ evs = match p with Some p => clash h p q | None => [] end.
Proof.
  intros Hq Hs E1 E2 E3 Hp Ha Ho. unfold simple in *. destruct q as [qa qn qr qx qv]. cbn in *. subst qa qx qv.
  unfold action_for in Ha. rewrite Hs in Ha. destruct p as [[pa pn pr px pv]|].
  - destruct Hp as [Hpr Hp]. unfold won in Hp. cbn in Hpr, Hp. unfold clash, won, better, overrides, in_size; cbn.
    destruct pr; try (cbn in Hpr; lia); try (lazymatch type of Hp with ex _ => destruct Hp as [x Hp] end).
    all: rewrite Hp in Ha; destruct qr; try (cbn in Hq; lia); cbn in Ha; injection Ha as <-; cbn in Ho; rewrite ?Hp in Ho.
    all: eval_ranks; cbn.
    all: try (by destruct_and?; subst; split_and!).
    all: try (destruct Ho as (-> & -> & ->); split_and!; [done|by exists x|done]).
    destruct Ho as (-> & -> & c & Hcc & Hc).
    assert (c = mkCommon (common_power pv) x pv) as -> by congruence. cbn in Hc. destruct (pv <? r_value r); cbn.
    + destruct Hc as [x0 ->]. split_and!; [done|by exists x0|done].
    + subst k. split_and!; [done|exists x; congruence|done].
  - rewrite Hp in Ha. unfold won. destruct qr; try (cbn in Hq; lia); cbn in Ha; injection Ha as <-; cbn in Ho |- *;
      try (by destruct_and?; subst; split_and!).
Qed.

Lemma winner_in qs name p : winners qs !! name = Some p -> p ∈ qs /\ in_name p = name.
Proof.
  revert name p. induction qs as [|q qs IH]; intros name p; cbn [winners]; [by rewrite lookup_empty|].
  destruct (decide (name = in_name q)) as [->|Hne].
  - rewrite lookup_insert_eq. intros [= <-]. unfold better. destruct (winners qs !! in_name q) as [p|] eqn:Hp; [|by split; [left|]].
    destruct (IH _ _ Hp) as [Hin Hn]. destruct (overrides q p); (split; [|done]); [left|by right].
  - rewrite lookup_insert_ne by done. intros Hp. destruct (IH _ _ Hp). split; [by right|done].
Qed.

(** ** One symbol *)

(** No names are wrapped or reported. *)
Record quiet (info : link_info) : Prop := {
  qi_wrap : i_wrap_hash info = None;
  qi_all : i_notice_all info = false;
  qi_notice : i_notice_hash info = None
}.

Lemma holds_step s s2 s' m qs q h k evs :
  holds s m qs -> entry_of s m (in_name q) h -> looked h s s2 -> becomes h k evs s2 s' ->
  (forall nm x, m !! nm = Some x -> x = h -> nm = in_name q) ->
  won (better (winners qs !! in_name q) q) k -> holds s' (<[in_name q := h]> m) (q :: qs).
Proof.
  intros Hh He [L1 L2 L3 Ls L4 L5 L6 L7] [B1 B2 B3 B4 B5 B6 B7] Hinj Hwon name. cbn [winners].
  assert (forall x d', data_at s' x = Some d' -> lh_ldscript_def d' = true ->
    exists d2, data_at s2 x = Some d2 /\ lh_ldscript_def d2 = true) as Hscript.
  { intros x d' Hx Ht. destruct (B2 x d' Hx) as (d2 & Hd2 & Hs2 & _). exists d2. auto. }
  destruct (decide (name = in_name q)) as [->|Hne].
  - rewrite !lookup_insert_eq. specialize (B1 h). rewrite decide_True in B1 by done.
    destruct (kind_entry _ _ _ B1) as (d' & Hd' & Hk). exists h, d'. split_and!; [done|done| |by rewrite Hk].
    destruct (lh_ldscript_def d') eqn:Hs; [|done]. destruct (Hscript _ _ Hd' Hs) as (d2 & Hd2 & Hs2).
    rewrite Hd2 in L3. cbn in L3. rewrite Hs2 in L3. injection L3 as L3. specialize (Hh (in_name q)).
    destruct He as [He|[_ He]]; [|by rewrite He in L3].
    destruct (winners qs !! in_name q) as [p|]; [|congruence]. destruct Hh as (h0 & d0 & Hm & Hd0 & Hs0 & _).
    rewrite He in Hm. injection Hm as <-. rewrite Hd0 in L3. cbn in L3. congruence.
  - rewrite !lookup_insert_ne by done. specialize (Hh name). destruct (winners qs !! name) as [p|]; [|done].
    destruct Hh as (x & d & Hm & Hd & Hs & Hw). assert (x <> h) as Hx by (intros ->; by apply Hne, (Hinj name h)).
    specialize (B1 x). rewrite decide_False in B1 by done. unfold kind_at in B1 at 2. rewrite L1, Hd in B1 by done.
    destruct (kind_entry _ _ _ B1) as (d' & Hd' & Hk). exists x, d'. split_and!; [done|done| |by rewrite Hk].
    destruct (lh_ldscript_def d') eqn:Hs'; [|done]. destruct (Hscript _ _ Hd' Hs') as (d2 & Hd2 & Hs2).
    rewrite L1, Hd in Hd2 by done. congruence.
Qed.

Lemma set_events_id s : set_l_events (l_events s) s = s.
Proof. by destruct s. Qed.

Lemma run_slim info q s (Q : unit -> lstate -> Prop) :
  Q tt (set_l_events (slim info q ++ l_events s) s) ->
  runs (if decide (in_row q = COMMON_ROW) then warn_lto_slim info (in_abfd q) (Some (in_name q)) else ret tt) s Q.
Proof.
  unfold slim, warn_lto_slim. destruct (decide (in_row q = COMMON_ROW)) as [->|Hne].
  - destruct (_ && _); intros HQ; [by apply run_modify|]. apply run_ret. by rewrite <- (set_events_id s).
  - intros HQ. apply run_ret. rewrite <- (set_events_id s). by destruct (in_row q).
Qed.

Definition input_request (q : input) (string : option cstring) (copy : bool) : request :=
  mkRequest (in_abfd q) (Some (in_name q)) (in_section q) (in_value q) string copy false.

(** The symbols that the entries remember exist. *)
Definition syms_ok (s : lstate) : Prop :=
  forall x d p, data_at s x = Some d -> lh_sym d = Some p -> is_Some (l_syms s !! p).

Lemma syms_ok_step h k evs s s2 s' :
  looked h s s2 -> becomes h k evs s2 s' -> syms_ok s -> syms_ok s'.
Proof.
  intros [L1 L2 L3 Ls L4 L5 L6 L7] Hb Hok x d' p Hx Hp. rewrite (bc_syms _ _ _ _ _ Hb), L6.
  destruct (bc_script _ _ _ _ _ Hb x d' Hx) as (d2 & Hd2 & _ & Hsym). rewrite Hsym in Hp.
  destruct (decide (x = h)) as [->|Hne]; [|rewrite L1 in Hd2 by done; by eapply Hok].
  rewrite Hd2 in Ls. cbn in Ls. rewrite Hp in Ls. destruct (data_at s h) as [d|] eqn:Hd; [|done].
  cbn in Ls. injection Ls as Ls. by eapply Hok.
Qed.

(** What one call adds. *)
Definition added (n : Z) (s : lstate) (m : gmap cstring ptr) (info : link_info) (qs : list input) (q : input)
    (hashp : option (option ptr)) (res : bool * option (option ptr)) (s' : lstate) : Prop :=
  exists h l', let m' := <[in_name q := h]> m in
    res = (true, (fun _ => Some h) <$> hashp) /\ entry_of s m (in_name q) h /\
    linked n s' m' l' /\ holds s' m' (q :: qs) /\ secs_later (l_secs s) (l_secs s') /\
    l_events s' = match winners qs !! in_name q with Some p => clash h p q | None => [] end ++ slim info q ++ l_events s /\
    l_asserts s' = l_asserts s /\ l_syms s' = l_syms s /\ (syms_ok s -> syms_ok s').

Lemma simple_round info fuel n s m l h s2 m2 qs q string copy :
  0 <= n -> Forall (fun q => simple (in_row q)) (q :: qs) -> linked (n + 2) s m l ->
  holds s m qs -> entry_of s m (in_name q) h -> looked h s s2 ->
  linked (n + 1) s2 m2 l -> m2 = <[in_name q := h]> m -> request_ok (l_secs s2) (input_request q string copy) ->
  runs (add_symbol_loop info (S fuel) (S fuel) (in_row q) h None (input_request q string copy)) s2 (fun res s' =>
    res = (true, None) /\ exists l', linked n s' m2 l' /\ holds s' m2 (q :: qs) /\ secs_later (l_secs s) (l_secs s') /\
    l_events s' = match winners qs !! in_name q with Some p => clash h p q | None => [] end ++ l_events s /\
    l_asserts s' = l_asserts s /\ l_syms s' = l_syms s /\ (syms_ok s -> syms_ok s')).
Proof.
  intros Hn Hsimple Hlk Hh He Hlo Hlk2 Hm2 Hr. apply Forall_cons in Hsimple as [Hq Hqs].
  pose proof (lo_kind _ _ _ Hlo) as Hk2. destruct (kind_entry _ _ _ Hk2) as (d & Hd & Hkd).
  pose proof (lo_script _ _ _ Hlo) as Hs2. rewrite Hd in Hs2. apply (inj Some) in Hs2.
  assert (lh_ldscript_def d = false /\ match winners qs !! in_name q with
    | Some p => simple (in_row p) /\ won p (lh_kind d) | None => lh_kind d = bfd_link_hash_new end) as [Hscript Hwon].
  { specialize (Hh (in_name q)). unfold kind_at in Hkd. destruct (winners qs !! in_name q) as [p|] eqn:Hp.
    - destruct Hh as (h0 & d0 & Hm & Hd0 & Hs0 & Hw). destruct He as [He|[He _]]; [|congruence].
      rewrite Hm in He. injection He as ->. rewrite Hd0 in Hkd, Hs2. cbn in Hkd, Hs2. rewrite Hkd, Hs2.
      split_and!; [done| |done]. apply winner_in in Hp as [Hp _]. by apply (Forall_forall (fun q => simple (in_row q)) qs).
    - destruct He as [He|[_ He]]; [congruence|]. rewrite He in Hkd, Hs2. done. }
  assert (plain (in_row q)) as Hplain by (unfold simple in Hq; split; intros E; rewrite E in Hq; cbn in Hq; lia).
  eapply run_bind, run_mono; [by eapply (round_spec info (S fuel) (in_row q) None n s2 m2 l h d)|].
  intros res s' (a & l' & k & evs & Ha & Ho & Hb & Hlk').
  destruct (outcome_better (winners qs !! in_name q) q d h None (input_request q string copy) a res k evs)
    as (-> & Hk & ->); try done.
  apply run_ret. split; [done|]. exists l'. split_and!; [exact Hlk'| | | | | |by eapply syms_ok_step].
  - subst m2. eapply (holds_step s s2); try done. intros nm x Hx ->.
    assert (entry_of s m (in_name q) h) as [He'|[_ He']] by done; [by eapply (mapped_inj (n + 2) s m l)|].
    destruct (mapped_entry _ _ _ _ _ _ Hlk Hx). congruence.
  - rewrite <- (lo_secs _ _ _ Hlo). apply Hb.
  - rewrite (bc_events _ _ _ _ _ Hb). by rewrite (lo_events _ _ _ Hlo).
  - rewrite (bc_asserts _ _ _ _ _ Hb). apply Hlo.
  - rewrite (bc_syms _ _ _ _ _ Hb). apply Hlo.
Qed.

Lemma simple_call info fuel n s m l qs q flags string copy hashp :
  quiet info -> 0 <= n -> Forall (fun q => simple (in_row q)) (q :: qs) -> linked (n + 2) s m l -> holds s m qs ->
  request_ok (l_secs s) (input_request q string copy) -> row_of (l_secs s) flags (in_section q) = in_row q ->
  hashp = None \/ hashp = Some None ->
  runs (_bfd_generic_link_add_one_symbol info (S fuel) (in_abfd q) (Some (in_name q)) flags (in_section q) (in_value q)
          string copy false hashp) s (added n s m info qs q hashp).
Proof.
  intros [Hw Ha Hnh] Hn Hsimple Hlk Hh Hr Hrow Hhp. pose proof Hsimple as [Hq _]%Forall_cons.
  assert (in_row q <> INDR_ROW) as Hni by (intros E; unfold simple in Hq; rewrite E in Hq; cbn in Hq; lia).
  assert (bfd_is_ind_section (in_section q) || has flags BSF_INDIRECT = false) as Hind.
  { destruct (bfd_is_ind_section (in_section q) || has flags BSF_INDIRECT) eqn:E; [|done].
    unfold row_of in Hrow. by rewrite E in Hrow. }
  unfold _bfd_generic_link_add_one_symbol. rewrite Hind. apply run_bind, run_bind.
  eapply (plain_row_spec s (in_abfd q) (in_name q) flags (in_section q) (in_value q) string copy Hr); [exact Hind|].
  rewrite Hrow. apply run_bind, run_slim. set (s1 := set_l_events _ s). apply run_ret. cbn iota beta.
  assert (linked (n + 1 + 1) s1 m l) as Hlk1.
  { replace (n + 1 + 1) with (n + 2) by lia. by apply (linked_ext (n + 2) s). }
  apply run_bind, (run_mono _ _ (found (n + 1) s1 m l (in_name q))).
  { assert (runs (bfd_link_hash_lookup (S fuel) (Some (in_name q)) true copy false) s1 (found (n + 1) s1 m l (in_name q)))
      as Hl by (apply link_lookup_spec; [lia|exact Hlk1]).
    unfold bfd_wrapped_link_hash_lookup. rewrite Hw. destruct Hhp as [->| ->]; by case_decide. }
  intros x s2 (h & -> & Hlk2 & He & Hlo). cbn iota beta. rewrite Ha, Hnh.
  apply run_bind, run_ret, run_bind, run_ret. cbn [negb].
  apply run_bind. eapply run_mono.
  { eapply (simple_round info fuel n s1 m l h s2 _ qs q string copy);
      [exact Hn|exact Hsimple| |exact Hh|exact He|exact Hlo|exact Hlk2|done|by rewrite (lo_secs _ _ _ Hlo)].
    by replace (n + 2) with (n + 1 + 1) by lia. }
  intros res s' (-> & l' & Hlk' & Hh' & Hsecs & Hev & Has & Hsy & Hso). apply run_ret. exists h, l'.
  split_and!; [done|exact He|exact Hlk'|exact Hh'|exact Hsecs|exact Hev|exact Has|exact Hsy|exact Hso].
Qed.
