(* ===== verification/LinkerObjects.v ===== *)
(** The symbols of object files against the precedence of LinkerResolve: what the
    table holds after the files of a link have been read, in terms of their
    symbols. *)

From S2P Require Import Prelude HashTable HashTableSpec HashGrowth StateRes BfdSection SectionList SectionMake.
From S2P Require Import Linker LinkerFiles LinkerState LinkerRound LinkerLoop LinkerCall LinkerResolve.

(** ** The symbols of a file *)

Definition sym_global (ss : sstate) (y : asymbol) : bool :=
  has (sy_flags y) (BSF_INDIRECT .| BSF_WARNING .| BSF_GLOBAL .| BSF_CONSTRUCTOR .| BSF_WEAK)
  || bfd_is_und_section (sy_section y) || section_common ss (sy_section y) || bfd_is_ind_section (sy_section y).

Definition sym_row (ss : sstate) (y : asymbol) : link_row := row_of ss (sy_flags y) (sy_section y).

(** What a symbol asks of the table; a local symbol asks nothing. *)
Definition input_of (ss : sstate) (abfd : ptr) (y : asymbol) : option input :=
  if sym_global ss y then
    name ← sy_name y; Some (mkInput abfd name (sym_row ss y) (sy_section y) (sy_value y))
  else None.

(** A symbol of a section that exists, which if it is global is a plain
    reference or definition and has a name. *)
Definition simple_symbol (ss : sstate) (y : asymbol) : Prop :=
  is_Some (sec_at ss (sy_section y) ≫= s_name) /\
  (sym_global ss y = true -> is_Some (sy_name y) /\ simple (sym_row ss y)).

Lemma section_common_later ss ss' x :
  secs_later ss ss' -> is_Some (sec_at ss x) -> section_common ss' x = section_common ss x.
Proof.
  intros [L _] [d Hd]. destruct (L x d Hd) as (d' & Hd' & _ & _ & Hf). unfold section_common. by rewrite Hd, Hd', Hf.
Qed.

Lemma row_of_later ss ss' flags x :
  secs_later ss ss' -> is_Some (sec_at ss x) -> row_of ss' flags x = row_of ss flags x.
Proof. intros Hl Hx. unfold row_of. by rewrite (section_common_later ss ss'). Qed.

Lemma sym_global_later ss ss' y :
  secs_later ss ss' -> is_Some (sec_at ss (sy_section y)) -> sym_global ss' y = sym_global ss y.
Proof. intros Hl Hx. unfold sym_global. by rewrite (section_common_later ss ss'). Qed.

Lemma named_sec ss x : is_Some (sec_at ss x ≫= s_name) -> is_Some (sec_at ss x).
Proof. destruct (sec_at ss x); [by eexists|by intros []]. Qed.

(** A plain symbol is neither indirect, nor a warning, nor a constructor. *)
Lemma simple_row_flags ss flags x :
  simple (row_of ss flags x) ->
  has flags BSF_INDIRECT || bfd_is_ind_section x = false /\ has flags BSF_WARNING = false /\
  has flags BSF_CONSTRUCTOR = false.
Proof.
  unfold simple, row_of. destruct (bfd_is_ind_section x), (has flags BSF_INDIRECT); cbn; try lia.
  destruct (has flags BSF_WARNING); cbn; [lia|]. destruct (has flags BSF_CONSTRUCTOR); cbn; [lia|]. done.
Qed.

(** ** The state between two symbols *)

Record resolved (n : Z) (info : link_info) (s0 : lstate) (m : gmap cstring ptr) (qs : list input) (s : lstate) : Prop := {
  rs_linked : exists l, linked n s m l;
  rs_holds : holds s m qs;
  rs_simple : Forall (fun q => simple (in_row q)) qs;
  rs_secs : secs_later (l_secs s0) (l_secs s);
  rs_events : l_events s = reports info m qs ++ l_events s0;
  rs_asserts : l_asserts s = l_asserts s0;
  rs_syms : syms_ok s
}.

Lemma winner_exists qs q : q ∈ qs -> is_Some (winners qs !! in_name q).
Proof.
  induction qs as [|p qs IH]; [by intros ?%elem_of_nil|]. cbn [winners]. intros Hq.
  destruct (decide (in_name q = in_name p)) as [->|Hne]; [rewrite lookup_insert_eq; by eexists|].
  rewrite lookup_insert_ne by done. apply IH. apply elem_of_cons in Hq as [->|Hq]; done.
Qed.

Lemma reports_ext info m m' qs :
  (forall q, q ∈ qs -> m' !! in_name q = m !! in_name q) -> reports info m' qs = reports info m qs.
Proof.
  induction qs as [|q qs IH]; intros H; [done|]. cbn [reports]. rewrite H by left. rewrite IH; [done|].
  intros p Hp. apply H. by right.
Qed.

Lemma added_resolved n info s0 m qs s q hashp res s' :
  resolved (n + 2) info s0 m qs s -> simple (in_row q) -> added n s m info qs q hashp res s' ->
  exists h, res = (true, (fun _ => Some h) <$> hashp) /\
    let m' := <[in_name q := h]> m in resolved n info s0 m' (q :: qs) s' /\ l_syms s' = l_syms s.
Proof.
  intros [R1 R2 R3 R4 R5 R6 R7] Hq (h & l' & -> & He & Hlk & Hh & Hsecs & Hev & Has & Hsy & Hso).
  exists h. split; [done|]. split; [|done]. constructor; [by exists l'|done|by constructor|by etrans| |congruence|auto].
  cbn [reports]. rewrite lookup_insert_eq. rewrite Hev, R5, <- !app_assoc. f_equal. f_equal. f_equal. symmetry.
  apply reports_ext. intros p Hp. destruct (decide (in_name p = in_name q)) as [E|E]; [|by rewrite lookup_insert_ne].
  rewrite E, lookup_insert_eq. destruct He as [He|[He _]]; [done|].
  destruct (winner_exists qs p Hp) as [w Hw]. specialize (R2 (in_name p)). rewrite Hw in R2.
  destruct R2 as (x & d & Hx & _). congruence.
Qed.

(** ** What is stored for the output *)

(** Only the symbol [p] and the symbols that entries remember change. *)
Record saved (p : ptr) (s s' : lstate) : Prop := {
  sv_data : forall x, set_lh_sym None <$> data_at s' x = set_lh_sym None <$> data_at s x;
  sv_table : same_table s s';
  sv_undefs : l_undefs s' = l_undefs s;
  sv_tail : l_undefs_tail s' = l_undefs_tail s;
  sv_secs : l_secs s' = l_secs s;
  sv_events : l_events s' = l_events s;
  sv_asserts : l_asserts s' = l_asserts s;
  sv_others : forall q, q <> p -> l_syms s' !! q = l_syms s !! q;
  sv_own : is_Some (l_syms s !! p) -> is_Some (l_syms s' !! p);
  sv_ok : is_Some (l_syms s !! p) -> syms_ok s -> syms_ok s'
}.

Lemma saved_refl p s : saved p s s.
Proof. by constructor. Qed.

Lemma saved_trans p s1 s2 s3 : saved p s1 s2 -> saved p s2 s3 -> saved p s1 s3.
Proof.
  intros [A1 A2 A3 A4 A5 A6 A7 A8 A9 A10] [B1 B2 B3 B4 B5 B6 B7 B8 B9 B10].
  constructor; [intros x; by rewrite B1|by etrans|congruence..| |auto|auto]. intros q Hq. by rewrite B8, A8.
Qed.

Lemma sym_free_fmap {A} (f : link_data -> A) (o o' : option link_data) :
  (forall d, f (set_lh_sym None d) = f d) ->
  set_lh_sym None <$> o = set_lh_sym None <$> o' -> f <$> o = f <$> o'.
Proof.
  intros Hf H. destruct o as [d|], o' as [d'|]; try done. apply (inj Some) in H.
  change (Some (f d) = Some (f d')). by rewrite <- (Hf d), <- (Hf d'), H.
Qed.

Lemma linked_saved n p s s' m l : saved p s s' -> linked n s m l -> linked n s' m l.
Proof.
  intros [A1 [T1 T2 T3 T4 T5] A3 A4 A5 A6 A7 A8 A9 A10] [H1 H2 H3 H4 H5 [U1 U2 U3 U4] H7 H8].
  assert (forall x, kind_at s' x = kind_at s x) as Hk by (intros x; by apply sym_free_fmap).
  assert (forall x, lh_next <$> data_at s' x = lh_next <$> data_at s x) as Hn by (intros x; by apply sym_free_fmap).
  assert (forall x, link_at s' x = link_at s x) as Hl by (intros x; unfold link_at; by rewrite Hk).
  constructor; [by apply T1|by apply T2|by rewrite T3|by apply T4|by rewrite A5| | |].
  - constructor; [congruence|congruence|done|]. by apply (next_chain_frame s).
  - intros h k Hh. rewrite Hk in Hh. specialize (H7 h k Hh). destruct k; cbn in H7 |- *; by rewrite ?Hn, ?Hk, ?A5.
  - intros h. induction (H8 h) as [h _ IH]. constructor. intros q Hq. rewrite Hl in Hq. by apply IH.
Qed.

Lemma holds_saved p s s' m qs : saved p s s' -> holds s m qs -> holds s' m qs.
Proof.
  intros Hs Hh name. specialize (Hh name). destruct (winners qs !! name) as [q|]; [|done].
  destruct Hh as (h & d & Hm & Hd & Hscr & Hw). pose proof (sv_data _ _ _ Hs h) as Hx. rewrite Hd in Hx.
  destruct (data_at s' h) as [d'|] eqn:Hd'; [|done]. apply (inj Some) in Hx. exists h, d'. split_and!; [done|done| |].
  - change (lh_ldscript_def (set_lh_sym None d') = false). by rewrite Hx.
  - change (won q (lh_kind (set_lh_sym None d'))). by rewrite Hx.
Qed.

Lemma resolved_saved n info s0 m qs p s s' :
  saved p s s' -> is_Some (l_syms s !! p) -> resolved n info s0 m qs s -> resolved n info s0 m qs s'.
Proof.
  intros Hs Hp [[l R1] R2 R3 R4 R5 R6 R7].
  constructor; [exists l; by eapply linked_saved|by eapply holds_saved|done|by rewrite (sv_secs _ _ _ Hs)
    |by rewrite (sv_events _ _ _ Hs)|by rewrite (sv_asserts _ _ _ Hs)|by apply (sv_ok _ _ _ Hs)].
Qed.

Lemma run_get_sym p y s Q : l_syms s !! p = Some y -> Q y s -> runs (get_sym p) s Q.
Proof. intros Hp HQ. apply run_bind, run_gets. by eapply run_the. Qed.

Lemma run_set_sym p y f s (Q : unit -> lstate -> Prop) :
  l_syms s !! p = Some y -> (forall s', saved p s s' -> Q tt s') -> runs (set_sym p f) s Q.
Proof.
  intros Hp HQ. apply run_bind, (run_get_sym _ y); [done|]. apply run_modify, HQ. constructor; try done.
  - intros q Hq. cbn. by rewrite lookup_insert_ne.
  - intros _. cbn. rewrite lookup_insert_eq. by eexists.
  - intros _ Hok x d q Hd Hq. cbn. destruct (decide (q = p)) as [->|Hne]; [rewrite lookup_insert_eq; by eexists|].
    rewrite lookup_insert_ne by done. by eapply Hok.
Qed.

Lemma saved_sym p h d s : data_at s h = Some d -> saved p s (put_h h (set_lh_sym (Some p) d) s).
Proof.
  intros Hd. assert (is_Some (data_at s h)) as Hh by by eexists. constructor; try done.
  - intros x. rewrite data_at_put by done. case_decide as E; [|done]. subst x. by rewrite Hd.
  - by apply same_table_put.
  - intros Hp Hok x dx q Hx Hq. rewrite data_at_put in Hx by done. case_decide as E; [|by eapply Hok].
    injection Hx as <-. by injection Hq as <-.
Qed.

Lemma save_symbol_spec p y h s :
  syms_ok s -> l_syms s !! p = Some y -> is_Some (data_at s h) -> is_Some (sec_at (l_secs s) (sy_section y)) ->
  runs (save_symbol p h) s (fun _ s' => saved p s s').
Proof.
  intros Hok Hp [d Hd] Hsec. apply run_bind, (run_get_sym _ y); [done|]. apply run_bind, (run_get_h _ d); [done|].
  apply run_bind, run_is_com; [done|]. apply run_bind, (run_mono _ _ (fun _ s' => s' = s)).
  { destruct (lh_sym d) as [q|] eqn:Hq; [|by apply run_ret]. destruct (bfd_is_und_section _); [by apply run_ret|].
    destruct (section_common _ _); cbn [negb]; [|by apply run_ret]. destruct (Hok h d q Hd Hq) as [yq Hyq].
    apply run_bind, (run_get_sym _ yq); [done|]. by apply run_ret. }
  intros b ? ->. destruct b; [|apply run_ret, saved_refl].
  apply run_bind, (run_set_h _ _ d); [done|]. pose proof (saved_sym p h d s Hd) as Hs.
  destruct (section_common _ _); [|by apply run_ret]. eapply (run_set_sym _ y); [done|].
  intros s' Hs'. by eapply saved_trans.
Qed.

(** ** The symbols of one file *)

Lemma Forall2_impl_in {A B} (P Q : A -> B -> Prop) l k :
  Forall2 P l k -> (forall x y, x ∈ l -> P x y -> Q x y) -> Forall2 Q l k.
Proof.
  induction 1 as [|x y l k Hxy _ IH]; intros H; constructor; [apply H; [left|done]|].
  apply IH. intros x' y' Hx'. apply H. by right.
Qed.

Section file.
Context (info : link_info) (Hquiet : quiet info) (s0 : lstate) (abfd : ptr).
Context (Habfd : is_Some (ss_bfds (l_secs s0) !! abfd)).
Context (fuel : nat).

Lemma run_is_global n m qs s y (Q : bool -> lstate -> Prop) :
  resolved n info s0 m qs s -> is_Some (sec_at (l_secs s0) (sy_section y)) -> Q (sym_global (l_secs s0) y) s ->
  runs (is_global y) s Q.
Proof.
  intros Hr Hsec HQ. assert (is_Some (sec_at (l_secs s) (sy_section y))) as Hsec'.
  { destruct Hsec as [d Hd]. destruct (sl_secs _ _ (rs_secs _ _ _ _ _ _ Hr) _ d Hd) as (d' & Hd' & _). by eexists. }
  rewrite <- (sym_global_later _ _ _ (rs_secs _ _ _ _ _ _ Hr) Hsec) in HQ. unfold sym_global in HQ. unfold is_global.
  destruct (has _ _); [by apply run_ret|]. destruct (bfd_is_und_section _); [by apply run_ret|].
  apply run_bind, run_is_com; [done|]. by apply run_ret.
Qed.

(** A global symbol is added and remembered. *)
Lemma add_listed_spec n m qs s p y name q :
  0 <= n -> resolved (n + 2) info s0 m qs s -> l_syms s !! p = Some y -> simple_symbol (l_secs s0) y ->
  input_of (l_secs s0) abfd y = Some q -> sy_name y = Some name ->
  runs (add_listed_symbol info (S fuel) abfd p (Some name) (Some name)) s (fun ok s' => ok = true /\
    exists m', resolved n info s0 m' (q :: qs) s' /\ (forall p', p' <> p -> l_syms s' !! p' = l_syms s !! p')).
Proof using Hquiet Habfd.
  intros Hn Hres Hp [Hsec Hglob] Hq Hname. pose proof Hres as [[l R1] R2 R3 R4 R5 R6 R7].
  unfold input_of in Hq. destruct (sym_global (l_secs s0) y) eqn:Hg; [|done]. rewrite Hname in Hq. cbn in Hq.
  injection Hq as <-. set (q := mkInput _ _ _ _ _). destruct (Hglob eq_refl) as [_ Hsimple].
  destruct (simple_row_flags _ _ _ Hsimple) as (_ & _ & Hcons).
  assert (request_ok (l_secs s) (input_request q (Some name) false)) as Hr by (by apply (request_ok_later (l_secs s0))).
  apply run_bind, (run_get_sym _ y); [done|]. apply run_bind.
  eapply run_mono; [apply (simple_call info fuel n s m l qs q (sy_flags y) (Some name) false (Some None) Hquiet Hn)|].
  { by constructor. }
  { exact R1. } { exact R2. } { exact Hr. }
  { apply row_of_later; [done|]. by apply named_sec. }
  { by right. }
  intros res s1 Hadd. destruct (added_resolved n info s0 m qs s q _ res s1 Hres Hsimple Hadd) as (h & -> & Hres1 & Hsy).
  set (m1 := <[in_name q := h]> m) in *. cbn [negb fmap option_fmap option_map].
  assert (is_Some (data_at s1 h)) as [d Hd].
  { destruct Hres1 as [[l1 R1'] _ _ _ _ _ _]. eapply (mapped_entry n s1 m1 l1 (in_name q) h R1'). apply lookup_insert_eq. }
  apply run_bind, run_ret. apply run_bind, run_bind, (run_get_h _ d); [done|]. apply run_ret. rewrite Hcons. cbn [andb].
  assert (l_syms s1 !! p = Some y) as Hp1 by (by rewrite Hsy).
  assert (is_Some (sec_at (l_secs s1) (sy_section y))) as Hsec1.
  { destruct (named_sec _ _ Hsec) as [ds Hds]. destruct (sl_secs _ _ (rs_secs _ _ _ _ _ _ Hres1) _ ds Hds) as (d' & Hd' & _).
    by eexists. }
  apply run_bind, (run_mono _ _ (fun _ s' => saved p s1 s')).
  { destruct (_ =? _)%nat; [|apply run_ret, saved_refl]. apply run_bind, run_ret.
    apply (save_symbol_spec p y); [apply Hres1|done|by eexists|done]. }
  intros _ s2 Hs2. destruct (sv_own _ _ _ Hs2 ltac:(by eexists)) as [y2 Hy2].
  apply run_bind, (run_set_sym _ y2); [done|]. intros s3 Hs3. apply run_ret. split; [done|].
  pose proof (saved_trans _ _ _ _ Hs2 Hs3) as Hs. exists m1. split.
  - eapply resolved_saved; [exact Hs|by eexists|exact Hres1].
  - intros p' Hp'. by rewrite (sv_others _ _ _ Hs), Hsy.
Qed.

Definition inputs (ys : list asymbol) : list input := omap (input_of (l_secs s0) abfd) ys.

Lemma add_list_spec ps ys m qs s n :
  0 <= n -> resolved (n + 2 * Z.of_nat (length ps)) info s0 m qs s -> NoDup ps ->
  Forall2 (fun p y => l_syms s !! p = Some y /\ simple_symbol (l_secs s0) y) ps ys ->
  runs (generic_link_add_symbol_list info (S fuel) abfd ps) s (fun ok s' => ok = true /\
    exists m', resolved n info s0 m' (reverse (inputs ys) ++ qs) s' /\
      (forall p', p' ∉ ps -> l_syms s' !! p' = l_syms s !! p')).
Proof using Hquiet Habfd.
  intros Hn. revert ys m qs s. induction ps as [|p ps IH]; intros ys m qs s Hres Hnd Hys; inversion Hys as [|? y ? ys' [Hp Hy] Hys']; subst.
  - apply run_ret. split; [done|]. exists m. split; [|done]. by replace (n + 2 * Z.of_nat (length [])) with n in Hres by (cbn; lia).
  - apply NoDup_cons in Hnd as [Hpin Hnd]. pose proof (named_sec _ _ (proj1 Hy)) as Hsec.
    cbn [generic_link_add_symbol_list]. apply run_bind, (run_get_sym _ y); [done|].
    apply run_bind. eapply run_is_global; [exact Hres|exact Hsec|].
    replace (n + 2 * Z.of_nat (length (p :: ps))) with (n + 2 * Z.of_nat (length ps) + 2) in Hres by (cbn; lia).
    destruct (sym_global (l_secs s0) y) eqn:Hg; cbn [negb].
    + destruct Hy as [Hy1 Hy2]. destruct (Hy2 Hg) as [[name Hname] Hsimple].
      destruct (simple_row_flags _ _ _ Hsimple) as (Hni & Hnw & _). rewrite Hni, Hnw, Hname. cbn [orb].
      assert (exists q, input_of (l_secs s0) abfd y = Some q) as [q Hq]
        by (unfold input_of; rewrite Hg, Hname; by eexists).
      pose proof (add_listed_spec (n + 2 * Z.of_nat (length ps)) m qs s p y name q ltac:(lia) Hres Hp (conj Hy1 Hy2) Hq Hname)
        as Hone.
      assert (forall s1 m1, resolved (n + 2 * Z.of_nat (length ps)) info s0 m1 (q :: qs) s1 ->
        (forall p', p' <> p -> l_syms s1 !! p' = l_syms s !! p') ->
        runs (generic_link_add_symbol_list info (S fuel) abfd ps) s1 (fun ok s' => ok = true /\
          exists m', resolved n info s0 m' (reverse (inputs (y :: ys')) ++ qs) s' /\
            (forall p', p' ∉ p :: ps -> l_syms s' !! p' = l_syms s !! p'))) as Hrest.
      { intros s1 m1 Hres1 Hsame. eapply run_mono; [apply (IH ys' m1 (q :: qs) s1 Hres1 Hnd)|].
        - eapply Forall2_impl_in; [exact Hys'|]. intros p' y' Hp' [H1 H2]. split; [|done]. rewrite Hsame; [done|set_solver].
        - intros ok s' (-> & m' & Hres' & Hsame'). split; [done|]. exists m'. split.
          + unfold inputs in *. cbn [omap list_omap]. rewrite Hq, reverse_cons, <- app_assoc. exact Hres'.
          + intros p' Hp'. rewrite Hsame', Hsame; [done|set_solver|set_solver]. }
      destruct ps as [|p2 ps2].
      * eapply run_mono; [exact Hone|]. intros ok s1 (-> & m1 & Hres1 & Hsame).
        destruct (Hrest s1 m1 Hres1 Hsame) as (ok & s' & Hrun & HQ). injection Hrun as <- <-. exact HQ.
      * apply run_bind. eapply run_mono; [exact Hone|]. intros ok s1 (-> & m1 & Hres1 & Hsame). by apply (Hrest s1 m1).
    + assert (resolved (n + 2 * Z.of_nat (length ps)) info s0 m qs s) as Hres'.
      { destruct Hres as [[l R1] R2 R3 R4 R5 R6 R7]. constructor; try assumption. exists l.
        eapply linked_mono; [|exact R1]. lia. }
      eapply run_mono; [apply (IH ys' m qs s Hres' Hnd Hys')|]. intros ok s' (-> & m' & Hr & Hsame). split; [done|].
      exists m'. split; [|intros p' Hp'; apply Hsame; set_solver].
      unfold inputs in *. cbn [omap list_omap]. unfold input_of at 1. rewrite Hg. exact Hr.
Qed.
End file.
