(* ===== verification/LinkerOrder.v ===== *)
(** The files of a link: what their symbols resolve to, and that the order of the
    files matters only to the references that are kept and to which of several
    definitions comes first. *)

From S2P Require Import Prelude HashTable HashTableSpec HashGrowth StateRes BfdSection SectionList SectionMake.
From S2P Require Import Linker LinkerFiles LinkerState LinkerRound LinkerLoop LinkerCall LinkerMain LinkerResolve LinkerObjects.

(** ** The precedence *)

Lemma overrides_total q p : overrides q p = false -> overrides p q = false -> rank (in_row q) = rank (in_row p) /\ in_size q = in_size p.
Proof. unfold overrides. intros H1 H2. bool_prop. lia. Qed.

Lemma not_overrides_trans a b c : overrides a b = false -> overrides b c = false -> overrides a c = false.
Proof. unfold overrides. intros H1 H2. bool_prop. lia. Qed.

Lemma overrides_asym a b : overrides a b = true -> overrides b a = false.
Proof. unfold overrides. intros H. bool_prop. lia. Qed.

Lemma overrides_irrefl a : overrides a a = false.
Proof. unfold overrides. bool_prop. lia. Qed.

(** No symbol of the name overrides the winner. *)
Lemma winner_best qs name w :
  winners qs !! name = Some w -> forall q, q ∈ qs -> in_name q = name -> overrides q w = false.
Proof.
  revert w. induction qs as [|p qs IH]; intros w Hw q Hq Hn; [by apply elem_of_nil in Hq|]. cbn [winners] in Hw.
  destruct (decide (name = in_name p)) as [E|E].
  - rewrite E, lookup_insert_eq in Hw. injection Hw as <-. unfold better.
    destruct (winners qs !! in_name p) as [v|] eqn:Hv.
    + rewrite <- E in Hv. destruct (overrides p v) eqn:Ho; apply elem_of_cons in Hq as [->|Hq].
      * apply overrides_irrefl.
      * eapply not_overrides_trans; [by eapply IH|by apply overrides_asym].
      * done.
      * by eapply IH.
    + apply elem_of_cons in Hq as [->|Hq]; [apply overrides_irrefl|].
      destruct (winner_exists qs q Hq) as [v Hv']. rewrite Hn, E in Hv'. congruence.
  - rewrite lookup_insert_ne in Hw by done. apply elem_of_cons in Hq as [->|Hq]; [congruence|by eapply IH].
Qed.

(** In another order the winner is one of the same rank and size. *)
Lemma winner_perm qs qs' name :
  qs ≡ₚ qs' -> match winners qs !! name, winners qs' !! name with
  | Some w, Some w' => rank (in_row w) = rank (in_row w') /\ in_size w = in_size w'
  | None, None => True
  | _, _ => False
  end.
Proof.
  intros Hp. assert (forall q, q ∈ qs <-> q ∈ qs') as Hin by (intros q; by rewrite Hp).
  destruct (winners qs !! name) as [w|] eqn:Hw, (winners qs' !! name) as [w'|] eqn:Hw'.
  - destruct (winner_in _ _ _ Hw) as [H1 H2], (winner_in _ _ _ Hw') as [H1' H2'].
    apply overrides_total; [eapply winner_best; [exact Hw'| |done]|eapply winner_best; [exact Hw| |done]]; by apply Hin.
  - destruct (winner_in _ _ _ Hw) as [H1 H2]. apply Hin, winner_exists in H1 as [v Hv]. congruence.
  - destruct (winner_in _ _ _ Hw') as [H1 H2]. apply Hin, winner_exists in H1 as [v Hv]. congruence.
  - done.
Qed.

(** ** Multiple definitions *)

Definition strong (q : input) : Prop := in_row q = DEF_ROW.
#[export] Instance strong_dec q : Decision (strong q) := decide_rel (=) (in_row q) DEF_ROW.

Definition defined_names (qs : list input) : list cstring := in_name <$> filter strong qs.

Definition is_multiple (e : event) : Prop := match e with E_multiple_definition _ _ _ _ => True | _ => False end.

Lemma strong_winner qs name :
  Forall (fun q => simple (in_row q)) qs ->
  name ∈ defined_names qs <-> exists w, winners qs !! name = Some w /\ strong w.
Proof.
  intros Hsimple. unfold defined_names. rewrite list_elem_of_fmap. split.
  - intros (q & -> & [Hs Hq]%list_elem_of_filter). destruct (winner_exists qs q Hq) as [w Hw]. exists w. split; [done|].
    pose proof (winner_best _ _ _ Hw q Hq eq_refl) as Ho. destruct (winner_in _ _ _ Hw) as [Hin _].
    rewrite Forall_forall in Hsimple. specialize (Hsimple w Hin).
    unfold overrides, strong, simple in *. rewrite Hs in Ho. bool_prop. destruct (in_row w); cbn in *; (done || lia).
  - intros (w & Hw & Hs). destruct (winner_in _ _ _ Hw) as [Hin <-]. exists w. split; [done|]. by apply list_elem_of_filter.
Qed.

Lemma clash_multiple h p q : Exists is_multiple (clash h p q) <-> strong p /\ strong q.
Proof.
  unfold clash, strong. destruct (in_row p), (in_row q); rewrite ?Exists_cons, ?Exists_nil; cbn; naive_solver.
Qed.

Lemma slim_not_multiple info q : ~ Exists is_multiple (slim info q).
Proof.
  unfold slim. destruct (in_row q); rewrite ?Exists_nil; try tauto. destruct (_ && _); rewrite ?Exists_cons, ?Exists_nil; cbn; tauto.
Qed.

(** A definition is reported a second time exactly when two strong definitions
    have the same name. *)
Lemma reports_multiple info m qs :
  Forall (fun q => simple (in_row q)) qs -> (forall q, q ∈ qs -> is_Some (m !! in_name q)) ->
  Exists is_multiple (reports info m qs) <-> ~ NoDup (defined_names qs).
Proof.
  induction qs as [|q qs IH]; intros Hsimple Hm.
  - cbn. rewrite Exists_nil. split; [done|]. intros H. apply H. constructor.
  - apply Forall_cons in Hsimple as [Hq Hqs]. cbn [reports]. rewrite !Exists_app.
    rewrite IH by (done || (intros p Hp; apply Hm; by right)).
    destruct (Hm q ltac:(left)) as [h Hh]. rewrite Hh.
    assert (Exists is_multiple match winners qs !! in_name q with Some p => clash h p q | None => [] end <->
      strong q /\ in_name q ∈ defined_names qs) as ->.
    { rewrite strong_winner by done. destruct (winners qs !! in_name q) as [p|]; [rewrite clash_multiple|rewrite Exists_nil]; naive_solver. }
    pose proof (slim_not_multiple info q) as Hslim. unfold defined_names in *. rewrite filter_cons. case_decide as Hs.
    + rewrite fmap_cons, NoDup_cons. destruct (decide (in_name q ∈ in_name <$> filter strong qs)); [naive_solver|].
      split; [|tauto]. intros [?|[?|?]]; tauto.
    + naive_solver.
Qed.

(** ** The files of a link *)

(** The files are read one after another. *)
Fixpoint add_objects (info : link_info) (fuel : nat) (abfds : list ptr) : LM bool :=
  match abfds with
  | [] => ret true
  | abfd :: abfds =>
      ok ← generic_link_add_object_symbols info fuel abfd;
      if (ok : bool) then add_objects info fuel abfds else ret false
  end.

Definition syms_of (info : link_info) (abfd : ptr) : list ptr := default [] (i_symbols info abfd).

Definition file_inputs (info : link_info) (s : lstate) (abfd : ptr) : list input :=
  omap (fun p => y ← l_syms s !! p; input_of (l_secs s) abfd y) (syms_of info abfd).

(** The files exist, their symbols can be read, are distinct and are plain. *)
Record files_ok (info : link_info) (s : lstate) (abfds : list ptr) : Prop := {
  fo_nodup : NoDup (abfds ≫= syms_of info);
  fo_files : forall a, a ∈ abfds -> is_Some (ss_bfds (l_secs s) !! a) /\ is_Some (i_symbols info a);
  fo_syms : forall a p, a ∈ abfds -> p ∈ syms_of info a ->
    exists y, l_syms s !! p = Some y /\ simple_symbol (l_secs s) y
}.

Section link.
Context (info : link_info) (Hquiet : quiet info) (s0 : lstate) (fuel : nat).

Lemma syms_exist (ps : list ptr) :
  (forall p, p ∈ ps -> exists y, l_syms s0 !! p = Some y /\ simple_symbol (l_secs s0) y) ->
  exists ys, Forall2 (fun p y => l_syms s0 !! p = Some y /\ simple_symbol (l_secs s0) y) ps ys.
Proof.
  induction ps as [|p ps IH]; intros H; [by exists []|].
  destruct (H p ltac:(left)) as (y & Hy). destruct IH as [ys Hys]; [intros q Hq; apply H; by right|].
  exists (y :: ys). by constructor.
Qed.

Lemma file_inputs_eq abfd ys :
  Forall2 (fun p y => l_syms s0 !! p = Some y /\ simple_symbol (l_secs s0) y) (syms_of info abfd) ys ->
  file_inputs info s0 abfd = inputs s0 abfd ys.
Proof.
  unfold file_inputs, inputs. generalize (syms_of info abfd) as ps. intros ps.
  induction 1 as [|p y ps ys [Hp _] _ IH]; [done|]. cbn [omap list_omap]. rewrite Hp. cbn. by rewrite IH.
Qed.

Lemma add_objects_spec abfds n m qs s :
  0 <= n -> files_ok info s0 abfds ->
  resolved (n + 2 * Z.of_nat (length (abfds ≫= syms_of info))) info s0 m qs s ->
  (forall p, p ∈ abfds ≫= syms_of info -> l_syms s !! p = l_syms s0 !! p) ->
  runs (add_objects info (S fuel) abfds) s (fun ok s' => ok = true /\
    exists m', resolved n info s0 m' (reverse (abfds ≫= file_inputs info s0) ++ qs) s').
Proof using Hquiet.
  intros Hn. revert m qs s. induction abfds as [|a abfds IH]; intros m qs s [F1 F2 F3] Hres Hsame.
  - apply run_ret. split; [done|]. exists m. cbn [mbind list_bind length] in Hres. replace (n + 2 * Z.of_nat 0) with n in Hres by lia. exact Hres.
  - cbn [mbind list_bind] in F1, Hsame, Hres |- *. apply NoDup_app in F1 as (G1 & G2 & G3).
    rewrite length_app in Hres. destruct (F2 a ltac:(left)) as [Ha [ps Hps]].
    assert (syms_of info a = ps) as Eps by (unfold syms_of; by rewrite Hps).
    destruct (syms_exist (syms_of info a)) as [ys Hys]; [intros p Hp; apply (F3 a p); [left|done]|].
    rewrite (file_inputs_eq a ys Hys). rewrite Eps in *. cbn [add_objects]. unfold generic_link_add_object_symbols. rewrite Hps.
    apply run_bind. eapply run_mono.
    + apply (add_list_spec info Hquiet s0 a Ha fuel ps ys m qs s (n + 2 * Z.of_nat (length (abfds ≫= syms_of info)))); [lia| |done|].
      * by replace (n + 2 * Z.of_nat (length (abfds ≫= syms_of info)) + 2 * Z.of_nat (length ps)) with
          (n + 2 * Z.of_nat (length ps + length (abfds ≫= syms_of info))) by lia.
      * eapply Forall2_impl_in; [exact Hys|]. intros p y Hp [H1 H2]. split; [|done]. rewrite Hsame; [done|set_solver].
    + intros ok s1 (-> & m1 & Hres1 & Hsame1).
      eapply run_mono; [apply (IH m1 (reverse (inputs s0 a ys) ++ qs) s1); [|exact Hres1|]|].
      * constructor; [done|intros b Hb; apply F2; by right|intros b p Hb; apply F3; by right].
      * intros p Hp. rewrite Hsame1; [apply Hsame; set_solver|]. intros Hpin. by apply (G2 p).
      * intros ok s2 (-> & m2 & Hres2). split; [done|]. exists m2. by rewrite reverse_app, <- app_assoc.
Qed.
End link.

Definition link_inputs (info : link_info) (s : lstate) (abfds : list ptr) : list input := abfds ≫= file_inputs info s.

Lemma link_winners info fuel n s l abfds :
  quiet info -> 0 <= n -> linked (n + 2 * Z.of_nat (length (abfds ≫= syms_of info))) s ∅ l -> syms_ok s ->
  files_ok info s abfds ->
  let qs := reverse (link_inputs info s abfds) in
  runs (add_objects info (S fuel) abfds) s (fun ok s' => ok = true /\ exists m l', linked n s' m l' /\
    (forall name, match winners qs !! name with
     | None => m !! name = None
     | Some q => exists h k, m !! name = Some h /\ kind_at s' h = Some k /\ won q k
     end) /\
    l_events s' = reports info m qs ++ l_events s /\
    (Exists is_multiple (reports info m qs) <-> ~ NoDup (defined_names qs)) /\
    l_asserts s' = l_asserts s).
Proof.
  intros Hquiet Hn Hlk Hsyms Hfiles qs.
  eapply run_mono; [apply (add_objects_spec info Hquiet s fuel abfds n ∅ [] s Hn Hfiles); [|done]|].
  - constructor; [by exists l|intros name; cbn; by rewrite lookup_empty|constructor|reflexivity|done|done|exact Hsyms].
  - rewrite app_nil_r. intros ok s' (-> & m & [[l' R1] R2 R3 R4 R5 R6 R7]). split; [done|]. exists m, l'.
    split; [exact R1|split; [|split; [exact R5|split; [|exact R6]]]].
    + intros name. specialize (R2 name). fold (link_inputs info s abfds) in R2. fold qs in R2.
      destruct (winners qs !! name) as [q|]; [|done]. destruct R2 as (h & d & Hm & Hd & _ & Hw).
      exists h, (lh_kind d). unfold kind_at. by rewrite Hd.
    + apply reports_multiple; [done|]. intros q Hq. destruct (winner_exists qs q Hq) as [w Hw].
      specialize (R2 (in_name q)). fold (link_inputs info s abfds) in R2. fold qs in R2. rewrite Hw in R2.
      destruct R2 as (h & d & Hm & _). by eexists.
Qed.

(** *** In another order *)

Lemma files_ok_perm info s abfds abfds' : abfds ≡ₚ abfds' -> files_ok info s abfds -> files_ok info s abfds'.
Proof.
  intros Hp [F1 F2 F3]. constructor; [by rewrite <- Hp|intros a Ha; apply F2; by rewrite Hp|].
  intros a p Ha. apply F3. by rewrite Hp.
Qed.

Lemma link_inputs_simple info s abfds :
  files_ok info s abfds -> Forall (fun q => simple (in_row q)) (link_inputs info s abfds).
Proof.
  intros [_ _ F3]. apply Forall_forall. intros q (a & Hq & Ha)%list_elem_of_bind.
  apply list_elem_of_omap in Hq as (p & Hp & Hq). destruct (F3 a p Ha Hp) as (y & Hy & _ & Hg).
  rewrite Hy in Hq. cbn in Hq. unfold input_of in Hq. destruct (sym_global (l_secs s) y); [|done].
  destruct (Hg eq_refl) as [[name Hname] Hs]. rewrite Hname in Hq. by injection Hq as <-.
Qed.

(** A name has one strong definition at most. *)
Definition one_definition (qs : list input) (name : cstring) : Prop :=
  forall q q', q ∈ qs -> q' ∈ qs -> in_name q = name -> in_name q' = name -> strong q -> strong q' -> q = q'.

(** Two entries of a name that differ only in which file refers to it, which of
    several definitions they hold, or where a common symbol would go. *)
Definition alike (qs : list input) (name : cstring) (k k' : link_kind) : Prop :=
  match k, k' with
  | bfd_link_hash_undefined _, bfd_link_hash_undefined _ | bfd_link_hash_undefweak _, bfd_link_hash_undefweak _
  | bfd_link_hash_defweak _ _, bfd_link_hash_defweak _ _ => True
  | bfd_link_hash_defined x v, bfd_link_hash_defined x' v' => one_definition qs name -> x = x' /\ v = v'
  | bfd_link_hash_common (Some c), bfd_link_hash_common (Some c') =>
      c_size c = c_size c' /\ c_alignment_power c = c_alignment_power c'
  | _, _ => False
  end.

Lemma won_alike qs name w w' k k' :
  simple (in_row w) -> simple (in_row w') -> w ∈ qs -> w' ∈ qs -> in_name w = name -> in_name w' = name ->
  rank (in_row w) = rank (in_row w') -> in_size w = in_size w' -> won w k -> won w' k' -> alike qs name k k'.
Proof.
  intros Hs Hs' Hin Hin' Hn Hn' Hr Hsize Hk Hk'. unfold won, simple, in_size in *.
  destruct (in_row w) eqn:E, (in_row w') eqn:E'; cbn in Hr, Hs, Hs'; try lia.
  - by subst k k'.
  - by subst k k'.
  - subst k k'. cbn. intros Hone. assert (w = w') as ->; [by apply Hone|done].
  - by subst k k'.
  - destruct Hk as [x ->], Hk' as [x' ->]. cbn. by rewrite Hsize.
Qed.

(** ** Properties *)

(** C10: reading the files of a link of plain symbols into a fresh table
    succeeds, and resolves every name to the winner of its symbols: the first
    strong definition, or else the largest common symbol, the first weak
    definition, the first reference, the first weak reference; a name that no
    file has is not in the table.  Multiple definitions are reported exactly when
    two strong definitions share a name; no assertion is violated. *)
Theorem link_resolves_winners info fuel n s l abfds :
  quiet info -> 0 <= n -> linked (n + 2 * Z.of_nat (length (abfds ≫= syms_of info))) s ∅ l -> syms_ok s ->
  files_ok info s abfds ->
  let qs := reverse (link_inputs info s abfds) in
  runs (add_objects info (S fuel) abfds) s (fun ok s' => ok = true /\ exists m l', linked n s' m l' /\
    (forall name, match winners qs !! name with
     | None => m !! name = None
     | Some q => exists h k, m !! name = Some h /\ kind_at s' h = Some k /\ won q k
     end) /\
    l_events s' = reports info m qs ++ l_events s /\
    (Exists is_multiple (reports info m qs) <-> ~ NoDup (defined_names qs)) /\
    l_asserts s' = l_asserts s).
Proof. apply link_winners. Qed.

(** C22: the order of the files does not matter: reading them in another order
    resolves the same names, each to an entry of the same kind, to the same
    definition where it is the only one, to a common symbol of the same size and
    alignment, and reports multiple definitions either in both orders or in
    neither. *)
Theorem link_order_irrelevant info fuel n s l abfds abfds' :
  quiet info -> 0 <= n -> linked (n + 2 * Z.of_nat (length (abfds ≫= syms_of info))) s ∅ l -> syms_ok s ->
  files_ok info s abfds -> abfds ≡ₚ abfds' ->
  let qs := link_inputs info s abfds in
  runs (add_objects info (S fuel) abfds) s (fun ok s1 => runs (add_objects info (S fuel) abfds') s (fun ok' s2 =>
    ok = true /\ ok' = true /\ exists (m1 m2 : gmap cstring ptr) evs1 evs2,
    (forall name, match m1 !! name, m2 !! name with
     | Some h1, Some h2 => exists k1 k2, kind_at s1 h1 = Some k1 /\ kind_at s2 h2 = Some k2 /\ alike qs name k1 k2
     | None, None => True
     | _, _ => False
     end) /\
    l_events s1 = evs1 ++ l_events s /\ l_events s2 = evs2 ++ l_events s /\
    (Exists is_multiple evs1 <-> Exists is_multiple evs2))).
Proof.
  intros Hquiet Hn Hlk Hsyms Hfiles Hperm qs.
  eapply run_mono; [by eapply link_winners|]. intros ok s1 (-> & m1 & l1 & _ & Hm1 & Hev1 & Hmult1 & _).
  eapply run_mono; [eapply (link_winners info fuel n s l abfds'); [done|done| |done|by eapply files_ok_perm]|].
  { by rewrite <- Hperm. }
  intros ok s2 (-> & m2 & l2 & _ & Hm2 & Hev2 & Hmult2 & _). split_and!; [done..|].
  exists m1, m2, (reports info m1 (reverse qs)), (reports info m2 (reverse (link_inputs info s abfds'))).
  assert (reverse qs ≡ₚ reverse (link_inputs info s abfds')) as Hp.
  { subst qs. unfold link_inputs. by rewrite !reverse_Permutation, Hperm. }
  pose proof (link_inputs_simple info s abfds Hfiles) as Hsimple. fold qs in Hsimple, Hm1.
  split; [|split; [exact Hev1|split; [exact Hev2|]]].
  - intros name. specialize (Hm1 name). specialize (Hm2 name). pose proof (winner_perm _ _ name Hp) as Hw.
    destruct (winners (reverse qs) !! name) as [w|] eqn:E1, (winners (reverse (link_inputs info s abfds')) !! name) as [w'|] eqn:E2;
      try done; [|by rewrite Hm1, Hm2].
    destruct Hm1 as (h1 & k1 & -> & Hk1 & Hw1), Hm2 as (h2 & k2 & -> & Hk2 & Hw2). exists k1, k2. split_and!; [done..|].
    destruct (winner_in _ _ _ E1) as [I1 N1], (winner_in _ _ _ E2) as [I2 N2]. rewrite <- Hp in I2.
    rewrite elem_of_reverse in I1, I2. rewrite Forall_forall in Hsimple.
    eapply (won_alike qs name w w'); try done; [by apply Hsimple|by apply Hsimple|by apply Hw|by apply Hw].
  - unfold qs in *. rewrite Hmult1, Hmult2. unfold defined_names. by rewrite Hp.
Qed.

(** ** At work *)

(** Two files: the first refers to foo and has a common symbol bar, the second
    defines foo and has a larger bar. *)
Definition two_world : sstate :=
  mkSstate (<[8%nat := demo_bfd]> {[ 7%nat := demo_bfd ]}) bfd_std_section 16 0 [] None.
Definition two_syms : gmap ptr asymbol :=
  <[0%nat := mkAsymbol (Some (c_str "foo")) 0 bfd_und_section_ptr 0 None]>
  (<[1%nat := mkAsymbol (Some (c_str "bar")) 0 bfd_com_section_ptr 4 None]>
  (<[2%nat := mkAsymbol (Some (c_str "foo")) BSF_GLOBAL bfd_abs_section_ptr 16 None]>
  {[ 3%nat := mkAsymbol (Some (c_str "bar")) 0 bfd_com_section_ptr 8 None ]})).
Definition two_start : lstate := mkLstate start_table None None two_world two_syms [] 0.
Definition two_info : link_info :=
  mkInfo false None None 0 false false false false (fun _ => true) (fun _ _ => None) (fun _ => 0) (fun _ => false)
    (fun _ => 0%nat) 0 (fun a => if (a =? 7)%nat then Some [0%nat; 1%nat] else Some [2%nat; 3%nat]) (fun _ => None).

Lemma sections_ok_fresh ss b : ss_bfds ss !! b = Some demo_bfd -> sections_ok ss b [] ∅.
Proof.
  intros Hb. constructor.
  - split; [constructor|]. split; [|split; [|constructor]]; by exists demo_bfd.
  - exists demo_bfd. split_and!; [done|apply demo_table_represents|vm_compute; discriminate|done].
  - intros n p. rewrite lookup_empty. split; [done|]. by intros [?%elem_of_nil _].
  - done.
Qed.

Lemma two_linked : linked 100 two_start ∅ [].
Proof.
  apply linked_start; [apply start_table_represents|vm_compute; discriminate|done..|]. constructor; [done| |].
  - intros b B HB. assert (B = demo_bfd) as ->.
    { cbn in HB. apply lookup_insert_Some in HB as [[_ <-]|[_ HB]]; [done|]. by apply lookup_singleton_Some in HB as [_ <-]. }
    split_and!; [done..|]. exists [], ∅. by apply sections_ok_fresh.
  - intros x i -> Hi. destruct i as [|[|[|[|i]]]]; [by eexists..|lia].
Qed.

Lemma two_quiet : quiet two_info.
Proof. by constructor. Qed.

Lemma two_syms_ok : syms_ok two_start.
Proof. intros x d p Hx. unfold data_at in Hx. cbn in Hx. by rewrite lookup_empty in Hx. Qed.

Lemma two_files_ok : files_ok two_info two_start [7%nat; 8%nat].
Proof.
  constructor.
  - eapply (bool_decide_unpack _). by vm_compute.
  - intros a Ha. set_unfold in Ha. destruct Ha as [->|[->|[]]]; split; by eexists.
  - intros a p Ha Hp. set_unfold in Ha. destruct Ha as [->|[->|[]]]; cbn in Hp; set_unfold in Hp;
      destruct Hp as [->|[->|[]]]; (eexists; split; [reflexivity|]; split; [by eexists|]; intros _; split; [by eexists|];
        by vm_compute).
Qed.

Lemma link_resolves_winners_witness :
  runs (add_objects two_info 1 [7%nat; 8%nat]) two_start (fun ok s' => ok = true /\ exists m l', linked 90 s' m l' /\
    (forall name, match winners (reverse (link_inputs two_info two_start [7%nat; 8%nat])) !! name with
     | None => m !! name = None
     | Some q => exists h k, m !! name = Some h /\ kind_at s' h = Some k /\ won q k
     end) /\
    l_events s' = reports two_info m (reverse (link_inputs two_info two_start [7%nat; 8%nat])) ++ [] /\
    (Exists is_multiple (reports two_info m (reverse (link_inputs two_info two_start [7%nat; 8%nat]))) <->
      ~ NoDup (defined_names (reverse (link_inputs two_info two_start [7%nat; 8%nat])))) /\
    l_asserts s' = 0%nat) /\
  winners (reverse (link_inputs two_info two_start [7%nat; 8%nat])) !! c_str "bar"
    = Some (mkInput 8 (c_str "bar") COMMON_ROW bfd_com_section_ptr 8).
Proof.
  split; [|vm_compute; reflexivity].
  refine (link_resolves_winners two_info 0 90 two_start [] [7%nat; 8%nat] two_quiet _ _ two_syms_ok two_files_ok).
  - discriminate.
  - apply (linked_mono 100); [vm_compute; discriminate|apply two_linked].
Defined.

Lemma link_order_irrelevant_witness :
  exists ok s1, add_objects two_info 1 [7%nat; 8%nat] two_start = Done (ok, s1) /\
    exists ok' s2, add_objects two_info 1 [8%nat; 7%nat] two_start = Done (ok', s2) /\ ok = ok' /\
      kind_at s1 0 = Some (bfd_link_hash_defined bfd_abs_section_ptr 16).
Proof.
  destruct (link_order_irrelevant two_info 0 90 two_start [] [7%nat; 8%nat] [8%nat; 7%nat] two_quiet ltac:(discriminate)
    (linked_mono 100 98 _ _ _ ltac:(discriminate) two_linked) two_syms_ok two_files_ok (perm_swap _ _ _))
    as (ok & s1 & H1 & ok' & s2 & H2 & -> & -> & _).
  exists true, s1. split; [exact H1|]. exists true, s2. split; [exact H2|]. split; [reflexivity|].
  vm_compute in H1. injection H1 as <-. vm_compute. reflexivity.
Defined.
