(* ===== verification/VersionScript.v ===== *)
(** Version scripts: linker.c's search for the version node of a symbol, and
    whether the symbol is hidden.

    A node is a [version_tree]; [vt_match] is its function pointer [match], which
    the linker proper supplies: given the expressions of a list, the one it
    answered last and a name, it answers the next expression that matches.  What
    it promises is the class [VersionMatch].  Expressions and nodes are known by
    their positions; the [script] flags, the only field that is written, are the
    set of the positions at which the flag was set. *)

From S2P Require Import Prelude HashTable HashTableSpec BfdSection.

(** ** Data *)

Record version_expr := mkVersionExpr {
  ve_pattern : cstring;
  ve_literal : bool;
  ve_symver : bool
}.

Record version_tree := mkVersionTree {
  vt_globals : list version_expr;
  vt_locals : list version_expr;
  vt_match : list version_expr -> option nat -> cstring -> option nat
}.

(** The variables of the search. *)
Record version_vars := mkVersionVars {
  vv_local_ver : option nat;
  vv_global_ver : option nat;
  vv_exist_ver : option nat;
  vv_star_local_ver : option nat;
  vv_star_global_ver : option nat;
  vv_script : gset (nat * nat)
}.

Definition no_version : version_vars := mkVersionVars None None None None None ∅.

Definition STAR : cstring := c_str "*".

(** [d->literal || strcmp (d->pattern, "*") != 0] *)
Definition explicit (d : version_expr) : bool := ve_literal d || negb (bool_decide (ve_pattern d = STAR)).

(** ** The search *)

(** Node [t], the one at position [i], matched the name by its global
    expression [d], at position [j]. *)
Definition global_match (i j : nat) (d : version_expr) (v : version_vars) : version_vars :=
  mkVersionVars (vv_local_ver v)
    (if explicit d then Some i else vv_global_ver v)
    (if ve_symver d then Some i else vv_exist_ver v)
    (vv_star_local_ver v)
    (if explicit d then vv_star_global_ver v else Some i)
    ({[(i, j)]} ∪ vv_script v).

(** The same of a local expression; an exact match overrides a global
    wildcard. *)
Definition local_match (i : nat) (d : version_expr) (v : version_vars) : version_vars :=
  mkVersionVars (if explicit d then Some i else vv_local_ver v)
    (if ve_literal d then None else vv_global_ver v)
    (vv_exist_ver v)
    (if explicit d then vv_star_local_ver v else Some i)
    (if ve_literal d then None else vv_star_global_ver v)
    (vv_script v).

Section search.
Context (sym_name : cstring).

(** [while ((d = t->match (list, d, sym_name)) != NULL)], and [d] after it. *)
Fixpoint match_loop (fuel : nat) (t : version_tree) (l : list version_expr)
    (body : nat -> version_expr -> version_vars -> version_vars) (d : option nat) (v : version_vars)
    : option (option nat * version_vars) :=
  match fuel with
  | O => None
  | S fuel =>
      match vt_match t l d sym_name with
      | None => Some (None, v)
      | Some j =>
          e ← l !! j;
          let v := body j e v in
          if ve_literal e then Some (Some j, v) else match_loop fuel t l body (Some j) v
      end
  end.

(** The whole loop for one list of a node; an empty list is not searched. *)
Definition match_list (fuel : nat) (t : version_tree) (l : list version_expr)
    (body : nat -> version_expr -> version_vars -> version_vars) (v : version_vars)
    : option (option nat * version_vars) :=
  match l with [] => Some (None, v) | _ => match_loop fuel t l body None v end.

(** The loop over the nodes; the first is at position [i]. *)
Fixpoint node_loop (fuel : nat) (verdefs : list version_tree) (i : nat) (v : version_vars) : option version_vars :=
  match verdefs with
  | [] => Some v
  | t :: verdefs =>
      '(d, v) ← match_list fuel t (vt_globals t) (global_match i) v;
      match d with
      | Some _ => Some v
      | None =>
          '(d, v) ← match_list fuel t (vt_locals t) (fun _ => local_match i) v;
          match d with
          | Some _ => Some v
          | None => node_loop fuel verdefs (S i) v
          end
      end
  end.

(** The node found and the value of [*hide] after the call. *)
Definition version_choice (v : version_vars) (hide : bool) : option nat * bool :=
  let global_ver :=
    match vv_global_ver v, vv_local_ver v with
    | None, None => vv_star_global_ver v
    | g, _ => g
    end in
  match global_ver with
  | Some _ => (global_ver, bool_decide (vv_exist_ver v = global_ver))
  | None =>
      match (match vv_local_ver v with None => vv_star_local_ver v | l => l end) with
      | Some t => (Some t, true)
      | None => (None, hide)
      end
  end.

(** The node, [*hide] and the expressions whose [script] is set. *)
Definition bfd_find_version_for_sym (fuel : nat) (verdefs : list version_tree) (hide : bool)
    : option (option nat * bool * gset (nat * nat)) :=
  v ← node_loop fuel verdefs 0 no_version;
  Some (version_choice v hide, vv_script v).

Definition bfd_hide_sym_by_version (fuel : nat) (verdefs : list version_tree) : option bool :=
  '(_, hidden, _) ← bfd_find_version_for_sym fuel verdefs false;
  Some hidden.
End search.

(** ** What a match function promises *)

(** Called in turn, it goes through the positions [matches t l] of a list. *)
Class VersionMatch (sym_name : cstring) (matches : version_tree -> list version_expr -> list nat) (t : version_tree)
    : Prop := {
  vm_first l : vt_match t l None sym_name = head (matches t l);
  vm_next l k j : matches t l !! k = Some j -> vt_match t l (Some j) sym_name = matches t l !! S k;
  vm_range l j : j ∈ matches t l -> (j < length l)%nat
}.

(** ** The matches of a name, in the order they are found *)

Record hit := mkHit {
  h_node : nat;
  h_local : bool;
  h_pos : nat;
  h_expr : version_expr
}.

Definition h_literal (h : hit) : bool := ve_literal (h_expr h).

(** How weak a match is: exact ones first, then patterns, then the pattern that
    is a star; of equally explicit ones the global one. *)
Definition rank (h : hit) : nat :=
  if h_literal h then 0
  else match explicit (h_expr h), h_local h with
       | true, false => 1
       | true, true => 2
       | false, false => 3
       | false, true => 4
       end.

(** The strongest match, the last of those. *)
Definition prevails (hs : list hit) (h : hit) : Prop :=
  exists l1 l2, hs = l1 ++ h :: l2 /\
    (forall x, x ∈ l1 -> (rank h <= rank x)%nat) /\ (forall x, x ∈ l2 -> (rank h < rank x)%nat).

(** An exact match ends the search. *)
Fixpoint upto_literal (hs : list hit) : list hit :=
  match hs with
  | [] => []
  | h :: hs => h :: (if h_literal h then [] else upto_literal hs)
  end.

(** The node that has the last global expression of a versioned symbol. *)
Definition versioned_node (hs : list hit) : option nat :=
  h_node <$> last (filter (fun h => h_local h = false /\ ve_symver (h_expr h) = true) hs).

(** The global expressions matched. *)
Definition used_globals (hs : list hit) : gset (nat * nat) :=
  list_to_set ((fun h => (h_node h, h_pos h)) <$> filter (fun h => h_local h = false) hs).

Section matches.
Context (sym_name : cstring) (matches : version_tree -> list version_expr -> list nat).

Definition list_hits (t : version_tree) (i : nat) (loc : bool) (l : list version_expr) : list hit :=
  omap (fun j => mkHit i loc j <$> l !! j) (matches t l).

Fixpoint all_hits (verdefs : list version_tree) (i : nat) : list hit :=
  match verdefs with
  | [] => []
  | t :: verdefs =>
      list_hits t i false (vt_globals t) ++ list_hits t i true (vt_locals t) ++ all_hits verdefs (S i)
  end.

(** ** The search goes through the matches *)

Definition step (v : version_vars) (h : hit) : version_vars :=
  if h_local h then local_match (h_node h) (h_expr h) v else global_match (h_node h) (h_pos h) (h_expr h) v.

(** Absorbs matches up to an exact one, and says whether there was one. *)
Fixpoint absorb (hs : list hit) (v : version_vars) : bool * version_vars :=
  match hs with
  | [] => (false, v)
  | h :: hs => if h_literal h then (true, step v h) else absorb hs (step v h)
  end.

Lemma absorb_app hs1 hs2 v :
  absorb (hs1 ++ hs2) v = let '(stop, v) := absorb hs1 v in if stop then (true, v) else absorb hs2 v.
Proof.
  revert v. induction hs1 as [|h hs1 IH]; intros v; cbn [absorb app]; [done|].
  destruct (h_literal h); [done|apply IH].
Qed.

Lemma absorb_foldl hs v : (absorb hs v).2 = foldl step v (upto_literal hs).
Proof.
  revert v. induction hs as [|h hs IH]; intros v; cbn [absorb upto_literal foldl]; [done|].
  destruct (h_literal h); [done|apply IH].
Qed.

Context (t : version_tree) `{!VersionMatch sym_name matches t}.

(** A list is gone through without repetition, since what comes after a match
    is determined by it. *)
Lemma matches_NoDup l : NoDup (matches t l).
Proof.
  assert (forall a b k j, matches t l !! a = Some j -> matches t l !! b = Some j ->
    matches t l !! (a + k)%nat = matches t l !! (b + k)%nat) as Hshift.
  { intros a b k. revert a b. induction k as [|k IH]; intros a b j Ha Hb; [by rewrite !Nat.add_0_r, Ha, Hb|].
    pose proof (vm_next _ _ _ Ha) as H1. rewrite (vm_next _ _ _ Hb) in H1.
    rewrite <- !plus_n_Sm. change (S (a + k)) with (S a + k)%nat. change (S (b + k)) with (S b + k)%nat.
    destruct (matches t l !! S a) as [j'|] eqn:E; [by eapply IH|].
    apply lookup_ge_None in E, H1. rewrite !(proj2 (lookup_ge_None _ _)) by lia. done. }
  assert (forall a b j, (a < b)%nat -> matches t l !! a = Some j -> matches t l !! b = Some j -> False) as Hlt.
  { intros a b j Hab Ha Hb. pose proof (lookup_lt_Some _ _ _ Hb) as Hlen.
    specialize (Hshift a b (length (matches t l) - b)%nat j Ha Hb).
    rewrite (proj2 (lookup_ge_None (matches t l) (b + _))) in Hshift by lia.
    apply lookup_ge_None in Hshift. lia. }
  apply NoDup_alt. intros a b j Ha Hb. destruct (decide (a = b)); [done|]. exfalso.
  destruct (decide (a < b)%nat); [by eapply (Hlt a b)|]. eapply (Hlt b a); [lia|done|done].
Qed.

Lemma matches_length l : (length (matches t l) <= length l)%nat.
Proof. apply NoDup_lt_length; [apply matches_NoDup|]. apply vm_range. Qed.

Lemma match_loop_absorb i loc l body fuel k d v :
  (forall j e v, body j e v = step v (mkHit i loc j e)) ->
  vt_match t l d sym_name = matches t l !! k -> (k <= length (matches t l) < k + fuel)%nat ->
  exists d', match_loop sym_name fuel t l body d v =
      Some (d', (absorb (omap (fun j => mkHit i loc j <$> l !! j) (drop k (matches t l))) v).2) /\
    bool_decide (is_Some d') = (absorb (omap (fun j => mkHit i loc j <$> l !! j) (drop k (matches t l))) v).1.
Proof.
  intros Hbody. revert k d v. induction fuel as [|fuel IH]; intros k d v Hd Hk.
  - lia.
  - cbn [match_loop]. rewrite Hd. destruct (matches t l !! k) as [j|] eqn:Hj.
    + assert (j < length l)%nat as Hjl by (apply vm_range; by eapply list_elem_of_lookup_2).
      destruct (lookup_lt_is_Some_2 l j Hjl) as [e He].
      rewrite (drop_S _ _ _ Hj). cbn [omap list_omap]. rewrite He. cbn [mbind option_bind fmap option_fmap option_map absorb].
      rewrite Hbody. change (h_literal (mkHit i loc j e)) with (ve_literal e).
      destruct (ve_literal e); [by exists (Some j)|]. apply lookup_lt_Some in Hj as Hlt. apply IH; [by apply vm_next|lia].
    + apply lookup_ge_None in Hj. rewrite drop_ge by done. by exists None.
Qed.

Lemma match_list_absorb i loc l body fuel v :
  (forall j e v, body j e v = step v (mkHit i loc j e)) -> (length l < fuel)%nat ->
  exists d, match_list sym_name fuel t l body v = Some (d, (absorb (list_hits t i loc l) v).2) /\
    bool_decide (is_Some d) = (absorb (list_hits t i loc l) v).1.
Proof.
  intros Hbody Hfuel. unfold list_hits. pose proof (matches_length l) as Hlen. destruct l as [|e l].
  - destruct (matches t []); [|simpl in Hlen; lia]. by exists None.
  - unfold match_list. apply (match_loop_absorb i loc (e :: l) body fuel 0); [done| |lia].
    rewrite vm_first. by destruct (matches t (e :: l)).
Qed.
End matches.

(** Enough fuel to search every list of the nodes. *)
Definition fuel_for (fuel : nat) (verdefs : list version_tree) : Prop :=
  Forall (fun t => length (vt_globals t) < fuel /\ length (vt_locals t) < fuel)%nat verdefs.

Lemma node_loop_absorb sym_name matches fuel verdefs i v :
  Forall (VersionMatch sym_name matches) verdefs -> fuel_for fuel verdefs ->
  node_loop sym_name fuel verdefs i v = Some (absorb (all_hits matches verdefs i) v).2.
Proof.
  intros Hm. revert i v. induction Hm as [|t verdefs Ht _ IH]; intros i v Hf; [done|].
  apply Forall_cons in Hf as [[Hg Hl] Hf]. cbn [node_loop all_hits].
  destruct (match_list_absorb sym_name matches t i false (vt_globals t) (global_match i) fuel v)
    as (d & -> & Hd); [done..|]. cbn [mbind option_bind]. rewrite absorb_app.
  destruct (absorb (list_hits matches t i false (vt_globals t)) v) as [stop v1]. cbn in Hd. subst stop. cbn [snd].
  destruct d as [j|]; [done|]. rewrite bool_decide_false by by intros [? ?].
  destruct (match_list_absorb sym_name matches t i true (vt_locals t) (fun _ => local_match i) fuel v1)
    as (d & -> & Hd); [done..|]. cbn [mbind option_bind snd]. rewrite absorb_app.
  destruct (absorb (list_hits matches t i true (vt_locals t)) v1) as [stop v2]. cbn in Hd. subst stop.
  destruct d as [j|]; [done|]. rewrite bool_decide_false by by intros [? ?]. by apply IH.
Qed.

(** ** The variables after a run of matches *)

(** The node of the last match of a rank. *)
Definition last_of (n : nat) (hs : list hit) : option nat := h_node <$> last (filter (fun h => rank h = n) hs).

Lemma last_filter_snoc {A} (P : A -> Prop) `{!forall x, Decision (P x)} l x :
  last (filter P (l ++ [x])) = if decide (P x) then Some x else last (filter P l).
Proof.
  rewrite filter_app, filter_cons, filter_nil. case_decide; [apply last_snoc|by rewrite app_nil_r].
Qed.

Lemma last_filter_split {A} (P : A -> Prop) `{!forall x, Decision (P x)} l x :
  last (filter P l) = Some x -> exists l1 l2, l = l1 ++ x :: l2 /\ P x /\ Forall (fun y => ~ P y) l2.
Proof.
  induction l as [|y l IH] using rev_ind; [done|]. rewrite last_filter_snoc. case_decide as Hy.
  - intros [= ->]. by exists l, [].
  - intros (l1 & l2 & -> & Hx & Hl2)%IH. exists l1, (l2 ++ [y]).
    rewrite <- app_assoc. split_and!; [done..|]. apply Forall_app. by repeat constructor.
Qed.

Lemma last_filter_None {A} (P : A -> Prop) `{!forall x, Decision (P x)} l :
  last (filter P l) = None -> Forall (fun y => ~ P y) l.
Proof.
  rewrite last_None. intros Hf. apply Forall_forall. intros x Hx HP.
  apply (not_elem_of_nil (A:=A) x). rewrite <- Hf. by apply list_elem_of_filter.
Qed.

Lemma vars_marks hs :
  vv_exist_ver (foldl step no_version hs) = versioned_node hs /\
  vv_script (foldl step no_version hs) = used_globals hs.
Proof.
  induction hs as [|h hs [IH1 IH2]] using rev_ind; [done|]. rewrite foldl_snoc.
  generalize dependent (foldl step no_version hs). intros v IH1 IH2.
  unfold versioned_node, used_globals. rewrite last_filter_snoc, filter_app, filter_cons, filter_nil.
  unfold step. destruct (h_local h); cbn.
  - rewrite decide_False by naive_solver. by rewrite IH1, IH2, app_nil_r.
  - rewrite fmap_app, list_to_set_app_L, IH2. cbn. split; [|unfold used_globals; set_solver].
    destruct (ve_symver (h_expr h)); cbn; by rewrite ?IH1.
Qed.

Lemma vars_patterns hs :
  Forall (fun h => h_literal h = false) hs ->
  let v := foldl step no_version hs in
  vv_global_ver v = last_of 1 hs /\ vv_local_ver v = last_of 2 hs /\
  vv_star_global_ver v = last_of 3 hs /\ vv_star_local_ver v = last_of 4 hs.
Proof.
  induction hs as [|h hs IH] using rev_ind; [done|]. rewrite Forall_app, Forall_singleton.
  intros [Hhs Hh]. rewrite foldl_snoc. destruct (IH Hhs) as (E1 & E2 & E3 & E4).
  clear IH. generalize dependent (foldl step no_version hs). intros v E1 E2 E3 E4. cbn zeta.
  unfold last_of, step, rank in *. rewrite !last_filter_snoc. rewrite Hh.
  unfold h_literal in Hh. destruct (h_local h), (explicit (h_expr h)) eqn:Ex; cbn; rewrite ?Ex, ?Hh;
    by split_and!.
Qed.

(** ** The strongest match *)

Lemma last_of_prevails n hs r :
  last_of n hs = Some r -> (forall x, x ∈ hs -> (n <= rank x)%nat) ->
  exists h, prevails hs h /\ h_node h = r /\ rank h = n.
Proof.
  intros (h & Hl & ->)%fmap_Some Hmin. apply last_filter_split in Hl as (l1 & l2 & -> & Hn & Hl2).
  exists h. split; [|done]. exists l1, l2. split; [done|]. rewrite Hn. rewrite Forall_forall in Hl2.
  split; intros x Hx.
  - apply Hmin. set_solver.
  - specialize (Hl2 x Hx). specialize (Hmin x ltac:(set_solver)). lia.
Qed.

Lemma last_of_None n hs : last_of n hs = None -> (forall x, x ∈ hs -> (n <= rank x)%nat) ->
  forall x, x ∈ hs -> (S n <= rank x)%nat.
Proof.
  intros H%fmap_None%last_filter_None Hmin x Hx. rewrite Forall_forall in H.
  specialize (H x Hx). specialize (Hmin x Hx). cbn in H. lia.
Qed.

Lemma prevails_last hs h : rank h = 0%nat -> prevails (hs ++ [h]) h.
Proof. intros Hr. exists hs, []. rewrite Hr. split_and!; [done|lia|by intros x ?%elem_of_nil]. Qed.

(** Matches up to an exact one are patterns but for the last. *)
Lemma upto_literal_cases hs :
  Forall (fun h => h_literal h = false) (upto_literal hs) \/
  exists l h, upto_literal hs = l ++ [h] /\ h_literal h = true.
Proof.
  induction hs as [|h hs IH]; cbn [upto_literal]; [by left|]. destruct (h_literal h) eqn:Hh.
  - right. by exists [], h.
  - destruct IH as [IH|(l & x & -> & Hx)]; [left; by constructor|right]. by exists (h :: l), x.
Qed.

(** What the search answers, given the matches up to an exact one: nothing, or
    the node of the strongest match, hidden when that is local or its node
    already has the versioned symbol. *)
Definition version_of (hs : list hit) (hide : bool) (r : option nat * bool) : Prop :=
  match r with
  | (None, hidden) => hs = [] /\ hidden = hide
  | (Some t, hidden) => exists h, prevails hs h /\ h_node h = t /\
      hidden = h_local h || bool_decide (versioned_node hs = Some t)
  end.

Lemma rank_local h n : rank h = n -> n <> 0%nat -> h_local h = (Nat.even n : bool).
Proof. unfold rank. intros <-. by destruct (h_literal h), (explicit (h_expr h)), (h_local h). Qed.

Lemma choice_literal l h hide :
  h_literal h = true -> version_of (l ++ [h]) hide (version_choice (foldl step no_version (l ++ [h])) hide).
Proof.
  intros Hh. destruct (vars_marks (l ++ [h])) as [He _]. rewrite foldl_snoc in *.
  generalize dependent (foldl step no_version l). intros v He.
  assert (prevails (l ++ [h]) h) as Hp by (apply prevails_last; unfold rank; by rewrite Hh).
  revert He. unfold step, local_match, global_match, explicit. unfold h_literal in Hh. rewrite Hh.
  destruct (h_local h) eqn:Hl; cbn; intros He; exists h; rewrite Hl; by rewrite ?He.
Qed.

Lemma choice_patterns hs hide :
  Forall (fun h => h_literal h = false) hs ->
  version_of hs hide (version_choice (foldl step no_version hs) hide).
Proof.
  intros Hp. destruct (vars_marks hs) as [He _]. destruct (vars_patterns hs Hp) as (E1 & E2 & E3 & E4).
  assert (forall x, x ∈ hs -> (1 <= rank x <= 4)%nat) as Hr.
  { rewrite Forall_forall in Hp. intros x Hx. unfold rank. rewrite (Hp x Hx).
    destruct (explicit (h_expr x)), (h_local x); lia. }
  unfold version_choice. rewrite E1, E2, E3, E4, He.
  assert (forall n r, last_of n hs = Some r -> (forall x, x ∈ hs -> (n <= rank x)%nat) -> n <> 0%nat ->
    version_of hs hide (Some r, (Nat.even n : bool) || bool_decide (versioned_node hs = Some r))) as Hfound.
  { intros n r Hl Hmin Hn. destruct (last_of_prevails n hs r Hl Hmin) as (h & ? & ? & Hrank).
    exists h. by rewrite (rank_local h n). }
  destruct (last_of 1 hs) as [r1|] eqn:L1; [by apply (Hfound 1%nat); [|apply Hr|]|].
  pose proof (last_of_None 1 hs L1 ltac:(apply Hr)) as M1.
  destruct (last_of 2 hs) as [r2|] eqn:L2; [by apply (Hfound 2%nat)|].
  pose proof (last_of_None 2 hs L2 M1) as M2.
  destruct (last_of 3 hs) as [r3|] eqn:L3; [by apply (Hfound 3%nat)|].
  pose proof (last_of_None 3 hs L3 M2) as M3.
  destruct (last_of 4 hs) as [r4|] eqn:L4; [by apply (Hfound 4%nat)|].
  pose proof (last_of_None 4 hs L4 M3) as M4.
  destruct hs as [|x hs]; [done|]. pose proof (Hr x ltac:(left)). pose proof (M4 x ltac:(left)). lia.
Qed.

(** The strongest match is determined. *)
Lemma prevails_unique hs h h' : prevails hs h -> prevails hs h' -> h = h'.
Proof.
  intros (l1 & l2 & -> & H1 & H2) (k1 & k2 & E & G1 & G2).
  apply app_eq_inv in E as [(k & E1 & E2)|(k & E1 & E2)]; destruct k as [|x k]; cbn in E2; simplify_eq; try done.
  - specialize (G2 h ltac:(set_solver)). specialize (H1 x ltac:(set_solver)). lia.
  - specialize (H2 h' ltac:(set_solver)). specialize (G1 x ltac:(set_solver)). lia.
Qed.

(** With fuel for the longest list and match functions that go through the
    matching expressions in turn, the search for the version of a symbol ends,
    and its answer is decided by the matches met up to the first exact one:
    the strongest of them wins (exact, then global pattern, local pattern, global
    star, local star; the last of equals), the symbol is hidden if that match is
    local or if the last global expression of a versioned symbol is in the
    winning node, [*hide] is left as it was when nothing matches, and exactly the
    global expressions met are marked as used.  [bfd_hide_sym_by_version] says no
    when nothing matches and answers this flag otherwise. *)
Theorem find_version_correct sym_name matches fuel verdefs hide :
  Forall (VersionMatch sym_name matches) verdefs -> fuel_for fuel verdefs ->
  let hs := upto_literal (all_hits matches verdefs 0) in
  exists r, bfd_find_version_for_sym sym_name fuel verdefs hide = Some (r, used_globals hs) /\
    version_of hs hide r /\ (forall r', version_of hs hide r' -> r' = r) /\
    (hide = false -> bfd_hide_sym_by_version sym_name fuel verdefs = Some r.2).
Proof.
  intros Hm Hf hs. unfold bfd_hide_sym_by_version, bfd_find_version_for_sym.
  rewrite (node_loop_absorb _ matches) by done.
  cbn [mbind option_bind]. rewrite absorb_foldl. fold hs. destruct (vars_marks hs) as [_ ->].
  eexists. split; [done|]. apply Logic.and_assoc. split; [|by intros ->; destruct (version_choice _ _)]. assert (version_of hs hide (version_choice (foldl step no_version hs) hide)) as Hv.
  { destruct (upto_literal_cases (all_hits matches verdefs 0)) as [Hp|(l & h & E & Hh)]; subst hs;
      [by apply choice_patterns|rewrite E; by apply choice_literal]. }
  split; [done|]. destruct (version_choice _ _) as [[t|] hidden].
  - destruct Hv as (h & Hp & <- & ->). intros [[t'|] hidden'].
    + intros (h' & Hp' & <- & ->). by rewrite (prevails_unique hs h h').
    + intros [E _]. destruct Hp as (l1 & l2 & E' & _). rewrite E in E'. by destruct l1.
  - destruct Hv as [E ->]. intros [[t'|] hidden'].
    + intros (h' & (l1 & l2 & E' & _) & _). rewrite E in E'. by destruct l1.
    + by intros [_ ->].
Qed.

(** ** A match function: names are equal to the pattern, or it is a star *)

(** The positions from [j] on at which the expressions match. *)
Fixpoint simple_matches (sym_name : cstring) (l : list version_expr) (j : nat) : list nat :=
  match l with
  | [] => []
  | e :: l =>
      if bool_decide (ve_pattern e = STAR) || bool_decide (ve_pattern e = sym_name)
      then j :: simple_matches sym_name l (S j) else simple_matches sym_name l (S j)
  end.

Fixpoint after (j : nat) (js : list nat) : option nat :=
  match js with
  | [] => None
  | i :: js => if (i =? j)%nat then head js else after j js
  end.

Definition simple_match (l : list version_expr) (prev : option nat) (sym_name : cstring) : option nat :=
  let js := simple_matches sym_name l 0 in
  match prev with None => head js | Some j => after j js end.

Lemma simple_matches_bounds sym_name l j i :
  i ∈ simple_matches sym_name l j -> (j <= i < j + length l)%nat.
Proof.
  revert j. induction l as [|e l IH]; intros j; cbn; [by intros ?%elem_of_nil|].
  case_match; [intros [->|Hi]%elem_of_cons; [lia|]|intros Hi]; specialize (IH _ Hi); lia.
Qed.

Lemma simple_matches_NoDup sym_name l j : NoDup (simple_matches sym_name l j).
Proof.
  revert j. induction l as [|e l IH]; intros j; cbn; [constructor|]. case_match; [|done].
  apply NoDup_cons. split; [|done]. intros Hb%simple_matches_bounds. lia.
Qed.

Lemma after_lookup js k j : NoDup js -> js !! k = Some j -> after j js = js !! S k.
Proof.
  revert k. induction js as [|i js IH]; intros k Hnd Hk; [done|].
  apply NoDup_cons in Hnd as [Hi Hnd]. cbn [after].
  destruct k as [|k]; cbn in Hk.
  - injection Hk as ->. rewrite Nat.eqb_refl. by destruct js.
  - destruct (Nat.eqb_spec i j) as [->|_]; [|by apply IH]. by apply list_elem_of_lookup_2 in Hk.
Qed.

#[export] Instance simple_version_match sym_name globals locals :
  VersionMatch sym_name (fun _ l => simple_matches sym_name l 0) (mkVersionTree globals locals simple_match).
Proof.
  split; [done| |].
  - intros l k j Hk. apply after_lookup; [apply simple_matches_NoDup|done].
  - intros l j Hj%simple_matches_bounds. lia.
Qed.

Definition pat (s : string) : version_expr := mkVersionExpr (c_str s) false false.
Definition exact (s : string) : version_expr := mkVersionExpr (c_str s) true false.
Definition versioned (s : string) : version_expr := mkVersionExpr (c_str s) true true.

(** [V1 { global: *; }; V2 { global: open; local: *; }; V3 { local: shut; }] *)
Definition sample_script : list version_tree :=
  [mkVersionTree [pat "*"] [] simple_match;
   mkVersionTree [versioned "open"] [pat "*"] simple_match;
   mkVersionTree [] [exact "shut"] simple_match].

Lemma sample_script_ok sym_name :
  Forall (VersionMatch sym_name (fun _ l => simple_matches sym_name l 0)) sample_script /\ fuel_for 2 sample_script.
Proof.
  split; [|by repeat constructor].
  repeat (apply Forall_cons_2; [apply simple_version_match|]). apply Forall_nil_2.
Qed.

(** The unversioned symbol of a node that has the versioned one is hidden; a
    global star beats a local one; an exact local match beats a global star; and
    when nothing matches [*hide] is not written. *)
Example find_open : bfd_find_version_for_sym (c_str "open") 2 sample_script false = Some (Some 1%nat, true, {[(0%nat, 0%nat); (1%nat, 0%nat)]}).
Proof. by vm_compute. Qed.
Example find_read : bfd_find_version_for_sym (c_str "read") 2 sample_script false = Some (Some 0%nat, false, {[(0%nat, 0%nat)]}).
Proof. by vm_compute. Qed.
Example find_shut : bfd_find_version_for_sym (c_str "shut") 2 sample_script false = Some (Some 2%nat, true, {[(0%nat, 0%nat)]}).
Proof. by vm_compute. Qed.
Example find_nothing : bfd_find_version_for_sym (c_str "read") 2 (drop 2 sample_script) true = Some (None, true, ∅).
Proof. by vm_compute. Qed.

Lemma find_version_correct_witness :
  let hs := upto_literal (all_hits (fun _ l => simple_matches (c_str "shut") l 0) sample_script 0) in
  exists r, bfd_find_version_for_sym (c_str "shut") 2 sample_script false = Some (r, used_globals hs) /\
    version_of hs false r /\ (forall r', version_of hs false r' -> r' = r) /\
    (false = false -> bfd_hide_sym_by_version (c_str "shut") 2 sample_script = Some r.2).
Proof.
  destruct (sample_script_ok (c_str "shut")) as [Hm Hf].
  exact (find_version_correct (c_str "shut") _ 2 sample_script false Hm Hf).
Defined.
