(* ===== verification/LinkOnce.v ===== *)
(** Sections that are linked once: linker.c's table of the sections already
    linked, by name, and what becomes of a duplicate.

    An entry's chain of [struct bfd_section_already_linked] is the list of their
    [sec] fields; a pointer to one of them is its entry and its place in the
    chain.  The field [kept_section] of a section is kept in [o_kept]; the reports
    of the linker's callbacks are recorded in order, latest first (the code goes on
    after [fatal]).  Whether a BFD is the output of link-time optimisation or was
    made by a plugin, and the contents that can be read of a section, are
    parameters. *)

From S2P Require Import Prelude HashTable HashTableSpec HashGrowth StateRes BfdSection SectionList Linker LinkerFiles.

#[export] Instance asec_countable : Countable asec.
Proof.
  refine (inj_countable' (fun x => match x with Std i => inl i | Own b p => inr (b, p) end)
    (fun y => match y with inl i => Std i | inr (b, p) => Own b p end) _); by intros [].
Defined.

(** ** Data *)

Record once_info := mkOnceInfo {
  oi_lto_output : ptr -> bool;
  oi_plugin : ptr -> bool;
  oi_contents : asec -> option (list Z)
}.

Inductive once_event :=
| E_duplicate (sec : asec)
| E_different_size (sec : asec)
| E_unreadable (sec : asec)
| E_different_contents (sec : asec)
| E_table_fatal.

Record ostate := mkOstate {
  o_table : hash_table (list asec);
  o_secs : sstate;
  o_kept : gmap asec asec;
  o_events : list once_event
}.

Definition set_o_table (v : hash_table (list asec)) (x : ostate) : ostate :=
  mkOstate v (o_secs x) (o_kept x) (o_events x).
Definition set_o_secs (v : sstate) (x : ostate) : ostate :=
  mkOstate (o_table x) v (o_kept x) (o_events x).
Definition set_o_kept (v : gmap asec asec) (x : ostate) : ostate :=
  mkOstate (o_table x) (o_secs x) v (o_events x).
Definition set_o_events (v : list once_event) (x : ostate) : ostate :=
  mkOstate (o_table x) (o_secs x) (o_kept x) v.

Abbreviation OM := (M ostate).

Definition SEC_LINK_ONCE : Z := 0x20000.
Definition SEC_LINK_DUPLICATES : Z := 0xc0000.
Definition SEC_LINK_DUPLICATES_DISCARD : Z := 0x0.
Definition SEC_LINK_DUPLICATES_ONE_ONLY : Z := 0x40000.
Definition SEC_LINK_DUPLICATES_SAME_SIZE : Z := 0x80000.
Definition SEC_LINK_DUPLICATES_SAME_CONTENTS : Z :=
  SEC_LINK_DUPLICATES_ONE_ONLY .| SEC_LINK_DUPLICATES_SAME_SIZE.
Definition SEC_GROUP : Z := 0x2000000.

(** ** Access to the state *)

Definition sections {A} (m : SM A) : OM A := zoom o_secs set_o_secs m.
Definition complain (e : once_event) : OM unit := modify (fun s => set_o_events (e :: o_events s) s).

(** The chain of an entry. *)
Definition get_chain (h : ptr) : OM (list asec) :=
  o ← gets (fun s => ht_heap (o_table s) !! h); e ← the o; ret (he_data e).
Definition set_chain (h : ptr) (l : list asec) : OM unit :=
  o ← gets (fun s => store_data h l (o_table s)); t ← the o; modify (set_o_table t).

(** [l->sec] *)
Definition linked_sec (h : ptr) (i : nat) : OM asec := l ← get_chain h; the (l !! i).
Definition set_linked_sec (h : ptr) (i : nat) (sec : asec) : OM unit :=
  l ← get_chain h; set_chain h (<[i := sec]> l).

(** ** The table *)

Definition bfd_section_already_linked_table_init (ok_create : bool) (oracle : list bool) (entsize : Z)
    : option (hash_table (list asec)) :=
  bfd_hash_table_init_n ok_create oracle entsize 42.

(** The entries are initialised by [already_linked_newfunc]. *)
Definition already_linked_newfunc : list asec := [].

Definition bfd_section_already_linked_table_lookup (name : cstring) : OM (option ptr) :=
  o ← gets (fun s => bfd_hash_lookup already_linked_newfunc (o_table s) name true false);
  '(r, t) ← the o;
  _ ← modify (set_o_table t);
  ret r.

Definition bfd_section_already_linked_table_insert (already_linked_list : ptr) (sec : asec) : OM bool :=
  al ← gets (fun s => objalloc_alloc (o_table s));
  let '(ok, t) := al in
  _ ← modify (set_o_table t);
  if negb ok then ret false
  else
    l ← get_chain already_linked_list;
    _ ← set_chain already_linked_list (sec :: l);
    ret true.

Definition bfd_section_already_linked_table_traverse {St} (func : ptr -> hash_entry (list asec) -> St -> bool * St)
    (t : hash_table (list asec)) (info : St) : option (St * hash_table (list asec)) :=
  bfd_hash_traverse func t info.

(** ** Duplicates *)

(** [memcmp (a, b, n) != 0]; reading past a buffer is undefined. *)
Definition memcmp_differs (a b : list Z) (n : nat) : OM bool :=
  if (n <=? length a)%nat && (n <=? length b)%nat then ret (negb (bool_decide (take n a = take n b)))
  else undefined.

Section once.
Context (info : once_info).

(** [(sec->owner->flags & BFD_PLUGIN) != 0] *)
Definition from_plugin (sec : asec) : OM bool :=
  d ← sections (get_sec sec); owner ← the (s_owner d); ret (oi_plugin info owner).

(** The contents of [sec] are to be read and can be. *)
Definition section_contents (sec : asec) (d : asection) : option (list Z) :=
  if has (s_flags d) SEC_HAS_CONTENTS then oi_contents info sec else None.

(** The two sections have one size, not zero. *)
Definition compare_contents (sec l_sec : asec) (d ld : asection) : OM unit :=
  if negb (has (s_flags d) SEC_HAS_CONTENTS) && negb (has (s_flags ld) SEC_HAS_CONTENTS) then ret tt
  else
    match section_contents sec d with
    | None => complain (E_unreadable sec)
    | Some sec_contents =>
        match section_contents l_sec ld with
        | None => complain (E_unreadable l_sec)
        | Some l_sec_contents =>
            differ ← memcmp_differs sec_contents l_sec_contents (Z.to_nat (s_size d));
            if (differ : bool) then complain (E_different_contents sec) else ret tt
        end
    end.

(** The end of the function: [sec] is discarded. *)
Definition discard_for (sec : asec) (h : ptr) (i : nat) : OM bool :=
  _ ← sections (set_sec sec (set_s_output_section (Some bfd_abs_section_ptr)));
  l_sec ← linked_sec h i;
  _ ← modify (fun s => set_o_kept (<[sec := l_sec]> (o_kept s)) s);
  ret true.

(** [l] is place [i] of the chain of [h]. *)
Definition _bfd_handle_already_linked (sec : asec) (h : ptr) (i : nat) : OM bool :=
  d ← sections (get_sec sec);
  l_sec ← linked_sec h i;
  let duplicates := s_flags d .& SEC_LINK_DUPLICATES in
  if duplicates =? SEC_LINK_DUPLICATES_DISCARD then
    owner ← the (s_owner d);
    replace ← (if oi_lto_output info owner then from_plugin l_sec else ret false);
    if (replace : bool) then _ ← set_linked_sec h i sec; ret false else discard_for sec h i
  else if duplicates =? SEC_LINK_DUPLICATES_ONE_ONLY then
    _ ← complain (E_duplicate sec);
    discard_for sec h i
  else if duplicates =? SEC_LINK_DUPLICATES_SAME_SIZE then
    plugin ← from_plugin l_sec;
    _ ← (if (plugin : bool) then ret tt
         else
           ld ← sections (get_sec l_sec);
           if negb (s_size d =? s_size ld) then complain (E_different_size sec) else ret tt);
    discard_for sec h i
  else if duplicates =? SEC_LINK_DUPLICATES_SAME_CONTENTS then
    plugin ← from_plugin l_sec;
    _ ← (if (plugin : bool) then ret tt
         else
           ld ← sections (get_sec l_sec);
           if negb (s_size d =? s_size ld) then complain (E_different_size sec)
           else if negb (s_size d =? 0) then compare_contents sec l_sec d ld
           else ret tt);
    discard_for sec h i
  else undefined.

Definition _bfd_generic_section_already_linked (sec : asec) : OM bool :=
  d ← sections (get_sec sec);
  if negb (has (s_flags d) SEC_LINK_ONCE) then ret false
  else if has (s_flags d) SEC_GROUP then ret false
  else
    name ← the (s_name d);
    already_linked_list ← bfd_section_already_linked_table_lookup name;
    match already_linked_list with
    | None => _ ← complain E_table_fatal; ret false
    | Some h =>
        l ← get_chain h;
        match l with
        | _ :: _ => _bfd_handle_already_linked sec h 0
        | [] =>
            ok ← bfd_section_already_linked_table_insert h sec;
            _ ← (if (ok : bool) then ret tt else complain E_table_fatal);
            ret false
        end
    end.

(** The sections of a link, in the order they are offered. *)
Fixpoint link_sections (secs : list asec) : OM (list bool) :=
  match secs with
  | [] => ret []
  | sec :: secs =>
      r ← _bfd_generic_section_already_linked sec;
      rs ← link_sections secs;
      ret (r :: rs)
  end.
End once.

(** ** What the table stands for *)

Definition chain_at (s : ostate) (h : ptr) : option (list asec) := he_data <$> ht_heap (o_table s) !! h.

(** The table has an entry for each name of [chains], with that chain. *)
Record table_inv (s : ostate) (chains : gmap cstring (list asec)) : Prop := {
  ti_table : exists m, represents (o_table s) m /\ forall name, m !! name ≫= chain_at s = chains !! name;
  ti_roomy : roomy (o_table s);
  ti_oracle : ht_oracle (o_table s) = []
}.

(** The same, and the entry of [name] is [h]. *)
Record entry_of (s : ostate) (chains : gmap cstring (list asec)) (name : cstring) (h : ptr) : Prop := {
  eo_table : exists m, represents (o_table s) m /\ m !! name = Some h /\ forall n, m !! n ≫= chain_at s = chains !! n;
  eo_roomy : roomy (o_table s);
  eo_oracle : ht_oracle (o_table s) = []
}.

(** One section under each name of [kept]. *)
Definition once_inv (s : ostate) (kept : gmap cstring asec) : Prop := table_inv s ((fun k => [k]) <$> kept).

Lemma entry_of_inv s chains name h : entry_of s chains name h -> table_inv s chains.
Proof. intros [(m & Hm & _ & Hk) H1 H2]. constructor; [by exists m|done..]. Qed.

Lemma entry_of_chain s chains name h : entry_of s chains name h -> chain_at s h = chains !! name.
Proof. intros [(m & Hm & Hh & Hk) _ _]. specialize (Hk name). by rewrite Hh in Hk. Qed.

Lemma table_inv_same s s' chains : o_table s' = o_table s -> table_inv s chains -> table_inv s' chains.
Proof. unfold chain_at. intros E [H1 H2 H3]. unfold chain_at in H1. constructor; unfold chain_at; by rewrite E. Qed.

Lemma run_sections {A} (m : SM A) s Q :
  runs m (o_secs s) (fun a t => Q a (set_o_secs t s)) -> runs (sections m) s Q.
Proof. apply run_zoom. Qed.

Lemma run_section x d s Q : sec_at (o_secs s) x = Some d -> Q d s -> runs (sections (get_sec x)) s Q.
Proof. intros Hd HQ. apply run_sections, (run_get_sec _ d); [done|]. by destruct s. Qed.

Lemma run_get_chain h l s Q : chain_at s h = Some l -> Q l s -> runs (get_chain h) s Q.
Proof.
  unfold chain_at. intros (e & He & ->)%fmap_Some HQ. apply run_bind, run_gets, run_bind.
  apply (run_the _ e); [done|]. by rstep.
Qed.

Lemma run_linked_sec h i l k s Q :
  chain_at s h = Some l -> l !! i = Some k -> Q k s -> runs (linked_sec h i) s Q.
Proof. intros Hl Hk HQ. apply run_bind, (run_get_chain _ l); [done|]. by eapply run_the. Qed.

(** Storing the chain of an entry. *)
Lemma set_chain_spec s chains name h l :
  entry_of s chains name h ->
  runs (set_chain h l) s (fun _ s' => exists t,
    s' = set_o_table t s /\ entry_of s' (<[name := l]> chains) name h /\ ht_brk t = ht_brk (o_table s)).
Proof.
  intros [(m & Hm & Hname & Hk) Hroomy Hor]. destruct (represents_entry _ _ _ _ Hm Hname) as (e & He & Hs).
  apply run_bind, run_gets, run_bind. eapply run_the; [by eapply store_data_eq|]. apply run_modify.
  eexists. split_and!; [done| |done]. constructor; [|done..].
  exists m. split_and!; [by apply represents_store|done|]. intros n. unfold chain_at. cbn.
  destruct (decide (n = name)) as [->|Hn].
  - rewrite Hname, lookup_insert_eq. cbn. by rewrite lookup_insert_eq.
  - rewrite (lookup_insert_ne chains) by done. rewrite <- Hk. destruct (m !! n) as [a|] eqn:Ha; [|done]. cbn.
    rewrite lookup_insert_ne; [done|]. intros ->. destruct (represents_entry _ _ _ _ Hm Ha) as (ea & Hea & Hs').
    congruence.
Qed.

(** A name without an entry gets one, empty. *)
Definition entered (chains : gmap cstring (list asec)) (name : cstring) : gmap cstring (list asec) :=
  match chains !! name with Some _ => chains | None => <[name := already_linked_newfunc]> chains end.

Lemma table_lookup_spec s chains name :
  table_inv s chains -> Z.of_nat (ht_brk (o_table s)) < 2 ^ 28 ->
  runs (bfd_section_already_linked_table_lookup name) s (fun r s' => exists h t,
    r = Some h /\ s' = set_o_table t s /\ entry_of s' (entered chains name) name h /\
    (ht_brk t <= S (ht_brk (o_table s)))%nat).
Proof.
  intros [(m & Hm & Hk) Hroomy Hor] Hbrk.
  destruct (hash_lookup_spec already_linked_newfunc _ m name true false Hm (roomy_grows _ Hroomy Hbrk))
    as (r & t & Hl & Hspec).
  destruct (hash_lookup_roomy _ _ m name _ _ _ _ Hm Hroomy Hbrk Hl) as (R1 & R2 & R3 & _).
  destruct (R3 Hor) as [Hor' [h ->]]; [done|].
  apply run_bind, run_gets, run_bind. eapply run_the; [exact Hl|]. apply run_bind, run_modify, run_ret.
  exists h, t. split_and!; [done..| |lia]. unfold entered. destruct (m !! name) as [h'|] eqn:Hname.
  - destruct Hspec as [[= <-] ->]. pose proof (Hk name) as Hn. rewrite Hname in Hn. cbn in Hn. unfold chain_at in Hn.
    destruct (represents_entry _ _ _ _ Hm Hname) as (e & He & _). rewrite He in Hn. rewrite <- Hn.
    constructor; [|done..]. by exists m.
  - destruct Hspec as (Hnew & Hrep & Hkeep & Hh). rewrite <- (Hk name), Hname. cbn [mbind option_bind].
    constructor; [|done..].
    exists (<[name := h]> m). split_and!; [done|by rewrite lookup_insert_eq|]. intros n.
    destruct (decide (n = name)) as [->|Hn].
    + rewrite !lookup_insert_eq. apply fmap_Some in Hh as (e & He & Hst). symmetry in Hst. unfold he_strip in Hst.
      injection Hst as _ _ Hd. cbn. unfold chain_at. cbn. rewrite He. cbn. by rewrite Hd.
    + rewrite !lookup_insert_ne by done. rewrite <- Hk. destruct (m !! n) as [a|] eqn:Ha; [|done]. cbn.
      destruct (represents_entry _ _ _ _ Hm Ha) as (ea & Hea & _). unfold chain_at. cbn.
      specialize (Hkeep a ltac:(congruence)). rewrite Hea in Hkeep |- *.
      destruct (ht_heap t !! a) as [e'|]; [|done]. cbn in Hkeep |- *. apply (inj Some) in Hkeep.
      by apply he_strip_inv in Hkeep as (_ & _ & ->).
Qed.

Lemma table_insert_spec s chains name h l x :
  entry_of s chains name h -> chains !! name = Some l ->
  runs (bfd_section_already_linked_table_insert h x) s (fun r s' => exists t,
    r = true /\ s' = set_o_table t s /\ entry_of s' (<[name := x :: l]> chains) name h /\
    ht_brk t = ht_brk (o_table s)).
Proof.
  intros He Hl. apply run_bind, run_gets. unfold objalloc_alloc. rewrite (eo_oracle _ _ _ _ He).
  apply run_bind, run_modify. cbn [negb]. set (s1 := set_o_table _ s). assert (s1 = s) as -> by by destruct s.
  apply run_bind, (run_get_chain _ l); [by rewrite (entry_of_chain _ _ _ _ He)|].
  apply run_bind. eapply run_mono; [by eapply set_chain_spec|]. intros _ s2 (t & -> & He' & Hb).
  apply run_ret. by exists t.
Qed.

(** ** One section *)

(** The name under which a section is linked once, if it is. *)
Definition once_name (d : asection) : option cstring :=
  if has (s_flags d) SEC_LINK_ONCE && negb (has (s_flags d) SEC_GROUP) then s_name d else None.

(** The policies for a duplicate. *)
Inductive duplicates := Discard | One_only | Same_size | Same_contents.

Definition policy (d : asection) : duplicates :=
  let b := s_flags d .& SEC_LINK_DUPLICATES in
  if b =? SEC_LINK_DUPLICATES_DISCARD then Discard
  else if b =? SEC_LINK_DUPLICATES_ONE_ONLY then One_only
  else if b =? SEC_LINK_DUPLICATES_SAME_SIZE then Same_size else Same_contents.

(** The two bits of the field leave no other case, so [abort] is not reached. *)
Lemma policy_cases d :
  let b := s_flags d .& SEC_LINK_DUPLICATES in
  b = SEC_LINK_DUPLICATES_DISCARD \/ b = SEC_LINK_DUPLICATES_ONE_ONLY \/
  b = SEC_LINK_DUPLICATES_SAME_SIZE \/ b = SEC_LINK_DUPLICATES_SAME_CONTENTS.
Proof.
  cbn zeta. set (f := s_flags d).
  assert (f .& SEC_LINK_DUPLICATES = Z.lor (if Z.testbit f 18 then 2 ^ 18 else 0) (if Z.testbit f 19 then 2 ^ 19 else 0)) as ->.
  { apply Z.bits_inj'. intros i Hi. rewrite Z.land_spec, Z.lor_spec.
    destruct (decide (i = 18)) as [->|H18]; [by destruct (Z.testbit f 18), (Z.testbit f 19)|].
    destruct (decide (i = 19)) as [->|H19]; [by destruct (Z.testbit f 18), (Z.testbit f 19)|].
    replace (Z.testbit SEC_LINK_DUPLICATES i) with false.
    2: { change SEC_LINK_DUPLICATES with (Z.lor (2 ^ 18) (2 ^ 19)). rewrite Z.lor_spec, !Z.pow2_bits_eqb by lia.
         by rewrite !(proj2 (Z.eqb_neq _ _)) by lia. }
    rewrite andb_false_r. destruct (Z.testbit f 18), (Z.testbit f 19);
      rewrite ?Z.bits_0, ?Z.pow2_bits_eqb, ?(proj2 (Z.eqb_neq _ _)) by lia; done. }
  destruct (Z.testbit f 18), (Z.testbit f 19); auto.
Qed.

Section once_spec.
Context (info : once_info).

Definition made_by_plugin (d : asection) : bool :=
  match s_owner d with Some owner => oi_plugin info owner | None => false end.

(** What is reported when [x] is discarded for [k]. *)
Definition complaint (x : asec) (d : asection) (k : asec) (ld : asection) : list once_event :=
  match policy d with
  | Discard => []
  | One_only => [E_duplicate x]
  | Same_size => if made_by_plugin ld || (s_size d =? s_size ld) then [] else [E_different_size x]
  | Same_contents =>
      if made_by_plugin ld then []
      else if negb (s_size d =? s_size ld) then [E_different_size x]
      else if s_size d =? 0 then []
      else if negb (has (s_flags d) SEC_HAS_CONTENTS) && negb (has (s_flags ld) SEC_HAS_CONTENTS) then []
      else match section_contents info x d, section_contents info k ld with
           | None, _ => [E_unreadable x]
           | _, None => [E_unreadable k]
           | Some c, Some lc =>
               let n := Z.to_nat (s_size d) in
               if bool_decide (take n c = take n lc) then [] else [E_different_contents x]
           end
  end.

(** A section that can be offered: it has a name and an owner, and if its
    contents can be read, all of them are. *)
Record offered (x : asec) (d : asection) : Prop := {
  of_name : is_Some (s_name d);
  of_owner : is_Some (s_owner d);
  of_contents : forall c, oi_contents info x = Some c -> (Z.to_nat (s_size d) <= length c)%nat
}.

Definition discarded (x k : asec) (d : asection) (es : list once_event) (s : ostate) : ostate :=
  set_o_kept (<[x := k]> (o_kept s))
    (set_o_secs (put_sec x (set_s_output_section (Some bfd_abs_section_ptr) d) (o_secs s))
      (set_o_events (es ++ o_events s) s)).

Lemma run_complain e s Q : Q tt (set_o_events (e :: o_events s) s) -> runs (complain e) s Q.
Proof. intros HQ. by apply (run_modify (fun s => set_o_events (e :: o_events s) s)). Qed.

Lemma run_from_plugin x d s Q :
  sec_at (o_secs s) x = Some d -> is_Some (s_owner d) -> Q (made_by_plugin d) s -> runs (from_plugin info x) s Q.
Proof.
  unfold made_by_plugin. intros Hd [owner Ho] HQ. apply run_bind, (run_section _ d); [done|].
  apply run_bind, (run_the _ owner); [done|]. rewrite Ho in HQ. by apply run_ret.
Qed.

Lemma run_discard_for x d h i l k es s Q :
  sec_at (o_secs s) x = Some d -> chain_at s h = Some l -> l !! i = Some k -> Q true (discarded x k d es s) ->
  runs (discard_for x h i) (set_o_events (es ++ o_events s) s) Q.
Proof.
  intros Hd Hh Hi HQ. apply run_bind, run_sections, (run_set_sec _ _ d); [done|].
  apply run_bind, (run_linked_sec _ _ l k); [done..|]. apply run_bind, run_modify, run_ret. exact HQ.
Qed.

Lemma run_compare_contents x d k ld s Q :
  offered x d -> offered k ld -> s_size d = s_size ld -> policy d = Same_contents ->
  made_by_plugin ld = false -> s_size d <> 0 ->
  Q tt (set_o_events (complaint x d k ld ++ o_events s) s) ->
  runs (compare_contents info x k d ld) s Q.
Proof.
  intros [_ _ Hc] [_ _ Hlc] Hsize Hp Hplug Hz. unfold complaint, compare_contents. rewrite Hp, Hplug, Hsize, Z.eqb_refl.
  rewrite Hsize in Hc, Hz. rewrite (proj2 (Z.eqb_neq _ _) Hz). cbn [negb].
  destruct (negb (has (s_flags d) SEC_HAS_CONTENTS) && _); [intros HQ; apply run_ret; by destruct s|].
  unfold section_contents. destruct (if has (s_flags d) _ then _ else None) as [c|] eqn:E1; [|by apply run_complain].
  destruct (if has (s_flags ld) _ then _ else None) as [lc|] eqn:E2; [|by apply run_complain].
  case_match; [|done]. case_match; [|done]. specialize (Hc c E1). specialize (Hlc lc E2).
  intros HQ. apply run_bind. unfold memcmp_differs. rewrite !(proj2 (Nat.leb_le _ _)) by done. apply run_ret.
  case_bool_decide; cbn [negb]; [apply run_ret; by destruct s|by apply run_complain].
Qed.

(** The section replaces the one of a plugin it was compiled from. *)
Definition replaces (d ld : asection) : bool :=
  match policy d, s_owner d with
  | Discard, Some owner => oi_lto_output info owner && made_by_plugin ld
  | _, _ => false
  end.

Lemma handle_discards x d h i l k ld s Q :
  offered x d -> offered k ld -> sec_at (o_secs s) x = Some d -> sec_at (o_secs s) k = Some ld ->
  chain_at s h = Some l -> l !! i = Some k -> replaces d ld = false ->
  Q true (discarded x k d (complaint x d k ld) s) ->
  runs (_bfd_handle_already_linked info x h i) s Q.
Proof.
  intros Hx Hk Hd Hld Hh Hi Hrep HQ. pose proof (of_owner _ _ Hx) as [owner Ho]. pose proof (of_owner _ _ Hk) as Hko.
  apply run_bind, (run_section _ d); [done|]. apply run_bind, (run_linked_sec _ _ l k); [done..|].
  assert (forall u s1, s1 = set_o_events (complaint x d k ld ++ o_events s) s ->
    (fun _ : unit => runs (discard_for x h i) s1 Q) u) as Hend.
  { intros _ s1 ->. by apply (run_discard_for x d h i l k). }
  destruct (policy_cases d) as [E|[E|[E|E]]];
    unfold replaces, policy in Hrep; unfold complaint, policy in Hend; rewrite E in *; cbn in Hrep, Hend |- *.
  - rewrite Ho in *. apply run_bind, run_ret. apply run_bind.
    assert (Hno : runs (discard_for x h i) s Q) by (apply (Hend tt s); by destruct s).
    destruct (oi_lto_output info owner); [|by apply run_ret].
    apply (run_from_plugin _ ld); [done..|]. cbn in Hrep. by rewrite Hrep.
  - apply run_bind, run_complain. by apply (Hend tt).
  - apply run_bind, (run_from_plugin _ ld); [done..|]. apply run_bind.
    destruct (made_by_plugin ld); cbn in Hend; [apply run_ret; apply (Hend tt s); by destruct s|].
    apply run_bind, (run_section _ ld); [done|].
    destruct (s_size d =? s_size ld); cbn; [apply run_ret; apply (Hend tt s); by destruct s|].
    apply run_complain. by apply (Hend tt).
  - apply run_bind, (run_from_plugin _ ld); [done..|]. apply run_bind.
    destruct (made_by_plugin ld) eqn:Hpl; cbn in Hend; [apply run_ret; apply (Hend tt s); by destruct s|].
    apply run_bind, (run_section _ ld); [done|].
    destruct (Z.eqb_spec (s_size d) (s_size ld)) as [Hs|Hs]; cbn in Hend |- *; [|apply run_complain; by apply (Hend tt)].
    destruct (Z.eqb_spec (s_size d) 0) as [Hz|Hz]; cbn in Hend |- *; [apply run_ret; apply (Hend tt s); by destruct s|].
    assert (policy d = Same_contents) as Hp by (unfold policy; by rewrite E).
    apply (run_compare_contents x d k ld); [done..|]. apply (Hend tt).
    unfold complaint. rewrite Hp, Hpl, (proj2 (Z.eqb_eq _ _) Hs), (proj2 (Z.eqb_neq _ _) Hz). done.
Qed.

Lemma handle_replaces chains name x d h i l k ld s :
  is_Some (s_owner d) -> is_Some (s_owner ld) -> sec_at (o_secs s) x = Some d -> sec_at (o_secs s) k = Some ld ->
  entry_of s chains name h -> chains !! name = Some l -> l !! i = Some k -> replaces d ld = true ->
  runs (_bfd_handle_already_linked info x h i) s (fun r s' => exists t, r = false /\ s' = set_o_table t s /\
    entry_of s' (<[name := <[i := x]> l]> chains) name h /\ ht_brk t = ht_brk (o_table s)).
Proof.
  intros Hox Hok Hd Hld He Hl Hi Hrep. pose proof (entry_of_chain _ _ _ _ He) as Hh. rewrite Hl in Hh.
  apply run_bind, (run_section _ d); [done|]. apply run_bind, (run_linked_sec _ _ l k); [done..|].
  unfold replaces in Hrep. destruct (policy d) eqn:Hp; try done. destruct (s_owner d) as [owner|] eqn:Ho; [|done].
  apply andb_true_iff in Hrep as [Hlto Hpl]. unfold policy in Hp.
  destruct (s_flags d .& SEC_LINK_DUPLICATES =? SEC_LINK_DUPLICATES_DISCARD) eqn:E; [|by repeat case_match].
  cbn zeta. rewrite E. apply run_bind, run_ret. rewrite Hlto.
  apply run_bind, (run_from_plugin _ ld); [done..|].
  rewrite Hpl. apply run_bind, run_bind, (run_get_chain _ l); [done|].
  eapply run_mono; [by eapply set_chain_spec|]. intros _ s' (t & -> & He' & Hb). apply run_ret. by exists t.
Qed.
End once_spec.

(** ** The sections of a link *)

(** What the table of linked sections does not change of a section. *)
Definition core (d : asection) : asection := set_s_output_section None d.

Lemma once_name_core d : once_name (core d) = once_name d.
Proof. done. Qed.
Lemma replaces_core info d ld : replaces info (core d) (core ld) = replaces info d ld.
Proof. done. Qed.
Lemma complaint_core info x d k ld : complaint info x (core d) k (core ld) = complaint info x d k ld.
Proof. done. Qed.
Lemma offered_core info x d : offered info x (core d) <-> offered info x d.
Proof. split; intros [H1 H2 H3]; by constructor. Qed.

Section main.
Context (info : once_info) (view : asec -> option asection).
Implicit Types (kept : gmap cstring asec) (x y k : asec) (secs : list asec) (s : ostate).

(** ** The abstract table: names to the sections that are kept *)

(** The section for which [x] is discarded. *)
Definition verdict kept x : option asec :=
  d ← view x; name ← once_name d; k ← kept !! name; ld ← view k;
  if replaces info d ld then None else Some k.

Definition next_kept kept x : gmap cstring asec :=
  match view x ≫= once_name, verdict kept x with
  | Some name, None => <[name := x]> kept
  | _, _ => kept
  end.

Fixpoint settle kept secs : list (option asec) :=
  match secs with
  | [] => []
  | x :: secs => verdict kept x :: settle (next_kept kept x) secs
  end.

(** The reports, in order. *)
Definition reports_of x (v : option asec) : list once_event :=
  match v with
  | Some k => match view x, view k with Some d, Some ld => complaint info x d k ld | _, _ => [] end
  | None => []
  end.

Definition reports kept secs : list once_event := concat (zip_with reports_of secs (settle kept secs)).

(** A section after its verdict. *)
Definition settled (v : option asec) (d : asection) : asection :=
  match v with Some _ => set_s_output_section (Some bfd_abs_section_ptr) d | None => d end.

(** ** One section *)

Definition agrees s : Prop := forall y, core <$> sec_at (o_secs s) y = core <$> view y.

Definition known x : Prop := exists d, view x = Some d /\ offered info x d.

Definition step_to kept x s s' : Prop :=
  once_inv s' (next_kept kept x) /\ (ht_brk (o_table s') <= S (ht_brk (o_table s)))%nat /\
  (forall y, sec_at (o_secs s') y = if decide (y = x) then settled (verdict kept x) <$> sec_at (o_secs s) y
                                    else sec_at (o_secs s) y) /\
  (forall y, o_kept s' !! y = if decide (y = x) then match verdict kept x with Some k => Some k | None => o_kept s !! y end
                              else o_kept s !! y) /\
  o_events s' = reports_of x (verdict kept x) ++ o_events s.

Lemma agrees_at s x d : agrees s -> view x = Some d -> exists d', sec_at (o_secs s) x = Some d' /\ core d' = core d.
Proof.
  intros Ha Hd. specialize (Ha x). rewrite Hd in Ha. destruct (sec_at (o_secs s) x) as [d'|]; [|done].
  apply (inj Some) in Ha. by exists d'.
Qed.

(** When only the table changes. *)
Lemma step_to_table kept x s t :
  verdict kept x = None -> once_inv (set_o_table t s) (next_kept kept x) ->
  (ht_brk t <= S (ht_brk (o_table s)))%nat -> step_to kept x s (set_o_table t s).
Proof.
  intros Hv Hinv Hb. unfold step_to. rewrite Hv. split_and!; try done; intros y; [|by case_decide].
  case_decide; [|done]. cbn. by destruct (sec_at (o_secs s) y).
Qed.

Lemma already_linked_first kept x d name s :
  once_inv s kept -> Z.of_nat (ht_brk (o_table s)) < 2 ^ 28 ->
  sec_at (o_secs s) x = Some d -> s_name d = Some name -> once_name d = Some name -> kept !! name = None ->
  runs (_bfd_generic_section_already_linked info x) s (fun r s' => exists t, r = false /\
    s' = set_o_table t s /\ once_inv s' (<[name := x]> kept) /\ (ht_brk t <= S (ht_brk (o_table s)))%nat).
Proof.
  intros Hinv Hbrk Hd Hname Hon Hnone. apply run_bind, (run_section _ d); [done|]. unfold once_name in Hon.
  destruct (has (s_flags d) SEC_LINK_ONCE); [|done]. destruct (has (s_flags d) SEC_GROUP); [done|]. cbn [negb].
  apply run_bind, (run_the _ name); [done|]. apply run_bind. eapply run_mono; [by apply table_lookup_spec|].
  intros r s1 (h & t & -> & -> & He & Hb). unfold entered in He. rewrite lookup_fmap, Hnone in He. cbn in He.
  apply run_bind, (run_get_chain _ []); [rewrite (entry_of_chain _ _ _ _ He); by rewrite lookup_insert_eq|].
  apply run_bind. eapply run_mono; [eapply table_insert_spec; [done|by rewrite lookup_insert_eq]|].
  intros r s2 (t2 & -> & -> & He2 & Hb2). rewrite insert_insert_eq in He2.
  apply run_bind, run_ret, run_ret. exists t2. split_and!; [done..| |cbn in Hb2; lia].
  unfold once_inv. rewrite fmap_insert. by eapply entry_of_inv.
Qed.

Lemma already_linked_again kept x d name k s Q :
  once_inv s kept -> Z.of_nat (ht_brk (o_table s)) < 2 ^ 28 ->
  sec_at (o_secs s) x = Some d -> s_name d = Some name -> once_name d = Some name -> kept !! name = Some k ->
  (forall h t, entry_of (set_o_table t s) ((fun k => [k]) <$> kept) name h ->
     (ht_brk t <= S (ht_brk (o_table s)))%nat ->
     runs (_bfd_handle_already_linked info x h 0) (set_o_table t s) Q) ->
  runs (_bfd_generic_section_already_linked info x) s Q.
Proof.
  intros Hinv Hbrk Hd Hname Hon Hk HQ. apply run_bind, (run_section _ d); [done|]. unfold once_name in Hon.
  destruct (has (s_flags d) SEC_LINK_ONCE); [|done]. destruct (has (s_flags d) SEC_GROUP); [done|]. cbn [negb].
  apply run_bind, (run_the _ name); [done|]. apply run_bind. eapply run_mono; [by apply table_lookup_spec|].
  intros r s1 (h & t & -> & -> & He & Hb). unfold entered in He. rewrite lookup_fmap, Hk in He. cbn in He.
  apply run_bind, (run_get_chain _ [k]); [rewrite (entry_of_chain _ _ _ _ He); by rewrite lookup_fmap, Hk|].
  by apply HQ.
Qed.

Lemma already_linked_not_once x d s Q :
  sec_at (o_secs s) x = Some d -> is_Some (s_name d) -> once_name d = None -> Q false s ->
  runs (_bfd_generic_section_already_linked info x) s Q.
Proof.
  intros Hd [name Hname] Hon HQ. apply run_bind, (run_section _ d); [done|]. unfold once_name in Hon. rewrite Hname in Hon.
  destruct (has (s_flags d) SEC_LINK_ONCE); [|by apply run_ret]. destruct (has (s_flags d) SEC_GROUP); [by apply run_ret|done].
Qed.

Lemma already_linked_step kept x s :
  once_inv s kept -> Z.of_nat (ht_brk (o_table s)) < 2 ^ 28 -> agrees s -> known x ->
  (forall name k, kept !! name = Some k -> known k) ->
  runs (_bfd_generic_section_already_linked info x) s (fun r s' =>
    r = bool_decide (is_Some (verdict kept x)) /\ step_to kept x s s').
Proof.
  intros Hinv Hbrk Ha (d & Hd & Hoff) Hkept. destruct (agrees_at s x d Ha Hd) as (d' & Hd' & Hcore).
  assert (offered info x d') as Hoff' by by rewrite <- offered_core, Hcore, offered_core.
  assert (once_name d = once_name d') as Hn by by rewrite <- (once_name_core d), <- Hcore.
  pose proof (of_name _ _ _ Hoff') as [name Hname].
  destruct (once_name d') as [n|] eqn:Hon.
  2: { eapply already_linked_not_once; [done|by eexists|done|].
       assert (verdict kept x = None) as Hv by (unfold verdict; rewrite Hd; cbn; by rewrite Hn).
       rewrite Hv. split; [done|]. replace s with (set_o_table (o_table s) s) at 2 by by destruct s.
       apply step_to_table; [done| |lia]. unfold next_kept. rewrite Hd. cbn. rewrite Hn. by destruct s. }
  assert (n = name) as ->.
  { unfold once_name in Hon. rewrite Hname in Hon. by destruct (_ && _); simplify_eq. }
  destruct (kept !! name) as [k|] eqn:Hk.
  - destruct (Hkept name k Hk) as (ld & Hld & Hoffk). destruct (agrees_at s k ld Ha Hld) as (ld' & Hld' & Hcorek).
    assert (replaces info d' ld' = replaces info d ld) as Hr.
    { rewrite <- replaces_core, Hcore, Hcorek. apply replaces_core. }
    assert (offered info k ld') as Hoffk' by by rewrite <- offered_core, Hcorek, offered_core.
    eapply already_linked_again; [done..|]. intros h t He Hb.
    assert (verdict kept x = if replaces info d ld then None else Some k) as Hv.
    { unfold verdict. rewrite Hd. cbn. rewrite Hn. cbn. rewrite Hk. cbn. by rewrite Hld. }
    assert (((fun k => [k]) <$> kept) !! name = Some [k]) as Hc by by rewrite lookup_fmap, Hk.
    assert (next_kept kept x = if replaces info d ld then <[name := x]> kept else kept) as Hnext.
    { unfold next_kept. rewrite Hd. cbn. rewrite Hn, Hv. by destruct (replaces info d ld). }
    destruct (replaces info d ld) eqn:Hrep.
    + eapply run_mono; [by eapply (handle_replaces info _ name x d' h 0 [k] k ld'); try apply Hoff'; try apply Hoffk'|].
      intros r s' (t' & -> & -> & He' & Hb'). rewrite Hv. split; [done|].
      apply (step_to_table kept x s t'); [done| |cbn in Hb'; lia].
      rewrite Hnext. unfold once_inv. rewrite fmap_insert. by eapply entry_of_inv.
    + apply (handle_discards info x d' h 0 [k] k ld'); [done..|by rewrite (entry_of_chain _ _ _ _ He)|done|by rewrite Hr|].
      unfold step_to. rewrite Hv, Hnext. split; [done|]. unfold discarded. cbn.
      split_and!.
      * apply (table_inv_same (set_o_table t s)); [done|by eapply entry_of_inv].
      * lia.
      * intros y. rewrite sec_at_put by by eexists. case_decide; [subst y; by rewrite Hd'|done].
      * intros y. case_decide; [subst y; by rewrite lookup_insert_eq|by rewrite lookup_insert_ne].
      * rewrite Hd, Hld. f_equal. by rewrite <- complaint_core, Hcore, Hcorek, complaint_core.
  - eapply run_mono; [by eapply already_linked_first|]. intros r s' (t & -> & -> & Hinv' & Hb).
    assert (verdict kept x = None) as Hv by (unfold verdict; rewrite Hd; cbn; rewrite Hn; cbn; by rewrite Hk).
    rewrite Hv. split; [done|]. apply step_to_table; [done| |lia].
    unfold next_kept. rewrite Hd. cbn. by rewrite Hn, Hv.
Qed.

(** ** All sections *)

Record linked kept secs s s' : Prop := {
  ln_table : once_inv s' (foldl next_kept kept secs);
  ln_sections : forall i x v, secs !! i = Some x -> settle kept secs !! i = Some v ->
    sec_at (o_secs s') x = settled v <$> sec_at (o_secs s) x /\
    o_kept s' !! x = match v with Some k => Some k | None => o_kept s !! x end;
  ln_others : forall y, y ∉ secs -> sec_at (o_secs s') y = sec_at (o_secs s) y /\ o_kept s' !! y = o_kept s !! y;
  ln_events : o_events s' = reverse (reports kept secs) ++ o_events s
}.

Lemma reports_of_single x v : reverse (reports_of x v) = reports_of x v.
Proof. destruct v as [k|]; [|done]. cbn. unfold complaint. by repeat case_match. Qed.

Lemma agrees_step kept x s s' : agrees s -> step_to kept x s s' -> agrees s'.
Proof.
  intros Ha (_ & _ & Hs & _) y. rewrite Hs, <- Ha. case_decide; [|done].
  destruct (sec_at (o_secs s) y); [|done]. by destruct (verdict kept x).
Qed.

Lemma next_kept_known kept x :
  known x -> (forall name k, kept !! name = Some k -> known k) ->
  forall name k, next_kept kept x !! name = Some k -> known k.
Proof.
  intros Hx Hk name k. unfold next_kept. case_match; [|apply Hk]. case_match; [apply Hk|].
  rewrite lookup_insert_Some. intros [[_ <-]|[_ ?]]; [done|by eapply Hk].
Qed.

Lemma linked_cons kept x secs s s1 s' :
  x ∉ secs -> step_to kept x s s1 -> linked (next_kept kept x) secs s1 s' -> linked kept (x :: secs) s s'.
Proof.
  intros Hx (_ & _ & Hs & Hk & He) [L1 L2 L3 L4]. constructor; [done| | |].
  - intros [|i] y v Hy Hv; cbn in Hy, Hv.
    + injection Hy as ->. injection Hv as <-. destruct (L3 y Hx) as [-> ->]. rewrite Hs, Hk. by rewrite !decide_True.
    + destruct (L2 i y v Hy Hv) as [-> ->]. rewrite Hs, Hk.
      assert (y <> x) as Hyx by (intros ->; by apply list_elem_of_lookup_2 in Hy). by rewrite !decide_False.
  - intros y [Hyx Hy]%not_elem_of_cons. destruct (L3 y Hy) as [-> ->]. rewrite Hs, Hk. by rewrite !decide_False.
  - rewrite L4, He.
    change (reports kept (x :: secs)) with (reports_of x (verdict kept x) ++ reports (next_kept kept x) secs).
    rewrite reverse_app, reports_of_single. by rewrite app_assoc.
Qed.

Lemma link_sections_spec kept secs s :
  NoDup secs -> once_inv s kept -> Z.of_nat (ht_brk (o_table s)) + Z.of_nat (length secs) <= 2 ^ 28 -> agrees s ->
  Forall known secs -> (forall name k, kept !! name = Some k -> known k) ->
  runs (link_sections info secs) s (fun rs s' =>
    rs = (fun v => bool_decide (is_Some v)) <$> settle kept secs /\ linked kept secs s s').
Proof.
  intros Hnd. revert kept s. induction secs as [|x secs IH]; intros kept s Hinv Hb Ha Hknown Hk.
  - apply run_ret. split; [done|]. constructor; [done|by intros []|done|done].
  - apply NoDup_cons in Hnd as [Hx Hnd]. apply Forall_cons in Hknown as [Hxk Hknown]. cbn [length] in Hb.
    apply run_bind. eapply run_mono; [apply (already_linked_step kept); [done|lia|done..]|].
    intros r s1 [-> Hstep]. pose proof Hstep as (Hinv1 & Hb1 & _). apply run_bind.
    eapply run_mono; [apply (IH Hnd (next_kept kept x)); [done|lia|by eapply agrees_step|done|by apply next_kept_known]|].
    intros rs s' [-> Hl]. apply run_ret. split; [done|]. by eapply linked_cons.
Qed.

(** ** Without link-time optimisation the first section of a name is kept *)

Definition once_name_of x : option cstring := view x ≫= once_name.

(** The section that is kept under a name. *)
Definition keeper kept secs (name : cstring) : option asec :=
  match kept !! name with
  | Some k => Some k
  | None => head (filter (fun y => once_name_of y = Some name) secs)
  end.

Definition discarded_for kept secs x : option asec :=
  name ← once_name_of x; k ← keeper kept secs name; if decide (k = x) then None else Some k.

Definition no_lto secs : Prop :=
  forall x d owner, x ∈ secs -> view x = Some d -> s_owner d = Some owner -> oi_lto_output info owner = false.

Lemma verdict_no_lto kept x secs :
  no_lto secs -> x ∈ secs -> (forall name k, kept !! name = Some k -> known k) ->
  verdict kept x = name ← once_name_of x; kept !! name.
Proof.
  intros Hno Hx Hk. unfold verdict, once_name_of. destruct (view x) as [d|] eqn:Hd; [|done]. cbn.
  destruct (once_name d) as [name|]; [|done]. cbn. destruct (kept !! name) as [k|] eqn:E; [|done]. cbn.
  destruct (Hk name k E) as (ld & -> & _). cbn.
  assert (replaces info d ld = false) as ->; [|done]. unfold replaces. destruct (policy d); try done.
  destruct (s_owner d) as [owner|] eqn:Ho; [|done]. by rewrite (Hno x d owner).
Qed.

(** Offering [x] does not change who is kept in the end. *)
Lemma keeper_cons kept x secs name :
  verdict kept x = (name ← once_name_of x; kept !! name) ->
  keeper kept (x :: secs) name = keeper (next_kept kept x) secs name.
Proof.
  intros Hv. unfold keeper, next_kept. rewrite Hv. fold (once_name_of x). rewrite filter_cons.
  destruct (once_name_of x) as [n|]; cbn; [|by rewrite decide_False].
  destruct (kept !! n) as [k|] eqn:En.
  - destruct (kept !! name) eqn:E; [done|]. rewrite decide_False; [done|]. intros [= ->]. congruence.
  - destruct (decide (n = name)) as [->|Hn].
    + rewrite En, lookup_insert_eq, decide_True by done. done.
    + rewrite lookup_insert_ne by done. rewrite decide_False by congruence. done.
Qed.

Lemma settle_first kept secs i x :
  no_lto secs -> NoDup secs -> Forall known secs ->
  (forall name k, kept !! name = Some k -> known k /\ k ∉ secs) -> secs !! i = Some x ->
  settle kept secs !! i = Some (discarded_for kept secs x).
Proof.
  revert kept i. induction secs as [|a secs IH]; intros kept i Hno Hnd Hknown Hk Hi; [done|].
  apply NoDup_cons in Hnd as [Ha Hnd]. apply Forall_cons in Hknown as [Hak Hknown].
  assert (verdict kept a = name ← once_name_of a; kept !! name) as Hv.
  { eapply verdict_no_lto; [done|left|]. intros n k Hn. by apply (Hk n). }
  destruct i as [|i]; cbn in Hi |- *.
  - injection Hi as ->. rewrite Hv. unfold discarded_for, keeper.
    destruct (once_name_of x) as [name|] eqn:Hname; [|done]. unfold mbind, option_bind.
    rewrite filter_cons. destruct (kept !! name) as [k|] eqn:E; cbn.
    + rewrite decide_False; [done|]. intros ->. destruct (Hk name x E) as [_ Hn]. set_solver.
    + rewrite Hname, decide_True by done. cbn. by rewrite decide_True.
  - rewrite (IH (next_kept kept a)); try done.
    + unfold discarded_for. destruct (once_name_of x) as [name|]; [|done]. cbn. by rewrite (keeper_cons kept a secs name).
    + intros y d owner Hy. apply Hno. by right.
    + intros n k. unfold next_kept. fold (once_name_of a). case_match; [|intros Hn; destruct (Hk n k Hn); set_solver].
      case_match; [intros Hn; destruct (Hk n k Hn); set_solver|]. rewrite lookup_insert_Some.
      intros [[_ <-]|[_ Hn]]; [done|]. destruct (Hk n k Hn). set_solver.
Qed.
End main.

Lemma length_settle info view kept secs : length (settle info view kept secs) = length secs.
Proof. revert kept. induction secs as [|x secs IH]; intros kept; cbn; [done|]. by rewrite IH. Qed.

(** A fresh table has no names. *)
Lemma table_init_once ok entsize t ss kept events :
  bfd_section_already_linked_table_init ok [] entsize = Some t ->
  once_inv (mkOstate t ss kept events) ∅ /\ ht_brk t = 0%nat.
Proof.
  intros Hinit. assert (ht_brk t = 0%nat /\ ht_oracle t = []) as [Hb Ho].
  { unfold bfd_section_already_linked_table_init, bfd_hash_table_init_n in Hinit.
    destruct ok; [|done]. by injection Hinit as <-. }
  apply hash_init_represents in Hinit as [Hrep Hsize]; [|lia]. split; [|done]. constructor; cbn; [|red; lia|done].
  exists ∅. split; [done|]. intros name. by rewrite lookup_fmap, !lookup_empty.
Qed.

(** Offering sections to the table of linked ones ends with a verdict on
    each, as on a map from names to the sections kept: a section that is not
    linked once, and the first one of a name, are kept and nothing about them
    changes; a later one is discarded (its output section is the absolute one,
    its kept section the one of the table) with the report its policy asks for,
    unless it is the output of link-time optimisation and replaces the section of
    a plugin.  No other section changes.  Without link-time optimisation exactly
    the first section of each name is kept, and every other is discarded for
    it. *)
Theorem link_once_correct info kept secs s :
  let view := sec_at (o_secs s) in
  NoDup secs -> once_inv s kept -> Z.of_nat (ht_brk (o_table s)) + Z.of_nat (length secs) <= 2 ^ 28 ->
  Forall (known info view) secs ->
  (forall name k, kept !! name = Some k -> known info view k /\ k ∉ secs) ->
  runs (link_sections info secs) s (fun rs s' =>
    rs = (fun v => bool_decide (is_Some v)) <$> settle info view kept secs /\
    linked info view kept secs s s' /\
    (no_lto info view secs -> settle info view kept secs = discarded_for view kept secs <$> secs)).
Proof.
  intros view Hnd Hinv Hb Hknown Hk.
  eapply run_mono; [apply (link_sections_spec info view kept); try done|].
  - intros name k Hn. by apply (Hk name).
  - intros rs s' [-> Hl]. split_and!; [done..|]. intros Hno. apply list_eq. intros i. rewrite list_lookup_fmap.
    destruct (secs !! i) as [x|] eqn:Hi; [by apply settle_first|].
    apply lookup_ge_None in Hi. cbn. apply lookup_ge_None. by rewrite length_settle.
Qed.

(** ** Two objects with the same inline function, and a plugin's stand-in *)

Definition sample_section (flags size : Z) (owner : ptr) : asection :=
  mkAsection (Some (c_str ".text.f")) 0 0 (Some owner) None None flags size 0 0 None.

Definition sample_bfd (b : ptr) (flags size : Z) : bfd :=
  mkBfd (mkHashTable [] {[0%nat := mkHashEntry None (c_str ".text.f") 0 (sample_section flags size b)]} 1 [] 1 1 8 false)
    None None 1 false None.

Definition sample_ss : sstate :=
  mkSstate {[0%nat := sample_bfd 0 (SEC_LINK_ONCE .| SEC_LINK_DUPLICATES_SAME_SIZE) 16;
             1%nat := sample_bfd 1 (SEC_LINK_ONCE .| SEC_LINK_DUPLICATES_SAME_SIZE) 24;
             2%nat := sample_bfd 2 (SEC_LINK_ONCE .| SEC_LINK_DUPLICATES_DISCARD) 24]} [] 0 0 [] None.

Definition sample_state : ostate :=
  match bfd_section_already_linked_table_init true [] 40 with
  | Some t => mkOstate t sample_ss ∅ []
  | None => mkOstate (mkHashTable [] ∅ 0 [] 0 0 0 false) sample_ss ∅ []
  end.

(** BFD 0 comes from a plugin and BFD 2 is what it was compiled to. *)
Definition sample_info (lto : bool) : once_info :=
  mkOnceInfo (fun b => lto && (b =? 2)%nat) (fun b => lto && (b =? 0)%nat) (fun _ => None).

Definition sample_run (lto : bool) (bs : list ptr) : option (list bool * list once_event) :=
  match link_sections (sample_info lto) ((fun b => Own b 0) <$> bs) sample_state with
  | Done (rs, s) => Some (rs, o_events s)
  | _ => None
  end.

Example plain_duplicates : sample_run false [0; 1; 2]%nat = Some ([false; true; true], [E_different_size (Own 1 0)]).
Proof. by vm_compute. Qed.

(** The compiled section replaces the plugin's, and both stay. *)
Example lto_replaces : sample_run true [0; 2; 1]%nat = Some ([false; false; true], []).
Proof. by vm_compute. Qed.

Lemma sample_inv : once_inv sample_state ∅ /\ ht_brk (o_table sample_state) = 0%nat.
Proof.
  unfold sample_state. destruct (bfd_section_already_linked_table_init true [] 40) as [t|] eqn:E; [|by vm_compute in E].
  by eapply table_init_once.
Qed.

Lemma sample_known b : (b < 3)%nat -> known (sample_info false) (sec_at (o_secs sample_state)) (Own b 0).
Proof.
  intros Hb. destruct b as [|[|[|b]]]; [..|lia]; (eexists; split; [by vm_compute|]); constructor; by try eexists.
Qed.

Lemma link_once_correct_witness :
  let secs := (fun b => Own b 0) <$> [0; 1; 2]%nat in
  let view := sec_at (o_secs sample_state) in
  runs (link_sections (sample_info false) secs) sample_state (fun rs s' =>
    rs = (fun v => bool_decide (is_Some v)) <$> settle (sample_info false) view ∅ secs /\
    linked (sample_info false) view ∅ secs sample_state s' /\
    (no_lto (sample_info false) view secs ->
     settle (sample_info false) view ∅ secs = discarded_for view ∅ secs <$> secs)).
Proof.
  destruct sample_inv as [Hinv Hb].
  apply (link_once_correct (sample_info false) ∅ ((fun b => Own b 0) <$> [0; 1; 2]%nat) sample_state).
  - repeat constructor; set_solver.
  - exact Hinv.
  - rewrite Hb. done.
  - repeat constructor; apply sample_known; lia.
  - intros name k H. by rewrite lookup_empty in H.
Defined.
