(* ===== verification/Decimal.v ===== *)
(** Strings of C, and numbers as text: what printf writes for %ld, %lo, PRIu64 and
    PRIx64, what strtol, atoi and sscanf read, and that reading undoes printing. *)

From S2P Require Import Prelude.

(** ** Strings *)

(** The C string at the front of the bytes. *)
Fixpoint until_nul (l : list Z) : list Z :=
  match l with
  | [] => []
  | c :: l => if c =? 0 then [] else c :: until_nul l
  end.

Lemma until_nul_none l : 0 ∉ l -> until_nul l = l.
Proof.
  induction l as [|c l IH]; intros Hl; [done|]. cbn. apply not_elem_of_cons in Hl as [Hc Hl].
  replace (c =? 0) with false by lia. by rewrite IH.
Qed.

Lemma until_nul_app l rest : 0 ∉ l -> until_nul (l ++ 0 :: rest) = l.
Proof.
  induction l as [|c l IH]; intros Hl; [done|]. cbn. apply not_elem_of_cons in Hl as [Hc Hl].
  replace (c =? 0) with false by lia. by rewrite IH.
Qed.

(** ** Printing *)

Fixpoint digits (fuel : nat) (base n : Z) : list Z :=
  match fuel with
  | O => []
  | S fuel => if n <? base then [48 + n] else digits fuel base (n / base) ++ [48 + n mod base]
  end.

(** A number has no more digits than bits. *)
Definition print_unsigned (base n : Z) : list Z := digits (S (Z.to_nat (Z.log2 n))) base n.

Definition printf_ld (n : Z) : list Z := if n <? 0 then 45 :: print_unsigned 10 (- n) else print_unsigned 10 n.
Definition printf_lo (n : Z) : list Z := print_unsigned 8 (u64 n).

(** PRIx64: lower-case digits. *)
Definition xdigit (d : Z) : Z := if d <? 10 then 48 + d else 87 + d.

Fixpoint xdigits (fuel : nat) (n : Z) : list Z :=
  match fuel with
  | O => []
  | S fuel => if n <? 16 then [xdigit n] else xdigits fuel (n / 16) ++ [xdigit (n mod 16)]
  end.

Definition printf_lx (n : Z) : list Z := xdigits (S (Z.to_nat (Z.log2 n))) n.

(** A field of width [w] with the text at its left, as in "%-8lo". *)
Definition left_justified (w : nat) (text : list Z) : list Z := text ++ replicate (w - length text) 32.

(** ** Reading *)

Definition isspace (c : Z) : bool := (c =? 32) || ((9 <=? c) && (c <=? 13)).
Definition isdigit (c : Z) : bool := (48 <=? c) && (c <=? 57).

Fixpoint skip_spaces (l : list Z) : list Z :=
  match l with
  | c :: l' => if isspace c then skip_spaces l' else l
  | [] => []
  end.

(** The digits at the front of [l] continue the number [acc]. *)
Fixpoint read_digits (acc : Z) (l : list Z) : Z * list Z :=
  match l with
  | c :: l' => if isdigit c then read_digits (acc * 10 + (c - 48)) l' else (acc, l)
  | [] => (acc, [])
  end.

(** An optional sign: whether it is a minus, and what follows. *)
Definition read_sign (l : list Z) : bool * list Z :=
  match l with
  | 45 :: l' => (true, l')
  | 43 :: l' => (false, l')
  | _ => (false, l)
  end.

(** The number at the front of the text, without bounds, and the rest of the
    text; [None] when there is no digit. *)
Definition read_number (l : list Z) : option (Z * list Z) :=
  let '(minus, l) := read_sign (skip_spaces l) in
  match l with
  | c :: _ =>
      if isdigit c then let '(n, l) := read_digits 0 l in Some (if minus then - n else n, l) else None
  | [] => None
  end.

Definition LONG_MAX : Z := 2 ^ 63 - 1.
Definition LONG_MIN : Z := - 2 ^ 63.

(** [strtol (l, &end, 10)]: the value, where it ends, and whether errno is set
    to ERANGE. *)
Definition strtol (l : list Z) : Z * list Z * bool :=
  match read_number l with
  | None => (0, l, false)
  | Some (n, rest) =>
      if LONG_MAX <? n then (LONG_MAX, rest, true)
      else if n <? LONG_MIN then (LONG_MIN, rest, true)
      else (n, rest, false)
  end.

(** [atoi]: undefined when the number is not an int. *)
Definition atoi (l : list Z) : option Z :=
  let n := match read_number l with Some (n, _) => n | None => 0 end in
  if (- 2 ^ 31 <=? n) && (n <? 2 ^ 31) then Some n else None.

(** [sscanf (l, "%" SCNu64, &v)]: the value when one is read.  Like strtoull,
    it negates what follows a minus, and takes the largest number for one that
    does not fit. *)
Definition sscanf_u64 (l : list Z) : option Z :=
  let '(minus, l) := read_sign (skip_spaces l) in
  match l with
  | c :: _ =>
      if isdigit c then
        let n := fst (read_digits 0 l) in
        Some (if UINT64_MAX <? n then UINT64_MAX else if minus then u64 (- n) else n)
      else None
  | [] => None
  end.

(** ** Reading what was printed *)

Definition no_digit_first (l : list Z) : Prop :=
  match l with c :: _ => isdigit c = false | [] => True end.

Lemma isdigit_spec c : isdigit c = true <-> 48 <= c <= 57.
Proof. unfold isdigit. lia. Qed.

Lemma div_fuel fuel base n :
  2 <= base -> 0 <= n < 2 ^ Z.of_nat (S fuel) -> 0 <= n / base < 2 ^ Z.of_nat fuel.
Proof.
  intros Hb Hn. rewrite Nat2Z.inj_succ, Z.pow_succ_r in Hn by lia. split; [apply Z.div_pos; lia|].
  apply Z.div_lt_upper_bound; [lia|]. nia.
Qed.

Lemma digits_range fuel base n :
  2 <= base <= 10 -> 0 <= n -> Forall (fun c => 48 <= c < 48 + base) (digits fuel base n).
Proof.
  intros Hb. revert n. induction fuel as [|fuel IH]; intros n Hn; cbn [digits]; [constructor|].
  destruct (Z.ltb_spec n base).
  - repeat constructor; lia.
  - apply Forall_app. split; [apply IH, Z.div_pos; lia|]. repeat constructor;
    pose proof (Z.mod_pos_bound n base); lia.
Qed.

Lemma print_range base n :
  2 <= base <= 10 -> 0 <= n -> Forall (fun c => 48 <= c < 48 + base) (print_unsigned base n).
Proof. apply digits_range. Qed.

Lemma read_digits_app l rest acc :
  Forall (fun c => 48 <= c < 58) l -> no_digit_first rest ->
  read_digits acc (l ++ rest) = (fst (read_digits acc l), rest).
Proof.
  intros Hl Hrest. revert acc. induction Hl as [|c l Hc Hl IH]; intros acc; cbn [app read_digits].
  - destruct rest as [|c rest]; [done|]. cbn in Hrest |- *. by rewrite Hrest.
  - replace (isdigit c) with true by (symmetry; apply isdigit_spec; lia). apply IH.
Qed.

Lemma read_digits_snoc l c acc :
  Forall (fun c => 48 <= c < 58) l -> 48 <= c < 58 ->
  fst (read_digits acc (l ++ [c])) = fst (read_digits acc l) * 10 + (c - 48).
Proof.
  intros Hl Hc. revert acc. assert (isdigit c = true) as Hd by (apply isdigit_spec; lia).
  induction Hl as [|d l Hd' Hl IH]; intros acc; cbn [app read_digits].
  - by rewrite Hd.
  - replace (isdigit d) with true by (symmetry; apply isdigit_spec; lia). apply IH.
Qed.

Lemma read_digits_print fuel n :
  0 <= n < 2 ^ Z.of_nat fuel -> fst (read_digits 0 (digits fuel 10 n)) = n.
Proof.
  revert n. induction fuel as [|fuel IH]; intros n Hn; cbn [digits].
  - cbn in *. lia.
  - destruct (Z.ltb_spec n 10).
    + cbn [read_digits]. replace (isdigit (48 + n)) with true by (symmetry; apply isdigit_spec; lia). cbn. lia.
    + pose proof (Z.mod_pos_bound n 10 ltac:(lia)).
      rewrite read_digits_snoc; [|apply (digits_range fuel 10); [lia|apply Z.div_pos; lia] |lia].
      rewrite IH by (apply div_fuel; lia). pose proof (Z.div_mod n 10). lia.
Qed.

Lemma log2_fuel n : 0 <= n -> 0 <= n < 2 ^ Z.of_nat (S (Z.to_nat (Z.log2 n))).
Proof.
  intros Hn. split; [done|]. pose proof (Z.log2_nonneg n).
  rewrite Nat2Z.inj_succ, Z2Nat.id by lia. destruct (Z.eq_dec n 0) as [->|]; [done|].
  apply Z.log2_spec. lia.
Qed.

(** The first character of a printed number is a digit. *)
Lemma print_first base n :
  2 <= base <= 10 -> 0 <= n -> exists c l, print_unsigned base n = c :: l /\ 48 <= c < 48 + base.
Proof.
  intros Hb Hn. pose proof (print_range base n Hb Hn) as H.
  destruct (print_unsigned base n) as [|c l] eqn:E.
  - unfold print_unsigned in E. cbn [digits] in E. destruct (n <? base); [done|].
    by apply app_eq_nil in E as [_ ?].
  - apply Forall_cons in H as [Hc _]. by exists c, l.
Qed.

Lemma read_print n rest :
  0 <= n -> no_digit_first rest -> read_digits 0 (print_unsigned 10 n ++ rest) = (n, rest).
Proof.
  intros Hn Hrest. rewrite read_digits_app; [|by apply (print_range 10)|done].
  unfold print_unsigned. rewrite read_digits_print; [done|by apply log2_fuel].
Qed.

(** A text that starts with a digit starts with neither a space nor a sign. *)
Lemma read_sign_digit c l : 48 <= c < 58 -> read_sign (skip_spaces (c :: l)) = (false, c :: l).
Proof.
  intros Hc. cbn [skip_spaces]. replace (isspace c) with false by (unfold isspace; lia).
  unfold read_sign. assert (c <> 45 /\ c <> 43) as [H1 H2] by lia.
  destruct c as [|p|p]; [done| |done]. repeat (destruct p as [p|p|]; try done; try lia).
Qed.

Lemma sscanf_print n rest :
  fits 64 n -> no_digit_first rest -> sscanf_u64 (print_unsigned 10 n ++ rest) = Some n.
Proof.
  intros [Hn Hmax] Hrest. destruct (print_first 10 n ltac:(lia) Hn) as (c & l & E & Hc).
  pose proof (read_print n rest Hn Hrest) as Hr. rewrite E in *. cbn [app] in *.
  unfold sscanf_u64. rewrite read_sign_digit by lia.
  replace (isdigit c) with true by (symmetry; apply isdigit_spec; lia). rewrite Hr. cbn [fst].
  f_equal. unfold UINT64_MAX. case_match; [lia|done].
Qed.

Lemma strtol_print n rest :
  0 <= n <= LONG_MAX -> no_digit_first rest -> strtol (print_unsigned 10 n ++ rest) = (n, rest, false).
Proof.
  intros [Hn Hmax] Hrest. destruct (print_first 10 n ltac:(lia) Hn) as (c & l & E & Hc).
  pose proof (read_print n rest Hn Hrest) as Hr. rewrite E in *. cbn [app] in *.
  unfold strtol, read_number. rewrite read_sign_digit by lia.
  replace (isdigit c) with true by (symmetry; apply isdigit_spec; lia). rewrite Hr.
  unfold LONG_MAX, LONG_MIN in *. by repeat (case_match; try lia).
Qed.

(** ** Lengths *)

Lemma digits_length fuel base n k :
  2 <= base -> 0 <= n < base ^ Z.of_nat k -> (0 < k)%nat -> (length (digits fuel base n) <= k)%nat.
Proof.
  intros Hb. revert fuel n. induction k as [|k IH]; intros fuel n Hn Hk; [lia|].
  destruct fuel as [|fuel]; cbn [digits]; [cbn; lia|]. destruct (Z.ltb_spec n base); [cbn; lia|].
  rewrite length_app. cbn [length]. destruct k as [|k].
  - cbn in Hn. lia.
  - rewrite Nat2Z.inj_succ, Z.pow_succ_r in Hn by lia.
    enough (length (digits fuel base (n / base)) <= S k)%nat by lia. apply IH; [|lia].
    split; [apply Z.div_pos; lia|]. apply Z.div_lt_upper_bound; lia.
Qed.

Lemma print_length base n k :
  2 <= base -> 0 <= n < base ^ Z.of_nat k -> (0 < k)%nat -> (length (print_unsigned base n) <= k)%nat.
Proof. apply digits_length. Qed.

Lemma printf_ld_nonneg n : 0 <= n -> printf_ld n = print_unsigned 10 n.
Proof. intros Hn. unfold printf_ld. case_match; [lia|done]. Qed.

Lemma left_justified_length w text : length (left_justified w text) = (w `max` length text)%nat.
Proof. unfold left_justified. rewrite length_app, length_replicate. lia. Qed.
