(* ===== verification/Archive.v ===== *)
(** Archives: archive.c's reading of an archive's symbol table, its table of
    long names and its members (with the 64-bit symbol table of archive64.c).

    An archive is the bytes of its file; a position in it is passed on and
    returned.  The magic strings and the member header of <aout/ar.h>, which the
    repository does not have, are the class [ArchiveFormat].  Memory allocation
    is taken to succeed.  The members of a thin archive are other files and not
    modelled. *)

From S2P Require Import Prelude HashTable BfdSection Endian Decimal LinkerFiles.

(** What is used of <aout/ar.h>: the magic strings, and the sizes of the fields
    of [struct ar_hdr] but for the name, which the code takes to have 16
    characters. *)
Class ArchiveFormat := {
  ARMAG : list Z;
  ARMAGT : list Z;
  ARFMAG : list Z;
  RANLIBMAG : list Z;
  ARMAP_TIME_OFFSET : Z;
  date_size : nat;
  uid_size : nat;
  gid_size : nat;
  mode_size : nat;
  size_size : nat;
  ARMAG_even : Nat.Even (length ARMAG);
  ARMAGT_length : length ARMAGT = length ARMAG;
  ARMAGT_other : ARMAGT <> ARMAG;
  ARMAG_string : 0 ∉ ARMAG;
  ARMAGT_string : 0 ∉ ARMAGT;
  ARFMAG_newline : ARFMAG = [96; 10];
  size_size_large : (10 <= size_size)%nat;
  ar_hdr_even : Nat.Even (date_size + uid_size + gid_size + mode_size + size_size)
}.

(** The format of ar(5). *)
Definition ar_format : ArchiveFormat.
Proof.
  refine {| ARMAG := c_str "!<arch>" ++ [10]; ARMAGT := c_str "!<thin>" ++ [10]; ARFMAG := [96; 10];
            RANLIBMAG := c_str "__.SYMDEF"; ARMAP_TIME_OFFSET := 60; date_size := 12; uid_size := 6; gid_size := 6;
            mode_size := 8; size_size := 10 |}; try done; try lia.
  - by exists 4%nat.
  - apply (bool_decide_unpack _). by vm_compute.
  - apply (bool_decide_unpack _). by vm_compute.
  - by exists 21%nat.
Defined.

Definition name_size : nat := 16.

(** [struct ar_hdr]; its bytes are those of the fields, in this order. *)
Record ar_hdr := mkArHdr {
  h_name : list Z;
  h_date : list Z;
  h_uid : list Z;
  h_gid : list Z;
  h_mode : list Z;
  h_size : list Z;
  h_fmag : list Z
}.

Definition hdr_bytes (h : ar_hdr) : list Z :=
  h_name h ++ h_date h ++ h_uid h ++ h_gid h ++ h_mode h ++ h_size h ++ h_fmag h.

Definition set_h_name (v : list Z) (h : ar_hdr) : ar_hdr :=
  mkArHdr v (h_date h) (h_uid h) (h_gid h) (h_mode h) (h_size h) (h_fmag h).
Definition set_h_date (v : list Z) (h : ar_hdr) : ar_hdr :=
  mkArHdr (h_name h) v (h_uid h) (h_gid h) (h_mode h) (h_size h) (h_fmag h).
Definition set_h_size (v : list Z) (h : ar_hdr) : ar_hdr :=
  mkArHdr (h_name h) (h_date h) (h_uid h) (h_gid h) (h_mode h) v (h_fmag h).

(** [struct areltdata], but for its place in the cache of the archive. *)
Record areltdata := mkAreltdata {
  arch_header : ar_hdr;
  parsed_size : Z;
  extra_size : Z;
  ad_filename : cstring;
  ad_origin : Z
}.

Inductive ar_error :=
| no_more_archived_files
| malformed_archive
| wrong_format
| wrong_object_format
| file_truncated
| file_too_big
| invalid_operation
| no_memory
| system_call
| short_read.

Abbreviation AR := (outcome ar_error).

(** A BFD that was opened for a member. *)
Record opened := mkOpened {
  o_proxy_origin : Z;
  o_filename : cstring;
  o_arelt : areltdata
}.

(** [struct artdata] of an archive that is read, with [has_armap] and
    [is_thin_archive] of its BFD. *)
Record artdata := mkArtdata {
  first_file_filepos : Z;
  cache : gmap Z opened;
  symdefs : list carsym;
  extended_names : option (list Z);
  extended_names_size : Z;
  has_armap : bool;
  is_thin_archive : bool
}.

Definition set_first_file_filepos (v : Z) (a : artdata) : artdata :=
  mkArtdata v (cache a) (symdefs a) (extended_names a) (extended_names_size a) (has_armap a) (is_thin_archive a).
Definition set_cache (v : gmap Z opened) (a : artdata) : artdata :=
  mkArtdata (first_file_filepos a) v (symdefs a) (extended_names a) (extended_names_size a) (has_armap a)
    (is_thin_archive a).
Definition set_armap (syms : list carsym) (filepos : Z) (a : artdata) : artdata :=
  mkArtdata filepos (cache a) syms (extended_names a) (extended_names_size a) true (is_thin_archive a).
Definition no_armap (a : artdata) : artdata :=
  mkArtdata (first_file_filepos a) (cache a) (symdefs a) (extended_names a) (extended_names_size a) false
    (is_thin_archive a).
Definition clear_symdefs (a : artdata) : artdata :=
  mkArtdata (first_file_filepos a) (cache a) [] (extended_names a) (extended_names_size a) (has_armap a)
    (is_thin_archive a).
Definition set_extended_names (v : option (list Z)) (size : Z) (a : artdata) : artdata :=
  mkArtdata (first_file_filepos a) (cache a) (symdefs a) v size (has_armap a) (is_thin_archive a).

(** The index of the first [c] among the bytes: [memchr]. *)
Fixpoint memchr (l : list Z) (c : Z) : option nat :=
  match l with
  | [] => None
  | d :: l => if d =? c then Some O else S <$> memchr l c
  end.

(** [strncmp (a, b, n) == 0] *)
Definition strncmp_eq (n : nat) (a b : list Z) : bool := bool_decide (until_nul (take n a) = until_nul (take n b)).

(** Up to [n] bytes of the file at [pos]: what [bfd_read] stores. *)
Definition sub_bytes (file : list Z) (pos n : Z) : list Z :=
  let len := Z.of_nat (length file) in
  take (Z.to_nat (Z.min n len)) (drop (Z.to_nat (Z.min pos len)) file).

(** The bytes [bfd_read] must deliver, and the position after them. *)
Definition read_all (file : list Z) (pos n : Z) (e : ar_error) : AR (list Z * Z) :=
  let bs := sub_bytes file pos n in
  if Z.of_nat (length bs) =? n then Ret (bs, pos + n) else Fail e.

(** [bfd_get_file_size]: zero when the size is not known. *)
Definition bfd_get_file_size (file : list Z) : Z := Z.of_nat (length file).

(** [_bfd_alloc_and_read] *)
Definition alloc_and_read (file : list Z) (pos rsize : Z) : AR (list Z * Z) :=
  let filesize := bfd_get_file_size file in
  if negb (filesize =? 0) && (filesize <? rsize) then Fail file_truncated
  else read_all file pos rsize file_truncated.

Definition sizeof_areltdata : Z := 56.

Section archive.
Context `{ArchiveFormat}.

Definition sizeof_ar_hdr : nat := name_size + (date_size + uid_size + gid_size + mode_size + size_size) + 2.
Definition SARMAG : nat := length ARMAG.

Definition hdr_of_bytes (bs : list Z) : ar_hdr :=
  let field skip n := take n (drop skip bs) in
  let date := name_size in
  let uid := (date + date_size)%nat in
  let gid := (uid + uid_size)%nat in
  let mode := (gid + gid_size)%nat in
  let size := (mode + mode_size)%nat in
  let fmag := (size + size_size)%nat in
  mkArHdr (field 0%nat name_size) (field date date_size) (field uid uid_size) (field gid gid_size)
    (field mode mode_size) (field size size_size) (field fmag 2%nat).

(** ** What a target says of its archives *)

(** The groups of functions of libbfd.h: BFD_JUMP_TABLE_ARCHIVE of
    _bfd_archive_coff, _bfd_archive_bsd, _bfd_archive_bsd44 or
    _bfd_archive_64_bit. *)
Inductive archive_style := style_coff | style_bsd | style_bsd44 | style_64_bit.

(** [ar_max_namelen] is 15 or 16 in the targets: at most the size of the name field. *)
Record ar_target := mkTarget {
  ar_pad_char : Z;
  ar_max_namelen : nat;
  header_big_endian : bool;
  ar_mag : option (list Z);
  ar_style : archive_style;
  BFD64 : bool
}.

Context (xvec : ar_target).

Definition H_GET_32 (bs : list Z) : AR Z :=
  of_opt (if header_big_endian xvec then bfd_getb32 bs else bfd_getl32 bs).

(** ** Member headers *)

Definition is_bsd44_extended_name (name : list Z) : bool :=
  bool_decide (take 3 name = c_str "#1/") && match name !! 3%nat with Some c => isdigit c | None => false end.

(** [name] is what follows from the name field on. *)
Definition get_extended_arelt_filename (arch : artdata) (name : list Z) : AR (cstring * Z) :=
  let '(index, endp, range) := strtol (drop 1 name) in
  let table_index := u64 index in
  if range || (extended_names_size arch <=? table_index) then Fail malformed_archive
  else
    originp ← (match endp with
               | 58 :: rest =>
                   if is_thin_archive arch then
                     let '(origin, _, range) := strtol rest in
                     if (range : bool) then Fail malformed_archive else Ret origin
                   else Ret 0
               | _ => Ret 0
               end : AR Z);
    names ← of_opt (extended_names arch);
    Ret (until_nul (drop (Z.to_nat table_index) names), originp).

(** Where the name in a header ends. *)
Definition name_length (hdr : ar_hdr) : nat :=
  let field := take (ar_max_namelen xvec) (hdr_bytes hdr) in
  match memchr field 0 with
  | Some e => e
  | None =>
      match memchr field 47 with
      | Some e => e
      | None =>
          match memchr field 32 with
          | Some e => e
          | None => ar_max_namelen xvec
          end
      end
  end.

(** The header at [pos], and the position after it. *)
Definition _bfd_generic_read_ar_hdr_mag (abfd : artdata) (file : list Z) (pos : Z) (mag : option (list Z))
  : AR (areltdata * Z) :=
  '(bs, pos) ← read_all file pos (Z.of_nat sizeof_ar_hdr) no_more_archived_files;
  let hdr := hdr_of_bytes bs in
  if negb (strncmp_eq 2 (h_fmag hdr) ARFMAG)
     && (match mag with None => true | Some mag => negb (strncmp_eq 2 (h_fmag hdr) mag) end)
  then Fail malformed_archive
  else
    match sscanf_u64 (until_nul (h_size hdr)) with
    | None => Fail malformed_archive
    | Some size =>
        let first := nth 0 (h_name hdr) 0 in
        if ((first =? 47)
            || ((first =? 32) && bool_decide (memchr (take (ar_max_namelen xvec) (hdr_bytes hdr)) 47 = None)))
           && negb (bool_decide (extended_names abfd = None))
        then
          '(filename, origin) ← get_extended_arelt_filename abfd (hdr_bytes hdr);
          Ret (mkAreltdata hdr size 0 filename origin, pos)
        else if is_bsd44_extended_name (h_name hdr) then
          namelen ← of_opt (atoi (drop 3 (hdr_bytes hdr)));
          let namelen := u64 namelen in
          let filesize := bfd_get_file_size file in
          if (size <? namelen)
             || (u64 (- (sizeof_areltdata + Z.of_nat sizeof_ar_hdr) - 2) <? namelen)
             || (negb (filesize =? 0) && (filesize <? namelen))
          then Fail malformed_archive
          else
            '(name, pos) ← read_all file pos namelen no_more_archived_files;
            Ret (mkAreltdata hdr (size - namelen) namelen (until_nul name) 0, pos)
        else
          Ret (mkAreltdata hdr size 0 (until_nul (take (name_length hdr) (hdr_bytes hdr))) 0, pos)
    end.

Definition _bfd_generic_read_ar_hdr (abfd : artdata) (file : list Z) (pos : Z) : AR (areltdata * Z) :=
  _bfd_generic_read_ar_hdr_mag abfd file pos None.

(** The target's reader of headers. *)
Definition _bfd_read_ar_hdr (abfd : artdata) (file : list Z) (pos : Z) : AR (areltdata * Z) :=
  _bfd_generic_read_ar_hdr_mag abfd file pos (ar_mag xvec).

(** ** Symbol tables *)

Definition BSD_SYMDEF_SIZE : Z := 8.
Definition BSD_SYMDEF_OFFSET_SIZE : Z := 4.
Definition BSD_SYMDEF_COUNT_SIZE : Z := 4.
Definition BSD_STRING_COUNT_SIZE : Z := 4.

Definition pad_even (pos : Z) : Z := pos + pos mod 2.

(** A name starts at [nameoff]: it is undefined when its end is not in the
    buffer. *)
Definition string_at (bs : list Z) (nameoff : Z) : AR cstring :=
  let l := drop (Z.to_nat nameoff) bs in
  if bool_decide (memchr l 0 = None) then Undef else Ret (until_nul l).

Fixpoint bsd_symdefs (count : nat) (rbase strings : list Z) (string_size : Z) : AR (list carsym) :=
  match count with
  | O => Ret []
  | S count =>
      nameoff ← H_GET_32 rbase;
      if string_size <=? nameoff then Fail malformed_archive
      else
        name ← string_at strings nameoff;
        file_offset ← H_GET_32 (drop (Z.to_nat BSD_SYMDEF_OFFSET_SIZE) rbase);
        rest ← bsd_symdefs count (drop (Z.to_nat BSD_SYMDEF_SIZE) rbase) strings string_size;
        Ret (mkCarsym (Some name) file_offset :: rest)
  end.

Definition do_slurp_bsd_armap (ardata : artdata) (file : list Z) (pos : Z) : AR artdata :=
  '(mapdata, pos) ← _bfd_read_ar_hdr ardata file pos;
  let size := parsed_size mapdata in
  if size <? BSD_SYMDEF_COUNT_SIZE + BSD_STRING_COUNT_SIZE then Fail malformed_archive
  else
    '(raw_armap, pos) ← alloc_and_read file pos size;
    let size := size - (BSD_SYMDEF_COUNT_SIZE + BSD_STRING_COUNT_SIZE) in
    amt ← H_GET_32 raw_armap;
    if (size <? amt) || negb (amt mod BSD_SYMDEF_SIZE =? 0) then Fail wrong_format
    else
      let rbase := drop (Z.to_nat BSD_SYMDEF_COUNT_SIZE) raw_armap in
      let stringbase := drop (Z.to_nat (amt + BSD_STRING_COUNT_SIZE)) rbase in
      syms ← bsd_symdefs (Z.to_nat (amt / BSD_SYMDEF_SIZE)) rbase stringbase (size - amt);
      Ret (set_armap syms (pad_even pos) ardata).

(** The loop that builds the carsyms of a COFF armap, whose entries have [get]
    and [width] bytes: [strings] is [stringbase] up to [stringend], behind which
    there is a null. *)
Fixpoint coff_symdefs (get : list Z -> option Z) (width nsymz : nat) (raw_armap strings : list Z) : AR (list carsym) :=
  match nsymz with
  | O => Ret []
  | S nsymz =>
      file_offset ← of_opt (get raw_armap);
      let name := until_nul strings in
      rest ← coff_symdefs get width nsymz (drop width raw_armap) (drop 1 (drop (length name) strings));
      Ret (mkCarsym (Some name) file_offset :: rest)
  end.

Definition sizeof_carsym : Z := 16.

Definition do_slurp_coff_armap (ardata : artdata) (file : list Z) (pos : Z) : AR artdata :=
  '(mapdata, pos) ← _bfd_read_ar_hdr ardata file pos;
  let size := parsed_size mapdata in
  '(int_buf, pos) ← read_all file pos 4 short_read;
  nsymz ← of_opt (bfd_getb32 int_buf);
  let filesize := bfd_get_file_size file in
  let ptrsize := 4 * nsymz in
  if (negb (filesize =? 0) && (filesize <? size)) || (size <? 4) || (size - 4 <? ptrsize) then Fail malformed_archive
  else
    let stringsize := size - ptrsize - 4 in
    let carsym_size := nsymz * sizeof_carsym in
    _ ← ensure (carsym_size <? u64 (carsym_size + stringsize + 1)) no_memory;
    '(raw_armap, pos) ← alloc_and_read file pos ptrsize;
    '(strings, pos) ← read_all file pos stringsize short_read;
    syms ← coff_symdefs bfd_getb32 4 (Z.to_nat nsymz) raw_armap strings;
    let ardata := set_armap syms (pad_even pos) ardata in
    (* a second header, as PE has it *)
    match _bfd_read_ar_hdr ardata file (first_file_filepos ardata) with
    | Ret (tmp, _) =>
        if bool_decide (take 2 (hdr_bytes (arch_header tmp)) = [47; 32]) then
          Ret (set_first_file_filepos
                 (u64 (first_file_filepos ardata
                       + (u64 (parsed_size tmp + Z.of_nat sizeof_ar_hdr + 1) .& 0xfffffffe))) ardata)
        else Ret ardata
    | Fail _ => Ret ardata
    | Undef => Undef
    end.

Definition name_is (nextname : list Z) (s : string) : bool := bool_decide (nextname = c_str s).

(** The sizes of a 64-bit armap overflow. *)
Definition overflows_64 (nsymz size stringsize : Z) : bool :=
  let carsym_size := u64 (nsymz * sizeof_carsym) in
  let amt := u64 (carsym_size + stringsize + 1) in
  (UINT64_MAX / 8 <=? nsymz) || (size <? stringsize) || (UINT64_MAX / sizeof_carsym <? nsymz)
  || (amt <=? carsym_size) || (amt <=? stringsize).

(** The rest of [_bfd_archive_64_bit_slurp_armap], when the name is "/SYM64/". *)
Definition slurp_64_bit_armap (ardata : artdata) (file : list Z) (pos : Z) : AR artdata :=
  '(mapdata, pos) ← _bfd_read_ar_hdr ardata file pos;
  let size := parsed_size mapdata in
  let filesize := bfd_get_file_size file in
  if negb (filesize =? 0) && (filesize <? size) then Fail malformed_archive
  else
    '(int_buf, pos) ← read_all file pos 8 malformed_archive;
    nsymz ← of_opt (bfd_getb64 int_buf);
    let stringsize := u64 (size - 8 * nsymz - 8) in
    let ptrsize := u64 (8 * nsymz) in
    if overflows_64 nsymz size stringsize
    then Fail malformed_archive
    else
      '(raw_armap, pos) ← (match alloc_and_read file pos ptrsize with Fail _ => Fail malformed_archive | r => r end);
      '(strings, pos) ← read_all file pos stringsize malformed_archive;
      syms ← coff_symdefs bfd_getb64 8 (Z.to_nat nsymz) raw_armap strings;
      Ret (set_armap (map (fun s => mkCarsym (ar_name s) (sext 64 (ar_file_offset s))) syms) (pad_even pos) ardata).

Definition bfd_slurp_armap (abfd : artdata) (file : list Z) (pos : Z) : AR artdata :=
  let nextname := sub_bytes file pos 16 in
  if (length nextname =? 0)%nat then Ret abfd
  else if negb (length nextname =? 16)%nat then Fail short_read
  else if name_is nextname "__.SYMDEF       " || name_is nextname "__.SYMDEF/      " then
    do_slurp_bsd_armap abfd file pos
  else if name_is nextname "/               " then do_slurp_coff_armap abfd file pos
  else if name_is nextname "/SYM64/         " then
    if BFD64 xvec then slurp_64_bit_armap (clear_symdefs abfd) file pos
    else Fail wrong_format
  else
    let at_ i c := bool_decide (nextname !! i = Some c) in
    if bool_decide (take 8 nextname = c_str "________")
       && ((at_ 8%nat 95 && at_ 9%nat 95) || (at_ 8%nat 54 && at_ 9%nat 52))
       && at_ 10%nat 69 && (at_ 11%nat 66 || at_ 11%nat 76) && at_ 12%nat 69 && (at_ 13%nat 66 || at_ 13%nat 76)
       && at_ 14%nat 95 && (at_ 15%nat 32 || at_ 15%nat 88)
    then Fail wrong_format
    else if name_is nextname "#1/20           " then
      '(_, p) ← read_all file pos (Z.of_nat sizeof_ar_hdr) short_read;
      '(extname, _) ← read_all file p 20 short_read;
      if bool_decide (take 16 extname = c_str "__.SYMDEF SORTED") || bool_decide (take 9 extname = c_str "__.SYMDEF")
      then do_slurp_bsd_armap abfd file pos
      else Ret (no_armap abfd)
    else Ret (no_armap abfd).

(** The 64-bit variant, which targets can have as their own reader. *)
Definition _bfd_archive_64_bit_slurp_armap (ardata : artdata) (file : list Z) (pos : Z) : AR artdata :=
  let ardata := clear_symdefs ardata in
  let nextname := sub_bytes file pos 16 in
  if (length nextname =? 0)%nat then Ret ardata
  else if negb (length nextname =? 16)%nat then Fail short_read
  else if name_is nextname "/               " then bfd_slurp_armap ardata file pos
  else if negb (name_is nextname "/SYM64/         ") then Ret (no_armap ardata)
  else slurp_64_bit_armap ardata file pos.

(** The target's reader of symbol tables. *)
Definition slurp_armap (abfd : artdata) (file : list Z) (pos : Z) : AR artdata :=
  match ar_style xvec with
  | style_coff | style_bsd | style_bsd44 => bfd_slurp_armap abfd file pos
  | style_64_bit => _bfd_archive_64_bit_slurp_armap abfd file pos
  end.

(** ** The table of long names *)

(** One turn of the loop over the table: [done] is what is behind [temp], the
    last byte first. *)
Definition fix_name_char (done : list Z) (c : Z) : list Z :=
  if c =? nth 1 ARFMAG 0 then
    match done with
    | 47 :: done => c :: 0 :: done
    | _ => 0 :: done
    end
  else if c =? 92 then 47 :: done
  else c :: done.

Definition fix_names (ext_names : list Z) : list Z := rev (foldl fix_name_char [] ext_names).

Definition _bfd_slurp_extended_name_table (abfd : artdata) (file : list Z) : AR artdata :=
  let pos := first_file_filepos abfd in
  let nextname := sub_bytes file pos 16 in
  if (length nextname =? 16)%nat then
    if negb (name_is nextname "ARFILENAMES/    ") && negb (name_is nextname "//              ") then
      Ret (set_extended_names None 0 abfd)
    else
      '(namedata, pos) ← _bfd_read_ar_hdr abfd file pos;
      let filesize := bfd_get_file_size file in
      let amt := parsed_size namedata in
      if (u64 (amt + 1) =? 0) || (negb (filesize =? 0) && (filesize <? amt)) then Fail malformed_archive
      else
        '(names, pos) ← read_all file pos amt malformed_archive;
        Ret (set_first_file_filepos (pad_even pos) (set_extended_names (Some (fix_names names ++ [0])) amt abfd))
  else Ret abfd.

(** ** Members *)

Definition _bfd_look_for_bfd_in_cache (arch_bfd : artdata) (filepos : Z) : option opened := cache arch_bfd !! filepos.

Definition _bfd_add_bfd_to_archive_cache (arch_bfd : artdata) (filepos : Z) (new_elt : opened) : artdata :=
  set_cache (<[filepos := new_elt]> (cache arch_bfd)) arch_bfd.

(** The member whose header is at [filepos]; those of a thin archive are not
    modelled. *)
Definition _bfd_get_elt_at_filepos (no_element_cache : bool) (archive : artdata) (file : list Z) (filepos : Z)
  : AR (opened * artdata) :=
  match _bfd_look_for_bfd_in_cache archive filepos with
  | Some n_bfd => Ret (n_bfd, archive)
  | None =>
      if filepos <? 0 then Fail system_call
      else
        '(new_areldata, pos) ← _bfd_read_ar_hdr archive file filepos;
        if is_thin_archive archive then Undef
        else
          let n_bfd := mkOpened pos (ad_filename new_areldata) new_areldata in
          Ret (n_bfd, if no_element_cache then archive else _bfd_add_bfd_to_archive_cache archive filepos n_bfd)
  end.

Definition _bfd_generic_get_elt_at_index (no_element_cache : bool) (abfd : artdata) (file : list Z) (sym_index : nat)
  : AR (opened * artdata) :=
  entry ← of_opt (symdefs abfd !! sym_index);
  _bfd_get_elt_at_filepos no_element_cache abfd file (ar_file_offset entry).

(** [bfd_get_next_mapent]: [None] for BFD_NO_MORE_SYMBOLS. *)
Definition bfd_get_next_mapent (abfd : artdata) (prev : option nat) : AR (option (nat * carsym)) :=
  if negb (has_armap abfd) then Fail invalid_operation
  else
    let prev := match prev with None => O | Some prev => S prev end in
    match symdefs abfd !! prev with
    | None => Ret None
    | Some entry => Ret (Some (prev, entry))
    end.

Definition bfd_generic_openr_next_archived_file (no_element_cache : bool) (archive : artdata) (file : list Z)
    (last_file : option opened) : AR (opened * artdata) :=
  filestart ← (match last_file with
               | None => Ret (first_file_filepos archive)
               | Some last_file =>
                   let filestart := o_proxy_origin last_file in
                   if is_thin_archive archive then Ret filestart
                   else
                     let filestart := u64 (filestart + parsed_size (o_arelt last_file)) in
                     let filestart := u64 (pad_even filestart) in
                     if filestart <? o_proxy_origin last_file then Fail malformed_archive else Ret filestart
               end : AR Z);
  _bfd_get_elt_at_filepos no_element_cache archive file (sext 64 filestart).

(** What a read of the whole member delivers. *)
Definition member_contents (file : list Z) (n_bfd : opened) : list Z :=
  sub_bytes file (o_proxy_origin n_bfd) (parsed_size (o_arelt n_bfd)).

(** ** Recognising an archive *)

(** [is_object first] says whether the member is an object of the target of the
    archive.  The result is the archive, and the error that is left when the
    first member is not. *)
Definition bfd_generic_archive_p (target_defaulted : bool) (is_object : opened -> bool) (file : list Z)
  : AR (artdata * option ar_error) :=
  let armag := sub_bytes file 0 (Z.of_nat SARMAG) in
  if negb (length armag =? SARMAG)%nat then Fail wrong_format
  else
    let thin := strncmp_eq SARMAG armag ARMAGT in
    if negb (strncmp_eq SARMAG armag ARMAG) && negb thin then Fail wrong_format
    else
      let ardata := mkArtdata (Z.of_nat SARMAG) ∅ [] None 0 false thin in
      match (ardata ← slurp_armap ardata file (Z.of_nat SARMAG); _bfd_slurp_extended_name_table ardata file) with
      | Undef => Undef
      | Fail _ => Fail wrong_format
      | Ret ardata =>
          if target_defaulted && has_armap ardata then
            match bfd_generic_openr_next_archived_file true ardata file None with
            | Undef => Undef
            | Fail _ => Ret (ardata, None)
            | Ret (first, _) => Ret (ardata, if is_object first then None else Some wrong_object_format)
            end
          else Ret (ardata, None)
      end.
End archive.
