(* ===== verification/ArchiveWrite.v ===== *)
(** Archives: archive.c's writing of an archive, with its symbol table, its
    table of long names and its members (and archive64.c's symbol table).

    What is written goes through [bfd_write], which appends to the file and
    fails when the file does not take the bytes.  Members are what is read of
    their BFDs; the archive is not thin, and messages about plugins are left
    out. *)

From S2P Require Import Prelude HashTable BfdSection Endian Decimal LinkerFiles Linker Archive.

Definition BFD_TRADITIONAL_FORMAT : Z := 0x400.
Definition BFD_DETERMINISTIC_OUTPUT : Z := 0x2000.
Definition BFD_ARCHIVE_FULL_PATH : Z := 0x100000.
Definition HAS_SYMS : Z := 0x10.
Definition BSF_GNU_UNIQUE : Z := 1 .<< 23.

(** libiberty's functions on file names. *)
Class FileNames := {
  lbasename : cstring -> cstring;
  filename_ncmp : list Z -> list Z -> nat -> Z;
  filename_ncmp_eq a b n : filename_ncmp a b n = 0 -> take n a = take n b;
  lbasename_suffix l : lbasename l `suffix_of` l
}.

(** The functions of a host whose directory separator is the slash and whose
    file names are compared byte by byte. *)
Fixpoint after_last_slash (l : cstring) : cstring :=
  match l with
  | [] => []
  | c :: rest => if bool_decide (47 ∈ rest) then after_last_slash rest else if c =? 47 then rest else l
  end.

Lemma after_last_slash_suffix l : after_last_slash l `suffix_of` l.
Proof.
  induction l as [|c l IH]; [done|]. cbn. case_bool_decide; [by apply suffix_cons_r|].
  destruct (c =? 47); [by apply suffix_cons_r|done].
Qed.

Definition unix_names : FileNames.
Proof.
  refine {| lbasename := after_last_slash;
            filename_ncmp a b n := if bool_decide (take n a = take n b) then 0 else 1 |}.
  - intros a b n. by case_bool_decide.
  - apply after_last_slash_suffix.
Defined.

(** ** Data *)

Record status := mkStatus { st_mtime : Z; st_uid : Z; st_gid : Z; st_mode : Z; st_size : Z }.

(** A member's file: in memory, or what [stat] says of it. *)
Inductive member_file :=
| In_memory (size : Z)
| On_disk (stat : option status).

Record ar_symbol := mkArSymbol {
  as_name : cstring;
  as_flags : Z;
  as_common : bool;
  as_undefined : bool
}.

(** The BFD of a member: [mb_symtab] is what [bfd_canonicalize_symtab] finds,
    [mb_symtab_storage] what [bfd_get_symtab_upper_bound] asks for. *)
Record member := mkMember {
  mb_filename : cstring;
  mb_arelt : option areltdata;
  mb_write_p : bool;
  mb_file : member_file;
  mb_contents : list Z;
  mb_pad_char : Z;
  mb_object : bool;
  mb_flags : Z;
  mb_symtab_storage : Z;
  mb_symtab : option (list ar_symbol);
  mb_free_cached_info : bool
}.

Definition set_mb_arelt (v : option areltdata) (m : member) : member :=
  mkMember (mb_filename m) v (mb_write_p m) (mb_file m) (mb_contents m) (mb_pad_char m) (mb_object m) (mb_flags m)
    (mb_symtab_storage m) (mb_symtab m) (mb_free_cached_info m).

Definition set_arch_header (v : ar_hdr) (a : areltdata) : areltdata :=
  mkAreltdata v (parsed_size a) (extra_size a) (ad_filename a) (ad_origin a).
Definition set_extra_size (v : Z) (a : areltdata) : areltdata :=
  mkAreltdata (arch_header a) (parsed_size a) v (ad_filename a) (ad_origin a).

(** [struct orl]; the BFD of a symbol is given by its place in the archive. *)
Record orl := mkOrl { orl_name : cstring; orl_abfd : nat; orl_namidx : Z }.

(** The environment: the time, the user, and [strtoull] of SOURCE_DATE_EPOCH
    when it is set; the archive's own modification time, when it is first
    written and at each look at it afterwards. *)
Record environment := mkEnv {
  time_now : Z;
  source_date_epoch : option Z;
  getuid : Z;
  getgid : Z;
  archive_mtime : option Z;
  archive_mtimes : list (option Z)
}.

(** ** Writing *)

Definition Wr (A : Type) : Type := list Z -> outcome ar_error (A * list Z).

#[export] Instance Wr_ret : MRet Wr := fun A a out => Ret (a, out).
#[export] Instance Wr_bind : MBind Wr := fun A B f m out =>
  match m out with
  | Ret (a, out) => f a out
  | Fail e => Fail e
  | Undef => Undef
  end.

(** Code that writes nothing. *)
Definition pure_wr {A} (m : AR A) : Wr A := fun out => a ← m; Ret (a, out).

(** Changes what is written. *)
Definition on_file (f : list Z -> list Z) : Wr unit := fun out => Ret (tt, f out).

(** [bytes] put over those at [pos]. *)
Definition put_at (pos : nat) (bytes l : list Z) : list Z := take pos l ++ bytes ++ drop (pos + length bytes) l.

(** The text in [buf], spaces up to [n], or its front when it is too long. *)
Definition fill_field (n : nat) (buf : list Z) : list Z :=
  if (length buf <? n)%nat then buf ++ replicate (n - length buf) 32 else take n buf.

(** [_bfd_ar_spacepad] for the printed [text]: what is stored at [p]. *)
Definition _bfd_ar_spacepad (n : nat) (text : list Z) : list Z := fill_field n (take 19 text).

Definition _bfd_ar_sizepad (n : nat) (size : Z) : AR (list Z) :=
  let buf := left_justified 10 (print_unsigned 10 (u64 size)) in
  if (n <? length buf)%nat then Fail file_too_big else Ret (fill_field n buf).

Definition bfd_get_current_time (env : environment) (now : Z) : Z :=
  match source_date_epoch env with
  | None => if negb (now =? 0) then now else time_now env
  | Some epoch => sext 64 epoch
  end.

(** 0644 *)
Definition DEFAULT_MODE : Z := 6 * 64 + 4 * 8 + 4.

Section write.
Context `{ArchiveFormat} `{FileNames}.
Context (xvec : ar_target) (env : environment).
(** Whether the file, holding some bytes, takes some more. *)
Context (takes : list Z -> list Z -> bool).
(** The flags of the archive's BFD. *)
Context (flags : Z).

Definition bfd_write (bs : list Z) : Wr unit := fun out =>
  if takes out bs then Ret (tt, out ++ bs) else Fail system_call.

(** A header of spaces. *)
Definition blank_hdr : ar_hdr :=
  let blank n := replicate n 32 in
  mkArHdr (blank name_size) (blank date_size) (blank uid_size) (blank gid_size) (blank mode_size)
    (blank size_size) (blank 2%nat).

(** [arch_hdr (abfd)] and [arelt_size (abfd)]: reads through a null pointer are
    undefined. *)
Definition arch_eltdata (m : member) : AR areltdata := of_opt (mb_arelt m).

(** ** Headers for files *)

Definition bfd_ar_hdr_from_filesystem (member : member) : AR areltdata :=
  status ← (match mb_file member with
            | In_memory size =>
                Ret (mkStatus (bfd_get_current_time env 0) (getuid env) (getgid env) DEFAULT_MODE size)
            | On_disk None => Fail system_call
            | On_disk (Some st) =>
                Ret (mkStatus (bfd_get_current_time env (st_mtime st)) (st_uid st) (st_gid st) (st_mode st) (st_size st))
            end : AR status);
  let status := if has flags BFD_DETERMINISTIC_OUTPUT then mkStatus 0 0 0 DEFAULT_MODE (st_size status) else status in
  if negb (u64 (st_size status - u64 (st_size status)) =? 0) then Fail file_too_big
  else
    size ← _bfd_ar_sizepad size_size (st_size status);
    Ret (mkAreltdata
           (mkArHdr (h_name blank_hdr)
              (_bfd_ar_spacepad date_size (left_justified 12 (printf_ld (st_mtime status))))
              (_bfd_ar_spacepad uid_size (printf_ld (st_uid status)))
              (_bfd_ar_spacepad gid_size (printf_ld (st_gid status)))
              (_bfd_ar_spacepad mode_size (left_justified 8 (printf_lo (st_mode status))))
              size ARFMAG)
           (u64 (st_size status)) 0 [] 0).

Definition normalize (flags : Z) (file : cstring) : cstring :=
  if has flags BFD_ARCHIVE_FULL_PATH then file else lbasename file.

Definition put_name (pos : nat) (bytes : list Z) (hdr : ar_hdr) : ar_hdr :=
  set_h_name (put_at pos bytes (h_name hdr)) hdr.

Definition bfd_bsd_truncate_arname (pathname : cstring) (hdr : ar_hdr) : ar_hdr :=
  let filename := lbasename pathname in
  let maxlen := ar_max_namelen xvec in
  let hdr := put_name 0 (take maxlen filename) hdr in
  let length := Nat.min (length filename) maxlen in
  if (length <? maxlen)%nat then put_name length [ar_pad_char xvec] hdr else hdr.

Definition bfd_dont_truncate_arname (pathname : cstring) (hdr : ar_hdr) : ar_hdr :=
  let maxlen := ar_max_namelen xvec in
  if has flags BFD_TRADITIONAL_FORMAT then bfd_bsd_truncate_arname pathname hdr
  else
    let filename := normalize flags pathname in
    let length := length filename in
    let hdr := if (length <=? maxlen)%nat then put_name 0 filename hdr else hdr in
    if (length <? maxlen)%nat || ((length =? maxlen)%nat && (length <? name_size)%nat)
    then put_name length [ar_pad_char xvec] hdr
    else hdr.

Definition bfd_gnu_truncate_arname (pathname : cstring) (hdr : ar_hdr) : ar_hdr :=
  let filename := lbasename pathname in
  let maxlen := ar_max_namelen xvec in
  let length := length filename in
  let hdr :=
    if (length <=? maxlen)%nat then put_name 0 filename hdr
    else
      let hdr := put_name 0 (take maxlen filename) hdr in
      if bool_decide (drop (length - 2) filename = [46; 111]) then put_name (maxlen - 2) [46; 111] hdr else hdr in
  let length := Nat.min length maxlen in
  if (length <? 16)%nat then put_name length [ar_pad_char xvec] hdr else hdr.

(** The target's [_bfd_truncate_arname]. *)
Definition _bfd_truncate_arname (pathname : cstring) (hdr : ar_hdr) : ar_hdr :=
  match ar_style xvec with
  | style_coff | style_64_bit => bfd_dont_truncate_arname pathname hdr
  | style_bsd | style_bsd44 => bfd_bsd_truncate_arname pathname hdr
  end.

(** ** The table of long names *)

(** A header that does not have the name in the normal format gets it. *)
Definition has_normal_format (pad : Z) (normal : cstring) (thislen : nat) (hdr : ar_hdr) : bool :=
  (filename_ncmp normal (h_name hdr) thislen =? 0)
  && ((name_size <=? thislen)%nat || bool_decide (h_name hdr !! thislen = Some pad)).

Definition normal_format (pad : Z) (normal : cstring) (thislen : nat) (hdr : ar_hdr) : ar_hdr :=
  if has_normal_format pad normal thislen hdr then hdr
  else
    let maxname := ar_max_namelen xvec in
    let hdr := put_name 0 (take thislen normal) hdr in
    if (thislen <? maxname)%nat || ((thislen =? maxname)%nat && (thislen <? name_size)%nat)
    then put_name thislen [pad] hdr
    else hdr.

(** The first pass: the size of the table; a name that fits its header is put
    there. *)
Fixpoint measure_names (trailing_slash : bool) (total_namelen : Z) (members : list member) : AR (Z * list member) :=
  match members with
  | [] => Ret (total_namelen, [])
  | current :: members =>
      let maxname := ar_max_namelen xvec in
      let normal := normalize flags (mb_filename current) in
      let thislen := length normal in
      let thislen :=
        if (maxname <? thislen)%nat && has flags BFD_TRADITIONAL_FORMAT then maxname else thislen in
      if (maxname <? thislen)%nat then
        '(total, rest) ← measure_names trailing_slash
                           (total_namelen + Z.of_nat thislen + 1 + (if trailing_slash then 1 else 0)) members;
        Ret (total, current :: rest)
      else
        ared ← arch_eltdata current;
        let hdr := normal_format (mb_pad_char current) normal thislen (arch_header ared) in
        '(total, rest) ← measure_names trailing_slash total_namelen members;
        Ret (total, set_mb_arelt (Some (set_arch_header hdr ared)) current :: rest)
  end.

(** The second pass: the table, and in the headers of long names their places
    in it. *)
Fixpoint store_names (trailing_slash : bool) (tab : list Z) (members : list member) : AR (list Z * list member) :=
  match members with
  | [] => Ret (tab, [])
  | current :: members =>
      let maxname := ar_max_namelen xvec in
      let normal := normalize flags (mb_filename current) in
      if (maxname <? length normal)%nat then
        ared ← arch_eltdata current;
        let stroff := Z.of_nat (length tab) in
        let tab := tab ++ normal ++ (if trailing_slash then [47] else []) ++ [nth 1 ARFMAG 0] in
        let hdr := put_name 0 [mb_pad_char current] (arch_header ared) in
        let hdr := put_name 1 (_bfd_ar_spacepad (maxname - 1) (printf_ld stroff)) hdr in
        '(tab, rest) ← store_names trailing_slash tab members;
        Ret (tab, set_mb_arelt (Some (set_arch_header hdr ared)) current :: rest)
      else
        '(tab, rest) ← store_names trailing_slash tab members;
        Ret (tab, current :: rest)
  end.

(** The table (its length is [*tablen]) and the members with their headers. *)
Definition _bfd_construct_extended_name_table (trailing_slash : bool) (members : list member)
  : AR (list Z * list member) :=
  '(total_namelen, members) ← measure_names trailing_slash 0 members;
  if total_namelen =? 0 then Ret ([], members) else store_names trailing_slash [] members.

(** BSD 4.4: no table; a name that is long or has a space follows its header. *)
Fixpoint _bfd_archive_bsd44_construct_extended_name_table (members : list member) : AR (list member) :=
  match members with
  | [] => Ret []
  | current :: members =>
      let maxname := ar_max_namelen xvec in
      let normal := normalize flags (mb_filename current) in
      let has_space := bool_decide (32 ∈ normal) in
      current ← (if (maxname <? length normal)%nat || has_space then
                   ared ← arch_eltdata current;
                   let len := Z.of_nat ((length normal + 3) / 4 * 4) in
                   let hdr := put_name 0 (_bfd_ar_spacepad maxname (c_str "#1/" ++ printf_ld len)) (arch_header ared) in
                   Ret (set_mb_arelt (Some (set_extra_size len (set_arch_header hdr ared))) current)
                 else Ret current : AR member);
      rest ← _bfd_archive_bsd44_construct_extended_name_table members;
      Ret (current :: rest)
  end.

(** The target's function: the table, its name, and the members. *)
Definition construct_extended_name_table (members : list member) : AR (list Z * cstring * list member) :=
  match ar_style xvec with
  | style_coff | style_64_bit =>
      '(tab, members) ← _bfd_construct_extended_name_table true members; Ret (tab, c_str "//", members)
  | style_bsd =>
      '(tab, members) ← _bfd_construct_extended_name_table false members; Ret (tab, c_str "ARFILENAMES/", members)
  | style_bsd44 =>
      members ← _bfd_archive_bsd44_construct_extended_name_table members; Ret ([], [], members)
  end.

(** ** Writing headers *)

Definition _bfd_generic_write_ar_hdr (abfd : member) : Wr unit :=
  ared ← pure_wr (arch_eltdata abfd);
  bfd_write (hdr_bytes (arch_header ared)).

Definition _bfd_bsd44_write_ar_hdr (abfd : member) : Wr unit :=
  ared ← pure_wr (arch_eltdata abfd);
  let hdr := arch_header ared in
  if is_bsd44_extended_name (h_name hdr) then
    let fullname := normalize (mb_flags abfd) (mb_filename abfd) in
    let len := length fullname in
    let padded_len := ((len + 3) / 4 * 4)%nat in
    size ← pure_wr (_bfd_ar_sizepad size_size (parsed_size ared + Z.of_nat padded_len));
    _ ← bfd_write (hdr_bytes (set_h_size size hdr));
    _ ← bfd_write fullname;
    if negb (len mod 4 =? 0)%nat then bfd_write (replicate (4 - len mod 4) 0) else mret tt
  else bfd_write (hdr_bytes hdr).

(** The target's writer of headers. *)
Definition _bfd_write_ar_hdr (abfd : member) : Wr unit :=
  match ar_style xvec with
  | style_coff | style_bsd | style_64_bit => _bfd_generic_write_ar_hdr abfd
  | style_bsd44 => _bfd_bsd44_write_ar_hdr abfd
  end.

(** ** Writing symbol tables *)

Definition bfd_write_bigendian_4byte_int (i : Z) : Wr unit :=
  buffer ← pure_wr (of_opt (bfd_putb32 i (replicate 4 0)));
  bfd_write buffer.

Definition write_64 (v : Z) : Wr unit :=
  buf ← pure_wr (of_opt (bfd_putb64 v (replicate 8 0)));
  bfd_write buf.

(** [map[count].abfd == current]: an offset for each symbol of the member; the
    result is what is left of the map. *)
Fixpoint member_offsets (put : Z -> Wr unit) (current : nat) (ptr : Z) (map : list orl) : Wr (list orl) :=
  match map with
  | e :: rest =>
      if (orl_abfd e =? current)%nat then _ ← put ptr; member_offsets put current ptr rest else mret map
  | [] => mret []
  end.

(** Where the member after [current] goes. *)
Definition next_member_ptr (ptr : Z) (current : member) : AR Z :=
  ared ← arch_eltdata current;
  Ret (sext 64 (pad_even (sext 64 (ptr + Z.of_nat sizeof_ar_hdr + parsed_size ared)))).

(** The loop over the members, as long as there are symbols. *)
Fixpoint write_offsets (put : Z -> Wr unit) (current : nat) (members : list member) (ptr : Z) (map : list orl) : Wr unit :=
  match members, map with
  | m :: members, _ :: _ =>
      map ← member_offsets put current ptr map;
      ptr ← pure_wr (next_member_ptr ptr m);
      write_offsets put (S current) members ptr map
  | _, _ => mret tt
  end.

(** Writes the names of the symbols. *)
Fixpoint write_names (map : list orl) : Wr unit :=
  match map with
  | [] => mret tt
  | e :: map => _ ← bfd_write (orl_name e ++ [0]); write_names map
  end.

(** The header of a COFF or 64-bit armap. *)
Definition armap_hdr (name : cstring) (date mapsize : Z) : AR ar_hdr :=
  size ← _bfd_ar_sizepad size_size mapsize;
  Ret (mkArHdr (put_at 0 name (h_name blank_hdr))
         (_bfd_ar_spacepad date_size (printf_ld date))
         (_bfd_ar_spacepad uid_size (printf_ld 0))
         (_bfd_ar_spacepad gid_size (printf_ld 0))
         (_bfd_ar_spacepad mode_size (left_justified 7 (printf_lo 0)))
         size ARFMAG).

Definition _bfd_archive_64_bit_write_armap (members : list member) (elength : Z) (map : list orl) (stridx : Z) : Wr unit :=
  let symbol_count := Z.of_nat (length map) in
  let ranlibsize := u32 (symbol_count * 8 + 8) in
  let stringsize := u32 stridx in
  let mapsize := u32 (stringsize + ranlibsize) in
  let padding := (mapsize + 7) / 8 * 8 - mapsize in
  let mapsize := u32 (mapsize + padding) in
  let archive_member_file_ptr := u32 (mapsize + elength) + Z.of_nat sizeof_ar_hdr + Z.of_nat SARMAG in
  let date := if has flags BFD_DETERMINISTIC_OUTPUT then 0 else bfd_get_current_time env 0 in
  hdr ← pure_wr (armap_hdr (c_str "/SYM64/") date mapsize);
  _ ← bfd_write (hdr_bytes hdr);
  _ ← write_64 symbol_count;
  _ ← write_offsets write_64 0 members archive_member_file_ptr map;
  _ ← write_names map;
  bfd_write (replicate (Z.to_nat padding) 0).

(** Whether a loop that only checks goes through. *)
Definition goes_through (loop : Wr unit) : AR bool :=
  match loop [] with
  | Ret _ => Ret true
  | Fail _ => Ret false
  | Undef => Undef
  end.

Definition check_offset (ptr : Z) : Wr unit := pure_wr (ensure (ptr =? u32 ptr) file_truncated).

Definition write_32_offset (ptr : Z) : Wr unit :=
  let offset := u32 ptr in
  if negb (ptr =? offset) then pure_wr (Fail file_truncated) else bfd_write_bigendian_4byte_int offset.

Definition _bfd_coff_write_armap (members : list member) (elength : Z) (map : list orl) (stridx : Z) : Wr unit :=
  let symbol_count := Z.of_nat (length map) in
  let ranlibsize := u32 (symbol_count * 4 + 4) in
  let stringsize := u32 stridx in
  let mapsize := u32 (stringsize + ranlibsize) in
  let padit := negb (mapsize .& 1 =? 0) in
  let mapsize := if padit then u32 (mapsize + 1) else mapsize in
  let first_archive_member_file_ptr := u32 (mapsize + elength) + Z.of_nat sizeof_ar_hdr + Z.of_nat SARMAG in
  fit ← (if BFD64 xvec then pure_wr (goes_through (write_offsets check_offset 0 members first_archive_member_file_ptr map)) else mret true);
  if negb fit then _bfd_archive_64_bit_write_armap members elength map stridx
  else
    hdr ← pure_wr (armap_hdr (c_str "/") (if has flags BFD_DETERMINISTIC_OUTPUT then 0 else time_now env) mapsize);
    _ ← bfd_write (hdr_bytes hdr);
    _ ← bfd_write_bigendian_4byte_int symbol_count;
    _ ← write_offsets write_32_offset 0 members first_archive_member_file_ptr map;
    _ ← write_names map;
    if padit then bfd_write [0] else mret tt.

(** The do loop of the BSD armap: from the member number [last_elt], the first
    of [members], to the number [elt]; running off the list is undefined. *)
Fixpoint advance_to (elt last_elt : nat) (members : list member) (firstreal : Z) : AR (nat * list member * Z) :=
  match members with
  | [] => Undef
  | current :: members =>
      ared ← arch_eltdata current;
      let firstreal :=
        sext 64 (pad_even (sext 64 (firstreal + parsed_size ared + extra_size ared + Z.of_nat sizeof_ar_hdr))) in
      if (S last_elt =? elt)%nat then Ret (S last_elt, members, firstreal)
      else advance_to elt (S last_elt) members firstreal
  end.

(** The loops over the symbols: [put] gets each symbol with the place of its
    member. *)
Fixpoint bsd_offsets (put : orl -> Z -> Wr unit) (last_elt : nat) (members : list member) (firstreal : Z)
    (map : list orl) : Wr unit :=
  match map with
  | [] => mret tt
  | e :: map =>
      '(last_elt, members, firstreal) ←
        (if (orl_abfd e =? last_elt)%nat then mret (last_elt, members, firstreal)
         else pure_wr (advance_to (orl_abfd e) last_elt members firstreal));
      _ ← put e firstreal;
      bsd_offsets put last_elt members firstreal map
  end.

Definition H_PUT_32 (v : Z) : Wr (list Z) :=
  pure_wr (of_opt (if header_big_endian xvec then bfd_putb32 v (replicate 4 0) else bfd_putl32 v (replicate 4 0))).

(** A symbol's entry in a BSD armap. *)
Definition write_symdef (e : orl) (firstreal : Z) : Wr unit :=
  if negb (firstreal =? u32 firstreal) then pure_wr (Fail file_truncated)
  else
    nameidx ← H_PUT_32 (orl_namidx e);
    offset ← H_PUT_32 firstreal;
    bfd_write (nameidx ++ offset).

(** The result is [armap_timestamp]. *)
Definition _bfd_bsd_write_armap (members : list member) (elength : Z) (map : list orl) (stridx : Z) : Wr Z :=
  let padit := negb (stridx .& 1 =? 0) in
  let ranlibsize := u32 (Z.of_nat (length map) * BSD_SYMDEF_SIZE) in
  let stringsize := u32 (stridx + if padit then 1 else 0) in
  let mapsize := u32 (ranlibsize + stringsize + 8) in
  let first := u32 (mapsize + elength) + Z.of_nat sizeof_ar_hdr + Z.of_nat SARMAG in
  fit ← (if BFD64 xvec then pure_wr (goes_through (bsd_offsets (fun _ => check_offset) 0 members first map)) else mret true);
  if negb fit then _ ← _bfd_archive_64_bit_write_armap members elength map stridx; mret 0
  else
    let deterministic := has flags BFD_DETERMINISTIC_OUTPUT in
    let armap_timestamp :=
      match archive_mtime env with
      | Some t => if deterministic then 0 else bfd_get_current_time env t + ARMAP_TIME_OFFSET
      | None => 0
      end in
    let uid := if deterministic then 0 else getuid env in
    let gid := if deterministic then 0 else getgid env in
    size ← pure_wr (_bfd_ar_sizepad size_size mapsize);
    let hdr := mkArHdr (put_at 0 RANLIBMAG (h_name blank_hdr))
                 (_bfd_ar_spacepad date_size (printf_ld armap_timestamp))
                 (_bfd_ar_spacepad uid_size (printf_ld uid))
                 (_bfd_ar_spacepad gid_size (printf_ld gid))
                 (h_mode blank_hdr) size ARFMAG in
    _ ← bfd_write (hdr_bytes hdr);
    temp ← H_PUT_32 ranlibsize;
    _ ← bfd_write temp;
    _ ← bsd_offsets write_symdef 0 members first map;
    temp ← H_PUT_32 stringsize;
    _ ← bfd_write temp;
    _ ← write_names map;
    _ ← (if padit then bfd_write [0] else mret tt);
    mret armap_timestamp.

(** The target's [write_armap]. *)
Definition write_armap (members : list member) (elength : Z) (map : list orl) (stridx : Z) : Wr Z :=
  match ar_style xvec with
  | style_coff => _ ← _bfd_coff_write_armap members elength map stridx; mret 0
  | style_bsd | style_bsd44 => _bfd_bsd_write_armap members elength map stridx
  | style_64_bit => _ ← _bfd_archive_64_bit_write_armap members elength map stridx; mret 0
  end.

(** ** Collecting the symbols *)

(** A symbol goes into the table of the archive. *)
Definition in_armap (y : ar_symbol) : bool :=
  (has (as_flags y) (BSF_GLOBAL .| BSF_WEAK .| BSF_INDIRECT .| BSF_GNU_UNIQUE) || as_common y) && negb (as_undefined y).

(** The symbols of the member number [current], from [stridx] on in the names:
    [stridx] is an int. *)
Fixpoint map_symbols (current : nat) (stridx : Z) (syms : list ar_symbol) : list orl * Z :=
  match syms with
  | [] => ([], stridx)
  | y :: syms =>
      if in_armap y then
        let '(map, end_) := map_symbols current (sext 32 (stridx + Z.of_nat (length (as_name y)) + 1)) syms in
        (mkOrl (as_name y) current stridx :: map, end_)
      else map_symbols current stridx syms
  end.

Fixpoint map_members (current : nat) (stridx : Z) (members : list member) : AR (list orl * Z) :=
  match members with
  | [] => Ret ([], stridx)
  | m :: members =>
      if mb_object m && has (mb_flags m) HAS_SYMS then
        if mb_symtab_storage m <? 0 then Fail invalid_operation
        else
          '(here, stridx) ←
            (if negb (mb_symtab_storage m =? 0) then
               syms ← (match mb_symtab m with Some syms => Ret syms | None => Fail invalid_operation end
                       : AR (list ar_symbol));
               Ret (map_symbols current stridx syms)
             else Ret ([], stridx) : AR (list orl * Z));
          _ ← ensure (mb_free_cached_info m) invalid_operation;
          '(rest, stridx) ← map_members (S current) stridx members;
          Ret (here ++ rest, stridx)
      else map_members (S current) stridx members
  end.

(** The files called __.SYMDEF at the front are dropped. *)
Fixpoint drop_symdef (members : list member) : list member :=
  match members with
  | m :: rest => if bool_decide (mb_filename m = c_str "__.SYMDEF") then drop_symdef rest else members
  | [] => []
  end.

(** The result is the list of members and [armap_timestamp]. *)
Definition _bfd_compute_and_write_armap (members : list member) (elength : Z) : Wr (list member * Z) :=
  let elength := if negb (elength =? 0) then u32 (elength + Z.of_nat sizeof_ar_hdr) else elength in
  let elength := u32 (pad_even elength) in
  let members := drop_symdef members in
  '(map, stridx) ← pure_wr (map_members 0 0 members);
  armap_timestamp ← write_armap members elength map stridx;
  mret (members, armap_timestamp).

(** ** Writing the archive *)

Definition bfd_ar_hdr (current : member) : AR member :=
  _ ← ensure (negb (mb_write_p current)) invalid_operation;
  match mb_arelt current with
  | Some _ => Ret current
  | None =>
      ared ← bfd_ar_hdr_from_filesystem current;
      Ret (set_mb_arelt (Some (set_arch_header (_bfd_truncate_arname (mb_filename current) (arch_header ared)) ared))
             current)
  end.

Definition AR_WRITE_BUFFERSIZE : Z := 8 * 1024 * 1024.

(** The loop that copies a member: [contents] is what is left of its file. *)
Fixpoint copy_member (fuel : nat) (contents : list Z) (remaining : Z) : Wr unit :=
  match fuel with
  | O => pure_wr Undef
  | S fuel =>
      if remaining =? 0 then mret tt
      else
        let amt := Z.min AR_WRITE_BUFFERSIZE remaining in
        let buffer := sub_bytes contents 0 amt in
        if negb (Z.of_nat (length buffer) =? amt) then pure_wr (Fail short_read)
        else
          _ ← bfd_write buffer;
          copy_member fuel (drop (length buffer) contents) (remaining - amt)
  end.

(** Each turn copies a byte at least. *)
Definition write_member (current : member) : Wr unit :=
  ared ← pure_wr (arch_eltdata current);
  let remaining := parsed_size ared in
  _ ← _bfd_write_ar_hdr current;
  _ ← copy_member (S (length (mb_contents current))) (mb_contents current) remaining;
  if remaining mod 2 =? 1 then bfd_write [nth 1 ARFMAG 0] else mret tt.

Fixpoint write_members (members : list member) : Wr unit :=
  match members with
  | [] => mret tt
  | m :: members => _ ← write_member m; write_members members
  end.

(** The member with the table of long names. *)
Definition write_extended_names (etable : list Z) (ename : cstring) : Wr unit :=
  let elength := Z.of_nat (length etable) in
  size ← pure_wr (_bfd_ar_sizepad size_size ((elength + 1) .& Z.lnot 1));
  let blank := blank_hdr in
  _ ← bfd_write (hdr_bytes (mkArHdr (put_at 0 ename (h_name blank)) (h_date blank) (h_uid blank) (h_gid blank)
                              (h_mode blank) size ARFMAG));
  _ ← bfd_write etable;
  if elength mod 2 =? 1 then bfd_write [nth 1 ARFMAG 0] else mret tt.

(** [_bfd_archive_bsd_update_armap_timestamp]: [mtime] is what the file says;
    writing over what is in the file succeeds.
    The result is whether the timestamp was left, the timestamp, and the file. *)
Definition _bfd_archive_bsd_update_armap_timestamp (armap_timestamp : Z) (mtime : option Z) (out : list Z)
  : bool * Z * list Z :=
  if has flags BFD_DETERMINISTIC_OUTPUT then (true, armap_timestamp, out)
  else
    match mtime with
    | None => (true, armap_timestamp, out)
    | Some mtime =>
        if mtime <=? armap_timestamp then (true, armap_timestamp, out)
        else if negb (bool_decide (source_date_epoch env = None))
                && (armap_timestamp =? bfd_get_current_time env 0 + ARMAP_TIME_OFFSET)
        then (true, armap_timestamp, out)
        else
          let armap_timestamp := mtime + ARMAP_TIME_OFFSET in
          let ar_date := _bfd_ar_spacepad date_size (printf_ld armap_timestamp) in
          (false, armap_timestamp, put_at (SARMAG + name_size) ar_date out)
    end.

(** The loop [do ... while (++tries < 6)]; [tries] turns are left, and each has
    the next of [mtimes]. *)
Fixpoint update_armap_timestamp (tries : nat) (armap_timestamp : Z) (mtimes : list (option Z)) (out : list Z) : list Z :=
  match tries with
  | O => out
  | S tries =>
      match ar_style xvec with
      | style_coff | style_64_bit => out
      | style_bsd | style_bsd44 =>
          let '(ok, armap_timestamp, out) :=
            _bfd_archive_bsd_update_armap_timestamp armap_timestamp (mjoin (head mtimes)) out in
          if ok then out else update_armap_timestamp tries armap_timestamp (tail mtimes) out
      end
  end.

(** The archive as a file; [has_map] says that it is to have a symbol table.
    The result is the members, with their headers as they were written. *)
Definition _bfd_write_archive_contents (has_map : bool) (members : list member) : Wr (list member) :=
  members ← pure_wr (mapM bfd_ar_hdr members);
  let hasobjects := has_map && existsb mb_object members in
  '(etable, ename, members) ← pure_wr (construct_extended_name_table members);
  let elength := Z.of_nat (length etable) in
  _ ← bfd_write ARMAG;
  '(members, armap_timestamp) ←
    (if has_map && hasobjects then _bfd_compute_and_write_armap members (u32 elength) else mret (members, 0));
  _ ← (if negb (elength =? 0) then write_extended_names etable ename else mret tt);
  _ ← write_members members;
  _ ← (if has_map && hasobjects then on_file (update_armap_timestamp 5 armap_timestamp (archive_mtimes env))
       else mret tt);
  mret members.
End write.
