(* ===== verification/ArchiveLayout.v ===== *)
(** The layout of an archive: bytes at a place of a file, headers that say what
    they should, and what writing appends. *)

From S2P Require Import Prelude HashTable BfdSection Endian Decimal LinkerFiles Linker Archive ArchiveWrite.

(** ** Bytes at a place *)

Definition at_pos (file : list Z) (pos : Z) (l : list Z) : Prop :=
  exists pre post, file = pre ++ l ++ post /\ pos = Z.of_nat (length pre).

Abbreviation len l := (Z.of_nat (length l)).

Lemma at_pos_app file pos l1 l2 : at_pos file pos (l1 ++ l2) -> at_pos file pos l1 /\ at_pos file (pos + len l1) l2.
Proof.
  intros (pre & post & -> & ->). split.
  - exists pre, (l2 ++ post). by rewrite <- !app_assoc.
  - exists (pre ++ l1), post. rewrite <- !app_assoc, length_app. split; [done|lia].
Qed.

Lemma at_pos_end file pos l : at_pos file pos l -> 0 <= pos /\ pos + len l <= len file.
Proof. intros (pre & post & -> & ->). rewrite !length_app. lia. Qed.

Lemma sub_bytes_at file pos l : at_pos file pos l -> sub_bytes file pos (len l) = l.
Proof.
  intros (pre & post & -> & ->). unfold sub_bytes. rewrite !length_app.
  rewrite !Z.min_l by lia. rewrite !Nat2Z.id. rewrite drop_app_length. by rewrite take_app_length.
Qed.

Lemma sub_bytes_prefix file pos l n :
  at_pos file pos l -> 0 <= n <= len l -> sub_bytes file pos n = take (Z.to_nat n) l.
Proof.
  intros Hat Hn. rewrite <- (take_drop (Z.to_nat n) l) in Hat. apply at_pos_app in Hat as [Hat _].
  apply sub_bytes_at in Hat. rewrite length_take in Hat.
  by replace (Z.of_nat (Z.to_nat n `min` length l)) with n in Hat by lia.
Qed.

Lemma sub_bytes_eof file pos n : len file <= pos -> 0 <= n -> sub_bytes file pos n = [].
Proof.
  intros Hpos Hn. unfold sub_bytes. rewrite (Z.min_r pos) by lia. rewrite Nat2Z.id, drop_all. by destruct (Z.to_nat _).
Qed.

Lemma read_all_at file pos l e : at_pos file pos l -> read_all file pos (len l) e = Ret (l, pos + len l).
Proof. intros Hat. unfold read_all. rewrite (sub_bytes_at _ _ _ Hat). by rewrite Z.eqb_refl. Qed.

Lemma alloc_and_read_at file pos l : at_pos file pos l -> alloc_and_read file pos (len l) = Ret (l, pos + len l).
Proof.
  intros Hat. unfold alloc_and_read, bfd_get_file_size. pose proof (at_pos_end _ _ _ Hat).
  replace (len file <? len l) with false by lia. rewrite andb_false_r. by apply read_all_at.
Qed.

(** The first bytes of a text. *)
Lemma at_pos_first file pos l : at_pos file pos l -> l <> [] -> pos < len file.
Proof. intros Hat Hl. apply at_pos_end in Hat. destruct l; [done|]. cbn in Hat. lia. Qed.

(** ** Strings *)

Lemma memchr_none l c : c ∉ l -> memchr l c = None.
Proof.
  induction l as [|d l IH]; intros Hl; [done|]. cbn. apply not_elem_of_cons in Hl as [Hd Hl].
  replace (d =? c) with false by lia. by rewrite IH.
Qed.

Lemma memchr_app l c rest : c ∉ l -> memchr (l ++ c :: rest) c = Some (length l).
Proof.
  induction l as [|d l IH]; intros Hl; cbn; [by rewrite Z.eqb_refl|].
  apply not_elem_of_cons in Hl as [Hd Hl]. replace (d =? c) with false by lia. by rewrite IH.
Qed.

Lemma strncmp_eq_refl n l : strncmp_eq n l l = true.
Proof. unfold strncmp_eq. by rewrite bool_decide_eq_true. Qed.

Lemma put_at_length pos bytes l :
  (pos + length bytes <= length l)%nat -> length (put_at pos bytes l) = length l.
Proof. intros Hle. unfold put_at. rewrite !length_app, length_take, length_drop. lia. Qed.

Lemma put_at_0 bytes l : put_at 0 bytes l = bytes ++ drop (length bytes) l.
Proof. done. Qed.

Lemma fill_field_length n buf : length (fill_field n buf) = n.
Proof.
  unfold fill_field. destruct (Nat.ltb_spec (length buf) n).
  - rewrite length_app, length_replicate. lia.
  - rewrite length_take. lia.
Qed.

Lemma fill_field_short n buf : (length buf <= n)%nat -> fill_field n buf = buf ++ replicate (n - length buf) 32.
Proof.
  intros Hle. unfold fill_field. destruct (Nat.ltb_spec (length buf) n); [done|].
  replace (n - length buf)%nat with O by lia. rewrite app_nil_r. by apply firstn_all2.
Qed.

Lemma spacepad_length n text : length (_bfd_ar_spacepad n text) = n.
Proof. apply fill_field_length. Qed.

(** A number, and spaces after it. *)
Lemma print_no_nul n : 0 <= n -> 0 ∉ print_unsigned 10 n.
Proof. intros Hn H0. pose proof (print_range 10 n ltac:(lia) Hn) as H. rewrite Forall_forall in H. apply H in H0. lia. Qed.

Lemma no_digit_spaces n l : no_digit_first l -> no_digit_first (replicate n 32 ++ l).
Proof. by destruct n. Qed.

(** ** Headers *)

Section layout.
Context `{ArchiveFormat} `{FileNames}.
Context (xvec : ar_target).

Record hdr_sized (h : ar_hdr) : Prop := {
  hs_name : length (h_name h) = name_size;
  hs_date : length (h_date h) = date_size;
  hs_uid : length (h_uid h) = uid_size;
  hs_gid : length (h_gid h) = gid_size;
  hs_mode : length (h_mode h) = mode_size;
  hs_size : length (h_size h) = size_size;
  hs_fmag : h_fmag h = ARFMAG
}.

Definition says_size (h : ar_hdr) (n : Z) : Prop := sscanf_u64 (until_nul (h_size h)) = Some n.

Lemma ARFMAG_length : length ARFMAG = 2%nat.
Proof. by rewrite ARFMAG_newline. Qed.

Lemma hdr_bytes_length h : hdr_sized h -> length (hdr_bytes h) = sizeof_ar_hdr.
Proof.
  intros []. unfold hdr_bytes, sizeof_ar_hdr. rewrite !length_app, hs_fmag0, ARFMAG_length. lia.
Qed.

Lemma take_drop_app {A} (pre l post : list A) k n :
  k = length pre -> n = length l -> take n (drop k (pre ++ l ++ post)) = l.
Proof. intros -> ->. by rewrite drop_app_length, take_app_length. Qed.

Lemma hdr_of_hdr_bytes h : hdr_sized h -> hdr_of_bytes (hdr_bytes h) = h.
Proof.
  intros Hs. destruct h as [a b c d e f g]. destruct Hs as [Ha Hb Hc Hd He Hf Hg]. cbn in *.
  assert (length g = 2%nat) as Hg' by (subst g; apply ARFMAG_length).
  unfold hdr_of_bytes, hdr_bytes. cbn [h_name h_date h_uid h_gid h_mode h_size h_fmag].
  rewrite <- Ha, <- Hb, <- Hc, <- Hd, <- He, <- Hf, <- Hg'. f_equal.
  - by apply (take_drop_app [] a).
  - by apply (take_drop_app a b).
  - rewrite app_assoc. apply (take_drop_app (a ++ b) c); [by rewrite length_app|done].
  - rewrite 2!app_assoc. apply (take_drop_app ((a ++ b) ++ c) d); [rewrite !length_app; lia|done].
  - rewrite 3!app_assoc. apply (take_drop_app (((a ++ b) ++ c) ++ d) e); [rewrite !length_app; lia|done].
  - rewrite 4!app_assoc. apply (take_drop_app ((((a ++ b) ++ c) ++ d) ++ e) f); [rewrite !length_app; lia|done].
  - rewrite 5!app_assoc. rewrite <- (app_nil_r g) at 2.
    apply (take_drop_app (((((a ++ b) ++ c) ++ d) ++ e) ++ f) g); [rewrite !length_app; lia|done].
Qed.

Lemma sizepad_spec n :
  0 <= n < 10 ^ 10 ->
  exists l, _bfd_ar_sizepad size_size n = Ret l /\ length l = size_size /\ sscanf_u64 (until_nul l) = Some n.
Proof.
  intros Hn. unfold _bfd_ar_sizepad. rewrite wrap_small by (unfold fits; lia).
  pose proof (print_length 10 n 10 ltac:(lia) ltac:(lia) ltac:(lia)) as Hlen.
  pose proof size_size_large as Hsz. set (text := print_unsigned 10 n) in *.
  assert (length (left_justified 10 text) = 10%nat) as Hl by (rewrite left_justified_length; lia).
  destruct (Nat.ltb_spec size_size (length (left_justified 10 text))); [lia|].
  eexists. split; [done|]. split; [apply fill_field_length|].
  rewrite fill_field_short by lia. unfold left_justified. rewrite <- app_assoc, <- replicate_add.
  rewrite until_nul_none.
  - apply sscanf_print; [unfold fits; lia|]. rewrite <- (app_nil_r (replicate _ 32)). by apply no_digit_spaces.
  - rewrite elem_of_app, elem_of_replicate. intros [Hz|[? _]]; [by apply print_no_nul in Hz; [|lia]|done].
Qed.

(** The name a header has in an archive. *)
Definition is_extended (a : artdata) (h : ar_hdr) : bool :=
  let first := nth 0 (h_name h) 0 in
  ((first =? 47)
   || ((first =? 32) && bool_decide (memchr (take (ar_max_namelen xvec) (hdr_bytes h)) 47 = None)))
  && negb (bool_decide (extended_names a = None)).

Definition hdr_named (a : artdata) (h : ar_hdr) (name : cstring) : Prop :=
  if is_extended a h then get_extended_arelt_filename a (hdr_bytes h) = Ret (name, 0)
  else is_bsd44_extended_name (h_name h) = false /\ until_nul (take (name_length xvec h) (hdr_bytes h)) = name.

Lemma read_hdr_at a file pos h n name :
  at_pos file pos (hdr_bytes h) -> hdr_sized h -> says_size h n -> hdr_named a h name ->
  _bfd_read_ar_hdr xvec a file pos = Ret (mkAreltdata h n 0 name 0, pos + Z.of_nat sizeof_ar_hdr).
Proof.
  intros Hat Hs Hn Hname. unfold _bfd_read_ar_hdr, _bfd_generic_read_ar_hdr_mag.
  pose proof (read_all_at _ _ _ no_more_archived_files Hat) as Hr. rewrite (hdr_bytes_length h Hs) in Hr.
  rewrite Hr. cbn [mbind outcome_bind]. rewrite hdr_of_hdr_bytes by done.
  rewrite (hs_fmag h Hs), strncmp_eq_refl. cbn [negb andb]. unfold says_size in Hn. rewrite Hn.
  cbv zeta. fold (is_extended a h). unfold hdr_named in Hname. destruct (is_extended a h).
  - rewrite Hname. done.
  - destruct Hname as [Hb <-]. by rewrite Hb.
Qed.

Lemma read_hdr_eof a file pos : len file <= pos -> _bfd_read_ar_hdr xvec a file pos = Fail no_more_archived_files.
Proof.
  intros Hpos. unfold _bfd_read_ar_hdr, _bfd_generic_read_ar_hdr_mag, read_all.
  rewrite sub_bytes_eof by lia. cbn [length].
  replace (Z.of_nat 0 =? Z.of_nat sizeof_ar_hdr) with false; [done|]. symmetry. apply Z.eqb_neq.
  unfold sizeof_ar_hdr, name_size. lia.
Qed.
End layout.
