(* ===== verification/ArchiveMembers.v ===== *)
(** The members of an archive that is written: their headers, the table of long
    names, and that both give each member its name back. *)

From S2P Require Import Prelude HashTable BfdSection Endian Decimal LinkerFiles Linker Archive ArchiveWrite ArchiveLayout.

(** ** What a member must be *)

Section members.
Context `{ArchiveFormat} `{FileNames}.
Context (xvec : ar_target) (env : environment) (flags : Z).
Context (Hmax : (12 <= ar_max_namelen xvec <= name_size)%nat) (Hpadc : ar_pad_char xvec <> 0).

(** A file name that is stored in the header: it ends at the slash behind it, or
    fills the field without a space, and is not taken for one of the special
    members. *)
Record short_ok (nm : cstring) : Prop := {
  so_length : (length nm <= ar_max_namelen xvec)%nat;
  so_nonempty : nm <> [];
  so_nul : 0 ∉ nm;
  so_slash : 47 ∉ nm;
  so_end : (length nm < ar_max_namelen xvec)%nat \/ 32 ∉ nm;
  so_plain : Forall (fun s => startswith nm (c_str s) = false) ["#1"; "__.SYMDEF"; "ARFILENAMES"; "________"]
}.

(** One that goes into the table of long names. *)
Record long_ok (nm : cstring) : Prop := {
  lo_length : (ar_max_namelen xvec < length nm)%nat;
  lo_flag : has flags BFD_TRADITIONAL_FORMAT = false;
  lo_chars : Forall (fun c => c <> 0 /\ c <> 10 /\ c <> 92) nm
}.

Definition member_name (m : member) : cstring := normalize flags (mb_filename m).

Definition file_size (f : member_file) : option Z :=
  match f with In_memory size => Some size | On_disk st => st_size <$> st end.

(** The header data of a member: it gives the size of its contents. *)
Record arelt_ok (m : member) (ared : areltdata) : Prop := {
  ao_sized : hdr_sized (arch_header ared);
  ao_no_nul : 0 ∉ h_name (arch_header ared);
  ao_says : says_size (arch_header ared) (len (mb_contents m));
  ao_parsed : parsed_size ared = len (mb_contents m)
}.

Record member_ok (m : member) : Prop := {
  mo_read : mb_write_p m = false;
  mo_pad : mb_pad_char m = 47;
  mo_filename : 0 ∉ mb_filename m;
  mo_name : short_ok (member_name m) \/ long_ok (member_name m);
  mo_size : len (mb_contents m) < 10 ^ 10;
  mo_file : match mb_arelt m with
            | None => file_size (mb_file m) = Some (len (mb_contents m))
            | Some ared => arelt_ok m ared
            end
}.

(** [m'] is [m] with header data that is right. *)
Definition prepared (m m' : member) : Prop :=
  exists ared, m' = set_mb_arelt (Some ared) m /\ arelt_ok m ared.

Lemma arelt_ok_name m ared name :
  arelt_ok m ared -> length name = name_size -> 0 ∉ name ->
  arelt_ok m (set_arch_header (set_h_name name (arch_header ared)) ared).
Proof. intros [[] Hnul Hsays Hp] Hn Hz. constructor; [constructor|..]; done. Qed.

Lemma put_at_no_nul pos bytes l : 0 ∉ bytes -> 0 ∉ l -> 0 ∉ put_at pos bytes l.
Proof.
  intros Hb Hl. unfold put_at. rewrite !elem_of_app. intros [Hin|[?|Hin]]; [|done|].
  - by apply Hl, (subseteq_take pos l).
  - by apply Hl, (subseteq_drop (pos + length bytes) l).
Qed.

Lemma put_name_ok m ared pos bytes :
  arelt_ok m ared -> (pos + length bytes <= name_size)%nat -> 0 ∉ bytes ->
  arelt_ok m (set_arch_header (put_name pos bytes (arch_header ared)) ared).
Proof.
  intros Hok Hle Hz. pose proof (hs_name _ (ao_sized _ _ Hok)) as Hn.
  apply arelt_ok_name; [done|rewrite put_at_length; lia|]. apply put_at_no_nul; [done|apply Hok].
Qed.

Lemma set_same m ared : arelt_ok m ared -> arelt_ok m (set_arch_header (arch_header ared) ared).
Proof. by intros [[] ???]; constructor. Qed.

Lemma not_in_take (l : list Z) n x : x ∉ l -> x ∉ take n l.
Proof. intros Hl Hin. by apply Hl, (subseteq_take n l). Qed.

Lemma basename_no_nul l : 0 ∉ l -> 0 ∉ lbasename l.
Proof. intros Hl Hin. destruct (lbasename_suffix l) as [k Hk]. apply Hl. rewrite Hk. by apply elem_of_app; right. Qed.

Lemma normalize_no_nul l : 0 ∉ l -> 0 ∉ normalize flags l.
Proof. unfold normalize. case_match; [done|apply basename_no_nul]. Qed.

(** ** Headers for files *)

Lemma blank_sized : hdr_sized (mkArHdr (replicate name_size 32) (replicate date_size 32) (replicate uid_size 32)
                                 (replicate gid_size 32) (replicate mode_size 32) (replicate size_size 32) ARFMAG).
Proof. constructor; cbn; by rewrite ?length_replicate. Qed.

Lemma pad_no_nul pad : pad <> 0 -> 0 ∉ [pad].
Proof. intros Hne [=]%list_elem_of_singleton. done. Qed.

Lemma bsd_truncate_put pathname ared m :
  0 ∉ pathname -> arelt_ok m ared ->
  arelt_ok m (set_arch_header (bfd_bsd_truncate_arname xvec pathname (arch_header ared)) ared).
Proof.
  intros H0' Hok. unfold bfd_bsd_truncate_arname. cbv zeta.
  assert (arelt_ok m (set_arch_header (put_name 0 (take (ar_max_namelen xvec) (lbasename pathname)) (arch_header ared)) ared))
    as Hok'.
  { apply put_name_ok; [done|rewrite length_take; lia|]. by apply not_in_take, basename_no_nul. }
  destruct (_ <? _)%nat eqn:E; [|done]. apply Nat.ltb_lt in E.
  apply (put_name_ok _ _ _ _ Hok'); [cbn [length]; lia|]. by apply pad_no_nul.
Qed.

Lemma dont_truncate_put pathname ared m :
  0 ∉ pathname -> arelt_ok m ared ->
  arelt_ok m (set_arch_header (bfd_dont_truncate_arname xvec flags pathname (arch_header ared)) ared).
Proof.
  intros H0' Hok. unfold bfd_dont_truncate_arname. cbv zeta. case_match; [by apply bsd_truncate_put|].
  pose proof (normalize_no_nul _ H0') as Hn. set (nm := normalize flags pathname) in *.
  assert (arelt_ok m (set_arch_header (if (length nm <=? ar_max_namelen xvec)%nat
                                       then put_name 0 nm (arch_header ared) else arch_header ared) ared)) as Hok'.
  { destruct (Nat.leb_spec (length nm) (ar_max_namelen xvec)); [apply put_name_ok; [done|lia|done]|].
    by apply set_same. }
  destruct (_ || _) eqn:E; [|done]. apply (put_name_ok _ _ _ _ Hok'); [|by apply pad_no_nul]. cbn [length].
  apply orb_true_iff in E as [E|E]; [|apply andb_true_iff in E as [_ E]]; apply Nat.ltb_lt in E; lia.
Qed.

Lemma truncate_put pathname ared m :
  0 ∉ pathname -> arelt_ok m ared ->
  arelt_ok m (set_arch_header (_bfd_truncate_arname xvec flags pathname (arch_header ared)) ared).
Proof.
  intros H0' Hok. unfold _bfd_truncate_arname. destruct (ar_style xvec);
    (by apply dont_truncate_put) || (by apply bsd_truncate_put).
Qed.

Lemma from_filesystem_ok m :
  mb_arelt m = None -> member_ok m -> exists ared, bfd_ar_hdr_from_filesystem env flags m = Ret ared /\ arelt_ok m ared.
Proof.
  intros Hno [_ _ _ _ Hsize Hfile]. rewrite Hno in Hfile. unfold bfd_ar_hdr_from_filesystem.
  destruct (sizepad_spec (len (mb_contents m)) ltac:(lia)) as (size & Hsp & Hlen & Hsays).
  destruct (mb_file m) as [n|[st|]]; cbn in Hfile; [..|done]; injection Hfile as Hst;
    cbn [mbind outcome_bind]; destruct (has flags BFD_DETERMINISTIC_OUTPUT); cbn [st_size];
    rewrite Hst, (wrap_small 64 (len _)), Z.sub_diag by (unfold fits; lia); cbn; rewrite Hsp; cbn;
    eexists; (split; [done|]); (constructor; [constructor|..]); cbn;
    try (by rewrite ?spacepad_length, ?length_replicate); apply (bool_decide_unpack _); by vm_compute.
Qed.

Lemma bfd_ar_hdr_ok m : member_ok m -> exists m', bfd_ar_hdr xvec env flags m = Ret m' /\ prepared m m'.
Proof.
  intros Hok. unfold bfd_ar_hdr. rewrite (mo_read m Hok). cbn. destruct (mb_arelt m) as [ared|] eqn:E.
  - exists m. split; [done|]. exists ared. split; [destruct m; cbn in *; by subst|].
    pose proof (mo_file m Hok) as Hf. by rewrite E in Hf.
  - destruct (from_filesystem_ok m E Hok) as (ared & -> & Ha). cbn. eexists. split; [done|].
    eexists. split; [done|]. apply truncate_put; [apply Hok|done].
Qed.

Lemma mapM_ok ms :
  Forall member_ok ms -> exists ms', mapM (bfd_ar_hdr xvec env flags) ms = Ret ms' /\ Forall2 prepared ms ms'.
Proof.
  induction 1 as [|m ms Hm _ (ms' & IH & Hall)]; [by exists []|].
  destruct (bfd_ar_hdr_ok m Hm) as (m' & Hm' & Hp). exists (m' :: ms'). split; [|by constructor].
  cbn. rewrite Hm'. cbn. by rewrite IH.
Qed.

(** ** Names in headers *)

Definition is_long (m : member) : bool := (ar_max_namelen xvec <? length (member_name m))%nat.

Lemma short_is_long m : short_ok (member_name m) -> is_long m = false.
Proof. intros []. unfold is_long. apply Nat.ltb_ge. lia. Qed.

Lemma long_is_long m : long_ok (member_name m) -> is_long m = true.
Proof. intros []. unfold is_long. apply Nat.ltb_lt. lia. Qed.

(** The name field of a short name: the name, and padding when there is room. *)
Definition short_field (pad : Z) (nm field : list Z) : Prop :=
  length field = name_size /\ exists rest, field = nm ++ rest /\ (rest = [] \/ head rest = Some pad).

Lemma put_at_after nm pad field :
  (length nm < name_size)%nat -> length field = name_size ->
  put_at (length nm) [pad] (put_at 0 nm field) = nm ++ pad :: drop (S (length nm)) field.
Proof.
  intros Hlt Hlen. unfold put_at at 1. rewrite put_at_0. rewrite take_app_length. cbn [length].
  rewrite drop_app_ge by lia. rewrite drop_drop.
  replace (length nm + (length nm + 1 - length nm))%nat with (S (length nm)) by lia. done.
Qed.

(** What the first pass leaves in the header of a short name. *)
Lemma normal_format_field pad nm hdr :
  (length nm <= ar_max_namelen xvec)%nat -> hdr_sized hdr ->
  short_field pad nm (h_name (normal_format xvec pad nm (length nm) hdr)).
Proof.
  intros Hle Hs. pose proof (hs_name _ Hs) as Hn. unfold normal_format.
  destruct (has_normal_format pad nm (length nm) hdr) eqn:E; cbv zeta.
  - unfold has_normal_format in E. apply andb_true_iff in E as [E1 E2].
    apply Z.eqb_eq, filename_ncmp_eq in E1. rewrite firstn_all in E1. split; [done|].
    exists (drop (length nm) (h_name hdr)). split; [by rewrite E1 at 1; rewrite take_drop|].
    apply orb_true_iff in E2 as [E2|E2].
    + apply Nat.leb_le in E2. left. apply drop_ge. lia.
    + apply bool_decide_eq_true in E2. right. by rewrite head_lookup, lookup_drop, Nat.add_0_r.
  - rewrite firstn_all. destruct ((length nm <? ar_max_namelen xvec)%nat || _) eqn:E2.
    + assert (length nm < name_size)%nat as Hlt.
      { apply orb_true_iff in E2 as [E2|E2]; [|apply andb_true_iff in E2 as [_ E2]]; apply Nat.ltb_lt in E2; lia. }
      cbn [put_name h_name set_h_name]. rewrite put_at_after by done. split.
      * rewrite length_app. cbn [length]. rewrite length_drop. lia.
      * eexists. split; [done|]. by right.
    + apply orb_false_iff in E2 as [E2 E3]. apply Nat.ltb_ge in E2. apply andb_false_iff in E3.
      assert (length nm = name_size) as Heq.
      { destruct E3 as [E3|E3]; [apply Nat.eqb_neq in E3; lia|apply Nat.ltb_ge in E3; lia]. }
      cbn [put_name h_name set_h_name]. rewrite put_at_0, drop_ge by lia. rewrite app_nil_r. split; [done|].
      exists []. rewrite app_nil_r. auto.
Qed.

(** It changes nothing but the name. *)
Lemma normal_format_ok m ared pad nm n :
  (n <= ar_max_namelen xvec)%nat -> 0 ∉ nm -> pad <> 0 -> arelt_ok m ared ->
  arelt_ok m (set_arch_header (normal_format xvec pad nm n (arch_header ared)) ared).
Proof.
  intros Hle Hnm Hp Hok. unfold normal_format. cbv zeta. case_match; [by apply set_same|].
  assert (arelt_ok m (set_arch_header (put_name 0 (take n nm) (arch_header ared)) ared)) as Hok'.
  { apply put_name_ok; [done|rewrite length_take; lia|by apply not_in_take]. }
  destruct (_ || _) eqn:E; [|done]. apply (put_name_ok _ _ _ _ Hok'); [|by apply pad_no_nul]. cbn [length].
  apply orb_true_iff in E as [E|E]; [|apply andb_true_iff in E as [_ E]]; apply Nat.ltb_lt in E; lia.
Qed.

(** A member after the first pass. *)
Definition measured (m m' : member) : Prop :=
  exists ared, m' = set_mb_arelt (Some ared) m /\ arelt_ok m ared /\
    (is_long m = false -> short_field (mb_pad_char m) (member_name m) (h_name (arch_header ared))).

Definition table_entry (m : member) : list Z := if is_long m then member_name m ++ [47; 10] else [].
Definition names_table (ms : list member) : list Z := concat (table_entry <$> ms).

Lemma measure_spec total ms ms1 :
  Forall member_ok ms -> Forall2 prepared ms ms1 ->
  exists ms2, measure_names xvec flags true total ms1 = Ret (total + len (names_table ms), ms2) /\ Forall2 measured ms ms2.
Proof.
  intros Hok Hp. revert total. induction Hp as [|m m1 ms ms1 Hm Hp IH]; intros total.
  { exists []. cbn. split; [by rewrite Z.add_0_r|done]. }
  apply Forall_cons in Hok as [Hmok Hok]. destruct Hm as (ared & -> & Ha).
  unfold names_table. rewrite fmap_cons. cbn [concat measure_names]. rewrite length_app.
  change (mb_filename (set_mb_arelt (Some ared) m)) with (mb_filename m). fold (member_name m).
  change (mb_pad_char (set_mb_arelt (Some ared) m)) with (mb_pad_char m).
  destruct (mo_name m Hmok) as [Hs|Hl].
  - pose proof (short_is_long m Hs) as Hnl. unfold table_entry at 1. rewrite Hnl. cbn [length].
    unfold is_long in Hnl. rewrite Hnl. cbn [andb]. rewrite Hnl. cbn [arch_eltdata set_mb_arelt mb_arelt of_opt mbind outcome_bind].
    cbv zeta. destruct (IH Hok total) as (ms2 & Hms2 & Hall). rewrite Hms2. cbn [mbind outcome_bind].
    eexists. split; [do 2 f_equal; fold (names_table ms); lia|]. constructor; [|done].
    eexists. split; [done|]. split.
    + apply normal_format_ok; [apply Hs|apply Hs| |done]. by rewrite (mo_pad m Hmok).
    + intros _. by apply normal_format_field; [apply Hs|apply Ha].
  - pose proof (long_is_long m Hl) as Hnl. unfold table_entry at 1. rewrite Hnl. rewrite length_app.
    unfold is_long in Hnl. rewrite Hnl, (lo_flag _ Hl). cbn [andb]. rewrite Hnl.
    destruct (IH Hok (total + len (member_name m) + 1 + 1)) as (ms2 & -> & Hall). cbn [mbind outcome_bind].
    eexists. split; [do 2 f_equal; fold (names_table ms); cbn [length]; lia|]. constructor; [|done].
    exists ared. split_and!; [done..|]. unfold is_long. by rewrite Hnl.
Qed.

(** *** The table of long names, as it is read *)

Lemma fix_below done x acc l :
  x <> 47 -> exists done', foldl fix_name_char (done ++ x :: acc) l = done' ++ x :: acc.
Proof.
  intros Hx. revert done. induction l as [|c l IH]; intros done; [by exists done|]. cbn [foldl].
  enough (exists done', fix_name_char (done ++ x :: acc) c = done' ++ x :: acc) as [done' ->] by apply IH.
  unfold fix_name_char. destruct (c =? nth 1 ARFMAG 0).
  - destruct done as [|d done].
    + exists [0]. cbn [app]. destruct (Z.eq_dec x 47); [done|]. by repeat (case_match; try done).
    + cbn [app]. destruct (Z.eq_dec d 47) as [->|Hd]; [by exists (c :: 0 :: done)|].
      exists (0 :: d :: done). cbn [app]. by repeat (case_match; try done).
  - destruct (c =? 92); [by exists (47 :: done)|by exists (c :: done)].
Qed.

Lemma fix_length acc l : length (foldl fix_name_char acc l) = (length acc + length l)%nat.
Proof.
  revert acc. induction l as [|c l IH]; intros acc; cbn [foldl length]; [lia|].
  rewrite IH. enough (length (fix_name_char acc c) = S (length acc)) by lia. unfold fix_name_char.
  destruct (c =? nth 1 ARFMAG 0); [|by destruct (c =? 92)].
  destruct acc as [|d acc]; [done|]. destruct (Z.eq_dec d 47) as [->|Hd]; [done|]. by repeat (case_match; try done).
Qed.

Lemma newline : nth 1 ARFMAG 0 = 10.
Proof. by rewrite ARFMAG_newline. Qed.

Lemma fix_plain acc nm :
  Forall (fun c => c <> 0 /\ c <> 10 /\ c <> 92) nm -> foldl fix_name_char acc nm = rev nm ++ acc.
Proof.
  intros Hnm. revert acc. induction Hnm as [|c nm (_ & Hc & Hc') _ IH]; intros acc; [done|]. cbn [foldl rev].
  rewrite IH, <- app_assoc. unfold fix_name_char. rewrite newline.
  replace (c =? 10) with false by lia. by replace (c =? 92) with false by lia.
Qed.

(** An entry of the table, behind others: a C string is there. *)
Lemma fix_names_entry pre nm post :
  Forall (fun c => c <> 0 /\ c <> 10 /\ c <> 92) nm ->
  exists tail, drop (length pre) (fix_names (pre ++ nm ++ [47; 10] ++ post)) = nm ++ 0 :: tail.
Proof.
  intros Hnm. unfold fix_names. rewrite !foldl_app, (fix_plain _ nm Hnm). cbn [foldl].
  set (acc := foldl fix_name_char [] pre).
  assert (fix_name_char (fix_name_char (rev nm ++ acc) 47) 10 = 10 :: 0 :: rev nm ++ acc) as ->.
  { unfold fix_name_char. rewrite newline. done. }
  destruct (fix_below [] 10 (0 :: rev nm ++ acc) post ltac:(done)) as [done' Hd]. cbn [app] in Hd. rewrite Hd.
  exists ([10] ++ rev done'). rewrite rev_app_distr. cbn [rev]. rewrite rev_app_distr, rev_involutive, <- !app_assoc.
  rewrite drop_app_length'; [done|]. rewrite length_rev. unfold acc. rewrite fix_length. done.
Qed.

(** The archive [a] has the table [tab]. *)
Definition has_table (tab : list Z) (a : artdata) : Prop :=
  if bool_decide (tab = []) then extended_names a = None
  else exists rest tail, extended_names a = Some (fix_names (tab ++ rest) ++ tail) /\ len tab <= extended_names_size a.

(** ** Reading the names *)

Lemma hdr_name_app h : hdr_bytes h = h_name h ++ drop name_size (hdr_bytes h) \/ length (h_name h) <> name_size.
Proof.
  destruct (decide (length (h_name h) = name_size)) as [E|]; [left|by right].
  unfold hdr_bytes. rewrite <- E at 1. by rewrite drop_app_length.
Qed.

Lemma hdr_bytes_name h k :
  length (h_name h) = name_size -> (k <= name_size)%nat -> take k (hdr_bytes h) = take k (h_name h).
Proof. intros Hn Hk. unfold hdr_bytes. by rewrite take_app_le by lia. Qed.

Lemma startswith_app nm l rest : startswith nm l = false -> (length l <= length nm)%nat -> take (length l) (nm ++ rest) <> l.
Proof.
  intros Hs Hle Heq. unfold startswith in Hs. apply bool_decide_eq_false in Hs. apply Hs.
  by rewrite take_app_le in Heq by lia.
Qed.

(** A short name's field does not begin with one of the special names, as far
    as they have no slashes. *)
Lemma short_field_prefix nm field s :
  short_field 47 nm field -> startswith nm (c_str s) = false ->
  47 ∉ c_str s -> (length (c_str s) <= name_size)%nat ->
  take (length (c_str s)) field <> c_str s.
Proof.
  intros (Hlen & rest & -> & Hrest) Hs H47 Hl Heq.
  destruct (Nat.le_gt_cases (length (c_str s)) (length nm)) as [Hle|Hgt].
  { by apply (startswith_app nm (c_str s) rest). }
  destruct rest as [|c rest]; [rewrite app_nil_r in Hlen; lia|].
  destruct Hrest as [|[= ->]]; [done|]. apply H47. rewrite <- Heq.
  apply (list_elem_of_lookup_2 _ (length nm)). rewrite lookup_take_lt by lia.
  by rewrite lookup_app_r, Nat.sub_diag.
Qed.

Lemma short_prefixes nm field :
  short_ok nm -> short_field 47 nm field ->
  Forall (fun s => take (length (c_str s)) field <> c_str s) ["#1"; "__.SYMDEF"; "ARFILENAMES"; "________"].
Proof.
  intros Hs Hf. pose proof (so_plain _ Hs) as Hp. rewrite !Forall_cons in Hp |- *.
  destruct Hp as (H1 & H2 & H3 & H4 & _).
  split_and!; [..|done]; (eapply short_field_prefix; [done..| |]; apply (bool_decide_unpack _); by vm_compute).
Qed.

(** The name a short name's header has, whatever the table. *)
Lemma name_end nm rest k :
  short_ok nm -> 0 ∉ nm ++ rest -> (rest = [] \/ head rest = Some 47) ->
  k = ar_max_namelen xvec -> (k <= length (nm ++ rest))%nat ->
  match memchr (take k (nm ++ rest)) 0 with
  | Some e => e
  | None => match memchr (take k (nm ++ rest)) 47 with
            | Some e => e
            | None => match memchr (take k (nm ++ rest)) 32 with Some e => e | None => k end
            end
  end = length nm.
Proof.
  intros Hs Hz Hrest Hkm Hk. pose proof (so_length _ Hs) as Hle.
  rewrite (memchr_none (take k (nm ++ rest)) 0) by (by apply not_in_take).
  destruct (decide (length nm = k)) as [Heq|Hne].
  - rewrite take_app_le by lia. rewrite <- Heq, firstn_all.
    rewrite memchr_none by apply Hs. rewrite memchr_none; [done|].
    destruct (so_end _ Hs); [lia|done].
  - destruct rest as [|c rest]; [rewrite app_nil_r in Hk; lia|].
    destruct Hrest as [|[= ->]]; [done|].
    rewrite take_app_ge by lia. destruct (k - length nm)%nat as [|d] eqn:Ed; [lia|]. cbn [take].
    by rewrite memchr_app by apply Hs.
Qed.

Lemma short_first nm field :
  short_ok nm -> short_field 47 nm field -> exists c, nth 0 field 0 = c /\ c <> 47 /\ (c = 32 -> 32 ∈ nm).
Proof.
  intros Hs (_ & rest & -> & _). destruct nm as [|c nm]; [by destruct (so_nonempty _ Hs)|].
  exists c. split_and!; [done| |intros ->; by left]. intros ->. destruct (so_slash _ Hs). by left.
Qed.

Lemma short_named a h nm :
  short_ok nm -> hdr_sized h -> 0 ∉ h_name h -> short_field 47 nm (h_name h) -> hdr_named xvec a h nm.
Proof.
  intros Hs Hh Hz Hf. pose proof (hs_name _ Hh) as Hn. unfold hdr_named.
  assert (is_extended xvec a h = false) as ->.
  { unfold is_extended. destruct (short_first _ _ Hs Hf) as (c & -> & Hc & H32). cbv zeta.
    replace (c =? 47) with false by lia. cbn [orb]. destruct (Z.eqb_spec c 32) as [->|]; [|done]. cbn [andb].
    rewrite hdr_bytes_name by (done || lia). destruct Hf as (Hlen & rest & Heq & Hrest). rewrite Heq in *.
    destruct (so_end _ Hs) as [Hlt|Hno]; [|by destruct Hno; apply H32].
    destruct rest as [|c rest]; [rewrite app_nil_r in Hlen; lia|]. destruct Hrest as [|[= ->]]; [done|].
    rewrite take_app_ge by lia. destruct (ar_max_namelen xvec - length nm)%nat as [|d] eqn:Ed; [lia|]. cbn [take].
    by rewrite memchr_app by apply Hs. }
  split.
  - unfold is_bsd44_extended_name. pose proof (short_prefixes _ _ Hs Hf) as Hp.
    apply Forall_cons in Hp as [Hp _]. rewrite bool_decide_eq_false_2; [done|]. intros Heq. apply Hp.
    change (length (c_str "#1")) with 2%nat. replace (take 2 (h_name h)) with (take 2 (take 3 (h_name h))) by (by rewrite take_take).
    by rewrite Heq.
  - assert (name_length xvec h = length nm) as ->.
    { unfold name_length. cbv zeta. rewrite hdr_bytes_name by (done || lia).
      destruct Hf as (Hlen & rest & Heq & Hrest). rewrite Heq in *. apply name_end; try done; lia. }
    rewrite hdr_bytes_name by (done || (pose proof (so_length _ Hs); lia)).
    destruct Hf as (_ & rest & -> & _). rewrite take_app_length. apply until_nul_none, Hs.
Qed.

(** *** Long names *)

Definition long_field (stroff : Z) (field : list Z) : Prop :=
  length field = name_size /\
  take (ar_max_namelen xvec) field = 47 :: _bfd_ar_spacepad (ar_max_namelen xvec - 1) (printf_ld stroff).

Lemma stroff_text n text :
  text = print_unsigned 10 n -> 0 <= n < 10 ^ 10 -> (11 <= ar_max_namelen xvec - 1)%nat ->
  _bfd_ar_spacepad (ar_max_namelen xvec - 1) text =
  text ++ 32 :: replicate (ar_max_namelen xvec - 2 - length text) 32.
Proof.
  intros -> Hn Hm. pose proof (print_length 10 n 10 ltac:(lia) ltac:(lia) ltac:(lia)) as Hl.
  unfold _bfd_ar_spacepad. rewrite (firstn_all2 (n := 19)) by lia. rewrite fill_field_short by lia. f_equal.
  replace (ar_max_namelen xvec - 1 - length (print_unsigned 10 n))%nat
    with (S (ar_max_namelen xvec - 2 - length (print_unsigned 10 n))) by lia. done.
Qed.

Lemma long_named a h tab pre nm post :
  tab = pre ++ nm ++ [47; 10] ++ post -> Forall (fun c => c <> 0 /\ c <> 10 /\ c <> 92) nm ->
  len tab < 10 ^ 10 -> has_table tab a -> length (h_name h) = name_size ->
  long_field (len pre) (h_name h) -> hdr_named xvec a h nm.
Proof.
  intros Htab Hnm Hlen Ha Hn [_ Hf]. pose proof (Nat2Z.is_nonneg (length pre)).
  assert (len pre < len tab) as Hlt by (rewrite Htab, !length_app; cbn [length]; lia).
  rewrite printf_ld_nonneg, (stroff_text (len pre) _ eq_refl) in Hf by lia.
  unfold has_table in Ha. rewrite bool_decide_eq_false_2 in Ha by (intros ->; destruct pre, nm; cbn in *; lia).
  destruct Ha as (rest & tail & Hext & Hsize).
  assert (hdr_bytes h = take (ar_max_namelen xvec) (h_name h) ++ drop (ar_max_namelen xvec) (hdr_bytes h)) as Hb.
  { rewrite <- hdr_bytes_name by (done || lia). by rewrite take_drop. }
  assert (is_extended xvec a h = true) as He.
  { unfold is_extended. rewrite Hext. rewrite <- (take_drop (ar_max_namelen xvec) (h_name h)), Hf. done. }
  unfold hdr_named. rewrite He. unfold get_extended_arelt_filename. rewrite Hb, Hf. cbn [app drop].
  rewrite drop_0, <- app_assoc. cbn [app]. rewrite strtol_print by (done || (unfold LONG_MAX; lia)).
  rewrite wrap_small by (unfold fits; lia). cbn [orb].
  replace (extended_names_size a <=? len pre) with false by lia. cbn [mbind outcome_bind].
  rewrite Hext. cbn [of_opt mbind outcome_bind]. rewrite Nat2Z.id.
  destruct (fix_names_entry pre nm (post ++ rest) Hnm) as [tl Htl].
  rewrite drop_app_le.
  - replace (tab ++ rest) with (pre ++ nm ++ [47; 10] ++ post ++ rest) by (rewrite Htab, <- !app_assoc; done).
    rewrite Htl, <- app_assoc. cbn [app]. rewrite until_nul_app; [done|].
    intros Hin. rewrite Forall_forall in Hnm. by apply Hnm in Hin as [? _].
  - unfold fix_names. rewrite length_rev, fix_length, Htab, !length_app. cbn [length]. lia.
Qed.

(** ** Members as they are written *)

(** A name field that is not taken for a special member's. *)
Definition ordinary (field : list Z) : Prop :=
  Forall (fun s => take (length (c_str s)) field <> c_str s)
    ["/ "; "//"; "/SYM64/"; "#1"; "__.SYMDEF"; "ARFILENAMES"; "________"].

Lemma short_ordinary nm field : short_ok nm -> short_field 47 nm field -> ordinary field.
Proof.
  intros Hs Hf. destruct (short_first _ _ Hs Hf) as (c & Hc & H47 & _).
  pose proof (short_prefixes _ _ Hs Hf) as Hp. unfold ordinary. rewrite 3!Forall_cons.
  split_and!; [..|done]; intros Heq; destruct field as [|d field]; try done; cbn in Hc, Heq; subst c;
    injection Heq; intros; done.
Qed.

Lemma long_ordinary n field : 0 <= n < 10 ^ 10 -> long_field n field -> ordinary field.
Proof.
  intros Hn [_ Hf]. rewrite printf_ld_nonneg, (stroff_text n _ eq_refl) in Hf by lia.
  destruct (print_first 10 n ltac:(lia) ltac:(lia)) as (c & l & E & Hc). rewrite E in Hf. cbn [app] in Hf.
  rewrite <- (take_drop (ar_max_namelen xvec) field), Hf. unfold ordinary. cbn [app].
  rewrite !Forall_cons. split_and!; try done; intros Heq; injection Heq; intros; lia.
Qed.

(** [m'] is [m] with the header that goes into an archive whose table of long
    names is [tab]. *)
Definition final (tab : list Z) (m m' : member) : Prop :=
  exists ared, m' = set_mb_arelt (Some ared) m /\ arelt_ok m ared /\
    ordinary (h_name (arch_header ared)) /\
    forall a, has_table tab a -> hdr_named xvec a (arch_header ared) (member_name m).

Lemma short_final tab m m' : short_ok (member_name m) -> mb_pad_char m = 47 -> measured m m' -> final tab m m'.
Proof.
  intros Hs Hp (ared & -> & Ha & Hf). specialize (Hf (short_is_long m Hs)). rewrite Hp in Hf.
  exists ared. split_and!; [done..|by eapply short_ordinary|].
  intros a _. apply short_named; [done|apply Ha|apply Ha|done].
Qed.

Lemma long_hdr_field n hdr :
  length (h_name hdr) = name_size ->
  long_field n (h_name (put_name 1 (_bfd_ar_spacepad (ar_max_namelen xvec - 1) (printf_ld n)) (put_name 0 [47] hdr))).
Proof.
  intros Hn. cbn [put_name set_h_name h_name]. split.
  - rewrite !put_at_length; rewrite ?spacepad_length; cbn [length]; rewrite ?put_at_length; cbn [length]; lia.
  - unfold put_at at 1. rewrite put_at_0. cbn [length app]. rewrite firstn_cons, take_0. cbn [app].
    destruct (ar_max_namelen xvec) as [|k] eqn:Ek; [lia|]. rewrite firstn_cons. f_equal.
    replace (S k - 1)%nat with k by lia. rewrite take_app_le by (rewrite spacepad_length; lia).
    apply firstn_all2. rewrite spacepad_length. lia.
Qed.

Lemma store_spec pre post ms ms2 :
  Forall member_ok ms -> Forall2 measured ms ms2 -> len (pre ++ names_table ms ++ post) < 10 ^ 10 ->
  exists ms3, store_names xvec flags true pre ms2 = Ret (pre ++ names_table ms, ms3) /\
    Forall2 (final (pre ++ names_table ms ++ post)) ms ms3.
Proof.
  intros Hok Hm. revert pre. induction Hm as [|m m2 ms ms2 Hm Hall IH]; intros pre Hlen.
  { exists []. cbn. by rewrite app_nil_r. }
  apply Forall_cons in Hok as [Hmok Hok]. unfold names_table in *. rewrite fmap_cons in *. cbn [concat] in *.
  fold (names_table ms) in *. pose proof Hm as (ared & -> & Ha & Hf). cbn [store_names].
  change (mb_filename (set_mb_arelt (Some ared) m)) with (mb_filename m). fold (member_name m). fold (is_long m).
  change (mb_pad_char (set_mb_arelt (Some ared) m)) with (mb_pad_char m). rewrite (mo_pad m Hmok).
  destruct (mo_name m Hmok) as [Hs|Hl].
  - pose proof (short_is_long m Hs) as Hnl. unfold table_entry in *. rewrite Hnl in *. cbn [app] in *.
    destruct (IH Hok pre Hlen) as (ms3 & -> & Hfin). cbn [mbind outcome_bind]. eexists. split; [done|].
    constructor; [|done]. apply short_final; [done|apply Hmok|done].
  - pose proof (long_is_long m Hl) as Hnl. unfold table_entry in *. rewrite Hnl in *.
    cbn [arch_eltdata set_mb_arelt mb_arelt of_opt mbind outcome_bind app]. rewrite newline.
    assert (pre ++ ((member_name m ++ [47; 10]) ++ names_table ms) ++ post =
            (pre ++ member_name m ++ [47; 10]) ++ names_table ms ++ post) as Htab by (by rewrite <- !app_assoc).
    rewrite Htab in Hlen |- *. destruct (IH Hok _ Hlen) as (ms3 & -> & Hfin). cbn [mbind outcome_bind].
    eexists. split; [by rewrite <- !app_assoc|]. constructor; [|done].
    assert (len pre < 10 ^ 10) as Hpre by (rewrite !length_app in Hlen; lia).
    pose proof (long_hdr_field (len pre) (arch_header ared) (hs_name _ (ao_sized _ _ Ha))) as Hfield.
    eexists. split; [done|]. split; [|split].
    + pose proof (put_name_ok m ared 0 [47] Ha ltac:(cbn; lia) ltac:(by apply pad_no_nul)) as Ha'.
      apply (put_name_ok m _ 1 _ Ha'); [rewrite spacepad_length; lia|]. 
      rewrite printf_ld_nonneg, (stroff_text (len pre) _ eq_refl) by lia.
      rewrite elem_of_app, elem_of_cons, elem_of_replicate. intros [Hin|[?|[? _]]]; [|done..].
      by apply print_no_nul in Hin; [|lia].
    + apply (long_ordinary (len pre)); [lia|done].
    + intros a Ha'. apply (long_named a _ ((pre ++ member_name m ++ [47; 10]) ++ names_table ms ++ post) pre
                       (member_name m) (names_table ms ++ post)).
      * by rewrite <- !app_assoc.
      * apply Hl.
      * exact Hlen.
      * exact Ha'.
      * apply Hfield.
      * exact Hfield.
Qed.

(** Targets whose archives are like COFF's. *)
Definition coff_like : Prop := ar_style xvec = style_coff \/ ar_style xvec = style_64_bit.

Lemma no_table_short ms : Forall member_ok ms -> names_table ms = [] -> Forall (fun m => short_ok (member_name m)) ms.
Proof.
  induction 1 as [|m ms Hm _ IH]; [done|]. unfold names_table. rewrite fmap_cons. cbn [concat].
  intros [Ht Hrest]%app_eq_nil. constructor; [|by apply IH]. destruct (mo_name m Hm) as [?|Hl]; [done|].
  unfold table_entry in Ht. rewrite (long_is_long m Hl) in Ht. by apply app_eq_nil in Ht as [_ ?].
Qed.

Lemma construct_spec ms ms1 :
  coff_like -> Forall member_ok ms -> Forall2 prepared ms ms1 -> len (names_table ms) < 10 ^ 10 ->
  exists ms3, construct_extended_name_table xvec flags ms1 = Ret (names_table ms, c_str "//", ms3) /\
    Forall2 (final (names_table ms)) ms ms3.
Proof.
  intros Hstyle Hok Hp Hlen. unfold construct_extended_name_table, _bfd_construct_extended_name_table.
  destruct (measure_spec 0 ms ms1 Hok Hp) as (ms2 & -> & Hm).
  destruct (store_spec [] [] ms ms2 Hok Hm) as (ms3 & Hst & Hfin).
  { by rewrite app_nil_r. }
  cbn [app] in Hst, Hfin. rewrite app_nil_r in Hfin. cbn [mbind outcome_bind]. rewrite Z.add_0_l, Hst.
  destruct (Z.eqb_spec (len (names_table ms)) 0) as [E|E]; cbn [mbind outcome_bind].
  - assert (names_table ms = []) as Hnil by (apply nil_length_inv; lia). rewrite Hnil in *.
    exists ms2. split; [by destruct Hstyle as [-> | ->]|].
    pose proof (no_table_short ms Hok Hnil) as Hs. clear - Hs Hm Hok Hmax.
    induction Hm as [|m m2 ms ms2 Hm _ IH]; [constructor|].
    apply Forall_cons in Hs as [Hs Hss]. apply Forall_cons in Hok as [Hmok Hok].
    constructor; [|by apply IH]. apply short_final; [done|apply Hmok|done].
  - exists ms3. split; [by destruct Hstyle as [-> | ->]|done].
Qed.
End members.
