(* ===== verification/ArchiveArmap.v ===== *)
(** The symbol table of an archive that is written: the symbols collected from
    the members, their offsets, and the bytes of the table. *)

From S2P Require Import Prelude HashTable BfdSection Endian Decimal LinkerFiles Linker Archive.
From S2P Require Import ArchiveWrite ArchiveLayout ArchiveMembers.

(** ** What writing appends *)

Definition emits {A} (w : Wr A) (a : A) (bs : list Z) : Prop := forall out, w out = Ret (a, out ++ bs).

Lemma emits_ret {A} (a : A) : emits (mret a) a [].
Proof. intros out. by rewrite app_nil_r. Qed.

Lemma emits_bind {A B} (w : Wr A) (f : A -> Wr B) a b bs bs' :
  emits w a bs -> emits (f a) b bs' -> emits (w ≫= f) b (bs ++ bs').
Proof.
  intros Hw Hf out. unfold mbind, Wr_bind. rewrite (Hw out), (Hf (out ++ bs)). by rewrite app_assoc.
Qed.

Lemma emits_pure {A B} (m : AR A) (f : A -> Wr B) a b bs :
  m = Ret a -> emits (f a) b bs -> emits (pure_wr m ≫= f) b bs.
Proof. intros -> Hf out. unfold mbind, Wr_bind, pure_wr. cbn. apply Hf. Qed.

Lemma emits_then {B} (w : Wr unit) (w' : Wr B) b bs bs' :
  emits w tt bs -> emits w' b bs' -> emits (_ ← w; w') b (bs ++ bs').
Proof. intros Hw Hw'. by eapply emits_bind. Qed.

Lemma emits_eq {A} (w : Wr A) a bs bs' : emits w a bs -> bs = bs' -> emits w a bs'.
Proof. by intros ? <-. Qed.

(** ** Symbols *)

Section armap.
Context `{ArchiveFormat} `{FileNames}.
Context (xvec : ar_target) (env : environment) (flags : Z).
Context (takes : list Z -> list Z -> bool) (Htakes : forall out bs, takes out bs = true).

Lemma emits_write bs : emits (bfd_write takes bs) tt bs.
Proof. intros out. unfold bfd_write. by rewrite Htakes. Qed.

(** The symbols of a member that go into the table. *)
Definition armap_symbols (m : member) : list ar_symbol :=
  if mb_object m && has (mb_flags m) HAS_SYMS && negb (mb_symtab_storage m =? 0)
  then filter (fun y => in_armap y = true) (default [] (mb_symtab m))
  else [].

Definition symbols_ok (m : member) : Prop :=
  mb_object m && has (mb_flags m) HAS_SYMS = true ->
  0 <= mb_symtab_storage m /\ (mb_symtab_storage m <> 0 -> is_Some (mb_symtab m)) /\ mb_free_cached_info m = true /\
  Forall (fun y => 0 ∉ as_name y) (armap_symbols m).

Definition symbol_bytes (y : ar_symbol) : list Z := as_name y ++ [0].
Definition symbol_names (m : member) : list Z := concat (symbol_bytes <$> armap_symbols m).
Definition all_names (ms : list member) : list Z := concat (symbol_names <$> ms).

(** The map that is made of them. *)
Fixpoint symbol_orls (current : nat) (stridx : Z) (syms : list ar_symbol) : list orl :=
  match syms with
  | [] => []
  | y :: syms => mkOrl (as_name y) current stridx :: symbol_orls current (stridx + len (symbol_bytes y)) syms
  end.

Fixpoint member_orls (current : nat) (stridx : Z) (ms : list member) : list orl :=
  match ms with
  | [] => []
  | m :: ms => symbol_orls current stridx (armap_symbols m) ++ member_orls (S current) (stridx + len (symbol_names m)) ms
  end.

Lemma symbol_bytes_length y : len (symbol_bytes y) = len (as_name y) + 1.
Proof. unfold symbol_bytes. rewrite length_app. cbn [length]. lia. Qed.

Lemma map_symbols_spec current stridx syms :
  0 <= stridx -> stridx + len (concat (symbol_bytes <$> filter (fun y => in_armap y = true) syms)) < 2 ^ 31 ->
  map_symbols current stridx syms =
    (symbol_orls current stridx (filter (fun y => in_armap y = true) syms),
     stridx + len (concat (symbol_bytes <$> filter (fun y => in_armap y = true) syms))).
Proof.
  revert stridx. induction syms as [|y syms IH]; intros stridx Hs Hlt; cbn [map_symbols].
  { cbn. by rewrite Z.add_0_r. }
  rewrite filter_cons in *. destruct (in_armap y) eqn:E; [|by apply IH].
  destruct (decide (true = true)) as [_|]; [|done]. rewrite fmap_cons in *. cbn [concat symbol_orls] in *.
  rewrite length_app, Nat2Z.inj_add in *. rewrite sext_small; [|lia|].
  - rewrite symbol_bytes_length in *. rewrite <- Z.add_assoc, IH by lia. f_equal. lia.
  - rewrite symbol_bytes_length in *. lia.
Qed.

Lemma map_members_spec current stridx ms :
  Forall symbols_ok ms -> 0 <= stridx -> stridx + len (all_names ms) < 2 ^ 31 ->
  map_members current stridx ms = Ret (member_orls current stridx ms, stridx + len (all_names ms)).
Proof.
  intros Hok. revert current stridx. induction Hok as [|m ms Hm _ IH]; intros current stridx Hs Hlt; cbn [map_members].
  { cbn. by rewrite Z.add_0_r. }
  unfold all_names in *. rewrite fmap_cons in *. cbn [concat member_orls] in *. fold (all_names ms) in *.
  rewrite length_app, Nat2Z.inj_add in *. unfold symbols_ok, symbol_names, armap_symbols in *.
  destruct (mb_object m && has (mb_flags m) HAS_SYMS) eqn:E; cbn [andb] in *.
  - destruct (Hm eq_refl) as (Hst & Hsome & Hfree & _). replace (mb_symtab_storage m <? 0) with false by lia.
    destruct (Z.eqb_spec (mb_symtab_storage m) 0) as [Hz|Hz]; cbn [negb] in *.
    + cbn [fmap list_fmap concat length symbol_orls app mbind outcome_bind] in *. rewrite Hfree. cbn [ensure mbind outcome_bind].
      rewrite Z.add_0_r in *. rewrite IH by lia. done.
    + destruct (Hsome Hz) as [syms Hsy]. rewrite Hsy in *. cbn [default from_option id mbind outcome_bind] in *.
      rewrite map_symbols_spec by (unfold id in *; lia). rewrite Hfree. cbn [ensure mbind outcome_bind].
      rewrite IH by (unfold id in *; lia). cbn [mbind outcome_bind]. unfold id. by rewrite Z.add_assoc.
  - cbn [fmap list_fmap concat length symbol_orls app] in *. rewrite Z.add_0_r. rewrite IH by lia. done.
Qed.

Lemma member_orls_from current stridx ms : Forall (fun e => (current <= orl_abfd e)%nat) (member_orls current stridx ms).
Proof.
  revert current stridx. induction ms as [|m ms IH]; intros current stridx; cbn [member_orls]; [constructor|].
  apply Forall_app. split.
  - generalize stridx. induction (armap_symbols m) as [|y l IHl]; intros s; cbn [symbol_orls]; constructor; [done|].
    apply IHl.
  - eapply Forall_impl; [apply IH|]. intros e He. cbn in He. lia.
Qed.

Lemma orls_length current stridx ms :
  length (member_orls current stridx ms) = length (concat (armap_symbols <$> ms)).
Proof.
  revert current stridx. induction ms as [|m ms IH]; intros current stridx; [done|].
  rewrite fmap_cons. cbn [member_orls concat]. rewrite !length_app, IH. f_equal.
  generalize stridx. induction (armap_symbols m) as [|y l IHl]; intros s; cbn [symbol_orls length]; [done|].
  by rewrite IHl.
Qed.

Lemma emits_symbol_names current stridx l rest bs :
  emits (write_names takes rest) tt bs ->
  emits (write_names takes (symbol_orls current stridx l ++ rest)) tt (concat (symbol_bytes <$> l) ++ bs).
Proof.
  intros Hrest. revert stridx. induction l as [|y l IH]; intros stridx; [exact Hrest|].
  rewrite fmap_cons. cbn [symbol_orls app write_names concat orl_name]. rewrite <- app_assoc.
  apply emits_then; [apply emits_write|apply IH].
Qed.

Lemma emits_names current stridx ms : emits (write_names takes (member_orls current stridx ms)) tt (all_names ms).
Proof.
  revert current stridx. induction ms as [|m ms IH]; intros current stridx; [apply emits_ret|].
  apply emits_symbol_names, IH.
Qed.

(** ** Offsets *)

(** The bytes of a member with its header, and padding to an even length. *)
Definition member_space (m : member) : Z :=
  Z.of_nat sizeof_ar_hdr + len (mb_contents m) + len (mb_contents m) mod 2.

Definition total_space (ms : list member) : Z := foldr (fun m n => member_space m + n) 0 ms.

Fixpoint member_positions (ptr : Z) (ms : list member) : list Z :=
  match ms with
  | [] => []
  | m :: ms => ptr :: member_positions (ptr + member_space m) ms
  end.

(** For each symbol of the map, where its member is. *)
Fixpoint symbol_offsets (ptr : Z) (ms : list member) : list Z :=
  match ms with
  | [] => []
  | m :: ms => replicate (length (armap_symbols m)) ptr ++ symbol_offsets (ptr + member_space m) ms
  end.

Lemma sizeof_even : Z.of_nat sizeof_ar_hdr mod 2 = 0.
Proof.
  destruct ar_hdr_even as [k Hk]. unfold sizeof_ar_hdr, name_size. rewrite Hk.
  replace (Z.of_nat (16 + 2 * k + 2)) with ((9 + Z.of_nat k) * 2) by lia. apply Z_mod_mult.
Qed.

Lemma SARMAG_even : Z.of_nat SARMAG mod 2 = 0.
Proof.
  destruct ARMAG_even as [k Hk]. unfold SARMAG. rewrite Hk. replace (Z.of_nat (2 * k)) with (Z.of_nat k * 2) by lia.
  apply Z_mod_mult.
Qed.

Lemma member_space_even m : member_space m mod 2 = 0.
Proof. pose proof sizeof_even. unfold member_space. divmod_lia. Qed.

Lemma member_space_pos m : 0 < member_space m.
Proof.
  unfold member_space, sizeof_ar_hdr, name_size. pose proof (Z.mod_pos_bound (len (mb_contents m)) 2 ltac:(lia)). lia.
Qed.

Lemma total_space_cons m ms : total_space (m :: ms) = member_space m + total_space ms.
Proof. done. Qed.

Lemma total_space_nonneg ms : 0 <= total_space ms.
Proof.
  induction ms as [|m ms IH]; [done|]. rewrite total_space_cons. pose proof (member_space_pos m). lia.
Qed.

Lemma next_member_ptr_spec ptr m m' :
  prepared m m' -> ptr mod 2 = 0 -> 0 <= ptr -> ptr + member_space m < 2 ^ 63 ->
  next_member_ptr ptr m' = Ret (ptr + member_space m).
Proof.
  intros (ared & -> & Ha) Hev Hp Hlt. unfold next_member_ptr. cbn [arch_eltdata set_mb_arelt mb_arelt of_opt mbind outcome_bind].
  rewrite (ao_parsed _ _ Ha). unfold member_space in *. pose proof (Z.mod_pos_bound (len (mb_contents m)) 2 ltac:(lia)).
  pose proof sizeof_even. assert (0 <= Z.of_nat sizeof_ar_hdr) by lia.
  rewrite (sext_small 64 (ptr + _ + _)) by lia. unfold pad_even.
  assert ((ptr + Z.of_nat sizeof_ar_hdr + len (mb_contents m)) mod 2 = len (mb_contents m) mod 2) as -> by divmod_lia.
  rewrite sext_small by lia. f_equal. lia.
Qed.

Lemma emits_member_offsets put f current ptr stridx l rest :
  emits (put ptr) tt (f ptr) -> Forall (fun e => (S current <= orl_abfd e)%nat) rest ->
  emits (member_offsets put current ptr (symbol_orls current stridx l ++ rest)) rest
    (concat (f <$> replicate (length l) ptr)).
Proof.
  intros Hput Hrest. revert stridx. induction l as [|y l IH]; intros stridx.
  - cbn. destruct Hrest as [|e rest He _]; [apply emits_ret|]. cbn [member_offsets].
    destruct (Nat.eqb_spec (orl_abfd e) current); [lia|apply emits_ret].
  - cbn [symbol_orls app member_offsets orl_abfd length replicate fmap list_fmap concat]. rewrite Nat.eqb_refl.
    apply emits_then; [done|apply IH].
Qed.

Lemma no_offsets current stridx ptr ms : member_orls current stridx ms = [] -> symbol_offsets ptr ms = [].
Proof.
  revert current stridx ptr. induction ms as [|m ms IH]; intros current stridx ptr; [done|].
  cbn [member_orls symbol_offsets]. intros [Hl Hr]%app_eq_nil. rewrite (IH _ _ _ Hr).
  by destruct (armap_symbols m).
Qed.

Lemma emits_offsets put f bound current stridx ptr ms ms' :
  (forall p, 0 <= p < bound -> emits (put p) tt (f p)) -> Forall2 prepared ms ms' -> ptr mod 2 = 0 -> 0 <= ptr ->
  bound <= 2 ^ 63 -> ptr + total_space ms < bound ->
  emits (write_offsets put current ms' ptr (member_orls current stridx ms)) tt (concat (f <$> symbol_offsets ptr ms)).
Proof.
  intros Hput Hp. revert current stridx ptr. induction Hp as [|m m' ms ms' Hm Hp IH]; intros current stridx ptr Hev H0' Hb Hlt.
  { apply emits_ret. }
  rewrite total_space_cons in Hlt. pose proof (member_space_pos m).
  pose proof (total_space_nonneg ms). pose proof (member_space_even m).
  destruct (member_orls current stridx (m :: ms)) as [|e map] eqn:E.
  { rewrite (no_offsets _ _ ptr _ E). apply emits_ret. }
  cbn [write_offsets]. rewrite <- E. cbn [member_orls symbol_offsets]. rewrite fmap_app, concat_app.
  eapply emits_bind.
  - apply (emits_member_offsets put f); [apply Hput; lia|apply member_orls_from].
  - eapply emits_pure; [apply (next_member_ptr_spec ptr m m' Hm); lia|].
    apply IH; [divmod_lia|lia..].
Qed.

(** ** The bytes of the table *)

(** Behind the header: the number of symbols, their offsets, their names, and
    padding; numbers have [w] bytes. *)
Definition armap_content (w : nat) (offs : list Z) (names : list Z) (pad : nat) : list Z :=
  be_bytes w (Z.of_nat (length offs)) ++ concat (be_bytes w <$> offs) ++ names ++ replicate pad 0.

(** The first four bytes of the name tell the widths. *)
Definition armap_name (w : nat) : list Z := if (w =? 4)%nat then c_str "/               " else c_str "/SYM64/         ".

(** [bs] is a symbol table with the offsets and the names. *)
Definition armap_image (w : nat) (offs names bs : list Z) : Prop :=
  exists hdr pad, bs = hdr_bytes hdr ++ armap_content w offs names pad /\ hdr_sized hdr /\
    h_name hdr = armap_name w /\ says_size hdr (len (armap_content w offs names pad)) /\
    len (armap_content w offs names pad) mod 2 = 0.

Lemma concat_length w (offs : list Z) : length (concat (be_bytes w <$> offs)) = (w * length offs)%nat.
Proof.
  induction offs as [|o offs IH]; [cbn; lia|]. rewrite fmap_cons. cbn [concat length].
  rewrite length_app, be_bytes_length, IH. lia.
Qed.

Lemma armap_content_length w offs names pad :
  len (armap_content w offs names pad) = Z.of_nat w + Z.of_nat w * len offs + len names + Z.of_nat pad.
Proof.
  unfold armap_content. rewrite !length_app, be_bytes_length, concat_length, length_replicate. lia.
Qed.

Lemma offsets_length ptr ms : length (symbol_offsets ptr ms) = length (concat (armap_symbols <$> ms)).
Proof.
  revert ptr. induction ms as [|m ms IH]; intros ptr; [done|].
  rewrite fmap_cons. cbn [symbol_offsets concat]. by rewrite !length_app, length_replicate, IH.
Qed.

Lemma armap_hdr_spec name date mapsize :
  (length name <= name_size)%nat -> 0 <= mapsize < 10 ^ 10 ->
  exists hdr, armap_hdr name date mapsize = Ret hdr /\ hdr_sized hdr /\ says_size hdr mapsize /\
    h_name hdr = name ++ replicate (name_size - length name) 32.
Proof.
  intros Hn Hm. unfold armap_hdr. destruct (sizepad_spec mapsize Hm) as (l & -> & Hl & Hs). cbn [mbind outcome_bind].
  eexists. split; [done|]. split.
  - constructor; cbn [h_name h_date h_uid h_gid h_mode h_size h_fmag]; rewrite ?spacepad_length; try done.
    rewrite put_at_length; cbn [blank_hdr h_name]; rewrite length_replicate; lia.
  - split; [done|]. cbn [h_name]. rewrite put_at_0. f_equal. unfold blank_hdr. cbn [h_name]. by rewrite drop_replicate.
Qed.

Lemma emits_be32 i : emits (bfd_write_bigendian_4byte_int takes i) tt (be_bytes 4 i).
Proof.
  unfold bfd_write_bigendian_4byte_int. rewrite bfd_putb32_spec. eapply emits_pure; [done|]. apply emits_write.
Qed.

Lemma emits_be64 i : emits (write_64 takes i) tt (be_bytes 8 i).
Proof. unfold write_64. rewrite bfd_putb64_spec. eapply emits_pure; [done|]. apply emits_write. Qed.

Lemma emits_offset32 p : 0 <= p < 2 ^ 32 -> emits (write_32_offset takes p) tt (be_bytes 4 p).
Proof.
  intros Hp. unfold write_32_offset. rewrite wrap_small, Z.eqb_refl by done. apply emits_be32.
Qed.

Lemma emits_check p : 0 <= p < 2 ^ 32 -> emits (check_offset p) tt [].
Proof.
  intros Hp out. unfold check_offset, pure_wr. rewrite wrap_small, Z.eqb_refl by done. cbn. by rewrite app_nil_r.
Qed.

Lemma goes_through_emits w bs : emits w tt bs -> goes_through w = Ret true.
Proof. intros Hw. unfold goes_through. by rewrite (Hw []). Qed.

(** What a symbol table takes of an archive. *)
Section table.
Context (ms ms' : list member) (Hms : Forall2 prepared ms ms').
Context (elength : Z) (Helen : 0 <= elength /\ elength mod 2 = 0).

Abbreviation map := (member_orls 0 0 ms).
Abbreviation names := (all_names ms).

Lemma map_length : len map = Z.of_nat (length (concat (armap_symbols <$> ms))).
Proof. by rewrite orls_length. Qed.

(** The members' place, with a table of [size] bytes. *)
Definition members_start (size : Z) : Z := size + elength + Z.of_nat sizeof_ar_hdr + Z.of_nat SARMAG.

Lemma members_start_even size : size mod 2 = 0 -> members_start size mod 2 = 0.
Proof. intros Hs. pose proof sizeof_even. pose proof SARMAG_even. unfold members_start. divmod_lia. Qed.

Lemma coff_armap_spec size :
  size = 4 + 4 * len map + len names + (len names) mod 2 ->
  members_start size + total_space ms < 2 ^ 31 ->
  exists bs, emits (_bfd_coff_write_armap xvec env takes flags ms' elength map (len names)) tt bs /\
    armap_image 4 (symbol_offsets (members_start size) ms) names bs /\
    len bs = Z.of_nat sizeof_ar_hdr + size.
Proof.
  intros Hsize Hlt. unfold members_start in Hlt. pose proof (total_space_nonneg ms).
  pose proof (Z.mod_pos_bound (len names) 2 ltac:(lia)). assert (0 <= Z.of_nat sizeof_ar_hdr + Z.of_nat SARMAG) by lia.
  assert (size mod 2 = 0) as Hev by divmod_lia.
  unfold _bfd_coff_write_armap. cbv zeta. rewrite !(wrap_small 32 (len map * 4 + 4)) by (unfold fits; lia).
  rewrite !(wrap_small 32 (len names)) by (unfold fits; lia).
  rewrite !(wrap_small 32 (len names + (len map * 4 + 4))) by (unfold fits; lia).
  assert ((len names + (len map * 4 + 4)) .& 1 = (len names) mod 2) as ->.
  { change 1 with (Z.ones 1). rewrite Z.land_ones by lia. divmod_lia. }
  assert ((if negb ((len names) mod 2 =? 0) then u32 (len names + (len map * 4 + 4) + 1)
           else len names + (len map * 4 + 4)) = size) as ->.
  { destruct (Z.eqb_spec ((len names) mod 2) 0); cbn [negb]; [lia|]. rewrite wrap_small by (unfold fits; lia). lia. }
  rewrite (wrap_small 32 (size + elength)) by (unfold fits; lia).
  change (size + elength + Z.of_nat sizeof_ar_hdr + Z.of_nat SARMAG) with (members_start size).
  assert (0 <= members_start size) by (unfold members_start; lia).
  assert (members_start size + total_space ms < 2 ^ 32) as Hlt' by (unfold members_start; lia).
  pose proof (members_start_even size Hev) as Hsev.
  assert (goes_through (write_offsets check_offset 0 ms' (members_start size) map) = Ret true) as Hgo.
  { eapply goes_through_emits, (emits_offsets _ (fun _ => []) (2 ^ 32)); [apply emits_check|done..]. }
  destruct (armap_hdr_spec (c_str "/") (if has flags BFD_DETERMINISTIC_OUTPUT then 0 else time_now env) size
              ltac:(cbn; unfold name_size; lia) ltac:(lia)) as (hdr & Hhdr & Hsz & Hsay & Hnm).
  set (offs := symbol_offsets (members_start size) ms). set (pad := Z.to_nat ((len names) mod 2)).
  assert (len (armap_content 4 offs names pad) = size) as Hclen.
  { rewrite armap_content_length. unfold offs, pad. rewrite offsets_length, <- map_length, Z2Nat.id by lia. lia. }
  exists (hdr_bytes hdr ++ armap_content 4 offs names pad). split; [|split].
  - assert (forall B (k : bool -> Wr B) b bs, emits (k true) b bs ->
      emits ((if BFD64 xvec then pure_wr (goes_through (write_offsets check_offset 0 ms' (members_start size) map))
              else mret true) ≫= k) b bs) as Hfit.
    { intros B k b bs Hk. rewrite Hgo. destruct (BFD64 xvec); [by eapply emits_pure|].
      eapply emits_eq; [by eapply emits_bind; [apply emits_ret|]|done]. }
    apply Hfit. cbn [negb]. eapply emits_pure; [exact Hhdr|]. apply emits_then; [apply emits_write|].
    apply emits_then; [|apply emits_then; [|apply emits_then; [apply emits_names|]]].
    + unfold offs. rewrite offsets_length, <- map_length. apply emits_be32.
    + apply (emits_offsets _ (be_bytes 4) (2 ^ 32)); [apply emits_offset32|done..].
    + unfold pad. destruct (Z.eqb_spec ((len names) mod 2) 0) as [E|E]; cbn [negb].
      * rewrite E. apply emits_ret.
      * replace ((len names) mod 2) with 1 by lia. apply emits_write.
  - exists hdr, pad. rewrite Hclen. split_and!; done.
  - rewrite length_app, (hdr_bytes_length hdr Hsz). lia.
Qed.

Lemma sym64_armap_spec size :
  size = (8 + 8 * len map + len names + 7) / 8 * 8 ->
  members_start size + total_space ms < 2 ^ 31 ->
  exists bs, emits (_bfd_archive_64_bit_write_armap env takes flags ms' elength map (len names)) tt bs /\
    armap_image 8 (symbol_offsets (members_start size) ms) names bs /\
    len bs = Z.of_nat sizeof_ar_hdr + size.
Proof.
  intros Hsize Hlt. unfold members_start in Hlt. pose proof (total_space_nonneg ms).
  assert (0 <= Z.of_nat sizeof_ar_hdr + Z.of_nat SARMAG) by lia.
  assert (size mod 2 = 0) as Hev by divmod_lia.
  assert (0 <= size - (8 + 8 * len map + len names) < 8) as Hpad by divmod_lia.
  unfold _bfd_archive_64_bit_write_armap. cbv zeta. rewrite !(wrap_small 32 (len map * 8 + 8)) by (unfold fits; lia).
  rewrite !(wrap_small 32 (len names)) by (unfold fits; lia).
  rewrite !(wrap_small 32 (len names + (len map * 8 + 8))) by (unfold fits; lia).
  replace (len names + (len map * 8 + 8)) with (8 + 8 * len map + len names) by lia. rewrite <- Hsize.
  replace (8 + 8 * len map + len names + (size - (8 + 8 * len map + len names))) with size by lia.
  rewrite !(wrap_small 32 size) by (unfold fits; lia). rewrite (wrap_small 32 (size + elength)) by (unfold fits; lia).
  change (size + elength + Z.of_nat sizeof_ar_hdr + Z.of_nat SARMAG) with (members_start size).
  assert (0 <= members_start size) by (unfold members_start; lia).
  pose proof (members_start_even size Hev) as Hsev.
  destruct (armap_hdr_spec (c_str "/SYM64/") (if has flags BFD_DETERMINISTIC_OUTPUT then 0 else bfd_get_current_time env 0)
              size ltac:(cbn; unfold name_size; lia) ltac:(lia)) as (hdr & Hhdr & Hsz & Hsay & Hnm).
  set (offs := symbol_offsets (members_start size) ms). set (pad := Z.to_nat (size - (8 + 8 * len map + len names))).
  assert (len (armap_content 8 offs names pad) = size) as Hclen.
  { rewrite armap_content_length. unfold offs, pad. rewrite offsets_length, <- map_length, Z2Nat.id by lia. lia. }
  exists (hdr_bytes hdr ++ armap_content 8 offs names pad). split; [|split].
  - eapply emits_pure; [exact Hhdr|]. apply emits_then; [apply emits_write|].
    apply emits_then; [|apply emits_then; [|apply emits_then; [apply emits_names|apply emits_write]]].
    + unfold offs. rewrite offsets_length, <- map_length. apply emits_be64.
    + apply (emits_offsets _ (be_bytes 8) (2 ^ 63)); [intros p _; apply emits_be64|done..|unfold members_start; lia].
  - exists hdr, pad. rewrite Hclen. split_and!; done.
  - rewrite length_app, (hdr_bytes_length hdr Hsz). lia.
Qed.
End table.
End armap.
