(* ===== verification/ArchiveImage.v ===== *)
(** The bytes of an archive that is written: the symbol table, the table of long
    names and the members, one behind the other. *)

From S2P Require Import Prelude HashTable BfdSection Endian Decimal LinkerFiles Linker Archive.
From S2P Require Import ArchiveWrite ArchiveLayout ArchiveMembers ArchiveArmap.

Section image.
Context `{ArchiveFormat} `{FileNames}.
Context (xvec : ar_target) (env : environment) (flags : Z).
Context (takes : list Z -> list Z -> bool) (Htakes : forall out bs, takes out bs = true).
Context (Hstyle : coff_like xvec).

(** ** Members *)

Definition pad_bytes (n : Z) : list Z := if n mod 2 =? 1 then [10] else [].

Definition member_bytes (m : member) : list Z :=
  match mb_arelt m with
  | Some ared => hdr_bytes (arch_header ared) ++ mb_contents m ++ pad_bytes (len (mb_contents m))
  | None => []
  end.

Definition members_bytes (ms : list member) : list Z := concat (member_bytes <$> ms).

Lemma pad_bytes_length n : len (pad_bytes n) = n mod 2.
Proof. unfold pad_bytes. pose proof (Z.mod_pos_bound n 2 ltac:(lia)). destruct (Z.eqb_spec (n mod 2) 1); cbn; lia. Qed.

Lemma member_bytes_length m m' : prepared m m' -> len (member_bytes m') = member_space m.
Proof.
  intros (ared & -> & Ha). unfold member_bytes, member_space. cbn [set_mb_arelt mb_arelt mb_contents].
  rewrite !length_app, !Nat2Z.inj_add, (hdr_bytes_length _ (ao_sized _ _ Ha)), pad_bytes_length. lia.
Qed.

Lemma members_bytes_length ms ms' : Forall2 prepared ms ms' -> len (members_bytes ms') = total_space ms.
Proof.
  induction 1 as [|m m' ms ms' Hm _ IH]; [done|]. unfold members_bytes. rewrite fmap_cons, total_space_cons.
  cbn [concat]. fold (members_bytes ms'). rewrite length_app, Nat2Z.inj_add, IH. by rewrite (member_bytes_length m m').
Qed.

Lemma sub_bytes_0 l n : 0 <= n -> sub_bytes l 0 n = take (Z.to_nat n) l.
Proof.
  intros Hn. unfold sub_bytes. rewrite (Z.min_l 0) by lia. rewrite drop_0.
  destruct (Z.le_ge_cases n (len l)); [by rewrite Z.min_l by lia|].
  rewrite Z.min_r, Nat2Z.id, firstn_all by lia. symmetry. apply firstn_all2. lia.
Qed.

(** The copy loop copies everything, and its fuel is enough. *)
Lemma emits_copy fuel l : (length l < fuel)%nat -> emits (copy_member takes fuel l (len l)) tt l.
Proof.
  revert l. induction fuel as [|fuel IH]; intros l Hf; [lia|]. cbn [copy_member].
  destruct (Z.eqb_spec (len l) 0) as [E|E].
  { destruct l; [apply emits_ret|cbn in E; lia]. }
  set (amt := Z.min AR_WRITE_BUFFERSIZE (len l)). assert (0 < amt <= len l) as Hamt by (unfold amt, AR_WRITE_BUFFERSIZE; lia).
  rewrite sub_bytes_0 by lia. assert (length (take (Z.to_nat amt) l) = Z.to_nat amt) as Hl by (rewrite length_take; lia).
  rewrite Hl, Z2Nat.id, Z.eqb_refl by lia. cbn [negb].
  eapply emits_eq; [apply emits_then; [by apply emits_write|]|apply (take_drop (Z.to_nat amt))].
  replace (len l - amt) with (len (drop (Z.to_nat amt) l)) by (rewrite length_drop; lia).
  apply IH. rewrite length_drop. lia.
Qed.

Lemma emits_ar_hdr m ared :
  emits (_bfd_write_ar_hdr xvec takes (set_mb_arelt (Some ared) m)) tt (hdr_bytes (arch_header ared)).
Proof.
  unfold _bfd_write_ar_hdr. destruct Hstyle as [-> | ->]; unfold _bfd_generic_write_ar_hdr;
    (eapply emits_pure; [done|by apply emits_write]).
Qed.

Lemma emits_member m m' : prepared m m' -> emits (write_member xvec takes m') tt (member_bytes m').
Proof.
  intros (ared & -> & Ha). unfold write_member, member_bytes. eapply emits_pure; [done|]. cbv zeta.
  rewrite (ao_parsed _ _ Ha). cbn [set_mb_arelt mb_arelt mb_contents].
  apply emits_then; [apply emits_ar_hdr|]. apply emits_then; [apply emits_copy; lia|].
  unfold pad_bytes. rewrite newline. destruct (_ =? 1); [by apply emits_write|apply emits_ret].
Qed.

Lemma emits_members ms ms' : Forall2 prepared ms ms' -> emits (write_members xvec takes ms') tt (members_bytes ms').
Proof.
  induction 1 as [|m m' ms ms' Hm _ IH]; [apply emits_ret|]. unfold members_bytes. rewrite fmap_cons.
  apply emits_then; [by eapply emits_member|exact IH].
Qed.

(** ** The table of long names *)

Definition names_name : list Z := c_str "//              ".

(** [bs] is the member with the table [tab], or nothing when it is empty. *)
Definition names_image (tab bs : list Z) : Prop :=
  if bool_decide (tab = []) then bs = []
  else exists hdr, bs = hdr_bytes hdr ++ tab ++ pad_bytes (len tab) /\ hdr_sized hdr /\ h_name hdr = names_name /\
         says_size hdr (len tab + (len tab) mod 2).

Definition names_space (tab : list Z) : Z :=
  if bool_decide (tab = []) then 0 else Z.of_nat sizeof_ar_hdr + len tab + (len tab) mod 2.

Lemma names_image_length tab bs : names_image tab bs -> len bs = names_space tab.
Proof.
  unfold names_image, names_space. case_bool_decide; [by intros ->|]. intros (hdr & -> & Hs & _).
  rewrite !length_app, !Nat2Z.inj_add, (hdr_bytes_length _ Hs), pad_bytes_length. lia.
Qed.

Lemma names_space_even tab : names_space tab mod 2 = 0 /\ 0 <= names_space tab.
Proof.
  unfold names_space. case_bool_decide; [done|]. pose proof sizeof_even.
  pose proof (Z.mod_pos_bound (len tab) 2 ltac:(lia)). split; [divmod_lia|lia].
Qed.

Lemma round_up n : (n + 1) .& Z.lnot 1 = n + n mod 2.
Proof.
  rewrite <- Z.ldiff_land. change 1 with (Z.ones 1) at 2. rewrite Z.ldiff_ones_r by lia.
  rewrite Z.shiftl_mul_pow2, Z.shiftr_div_pow2 by lia. divmod_lia.
Qed.

Lemma emits_extended_names tab :
  len tab < 2 ^ 31 ->
  exists bs, emits (if negb (len tab =? 0) then write_extended_names takes tab (c_str "//") else mret tt) tt bs /\
    names_image tab bs.
Proof.
  intros Hlen. unfold names_image. case_bool_decide as Ht.
  { exists []. split; [|done]. rewrite Ht. apply emits_ret. }
  destruct (Z.eqb_spec (len tab) 0) as [E|E]; [destruct Ht; apply nil_length_inv; lia|]. cbn [negb].
  unfold write_extended_names. cbv zeta. rewrite round_up. pose proof (Z.mod_pos_bound (len tab) 2 ltac:(lia)).
  destruct (sizepad_spec (len tab + (len tab) mod 2) ltac:(lia)) as (size & Hsize & Hl & Hsay).
  eexists. split.
  - eapply emits_pure; [exact Hsize|]. apply emits_then; [by apply emits_write|].
    apply emits_then; [by apply emits_write|]. instantiate (1 := pad_bytes (len tab)). unfold pad_bytes.
    rewrite newline. destruct (_ =? 1); [by apply emits_write|apply emits_ret].
  - eexists. split; [done|]. split_and!; [|done..].
    constructor; cbn [h_name h_date h_uid h_gid h_mode h_size h_fmag blank_hdr]; by rewrite ?length_replicate.
Qed.

(** ** The archive *)

Lemma final_prepared tab ms ms' : Forall2 (final xvec flags tab) ms ms' -> Forall2 prepared ms ms'.
Proof. intros Hf. eapply Forall2_impl; [exact Hf|]. intros m m' (ared & -> & Ha & _). by exists ared. Qed.

(** Headers are no concern of the symbols. *)
Lemma prepared_orls ms ms' current stridx :
  Forall2 prepared ms ms' -> member_orls current stridx ms' = member_orls current stridx ms.
Proof.
  intros Hp. revert current stridx. induction Hp as [|m m' ms ms' (ared & -> & _) _ IH]; intros current stridx; [done|].
  cbn [member_orls]. by rewrite IH.
Qed.

Lemma prepared_names ms ms' : Forall2 prepared ms ms' -> all_names ms' = all_names ms.
Proof.
  induction 1 as [|m m' ms ms' (ared & -> & _) _ IH]; [done|]. unfold all_names. rewrite !fmap_cons. cbn [concat].
  fold (all_names ms) (all_names ms'). by rewrite IH.
Qed.

Lemma prepared_symbols ms ms' : Forall2 prepared ms ms' -> Forall symbols_ok ms -> Forall symbols_ok ms'.
Proof.
  induction 1 as [|m m' ms ms' (ared & -> & _) _ IH]; [done|].
  intros [Hm Hms]%Forall_cons. constructor; [exact Hm|by apply IH].
Qed.

Lemma drop_symdef_final (P : member -> member -> Prop) ms ms' :
  (forall m m', P m m' -> mb_filename m' = mb_filename m) -> Forall2 P ms ms' ->
  Forall2 P (drop_symdef ms) (drop_symdef ms').
Proof.
  intros HP. induction 1 as [|m m' ms ms' Hm Hms IH]; [constructor|]. cbn [drop_symdef].
  rewrite (HP _ _ Hm). case_bool_decide; [done|by constructor].
Qed.

Lemma drop_symdef_suffix ms : exists pre, ms = pre ++ drop_symdef ms.
Proof.
  induction ms as [|m ms [pre IH]]; [by exists []|]. cbn [drop_symdef]. case_bool_decide; [|by exists []].
  exists (m :: pre). cbn [app]. by rewrite <- IH.
Qed.

Lemma total_space_app l k : total_space (l ++ k) = total_space l + total_space k.
Proof. induction l as [|m l IH]; [done|]. cbn [app]. rewrite !total_space_cons. lia. Qed.

Definition symbol_count (ms : list member) : Z := Z.of_nat (length (concat (armap_symbols <$> ms))).

Lemma drop_symdef_less ms :
  total_space (drop_symdef ms) <= total_space ms /\ symbol_count (drop_symdef ms) <= symbol_count ms /\
  len (all_names (drop_symdef ms)) <= len (all_names ms).
Proof.
  destruct (drop_symdef_suffix ms) as [pre E]. rewrite E at 2 4 6. unfold symbol_count, all_names.
  rewrite total_space_app, !fmap_app, !concat_app, !length_app. pose proof (total_space_nonneg pre). lia.
Qed.

(** The members that the archive lists, and what bounds its size. *)
Definition makes_map (has_map : bool) (ms : list member) : bool := has_map && existsb mb_object ms.
Definition listed (has_map : bool) (ms : list member) : list member :=
  if makes_map has_map ms then drop_symdef ms else ms.

Definition size_bound (ms : list member) : Z :=
  Z.of_nat SARMAG + 2 * Z.of_nat sizeof_ar_hdr + total_space ms + len (names_table xvec flags ms) +
  8 * symbol_count ms + len (all_names ms) + 24.

(** The width of the numbers in the target's symbol tables. *)
Definition armap_width : nat := match ar_style xvec with style_64_bit => 8 | _ => 4 end.

(** [armap] is the symbol table of the archive, if it has one. *)
Definition armap_part (has_map : bool) (ms : list member) (tab armap : list Z) : Prop :=
  if makes_map has_map ms then
    armap_image armap_width
      (symbol_offsets (Z.of_nat SARMAG + len armap + names_space tab) (listed has_map ms))
      (all_names (listed has_map ms)) armap /\ len armap mod 2 = 0
  else armap = [].

Lemma armap_part_even has_map ms tab armap :
  armap_part has_map ms tab armap -> (Z.of_nat SARMAG + len armap) mod 2 = 0.
Proof.
  unfold armap_part. pose proof SARMAG_even. destruct (makes_map has_map ms).
  - intros [_ Hev]. divmod_lia.
  - intros ->. cbn [length]. by rewrite Z.add_0_r.
Qed.

Lemma armap_elength tab :
  len tab < 2 ^ 31 - Z.of_nat sizeof_ar_hdr ->
  let elength := u32 (len tab) in
  let elength := if negb (elength =? 0) then u32 (elength + Z.of_nat sizeof_ar_hdr) else elength in
  u32 (pad_even elength) = names_space tab.
Proof.
  intros Hlen. cbv zeta. rewrite !(wrap_small 32 (len tab)) by (unfold fits; lia). unfold names_space, pad_even.
  pose proof sizeof_even. pose proof (Z.mod_pos_bound (len tab) 2 ltac:(lia)).
  destruct (Z.eqb_spec (len tab) 0) as [E|E]; cbn [negb]; case_bool_decide as Ht.
  - by rewrite E.
  - destruct Ht. apply nil_length_inv. lia.
  - by rewrite Ht in E.
  - rewrite (wrap_small 32 (len tab + _)) by (unfold fits; lia).
    assert ((len tab + Z.of_nat sizeof_ar_hdr) mod 2 = (len tab) mod 2) as -> by divmod_lia.
    rewrite wrap_small by (unfold fits; lia). lia.
Qed.

Lemma names_space_le tab : names_space tab <= Z.of_nat sizeof_ar_hdr + len tab + 1.
Proof.
  unfold names_space. pose proof (Z.mod_pos_bound (len tab) 2 ltac:(lia)). case_bool_decide; lia.
Qed.

Lemma emits_write_armap ms ms' tab :
  Forall2 prepared ms ms' ->
  Z.of_nat SARMAG + 2 * Z.of_nat sizeof_ar_hdr + total_space ms + len tab + 8 * symbol_count ms + len (all_names ms) + 24 < 2 ^ 31 ->
  exists armap, emits (write_armap xvec env takes flags ms' (names_space tab) (member_orls 0 0 ms) (len (all_names ms))) 0 armap /\
    armap_image armap_width (symbol_offsets (Z.of_nat SARMAG + len armap + names_space tab) ms) (all_names ms) armap /\
    len armap mod 2 = 0 /\ Z.of_nat SARMAG + len armap + names_space tab + total_space ms < 2 ^ 31.
Proof.
  intros Hp Hlt. destruct (names_space_even tab) as [Hne Hnp]. pose proof (names_space_le tab). pose proof sizeof_even.
  pose proof (total_space_nonneg ms). pose proof (orls_length 0 0 ms) as Hol. unfold symbol_count in Hlt.
  set (map := member_orls 0 0 ms) in *. set (names := all_names ms) in *.
  pose proof (Z.mod_pos_bound (len names) 2 ltac:(lia)).
  assert (exists size armap, emits (write_armap xvec env takes flags ms' (names_space tab) map (len names)) 0 armap /\
    armap_image armap_width (symbol_offsets (members_start (names_space tab) size) ms) names armap /\
    len armap = Z.of_nat sizeof_ar_hdr + size /\ size mod 2 = 0 /\
    members_start (names_space tab) size + total_space ms < 2 ^ 31) as (size & armap & Hw & Himg & Hl & Hev & Hbound).
  { unfold write_armap, armap_width. destruct Hstyle as [-> | ->].
    - destruct (coff_armap_spec xvec env flags takes Htakes ms ms' Hp (names_space tab) (conj Hnp Hne) _ eq_refl)
        as (bs & Hbs & Himg & Hl).
      { unfold members_start. fold map names. lia. }
      eexists _, bs. split_and!; [|exact Himg|exact Hl|divmod_lia|unfold members_start; fold map names; lia].
      eapply emits_eq; [eapply emits_bind; [exact Hbs|apply emits_ret]|]. by rewrite app_nil_r.
    - destruct (sym64_armap_spec env flags takes Htakes ms ms' Hp (names_space tab) (conj Hnp Hne) _ eq_refl)
        as (bs & Hbs & Himg & Hl).
      { unfold members_start. fold map names.
        assert ((8 + 8 * len map + len names + 7) / 8 * 8 <= 8 + 8 * len map + len names + 7) by divmod_lia. lia. }
      assert ((8 + 8 * len map + len names + 7) / 8 * 8 <= 8 + 8 * len map + len names + 7) by divmod_lia.
      eexists _, bs. split_and!; [|exact Himg|exact Hl|divmod_lia|unfold members_start; fold map names; lia].
      eapply emits_eq; [eapply emits_bind; [exact Hbs|apply emits_ret]|]. by rewrite app_nil_r. }
  exists armap. split; [done|]. rewrite Hl. unfold members_start in Himg, Hbound.
  split; [|split; [divmod_lia|lia]].
  by replace (Z.of_nat SARMAG + (Z.of_nat sizeof_ar_hdr + size) + names_space tab)
    with (size + names_space tab + Z.of_nat sizeof_ar_hdr + Z.of_nat SARMAG) by lia.
Qed.

Lemma emits_compute_armap ms ms' tab :
  Forall2 prepared ms ms' -> Forall symbols_ok ms ->
  Z.of_nat SARMAG + 2 * Z.of_nat sizeof_ar_hdr + total_space ms + len tab + 8 * symbol_count ms + len (all_names ms) + 24 < 2 ^ 31 ->
  exists armap, emits (_bfd_compute_and_write_armap xvec env takes flags ms' (u32 (len tab))) (drop_symdef ms', 0) armap /\
    armap_image armap_width (symbol_offsets (Z.of_nat SARMAG + len armap + names_space tab) (drop_symdef ms))
      (all_names (drop_symdef ms)) armap /\ len armap mod 2 = 0 /\
    Z.of_nat SARMAG + len armap + names_space tab + total_space (drop_symdef ms) < 2 ^ 31.
Proof.
  intros Hp Hsy Hlt. destruct (drop_symdef_less ms) as (Hle1 & Hle2 & Hle3).
  assert (Forall2 prepared (drop_symdef ms) (drop_symdef ms')) as Hpd.
  { apply drop_symdef_final; [|done]. by intros m m' (ared & -> & _). }
  assert (Forall symbols_ok (drop_symdef ms)) as Hsyd.
  { destruct (drop_symdef_suffix ms) as [pre E]. rewrite E in Hsy. by apply Forall_app in Hsy as [_ ?]. }
  pose proof (total_space_nonneg ms). assert (0 <= symbol_count ms) by (unfold symbol_count; lia).
  unfold _bfd_compute_and_write_armap. rewrite armap_elength by lia. cbv zeta.
  pose proof (map_members_spec 0 0 _ (prepared_symbols _ _ Hpd Hsyd) ltac:(lia)
                ltac:(rewrite (prepared_names _ _ Hpd); lia)) as Hmap.
  rewrite (prepared_names _ _ Hpd), (prepared_orls _ _ 0 0 Hpd), Z.add_0_l in Hmap.
  destruct (emits_write_armap _ _ tab Hpd ltac:(lia)) as (armap & Hw & Himg).
  exists armap. split; [|done]. eapply emits_pure; [exact Hmap|]. cbv beta iota.
  eapply emits_eq; [eapply emits_bind; [exact Hw|apply emits_ret]|]. by rewrite app_nil_r.
Qed.

(** ** The whole archive *)

Context (Hmax : (12 <= ar_max_namelen xvec <= name_size)%nat) (Hpadc : ar_pad_char xvec <> 0).

Lemma names_table_bound ms : Z.of_nat SARMAG + len (names_table xvec flags ms) < size_bound ms.
Proof.
  unfold size_bound, symbol_count. pose proof (total_space_nonneg ms). lia.
Qed.

Lemma coff_timestamp tries t ts out : update_armap_timestamp xvec env flags tries t ts out = out.
Proof. destruct tries; [done|]. cbn. by destruct Hstyle as [-> | ->]. Qed.

Lemma existsb_prepared ms ms' : Forall2 prepared ms ms' -> existsb mb_object ms' = existsb mb_object ms.
Proof. induction 1 as [|m m' ms ms' (ared & -> & _) _ IH]; [done|]. cbn. by rewrite IH. Qed.

Lemma write_archive_spec has_map ms :
  Forall (member_ok xvec flags) ms -> Forall symbols_ok ms -> size_bound ms < 2 ^ 31 ->
  exists ms' armap ext,
    _bfd_write_archive_contents xvec env takes flags has_map ms [] =
      Ret (ms', ARMAG ++ armap ++ ext ++ members_bytes ms') /\
    Forall2 (final xvec flags (names_table xvec flags ms)) (listed has_map ms) ms' /\
    armap_part has_map ms (names_table xvec flags ms) armap /\
    names_image (names_table xvec flags ms) ext /\
    len (ARMAG ++ armap ++ ext ++ members_bytes ms') < 2 ^ 31.
Proof.
  intros Hok Hsy Hlt. pose proof (names_table_bound ms). pose proof (total_space_nonneg ms).
  destruct (mapM_ok xvec env flags Hmax Hpadc ms Hok) as (ms1 & Hms1 & Hp1).
  destruct (construct_spec xvec flags Hmax ms ms1 Hstyle Hok Hp1 ltac:(lia)) as (ms3 & Hms3 & Hf).
  set (tab := names_table xvec flags ms) in *. pose proof (final_prepared _ _ _ Hf) as Hp3.
  destruct (emits_extended_names tab ltac:(lia)) as (ext & Hext & Hnames).
  assert (exists ms' armap,
    emits (if has_map && (has_map && existsb mb_object ms1)
           then _bfd_compute_and_write_armap xvec env takes flags ms3 (u32 (len tab)) else mret (ms3, 0)) (ms', 0) armap /\
    Forall2 (final xvec flags tab) (listed has_map ms) ms' /\ armap_part has_map ms tab armap /\
    Z.of_nat SARMAG + len armap + names_space tab + total_space (listed has_map ms) < 2 ^ 31)
    as (ms' & armap & Hmap & Hf' & Hpart & Hbound).
  { rewrite (existsb_prepared _ _ Hp1). unfold armap_part, listed, makes_map.
    destruct has_map, (existsb mb_object ms) eqn:E; cbn [andb].
    2-4: (exists ms3, []; split; [apply emits_ret|split; [done|split; [done|]]]; cbn [length];
          pose proof (names_space_le tab); unfold size_bound in Hlt; fold tab in Hlt; unfold symbol_count in Hlt; lia).
    destruct (emits_compute_armap ms ms3 tab Hp3 Hsy) as (armap & He & Himg & Hev & Hb).
    { unfold size_bound in Hlt. fold tab in Hlt. lia. }
    exists (drop_symdef ms3), armap. split; [done|]. split; [|done].
    apply drop_symdef_final; [|done]. by intros m m' (ared & -> & _). }
  exists ms', armap, ext. split; [|split_and!; try done].
  2: { rewrite !length_app, !Nat2Z.inj_add, (names_image_length _ _ Hnames),
         (members_bytes_length _ _ (final_prepared _ _ _ Hf')). unfold SARMAG in Hbound. lia. }
  assert (emits (_bfd_write_archive_contents xvec env takes flags has_map ms) ms'
            (ARMAG ++ armap ++ ext ++ members_bytes ms')) as He; [|by apply (He [])].
  unfold _bfd_write_archive_contents. eapply emits_pure; [exact Hms1|]. cbv beta zeta.
  eapply emits_pure; [exact Hms3|]. cbv beta iota zeta. apply emits_then; [by apply emits_write|].
  eapply emits_bind; [exact Hmap|]. cbv beta iota. apply emits_then; [exact Hext|].
  eapply emits_eq; [apply emits_then; [by eapply emits_members, final_prepared|]|apply app_nil_r].
  apply emits_eq with (bs := [] ++ []); [|done]. apply emits_then; [|apply emits_ret].
  destruct (has_map && _); [|apply emits_ret]. intros out. unfold on_file. by rewrite coff_timestamp, app_nil_r.
Qed.
End image.
