(* ===== verification/ArchiveRead.v ===== *)
(** Reading what an archive holds: its members one after the other and its
    symbols with the members that define them, from a file that has the layout of
    an archive. *)

From S2P Require Import Prelude HashTable BfdSection Endian Decimal LinkerFiles Linker Archive.
From S2P Require Import ArchiveWrite ArchiveLayout ArchiveMembers ArchiveArmap.

Section read.
Context `{ArchiveFormat} `{FileNames}.
Context (xvec : ar_target).

(** ** Clients of an archive *)

(** All members, as a program reads them that asks for the next one until there
    is none; members are kept in the cache. *)
Fixpoint read_members (fuel : nat) (a : artdata) (file : list Z) (last : option opened) : AR (list (cstring * list Z)) :=
  match fuel with
  | O => Undef
  | S fuel =>
      match bfd_generic_openr_next_archived_file xvec false a file last with
      | Fail no_more_archived_files => Ret []
      | Fail e => Fail e
      | Undef => Undef
      | Ret (o, a) =>
          rest ← read_members fuel a file (Some o);
          Ret ((o_filename o, member_contents file o) :: rest)
      end
  end.

(** All entries of the symbol table, with the members they lead to. *)
Fixpoint read_symbols (fuel : nat) (a : artdata) (file : list Z) (prev : option nat)
  : AR (list (option cstring * (cstring * list Z))) :=
  match fuel with
  | O => Undef
  | S fuel =>
      r ← bfd_get_next_mapent a prev;
      match r with
      | None => Ret []
      | Some (i, entry) =>
          '(o, a) ← _bfd_generic_get_elt_at_index xvec false a file i;
          rest ← read_symbols fuel a file (Some i);
          Ret ((ar_name entry, (o_filename o, member_contents file o)) :: rest)
      end
  end.

(** ** Members at their places *)

(** There is a member at [pos], whatever the cache holds. *)
Definition member_at (a : artdata) (file : list Z) (pos : Z) (name contents : list Z) : Prop :=
  0 <= pos /\ exists ad, _bfd_read_ar_hdr xvec a file pos = Ret (ad, pos + Z.of_nat sizeof_ar_hdr) /\
    ad_filename ad = name /\ parsed_size ad = len contents /\
    at_pos file (pos + Z.of_nat sizeof_ar_hdr) contents.

(** The cache holds what reading gives. *)
Definition coherent (a : artdata) (file : list Z) : Prop :=
  forall pos o, cache a !! pos = Some o ->
    exists ad q, _bfd_read_ar_hdr xvec a file pos = Ret (ad, q) /\ o = mkOpened q (ad_filename ad) ad.

Lemma get_elt_spec a file pos name contents :
  member_at a file pos name contents -> coherent a file -> is_thin_archive a = false ->
  exists o c, _bfd_get_elt_at_filepos xvec false a file pos = Ret (o, set_cache c a) /\ coherent (set_cache c a) file /\
    o_proxy_origin o = pos + Z.of_nat sizeof_ar_hdr /\ o_filename o = name /\
    parsed_size (o_arelt o) = len contents /\ member_contents file o = contents.
Proof.
  intros (Hpos & ad & Hread & Hname & Hsize & Hat) Hco Hthin. unfold _bfd_get_elt_at_filepos, _bfd_look_for_bfd_in_cache.
  set (o := mkOpened (pos + Z.of_nat sizeof_ar_hdr) (ad_filename ad) ad).
  assert (member_contents file o = contents) as Hc.
  { unfold member_contents. cbn. rewrite Hsize. by apply sub_bytes_at. }
  destruct (cache a !! pos) as [o'|] eqn:E.
  - destruct (Hco _ _ E) as (ad' & q & Hr & ->). rewrite Hread in Hr. injection Hr as <- <-.
    exists o, (cache a). split; [by destruct a|]. split; [by destruct a|]. done.
  - replace (pos <? 0) with false by lia. rewrite Hread. cbn [mbind outcome_bind]. rewrite Hthin.
    exists o, (<[pos := o]> (cache a)). split; [done|]. split; [|done].
    intros p o' Hl. cbn [cache set_cache] in Hl. apply lookup_insert_Some in Hl as [[<- <-]|[_ Hl]].
    + by exists ad, (pos + Z.of_nat sizeof_ar_hdr).
    + exact (Hco p o' Hl).
Qed.

(** ** Reading symbol tables *)

Lemma ret_bind {A B} (x : A) (f : A -> AR B) : Ret x ≫= f = f x.
Proof. done. Qed.


Lemma be_bytes_ok n v : bytes_ok (be_bytes n v).
Proof. unfold be_bytes. apply Forall_rev, le_bytes_ok. Qed.

Lemma be_concat_ok w offs : bytes_ok (concat (be_bytes w <$> offs)).
Proof. induction offs as [|o offs IH]; [constructor|]. apply Forall_app. split; [apply be_bytes_ok|done]. Qed.

Lemma prefix_be n v rest : prefix_bytes n (be_bytes n v ++ rest) = Some (be_bytes n v).
Proof.
  unfold prefix_bytes. rewrite decide_True by (rewrite length_app, be_bytes_length; lia).
  by rewrite take_app_length' by (by rewrite be_bytes_length).
Qed.

Lemma getb32_at v rest : fits 32 v -> bytes_ok rest -> bfd_getb32 (be_bytes 4 v ++ rest) = Some v.
Proof.
  intros Hv Hok. rewrite bfd_getb32_spec by (apply Forall_app; split; [apply be_bytes_ok|done]).
  rewrite prefix_be. cbn [fmap option_fmap option_map]. by rewrite be_value_bytes, wrap_small.
Qed.

Lemma getb64_at v rest : fits 64 v -> bytes_ok rest -> bfd_getb64 (be_bytes 8 v ++ rest) = Some v.
Proof.
  intros Hv Hok. rewrite bfd_getb64_spec by (apply Forall_app; split; [apply be_bytes_ok|done]).
  rewrite prefix_be. cbn [fmap option_fmap option_map]. by rewrite be_value_bytes, wrap_small.
Qed.

Lemma getb64_all v : fits 64 v -> bfd_getb64 (be_bytes 8 v) = Some v.
Proof. intros Hv. rewrite <- (app_nil_r (be_bytes 8 v)). by apply getb64_at. Qed.

(** The entries that are read, given the offsets and the symbols. *)
Definition entries (offs : list Z) (syms : list ar_symbol) : list carsym :=
  zip_with (fun off y => mkCarsym (Some (as_name y)) off) offs syms.

Lemma coff_symdefs_spec get w offs syms pad :
  (forall v rest, fits (8 * Z.of_nat w) v -> bytes_ok rest -> get (be_bytes w v ++ rest) = Some v) ->
  Forall (fits (8 * Z.of_nat w)) offs -> Forall (fun y => 0 ∉ as_name y) syms -> length offs = length syms ->
  coff_symdefs get w (length offs) (concat (be_bytes w <$> offs))
    (concat (symbol_bytes <$> syms) ++ replicate pad 0) = Ret (entries offs syms).
Proof.
  intros Hget Hoffs. revert syms. induction Hoffs as [|o offs Ho Hoffs IH]; intros syms Hsyms Hlen.
  { by destruct syms. }
  destruct syms as [|y syms]; [done|]. apply Forall_cons in Hsyms as [Hy Hsyms]. injection Hlen as Hlen.
  rewrite !fmap_cons. cbn [concat length coff_symdefs]. rewrite Hget by (done || apply be_concat_ok).
  cbn [of_opt mbind outcome_bind].
  assert (symbol_bytes y ++ concat (symbol_bytes <$> syms) = as_name y ++ 0 :: concat (symbol_bytes <$> syms)) as ->.
  { unfold symbol_bytes at 1. by rewrite <- app_assoc. }
  rewrite <- app_assoc. cbn [app]. rewrite until_nul_app by done.
  rewrite drop_app_length' by (by rewrite be_bytes_length). rewrite drop_app_length. cbn [drop]. rewrite drop_0.
  rewrite IH by done. done.
Qed.

(** *** The COFF symbol table *)

Definition armap_pos : Z := Z.of_nat SARMAG.

(** Nothing of what follows a symbol table is taken for a part of it. *)
Definition no_second_armap (a : artdata) (file : list Z) (pos : Z) : Prop :=
  (exists e, _bfd_read_ar_hdr xvec a file pos = Fail e) \/
  exists ad q, _bfd_read_ar_hdr xvec a file pos = Ret (ad, q) /\ take 2 (hdr_bytes (arch_header ad)) <> [47; 32].

Lemma all_symbol_bytes ms : all_names ms = concat (symbol_bytes <$> concat (armap_symbols <$> ms)).
Proof.
  induction ms as [|m ms IH]; [done|]. unfold all_names. rewrite !fmap_cons. cbn [concat].
  rewrite fmap_app, concat_app. fold (all_names ms). by rewrite IH.
Qed.

(** Without a table of long names, a header that has no name of BSD 4.4 gives
    some name. *)
Lemma some_name a hdr :
  extended_names a = None -> is_bsd44_extended_name (h_name hdr) = false -> exists nm, hdr_named xvec a hdr nm.
Proof.
  intros Ha Hb. eexists. unfold hdr_named, is_extended.
  rewrite Ha, (bool_decide_eq_true_2 (None = None)) by done. cbn [negb]. rewrite andb_false_r. by split.
Qed.

(** Reading the header of a symbol table. *)
Lemma armap_hdr_read w hdr n a file pos :
  at_pos file pos (hdr_bytes hdr) -> hdr_sized hdr -> h_name hdr = armap_name w -> says_size hdr n ->
  extended_names a = None ->
  exists nm, _bfd_read_ar_hdr xvec a file pos = Ret (mkAreltdata hdr n 0 nm 0, pos + Z.of_nat sizeof_ar_hdr).
Proof.
  intros Hat Hsz Hn Hs Ha. destruct (some_name a hdr Ha) as [nm Hnm].
  - rewrite Hn. unfold armap_name. by destruct (w =? 4)%nat.
  - exists nm. by apply read_hdr_at.
Qed.

Lemma read_coff_armap a file pos offs syms bs :
  armap_image 4 offs (concat (symbol_bytes <$> syms)) bs -> at_pos file pos bs -> extended_names a = None ->
  Forall (fits 32) offs -> Forall (fun y => 0 ∉ as_name y) syms -> length offs = length syms ->
  len file < 2 ^ 31 -> (pos + len bs) mod 2 = 0 ->
  no_second_armap (set_armap (entries offs syms) (pos + len bs) a) file (pos + len bs) ->
  do_slurp_coff_armap xvec a file pos = Ret (set_armap (entries offs syms) (pos + len bs) a).
Proof.
  intros (hdr & pad & -> & Hsz & Hn & Hs & Hcev) Hat Ha Hoffs Hsyms Hlen Hfile Hev Hsecond.
  pose proof (at_pos_end _ _ _ Hat) as [Hp0 Hend].
  apply at_pos_app in Hat as [Hhdr Hat]. destruct (armap_hdr_read 4 hdr _ a file pos Hhdr Hsz Hn Hs Ha) as [nm Hr].
  unfold do_slurp_coff_armap. rewrite Hr. cbn [mbind outcome_bind parsed_size].
  rewrite (hdr_bytes_length hdr Hsz) in Hat. rewrite length_app, (hdr_bytes_length hdr Hsz) in *.
  set (names := concat (symbol_bytes <$> syms)) in *. set (size := len (armap_content 4 offs names pad)) in *.
  assert (size = 4 + 4 * len offs + len names + Z.of_nat pad) as Hsize by apply armap_content_length.
  unfold armap_content in Hat. apply at_pos_app in Hat as [Hcount Hat].
  apply at_pos_app in Hat as [Hraw Hstr]. rewrite be_bytes_length in *.
  pose proof (read_all_at _ _ _ short_read Hcount) as Hrc. rewrite be_bytes_length in Hrc.
  change (Z.of_nat 4) with 4 in *. rewrite Hrc. cbn [mbind outcome_bind].
  rewrite <- (app_nil_r (be_bytes 4 (len offs))), getb32_at by (unfold fits; lia || constructor).
  cbn [of_opt mbind outcome_bind]. unfold bfd_get_file_size.
  replace (len file <? size) with false by lia. replace (size <? 4) with false by lia.
  replace (size - 4 <? 4 * len offs) with false by lia. rewrite andb_false_r. cbn [orb].
  unfold sizeof_carsym. rewrite wrap_small by (unfold fits; lia).
  replace (len offs * 16 <? len offs * 16 + (size - 4 * len offs - 4) + 1) with true by lia.
  cbn [ensure mbind outcome_bind].
  pose proof (alloc_and_read_at _ _ _ Hraw) as Hrr. rewrite concat_length in Hrr, Hstr.
  replace (Z.of_nat (4 * length offs)) with (4 * len offs) in Hrr, Hstr by lia.
  rewrite Hrr. cbn [mbind outcome_bind].
  pose proof (read_all_at _ _ _ short_read Hstr) as Hrs. rewrite length_app, length_replicate in Hrs.
  replace (Z.of_nat (length names + pad)) with (size - 4 * len offs - 4) in Hrs by lia.
  rewrite Hrs. cbn [mbind outcome_bind]. rewrite Nat2Z.id.
  pose proof (coff_symdefs_spec bfd_getb32 4 offs syms pad getb32_at Hoffs Hsyms Hlen) as Hsd.
  fold names in Hsd. rewrite Hsd. cbn [mbind outcome_bind].
  assert (pad_even (pos + Z.of_nat sizeof_ar_hdr + 4 + 4 * len offs + (size - 4 * len offs - 4))
          = pos + Z.of_nat (sizeof_ar_hdr + length (armap_content 4 offs names pad))) as ->.
  { unfold pad_even. replace (pos + Z.of_nat sizeof_ar_hdr + 4 + 4 * len offs + (size - 4 * len offs - 4))
      with (pos + Z.of_nat (sizeof_ar_hdr + length (armap_content 4 offs names pad))) by lia. lia. }
  cbn [first_file_filepos set_armap].
  destruct Hsecond as [[e ->]|(ad & q & -> & Hne)]; [done|]. by rewrite bool_decide_eq_false_2.
Qed.

Lemma entries_sext offs syms :
  Forall (fits 32) offs ->
  List.map (fun s => mkCarsym (ar_name s) (sext 64 (ar_file_offset s))) (entries offs syms) = entries offs syms.
Proof.
  intros Hoffs. revert syms. induction Hoffs as [|o offs Ho _ IH]; intros [|y syms]; [done..|].
  unfold entries. cbn [zip_with List.map]. fold (entries offs syms). rewrite IH. cbn.
  by rewrite sext_small by (unfold fits in Ho; lia).
Qed.

Lemma no_overflow_64 n size k : 0 <= n < 2 ^ 31 -> 0 <= k <= size -> size < 2 ^ 31 -> overflows_64 n size k = false.
Proof.
  intros Hn Hk Hsize. unfold overflows_64, sizeof_carsym. cbv zeta.
  rewrite (wrap_small 64 (n * 16)) by (unfold fits; lia). rewrite wrap_small by (unfold fits; lia).
  assert (UINT64_MAX / 8 = 2 ^ 61 - 1) as -> by done. assert (UINT64_MAX / 16 = 2 ^ 60 - 1) as -> by done. lia.
Qed.

Lemma read_64_armap a file pos offs syms bs :
  armap_image 8 offs (concat (symbol_bytes <$> syms)) bs -> at_pos file pos bs -> extended_names a = None ->
  Forall (fits 32) offs -> Forall (fun y => 0 ∉ as_name y) syms -> length offs = length syms ->
  len file < 2 ^ 31 -> (pos + len bs) mod 2 = 0 ->
  slurp_64_bit_armap xvec a file pos = Ret (set_armap (entries offs syms) (pos + len bs) a).
Proof.
  intros (hdr & pad & -> & Hsz & Hn & Hs & Hcev) Hat Ha Hoffs Hsyms Hlen Hfile Hev.
  pose proof (at_pos_end _ _ _ Hat) as [Hp0 Hend].
  apply at_pos_app in Hat as [Hhdr Hat]. destruct (armap_hdr_read 8 hdr _ a file pos Hhdr Hsz Hn Hs Ha) as [nm Hr].
  unfold slurp_64_bit_armap. rewrite Hr. rewrite ret_bind. cbv beta iota zeta. cbn [parsed_size].
  rewrite (hdr_bytes_length hdr Hsz) in Hat. rewrite length_app, (hdr_bytes_length hdr Hsz) in *.
  set (names := concat (symbol_bytes <$> syms)) in *. set (size := len (armap_content 8 offs names pad)) in *.
  assert (size = 8 + 8 * len offs + len names + Z.of_nat pad) as Hsize by apply armap_content_length.
  unfold armap_content in Hat. apply at_pos_app in Hat as [Hcount Hat].
  apply at_pos_app in Hat as [Hraw Hstr]. rewrite be_bytes_length in *.
  pose proof (read_all_at _ _ _ malformed_archive Hcount) as Hrc. rewrite be_bytes_length in Hrc.
  change (Z.of_nat 8) with 8 in *. unfold bfd_get_file_size. replace (len file <? size) with false by lia.
  rewrite andb_false_r. rewrite Hrc. rewrite ret_bind. cbv beta iota.
  rewrite getb64_all by (unfold fits; lia). cbn [of_opt]. rewrite ret_bind. cbv beta iota zeta.
  rewrite (wrap_small 64 (size - 8 * len offs - 8)) by (unfold fits; lia).
  rewrite (wrap_small 64 (8 * len offs)) by (unfold fits; lia). rewrite no_overflow_64 by lia.
  pose proof (alloc_and_read_at _ _ _ Hraw) as Hrr. rewrite concat_length in Hrr, Hstr.
  replace (Z.of_nat (8 * length offs)) with (8 * len offs) in Hrr, Hstr by lia.
  rewrite Hrr. rewrite ret_bind. cbv beta iota.
  pose proof (read_all_at _ _ _ malformed_archive Hstr) as Hrs. rewrite length_app, length_replicate in Hrs.
  replace (Z.of_nat (length names + pad)) with (size - 8 * len offs - 8) in Hrs by lia.
  rewrite Hrs. rewrite ret_bind. cbv beta iota. rewrite Nat2Z.id.
  pose proof (coff_symdefs_spec bfd_getb64 8 offs syms pad getb64_at) as Hsd. fold names in Hsd.
  rewrite Hsd by (done || (eapply Forall_impl; [exact Hoffs|unfold fits; lia])). rewrite ret_bind. cbv beta iota.
  rewrite entries_sext by done. unfold pad_even.
  replace (pos + Z.of_nat sizeof_ar_hdr + 8 + 8 * len offs + (size - 8 * len offs - 8))
    with (pos + Z.of_nat (sizeof_ar_hdr + length (armap_content 8 offs names pad))) by lia.
  by rewrite Hev, Z.add_0_r.
Qed.

End read.
