(* ===== verification/ArchiveRound.v ===== *)
(** What is written is read back: the members of an archive with their names and
    contents, and its symbols with the members that define them. *)

From S2P Require Import Prelude HashTable BfdSection Endian Decimal LinkerFiles Linker Archive.
From S2P Require Import ArchiveWrite ArchiveLayout ArchiveMembers ArchiveArmap ArchiveImage ArchiveRead.

Section round.
Context `{ArchiveFormat} `{FileNames}.
Context (xvec : ar_target) (flags : Z).

(** ** Members in their places *)

(** From [pos] to the end of the file there are the members [ms]. *)
Fixpoint members_from (a : artdata) (file : list Z) (pos : Z) (ms : list member) : Prop :=
  match ms with
  | [] => pos = len file
  | m :: ms =>
      member_at xvec a file pos (member_name flags m) (mb_contents m) /\
      members_from a file (pos + member_space m) ms
  end.

Lemma members_from_file tab a file pos ms ms' :
  Forall2 (final xvec flags tab) ms ms' -> has_table tab a -> at_pos file pos (members_bytes ms') ->
  pos + len (members_bytes ms') = len file -> members_from a file pos ms.
Proof.
  intros Hf Ha. revert pos. induction Hf as [|m m' ms ms' Hm Hf IH]; intros pos Hat Hend.
  { cbn in Hend |- *. lia. }
  pose proof Hm as (ared & -> & Hok & _ & Hname). cbn [members_from]. unfold members_bytes in Hat, Hend.
  rewrite fmap_cons in Hat, Hend. cbn [concat] in Hat, Hend. fold (members_bytes ms') in Hat, Hend.
  pose proof (at_pos_end _ _ _ Hat) as [Hpos _].
  apply at_pos_app in Hat as [Hm1 Hrest]. rewrite length_app, Nat2Z.inj_add in Hend.
  assert (prepared m (set_mb_arelt (Some ared) m)) as Hp by (by exists ared).
  rewrite (member_bytes_length _ _ Hp) in Hrest, Hend. split; [|apply IH; [done|lia]].
  unfold member_bytes in Hm1. cbn [set_mb_arelt mb_arelt mb_contents] in Hm1.
  apply at_pos_app in Hm1 as [Hh Hc]. apply at_pos_app in Hc as [Hc _].
  rewrite (hdr_bytes_length _ (ao_sized _ _ Hok)) in Hc. split; [done|]. eexists. split.
  - apply (read_hdr_at xvec a file pos (arch_header ared) (len (mb_contents m)) (member_name flags m)); [done|apply Hok|apply Hok|].
    by apply Hname.
  - done.
Qed.

Lemma members_from_cache c a file pos ms : members_from a file pos ms -> members_from (set_cache c a) file pos ms.
Proof.
  revert pos. induction ms as [|m ms IH]; intros pos; [done|]. intros [Hm Hms]. split; [exact Hm|by apply IH].
Qed.

(** Where the member after [last] is looked for. *)
Definition next_pos (a : artdata) (last : option opened) : Z :=
  match last with
  | None => first_file_filepos a
  | Some o => pad_even (o_proxy_origin o + parsed_size (o_arelt o))
  end.

Definition sane (last : option opened) : Prop :=
  match last with None => True | Some o => 0 <= o_proxy_origin o /\ 0 <= parsed_size (o_arelt o) end.

Lemma openr_next_spec b a file last :
  is_thin_archive a = false -> sane last -> 0 <= next_pos a last < 2 ^ 62 ->
  bfd_generic_openr_next_archived_file xvec b a file last = _bfd_get_elt_at_filepos xvec b a file (next_pos a last).
Proof.
  intros Hthin Hsane Hlt. unfold bfd_generic_openr_next_archived_file. destruct last as [o|]; cbn [next_pos] in *.
  - rewrite Hthin. destruct Hsane. unfold pad_even in *.
    set (n := o_proxy_origin o + parsed_size (o_arelt o)) in *. pose proof (Z.mod_pos_bound n 2 ltac:(lia)).
    rewrite (wrap_small 64 n), (wrap_small 64 (n + n mod 2)) by (unfold fits; lia).
    replace (n + n mod 2 <? o_proxy_origin o) with false by lia. cbn [mbind outcome_bind].
    by rewrite sext_small by lia.
  - cbn [mbind outcome_bind]. by rewrite sext_small by lia.
Qed.

Lemma get_elt_eof b a file pos :
  len file <= pos -> coherent xvec a file ->
  _bfd_get_elt_at_filepos xvec b a file pos = Fail no_more_archived_files.
Proof.
  intros Hpos Hco. unfold _bfd_get_elt_at_filepos, _bfd_look_for_bfd_in_cache.
  pose proof (read_hdr_eof xvec a file pos Hpos) as Hr.
  destruct (cache a !! pos) as [o|] eqn:E.
  - destruct (Hco _ _ E) as (ad & q & Hr' & _). by rewrite Hr in Hr'.
  - replace (pos <? 0) with false by lia. by rewrite Hr.
Qed.

Lemma read_members_S fuel a file last :
  read_members xvec (S fuel) a file last =
    match bfd_generic_openr_next_archived_file xvec false a file last with
    | Fail no_more_archived_files => Ret []
    | Fail e => Fail e
    | Undef => Undef
    | Ret (o, a) =>
        rest ← read_members xvec fuel a file (Some o);
        Ret ((o_filename o, member_contents file o) :: rest)
    end.
Proof. done. Qed.

Lemma read_symbols_S fuel a file prev :
  read_symbols xvec (S fuel) a file prev =
    (r ← bfd_get_next_mapent a prev;
     match r with
     | None => Ret []
     | Some (i, entry) =>
         '(o, a) ← _bfd_generic_get_elt_at_index xvec false a file i;
         rest ← read_symbols xvec fuel a file (Some i);
         Ret ((ar_name entry, (o_filename o, member_contents file o)) :: rest)
     end).
Proof. done. Qed.

Lemma read_members_spec a file last ms :
  members_from a file (next_pos a last) ms -> is_thin_archive a = false -> coherent xvec a file -> sane last ->
  len file < 2 ^ 31 -> 0 <= next_pos a last -> next_pos a last mod 2 = 0 ->
  read_members xvec (S (length ms)) a file last = Ret ((fun m => (member_name flags m, mb_contents m)) <$> ms).
Proof.
  revert a last. induction ms as [|m ms IH]; intros a last Hms Hthin Hco Hsane Hlen Hp Hev; rewrite read_members_S; cbn [length].
  - cbn [members_from] in Hms. rewrite openr_next_spec by (done || lia). by rewrite get_elt_eof by (done || lia).
  - destruct Hms as [Hm Hms]. pose proof Hm as (_ & ad & _ & _ & _ & Hat). apply at_pos_end in Hat as [_ Hend].
    rewrite openr_next_spec by (done || lia).
    destruct (get_elt_spec xvec a file _ _ _ Hm Hco Hthin) as (o & c & -> & Hco' & Horig & Hname & Hsize & Hcont).
    assert (next_pos (set_cache c a) (Some o) = next_pos a last + member_space m) as Hnext.
    { cbn [next_pos]. rewrite Horig, Hsize. unfold pad_even, member_space. pose proof sizeof_even.
      assert ((next_pos a last + Z.of_nat sizeof_ar_hdr + len (mb_contents m)) mod 2 = len (mb_contents m) mod 2) as ->
        by divmod_lia. lia. }
    rewrite (IH (set_cache c a) (Some o)); [|rewrite Hnext; by apply members_from_cache|done|done|cbn; lia|done|..].
    + cbn [mbind outcome_bind]. by rewrite Hname, Hcont.
    + rewrite Hnext. pose proof (member_space_pos m). lia.
    + rewrite Hnext. pose proof (member_space_even m). divmod_lia.
Qed.

(** ** Symbols *)

Definition symbol_listing (ms : list member) : list (option cstring * (cstring * list Z)) :=
  concat ((fun m => (fun y => (Some (as_name y), (member_name flags m, mb_contents m))) <$> armap_symbols m) <$> ms).

(** An entry of the symbol table leads to the member it should. *)
Definition leads_to (a : artdata) (file : list Z) (e : carsym) (x : option cstring * (cstring * list Z)) : Prop :=
  ar_name e = x.1 /\ member_at xvec a file (ar_file_offset e) x.2.1 x.2.2.

Lemma entries_app offs offs' syms syms' :
  length offs = length syms -> entries (offs ++ offs') (syms ++ syms') = entries offs syms ++ entries offs' syms'.
Proof. intros Hl. unfold entries. by apply zip_with_app. Qed.

Lemma entries_lead a file pos ms :
  members_from a file pos ms ->
  Forall2 (leads_to a file) (entries (symbol_offsets pos ms) (concat (armap_symbols <$> ms))) (symbol_listing ms).
Proof.
  revert pos. induction ms as [|m ms IH]; intros pos Hms; [constructor|]. destruct Hms as [Hm Hms].
  unfold symbol_listing. rewrite !fmap_cons. cbn [symbol_offsets concat]. fold (symbol_listing ms).
  rewrite entries_app by (by rewrite length_replicate). apply Forall2_app; [|by apply IH].
  induction (armap_symbols m) as [|y l IHl]; cbn; constructor; [done|apply IHl].
Qed.

Lemma read_symbols_spec a file prev l :
  Forall2 (leads_to a file) (drop (match prev with None => O | Some p => S p end) (symdefs a)) l ->
  has_armap a = true -> is_thin_archive a = false -> coherent xvec a file ->
  read_symbols xvec (S (length l)) a file prev = Ret l.
Proof.
  revert a prev. induction l as [|x l IH]; intros a prev Hl Harm Hthin Hco; rewrite read_symbols_S; cbn [length];
    unfold bfd_get_next_mapent; rewrite Harm; cbn [negb]; set (i := match prev with None => O | Some p => S p end) in *.
  - apply Forall2_nil_inv_r in Hl. assert (symdefs a !! i = None) as ->; [|done].
    rewrite <- (Nat.add_0_r i), <- lookup_drop, Hl. done.
  - apply Forall2_cons_inv_r in Hl as (e & rest & [Hname Hm] & Hl & Hdrop).
    assert (symdefs a !! i = Some e) as He by (by rewrite <- (Nat.add_0_r i), <- lookup_drop, Hdrop).
    rewrite He. cbn [mbind outcome_bind]. unfold _bfd_generic_get_elt_at_index. rewrite He. cbn [of_opt mbind outcome_bind].
    destruct (get_elt_spec xvec a file _ _ _ Hm Hco Hthin) as (o & c & -> & Hco' & _ & Hnm & _ & Hcont).
    cbn [mbind outcome_bind]. rewrite (IH (set_cache c a) (Some i)); [|..|done|done|done].
    + cbn [mbind outcome_bind]. rewrite Hname, Hnm, Hcont. by destruct x as [? []].
    + cbn [symdefs set_cache]. replace (S i) with (i + 1)%nat by lia. rewrite <- drop_drop, Hdrop. exact Hl.
Qed.

(** ** Recognising the archive *)

Context (Hmax : (12 <= ar_max_namelen xvec <= name_size)%nat).

(** A name that is not a symbol table's. *)
Definition not_armap (field : list Z) : Prop :=
  Forall (fun s => take (length (c_str s)) field <> c_str s) ["/ "; "/SYM64/"; "#1"; "__.SYMDEF"; "________"].

Lemma ordinary_not_armap field : ordinary field -> not_armap field.
Proof. unfold ordinary, not_armap. rewrite !Forall_cons. intros (? & _ & ? & ? & ? & _ & ? & _). by split_and!. Qed.

Lemma names_name_not_armap : not_armap names_name.
Proof. apply (bool_decide_unpack _). by vm_compute. Qed.

Lemma name_is_prefix field s p :
  take (length (c_str p)) field <> c_str p -> take (length (c_str p)) (c_str s) = c_str p -> name_is field s = false.
Proof. intros Hne Hs. unfold name_is. apply bool_decide_eq_false_2. intros ->. done. Qed.

Definition empty_artdata : artdata := mkArtdata (Z.of_nat SARMAG) ∅ [] None 0 false false.

(** What is at a place behind the symbol table. *)
Definition next_name (file : list Z) (pos : Z) (field : list Z) : Prop :=
  sub_bytes file pos 16 = field /\ (field = [] \/ length field = 16%nat).

Lemma no_armap_read file field :
  next_name file (Z.of_nat SARMAG) field -> field = [] \/ not_armap field ->
  slurp_armap xvec empty_artdata file (Z.of_nat SARMAG) = Ret empty_artdata.
Proof.
  intros [Hsub Hlen] Hf. unfold slurp_armap, bfd_slurp_armap, _bfd_archive_64_bit_slurp_armap. rewrite !Hsub.
  destruct Hlen as [-> |Hlen]; [by destruct (ar_style xvec)|]. destruct Hf as [-> |Hf]; [done|]. rewrite Hlen.
  cbn [Nat.eqb negb]. unfold not_armap in Hf. rewrite !Forall_cons in Hf. destruct Hf as (H1 & H2 & H3 & H4 & H5 & _).
  rewrite (name_is_prefix field "__.SYMDEF       " "__.SYMDEF"), (name_is_prefix field "__.SYMDEF/      " "__.SYMDEF"),
    (name_is_prefix field "/               " "/ "), (name_is_prefix field "/SYM64/         " "/SYM64/"),
    (name_is_prefix field "#1/20           " "#1") by done.
  rewrite (bool_decide_eq_false_2 (take 8 field = _)) by exact H5. by destruct (ar_style xvec).
Qed.

Lemma armap_read file w offs syms bs :
  w = armap_width xvec -> coff_like xvec ->
  armap_image w offs (concat (symbol_bytes <$> syms)) bs -> at_pos file (Z.of_nat SARMAG) bs ->
  Forall (fits 32) offs -> Forall (fun y => 0 ∉ as_name y) syms -> length offs = length syms ->
  len file < 2 ^ 31 -> len bs mod 2 = 0 ->
  no_second_armap xvec (set_armap (entries offs syms) (Z.of_nat SARMAG + len bs) empty_artdata) file (Z.of_nat SARMAG + len bs) ->
  slurp_armap xvec empty_artdata file (Z.of_nat SARMAG) =
    Ret (set_armap (entries offs syms) (Z.of_nat SARMAG + len bs) empty_artdata).
Proof.
  intros Hw Hstyle Himg Hat Hoffs Hsyms Hlen Hfile Hev Hsecond. pose proof SARMAG_even.
  assert ((Z.of_nat SARMAG + len bs) mod 2 = 0) as Hev' by divmod_lia.
  assert (sub_bytes file (Z.of_nat SARMAG) 16 = armap_name w) as Hname.
  { destruct Himg as (hdr & pad & -> & Hsz & Hn & _). apply at_pos_app in Hat as [Hat _].
    pose proof (hs_name _ Hsz) as Hl. unfold hdr_bytes in Hat. apply at_pos_app in Hat as [Hat _].
    apply sub_bytes_at in Hat. rewrite Hl in Hat. by rewrite <- Hn. }
  unfold slurp_armap. unfold armap_width in Hw. destruct Hstyle as [E|E]; rewrite E in *; subst w.
  - unfold bfd_slurp_armap. rewrite Hname. cbn [armap_name Nat.eqb].
    change (length (c_str "/               ") =? 0)%nat with false. change (length (c_str "/               ") =? 16)%nat with true.
    cbn [negb]. by apply read_coff_armap.
  - unfold _bfd_archive_64_bit_slurp_armap. rewrite Hname. cbn [armap_name Nat.eqb].
    change (length (c_str "/SYM64/         ") =? 0)%nat with false. change (length (c_str "/SYM64/         ") =? 16)%nat with true.
    cbn [negb]. by apply read_64_armap.
Qed.

(** The table of long names. *)
Lemma no_names_read a file field :
  extended_names a = None -> extended_names_size a = 0 -> next_name file (first_file_filepos a) field ->
  field = [] \/ ordinary field -> _bfd_slurp_extended_name_table xvec a file = Ret a.
Proof.
  intros Ha Hs [Hsub Hlen] Hf. unfold _bfd_slurp_extended_name_table. rewrite Hsub.
  destruct Hlen as [-> |Hlen]; [done|]. destruct Hf as [-> |Hf]; [done|]. rewrite Hlen. cbn [Nat.eqb].
  unfold ordinary in Hf. rewrite !Forall_cons in Hf. destruct Hf as (_ & H2 & _ & _ & _ & H6 & _).
  rewrite (name_is_prefix field "ARFILENAMES/    " "ARFILENAMES"), (name_is_prefix field "//              " "//") by done.
  cbn [negb andb]. destruct a. cbn in *. by subst.
Qed.

Lemma names_read a file tab bs :
  extended_names a = None -> names_image tab bs -> tab <> [] -> at_pos file (first_file_filepos a) bs ->
  len file < 2 ^ 31 -> first_file_filepos a mod 2 = 0 ->
  exists a', _bfd_slurp_extended_name_table xvec a file = Ret a' /\ has_table tab a' /\
    first_file_filepos a' = first_file_filepos a + len bs /\ cache a' = cache a /\ symdefs a' = symdefs a /\
    has_armap a' = has_armap a /\ is_thin_archive a' = is_thin_archive a.
Proof.
  intros Ha Himg Ht Hat Hfile Hev. unfold names_image in Himg. rewrite bool_decide_eq_false_2 in Himg by done.
  destruct Himg as (hdr & -> & Hsz & Hn & Hsay). pose proof (at_pos_end _ _ _ Hat) as [Hp Hend].
  rewrite !length_app, !Nat2Z.inj_add, (hdr_bytes_length _ Hsz), pad_bytes_length in *.
  pose proof (Z.mod_pos_bound (len tab) 2 ltac:(lia)). pose proof sizeof_even.
  apply at_pos_app in Hat as [Hh Hb]. rewrite (hdr_bytes_length _ Hsz) in Hb.
  unfold _bfd_slurp_extended_name_table.
  assert (sub_bytes file (first_file_filepos a) 16 = names_name) as ->.
  { pose proof (hs_name _ Hsz) as Hl. pose proof Hh as Hat. unfold hdr_bytes in Hat. apply at_pos_app in Hat as [Hat _].
    apply sub_bytes_at in Hat. rewrite Hl in Hat. by rewrite <- Hn. }
  change (length names_name =? 16)%nat with true. change (name_is names_name "ARFILENAMES/    ") with false.
  change (name_is names_name "//              ") with true. cbn [negb andb].
  assert (hdr_named xvec a hdr []) as Hnamed.
  { unfold hdr_named, is_extended. rewrite Ha, (bool_decide_eq_true_2 (None = None)) by done. cbn [negb].
    rewrite andb_false_r, Hn. split; [done|]. unfold name_length. rewrite (hdr_bytes_name xvec Hmax hdr _ (hs_name _ Hsz) (proj2 Hmax)).
    rewrite Hn. destruct (ar_max_namelen xvec) as [|k]; [lia|]. unfold names_name.
    assert (0 ∉ take (S k) (c_str "//              ")) as H0'.
    { apply not_in_take, (bool_decide_unpack _). by vm_compute. }
    rewrite (memchr_none _ _ H0'). done. }
  rewrite (read_hdr_at xvec a file _ hdr _ [] Hh Hsz Hsay Hnamed). cbn [mbind outcome_bind parsed_size].
  rewrite wrap_small by (unfold fits; lia). unfold bfd_get_file_size.
  replace (len tab + len tab mod 2 + 1 =? 0) with false by lia.
  replace (len file <? len tab + len tab mod 2) with false by lia. rewrite andb_false_r. cbn [orb].
  pose proof (read_all_at _ _ _ malformed_archive Hb) as Hr. rewrite length_app, Nat2Z.inj_add, pad_bytes_length in Hr.
  rewrite Hr. cbn [mbind outcome_bind]. eexists. split; [done|].
  cbn [set_first_file_filepos set_extended_names extended_names extended_names_size first_file_filepos cache symdefs has_armap is_thin_archive].
  split_and!; try done.
  - unfold has_table. rewrite bool_decide_eq_false_2 by done. cbn [extended_names extended_names_size].
    eexists _, [0]. split; [done|]. cbn. lia.
  - unfold pad_even. assert ((first_file_filepos a + Z.of_nat sizeof_ar_hdr + (len tab + len tab mod 2)) mod 2 = 0) by divmod_lia.
    lia.
Qed.

(** ** The file as it was written *)

Section file.
Context (tab ext : list Z) (ms ms' : list member) (file : list Z) (pos : Z).
Context (Hf : Forall2 (final xvec flags tab) ms ms') (Hext : names_image tab ext).
Context (Hat : at_pos file pos (ext ++ members_bytes ms')) (Hend : pos + len (ext ++ members_bytes ms') = len file).

Lemma hdr_field h p : at_pos file p (hdr_bytes h) -> hdr_sized h -> sub_bytes file p 16 = h_name h.
Proof.
  intros Hh Hs. unfold hdr_bytes in Hh. apply at_pos_app in Hh as [Hh _]. apply sub_bytes_at in Hh.
  by rewrite (hs_name _ Hs) in Hh.
Qed.

(** The header behind the symbol table: the long names', the first member's, or
    none. *)
Lemma first_header :
  (tab <> [] /\ exists hdr n, at_pos file pos (hdr_bytes hdr) /\ hdr_sized hdr /\ says_size hdr n /\ h_name hdr = names_name) \/
  (tab = [] /\ exists hdr n name, at_pos file pos (hdr_bytes hdr) /\ hdr_sized hdr /\ says_size hdr n /\
     ordinary (h_name hdr) /\ forall a, has_table [] a -> hdr_named xvec a hdr name) \/
  (tab = [] /\ len file <= pos).
Proof.
  pose proof Hext as He. unfold names_image in He. case_bool_decide as Ht.
  - right. subst tab ext. cbn [app] in Hat, Hend. destruct Hf as [|m m' l l' (ared & -> & Hok & Hord & Hnm) _].
    + right. split; [done|]. cbn in Hend. lia.
    + left. split; [done|]. exists (arch_header ared), (len (mb_contents m)), (member_name flags m).
      unfold members_bytes in Hat. rewrite fmap_cons in Hat. cbn [concat] in Hat. apply at_pos_app in Hat as [Hm _].
      unfold member_bytes in Hm. cbn [set_mb_arelt mb_arelt mb_contents] in Hm. apply at_pos_app in Hm as [Hm _].
      split_and!; [done|apply Hok|apply Hok|done|done].
  - left. split; [done|]. destruct He as (hdr & -> & Hs & Hn & Hsay). exists hdr. eexists.
    rewrite <- app_assoc in Hat. apply at_pos_app in Hat as [Hh _]. split_and!; [done..|exact Hsay|done].
Qed.

Lemma first_name :
  exists field, next_name file pos field /\ (tab <> [] -> field = names_name) /\
    (tab = [] -> field = [] \/ ordinary field) /\ (field = [] \/ not_armap field).
Proof.
  destruct first_header as [(Ht & hdr & n & Hh & Hs & _ & Hn)|[(Ht & hdr & n & nm & Hh & Hs & _ & Ho & _)|(Ht & Hp)]].
  - exists names_name. unfold next_name. rewrite (hdr_field hdr pos Hh Hs), Hn.
    split_and!; [done|by right|done|by intros ?|right; apply names_name_not_armap].
  - exists (h_name hdr). unfold next_name. rewrite (hdr_field hdr pos Hh Hs). pose proof (hs_name _ Hs).
    split_and!; [done|by right|done|by right|right; by apply ordinary_not_armap].
  - exists []. unfold next_name. rewrite sub_bytes_eof by lia. split_and!; auto. done.
Qed.

Lemma first_not_armap a : extended_names a = None -> no_second_armap xvec a file pos.
Proof.
  intros Ha. destruct first_header as [(Ht & hdr & n & Hh & Hs & Hsay & Hn)|[(Ht & hdr & n & nm & Hh & Hs & Hsay & Ho & Hnm)|(Ht & Hp)]].
  - right. destruct (some_name xvec a hdr Ha) as [nm Hnm]; [by rewrite Hn|].
    eexists _, _. split; [by eapply read_hdr_at|]. cbn [arch_header].
    rewrite (hdr_bytes_name xvec Hmax hdr 2 (hs_name _ Hs)) by (unfold name_size; lia). by rewrite Hn.
  - right. eexists _, _. split; [eapply read_hdr_at; [done..|apply Hnm]; by unfold has_table|]. cbn [arch_header].
    rewrite (hdr_bytes_name xvec Hmax hdr 2 (hs_name _ Hs)) by (unfold name_size; lia).
    unfold ordinary in Ho. rewrite !Forall_cons in Ho. by destruct Ho.
  - left. eexists. by apply read_hdr_eof.
Qed.
End file.

Lemma offsets_fit ptr ms : 0 <= ptr -> ptr + total_space ms < 2 ^ 32 -> Forall (fits 32) (symbol_offsets ptr ms).
Proof.
  revert ptr. induction ms as [|m ms IH]; intros ptr Hp Hlt; cbn [symbol_offsets]; [constructor|].
  rewrite total_space_cons in Hlt. pose proof (member_space_pos m). pose proof (total_space_nonneg ms).
  apply Forall_app. split; [|apply IH; lia]. apply Forall_replicate. unfold fits. lia.
Qed.

Lemma symbols_no_nul ms : Forall symbols_ok ms -> Forall (fun y => 0 ∉ as_name y) (concat (armap_symbols <$> ms)).
Proof.
  induction 1 as [|m ms Hm _ IH]; [constructor|]. rewrite fmap_cons. cbn [concat]. apply Forall_app. split; [|done].
  unfold symbols_ok in Hm. destruct (mb_object m && has (mb_flags m) HAS_SYMS) eqn:E.
  - by destruct (Hm eq_refl) as (_ & _ & _ & ?).
  - unfold armap_symbols. rewrite E. constructor.
Qed.

(** Opening the file gives an archive that knows its members' place and its
    symbols. *)
Definition opened_as (a : artdata) (tab : list Z) (pos : Z) (has_map : bool) (ms : list member) : Prop :=
  has_table tab a /\ first_file_filepos a = pos /\ cache a = ∅ /\ is_thin_archive a = false /\
  if makes_map has_map ms
  then has_armap a = true /\ symdefs a = entries (symbol_offsets pos (listed has_map ms)) (concat (armap_symbols <$> listed has_map ms))
  else has_armap a = false.

Section opening.
Context (has_map : bool) (ms ms' : list member) (tab armap ext file : list Z).
Context (Hstyle : coff_like xvec) (Hf : Forall2 (final xvec flags tab) (listed has_map ms) ms').
Context (Hsy : Forall symbols_ok (listed has_map ms)).
Context (Harm : armap_part xvec has_map ms tab armap) (Hext : names_image tab ext).
Context (Hfile : file = ARMAG ++ armap ++ ext ++ members_bytes ms') (Hlen : len file < 2 ^ 31).

Definition names_pos : Z := Z.of_nat SARMAG + len armap.

Lemma armap_at : at_pos file (Z.of_nat SARMAG) armap /\ at_pos file names_pos (ext ++ members_bytes ms').
Proof. apply at_pos_app. exists ARMAG, []. rewrite app_nil_r. by split. Qed.

Lemma names_end : names_pos + len (ext ++ members_bytes ms') = len file.
Proof. rewrite Hfile. unfold names_pos, SARMAG. rewrite !length_app. lia. Qed.

Definition after_armap : artdata :=
  if makes_map has_map ms
  then set_armap (entries (symbol_offsets (names_pos + len ext) (listed has_map ms)) (concat (armap_symbols <$> listed has_map ms)))
         names_pos empty_artdata
  else empty_artdata.

Lemma after_armap_fields :
  first_file_filepos after_armap = names_pos /\ extended_names after_armap = None /\
  extended_names_size after_armap = 0 /\ names_pos mod 2 = 0.
Proof.
  pose proof (armap_part_even _ _ _ _ _ Harm) as Hev. unfold after_armap, names_pos. split_and!; [|..|done].
  - unfold armap_part in Harm. destruct (makes_map has_map ms); [done|]. rewrite Harm. cbn [length]. by rewrite Z.add_0_r.
  - by destruct (makes_map has_map ms).
  - by destruct (makes_map has_map ms).
Qed.

Lemma slurp_armap_spec : slurp_armap xvec empty_artdata file (Z.of_nat SARMAG) = Ret after_armap.
Proof.
  destruct armap_at as [Hat1 Hat2]. pose proof names_end as Hend.
  destruct (first_name tab ext _ ms' file names_pos Hf Hext Hat2 Hend) as (field & Hnext & _ & _ & Hfa).
  unfold after_armap, armap_part in *. destruct (makes_map has_map ms).
  - destruct Harm as [Himg Hev]. rewrite <- (names_image_length _ _ Hext), all_symbol_bytes in Himg.
    fold names_pos in Himg. unfold names_pos at 2.
    apply (armap_read file (armap_width xvec) _ _ armap eq_refl Hstyle Himg Hat1).
    + rewrite length_app, Nat2Z.inj_add, (members_bytes_length _ _ (final_prepared _ _ _ _ _ Hf)) in Hend.
      apply offsets_fit; [unfold names_pos|]; lia.
    + by apply symbols_no_nul.
    + apply offsets_length.
    + exact Hlen.
    + exact Hev.
    + by apply (first_not_armap tab ext _ ms' file names_pos Hf Hext Hat2 Hend).
  - apply (no_armap_read file field); [|done]. unfold names_pos in Hnext. rewrite Harm in Hnext.
    cbn [length] in Hnext. by rewrite Z.add_0_r in Hnext.
Qed.

Lemma slurp_spec :
  exists a, (ardata ← slurp_armap xvec empty_artdata file (Z.of_nat SARMAG);
             _bfd_slurp_extended_name_table xvec ardata file) = Ret a /\
    opened_as a tab (names_pos + len ext) has_map ms.
Proof.
  rewrite slurp_armap_spec. cbn [mbind outcome_bind]. destruct armap_at as [_ Hat]. pose proof names_end as Hend.
  destruct (first_name tab ext _ ms' file names_pos Hf Hext Hat Hend) as (field & Hnext & _ & Hfo & _).
  destruct after_armap_fields as (Hfirst & Hnone & Hsize & Hev). unfold opened_as.
  destruct (decide (tab = [])) as [Ht|Ht].
  - exists after_armap. split; [apply (no_names_read _ file field); [done..|by rewrite Hfirst|by apply Hfo]|].
    assert (len ext = 0) as He0.
    { rewrite (names_image_length _ _ Hext). unfold names_space. by rewrite bool_decide_eq_true_2. }
    rewrite He0, Z.add_0_r. split; [unfold has_table; by rewrite bool_decide_eq_true_2|]. split; [done|].
    unfold after_armap. rewrite He0, Z.add_0_r. by destruct (makes_map has_map ms).
  - destruct (names_read after_armap file tab ext Hnone Hext Ht) as (a' & Hr & Htab & Hfirst' & Hc & Hs & Hh & Hth);
      [rewrite Hfirst; by apply at_pos_app in Hat as [? _]|done|by rewrite Hfirst|].
    exists a'. split; [done|]. rewrite Hfirst', Hfirst, Hc, Hs, Hh, Hth. split; [done|]. split; [done|].
    unfold after_armap. by destruct (makes_map has_map ms).
Qed.
End opening.

Lemma archive_p_spec target_defaulted is_object has_map ms ms' tab armap ext file :
  coff_like xvec -> Forall2 (final xvec flags tab) (listed has_map ms) ms' -> Forall symbols_ok (listed has_map ms) ->
  armap_part xvec has_map ms tab armap -> names_image tab ext ->
  file = ARMAG ++ armap ++ ext ++ members_bytes ms' -> len file < 2 ^ 31 ->
  exists a e, bfd_generic_archive_p xvec target_defaulted is_object file = Ret (a, e) /\
    opened_as a tab (names_pos armap + len ext) has_map ms /\
    members_from a file (names_pos armap + len ext) (listed has_map ms).
Proof.
  intros Hstyle Hf Hsy Harm Hext Hfile Hlen.
  destruct (slurp_spec has_map ms ms' tab armap ext file Hstyle Hf Hsy Harm Hext Hfile Hlen) as (a & Hslurp & Ha).
  pose proof Ha as (Htab & Hfirst & Hc & Hthin & _).
  assert (members_from a file (names_pos armap + len ext) (listed has_map ms)) as Hmem.
  { destruct (armap_at ms' armap ext file Hfile) as [_ Hat]. apply at_pos_app in Hat as [_ Hat].
    apply (members_from_file tab a file _ _ ms' Hf Htab Hat).
    rewrite <- (names_end ms' armap ext file Hfile), length_app. lia. }
  assert (at_pos file 0 ARMAG) as Hmag by (exists [], (armap ++ ext ++ members_bytes ms'); by split).
  apply sub_bytes_at in Hmag. unfold bfd_generic_archive_p. change (Z.of_nat SARMAG) with (len ARMAG).
  rewrite Hmag. unfold SARMAG at 1. rewrite Nat.eqb_refl. cbn [negb]. rewrite strncmp_eq_refl. cbn [negb andb].
  assert (strncmp_eq SARMAG ARMAG ARMAGT = false) as ->.
  { unfold strncmp_eq. apply bool_decide_eq_false_2. unfold SARMAG. rewrite firstn_all. rewrite <- ARMAGT_length, firstn_all.
    rewrite !until_nul_none by apply ARMAG_string || apply ARMAGT_string. intros E. by destruct ARMAGT_other. }
  change (mkArtdata (len ARMAG) ∅ [] None 0 false false) with empty_artdata.
  change (len ARMAG) with (Z.of_nat SARMAG). rewrite Hslurp.
  destruct (target_defaulted && has_armap a); [|by exists a, None].
  assert (0 <= first_file_filepos a < 2 ^ 62) as Hpos.
  { rewrite Hfirst. rewrite Hfile, !length_app in Hlen. unfold names_pos, SARMAG. lia. }
  rewrite openr_next_spec by done. cbn [next_pos]. rewrite Hfirst.
  unfold _bfd_get_elt_at_filepos, _bfd_look_for_bfd_in_cache. rewrite Hc, lookup_empty.
  replace (names_pos armap + len ext <? 0) with false by lia.
  destruct (listed has_map ms) as [|m rest]; cbn [members_from] in Hmem.
  - rewrite read_hdr_eof by lia. by exists a, None.
  - destruct Hmem as [Hm Hrest]. pose proof Hm as (_ & ad & -> & _). cbn [mbind outcome_bind]. rewrite Hthin.
    by eexists a, _.
Qed.
End round.

(** ** The round trip *)

(** What is asked of the target: slashes end the names, and the name field has
    room for a place in the table of long names. *)
Definition target_ok (xvec : ar_target) : Prop :=
  coff_like xvec /\ ar_pad_char xvec <> 0 /\ (12 <= ar_max_namelen xvec <= name_size)%nat.

(** C14: An archive whose members are files with proper names and contents is
    written in full, and the file that is written is an archive in which the
    members are found one after the other, each with its name (a short one in its
    header, a long one in the table of long names) and its contents, and in which
    the symbol table lists each global symbol of each member, in order, with an
    offset that leads to that member. *)
Theorem archive_roundtrip `{ArchiveFormat} `{FileNames} xvec env flags takes target_defaulted is_object has_map ms :
  target_ok xvec -> (forall out bs, takes out bs = true) ->
  Forall (member_ok xvec flags) ms -> Forall symbols_ok ms -> size_bound xvec flags ms < 2 ^ 31 ->
  exists ms' out a e,
    _bfd_write_archive_contents xvec env takes flags has_map ms [] = Ret (ms', out) /\
    bfd_generic_archive_p xvec target_defaulted is_object out = Ret (a, e) /\
    read_members xvec (S (length (listed has_map ms))) a out None =
      Ret ((fun m => (member_name flags m, mb_contents m)) <$> listed has_map ms) /\
    (if makes_map has_map ms
     then read_symbols xvec (S (length (symbol_listing flags (listed has_map ms)))) a out None =
            Ret (symbol_listing flags (listed has_map ms))
     else has_armap a = false).
Proof.
  intros (Hstyle & Hpad & Hmax) Htakes Hok Hsy Hlt.
  destruct (write_archive_spec xvec env flags takes Htakes Hstyle Hmax Hpad has_map ms Hok Hsy Hlt)
    as (ms' & armap & ext & Hw & Hf & Harm & Hext & Hlen).
  exists ms', (ARMAG ++ armap ++ ext ++ members_bytes ms'). set (out := ARMAG ++ armap ++ ext ++ members_bytes ms') in *.
  assert (Forall symbols_ok (listed has_map ms)) as Hsyl.
  { unfold listed. destruct (makes_map has_map ms); [|done]. destruct (drop_symdef_suffix ms) as [pre E].
    rewrite E in Hsy. by apply Forall_app in Hsy as [_ ?]. }
  destruct (archive_p_spec xvec flags Hmax target_defaulted is_object has_map ms ms' _ armap ext out
              Hstyle Hf Hsyl Harm Hext eq_refl Hlen) as (a & e & Hp & (Htab & Hfirst & Hc & Hthin & Hmap) & Hmem).
  exists a, e. split; [exact Hw|]. split; [exact Hp|].
  assert (coherent xvec a out) as Hco by (intros p o; by rewrite Hc, lookup_empty).
  pose proof (armap_part_even _ _ _ _ _ Harm) as Hev.
  split.
  - destruct (names_space_even (names_table xvec flags ms)) as [Hne _].
    rewrite <- (names_image_length _ _ Hext) in Hne.
    apply read_members_spec; cbn [next_pos sane]; rewrite ?Hfirst; try done; unfold names_pos; [lia|divmod_lia].
  - destruct (makes_map has_map ms); [|done]. destruct Hmap as [Harmap Hsyms].
    apply read_symbols_spec; [|done..]. rewrite drop_0, Hsyms. by apply entries_lead.
Qed.

(** ** Concrete archives *)

(** The target of ELF files. *)
Definition elf_archives (style : archive_style) : ar_target := mkTarget 47 15 false None style true.

Definition some_env : environment := mkEnv 1000 None 0 0 (Some 500) [].
Definition takes_all (out bs : list Z) : bool := true.

Definition object_file (name : string) (contents : list Z) (syms : list ar_symbol) : member :=
  mkMember (c_str name) None false (On_disk (Some (mkStatus 7 0 0 DEFAULT_MODE (len contents)))) contents 47 true
    HAS_SYMS 1 (Some syms) true.

Definition global (name : string) : ar_symbol := mkArSymbol (c_str name) BSF_GLOBAL false false.

(** A short name, a long name, and a member of odd size. *)
Definition some_members : list member :=
  [object_file "lib/a.o" [1; 2; 3] [global "foo"; mkArSymbol (c_str "puts") 0 false true; global "bar"];
   object_file "lib/a_much_longer_name.o" [4; 5] [global "main"]].

Lemma archive_roundtrip_witness :
  exists ms' out a e,
    @_bfd_write_archive_contents ar_format unix_names (elf_archives style_coff) some_env takes_all 0 true some_members []
      = Ret (ms', out) /\
    @bfd_generic_archive_p ar_format (elf_archives style_coff) true (fun _ => true) out = Ret (a, e) /\
    @read_members ar_format (elf_archives style_coff) 3 a out None
      = Ret [(c_str "a.o", [1; 2; 3]); (c_str "a_much_longer_name.o", [4; 5])] /\
    @read_symbols ar_format (elf_archives style_coff) 4 a out None
      = Ret [(Some (c_str "foo"), (c_str "a.o", [1; 2; 3])); (Some (c_str "bar"), (c_str "a.o", [1; 2; 3]));
             (Some (c_str "main"), (c_str "a_much_longer_name.o", [4; 5]))].
Proof.
  refine (@archive_roundtrip ar_format unix_names (elf_archives style_coff) some_env 0 takes_all true (fun _ => true)
            true some_members _ _ _ _ _).
  - split_and!; [by left|done|unfold name_size; cbn; lia..].
  - done.
  - constructor; [|constructor; [|done]]; (constructor; [done|done|..]); try (apply (bool_decide_unpack _); by vm_compute).
    + left. constructor; (apply (bool_decide_unpack _); by vm_compute).
    + right. constructor; (apply (bool_decide_unpack _); by vm_compute).
  - constructor; [|constructor; [|done]]; intros _; (split; [done|]); (split; [by eexists|]); (split; [done|]);
      apply (bool_decide_unpack _); by vm_compute.
  - by vm_compute.
Defined.
