(* ===== verification/ArchiveLimits.v ===== *)
(** Where an archive does not give back what was put into it, on concrete
    archives. *)

From S2P Require Import Prelude HashTable BfdSection Endian Decimal LinkerFiles Linker Archive.
From S2P Require Import ArchiveWrite ArchiveRead ArchiveRound.

#[local] Existing Instance ar_format.
#[local] Existing Instance unix_names.

(** The bytes of an archive with some members, and the members that are read
    from a file. *)
Definition written (style : archive_style) (env : environment) (ms : list member) : AR (list Z) :=
  '(_, out) ← _bfd_write_archive_contents (elf_archives style) env takes_all 0 true ms []; Ret out.

Definition opens_as (file : list Z) : AR (list (cstring * list Z)) :=
  '(a, _) ← bfd_generic_archive_p (elf_archives style_coff) true (fun _ => true) file;
  read_members (elf_archives style_coff) (S (length file)) a file None.

(** A name of fifteen characters fills the part of the field that is searched
    for the slash, so that it ends at its first space. *)
Example space_ends_full_name :
  (file ← written style_coff some_env [object_file "abcd efg12345.o" [1; 2] []]; opens_as file) = Ret [(c_str "abcd", [1; 2])].
Proof. by vm_compute. Qed.

(** The members of an archive as they are put into another one: their BFDs keep
    the headers that were read. *)
Definition as_member (file : list Z) (o : opened) : member :=
  mkMember (o_filename o) (Some (o_arelt o)) false (On_disk None) (member_contents file o) 47 true HAS_SYMS 1 (Some []) true.

Fixpoint members_of (fuel : nat) (a : artdata) (file : list Z) (last : option opened) : list member :=
  match fuel with
  | O => []
  | S fuel =>
      match bfd_generic_openr_next_archived_file (elf_archives style_coff) false a file last with
      | Ret (o, a) => as_member file o :: members_of fuel a file (Some o)
      | _ => []
      end
  end.

(** A member whose name follows its header in the manner of BSD 4.4 is written
    with a size that still counts the name: the first member takes bytes of the
    second, which is lost. *)
Example copied_bsd44_member :
  (file ← written style_bsd44 some_env [object_file "has a space.o" [1; 2; 3] []; object_file "b.o" [9; 8] []];
   '(a, _) ← bfd_generic_archive_p (elf_archives style_coff) true (fun _ => true) file;
   copy ← written style_coff some_env (members_of 3 a file None);
   opens_as copy) =
  Ret [(c_str "has a space.o", [1; 2; 3; 10] ++ c_str "b.o/           ")].
Proof. by vm_compute. Qed.

(** A BSD symbol table whose last name has no null: the name is read past the
    end of the buffer. *)
Definition unterminated_armap : list Z :=
  ARMAG ++ hdr_bytes (mkArHdr (c_str "__.SYMDEF       ") (replicate 12 32) (replicate 6 32) (replicate 6 32)
                        (replicate 8 32) (c_str "18        ") ARFMAG) ++
  [8; 0; 0; 0] ++ [0; 0; 0; 0; 100; 0; 0; 0] ++ [2; 0; 0; 0] ++ c_str "ab".

Example unterminated_name_read : opens_as unterminated_armap = Undef.
Proof. by vm_compute. Qed.

(** The time stamp of a COFF symbol table is the time of day, SOURCE_DATE_EPOCH or
    not; that of a 64-bit one follows SOURCE_DATE_EPOCH. *)
Definition env_at (now : Z) : environment := mkEnv now (Some 1) 0 0 (Some 500) [].
Definition one_object : list member := [object_file "a.o" [1; 2] [global "main"]].

Example coff_armap_takes_time_of_day :
  written style_coff (env_at 2000) one_object <> written style_coff (env_at 3000) one_object /\
  written style_64_bit (env_at 2000) one_object = written style_64_bit (env_at 3000) one_object.
Proof. by split; vm_compute. Qed.
