(* ===== verification/Hex.v ===== *)
(** Hexadecimal digits, as the text formats use them.

    Reading digits is libiberty's [hex_p] and [hex_value], which are not part
    of the repository: they are the operations of a class whose laws are their
    documented behaviour.  Writing digits is the formats' own table
    ["0123456789ABCDEF"]. *)

From S2P Require Import Prelude Decimal.

(** [digs[d]] for a nibble [d]. *)
Definition digs (d : Z) : Z := if d <? 10 then 48 + d else 55 + d.

(** [TOHEX (buf, v)]: two digits of a byte. *)
Definition TOHEX (v : Z) : list Z := [digs ((v .>> 4) .& 0xf); digs (v .& 0xf)].

Class HexDigits := {
  hex_p : Z -> bool;
  hex_value : Z -> Z;
  hex_value_range c : hex_p c = true -> 0 <= hex_value c < 16;
  hex_p_digs d : 0 <= d < 16 -> hex_p (digs d) = true;
  hex_value_digs d : 0 <= d < 16 -> hex_value (digs d) = d;
  hex_p_xdigit d : 0 <= d < 16 -> hex_p (xdigit d) = true;
  hex_value_xdigit d : 0 <= d < 16 -> hex_value (xdigit d) = d;
  hex_p_newline : hex_p 13 = false
}.

(** The documented functions on ASCII. *)
Definition ascii_hex_p (c : Z) : bool :=
  ((48 <=? c) && (c <=? 57)) || ((65 <=? c) && (c <=? 70)) || ((97 <=? c) && (c <=? 102)).
Definition ascii_hex_value (c : Z) : Z :=
  if c <=? 57 then c - 48 else if c <=? 70 then c - 55 else c - 87.

#[export, refine] Instance ascii_hex : HexDigits :=
  {| hex_p := ascii_hex_p; hex_value := ascii_hex_value |}.
Proof.
  - unfold ascii_hex_p, ascii_hex_value. intros c Hc. split_ifs; lia.
  - unfold ascii_hex_p, digs. intros d Hd. split_ifs; lia.
  - unfold ascii_hex_value, digs. intros d Hd. split_ifs; lia.
  - unfold ascii_hex_p, xdigit. intros d Hd. split_ifs; lia.
  - unfold ascii_hex_value, xdigit. intros d Hd. split_ifs; lia.
  - done.
Defined.

Section hex.
Context `{HexDigits}.

Definition NIBBLE (x : Z) : Z := hex_value x.

(** [HEX2 (buffer + i)] and [HEX4 (buffer + i)] on unsigned ints. *)
Definition HEX2 (buffer : list Z) (i : nat) : option Z :=
  a ← buffer !! i; b ← buffer !! (i + 1)%nat; Some (u32 (u32 (NIBBLE a .<< 4) + NIBBLE b)).

Definition HEX4 (buffer : list Z) (i : nat) : option Z :=
  a ← HEX2 buffer i; b ← HEX2 buffer (i + 2)%nat; Some (u32 (u32 (a .<< 8) + b)).

(** ** Lemmas *)

(** Two hex digits spell a byte. *)
Definition hex_byte (a b : Z) : Z := 16 * hex_value a + hex_value b.

Lemma hex_byte_range a b : hex_p a = true -> hex_p b = true -> is_byte (hex_byte a b).
Proof.
  intros Ha Hb. pose proof (hex_value_range a Ha). pose proof (hex_value_range b Hb).
  unfold fits, hex_byte. lia.
Qed.

Lemma HEX2_spec buf i a b :
  buf !! i = Some a -> buf !! (i + 1)%nat = Some b -> hex_p a = true -> hex_p b = true ->
  HEX2 buf i = Some (hex_byte a b).
Proof.
  intros Ha Hb Hpa Hpb. unfold HEX2. rewrite Ha. cbn [mbind option_bind]. rewrite Hb.
  cbn [mbind option_bind]. unfold NIBBLE. pose proof (hex_value_range a Hpa).
  pose proof (hex_value_range b Hpb). rewrite Z.shiftl_mul_pow2 by lia.
  rewrite (wrap_small 32 (_ * _)) by (unfold fits; lia).
  rewrite wrap_small by (unfold fits; lia). unfold hex_byte. f_equal. lia.
Qed.

Lemma TOHEX_nibbles v : is_byte v -> TOHEX v = [digs (v / 16); digs (v mod 16)].
Proof.
  intros [Hv1 Hv2]. unfold TOHEX. rewrite Z.shiftr_div_pow2 by lia. change 0xf with (Z.ones 4).
  rewrite !Z.land_ones by lia. change (2 ^ 4) with 16. change (2 ^ 8) with 256 in Hv2.
  do 2 f_equal. apply Z.mod_small. split; [apply Z.div_pos; lia|apply Z.div_lt_upper_bound; lia].
Qed.

Lemma byte_nibbles v : is_byte v -> 0 <= v / 16 < 16 /\ 0 <= v mod 16 < 16.
Proof.
  intros [Hv1 Hv2]. change (2 ^ 8) with 256 in Hv2. split; [|apply Z.mod_pos_bound; lia].
  split; [apply Z.div_pos; lia|apply Z.div_lt_upper_bound; lia].
Qed.

Lemma TOHEX_hex v : is_byte v -> Forall (fun c => hex_p c = true) (TOHEX v).
Proof.
  intros Hv. rewrite TOHEX_nibbles by done. destruct (byte_nibbles v Hv).
  repeat constructor; by apply hex_p_digs.
Qed.

Lemma hex_byte_digs v : is_byte v -> hex_byte (digs (v / 16)) (digs (v mod 16)) = v.
Proof.
  intros Hv. destruct (byte_nibbles v Hv). unfold hex_byte. rewrite !hex_value_digs by done.
  pose proof (Z.div_mod v 16 ltac:(lia)). lia.
Qed.

(** Reading back a byte that was written. *)
Lemma HEX2_TOHEX buf i v :
  is_byte v -> take 2 (drop i buf) = TOHEX v -> HEX2 buf i = Some v.
Proof.
  intros Hv Hbuf. rewrite TOHEX_nibbles in Hbuf by done. destruct (byte_nibbles v Hv).
  assert (forall k, (k < 2)%nat -> buf !! (i + k)%nat = [digs (v / 16); digs (v mod 16)] !! k) as Hl.
  { intros k Hk. by rewrite <- Hbuf, lookup_take_lt, lookup_drop by lia. }
  rewrite (HEX2_spec buf i (digs (v / 16)) (digs (v mod 16))).
  - by rewrite hex_byte_digs.
  - specialize (Hl 0%nat ltac:(lia)). by rewrite Nat.add_0_r in Hl.
  - by apply (Hl 1%nat); lia.
  - by apply hex_p_digs.
  - by apply hex_p_digs.
Qed.

End hex.
