(* ===== verification/Ihex.v ===== *)
(** Intel Hex: ihex.c's scanner, section reader and writer.

    A file is its bytes, with a flag that says whether reading past its end is
    an I/O error rather than the end of the file.  Memory allocation is taken
    to succeed.  Sections are made in the order of the records; a section's
    name ".sec<n>" is kept as its number. *)

From S2P Require Import Prelude Hex.

(** ** Data *)

Inductive ihex_error :=
  | BadByte (lineno c : Z) | BadChecksum (lineno : Z) | BadLength (lineno : Z)
  | BadType (lineno : Z) | FileTruncated | SystemError | WrongFormat
  | BadSectionLength | InternalError | OutOfRange (where_ : Z) | WriteError.

Abbreviation ihex := (outcome ihex_error).

Definition SEC_ALLOC : Z := 0x1.
Definition SEC_LOAD : Z := 0x2.
Definition SEC_HAS_CONTENTS : Z := 0x100.

Record asection := mkSection {
  sec_number : Z;
  sec_flags : Z;
  sec_vma : Z;
  sec_lma : Z;
  sec_size : Z;
  sec_filepos : nat
}.

Record ihex_file := mkFile {
  if_bytes : list Z;
  if_io_error : bool
}.

(** Reading [n] bytes at a position. *)
Definition bfd_read (f : ihex_file) (pos n : nat) : ihex (list Z) :=
  if (pos + n <=? length (if_bytes f))%nat then Ret (take n (drop pos (if_bytes f)))
  else Fail (if if_io_error f then SystemError else FileTruncated).

(** [ihex_get_byte]: [None] is EOF, with the error flag set or not. *)
Definition ihex_get_byte (f : ihex_file) (pos : nat) : option Z * bool :=
  match if_bytes f !! pos with
  | Some c => (Some (c .& 0xff), false)
  | None => (None, if_io_error f)
  end.

(** ** Reading *)

Section ihex.
Context `{HexDigits}.

(** The scanner's variables: the section being built is the last one of
    [is_sections] when [is_sec] says there is one. *)
Record ihex_state := mkIhex {
  is_start : Z;
  is_sections : list asection;
  is_segbase : Z;
  is_extbase : Z;
  is_sec : bool
}.

Definition ihex_initial : ihex_state := mkIhex 0 [] 0 0 false.

(** Type 0: a data record of [len] bytes at [addr], which starts at [pos]. *)
Definition ihex_data_record (st : ihex_state) (pos : nat) (len addr : Z) : ihex_state :=
  let target := u64 (u64 (is_extbase st + is_segbase st) + addr) in
  let fresh :=
    if 0 <? len then
      let sec := mkSection (Z.of_nat (length (is_sections st)) + 1)
                   (SEC_HAS_CONTENTS .| SEC_LOAD .| SEC_ALLOC) target target len pos in
      mkIhex (is_start st) (is_sections st ++ [sec]) (is_segbase st) (is_extbase st) true
    else st in
  match last (is_sections st) with
  | Some sec =>
      if is_sec st && (u64 (sec_vma sec + sec_size sec) =? target) then
        let sec := mkSection (sec_number sec) (sec_flags sec) (sec_vma sec) (sec_lma sec)
                     (u64 (sec_size sec + len)) (sec_filepos sec) in
        mkIhex (is_start st) (<[pred (length (is_sections st)) := sec]> (is_sections st))
          (is_segbase st) (is_extbase st) true
      else fresh
  | None => fresh
  end.

(** What the switch on the record type does; the flag says that an end record
    was seen. *)
Definition ihex_record (st : ihex_state) (lineno : Z) (pos : nat) (len addr type : Z)
    (buf : list Z) : ihex (ihex_state * bool) :=
  if type =? 0 then Ret (ihex_data_record st pos len addr, false)
  else if type =? 1 then
    let start := if is_start st =? 0 then addr else is_start st in
    Ret (mkIhex start (is_sections st) (is_segbase st) (is_extbase st) (is_sec st), true)
  else if type =? 2 then
    _ ← ensure (len =? 2) (BadLength lineno);
    a ← of_opt (HEX4 buf 0);
    Ret (mkIhex (is_start st) (is_sections st) (u32 (a .<< 4)) (is_extbase st) false, false)
  else if type =? 3 then
    _ ← ensure (len =? 4) (BadLength lineno);
    a ← of_opt (HEX4 buf 0); b ← of_opt (HEX4 buf 4);
    Ret (mkIhex (u64 (is_start st + u32 (u32 (a .<< 4) + b))) (is_sections st)
           (is_segbase st) (is_extbase st) false, false)
  else if type =? 4 then
    _ ← ensure (len =? 2) (BadLength lineno);
    a ← of_opt (HEX4 buf 0);
    Ret (mkIhex (is_start st) (is_sections st) (is_segbase st) (u32 (a .<< 16)) false, false)
  else if type =? 5 then
    _ ← ensure ((len =? 2) || (len =? 4)) (BadLength lineno);
    a ← of_opt (HEX4 buf 0);
    start ← (if len =? 2 then Ret (u64 (is_start st + u32 (a .<< 16)))
             else b ← of_opt (HEX4 buf 4); Ret (u32 (u32 (a .<< 16) + b)));
    Ret (mkIhex start (is_sections st) (is_segbase st) (is_extbase st) false, false)
  else Fail (BadType lineno).

(** The first byte of a list that is not a hex digit is reported. *)
Fixpoint check_hex (lineno : Z) (l : list Z) : ihex unit :=
  match l with
  | [] => Ret tt
  | c :: l => if hex_p c then check_hex lineno l else Fail (BadByte lineno c)
  end.

(** [for (i = 0; i < len; i++) chksum += HEX2 (buf + 2 * i);] *)
Fixpoint sum_hex (n i : nat) (buf : list Z) (chksum : Z) : option Z :=
  match n with
  | O => Some chksum
  | S n => b ← HEX2 buf (2 * i); sum_hex n (i + 1) buf (u32 (chksum + b))
  end.

(** One record after its colon, which is at [pos]: the new state, whether it
    was an end record, and the position after it. *)
Definition ihex_scan_record (f : ihex_file) (st : ihex_state) (lineno : Z) (pos : nat)
    : ihex (ihex_state * bool * nat) :=
  hdr ← bfd_read f (pos + 1) 8;
  _ ← check_hex lineno hdr;
  len ← of_opt (HEX2 hdr 0);
  addr ← of_opt (HEX4 hdr 2);
  type ← of_opt (HEX2 hdr 6);
  let chars := u32 (len * 2 + 2) in
  buf ← bfd_read f (pos + 9) (Z.to_nat chars);
  _ ← check_hex lineno buf;
  chksum ← of_opt (sum_hex (Z.to_nat len) 0 buf (u32 (len + addr + (addr .>> 8) + type)));
  found ← of_opt (HEX2 buf (2 * Z.to_nat len));
  _ ← ensure (u32 (- chksum) .& 0xff =? found) (BadChecksum lineno);
  '(st, ended) ← ihex_record st lineno pos len addr type buf;
  Ret (st, ended, (pos + 9 + Z.to_nat chars)%nat).

(** The loop of [ihex_scan]. *)
Fixpoint ihex_scan_loop (fuel : nat) (f : ihex_file) (st : ihex_state) (lineno : Z) (pos : nat)
    : ihex ihex_state :=
  match fuel with
  | O => Undef
  | S fuel =>
      match ihex_get_byte f pos with
      | (None, error) => if error then Fail SystemError else Ret st
      | (Some c, _) =>
          if c =? 13 then ihex_scan_loop fuel f st lineno (pos + 1)
          else if c =? 10 then ihex_scan_loop fuel f st (u32 (lineno + 1)) (pos + 1)
          else if negb (c =? 58) then Fail (BadByte lineno c)
          else
            '(st, ended, pos) ← ihex_scan_record f st lineno pos;
            if (ended : bool) then Ret st else ihex_scan_loop fuel f st lineno pos
      end
  end.

(** Every round consumes at least one byte. *)
Definition ihex_scan (f : ihex_file) : ihex ihex_state :=
  ihex_scan_loop (length (if_bytes f) + 1) f ihex_initial 1 0.

Definition ihex_object_p (f : ihex_file) : ihex ihex_state :=
  if (9 <=? length (if_bytes f))%nat then
    let b := take 9 (if_bytes f) in
    c ← of_opt (b !! 0%nat);
    _ ← ensure (c =? 58) WrongFormat;
    _ ← ensure (forallb hex_p (drop 1 b)) WrongFormat;
    type ← of_opt (HEX2 b 7);
    _ ← ensure (type <=? 5) WrongFormat;
    ihex_scan f
  else Fail (if if_io_error f then SystemError else WrongFormat).

(** The loop of [ihex_read_section]: [contents] is what was stored so far, in
    a buffer of [section->size] bytes, and [bufsize] the size of the scratch
    buffer; a store past the end of either is undefined. *)
Fixpoint ihex_read_loop (fuel : nat) (f : ihex_file) (size : Z) (contents : list Z)
    (bufsize : Z) (pos : nat) : ihex (list Z) :=
  match fuel with
  | O => Undef
  | S fuel =>
      match ihex_get_byte f pos with
      | (None, _) =>
          if Z.of_nat (length contents) <? size then Fail BadSectionLength else Ret contents
      | (Some c, _) =>
          if (c =? 13) || (c =? 10) then ihex_read_loop fuel f size contents bufsize (pos + 1)
          else
            hdr ← bfd_read f (pos + 1) 8;
            len ← of_opt (HEX2 hdr 0);
            type ← of_opt (HEX2 hdr 6);
            _ ← ensure (type =? 0) InternalError;
            let bufsize := if bufsize <? len * 2 then len * 2 else bufsize in
            buf ← bfd_read f (pos + 9) (Z.to_nat (len * 2));
            new ← of_opt (mapM (fun i => HEX2 buf (2 * i)) (seq 0 (Z.to_nat len)));
            let contents := contents ++ new in
            if size <? Z.of_nat (length contents) then Undef
            else if size <=? Z.of_nat (length contents) then Ret contents
            else if bufsize <? 2 then Undef
            else
              _ ← bfd_read f (pos + 9 + Z.to_nat (len * 2)) 2;
              ihex_read_loop fuel f size contents bufsize (pos + 11 + Z.to_nat (len * 2))
      end
  end.

Definition ihex_read_section (f : ihex_file) (section : asection) : ihex (list Z) :=
  ihex_read_loop (length (if_bytes f) + 1) f (sec_size section) [] 0 (sec_filepos section).

(** [ihex_get_section_contents] on a section whose contents are not cached. *)
Definition ihex_get_section_contents (f : ihex_file) (section : asection) (offset count : nat)
    : ihex (list Z) :=
  contents ← ihex_read_section f section;
  if (offset + count <=? length contents)%nat then Ret (take count (drop offset contents)) else Undef.

End ihex.

(** ** Writing *)

Definition CHUNK : Z := 16.

Record ihex_data := mkData {
  id_where : Z;
  id_data : list Z
}.

(** [ihex_set_section_contents] on the list of the data to write, kept sorted
    by address; its tail is its last element. *)
Fixpoint ihex_insert (n : ihex_data) (l : list ihex_data) : list ihex_data :=
  match l with
  | [] => [n]
  | d :: l => if id_where d <? id_where n then d :: ihex_insert n l else n :: d :: l
  end.

Definition ihex_set_section_contents (l : list ihex_data) (section : asection)
    (location : list Z) (offset : Z) : list ihex_data :=
  if (Z.of_nat (length location) =? 0) || (sec_flags section .& SEC_ALLOC =? 0)
     || (sec_flags section .& SEC_LOAD =? 0)
  then l
  else
    let n := mkData (u64 (sec_lma section + offset)) location in
    match last l with
    | Some tail => if id_where tail <=? id_where n then l ++ [n] else ihex_insert n l
    | None => ihex_insert n l
    end.

(** [ihex_write_record]: the characters of a record.  The local buffer holds
    [CHUNK] bytes of data. *)
Definition ihex_write_record (count addr type : Z) (data : list Z) : ihex (list Z) :=
  if CHUNK <? count then Undef
  else
    let hdr := [58] ++ TOHEX count ++ TOHEX ((addr .>> 8) .& 0xff) ++ TOHEX (addr .& 0xff) ++ TOHEX type in
    let chksum := u32 (count + addr + (addr .>> 8) + type) in
    let chksum := foldl (fun s b => u32 (s + b)) chksum (take (Z.to_nat count) data) in
    Ret (hdr ++ concat (TOHEX <$> take (Z.to_nat count) data)
         ++ TOHEX (u32 (- chksum) .& 0xff) ++ [13; 10]).

(** The writer's variables and what it has written. *)
Record ihex_writer := mkWriter {
  iw_segbase : Z;
  iw_extbase : Z;
  iw_out : list Z
}.

Definition ihex_emit (w : ihex_writer) (count addr type : Z) (data : list Z) : ihex ihex_writer :=
  r ← ihex_write_record count addr type data;
  Ret (mkWriter (iw_segbase w) (iw_extbase w) (iw_out w ++ r)).

Definition set_segbase (v : Z) (w : ihex_writer) : ihex_writer := mkWriter v (iw_extbase w) (iw_out w).
Definition set_extbase (v : Z) (w : ihex_writer) : ihex_writer := mkWriter (iw_segbase w) v (iw_out w).

(** A new base address for [where], when the current one does not reach it. *)
Definition ihex_rebase (w : ihex_writer) (where_ : Z) : ihex ihex_writer :=
  if (where_ <? iw_extbase w) || (u64 (where_ - iw_extbase w) <? iw_segbase w)
     || (0xffff <? u64 (u64 (where_ - iw_extbase w) - iw_segbase w))
  then
    if (iw_extbase w =? 0) && (where_ <=? 0xfffff) then
      let segbase := where_ .& 0xf0000 in
      ihex_emit (set_segbase segbase w) 2 0 2
        [u8 (segbase .>> 12) .& 0xff; u8 (segbase .>> 4) .& 0xff]
    else
      w ← (if negb (iw_segbase w =? 0) then
             w ← ihex_emit w 2 0 2 [0; 0]; Ret (set_segbase 0 w)
           else Ret w);
      let extbase := where_ .& 0xffff0000 in
      let w := set_extbase extbase w in
      if u64 (extbase + 0xffff) <? where_ then Fail (OutOfRange where_)
      else
        ihex_emit w 2 0 4
          [u8 (extbase .>> 24) .& 0xff; u8 (extbase .>> 16) .& 0xff]
  else Ret w.

(** The loop over the bytes [p] of one piece of data. *)
Fixpoint ihex_write_data (fuel : nat) (w : ihex_writer) (where_ : Z) (p : list Z)
    : ihex ihex_writer :=
  match fuel with
  | O => Undef
  | S fuel =>
      let count := Z.of_nat (length p) in
      if count =? 0 then Ret w
      else
        let now := if CHUNK <? count then CHUNK else count in
        w ← ihex_rebase w where_;
        let rec_addr := u32 (where_ - (iw_extbase w + iw_segbase w)) in
        let now := if 0xffff <? rec_addr + now then 0x10000 - rec_addr else now in
        w ← ihex_emit w now rec_addr 0 p;
        ihex_write_data fuel w (u64 (where_ + now)) (drop (Z.to_nat now) p)
  end.

(** The loop over the data list, with the check of 64-bit addresses. *)
Fixpoint ihex_write_list (w : ihex_writer) (l : list ihex_data) : ihex ihex_writer :=
  match l with
  | [] => Ret w
  | d :: l =>
      let where_ := id_where d in
      if (0xffffffff <? where_) && (0xffffffff <? u64 (where_ + 0x80000000))
      then Fail (OutOfRange where_)
      else
        w ← ihex_write_data (length (id_data d) + 1) w (where_ .& 0xffffffff) (id_data d);
        ihex_write_list w l
  end.

(** The start address record. *)
Definition ihex_write_start (w : ihex_writer) (start : Z) : ihex ihex_writer :=
  if start =? 0 then Ret w
  else if start <=? 0xfffff then
    ihex_emit w 4 0 3
      [u8 ((start .& 0xf0000) .>> 12) .& 0xff; 0; u8 (start .>> 8) .& 0xff; u8 start .& 0xff]
  else
    ihex_emit w 4 0 5
      [u8 (start .>> 24) .& 0xff; u8 (start .>> 16) .& 0xff; u8 (start .>> 8) .& 0xff;
       u8 start .& 0xff].

Definition ihex_write_object_contents (l : list ihex_data) (start_address : Z) : ihex (list Z) :=
  w ← ihex_write_list (mkWriter 0 0 []) l;
  w ← ihex_write_start w start_address;
  w ← ihex_emit w 0 0 1 [];
  Ret (iw_out w).
