(* ===== verification/IhexScan.v ===== *)
(** Scanning Intel Hex: what ihex_scan establishes about any file it accepts,
    and that the sections it makes are read back in full, inside their
    buffers. *)

From S2P Require Import Prelude Hex Ihex.

Section scan.
Context `{HexDigits}.

(** ** Hex fields *)

Abbreviation hexes := (Forall (fun c => hex_p c = true)).

Lemma check_hex_spec lineno l : check_hex lineno l = Ret tt <-> hexes l.
Proof.
  induction l as [|c l IH]; cbn [check_hex]; [split; [constructor|done]|].
  rewrite Forall_cons. destruct (hex_p c) eqn:Hc; [|naive_solver]. rewrite IH. naive_solver.
Qed.

Lemma check_hex_not_undef lineno l : check_hex lineno l <> Undef.
Proof. induction l as [|c l IH]; cbn [check_hex]; [done|]. by destruct (hex_p c). Qed.

Lemma HEX2_hexes l i : hexes l -> (i + 1 < length l)%nat -> exists b, HEX2 l i = Some b /\ is_byte b.
Proof.
  intros Hl Hi.
  destruct (lookup_lt_is_Some_2 l i ltac:(lia)) as [a Ha].
  destruct (lookup_lt_is_Some_2 l (i + 1) ltac:(lia)) as [b Hb].
  pose proof (Forall_lookup_1 _ _ _ _ Hl Ha) as Hpa. pose proof (Forall_lookup_1 _ _ _ _ Hl Hb) as Hpb.
  exists (hex_byte a b). split; [by apply HEX2_spec|by apply hex_byte_range].
Qed.

Lemma HEX4_hexes l i :
  hexes l -> (i + 3 < length l)%nat -> exists v, HEX4 l i = Some v /\ fits 16 v.
Proof.
  intros Hl Hi. destruct (HEX2_hexes l i Hl ltac:(lia)) as (a & Ha & Ha').
  destruct (HEX2_hexes l (i + 2) Hl ltac:(lia)) as (b & Hb & Hb').
  unfold HEX4. rewrite Ha. cbn [mbind option_bind]. rewrite Hb. cbn [mbind option_bind].
  exists (256 * a + b). unfold fits in *. rewrite Z.shiftl_mul_pow2 by lia. split; [|lia].
  rewrite (wrap_small 32 (_ * _)) by (unfold fits; lia).
  rewrite wrap_small by (unfold fits; lia). f_equal. lia.
Qed.

(** The data bytes of a record. *)
Definition record_data (buf : list Z) (len : Z) : option (list Z) :=
  mapM (fun i => HEX2 buf (2 * i)) (seq 0 (Z.to_nat len)).

Lemma record_data_hexes buf len :
  hexes buf -> 0 <= len -> (2 * Z.to_nat len <= length buf)%nat ->
  exists new, record_data buf len = Some new /\ Z.of_nat (length new) = len /\ bytes_ok new.
Proof.
  intros Hbuf Hlen Hle. unfold record_data.
  assert (is_Some (mapM (fun i => HEX2 buf (2 * i)) (seq 0 (Z.to_nat len)))) as [new Hnew].
  { apply mapM_is_Some_2, Forall_forall. intros i Hi%elem_of_seq.
    destruct (HEX2_hexes buf (2 * i) Hbuf ltac:(lia)) as (b & Hb & _). by exists b. }
  exists new. split; [done|]. apply mapM_Some_1 in Hnew. split.
  - apply Forall2_length in Hnew. rewrite length_seq in Hnew. lia.
  - apply Forall_lookup. intros i b Hb.
    destruct (Forall2_lookup_r _ _ _ _ _ Hnew Hb) as (j & Hj & Hbj).
    apply lookup_seq in Hj as [-> Hj].
    destruct (HEX2_hexes buf (2 * (0 + i)) Hbuf ltac:(lia)) as (b' & Hb' & Hok).
    rewrite Hbj in Hb'. by injection Hb' as ->.
Qed.

Lemma sum_hex_some n i buf s :
  hexes buf -> (2 * (i + n) <= length buf)%nat -> is_Some (sum_hex n i buf s).
Proof.
  intros Hbuf. revert i s. induction n as [|n IH]; intros i s Hle; [by eexists|].
  cbn [sum_hex]. destruct (HEX2_hexes buf (2 * i) Hbuf ltac:(lia)) as (b & Hb & _). rewrite Hb.
  cbn [mbind option_bind]. apply IH. lia.
Qed.

(** ** One record *)

Lemma bfd_read_Ret f pos n l :
  bfd_read f pos n = Ret l <->
  (pos + n <= length (if_bytes f))%nat /\ l = take n (drop pos (if_bytes f)).
Proof. unfold bfd_read. destruct (Nat.leb_spec (pos + n) (length (if_bytes f))); naive_solver lia. Qed.

Lemma bfd_read_length f pos n l : bfd_read f pos n = Ret l -> length l = n.
Proof. intros [Hle ->]%bfd_read_Ret. rewrite length_take, length_drop. lia. Qed.

(** A well-formed record of the given fields starts at [pos]: [buf] holds its
    data and checksum digits, [new] its data bytes. *)
Definition record_at (f : ihex_file) (pos : nat) (len addr type : Z) (buf new : list Z) : Prop :=
  exists hdr, bfd_read f (pos + 1) 8 = Ret hdr /\ HEX2 hdr 0 = Some len /\
    HEX4 hdr 2 = Some addr /\ HEX2 hdr 6 = Some type /\
    bfd_read f (pos + 9) (Z.to_nat (len * 2 + 2)) = Ret buf /\ hexes buf /\
    record_data buf len = Some new /\ is_byte len /\ fits 16 addr /\
    Z.of_nat (length new) = len /\ bytes_ok new.

Lemma scan_record_inv f st lineno pos st' ended pos' :
  ihex_scan_record f st lineno pos = Ret (st', ended, pos') ->
  exists len addr type buf new, record_at f pos len addr type buf new /\
    ihex_record st lineno pos len addr type buf = Ret (st', ended) /\
    pos' = (pos + 11 + 2 * length new)%nat.
Proof.
  unfold ihex_scan_record. intros Hscan.
  apply outcome_bind_Ret in Hscan as (hdr & Hhdr & Hscan).
  apply outcome_bind_Ret in Hscan as ([] & Hchk & Hscan). apply check_hex_spec in Hchk.
  pose proof (bfd_read_length _ _ _ _ Hhdr) as Hlh.
  destruct (HEX2_hexes hdr 0 Hchk ltac:(lia)) as (len & Hlen & Hlenok).
  destruct (HEX4_hexes hdr 2 Hchk ltac:(lia)) as (addr & Haddr & Haddrok).
  destruct (HEX2_hexes hdr 6 Hchk ltac:(lia)) as (type & Htype & _).
  rewrite Hlen, Haddr, Htype in Hscan. cbn [of_opt mbind outcome_bind] in Hscan.
  assert (u32 (len * 2 + 2) = len * 2 + 2) as Hch by (apply wrap_small; unfold fits in *; lia).
  rewrite Hch in Hscan. apply outcome_bind_Ret in Hscan as (buf & Hbuf & Hscan).
  apply outcome_bind_Ret in Hscan as ([] & Hchk' & Hscan). apply check_hex_spec in Hchk'.
  pose proof (bfd_read_length _ _ _ _ Hbuf) as Hlb.
  destruct (record_data_hexes buf len Hchk') as (new & Hnew & Hnl & Hnok); [unfold fits in *; lia..|].
  exists len, addr, type, buf, new.
  apply outcome_bind_Ret in Hscan as (cs & _ & Hscan).
  apply outcome_bind_Ret in Hscan as (found & _ & Hscan).
  apply outcome_bind_Ret in Hscan as (u & _ & Hscan).
  apply outcome_bind_Ret in Hscan as ([st1 e1] & Hrec & Hscan). injection Hscan as -> -> <-.
  split; [by exists hdr|]. split; [done|]. lia.
Qed.

(** *** Nothing is read outside its buffers *)

Lemma bind_defined {A B} (m : ihex A) (k : A -> ihex B) :
  m <> Undef -> (forall a, m = Ret a -> k a <> Undef) -> m ≫= k <> Undef.
Proof. intros Hm Hk. destruct m; cbn; [by apply Hk|done|done]. Qed.

Lemma of_opt_defined {A} (o : option A) : is_Some o -> (of_opt o : ihex A) <> Undef.
Proof. intros [x ->]. done. Qed.

Lemma ensure_defined b (e : ihex_error) : ensure b e <> Undef.
Proof. by destruct b. Qed.

Lemma bfd_read_defined f pos n : bfd_read f pos n <> Undef.
Proof. unfold bfd_read. by destruct (_ <=? _)%nat. Qed.

Lemma HEX4_defined buf i :
  hexes buf -> (i + 3 < length buf)%nat -> (of_opt (HEX4 buf i) : ihex Z) <> Undef.
Proof. intros Hb Hi. destruct (HEX4_hexes buf i Hb Hi) as (v & -> & _). done. Qed.

Lemma ihex_record_defined st lineno pos len addr type buf :
  hexes buf -> (Z.to_nat (len * 2 + 2) <= length buf)%nat ->
  ihex_record st lineno pos len addr type buf <> Undef.
Proof.
  intros Hbuf Hle. unfold ihex_record.
  destruct (type =? 0); [done|]. destruct (type =? 1); [done|].
  destruct (type =? 2).
  { apply bind_defined; [apply ensure_defined|]. intros [] Hlen%ensure_Ret%Z.eqb_eq.
    apply bind_defined; [apply HEX4_defined; [done|lia]|done]. }
  destruct (type =? 3).
  { apply bind_defined; [apply ensure_defined|]. intros [] Hlen%ensure_Ret%Z.eqb_eq.
    apply bind_defined; [apply HEX4_defined; [done|lia]|]. intros a _.
    apply bind_defined; [apply HEX4_defined; [done|lia]|done]. }
  destruct (type =? 4).
  { apply bind_defined; [apply ensure_defined|]. intros [] Hlen%ensure_Ret%Z.eqb_eq.
    apply bind_defined; [apply HEX4_defined; [done|lia]|done]. }
  destruct (type =? 5); [|done].
  apply bind_defined; [apply ensure_defined|]. intros [] Hlen%ensure_Ret.
  assert (len = 2 \/ len = 4) as Hl by lia.
  apply bind_defined; [apply HEX4_defined; [done|lia]|]. intros a _.
  apply bind_defined; [|done]. destruct (Z.eqb_spec len 2); [done|].
  apply bind_defined; [apply HEX4_defined; [done|lia]|done].
Qed.

Lemma ihex_scan_record_defined f st lineno pos : ihex_scan_record f st lineno pos <> Undef.
Proof.
  unfold ihex_scan_record. apply bind_defined; [apply bfd_read_defined|]. intros hdr Hhdr.
  apply bind_defined; [apply check_hex_not_undef|]. intros [] Hchk%check_hex_spec.
  pose proof (bfd_read_length _ _ _ _ Hhdr) as Hlh.
  destruct (HEX2_hexes hdr 0 Hchk ltac:(lia)) as (len & -> & Hlen).
  destruct (HEX4_hexes hdr 2 Hchk ltac:(lia)) as (addr & -> & _).
  destruct (HEX2_hexes hdr 6 Hchk ltac:(lia)) as (type & -> & _).
  cbn [of_opt mbind outcome_bind].
  rewrite (wrap_small 32 (len * 2 + 2)) by (unfold fits in *; lia).
  apply bind_defined; [apply bfd_read_defined|]. intros buf Hbuf.
  apply bind_defined; [apply check_hex_not_undef|]. intros [] Hchk'%check_hex_spec.
  pose proof (bfd_read_length _ _ _ _ Hbuf) as Hlb. unfold fits in Hlen.
  apply bind_defined; [apply of_opt_defined, sum_hex_some; [done|lia]|]. intros cs _.
  apply bind_defined.
  { apply of_opt_defined. destruct (HEX2_hexes buf (2 * Z.to_nat len) Hchk' ltac:(lia)) as (b & -> & _).
    by eexists. }
  intros found _. apply bind_defined; [apply ensure_defined|]. intros u _.
  apply bind_defined; [apply ihex_record_defined; [done|lia]|]. by intros [st' ended] _.
Qed.

Lemma ihex_scan_loop_defined fuel f st lineno pos :
  (length (if_bytes f) - pos < fuel)%nat -> ihex_scan_loop fuel f st lineno pos <> Undef.
Proof.
  revert st lineno pos. induction fuel as [|fuel IH]; intros st lineno pos Hfuel; [lia|].
  cbn [ihex_scan_loop]. unfold ihex_get_byte. destruct (if_bytes f !! pos) as [c|] eqn:Hc.
  2: by destruct (if_io_error f).
  apply lookup_lt_Some in Hc.
  destruct (_ =? 13); [apply IH; lia|]. destruct (_ =? 10); [apply IH; lia|].
  destruct (negb _); [done|]. apply bind_defined; [apply ihex_scan_record_defined|].
  intros [[st' ended] pos'] Hrec. destruct ended; [done|].
  apply scan_record_inv in Hrec as (len & addr & type & buf & new & _ & _ & ->). apply IH. lia.
Qed.

(** ** Runs of data records *)

(** From [p] to [q], the file holds line ends and data records whose bytes
    are [bs]. *)
Inductive collects (f : ihex_file) : nat -> nat -> list Z -> Prop :=
  | coll_nil p : collects f p p []
  | coll_skip p q bs c :
      if_bytes f !! p = Some c -> c = 13 \/ c = 10 -> collects f (p + 1) q bs -> collects f p q bs
  | coll_rec p q bs len addr buf new :
      if_bytes f !! p = Some 58 -> record_at f p len addr 0 buf new ->
      collects f (p + 11 + 2 * length new) q bs -> collects f p q (new ++ bs).

Lemma collects_trans f p q r bs cs : collects f p q bs -> collects f q r cs -> collects f p r (bs ++ cs).
Proof.
  induction 1 as [|p q bs c Hc Hcr _ IH|p q bs len addr buf new Hc Hrec _ IH]; intros Hr.
  - done.
  - eapply coll_skip; [done|done|auto].
  - rewrite <- app_assoc. eapply coll_rec; [done|done|auto].
Qed.

Lemma collects_ok f p q bs : collects f p q bs -> bytes_ok bs.
Proof.
  induction 1 as [|p q bs c _ _ _ IH|p q bs len addr buf new _ Hrec _ IH]; [constructor|done|].
  apply Forall_app. split; [|done]. by destruct Hrec as (? & _ & _ & _ & _ & _ & _ & _ & _ & _ & _ & ?).
Qed.

Lemma get_byte_byte f pos c :
  if_bytes f !! pos = Some c -> is_byte c -> ihex_get_byte f pos = (Some c, false).
Proof.
  intros Hc Hb. unfold ihex_get_byte. rewrite Hc. by rewrite land_255, wrap_small.
Qed.

(** The body of the reading loop on a data record. *)
Lemma ihex_read_loop_record fuel f size contents bufsize p len addr buf new :
  if_bytes f !! p = Some 58 -> record_at f p len addr 0 buf new ->
  Z.of_nat (length contents + length new) <= size ->
  2 <= bufsize \/ new <> [] ->
  ihex_read_loop (S fuel) f size contents bufsize p =
  if size <=? Z.of_nat (length (contents ++ new)) then Ret (contents ++ new)
  else ihex_read_loop fuel f size (contents ++ new)
         (if bufsize <? len * 2 then len * 2 else bufsize) (p + 11 + 2 * length new).
Proof.
  intros Hc (hdr & Hhdr & Hlen & _ & Htype & Hbuf & Hhex & Hdata & Hlenok & _ & Hnl & _) Hsize Hbs.
  cbn [ihex_read_loop]. rewrite (get_byte_byte f p 58) by (done || (unfold fits; lia)).
  cbn [Z.eqb Pos.eqb orb]. rewrite Hhdr. cbn [mbind outcome_bind]. rewrite Hlen, Htype.
  cbn [of_opt mbind outcome_bind Z.eqb ensure].
  pose proof Hbuf as Hbuf'. apply bfd_read_Ret in Hbuf as [Hle Hbeq].
  assert (Z.to_nat (len * 2 + 2) = Z.to_nat (len * 2) + 2)%nat as Hn by (unfold fits in *; lia).
  assert (Z.to_nat (len * 2) = 2 * length new)%nat as Hn2 by lia.
  assert (bfd_read f (p + 9) (Z.to_nat (len * 2)) = Ret (take (Z.to_nat (len * 2)) buf)) as Hread.
  { apply bfd_read_Ret. split; [lia|]. rewrite Hbeq, take_take. f_equal. lia. }
  rewrite Hread. cbn [mbind outcome_bind].
  assert (mapM (fun i => HEX2 (take (Z.to_nat (len * 2)) buf) (2 * i)) (seq 0 (Z.to_nat len)) = Some new) as ->.
  { rewrite <- Hdata. apply mapM_ext_on. intros i Hi%elem_of_seq. unfold HEX2.
    by rewrite !lookup_take_lt by lia. }
  cbn [of_opt mbind outcome_bind]. rewrite length_app.
  replace (size <? Z.of_nat (length contents + length new)) with false by (symmetry; apply Z.ltb_ge; exact Hsize).
  destruct (size <=? Z.of_nat (length contents + length new)); [done|].
  assert ((if bufsize <? len * 2 then len * 2 else bufsize) <? 2 = false) as ->.
  { assert (0 < len \/ 2 <= bufsize) by (destruct Hbs as [|Hne]; [by right|left; destruct new; simpl in *; [done|lia]]).
    split_ifs; lia. }
  assert (bfd_read f (p + 9 + Z.to_nat (len * 2)) 2 = Ret (drop (Z.to_nat (len * 2)) buf)) as ->.
  { apply bfd_read_Ret. split; [lia|]. rewrite Hbeq, skipn_firstn_comm, drop_drop.
    by replace (Z.to_nat (len * 2 + 2) - Z.to_nat (len * 2))%nat with 2%nat by lia. }
  cbn [mbind outcome_bind]. f_equal. lia.
Qed.

(** Reading a section whose bytes are collected up to some point. *)
Lemma ihex_read_loop_collects f size p q bs :
  collects f p q bs ->
  forall fuel contents bufsize,
  (length (if_bytes f) - p < fuel)%nat -> Z.of_nat (length contents) < size ->
  Z.of_nat (length contents + length bs) = size -> 2 <= bufsize ->
  ihex_read_loop fuel f size contents bufsize p = Ret (contents ++ bs).
Proof.
  induction 1 as [p|p q bs c Hc Hcr _ IH|p q bs len addr buf new Hc Hrec _ IH];
    intros fuel contents bufsize Hfuel Hlt Heq Hbuf.
  - simpl in Heq. lia.
  - apply lookup_lt_Some in Hc as Hlt'. destruct fuel as [|fuel]; [lia|]. cbn [ihex_read_loop].
    rewrite (get_byte_byte f p c) by (done || (unfold fits; lia)).
    replace ((c =? 13) || (c =? 10)) with true by lia. apply IH; (done || lia).
  - apply lookup_lt_Some in Hc as Hlt'. destruct fuel as [|fuel]; [lia|].
    rewrite length_app in Heq.
    rewrite (ihex_read_loop_record _ _ _ _ _ _ _ _ _ _ Hc Hrec) by (lia || by left).
    rewrite length_app. destruct (Z.leb_spec size (Z.of_nat (length contents + length new))).
    + assert (bs = []) as -> by (destruct bs; simpl in *; [done|lia]). by rewrite app_nil_r.
    + rewrite IH; [by rewrite app_assoc|lia| | |]; rewrite ?length_app; [lia..|].
      destruct (Z.ltb_spec bufsize (len * 2)); lia.
Qed.

Lemma ihex_read_section_collects f sec q len addr buf new bs :
  if_bytes f !! sec_filepos sec = Some 58 -> record_at f (sec_filepos sec) len addr 0 buf new ->
  new <> [] -> collects f (sec_filepos sec + 11 + 2 * length new) q bs ->
  Z.of_nat (length (new ++ bs)) = sec_size sec ->
  ihex_read_section f sec = Ret (new ++ bs).
Proof.
  intros Hc Hrec Hnew Hcoll Hsize. unfold ihex_read_section. rewrite length_app in Hsize.
  rewrite Nat.add_1_r.
  rewrite (ihex_read_loop_record _ _ _ _ _ _ _ _ _ _ Hc Hrec) by (simpl; lia || by right).
  cbn [app]. assert (Z.of_nat (length new) = len) as Hl.
  { by destruct Hrec as (? & _ & _ & _ & _ & _ & _ & _ & _ & _ & ? & _). }
  apply lookup_lt_Some in Hc as Hlt.
  assert (0 < length new)%nat by (destruct new; simpl; [done|lia]).
  destruct (Z.leb_spec (sec_size sec) (Z.of_nat (length new))).
  - assert (bs = []) as -> by (destruct bs; simpl in *; [done|lia]). by rewrite app_nil_r.
  - apply (ihex_read_loop_collects f _ _ _ _ Hcoll); [lia|lia|lia|].
    destruct (Z.ltb_spec 0 (len * 2)); lia.
Qed.

(** ** The scanner's invariant *)

(** What is known of a section: its first record is not empty and its bytes
    [bs] are collected up to position [q]. *)
Definition section_ok (f : ihex_file) (sec : asection) (bs : list Z) (q : nat) : Prop :=
  exists len addr buf new bs', bs = new ++ bs' /\ new <> [] /\
    if_bytes f !! sec_filepos sec = Some 58 /\
    record_at f (sec_filepos sec) len addr 0 buf new /\
    collects f (sec_filepos sec + 11 + 2 * length new) q bs' /\
    sec_size sec = u64 (Z.of_nat (length bs)) /\ (q <= length (if_bytes f))%nat.

(** [contents] are the bytes of the sections made so far; the section being
    built is collected up to the current position [pos]. *)
Definition scanned (f : ihex_file) (st : ihex_state) (contents : list (list Z)) (pos : nat) : Prop :=
  Forall2 (fun sec bs => exists q, section_ok f sec bs q) (is_sections st) contents /\
  (is_sec st = true -> exists sec bs,
     last (is_sections st) = Some sec /\ last contents = Some bs /\ section_ok f sec bs pos).

(** How a record changes the contents. *)
Definition extends (st : ihex_state) (addr : Z) : bool :=
  match last (is_sections st) with
  | Some sec => is_sec st &&
      (u64 (sec_vma sec + sec_size sec) =? u64 (u64 (is_extbase st + is_segbase st) + addr))
  | None => false
  end.

Definition record_contents (st : ihex_state) (addr type : Z) (new : list Z)
    (contents : list (list Z)) : list (list Z) :=
  if type =? 0 then
    if extends st addr then
      match last contents with
      | Some bs => <[pred (length contents) := bs ++ new]> contents
      | None => contents
      end
    else if decide (new = []) then contents else contents ++ [new]
  else contents.

Lemma section_ok_skip f sec bs q c :
  if_bytes f !! q = Some c -> c = 13 \/ c = 10 -> section_ok f sec bs q -> section_ok f sec bs (q + 1).
Proof.
  intros Hc Hcr (len & addr & buf & new & bs' & -> & Hne & H58 & Hrec & Hcoll & Hsize & Hq).
  exists len, addr, buf, new, bs'. split_and!; try done.
  - rewrite <- (app_nil_r bs'). eapply collects_trans; [exact Hcoll|].
    eapply coll_skip; [done|done|constructor].
  - apply lookup_lt_Some in Hc. lia.
Qed.

Lemma scanned_skip f st contents pos c :
  if_bytes f !! pos = Some c -> c = 13 \/ c = 10 -> scanned f st contents pos ->
  scanned f st contents (pos + 1).
Proof.
  intros Hc Hcr [Hall Hsec]. split; [done|]. intros Hs. destruct (Hsec Hs) as (sec & bs & H1 & H2 & H3).
  exists sec, bs. split_and!; [done..|]. by eapply section_ok_skip.
Qed.

Lemma collects_one f p len addr buf new :
  if_bytes f !! p = Some 58 -> record_at f p len addr 0 buf new ->
  collects f p (p + 11 + 2 * length new) new.
Proof.
  intros Hc Hrec. pose proof (coll_rec f p _ [] len addr buf new Hc Hrec (coll_nil f _)) as Hcoll.
  by rewrite app_nil_r in Hcoll.
Qed.

(** Appending a record to a section that ends at its position. *)
Lemma section_ok_append f sec sec' bs pos len addr buf new :
  section_ok f sec bs pos -> if_bytes f !! pos = Some 58 -> record_at f pos len addr 0 buf new ->
  sec_filepos sec' = sec_filepos sec -> sec_size sec' = u64 (sec_size sec + len) ->
  section_ok f sec' (bs ++ new) (pos + 11 + 2 * length new).
Proof.
  intros (l0 & a0 & b0 & n0 & bs' & -> & Hne & H58 & Hrec0 & Hcoll & Hsize & Hq) Hc Hrec Hfp Hsz.
  pose proof Hrec as (hdr & _ & _ & _ & _ & Hbuf & _ & _ & Hlen & _ & Hnl & _).
  apply bfd_read_Ret in Hbuf as [Hle _].
  exists l0, a0, b0, n0, (bs' ++ new). rewrite Hfp. split_and!; try done.
  - by rewrite app_assoc.
  - eapply collects_trans; [exact Hcoll|]. by eapply collects_one.
  - rewrite Hsz, Hsize, wrap_add_l, <- Hnl, <- Nat2Z.inj_add, !length_app by lia. f_equal; lia.
  - unfold fits in Hlen. lia.
Qed.

Lemma section_ok_fresh f sec pos len addr buf new :
  if_bytes f !! pos = Some 58 -> record_at f pos len addr 0 buf new -> new <> [] ->
  sec_filepos sec = pos -> sec_size sec = len ->
  section_ok f sec new (pos + 11 + 2 * length new).
Proof.
  intros Hc Hrec Hne Hfp Hsz.
  pose proof Hrec as (hdr & _ & _ & _ & _ & Hbuf & _ & _ & Hlen & _ & Hnl & _).
  apply bfd_read_Ret in Hbuf as [Hle _].
  exists len, addr, buf, new, []. rewrite Hfp. split_and!; try done.
  - by rewrite app_nil_r.
  - constructor.
  - rewrite Hsz, Hnl. symmetry. apply wrap_small. unfold fits in *. lia.
  - unfold fits in Hlen. lia.
Qed.

Lemma last_insert_pred {A} (l : list A) x : l <> [] -> last (<[pred (length l) := x]> l) = Some x.
Proof.
  intros Hne. rewrite last_lookup, length_insert. apply list_lookup_insert_eq.
  destruct l; simpl; [done|lia].
Qed.

Lemma scanned_data f st contents pos len addr buf new :
  scanned f st contents pos -> if_bytes f !! pos = Some 58 ->
  record_at f pos len addr 0 buf new ->
  scanned f (ihex_data_record st pos len addr) (record_contents st addr 0 new contents)
    (pos + 11 + 2 * length new).
Proof.
  intros [Hall Hsec] Hc Hrec.
  assert (Z.of_nat (length new) = len) as Hnl.
  { by destruct Hrec as (? & _ & _ & _ & _ & _ & _ & _ & _ & _ & ? & _). }
  unfold ihex_data_record, record_contents. cbn [Z.eqb].
  set (target := u64 (u64 (is_extbase st + is_segbase st) + addr)).
  assert (extends st addr = match last (is_sections st) with
    | Some sec => is_sec st && (u64 (sec_vma sec + sec_size sec) =? target) | None => false end) as Hext
    by done.
  set (secnew := mkSection _ _ target target len pos).
  assert (extends st addr = false ->
    scanned f (if 0 <? len then mkIhex (is_start st) (is_sections st ++ [secnew]) (is_segbase st) (is_extbase st) true else st)
      (if decide (new = []) then contents else contents ++ [new]) (pos + 11 + 2 * length new)) as Hfresh.
  { intros _. destruct (Z.ltb_spec 0 len).
    - rewrite decide_False by (intros ->; simpl in *; lia).
      assert (section_ok f secnew new (pos + 11 + 2 * length new)) as Hok.
      { eapply section_ok_fresh; [exact Hc|exact Hrec| |done|done]. intros ->. simpl in *. lia. }
      split; cbn.
      + apply Forall2_app; [done|]. constructor; [by eexists|constructor].
      + intros _. exists secnew, new. rewrite !last_snoc. done.
    - rewrite decide_True by (destruct new; simpl in *; [done|lia]). split; [done|].
      intros Hs. destruct (Hsec Hs) as (sec & bs & H1 & H2 & H3). exists sec, bs. split_and!; [done..|].
      rewrite <- (app_nil_r bs). assert (new = []) as -> by (destruct new; simpl in *; [done|lia]).
      eapply section_ok_append; [exact H3|exact Hc|exact Hrec|done|].
      destruct H3 as (? & ? & ? & ? & ? & _ & _ & _ & _ & _ & Hsize & _).
      assert (len = 0) as -> by (simpl in *; lia). rewrite Z.add_0_r, Hsize. by rewrite wrap_idemp. }
  destruct (last (is_sections st)) as [sec|] eqn:Hlast.
  - destruct (is_sec st && _) eqn:Hb; rewrite Hext.
    + apply andb_true_iff in Hb as [Hs _]. destruct (Hsec Hs) as (sec' & bs & H1 & H2 & H3).
      assert (sec' = sec) as -> by congruence. rewrite H2.
      set (sec2 := mkSection _ _ _ _ _ _).
      assert (section_ok f sec2 (bs ++ new) (pos + 11 + 2 * length new)) as Hok
        by (by eapply section_ok_append).
      assert (is_sections st <> []) as Hn1 by (intros E; by rewrite E in Hlast).
      assert (contents <> []) as Hn2 by (intros E; by rewrite E in H2).
      split; cbn.
      * rewrite <- (Forall2_length _ _ _ Hall). apply Forall2_insert; [done|by eexists].
      * intros _. exists sec2, (bs ++ new). by rewrite !last_insert_pred.
    + by apply Hfresh.
  - rewrite Hext. by apply Hfresh.
Qed.

Lemma scanned_record f st contents lineno pos len addr type buf new st' :
  scanned f st contents pos -> if_bytes f !! pos = Some 58 ->
  record_at f pos len addr type buf new ->
  ihex_record st lineno pos len addr type buf = Ret (st', false) ->
  scanned f st' (record_contents st addr type new contents) (pos + 11 + 2 * length new).
Proof.
  intros Hsc Hc Hrec. unfold ihex_record.
  destruct (Z.eqb_spec type 0) as [->|Hne0].
  { intros [= <-]. by eapply scanned_data. }
  unfold record_contents. apply Z.eqb_neq in Hne0. rewrite Hne0. destruct Hsc as [Hall _].
  intros Hr.
  assert (is_sections st' = is_sections st /\ is_sec st' = false) as [E1 E2].
  { destruct (type =? 1); [discriminate|].
    repeat match goal with
    | H : (if ?b then _ else _) = Ret _ |- _ => destruct b
    | H : _ ≫= _ = Ret _ |- _ => apply outcome_bind_Ret in H as (? & _ & H)
    | H : Ret _ = Ret _ |- _ => injection H as <-
    | H : Fail _ = Ret _ |- _ => discriminate
    end; done. }
  split; [by rewrite E1|]. by rewrite E2.
Qed.

Lemma ihex_record_end st lineno pos len addr type buf st' :
  ihex_record st lineno pos len addr type buf = Ret (st', true) -> is_sections st' = is_sections st.
Proof.
  unfold ihex_record. intros Hr.
  repeat match goal with
  | H : (if ?b then _ else _) = Ret _ |- _ => destruct b
  | H : _ ≫= _ = Ret _ |- _ => apply outcome_bind_Ret in H as (? & _ & H)
  | H : Ret _ = Ret _ |- _ => injection H as <-
  | H : Fail _ = Ret _ |- _ => discriminate
  end; done.
Qed.

(** Every section of an accepted file is collected. *)
Lemma ihex_scan_loop_scanned fuel f st lineno pos contents st' :
  bytes_ok (if_bytes f) -> scanned f st contents pos ->
  ihex_scan_loop fuel f st lineno pos = Ret st' ->
  exists contents', Forall2 (fun sec bs => exists q, section_ok f sec bs q) (is_sections st') contents'.
Proof.
  intros Hbytes. revert st lineno pos contents.
  induction fuel as [|fuel IH]; intros st lineno pos contents Hsc; [done|]. cbn [ihex_scan_loop].
  destruct (if_bytes f !! pos) as [c|] eqn:Hc.
  - pose proof (Forall_lookup_1 _ _ _ _ Hbytes Hc) as Hb. rewrite (get_byte_byte _ _ c) by done.
    destruct (Z.eqb_spec c 13) as [->|].
    { apply (IH st lineno _ contents). eapply scanned_skip; [done|by left|done]. }
    destruct (Z.eqb_spec c 10) as [->|].
    { eapply IH. eapply scanned_skip; [done|by right|done]. }
    destruct (Z.eqb_spec c 58) as [->|]; [|done]. cbn [negb].
    intros Hl. apply outcome_bind_Ret in Hl as ([[st1 ended] pos1] & Hrec & Hl).
    apply scan_record_inv in Hrec as (len & addr & type & buf & new & Hrec & Hstep & ->).
    destruct ended.
    + injection Hl as <-. rewrite (ihex_record_end _ _ _ _ _ _ _ _ Hstep). exists contents. apply Hsc.
    + eapply IH; [|exact Hl]. by eapply scanned_record.
  - unfold ihex_get_byte. rewrite Hc. destruct (if_io_error f); [done|]. intros [= <-].
    exists contents. apply Hsc.
Qed.

Lemma collects_length f p q bs : collects f p q bs -> (p + length bs <= q)%nat.
Proof.
  induction 1 as [|p q bs c _ _ _ IH|p q bs len addr buf new _ _ _ IH]; rewrite ?length_app; simpl; lia.
Qed.

(** Such a section is read back: all its bytes, and no more. *)
Lemma section_ok_read f sec bs q :
  section_ok f sec bs q -> Z.of_nat (length bs) = sec_size sec ->
  ihex_read_section f sec = Ret bs /\ bytes_ok bs.
Proof.
  intros (len & addr & buf & new & bs' & -> & Hne & H58 & Hrec & Hcoll & _ & Hq) Hsz. split.
  - by eapply ihex_read_section_collects.
  - apply Forall_app. split; [|by eapply collects_ok].
    by destruct Hrec as (? & _ & _ & _ & _ & _ & _ & _ & _ & _ & _ & ?).
Qed.

Lemma section_ok_size f sec bs q :
  Z.of_nat (length (if_bytes f)) < 2 ^ 64 -> section_ok f sec bs q -> Z.of_nat (length bs) = sec_size sec.
Proof.
  intros Hfile (len & addr & buf & new & bs' & -> & Hne & H58 & Hrec & Hcoll & Hsize & Hq).
  pose proof (collects_length _ _ _ _ Hcoll) as Hl.
  rewrite Hsize. symmetry. apply wrap_small. rewrite length_app. unfold fits. lia.
Qed.

(** ** Property *)

(** C5: scanning any file ends without reading outside a buffer; and
    every section of a file it accepts is then read back in full: exactly the
    section's size, without storing past the buffer allocated for it. *)
Theorem ihex_scan_safe (f : ihex_file) :
  bytes_ok (if_bytes f) -> Z.of_nat (length (if_bytes f)) < 2 ^ 64 ->
  ihex_scan f <> Undef /\
  forall st sec, ihex_scan f = Ret st -> sec ∈ is_sections st ->
    exists contents, ihex_read_section f sec = Ret contents /\
      Z.of_nat (length contents) = sec_size sec /\ bytes_ok contents /\
      forall offset count, (offset + count <= length contents)%nat ->
        ihex_get_section_contents f sec offset count = Ret (take count (drop offset contents)).
Proof.
  intros Hbytes Hfile. split; [clear Hfile; unfold ihex_scan; apply ihex_scan_loop_defined; lia|].
  intros st sec Hscan Hsec.
  destruct (ihex_scan_loop_scanned (length (if_bytes f) + 1) f ihex_initial 1 0 [] st Hbytes) as (contents & Hall);
    [split; [constructor|done]|exact Hscan|].
  apply list_elem_of_lookup in Hsec as [i Hi].
  destruct (Forall2_lookup_l _ _ _ _ _ Hall Hi) as (bs & _ & q & Hok).
  pose proof (section_ok_size f sec bs q Hfile Hok) as Hlen.
  destruct (section_ok_read f sec bs q Hok Hlen) as (Hread & Hbs).
  exists bs. split_and!; [done..|]. intros offset count Hle.
  unfold ihex_get_section_contents. rewrite Hread. cbn [mbind outcome_bind].
  by rewrite (proj2 (Nat.leb_le _ _) Hle).
Qed.

End scan.

(** The file ":02000000AABB99" with a line end, then an end record. *)
Definition sample_ihex : ihex_file :=
  mkFile ([58; 48; 50; 48; 48; 48; 48; 48; 48; 65; 65; 66; 66; 57; 57; 13; 10] ++
          [58; 48; 48; 48; 48; 48; 48; 48; 49; 70; 70]) false.

Lemma ihex_scan_safe_witness :
  exists st sec contents, ihex_scan sample_ihex = Ret st /\ sec ∈ is_sections st /\
    ihex_read_section sample_ihex sec = Ret contents /\ Z.of_nat (length contents) = 2.
Proof.
  assert (bytes_ok (if_bytes sample_ihex)) as Hb by (repeat constructor; vm_compute; congruence).
  destruct (ihex_scan_safe sample_ihex Hb) as [_ H]; [vm_compute; reflexivity|].
  set (sec := mkSection 1 259 0 0 2 0).
  assert (ihex_scan sample_ihex = Ret (mkIhex 0 [sec] 0 0 true)) as Hs by (vm_compute; reflexivity).
  destruct (H _ sec Hs) as (contents & H1 & H2 & _); [cbn; set_solver|].
  exists (mkIhex 0 [sec] 0 0 true), sec, contents. split; [exact Hs|]. split; [cbn; set_solver|].
  split; [exact H1|exact H2].
Defined.
