(* ===== verification/IhexWrite.v ===== *)
(** Writing Intel Hex: what ihex_write_object_contents writes, ihex_scan and
    ihex_read_section read back, byte for byte at the same addresses; and the
    data list that ihex_set_section_contents keeps sorted. *)

From S2P Require Import Prelude StableSort Hex Ihex IhexScan.

(** ** Addressed bytes *)

(** The bytes [bs] at the addresses from [v] on. *)
Fixpoint place (v : Z) (bs : list Z) : list (Z * Z) :=
  match bs with
  | [] => []
  | b :: bs => (v, b) :: place (v + 1) bs
  end.

(** The contents of sections, with their addresses. *)
Fixpoint spread (secs : list asection) (contents : list (list Z)) : list (Z * Z) :=
  match secs, contents with
  | sec :: secs, bs :: contents => place (sec_vma sec) bs ++ spread secs contents
  | _, _ => []
  end.

Lemma place_app v a b : place v (a ++ b) = place v a ++ place (v + Z.of_nat (length a)) b.
Proof.
  revert v. induction a as [|x a IH]; intros v; cbn [app place length].
  - by rewrite Z.add_0_r.
  - rewrite IH. cbn [app]. do 3 f_equal. lia.
Qed.

Lemma spread_snoc secs contents sec bs :
  length secs = length contents ->
  spread (secs ++ [sec]) (contents ++ [bs]) = spread secs contents ++ place (sec_vma sec) bs.
Proof.
  revert contents. induction secs as [|s secs IH]; intros [|c contents] Hlen; simplify_eq/=.
  - by rewrite app_nil_r.
  - rewrite IH by lia. by rewrite app_assoc.
Qed.

(** ** Address arithmetic *)

(** Masking the bits from 16 to [16 + n]. *)
Lemma land_high n x : 0 <= n -> 0 <= x < 2 ^ (16 + n) -> x .& (Z.ones n .<< 16) = 65536 * (x / 65536).
Proof.
  intros Hn Hx. change 65536 with (2 ^ 16). rewrite (Z.mul_comm (2 ^ 16)), <- Z.shiftl_mul_pow2 by lia.
  rewrite <- Z.shiftr_div_pow2 by lia. apply Z.bits_inj'. intros i Hi.
  rewrite Z.land_spec, !Z.shiftl_spec by lia.
  destruct (Z.lt_ge_cases i 16).
  { rewrite !(Z.testbit_neg_r _ (i - 16)) by lia. apply andb_false_r. }
  rewrite Z.shiftr_spec by lia. replace (i - 16 + 16) with i by lia.
  destruct (Z.lt_ge_cases i (16 + n)).
  - rewrite Z.ones_spec_low by lia. apply andb_true_r.
  - rewrite Z.ones_spec_high by lia. rewrite andb_false_r. symmetry.
    apply Z.bits_above_log2; [lia|]. destruct (Z.eq_dec x 0) as [->|]; [simpl; lia|].
    assert (Z.log2 x < 16 + n) by (apply Z.log2_lt_pow2; lia). lia.
Qed.

Lemma land_ffff0000 x : fits 32 x -> x .& 0xffff0000 = 65536 * (x / 65536).
Proof. apply (land_high 16). lia. Qed.

Lemma land_f0000 x : 0 <= x <= 0xfffff -> x .& 0xf0000 = 65536 * (x / 65536).
Proof. intros Hx. apply (land_high 4); [lia|]. change (2 ^ (16 + 4)) with 0x100000. lia. Qed.

Lemma byte_of x n : 0 <= n -> u8 (x .>> n) .& 0xff = u8 (x / 2 ^ n).
Proof. intros. rewrite land_255, wrap_idemp by lia. by rewrite Z.shiftr_div_pow2. Qed.

(** ** The characters of a record *)

Section write.
Context `{HexDigits}.

Definition hex_data (data : list Z) : list Z := concat (TOHEX <$> data).

Definition record_header (count addr type : Z) : list Z :=
  TOHEX count ++ TOHEX ((addr .>> 8) .& 0xff) ++ TOHEX (addr .& 0xff) ++ TOHEX type.

Definition record_checksum (count addr type : Z) (data : list Z) : Z :=
  foldl (fun s b => u32 (s + b)) (u32 (count + addr + (addr .>> 8) + type)) data.

Definition record_tail (count addr type : Z) (data : list Z) : list Z :=
  hex_data data ++ TOHEX (u32 (- record_checksum count addr type data) .& 0xff).

Definition record_chars (addr type : Z) (data : list Z) : list Z :=
  let count := Z.of_nat (length data) in
  58 :: record_header count addr type ++ record_tail count addr type data ++ [13; 10].

Lemma write_record_chars count addr type p :
  0 <= count <= CHUNK -> (Z.to_nat count <= length p)%nat ->
  ihex_write_record count addr type p = Ret (record_chars addr type (take (Z.to_nat count) p)).
Proof.
  intros Hc Hp. unfold ihex_write_record. replace (CHUNK <? count) with false by lia.
  unfold record_chars. rewrite length_take, Nat.min_l, Z2Nat.id by lia.
  unfold record_tail, hex_data, record_header, record_checksum. cbn [app].
  by rewrite <- !app_assoc.
Qed.

Lemma hex_data_length data : length (hex_data data) = (2 * length data)%nat.
Proof. unfold hex_data. induction data as [|b data IH]; cbn; [done|]. cbn in IH. lia. Qed.

Lemma hex_data_hexes data : bytes_ok data -> Forall (fun c => hex_p c = true) (hex_data data).
Proof.
  unfold hex_data. induction 1 as [|b data Hb _ IH]; cbn [fmap list_fmap concat]; [constructor|].
  apply Forall_app. split; [by apply TOHEX_hex|done].
Qed.

Lemma take_two_drop i (pre mid suf : list Z) :
  length mid = 2%nat -> length pre = i -> take 2 (drop i (pre ++ mid ++ suf)) = mid.
Proof. intros Hm <-. rewrite drop_app_length. rewrite take_app_length'; done. Qed.

Lemma TOHEX_length v : length (TOHEX v) = 2%nat.
Proof. done. Qed.

(** Reading byte [i] of hexadecimal data. *)
Lemma hex_data_HEX2 data suf i b :
  bytes_ok data -> data !! i = Some b -> HEX2 (hex_data data ++ suf) (2 * i) = Some b.
Proof.
  intros Hok Hi. pose proof (Forall_lookup_1 _ _ _ _ Hok Hi) as Hb.
  apply HEX2_TOHEX; [done|]. rewrite <- (take_drop_middle data i b Hi). unfold hex_data.
  rewrite fmap_app, concat_app. cbn [fmap list_fmap concat]. rewrite <- !app_assoc.
  apply take_two_drop; [done|]. change (concat (TOHEX <$> take i data)) with (hex_data (take i data)).
  rewrite hex_data_length, length_take. apply lookup_lt_Some in Hi. lia.
Qed.

Lemma hex_data_record data suf :
  bytes_ok data -> record_data (hex_data data ++ suf) (Z.of_nat (length data)) = Some data.
Proof.
  intros Hok. unfold record_data. rewrite Nat2Z.id. apply mapM_Some_2, Forall2_same_length_lookup_2.
  - by rewrite length_seq.
  - intros i j b Hi Hb. apply lookup_seq in Hi as [-> _]. by apply hex_data_HEX2.
Qed.

Lemma hex_data_sum data suf n i s :
  bytes_ok data -> (i + n)%nat = length data ->
  sum_hex n i (hex_data data ++ suf) s = Some (foldl (fun s b => u32 (s + b)) s (drop i data)).
Proof.
  intros Hok. revert i s. induction n as [|n IH]; intros i s Hlen.
  - cbn. rewrite drop_ge by lia. done.
  - destruct (lookup_lt_is_Some_2 data i ltac:(lia)) as [b Hb]. cbn [sum_hex].
    rewrite (hex_data_HEX2 _ _ _ b) by done. cbn [mbind option_bind].
    rewrite IH by lia. rewrite (drop_S _ _ _ Hb). cbn [foldl]. by rewrite Nat.add_1_r.
Qed.

(** The header fields read back. *)
Lemma record_header_fields count addr type :
  is_byte count -> fits 16 addr -> is_byte type ->
  let hdr := record_header count addr type in
  length hdr = 8%nat /\ Forall (fun c => hex_p c = true) hdr /\
  HEX2 hdr 0 = Some count /\ HEX4 hdr 2 = Some addr /\ HEX2 hdr 6 = Some type.
Proof.
  intros Hc Ha Ht hdr.
  assert (is_byte ((addr .>> 8) .& 0xff)) as Hhi by (rewrite land_255; apply wrap_fits; lia).
  assert (is_byte (addr .& 0xff)) as Hlo by (rewrite land_255; apply wrap_fits; lia).
  split; [done|]. split.
  { subst hdr. unfold record_header. rewrite !Forall_app. split_and!; by apply TOHEX_hex. }
  assert (HEX2 hdr 2 = Some ((addr .>> 8) .& 0xff)) as H2 by (by apply HEX2_TOHEX).
  assert (HEX2 hdr 4 = Some (addr .& 0xff)) as H4 by (by apply HEX2_TOHEX).
  split_and!; [by apply HEX2_TOHEX| |by apply HEX2_TOHEX].
  unfold HEX4. rewrite H2. cbn [mbind option_bind]. change (2 + 2)%nat with 4%nat. rewrite H4.
  cbn [mbind option_bind]. f_equal. rewrite !land_255, Z.shiftr_div_pow2, Z.shiftl_mul_pow2 by lia.
  change (2 ^ 8) with 256. unfold fits in Ha. change (2 ^ 16) with 65536 in Ha.
  assert (u8 (addr / 256) = addr / 256) as ->.
  { apply wrap_small. unfold fits. change (2 ^ 8) with 256. split; [apply Z.div_pos; lia|].
    apply Z.div_lt_upper_bound; lia. }
  unfold wrap. change (2 ^ 8) with 256. pose proof (Z.div_mod addr 256 ltac:(lia)).
  assert (0 <= addr / 256 < 256) by (split; [apply Z.div_pos; lia|apply Z.div_lt_upper_bound; lia]).
  change (2 ^ 32) with 4294967296. rewrite (Z.mod_small (_ * _)) by lia.
  pose proof (Z.mod_pos_bound addr 256 ltac:(lia)). rewrite Z.mod_small by lia. lia.
Qed.


Lemma record_chars_length addr type data :
  length (record_chars addr type data) = (13 + 2 * length data)%nat.
Proof.
  unfold record_chars, record_header, record_tail. cbn [length].
  rewrite !length_app, hex_data_length. simpl. lia.
Qed.

Lemma record_chars_ok addr type data :
  fits 16 addr -> is_byte type -> bytes_ok data -> (length data < 256)%nat ->
  bytes_ok (record_chars addr type data).
Proof.
  intros Ha Ht Hd Hlen.
  assert (forall v, is_byte v -> bytes_ok (TOHEX v)) as HT.
  { intros v Hv. rewrite TOHEX_nibbles by done. destruct (byte_nibbles v Hv) as [H1 H2].
    unfold digs. repeat constructor; unfold fits; split_ifs; lia. }
  assert (forall x, is_byte (x .& 0xff)) as Hff by (intros x; rewrite land_255; apply wrap_fits; lia).
  unfold record_chars, record_header, record_tail, hex_data.
  constructor; [unfold fits; lia|]. rewrite !Forall_app. split_and!; try (by apply HT).
  - apply HT. unfold fits. lia.
  - apply Forall_concat, Forall_fmap. eapply Forall_impl; [exact Hd|]. intros b Hb. by apply HT.
  - repeat constructor; unfold fits; lia.
Qed.

(** Scanning a record that was written. *)
Lemma scan_written f st lineno pre suf addr type data :
  if_bytes f = pre ++ record_chars addr type data ++ suf ->
  fits 16 addr -> is_byte type -> bytes_ok data -> (length data < 256)%nat ->
  exists buf, record_at f (length pre) (Z.of_nat (length data)) addr type buf data /\
    buf = record_tail (Z.of_nat (length data)) addr type data /\
    ihex_scan_record f st lineno (length pre) =
    '(st, ended) ← ihex_record st lineno (length pre) (Z.of_nat (length data)) addr type buf;
    Ret (st, ended, (length pre + 11 + 2 * length data)%nat).
Proof.
  intros Hf Ha Ht Hd Hlen. set (count := Z.of_nat (length data)).
  set (hdr := record_header count addr type). set (buf := record_tail count addr type data).
  assert (is_byte count) as Hcount by (unfold fits; lia).
  destruct (record_header_fields count addr type Hcount Ha Ht) as (Hhl & Hhh & Hh0 & Hh2 & Hh6).
  fold hdr in Hhl, Hhh, Hh0, Hh2, Hh6.
  assert (length buf = (2 * length data + 2)%nat) as Hbl.
  { subst buf. unfold record_tail. rewrite length_app, hex_data_length. done. }
  assert (if_bytes f = (pre ++ [58]) ++ hdr ++ buf ++ [13; 10] ++ suf) as Hf'.
  { rewrite Hf. unfold record_chars. fold count hdr buf. rewrite <- !app_assoc. cbn [app].
    by rewrite <- !app_assoc. }
  assert (length (pre ++ [58%Z]) = length pre + 1)%nat as Hp1 by (rewrite length_app; simpl; lia).
  assert (bfd_read f (length pre + 1) 8 = Ret hdr) as Hrh.
  { apply bfd_read_Ret. rewrite Hf'. split; [rewrite !length_app; simpl; lia|].
    rewrite drop_app_length' by lia. by rewrite take_app_length' by done. }
  assert (Z.to_nat (count * 2 + 2) = (2 * length data + 2)%nat) as Hcn by lia.
  assert (bfd_read f (length pre + 9) (Z.to_nat (count * 2 + 2)) = Ret buf) as Hrb.
  { apply bfd_read_Ret. rewrite Hcn, Hf', app_assoc.
    assert (length ((pre ++ [58%Z]) ++ hdr) = length pre + 9)%nat as Hp9 by (rewrite length_app; lia).
    split; [rewrite (length_app _ (buf ++ _)), (length_app buf); lia|].
    rewrite drop_app_length' by done. by rewrite take_app_length' by done. }
  assert (is_byte (u32 (- record_checksum count addr type data) .& 0xff)) as Hcs
    by (rewrite land_255; apply wrap_fits; lia).
  assert (Forall (fun c => hex_p c = true) buf) as Hbh.
  { subst buf. unfold record_tail. apply Forall_app. split; [by apply hex_data_hexes|by apply TOHEX_hex]. }
  assert (record_data buf count = Some data) as Hdata by (by apply hex_data_record).
  exists buf. split; [exists hdr; split_and!; done|]. split; [done|].
  unfold ihex_scan_record. rewrite Hrh. cbn [mbind outcome_bind].
  rewrite (proj2 (check_hex_spec lineno hdr) Hhh). cbn [mbind outcome_bind].
  rewrite Hh0, Hh2, Hh6. cbn [of_opt mbind outcome_bind].
  rewrite (wrap_small 32 (count * 2 + 2)) by (unfold fits in *; lia).
  rewrite Hrb. cbn [mbind outcome_bind].
  rewrite (proj2 (check_hex_spec lineno buf) Hbh). cbn [mbind outcome_bind].
  assert (Z.to_nat count = length data) as -> by (apply Nat2Z.id).
  assert (sum_hex (length data) 0 buf (u32 (count + addr + (addr .>> 8) + type))
    = Some (record_checksum count addr type data)) as ->.
  { subst buf. unfold record_tail. by rewrite (hex_data_sum data _ (length data) 0) by (done || lia). }
  cbn [of_opt mbind outcome_bind].
  assert (HEX2 buf (2 * length data) =
    Some (u32 (- record_checksum count addr type data) .& 0xff)) as ->.
  { apply HEX2_TOHEX; [done|]. subst buf. unfold record_tail.
    rewrite drop_app_length' by (by rewrite hex_data_length). by rewrite take_ge by done. }
  cbn [of_opt mbind outcome_bind]. rewrite Z.eqb_refl. cbn [ensure mbind outcome_bind].
  destruct (ihex_record st lineno (length pre) count addr type buf) as [[st' e]|e|];
    [|done|done].
  cbn [mbind outcome_bind]. do 2 f_equal. lia.
Qed.

(** ** Simulation of the writer by the scanner *)

(** After the characters [out], the scanner is in state [st] with sections of
    the given contents, whatever follows. *)
Definition reaches (out : list Z) (st : ihex_state) (contents : list (list Z)) : Prop :=
  bytes_ok out /\
  forall suf, let f := mkFile (out ++ suf) false in
    scanned f st contents (length out) /\
    exists k lineno, (k <= length out)%nat /\
      forall fuel, ihex_scan_loop (k + fuel) f ihex_initial 1 0 =
                   ihex_scan_loop fuel f st lineno (length out).

Lemma reaches_initial : reaches [] ihex_initial [].
Proof.
  split; [constructor|]. intros suf f. split; [by split; [constructor|]|].
  exists 0%nat, 1. by split.
Qed.

Lemma scan_loop_step fuel f st lineno pos c :
  if_bytes f !! pos = Some c -> is_byte c ->
  ihex_scan_loop (S fuel) f st lineno pos =
  if c =? 13 then ihex_scan_loop fuel f st lineno (pos + 1)
  else if c =? 10 then ihex_scan_loop fuel f st (u32 (lineno + 1)) (pos + 1)
  else if negb (c =? 58) then Fail (BadByte lineno c)
  else
    '(st, ended, pos) ← ihex_scan_record f st lineno pos;
    if (ended : bool) then Ret st else ihex_scan_loop fuel f st lineno pos.
Proof. intros Hc Hb. cbn [ihex_scan_loop]. by rewrite (get_byte_byte _ _ c). Qed.

(** One more record, of a type that does not end the file. *)
Lemma reaches_record out st contents addr type data st' :
  reaches out st contents -> fits 16 addr -> is_byte type -> bytes_ok data -> (length data < 256)%nat ->
  (forall lineno, ihex_record st lineno (length out) (Z.of_nat (length data)) addr type
     (record_tail (Z.of_nat (length data)) addr type data) = Ret (st', false)) ->
  reaches (out ++ record_chars addr type data) st' (record_contents st addr type data contents).
Proof.
  intros [Hok Hreach] Ha Ht Hd Hlen Hrec.
  split; [apply Forall_app; split; [done|by apply record_chars_ok]|].
  intros suf f. set (rc := record_chars addr type data) in *.
  assert (if_bytes f = out ++ rc ++ suf) as Hf by (subst f; cbn; by rewrite <- app_assoc).
  destruct (Hreach (rc ++ suf)) as (Hsc & k & lineno & Hk & Hrun).
  assert (mkFile (out ++ rc ++ suf) false = f) as Hff by (subst f; by rewrite <- app_assoc).
  rewrite Hff in Hsc, Hrun.
  destruct (scan_written f st lineno out suf addr type data Hf Ha Ht Hd Hlen) as (buf & Hat & -> & Hstep).
  rewrite Hrec in Hstep. cbn [mbind outcome_bind] in Hstep.
  pose proof (record_chars_length addr type data) as Hrl. fold rc in Hrl.
  assert (forall i c, rc !! i = Some c -> if_bytes f !! (length out + i)%nat = Some c) as Hlk.
  { intros i c Hi. rewrite Hf, lookup_app_r by lia. replace (length out + i - length out)%nat with i by lia.
    rewrite lookup_app_l; [done|]. by apply lookup_lt_Some in Hi. }
  set (n := (11 + 2 * length data)%nat) in *.
  assert (rc = 58 :: record_header (Z.of_nat (length data)) addr type ++
    record_tail (Z.of_nat (length data)) addr type data ++ [13; 10]) as Hrc by done.
  assert (length (58 :: record_header (Z.of_nat (length data)) addr type ++
    record_tail (Z.of_nat (length data)) addr type data) = n) as Hn.
  { cbn [length]. unfold record_tail, n. rewrite !length_app, hex_data_length. simpl. lia. }
  assert (if_bytes f !! length out = Some 58) as H58.
  { rewrite <- (Nat.add_0_r (length out)). by apply Hlk. }
  assert (rc !! n = Some 13 /\ rc !! S n = Some 10) as [H13 H10].
  { rewrite Hrc, app_assoc, app_comm_cons. rewrite !lookup_app_r by lia. rewrite Hn.
    by replace (n - n)%nat with 0%nat by lia; replace (S n - n)%nat with 1%nat by lia. }
  apply Hlk in H13, H10.
  replace (length out + S n)%nat with (length out + n + 1)%nat in H10 by lia.
  assert (length out + 11 + 2 * length data = length out + n)%nat as Hpos by (unfold n; lia).
  rewrite Hpos in Hstep.
  assert (length (out ++ rc) = length out + n + 1 + 1)%nat as Hend.
  { rewrite length_app, Hrl. unfold n. lia. }
  split.
  - rewrite Hend. eapply scanned_skip; [exact H10|by right|].
    eapply scanned_skip; [exact H13|by left|]. rewrite <- Hpos.
    eapply scanned_record; [exact Hsc|exact H58|exact Hat|apply (Hrec lineno)].
  - exists (k + 3)%nat, (u32 (lineno + 1)). split; [rewrite Hend; unfold n; lia|]. intros fuel.
    replace (k + 3 + fuel)%nat with (k + S (S (S fuel)))%nat by lia. rewrite Hrun.
    rewrite (scan_loop_step _ _ _ _ _ 58) by (done || (unfold fits; lia)). cbn [Z.eqb Pos.eqb negb].
    rewrite Hstep. cbn [mbind outcome_bind].
    rewrite (scan_loop_step _ _ _ _ _ 13) by (done || (unfold fits; lia)). cbn [Z.eqb Pos.eqb].
    rewrite (scan_loop_step _ _ _ _ _ 10) by (done || (unfold fits; lia)). cbn [Z.eqb Pos.eqb].
    by rewrite Hend.
Qed.


(** The contents of the sections at their addresses are [acc]. *)
Definition holds (st : ihex_state) (contents : list (list Z)) (acc : list (Z * Z)) : Prop :=
  Forall2 (fun sec bs => 0 <= sec_vma sec /\ sec_vma sec + sec_size sec <= 2 ^ 32 /\
    sec_size sec = Z.of_nat (length bs)) (is_sections st) contents /\
  spread (is_sections st) contents = acc.

Lemma holds_data st contents acc pos addr new :
  holds st contents acc -> new <> [] ->
  0 <= is_extbase st + is_segbase st + addr ->
  is_extbase st + is_segbase st + addr + Z.of_nat (length new) <= 2 ^ 32 ->
  0 <= is_extbase st -> 0 <= is_segbase st -> 0 <= addr ->
  holds (ihex_data_record st pos (Z.of_nat (length new)) addr) (record_contents st addr 0 new contents)
    (acc ++ place (is_extbase st + is_segbase st + addr) new).
Proof.
  intros [Hall Hspread] Hne Hlo Hhi He Hs Ha. unfold ihex_data_record, record_contents, extends. cbn [Z.eqb].
  assert (0 < Z.of_nat (length new)) as Hnl by (destruct new; simpl; [done|lia]).
  rewrite (wrap_small 64 (is_extbase st + is_segbase st)) by (unfold fits; lia).
  set (target := is_extbase st + is_segbase st + addr) in *.
  rewrite (wrap_small 64 target) by (unfold fits; lia).
  replace (0 <? Z.of_nat (length new)) with true by lia. rewrite decide_False by done.
  set (secnew := mkSection _ _ target target _ pos).
  assert (holds (mkIhex (is_start st) (is_sections st ++ [secnew]) (is_segbase st) (is_extbase st) true)
    (contents ++ [new]) (acc ++ place target new)) as Hfresh.
  { split; cbn.
    - apply Forall2_app; [done|]. constructor; [|constructor]. cbn. lia.
    - rewrite spread_snoc by (by eapply Forall2_length). by rewrite Hspread. }
  destruct (last (is_sections st)) as [sec|] eqn:Hlast; [|done].
  destruct (is_sec st && _) eqn:Hb; [|done]. apply andb_true_iff in Hb as [_ Htgt%Z.eqb_eq].
  apply last_Some in Hlast as [secs Hsecs]. rewrite Hsecs in *.
  apply Forall2_app_inv_l in Hall as (cs & cl & Hcs & Hcl & ->).
  apply Forall2_cons_inv_l in Hcl as (bs & k & (Hv & Hvs & Hsz) & Hnil & ->).
  apply Forall2_nil_inv_l in Hnil as ->.
  rewrite last_snoc, !length_app. cbn [length]. rewrite !Nat.add_1_r. cbn [pred].
  rewrite !insert_app_r_alt, !Nat.sub_diag by lia.
  rewrite (wrap_small 64) in Htgt by (unfold fits; lia).
  rewrite (wrap_small 64) by (unfold fits; lia). cbn. split; cbn.
  - apply Forall2_app; [done|]. constructor; [|constructor]. cbn. rewrite length_app. lia.
  - rewrite <- Hspread, !spread_snoc by (by eapply Forall2_length). cbn [sec_vma].
    rewrite place_app, <- app_assoc. do 3 f_equal. lia.
Qed.

(** The scanner follows the writer: same bases, same bytes. *)
Record follows (w : ihex_writer) (st : ihex_state) (contents : list (list Z)) (acc : list (Z * Z)) : Prop := {
  fo_reaches : reaches (iw_out w) st contents;
  fo_holds : holds st contents acc;
  fo_seg : is_segbase st = iw_segbase w;
  fo_ext : is_extbase st = iw_extbase w;
  fo_start : is_start st = 0;
  fo_seg_range : 0 <= iw_segbase w;
  fo_ext_range : 0 <= iw_extbase w;
  fo_sum : iw_extbase w + iw_segbase w < 2 ^ 32
}.

Lemma ihex_emit_spec w count addr type p data :
  data = take (Z.to_nat count) p -> 0 <= count <= CHUNK -> (Z.to_nat count <= length p)%nat ->
  ihex_emit w count addr type p =
  Ret (mkWriter (iw_segbase w) (iw_extbase w) (iw_out w ++ record_chars addr type data)).
Proof. intros -> Hc Hp. unfold ihex_emit. by rewrite write_record_chars. Qed.

(** Two data bytes read back as one number. *)
Lemma hex_data_HEX4 data suf i a b :
  bytes_ok data -> data !! i = Some a -> data !! (i + 1)%nat = Some b ->
  HEX4 (hex_data data ++ suf) (2 * i) = Some (256 * a + b).
Proof.
  intros Hok Ha Hb. unfold HEX4. rewrite (hex_data_HEX2 data suf i a Hok Ha). cbn [mbind option_bind].
  replace (2 * i + 2)%nat with (2 * (i + 1))%nat by lia.
  rewrite (hex_data_HEX2 data suf (i + 1) b Hok Hb). cbn [mbind option_bind].
  pose proof (Forall_lookup_1 _ _ _ _ Hok Ha). pose proof (Forall_lookup_1 _ _ _ _ Hok Hb).
  unfold fits in *. rewrite Z.shiftl_mul_pow2 by lia.
  rewrite (wrap_small 32 (_ * _)) by (unfold fits; lia).
  rewrite wrap_small by (unfold fits; lia). f_equal. lia.
Qed.

Lemma base_record_HEX4 a b suf :
  is_byte a -> is_byte b -> HEX4 (hex_data [a; b] ++ suf) 0 = Some (256 * a + b).
Proof.
  intros Ha Hb. apply (hex_data_HEX4 [a; b] suf 0); [|done|done].
  repeat constructor; apply Ha || apply Hb.
Qed.

(** A record of type 2 or 4 sets a base and closes the section. *)
Lemma follows_base w st contents acc type a b seg ext :
  follows w st contents acc -> is_byte a -> is_byte b ->
  (type = 2 /\ seg = 16 * (256 * a + b) /\ ext = iw_extbase w \/
   type = 4 /\ seg = iw_segbase w /\ ext = 65536 * (256 * a + b)) ->
  ext + seg < 2 ^ 32 ->
  exists w' st', ihex_emit (mkWriter seg ext (iw_out w)) 2 0 type [a; b] = Ret w' /\
    iw_segbase w' = seg /\ iw_extbase w' = ext /\ follows w' st' contents acc.
Proof.
  intros [Hreach Hholds Hseg Hext Hstart Hs Hx Hsum] Ha Hb Htype Hlt.
  rewrite (ihex_emit_spec _ 2 0 type [a; b] [a; b]) by (done || (unfold CHUNK; simpl; lia)).
  set (st' := mkIhex (is_start st) (is_sections st) seg ext false).
  eexists _, st'. split; [done|]. split; [done|]. split; [done|].
  assert (0 <= 256 * a + b < 65536) by (unfold fits in *; lia).
  assert (bytes_ok [a; b]) as Hok by (repeat constructor; apply Ha || apply Hb).
  assert (forall lineno, ihex_record st lineno (length (iw_out w)) (Z.of_nat (length [a; b])) 0 type
     (record_tail (Z.of_nat (length [a; b])) 0 type [a; b]) = Ret (st', false)) as Hrec.
  { intros lineno. change (Z.of_nat (length [a; b])) with 2.
    unfold ihex_record, record_tail. destruct Htype as [(-> & Es & Ee)|(-> & Es & Ee)];
      cbn [Z.eqb Pos.eqb ensure mbind outcome_bind];
      rewrite base_record_HEX4 by done; cbn [of_opt mbind outcome_bind]; subst st' seg ext;
      rewrite Z.shiftl_mul_pow2, wrap_small by (lia || (unfold fits; lia)); do 3 f_equal; try done; lia. }
  constructor; cbn; try done.
  - replace contents with (record_contents st 0 type [a; b] contents)
      by (unfold record_contents; by destruct Htype as [[-> _]|[-> _]]).
    apply reaches_record; [done|unfold fits; lia| |done|simpl; lia|done].
    destruct Htype as [[-> _]|[-> _]]; unfold fits; lia.
  - destruct Htype as [(-> & -> & ->)|(-> & -> & ->)]; lia.
  - destruct Htype as [(-> & -> & ->)|(-> & -> & ->)]; lia.
Qed.


(** The page of an address. *)
Lemma page_bounds x : 0 <= x -> 65536 * (x / 65536) <= x <= 65536 * (x / 65536) + 0xffff.
Proof. intros. pose proof (Z.div_mod x 65536 ltac:(lia)). pose proof (Z.mod_pos_bound x 65536 ltac:(lia)). lia. Qed.

(** The bytes of a linear base. *)
Lemma ext_bytes h :
  0 <= h < 65536 ->
  u8 (65536 * h / 2 ^ 24) = h / 256 /\ u8 (65536 * h / 2 ^ 16) = h mod 256.
Proof.
  intros Hh. change (2 ^ 24) with (65536 * 256). change (2 ^ 16) with 65536.
  rewrite Z.div_mul_cancel_l by lia. rewrite (Z.mul_comm 65536 h), Z.div_mul by lia. split; [|done].
  apply wrap_small. split; [apply Z.div_pos; lia|apply Z.div_lt_upper_bound; lia].
Qed.

(** The bytes of a segment base. *)
Lemma seg_bytes h :
  0 <= h < 16 -> u8 (65536 * h / 2 ^ 12) = 16 * h /\ u8 (65536 * h / 2 ^ 4) = 0.
Proof.
  intros Hh. change (2 ^ 12) with 4096. change (2 ^ 4) with 16.
  replace (65536 * h / 4096) with (16 * h).
  - replace (65536 * h / 16) with (4096 * h).
    + split; [apply wrap_small; unfold fits; lia|]. unfold wrap. change (2 ^ 8) with 256.
      replace (4096 * h) with (16 * h * 256) by lia. by apply Z.mod_mul.
    + apply (Z.div_unique_exact); lia.
  - apply (Z.div_unique_exact); lia.
Qed.

Lemma emit_out w count addr type p seg ext :
  ihex_emit (mkWriter seg ext (iw_out w)) count addr type p =
  w' ← ihex_emit w count addr type p; Ret (mkWriter seg ext (iw_out w')).
Proof. unfold ihex_emit. by destruct (ihex_write_record count addr type p). Qed.

Lemma rebase_spec w st contents acc where_ :
  follows w st contents acc -> fits 32 where_ ->
  exists w' st', ihex_rebase w where_ = Ret w' /\ follows w' st' contents acc /\
    iw_extbase w' + iw_segbase w' <= where_ <= iw_extbase w' + iw_segbase w' + 0xffff.
Proof.
  intros Hf Hw. pose proof Hf as [_ _ _ _ _ Hs He Hsum]. unfold fits in Hw.
  assert (0 <= where_ / 65536 < 65536) as Hh.
  { split; [apply Z.div_pos; lia|apply Z.div_lt_upper_bound; lia]. }
  pose proof (page_bounds where_ ltac:(lia)) as Hpage. set (h := where_ / 65536) in *.
  unfold ihex_rebase. destruct (_ || _ || _) eqn:Hcond.
  2: { exists w, st. split; [done|]. split; [done|].
       apply orb_false_iff in Hcond as [[H1 H2]%orb_false_iff H3].
       apply Z.ltb_ge in H1. rewrite (wrap_small 64 (where_ - iw_extbase w)) in H2, H3 by (unfold fits; lia).
       apply Z.ltb_ge in H2. rewrite wrap_small in H3 by (unfold fits; lia). lia. }
  destruct ((iw_extbase w =? 0) && (where_ <=? 0xfffff)) eqn:Hseg.
  - apply andb_true_iff in Hseg as [He0%Z.eqb_eq Hw0%Z.leb_le].
    rewrite land_f0000 by lia. fold h. unfold set_segbase.
    rewrite !byte_of by lia. assert (0 <= h < 16) by lia. destruct (seg_bytes h) as [-> ->]; [done|].
    destruct (follows_base w st contents acc 2 (16 * h) 0 (65536 * h) (iw_extbase w)) as
      (w' & st' & Hemit & E1 & E2 & Hf'); [done|unfold fits; lia|unfold fits; lia|left; lia|lia|].
    exists w', st'. split; [exact Hemit|]. split; [done|]. lia.
  - clear Hcond Hseg.
    assert (exists w1 st1, (if negb (iw_segbase w =? 0)
        then w' ← ihex_emit w 2 0 2 [0; 0]; Ret (set_segbase 0 w') else Ret w) = Ret w1 /\
      follows w1 st1 contents acc /\ iw_segbase w1 = 0) as (w1 & st1 & -> & Hf1 & E1).
    { destruct (Z.eqb_spec (iw_segbase w) 0) as [E|E]; cbn [negb]; [by exists w, st|].
      destruct (follows_base w st contents acc 2 0 0 0 (iw_extbase w)) as (w' & st' & Hemit & E1 & E2 & Hf');
        [done|unfold fits; lia|unfold fits; lia|left; lia|lia|].
      rewrite emit_out in Hemit. apply outcome_bind_Ret in Hemit as (w2 & Hw2 & [= <-]).
      rewrite Hw2. cbn [mbind outcome_bind]. eexists _, st'. split; [done|].
      split; [|done]. unfold set_segbase.
      assert (iw_extbase w2 = iw_extbase w) as ->; [|done].
      unfold ihex_emit in Hw2. apply outcome_bind_Ret in Hw2 as (r & _ & [= <-]). done. }
    cbn [mbind outcome_bind]. rewrite land_ffff0000 by (unfold fits; lia). fold h.
    rewrite (wrap_small 64 (65536 * h + 0xffff)) by (unfold fits; lia).
    replace (65536 * h + 0xffff <? where_) with false by lia.
    rewrite !byte_of by lia. destruct (ext_bytes h Hh) as [-> ->]. unfold set_extbase.
    pose proof (Z.mod_pos_bound h 256 ltac:(lia)). pose proof (Z.div_mod h 256 ltac:(lia)).
    assert (0 <= h / 256 < 256) by (split; [apply Z.div_pos; lia|apply Z.div_lt_upper_bound; lia]).
    destruct (follows_base w1 st1 contents acc 4 (h / 256) (h mod 256) 0 (65536 * h)) as
      (w' & st' & Hemit & E1' & E2 & Hf'); [done|unfold fits; lia|unfold fits; lia|right; lia|lia|].
    rewrite E1. exists w', st'. split; [exact Hemit|]. split; [done|]. lia.
Qed.

(** The bytes of one piece of data. *)
Lemma write_data_spec fuel w st contents acc where_ p :
  follows w st contents acc -> (length p < fuel)%nat -> bytes_ok p ->
  0 <= where_ -> where_ + Z.of_nat (length p) <= 2 ^ 32 ->
  exists w' st' contents', ihex_write_data fuel w where_ p = Ret w' /\
    follows w' st' contents' (acc ++ place where_ p).
Proof.
  revert w st contents acc where_ p. induction fuel as [|fuel IH];
    intros w st contents acc where_ p Hf Hfuel Hp Hlo Hhi; [lia|].
  cbn [ihex_write_data]. destruct (Z.eqb_spec (Z.of_nat (length p)) 0) as [E|E].
  { exists w, st, contents. split; [done|]. assert (p = []) as -> by (destruct p; simpl in *; [done|lia]).
    by rewrite app_nil_r. }
  destruct (rebase_spec w st contents acc where_ Hf) as (w1 & st1 & -> & Hf1 & Hrange); [unfold fits; lia|].
  cbn [mbind outcome_bind]. pose proof Hf1 as [Hreach Hholds Hsg Hex Hst Hs He Hsum].
  set (base := iw_extbase w1 + iw_segbase w1) in *.
  rewrite (wrap_small 32 (where_ - base)) by (unfold fits; lia). set (rec_addr := where_ - base).
  set (now0 := if CHUNK <? _ then CHUNK else _).
  assert (1 <= now0 <= CHUNK /\ now0 <= Z.of_nat (length p)) as Hnow0.
  { subst now0. unfold CHUNK. destruct (Z.ltb_spec 16 (Z.of_nat (length p))); lia. }
  set (now := if 0xffff <? rec_addr + now0 then 0x10000 - rec_addr else now0).
  assert (1 <= now <= CHUNK /\ now <= Z.of_nat (length p) /\ rec_addr + now <= 0x10000) as (Hnow & Hnowp & Hnow16).
  { subst now. destruct (Z.ltb_spec 0xffff (rec_addr + now0)); lia. }
  set (data := take (Z.to_nat now) p).
  assert (length data = Z.to_nat now) as Hdl by (subst data; rewrite length_take; lia).
  rewrite (ihex_emit_spec w1 now rec_addr 0 p data) by (done || lia). cbn [mbind outcome_bind].
  rewrite (wrap_small 64 (where_ + now)) by (unfold fits; lia).
  assert (bytes_ok data) as Hdok by (by apply Forall_take).
  assert (Z.of_nat (length data) = now) as Hdn by lia.
  set (st2 := ihex_data_record st1 (length (iw_out w1)) now rec_addr).
  set (contents2 := record_contents st1 rec_addr 0 data contents).
  assert (follows (mkWriter (iw_segbase w1) (iw_extbase w1) (iw_out w1 ++ record_chars rec_addr 0 data))
    st2 contents2 (acc ++ place where_ data)) as Hf2.
  { assert (is_start st2 = is_start st1 /\ is_segbase st2 = is_segbase st1 /\ is_extbase st2 = is_extbase st1)
      as (E1 & E2 & E3).
    { subst st2. unfold ihex_data_record. destruct (last _); split_ifs; done. }
    constructor; cbn [iw_out iw_segbase iw_extbase]; rewrite ?E1, ?E2, ?E3; try done.
    - apply reaches_record; [done|unfold fits; lia|unfold fits; lia|done|unfold CHUNK in *; lia|].
      intros lineno. by rewrite Hdn.
    - replace where_ with (is_extbase st1 + is_segbase st1 + rec_addr) at 1 by (subst rec_addr base; lia).
      subst st2. rewrite <- Hdn. apply holds_data; try done; try lia.
      intros E0. rewrite E0 in Hdl. simpl in Hdl. lia. }
  destruct (IH _ _ _ _ (where_ + now) (drop (Z.to_nat now) p) Hf2) as (w' & st' & contents' & Hwr & Hf').
  - rewrite length_drop. lia.
  - by apply Forall_drop.
  - lia.
  - rewrite length_drop. lia.
  - exists w', st', contents'. split; [done|].
    rewrite <- app_assoc, <- Hdn, <- place_app in Hf'. subst data. by rewrite Hdn, take_drop in Hf'.
Qed.


(** An address the format can hold: 32 bits, or sign-extended from 32. *)
Definition address_ok (where_ : Z) : Prop :=
  fits 64 where_ /\ (where_ <= 0xffffffff \/ u64 (where_ + 0x80000000) <= 0xffffffff).

(** The data at their 32-bit addresses. *)
Definition data_image (l : list ihex_data) : list (Z * Z) :=
  concat ((fun d => place (u32 (id_where d)) (id_data d)) <$> l).

Definition data_ok (d : ihex_data) : Prop :=
  address_ok (id_where d) /\ bytes_ok (id_data d) /\
  u32 (id_where d) + Z.of_nat (length (id_data d)) <= 2 ^ 32.

Lemma write_list_spec l w st contents acc :
  follows w st contents acc -> Forall data_ok l ->
  exists w' st' contents', ihex_write_list w l = Ret w' /\
    follows w' st' contents' (acc ++ data_image l).
Proof.
  intros Hf Hl. revert w st contents acc Hf.
  induction Hl as [|d l ((Hw & Hrange) & Hd & Hend) _ IH]; intros w st contents acc Hf.
  - exists w, st, contents. split; [done|]. by rewrite app_nil_r.
  - cbn [ihex_write_list].
    replace ((0xffffffff <? id_where d) && (0xffffffff <? u64 (id_where d + 0x80000000))) with false by lia.
    assert (id_where d .& 0xffffffff = u32 (id_where d)) as -> by (apply (Z.land_ones _ 32); lia).
    pose proof (wrap_fits 32 (id_where d) ltac:(lia)) as Hwf.
    destruct (write_data_spec (length (id_data d) + 1) w st contents acc (u32 (id_where d)) (id_data d) Hf)
      as (w1 & st1 & contents1 & -> & Hf1); [lia|done|by destruct Hwf|done|].
    cbn [mbind outcome_bind]. destruct (IH _ _ _ _ Hf1) as (w' & st' & contents' & Hwr & Hf').
    exists w', st', contents'. split; [exact Hwr|]. by rewrite <- app_assoc in Hf'.
Qed.

(** A record that only changes the start address. *)
Lemma start_record w st contents acc type data start :
  follows w st contents acc -> length data = 4%nat -> bytes_ok data -> type = 3 \/ type = 5 ->
  (forall lineno, ihex_record st lineno (length (iw_out w)) 4 0 type (record_tail 4 0 type data)
     = Ret (mkIhex start (is_sections st) (is_segbase st) (is_extbase st) false, false)) ->
  exists w' st', ihex_emit w 4 0 type data = Ret w' /\ reaches (iw_out w') st' contents /\
    holds st' contents acc /\ is_start st' = start.
Proof.
  intros Hf Hlen Hok Htype Hrec. rewrite (ihex_emit_spec w 4 0 type data data); [|by rewrite take_ge by lia|by unfold CHUNK|lia].
  eexists _, (mkIhex start (is_sections st) (is_segbase st) (is_extbase st) false).
  split; [done|]. split; [|split; [apply Hf|done]]. cbn [iw_out].
  replace contents with (record_contents st 0 type data contents)
    by (unfold record_contents; by destruct Htype as [-> | ->]).
  apply reaches_record; [apply Hf|unfold fits; lia| |done|lia|].
  - destruct Htype as [-> | ->]; unfold fits; lia.
  - rewrite Hlen. exact Hrec.
Qed.

Lemma split_16 x : u8 (x / 2 ^ 8) * 256 + u8 x = x mod 65536.
Proof.
  unfold wrap. change (2 ^ 8) with 256. change 65536 with (256 * 256).
  rewrite Z.rem_mul_r by lia. lia.
Qed.

Lemma write_start_spec w st contents acc start :
  follows w st contents acc -> fits 32 start ->
  exists w' st', ihex_write_start w start = Ret w' /\ reaches (iw_out w') st' contents /\
    holds st' contents acc /\ is_start st' = start.
Proof.
  intros Hf Hstart. pose proof (fo_start _ _ _ _ Hf) as H0. unfold ihex_write_start.
  assert (forall x, is_byte (u8 x)) as Hb by (intros; apply wrap_fits; lia).
  destruct (Z.eqb_spec start 0) as [->|Hne].
  { exists w, st. split; [done|]. split; [apply Hf|]. split; [apply Hf|done]. }
  rewrite !byte_of by lia. rewrite land_255, wrap_idemp by lia.
  pose proof (split_16 start) as Hlow. pose proof (Z.div_mod start 65536 ltac:(lia)) as Hdm.
  unfold fits in Hstart.
  assert (0 <= start / 65536 < 65536) as Hh.
  { split; [apply Z.div_pos; lia|apply Z.div_lt_upper_bound; lia]. }
  pose proof (Z.mod_pos_bound start 65536 ltac:(lia)) as Hm.
  destruct (Z.leb_spec start 0xfffff) as [Hsmall|Hbig].
  - rewrite land_f0000 by lia. destruct (seg_bytes (start / 65536)) as [-> _]; [lia|].
    set (a := 16 * (start / 65536)) in *. set (c := u8 (start / 2 ^ 8)) in *. set (d := u8 start) in *.
    assert (is_byte a) as Hba by (unfold fits; lia).
    assert (bytes_ok [a; 0; c; d]) as Hok.
    { repeat constructor; try apply Hba; try apply Hb; unfold fits; lia. }
    apply (start_record w st contents acc 3); [done|done|done|by left|]. intros lineno.
    unfold ihex_record, record_tail. cbn [Z.eqb Pos.eqb ensure mbind outcome_bind].
    pose proof (hex_data_HEX4 [a; 0; c; d] (TOHEX (u32 (- record_checksum 4 0 3 [a; 0; c; d]) .& 0xff)) 0 a 0 Hok eq_refl eq_refl) as E1.
    pose proof (hex_data_HEX4 [a; 0; c; d] (TOHEX (u32 (- record_checksum 4 0 3 [a; 0; c; d]) .& 0xff)) 2 c d Hok eq_refl eq_refl) as E2.
    change (2 * 0)%nat with 0%nat in E1. change (2 * 2)%nat with 4%nat in E2. rewrite E1, E2.
    cbn [of_opt mbind outcome_bind]. rewrite H0, Z.shiftl_mul_pow2 by lia.
    pose proof (Hb (start / 2 ^ 8)) as Hbc. pose proof (Hb start) as Hbd. fold c in Hbc. fold d in Hbd.
    unfold fits in Hbc, Hbd, Hba.
    rewrite (wrap_small 32 ((256 * a + 0) * 2 ^ 4)) by (unfold fits; lia).
    rewrite (wrap_small 32) by (unfold fits; lia). rewrite wrap_small by (unfold fits; lia).
    do 3 f_equal. lia.
  - set (a := u8 (start / 2 ^ 24)) in *. set (b := u8 (start / 2 ^ 16)) in *.
    set (c := u8 (start / 2 ^ 8)) in *. set (d := u8 start) in *.
    assert (bytes_ok [a; b; c; d]) as Hok by (repeat constructor; apply Hb).
    apply (start_record w st contents acc 5); [done|done|done|by right|]. intros lineno.
    unfold ihex_record, record_tail. cbn [Z.eqb Pos.eqb orb ensure mbind outcome_bind].
    pose proof (hex_data_HEX4 [a; b; c; d] (TOHEX (u32 (- record_checksum 4 0 5 [a; b; c; d]) .& 0xff)) 0 a b Hok eq_refl eq_refl) as E1.
    pose proof (hex_data_HEX4 [a; b; c; d] (TOHEX (u32 (- record_checksum 4 0 5 [a; b; c; d]) .& 0xff)) 2 c d Hok eq_refl eq_refl) as E2.
    change (2 * 0)%nat with 0%nat in E1. change (2 * 2)%nat with 4%nat in E2. rewrite E1, E2.
    cbn [of_opt mbind outcome_bind]. rewrite Z.shiftl_mul_pow2 by lia.
    assert (a * 256 + b = start / 65536) as Hhigh.
    { pose proof (split_16 (start / 65536)) as Hs. rewrite Z.div_div in Hs by lia.
      rewrite (Z.mod_small (start / 65536)) in Hs by lia. exact Hs. }
    pose proof (Hb (start / 2 ^ 8)) as Hbc. pose proof (Hb start) as Hbd. fold c in Hbc. fold d in Hbd.
    unfold fits in Hbc, Hbd.
    rewrite (wrap_small 32 ((256 * a + b) * 2 ^ 16)) by (unfold fits; lia).
    rewrite (wrap_small 32) by (unfold fits; lia). do 3 f_equal. lia.
Qed.

(** The end record ends the scan. *)
Lemma reaches_end out st contents :
  reaches out st contents ->
  ihex_scan (mkFile (out ++ record_chars 0 1 []) false) =
  Ret (mkIhex (is_start st) (is_sections st) (is_segbase st) (is_extbase st) (is_sec st)).
Proof.
  intros [Hok Hreach]. set (rc := record_chars 0 1 []). destruct (Hreach rc) as (_ & k & lineno & Hk & Hrun).
  set (f := mkFile (out ++ rc) false) in *. unfold ihex_scan.
  assert (length (if_bytes f) = length out + 13)%nat as Hlen.
  { subst f rc. cbn [if_bytes]. by rewrite length_app, record_chars_length. }
  replace (length (if_bytes f) + 1)%nat with (k + S (length out + 13 - k))%nat by lia.
  rewrite Hrun.
  destruct (scan_written f st lineno out [] 0 1 []) as (buf & _ & Hbuf & Hstep);
    [subst f rc; cbn [if_bytes]; by rewrite app_nil_r|unfold fits; lia|unfold fits; lia|constructor|simpl; lia|].
  rewrite (scan_loop_step _ _ _ _ _ 58); [|subst f; cbn [if_bytes]; by rewrite lookup_app_r, Nat.sub_diag by lia|unfold fits; lia].
  cbn [Z.eqb Pos.eqb negb]. rewrite Hstep. unfold ihex_record. cbn [Z.eqb Pos.eqb mbind outcome_bind].
  destruct (Z.eqb_spec (is_start st) 0) as [->|]; done.
Qed.

Lemma holds_read f st contents acc pos :
  holds st contents acc -> scanned f st contents pos ->
  Forall2 (fun sec bs => ihex_read_section f sec = Ret bs) (is_sections st) contents.
Proof.
  intros [Hall _] [Hsc _]. apply Forall2_same_length_lookup. split; [by eapply Forall2_length|].
  intros i sec bs Hs Hb.
  destruct (Forall2_lookup_lr _ _ _ _ _ _ Hall Hs Hb) as (_ & _ & Hsz).
  destruct (Forall2_lookup_lr _ _ _ _ _ _ Hsc Hs Hb) as (q & Hq).
  by apply (section_ok_read f sec bs q).
Qed.

(** ** Properties *)

(** C3: data whose addresses fit the format are written without failure,
    and scanning the file gives sections with the same bytes at the same
    addresses, in the same order, and the same start address. *)
Theorem ihex_roundtrip l start :
  Forall data_ok l -> fits 32 start ->
  exists out st contents, ihex_write_object_contents l start = Ret out /\
    ihex_scan (mkFile out false) = Ret st /\ is_start st = start /\
    Forall2 (fun sec bs => ihex_read_section (mkFile out false) sec = Ret bs) (is_sections st) contents /\
    spread (is_sections st) contents = data_image l.
Proof.
  intros Hl Hstart. unfold ihex_write_object_contents.
  assert (follows (mkWriter 0 0 []) ihex_initial [] []) as Hinit.
  { constructor; cbn; try done. apply reaches_initial. }
  destruct (write_list_spec l _ _ _ _ Hinit Hl) as (w1 & st1 & contents & -> & Hf1).
  cbn [mbind outcome_bind app] in *.
  destruct (write_start_spec w1 st1 contents _ start Hf1 Hstart) as (w2 & st2 & -> & Hreach & Hholds & Hst).
  cbn [mbind outcome_bind].
  rewrite (ihex_emit_spec w2 0 0 1 [] []) by (done || (unfold CHUNK; lia)). cbn [mbind outcome_bind iw_out].
  eexists _, _, contents. split; [done|]. split; [by eapply reaches_end|]. split; [done|].
  cbn [is_sections]. split; [|apply Hholds].
  destruct Hreach as [_ Hreach]. destruct (Hreach (record_chars 0 1 [])) as (Hsc & _).
  by eapply holds_read.
Qed.

End write.

(** *** The sorted data list *)

Definition where_le (x y : ihex_data) : Prop := id_where x <= id_where y.

Lemma ihex_insert_perm n l : ihex_insert n l ≡ₚ n :: l.
Proof.
  induction l as [|d l IH]; cbn [ihex_insert]; [done|]. destruct (_ <? _); [|done].
  rewrite IH. constructor.
Qed.

Lemma ihex_insert_sorted n l : StronglySorted where_le l -> StronglySorted where_le (ihex_insert n l).
Proof.
  induction 1 as [|d l Hs IH Hd]; cbn [ihex_insert]; [repeat constructor|].
  destruct (Z.ltb_spec (id_where d) (id_where n)).
  - constructor; [done|]. rewrite Forall_forall in Hd |- *. intros x Hx.
    rewrite ihex_insert_perm in Hx. apply elem_of_cons in Hx as [->|Hx]; [unfold where_le; lia|auto].
  - constructor; [by constructor|]. constructor; [unfold where_le; lia|].
    eapply Forall_impl; [exact Hd|]. unfold where_le. lia.
Qed.

(** The data list stays sorted by address; setting contents of a
    loaded section adds exactly that piece at the section's address, and
    setting nothing, or the contents of a section that is not loaded, changes
    nothing. *)
Theorem ihex_set_contents_sorted l section location offset :
  StronglySorted where_le l ->
  let l' := ihex_set_section_contents l section location offset in
  StronglySorted where_le l' /\
  (location = [] \/ sec_flags section .& SEC_ALLOC = 0 \/ sec_flags section .& SEC_LOAD = 0 -> l' = l) /\
  (location <> [] -> sec_flags section .& SEC_ALLOC <> 0 -> sec_flags section .& SEC_LOAD <> 0 ->
     l' ≡ₚ mkData (u64 (sec_lma section + offset)) location :: l).
Proof.
  intros Hs. unfold ihex_set_section_contents. set (n := mkData _ _).
  assert (StronglySorted where_le (match last l with
    | Some tail => if id_where tail <=? id_where n then l ++ [n] else ihex_insert n l
    | None => ihex_insert n l end)) as Hsorted.
  { destruct (last l) as [tail|] eqn:Hlast; [|by apply ihex_insert_sorted].
    destruct (Z.leb_spec (id_where tail) (id_where n)); [|by apply ihex_insert_sorted].
    apply last_Some in Hlast as [l1 ->]. apply StronglySorted_app_2; [|done|repeat constructor].
    intros x y Hx ->%list_elem_of_singleton. apply elem_of_app in Hx as [Hx| ->%list_elem_of_singleton];
      [|unfold where_le; lia].
    apply StronglySorted_app in Hs as (Hcross & _ & _).
    specialize (Hcross x tail Hx ltac:(by left)). unfold where_le in *. lia. }
  split.
  - by destruct (_ || _).
  - split.
    + intros Hcase. assert ((Z.of_nat (length location) =? 0) || (sec_flags section .& SEC_ALLOC =? 0)
        || (sec_flags section .& SEC_LOAD =? 0) = true) as ->; [|done].
      rewrite !orb_true_iff, !Z.eqb_eq. destruct Hcase as [->|[?|?]]; auto.
    + intros Hne Ha Hl.
      replace ((Z.of_nat (length location) =? 0) || (sec_flags section .& SEC_ALLOC =? 0)
        || (sec_flags section .& SEC_LOAD =? 0)) with false.
      * destruct (last l) as [tail|]; [|apply ihex_insert_perm].
        destruct (id_where tail <=? id_where n); [solve_Permutation|apply ihex_insert_perm].
      * symmetry. rewrite !orb_false_iff, !Z.eqb_neq. destruct location; simpl in *; [done|lia].
Qed.

(** ** Witnesses *)

Lemma ihex_roundtrip_witness :
  exists out st contents,
    ihex_write_object_contents [mkData 0xfffe [1; 2; 3]] 0x12345 = Ret out /\
    ihex_scan (mkFile out false) = Ret st /\ is_start st = 0x12345 /\
    spread (is_sections st) contents = [(0xfffe, 1); (0xffff, 2); (0x10000, 3)].
Proof.
  destruct (ihex_roundtrip [mkData 0xfffe [1; 2; 3]] 0x12345) as (out & st & contents & H1 & H2 & H3 & _ & H4).
  - constructor; [|constructor]. split_and!.
    + split; [vm_compute; split; congruence|left; vm_compute; congruence].
    + repeat constructor; vm_compute; congruence.
    + vm_compute. congruence.
  - vm_compute. split; congruence.
  - exists out, st, contents. split; [exact H1|]. split; [exact H2|]. split; [exact H3|exact H4].
Defined.

Lemma ihex_set_contents_sorted_witness :
  StronglySorted where_le
    (ihex_set_section_contents [mkData 8 [1]; mkData 16 [2]] (mkSection 1 3 0 10 4 0) [7] 2).
Proof.
  apply ihex_set_contents_sorted. repeat constructor; vm_compute; congruence.
Defined.
