(* ===== verification/Srec.v ===== *)
(** S-records: srec.c's scanner, section reader and writer, with the symbols of
    symbolsrec files.

    A file is its bytes, with a flag that says whether reading past its end is
    an I/O error rather than the end of the file; what is left to read is a
    suffix of them.  Memory allocation is taken to succeed.  Sections are those
    of [Ihex]: a section's name ".sec<n>" is kept as its number. *)

From S2P Require Import Prelude Linker Decimal Hex Ihex.

(** ** Data *)

Inductive srec_error :=
| BadCharacter (lineno c : Z)
| SmallCount (lineno bytes : Z)
| BadSum (lineno : Z)
| Truncated
| IOError
| NotSrec
| BadSection
| InvalidRange
| CannotWrite.

Abbreviation srec := (outcome srec_error).

Record srec_file := mkSrecFile {
  sf_bytes : list Z;
  sf_io_error : bool
}.

(** [srec_symbol] *)
Record srec_symbol := mkSrecSymbol { sy_name : list Z; sy_val : Z }.

(** The scanner's variables, with the sections, symbols and start address of the
    BFD: the section being built is the last one of [ss_sections] when [ss_sec]
    says there is one. *)
Record srec_state := mkSrec {
  ss_start : Z;
  ss_sections : list asection;
  ss_symbols : list srec_symbol;
  ss_sec : bool
}.

Definition set_start (v : Z) (st : srec_state) : srec_state := mkSrec v (ss_sections st) (ss_symbols st) (ss_sec st).
Definition set_sections (v : list asection) (st : srec_state) : srec_state :=
  mkSrec (ss_start st) v (ss_symbols st) (ss_sec st).
Definition set_sec (v : bool) (st : srec_state) : srec_state :=
  mkSrec (ss_start st) (ss_sections st) (ss_symbols st) v.

Definition srec_new_symbol (st : srec_state) (name : list Z) (val : Z) : srec_state :=
  mkSrec (ss_start st) (ss_sections st) (ss_symbols st ++ [mkSrecSymbol name val]) (ss_sec st).

(** ** Reading *)

Section read.
Context `{HexDigits}.
Context (f : srec_file).

(** [srec_bad_byte] for EOF. *)
Definition end_of_file {A} : srec A := Fail (if sf_io_error f then IOError else Truncated).

(** [bfd_read] of [n] bytes that must be there. *)
Definition read_chars (n : Z) (rest : list Z) : srec (list Z * list Z) :=
  if n <=? Z.of_nat (length rest) then Ret (take (Z.to_nat n) rest, drop (Z.to_nat n) rest) else end_of_file.

(** [bfd_tell] *)
Definition tell (rest : list Z) : nat := length (sf_bytes f) - length rest.

(** [HEX (data)] and [data += 2]. *)
Definition HEX (data : list Z) : srec (Z * list Z) := x ← of_opt (HEX2 data 0); Ret (x, drop 2 data).

(** The rest of a line that is skipped, behind its newline. *)
Fixpoint skip_line (rest : list Z) : option (list Z) :=
  match rest with
  | [] => None
  | c :: rest => if c .& 0xff =? 10 then Some rest else skip_line rest
  end.

Definition is_blank (c : Z) : bool := (c =? 32) || (c =? 9).

(** The next character that is no blank, and what is behind it. *)
Fixpoint next_nonblank (rest : list Z) : option (Z * list Z) :=
  match rest with
  | [] => None
  | c :: rest => if is_blank (c .& 0xff) then next_nonblank rest else Some (c .& 0xff, rest)
  end.

(** The characters up to a space, and what is behind it. *)
Fixpoint read_word (rest : list Z) : option (list Z * list Z) :=
  match rest with
  | [] => None
  | c :: rest =>
      if isspace (c .& 0xff) then Some ([], rest)
      else '(word, rest) ← read_word rest; Some ((c .& 0xff) :: word, rest)
  end.

(** [while (ISHEX (c))]: [c] was read already. *)
Fixpoint read_hex (c symval : Z) (rest : list Z) : option (Z * Z * list Z) :=
  if hex_p c then
    match rest with
    | [] => None
    | d :: rest => read_hex (d .& 0xff) (u64 (u64 (symval .<< 4) + NIBBLE c)) rest
    end
  else Some (symval, c, rest).

(** A missing character is the end of the file. *)
Definition or_end {A} (o : option A) : srec A := match o with Some a => Ret a | None => end_of_file end.

(** One symbol: [None] when the line ends instead.  The character that ends it
    is part of the result. *)
Definition srec_one_symbol (rest : list Z) : srec (option srec_symbol * Z * list Z) :=
  '(c, rest) ← or_end (next_nonblank rest);
  if (c =? 10) || (c =? 13) then Ret (None, c, rest)
  else
    '(word, rest) ← or_end (read_word rest);
    let symname := until_nul (c :: word) in
    '(c, rest) ← or_end (next_nonblank rest);
    '(c, rest) ← (if c =? 36 then
                    or_end (match rest with d :: rest => Some (d .& 0xff, rest) | [] => None end)
                  else Ret (c, rest));
    '(symval, c, rest) ← or_end (read_hex c 0 rest);
    Ret (Some (mkSrecSymbol symname symval), c, rest).

(** The do loop over the symbols of a line; each turn reads a character. *)
Fixpoint srec_symbol_line (fuel : nat) (st : srec_state) (rest : list Z) : srec (srec_state * Z * list Z) :=
  match fuel with
  | O => Undef
  | S fuel =>
      '(symbol, c, rest) ← srec_one_symbol rest;
      match symbol with
      | None => Ret (st, c, rest)
      | Some s =>
          let st := srec_new_symbol st (sy_name s) (sy_val s) in
          if is_blank c then srec_symbol_line fuel st rest else Ret (st, c, rest)
      end
  end.

(** [n] bytes of an address; the result has what is behind it. *)
Fixpoint read_address (n : nat) (check_sum address : Z) (data : list Z) : srec (Z * Z * list Z) :=
  match n with
  | O => Ret (check_sum, address, data)
  | S n =>
      '(x, rest) ← HEX data;
      read_address n (u8 (check_sum + x)) (u64 (address .<< 8) .| x) rest
  end.

Fixpoint sum_data (bytes : nat) (check_sum : Z) (data : list Z) : srec (Z * list Z) :=
  match bytes with
  | O => Ret (check_sum, data)
  | S bytes => '(x, data) ← HEX data; sum_data bytes (u8 (check_sum + x)) data
  end.

Definition check_checksum (lineno check_sum : Z) (data : list Z) : srec unit :=
  '(x, _) ← HEX data; ensure (255 - (check_sum .& 0xff) =? x) (BadSum lineno).

(** The data of a record go to the section being built, or to a new one. *)
Definition srec_extend (st : srec_state) (pos : nat) (address bytes : Z) : srec_state :=
  let fresh :=
    let sec := mkSection (Z.of_nat (length (ss_sections st)) + 1)
                 (SEC_HAS_CONTENTS .| SEC_LOAD .| SEC_ALLOC) address address bytes pos in
    mkSrec (ss_start st) (ss_sections st ++ [sec]) (ss_symbols st) true in
  match last (ss_sections st) with
  | Some sec =>
      if ss_sec st && (u64 (sec_vma sec + sec_size sec) =? address) then
        let sec := mkSection (sec_number sec) (sec_flags sec) (sec_vma sec) (sec_lma sec)
                     (u64 (sec_size sec + bytes)) (sec_filepos sec) in
        set_sections (<[pred (length (ss_sections st)) := sec]> (ss_sections st)) st
      else fresh
  | None => fresh
  end.

(** The number of address bytes of a type of record, given by its character:
    data records, and the last record. *)
Definition data_address (type : Z) : option nat :=
  if type =? 51 then Some 4%nat else if type =? 50 then Some 3%nat else if type =? 49 then Some 2%nat else None.
Definition end_address (type : Z) : option nat :=
  if type =? 55 then Some 4%nat else if type =? 56 then Some 3%nat else if type =? 57 then Some 2%nat else None.

Definition min_bytes (type : Z) : Z :=
  if (type =? 50) || (type =? 56) then 4 else if (type =? 51) || (type =? 55) then 5 else 3.

(** A record behind its S, which is at [pos]; the flag says that it is the last
    one. *)
Definition srec_scan_record (st : srec_state) (lineno : Z) (pos : nat) (rest : list Z)
    : srec (srec_state * bool * list Z) :=
  '(hdr, rest) ← read_chars 3 rest;
  type ← of_opt (hdr !! 0%nat);
  d1 ← of_opt (hdr !! 1%nat);
  d2 ← of_opt (hdr !! 2%nat);
  _ ← ensure (hex_p d1) (BadCharacter lineno d1);
  _ ← ensure (hex_p d2) (BadCharacter lineno d2);
  '(bytes, _) ← HEX (drop 1 hdr);
  _ ← ensure (min_bytes type <=? bytes) (SmallCount lineno bytes);
  '(buf, rest) ← read_chars (bytes * 2) rest;
  let check_sum := u8 bytes in
  let bytes := bytes - 1 in
  if (type =? 48) || (type =? 53) then Ret (set_sec false st, false, rest)
  else
    match data_address type, end_address type with
    | Some n, _ =>
        '(check_sum, address, data) ← read_address n check_sum 0 buf;
        let bytes := bytes - Z.of_nat n in
        '(check_sum, data) ← sum_data (Z.to_nat bytes) check_sum data;
        _ ← check_checksum lineno check_sum data;
        Ret (srec_extend st pos address bytes, false, rest)
    | None, Some n =>
        '(check_sum, address, data) ← read_address n check_sum 0 buf;
        _ ← check_checksum lineno check_sum data;
        Ret (set_start address st, true, rest)
    | None, None => Ret (st, false, rest)
    end.

(** The loop of [srec_scan]. *)
Fixpoint srec_scan_loop (fuel : nat) (st : srec_state) (lineno : Z) (rest : list Z) : srec srec_state :=
  match fuel with
  | O => Undef
  | S fuel =>
      match rest with
      | [] => if sf_io_error f then Fail IOError else Ret st
      | c :: rest =>
          let c := c .& 0xff in
          if c =? 10 then srec_scan_loop fuel st (u32 (lineno + 1)) rest
          else if c =? 13 then srec_scan_loop fuel st lineno rest
          else if c =? 36 then
            rest ← or_end (skip_line rest);
            srec_scan_loop fuel (set_sec false st) (u32 (lineno + 1)) rest
          else if c =? 32 then
            '(st, c, rest) ← srec_symbol_line (S (length rest)) (set_sec false st) rest;
            if c =? 10 then srec_scan_loop fuel st (u32 (lineno + 1)) rest
            else if c =? 13 then srec_scan_loop fuel st lineno rest
            else Fail (BadCharacter lineno c)
          else if c =? 83 then
            '(st, ended, rest) ← srec_scan_record st lineno (tell rest - 1) rest;
            if (ended : bool) then Ret st else srec_scan_loop fuel st lineno rest
          else Fail (BadCharacter lineno c)
      end
  end.

Definition srec_initial : srec_state := mkSrec 0 [] [] false.

(** Each turn reads a character. *)
Definition srec_scan : srec srec_state :=
  srec_scan_loop (S (length (sf_bytes f))) srec_initial 1 (sf_bytes f).

Definition srec_object_p : srec srec_state :=
  '(b, _) ← read_chars 4 (sf_bytes f);
  _ ← ensure (bool_decide (head b = Some 83) && forallb hex_p (drop 1 b)) NotSrec;
  srec_scan.

Definition symbolsrec_object_p : srec srec_state :=
  '(b, _) ← read_chars 2 (sf_bytes f);
  _ ← ensure (bool_decide (b = [36; 36])) NotSrec;
  srec_scan.

(** Whether the BFD gets HAS_SYMS. *)
Definition srec_has_syms (st : srec_state) : bool := (0 <? length (ss_symbols st))%nat.

(** The [n] bytes spelled at the front of [data]. *)
Fixpoint read_data (n : nat) (data : list Z) : srec (list Z) :=
  match n with
  | O => Ret []
  | S n => '(x, data) ← HEX data; rest ← read_data n data; Ret (u8 x :: rest)
  end.

(** The loop of [srec_read_section]: [contents] is what was stored so far in a
    buffer of [section->size] bytes, and is part of the result.  A store past
    the buffer, or a read past the record, is undefined; so is a count of bytes
    below that of the address, which wraps to such a read. *)
Fixpoint srec_read_loop (fuel : nat) (section : asection) (contents rest : list Z) : list Z * srec unit :=
  let sofar := Z.of_nat (length contents) in
  let complete := ensure (sofar =? sec_size section) BadSection in
  match fuel with
  | O => (contents, Undef)
  | S fuel =>
      match rest with
      | [] => (contents, if sf_io_error f then Fail IOError else complete)
      | c :: rest =>
          let c := c .& 0xff in
          if (c =? 13) || (c =? 10) then srec_read_loop fuel section contents rest
          else if negb (c =? 83) then (contents, Fail BadSection)
          else
            match ('(hdr, rest) ← read_chars 3 rest;
                   type ← of_opt (hdr !! 0%nat);
                   '(bytes, _) ← HEX (drop 1 hdr);
                   '(buf, rest) ← read_chars (u32 (bytes * 2)) rest;
                   Ret (type, bytes, buf, rest)) with
            | Fail e => (contents, Fail e)
            | Undef => (contents, Undef)
            | Ret (type, bytes, buf, rest) =>
                match data_address type with
                | None => (contents, complete)
                | Some n =>
                    match read_address n 0 0 buf with
                    | Fail e => (contents, Fail e)
                    | Undef => (contents, Undef)
                    | Ret (_, address, data) =>
                        let bytes := bytes - Z.of_nat n - 1 in
                        if negb (address =? u64 (sec_vma section + sofar)) then (contents, complete)
                        else if bytes <? 0 then (contents, Undef)
                        else
                          match read_data (Z.to_nat bytes) data with
                          | Fail e => (contents, Fail e)
                          | Undef => (contents, Undef)
                          | Ret new =>
                              if sec_size section <? sofar + Z.of_nat (length new) then (contents, Undef)
                              else srec_read_loop fuel section (contents ++ new) rest
                          end
                    end
                end
            end
      end
  end.

Definition srec_read_section (section : asection) : list Z * srec unit :=
  srec_read_loop (S (length (sf_bytes f))) section [] (drop (sec_filepos section) (sf_bytes f)).

(** [used_by_bfd] is the buffer for the contents of the section, with the bytes
    that were stored in it; reading others is undefined.  The result has the
    buffer as it is left. *)
Definition srec_get_section_contents (section : asection) (used_by_bfd : option (list Z)) (offset count : Z)
    : option (list Z) * srec (list Z) :=
  let copy contents :=
    if offset + count <=? Z.of_nat (length contents)
    then Ret (take (Z.to_nat count) (drop (Z.to_nat offset) contents)) else Undef in
  if count =? 0 then (used_by_bfd, Ret [])
  else if (u64 (offset + count) <? count) || (sec_size section <? u64 (offset + count))
  then (used_by_bfd, Fail InvalidRange)
  else
    match used_by_bfd with
    | Some contents => (used_by_bfd, copy contents)
    | None =>
        let '(contents, r) := srec_read_section section in
        (Some contents, match r with Ret _ => copy contents | Fail e => Fail e | Undef => Undef end)
    end.
End read.

(** ** Writing *)

Definition MAXCHUNK : Z := 0xff.
Definition DEFAULT_CHUNK : Z := 16.
Definition BSF_DEBUGGING : Z := 1 .<< 2.

(** [srec_data_list_type] *)
Record srec_data := mkSrecData { sd_where : Z; sd_data : list Z }.

(** [tdata_type] of a file that is written: the list [head], whose last element
    is [tail]. *)
Record srec_tdata := mkTdata { td_type : Z; td_list : list srec_data }.

Definition srec_mkobject : srec_tdata := mkTdata 1 [].

Fixpoint srec_insert (entry : srec_data) (l : list srec_data) : list srec_data :=
  match l with
  | [] => [entry]
  | d :: l => if sd_where d <? sd_where entry then d :: srec_insert entry l else entry :: d :: l
  end.

(** A symbol of the output: what [bfd_is_local_label] says of it, and the lma of
    its output section with its offset there, when it has one. *)
Record srec_out_symbol := mkOutSymbol {
  os_name : list Z;
  os_local_label : bool;
  os_flags : Z;
  os_value : Z;
  os_output : option (Z * Z)
}.

(** The symbol's address. *)
Definition out_value (s : srec_out_symbol) (lma_offset : Z * Z) : Z :=
  u64 (u64 (os_value s + fst lma_offset) + snd lma_offset).

Section write.
(** Octets per byte, [_bfd_srec_forceS3], the name of the file, and whether the
    file, holding some characters, takes some more. *)
Context (opb : Z) (forceS3 : bool) (filename : list Z) (takes : list Z -> list Z -> bool).

(** The last address of the data decides on the type of the records. *)
Definition srec_record_type (type last_address : Z) : Z :=
  if forceS3 then 3
  else if last_address <=? 0xffff then type
  else if (last_address <=? 0xffffff) && (type <=? 2) then 2
  else 3.

Definition srec_set_section_contents (tdata : srec_tdata) (section : asection) (location : list Z) (offset : Z)
    : srec_tdata :=
  let bytes_to_do := Z.of_nat (length location) in
  if negb (bytes_to_do =? 0) && negb (sec_flags section .& SEC_ALLOC =? 0)
     && negb (sec_flags section .& SEC_LOAD =? 0)
  then
    let type := srec_record_type (td_type tdata) (u64 (sec_lma section + u64 (offset + bytes_to_do) / opb - 1)) in
    let entry := mkSrecData (u64 (sec_lma section + Z.quot offset opb)) location in
    mkTdata type
      (match last (td_list tdata) with
       | Some tail => if sd_where tail <=? sd_where entry then td_list tdata ++ [entry] else srec_insert entry (td_list tdata)
       | None => srec_insert entry (td_list tdata)
       end)
  else tdata.

(** [bfd_write]: what the file holds afterwards. *)
Definition write_chars (out bs : list Z) : srec (list Z) := if takes out bs then Ret (out ++ bs) else Fail CannotWrite.

(** The bytes of the address in a record of a type. *)
Definition address_bytes (type address : Z) : list Z :=
  (if (type =? 3) || (type =? 7) then [u8 (address .>> 24)] else []) ++
  (if (type =? 3) || (type =? 7) || (type =? 8) || (type =? 2) then [u8 (address .>> 16)] else []) ++
  (if (type =? 3) || (type =? 7) || (type =? 8) || (type =? 2) || (type =? 9) || (type =? 1) || (type =? 0)
   then [u8 (address .>> 8); u8 address] else []).

(** The local buffer has [2 * MAXCHUNK + 6] characters; writing more is
    undefined.  A byte adds itself to the sum when its digits are put there. *)
Definition srec_write_record (out : list Z) (type address : Z) (data : list Z) : srec (list Z) :=
  let body := address_bytes type address ++ data in
  let length := 1 + Z.of_nat (length body) in
  let check_sum := foldl (fun s b => u32 (s + u8 b)) 0 body in
  let check_sum := 255 - (u32 (check_sum + u8 length) .& 0xff) in
  let record := [83; 48 + type] ++ TOHEX length ++ concat (TOHEX <$> body) ++ TOHEX check_sum ++ [13; 10] in
  if 2 * MAXCHUNK + 6 <? Z.of_nat (List.length record) then Undef else write_chars out record.

Definition srec_write_header (out : list Z) : srec (list Z) :=
  let len := Z.of_nat (length filename) in
  let len := if 40 <? len then 40 else len in
  srec_write_record out 0 0 (take (Z.to_nat len) filename).

(** The value [_bfd_srec_len] gets in [srec_write_section]. *)
Definition clamp_len (srec_len type : Z) : Z :=
  if srec_len =? 0 then 1
  else if u32 (u32 (MAXCHUNK - type) - 2) <? srec_len then u32 (u32 (MAXCHUNK - type) - 2) else srec_len.

(** The loop over the data: [location] is what is left of it.  A turn that writes
    nothing, as the octets that are left are a multiple of 2^32, leaves the loop
    where it was. *)
Fixpoint write_section_loop (fuel : nat) (out : list Z) (srec_len type where_ size octets_written : Z) (location : list Z)
    : srec (list Z) :=
  match fuel with
  | O => Undef
  | S fuel =>
      if octets_written <? size then
        let octets_this_chunk := u32 (size - octets_written) in
        let octets_this_chunk := if srec_len <? octets_this_chunk then srec_len else octets_this_chunk in
        let address := u64 (where_ + octets_written / opb) in
        out ← srec_write_record out type address (take (Z.to_nat octets_this_chunk) location);
        write_section_loop fuel out srec_len type where_ size (u32 (octets_written + octets_this_chunk))
          (drop (Z.to_nat octets_this_chunk) location)
      else Ret out
  end.

(** What is written, and [_bfd_srec_len]. *)
Definition srec_write_section (out : list Z) (srec_len : Z) (tdata : srec_tdata) (list : srec_data)
    : srec (Datatypes.list Z * Z) :=
  let srec_len := clamp_len srec_len (td_type tdata) in
  out ← write_section_loop (S (length (sd_data list))) out srec_len (td_type tdata) (sd_where list)
          (Z.of_nat (length (sd_data list))) 0 (sd_data list);
  Ret (out, srec_len).

Fixpoint write_sections (out : list Z) (srec_len : Z) (tdata : srec_tdata) (l : list srec_data) : srec (list Z * Z) :=
  match l with
  | [] => Ret (out, srec_len)
  | d :: l =>
      '(out, srec_len) ← srec_write_section out srec_len tdata d;
      write_sections out srec_len tdata l
  end.

Definition srec_write_terminator (out : list Z) (tdata : srec_tdata) (start_address : Z) : srec (list Z) :=
  srec_write_record out (10 - td_type tdata) start_address [].

(** Local labels, debugging symbols and those without an output section are left
    out. *)
Definition out_symbol (s : srec_out_symbol) : option srec_symbol :=
  match os_output s with
  | Some lma_offset =>
      if negb (os_local_label s) && (os_flags s .& BSF_DEBUGGING =? 0)
      then Some (mkSrecSymbol (os_name s) (out_value s lma_offset)) else None
  | None => None
  end.

Fixpoint write_symbol_lines (out : list Z) (table : list srec_out_symbol) : srec (list Z) :=
  match table with
  | [] => Ret out
  | s :: table =>
      out ← (match out_symbol s with
             | Some y =>
                 out ← write_chars out [32; 32];
                 out ← write_chars out (os_name s);
                 write_chars out ([32; 36] ++ printf_lx (sy_val y) ++ [13; 10])
             | None => Ret out
             end);
      write_symbol_lines out table
  end.

Definition srec_write_symbols (out : list Z) (table : list srec_out_symbol) : srec (list Z) :=
  if bool_decide (table = []) then Ret out
  else
    out ← write_chars out [36; 36; 32];
    out ← write_chars out filename;
    out ← write_chars out [13; 10];
    out ← write_symbol_lines out table;
    write_chars out [36; 36; 32; 13; 10].

(** [symbols] says whether the target is symbolsrec; the result has
    [_bfd_srec_len] as it is left. *)
Definition internal_srec_write_object_contents (srec_len : Z) (tdata : srec_tdata) (start_address : Z)
    (table : list srec_out_symbol) (symbols : bool) : srec (list Z * Z) :=
  out ← (if symbols then srec_write_symbols [] table else Ret []);
  out ← srec_write_header out;
  '(out, srec_len) ← write_sections out srec_len tdata (td_list tdata);
  out ← srec_write_terminator out tdata start_address;
  Ret (out, srec_len).

Definition srec_write_object_contents (srec_len : Z) (tdata : srec_tdata) (start_address : Z)
    (table : list srec_out_symbol) : srec (list Z * Z) :=
  internal_srec_write_object_contents srec_len tdata start_address table false.

Definition symbolsrec_write_object_contents (srec_len : Z) (tdata : srec_tdata) (start_address : Z)
    (table : list srec_out_symbol) : srec (list Z * Z) :=
  internal_srec_write_object_contents srec_len tdata start_address table true.
End write.

(** The symbol table of a file that was read: the symbols as [asymbol]s of the
    absolute section, with their flags. *)
Definition srec_canonicalize_symtab (st : srec_state) : list (srec_symbol * Z) :=
  (fun s => (s, BSF_GLOBAL)) <$> ss_symbols st.

Definition srec_get_symtab_upper_bound (st : srec_state) : Z := (Z.of_nat (length (ss_symbols st)) + 1) * 8.
