(* ===== verification/SrecScan.v ===== *)
(** S-records as they are written, and what the scanner and the section reader
    make of one record. *)

From S2P Require Import Prelude Linker Decimal Hex Ihex IhexScan IhexWrite Srec.

(** ** Sums and addresses *)

Definition bsum (l : list Z) : Z := foldr Z.add 0 l.

Lemma bsum_app a b : bsum (a ++ b) = bsum a + bsum b.
Proof. unfold bsum. induction a as [|x a IH]; cbn; [done|]. rewrite IH. lia. Qed.

(** The sum kept in 32 bits and the one kept in 8 bits agree on their low byte. *)
Lemma u8_u32 x : u8 (u32 x) = u8 x.
Proof. unfold wrap. change (2 ^ 32) with (2 ^ 8 * 2 ^ 24). rewrite Z.rem_mul_r by lia.
  rewrite Z.mul_comm, Z_mod_plus_full. by apply Z.mod_mod. Qed.

Lemma sum_u32 l s : bytes_ok l -> u8 (foldl (fun s b => u32 (s + u8 b)) s l) = u8 (s + bsum l).
Proof.
  intros Hl. revert s. induction Hl as [|b l Hb _ IH]; intros s; cbn [foldl bsum foldr].
  - by rewrite Z.add_0_r.
  - rewrite IH, (wrap_small 8 b) by done. fold (bsum l).
    rewrite <- (wrap_add_l 8 (u32 _)) by lia. rewrite u8_u32, wrap_add_l by lia. f_equal. lia.
Qed.

(** The low [n] bytes of an address, the high ones first. *)
Fixpoint be (n : nat) (a : Z) : list Z :=
  match n with
  | O => []
  | S n => be n (a .>> 8) ++ [u8 a]
  end.

Lemma be_length n a : length (be n a) = n.
Proof. revert a. induction n as [|n IH]; intros a; cbn; [done|]. rewrite length_app, IH. cbn. lia. Qed.

Lemma be_ok n a : bytes_ok (be n a).
Proof.
  revert a. induction n as [|n IH]; intros a; cbn [be]; [constructor|]. apply Forall_app.
  split; [apply IH|]. repeat constructor; apply wrap_fits; lia.
Qed.

Definition add_byte (address x : Z) : Z := u64 (address .<< 8) .| x.

Lemma add_byte_spec a x : 0 <= a < 2 ^ 56 -> is_byte x -> add_byte a x = 256 * a + x.
Proof.
  intros Ha Hx. unfold add_byte. rewrite Z.shiftl_mul_pow2 by lia.
  rewrite wrap_small by (unfold fits; lia).
  rewrite <- Z.shiftl_mul_pow2 by lia. rewrite lor_shift_add by (done || lia). lia.
Qed.

Lemma be_value n a : (n <= 7)%nat -> foldl add_byte 0 (be n a) = wrap (8 * Z.of_nat n) a.
Proof.
  revert a. induction n as [|n IH]; intros a Hn; [cbn [be foldl]; unfold wrap; by rewrite Z.mod_1_r|].
  cbn [be]. rewrite foldl_app, IH by lia. cbn [foldl].
  pose proof (wrap_fits (8 * Z.of_nat n) (a .>> 8) ltac:(lia)) as Hw. unfold fits in Hw.
  assert (2 ^ (8 * Z.of_nat n) <= 2 ^ 56) by (apply Z.pow_le_mono_r; lia).
  rewrite add_byte_spec by (lia || (apply wrap_fits; lia)). unfold wrap.
  rewrite Z.shiftr_div_pow2 by lia. change (2 ^ 8) with 256.
  replace (8 * Z.of_nat (S n)) with (8 + 8 * Z.of_nat n) by lia. rewrite Z.pow_add_r by lia.
  change (2 ^ 8) with 256. rewrite Z.rem_mul_r by lia. lia.
Qed.

(** The types of the records of data, and of the last record. *)
Abbreviation data_type type := (type ∈ [1; 2; 3]).
Abbreviation end_type type := (type ∈ [7; 8; 9]).

(** ** Reading hexadecimal data *)

Section scan.
Context `{HexDigits}.

Lemma HEX_TOHEX v suf : is_byte v -> HEX (TOHEX v ++ suf) = Ret (v, suf).
Proof. intros Hv. unfold HEX. by rewrite (HEX2_TOHEX _ 0 v). Qed.

Lemma read_address_spec l cs a suf :
  bytes_ok l ->
  read_address (length l) cs a (hex_data l ++ suf) = Ret (foldl (fun s b => u8 (s + b)) cs l, foldl add_byte a l, suf).
Proof.
  intros Hl. revert cs a. induction Hl as [|b l Hb _ IH]; intros cs a; [done|].
  cbn [length read_address]. unfold hex_data in *. cbn [fmap list_fmap concat]. rewrite <- app_assoc.
  rewrite HEX_TOHEX by done. cbn [mbind outcome_bind]. by rewrite IH.
Qed.

Lemma sum_data_spec l cs suf :
  bytes_ok l -> sum_data (length l) cs (hex_data l ++ suf) = Ret (foldl (fun s b => u8 (s + b)) cs l, suf).
Proof.
  intros Hl. revert cs. induction Hl as [|b l Hb _ IH]; intros cs; [done|].
  cbn [length sum_data]. unfold hex_data in *. cbn [fmap list_fmap concat]. rewrite <- app_assoc.
  rewrite HEX_TOHEX by done. cbn [mbind outcome_bind]. by rewrite IH.
Qed.

Lemma read_data_spec l suf : bytes_ok l -> read_data (length l) (hex_data l ++ suf) = Ret l.
Proof.
  intros Hl. induction Hl as [|b l Hb _ IH]; [done|].
  cbn [length read_data]. unfold hex_data in *. cbn [fmap list_fmap concat]. rewrite <- app_assoc.
  rewrite HEX_TOHEX by done. cbn [mbind outcome_bind]. rewrite IH. cbn. by rewrite wrap_small.
Qed.

Lemma sum_u8 l s : is_byte s -> foldl (fun s b => u8 (s + b)) s l = u8 (s + bsum l).
Proof.
  unfold bsum. revert s. induction l as [|b l IH]; intros s Hs; cbn [foldl foldr].
  - by rewrite Z.add_0_r, wrap_small.
  - rewrite IH by (apply wrap_fits; lia). rewrite wrap_add_l by lia. f_equal. lia.
Qed.

Lemma hex_data_app a b : hex_data (a ++ b) = hex_data a ++ hex_data b.
Proof. unfold hex_data. by rewrite fmap_app, concat_app. Qed.

(** ** Records *)

(** The characters of a record whose address has [n] bytes, behind the S. *)
Definition record_sum (body : list Z) : Z := 255 - u8 (bsum body + (1 + Z.of_nat (length body))).

Definition record_rest (type : Z) (n : nat) (address : Z) (data : list Z) : list Z :=
  let body := be n address ++ data in
  (48 + type) :: TOHEX (1 + Z.of_nat (length body)) ++ hex_data body ++ TOHEX (record_sum body).

Definition srec_chars (type : Z) (n : nat) (address : Z) (data : list Z) : list Z :=
  83 :: record_rest type n address data ++ [13; 10].

Lemma record_sum_byte body : is_byte (record_sum body).
Proof.
  unfold record_sum. pose proof (wrap_fits 8 (bsum body + (1 + Z.of_nat (length body))) ltac:(lia)) as Hw.
  unfold fits in *. lia.
Qed.

(** The number of address bytes a record is written with. *)
Definition type_bytes (type : Z) : nat :=
  if (type =? 3) || (type =? 7) then 4 else if (type =? 2) || (type =? 8) then 3 else 2.

Definition known_type (type : Z) : Prop := type ∈ [0; 1; 2; 3; 7; 8; 9].

Lemma address_bytes_be type a : known_type type -> address_bytes type a = be (type_bytes type) a.
Proof.
  unfold known_type. rewrite !elem_of_cons, elem_of_nil.
  intros [->|[->|[->|[->|[->|[->|[->|[]]]]]]]]; cbn; rewrite ?Z.shiftr_shiftr by lia; done.
Qed.

Lemma hex_data_fold l : concat (TOHEX <$> l) = hex_data l.
Proof. done. Qed.

Lemma write_record_spec takes out type a data :
  (forall out bs, takes out bs = true) -> known_type type -> bytes_ok data ->
  (type_bytes type + length data <= 254)%nat ->
  srec_write_record takes out type a data = Ret (out ++ srec_chars type (type_bytes type) a data).
Proof.
  intros Ht Hty Hd Hlen. unfold srec_write_record. rewrite (address_bytes_be _ _ Hty).
  set (body := be (type_bytes type) a ++ data).
  assert (bytes_ok body) as Hb by (apply Forall_app; split; [apply be_ok|done]).
  assert (length body = type_bytes type + length data)%nat as Hl by (unfold body; by rewrite length_app, be_length).
  rewrite land_255. rewrite u8_u32, <- wrap_add_l by lia. rewrite sum_u32 by done.
  rewrite wrap_add_l, Z.add_0_l by lia. rewrite (wrap_add_r 8) by lia.
  rewrite hex_data_fold. rewrite !length_app, hex_data_length. cbn [length TOHEX]. unfold MAXCHUNK.
  destruct (Z.ltb_spec (2 * 255 + 6) (Z.of_nat (2 + (2 + (2 * length body + (2 + 2)))))); [lia|].
  unfold write_chars. rewrite Ht. f_equal. f_equal. unfold srec_chars, record_rest, record_sum.
  fold body. cbn [app]. by rewrite <- !app_assoc.
Qed.

(** *** Scanning one *)

Context (f : srec_file).

Lemma read_chars_app a b : read_chars f (Z.of_nat (length a)) (a ++ b) = Ret (a, b).
Proof.
  unfold read_chars. rewrite length_app, Nat2Z.inj_add. case_match; [|bool_prop; lia].
  by rewrite Nat2Z.id, take_app_length, drop_app_length.
Qed.

Ltac type_cases :=
  rewrite ?elem_of_cons, ?elem_of_nil; intros; repeat destruct_or?; subst; try done.

Lemma data_type_facts type :
  data_type type -> known_type type /\ data_address (48 + type) = Some (type_bytes type) /\
  min_bytes (48 + type) = Z.of_nat (type_bytes type) + 1 /\ (48 + type =? 48) || (48 + type =? 53) = false.
Proof. type_cases; (split; [unfold known_type; set_solver|done]). Qed.

Lemma end_type_facts type :
  end_type type -> known_type type /\ data_address (48 + type) = None /\
  end_address (48 + type) = Some (type_bytes type) /\
  min_bytes (48 + type) = Z.of_nat (type_bytes type) + 1 /\ (48 + type =? 48) || (48 + type =? 53) = false.
Proof. type_cases; (split; [unfold known_type; set_solver|done]). Qed.

(** The header and the buffer of a record that was written. *)
Definition record_hdr (type : Z) (body : list Z) : list Z := (48 + type) :: TOHEX (1 + Z.of_nat (length body)).
Definition record_buf (body : list Z) : list Z := hex_data body ++ TOHEX (record_sum body).

Lemma record_rest_split type n a data suf :
  let body := be n a ++ data in
  record_rest type n a data ++ suf = record_hdr type body ++ record_buf body ++ suf.
Proof. cbn. unfold record_rest, record_hdr, record_buf. cbn [app]. by rewrite <- !app_assoc. Qed.

Lemma read_hdr type body rest : read_chars f 3 (record_hdr type body ++ rest) = Ret (record_hdr type body, rest).
Proof. apply (read_chars_app (record_hdr type body)). Qed.

Lemma hdr_count type body :
  (length body <= 254)%nat -> HEX (drop 1 (record_hdr type body)) = Ret (1 + Z.of_nat (length body), []).
Proof.
  intros Hl. pose proof (HEX_TOHEX (1 + Z.of_nat (length body)) []) as E. rewrite app_nil_r in E.
  apply E. unfold fits. lia.
Qed.

Lemma read_buf body rest :
  read_chars f ((1 + Z.of_nat (length body)) * 2) (record_buf body ++ rest) = Ret (record_buf body, rest).
Proof.
  rewrite <- (read_chars_app (record_buf body)). f_equal. unfold record_buf. rewrite length_app, hex_data_length.
  cbn [length TOHEX]. lia.
Qed.

Lemma TOHEX_hexes v : is_byte v -> exists d1 d2, TOHEX v = [d1; d2] /\ hex_p d1 = true /\ hex_p d2 = true.
Proof.
  intros Hv. pose proof (TOHEX_hex v Hv) as Hh. unfold TOHEX in *. rewrite !Forall_cons in Hh.
  do 2 eexists. split; [done|]. tauto.
Qed.

(** The front of [srec_scan_record]. *)
Lemma scan_record_front st lineno pos type n a data suf :
  let body := be n a ++ data in
  (length body <= 254)%nat -> min_bytes (48 + type) <= 1 + Z.of_nat (length body) ->
  srec_scan_record f st lineno pos (record_rest type n a data ++ suf) =
  let check_sum := u8 (1 + Z.of_nat (length body)) in
  let bytes := 1 + Z.of_nat (length body) - 1 in
  if (48 + type =? 48) || (48 + type =? 53) then Ret (set_sec false st, false, suf)
  else
    match data_address (48 + type), end_address (48 + type) with
    | Some n, _ =>
        '(check_sum, address, data) ← read_address n check_sum 0 (record_buf body);
        '(check_sum, data) ← sum_data (Z.to_nat (bytes - Z.of_nat n)) check_sum data;
        _ ← check_checksum lineno check_sum data;
        Ret (srec_extend st pos address (bytes - Z.of_nat n), false, suf)
    | None, Some n =>
        '(check_sum, address, data) ← read_address n check_sum 0 (record_buf body);
        _ ← check_checksum lineno check_sum data;
        Ret (set_start address st, true, suf)
    | None, None => Ret (st, false, suf)
    end.
Proof.
  intros body Hl Hmin. unfold srec_scan_record. rewrite record_rest_split. fold body.
  rewrite read_hdr. cbn [mbind outcome_bind].
  destruct (TOHEX_hexes (1 + Z.of_nat (length body))) as (d1 & d2 & Ed & H1 & H2); [unfold fits; lia|].
  pose proof (hdr_count type body Hl) as Hc. unfold record_hdr in *. rewrite Ed in *.
  cbn [lookup list_lookup of_opt mbind outcome_bind]. rewrite H1, H2. cbn [ensure mbind outcome_bind].
  rewrite Hc. cbn [mbind outcome_bind].
  destruct (Z.leb_spec (min_bytes (48 + type)) (1 + Z.of_nat (length body))); [|lia].
  cbn [ensure mbind outcome_bind]. by rewrite read_buf.
Qed.

Lemma check_checksum_spec lineno cs body :
  cs = u8 (1 + Z.of_nat (length body) + bsum body) -> check_checksum lineno cs (TOHEX (record_sum body)) = Ret tt.
Proof.
  intros ->. unfold check_checksum. rewrite <- (app_nil_r (TOHEX _)), HEX_TOHEX by apply record_sum_byte.
  cbn [mbind outcome_bind]. unfold record_sum. rewrite land_255, wrap_idemp by lia.
  rewrite (Z.add_comm (bsum body)), Z.eqb_refl. done.
Qed.

Lemma read_body_address type a data cs :
  read_address (type_bytes type) cs 0 (record_buf (be (type_bytes type) a ++ data)) =
  Ret (foldl (fun s b => u8 (s + b)) cs (be (type_bytes type) a), wrap (8 * Z.of_nat (type_bytes type)) a,
       hex_data data ++ TOHEX (record_sum (be (type_bytes type) a ++ data))).
Proof.
  unfold record_buf. rewrite hex_data_app, <- app_assoc.
  rewrite <- (be_length (type_bytes type) a) at 1. rewrite read_address_spec by apply be_ok.
  rewrite be_value; [done|]. unfold type_bytes. repeat case_match; lia.
Qed.

Lemma scan_data_record st lineno pos type a data suf :
  data_type type -> bytes_ok data -> (type_bytes type + length data <= 254)%nat ->
  fits (8 * Z.of_nat (type_bytes type)) a ->
  srec_scan_record f st lineno pos (record_rest type (type_bytes type) a data ++ suf) =
  Ret (srec_extend st pos a (Z.of_nat (length data)), false, suf).
Proof.
  intros Ht Hd Hl Ha. destruct (data_type_facts type Ht) as (_ & Hda & Hmin & Hne).
  set (n := type_bytes type) in *. set (body := be n a ++ data).
  assert (length body = n + length data)%nat as Hbl by (unfold body; by rewrite length_app, be_length).
  rewrite scan_record_front by (fold body; lia). fold body. rewrite Hne, Hda.
  unfold body, n. rewrite read_body_address. cbn [mbind outcome_bind]. fold n body.
  replace (Z.to_nat (1 + Z.of_nat (length body) - 1 - Z.of_nat n)) with (length data) by lia.
  rewrite sum_data_spec by done. cbn [mbind outcome_bind].
  rewrite check_checksum_spec; [cbn [mbind outcome_bind]|].
  - rewrite wrap_small by done. do 4 f_equal. lia.
  - rewrite <- foldl_app. fold body. rewrite sum_u8 by (apply wrap_fits; lia). apply wrap_add_l. lia.
Qed.

Lemma scan_end_record st lineno pos type a suf :
  end_type type -> fits (8 * Z.of_nat (type_bytes type)) a ->
  srec_scan_record f st lineno pos (record_rest type (type_bytes type) a [] ++ suf) = Ret (set_start a st, true, suf).
Proof.
  intros Ht Ha. destruct (end_type_facts type Ht) as (_ & Hda & Hea & Hmin & Hne).
  set (n := type_bytes type) in *. set (body := be n a ++ []).
  assert (length body = n)%nat as Hbl by (unfold body; rewrite length_app, be_length; cbn; lia).
  assert (n <= 4)%nat as Hn by (unfold n, type_bytes; repeat case_match; lia).
  rewrite scan_record_front by (fold body; lia). fold body. rewrite Hne, Hda, Hea.
  unfold body, n. rewrite read_body_address. cbn [mbind outcome_bind]. fold n body.
  change (hex_data [] ++ TOHEX (record_sum body)) with (TOHEX (record_sum body)).
  rewrite check_checksum_spec; [cbn [mbind outcome_bind]; by rewrite wrap_small|].
  rewrite sum_u8 by (apply wrap_fits; lia). unfold body. rewrite app_nil_r. apply wrap_add_l. lia.
Qed.

Lemma scan_header_record st lineno pos a data suf :
  (length data <= 252)%nat ->
  srec_scan_record f st lineno pos (record_rest 0 2 a data ++ suf) = Ret (set_sec false st, false, suf).
Proof.
  intros Hl. assert (length (be 2 a ++ data) = 2 + length data)%nat by (by rewrite length_app, be_length).
  rewrite scan_record_front; [done|lia|]. change (min_bytes (48 + 0)) with 3. lia.
Qed.

(** ** Steps of the scanner *)

(** From one state and place the scanner gets to another one. *)
Definition scans (st : srec_state) (lineno : Z) (rest : list Z) (st' : srec_state) (lineno' : Z) (rest' : list Z) : Prop :=
  exists k, (k + length rest' <= length rest)%nat /\
    forall fuel, srec_scan_loop f (k + fuel) st lineno rest = srec_scan_loop f fuel st' lineno' rest'.

Lemma scans_refl st lineno rest : scans st lineno rest st lineno rest.
Proof. by exists 0%nat. Qed.

Lemma scans_trans st lineno rest st1 lineno1 rest1 st2 lineno2 rest2 :
  scans st lineno rest st1 lineno1 rest1 -> scans st1 lineno1 rest1 st2 lineno2 rest2 ->
  scans st lineno rest st2 lineno2 rest2.
Proof.
  intros (k1 & Hk1 & H1) (k2 & Hk2 & H2). exists (k1 + k2)%nat. split; [lia|].
  intros fuel. by rewrite <- Nat.add_assoc, H1, H2.
Qed.

(** The end of a line. *)
Lemma scans_newline st lineno rest : scans st lineno (13 :: 10 :: rest) st (u32 (lineno + 1)) rest.
Proof. exists 2%nat. split; [cbn; lia|]. done. Qed.

Lemma scans_record st st' lineno type n a data rest :
  srec_scan_record f st lineno (tell f (record_rest type n a data ++ 13 :: 10 :: rest) - 1)
    (record_rest type n a data ++ 13 :: 10 :: rest) = Ret (st', false, 13 :: 10 :: rest) ->
  scans st lineno (srec_chars type n a data ++ rest) st' (u32 (lineno + 1)) rest.
Proof.
  intros Hr. eapply scans_trans; [|apply scans_newline]. exists 1%nat.
  unfold srec_chars. cbn [app]. rewrite <- app_assoc. split; [cbn [length]; rewrite length_app; cbn; lia|].
  intros fuel. cbn [Nat.add srec_scan_loop]. change (83 .& 0xff) with 83. cbn [Z.eqb Pos.eqb].
  cbn [app] in *. by rewrite Hr.
Qed.
End scan.
