(* ===== verification/SrecRead.v ===== *)
(** Reading the sections of S-records: what the section reader makes of one
    record, and the sections that were made while data records were scanned. *)

From S2P Require Import Prelude Linker Decimal Hex Ihex IhexScan IhexWrite Srec SrecScan.

Section read.
Context `{HexDigits}.
Context (f : srec_file).

(** ** One record *)

Lemma read_loop_newline fuel sec contents rest :
  srec_read_loop f (S (S fuel)) sec contents (13 :: 10 :: rest) = srec_read_loop f fuel sec contents rest.
Proof. done. Qed.

Definition complete (sec : asection) (contents : list Z) : srec unit :=
  ensure (Z.of_nat (length contents) =? sec_size sec) BadSection.

(** A record of data, where the contents go on. *)
Lemma read_loop_data fuel sec contents rest type a data :
  data_type type -> bytes_ok data -> (type_bytes type + length data <= 254)%nat ->
  fits (8 * Z.of_nat (type_bytes type)) a ->
  srec_read_loop f (S fuel) sec contents (83 :: record_rest type (type_bytes type) a data ++ rest) =
  if negb (a =? u64 (sec_vma sec + Z.of_nat (length contents))) then (contents, complete sec contents)
  else if sec_size sec <? Z.of_nat (length contents) + Z.of_nat (length data) then (contents, Undef)
  else srec_read_loop f fuel sec (contents ++ data) rest.
Proof.
  intros Ht Hd Hl Ha. destruct (data_type_facts type Ht) as (_ & Hda & _ & _).
  set (n := type_bytes type) in *. set (body := be n a ++ data).
  assert (length body = n + length data)%nat as Hbl by (unfold body; by rewrite length_app, be_length).
  cbn [srec_read_loop]. change (83 .& 0xff) with 83. cbn [Z.eqb Pos.eqb orb negb].
  rewrite record_rest_split. fold body. rewrite read_hdr. cbn [mbind outcome_bind].
  pose proof (hdr_count type body ltac:(lia)) as Hc. change (record_hdr type body !! 0%nat) with (Some (48 + type)). cbn [of_opt mbind outcome_bind].
  rewrite Hc. cbn [mbind outcome_bind]. rewrite (wrap_small 32) by (unfold fits; lia).
  rewrite read_buf. cbn [mbind outcome_bind]. rewrite Hda. unfold body, n. rewrite read_body_address. fold n body.
  rewrite (wrap_small (8 * Z.of_nat n)) by done.
  destruct (a =? u64 (sec_vma sec + Z.of_nat (length contents))); [|done]. cbn [negb].
  destruct (Z.ltb_spec (1 + Z.of_nat (length body) - Z.of_nat n - 1) 0); [lia|].
  replace (Z.to_nat (1 + Z.of_nat (length body) - Z.of_nat n - 1)) with (length data) by lia.
  by rewrite read_data_spec.
Qed.

(** The last record ends any section. *)
Lemma read_loop_end fuel sec contents rest type a :
  end_type type ->
  srec_read_loop f (S fuel) sec contents (83 :: record_rest type (type_bytes type) a [] ++ rest) =
  (contents, complete sec contents).
Proof.
  intros Ht. destruct (end_type_facts type Ht) as (_ & Hda & _ & _).
  set (n := type_bytes type) in *. set (body := be n a ++ []).
  assert (length body = n)%nat as Hbl by (unfold body; rewrite length_app, be_length; cbn; lia).
  assert (n <= 4)%nat as Hn by (unfold n, type_bytes; repeat case_match; lia).
  cbn [srec_read_loop]. change (83 .& 0xff) with 83. cbn [Z.eqb Pos.eqb orb negb].
  rewrite record_rest_split. fold body. rewrite read_hdr. cbn [mbind outcome_bind].
  pose proof (hdr_count type body ltac:(lia)) as Hc. change (record_hdr type body !! 0%nat) with (Some (48 + type)). cbn [of_opt mbind outcome_bind].
  rewrite Hc. cbn [mbind outcome_bind]. rewrite (wrap_small 32) by (unfold fits; lia).
  rewrite read_buf. cbn [mbind outcome_bind]. by rewrite Hda.
Qed.

(** ** Sections in the making *)

(** Reading a section that starts at [p] with address [v] gets to [rest] with
    [bs] in the buffer. *)
Definition opens (p : nat) (v : Z) (rest bs : list Z) : Prop :=
  exists k, (k + length rest <= length (sf_bytes f))%nat /\
    forall sec, sec_filepos sec = p -> sec_vma sec = v -> Z.of_nat (length bs) <= sec_size sec ->
    forall fuel, srec_read_loop f (k + fuel) sec [] (drop p (sf_bytes f)) = srec_read_loop f fuel sec bs rest.

Definition reads (sec : asection) (bs : list Z) : Prop := srec_read_section f sec = (bs, Ret tt).

Lemma opens_more p v rest bs type a data :
  opens p v (srec_chars type (type_bytes type) a data ++ rest) bs ->
  data_type type -> bytes_ok data -> (type_bytes type + length data <= 254)%nat ->
  fits (8 * Z.of_nat (type_bytes type)) a -> a = u64 (v + Z.of_nat (length bs)) ->
  opens p v rest (bs ++ data).
Proof.
  intros (k & Hk & Ho) Ht Hd Hl Ha Ea. exists (k + 3)%nat. unfold srec_chars in *. cbn [app] in *.
  rewrite <- app_assoc in *. cbn [app] in *. split; [cbn [length] in Hk; rewrite length_app in Hk; cbn in Hk; lia|].
  intros sec Hp Hv Hs fuel. rewrite length_app in Hs. rewrite <- Nat.add_assoc, Ho by (done || lia).
  cbn [Nat.add]. rewrite read_loop_data by done. rewrite Hv, <- Ea, Z.eqb_refl. cbn [negb].
  destruct (Z.ltb_spec (sec_size sec) (Z.of_nat (length bs) + Z.of_nat (length data))); [lia|]. done.
Qed.

(** Where the reader stops. *)
Lemma opens_stops sec rest bs :
  opens (sec_filepos sec) (sec_vma sec) rest bs -> sec_size sec = Z.of_nat (length bs) ->
  (forall fuel, srec_read_loop f (S fuel) sec bs rest = (bs, complete sec bs)) -> reads sec bs.
Proof.
  intros (k & Hk & Ho) Hs Hstop. unfold reads, srec_read_section.
  replace (S (length (sf_bytes f))) with (k + S (length (sf_bytes f) - k))%nat by lia.
  rewrite Ho by (done || lia). rewrite Hstop. unfold complete. by rewrite Hs, Z.eqb_refl.
Qed.

(** The sections that were made have the contents: all but the one being built
    are read in full whatever follows. *)
Definition holds (st : srec_state) (rest : list Z) (contents : list (list Z)) : Prop :=
  if ss_sec st then
    exists secs sec cs bs, ss_sections st = secs ++ [sec] /\ contents = cs ++ [bs] /\ Forall2 reads secs cs /\
      opens (sec_filepos sec) (sec_vma sec) rest bs /\ sec_size sec = Z.of_nat (length bs) /\
      0 <= sec_vma sec /\ sec_vma sec + sec_size sec <= 2 ^ 32
  else ss_sections st = [] /\ contents = [].

(** The section being built is one with the old contents. *)
Lemma opens_reads sec rest bs type a data :
  opens (sec_filepos sec) (sec_vma sec) (srec_chars type (type_bytes type) a data ++ rest) bs ->
  sec_size sec = Z.of_nat (length bs) ->
  data_type type -> bytes_ok data -> (type_bytes type + length data <= 254)%nat ->
  fits (8 * Z.of_nat (type_bytes type)) a -> a <> u64 (sec_vma sec + Z.of_nat (length bs)) -> reads sec bs.
Proof.
  intros Ho Hs Ht Hd Hl Ha Hne. eapply opens_stops; [exact Ho|done|]. intros fuel.
  unfold srec_chars. cbn [app]. rewrite <- app_assoc, read_loop_data by done.
  by destruct (Z.eqb_spec a (u64 (sec_vma sec + Z.of_nat (length bs)))).
Qed.

Lemma fresh_section rest type a data n :
  rest `suffix_of` sf_bytes f ->
  rest = srec_chars type (type_bytes type) a data ++ n ->
  data_type type -> bytes_ok data -> (type_bytes type + length data <= 254)%nat ->
  fits (8 * Z.of_nat (type_bytes type)) a ->
  opens (tell f (tail rest) - 1) a n data.
Proof.
  intros [pre Hf] -> Ht Hd Hl Ha.
  assert (tell f (tail (srec_chars type (type_bytes type) a data ++ n)) - 1 = length pre)%nat as ->.
  { unfold tell. rewrite Hf, length_app. unfold srec_chars. cbn [app tail length]. lia. }
  apply (opens_more _ _ n [] type a data); try done.
  - exists 0%nat. split; [rewrite Hf, (length_app pre); lia|]. intros sec Hp Hv _ fuel. by rewrite Hf, drop_app_length.
  - rewrite Z.add_0_r, wrap_small; [done|]. unfold fits in *. split; [lia|].
    eapply Z.lt_le_trans; [apply Ha|]. apply Z.pow_le_mono_r; [lia|]. unfold type_bytes. repeat case_match; lia.
Qed.

(** The section that is made for a record at [pos]. *)
Definition fresh (st : srec_state) (pos : nat) (a n : Z) : asection :=
  mkSection (Z.of_nat (length (ss_sections st)) + 1) (SEC_HAS_CONTENTS .| SEC_LOAD .| SEC_ALLOC) a a n pos.

Definition grown (sec : asection) (n : Z) : asection :=
  mkSection (sec_number sec) (sec_flags sec) (sec_vma sec) (sec_lma sec) (u64 (sec_size sec + n)) (sec_filepos sec).

Lemma extend_more st secs sec pos a n :
  ss_sec st = true -> ss_sections st = secs ++ [sec] -> u64 (sec_vma sec + sec_size sec) = a ->
  srec_extend st pos a n = set_sections (secs ++ [grown sec n]) st.
Proof.
  intros Es E Ea. unfold srec_extend. rewrite E, last_snoc, Es, Ea, Z.eqb_refl. cbn [andb]. f_equal.
  rewrite length_app, Nat.add_1_r. cbn [pred]. by rewrite insert_app_r_alt, Nat.sub_diag by lia.
Qed.

Lemma extend_fresh st pos a n :
  (forall secs sec, ss_sec st = true -> ss_sections st = secs ++ [sec] -> u64 (sec_vma sec + sec_size sec) <> a) ->
  srec_extend st pos a n = mkSrec (ss_start st) (ss_sections st ++ [fresh st pos a n]) (ss_symbols st) true.
Proof.
  intros Hne. unfold srec_extend, fresh. destruct (last (ss_sections st)) as [sec|] eqn:E; [|done].
  apply last_Some in E as [secs E]. destruct (ss_sec st) eqn:Es; [|done]. cbn [andb].
  destruct (Z.eqb_spec (u64 (sec_vma sec + sec_size sec)) a) as [Ea|]; [|done]. by destruct (Hne secs sec).
Qed.

(** The state after a record of data. *)
Lemma holds_record st lineno rest contents type a data n :
  holds st rest contents -> rest `suffix_of` sf_bytes f ->
  rest = srec_chars type (type_bytes type) a data ++ n ->
  data_type type -> bytes_ok data -> (type_bytes type + length data <= 254)%nat ->
  fits (8 * Z.of_nat (type_bytes type)) a -> a + Z.of_nat (length data) <= 2 ^ 32 ->
  exists st' contents', scans f st lineno rest st' (u32 (lineno + 1)) n /\ holds st' n contents' /\
    spread (ss_sections st') contents' = spread (ss_sections st) contents ++ place a data /\
    ss_start st' = ss_start st /\ ss_symbols st' = ss_symbols st /\ ss_sec st' = true.
Proof.
  intros Hh Hsuf Hrest Ht Hd Hl Ha Hend. set (pos := (tell f (tail rest) - 1)%nat).
  assert (scans f st lineno rest (srec_extend st pos a (Z.of_nat (length data))) (u32 (lineno + 1)) n) as Hscan.
  { subst pos. rewrite Hrest. apply scans_record. rewrite scan_data_record by done. repeat f_equal.
    unfold srec_chars. cbn [app tail]. by rewrite <- app_assoc. }
  pose proof (fresh_section rest type a data n Hsuf Hrest Ht Hd Hl Ha) as Hfresh. fold pos in Hfresh.
  exists (srec_extend st pos a (Z.of_nat (length data))). unfold holds in Hh.
  destruct (ss_sec st) eqn:Es.
  - destruct Hh as (secs & sec & cs & bs & Esec & -> & Hall & Ho & Hsize & Hv & Hmax).
    pose proof (Forall2_length _ _ _ Hall) as Hlen.
    assert (u64 (sec_vma sec + sec_size sec) = sec_vma sec + sec_size sec) as Eu by (apply wrap_small; unfold fits; lia).
    destruct (Z.eq_dec (u64 (sec_vma sec + sec_size sec)) a) as [E|E].
    + rewrite (extend_more _ _ _ pos a (Z.of_nat (length data)) Es Esec E) in *.
      assert (u64 (sec_size sec + Z.of_nat (length data)) = sec_size sec + Z.of_nat (length data)) as Eg
        by (apply wrap_small; unfold fits; lia).
      exists (cs ++ [bs ++ data]). split; [done|]. unfold holds. cbn [set_sections ss_sections ss_sec ss_start ss_symbols].
      rewrite Es. split; [|split; [|done]].
      * eexists secs, _, cs, (bs ++ data). split; [done|]. unfold grown. cbn [sec_filepos sec_vma sec_size].
        rewrite Eg, length_app. split_and!; try done; [|lia..].
        rewrite Hrest in Ho. eapply opens_more; try done. by rewrite <- Hsize, E.
      * rewrite Esec, !spread_snoc by done. cbn [grown sec_vma]. rewrite place_app, app_assoc, <- Hsize.
        by rewrite <- E, Eu.
    + rewrite (extend_fresh st pos a (Z.of_nat (length data))) in * by (intros ??? E'; rewrite Esec in E'; by simplify_list_eq).
      exists ((cs ++ [bs]) ++ [data]). split; [done|]. unfold holds. cbn [ss_sections ss_sec ss_start ss_symbols].
      split; [|split; [|done]].
      * eexists _, _, _, data. split; [done|]. split; [done|]. cbn [fresh sec_filepos sec_vma sec_size].
        split_and!; try done; [|unfold fits in Ha; lia]. rewrite Esec.
        apply Forall2_app; [done|]. constructor; [|done]. rewrite Hrest in Ho. eapply opens_reads; try done.
        rewrite <- Hsize. by apply not_eq_sym.
      * by rewrite spread_snoc by (rewrite Esec, !length_app, Hlen; done).
  - destruct Hh as [Esec ->]. rewrite (extend_fresh st pos a (Z.of_nat (length data))) in * by (by rewrite Es).
    exists [data]. split; [done|]. unfold holds. cbn [ss_sections ss_sec ss_start ss_symbols]. rewrite Esec. cbn [app].
    split; [|split; [|done]].
    + eexists [], _, [], data. split; [done|]. cbn [fresh sec_filepos sec_vma sec_size].
      split_and!; try done. unfold fits in Ha. lia.
    + cbn. by rewrite app_nil_r.
Qed.
End read.
