(* ===== verification/SrecSymbols.v ===== *)
(** The symbols of symbolsrec files: the lines that are written, and the scanner
    on them. *)

From S2P Require Import Prelude Linker Decimal Hex Ihex Srec SrecScan.

(** ** Hexadecimal numbers *)

Lemma xdigits_xdigit fuel n : 0 <= n -> Forall (fun c => exists d, c = xdigit d /\ 0 <= d < 16) (xdigits fuel n).
Proof.
  revert n. induction fuel as [|fuel IH]; intros n Hn; cbn [xdigits]; [constructor|].
  destruct (Z.ltb_spec n 16).
  - repeat constructor. by exists n.
  - apply Forall_app. split; [apply IH, Z.div_pos; lia|]. repeat constructor. eexists. split; [done|].
    apply Z.mod_pos_bound. lia.
Qed.

Lemma xdigit_byte d : 0 <= d < 16 -> xdigit d .& 0xff = xdigit d.
Proof. intros Hd. rewrite land_255. apply wrap_small. unfold fits, xdigit. case_match; bool_prop; lia. Qed.

Lemma printf_lx_cons n : 0 <= n -> exists c l, printf_lx n = c :: l.
Proof.
  intros Hn. unfold printf_lx. cbn [xdigits]. destruct (n <? 16); [by do 2 eexists|].
  destruct (xdigits _ _); by do 2 eexists.
Qed.

Section symbols.
Context `{HexDigits}.
Context (f : srec_file).

Definition add_digit (a c : Z) : Z := u64 (u64 (a .<< 4) + NIBBLE c).

Lemma xdigits_value fuel n :
  fits 64 n -> 0 <= n < 2 ^ Z.of_nat fuel -> foldl add_digit 0 (xdigits fuel n) = n.
Proof.
  revert n. induction fuel as [|fuel IH]; intros n Hf Hn; cbn [xdigits]; [cbn in *; lia|].
  unfold fits in Hf. destruct (Z.ltb_spec n 16).
  - cbn [foldl]. unfold add_digit, NIBBLE. rewrite hex_value_xdigit by lia. cbn. apply wrap_small. unfold fits. lia.
  - pose proof (div_fuel fuel 16 n ltac:(lia) Hn). pose proof (Z.mod_pos_bound n 16 ltac:(lia)).
    pose proof (Z.div_mod n 16 ltac:(lia)).
    rewrite foldl_app, IH by (unfold fits; lia). cbn [foldl]. unfold add_digit, NIBBLE.
    rewrite hex_value_xdigit by lia. rewrite Z.shiftl_mul_pow2 by lia. change (2 ^ 4) with 16.
    rewrite (wrap_small 64 (_ * _)) by (unfold fits; lia). rewrite wrap_small by (unfold fits; lia). lia.
Qed.

Lemma printf_lx_value n : fits 64 n -> foldl add_digit 0 (printf_lx n) = n.
Proof. intros Hn. apply xdigits_value; [done|]. apply log2_fuel. by destruct Hn. Qed.

(** Reading digits up to a character that is none. *)
Lemma read_hex_digits c l d rest acc :
  Forall (fun c => hex_p c = true /\ c .& 0xff = c) (c :: l) -> hex_p (d .& 0xff) = false ->
  read_hex c acc (l ++ d :: rest) = Some (foldl add_digit acc (c :: l), d .& 0xff, rest).
Proof.
  intros Hl Hd. revert c acc Hl. induction l as [|c' l IH]; intros c acc Hl.
  - apply Forall_cons in Hl as [[Hc _] _]. cbn [read_hex app]. rewrite Hc.
    destruct rest as [|? ?]; cbn [read_hex]; by rewrite Hd.
  - apply Forall_cons in Hl as [[Hc _] Hl]. pose proof (proj1 (Forall_cons _ _ _) Hl) as [[_ Eb] _].
    cbn [read_hex app]. rewrite Hc, Eb. rewrite IH by done. done.
Qed.

Lemma read_hex_printed v rest c l :
  fits 64 v -> printf_lx v = c :: l -> read_hex c 0 (l ++ 13 :: rest) = Some (v, 13, rest).
Proof.
  intros Hv E. rewrite (read_hex_digits c l 13 rest 0).
  - by rewrite <- E, printf_lx_value.
  - rewrite <- E. eapply Forall_impl; [apply xdigits_xdigit; by destruct Hv|]. intros x (d & -> & Hd).
    by rewrite hex_p_xdigit, xdigit_byte.
  - apply hex_p_newline.
Qed.

(** ** A line with a symbol *)

(** Names that are read back: not empty, without spaces and nulls. *)
Definition name_ok (name : list Z) : Prop :=
  name <> [] /\ Forall (fun c => is_byte c /\ c <> 0 /\ isspace c = false) name.

Lemma byte_land c : is_byte c -> c .& 0xff = c.
Proof. intros Hc. rewrite land_255. by apply wrap_small. Qed.

Lemma read_word_name l c rest :
  Forall (fun c => is_byte c /\ c <> 0 /\ isspace c = false) l -> is_byte c -> isspace c = true ->
  read_word (l ++ c :: rest) = Some (l, rest).
Proof.
  intros Hl Hc Hs. induction Hl as [|d l (Hd & _ & Hds) _ IH]; cbn [app read_word].
  - by rewrite (byte_land c), Hs.
  - rewrite (byte_land d), Hds by done. by rewrite IH.
Qed.

Definition symbol_chars (y : srec_symbol) : list Z := [32; 32] ++ sy_name y ++ [32; 36] ++ printf_lx (sy_val y) ++ [13; 10].

Lemma one_symbol_spec y rest :
  name_ok (sy_name y) -> fits 64 (sy_val y) ->
  srec_one_symbol f (32 :: sy_name y ++ [32; 36] ++ printf_lx (sy_val y) ++ 13 :: rest) = Ret (Some y, 13, rest).
Proof.
  intros [Hne Hn] Hv. destruct y as [name val]. cbn [sy_name sy_val] in *.
  destruct name as [|c name]; [done|]. pose proof Hn as Hn'. apply Forall_cons in Hn' as [(Hc & Hc0 & Hcs) Hn'].
  unfold isspace in Hcs. unfold srec_one_symbol. cbn [next_nonblank app].
  change (is_blank (32 .& 0xff)) with true. cbn iota. rewrite (byte_land c) by done.
  replace (is_blank c) with false by (unfold is_blank; lia). cbn [or_end mbind outcome_bind].
  replace ((c =? 10) || (c =? 13)) with false by lia.
  rewrite (read_word_name name 32) by (done || (unfold fits; lia)). cbn [or_end mbind outcome_bind].
  assert (until_nul (c :: name) = c :: name) as ->.
  { apply until_nul_none. intros Hin. rewrite Forall_forall in Hn. by destruct (Hn 0 Hin) as (_ & ? & _). }
  cbn [next_nonblank]. change (is_blank (36 .& 0xff)) with false. cbn iota. cbn [or_end mbind outcome_bind].
  change (36 .& 0xff =? 36) with true. cbn iota.
  destruct (printf_lx_cons val ltac:(by destruct Hv)) as (d & l & E). rewrite E. cbn [app or_end mbind outcome_bind].
  assert (d .& 0xff = d) as ->.
  { pose proof (xdigits_xdigit (S (Z.to_nat (Z.log2 val))) val ltac:(by destruct Hv)) as Hx.
    fold (printf_lx val) in Hx. rewrite E in Hx. apply Forall_cons in Hx as [(x & -> & Hx) _]. by apply xdigit_byte. }
  rewrite (read_hex_printed val) by done. done.
Qed.

Lemma scans_symbol st lineno y rest :
  name_ok (sy_name y) -> fits 64 (sy_val y) ->
  scans f st lineno (symbol_chars y ++ rest) (srec_new_symbol (set_sec false st) (sy_name y) (sy_val y))
    (u32 (lineno + 1)) rest.
Proof.
  intros Hn Hv. exists 2%nat. unfold symbol_chars. cbn [app]. rewrite <- !app_assoc. cbn [app]. rewrite <- app_assoc. cbn [app].
  split; [cbn [length]; rewrite length_app; cbn [length]; rewrite length_app; cbn; lia|]. intros fuel.
  cbn [Nat.add srec_scan_loop]. change (32 .& 0xff) with 32. cbn [Z.eqb Pos.eqb].
  cbn [srec_symbol_line]. pose proof (one_symbol_spec y (10 :: rest) Hn Hv) as E. cbn [app] in E. rewrite E. cbn [mbind outcome_bind].
  change (is_blank 13) with false. cbn iota. done.
Qed.

(** A line that is skipped. *)
Lemma skip_line_app l rest : Forall (fun c => is_byte c /\ c <> 10) l -> skip_line (l ++ 10 :: rest) = Some rest.
Proof.
  induction 1 as [|c l [Hc Hn] _ IH]; [done|]. cbn [app skip_line]. rewrite byte_land by done.
  by destruct (Z.eqb_spec c 10).
Qed.

Lemma scans_module st lineno l rest :
  Forall (fun c => is_byte c /\ c <> 10) l ->
  scans f st lineno (36 :: l ++ 10 :: rest) (set_sec false st) (u32 (lineno + 1)) rest.
Proof.
  intros Hl. exists 1%nat. split; [cbn [length]; rewrite length_app; cbn; lia|]. intros fuel.
  cbn [Nat.add srec_scan_loop]. change (36 .& 0xff) with 36. cbn [Z.eqb Pos.eqb].
  by rewrite skip_line_app.
Qed.

(** The characters [srec_write_symbols] writes. *)
Definition symbols_chars (filename : list Z) (table : list srec_out_symbol) : list Z :=
  if bool_decide (table = []) then []
  else [36; 36; 32] ++ filename ++ [13; 10] ++ concat (symbol_chars <$> omap out_symbol table) ++ [36; 36; 32; 13; 10].

Lemma write_symbol_lines_spec takes out table :
  (forall out bs, takes out bs = true) ->
  write_symbol_lines takes out table = Ret (out ++ concat (symbol_chars <$> omap out_symbol table)).
Proof.
  intros Ht. revert out. induction table as [|s table IH]; intros out; cbn [write_symbol_lines].
  - by rewrite app_nil_r.
  - cbn [omap list_omap]. destruct (out_symbol s) as [y|] eqn:E; cbn [fmap list_fmap concat]; [|apply IH].
    unfold write_chars. rewrite !Ht. cbn [mbind outcome_bind]. rewrite !Ht. cbn [mbind outcome_bind]. rewrite Ht.
    cbn [mbind outcome_bind]. rewrite IH. f_equal. unfold symbol_chars.
    unfold out_symbol in E. destruct (os_output s); [|done]. case_match; [|done]. injection E as <-. cbn [sy_name sy_val].
    by rewrite <- !app_assoc.
Qed.

Lemma write_symbols_spec takes filename out table :
  (forall out bs, takes out bs = true) ->
  srec_write_symbols filename takes out table = Ret (out ++ symbols_chars filename table).
Proof.
  intros Ht. unfold srec_write_symbols, symbols_chars. case_bool_decide; [by rewrite app_nil_r|].
  unfold write_chars. rewrite !Ht. cbn [mbind outcome_bind]. rewrite Ht. cbn [mbind outcome_bind]. rewrite Ht.
  cbn [mbind outcome_bind]. rewrite write_symbol_lines_spec by done. cbn [mbind outcome_bind]. rewrite Ht.
  f_equal. by rewrite <- !app_assoc.
Qed.

Definition add_symbols (ys : list srec_symbol) (st : srec_state) : srec_state :=
  mkSrec (ss_start st) (ss_sections st) (ss_symbols st ++ ys) false.

Lemma scans_symbols st lineno ys rest :
  Forall (fun y => name_ok (sy_name y) /\ fits 64 (sy_val y)) ys -> ss_sec st = false ->
  exists lineno', scans f st lineno (concat (symbol_chars <$> ys) ++ rest) (add_symbols ys st) lineno' rest.
Proof.
  intros Hys. revert st lineno. induction Hys as [|y ys [Hn Hv] _ IH]; intros st lineno Hs.
  - exists lineno. unfold add_symbols. rewrite app_nil_r, <- Hs. destruct st. apply scans_refl.
  - destruct (IH (srec_new_symbol (set_sec false st) (sy_name y) (sy_val y)) (u32 (lineno + 1)) eq_refl) as [l' Hl'].
    exists l'. cbn [fmap list_fmap concat]. rewrite <- app_assoc. eapply scans_trans; [by apply scans_symbol|].
    unfold add_symbols in *. cbn [srec_new_symbol set_sec ss_start ss_sections ss_symbols] in Hl'.
    rewrite <- app_assoc in Hl'. by destruct y.
Qed.

(** Scanning what [srec_write_symbols] writes. *)
Lemma scans_symbols_chars st lineno filename table rest :
  Forall (fun c => is_byte c /\ c <> 10) filename ->
  Forall (fun y => name_ok (sy_name y) /\ fits 64 (sy_val y)) (omap out_symbol table) -> ss_sec st = false ->
  exists lineno', scans f st lineno (symbols_chars filename table ++ rest) (add_symbols (omap out_symbol table) st) lineno' rest.
Proof.
  intros Hf Hys Hs. unfold symbols_chars. case_bool_decide as E.
  { subst. exists lineno. unfold add_symbols. cbn. rewrite app_nil_r, <- Hs. destruct st. apply scans_refl. }
  assert (forall c, 0 <= c < 256 -> c <> 10 -> is_byte c /\ c <> 10) as Hb by (unfold fits; intros; lia).
  destruct (scans_symbols (set_sec false st) (u32 (lineno + 1)) (omap out_symbol table)
              ([36; 36; 32; 13; 10] ++ rest) Hys eq_refl) as [l' Hl'].
  exists (u32 (l' + 1)). eapply scans_trans; [|eapply scans_trans; [exact Hl'|]].
  - rewrite <- !app_assoc. cbn [app].
    pose proof (scans_module st lineno (36 :: 32 :: filename ++ [13])
      (concat (symbol_chars <$> omap out_symbol table) ++ 36 :: 36 :: 32 :: 13 :: 10 :: rest)) as Hm.
    cbn [app] in Hm. rewrite <- app_assoc in Hm. apply Hm. repeat (constructor; [by apply Hb|]).
    apply Forall_app. split; [done|]. constructor; [by apply Hb|constructor].
  - apply (scans_module (add_symbols (omap out_symbol table) st) l' [36; 32; 13] rest). repeat (constructor; [by apply Hb|]). constructor.
Qed.
End symbols.
