(* ===== verification/SrecRound.v ===== *)
(** Writing S-records and reading them back: the data that was set, at their
    addresses, the start address and the symbols. *)

From S2P Require Import Prelude StableSort Linker Decimal Hex Ihex IhexScan IhexWrite.
From S2P Require Import Srec SrecScan SrecRead SrecSymbols.

(** ** The list of data *)

Definition where_before (x y : srec_data) : Prop := sd_where x <= sd_where y.

Lemma srec_insert_perm n l : srec_insert n l ≡ₚ n :: l.
Proof.
  induction l as [|d l IH]; cbn [srec_insert]; [done|]. destruct (_ <? _); [|done].
  rewrite IH. constructor.
Qed.

Lemma srec_insert_sorted n l : StronglySorted where_before l -> StronglySorted where_before (srec_insert n l).
Proof.
  induction 1 as [|d l Hs IH Hd]; cbn [srec_insert]; [repeat constructor|].
  destruct (Z.ltb_spec (sd_where d) (sd_where n)).
  - constructor; [done|]. rewrite srec_insert_perm. constructor; [unfold where_before; lia|done].
  - constructor; [by constructor|]. constructor; [done|].
    eapply Forall_impl; [exact Hd|]. unfold where_before. lia.
Qed.

(** A call of [srec_set_section_contents]. *)
Record srec_call := mkCall { c_section : asection; c_location : list Z; c_offset : Z }.

(** The entry it makes. *)
Definition call_entry (c : srec_call) : option srec_data :=
  if negb (Z.of_nat (length (c_location c)) =? 0) && negb (sec_flags (c_section c) .& SEC_ALLOC =? 0)
     && negb (sec_flags (c_section c) .& SEC_LOAD =? 0)
  then Some (mkSrecData (sec_lma (c_section c) + c_offset c) (c_location c)) else None.

Definition set_contents (forceS3 : bool) (td : srec_tdata) (c : srec_call) : srec_tdata :=
  srec_set_section_contents 1 forceS3 td (c_section c) (c_location c) (c_offset c).

(** Bytes at addresses of 32 bits. *)
Record call_ok (c : srec_call) : Prop := {
  co_bytes : bytes_ok (c_location c);
  co_lma : 0 <= sec_lma (c_section c);
  co_offset : 0 <= c_offset c;
  co_end : sec_lma (c_section c) + c_offset c + Z.of_nat (length (c_location c)) <= 2 ^ 32;
  co_size : Z.of_nat (length (c_location c)) < 2 ^ 32
}.

(** Data that records of a type can hold. *)
Record entry_ok (type : Z) (d : srec_data) : Prop := {
  eo_bytes : bytes_ok (sd_data d);
  eo_where : 0 <= sd_where d;
  eo_end : sd_where d + Z.of_nat (length (sd_data d)) <= 2 ^ (8 * Z.of_nat (type_bytes type));
  eo_size : Z.of_nat (length (sd_data d)) < 2 ^ 32
}.

Lemma type_bytes_le t t' : data_type t -> data_type t' -> t <= t' ->
  2 ^ (8 * Z.of_nat (type_bytes t)) <= 2 ^ (8 * Z.of_nat (type_bytes t')).
Proof.
  rewrite !elem_of_cons, !elem_of_nil. intros [->|[->|[->|[]]]] [->|[->|[->|[]]]] ?; cbn; lia.
Qed.

Lemma entry_ok_mono t t' d : data_type t -> data_type t' -> t <= t' -> entry_ok t d -> entry_ok t' d.
Proof. intros Ht Ht' Hle []. pose proof (type_bytes_le t t' Ht Ht' Hle). constructor; [done..|lia|done]. Qed.

(** The type only grows, and reaches the last address. *)
Lemma record_type_spec forceS3 t last :
  data_type t -> 0 <= last < 2 ^ 32 ->
  data_type (srec_record_type forceS3 t last) /\ t <= srec_record_type forceS3 t last /\
  last < 2 ^ (8 * Z.of_nat (type_bytes (srec_record_type forceS3 t last))).
Proof.
  intros Ht Hl. unfold srec_record_type.
  assert (t = 1 \/ t = 2 \/ t = 3) as Ht' by set_solver.
  destruct forceS3; [split; [set_solver|]; change (8 * Z.of_nat (type_bytes 3)) with 32; lia|].
  destruct (Z.leb_spec last 0xffff).
  - split; [done|]. split; [lia|]. destruct Ht' as [->|[->| ->]]; cbn; lia.
  - destruct (Z.leb_spec last 0xffffff); cbn [andb].
    + destruct (Z.leb_spec t 2).
      * split; [set_solver|]. split; [lia|]. change (8 * Z.of_nat (type_bytes 2)) with 24. lia.
      * split; [set_solver|]. split; [lia|]. change (8 * Z.of_nat (type_bytes 3)) with 32. lia.
    + split; [set_solver|]. split; [lia|]. change (8 * Z.of_nat (type_bytes 3)) with 32. lia.
Qed.

(** What the calls keep: the list is sorted, has the entries of the calls, and the
    type can hold them. *)
Record tdata_ok (td : srec_tdata) (calls : list srec_call) : Prop := {
  to_type : data_type (td_type td);
  to_entries : Forall (entry_ok (td_type td)) (td_list td);
  to_sorted : StronglySorted where_before (td_list td);
  to_perm : td_list td ≡ₚ omap call_entry calls
}.

Lemma insert_entry_perm n l :
  match last l with
  | Some tail => if sd_where tail <=? sd_where n then l ++ [n] else srec_insert n l
  | None => srec_insert n l
  end ≡ₚ n :: l.
Proof.
  destruct (last l) as [tail|]; [destruct (_ <=? _)|]; [|apply srec_insert_perm..].
  symmetry. apply Permutation_cons_append.
Qed.

Lemma insert_entry_sorted n l :
  StronglySorted where_before l ->
  StronglySorted where_before
    (match last l with
     | Some tail => if sd_where tail <=? sd_where n then l ++ [n] else srec_insert n l
     | None => srec_insert n l
     end).
Proof.
  intros Hs. destruct (last l) as [tail|] eqn:Hlast; [|by apply srec_insert_sorted].
  destruct (Z.leb_spec (sd_where tail) (sd_where n)); [|by apply srec_insert_sorted].
  apply last_Some in Hlast as [l1 ->]. apply StronglySorted_app_2; [|done|repeat constructor].
  intros x y Hx ->%list_elem_of_singleton. apply elem_of_app in Hx as [Hx| ->%list_elem_of_singleton];
    [|unfold where_before; lia].
  apply StronglySorted_app in Hs as (Hcross & _ & _).
  specialize (Hcross x tail Hx ltac:(by left)). unfold where_before in *. lia.
Qed.

Lemma set_contents_ok forceS3 td calls c :
  tdata_ok td calls -> call_ok c -> tdata_ok (set_contents forceS3 td c) (calls ++ [c]).
Proof.
  intros [Ht He Hs Hp] [Hb Hlma Hoff Hend Hsz]. unfold set_contents, srec_set_section_contents.
  assert (omap call_entry (calls ++ [c]) = omap call_entry calls ++ omap call_entry [c]) as Eo by apply omap_app.
  cbn [omap list_omap] in Eo. unfold call_entry at 3 in Eo.
  destruct (_ && _ && _) eqn:E; [|constructor; [done..|]; by rewrite Eo, app_nil_r].
  assert (0 < Z.of_nat (length (c_location c))) as Hpos by (rewrite !andb_true_iff, negb_true_iff, Z.eqb_neq in E; lia).
  rewrite Z.quot_1_r, Z.div_1_r. rewrite (wrap_small 64 (c_offset c + _)) by (unfold fits; lia).
  rewrite (wrap_small 64 (sec_lma _ + c_offset c)) by (unfold fits; lia).
  rewrite (wrap_small 64) by (unfold fits; lia). rewrite Z.add_assoc.
  destruct (record_type_spec forceS3 (td_type td)
    (sec_lma (c_section c) + c_offset c + Z.of_nat (length (c_location c)) - 1)) as (Ht' & Hle & Hlast); [done|lia|].
  set (t := srec_record_type _ _ _) in *. constructor; cbn [td_type td_list]; [done|..].
  - rewrite insert_entry_perm. constructor.
    + constructor; cbn [sd_data sd_where]; [done|lia|lia|done].
    + eapply Forall_impl; [exact He|]. intros d. by apply entry_ok_mono.
  - by apply insert_entry_sorted.
  - rewrite insert_entry_perm, Eo, Hp. apply Permutation_cons_append.
Qed.

Lemma contents_ok forceS3 calls :
  Forall call_ok calls -> tdata_ok (foldl (set_contents forceS3) srec_mkobject calls) calls.
Proof.
  intros Hc. induction calls as [|c calls IH] using rev_ind; [constructor; [set_solver|constructor..]|].
  apply Forall_app in Hc as [Hc Hl]. apply Forall_cons in Hl as [Hl _].
  rewrite foldl_app. apply set_contents_ok; [by apply IH|done].
Qed.

(** ** Writing *)

Section round.
Context `{HexDigits}.

(** Records of data: addresses and bytes. *)
Definition chunk_chars (type : Z) (c : Z * list Z) : list Z := srec_chars type (type_bytes type) c.1 c.2.
Definition chunks_image (chunks : list (Z * list Z)) : list (Z * Z) := concat ((fun c => place c.1 c.2) <$> chunks).

Record chunk_ok (type : Z) (c : Z * list Z) : Prop := {
  ck_bytes : bytes_ok c.2;
  ck_length : (type_bytes type + length c.2 <= 254)%nat;
  ck_address : fits (8 * Z.of_nat (type_bytes type)) c.1;
  ck_end : c.1 + Z.of_nat (length c.2) <= 2 ^ 32
}.

Lemma type_bytes_data type : data_type type -> Z.of_nat (type_bytes type) = type + 1.
Proof. rewrite !elem_of_cons, elem_of_nil. intros [->|[->|[->|[]]]]; done. Qed.

Lemma type_bytes_end type : data_type type -> end_type (10 - type) /\ type_bytes (10 - type) = type_bytes type.
Proof. rewrite !elem_of_cons, !elem_of_nil. intros [->|[->|[->|[]]]]; cbn; by split; [tauto|]. Qed.

Context (takes : list Z -> list Z -> bool) (Htakes : forall out bs, takes out bs = true).

Lemma write_section_loop_spec type where_ size srec_len fuel out done_ loc :
  data_type type -> 0 < srec_len <= 253 - type -> bytes_ok loc ->
  size = done_ + Z.of_nat (length loc) -> 0 <= done_ -> size < 2 ^ 32 -> 0 <= where_ ->
  where_ + size <= 2 ^ (8 * Z.of_nat (type_bytes type)) -> (length loc < fuel)%nat ->
  exists chunks, write_section_loop 1 takes fuel out srec_len type where_ size done_ loc =
      Ret (out ++ concat (chunk_chars type <$> chunks)) /\
    Forall (chunk_ok type) chunks /\ chunks_image chunks = place (where_ + done_) loc.
Proof.
  intros Hty Hlen Hb Hsize Hdone Hmax Hw Hend. pose proof (type_bytes_data type Hty) as Htb.
  assert (2 ^ (8 * Z.of_nat (type_bytes type)) <= 2 ^ 32) as H32 by (apply Z.pow_le_mono_r; set_solver by lia).
  revert out done_ loc Hb Hsize Hdone. induction fuel as [|fuel IH]; intros out done_ loc Hb Hsize Hdone Hfuel; [lia|].
  cbn [write_section_loop]. destruct (Z.ltb_spec done_ size).
  - rewrite (wrap_small 32 (size - done_)) by (unfold fits; lia). rewrite Z.div_1_r.
    rewrite (wrap_small 64) by (unfold fits; lia).
    set (now := if srec_len <? size - done_ then srec_len else size - done_).
    assert (0 < now <= srec_len /\ now <= size - done_) as [Hn1 Hn2] by (subst now; case_match; bool_prop; lia).
    assert (length (take (Z.to_nat now) loc) = Z.to_nat now) as Hnl by (rewrite length_take; lia).
    rewrite write_record_spec; [|done|by destruct (data_type_facts type Hty)|by apply Forall_take|lia].
    cbn [mbind outcome_bind]. rewrite (wrap_small 32) by (unfold fits; lia).
    destruct (IH (out ++ chunk_chars type (where_ + done_, take (Z.to_nat now) loc)) (done_ + now)
                (drop (Z.to_nat now) loc)) as (chunks & Hwr & Hok & Him).
    + by apply Forall_drop.
    + rewrite length_drop. lia.
    + lia.
    + rewrite length_drop. lia.
    + exists ((where_ + done_, take (Z.to_nat now) loc) :: chunks). split; [|split].
      * unfold chunk_chars at 1 in Hwr. cbn [fst snd] in Hwr. rewrite Hwr. cbn [fmap list_fmap concat].
        by rewrite <- app_assoc.
      * constructor; [|done]. constructor; cbn [fst snd]; [by apply Forall_take|lia|unfold fits; lia|lia].
      * unfold chunks_image in *. cbn [fmap list_fmap concat fst snd]. rewrite Him.
        replace (where_ + (done_ + now)) with (where_ + done_ + Z.of_nat (length (take (Z.to_nat now) loc))) by lia.
        by rewrite <- place_app, take_drop.
  - exists []. destruct loc; [|cbn [length] in *; lia]. split; [by rewrite app_nil_r|]. by split; [constructor|].
Qed.

Lemma clamp_len_range srec_len type :
  data_type type -> 0 <= srec_len -> 0 < clamp_len srec_len type <= 253 - type.
Proof.
  rewrite !elem_of_cons, elem_of_nil. unfold clamp_len. intros [->|[->|[->|[]]]] Hl;
    (destruct (Z.eqb_spec srec_len 0); [cbn; lia|]);
    (match goal with |- context [?a <? ?b] => destruct (Z.ltb_spec a b) end); vm_compute u32 in *; cbn in *; lia.
Qed.

(** The data at their addresses. *)
Definition data_image (l : list srec_data) : list (Z * Z) := concat ((fun d => place (sd_where d) (sd_data d)) <$> l).

Lemma write_sections_spec td l out srec_len :
  data_type (td_type td) -> Forall (entry_ok (td_type td)) l -> 0 <= srec_len ->
  exists chunks srec_len', write_sections 1 takes out srec_len td l =
      Ret (out ++ concat (chunk_chars (td_type td) <$> chunks), srec_len') /\
    Forall (chunk_ok (td_type td)) chunks /\ chunks_image chunks = data_image l.
Proof.
  intros Hty Hl. revert out srec_len. induction Hl as [|d l [Hb Hw Hend Hsz] _ IH]; intros out srec_len Hlen.
  - exists [], srec_len. split; [by rewrite app_nil_r|]. by split; [constructor|].
  - cbn [write_sections]. unfold srec_write_section.
    pose proof (clamp_len_range srec_len (td_type td) Hty Hlen) as Hc.
    destruct (write_section_loop_spec (td_type td) (sd_where d) (Z.of_nat (length (sd_data d)))
                (clamp_len srec_len (td_type td)) (S (length (sd_data d))) out 0 (sd_data d))
      as (c1 & -> & Hok1 & Him1); try done; [lia|].
    cbn [mbind outcome_bind].
    destruct (IH (out ++ concat (chunk_chars (td_type td) <$> c1)) (clamp_len srec_len (td_type td)))
      as (c2 & srec_len' & -> & Hok2 & Him2); [lia|].
    exists (c1 ++ c2), srec_len'. split; [|split].
    + by rewrite fmap_app, concat_app, <- app_assoc.
    + by apply Forall_app.
    + unfold chunks_image, data_image in *. cbn [fmap list_fmap concat]. rewrite fmap_app, concat_app, Him1, Him2.
      by rewrite Z.add_0_r.
Qed.

(** What is written. *)
Definition file_chars (filename : list Z) (table : list srec_out_symbol) (symbols : bool) (type start : Z)
    (chunks : list (Z * list Z)) : list Z :=
  (if symbols then symbols_chars filename table else []) ++ srec_chars 0 2 0 (take 40 filename) ++
  concat (chunk_chars type <$> chunks) ++ srec_chars (10 - type) (type_bytes type) start [].

Lemma write_object_spec filename td srec_len start table symbols :
  data_type (td_type td) -> Forall (entry_ok (td_type td)) (td_list td) -> 0 <= srec_len -> bytes_ok filename ->
  exists chunks srec_len',
    internal_srec_write_object_contents 1 filename takes srec_len td start table symbols =
      Ret (file_chars filename table symbols (td_type td) start chunks, srec_len') /\
    Forall (chunk_ok (td_type td)) chunks /\ chunks_image chunks = data_image (td_list td).
Proof.
  intros Hty Hl Hlen Hf. unfold internal_srec_write_object_contents.
  assert ((if symbols then srec_write_symbols filename takes [] table else Ret []) =
    Ret (if symbols then symbols_chars filename table else [])) as ->.
  { destruct symbols; [|done]. by rewrite write_symbols_spec. }
  cbn [mbind outcome_bind]. unfold srec_write_header.
  assert (Z.to_nat (if 40 <? Z.of_nat (length filename) then 40 else Z.of_nat (length filename)) =
    Nat.min 40 (length filename)) as -> by (case_match; bool_prop; lia).
  assert (take (Nat.min 40 (length filename)) filename = take 40 filename) as ->.
  { destruct (Nat.le_ge_cases 40 (length filename)); [by rewrite Nat.min_l|].
    rewrite Nat.min_r, !take_ge by lia. done. }
  rewrite (write_record_spec takes _ 0); [|done|unfold known_type; set_solver|by apply Forall_take|].
  2: { rewrite length_take. change (type_bytes 0) with 2%nat. lia. }
  cbn [mbind outcome_bind].
  destruct (write_sections_spec td (td_list td)
    ((if symbols then symbols_chars filename table else []) ++ srec_chars 0 (type_bytes 0) 0 (take 40 filename)) srec_len)
    as (chunks & srec_len' & -> & Hok & Him); [done..|].
  cbn [mbind outcome_bind]. exists chunks, srec_len'. split; [|done].
  destruct (type_bytes_end (td_type td) Hty) as [He Etb]. unfold srec_write_terminator.
  rewrite write_record_spec; [|done|by destruct (end_type_facts _ He)|constructor|].
  2: { rewrite Etb. pose proof (type_bytes_data _ Hty). cbn [length]. set_solver by lia. }
  cbn [mbind outcome_bind]. rewrite Etb. unfold file_chars. change (type_bytes 0) with 2%nat. by rewrite <- !app_assoc.
Qed.
End round.

(** ** Reading *)

Section scanning.
Context `{HexDigits}.
Context (f : srec_file).

Lemma suffix_drop (a b l : list Z) : (a ++ b) `suffix_of` l -> b `suffix_of` l.
Proof. intros Hs. etrans; [|exact Hs]. by apply suffix_app_r. Qed.

(** The records of data, one after the other. *)
Lemma holds_chunks type chunks st lineno contents n :
  data_type type -> Forall (chunk_ok type) chunks ->
  holds f st (concat (chunk_chars type <$> chunks) ++ n) contents ->
  (concat (chunk_chars type <$> chunks) ++ n) `suffix_of` sf_bytes f ->
  exists st' lineno' contents',
    scans f st lineno (concat (chunk_chars type <$> chunks) ++ n) st' lineno' n /\ holds f st' n contents' /\
    spread (ss_sections st') contents' = spread (ss_sections st) contents ++ chunks_image chunks /\
    ss_start st' = ss_start st /\ ss_symbols st' = ss_symbols st.
Proof.
  intros Hty Hc. revert st lineno contents.
  induction Hc as [|[a d] chunks [Hb Hl Ha Hend] _ IH]; intros st lineno contents Hh Hs.
  - exists st, lineno, contents. split; [apply scans_refl|]. split; [done|]. by rewrite app_nil_r.
  - cbn [fmap list_fmap concat] in *. change (chunk_chars type (a, d)) with (srec_chars type (type_bytes type) a d) in *.
    cbn [fst snd] in *. rewrite <- app_assoc in *.
    destruct (holds_record f st lineno _ contents type a d _ Hh Hs eq_refl) as (st1 & cs1 & Hsc1 & Hh1 & Hsp1 & Hst1 & Hsy1 & _);
      [done..|].
    destruct (IH st1 (u32 (lineno + 1)) cs1 Hh1 (suffix_drop _ _ _ Hs)) as (st2 & l2 & cs2 & Hsc2 & Hh2 & Hsp2 & Hst2 & Hsy2).
    exists st2, l2, cs2. split; [by eapply scans_trans|]. split; [done|]. rewrite Hsp2, Hsp1, Hst2, Hsy2.
    unfold chunks_image. cbn [fmap list_fmap concat fst snd]. by rewrite <- app_assoc.
Qed.

(** At the last record every section is complete. *)
Lemma holds_end st type a rest contents :
  end_type type -> holds f st (srec_chars type (type_bytes type) a [] ++ rest) contents ->
  Forall2 (reads f) (ss_sections st) contents.
Proof.
  intros Ht. unfold holds. destruct (ss_sec st).
  - intros (secs & sec & cs & bs & -> & -> & Hall & Ho & Hsz & _). apply Forall2_app; [done|]. constructor; [|done].
    eapply opens_stops; [exact Ho|done|]. intros fuel. unfold srec_chars. cbn [app]. rewrite <- app_assoc.
    by apply read_loop_end.
  - intros [-> ->]. constructor.
Qed.

(** Scanning a whole file. *)
Lemma scan_file filename table symbols type start chunks :
  sf_bytes f = file_chars filename table symbols type start chunks ->
  data_type type -> fits (8 * Z.of_nat (type_bytes type)) start -> Forall (chunk_ok type) chunks ->
  (symbols = true -> Forall (fun c => is_byte c /\ c <> 10) filename) ->
  (symbols = true -> Forall (fun y => name_ok (sy_name y) /\ fits 64 (sy_val y)) (omap out_symbol table)) ->
  exists st contents, srec_scan f = Ret st /\ ss_start st = start /\
    ss_symbols st = (if symbols then omap out_symbol table else []) /\
    Forall2 (reads f) (ss_sections st) contents /\ spread (ss_sections st) contents = chunks_image chunks.
Proof.
  intros Hf Hty Hstart Hc Hfn Hsy. destruct (type_bytes_end type Hty) as [He Etb].
  set (last_record := srec_chars (10 - type) (type_bytes type) start []) in *.
  set (data := concat (chunk_chars type <$> chunks)) in *.
  set (header := srec_chars 0 2 0 (take 40 filename)) in *.
  assert (exists st0 l0, scans f srec_initial 1 (sf_bytes f) st0 l0 (data ++ last_record) /\
    st0 = mkSrec 0 [] (if symbols then omap out_symbol table else []) false) as (st0 & l0 & Hsc0 & E0).
  { assert (exists l0, scans f srec_initial 1 (sf_bytes f)
      (mkSrec 0 [] (if symbols then omap out_symbol table else []) false) l0 (header ++ data ++ last_record)) as [l1 H1].
    { rewrite Hf. unfold file_chars. destruct symbols; [|exists 1; apply scans_refl].
      by apply (scans_symbols_chars f srec_initial 1); auto. }
    eexists _, (u32 (l1 + 1)). split; [|done]. eapply scans_trans; [exact H1|]. apply scans_record.
    rewrite scan_header_record; [done|]. rewrite length_take. lia. }
  assert (holds f st0 (data ++ last_record) []) as Hh0 by (by rewrite E0).
  destruct (holds_chunks type chunks st0 l0 [] last_record Hty Hc Hh0) as (st1 & l1 & cs & Hsc1 & Hh1 & Hsp & Hst & Hsym).
  { rewrite Hf. unfold file_chars. fold header data last_record. by do 2 apply suffix_app_r. }
  exists (set_start start st1), cs. rewrite E0 in Hsym, Hsp. cbn [ss_symbols ss_sections] in Hsym, Hsp.
  split; [|split_and!; [done|done| |done]].
  - destruct (scans_trans _ _ _ _ _ _ _ _ _ _ Hsc0 Hsc1) as (k & Hk & Hrun). unfold srec_scan.
    replace (S (length (sf_bytes f))) with (k + S (length (sf_bytes f) - k))%nat by lia. rewrite Hrun.
    subst last_record. unfold srec_chars. rewrite <- Etb. cbn [srec_scan_loop app]. change (83 .& 0xff) with 83. cbn [Z.eqb Pos.eqb].
    rewrite scan_end_record by (by rewrite ?Etb). done.
  - rewrite <- (app_nil_r last_record) in Hh1. subst last_record. rewrite <- Etb in Hh1. by eapply holds_end.
Qed.
End scanning.

(** ** The round trip *)

(** The target that recognises what was written. *)
Definition written_object_p `{HexDigits} (symbols : bool) (table : list srec_out_symbol) (f : srec_file) : srec srec_state :=
  if symbols && negb (bool_decide (table = [])) then symbolsrec_object_p f else srec_object_p f.

Lemma written_object_p_scan `{HexDigits} f filename table symbols type start chunks :
  sf_bytes f = file_chars filename table symbols type start chunks ->
  written_object_p symbols table f = srec_scan f.
Proof.
  intros Hf. unfold written_object_p.
  assert (symbols && negb (bool_decide (table = [])) = false ->
    exists l, sf_bytes f = (83 :: 48 :: TOHEX (1 + Z.of_nat (length (be 2 0 ++ take 40 filename)))) ++ l) as Hhead.
  { intros E. assert ((if symbols then symbols_chars filename table else []) = []) as E0.
    { destruct symbols; [|done]. unfold symbols_chars. cbn [andb] in E. by case_bool_decide. }
    rewrite Hf. unfold file_chars. rewrite E0. unfold srec_chars at 1, record_rest. by eexists. }
  destruct (symbols && negb (bool_decide (table = []))) eqn:E.
  - apply andb_true_iff in E as [-> Ht]. unfold symbolsrec_object_p. rewrite Hf. unfold file_chars, symbols_chars at 1.
    destruct (bool_decide (table = [])); [done|]. rewrite <- !app_assoc.
    change 2 with (Z.of_nat (length [36; 36])). change ([36; 36; 32] ++ ?l) with ([36; 36] ++ 32 :: l).
    by rewrite read_chars_app.
  - destruct (Hhead eq_refl) as [l El]. unfold srec_object_p. rewrite El.
    set (v := 1 + Z.of_nat (length (be 2 0 ++ take 40 filename))) in *.
    assert (is_byte v) as Hv by (subst v; rewrite length_app, length_take, be_length; unfold fits; lia).
    change 4 with (Z.of_nat (length (83 :: 48 :: TOHEX v))). rewrite read_chars_app. cbn [mbind outcome_bind].
    destruct (TOHEX_hexes v Hv) as (d1 & d2 & -> & H1 & H2). cbn [drop head forallb].
    pose proof (hex_p_digs 0 ltac:(lia)) as H0. change (digs 0) with 48 in H0. rewrite H0, H1, H2. done.
Qed.

(** C4: On a target whose bytes are octets: whatever contents are set, in any order
    and of whatever sections, in pieces shorter than 2^32 octets at addresses of 32
    bits, with a start address the chosen kind of record can hold, the file is
    written without failure and is recognised; scanning it gives the start address,
    the symbols that are neither local nor for debugging, and sections from which
    the reader takes the same bytes at the same addresses.  When symbols are
    written the name of the file has no newline, and their names are not empty and
    have no white space.  (With two octets to a byte it fails:
    SrecLimits.wide_bytes_overlap.) *)
Theorem srec_roundtrip `{HexDigits} forceS3 calls srec_len filename takes table symbols start :
  (forall out bs, takes out bs = true) -> Forall call_ok calls -> 0 <= srec_len -> bytes_ok filename ->
  (symbols = true -> 10 ∉ filename /\
    Forall (fun y => name_ok (sy_name y) /\ fits 64 (sy_val y)) (omap out_symbol table)) ->
  let td := foldl (set_contents forceS3) srec_mkobject calls in
  fits (8 * (td_type td + 1)) start ->
  exists out srec_len' st contents,
    internal_srec_write_object_contents 1 filename takes srec_len td start table symbols = Ret (out, srec_len') /\
    written_object_p symbols table (mkSrecFile out false) = Ret st /\
    ss_start st = start /\ ss_symbols st = (if symbols then omap out_symbol table else []) /\
    Forall2 (fun sec bs => srec_read_section (mkSrecFile out false) sec = (bs, Ret tt)) (ss_sections st) contents /\
    spread (ss_sections st) contents = data_image (td_list td) /\
    td_list td ≡ₚ omap call_entry calls /\ StronglySorted where_before (td_list td).
Proof.
  intros Ht Hcalls Hlen Hfn Hsy td Hstart. destruct (contents_ok forceS3 calls Hcalls) as [Hty He Hs Hp]. fold td in Hty, He, Hs, Hp.
  destruct (write_object_spec takes Ht filename td srec_len start table symbols Hty He Hlen Hfn)
    as (chunks & srec_len' & Hw & Hok & Him).
  set (out := file_chars filename table symbols (td_type td) start chunks) in *.
  destruct (scan_file (mkSrecFile out false) filename table symbols (td_type td) start chunks) as (st & cs & Hsc & E1 & E2 & E3 & E4).
  - done.
  - done.
  - by rewrite type_bytes_data.
  - done.
  - intros Es. destruct (Hsy Es) as [Hn _]. apply Forall_forall. rewrite Forall_forall in Hfn.
    intros c Hc. split; [by apply Hfn|]. by intros ->.
  - intros Es. by destruct (Hsy Es).
  - exists out, srec_len', st, cs. split; [done|]. split; [by erewrite written_object_p_scan|].
    split; [done|]. split; [done|]. split; [done|]. by rewrite E4.
Qed.

(** ** A concrete file *)

Definition loaded (lma : Z) : asection := mkSection 1 (SEC_ALLOC .| SEC_LOAD) lma lma 0 0.

Lemma srec_roundtrip_witness :
  let calls := [mkCall (loaded 0x1fffe) [1; 2; 3] 0; mkCall (loaded 0x10) [7] 1; mkCall (loaded 0x20001) [4] 0] in
  let table := [mkOutSymbol [102; 111; 111] false 0 0xabc (Some (0x10, 1)); mkOutSymbol [46; 76] true 0 1 (Some (0, 0))] in
  let td := foldl (set_contents false) srec_mkobject calls in
  exists out srec_len' st contents,
    internal_srec_write_object_contents 1 [97; 46; 111] (fun _ _ => true) 16 td 0x20000 table true = Ret (out, srec_len') /\
    symbolsrec_object_p (mkSrecFile out false) = Ret st /\ ss_start st = 0x20000 /\
    ss_symbols st = [mkSrecSymbol [102; 111; 111] 0xacd] /\
    spread (ss_sections st) contents = [(0x11, 7); (0x1fffe, 1); (0x1ffff, 2); (0x20000, 3); (0x20001, 4)].
Proof.
  intros calls table td.
  destruct (srec_roundtrip false calls 16 [97; 46; 111] (fun _ _ => true) table true 0x20000)
    as (out & l & st & cs & H1 & H2 & H3 & H4 & _ & H5 & _).
  - done.
  - repeat constructor; cbn; unfold fits; lia.
  - lia.
  - repeat constructor; unfold fits; lia.
  - intros _. split; [by apply (bool_decide_unpack _)|]. repeat constructor; unfold fits; cbn; lia || done.
  - vm_compute. by split.
  - exists out, l, st, cs. split; [exact H1|]. split; [exact H2|]. split; [exact H3|]. split; [exact H4|exact H5].
Defined.
