(* ===== verification/SrecSafe.v ===== *)
(** Any file at all: the scanner of S-records ends without reading outside its
    buffers, and reading a section that it made stays within the contents of the
    section. *)

From S2P Require Import Prelude Linker Decimal Hex Ihex IhexScan Srec SrecScan SrecRead SrecRound.

Section safe.
Context `{HexDigits}.
Context (f : srec_file).

(** ** Reading digits *)

Lemma read_chars_inv n rest a b :
  0 <= n -> read_chars f n rest = Ret (a, b) -> rest = a ++ b /\ Z.of_nat (length a) = n.
Proof.
  intros Hn. unfold read_chars, end_of_file. case_match; [|done]. bool_prop. intros [= <- <-]. rewrite take_drop.
  split; [done|]. rewrite length_take. lia.
Qed.

Lemma read_chars_defined n rest : read_chars f n rest <> Undef.
Proof. unfold read_chars, end_of_file. by case_match. Qed.

Lemma HEX_some data : (2 <= length data)%nat -> exists x, HEX data = Ret (x, drop 2 data).
Proof.
  intros Hl. destruct data as [|a [|b data]]; cbn in Hl; [lia..|]. by eexists.
Qed.

Lemma lor_fits w a b : fits w a -> fits w b -> fits w (a .| b).
Proof.
  unfold fits. intros [Ha1 Ha2] [Hb1 Hb2]. split; [by apply Z.lor_nonneg|].
  destruct (Z.eq_dec (a .| b) 0) as [->|Hne]; [lia|].
  assert (0 <= a .| b) by (by apply Z.lor_nonneg). apply Z.log2_lt_pow2; [lia|]. rewrite Z.log2_lor by done.
  destruct (Z.eq_dec a 0) as [->|]; destruct (Z.eq_dec b 0) as [->|]; [done|..];
    rewrite ?Z.log2_nonpos with (n := 0) by lia.
  - assert (Z.log2 b < w) by (apply Z.log2_lt_pow2; lia). pose proof (Z.log2_nonneg b). lia.
  - assert (Z.log2 a < w) by (apply Z.log2_lt_pow2; lia). pose proof (Z.log2_nonneg a). lia.
  - assert (Z.log2 a < w) by (apply Z.log2_lt_pow2; lia). assert (Z.log2 b < w) by (apply Z.log2_lt_pow2; lia). lia.
Qed.

Lemma HEX_fits data x rest : HEX data = Ret (x, rest) -> fits 64 x.
Proof.
  unfold HEX, HEX2. destruct (data !! 0%nat) as [a|]; [|done]. destruct (data !! (0 + 1)%nat) as [b|]; [|done].
  cbn [mbind option_bind of_opt outcome_bind]. intros [= <- _].
  pose proof (wrap_fits 32 (u32 (NIBBLE a .<< 4) + NIBBLE b) ltac:(lia)) as Hw. unfold fits in *. lia.
Qed.

Lemma read_address_some n a data :
  (2 * n <= length data)%nat -> fits 64 a ->
  exists a', fits 64 a' /\ forall cs, exists cs', read_address n cs a data = Ret (cs', a', drop (2 * n) data).
Proof.
  revert a data. induction n as [|n IH]; intros a data Hl Hf; [exists a; split; [done|]; intros cs'; by eexists|].
  destruct (HEX_some data ltac:(lia)) as [x Hx]. pose proof (HEX_fits _ _ _ Hx) as Hxf.
  destruct (IH (u64 (a .<< 8) .| x) (drop 2 data)) as (a' & Haf & Ha');
    [rewrite length_drop; lia|apply lor_fits; [apply wrap_fits; lia|done]|].
  exists a'. split; [done|]. intros cs1. cbn [read_address]. rewrite Hx. cbn [mbind outcome_bind].
  destruct (Ha' (u8 (cs1 + x))) as [cs' ->]. exists cs'. rewrite drop_drop. do 2 f_equal. f_equal. lia.
Qed.

Lemma sum_data_some n cs data :
  (2 * n <= length data)%nat -> exists cs', sum_data n cs data = Ret (cs', drop (2 * n) data).
Proof.
  revert cs data. induction n as [|n IH]; intros cs data Hl; [by eexists|].
  destruct (HEX_some data ltac:(lia)) as [x Hx]. cbn [sum_data]. rewrite Hx. cbn [mbind outcome_bind].
  destruct (IH (u8 (cs + x)) (drop 2 data)) as [cs' ->]; [rewrite length_drop; lia|].
  exists cs'. rewrite drop_drop. do 2 f_equal. f_equal. lia.
Qed.

Lemma read_data_some n data : (2 * n <= length data)%nat -> exists new, read_data n data = Ret new /\ length new = n.
Proof.
  revert data. induction n as [|n IH]; intros data Hl; [by exists []|].
  destruct (HEX_some data ltac:(lia)) as [x Hx]. cbn [read_data]. rewrite Hx. cbn [mbind outcome_bind].
  destruct (IH (drop 2 data)) as (new & -> & Hn); [rewrite length_drop; lia|].
  exists (u8 x :: new). split; [done|]. cbn. lia.
Qed.

Lemma check_checksum_defined lineno cs data :
  (2 <= length data)%nat -> check_checksum lineno cs data <> Undef.
Proof.
  intros Hl. unfold check_checksum. destruct (HEX_some data Hl) as [x ->]. cbn [mbind outcome_bind].
  by destruct (255 - (cs .& 0xff) =? x).
Qed.

(** ** A record of any kind *)

(** The parts of a record behind its S. *)
Record parts (rest hdr buf rest' : list Z) (type bytes : Z) : Prop := {
  pt_rest : rest = hdr ++ buf ++ rest';
  pt_hdr : length hdr = 3%nat;
  pt_type : hdr !! 0%nat = Some type;
  pt_bytes : HEX (drop 1 hdr) = Ret (bytes, []);
  pt_range : min_bytes type <= bytes < 256;
  pt_buf : Z.of_nat (length buf) = bytes * 2
}.

(** The address in the buffer. *)
Definition spells (n : nat) (buf : list Z) (a : Z) : Prop :=
  forall cs, exists cs', read_address n cs 0 buf = Ret (cs', a, drop (2 * n) buf).

(** What the scanner makes of a record of the type. *)
Inductive outcome_of (st : srec_state) (pos : nat) (type bytes : Z) (buf : list Z) : srec_state -> bool -> Prop :=
| of_prologue : data_address type = None -> outcome_of st pos type bytes buf (set_sec false st) false
| of_data n a : data_address type = Some n -> spells n buf a -> fits 64 a ->
    outcome_of st pos type bytes buf (srec_extend st pos a (bytes - 1 - Z.of_nat n)) false
| of_end a : data_address type = None -> outcome_of st pos type bytes buf (set_start a st) true
| of_unknown : data_address type = None -> outcome_of st pos type bytes buf st false.

Lemma data_min type n : data_address type = Some n -> min_bytes type = Z.of_nat n + 1 /\ (type =? 48) || (type =? 53) = false.
Proof.
  unfold data_address, min_bytes. intros E.
  destruct (Z.eqb_spec type 51) as [->|]; [by injection E as <-|].
  destruct (Z.eqb_spec type 50) as [->|]; [by injection E as <-|].
  destruct (Z.eqb_spec type 49) as [->|]; [by injection E as <-|done].
Qed.

Lemma min_bytes_pos type : 3 <= min_bytes type.
Proof. unfold min_bytes. repeat case_match; lia. Qed.

Lemma end_min type n : end_address type = Some n -> data_address type = None -> min_bytes type = Z.of_nat n + 1.
Proof.
  unfold end_address, min_bytes. intros E _.
  destruct (Z.eqb_spec type 55) as [->|]; [by injection E as <-|].
  destruct (Z.eqb_spec type 56) as [->|]; [by injection E as <-|].
  destruct (Z.eqb_spec type 57) as [->|]; [by injection E as <-|done].
Qed.

Lemma front_inv hdr d1 d2 type :
  length hdr = 3%nat -> hdr !! 0%nat = Some type -> hdr !! 1%nat = Some d1 -> hdr !! 2%nat = Some d2 ->
  hex_p d1 = true -> hex_p d2 = true -> exists bytes, HEX (drop 1 hdr) = Ret (bytes, []) /\ 0 <= bytes < 256.
Proof.
  intros Hl H0 H1 H2 Hp1 Hp2. destruct hdr as [|t [|d1' [|d2' [|]]]]; try done. injection H0 as ->. injection H1 as ->. injection H2 as ->.
  exists (hex_byte d1 d2). unfold HEX. change (drop 1 [type; d1; d2]) with [d1; d2]. rewrite (HEX2_spec _ 0 d1 d2) by done. split; [done|].
  by apply hex_byte_range.
Qed.

Lemma scan_record_cases st lineno pos rest :
  srec_scan_record f st lineno pos rest <> Undef /\
  forall st' ended rest', srec_scan_record f st lineno pos rest = Ret (st', ended, rest') ->
    exists hdr buf type bytes, parts rest hdr buf rest' type bytes /\ outcome_of st pos type bytes buf st' ended.
Proof.
  unfold srec_scan_record. destruct (read_chars f 3 rest) as [[hdr rest1]| |] eqn:Eh; [|by split|by apply read_chars_defined in Eh].
  apply read_chars_inv in Eh as [-> Hl]; [|lia]. cbn [mbind outcome_bind].
  destruct hdr as [|t [|d1 [|d2 [|]]]]; cbn [length] in Hl; try lia. clear Hl.
  cbn [lookup list_lookup of_opt mbind outcome_bind].
  destruct (hex_p d1) eqn:Hp1; [|by split]. cbn [ensure mbind outcome_bind].
  destruct (hex_p d2) eqn:Hp2; [|by split]. cbn [ensure mbind outcome_bind].
  destruct (front_inv [t; d1; d2] d1 d2 t) as (bytes & Hb & Hr); [done..|]. rewrite Hb. cbn [mbind outcome_bind].
  destruct (Z.leb_spec (min_bytes t) bytes) as [Hmin|]; [|by split]. cbn [ensure mbind outcome_bind].
  destruct (read_chars f (bytes * 2) rest1) as [[buf rest2]| |] eqn:Eb; [|by split|by apply read_chars_defined in Eb].
  apply read_chars_inv in Eb as [-> Hbl]; [|lia]. cbn [mbind outcome_bind].
  assert (forall st' ended rest', outcome_of st pos t bytes buf st' ended -> rest' = rest2 ->
    exists hdr buf' type bytes', parts ([t; d1; d2] ++ buf ++ rest2) hdr buf' rest' type bytes' /\
      outcome_of st pos type bytes' buf' st' ended) as Hdone.
  { intros st' ended rest' Ho ->. exists [t; d1; d2], buf, t, bytes. split; [constructor; try done; lia|done]. }
  destruct ((t =? 48) || (t =? 53)) eqn:Ep.
  { split; [done|]. intros st' ended rest' [= <- <- <-]. apply Hdone; [|done]. apply of_prologue.
    apply orb_true_iff in Ep as [->%Z.eqb_eq| ->%Z.eqb_eq]; done. }
  destruct (data_address t) as [n|] eqn:Ed.
  - destruct (data_min t n Ed) as [Em _]. destruct (read_address_some n 0 buf ltac:(lia) ltac:(done)) as (a & Haf & Ha).
    destruct (Ha (u8 bytes)) as [cs ->]. cbn [mbind outcome_bind].
    destruct (sum_data_some (Z.to_nat (bytes - 1 - Z.of_nat n)) cs (drop (2 * n) buf)) as [cs' ->]; [rewrite length_drop; lia|].
    cbn [mbind outcome_bind]. rewrite drop_drop.
    match goal with |- context [check_checksum ?l ?c ?d] => destruct (check_checksum l c d) eqn:Ec end;
      [|by split|apply check_checksum_defined in Ec; [done|rewrite length_drop; lia]].
    split; [done|]. intros st' ended rest' [= <- <- <-]. apply Hdone; [by apply of_data|done].
  - destruct (end_address t) as [n|] eqn:Ee; [|split; [done|]; intros st' ended rest' [= <- <- <-]; apply Hdone; [by apply of_unknown|done]].
    pose proof (end_min t n Ee Ed) as Em. destruct (read_address_some n 0 buf ltac:(lia) ltac:(done)) as (a & Haf & Ha).
    destruct (Ha (u8 bytes)) as [cs ->]. cbn [mbind outcome_bind].
    match goal with |- context [check_checksum ?l ?c ?d] => destruct (check_checksum l c d) eqn:Ec end;
      [|by split|apply check_checksum_defined in Ec; [done|rewrite length_drop; lia]].
    split; [done|]. intros st' ended rest' [= <- <- <-]. apply Hdone; [by apply of_end|done].
Qed.
(** ** The reader on a record *)

Lemma read_front fuel sec bs c rest hdr buf rest' type bytes :
  c .& 0xff = 83 -> parts rest hdr buf rest' type bytes ->
  srec_read_loop f (S fuel) sec bs (c :: rest) =
  match data_address type with
  | None => (bs, complete sec bs)
  | Some n =>
      match read_address n 0 0 buf with
      | Fail e => (bs, Fail e)
      | Undef => (bs, Undef)
      | Ret (_, address, data) =>
          if negb (address =? u64 (sec_vma sec + Z.of_nat (length bs))) then (bs, complete sec bs)
          else if bytes - Z.of_nat n - 1 <? 0 then (bs, Undef)
          else
            match read_data (Z.to_nat (bytes - Z.of_nat n - 1)) data with
            | Fail e => (bs, Fail e)
            | Undef => (bs, Undef)
            | Ret new =>
                if sec_size sec <? Z.of_nat (length bs) + Z.of_nat (length new) then (bs, Undef)
                else srec_read_loop f fuel sec (bs ++ new) rest'
            end
      end
  end.
Proof.
  intros Hc [-> Hl Ht Hb Hr Hbl]. cbn [srec_read_loop]. rewrite Hc. cbn [Z.eqb Pos.eqb orb negb].
  change 3 with (Z.of_nat 3). rewrite <- Hl, read_chars_app. cbn [mbind outcome_bind]. rewrite Ht. cbn [of_opt mbind outcome_bind].
  rewrite Hb. cbn [mbind outcome_bind]. pose proof (min_bytes_pos type) as Hp.
  rewrite wrap_small by (unfold fits; lia). rewrite <- Hbl, read_chars_app. done.
Qed.

Lemma read_data_step c rest hdr buf rest' type bytes n a :
  c .& 0xff = 83 -> parts rest hdr buf rest' type bytes -> data_address type = Some n -> spells n buf a ->
  exists new, Z.of_nat (length new) = bytes - 1 - Z.of_nat n /\ forall fuel sec bs,
    srec_read_loop f (S fuel) sec bs (c :: rest) =
    if negb (a =? u64 (sec_vma sec + Z.of_nat (length bs))) then (bs, complete sec bs)
    else if sec_size sec <? Z.of_nat (length bs) + Z.of_nat (length new) then (bs, Undef)
    else srec_read_loop f fuel sec (bs ++ new) rest'.
Proof.
  intros Hc Hp Hd Ha. destruct (data_min type n Hd) as [Hm _]. pose proof (pt_range _ _ _ _ _ _ Hp) as Hr.
  pose proof (pt_buf _ _ _ _ _ _ Hp) as Hbl. destruct (Ha 0) as [cs Hcs].
  destruct (read_data_some (Z.to_nat (bytes - Z.of_nat n - 1)) (drop (2 * n) buf)) as (new & Hn & Hnl); [rewrite length_drop; lia|].
  exists new. split; [lia|]. intros fuel sec bs. rewrite (read_front _ _ _ _ _ _ _ _ _ _ Hc Hp), Hd, Hcs.
  destruct (a =? _); [|done]. cbn [negb]. destruct (Z.ltb_spec (bytes - Z.of_nat n - 1) 0); [lia|]. by rewrite Hn.
Qed.

(** ** Sections *)

(** Reading stays within the section. *)
Definition within (sec : asection) (r : list Z * srec unit) : Prop :=
  snd r <> Undef /\ Z.of_nat (length (fst r)) <= sec_size sec.

(** Reading from [p] at the address [v] stays within any section of [n] bytes or
    more. *)
Definition safe (p : nat) (v n : Z) : Prop :=
  forall sec, sec_filepos sec = p -> sec_vma sec = v -> n <= sec_size sec -> within sec (srec_read_section f sec).

Definition closed (sec : asection) : Prop := safe (sec_filepos sec) (sec_vma sec) (sec_size sec).

(** The section being built: the reader gets as far as the scanner, or stops
    before. *)
Definition growing (p : nat) (v n : Z) (rest : list Z) : Prop :=
  (exists bs, Z.of_nat (length bs) = n /\ opens f p v rest bs) \/ safe p v n.

Lemma complete_within sec bs : Z.of_nat (length bs) <= sec_size sec -> within sec (bs, complete sec bs).
Proof. intros Hl. split; [|done]. unfold complete. cbn. by destruct (_ =? _). Qed.

Lemma fail_within sec bs e : Z.of_nat (length bs) <= sec_size sec -> within sec (bs, Fail e).
Proof. by split. Qed.

Lemma growing_ends p v n rest :
  growing p v n rest ->
  (forall sec bs fuel, sec_vma sec = v -> Z.of_nat (length bs) = n -> n <= sec_size sec ->
     within sec (srec_read_loop f (S fuel) sec bs rest)) -> safe p v n.
Proof.
  intros [(bs & Hn & k & Hk & Ho)|Hs] Hend; [|done]. intros sec Hp Hv Hsz. unfold srec_read_section.
  replace (S (length (sf_bytes f))) with (k + S (length (sf_bytes f) - k))%nat by lia.
  rewrite Hp, Ho by (done || lia). by apply Hend.
Qed.

(** What the scanner has done when [rest] is left. *)
Definition scanned (st : srec_state) (rest : list Z) : Prop :=
  if ss_sec st then
    exists secs sec, ss_sections st = secs ++ [sec] /\ Forall closed secs /\
      growing (sec_filepos sec) (sec_vma sec) (sec_size sec) rest /\
      0 <= sec_size sec /\ sec_size sec + Z.of_nat (length rest) <= Z.of_nat (length (sf_bytes f))
  else Forall closed (ss_sections st).

(** Wherever the reader stops, the section is done. *)
Lemma scanned_closes st rest :
  scanned st rest ->
  (forall sec bs fuel secs, ss_sec st = true -> ss_sections st = secs ++ [sec] -> Z.of_nat (length bs) = sec_size sec ->
     forall sec', sec_vma sec' = sec_vma sec -> sec_size sec <= sec_size sec' ->
     within sec' (srec_read_loop f (S fuel) sec' bs rest)) ->
  Forall closed (ss_sections st).
Proof.
  unfold scanned. destruct (ss_sec st) eqn:Es; [|done]. intros (secs & sec & E & Hall & Hg & _) Hend. rewrite E.
  apply Forall_app. split; [done|]. constructor; [|done]. eapply growing_ends; [exact Hg|].
  intros sec' bs fuel Hv Hn Hsz. by eapply (Hend sec bs fuel secs).
Qed.

Lemma scanned_newline st c rest :
  scanned st (c :: rest) -> (c .& 0xff =? 13) || (c .& 0xff =? 10) = true -> scanned st rest.
Proof.
  unfold scanned. destruct (ss_sec st); [|done]. intros (secs & sec & E & Hall & Hg & H0 & Hsz) Hc.
  exists secs, sec. split; [done|]. split; [done|]. cbn [length] in Hsz. split; [|lia].
  destruct Hg as [(bs & Hn & k & Hk & Ho)|Hs]; [|by right]. left. exists bs. split; [done|].
  exists (S k). cbn [length] in Hk. split; [lia|]. intros s Hp Hv Hl fuel.
  replace (S k + fuel)%nat with (k + S fuel)%nat by lia. rewrite Ho by done. cbn [srec_read_loop]. by rewrite Hc.
Qed.

Context (Hfile : Z.of_nat (length (sf_bytes f)) < 2 ^ 64).

Lemma parts_length rest hdr buf rest' type bytes :
  parts rest hdr buf rest' type bytes -> Z.of_nat (length rest) = 3 + 2 * bytes + Z.of_nat (length rest').
Proof. intros [-> Hl _ _ _ Hb]. rewrite !length_app, Hl. lia. Qed.

Lemma parts_suffix rest hdr buf rest' type bytes : parts rest hdr buf rest' type bytes -> rest' `suffix_of` rest.
Proof. intros [-> _ _ _ _ _]. rewrite app_assoc. by exists (hdr ++ buf). Qed.

(** The reader does not go on behind a record of another kind. *)
Lemma scanned_no_data st c rest hdr buf rest' type bytes :
  scanned st (c :: rest) -> c .& 0xff = 83 -> parts rest hdr buf rest' type bytes -> data_address type = None ->
  Forall closed (ss_sections st) /\ scanned st rest'.
Proof.
  intros Hs Hc Hp Hd. pose proof (parts_length _ _ _ _ _ _ Hp) as Hl.
  assert (forall sec bs fuel, Z.of_nat (length bs) <= sec_size sec ->
    within sec (srec_read_loop f (S fuel) sec bs (c :: rest))) as Hstop.
  { intros sec bs fuel Hb. rewrite (read_front _ _ _ _ _ _ _ _ _ _ Hc Hp), Hd. by apply complete_within. }
  split; [eapply scanned_closes; [exact Hs|]; intros; apply Hstop; lia|].
  unfold scanned in *. destruct (ss_sec st); [|done]. destruct Hs as (secs & sec & E & Hall & Hg & H0 & Hsz).
  exists secs, sec. split; [done|]. split; [done|]. cbn [length] in Hsz. pose proof (pt_range _ _ _ _ _ _ Hp) as Hr.
  pose proof (min_bytes_pos type). split; [|lia]. right. eapply growing_ends; [exact Hg|].
  intros sec' bs fuel Hv Hn Hs'. apply Hstop. lia.
Qed.

Lemma grows p v c rest hdr buf rest' type bytes n a size :
  growing p v size (c :: rest) -> c .& 0xff = 83 -> parts rest hdr buf rest' type bytes ->
  data_address type = Some n -> spells n buf a -> u64 (v + size) = a ->
  growing p v (size + (bytes - 1 - Z.of_nat n)) rest'.
Proof.
  intros Hg Hc Hp Hd Ha Ea. destruct (data_min type n Hd) as [Hm _]. pose proof (pt_range _ _ _ _ _ _ Hp) as Hr.
  pose proof (parts_length _ _ _ _ _ _ Hp) as Hlen.
  destruct Hg as [(bs & Hn & k & Hk & Ho)|Hs].
  - destruct (read_data_step c rest hdr buf rest' type bytes n a Hc Hp Hd Ha) as (new & Hnew & Hstep).
    left. exists (bs ++ new). split; [rewrite length_app; lia|]. exists (S k).
    cbn [length] in Hk. split; [lia|]. intros sec Hps Hv Hl fuel.
    replace (S k + fuel)%nat with (k + S fuel)%nat by lia. rewrite length_app in Hl. rewrite Ho by (done || lia).
    rewrite Hstep, Hv, Hn, Ea, Z.eqb_refl. cbn [negb].
    destruct (Z.ltb_spec (sec_size sec) (size + Z.of_nat (length new))); [lia|done].
  - right. intros sec Hps Hv Hl. apply Hs; [done..|lia].
Qed.

(** A record of data. *)
Lemma scanned_data_record st c rest hdr buf rest' type bytes n a :
  scanned st (c :: rest) -> (c :: rest) `suffix_of` sf_bytes f -> c .& 0xff = 83 ->
  parts rest hdr buf rest' type bytes -> data_address type = Some n -> spells n buf a -> fits 64 a ->
  scanned (srec_extend st (tell f rest - 1) a (bytes - 1 - Z.of_nat n)) rest'.
Proof.
  intros Hs Hsuf Hc Hp Hd Ha Haf. destruct (data_min type n Hd) as [Hm _].
  pose proof (pt_range _ _ _ _ _ _ Hp) as Hr. pose proof (parts_length _ _ _ _ _ _ Hp) as Hlen.
  set (pos := (tell f rest - 1)%nat). set (m := bytes - 1 - Z.of_nat n).
  assert (pos = length (sf_bytes f) - length (c :: rest))%nat as Epos.
  { unfold pos, tell. cbn [length]. lia. }
  destruct Hsuf as [pre Hpre]. rewrite Hpre, length_app in Epos.
  replace (length pre + length (c :: rest) - length (c :: rest))%nat with (length pre) in Epos by lia.
  assert (Z.of_nat (length (c :: rest)) <= Z.of_nat (length (sf_bytes f))) as Hle by (rewrite Hpre, length_app; lia).
  cbn [length] in Hle.
  assert (growing pos a m rest') as Hfresh.
  { replace m with (0 + m) by lia. apply (grows pos a c rest hdr buf rest' type bytes n a 0); try done.
    - left. exists []. split; [done|]. exists 0%nat. split; [cbn [length]; lia|].
      intros sec Hps Hv _ fuel. by rewrite Hpre, Epos, drop_app_length.
    - rewrite Z.add_0_r. by apply wrap_small. }
  assert ((forall secs sec, ss_sec st = true -> ss_sections st = secs ++ [sec] -> u64 (sec_vma sec + sec_size sec) <> a) ->
    scanned (srec_extend st pos a m) rest') as Hnew.
  { intros Hne. rewrite extend_fresh by done. unfold scanned. cbn [ss_sec ss_sections].
    eexists _, _. split; [done|]. cbn [fresh sec_filepos sec_vma sec_size]. split; [|split; [done|subst m; lia]].
    eapply scanned_closes; [exact Hs|]. intros sec bs fuel secs Es E Hb sec' Hv Hsz.
    destruct (read_data_step c rest hdr buf rest' type bytes n a Hc Hp Hd Ha) as (new & Hnew & Hstep).
    rewrite Hstep. destruct (Z.eqb_spec a (u64 (sec_vma sec' + Z.of_nat (length bs)))) as [E'|]; [|apply complete_within; lia].
    exfalso. apply (Hne secs sec Es E). by rewrite E', Hv, Hb. }
  destruct (ss_sec st) eqn:Es; [|apply Hnew; intros ?? [=]].
  unfold scanned in Hs. rewrite Es in Hs. destruct Hs as (secs & sec & E & Hall & Hg & H0 & Hsz). cbn [length] in Hsz.
  destruct (Z.eq_dec (u64 (sec_vma sec + sec_size sec)) a) as [Ea|Ea].
  - rewrite (extend_more _ _ _ _ _ _ Es E Ea). unfold scanned. cbn [set_sections ss_sec ss_sections]. rewrite Es.
    assert (u64 (sec_size sec + m) = sec_size sec + m) as Em by (apply wrap_small; unfold fits; subst m; lia).
    exists secs, (grown sec m). unfold grown. cbn [sec_filepos sec_vma sec_size]. rewrite Em. split; [done|].
    split; [done|]. split; [by eapply grows|]. subst m. lia.
  - apply Hnew. intros secs' sec' _ E'. rewrite E in E'. apply app_inj_tail in E' as [_ <-]. done.
Qed.

(** ** Lines of symbols *)

Lemma next_nonblank_some rest c rest' :
  next_nonblank rest = Some (c, rest') -> rest' `suffix_of` rest /\ (length rest' < length rest)%nat.
Proof.
  induction rest as [|d rest IH]; [done|]. cbn [next_nonblank]. destruct (is_blank _).
  - intros Hn. destruct (IH Hn). split; [by apply suffix_cons_r|]. cbn. lia.
  - intros [= _ <-]. split; [by apply suffix_cons_r|]. cbn. lia.
Qed.

Lemma read_word_some rest w rest' :
  read_word rest = Some (w, rest') -> rest' `suffix_of` rest /\ (length rest' < length rest)%nat.
Proof.
  revert w. induction rest as [|d rest IH]; intros w; [done|]. cbn [read_word]. destruct (isspace _).
  - intros [= _ <-]. split; [by apply suffix_cons_r|]. cbn. lia.
  - destruct (read_word rest) as [[w' r]|]; [|done]. cbn [mbind option_bind]. intros [= _ <-].
    destruct (IH w' eq_refl). split; [by apply suffix_cons_r|]. cbn. lia.
Qed.

Lemma read_hex_some c v rest v' c' rest' :
  read_hex c v rest = Some (v', c', rest') -> rest' `suffix_of` rest /\ (length rest' <= length rest)%nat.
Proof.
  revert c v. induction rest as [|d rest IH]; intros c v; cbn [read_hex].
  - destruct (hex_p c); [done|]. by intros [= _ _ <-].
  - destruct (hex_p c); [|by intros [= _ _ <-]]. intros Hr. destruct (IH _ _ Hr). split; [by apply suffix_cons_r|]. cbn. lia.
Qed.

Lemma or_end_defined {A} (o : option A) : or_end f o <> Undef.
Proof. by destruct o. Qed.

Lemma or_end_Ret {A} (o : option A) a : or_end f o = Ret a -> o = Some a.
Proof. destruct o; [by intros [= ->]|done]. Qed.

Lemma one_symbol_shrinks rest :
  srec_one_symbol f rest <> Undef /\
  forall s c rest', srec_one_symbol f rest = Ret (s, c, rest') -> rest' `suffix_of` rest /\ (length rest' < length rest)%nat.
Proof.
  unfold srec_one_symbol. destruct (or_end f (next_nonblank rest)) as [[c1 r1]| |] eqn:E1; [|by split|by apply or_end_defined in E1].
  apply or_end_Ret, next_nonblank_some in E1 as [Hs1 Hl1]. cbn [mbind outcome_bind].
  destruct ((c1 =? 10) || (c1 =? 13)); [split; [done|]; by intros s c rest' [= _ _ <-]|].
  destruct (or_end f (read_word r1)) as [[w r2]| |] eqn:E2; [|by split|by apply or_end_defined in E2].
  apply or_end_Ret, read_word_some in E2 as [Hs2 Hl2]. cbn [mbind outcome_bind].
  destruct (or_end f (next_nonblank r2)) as [[c3 r3]| |] eqn:E3; [|by split|by apply or_end_defined in E3].
  apply or_end_Ret, next_nonblank_some in E3 as [Hs3 Hl3]. cbn [mbind outcome_bind].
  assert (exists o, (if c3 =? 36 then or_end f (match r3 with d :: rest => Some (d .& 0xff, rest) | [] => None end)
                     else Ret (c3, r3)) = o /\ o <> Undef /\
          forall c4 r4, o = Ret (c4, r4) -> r4 `suffix_of` r3 /\ (length r4 <= length r3)%nat) as (o & -> & Hd & Ho).
  { eexists. split; [done|]. destruct (c3 =? 36); [|split; [done|by intros ?? [= _ <-]]].
    destruct r3 as [|d r3]; [by split|]. split; [done|]. intros ?? [= _ <-]. split; [by apply suffix_cons_r|]. cbn. lia. }
  destruct o as [[c4 r4]| |]; [|by split|done]. destruct (Ho c4 r4 eq_refl) as [Hs4 Hl4]. cbn [mbind outcome_bind].
  destruct (or_end f (read_hex c4 0 r4)) as [[[v c5] r5]| |] eqn:E5; [|by split|by apply or_end_defined in E5].
  apply or_end_Ret, read_hex_some in E5 as [Hs5 Hl5]. cbn [mbind outcome_bind]. split; [done|]. intros s c rest' [= _ _ <-].
  split; [|lia]. by etrans; [exact Hs5|]; etrans; [exact Hs4|]; etrans; [exact Hs3|]; etrans.
Qed.

Lemma symbol_line_shrinks fuel st rest :
  (length rest < fuel)%nat ->
  srec_symbol_line f fuel st rest <> Undef /\
  forall st' c rest', srec_symbol_line f fuel st rest = Ret (st', c, rest') ->
    rest' `suffix_of` rest /\ (length rest' < length rest)%nat /\ ss_sections st' = ss_sections st /\ ss_sec st' = ss_sec st.
Proof.
  revert st rest. induction fuel as [|fuel IH]; intros st rest Hl; [lia|]. cbn [srec_symbol_line].
  destruct (one_symbol_shrinks rest) as [Hd Hs].
  destruct (srec_one_symbol f rest) as [[[s c] r]| |] eqn:E; [|by split|done]. cbn [mbind outcome_bind].
  destruct (Hs s c r eq_refl) as [Hsuf Hlen]. destruct s as [y|]; [|split; [done|]; by intros st' c' rest' [= <- _ <-]].
  destruct (is_blank c); [|split; [done|]; by intros st' c' rest' [= <- _ <-]].
  destruct (IH (srec_new_symbol st (sy_name y) (sy_val y)) r ltac:(lia)) as [Hd' Hs']. split; [done|].
  intros st' c' rest' Hr. destruct (Hs' st' c' rest' Hr) as (H1 & H2 & H3 & H4).
  split; [by etrans|]. split; [lia|]. by rewrite H3, H4.
Qed.

Lemma skip_line_some rest rest' : skip_line rest = Some rest' -> rest' `suffix_of` rest /\ (length rest' < length rest)%nat.
Proof.
  induction rest as [|d rest IH]; [done|]. cbn [skip_line]. destruct (_ =? 10).
  - intros [= <-]. split; [by apply suffix_cons_r|]. cbn. lia.
  - intros Hn. destruct (IH Hn). split; [by apply suffix_cons_r|]. cbn. lia.
Qed.

(** ** The whole file *)

(** A character that is none of a record stops the reader. *)
Lemma scanned_other st c rest :
  scanned st (c :: rest) -> c .& 0xff <> 83 -> c .& 0xff <> 10 -> c .& 0xff <> 13 -> Forall closed (ss_sections st).
Proof.
  intros Hs H1 H2 H3. eapply scanned_closes; [exact Hs|]. intros sec bs fuel secs _ _ Hb sec' Hv Hsz.
  cbn [srec_read_loop]. replace ((c .& 0xff =? 13) || (c .& 0xff =? 10)) with false by lia.
  destruct (Z.eqb_spec (c .& 0xff) 83); [done|]. apply fail_within. lia.
Qed.

Lemma scanned_eof st : sf_io_error f = false -> scanned st [] -> Forall closed (ss_sections st).
Proof.
  intros Hio Hs. eapply scanned_closes; [exact Hs|]. intros sec bs fuel secs _ _ Hb sec' Hv Hsz.
  cbn [srec_read_loop]. rewrite Hio. apply complete_within. lia.
Qed.

Lemma suffix_tail (c : Z) rest l : (c :: rest) `suffix_of` l -> rest `suffix_of` l.
Proof. intros Hs. etrans; [|exact Hs]. by apply suffix_cons_r. Qed.

Lemma scan_loop_safe fuel st lineno rest :
  (length rest < fuel)%nat -> rest `suffix_of` sf_bytes f -> scanned st rest ->
  srec_scan_loop f fuel st lineno rest <> Undef /\
  forall st', srec_scan_loop f fuel st lineno rest = Ret st' -> Forall closed (ss_sections st').
Proof.
  revert st lineno rest. induction fuel as [|fuel IH]; intros st lineno rest Hl Hsuf Hs; [lia|].
  cbn [srec_scan_loop]. destruct rest as [|c rest].
  { destruct (sf_io_error f) eqn:Hio; [by split|]. split; [done|]. intros st' [= <-]. by apply scanned_eof. }
  cbn [length] in Hl. pose proof (suffix_tail _ _ _ Hsuf) as Hsuf'.
  assert (forall st' lineno' rest', rest' `suffix_of` rest -> (length rest' <= length rest)%nat ->
    ss_sec st' = false -> Forall closed (ss_sections st') ->
    srec_scan_loop f fuel st' lineno' rest' <> Undef /\
    forall st2, srec_scan_loop f fuel st' lineno' rest' = Ret st2 -> Forall closed (ss_sections st2)) as Hnext.
  { intros st' lineno' rest' Hsuf2 Hlen Hsec Hall. apply IH; [lia|by etrans|]. unfold scanned. by rewrite Hsec. }
  destruct (Z.eqb_spec (c .& 0xff) 10) as [E10|N10].
  { apply IH; [lia|done|]. eapply scanned_newline; [exact Hs|]. by rewrite E10. }
  destruct (Z.eqb_spec (c .& 0xff) 13) as [E13|N13].
  { apply IH; [lia|done|]. eapply scanned_newline; [exact Hs|]. by rewrite E13. }
  destruct (Z.eqb_spec (c .& 0xff) 36) as [E36|N36].
  { destruct (or_end f (skip_line rest)) as [r| |] eqn:Er; [|by split|by apply or_end_defined in Er].
    apply or_end_Ret, skip_line_some in Er as [Hr1 Hr2]. cbn [mbind outcome_bind].
    apply Hnext; [done|lia|done|]. apply (scanned_other st c rest); [done|lia..]. }
  destruct (Z.eqb_spec (c .& 0xff) 32) as [E32|N32].
  { destruct (symbol_line_shrinks (S (length rest)) (set_sec false st) rest ltac:(lia)) as [Hd Hr].
    destruct (srec_symbol_line _ _ _ _) as [[[st1 c1] r]| |] eqn:Er; [|by split|done]. cbn [mbind outcome_bind].
    destruct (Hr st1 c1 r eq_refl) as (Hr1 & Hr2 & Hr3 & Hr4).
    assert (Forall closed (ss_sections st1)) as Hall by (rewrite Hr3; apply (scanned_other st c rest); [done|lia..]).
    destruct (c1 =? 10); [apply Hnext; (done || lia)|]. destruct (c1 =? 13); [apply Hnext; (done || lia)|by split]. }
  destruct (Z.eqb_spec (c .& 0xff) 83) as [E83|N83]; [|by split].
  destruct (scan_record_cases st lineno (tell f rest - 1) rest) as [Hd Hr].
  destruct (srec_scan_record _ _ _ _ _) as [[[st1 ended] r]| |] eqn:Er; [|by split|done]. cbn [mbind outcome_bind].
  destruct (Hr st1 ended r eq_refl) as (hdr & buf & type & bytes & Hp & Ho).
  pose proof (parts_length _ _ _ _ _ _ Hp) as Hlen. pose proof (pt_range _ _ _ _ _ _ Hp) as Hrange.
  pose proof (min_bytes_pos type) as Hmin.
  assert (r `suffix_of` sf_bytes f) as Hsr by (etrans; [by eapply parts_suffix|done]).
  destruct Ho as [Hda|n a Hda Ha Haf|a Hda|Hda].
  - destruct (scanned_no_data _ _ _ _ _ _ _ _ Hs E83 Hp Hda) as [Hall _]. apply IH; [lia|done|]. done.
  - apply IH; [lia|done|]. by eapply scanned_data_record.
  - destruct (scanned_no_data _ _ _ _ _ _ _ _ Hs E83 Hp Hda) as [Hall _]. split; [done|]. by intros st' [= <-].
  - destruct (scanned_no_data _ _ _ _ _ _ _ _ Hs E83 Hp Hda) as [_ Hs']. by apply IH; [lia|..].
Qed.

(** A section that is read without an error is read in full. *)
Lemma read_loop_full fuel sec bs rest contents :
  srec_read_loop f fuel sec bs rest = (contents, Ret tt) -> Z.of_nat (length contents) = sec_size sec.
Proof.
  assert (forall bs, (bs, complete sec bs) = (contents, Ret tt) -> Z.of_nat (length contents) = sec_size sec) as Hc.
  { unfold complete, ensure. intros l [= -> E]. by destruct (Z.eqb_spec (Z.of_nat (length contents)) (sec_size sec)). }
  revert bs rest. induction fuel as [|fuel IH]; intros bs rest; [done|]. cbn [srec_read_loop].
  destruct rest as [|c rest]; [destruct (sf_io_error f); [done|apply Hc]|].
  destruct (_ || _); [apply IH|]. destruct (negb _); [done|]. case_match; [|done..].
  repeat case_match; try done; try apply Hc. by apply IH.
Qed.
End safe.

(** C6: Scanning any file ends without reading outside a buffer.  Reading a section
    that was made never reads outside a record or stores past the contents of the
    section; when it succeeds, the section is read in full, and any part of it is
    delivered. *)
Theorem srec_scan_safe `{HexDigits} (f : srec_file) :
  Z.of_nat (length (sf_bytes f)) < 2 ^ 64 ->
  srec_scan f <> Undef /\
  forall st sec, srec_scan f = Ret st -> sec ∈ ss_sections st ->
    exists contents r, srec_read_section f sec = (contents, r) /\ r <> Undef /\
      Z.of_nat (length contents) <= sec_size sec /\
      (r = Ret tt -> Z.of_nat (length contents) = sec_size sec /\
         forall offset count, 0 <= offset -> 0 < count -> offset + count <= sec_size sec -> offset + count < 2 ^ 64 ->
           snd (srec_get_section_contents f sec None offset count) =
             Ret (take (Z.to_nat count) (drop (Z.to_nat offset) contents))).
Proof.
  intros Hfile.
  destruct (scan_loop_safe f Hfile (S (length (sf_bytes f))) srec_initial 1 (sf_bytes f)) as [Hd Hall];
    [lia|done|constructor|].
  split; [done|]. intros st sec Hst Hin. pose proof (Hall st Hst) as Hc. rewrite Forall_forall in Hc.
  destruct (srec_read_section f sec) as [contents r] eqn:E. exists contents, r.
  destruct (Hc sec Hin sec eq_refl eq_refl ltac:(lia)) as [H1 H2]. rewrite E in H1, H2. cbn [fst snd] in H1, H2.
  split; [done|]. split; [done|]. split; [done|]. intros ->.
  pose proof (read_loop_full f _ _ _ _ _ E) as Hfull. split; [done|]. intros offset count Ho Hc0 Hle H64.
  unfold srec_get_section_contents. rewrite E. destruct (Z.eqb_spec count 0); [lia|].
  rewrite wrap_small by (unfold fits; lia).
  replace ((offset + count <? count) || (sec_size sec <? offset + count)) with false by lia. cbn [snd].
  destruct (Z.leb_spec (offset + count) (Z.of_nat (length contents))); [done|lia].
Qed.

Definition sample_srec : srec_file :=
  mkSrecFile ([83; 49; 48; 53; 48; 48; 48; 48; 48; 49; 48; 50; 70; 55; 13; 10] ++
              [83; 57; 48; 51; 48; 48; 48; 48; 70; 67; 13; 10]) false.

Lemma srec_scan_safe_witness :
  exists st sec contents, srec_scan sample_srec = Ret st /\ sec ∈ ss_sections st /\
    srec_read_section sample_srec sec = (contents, Ret tt) /\ Z.of_nat (length contents) = 2.
Proof.
  destruct (srec_scan_safe sample_srec) as [_ Hs]; [vm_compute; reflexivity|].
  set (sec := mkSection 1 259 0 0 2 0).
  assert (srec_scan sample_srec = Ret (mkSrec 0 [sec] [] true)) as Hscan by (vm_compute; reflexivity).
  destruct (Hs _ sec Hscan) as (contents & r & H1 & _ & _ & H2); [cbn; set_solver|].
  assert (srec_read_section sample_srec sec = ([1; 2], Ret tt)) as E by (vm_compute; reflexivity).
  rewrite E in H1. injection H1 as <- <-. exists (mkSrec 0 [sec] [] true), sec, [1; 2].
  split; [exact Hscan|]. split; [cbn; set_solver|]. split; [exact E|]. apply H2. reflexivity.
Defined.
