(* ===== verification/SrecLimits.v ===== *)
(** Where S-records do not give back what was written or scanned, on concrete
    files, and data that are never written to the end. *)

From S2P Require Import Prelude BfdSection Linker Decimal Hex Ihex IhexScan IhexWrite.
From S2P Require Import Srec SrecScan SrecRead SrecSymbols SrecRound.

(** ** Files *)

(** The lines of a file. *)
Definition file_of (lines : list string) : srec_file :=
  mkSrecFile (concat ((fun l => c_str l ++ [13; 10]) <$> lines)) false.

(** What the sections of a scanned file hold. *)
Definition section_reads (f : srec_file) : srec (list (Z * (list Z * srec unit))) :=
  st ← srec_scan f; Ret ((fun sec => (sec_vma sec, srec_read_section f sec)) <$> ss_sections st).

Definition plain : srec_file := file_of ["S10500000102F7"; "S1050002AABB93"; "S9030000FC"]%string.

Example plain_reads : section_reads plain = Ret [(0, ([1; 2; 0xaa; 0xbb], Ret tt))].
Proof. by vm_compute. Qed.

(** Symbols behind the data: the file is scanned, and the section cannot be
    read. *)
Definition symbols_behind : srec_file :=
  file_of ["S10500000102F7"; "$$ mod"; "  foo $10"; "$$ "; "S9030000FC"]%string.

Example symbols_end_section :
  srec_scan symbols_behind = Ret (mkSrec 0 [mkSection 1 0x103 0 0 2 0] [mkSrecSymbol (c_str "foo") 0x10] false) /\
  section_reads symbols_behind = Ret [(0, ([1; 2], Fail BadSection))].
Proof. by split; vm_compute. Qed.

(** A record of the reserved type 4 between records of data: the scanner goes on
    with the section, and the reader stops there. *)
Definition reserved_between : srec_file :=
  file_of ["S10500000102F7"; "S403000000"; "S1050002AABB93"; "S9030000FC"]%string.

Example reserved_breaks_section : section_reads reserved_between = Ret [(0, ([1; 2], Fail BadSection))].
Proof. by vm_compute. Qed.

(** When reading failed, the buffer stays: the next call delivers what was never
    stored in it. *)
Example failed_read_is_kept :
  let sec := mkSection 1 0x103 0 0 4 0 in
  let '(used, r) := srec_get_section_contents reserved_between sec None 0 4 in
  r = Fail BadSection /\ snd (srec_get_section_contents reserved_between sec used 0 4) = Undef.
Proof. by vm_compute. Qed.

(** Two records with a gap between them make two sections. *)
Definition with_gap : srec_file := file_of ["S10500000102F7"; "S1050010AABB85"; "S9030000FC"]%string.

Example gap_makes_sections :
  section_reads with_gap = Ret [(0, ([1; 2], Ret tt)); (0x10, ([0xaa; 0xbb], Ret tt))].
Proof. by vm_compute. Qed.

(** ** Addresses that do not fit *)

(** What is read back of some data and a start address. *)
Definition written_back (lma start : Z) (data : list Z) : srec (Z * list (Z * (list Z * srec unit))) :=
  let td := srec_set_section_contents 1 false srec_mkobject (loaded lma) data 0 in
  '(out, _) ← srec_write_object_contents 1 (c_str "a.srec") (fun _ _ => true) 16 td start [];
  let f := mkSrecFile out false in
  st ← srec_object_p f;
  sections ← section_reads f;
  Ret (ss_start st, sections).

(** The same with two octets to a byte: the second record is at the byte after
    the first, where the first section has not ended for the scanner. *)
Definition wide_back (lma : Z) (data : list Z) : srec (list (Z * (list Z * srec unit))) :=
  let td := srec_set_section_contents 2 false srec_mkobject (loaded lma) data 0 in
  '(out, _) ← srec_write_object_contents 2 (c_str "a.srec") (fun _ _ => true) 4 td 0 [];
  section_reads (mkSrecFile out false).

Example wide_bytes_overlap :
  wide_back 0 [1; 2; 3; 4; 5; 6] = Ret [(0, ([1; 2; 3; 4], Ret tt)); (2, ([5; 6], Ret tt))].
Proof. by vm_compute. Qed.

(** Data past 4 GiB are written without complaint at their address modulo
    2^32. *)
Example high_address_is_cut : written_back 0x100000010 0 [1; 2] = Ret (0, [(0x10, ([1; 2], Ret tt))]).
Proof. by vm_compute. Qed.

(** The kind of the records is chosen by the data: a start address beyond it loses
    its high bits. *)
Example start_address_is_cut : written_back 0x100 0x12345 [1; 2] = Ret (0x2345, [(0x100, ([1; 2], Ret tt))]).
Proof. by vm_compute. Qed.

(** ** Data of 4 GiB *)

(** When a multiple of 2^32 octets is left, each turn of the loop writes a record
    without data and leaves the rest as it was: no number of turns is enough. *)
Theorem write_section_hangs `{HexDigits} takes fuel out srec_len type where_ size octets_written location :
  (forall out bs, takes out bs = true) -> data_type type -> 0 < srec_len -> fits 32 octets_written ->
  octets_written < size -> u32 (size - octets_written) = 0 ->
  write_section_loop 1 takes fuel out srec_len type where_ size octets_written location = Undef.
Proof.
  intros Ht Hty Hlen Ho Hlt Hz. revert out location. induction fuel as [|fuel IH]; intros out location; [done|].
  cbn [write_section_loop]. destruct (Z.ltb_spec octets_written size); [|lia]. rewrite Hz.
  destruct (Z.ltb_spec srec_len 0); [lia|]. change (Z.to_nat 0) with 0%nat. rewrite take_0, drop_0.
  rewrite write_record_spec; [|done|by destruct (data_type_facts type Hty)|constructor|].
  - cbn [mbind outcome_bind]. rewrite Z.add_0_r, (wrap_small 32) by done. apply IH.
  - pose proof (type_bytes_data type Hty). cbn [length]. unfold type_bytes. repeat case_match; lia.
Qed.

Theorem four_gib_hangs `{HexDigits} takes fuel out where_ location :
  (forall out bs, takes out bs = true) -> Z.of_nat (length location) = 2 ^ 32 ->
  write_section_loop 1 takes fuel out (clamp_len DEFAULT_CHUNK 3) 3 where_ (Z.of_nat (length location)) 0 location = Undef.
Proof.
  intros Ht Hl. apply write_section_hangs; [done|set_solver|done|done|lia|]. by rewrite Hl.
Qed.
